(* ===== verification/_CoqProject ===== *)
-Q . S2P
Prelude.v
Bytes.v
ArithUint256.v
Compact.v
Pow.v
Fips180.v
HashEngine.v
Sha256.v
Sha512.v
Sha1.v
Ripemd160.v
Hash.v
SipHash.v
Merkle.v
Serialize.v
Containers.v
Script.v
Amount.v
Transaction.v
Block.v
MerkleBlock.v
ProviderTx.v
MasternodeList.v
MasternodeQueue.v
QuorumCommitment.v
EvoDb.v
Compressor.v
Interpreter.v
InterpreterProps.v
InterpreterSpec.v
SigHash.v
Standard.v
Base58.v
NetAddress.v
LockTime.v
Chain.v
VersionBits.v
Coins.v
UtxoBlock.v
ProviderChecks.v
QuorumProcessor.v
DeterministicMNs.v
SimplifiedMNs.v
SpecialTx.v
Caches.v
Governance.v
Payments.v
