(* ===== verification/Prelude.v ===== *)
(** * Verified models of the Pyrk node's consensus core

    Pyrk is a cryptocurrency node of the Bitcoin family (C++, under src/src/).  This
    library models the deterministic core every node has to agree on, in
    executable Gallina, and proves what makes it correct.  Definitions keep the
    names of the code.  The parts, from the bottom up:

    - Prelude.v, Bytes.v: machine integers as [Z] with the wrap-around written out,
      byte lists, the result type of code that throws, little- and big-endian
      accesses (crypto/common.h).
    - ArithUint256.v, Compact.v, Pow.v: arith_uint256.h/.cpp (five 32-bit limbs loops
      as the code has them), compact targets, the three retargeting algorithms of
      pow.cpp over a block index, the proof-of-work check.
    - Fips180.v: the standards of the hash functions, independent of the code: padding,
      blocks and digest words.  HashEngine.v with Sha256.v, Sha512.v, Sha1.v, Ripemd160.v:
      crypto/*.cpp, streaming hashers with buffers and counters; Hash.v and SipHash.v what
      hash.h, crypto/hmac_*.cpp build on them.
    - Merkle.v: consensus/merkle.cpp.
    - Serialize.v, Containers.v: serialize.h, integers to vectors, as writers to byte
      lists and readers that may throw; class [Serializable] with its law
      [RoundTrip] is the interface the later formats are proved against.
    - Script.v, Amount.v, Compressor.v: script/script.h/.cpp, amount.h/.cpp,
      compressor.h/.cpp.
    - Transaction.v: primitives/transaction.h/.cpp; Block.v: primitives/block.h/.cpp;
      MerkleBlock.v: proofs that transactions are in a block (merkleblock.h/.cpp).
    - ProviderTx.v: the payloads of masternode transactions (evo/providertx.h); class
      [BLSCurve] is the curve library.  MasternodeList.v: the list of masternodes with
      its index of unique properties, penalties and differences
      (evo/deterministicmns.h/.cpp); MasternodeQueue.v: whose turn it is to be paid, and
      who is in a quorum.  QuorumCommitment.v: final commitments of quorums
      (llmq/quorums_commitment.h/.cpp, bit sets of serialize.h).  EvoDb.v: the nested
      transactions of the evolution database (dbwrapper.h, evo/evodb.h/.cpp); class
      [KVStore] is what a transaction reads from, [KVTarget] what it commits to.
    - Standard.v: output types and destinations (script/standard.h/.cpp); Base58.v:
      addresses and keys as text (base58.h/.cpp); NetAddress.v: classes of network
      addresses and subnets (netaddress.h/.cpp).
    - Interpreter.v, with InterpreterProps.v and InterpreterSpec.v: script/interpreter.cpp,
      one definition per group of opcodes, against the virtual signature checker;
      SigHash.v: the signature hash and the checker of a transaction's input.
    - LockTime.v: absolute and relative lock times (validation.cpp).
    - Chain.v: the block index as a store of pointers, its skip list, the active chain and
      locators (chain.h/.cpp); VersionBits.v: the states of soft-fork deployments on it
      (versionbits.h/.cpp).
    - Coins.v: the cache of unspent outputs over any view (coins.h/.cpp); class
      [CCoinsView] is the virtual interface, [CCoinsViewLaws] its promise, and the
      cache implements both, so caches stack.  UtxoBlock.v: connecting and
      disconnecting the transactions of a block (validation.cpp).
    - ProviderChecks.v, QuorumProcessor.v, DeterministicMNs.v, SimplifiedMNs.v, SpecialTx.v:
      the contextual checks of masternode transactions (evo/providertx.cpp), the quorum
      block processor with its messages (llmq/quorums_blockprocessor.cpp), the manager of
      the lists (evo/deterministicmns.cpp), the lists of light clients
      (evo/simplifiedmns.cpp), and a block's special transactions together
      (evo/specialtx.cpp, evo/cbtx.cpp).
    - Caches.v: lists with an index of iterators (cachemap.h, cachemultimap.h); Governance.v:
      the votes of a governance object (governance-object.cpp, governance-vote.cpp,
      governance-votedb.cpp); Payments.v: subsidies, superblocks, what a coinbase may and
      must pay, and the coinbase a miner builds (validation.cpp, masternode-payments.cpp,
      governance-classes.cpp).

    ** How the code is represented

    Integers are [Z] in the range of their type; conversions and sums that may wrap are
    wrapped ([u32], [i64], ...).  Bytes are [Z] in [0..255], buffers and scripts
    lists of them, [uint256] its 32 bytes in memory order.  Code that throws or
    asserts returns [result E A]; where the only failures are assertions and null
    pointers, [option].  Objects the code mutates are passed and returned.  Pointers
    to block index entries are keys of a store in Chain.v; elsewhere a pointer is
    the list of the entry and its ancestors.

    ** What the theorems show

    Refinement and equivalence: the hashers compute their standards, Merkle roots and
    branches their recursive definition, limb arithmetic is arithmetic modulo [2^256],
    the coins cache is a map, SignatureHash equals the older definition of the
    tests, signature checks follow the DER rules; the masternode to pay is the head of a
    queue, and everybody is paid in turn.  The nested transactions of the
    evolution database are three maps; the list of any block is the one that was built
    when it was connected, whatever was connected, undone and asked in between; a light
    client that applies differences has the node's list.  Round trips: every encoding above, addresses as
    text, standard scripts, and disconnecting a connected block, its coins as its masternode
    lists and commitments.  Invariants and bounds: targets
    stay within the limit, the interpreter's limits hold, the chain array is a path
    of the block tree.  Termination: no modelled loop runs out of fuel, the
    interpreter always returns.  Safety: script flags only restrict, lock-time
    opcodes are enforced by the transaction's lock times, a partial Merkle tree
    proves only what its root commits to; a block's special transactions never assert,
    and an accepted coinbase commits to the list the node keeps for the block; it is worth at
    most the reward and, where one was voted, a superblock, and a miner's coinbase passes
    the checks.

    ** Fuel

    Loops that are not structural take fuel, chosen by their callers from a measure
    (bytes left, height, bits of a numerator, outputs per block), and theorems state
    that this fuel suffices, not only what holds if it does.

    ** Not modelled

    Curve operations (libsecp256k1, chiabls), the five proof-of-work hash functions and
    other vendored code are parameters or left out.  Memory layout and leaks, locks and
    threads have no counterpart here: the model is of one thread that holds the locks.
    Files, LevelDB, sockets, peer messages, RPC, wallet and GUI are input and output.
    Of governance the votes and superblocks are modelled, its manager, its JSON data and its
    messages are not; sporks, mixing and instant send are driven by peers and clocks; the
    mempool and its fee estimates rest on multi-index containers and floating point.
    Of validation.cpp the parts that read the disk or drive other threads are left
    out.  A masternode list below the first snapshot height (576) is outside the
    theorems on the manager: see [next_block] of DeterministicMNs.v. *)

From stdpp Require Export base list numbers.
From Stdlib Require Export ZArith Lia Bool.

#[global] Open Scope Z_scope.

(** ** Machine integers

    Every C++ integer is a [Z].  [u8 .. u64] are the conversions to the
    unsigned types (reduction modulo [2^w]), [i32] and [i64] the conversions to
    the signed ones (two's complement). *)

Declare Scope cxx_scope.
Delimit Scope cxx_scope with cxx.

Definition wrapu (w x : Z) : Z := x mod 2 ^ w.
Definition wraps (w x : Z) : Z := (x + 2 ^ (w - 1)) mod 2 ^ w - 2 ^ (w - 1).

Definition u8 (x : Z) : Z := wrapu 8 x.
Definition u16 (x : Z) : Z := wrapu 16 x.
Definition u32 (x : Z) : Z := wrapu 32 x.
Definition u64 (x : Z) : Z := wrapu 64 x.
Definition i16 (x : Z) : Z := wraps 16 x.
Definition i32 (x : Z) : Z := wraps 32 x.
Definition i64 (x : Z) : Z := wraps 64 x.

Definition is_u (w x : Z) : Prop := 0 <= x < 2 ^ w.
Definition is_s (w x : Z) : Prop := - 2 ^ (w - 1) <= x < 2 ^ (w - 1).

(** Integers used as C++ truth values. *)
Definition nz (x : Z) : bool := negb (x =? 0).
Definition b2z (b : bool) : Z := if b then 1 else 0.

Notation "x .& y" := (Z.land x y) (at level 40, left associativity) : cxx_scope.
Notation "x .| y" := (Z.lor x y) (at level 45, left associativity) : cxx_scope.
Notation "x .^ y" := (Z.lxor x y) (at level 44, left associativity) : cxx_scope.
Notation "x .>> y" := (Z.shiftr x y) (at level 38, left associativity) : cxx_scope.
Notation "x .<< y" := (Z.shiftl x y) (at level 38, left associativity) : cxx_scope.

Create HintDb cxx.

Lemma wrapu_range w x : 0 <= w -> is_u w (wrapu w x).
Proof. intros. apply Z.mod_pos_bound. lia. Qed.

Lemma wrapu_id w x : is_u w x -> wrapu w x = x.
Proof. intros. by apply Z.mod_small. Qed.

Lemma wraps_range w x : 0 < w -> is_s w (wraps w x).
Proof.
  intros. unfold is_s, wraps.
  pose proof (Z.mod_pos_bound (x + 2 ^ (w - 1)) (2 ^ w) ltac:(lia)).
  assert (2 ^ w = 2 * 2 ^ (w - 1)).
  { rewrite <- Z.pow_succ_r by lia. f_equal. lia. }
  lia.
Qed.

Lemma wraps_id w x : 0 < w -> is_s w x -> wraps w x = x.
Proof.
  unfold is_s, wraps. intros Hw Hx.
  assert (2 ^ w = 2 * 2 ^ (w - 1)).
  { rewrite <- Z.pow_succ_r by lia. f_equal. lia. }
  rewrite Z.mod_small; lia.
Qed.

(** Two's complement: the signed and the unsigned reading of the same bits. *)
Lemma wraps_wrapu w x : 0 < w -> wraps w (wrapu w x) = wraps w x.
Proof. intros. unfold wraps, wrapu. by rewrite Zplus_mod_idemp_l. Qed.
Lemma wrapu_wraps w x : 0 < w -> wrapu w (wraps w x) = wrapu w x.
Proof.
  intros. unfold wraps, wrapu. rewrite Zminus_mod_idemp_l. f_equal. lia.
Qed.
Lemma i32_u32 x : is_s 32 x -> i32 (u32 x) = x.
Proof. intros. unfold i32, u32. rewrite wraps_wrapu by lia. by apply wraps_id. Qed.
Lemma i64_u64 x : is_s 64 x -> i64 (u64 x) = x.
Proof. intros. unfold i64, u64. rewrite wraps_wrapu by lia. by apply wraps_id. Qed.
Lemma u32_i32 x : u32 (i32 x) = u32 x.
Proof. by apply wrapu_wraps. Qed.
Lemma u64_i64 x : u64 (i64 x) = u64 x.
Proof. by apply wrapu_wraps. Qed.

Lemma u32_range x : is_u 32 (u32 x).
Proof. by apply wrapu_range. Qed.
Lemma u64_range x : is_u 64 (u64 x).
Proof. by apply wrapu_range. Qed.
Lemma u8_range x : is_u 8 (u8 x).
Proof. by apply wrapu_range. Qed.
Lemma u16_range x : is_u 16 (u16 x).
Proof. by apply wrapu_range. Qed.
Lemma u32_id x : is_u 32 x -> u32 x = x.
Proof. apply wrapu_id. Qed.
Lemma u64_id x : is_u 64 x -> u64 x = x.
Proof. apply wrapu_id. Qed.
Lemma u8_id x : is_u 8 x -> u8 x = x.
Proof. apply wrapu_id. Qed.
Lemma u16_id x : is_u 16 x -> u16 x = x.
Proof. apply wrapu_id. Qed.

#[export] Hint Resolve u8_range u16_range u32_range u64_range : cxx.

(** Masks and shifts as arithmetic. *)
Lemma land_mask n x : 0 <= n -> Z.land x (2 ^ n - 1) = x mod 2 ^ n.
Proof.
  intros. replace (2 ^ n - 1) with (Z.ones n); [by apply Z.land_ones|].
  rewrite Z.ones_equiv. lia.
Qed.

Lemma land_ff x : Z.land x 0xff = x mod 2 ^ 8.
Proof. by apply (land_mask 8). Qed.
Lemma land_ffffffff x : Z.land x 0xffffffff = x mod 2 ^ 32.
Proof. by apply (land_mask 32). Qed.

Lemma shiftr_div n x : 0 <= n -> Z.shiftr x n = x / 2 ^ n.
Proof. intros. by apply Z.shiftr_div_pow2. Qed.
Lemma shiftl_mul n x : 0 <= n -> Z.shiftl x n = x * 2 ^ n.
Proof. intros. by apply Z.shiftl_mul_pow2. Qed.

(** Disjoint bit patterns add up. *)
Lemma lor_disjoint_add n x y :
  0 <= n -> 0 <= x < 2 ^ n -> Z.lor x (Z.shiftl y n) = x + y * 2 ^ n.
Proof.
  intros Hn Hx.
  rewrite <- Z.add_lor_land, <- shiftl_mul by done.
  replace (Z.land x (Z.shiftl y n)) with 0; [lia|].
  symmetry. apply Z.bits_inj'. intros i Hi.
  rewrite Z.land_spec, Z.bits_0.
  destruct (Z_lt_ge_dec i n).
  - rewrite Z.shiftl_spec_low by done. apply andb_false_r.
  - replace x with (x mod 2 ^ n) by (apply Z.mod_small; lia).
    rewrite Z.mod_pow2_bits_high by lia. done.
Qed.

(** An integer is in range as soon as its bits above the width are clear. *)
Lemma is_u_bits w x :
  0 <= w -> (forall i, w <= i -> Z.testbit x i = false) -> is_u w x.
Proof.
  intros Hw Hb. replace x with (x mod 2 ^ w); [by apply wrapu_range|].
  apply Z.bits_inj'. intros i Hi. destruct (Z_lt_ge_dec i w).
  - by apply Z.mod_pow2_bits_low.
  - rewrite Z.mod_pow2_bits_high, Hb by lia. done.
Qed.

Lemma bits_is_u w x i : is_u w x -> 0 <= w <= i -> Z.testbit x i = false.
Proof.
  intros Hx Hi. rewrite <- (wrapu_id w x Hx). apply Z.mod_pow2_bits_high. lia.
Qed.

Lemma is_u_lor w : 0 <= w -> forall x y, is_u w x -> is_u w y -> is_u w (Z.lor x y).
Proof.
  intros Hw x y Hx Hy. apply is_u_bits; [done|]. intros i Hi.
  rewrite Z.lor_spec, (bits_is_u w x), (bits_is_u w y) by (done || lia). done.
Qed.
Lemma is_u_land w : 0 <= w -> forall x y, is_u w x -> is_u w y -> is_u w (Z.land x y).
Proof.
  intros Hw x y Hx Hy. apply is_u_bits; [done|]. intros i Hi.
  rewrite Z.land_spec, (bits_is_u w x), (bits_is_u w y) by (done || lia). done.
Qed.
Lemma is_u_lxor w : 0 <= w -> forall x y, is_u w x -> is_u w y -> is_u w (Z.lxor x y).
Proof.
  intros Hw x y Hx Hy. apply is_u_bits; [done|]. intros i Hi.
  rewrite Z.lxor_spec, (bits_is_u w x), (bits_is_u w y) by (done || lia). done.
Qed.

Lemma nz_true x : x <> 0 -> nz x = true.
Proof. intros. unfold nz. by rewrite (proj2 (Z.eqb_neq _ _)). Qed.

(** ** Arrays

    A fixed-size C++ array is a list; [aget] reads it (the source never reads
    out of range where the model applies) and stdpp's insert writes it. *)
Definition aget (l : list Z) (i : nat) : Z := nth i l 0.

Lemma aget_cons_0 x l : aget (x :: l) 0 = x.
Proof. done. Qed.
Lemma aget_cons_S x l i : aget (x :: l) (S i) = aget l i.
Proof. done. Qed.

Lemma aget_lookup l i x : l !! i = Some x -> aget l i = x.
Proof. intros H. unfold aget. by apply nth_lookup_Some with (d := 0) in H. Qed.

Lemma aget_default l i : aget l i = default 0 (l !! i).
Proof. unfold aget. apply nth_lookup. Qed.

Lemma aget_ge l i : (length l <= i)%nat -> aget l i = 0.
Proof. intros. by apply nth_overflow. Qed.

Lemma aget_Forall (P : Z -> Prop) l i :
  Forall P l -> P 0 -> P (aget l i).
Proof.
  intros HF H0. rewrite aget_default. destruct (l !! i) eqn:E; [|done].
  simpl. by eapply Forall_lookup in E.
Qed.

Lemma aget_app_l l1 l2 i : (i < length l1)%nat -> aget (l1 ++ l2) i = aget l1 i.
Proof. intros. unfold aget. by rewrite app_nth1. Qed.
Lemma aget_app_r l1 l2 i : (length l1 <= i)%nat -> aget (l1 ++ l2) i = aget l2 (i - length l1).
Proof. intros. unfold aget. by rewrite app_nth2. Qed.

(** ** Results of code that throws *)
Inductive result (E A : Type) : Type :=
| Ok (a : A)
| Throw (e : E).
Arguments Ok {E A} a.
Arguments Throw {E A} e.

Definition rbind {E A B} (m : result E A) (k : A -> result E B) : result E B :=
  match m with
  | Ok a => k a
  | Throw e => Throw e
  end.

Notation "'let!' x ':=' m 'in' k" := (rbind m (fun x => k))
  (at level 10, x pattern, m at level 100, k at level 200).

(** ** Tactics *)

(** Linear arithmetic with division and remainder by constants. *)
Ltac dlia := Z.to_euclidean_division_equations; lia.

(** Case analysis on the condition of the first [if] of the goal, turning
    boolean comparisons on [Z] into propositions. *)
Ltac bool_to_prop :=
  repeat match goal with
  | H : _ && _ = true |- _ => apply andb_true_iff in H as [? ?]
  | H : _ && _ = false |- _ => apply andb_false_iff in H
  | H : _ || _ = true |- _ => apply orb_true_iff in H
  | H : _ || _ = false |- _ => apply orb_false_iff in H as [? ?]
  | H : negb _ = true |- _ => apply negb_true_iff in H
  | H : negb _ = false |- _ => apply negb_false_iff in H
  | H : (_ <? _) = true |- _ => apply Z.ltb_lt in H
  | H : (_ <? _) = false |- _ => apply Z.ltb_ge in H
  | H : (_ <=? _) = true |- _ => apply Z.leb_le in H
  | H : (_ <=? _) = false |- _ => apply Z.leb_gt in H
  | H : (_ =? _) = true |- _ => apply Z.eqb_eq in H
  | H : (_ =? _) = false |- _ => apply Z.eqb_neq in H
  end.

Ltac case_if :=
  match goal with
  | |- context [if ?b then _ else _] =>
      let E := fresh "E" in destruct b eqn:E
  end.

Ltac case_if_in H :=
  match type of H with
  | context [if ?b then _ else _] =>
      let E := fresh "E" in destruct b eqn:E
  end.
