(* ===== verification/Bytes.v ===== *)
(** * Byte strings and the fixed-width integer codecs

    A byte is a [Z] in [0, 256), a byte string a [list Z].  Models
    src/src/crypto/common.h: the little- and big-endian reads and writes of
    16, 32 and 64 bit integers. *)

From S2P Require Import Prelude.
Local Open Scope cxx_scope.

Definition bytes_ok (l : list Z) : Prop := Forall (is_u 8) l.

(** The in-memory little-endian image of an [n]-byte unsigned integer, and the
    integer such an image denotes. *)
Fixpoint le_bytes (n : nat) (x : Z) : list Z :=
  match n with
  | O => []
  | S n => (x .& 0xff) :: le_bytes n (x .>> 8)
  end.

Fixpoint le_val (l : list Z) : Z :=
  match l with
  | [] => 0
  | b :: r => b .| (le_val r .<< 8)
  end.

(** ** src/src/crypto/common.h *)

Definition ReadLE16 (ptr : list Z) : Z := le_val (take 2 ptr).
Definition ReadLE32 (ptr : list Z) : Z := le_val (take 4 ptr).
Definition ReadLE64 (ptr : list Z) : Z := le_val (take 8 ptr).
Definition WriteLE16 (x : Z) : list Z := le_bytes 2 x.
Definition WriteLE32 (x : Z) : list Z := le_bytes 4 x.
Definition WriteLE64 (x : Z) : list Z := le_bytes 8 x.
Definition ReadBE32 (ptr : list Z) : Z := le_val (reverse (take 4 ptr)).
Definition ReadBE64 (ptr : list Z) : Z := le_val (reverse (take 8 ptr)).
Definition WriteBE32 (x : Z) : list Z := reverse (le_bytes 4 x).
Definition WriteBE64 (x : Z) : list Z := reverse (le_bytes 8 x).

(** ** Round trips and bounds *)

Lemma length_le_bytes n x : length (le_bytes n x) = n.
Proof. revert x. induction n as [|n IH]; intros x; [done|]. cbn [le_bytes length]. by rewrite IH. Qed.

Lemma le_bytes_ok n x : bytes_ok (le_bytes n x).
Proof.
  revert x. induction n as [|n IH]; intros x; cbn [le_bytes]; constructor; [|apply IH].
  rewrite land_ff. apply Z.mod_pos_bound. lia.
Qed.

Lemma le_val_cons b r : is_u 8 b -> le_val (b :: r) = b + 2 ^ 8 * le_val r.
Proof. intros Hb. cbn [le_val]. rewrite lor_disjoint_add by (done || lia). lia. Qed.

Lemma le_val_bytes n x : le_val (le_bytes n x) = x mod 2 ^ (8 * Z.of_nat n).
Proof.
  revert x. induction n as [|n IH]; intros x.
  - simpl. by rewrite Z.mod_1_r.
  - cbn [le_bytes]. rewrite land_ff, shiftr_div by lia.
    rewrite le_val_cons by (apply Z.mod_pos_bound; lia). rewrite IH.
    replace (8 * Z.of_nat (S n)) with (8 + 8 * Z.of_nat n) by lia.
    rewrite Z.pow_add_r, Z.rem_mul_r by lia. done.
Qed.

Lemma le_val_range l : bytes_ok l -> is_u (8 * Z.of_nat (length l)) (le_val l).
Proof.
  induction 1 as [|b r Hb Hr IH]; [done|]. rewrite le_val_cons by done.
  cbn [length]. replace (8 * Z.of_nat (S (length r))) with (8 + 8 * Z.of_nat (length r)) by lia.
  unfold is_u in *. rewrite Z.pow_add_r by lia. lia.
Qed.

Lemma le_bytes_val l : bytes_ok l -> le_bytes (length l) (le_val l) = l.
Proof.
  induction 1 as [|b r Hb Hr IH]; [done|]. cbn [length le_bytes].
  rewrite le_val_cons, land_ff, shiftr_div by (done || lia). unfold is_u in Hb.
  replace ((b + 2 ^ 8 * le_val r) mod 2 ^ 8) with b by dlia.
  replace ((b + 2 ^ 8 * le_val r) / 2 ^ 8) with (le_val r) by dlia.
  by rewrite IH.
Qed.

Lemma le_val_app l1 l2 :
  bytes_ok l1 -> le_val (l1 ++ l2) = le_val l1 + 2 ^ (8 * Z.of_nat (length l1)) * le_val l2.
Proof.
  induction 1 as [|b l Hb Hl IH]; [cbn [app le_val length]; lia|].
  cbn [app length]. rewrite !le_val_cons, IH, Nat2Z.inj_succ by done.
  replace (8 * Z.succ (Z.of_nat (length l))) with (8 + 8 * Z.of_nat (length l)) by lia.
  rewrite Z.pow_add_r by lia. lia.
Qed.

Lemma le_val_inj a b :
  bytes_ok a -> bytes_ok b -> length a = length b -> le_val a = le_val b -> a = b.
Proof.
  intros Ha Hb Hl Hv. rewrite <- (le_bytes_val a), <- (le_bytes_val b) by done.
  by rewrite Hl, Hv.
Qed.

(** The read of a write, whatever follows it in memory. *)
Lemma ReadLE16_Write x r : is_u 16 x -> ReadLE16 (WriteLE16 x ++ r) = x.
Proof.
  intros Hx. unfold ReadLE16, WriteLE16. rewrite take_app_length' by (by rewrite length_le_bytes).
  rewrite le_val_bytes. by apply Z.mod_small.
Qed.
Lemma ReadLE32_Write x r : is_u 32 x -> ReadLE32 (WriteLE32 x ++ r) = x.
Proof.
  intros Hx. unfold ReadLE32, WriteLE32. rewrite take_app_length' by (by rewrite length_le_bytes).
  rewrite le_val_bytes. by apply Z.mod_small.
Qed.
Lemma ReadLE64_Write x r : is_u 64 x -> ReadLE64 (WriteLE64 x ++ r) = x.
Proof.
  intros Hx. unfold ReadLE64, WriteLE64. rewrite take_app_length' by (by rewrite length_le_bytes).
  rewrite le_val_bytes. by apply Z.mod_small.
Qed.
Lemma ReadBE32_Write x r : is_u 32 x -> ReadBE32 (WriteBE32 x ++ r) = x.
Proof.
  intros Hx. unfold ReadBE32, WriteBE32.
  rewrite take_app_length' by (by rewrite length_reverse, length_le_bytes).
  rewrite reverse_involutive, le_val_bytes. by apply Z.mod_small.
Qed.
Lemma ReadBE64_Write x r : is_u 64 x -> ReadBE64 (WriteBE64 x ++ r) = x.
Proof.
  intros Hx. unfold ReadBE64, WriteBE64.
  rewrite take_app_length' by (by rewrite length_reverse, length_le_bytes).
  rewrite reverse_involutive, le_val_bytes. by apply Z.mod_small.
Qed.

Lemma ReadLE32_range a : bytes_ok a -> is_u 32 (ReadLE32 a).
Proof.
  intros Ha. unfold ReadLE32.
  destruct (le_val_range (take 4 a) (Forall_take _ _ _ Ha)) as [H1 H2].
  split; [done|]. eapply Z.lt_le_trans; [exact H2|].
  apply Z.pow_le_mono_r; [lia|]. rewrite length_take. lia.
Qed.

Lemma ReadBE32_range a : bytes_ok a -> is_u 32 (ReadBE32 a).
Proof.
  intros Ha. unfold ReadBE32.
  destruct (le_val_range (reverse (take 4 a))) as [H1 H2].
  { apply Forall_reverse, Forall_take, Ha. }
  split; [done|]. eapply Z.lt_le_trans; [exact H2|].
  apply Z.pow_le_mono_r; [lia|]. rewrite length_reverse, length_take. lia.
Qed.
