(* ===== verification/ArithUint256.v ===== *)
(** * 256-bit arithmetic: [base_uint] and [arith_uint256]

    Models src/src/arith_uint256.h and src/src/arith_uint256.cpp.  A
    [base_uint<BITS>] is its array [pn] of [WIDTH = BITS / 32] 32-bit limbs,
    least significant first; the loops over the limbs are recursive functions
    on the list, or folds over the loop counter where the loop writes to
    another index than the one it reads. *)

From S2P Require Import Prelude.
Local Open Scope cxx_scope.

Module base_uint.

(** ** Data: the limb array and the number it denotes *)

Abbreviation t := (list Z) (only parsing).

Definition val (pn : t) : Z := foldr (fun x acc => x + 2 ^ 32 * acc) 0 pn.

Definition wf (WIDTH : nat) (pn : t) : Prop :=
  length pn = WIDTH /\ Forall (is_u 32) pn.

(** ** Operations of arith_uint256.h *)

Definition zero (WIDTH : nat) : t := replicate WIDTH 0.

Definition of_u64 (WIDTH : nat) (b : Z) : t :=
  u32 b :: u32 (b .>> 32) :: replicate (WIDTH - 2) 0.

Definition op_not (pn : t) : bool := forallb (fun x => negb (nz x)) pn.

Definition op_compl (pn : t) : t := map (fun x => u32 (Z.lnot x)) pn.

Definition op_xor (a b : t) : t := zip_with Z.lxor a b.
Definition op_and (a b : t) : t := zip_with Z.land a b.
Definition op_or (a b : t) : t := zip_with Z.lor a b.

(** [while (++pn[i] == 0 && i < WIDTH-1) i++;] *)
Fixpoint op_incr (pn : t) : t :=
  match pn with
  | [] => []
  | x :: r =>
      let y := u32 (x + 1) in
      if y =? 0 then y :: op_incr r else y :: r
  end.

(** [while (--pn[i] == (uint32_t)-1 && i < WIDTH-1) i++;] *)
Fixpoint op_decr (pn : t) : t :=
  match pn with
  | [] => []
  | x :: r =>
      let y := u32 (x - 1) in
      if y =? u32 (-1) then y :: op_decr r else y :: r
  end.

Definition op_neg (pn : t) : t := op_incr (op_compl pn).

Fixpoint add_loop (carry : Z) (pn b : t) : t :=
  match pn, b with
  | x :: pn', y :: b' =>
      let n := u64 (u64 (carry + x) + y) in
      (n .& 0xffffffff) :: add_loop (n .>> 32) pn' b'
  | _, _ => []
  end.

Definition op_add (a b : t) : t := add_loop 0 a b.
Definition op_sub (a b : t) : t := op_add a (op_neg b).
Definition op_add_u64 (a : t) (b64 : Z) : t := op_add a (of_u64 (length a) b64).
Definition op_sub_u64 (a : t) (b64 : Z) : t :=
  op_add a (op_neg (of_u64 (length a) b64)).

Definition GetLow64 (pn : t) : Z := aget pn 0 .| u64 (aget pn 1 .<< 32).

(** ** Operations of arith_uint256.cpp *)

Definition shl_step (a : t) (WIDTH k : nat) (shift : Z) (pn : t) (i : nat) : t :=
  let pn :=
    if (i + k + 1 <? WIDTH)%nat && nz shift
    then <[(i + k + 1)%nat := aget pn (i + k + 1) .| (aget a i .>> (32 - shift))]> pn
    else pn in
  if (i + k <? WIDTH)%nat
  then <[(i + k)%nat := aget pn (i + k) .| u32 (aget a i .<< shift)]> pn
  else pn.

Definition op_shl (a : t) (shift : Z) : t :=
  let WIDTH := length a in
  foldl (shl_step a WIDTH (Z.to_nat (shift / 32)) (shift mod 32)) (zero WIDTH) (seq 0 WIDTH).

Definition shr_step (a : t) (k : nat) (shift : Z) (pn : t) (i : nat) : t :=
  let pn :=
    if (k + 1 <=? i)%nat && nz shift
    then <[(i - k - 1)%nat := aget pn (i - k - 1) .| u32 (aget a i .<< (32 - shift))]> pn
    else pn in
  if (k <=? i)%nat
  then <[(i - k)%nat := aget pn (i - k) .| (aget a i .>> shift)]> pn
  else pn.

Definition op_shr (a : t) (shift : Z) : t :=
  let WIDTH := length a in
  foldl (shr_step a (Z.to_nat (shift / 32)) (shift mod 32)) (zero WIDTH) (seq 0 WIDTH).

Fixpoint mul32_loop (carry b32 : Z) (pn : t) : t :=
  match pn with
  | [] => []
  | x :: r =>
      let n := u64 (carry + u64 (b32 * x)) in
      (n .& 0xffffffff) :: mul32_loop (n .>> 32) b32 r
  end.

Definition op_mul32 (a : t) (b32 : Z) : t := mul32_loop 0 b32 a.

(** The inner loop of [operator*=]: it rewrites [pn[i + j]] for the [i] with
    [i + j < WIDTH]; [pn] here is the array from index [j] on. *)
Fixpoint mul_row (carry aj : Z) (pn b : t) : t :=
  match pn, b with
  | x :: pn', y :: b' =>
      let n := u64 (u64 (carry + x) + u64 (aj * y)) in
      (n .& 0xffffffff) :: mul_row (n .>> 32) aj pn' b'
  | _, _ => []
  end.

Definition mul_step (a b : t) (pn : t) (j : nat) : t :=
  take j pn ++ mul_row 0 (aget a j) (drop j pn) b.

Definition op_mul (a b : t) : t :=
  let WIDTH := length a in
  foldl (mul_step a b) (zero WIDTH) (seq 0 WIDTH).

(** [CompareTo]: from the most significant limb down. *)
Fixpoint compare_loop (a b : list Z) : Z :=
  match a, b with
  | x :: a', y :: b' =>
      if x <? y then -1 else if y <? x then 1 else compare_loop a' b'
  | _, _ => 0
  end.

Definition CompareTo (a b : t) : Z := compare_loop (reverse a) (reverse b).

Definition op_gt (a b : t) : bool := 0 <? CompareTo a b.
Definition op_lt (a b : t) : bool := CompareTo a b <? 0.
Definition op_ge (a b : t) : bool := 0 <=? CompareTo a b.
Definition op_le (a b : t) : bool := CompareTo a b <=? 0.

Definition EqualTo (pn : t) (b : Z) : bool :=
  if negb (forallb (fun x => negb (nz x)) (drop 2 pn)) then false
  else if negb (aget pn 1 =? (b .>> 32)) then false
  else if negb (aget pn 0 =? (b .& 0xffffffff)) then false
  else true.

(** [bits]: the inner loop tests bit [bits] from 31 down to 1. *)
Fixpoint limb_bits (x : Z) (bits : nat) : Z :=
  match bits with
  | O => 1
  | S b => if nz (x .& u32 (1 .<< Z.of_nat bits)) then Z.of_nat bits + 1 else limb_bits x b
  end.

Fixpoint bits_loop (pn : t) (pos : nat) : Z :=
  match pos with
  | O => 0
  | S p =>
      if nz (aget pn p) then 32 * Z.of_nat p + limb_bits (aget pn p) 31
      else bits_loop pn p
  end.

Definition bits (pn : t) : Z := bits_loop pn (length pn).

Inductive uint_error : Type := DivisionByZero.

(** The [while (shift >= 0)] loop of [operator/=], run [n = shift + 1] times. *)
Fixpoint div_loop (n : nat) (num div pn : t) : t * t :=
  match n with
  | O => (pn, num)
  | S shift =>
      let '(num, pn) :=
        if op_ge num div
        then (op_sub num div,
              <[(shift / 32)%nat :=
                  aget pn (shift / 32) .| u32 (1 .<< Z.of_nat (shift mod 32))]> pn)
        else (num, pn) in
      div_loop shift num (op_shr div 1) pn
  end.

Definition op_div (num b : t) : result uint_error t :=
  let num_bits := bits num in
  let div_bits := bits b in
  if div_bits =? 0 then Throw DivisionByZero
  else if num_bits <? div_bits then Ok (zero (length num))
  else
    let shift := num_bits - div_bits in
    Ok (fst (div_loop (Z.to_nat (shift + 1)) num (op_shl b shift) (zero (length num)))).

(** ** The value of a limb array *)

Lemma val_cons x r : val (x :: r) = x + 2 ^ 32 * val r.
Proof. done. Qed.

Lemma val_app a b : val (a ++ b) = val a + 2 ^ (32 * Z.of_nat (length a)) * val b.
Proof.
  induction a as [|x a IH]; cbn [app length].
  - simpl. lia.
  - rewrite !val_cons, IH.
    replace (32 * Z.of_nat (S (length a))) with (32 + 32 * Z.of_nat (length a)) by lia.
    rewrite Z.pow_add_r by lia. lia.
Qed.

Lemma val_zero n : val (zero n) = 0.
Proof. induction n as [|n IH]; [done|]. unfold zero in *. cbn [replicate]. rewrite val_cons, IH. lia. Qed.

Lemma val_bound pn : Forall (is_u 32) pn -> 0 <= val pn < 2 ^ (32 * Z.of_nat (length pn)).
Proof.
  induction 1 as [|x r Hx Hr IH]; [simpl; lia|].
  rewrite val_cons. cbn [length].
  replace (32 * Z.of_nat (S (length r))) with (32 + 32 * Z.of_nat (length r)) by lia.
  rewrite Z.pow_add_r by lia. unfold is_u in Hx. nia.
Qed.

Lemma wf_bound W pn : wf W pn -> 0 <= val pn < 2 ^ (32 * Z.of_nat W).
Proof. intros [<- H]. by apply val_bound. Qed.

Lemma wf_zero n : wf n (zero n).
Proof. split; [apply length_replicate|]. apply Forall_replicate. done. Qed.

Lemma wf_cons W x r : wf (S W) (x :: r) <-> is_u 32 x /\ wf W r.
Proof. unfold wf. rewrite Forall_cons_iff. cbn [length]. split; intuition lia. Qed.

Lemma val_inj W a b : wf W a -> wf W b -> val a = val b -> a = b.
Proof.
  revert a b. induction W as [|W IH]; intros a b Ha Hb E.
  - destruct Ha as [Ha _], Hb as [Hb _].
    apply nil_length_inv in Ha as ->, Hb as ->. done.
  - destruct a as [|x a], b as [|y b]; try (destruct Ha, Hb; done).
    apply wf_cons in Ha as [Hx Ha], Hb as [Hy Hb].
    rewrite !val_cons in E. unfold is_u in *.
    assert (x = y) as -> by lia.
    f_equal. apply IH; [done..|lia].
Qed.

Lemma testbit_val pn n :
  Forall (is_u 32) pn -> 0 <= n ->
  Z.testbit (val pn) n = Z.testbit (aget pn (Z.to_nat (n / 32))) (n mod 32).
Proof.
  intros HF. revert n. induction HF as [|x r Hx Hr IH]; intros n Hn.
  - rewrite aget_ge by (simpl; lia). by rewrite !Z.bits_0.
  - rewrite val_cons.
    replace (x + 2 ^ 32 * val r) with (Z.lor x (Z.shiftl (val r) 32))
      by (rewrite lor_disjoint_add; [lia|lia|apply Hx]).
    rewrite Z.lor_spec. destruct (Z_lt_ge_dec n 32).
    + rewrite Z.shiftl_spec_low, orb_false_r by done.
      rewrite Z.div_small, Z.mod_small by lia. done.
    + rewrite Z.shiftl_spec by lia.
      replace x with (x mod 2 ^ 32) by (apply Z.mod_small; apply Hx).
      rewrite Z.mod_pow2_bits_high by lia. rewrite orb_false_l, IH by lia.
      replace ((n - 32) / 32) with (n / 32 - 1) by dlia.
      replace ((n - 32) mod 32) with (n mod 32) by dlia.
      replace (Z.to_nat (n / 32)) with (S (Z.to_nat (n / 32 - 1))) by dlia. done.
Qed.

(** Two limb arrays of the same shape agree when their bits do. *)
Lemma aget_u32 pn i : Forall (is_u 32) pn -> is_u 32 (aget pn i).
Proof. intros. apply aget_Forall; done. Qed.

(** ** Addition, subtraction, negation *)

Lemma pow32_S n : 2 ^ (32 * Z.of_nat (S n)) = 2 ^ 32 * 2 ^ (32 * Z.of_nat n).
Proof.
  replace (32 * Z.of_nat (S n)) with (32 + 32 * Z.of_nat n) by lia.
  by rewrite Z.pow_add_r by lia.
Qed.

(** Splitting off the low limb commutes with reduction modulo a power of the
    limb base. *)
Lemma mod_split_limb x y n :
  (x + 2 ^ 32 * y) mod 2 ^ (32 * Z.of_nat (S n)) =
  x mod 2 ^ 32 + 2 ^ 32 * ((x / 2 ^ 32 + y) mod 2 ^ (32 * Z.of_nat n)).
Proof.
  rewrite pow32_S. rewrite Z.rem_mul_r by lia.
  replace (x + 2 ^ 32 * y) with (x + y * 2 ^ 32) by lia.
  by rewrite Z.mod_add, Z.div_add by lia.
Qed.

Lemma add_loop_spec W carry a b :
  wf W a -> wf W b -> 0 <= carry < 2 ^ 32 ->
  wf W (add_loop carry a b) /\
  val (add_loop carry a b) = (carry + val a + val b) mod 2 ^ (32 * Z.of_nat W).
Proof.
  revert carry a b. induction W as [|W IH]; intros carry a b Ha Hb Hc.
  - destruct Ha as [Ha _]. apply nil_length_inv in Ha as ->.
    split; [done|]. by rewrite Z.mod_1_r.
  - destruct a as [|x a], b as [|y b]; try (by destruct Ha, Hb).
    apply wf_cons in Ha as [Hx Ha], Hb as [Hy Hb]. cbn [add_loop].
    unfold is_u in Hx, Hy.
    rewrite (u64_id (carry + x)) by (unfold is_u; lia).
    rewrite u64_id by (unfold is_u; lia).
    rewrite land_ffffffff, shiftr_div by lia.
    destruct (IH ((carry + x + y) / 2 ^ 32) a b Ha Hb ltac:(dlia)) as [Hw Hv].
    split.
    + apply wf_cons. split; [|done]. apply Z.mod_pos_bound. lia.
    + rewrite !val_cons, Hv.
      replace (carry + (x + 2 ^ 32 * val a) + (y + 2 ^ 32 * val b))
        with ((carry + x + y) + 2 ^ 32 * (val a + val b)) by lia.
      rewrite mod_split_limb. do 3 f_equal. lia.
Qed.

Lemma op_add_spec W a b :
  wf W a -> wf W b ->
  wf W (op_add a b) /\ val (op_add a b) = (val a + val b) mod 2 ^ (32 * Z.of_nat W).
Proof.
  intros Ha Hb. destruct (add_loop_spec W 0 a b Ha Hb ltac:(lia)) as [Hw Hv].
  split; [done|]. unfold op_add. rewrite Hv. f_equal.
Qed.

Lemma op_incr_spec W a :
  wf W a -> wf W (op_incr a) /\ val (op_incr a) = (val a + 1) mod 2 ^ (32 * Z.of_nat W).
Proof.
  revert a. induction W as [|W IH]; intros a Ha.
  - destruct Ha as [Ha _]. apply nil_length_inv in Ha as ->.
    split; [done|]. by rewrite Z.mod_1_r.
  - destruct a as [|x a]; [by destruct Ha|].
    pose proof (wf_bound _ _ Ha) as Hbd.
    apply wf_cons in Ha as [Hx Ha]. cbn [op_incr]. unfold is_u in Hx.
    destruct (IH a Ha) as [Hw Hv]. pose proof (wf_bound _ _ Ha).
    rewrite val_cons, pow32_S in *.
    destruct (Z.eq_dec x (2 ^ 32 - 1)) as [->|Hne].
    + replace (u32 (2 ^ 32 - 1 + 1)) with 0 by reflexivity. rewrite Z.eqb_refl.
      split; [by apply wf_cons|].
      rewrite val_cons, Hv, Z.add_0_l, <- Z.mul_mod_distr_l by lia. f_equal. lia.
    + rewrite u32_id by (unfold is_u; lia).
      rewrite (proj2 (Z.eqb_neq _ _)) by lia.
      split; [apply wf_cons; split; [unfold is_u; lia|done]|].
      rewrite val_cons, Z.mod_small; lia.
Qed.

Lemma op_decr_spec W a :
  wf W a -> wf W (op_decr a) /\ val (op_decr a) = (val a - 1) mod 2 ^ (32 * Z.of_nat W).
Proof.
  revert a. induction W as [|W IH]; intros a Ha.
  - destruct Ha as [Ha _]. apply nil_length_inv in Ha as ->.
    split; [done|]. by rewrite Z.mod_1_r.
  - destruct a as [|x a]; [by destruct Ha|].
    pose proof (wf_bound _ _ Ha) as Hbd.
    apply wf_cons in Ha as [Hx Ha]. cbn [op_decr]. unfold is_u in Hx.
    destruct (IH a Ha) as [Hw Hv]. pose proof (wf_bound _ _ Ha).
    change (u32 (-1)) with (2 ^ 32 - 1).
    destruct (Z.eq_dec x 0) as [->|Hne].
    + change (u32 (0 - 1)) with (2 ^ 32 - 1). rewrite Z.eqb_refl.
      split; [by apply wf_cons|].
      rewrite !val_cons, Hv.
      replace (0 + 2 ^ 32 * val a - 1) with ((2 ^ 32 - 1) + 2 ^ 32 * (val a - 1)) by lia.
      rewrite mod_split_limb, (Z.mod_small (2 ^ 32 - 1)), (Z.div_small (2 ^ 32 - 1)) by lia. done.
    + rewrite u32_id by (unfold is_u; lia).
      rewrite (proj2 (Z.eqb_neq _ _)) by lia.
      rewrite val_cons, pow32_S in Hbd.
      split; [apply wf_cons; split; [unfold is_u; lia|done]|].
      rewrite !val_cons, pow32_S, Z.mod_small; lia.
Qed.

Lemma op_compl_spec W a :
  wf W a -> wf W (op_compl a) /\ val (op_compl a) = 2 ^ (32 * Z.of_nat W) - 1 - val a.
Proof.
  revert a. induction W as [|W IH]; intros a Ha.
  - destruct Ha as [Ha _]. apply nil_length_inv in Ha as ->. done.
  - destruct a as [|x a]; [by destruct Ha|].
    apply wf_cons in Ha as [Hx Ha]. destruct (IH a Ha) as [Hw Hv].
    unfold op_compl in *. cbn [map]. split.
    + apply wf_cons. auto with cxx.
    + rewrite !val_cons, Hv, pow32_S.
      replace (u32 (Z.lnot x)) with (2 ^ 32 - 1 - x); [lia|].
      unfold is_u in Hx. unfold u32, wrapu, Z.lnot.
      rewrite <- (Z.mod_add _ 1) by lia. rewrite Z.mod_small; lia.
Qed.

Lemma op_neg_spec W a :
  wf W a -> wf W (op_neg a) /\ val (op_neg a) = (- val a) mod 2 ^ (32 * Z.of_nat W).
Proof.
  intros Ha. destruct (op_compl_spec W a Ha) as [Hc Hcv].
  destruct (op_incr_spec W _ Hc) as [Hi Hiv]. split; [done|].
  unfold op_neg. rewrite Hiv, Hcv.
  rewrite <- (Z.mod_add (- val a) 1) by lia. f_equal. lia.
Qed.

Lemma op_sub_spec W a b :
  wf W a -> wf W b ->
  wf W (op_sub a b) /\ val (op_sub a b) = (val a - val b) mod 2 ^ (32 * Z.of_nat W).
Proof.
  intros Ha Hb. destruct (op_neg_spec W b Hb) as [Hn Hnv].
  destruct (op_add_spec W a _ Ha Hn) as [Hs Hsv]. split; [done|].
  unfold op_sub. rewrite Hsv, Hnv, Z.add_mod_idemp_r by lia. done.
Qed.

Lemma of_u64_spec W b :
  (2 <= W)%nat -> is_u 64 b -> wf W (of_u64 W b) /\ val (of_u64 W b) = b.
Proof.
  intros HW Hb. unfold of_u64. rewrite shiftr_div by lia. unfold is_u in Hb.
  rewrite (u32_id (b / 2 ^ 32)) by (unfold is_u; dlia).
  split.
  - split.
    + cbn [length]. rewrite length_replicate. lia.
    + constructor; [apply u32_range|]. constructor; [unfold is_u; dlia|].
      by apply Forall_replicate.
  - rewrite !val_cons. change (replicate (W - 2) 0) with (zero (W - 2)).
    rewrite val_zero. unfold u32, wrapu. dlia.
Qed.

(** ** Multiplication *)

Lemma mul32_loop_spec W carry b32 a :
  wf W a -> 0 <= carry < 2 ^ 32 -> is_u 32 b32 ->
  wf W (mul32_loop carry b32 a) /\
  val (mul32_loop carry b32 a) = (carry + b32 * val a) mod 2 ^ (32 * Z.of_nat W).
Proof.
  revert carry a. induction W as [|W IH]; intros carry a Ha Hc Hb.
  - destruct Ha as [Ha _]. apply nil_length_inv in Ha as ->.
    split; [done|]. by rewrite Z.mod_1_r.
  - destruct a as [|x a]; [by destruct Ha|].
    apply wf_cons in Ha as [Hx Ha]. cbn [mul32_loop].
    unfold is_u in Hx, Hb.
    assert (0 <= b32 * x <= (2 ^ 32 - 1) * (2 ^ 32 - 1)) by nia.
    rewrite (u64_id (b32 * x)) by (unfold is_u; lia).
    rewrite u64_id by (unfold is_u; lia).
    rewrite land_ffffffff, shiftr_div by lia.
    destruct (IH ((carry + b32 * x) / 2 ^ 32) a Ha ltac:(dlia) Hb) as [Hw Hv].
    split.
    + apply wf_cons. split; [|done]. apply Z.mod_pos_bound. lia.
    + rewrite !val_cons, Hv.
      replace (carry + b32 * (x + 2 ^ 32 * val a))
        with ((carry + b32 * x) + 2 ^ 32 * (b32 * val a)) by lia.
      by rewrite mod_split_limb.
Qed.

Lemma op_mul32_spec W a b32 :
  wf W a -> is_u 32 b32 ->
  wf W (op_mul32 a b32) /\
  val (op_mul32 a b32) = (val a * b32) mod 2 ^ (32 * Z.of_nat W).
Proof.
  intros Ha Hb. destruct (mul32_loop_spec W 0 b32 a Ha ltac:(lia) Hb) as [Hw Hv].
  split; [done|]. unfold op_mul32. rewrite Hv. f_equal. lia.
Qed.

Lemma mul_row_spec W carry aj pn b :
  wf W pn -> (W <= length b)%nat -> Forall (is_u 32) b ->
  0 <= carry < 2 ^ 32 -> is_u 32 aj ->
  wf W (mul_row carry aj pn b) /\
  val (mul_row carry aj pn b) = (carry + val pn + aj * val b) mod 2 ^ (32 * Z.of_nat W).
Proof.
  revert carry pn b. induction W as [|W IH]; intros carry pn b Hp Hl Hb Hc Haj.
  - destruct Hp as [Hp _]. apply nil_length_inv in Hp as ->.
    split; [done|]. by rewrite Z.mod_1_r.
  - destruct pn as [|x pn]; [by destruct Hp|].
    destruct b as [|y b]; [simpl in Hl; lia|].
    apply wf_cons in Hp as [Hx Hp]. apply Forall_cons_iff in Hb as [Hy Hb].
    simpl in Hl. cbn [mul_row]. unfold is_u in Hx, Hy, Haj.
    assert (0 <= aj * y <= (2 ^ 32 - 1) * (2 ^ 32 - 1)) by nia.
    rewrite (u64_id (carry + x)), (u64_id (aj * y)) by (unfold is_u; lia).
    rewrite u64_id by (unfold is_u; lia).
    rewrite land_ffffffff, shiftr_div by lia.
    destruct (IH ((carry + x + aj * y) / 2 ^ 32) pn b Hp ltac:(lia) Hb ltac:(dlia) Haj) as [Hw Hv].
    split.
    + apply wf_cons. split; [|done]. apply Z.mod_pos_bound. lia.
    + rewrite !val_cons, Hv.
      replace (carry + (x + 2 ^ 32 * val pn) + aj * (y + 2 ^ 32 * val b))
        with ((carry + x + aj * y) + 2 ^ 32 * (val pn + aj * val b)) by lia.
      rewrite mod_split_limb. do 3 f_equal. lia.
Qed.

Lemma wf_take_drop W j pn :
  wf W pn -> (j <= W)%nat -> wf j (take j pn) /\ wf (W - j) (drop j pn).
Proof.
  intros [Hl HF] Hj. split; split; rewrite ?length_take, ?length_drop; try lia.
  - by apply Forall_take.
  - by apply Forall_drop.
Qed.

Lemma wf_app m n a b : wf m a -> wf n b -> wf (m + n) (a ++ b).
Proof.
  intros [Hl HF] [Hl' HF']. split; [rewrite length_app; lia|]. by apply Forall_app.
Qed.

Lemma val_take_S a j :
  (j < length a)%nat ->
  val (take (S j) a) = val (take j a) + 2 ^ (32 * Z.of_nat j) * aget a j.
Proof.
  intros Hj. destruct (lookup_lt_is_Some_2 a j Hj) as [x Hx].
  rewrite (take_S_r _ _ _ Hx), val_app, length_take, (aget_lookup _ _ _ Hx).
  rewrite Nat.min_l by lia. rewrite val_cons. simpl. lia.
Qed.

(** Multiplying the low [W - j] limbs' worth by [2^(32 j)] and reducing. *)
Lemma mod_mul_pow32 W j x :
  (j <= W)%nat ->
  2 ^ (32 * Z.of_nat j) * (x mod 2 ^ (32 * Z.of_nat (W - j))) =
  (2 ^ (32 * Z.of_nat j) * x) mod 2 ^ (32 * Z.of_nat W).
Proof.
  intros Hj.
  replace (2 ^ (32 * Z.of_nat W))
    with (2 ^ (32 * Z.of_nat j) * 2 ^ (32 * Z.of_nat (W - j))).
  - rewrite Z.mul_mod_distr_l by lia. done.
  - rewrite <- Z.pow_add_r by lia. f_equal. lia.
Qed.

Lemma mul_step_spec W a b pn j :
  wf W a -> wf W b -> wf W pn -> (j < W)%nat ->
  wf W (mul_step a b pn j) /\
  val (mul_step a b pn j) =
  (val pn + 2 ^ (32 * Z.of_nat j) * (aget a j * val b)) mod 2 ^ (32 * Z.of_nat W).
Proof.
  intros Ha [Hlb HFb] Hp Hj. unfold mul_step.
  destruct (wf_take_drop W j pn Hp ltac:(lia)) as [Ht Hd].
  destruct (mul_row_spec (W - j) 0 (aget a j) (drop j pn) b Hd) as [Hw Hv];
    [lia|done|lia|apply aget_u32, Ha|].
  split.
  - replace W with (j + (W - j))%nat by lia. by apply wf_app.
  - rewrite val_app. destruct Ht as [-> HFt]. rewrite Hv, mod_mul_pow32 by lia.
    pose proof (val_bound _ HFt) as Htb. destruct Hp as [Hlp HFp].
    rewrite length_take, Nat.min_l in Htb by lia.
    rewrite <- (take_drop j pn) at 3. rewrite val_app, length_take, Nat.min_l by lia.
    rewrite <- mod_mul_pow32 by lia.
    set (P := 2 ^ (32 * Z.of_nat j)) in *.
    replace (2 ^ (32 * Z.of_nat W)) with (P * 2 ^ (32 * Z.of_nat (W - j)))
      by (unfold P; rewrite <- Z.pow_add_r by lia; f_equal; lia).
    rewrite Z.rem_mul_r by (unfold P; lia).
    replace (val (take j pn) + P * val (drop j pn) + P * (aget a j * val b))
      with (val (take j pn) + (val (drop j pn) + aget a j * val b) * P) by lia.
    rewrite Z.mod_add, Z.div_add by (unfold P; lia).
    rewrite (Z.mod_small (val (take j pn))), (Z.div_small (val (take j pn))) by lia.
    do 3 f_equal.
Qed.

Lemma op_mul_fold W a b n :
  wf W a -> wf W b -> (n <= W)%nat ->
  wf W (foldl (mul_step a b) (zero W) (seq 0 n)) /\
  val (foldl (mul_step a b) (zero W) (seq 0 n)) =
  (val (take n a) * val b) mod 2 ^ (32 * Z.of_nat W).
Proof.
  intros Ha Hb. induction n as [|n IH]; intros Hn.
  - split; [apply wf_zero|]. simpl foldl. rewrite val_zero. simpl. by rewrite Z.mod_0_l by lia.
  - destruct (IH ltac:(lia)) as [Hw Hv]. rewrite seq_S, foldl_snoc.
    destruct (mul_step_spec W a b _ (0 + n) Ha Hb Hw ltac:(lia)) as [Hw' Hv'].
    split; [done|]. rewrite Hv', Hv, val_take_S by (destruct Ha; lia).
    rewrite Z.add_mod_idemp_l by lia. f_equal. rewrite Nat.add_0_l. lia.
Qed.

Lemma op_mul_spec W a b :
  wf W a -> wf W b ->
  wf W (op_mul a b) /\ val (op_mul a b) = (val a * val b) mod 2 ^ (32 * Z.of_nat W).
Proof.
  intros Ha Hb. destruct (op_mul_fold W a b W Ha Hb ltac:(lia)) as [Hw Hv].
  unfold op_mul. destruct Ha as [Hl HF]. rewrite Hl. split; [done|].
  rewrite Hv. by rewrite take_ge by lia.
Qed.

(** ** Comparison *)

Lemma val_snoc a x : val (a ++ [x]) = val a + 2 ^ (32 * Z.of_nat (length a)) * x.
Proof. rewrite val_app, val_cons. simpl. lia. Qed.

Lemma wf_snoc W a x : wf (S W) (a ++ [x]) <-> wf W a /\ is_u 32 x.
Proof.
  unfold wf. rewrite length_app, Forall_app, Forall_singleton. simpl.
  split; intuition lia.
Qed.

Lemma CompareTo_spec W a b :
  wf W a -> wf W b -> CompareTo a b = Z.sgn (val a - val b).
Proof.
  unfold CompareTo. revert a b. induction W as [|W IH]; intros a b Ha Hb.
  - destruct Ha as [Ha _], Hb as [Hb _].
    apply nil_length_inv in Ha as ->, Hb as ->. done.
  - destruct (exists_last (l := a)) as (a' & x & ->); [by intros ->; destruct Ha|].
    destruct (exists_last (l := b)) as (b' & y & ->); [by intros ->; destruct Hb|].
    apply wf_snoc in Ha as [Ha Hx], Hb as [Hb Hy].
    rewrite !reverse_snoc, !val_snoc. cbn [compare_loop].
    rewrite (IH _ _ Ha Hb). pose proof (wf_bound _ _ Ha). pose proof (wf_bound _ _ Hb).
    destruct Ha as [-> _], Hb as [-> _].
    set (P := 2 ^ (32 * Z.of_nat W)) in *. unfold is_u in Hx, Hy.
    destruct (Z.ltb_spec x y); [|destruct (Z.ltb_spec y x)].
    + symmetry. apply Z.sgn_neg. nia.
    + symmetry. apply Z.sgn_pos. nia.
    + replace y with x by lia. f_equal. lia.
Qed.

Lemma op_ge_spec W a b : wf W a -> wf W b -> op_ge a b = (val b <=? val a).
Proof.
  intros Ha Hb. unfold op_ge. rewrite (CompareTo_spec W) by done.
  pose proof (Z.sgn_spec (val a - val b)). apply eq_true_iff_eq. rewrite !Z.leb_le. lia.
Qed.

Lemma op_gt_spec W a b : wf W a -> wf W b -> op_gt a b = (val b <? val a).
Proof.
  intros Ha Hb. unfold op_gt. rewrite (CompareTo_spec W) by done.
  pose proof (Z.sgn_spec (val a - val b)). apply eq_true_iff_eq. rewrite !Z.ltb_lt. lia.
Qed.

(** ** Bit length *)

Definition nbits (v : Z) : Z := if v =? 0 then 0 else Z.log2 v + 1.

Lemma nbits_spec v : 0 <= v -> 0 <= nbits v /\ v < 2 ^ nbits v /\ (0 < v -> 2 ^ (nbits v - 1) <= v).
Proof.
  intros Hv. unfold nbits. destruct (Z.eqb_spec v 0) as [->|]; [lia|].
  pose proof (Z.log2_spec v ltac:(lia)). pose proof (Z.log2_nonneg v).
  rewrite Z.add_simpl_r. lia.
Qed.

Lemma nbits_unique v n : 0 < n -> v < 2 ^ n -> 2 ^ (n - 1) <= v -> nbits v = n.
Proof.
  intros Hn Hhi Hlo.
  assert (0 < 2 ^ (n - 1)) by lia.
  unfold nbits. rewrite (proj2 (Z.eqb_neq _ _)) by lia.
  rewrite (Z.log2_unique v (n - 1)); [lia|lia|].
  replace (Z.succ (n - 1)) with n by lia. lia.
Qed.

Lemma nz_testbit x b : 0 <= b -> nz (Z.land x (2 ^ b)) = Z.testbit x b.
Proof.
  intros Hb. unfold nz.
  replace (Z.land x (2 ^ b)) with (if Z.testbit x b then 2 ^ b else 0).
  - destruct (Z.testbit x b); [|done]. rewrite (proj2 (Z.eqb_neq _ _)); [done|lia].
  - apply Z.bits_inj'. intros i Hi. rewrite Z.land_spec, Z.pow2_bits_eqb by done.
    destruct (Z.eqb_spec b i) as [->|Hne].
    + rewrite andb_true_r. destruct (Z.testbit x i) eqn:E;
        rewrite ?Z.pow2_bits_true, ?Z.bits_0 by done; done.
    + rewrite andb_false_r. destruct (Z.testbit x b);
        rewrite ?Z.pow2_bits_eqb, ?Z.bits_0 by done; [|done]. by apply Z.eqb_neq.
Qed.

Lemma limb_bits_spec x b :
  (b <= 31)%nat -> 0 < x < 2 ^ (Z.of_nat b + 1) -> limb_bits x b = Z.log2 x + 1.
Proof.
  induction b as [|b IH]; intros Hb Hx.
  - simpl in Hx. assert (x = 1) as -> by lia. done.
  - cbn [limb_bits]. rewrite Z.shiftl_1_l.
    assert (0 < 2 ^ Z.of_nat (S b) <= 2 ^ 31).
    { split; [lia|]. apply Z.pow_le_mono_r; lia. }
    rewrite u32_id by (unfold is_u; lia). rewrite nz_testbit by lia.
    destruct (Z.testbit x (Z.of_nat (S b))) eqn:E.
    + assert (Z.log2 x < Z.of_nat (S b) + 1) by (apply Z.log2_lt_pow2; lia).
      destruct (Z_lt_ge_dec (Z.log2 x) (Z.of_nat (S b))); [|lia].
      rewrite Z.bits_above_log2 in E; [done|lia|lia].
    + apply IH; [lia|]. split; [lia|].
      replace (Z.of_nat b + 1) with (Z.of_nat (S b)) by lia.
      destruct (Z_lt_ge_dec x (2 ^ Z.of_nat (S b))); [done|].
      assert (Z.log2 x = Z.of_nat (S b)) as Hlog.
      { apply Z.log2_unique; [lia|].
        replace (Z.succ (Z.of_nat (S b))) with (Z.of_nat (S b) + 1) by lia. lia. }
      rewrite <- Hlog, Z.bit_log2 in E by lia. done.
Qed.

Lemma nbits_limb k lo x :
  0 <= k -> 0 <= lo < 2 ^ k -> 0 < x -> nbits (lo + 2 ^ k * x) = k + nbits x.
Proof.
  intros Hk Hlo Hx. destruct (nbits_spec x ltac:(lia)) as (H0 & Hhi & Hl).
  specialize (Hl Hx). assert (0 < nbits x).
  { destruct (Z.eq_dec (nbits x) 0) as [E|]; [|lia]. rewrite E in Hhi. lia. }
  apply nbits_unique; [lia| |].
  - rewrite Z.pow_add_r by lia. nia.
  - replace (k + nbits x - 1) with (k + (nbits x - 1)) by lia.
    rewrite Z.pow_add_r by lia. nia.
Qed.

Lemma bits_loop_spec pn n :
  Forall (is_u 32) pn -> (n <= length pn)%nat -> bits_loop pn n = nbits (val (take n pn)).
Proof.
  intros HF. induction n as [|n IH]; intros Hn; [done|].
  cbn [bits_loop]. rewrite val_take_S by lia.
  pose proof (aget_u32 pn n HF) as Hx. unfold is_u in Hx. unfold nz.
  destruct (Z.eqb_spec (aget pn n) 0) as [->|Hne]; cbn [negb].
  - rewrite IH by lia. f_equal. lia.
  - pose proof (val_bound (take n pn) (Forall_take _ _ _ HF)) as Hb.
    rewrite length_take, Nat.min_l in Hb by lia.
    rewrite nbits_limb by lia. rewrite limb_bits_spec by lia.
    unfold nbits. by rewrite (proj2 (Z.eqb_neq _ _)).
Qed.

Lemma bits_spec W pn : wf W pn -> bits pn = nbits (val pn).
Proof.
  intros [Hl HF]. unfold bits. rewrite bits_loop_spec by done. by rewrite take_ge.
Qed.

(** ** Shifts *)

Lemma aget_insert (l : list Z) i j x :
  aget (<[i:=x]> l) j = if (i =? j)%nat && (i <? length l)%nat then x else aget l j.
Proof.
  rewrite !aget_default. destruct (Nat.eqb_spec i j) as [->|Hne]; cbn [andb].
  - destruct (Nat.ltb_spec j (length l)).
    + by rewrite list_lookup_insert_eq.
    + by rewrite list_insert_ge.
  - by rewrite list_lookup_insert_ne.
Qed.

Lemma aget_zero n j : aget (zero n) j = 0.
Proof.
  unfold zero. rewrite aget_default. destruct (replicate n 0 !! j) eqn:E; [|done].
  apply lookup_replicate in E as [-> _]. done.
Qed.

(** What the loop of [operator<<=] has put in limb [j] after [n] rounds. *)
Definition shl_part (a : t) (k n : nat) (s : Z) (j : nat) : Z :=
  Z.lor (if (k + 1 <=? j)%nat && (j - k - 1 <? n)%nat && nz s
         then Z.shiftr (aget a (j - k - 1)) (32 - s) else 0)
        (if (k <=? j)%nat && (j - k <? n)%nat
         then u32 (Z.shiftl (aget a (j - k)) s) else 0).

Definition shr_part (a : t) (k n : nat) (s : Z) (j : nat) : Z :=
  Z.lor (if (j + k <? n)%nat then Z.shiftr (aget a (j + k)) s else 0)
        (if (j + k + 1 <? n)%nat && nz s
         then u32 (Z.shiftl (aget a (j + k + 1)) (32 - s)) else 0).

Ltac nat_bools :=
  repeat match goal with
  | |- context [(?x <? ?y)%nat] => destruct (Nat.ltb_spec x y)
  | |- context [(?x <=? ?y)%nat] => destruct (Nat.leb_spec x y)
  | |- context [(?x =? ?y)%nat] => destruct (Nat.eqb_spec x y)
  end.

Lemma length_shl_step a W k s pn i : length (shl_step a W k s pn i) = length pn.
Proof. unfold shl_step. cbv zeta. repeat case_if; rewrite ?length_insert. all: done. Qed.

Lemma length_shr_step a k s pn i : length (shr_step a k s pn i) = length pn.
Proof. unfold shr_step. cbv zeta. repeat case_if; rewrite ?length_insert; done. Qed.

Lemma length_foldl_step {B} (f : t -> B -> t) l pn :
  (forall pn i, length (f pn i) = length pn) -> length (foldl f pn l) = length pn.
Proof.
  intros Hf. revert pn. induction l as [|x l IH]; intros pn; [done|].
  cbn [foldl]. by rewrite IH, Hf.
Qed.

Lemma shl_fold a k s n j :
  (n <= length a)%nat -> (j < length a)%nat ->
  aget (foldl (shl_step a (length a) k s) (zero (length a)) (seq 0 n)) j
  = shl_part a k n s j.
Proof.
  intros Hn Hj. induction n as [|n IH].
  - simpl. rewrite aget_zero. unfold shl_part. nat_bools; simpl; try lia; done.
  - rewrite seq_S, foldl_snoc. specialize (IH ltac:(lia)).
    set (pn := foldl _ _ _) in *.
    assert (length pn = length a) as Hpn.
    { unfold pn. rewrite length_foldl_step by apply length_shl_step.
      unfold zero. by rewrite length_replicate. }
    unfold shl_step. cbv zeta. rewrite Nat.add_0_l. unfold shl_part in *.
    destruct (nz s); rewrite ?andb_true_r, ?andb_false_r in *;
      nat_bools; cbn [andb] in *; rewrite ?aget_insert, ?length_insert, ?Hpn;
      nat_bools; cbn [andb]; subst; try lia;
      rewrite ?IH; nat_bools; cbn [andb]; try lia; rewrite ?Z.lor_0_l, ?Z.lor_0_r;
      repeat (f_equal; try lia).
Qed.

Lemma shr_fold a k s n j :
  (n <= length a)%nat -> (j < length a)%nat ->
  aget (foldl (shr_step a k s) (zero (length a)) (seq 0 n)) j = shr_part a k n s j.
Proof.
  intros Hn Hj. induction n as [|n IH].
  - simpl. rewrite aget_zero. unfold shr_part. nat_bools; simpl; try lia; done.
  - rewrite seq_S, foldl_snoc. specialize (IH ltac:(lia)).
    set (pn := foldl _ _ _) in *.
    assert (length pn = length a) as Hpn.
    { unfold pn. rewrite length_foldl_step by apply length_shr_step.
      unfold zero. by rewrite length_replicate. }
    unfold shr_step. cbv zeta. rewrite Nat.add_0_l. unfold shr_part in *.
    destruct (nz s); rewrite ?andb_true_r, ?andb_false_r in *;
      nat_bools; cbn [andb] in *; rewrite ?aget_insert, ?length_insert, ?Hpn;
      nat_bools; cbn [andb]; subst; try lia;
      rewrite ?IH; nat_bools; cbn [andb]; try lia; rewrite ?Z.lor_0_l, ?Z.lor_0_r;
      repeat (f_equal; try lia).
Qed.

Lemma aget_op_shl a shift j :
  (j < length a)%nat ->
  aget (op_shl a shift) j =
  shl_part a (Z.to_nat (shift / 32)) (length a) (shift mod 32) j.
Proof. intros. by apply shl_fold. Qed.

Lemma aget_op_shr a shift j :
  (j < length a)%nat ->
  aget (op_shr a shift) j =
  shr_part a (Z.to_nat (shift / 32)) (length a) (shift mod 32) j.
Proof. intros. by apply shr_fold. Qed.

Lemma testbit_u32 x i : 0 <= i -> Z.testbit (u32 x) i = (i <? 32) && Z.testbit x i.
Proof.
  intros Hi. unfold u32, wrapu. destruct (Z.ltb_spec i 32).
  - by rewrite Z.mod_pow2_bits_low.
  - by rewrite Z.mod_pow2_bits_high by lia.
Qed.

Lemma testbit_high x i : is_u 32 x -> 32 <= i -> Z.testbit x i = false.
Proof.
  intros Hx Hi. rewrite <- (u32_id x Hx), testbit_u32 by lia.
  by rewrite (proj2 (Z.ltb_ge _ _)).
Qed.

Lemma shl_part_u32 a k n s j : Forall (is_u 32) a -> 0 <= s < 32 -> is_u 32 (shl_part a k n s j).
Proof.
  intros HF Hs. unfold shl_part. apply is_u_lor; [lia| |].
  - case_if; [|done]. pose proof (aget_u32 a (j - k - 1) HF) as H. unfold is_u in *.
    rewrite shiftr_div by lia. split; [apply Z.div_pos; lia|].
    apply Z.div_lt_upper_bound; nia.
  - case_if; [apply u32_range|done].
Qed.

Lemma shr_part_u32 a k n s j : Forall (is_u 32) a -> 0 <= s < 32 -> is_u 32 (shr_part a k n s j).
Proof.
  intros HF Hs. unfold shr_part. apply is_u_lor; [lia| |].
  - case_if; [|done]. pose proof (aget_u32 a (j + k) HF) as H. unfold is_u in *.
    rewrite shiftr_div by lia. split; [apply Z.div_pos; lia|].
    apply Z.div_lt_upper_bound; nia.
  - case_if; [apply u32_range|done].
Qed.

Lemma wf_by_aget W pn :
  length pn = W -> (forall j, (j < W)%nat -> is_u 32 (aget pn j)) -> wf W pn.
Proof.
  intros Hl H. split; [done|]. apply Forall_lookup. intros i x Hx.
  rewrite <- (aget_lookup _ _ _ Hx). apply H. apply lookup_lt_Some in Hx. lia.
Qed.

Lemma op_shl_wf W a shift : wf W a -> 0 <= shift -> wf W (op_shl a shift).
Proof.
  intros [Hl HF] Hs. apply wf_by_aget.
  - unfold op_shl. rewrite length_foldl_step by apply length_shl_step.
    unfold zero. by rewrite length_replicate.
  - intros j Hj. rewrite aget_op_shl by lia.
    apply shl_part_u32; [done|]. apply Z.mod_pos_bound. lia.
Qed.

Lemma op_shr_wf W a shift : wf W a -> 0 <= shift -> wf W (op_shr a shift).
Proof.
  intros [Hl HF] Hs. apply wf_by_aget.
  - unfold op_shr. rewrite length_foldl_step by apply length_shr_step.
    unfold zero. by rewrite length_replicate.
  - intros j Hj. rewrite aget_op_shr by lia.
    apply shr_part_u32; [done|]. apply Z.mod_pos_bound. lia.
Qed.

(** Bit [n] of a shifted array is bit [n - shift] (or [n + shift]) of the
    original; the bits that leave the array are lost. *)
Lemma testbit_op_shl W a shift n :
  wf W a -> 0 <= shift -> 0 <= n < 32 * Z.of_nat W ->
  Z.testbit (val (op_shl a shift)) n = (shift <=? n) && Z.testbit (val a) (n - shift).
Proof.
  intros Ha Hs Hn. pose proof (op_shl_wf W a shift Ha Hs) as [Hl HF].
  destruct Ha as [Hla HFa].
  rewrite testbit_val by (done || lia).
  rewrite aget_op_shl by dlia. rewrite Hla. unfold shl_part. rewrite Z.lor_spec.
  set (k := shift / 32). set (s := shift mod 32).
  set (j := n / 32). set (r := n mod 32).
  assert (0 <= s < 32 /\ shift = 32 * k + s /\ 0 <= k) as (Hs32 & Hsh & Hk) by (unfold s, k; dlia).
  assert (0 <= r < 32 /\ n = 32 * j + r /\ 0 <= j < Z.of_nat W) as (Hr32 & Hnj & Hj) by (unfold r, j; dlia).
  clearbody k s j r.
  destruct (Z.leb_spec shift n) as [Hle|Hlt]; cbn [andb].
  - rewrite testbit_val by (done || lia).
    destruct (Z_lt_ge_dec r s) as [Hrs|Hrs].
    + replace ((n - shift) / 32) with (j - k - 1) by dlia.
      replace ((n - shift) mod 32) with (r - s + 32) by dlia.
      replace (Z.to_nat (j - k - 1)) with (Z.to_nat j - Z.to_nat k - 1)%nat by lia.
      rewrite (nz_true s) by lia.
      nat_bools; cbn [andb]; try lia.
      rewrite testbit_u32, Z.shiftl_spec_low, andb_false_r, orb_false_r by lia.
      rewrite Z.shiftr_spec by lia. f_equal. lia.
    + replace ((n - shift) / 32) with (j - k) by dlia.
      replace ((n - shift) mod 32) with (r - s) by dlia.
      replace (Z.to_nat (j - k)) with (Z.to_nat j - Z.to_nat k)%nat by lia.
      nat_bools; cbn [andb]; try lia;
        (case_if || idtac); rewrite ?Z.bits_0, ?orb_false_l; try lia;
        rewrite ?testbit_u32, ?Z.shiftl_spec, ?(proj2 (Z.ltb_lt r 32)) by lia;
        rewrite ?andb_true_l; try done;
        rewrite Z.shiftr_spec, testbit_high, orb_false_l by (apply aget_u32 || lia; done); done.
  - nat_bools; cbn [andb]; try lia; rewrite ?Z.bits_0; try done.
    + rewrite testbit_u32, Z.shiftl_spec_low by lia. rewrite andb_false_r. done.
Qed.

Lemma testbit_op_shr W a shift n :
  wf W a -> 0 <= shift -> 0 <= n ->
  Z.testbit (val (op_shr a shift)) n = Z.testbit (val a) (n + shift).
Proof.
  intros Ha Hs Hn. pose proof (op_shr_wf W a shift Ha Hs) as [Hl HF].
  destruct Ha as [Hla HFa].
  rewrite !testbit_val by (done || lia).
  set (k := shift / 32). set (s := shift mod 32).
  set (j := n / 32). set (r := n mod 32).
  assert (0 <= s < 32 /\ shift = 32 * k + s /\ 0 <= k) as (Hs32 & Hsh & Hk) by (unfold s, k; dlia).
  assert (0 <= r < 32 /\ n = 32 * j + r /\ 0 <= j) as (Hr32 & Hnj & Hj) by (unfold r, j; dlia).
  destruct (Z_lt_ge_dec j (Z.of_nat W)) as [HjW|HjW].
  - rewrite aget_op_shr by lia. fold k s. rewrite Hla. unfold shr_part. rewrite Z.lor_spec.
    clearbody k s j r.
    destruct (Z_lt_ge_dec (r + s) 32) as [Hrs|Hrs].
    + replace ((n + shift) / 32) with (j + k) by dlia.
      replace ((n + shift) mod 32) with (r + s) by dlia.
      replace (Z.to_nat (j + k)) with (Z.to_nat j + Z.to_nat k)%nat by lia.
      replace (Z.testbit (if (Z.to_nat j + Z.to_nat k + 1 <? W)%nat && nz s then _ else _) r) with false.
      * rewrite orb_false_r. nat_bools.
        -- by rewrite Z.shiftr_spec by lia.
        -- by rewrite aget_ge, !Z.bits_0 by lia.
      * symmetry. case_if; [|apply Z.bits_0].
        by rewrite testbit_u32, Z.shiftl_spec_low, andb_false_r by lia.
    + replace ((n + shift) / 32) with (j + k + 1) by dlia.
      replace ((n + shift) mod 32) with (r + s - 32) by dlia.
      replace (Z.to_nat (j + k + 1)) with (Z.to_nat j + Z.to_nat k + 1)%nat by lia.
      replace (Z.testbit (if (Z.to_nat j + Z.to_nat k <? W)%nat then _ else _) r) with false.
      * rewrite orb_false_l, (nz_true s), andb_true_r by lia. nat_bools.
        -- rewrite testbit_u32, Z.shiftl_spec, (proj2 (Z.ltb_lt r 32)) by lia.
           simpl. f_equal. lia.
        -- by rewrite aget_ge, !Z.bits_0 by lia.
      * symmetry. case_if; [|apply Z.bits_0].
        rewrite Z.shiftr_spec by lia. apply testbit_high; [by apply aget_u32|lia].
  - rewrite !aget_ge by dlia. by rewrite !Z.bits_0.
Qed.

Lemma op_shl_spec W a shift :
  wf W a -> 0 <= shift ->
  wf W (op_shl a shift) /\
  val (op_shl a shift) = (val a * 2 ^ shift) mod 2 ^ (32 * Z.of_nat W).
Proof.
  intros Ha Hs. split; [by apply op_shl_wf|].
  apply Z.bits_inj'. intros n Hn. rewrite <- shiftl_mul by done.
  destruct (Z_lt_ge_dec n (32 * Z.of_nat W)).
  - rewrite (testbit_op_shl W) by (done || lia).
    rewrite Z.mod_pow2_bits_low by lia. destruct (Z.leb_spec shift n).
    + by rewrite Z.shiftl_spec by lia.
    + by rewrite Z.shiftl_spec_low by lia.
  - rewrite Z.mod_pow2_bits_high by lia.
    pose proof (wf_bound _ _ (op_shl_wf W a shift Ha Hs)) as Hb.
    rewrite <- (Z.mod_small _ _ Hb). apply Z.mod_pow2_bits_high. lia.
Qed.

Lemma op_shr_spec W a shift :
  wf W a -> 0 <= shift ->
  wf W (op_shr a shift) /\ val (op_shr a shift) = val a / 2 ^ shift.
Proof.
  intros Ha Hs. split; [by apply op_shr_wf|].
  apply Z.bits_inj'. intros n Hn. rewrite <- shiftr_div by done.
  by rewrite (testbit_op_shr W), Z.shiftr_spec.
Qed.

(** ** Division *)

Lemma val_insert pn p x :
  (p < length pn)%nat ->
  val (<[p:=x]> pn) = val pn + 2 ^ (32 * Z.of_nat p) * (x - aget pn p).
Proof.
  revert p. induction pn as [|y pn IH]; intros p Hp; [simpl in Hp; lia|].
  destruct p as [|p].
  - change (<[0%nat:=x]> (y :: pn)) with (x :: pn). rewrite !val_cons, aget_cons_0. lia.
  - change (<[S p:=x]> (y :: pn)) with (y :: <[p:=x]> pn).
    rewrite !val_cons, aget_cons_S, IH, pow32_S by (simpl in Hp; lia). lia.
Qed.

Lemma lor_pow2_clear x q :
  0 <= q -> Z.testbit x q = false -> Z.lor x (2 ^ q) = x + 2 ^ q.
Proof.
  intros Hq Hb. rewrite <- Z.add_lor_land.
  replace (Z.land x (2 ^ q)) with 0; [lia|].
  symmetry. apply Z.bits_inj'. intros i Hi.
  rewrite Z.land_spec, Z.pow2_bits_eqb, Z.bits_0 by done.
  destruct (Z.eqb_spec q i) as [<-|]; [by rewrite Hb|apply andb_false_r].
Qed.

Lemma set_bit_spec W pn sh :
  wf W pn -> (sh < 32 * W)%nat -> val pn mod 2 ^ (Z.of_nat sh + 1) = 0 ->
  let pn' := <[(sh / 32)%nat :=
                 Z.lor (aget pn (sh / 32)) (u32 (Z.shiftl 1 (Z.of_nat (sh mod 32))))]> pn in
  wf W pn' /\ val pn' = val pn + 2 ^ Z.of_nat sh.
Proof.
  intros Hw Hsh Hm. cbv zeta. rewrite Z.shiftl_1_l.
  pose proof (Nat.mod_upper_bound sh 32 ltac:(lia)).
  pose proof (Nat.div_mod_eq sh 32) as Hdm.
  assert ((sh / 32 < W)%nat) as Hp by (apply Nat.Div0.div_lt_upper_bound; lia).
  set (p := (sh / 32)%nat) in *. set (q := (sh mod 32)%nat) in *.
  assert (is_u 32 (2 ^ Z.of_nat q)) as Hq.
  { unfold is_u. split; [lia|]. apply Z.pow_lt_mono_r; lia. }
  rewrite (u32_id _ Hq). destruct Hw as [Hl HF].
  assert (Z.testbit (aget pn p) (Z.of_nat q) = false) as Hclear.
  { pose proof (testbit_val pn (Z.of_nat sh) HF ltac:(lia)) as Hb.
    replace (Z.of_nat sh / 32) with (Z.of_nat p) in Hb by dlia.
    replace (Z.of_nat sh mod 32) with (Z.of_nat q) in Hb by dlia.
    rewrite Nat2Z.id in Hb. rewrite <- Hb.
    apply Z.mod_divide in Hm as [m ->]; [|lia].
    apply Z.mul_pow2_bits_low. lia. }
  split.
  - apply wf_by_aget; [by rewrite length_insert|]. intros j Hj.
    rewrite aget_insert. case_if; [|by apply aget_u32].
    apply is_u_lor; [lia|by apply aget_u32|done].
  - rewrite val_insert, lor_pow2_clear by (done || lia).
    replace (Z.of_nat sh) with (32 * Z.of_nat p + Z.of_nat q) by lia.
    rewrite Z.pow_add_r by lia. lia.
Qed.

Lemma div_loop_spec W n num div pn b :
  wf W num -> wf W div -> wf W pn -> (n <= 32 * W)%nat ->
  0 < b -> (n = O \/ val div = b * 2 ^ (Z.of_nat n - 1)) ->
  val num < b * 2 ^ Z.of_nat n -> val pn mod 2 ^ Z.of_nat n = 0 ->
  let '(q, r) := div_loop n num div pn in
  wf W q /\ wf W r /\ val q = val pn + val num / b /\ val r = val num mod b.
Proof.
  revert num div pn. induction n as [|sh IH];
    intros num div pn Hnum Hdiv Hpn Hn Hb Hd Hlt Hm.
  - cbn [div_loop]. pose proof (wf_bound _ _ Hnum).
    change (b * 2 ^ Z.of_nat 0) with (b * 1) in Hlt.
    rewrite Z.div_small, Z.mod_small by lia. split_and!; [done|done|lia|done].
  - destruct Hd as [|Hd]; [done|]. replace (Z.of_nat (S sh) - 1) with (Z.of_nat sh) in Hd by lia.
    replace (Z.of_nat (S sh)) with (Z.of_nat sh + 1) in Hlt, Hm by lia.
    assert (2 ^ (Z.of_nat sh + 1) = 2 * 2 ^ Z.of_nat sh) as Hpow
      by (rewrite Z.pow_add_r by lia; lia).
    destruct (op_shr_spec W div 1 Hdiv ltac:(lia)) as [Hs Hsv].
    assert (sh = O \/ val (op_shr div 1) = b * 2 ^ (Z.of_nat sh - 1)) as Hd'.
    { destruct sh as [|sh']; [by left|right]. rewrite Hsv, Hd.
      replace (Z.of_nat (S sh')) with (Z.of_nat (S sh') - 1 + 1) at 1 by lia.
      rewrite Z.pow_add_r by lia.
      replace (b * (2 ^ (Z.of_nat (S sh') - 1) * 2 ^ 1))
        with (b * 2 ^ (Z.of_nat (S sh') - 1) * 2) by lia.
      by rewrite Z.div_mul by lia. }
    cbn [div_loop]. rewrite (op_ge_spec W num div Hnum Hdiv).
    pose proof (wf_bound _ _ Hnum). pose proof (wf_bound _ _ Hdiv).
    destruct (Z.leb_spec (val div) (val num)) as [Hge|Hlt'].
    + destruct (op_sub_spec W num div Hnum Hdiv) as [Hsub Hsubv].
      rewrite Z.mod_small in Hsubv by lia.
      destruct (set_bit_spec W pn sh Hpn ltac:(lia) Hm) as [Hpn' Hpv'].
      specialize (IH _ _ _ Hsub Hs Hpn' ltac:(lia) Hb Hd').
      destruct (div_loop sh _ _ _) as [q r].
      destruct IH as (Hq & Hr & Hqv & Hrv).
      { rewrite Hsubv, Hd. nia. }
      { rewrite Hpv'. apply Z.mod_divide in Hm as [m ->]; [|lia].
        rewrite Hpow. replace (m * (2 * 2 ^ Z.of_nat sh) + 2 ^ Z.of_nat sh)
          with ((2 * m + 1) * 2 ^ Z.of_nat sh) by lia. apply Z.mod_mul. lia. }
      split_and!; [done|done| |].
      * rewrite Hqv, Hpv', Hsubv, Hd.
        replace (val num - b * 2 ^ Z.of_nat sh) with (val num + (- 2 ^ Z.of_nat sh) * b) by lia.
        rewrite Z.div_add by lia. lia.
      * rewrite Hrv, Hsubv, Hd.
        replace (val num - b * 2 ^ Z.of_nat sh) with (val num + (- 2 ^ Z.of_nat sh) * b) by lia.
        apply Z.mod_add. lia.
    + apply IH; try done; [lia|lia|].
      apply Z.mod_divide in Hm as [m ->]; [|lia]. rewrite Hpow.
      replace (m * (2 * 2 ^ Z.of_nat sh)) with (2 * m * 2 ^ Z.of_nat sh) by lia.
      apply Z.mod_mul. lia.
Qed.

Lemma op_div_spec W a b :
  wf W a -> wf W b ->
  if val b =? 0 then op_div a b = Throw DivisionByZero
  else exists q, op_div a b = Ok q /\ wf W q /\ val q = val a / val b.
Proof.
  intros Ha Hb. unfold op_div. rewrite !(bits_spec W) by done.
  pose proof (wf_bound _ _ Ha) as Hab. pose proof (wf_bound _ _ Hb) as Hbb.
  destruct (nbits_spec (val a) ltac:(lia)) as (Ha0 & Hahi & Halo).
  destruct (nbits_spec (val b) ltac:(lia)) as (Hb0 & Hbhi & Hblo).
  assert (nbits (val a) <= 32 * Z.of_nat W) as HaW.
  { destruct (Z.eq_dec (val a) 0) as [->|]; [unfold nbits; simpl; lia|].
    specialize (Halo ltac:(lia)).
    destruct (Z_le_gt_dec (nbits (val a)) (32 * Z.of_nat W)); [done|].
    pose proof (Z.pow_le_mono_r 2 (32 * Z.of_nat W) (nbits (val a) - 1)). lia. }
  destruct (Z.eqb_spec (val b) 0) as [->|Hnz].
  - done.
  - specialize (Hblo ltac:(lia)).
    destruct (Z.eqb_spec (nbits (val b)) 0) as [E|Hnb]; [rewrite E in Hbhi; lia|].
    destruct (Ha) as [-> _]. destruct (Z.ltb_spec (nbits (val a)) (nbits (val b))) as [Hlt|Hge].
    + exists (zero W). split_and!; [done|apply wf_zero|]. rewrite val_zero, Z.div_small; [done|].
      pose proof (Z.pow_le_mono_r 2 (nbits (val a)) (nbits (val b) - 1)). lia.
    + set (sh := nbits (val a) - nbits (val b)) in *.
      destruct (op_shl_spec W b sh Hb ltac:(lia)) as [Hs Hsv].
      assert (val b * 2 ^ sh < 2 ^ (32 * Z.of_nat W)).
      { apply Z.lt_le_trans with (2 ^ nbits (val a)).
        - replace (nbits (val a)) with (nbits (val b) + sh) by lia.
          rewrite Z.pow_add_r by lia. nia.
        - apply Z.pow_le_mono_r; lia. }
      rewrite Z.mod_small in Hsv by lia.
      pose proof (div_loop_spec W (Z.to_nat (sh + 1)) a (op_shl b sh) (zero W) (val b)
        Ha Hs (wf_zero W) ltac:(lia) ltac:(lia)) as Hloop.
      destruct (div_loop _ _ _ _) as [q r] eqn:E. cbn [fst] in *.
      exists q. destruct Hloop as (Hq & _ & Hqv & _).
      * right. rewrite Hsv. do 2 f_equal. lia.
      * replace (Z.of_nat (Z.to_nat (sh + 1))) with (sh + 1) by lia.
        replace (nbits (val a)) with (nbits (val b) - 1 + (sh + 1)) in Hahi by lia.
        rewrite Z.pow_add_r in Hahi by lia. nia.
      * rewrite val_zero. apply Z.mod_0_l. lia.
      * rewrite val_zero in Hqv. auto.
Qed.

(** ** Bitwise operators *)

Lemma bitwise_wf W (f : Z -> Z -> Z) a b :
  (forall x y, is_u 32 x -> is_u 32 y -> is_u 32 (f x y)) ->
  wf W a -> wf W b -> wf W (zip_with f a b).
Proof.
  intros Hf. revert a b. induction W as [|W IH]; intros a b Ha Hb.
  - destruct Ha as [Ha _]. by apply nil_length_inv in Ha as ->.
  - destruct a as [|x a], b as [|y b]; try (by destruct Ha, Hb).
    apply wf_cons in Ha as [Hx Ha], Hb as [Hy Hb]. cbn [zip_with].
    apply wf_cons. auto.
Qed.

Lemma aget_zip_with (f : Z -> Z -> Z) a b i :
  f 0 0 = 0 -> length a = length b -> aget (zip_with f a b) i = f (aget a i) (aget b i).
Proof.
  intros Hf. revert b i. induction a as [|x a IH]; intros [|y b] i Hl; try done.
  - unfold aget. destruct i; simpl; done.
  - destruct i as [|i]; [done|]. cbn [zip_with]. rewrite !aget_cons_S. apply IH.
    simpl in Hl. lia.
Qed.

Lemma testbit_zip_with W (f : Z -> Z -> Z) (g : bool -> bool -> bool) a b n :
  f 0 0 = 0 -> (forall x y i, Z.testbit (f x y) i = g (Z.testbit x i) (Z.testbit y i)) ->
  wf W a -> wf W b -> wf W (zip_with f a b) -> 0 <= n ->
  Z.testbit (val (zip_with f a b)) n = g (Z.testbit (val a) n) (Z.testbit (val b) n).
Proof.
  intros H0 Hg [Hla HFa] [Hlb HFb] [_ HF] Hn.
  rewrite !testbit_val by done. rewrite aget_zip_with by (done || lia). apply Hg.
Qed.


Lemma op_xor_spec W a b :
  wf W a -> wf W b -> wf W (op_xor a b) /\ val (op_xor a b) = Z.lxor (val a) (val b).
Proof.
  intros Ha Hb. pose proof (bitwise_wf W Z.lxor a b (is_u_lxor 32 ltac:(lia)) Ha Hb) as Hw.
  split; [done|]. apply Z.bits_inj'. intros n Hn. unfold op_xor.
  rewrite (testbit_zip_with W _ xorb), Z.lxor_spec by (done || apply Z.lxor_spec). done.
Qed.

Lemma op_and_spec W a b :
  wf W a -> wf W b -> wf W (op_and a b) /\ val (op_and a b) = Z.land (val a) (val b).
Proof.
  intros Ha Hb. pose proof (bitwise_wf W Z.land a b (is_u_land 32 ltac:(lia)) Ha Hb) as Hw.
  split; [done|]. apply Z.bits_inj'. intros n Hn. unfold op_and.
  rewrite (testbit_zip_with W _ andb), Z.land_spec by (done || apply Z.land_spec). done.
Qed.

Lemma op_or_spec W a b :
  wf W a -> wf W b -> wf W (op_or a b) /\ val (op_or a b) = Z.lor (val a) (val b).
Proof.
  intros Ha Hb. pose proof (bitwise_wf W Z.lor a b (is_u_lor 32 ltac:(lia)) Ha Hb) as Hw.
  split; [done|]. apply Z.bits_inj'. intros n Hn. unfold op_or.
  rewrite (testbit_zip_with W _ orb), Z.lor_spec by (done || apply Z.lor_spec). done.
Qed.

Lemma op_not_spec W a : wf W a -> op_not a = (val a =? 0).
Proof.
  intros [_ HF]. unfold op_not. induction HF as [|x r Hx Hr IH]; [done|].
  cbn [forallb]. rewrite IH, val_cons. unfold nz. rewrite negb_involutive.
  pose proof (val_bound r Hr). unfold is_u in Hx.
  apply eq_true_iff_eq. rewrite andb_true_iff, !Z.eqb_eq. lia.
Qed.

Lemma EqualTo_spec W a b :
  (2 <= W)%nat -> wf W a -> is_u 64 b -> EqualTo a b = (val a =? b).
Proof.
  intros HW [Hl HF] Hb. destruct a as [|x [|y r]]; simpl in Hl; [lia..|].
  apply Forall_cons_iff in HF as [Hx HF]. apply Forall_cons_iff in HF as [Hy HF].
  unfold EqualTo. change (drop 2 (x :: y :: r)) with r.
  change (forallb (fun x => negb (nz x)) r) with (op_not r).
  rewrite (op_not_spec (length r)) by done.
  rewrite aget_cons_S, !aget_cons_0, !val_cons, land_ffffffff, shiftr_div by lia.
  pose proof (val_bound r HF). unfold is_u in *.
  destruct (Z.eqb_spec (val r) 0) as [->|Hr]; cbn [negb];
    [|symmetry; apply Z.eqb_neq; lia].
  destruct (Z.eqb_spec y (b / 2 ^ 32)); cbn [negb]; [|symmetry; apply Z.eqb_neq; dlia].
  destruct (Z.eqb_spec x (b mod 2 ^ 32)); cbn [negb]; symmetry;
    [apply Z.eqb_eq|apply Z.eqb_neq]; dlia.
Qed.

(** ** Properties *)

(** The limb loops of [base_uint] implement the ring of integers modulo
    [2^BITS]: addition, subtraction, negation, increment, decrement and both
    multiplications keep the array well formed and compute the exact result
    reduced modulo [2^(32 WIDTH)]. *)
Theorem base_uint_ring W a b b32 :
  wf W a -> wf W b -> is_u 32 b32 ->
  let M := 2 ^ (32 * Z.of_nat W) in
  (wf W (op_add a b) /\ val (op_add a b) = (val a + val b) mod M) /\
  (wf W (op_sub a b) /\ val (op_sub a b) = (val a - val b) mod M) /\
  (wf W (op_neg a) /\ val (op_neg a) = (- val a) mod M) /\
  (wf W (op_incr a) /\ val (op_incr a) = (val a + 1) mod M) /\
  (wf W (op_decr a) /\ val (op_decr a) = (val a - 1) mod M) /\
  (wf W (op_mul32 a b32) /\ val (op_mul32 a b32) = (val a * b32) mod M) /\
  (wf W (op_mul a b) /\ val (op_mul a b) = (val a * val b) mod M).
Proof.
  intros Ha Hb Hb32 M.
  repeat (apply conj; [first
    [ by apply op_add_spec | by apply op_sub_spec | by apply op_neg_spec
    | by apply op_incr_spec | by apply op_decr_spec | by apply op_mul32_spec ]|]).
  by apply op_mul_spec.
Qed.

(** The shift-and-subtract division terminates and is exact: it throws
    exactly on a zero divisor and otherwise returns the Euclidean quotient. *)
Theorem base_uint_division W a b :
  wf W a -> wf W b ->
  (op_div a b = Throw DivisionByZero <-> val b = 0) /\
  (val b <> 0 -> exists q, op_div a b = Ok q /\ wf W q /\
     val b * val q <= val a < val b * (val q + 1)).
Proof.
  intros Ha Hb. pose proof (op_div_spec W a b Ha Hb) as H.
  pose proof (wf_bound _ _ Hb). destruct (Z.eqb_spec (val b) 0) as [E|E].
  - rewrite H. done.
  - destruct H as (q & Hq & Hw & Hv). rewrite Hq. split; [done|].
    intros _. exists q. split_and!; [done|done| |]; rewrite Hv.
    + apply Z.mul_div_le. lia.
    + apply Z.mul_succ_div_gt. lia.
Qed.

(** Shifts, comparison, bit length and the bitwise operators on limb arrays
    are the corresponding operations on the numbers they denote. *)
Theorem base_uint_bits_and_order W a b shift :
  wf W a -> wf W b -> 0 <= shift ->
  (wf W (op_shl a shift) /\
   val (op_shl a shift) = Z.shiftl (val a) shift mod 2 ^ (32 * Z.of_nat W)) /\
  (wf W (op_shr a shift) /\ val (op_shr a shift) = Z.shiftr (val a) shift) /\
  (wf W (op_and a b) /\ val (op_and a b) = Z.land (val a) (val b)) /\
  (wf W (op_or a b) /\ val (op_or a b) = Z.lor (val a) (val b)) /\
  (wf W (op_xor a b) /\ val (op_xor a b) = Z.lxor (val a) (val b)) /\
  CompareTo a b = Z.sgn (val a - val b) /\
  bits a = nbits (val a).
Proof.
  intros Ha Hb Hs. rewrite shiftl_mul, shiftr_div by done.
  repeat (apply conj; [first
    [ by apply op_shl_spec | by apply op_shr_spec | by apply op_and_spec
    | by apply op_or_spec | by apply op_xor_spec | by apply (CompareTo_spec W) ]|]).
  by apply (bits_spec W).
Qed.

(** ** Concrete runs *)

Lemma wf_of_u64_8 n : is_u 64 n -> wf 8 (of_u64 8 n).
Proof. intros. apply of_u64_spec; [lia|done]. Qed.

Lemma base_uint_ring_witness :
  wf 8 (of_u64 8 7) /\ wf 8 (of_u64 8 9) /\
  val (op_sub (of_u64 8 7) (of_u64 8 9)) = 2 ^ 256 - 2.
Proof.
  assert (wf 8 (of_u64 8 7)) as H7 by (apply wf_of_u64_8; unfold is_u; lia).
  assert (wf 8 (of_u64 8 9)) as H9 by (apply wf_of_u64_8; unfold is_u; lia).
  split; [exact H7|]. split; [exact H9|].
  pose proof (base_uint_ring 8 _ _ 5 H7 H9 ltac:(unfold is_u; lia)) as P.
  rewrite (proj2 (proj1 (proj2 P))). reflexivity.
Defined.

Lemma base_uint_division_witness :
  wf 8 (of_u64 8 1000) /\ wf 8 (of_u64 8 7) /\
  exists q, op_div (of_u64 8 1000) (of_u64 8 7) = Ok q /\ wf 8 q /\
    val (of_u64 8 7) * val q <= val (of_u64 8 1000) < val (of_u64 8 7) * (val q + 1).
Proof.
  assert (wf 8 (of_u64 8 1000)) as Ha by (apply wf_of_u64_8; unfold is_u; lia).
  assert (wf 8 (of_u64 8 7)) as Hb by (apply wf_of_u64_8; unfold is_u; lia).
  split; [exact Ha|]. split; [exact Hb|].
  apply (proj2 (base_uint_division 8 _ _ Ha Hb)). vm_compute. discriminate.
Defined.

Lemma base_uint_bits_and_order_witness :
  wf 8 (of_u64 8 5) /\ bits (of_u64 8 5) = 3.
Proof.
  assert (wf 8 (of_u64 8 5)) as Ha by (apply wf_of_u64_8; unfold is_u; lia).
  split; [exact Ha|].
  pose proof (base_uint_bits_and_order 8 _ _ 1 Ha Ha ltac:(lia)) as P.
  rewrite (proj2 (proj2 (proj2 (proj2 (proj2 (proj2 P)))))). reflexivity.
Defined.

Example op_div_by_zero : op_div (of_u64 8 5) (zero 8) = Throw DivisionByZero.
Proof. reflexivity. Qed.

End base_uint.
