(* ===== verification/Compact.v ===== *)
(** * [arith_uint256]: the compact ("nBits") form and the [uint256] conversions

    Models the second half of src/src/arith_uint256.cpp on top of [base_uint]:
    [SetCompact], [GetCompact], [ArithToUint256] and [UintToArith256]. *)

From S2P Require Import Prelude Bytes ArithUint256.
Local Open Scope cxx_scope.

Module arith_uint256.
Import base_uint.

(** [WIDTH] of [base_uint<256>]. *)
Definition WIDTH : nat := 8.

(** ** Compact ("nBits") representation *)

(** The new value of [*this], [*pfNegative] and [*pfOverflow]. *)
Definition SetCompact (nCompact : Z) : t * bool * bool :=
  let nSize := nCompact .>> 24 in
  let nWord := nCompact .& 0x007fffff in
  let '(nWord, this) :=
    if nSize <=? 3 then
      let nWord := nWord .>> (8 * (3 - nSize)) in
      (nWord, of_u64 WIDTH nWord)
    else (nWord, op_shl (of_u64 WIDTH nWord) (8 * (nSize - 3))) in
  let fNegative := nz nWord && nz (nCompact .& 0x00800000) in
  let fOverflow :=
    nz nWord && ((34 <? nSize) || (0xff <? nWord) && (33 <? nSize)
                 || (0xffff <? nWord) && (32 <? nSize)) in
  (this, fNegative, fOverflow).

(** [None] is a failed [assert]. *)
Definition GetCompact (this : t) (fNegative : bool) : option Z :=
  let nSize := (bits this + 7) / 8 in
  let nCompact :=
    if nSize <=? 3 then u32 (u64 (GetLow64 this .<< (8 * (3 - nSize))))
    else u32 (GetLow64 (op_shr this (8 * (nSize - 3)))) in
  let '(nCompact, nSize) :=
    if nz (nCompact .& 0x00800000) then (nCompact .>> 8, nSize + 1)
    else (nCompact, nSize) in
  if negb ((nCompact .& u32 (Z.lnot 0x007fffff)) =? 0) then None
  else if negb (nSize <? 256) then None
  else
    let nCompact := nCompact .| u32 (nSize .<< 24) in
    let nCompact :=
      nCompact .| (if fNegative && nz (nCompact .& 0x007fffff) then 0x00800000 else 0) in
    Some nCompact.

(** ** Conversion from and to the opaque [uint256] blob (32 bytes) *)

Fixpoint ArithToUint256 (pn : t) : list Z :=
  match pn with
  | [] => []
  | x :: r => WriteLE32 x ++ ArithToUint256 r
  end.

Fixpoint uint_limbs (x : nat) (a : list Z) : t :=
  match x with
  | O => []
  | S x' => ReadLE32 a :: uint_limbs x' (drop 4 a)
  end.

Definition UintToArith256 (a : list Z) : t := uint_limbs WIDTH a.

(** ** Facts about the compact form *)

Lemma GetLow64_spec W pn : (2 <= W)%nat -> wf W pn -> GetLow64 pn = val pn mod 2 ^ 64.
Proof.
  intros HW [Hl HF]. destruct pn as [|x [|y r]]; simpl in Hl; [lia..|].
  apply Forall_cons_iff in HF as [Hx HF]. apply Forall_cons_iff in HF as [Hy HF].
  unfold GetLow64. rewrite aget_cons_S, !aget_cons_0. unfold is_u in *.
  rewrite u64_id by (unfold is_u; rewrite shiftl_mul by lia; lia).
  rewrite lor_disjoint_add by lia. rewrite !val_cons.
  replace (x + 2 ^ 32 * (y + 2 ^ 32 * val r)) with (x + y * 2 ^ 32 + val r * 2 ^ 64) by lia.
  rewrite Z.mod_add by lia. rewrite Z.mod_small; lia.
Qed.

(** The byte length of a number and its three leading bytes. *)
Lemma byte_length v :
  0 <= v -> let nSize := (nbits v + 7) / 8 in
  0 <= nSize /\ v < 2 ^ (8 * nSize) /\ (0 < v -> 0 < nSize /\ 2 ^ (8 * (nSize - 1)) <= v).
Proof.
  intros Hv nSize. destruct (nbits_spec v Hv) as (H0 & Hhi & Hlo).
  assert (0 <= nSize /\ 8 * (nSize - 1) <= nbits v - 1 \/ nbits v = 0) as Hcase
    by (unfold nSize; dlia).
  assert (nbits v <= 8 * nSize /\ 0 <= nSize) as [Hle Hn0] by (unfold nSize; dlia).
  split_and!; [done| |].
  - eapply Z.lt_le_trans; [exact Hhi|]. apply Z.pow_le_mono_r; lia.
  - intros Hpos. specialize (Hlo Hpos).
    assert (nbits v <> 0) by (intros E; rewrite E in Hhi; lia).
    split; [unfold nSize; dlia|].
    eapply Z.le_trans; [|exact Hlo]. apply Z.pow_le_mono_r; lia.
Qed.

(** The mantissa [GetCompact] takes out of a value of byte length [nSize],
    before the sign bit is cleared. *)
Definition mantissa (v nSize : Z) : Z :=
  if nSize <=? 3 then v * 2 ^ (8 * (3 - nSize)) else v / 2 ^ (8 * (nSize - 3)).

Lemma mantissa_range v nSize :
  0 < v -> 0 < nSize -> v < 2 ^ (8 * nSize) -> 2 ^ (8 * (nSize - 1)) <= v ->
  2 ^ 16 <= mantissa v nSize < 2 ^ 24.
Proof.
  intros Hv Hn Hhi Hlo. unfold mantissa. destruct (Z.leb_spec nSize 3).
  - replace (2 ^ 24) with (2 ^ (8 * nSize) * 2 ^ (8 * (3 - nSize)))
      by (rewrite <- Z.pow_add_r by lia; f_equal; lia).
    replace (2 ^ 16) with (2 ^ (8 * (nSize - 1)) * 2 ^ (8 * (3 - nSize)))
      by (rewrite <- Z.pow_add_r by lia; f_equal; lia).
    nia.
  - replace (8 * nSize) with (8 * (nSize - 3) + 24) in Hhi by lia.
    replace (8 * (nSize - 1)) with (8 * (nSize - 3) + 16) in Hlo by lia.
    rewrite Z.pow_add_r in Hhi, Hlo by lia.
    split; [apply Z.div_le_lower_bound|apply Z.div_lt_upper_bound]; lia.
Qed.

Lemma u32_lnot_mask : u32 (Z.lnot 0x007fffff) = Z.shiftl 0x1ff 23.
Proof. reflexivity. Qed.

Lemma land_high_zero m : 0 <= m < 2 ^ 23 -> Z.land m (u32 (Z.lnot 0x007fffff)) = 0.
Proof.
  intros Hm. rewrite u32_lnot_mask. apply Z.bits_inj'. intros i Hi.
  rewrite Z.land_spec, Z.bits_0. destruct (Z_lt_ge_dec i 23).
  - rewrite Z.shiftl_spec_low by done. apply andb_false_r.
  - rewrite <- (Z.mod_small m (2 ^ 23)), Z.mod_pow2_bits_high by lia. done.
Qed.

Lemma nz_sign_bit m : 0 <= m < 2 ^ 24 -> nz (Z.land m 0x00800000) = (2 ^ 23 <=? m).
Proof.
  intros Hm. change 0x00800000 with (2 ^ 23). rewrite nz_testbit by lia.
  destruct (Z.leb_spec (2 ^ 23) m).
  - replace 23 with (Z.log2 m); [apply Z.bit_log2; lia|].
    apply Z.log2_unique; lia.
  - rewrite <- (Z.mod_small m (2 ^ 23)) by lia. apply Z.mod_pow2_bits_high. lia.
Qed.

(** What [GetCompact] returns, with the asserts discharged. *)
Lemma GetCompact_eq a (fNegative := false) :
  wf WIDTH a ->
  let v := val a in
  let nSize := (nbits v + 7) / 8 in
  let m := mantissa v nSize in
  GetCompact a fNegative =
  Some (if 2 ^ 23 <=? m then m / 2 ^ 8 + (nSize + 1) * 2 ^ 24 else m + nSize * 2 ^ 24).
Proof.
  intros Ha v nSize m. pose proof (wf_bound _ _ Ha) as Hv. fold v in Hv.
  unfold GetCompact. rewrite (bits_spec WIDTH) by done. fold v nSize.
  destruct (byte_length v ltac:(lia)) as (Hn0 & Hhi & Hlo). fold nSize in Hn0, Hhi, Hlo.
  assert (nSize <= 32) as Hn32.
  { destruct (Z_le_gt_dec nSize 32); [done|]. destruct (Z.eq_dec v 0) as [E|].
    - assert (nSize = 0) by (unfold nSize; rewrite E; reflexivity). lia.
    - destruct (Hlo ltac:(lia)) as [_ Hl].
      pose proof (Z.pow_le_mono_r 2 256 (8 * (nSize - 1))).
      change (32 * Z.of_nat WIDTH) with 256 in Hv. lia. }
  assert (0 <= m < 2 ^ 24) as Hm.
  { destruct (Z.eq_dec v 0) as [E|].
    - unfold m, mantissa, nSize. rewrite E. simpl. lia.
    - destruct (Hlo ltac:(lia)). pose proof (mantissa_range v nSize). unfold m. lia. }
  replace (if nSize <=? 3 then _ else _) with m.
  2:{ unfold m, mantissa in *. destruct (Z.leb_spec nSize 3).
      - rewrite (GetLow64_spec WIDTH) by (done || (unfold WIDTH; lia)). fold v.
        assert (v < 2 ^ 24).
        { eapply Z.lt_le_trans; [exact Hhi|]. apply Z.pow_le_mono_r; lia. }
        rewrite (Z.mod_small v), shiftl_mul by lia.
        rewrite u64_id, u32_id by (unfold is_u; lia). done.
      - destruct (op_shr_spec WIDTH a (8 * (nSize - 3)) Ha ltac:(lia)) as [Hs Hsv].
        rewrite (GetLow64_spec WIDTH) by (done || (unfold WIDTH; lia)).
        rewrite Hsv. fold v. rewrite Z.mod_small, u32_id by (unfold is_u; lia). done. }
  rewrite nz_sign_bit by done. unfold fNegative. cbn [andb].
  assert (forall m' n', 0 <= m' < 2 ^ 23 -> 0 <= n' < 256 ->
    (if negb (Z.land m' (u32 (Z.lnot 0x007fffff)) =? 0) then None
     else if negb (n' <? 256) then None
     else Some (Z.lor (Z.lor m' (u32 (Z.shiftl n' 24))) 0)) = Some (m' + n' * 2 ^ 24)) as Hfin.
  { intros m' n' Hm' Hn'. rewrite land_high_zero by done.
    rewrite (proj2 (Z.ltb_lt _ _)) by lia. cbn [negb Z.eqb].
    rewrite Z.lor_0_r, u32_id by (unfold is_u; rewrite shiftl_mul; lia).
    rewrite lor_disjoint_add by lia. done. }
  destruct (Z.leb_spec (2 ^ 23) m).
  - rewrite shiftr_div by lia. apply Hfin; [dlia|lia].
  - apply Hfin; lia.
Qed.

(** The magnitude a compact word denotes: [mantissa * 256^(exponent - 3)],
    rounded down when the exponent is below 3. *)
Definition compact_mag (nCompact : Z) : Z :=
  let e := nCompact / 2 ^ 24 in
  let w := nCompact mod 2 ^ 23 in
  if e <=? 3 then w / 2 ^ (8 * (3 - e)) else w * 2 ^ (8 * (e - 3)).

Lemma land_7fffff x : Z.land x 0x007fffff = x mod 2 ^ 23.
Proof. by apply (land_mask 23). Qed.

Lemma overflow_test e w :
  3 < e < 256 -> 0 <= w < 2 ^ 23 ->
  nz w && ((34 <? e) || (0xff <? w) && (33 <? e) || (0xffff <? w) && (32 <? e))
  = (2 ^ 256 <=? w * 2 ^ (8 * (e - 3))).
Proof.
  intros He Hw. unfold nz. destruct (Z.eqb_spec w 0) as [->|Hnz]; cbn [negb andb].
  { symmetry. apply Z.leb_gt. lia. }
  apply eq_true_iff_eq. rewrite !orb_true_iff, !andb_true_iff, !Z.ltb_lt, Z.leb_le.
  destruct (Z_le_gt_dec e 32) as [|H32].
  - pose proof (Z.pow_le_mono_r 2 (8 * (e - 3)) 232 ltac:(lia) ltac:(lia)). split; [lia|].
    intros. exfalso. nia.
  - destruct (Z_le_gt_dec e 34) as [|H34].
    + assert (e = 33 \/ e = 34) as [-> | ->] by lia.
      * change (2 ^ (8 * (33 - 3))) with (2 ^ 240). lia.
      * change (2 ^ (8 * (34 - 3))) with (2 ^ 248). lia.
    + pose proof (Z.pow_le_mono_r 2 256 (8 * (e - 3)) ltac:(lia) ltac:(lia)). split; [nia|lia].
Qed.

Lemma SetCompact_eq c :
  is_u 32 c ->
  let '(x, neg, ovf) := SetCompact c in
  wf WIDTH x /\ val x = compact_mag c mod 2 ^ 256 /\
  neg = nz (compact_mag c) && Z.testbit c 23 /\ ovf = (2 ^ 256 <=? compact_mag c).
Proof.
  intros Hc. unfold is_u in Hc. unfold SetCompact, compact_mag.
  rewrite shiftr_div, land_7fffff by lia. change 0x00800000 with (2 ^ 23).
  rewrite nz_testbit by lia.
  set (e := c / 2 ^ 24). set (w := c mod 2 ^ 23).
  assert (0 <= e < 256) by (unfold e; dlia).
  assert (0 <= w < 2 ^ 23) by (apply Z.mod_pos_bound; lia). clearbody e w.
  destruct (Z.leb_spec e 3).
  - rewrite shiftr_div by lia.
    assert (0 <= w / 2 ^ (8 * (3 - e)) <= w).
    { split; [apply Z.div_pos; lia|]. apply Z.div_le_upper_bound; nia. }
    destruct (of_u64_spec WIDTH (w / 2 ^ (8 * (3 - e)))) as [Hx Hv];
      [unfold WIDTH; lia|unfold is_u; lia|].
    rewrite Hv, Z.mod_small by lia. split_and!; try done.
    rewrite (proj2 (Z.leb_gt _ _)) by lia.
    rewrite !(proj2 (Z.ltb_ge _ e)) by lia. rewrite !andb_false_r. done.
  - destruct (of_u64_spec WIDTH w) as [Hx Hv]; [unfold WIDTH; lia|unfold is_u; lia|].
    destruct (op_shl_spec WIDTH _ (8 * (e - 3)) Hx ltac:(lia)) as [Hs Hsv].
    rewrite Hsv, Hv. split_and!; [done|done| |].
    + f_equal. unfold nz. f_equal. apply eq_true_iff_eq. rewrite !Z.eqb_eq. nia.
    + apply overflow_test; lia.
Qed.

(** The mantissa/exponent pair [GetCompact] produces, as a magnitude: the value
    with its low [8 k] bits cleared. *)
Lemma compact_mag_pack m n :
  0 <= m < 2 ^ 23 -> 0 <= n < 256 ->
  compact_mag (m + n * 2 ^ 24) =
  if n <=? 3 then m / 2 ^ (8 * (3 - n)) else m * 2 ^ (8 * (n - 3)).
Proof.
  intros Hm Hn. unfold compact_mag.
  replace ((m + n * 2 ^ 24) / 2 ^ 24) with n by dlia.
  replace ((m + n * 2 ^ 24) mod 2 ^ 23) with m by dlia. done.
Qed.

Lemma testbit_pack m n : 0 <= m < 2 ^ 23 -> Z.testbit (m + n * 2 ^ 24) 23 = false.
Proof.
  intros Hm. replace (m + n * 2 ^ 24) with (m + (2 * n) * 2 ^ 23) by lia.
  rewrite Z.testbit_odd, shiftr_div, Z.div_add, Z.div_small by lia.
  rewrite Z.add_0_l. by rewrite Z.odd_mul.
Qed.

(** [k], the number of low bytes dropped by the encoding of [v]. *)
Lemma encoded_mag v :
  0 < v < 2 ^ 256 ->
  let nSize := (nbits v + 7) / 8 in
  let m := mantissa v nSize in
  let c := if 2 ^ 23 <=? m then m / 2 ^ 8 + (nSize + 1) * 2 ^ 24 else m + nSize * 2 ^ 24 in
  exists k, 0 <= k /\ (k = 0 \/ 2 ^ 15 * 2 ^ (8 * k) <= v) /\
    compact_mag c = v / 2 ^ (8 * k) * 2 ^ (8 * k) /\
    is_u 32 c /\ Z.testbit c 23 = false.
Proof.
  intros Hv nSize m c. destruct (byte_length v ltac:(lia)) as (Hn0 & Hhi & Hlo).
  fold nSize in Hn0, Hhi, Hlo. destruct (Hlo ltac:(lia)) as [Hn1 Hl]. clear Hlo.
  clearbody nSize.
  assert (nSize <= 32) as Hn32.
  { destruct (Z_le_gt_dec nSize 32); [done|].
    pose proof (Z.pow_le_mono_r 2 256 (8 * (nSize - 1))). lia. }
  pose proof (mantissa_range v nSize ltac:(lia) Hn1 Hhi Hl) as Hm. fold m in Hm.
  assert (forall k, 2 ^ (8 * (k + 1)) = 2 ^ 8 * 2 ^ (8 * k) \/ k < 0) as Hp8.
  { intros k. destruct (Z_lt_ge_dec k 0); [by right|left].
    rewrite <- Z.pow_add_r by lia. f_equal. lia. }
  subst c. destruct (Z.leb_spec (2 ^ 23) m) as [Hbig|Hsmall].
  - rewrite compact_mag_pack by (dlia || lia). rewrite testbit_pack by dlia.
    assert (is_u 32 (m / 2 ^ 8 + (nSize + 1) * 2 ^ 24)) by (unfold is_u; dlia).
    unfold m, mantissa in *. destruct (Z.leb_spec nSize 3) as [H3|H3].
    + destruct (Z.eq_dec nSize 3) as [->|Hne].
      * exists 1. simpl Z.leb. change (2 ^ (8 * (3 - 3))) with 1 in *.
        change (2 ^ (8 * (3 + 1 - 3))) with (2 ^ 8).
        change (8 * 1) with 8. rewrite Z.mul_1_r in *. split_and!; try done; lia.
      * exists 0. rewrite (proj2 (Z.leb_le _ _)) by lia. split_and!; try done; try lia.
        replace (3 - nSize) with (3 - (nSize + 1) + 1) by lia.
        destruct (Hp8 (3 - (nSize + 1))) as [-> |]; [|lia].
        replace (v * (2 ^ 8 * 2 ^ (8 * (3 - (nSize + 1)))))
          with (v * 2 ^ (8 * (3 - (nSize + 1))) * 2 ^ 8) by lia.
        rewrite !Z.div_mul by lia. change (2 ^ (8 * 0)) with 1. rewrite Z.div_1_r. lia.
    + exists (nSize - 2). rewrite (proj2 (Z.leb_gt _ _)) by lia.
      replace (nSize + 1 - 3) with (nSize - 2) by lia.
      assert (2 ^ (8 * (nSize - 2)) = 2 ^ (8 * (nSize - 3)) * 2 ^ 8) as Hpow.
      { rewrite <- Z.pow_add_r by lia. f_equal. lia. }
      split_and!; try done; try lia.
      * right. rewrite Hpow.
        assert (2 ^ 23 * 2 ^ (8 * (nSize - 3)) <= v); [|lia].
        pose proof (Z.mul_div_le v (2 ^ (8 * (nSize - 3))) ltac:(lia)). nia.
      * rewrite Hpow, <- Z.div_div by lia. done.
  - rewrite compact_mag_pack by lia. rewrite testbit_pack by lia.
    assert (is_u 32 (m + nSize * 2 ^ 24)) by (unfold is_u; lia).
    unfold m, mantissa in *. destruct (Z.leb_spec nSize 3) as [H3|H3].
    + exists 0. split_and!; try done; try lia. rewrite Z.div_mul by lia.
      change (2 ^ (8 * 0)) with 1. rewrite Z.div_1_r. lia.
    + exists (nSize - 3). split_and!; try done; try lia. right.
      pose proof (Z.mul_div_le v (2 ^ (8 * (nSize - 3))) ltac:(lia)). nia.
Qed.

Lemma GetCompact_SetCompact a :
  wf WIDTH a ->
  exists c x k, GetCompact a false = Some c /\ is_u 32 c /\
    SetCompact c = (x, false, false) /\ wf WIDTH x /\
    0 <= k /\ (k = 0 \/ 2 ^ 15 * 2 ^ (8 * k) <= val a) /\
    val x = val a / 2 ^ (8 * k) * 2 ^ (8 * k).
Proof.
  intros Ha. pose proof (wf_bound _ _ Ha) as Hv. change (32 * Z.of_nat WIDTH) with 256 in Hv.
  pose proof (GetCompact_eq a Ha) as HG. cbv zeta in HG. rewrite HG. clear HG.
  destruct (Z.eq_dec (val a) 0) as [E|Hnz].
  - rewrite E. exists 0, (zero WIDTH), 0. split_and!; try done; [apply wf_zero|by left].
  - pose proof (encoded_mag (val a) ltac:(lia)) as HE. cbv zeta in HE.
    destruct HE as (k & Hk & Hprec & Hmag & Hc & Hbit).
    match goal with |- context [Some ?x] => set (c := x) in * end.
    pose proof (SetCompact_eq c Hc) as HS.
    destruct (SetCompact c) as [[x neg] ovf] eqn:ES.
    destruct HS as (Hx & Hxv & Hneg & Hovf).
    rewrite Hbit, andb_false_r in Hneg.
    pose proof (Z.mul_div_le (val a) (2 ^ (8 * k)) ltac:(lia)).
    pose proof (Z.div_pos (val a) (2 ^ (8 * k)) ltac:(lia) ltac:(lia)).
    rewrite Hmag in Hxv, Hovf. rewrite (proj2 (Z.leb_gt _ _)) in Hovf by lia.
    exists c, x, k. subst neg ovf. split_and!; try done.
    rewrite Hxv. apply Z.mod_small. nia.
Qed.

(** ** Properties *)

(** [SetCompact] decodes every 32-bit compact word: it flags an overflow
    exactly when the denoted magnitude does not fit 256 bits, flags a negative
    number exactly when the magnitude is not zero and the sign bit is set, and
    otherwise stores the magnitude [mantissa * 256^(exponent - 3)] itself. *)
Theorem SetCompact_decodes c :
  is_u 32 c ->
  let '(x, neg, ovf) := SetCompact c in
  wf WIDTH x /\
  (ovf = true <-> 2 ^ 256 <= compact_mag c) /\
  (neg = true <-> compact_mag c <> 0 /\ Z.testbit c 23 = true) /\
  (ovf = false -> val x = compact_mag c).
Proof.
  intros Hc. pose proof (SetCompact_eq c Hc) as H.
  destruct (SetCompact c) as [[x neg] ovf]. destruct H as (Hx & Hv & -> & ->).
  assert (0 <= compact_mag c).
  { unfold compact_mag. unfold is_u in Hc. case_if; [apply Z.div_pos; dlia|].
    apply Z.mul_nonneg_nonneg; [apply Z.mod_pos_bound|]; lia. }
  split_and!; [done|apply Z.leb_le| |].
  - unfold nz. rewrite andb_true_iff, negb_true_iff, Z.eqb_neq. done.
  - intros Hlt%Z.leb_gt. rewrite Hv. apply Z.mod_small. lia.
Qed.

(** Encoding a 256-bit target with [GetCompact] never trips one of its
    asserts, and decoding the result gives back the target rounded down to a
    multiple of [256^k], where nothing is dropped ([k = 0]) or at least 15
    significant bits are kept; neither flag is raised. *)
Theorem compact_roundtrip a :
  wf WIDTH a ->
  exists c x k, GetCompact a false = Some c /\ is_u 32 c /\
    SetCompact c = (x, false, false) /\ wf WIDTH x /\
    0 <= k /\ (k = 0 \/ 2 ^ 15 * 2 ^ (8 * k) <= val a) /\
    val x = val a / 2 ^ (8 * k) * 2 ^ (8 * k).
Proof. apply GetCompact_SetCompact. Qed.

Lemma uint_limbs_Arith pn : Forall (is_u 32) pn -> uint_limbs (length pn) (ArithToUint256 pn) = pn.
Proof.
  induction 1 as [|x r Hx Hr IH]; [done|]. cbn [length uint_limbs ArithToUint256].
  rewrite ReadLE32_Write by done.
  rewrite drop_app_length' by (unfold WriteLE32; by rewrite length_le_bytes). by rewrite IH.
Qed.

Lemma Arith_uint_limbs n a :
  length a = (4 * n)%nat -> bytes_ok a -> ArithToUint256 (uint_limbs n a) = a.
Proof.
  revert a. induction n as [|n IH]; intros a Hl Ha.
  - apply nil_length_inv in Hl as ->. done.
  - cbn [uint_limbs ArithToUint256]. rewrite IH.
    + unfold WriteLE32, ReadLE32.
      replace 4%nat with (length (take 4 a)) at 1 by (rewrite length_take; lia).
      rewrite le_bytes_val by (by apply Forall_take). apply take_drop.
    + rewrite length_drop. lia.
    + by apply Forall_drop.
Qed.

Lemma wf_uint_limbs n a : bytes_ok a -> wf n (uint_limbs n a).
Proof.
  revert a. induction n as [|n IH]; intros a Ha; [done|].
  cbn [uint_limbs]. apply wf_cons. split; [by apply ReadLE32_range|].
  apply IH. by apply Forall_drop.
Qed.

Lemma UintToArith256_wf a : bytes_ok a -> wf WIDTH (UintToArith256 a).
Proof. apply wf_uint_limbs. Qed.

(** The 32-byte blob [uint256] and the limb array [arith_uint256] convert
    into each other without loss, in both directions. *)
Theorem uint256_conversion_roundtrip :
  (forall a, wf WIDTH a -> UintToArith256 (ArithToUint256 a) = a) /\
  (forall b, length b = 32%nat -> bytes_ok b -> ArithToUint256 (UintToArith256 b) = b).
Proof.
  split.
  - intros a [Hl HF]. unfold UintToArith256. rewrite <- Hl. by apply uint_limbs_Arith.
  - intros b Hl Hb. by apply Arith_uint_limbs.
Qed.

(** ** Concrete runs *)

(** 0x1d00ffff, the historical minimum difficulty, decodes to 0xffff * 2^208. *)
Lemma SetCompact_decodes_witness :
  is_u 32 0x1d00ffff /\ val (fst (fst (SetCompact 0x1d00ffff))) = 0xffff * 2 ^ 208.
Proof.
  assert (is_u 32 0x1d00ffff) as H by (unfold is_u; lia).
  split; [exact H|]. pose proof (SetCompact_decodes 0x1d00ffff H) as P.
  destruct (SetCompact 0x1d00ffff) as [[x neg] ovf] eqn:E.
  assert (ovf = false) as Ho by (vm_compute in E; congruence).
  cbn [fst]. rewrite (proj2 (proj2 (proj2 P)) Ho). reflexivity.
Defined.

Lemma compact_roundtrip_witness :
  wf WIDTH (of_u64 WIDTH 0x123456789a) /\
  exists c x k, GetCompact (of_u64 WIDTH 0x123456789a) false = Some c /\ is_u 32 c /\
    SetCompact c = (x, false, false) /\ wf WIDTH x /\
    0 <= k /\ (k = 0 \/ 2 ^ 15 * 2 ^ (8 * k) <= val (of_u64 WIDTH 0x123456789a)) /\
    val x = val (of_u64 WIDTH 0x123456789a) / 2 ^ (8 * k) * 2 ^ (8 * k).
Proof.
  assert (wf WIDTH (of_u64 WIDTH 0x123456789a)) as H
    by (apply of_u64_spec; unfold WIDTH, is_u; lia).
  split; [exact H|exact (compact_roundtrip _ H)].
Defined.

Example GetCompact_example :
  GetCompact (of_u64 WIDTH 0x1234560000) false = Some 0x05123456 /\
  GetCompact (of_u64 WIDTH 0xc0de000000) false = Some 0x0600c0de.
Proof. split; vm_compute; reflexivity. Qed.

End arith_uint256.
