(* ===== verification/Pow.v ===== *)
(** * Proof of work: multi-algorithm retargeting and target checks

    Models src/src/pow.cpp, [CBlockHeader::GetAlgo] of
    src/src/primitives/block.cpp, [CBlockIndex::GetMedianTimePast] of
    src/src/chain.h and the proof-of-work fields of [Consensus::Params] with
    the main network's values.

    A [const CBlockIndex*] is the list of the block and its [pprev] ancestors,
    nearest first; [nullptr] is the empty list. *)

From stdpp Require Import sorting.
From S2P Require Import Prelude Bytes ArithUint256 Compact.
Import base_uint arith_uint256.
Local Open Scope cxx_scope.

(** ** Block versions carry the algorithm *)

Definition ALGO_UNKNOWN : Z := -1.
Definition ALGO_SHA256D : Z := 0.
Definition ALGO_SCRYPT : Z := 1.
Definition ALGO_X11 : Z := 2.
Definition ALGO_YESPOWER : Z := 3.
Definition ALGO_LYRA2 : Z := 4.

Definition NUM_ALGOS : Z := 3.
Definition NUM_ALGOSV2 : Z := 4.
Definition NUM_ALGOSV3 : Z := 5.

Definition BLOCK_VERSION_ALGO : Z := 7 .<< 9.
Definition BLOCK_VERSION_SCRYPT : Z := 0 .<< 9.
Definition BLOCK_VERSION_LYRA2 : Z := 1 .<< 9.
Definition BLOCK_VERSION_SHA256D : Z := 2 .<< 9.
Definition BLOCK_VERSION_X11 : Z := 4 .<< 9.
Definition BLOCK_VERSION_YESPOWER : Z := 6 .<< 9.

Definition GetAlgo (nVersion : Z) : Z :=
  let v := nVersion .& BLOCK_VERSION_ALGO in
  if v =? BLOCK_VERSION_SCRYPT then ALGO_SCRYPT
  else if v =? BLOCK_VERSION_SHA256D then ALGO_SHA256D
  else if v =? BLOCK_VERSION_X11 then ALGO_X11
  else if v =? BLOCK_VERSION_YESPOWER then ALGO_YESPOWER
  else if v =? BLOCK_VERSION_LYRA2 then ALGO_LYRA2
  else ALGO_UNKNOWN.

(** ** Block index entries *)

Record CBlockIndex := {
  nHeight : Z;
  nVersion : Z;
  nTime : Z;
  nBits : Z;
}.

Definition pindex : Type := list CBlockIndex.

Definition nMedianTimeSpan : nat := 11.

(** The times of the last eleven blocks (oldest first, as the loop fills the
    array from its end), sorted, and the middle one. *)
Definition GetMedianTimePast (this : pindex) : Z :=
  let pmedian := reverse (map nTime (take nMedianTimeSpan this)) in
  let sorted := merge_sort Z.le pmedian in
  aget sorted (length sorted / 2).

(** ** Consensus parameters *)

Record Params := {
  powLimit : list Z;
  fPowAllowMinDifficultyBlocks : bool;
  fPowNoRetargeting : bool;
  nPowTargetSpacing : Z;
  nAveragingInterval : Z;
  nAveragingTargetTimespan : Z;
  nAveragingTargetTimespanV2 : Z;
  nMinActualTimespan : Z;
  nMaxActualTimespan : Z;
  nMinActualTimespanV2 : Z;
  nMaxActualTimespanV2 : Z;
  nMinActualTimespanV3 : Z;
  nMaxActualTimespanV3 : Z;
  nLocalTargetAdjustment : Z;
  v2DiffChangeHeight : Z;
  v3DiffChangeHeight : Z;
  AlgoChangeHeight : Z;
}.

(** [CMainParams]: the proof-of-work fields. *)
Definition CMainParams : Params :=
  let nAveragingInterval := 10 in
  let multiAlgoTargetSpacing := 90 * 3 in
  let multiAlgoTargetSpacingV2 := 90 * 4 in
  let nAveragingTargetTimespan := nAveragingInterval * multiAlgoTargetSpacing in
  let nAveragingTargetTimespanV2 := nAveragingInterval * multiAlgoTargetSpacingV2 in
  let nMaxAdjustDown := 16 in
  let nMaxAdjustUp := 8 in
  let nMaxAdjustDownV2 := 12 in
  let nMaxAdjustUpV2 := 10 in
  {| powLimit := replicate 29 0xff ++ [0x0f; 0; 0];
     fPowAllowMinDifficultyBlocks := false;
     fPowNoRetargeting := false;
     nPowTargetSpacing := 90;
     nAveragingInterval := nAveragingInterval;
     nAveragingTargetTimespan := nAveragingTargetTimespan;
     nAveragingTargetTimespanV2 := nAveragingTargetTimespanV2;
     nMinActualTimespan := nAveragingTargetTimespan * (100 - nMaxAdjustUp) ÷ 100;
     nMaxActualTimespan := nAveragingTargetTimespan * (100 + nMaxAdjustDown) ÷ 100;
     nMinActualTimespanV2 := nAveragingTargetTimespan * (100 - nMaxAdjustUpV2) ÷ 100;
     nMaxActualTimespanV2 := nAveragingTargetTimespan * (100 + nMaxAdjustDownV2) ÷ 100;
     nMinActualTimespanV3 := nAveragingTargetTimespanV2 * (100 - nMaxAdjustUpV2) ÷ 100;
     nMaxActualTimespanV3 := nAveragingTargetTimespanV2 * (100 + nMaxAdjustDownV2) ÷ 100;
     nLocalTargetAdjustment := 4;
     v2DiffChangeHeight := 100000;
     v3DiffChangeHeight := 100050;
     AlgoChangeHeight := 285000 |}.

(** ** pow.cpp *)

(** The ways the retarget code can fail: a [uint_error] of the division, or
    the asserts of [GetCompact]. *)
Inductive pow_error : Type :=
| UintError (e : uint_error)
| AssertFailed.

Definition div_u64 (bn : t) (d : Z) : result pow_error t :=
  match op_div bn (of_u64 WIDTH (u64 d)) with
  | Ok q => Ok q
  | Throw e => Throw (UintError e)
  end.

Definition compact_of (bn : t) : result pow_error Z :=
  match GetCompact bn false with
  | Some c => Ok c
  | None => Throw AssertFailed
  end.

Definition limit (params : Params) : t := UintToArith256 (powLimit params).

(** [for (; pindex; pindex = pindex->pprev)] *)
Fixpoint GetLastBlockIndexForAlgo (p : pindex) (params : Params) (algo : Z) : pindex :=
  match p with
  | [] => []
  | b :: pprev =>
      if negb (GetAlgo (nVersion b) =? algo)
      then GetLastBlockIndexForAlgo pprev params algo
      else if fPowAllowMinDifficultyBlocks params &&
              match pprev with
              | [] => false
              | b' :: _ => nTime b' + nPowTargetSpacing params * 6 <? nTime b
              end
      then GetLastBlockIndexForAlgo pprev params algo
      else p
  end.

(** The two [for] loops of the per-algorithm retarget: [n] rounds of
    [bnNew *= mul; bnNew /= div]. *)
Fixpoint adjust_loop (n : nat) (mul div : Z) (bnNew : t) : result pow_error t :=
  match n with
  | O => Ok bnNew
  | S n =>
      let! bnNew := div_u64 (op_mul32 bnNew (u32 mul)) div in
      adjust_loop n mul div bnNew
  end.

Definition per_algo_retarget (params : Params) (nAdjustments : Z) (bnNew : t)
  : result pow_error t :=
  if 0 <? nAdjustments then
    adjust_loop (Z.to_nat nAdjustments) 100 (100 + nLocalTargetAdjustment params) bnNew
  else if nAdjustments <? 0 then
    adjust_loop (Z.to_nat (- nAdjustments)) (100 + nLocalTargetAdjustment params) 100 bnNew
  else Ok bnNew.

(** Damped and clamped time span ("Limit adjustment step"). *)
Definition limit_timespan (target min max actual : Z) : Z :=
  let nActualTimespan := target + (actual - target) ÷ 4 in
  let nActualTimespan := if nActualTimespan <? min then min else nActualTimespan in
  if max <? nActualTimespan then max else nActualTimespan.

(** "Global retarget": [bnNew *= nActualTimespan] converts the time span to the
    [uint32_t] operand of that overload, [bnNew /= target] goes through the
    [uint64_t] constructor. *)
Definition global_retarget (bnNew : t) (nActualTimespan target : Z) : result pow_error t :=
  div_u64 (op_mul32 bnNew (u32 nActualTimespan)) target.

(** The part the three versions share: global and per-algorithm retarget and
    the final clamp to the limit. *)
Definition retarget (params : Params) (nBitsPrev nActualTimespan target nAdjustments : Z)
  : result pow_error Z :=
  let bnNew := fst (fst (SetCompact nBitsPrev)) in
  let! bnNew := global_retarget bnNew nActualTimespan target in
  let! bnNew := per_algo_retarget params nAdjustments bnNew in
  let bnNew := if op_gt bnNew (limit params) then limit params else bnNew in
  compact_of bnNew.

Definition GetNextWorkRequiredV1 (pindexLast : pindex) (params : Params) (algo : Z)
  : result pow_error Z :=
  let! npowWorkLimit := compact_of (limit params) in
  match pindexLast with
  | [] => Ok npowWorkLimit
  | last :: _ =>
      let pindexFirst := drop (Z.to_nat (NUM_ALGOS * nAveragingInterval params)) pindexLast in
      match GetLastBlockIndexForAlgo pindexLast params algo, pindexFirst with
      | prevAlgo :: _, _ :: _ =>
          if fPowNoRetargeting params then Ok npowWorkLimit
          else
            let nActualTimespan :=
              limit_timespan (nAveragingTargetTimespan params)
                (nMinActualTimespan params) (nMaxActualTimespan params)
                (GetMedianTimePast pindexLast - GetMedianTimePast pindexFirst) in
            let nAdjustments := nHeight prevAlgo + NUM_ALGOS - 1 - nHeight last in
            retarget params (nBits prevAlgo) nActualTimespan
              (nAveragingTargetTimespan params) nAdjustments
      | _, _ => Ok npowWorkLimit
      end
  end.

Definition GetNextWorkRequiredV2 (pindexLast : pindex) (params : Params) (algo : Z)
  : result pow_error Z :=
  let! npowWorkLimit := compact_of (limit params) in
  match pindexLast with
  | [] => Ok npowWorkLimit
  | last :: _ =>
      let pindexFirst := drop (Z.to_nat (NUM_ALGOSV2 * nAveragingInterval params)) pindexLast in
      match GetLastBlockIndexForAlgo pindexLast params algo, pindexFirst with
      | prevAlgo :: _, _ :: _ =>
          if fPowNoRetargeting params then Ok npowWorkLimit
          else
            let nActualTimespan :=
              limit_timespan (nAveragingTargetTimespanV2 params)
                (nMinActualTimespanV2 params) (nMaxActualTimespanV2 params)
                (GetMedianTimePast pindexLast - GetMedianTimePast pindexFirst) in
            let nAdjustments := nHeight prevAlgo + NUM_ALGOSV2 - 1 - nHeight last in
            retarget params (nBits prevAlgo) nActualTimespan
              (nAveragingTargetTimespanV2 params) nAdjustments
      | _, _ => Ok npowWorkLimit
      end
  end.

Definition GetNextWorkRequiredV3 (pindexLast : pindex) (params : Params) (algo : Z)
  : result pow_error Z :=
  let! npowWorkLimit := compact_of (limit params) in
  match pindexLast with
  | [] => Ok npowWorkLimit
  | last :: _ =>
      let pindexFirst :=
        if nHeight last <? AlgoChangeHeight params
        then drop (Z.to_nat (NUM_ALGOSV2 * nAveragingInterval params)) pindexLast
        else drop (Z.to_nat (NUM_ALGOSV3 * nAveragingInterval params)) pindexLast in
      match GetLastBlockIndexForAlgo pindexLast params algo, pindexFirst with
      | prevAlgo :: _, _ :: _ =>
          if fPowNoRetargeting params then Ok npowWorkLimit
          else
            let nActualTimespan :=
              limit_timespan (nAveragingTargetTimespanV2 params)
                (nMinActualTimespanV3 params) (nMaxActualTimespanV3 params)
                (GetMedianTimePast pindexLast - GetMedianTimePast pindexFirst) in
            let nAdjustments :=
              if nHeight last <? AlgoChangeHeight params
              then nHeight prevAlgo + NUM_ALGOSV2 - 1 - nHeight last
              else nHeight prevAlgo + NUM_ALGOSV3 - 1 - nHeight last in
            retarget params (nBits prevAlgo) nActualTimespan
              (nAveragingTargetTimespanV2 params) nAdjustments
      | _, _ => Ok npowWorkLimit
      end
  end.

Definition GetNextWorkRequired (pindexLast : pindex) (params : Params) (algo : Z)
  : result pow_error Z :=
  match pindexLast with
  | [] => GetNextWorkRequiredV1 pindexLast params algo
  | last :: _ =>
      if nHeight last <? v2DiffChangeHeight params
      then GetNextWorkRequiredV1 pindexLast params algo
      else if nHeight last <? v3DiffChangeHeight params
      then GetNextWorkRequiredV2 pindexLast params algo
      else GetNextWorkRequiredV3 pindexLast params algo
  end.

Definition CheckProofOfWork (hash : list Z) (nBits : Z) (params : Params) : bool :=
  let '(bnTarget, fNegative, fOverflow) := SetCompact nBits in
  if fNegative || EqualTo bnTarget 0 || fOverflow || op_gt bnTarget (limit params)
  then false
  else if op_gt (UintToArith256 hash) bnTarget then false
  else true.

(** ** Totality and bounds of the retarget *)

(** What the retarget code needs of the parameters: a 32-byte limit and
    divisors that are not zero. *)
Record params_ok (params : Params) : Prop := {
  powLimit_bytes : bytes_ok (powLimit params);
  powLimit_length : length (powLimit params) = 32%nat;
  timespan_nz : u64 (nAveragingTargetTimespan params) <> 0;
  timespanV2_nz : u64 (nAveragingTargetTimespanV2 params) <> 0;
  adjustment_nz : u64 (100 + nLocalTargetAdjustment params) <> 0;
}.

Definition chain_ok (p : pindex) : Prop := Forall (fun b => is_u 32 (nBits b)) p.

Lemma limit_wf params : params_ok params -> wf WIDTH (limit params).
Proof. intros H. apply UintToArith256_wf, H. Qed.

Lemma div_u64_spec bn d :
  wf WIDTH bn -> u64 d <> 0 ->
  exists q, div_u64 bn d = Ok q /\ wf WIDTH q /\ val q = val bn / u64 d.
Proof.
  intros Hbn Hd. unfold div_u64.
  destruct (of_u64_spec WIDTH (u64 d)) as [Hw Hv]; [unfold WIDTH; lia|apply u64_range|].
  pose proof (op_div_spec WIDTH bn _ Hbn Hw) as H. rewrite Hv in H.
  rewrite (proj2 (Z.eqb_neq _ _) Hd) in H. destruct H as (q & -> & Hq & Hqv). eauto.
Qed.

Lemma global_retarget_spec bn ts target :
  wf WIDTH bn -> u64 target <> 0 ->
  exists q, global_retarget bn ts target = Ok q /\ wf WIDTH q /\
    val q = (val bn * u32 ts) mod 2 ^ 256 / u64 target.
Proof.
  intros Hbn Ht. unfold global_retarget.
  destruct (op_mul32_spec WIDTH bn (u32 ts) Hbn (u32_range _)) as [Hm Hmv].
  destruct (div_u64_spec _ target Hm Ht) as (q & Hq & Hw & Hv).
  exists q. rewrite Hv, Hmv. done.
Qed.

Lemma adjust_loop_total n mul div bn :
  wf WIDTH bn -> u64 div <> 0 -> exists q, adjust_loop n mul div bn = Ok q /\ wf WIDTH q.
Proof.
  intros Hbn Hd. revert bn Hbn. induction n as [|n IH]; intros bn Hbn; cbn [adjust_loop].
  - eauto.
  - destruct (op_mul32_spec WIDTH bn (u32 mul) Hbn (u32_range _)) as [Hm _].
    destruct (div_u64_spec _ div Hm Hd) as (q & -> & Hq & _). cbn [rbind]. auto.
Qed.

Lemma per_algo_retarget_total params n bn :
  params_ok params -> wf WIDTH bn ->
  exists q, per_algo_retarget params n bn = Ok q /\ wf WIDTH q.
Proof.
  intros Hp Hbn. unfold per_algo_retarget.
  destruct (0 <? n); [apply adjust_loop_total; [done|apply Hp]|].
  destruct (n <? 0); [by apply adjust_loop_total|eauto].
Qed.

(** A compact result that decodes, without flags, to a target of at most the
    limit. *)
Definition target_ok (params : Params) (r : result pow_error Z) : Prop :=
  exists c x, r = Ok c /\ is_u 32 c /\ SetCompact c = (x, false, false) /\
    wf WIDTH x /\ val x <= val (limit params).

Lemma compact_of_spec bn :
  wf WIDTH bn ->
  exists c x, compact_of bn = Ok c /\ is_u 32 c /\ SetCompact c = (x, false, false) /\
    wf WIDTH x /\ val x <= val bn.
Proof.
  intros Hbn. destruct (GetCompact_SetCompact bn Hbn) as (c & x & k & HG & Hc & HS & Hx & Hk & _ & Hv).
  exists c, x. unfold compact_of. rewrite HG. split_and!; try done.
  rewrite Hv. pose proof (wf_bound _ _ Hbn).
  pose proof (Z.mul_div_le (val bn) (2 ^ (8 * k)) ltac:(lia)). lia.
Qed.

Lemma retarget_ok params nb ts target nadj :
  params_ok params -> is_u 32 nb -> u64 target <> 0 ->
  target_ok params (retarget params nb ts target nadj).
Proof.
  intros Hp Hnb Ht. unfold retarget, target_ok.
  pose proof (SetCompact_eq nb Hnb) as HS.
  destruct (SetCompact nb) as [[x neg] ovf]. destruct HS as [Hx _]. cbn [fst].
  destruct (global_retarget_spec x ts target Hx Ht) as (q & -> & Hq & _). cbn [rbind].
  destruct (per_algo_retarget_total params nadj q Hp Hq) as (q' & -> & Hq'). cbn [rbind].
  pose proof (limit_wf params Hp) as Hl. rewrite (op_gt_spec WIDTH) by done.
  destruct (Z.ltb_spec (val (limit params)) (val q')).
  - by apply compact_of_spec.
  - destruct (compact_of_spec q' Hq') as (c & y & ? & ? & ? & ? & ?).
    exists c, y. split_and!; try done. lia.
Qed.

Lemma GetLastBlockIndexForAlgo_suffix p params algo :
  exists l, p = l ++ GetLastBlockIndexForAlgo p params algo.
Proof.
  induction p as [|b p [l IH]]; [by exists []|]. cbn [GetLastBlockIndexForAlgo].
  repeat case_if; try (exists (b :: l); simpl; congruence). by exists [].
Qed.

Lemma prevAlgo_nBits p params algo b r :
  chain_ok p -> GetLastBlockIndexForAlgo p params algo = b :: r -> is_u 32 (nBits b).
Proof.
  intros Hp E. destruct (GetLastBlockIndexForAlgo_suffix p params algo) as [l Hl].
  rewrite E in Hl. subst p. apply Forall_app in Hp as [_ Hp]. by inversion Hp.
Qed.

Lemma limit_target_ok params c :
  params_ok params -> compact_of (limit params) = Ok c -> target_ok params (Ok c).
Proof.
  intros Hp E. destruct (compact_of_spec (limit params) (limit_wf _ Hp))
    as (c' & x & Hc & Hu & HS & Hx & Hle).
  rewrite E in Hc. injection Hc as <-. exists c, x. done.
Qed.

(** One tactic for the three versions: every exit returns the limit or a
    retarget. *)
Ltac next_work_tac Hp Hc :=
  destruct (compact_of_spec _ (limit_wf _ Hp)) as (? & ? & E & _); rewrite E; cbn [rbind];
  repeat (case_match || case_if); try (by eapply limit_target_ok);
  apply retarget_ok; try done; first [by eapply prevAlgo_nBits|apply Hp].

Lemma GetNextWorkRequiredV1_ok p params algo :
  params_ok params -> chain_ok p -> target_ok params (GetNextWorkRequiredV1 p params algo).
Proof. intros Hp Hc. unfold GetNextWorkRequiredV1. next_work_tac Hp Hc. Qed.

Lemma GetNextWorkRequiredV2_ok p params algo :
  params_ok params -> chain_ok p -> target_ok params (GetNextWorkRequiredV2 p params algo).
Proof. intros Hp Hc. unfold GetNextWorkRequiredV2. next_work_tac Hp Hc. Qed.

Lemma GetNextWorkRequiredV3_ok p params algo :
  params_ok params -> chain_ok p -> target_ok params (GetNextWorkRequiredV3 p params algo).
Proof.
  intros Hp Hc. unfold GetNextWorkRequiredV3.
  destruct (compact_of_spec _ (limit_wf _ Hp)) as (? & ? & E & _); rewrite E; cbn [rbind].
  destruct p as [|b p]; [by eapply limit_target_ok|].
  destruct (GetLastBlockIndexForAlgo _ _ _) eqn:EG; [by eapply limit_target_ok|].
  destruct (nHeight b <? AlgoChangeHeight params);
    destruct (drop _ _); try (by eapply limit_target_ok);
    destruct (fPowNoRetargeting params); try (by eapply limit_target_ok);
    apply retarget_ok; try done; first [by eapply prevAlgo_nBits|apply Hp].
Qed.

Lemma CMainParams_ok : params_ok CMainParams.
Proof.
  split; try (vm_compute; congruence); try reflexivity.
  apply Forall_app. split; [apply Forall_replicate; unfold is_u; lia|].
  repeat constructor; unfold is_u; lia.
Qed.

(** The number a [uint256] denotes when read as a limb array. *)
Lemma val_uint_limbs n a :
  bytes_ok a -> (4 * n <= length a)%nat -> val (uint_limbs n a) = le_val (take (4 * n) a).
Proof.
  revert a. induction n as [|n IH]; intros a Ha Hl; [done|].
  cbn [uint_limbs]. rewrite val_cons, IH; [|by apply Forall_drop|rewrite length_drop; lia].
  unfold ReadLE32. rewrite <- (take_drop 4 (take (4 * S n) a)), take_take, Nat.min_l by lia.
  rewrite skipn_firstn_comm.
  replace (4 * S n - 4)%nat with (4 * n)%nat by lia.
  assert (forall l r, bytes_ok l -> le_val (l ++ r) = le_val l + 2 ^ (8 * Z.of_nat (length l)) * le_val r) as Happ.
  { intros l r Hlb. induction Hlb as [|x l Hx Hlb IHl]; [simpl; lia|].
    cbn [app length]. rewrite !le_val_cons, IHl by done.
    replace (8 * Z.of_nat (S (length l))) with (8 + 8 * Z.of_nat (length l)) by lia.
    rewrite Z.pow_add_r by lia. lia. }
  rewrite Happ by (by apply Forall_take). rewrite length_take, Nat.min_l by lia. done.
Qed.

Lemma val_UintToArith256 a :
  bytes_ok a -> length a = 32%nat -> val (UintToArith256 a) = le_val a.
Proof.
  intros Ha Hl. unfold UintToArith256. rewrite val_uint_limbs by (done || (unfold WIDTH; lia)).
  rewrite take_ge by (unfold WIDTH; lia). done.
Qed.

(** ** Properties *)

(** C8: for every block index chain and algorithm the next required target is
    computed without an exception or a failed assert, fits the compact form,
    and decodes to a target that is not negative, does not overflow and never
    exceeds the proof-of-work limit. *)
Theorem GetNextWorkRequired_bounded p params algo :
  params_ok params -> chain_ok p ->
  exists c x, GetNextWorkRequired p params algo = Ok c /\ is_u 32 c /\
    SetCompact c = (x, false, false) /\ wf WIDTH x /\ val x <= val (limit params).
Proof.
  intros Hp Hc. change (target_ok params (GetNextWorkRequired p params algo)).
  unfold GetNextWorkRequired. destruct p as [|b p]; [by apply GetNextWorkRequiredV1_ok|].
  repeat case_if; auto using GetNextWorkRequiredV1_ok, GetNextWorkRequiredV2_ok, GetNextWorkRequiredV3_ok.
Qed.

(** C9: a hash passes [CheckProofOfWork] exactly when the compact target is
    positive, unsigned and at most the limit, and the hash, read as a
    little-endian 256-bit number, is at most that target. *)
Theorem CheckProofOfWork_spec hash nb params :
  params_ok params -> is_u 32 nb -> bytes_ok hash -> length hash = 32%nat ->
  CheckProofOfWork hash nb params = true <->
  0 < compact_mag nb <= le_val (powLimit params) /\
  Z.testbit nb 23 = false /\ le_val hash <= compact_mag nb.
Proof.
  intros Hp Hnb Hh Hhl. unfold CheckProofOfWork.
  pose proof (SetCompact_eq nb Hnb) as HS.
  destruct (SetCompact nb) as [[x neg] ovf]. destruct HS as (Hx & Hxv & -> & ->).
  pose proof (limit_wf params Hp) as Hl. pose proof (UintToArith256_wf hash Hh) as Hw.
  rewrite !(op_gt_spec WIDTH) by done.
  rewrite (EqualTo_spec WIDTH) by (done || (unfold WIDTH; lia)).
  unfold limit. rewrite !val_UintToArith256 by (done || apply Hp).
  pose proof (wf_bound _ _ Hl) as Hlb. unfold limit in Hlb.
  rewrite val_UintToArith256 in Hlb by apply Hp. change (32 * Z.of_nat WIDTH) with 256 in Hlb.
  assert (0 <= compact_mag nb) as Hm.
  { unfold compact_mag. unfold is_u in Hnb. case_if; [apply Z.div_pos; dlia|].
    apply Z.mul_nonneg_nonneg; [apply Z.mod_pos_bound|]; lia. }
  set (m := compact_mag nb) in *. clearbody m. rewrite Hxv.
  destruct (Z.leb_spec (2 ^ 256) m) as [Ho|Ho].
  { rewrite orb_true_r. cbn [orb]. split; [done|lia]. }
  rewrite (Z.mod_small m) by lia. unfold nz.
  destruct (Z.eqb_spec m 0), (Z.testbit nb 23), (Z.ltb_spec (le_val (powLimit params)) m),
    (Z.ltb_spec m (le_val hash)); cbn [negb andb orb]; intuition (congruence || lia).
Qed.

(** One global retarget step on the main network moves a target of at most
    the limit by the ratio of the clamped time span to the averaging time span
    and nothing else (the 256-bit product does not overflow): between 92% and
    116% of it for version 1 and between 90% and 112% for version 3, both up to
    rounding down. *)
Theorem global_retarget_mainnet_bounds bn actual :
  let P := CMainParams in
  wf WIDTH bn -> val bn <= val (limit P) ->
  (exists q, global_retarget bn
     (limit_timespan (nAveragingTargetTimespan P) (nMinActualTimespan P) (nMaxActualTimespan P) actual)
     (nAveragingTargetTimespan P) = Ok q /\
     92 * val bn <= 100 * val q + 99 /\ 100 * val q <= 116 * val bn) /\
  (exists q, global_retarget bn
     (limit_timespan (nAveragingTargetTimespanV2 P) (nMinActualTimespanV3 P) (nMaxActualTimespanV3 P) actual)
     (nAveragingTargetTimespanV2 P) = Ok q /\
     90 * val bn <= 100 * val q + 99 /\ 100 * val q <= 112 * val bn).
Proof.
  intros P Hbn Hle. pose proof (wf_bound _ _ Hbn) as [Hb0 _].
  replace (val (limit P)) with (2 ^ 236 - 1) in Hle by (vm_compute; reflexivity).
  change (nAveragingTargetTimespan P) with 2700. change (nAveragingTargetTimespanV2 P) with 3600.
  change (nMinActualTimespan P) with 2484. change (nMaxActualTimespan P) with 3132.
  change (nMinActualTimespanV3 P) with 3240. change (nMaxActualTimespanV3 P) with 4032.
  split.
  - set (ts := limit_timespan _ _ _ _).
    assert (2484 <= ts <= 3132) by (unfold ts, limit_timespan; repeat case_if; bool_to_prop; lia).
    destruct (global_retarget_spec bn ts 2700 Hbn) as (q & Hq & _ & Hv); [done|].
    exists q. split; [done|]. rewrite u32_id, Z.mod_small in Hv by (unfold is_u; nia).
    change (u64 2700) with 2700 in Hv. rewrite Hv. clearbody ts.
    pose proof (Z.div_mod (val bn * ts) 2700). pose proof (Z.mod_pos_bound (val bn * ts) 2700).
    split; nia.
  - set (ts := limit_timespan _ _ _ _).
    assert (3240 <= ts <= 4032) by (unfold ts, limit_timespan; repeat case_if; bool_to_prop; lia).
    destruct (global_retarget_spec bn ts 3600 Hbn) as (q & Hq & _ & Hv); [done|].
    exists q. split; [done|]. rewrite u32_id, Z.mod_small in Hv by (unfold is_u; nia).
    change (u64 3600) with 3600 in Hv. rewrite Hv. clearbody ts.
    pose proof (Z.div_mod (val bn * ts) 3600). pose proof (Z.mod_pos_bound (val bn * ts) 3600).
    split; nia.
Qed.

(** Between heights 100000 and 100050 (version 2) the clamp of the time span
    is taken from the three-algorithm averaging span while the division uses
    the four-algorithm one, so on the main network every global retarget
    multiplies the target by at most 84%, however slow the blocks are. *)
Theorem V2_retarget_always_tightens bn actual :
  let P := CMainParams in
  wf WIDTH bn -> val bn <= val (limit P) ->
  exists q, global_retarget bn
    (limit_timespan (nAveragingTargetTimespanV2 P) (nMinActualTimespanV2 P) (nMaxActualTimespanV2 P) actual)
    (nAveragingTargetTimespanV2 P) = Ok q /\ 100 * val q <= 84 * val bn.
Proof.
  intros P Hbn Hle. pose proof (wf_bound _ _ Hbn) as [Hb0 _].
  replace (val (limit P)) with (2 ^ 236 - 1) in Hle by (vm_compute; reflexivity).
  change (nAveragingTargetTimespanV2 P) with 3600.
  change (nMinActualTimespanV2 P) with 2430. change (nMaxActualTimespanV2 P) with 3024.
  set (ts := limit_timespan _ _ _ _).
  assert (2430 <= ts <= 3024) by (unfold ts, limit_timespan; repeat case_if; bool_to_prop; lia).
  destruct (global_retarget_spec bn ts 3600 Hbn) as (q & Hq & _ & Hv); [done|].
  exists q. split; [done|]. rewrite u32_id, Z.mod_small in Hv by (unfold is_u; nia).
  change (u64 3600) with 3600 in Hv. rewrite Hv. clearbody ts.
  pose proof (Z.mul_div_le (val bn * ts) 3600). nia.
Qed.

(** From [AlgoChangeHeight] on the averaging window of version 3 holds
    [NUM_ALGOSV3 * nAveragingInterval] = 50 blocks but the time span it is
    compared with is still that of 40 blocks: the only constant block spacing
    (in whole seconds) the main network's retarget leaves alone is 72 seconds,
    not the configured [nPowTargetSpacing] of 90. *)
Theorem V3_equilibrium_spacing spacing :
  let P := CMainParams in
  limit_timespan (nAveragingTargetTimespanV2 P) (nMinActualTimespanV3 P) (nMaxActualTimespanV3 P)
    (NUM_ALGOSV3 * nAveragingInterval P * spacing) = nAveragingTargetTimespanV2 P
  <-> spacing = 72.
Proof.
  intros P.
  change (nAveragingTargetTimespanV2 P) with 3600. change (nMinActualTimespanV3 P) with 3240.
  change (nMaxActualTimespanV3 P) with 4032. change (nAveragingInterval P) with 10.
  unfold limit_timespan, NUM_ALGOSV3.
  pose proof (Z.quot_rem' (5 * 10 * spacing - 3600) 4) as Hq.
  pose proof (Z.rem_bound_abs (5 * 10 * spacing - 3600) 4 ltac:(lia)) as Hr.
  set (q := _ ÷ 4) in *. set (r := Z.rem _ 4) in *. clearbody q r.
  destruct (Z.ltb_spec (3600 + q) 3240); case_if; bool_to_prop; lia.
Qed.

(** With the limit [2^255 - 1] of the development and regression networks
    the 32-bit multiplication of the global retarget overflows: a target at
    the limit and an exactly on-schedule time span give a new target more than
    a thousand times smaller instead of the same one. *)
Theorem global_retarget_overflow bn :
  wf WIDTH bn -> val bn = 2 ^ 255 - 1 ->
  exists q, global_retarget bn (nAveragingTargetTimespan CMainParams)
    (nAveragingTargetTimespan CMainParams) = Ok q /\ 1000 * val q < val bn.
Proof.
  intros Hbn Hv. change (nAveragingTargetTimespan CMainParams) with 2700.
  destruct (global_retarget_spec bn 2700 2700 Hbn) as (q & Hq & _ & Hqv); [done|].
  exists q. split; [done|]. rewrite Hqv, Hv. reflexivity.
Qed.

(** The search for the last block of an algorithm returns the nearest
    ancestor that qualifies: the blocks before it are of another algorithm or
    are minimum-difficulty test blocks, and it is neither. *)
Theorem GetLastBlockIndexForAlgo_nearest p params algo :
  let qualifies (q : pindex) :=
    match q with
    | [] => false
    | b :: pprev =>
        (GetAlgo (nVersion b) =? algo) &&
        negb (fPowAllowMinDifficultyBlocks params &&
              match pprev with
              | [] => false
              | b' :: _ => nTime b' + nPowTargetSpacing params * 6 <? nTime b
              end)
    end in
  let r := GetLastBlockIndexForAlgo p params algo in
  exists n, r = drop n p /\ (r = [] \/ qualifies r = true) /\
    forall i, (i < n)%nat -> qualifies (drop i p) = false.
Proof.
  intros qualifies r. subst r. induction p as [|b p (n & E & Hr & Hi)].
  - exists O. split_and!; [done|by left|lia].
  - assert (qualifies (b :: p) = true ->
      GetLastBlockIndexForAlgo (b :: p) params algo = b :: p) as Hyes.
    { unfold qualifies. cbn [GetLastBlockIndexForAlgo].
      destruct (GetAlgo (nVersion b) =? algo); [|done]. cbn [negb andb].
      destruct (fPowAllowMinDifficultyBlocks params && _); done. }
    assert (qualifies (b :: p) = false ->
      GetLastBlockIndexForAlgo (b :: p) params algo = GetLastBlockIndexForAlgo p params algo) as Hno.
    { unfold qualifies. cbn [GetLastBlockIndexForAlgo].
      destruct (GetAlgo (nVersion b) =? algo); [|done]. cbn [negb andb].
      destruct (fPowAllowMinDifficultyBlocks params && _); done. }
    destruct (qualifies (b :: p)) eqn:Q.
    + exists O. rewrite Hyes by done. split_and!; [done|by right|lia].
    + exists (S n). rewrite Hno by done. split_and!; [done|done|].
      intros [|i] Hlt; [done|]. apply Hi. lia.
Qed.

(** ** Concrete runs *)

(** A chain of [n] blocks, [spacing] seconds apart, alternating two algorithms. *)
Definition sample_chain (n : nat) (spacing nb : Z) : pindex :=
  reverse (map (fun i => {| nHeight := Z.of_nat i;
                            nVersion := (if Nat.even i then BLOCK_VERSION_SHA256D else BLOCK_VERSION_X11);
                            nTime := 1585180830 + spacing * Z.of_nat i; nBits := nb |}) (seq 0 n)).

Lemma sample_chain_ok : chain_ok (sample_chain 45 90 0x1e0fffff).
Proof.
  apply Forall_reverse, Forall_map, Forall_forall. intros i _.
  cbn [nBits]. unfold is_u; lia.
Qed.

Lemma GetNextWorkRequired_bounded_witness :
  chain_ok (sample_chain 45 90 0x1e0fffff) /\
  exists c x, GetNextWorkRequired (sample_chain 45 90 0x1e0fffff) CMainParams ALGO_X11 = Ok c /\
    is_u 32 c /\ SetCompact c = (x, false, false) /\ wf WIDTH x /\
    val x <= val (limit CMainParams).
Proof.
  split; [exact sample_chain_ok|].
  exact (GetNextWorkRequired_bounded _ _ ALGO_X11 CMainParams_ok sample_chain_ok).
Defined.

Lemma CheckProofOfWork_spec_witness :
  CheckProofOfWork (replicate 32 0) 0x1e0fffff CMainParams = true.
Proof.
  apply (CheckProofOfWork_spec (replicate 32 0) 0x1e0fffff CMainParams CMainParams_ok).
  - unfold is_u; lia.
  - apply Forall_replicate. unfold is_u; lia.
  - reflexivity.
  - split; [split|split]; vm_compute; (reflexivity || discriminate).
Defined.

Lemma limit_self_wf : wf WIDTH (limit CMainParams).
Proof. apply limit_wf, CMainParams_ok. Qed.

Lemma global_retarget_mainnet_bounds_witness :
  wf WIDTH (limit CMainParams) /\
  exists q, global_retarget (limit CMainParams) (limit_timespan 2700 2484 3132 5000) 2700 = Ok q /\
    92 * val (limit CMainParams) <= 100 * val q + 99 /\ 100 * val q <= 116 * val (limit CMainParams).
Proof.
  split; [exact limit_self_wf|].
  exact (proj1 (global_retarget_mainnet_bounds _ 5000 limit_self_wf (Z.le_refl _))).
Defined.

Lemma V2_retarget_always_tightens_witness :
  wf WIDTH (limit CMainParams) /\
  exists q, global_retarget (limit CMainParams) (limit_timespan 3600 2430 3024 1000000) 3600 = Ok q /\
    100 * val q <= 84 * val (limit CMainParams).
Proof.
  split; [exact limit_self_wf|].
  exact (V2_retarget_always_tightens _ 1000000 limit_self_wf (Z.le_refl _)).
Defined.

Definition half_range : t := replicate 7 0xffffffff ++ [0x7fffffff].

Lemma half_range_wf : wf WIDTH half_range.
Proof.
  split; [reflexivity|]. apply Forall_app.
  split; [apply Forall_replicate|repeat constructor]; unfold is_u; lia.
Qed.

Lemma global_retarget_overflow_witness :
  wf WIDTH half_range /\ val half_range = 2 ^ 255 - 1 /\
  exists q, global_retarget half_range 2700 2700 = Ok q /\ 1000 * val q < val half_range.
Proof.
  assert (val half_range = 2 ^ 255 - 1) as Hv by (vm_compute; reflexivity).
  split; [exact half_range_wf|]. split; [exact Hv|].
  exact (global_retarget_overflow half_range half_range_wf Hv).
Defined.
