(* ===== verification/Fips180.v ===== *)
(** * The standards' side of the hash functions

    What FIPS 180-4 (and, for RIPEMD-160, its specification) says of a whole
    message, without anything of the code: the words of a block and the bytes of
    a word, the padding with one bit, zeros and the length, the blocks, the
    iteration and the digest; the constants of SHA-2 from their definition (the
    fractional parts of square and cube roots of the first primes); the initial
    values of SHA-1 and RIPEMD-160; and the identities of the bitwise choice and
    majority functions.  The hashers of src/src/crypto are proved against
    references built from these. *)

From S2P Require Import Prelude.
Local Open Scope cxx_scope.

(** ** The first primes *)

Fixpoint no_divisor (fuel : nat) (p : Z) : bool :=
  match fuel with
  | S (S (S _) as fuel') => nz (p mod Z.of_nat fuel') && no_divisor fuel' p
  | _ => true
  end.
Definition is_prime (p : nat) : bool := (2 <=? p)%nat && no_divisor p (Z.of_nat p).
Definition primes_below (n : nat) : list Z := map Z.of_nat (List.filter is_prime (seq 0 n)).

(** ** Roots *)

(** The integer cube root of [n], bit by bit from [r * 2^k]. *)
Fixpoint cbrt_bits (k : nat) (n r : Z) : Z :=
  match k with
  | O => r
  | S k =>
      let r' := r + 2 ^ Z.of_nat k in
      cbrt_bits k n (if r' * r' * r' <=? n then r' else r)
  end.

(** The first [w] bits of the fractional parts of [sqrt p] and of [cbrt p]. *)
Definition frac_sqrt (w p : Z) : Z := Z.sqrt (p * 2 ^ (2 * w)) mod 2 ^ w.
Definition frac_cbrt (w p : Z) : Z := cbrt_bits (Z.to_nat (w + 4)) (p * 2 ^ (3 * w)) 0 mod 2 ^ w.

Lemma pow_3 x : x ^ 3 = x * x * x.
Proof. ring. Qed.

Lemma cbrt_bits_spec k n r :
  0 <= r -> r * r * r <= n < (r + 2 ^ Z.of_nat k) ^ 3 ->
  let q := cbrt_bits k n r in 0 <= q /\ q ^ 3 <= n < (q + 1) ^ 3.
Proof.
  revert r. induction k as [|k IH]; intros r Hr [H1 H2]; cbn [cbrt_bits].
  - split; [done|]. rewrite pow_3. cbn in H2 |- *. lia.
  - assert (2 ^ Z.of_nat (S k) = 2 * 2 ^ Z.of_nat k) as E.
    { rewrite Nat2Z.inj_succ, Z.pow_succ_r; lia. }
    rewrite E in H2. pose proof (Z.pow_pos_nonneg 2 (Z.of_nat k) ltac:(lia) ltac:(lia)).
    set (d := 2 ^ Z.of_nat k) in *. destruct (Z.leb_spec ((r + d) * (r + d) * (r + d)) n).
    + apply IH; [lia|]. split; [done|]. fold d. by replace (r + d + d) with (r + 2 * d) by lia.
    + apply IH; [done|]. split; [done|]. rewrite pow_3. done.
Qed.

(** ** Choice and majority, bit by bit *)

Lemma bitwise_ch x y z : z .^ (x .& (y .^ z)) = (x .& y) .^ Z.ldiff z x.
Proof.
  apply Z.bits_inj. intros i. rewrite !Z.lxor_spec, !Z.land_spec, Z.lxor_spec, Z.ldiff_spec.
  by destruct (Z.testbit x i), (Z.testbit y i), (Z.testbit z i).
Qed.

Lemma bitwise_maj x y z : (x .& y) .| (z .& (x .| y)) = (x .& y) .^ (x .& z) .^ (y .& z).
Proof.
  apply Z.bits_inj. intros i.
  rewrite !Z.lor_spec, !Z.lxor_spec, !Z.land_spec, Z.lor_spec.
  by destruct (Z.testbit x i), (Z.testbit y i), (Z.testbit z i).
Qed.

(** ** Words and bytes *)

(** The word whose bytes are the first [n] of [l], in the order of FIPS 180-4
    (most significant first) and in that of RIPEMD-160. *)
Definition be_word (n : nat) (l : list Z) : Z :=
  fold_left (fun acc b => b .| (acc .<< 8)) (take n l) 0.
Definition le_word (n : nat) (l : list Z) : Z :=
  fold_right (fun b acc => b .| (acc .<< 8)) 0 (take n l).

(** The [n] low bytes of [x], in the two orders. *)
Definition le_digits (n : nat) (x : Z) : list Z :=
  map (fun i => x / 256 ^ Z.of_nat i mod 256) (seq 0 n).
Definition be_digits (n : nat) (x : Z) : list Z :=
  map (fun i => x / 256 ^ Z.of_nat (n - 1 - i) mod 256) (seq 0 n).

(** ** Padding, blocks, iteration, digest *)

(** A [1] bit, the fewest zeros that leave the last [L] bytes of a block of [B]
    bytes, and in these the length of the message in bits. *)
Definition fips_padding (B L : nat) (digits : nat -> Z -> list Z) (msg : list Z) : list Z :=
  let len := Z.of_nat (length msg) in
  [0x80] ++ replicate (Z.to_nat ((Z.of_nat B - Z.of_nat L - 1 - len) mod Z.of_nat B)) 0
  ++ digits L (8 * len).

Definition fips_blocks (B : nat) (msg : list Z) : list (list Z) :=
  map (fun i => take B (drop (i * B) msg)) (seq 0 (length msg / B)).

(** The hash with blocks of [B] bytes, a length field of [L] bytes, numbers
    written by [digits], words of [w] bytes of which the digest takes [n]. *)
Definition fips_hash (B L : nat) (digits : nat -> Z -> list Z) (w n : nat)
    (H0 : list Z) (compress : list Z -> list Z -> list Z) (msg : list Z) : list Z :=
  let H := fold_left compress (fips_blocks B (msg ++ fips_padding B L digits msg)) H0 in
  flat_map (fun i => digits w (aget H i)) (seq 0 n).

(** The initial value of SHA-1, which is RIPEMD-160's too. *)
Definition fips_IV : list Z := [0x67452301; 0xefcdab89; 0x98badcfe; 0x10325476; 0xc3d2e1f0].

(** The padded message is whole blocks, and the zeros are the fewest that make
    it so. *)
Lemma fips_padding_fills B L digits msg :
  (L < B)%nat -> (forall x, length (digits L x) = L) ->
  (length (msg ++ fips_padding B L digits msg) mod B = 0)%nat /\
  (length (fips_padding B L digits msg) <= B + L)%nat.
Proof.
  intros HL Hd. unfold fips_padding. cbv zeta. rewrite !length_app, Hd, length_replicate. cbn [length].
  set (l := Z.of_nat (length msg)). set (b := Z.of_nat B).
  pose proof (Z.mod_pos_bound (b - Z.of_nat L - 1 - l) b ltac:(lia)) as Hm.
  pose proof (Z.div_mod (b - Z.of_nat L - 1 - l) b ltac:(lia)) as E.
  set (q := (b - Z.of_nat L - 1 - l) / b) in *. set (r := (b - Z.of_nat L - 1 - l) mod b) in *.
  split; [|lia].
  apply Nat2Z.inj. rewrite Nat2Z.inj_mod.
  replace (Z.of_nat (length msg + (1 + (Z.to_nat r + L)))) with ((1 - q) * b) by lia.
  by apply Z.mod_mul; lia.
Qed.
