(* ===== verification/HashEngine.v ===== *)
(** * Streaming block hashes: buffering, padding and finalisation

    The four hashers of src/src/crypto (CSHA256, CSHA512, CSHA1, CRIPEMD160)
    share one buffering scheme.  The class [HashAlgo] is what that scheme asks
    of an algorithm (block size, initial state, compression function, length
    descriptor, digest); [Write], [Finalize] and [Reset] are the methods of the
    source over it, and the theorems, proved once against the interface, relate
    them to the textbook hash of the whole message. *)

From S2P Require Import Prelude Bytes Fips180.
Local Open Scope cxx_scope.

(** ** The interface *)

Class HashAlgo : Type := {
  blockSize : nat;
  Initialize : list Z;
  Transform : list Z -> list Z -> list Z;
  padConst : Z;
  sizedesc : Z -> list Z;
  digest : list Z -> list Z;
}.

(** What the buffering relies on: the block size divides [2^64] (the byte
    counter wraps), and the padding constant leaves room for the length. *)
Class HashAlgoLaws (H : HashAlgo) : Prop := {
  blockSize_pos : (0 < blockSize)%nat;
  blockSize_div : (Z.of_nat blockSize | 2 ^ 64);
  sizedesc_length : forall x, padConst = 2 * Z.of_nat blockSize - 1 - Z.of_nat (length (sizedesc x));
  sizedesc_fits : forall x, (length (sizedesc x) < blockSize)%nat;
}.

Record CHasher : Type := {
  h_s : list Z;
  h_buf : list Z;
  h_bytes : Z;
}.

Section Engine.
Context {H : HashAlgo}.

(** ** The methods *)

(** The constructor; the contents of [buf] are indeterminate. *)
Definition construct (buf : list Z) : CHasher :=
  {| h_s := Initialize; h_buf := buf; h_bytes := 0 |}.

(** [memcpy(buf + off, data, data.size())] *)
Definition memcpy_at (buf : list Z) (off : nat) (data : list Z) : list Z :=
  take off buf ++ data ++ drop (off + length data) buf.

(** [while (end >= data + 64) { ... }] *)
Fixpoint chunk_loop (fuel : nat) (st : CHasher) (data : list Z) : CHasher * list Z :=
  match fuel with
  | O => (st, data)
  | S fuel =>
      if (blockSize <=? length data)%nat then
        chunk_loop fuel
          {| h_s := Transform (h_s st) (take blockSize data);
             h_buf := h_buf st;
             h_bytes := u64 (h_bytes st + Z.of_nat blockSize) |}
          (drop blockSize data)
      else (st, data)
  end.

Definition Write (st : CHasher) (data : list Z) : CHasher :=
  let bufsize := Z.to_nat (h_bytes st mod Z.of_nat blockSize) in
  let '(st, data, bufsize) :=
    if negb (bufsize =? 0)%nat && (blockSize <=? bufsize + length data)%nat then
      let buf := memcpy_at (h_buf st) bufsize (take (blockSize - bufsize) data) in
      ({| h_s := Transform (h_s st) buf;
          h_buf := buf;
          h_bytes := u64 (h_bytes st + Z.of_nat (blockSize - bufsize)) |},
       drop (blockSize - bufsize) data, O)
    else (st, data, bufsize) in
  let '(st, data) := chunk_loop (length data) st data in
  if (0 <? length data)%nat then
    {| h_s := h_s st;
       h_buf := memcpy_at (h_buf st) bufsize data;
       h_bytes := u64 (h_bytes st + Z.of_nat (length data)) |}
  else st.

(** The first [n] bytes of [static const unsigned char pad[...] = {0x80}]. *)
Definition pad (n : nat) : list Z := take n (0x80 :: replicate (blockSize - 1) 0).

(** [Finalize] leaves the hasher as the two [Write]s of the padding do. *)
Definition finalized (st : CHasher) : CHasher :=
  let desc := sizedesc (u64 (h_bytes st .<< 3)) in
  let npad := 1 + (padConst - h_bytes st mod Z.of_nat blockSize) mod Z.of_nat blockSize in
  let st := Write st (pad (Z.to_nat npad)) in
  Write st desc.

Definition Finalize (st : CHasher) : list Z := digest (h_s (finalized st)).

Definition Reset (st : CHasher) : CHasher :=
  {| h_s := Initialize; h_buf := h_buf st; h_bytes := 0 |}.

(** ** The reference hash of a whole message *)

Fixpoint absorb (n : nat) (s msg : list Z) : list Z :=
  match n with
  | O => s
  | S n => absorb n (Transform s (take blockSize msg)) (drop blockSize msg)
  end.

Definition absorb_all (msg : list Z) : list Z :=
  absorb (length msg / blockSize) Initialize msg.

(** One bit, zeros, and the length in bits as the last bytes of a block. *)
Definition padding (msg : list Z) : list Z :=
  let len := Z.of_nat (length msg) in
  0x80 :: replicate (Z.to_nat ((padConst - len) mod Z.of_nat blockSize)) 0 ++ sizedesc (u64 (8 * len)).

Definition md_hash (msg : list Z) : list Z := digest (absorb_all (msg ++ padding msg)).

(** ** Correctness *)
Context {HL : HashAlgoLaws H}.

Lemma absorb_app_r n s msg x :
  (n * blockSize <= length msg)%nat -> absorb n s (msg ++ x) = absorb n s msg.
Proof.
  pose proof blockSize_pos.
  revert s msg. induction n as [|n IH]; intros s msg Hl; [done|]. cbn [absorb].
  rewrite take_app_le, drop_app_le by lia. apply IH. rewrite length_drop. lia.
Qed.

Lemma absorb_add m n s msg :
  absorb (m + n) s msg = absorb n (absorb m s msg) (drop (m * blockSize) msg).
Proof.
  revert s msg. induction m as [|m IH]; intros s msg; [done|].
  cbn [Nat.add absorb]. by rewrite IH, drop_drop.
Qed.

(** The state [st] after the bytes [msg] have been written. *)
Definition repr (st : CHasher) (msg : list Z) : Prop :=
  length (h_buf st) = blockSize /\
  h_bytes st = u64 (Z.of_nat (length msg)) /\
  h_s st = absorb_all msg /\
  take (length msg mod blockSize) (h_buf st) = drop (length msg / blockSize * blockSize) msg.

Lemma repr_construct buf : length buf = blockSize -> repr (construct buf) [].
Proof.
  intros Hb. pose proof blockSize_pos. unfold repr, construct, absorb_all. cbn [h_s h_buf h_bytes length].
  rewrite Nat.Div0.div_0_l, Nat.Div0.mod_0_l. done.
Qed.

Lemma repr_Reset st msg : repr st msg -> repr (Reset st) [].
Proof. intros (Hb & _). by apply repr_construct. Qed.

Lemma u64_mod_block x : u64 x mod Z.of_nat blockSize = x mod Z.of_nat blockSize.
Proof.
  pose proof blockSize_div. unfold u64, wrapu. by apply Z.mod_mod_divide.
Qed.

Lemma bufsize_spec st msg :
  repr st msg ->
  Z.to_nat (h_bytes st mod Z.of_nat blockSize) = (length msg mod blockSize)%nat.
Proof.
  intros (_ & Hb & _). rewrite Hb, u64_mod_block, <- Nat2Z.inj_mod. apply Nat2Z.id.
Qed.

Lemma u64_add x y : u64 (u64 x + y) = u64 (x + y).
Proof. unfold u64, wrapu. by rewrite Z.add_mod_idemp_l. Qed.

(** Division facts for a message extended to a block boundary. *)
Lemma fill_div (m n : nat) :
  (m mod blockSize + n = blockSize)%nat ->
  ((m + n) / blockSize = S (m / blockSize) /\ (m + n) mod blockSize = 0)%nat.
Proof.
  intros E. pose proof blockSize_pos. pose proof (Nat.div_mod_eq m blockSize).
  assert (m + n = (S (m / blockSize)) * blockSize)%nat as -> by lia.
  rewrite Nat.div_mul, Nat.Div0.mod_mul by lia. done.
Qed.

(** One more block completed by [x]: compressing the buffered tail followed by
    [x] extends the digest of the message. *)
Lemma absorb_block msg x :
  (length msg mod blockSize + length x = blockSize)%nat ->
  absorb_all (msg ++ x) =
  Transform (absorb_all msg) (drop (length msg / blockSize * blockSize) msg ++ x).
Proof.
  intros E. destruct (fill_div _ _ E) as [Hd _]. pose proof blockSize_pos.
  pose proof (Nat.div_mod_eq (length msg) blockSize).
  unfold absorb_all. rewrite length_app, Hd.
  replace (S (length msg / blockSize)) with (length msg / blockSize + 1)%nat by lia.
  rewrite absorb_add, absorb_app_r by lia. cbn [absorb].
  rewrite drop_app_le by lia. rewrite take_ge; [done|].
  rewrite length_app, length_drop. lia.
Qed.

(** A message whose length is a multiple of the block size, extended by fewer
    bytes than a block. *)
Lemma absorb_tail msg x :
  (length msg mod blockSize + length x < blockSize)%nat ->
  absorb_all (msg ++ x) = absorb_all msg /\
  ((length (msg ++ x)) / blockSize = length msg / blockSize)%nat /\
  ((length (msg ++ x)) mod blockSize = length msg mod blockSize + length x)%nat.
Proof.
  intros Hlt. pose proof blockSize_pos. pose proof (Nat.div_mod_eq (length msg) blockSize).
  assert ((length (msg ++ x)) / blockSize = length msg / blockSize)%nat as Hd.
  { rewrite length_app. symmetry.
    apply (Nat.div_unique _ _ _ (length msg mod blockSize + length x)); lia. }
  split_and!; [|done|].
  - unfold absorb_all. rewrite Hd. apply absorb_app_r. lia.
  - rewrite length_app. symmetry. eapply Nat.mod_unique; [|]; [exact Hlt|].
    instantiate (1 := (length msg / blockSize)%nat). lia.
Qed.

Lemma length_memcpy_at buf off data :
  (off + length data <= length buf)%nat -> length (memcpy_at buf off data) = length buf.
Proof. intros. unfold memcpy_at. rewrite !length_app, length_take, length_drop. lia. Qed.

Lemma repr_chunk st msg data :
  repr st msg -> (length msg mod blockSize = 0)%nat -> (blockSize <= length data)%nat ->
  repr {| h_s := Transform (h_s st) (take blockSize data);
          h_buf := h_buf st;
          h_bytes := u64 (h_bytes st + Z.of_nat blockSize) |} (msg ++ take blockSize data) /\
  (length (msg ++ take blockSize data) mod blockSize = 0)%nat.
Proof.
  intros (Hb & Hby & Hs & Ht) Hz Hl. pose proof blockSize_pos.
  assert (length (take blockSize data) = blockSize) as Htk by (rewrite length_take; lia).
  destruct (fill_div (length msg) blockSize ltac:(lia)) as [Hd Hm].
  pose proof (Nat.div_mod_eq (length msg) blockSize).
  split; [|by rewrite length_app, Htk].
  unfold repr. cbn [h_s h_buf h_bytes]. rewrite length_app, Htk, Hd, Hm. split_and!; [done| | |].
  - rewrite Hby, u64_add. f_equal. lia.
  - rewrite absorb_block by lia. rewrite Hs, drop_ge by lia. done.
  - rewrite take_0. symmetry. apply nil_length_inv. rewrite length_drop, length_app. lia.
Qed.

Lemma repr_chunk_loop fuel st msg data :
  repr st msg -> (length msg mod blockSize = 0)%nat -> (length data <= fuel)%nat ->
  exists d1 d2, data = d1 ++ d2 /\ snd (chunk_loop fuel st data) = d2 /\
    (length d2 < blockSize)%nat /\
    repr (fst (chunk_loop fuel st data)) (msg ++ d1) /\
    (length (msg ++ d1) mod blockSize = 0)%nat.
Proof.
  pose proof blockSize_pos.
  revert st msg data. induction fuel as [|fuel IH]; intros st msg data Hr Hz Hf.
  - exists [], data. destruct data; [|simpl in Hf; lia]. rewrite (app_nil_r msg).
    refine (conj eq_refl (conj eq_refl (conj _ (conj Hr Hz)))). cbn [length]. lia.
  - cbn [chunk_loop]. destruct (Nat.leb_spec blockSize (length data)).
    + destruct (repr_chunk st msg data Hr Hz ltac:(done)) as [Hr' Hz'].
      destruct (IH _ _ (drop blockSize data) Hr' Hz') as (d1 & d2 & Hd & Hs & Hl & Hrr & Hm).
      { rewrite length_drop. lia. }
      exists (take blockSize data ++ d1), d2. rewrite app_assoc.
      apply conj; [by rewrite <- app_assoc, <- Hd, take_drop|done].
    + exists [], data. rewrite (app_nil_r msg).
      exact (conj eq_refl (conj eq_refl (conj ltac:(done) (conj Hr Hz)))).
Qed.

Lemma repr_tail st msg data bufsize :
  repr st msg -> bufsize = (length msg mod blockSize)%nat ->
  (bufsize + length data < blockSize)%nat ->
  repr (if (0 <? length data)%nat then
    {| h_s := h_s st;
       h_buf := memcpy_at (h_buf st) bufsize data;
       h_bytes := u64 (h_bytes st + Z.of_nat (length data)) |} else st) (msg ++ data).
Proof.
  intros Hr -> Hl. pose proof Hr as (Hb & Hby & Hs & Ht).
  destruct (Nat.ltb_spec 0 (length data)).
  - destruct (absorb_tail msg data Hl) as (Ha & Hd & Hm). pose proof blockSize_pos.
    pose proof (Nat.div_mod_eq (length msg) blockSize).
    unfold repr. cbn [h_s h_buf h_bytes]. rewrite Hd, Hm. split_and!.
    + rewrite length_memcpy_at; lia.
    + rewrite Hby, u64_add, length_app. f_equal. lia.
    + by rewrite Ha.
    + unfold memcpy_at. rewrite drop_app_le by lia. rewrite <- Ht, app_assoc.
      apply take_app_length'. rewrite length_app, length_take. lia.
  - destruct data; [|simpl in *; lia]. by rewrite app_nil_r.
Qed.

Lemma repr_Write st msg data : repr st msg -> repr (Write st data) (msg ++ data).
Proof.
  intros Hr. pose proof blockSize_pos. unfold Write. rewrite (bufsize_spec _ _ Hr).
  pose proof (Nat.mod_upper_bound (length msg) blockSize ltac:(lia)).
  set (r := (length msg mod blockSize)%nat) in *.
  destruct (negb (r =? 0)%nat && (blockSize <=? r + length data)%nat) eqn:E.
  - apply andb_true_iff in E as [E1%negb_true_iff%Nat.eqb_neq E2%Nat.leb_le].
    pose proof Hr as (Hb & Hby & Hs & Ht).
    set (x := take (blockSize - r) data).
    assert (length x = blockSize - r)%nat as Hx by (unfold x; rewrite length_take; lia).
    destruct (fill_div (length msg) (blockSize - r) ltac:(lia)) as [Hd Hm].
    pose proof (Nat.div_mod_eq (length msg) blockSize).
    assert (memcpy_at (h_buf st) r x = drop (length msg / blockSize * blockSize) msg ++ x) as Hmc.
    { unfold memcpy_at. fold r in Ht. rewrite Ht, (drop_ge (h_buf st)) by lia. by rewrite app_nil_r. }
    match goal with |- context [chunk_loop _ ?s ?d] =>
      destruct (repr_chunk_loop (length d) s (msg ++ x) d) as (d1 & d2 & Hdd & Hsnd & Hl & Hr' & Hm') end.
    { unfold repr. cbn [h_s h_buf h_bytes]. rewrite length_app, Hx, Hd, Hm. split_and!.
      - rewrite length_memcpy_at; lia.
      - rewrite Hby, u64_add. f_equal. lia.
      - rewrite Hmc, absorb_block by (fold r; lia). by rewrite Hs.
      - rewrite take_0. symmetry. apply nil_length_inv. rewrite length_drop, length_app. lia. }
    { by rewrite length_app, Hx, Hm. }
    { lia. }
    destruct (chunk_loop _ _ _) as [st' d'] eqn:EL. cbn [fst snd] in *. subst d'.
    replace (msg ++ data) with (((msg ++ x) ++ d1) ++ d2).
    + apply repr_tail; [done|by rewrite Hm'|lia].
    + rewrite <- !app_assoc, <- Hdd. f_equal. unfold x. apply take_drop.
  - destruct (Nat.eq_dec r 0) as [E0|E0].
    + destruct (repr_chunk_loop (length data) st msg data Hr E0 ltac:(lia))
        as (d1 & d2 & Hdd & Hsnd & Hl & Hr' & Hm').
      destruct (chunk_loop _ _ _) as [st' d'] eqn:EL. cbn [fst snd] in *. subst d' data.
      rewrite app_assoc. apply repr_tail; [done|by rewrite Hm'|lia].
    + rewrite (proj2 (Nat.eqb_neq r 0) E0) in E. cbn [negb andb] in E. apply Nat.leb_gt in E.
      assert (chunk_loop (length data) st data = (st, data)) as ->.
      { destruct (length data) eqn:EL; [done|]. cbn [chunk_loop].
        rewrite (proj2 (Nat.leb_gt _ _)); [done|lia]. }
      apply repr_tail; [done|done|lia].
Qed.

(** A message padded as the source pads it fills whole blocks. *)
Lemma length_padded msg :
  exists n, length (msg ++ padding msg) = (n * blockSize)%nat.
Proof.
  pose proof blockSize_pos as Hpos. unfold padding.
  set (B := Z.of_nat blockSize). set (l := Z.of_nat (length msg)).
  pose proof (Z.mod_pos_bound (padConst - l) B ltac:(lia)).
  rewrite length_app. cbn [length]. rewrite length_app, length_replicate.
  pose proof (sizedesc_length (u64 (8 * l))) as Hd.
  pose proof (Z.div_mod (padConst - l) B ltac:(lia)).
  set (q := (padConst - l) / B) in *. set (r := (padConst - l) mod B) in *.
  set (d := length (sizedesc (u64 (8 * l)))) in *.
  exists (Z.to_nat (2 - q)). apply Nat2Z.inj. rewrite Nat2Z.inj_mul. fold B. nia.
Qed.

Lemma repr_writes chunks st msg :
  repr st msg -> repr (fold_left Write chunks st) (msg ++ concat chunks).
Proof.
  revert st msg. induction chunks as [|c cs IH]; intros st msg Hr; cbn [fold_left concat].
  - by rewrite app_nil_r.
  - rewrite app_assoc. by apply IH, repr_Write.
Qed.

Lemma finalized_Reset st msg : repr st msg -> repr (Reset (finalized st)) [].
Proof. intros Hr. by eapply repr_Reset, repr_Write, repr_Write. Qed.

Lemma pad_zeros n : (n < blockSize)%nat -> pad (S n) = 0x80 :: replicate n 0.
Proof. intros. unfold pad. cbn [take firstn]. f_equal. rewrite take_replicate. f_equal. lia. Qed.

Lemma Finalize_repr st msg : repr st msg -> Finalize st = md_hash msg.
Proof.
  intros Hr. unfold Finalize, finalized, md_hash, padding.
  assert (h_bytes st = u64 (Z.of_nat (length msg))) as Hby by apply Hr.
  rewrite Hby, u64_mod_block.
  assert (forall c, (c - Z.of_nat (length msg) mod Z.of_nat blockSize) mod Z.of_nat blockSize
            = (c - Z.of_nat (length msg)) mod Z.of_nat blockSize) as ->
    by (intros; apply Zminus_mod_idemp_r).
  assert (u64 (u64 (Z.of_nat (length msg)) .<< 3) = u64 (8 * Z.of_nat (length msg))) as ->.
  { rewrite shiftl_mul by lia. unfold u64, wrapu. rewrite Z.mul_mod_idemp_l by done. f_equal. lia. }
  pose proof (Z.mod_pos_bound (padConst - Z.of_nat (length msg)) (Z.of_nat blockSize)).
  pose proof blockSize_pos. rewrite Z2Nat.inj_add by lia. cbn [Z.to_nat Pos.to_nat].
  change (Pos.to_nat 1) with 1%nat. rewrite Nat.add_1_l, pad_zeros by lia.
  do 2 (eapply repr_Write in Hr). destruct Hr as (_ & _ & -> & _).
  by rewrite <- app_assoc.
Qed.

(** The digest does not depend on how the message is cut into [Write]s, nor on
    what the hasher was used for before a [Reset]. *)
Lemma Finalize_writes buf chunks chunks' :
  length buf = blockSize ->
  Finalize (fold_left Write chunks (construct buf)) = md_hash (concat chunks) /\
  Finalize (fold_left Write chunks' (Reset (fold_left Write chunks (construct buf))))
    = md_hash (concat chunks').
Proof.
  intros Hb. apply repr_construct in Hb. pose proof (repr_writes chunks _ _ Hb) as Hw.
  split; [by apply Finalize_repr|].
  apply Finalize_repr, (repr_writes chunks' _ []). by eapply repr_Reset.
Qed.
End Engine.

(** ** The interface against the standards *)

Lemma le_bytes_digits n x : le_bytes n x = le_digits n x.
Proof.
  unfold le_digits. revert x. induction n as [|n IH]; intros x; [done|].
  cbn [le_bytes seq map]. rewrite land_ff, IH, <- seq_shift, map_map.
  f_equal; [by rewrite Z.div_1_r|]. apply map_ext. intros i.
  pose proof (Z.pow_pos_nonneg 256 (Z.of_nat i) ltac:(lia) ltac:(lia)).
  rewrite shiftr_div by lia. rewrite Z.div_div by lia.
  rewrite Nat2Z.inj_succ, Z.pow_succ_r by lia. change (2 ^ 8) with 256. done.
Qed.

Lemma be_bytes_digits n x : reverse (le_bytes n x) = be_digits n x.
Proof.
  rewrite le_bytes_digits. unfold le_digits, be_digits.
  apply list_eq. intros i. destruct (decide (i < n)%nat) as [Hi|Hi].
  - rewrite reverse_lookup by (by rewrite length_map, length_seq).
    rewrite length_map, length_seq, !list_lookup_fmap, !lookup_seq_lt by lia.
    replace (0 + (n - S i))%nat with (n - 1 - i)%nat by lia. by rewrite Nat.add_0_l.
  - rewrite !lookup_ge_None_2; [done|..]; rewrite ?length_reverse, length_map, length_seq; lia.
Qed.

(** The digits do not see the wrap-around at their width. *)
Lemma digit_wrap (n i : nat) x :
  (i < n)%nat -> x mod 256 ^ Z.of_nat n / 256 ^ Z.of_nat i mod 256 = x / 256 ^ Z.of_nat i mod 256.
Proof.
  intros Hi. pose proof (Z.pow_pos_nonneg 256 (Z.of_nat i) ltac:(lia) ltac:(lia)).
  pose proof (Z.pow_pos_nonneg 256 (Z.of_nat (n - i)) ltac:(lia) ltac:(lia)).
  replace (Z.of_nat n) with (Z.of_nat i + Z.of_nat (n - i)) by lia.
  rewrite Z.pow_add_r, Z.rem_mul_r by lia.
  rewrite Z.mul_comm, Z.div_add, (Z.div_small (x mod _)), Z.add_0_l by (try apply Z.mod_pos_bound; lia).
  apply Z.mod_mod_divide. exists (256 ^ Z.of_nat (n - i - 1)).
  rewrite Z.mul_comm, <- Z.pow_succ_r by lia. f_equal. lia.
Qed.

Lemma le_digits_u64 x : le_digits 8 (u64 x) = le_digits 8 x.
Proof.
  apply map_ext_in. intros i Hi%in_seq. change (u64 x) with (x mod 256 ^ Z.of_nat 8).
  apply digit_wrap. lia.
Qed.
Lemma be_digits_u64 x : be_digits 8 (u64 x) = be_digits 8 x.
Proof.
  apply map_ext_in. intros i Hi%in_seq. change (u64 x) with (x mod 256 ^ Z.of_nat 8).
  apply digit_wrap. lia.
Qed.

Lemma ReadBE_word n l : le_val (reverse (take n l)) = be_word n l.
Proof.
  unfold be_word, reverse. rewrite <- fold_left_rev_right, <- rev_alt.
  generalize (rev (take n l)). intros k. induction k as [|b k IH]; [done|].
  cbn [le_val fold_right]. by rewrite IH.
Qed.

Lemma ReadLE_word n l : le_val (take n l) = le_word n l.
Proof.
  unfold le_word. generalize (take n l). intros k. induction k as [|b k IH]; [done|].
  cbn [le_val fold_right]. by rewrite IH.
Qed.

Lemma absorb_blocks (H : HashAlgo) n s msg :
  absorb n s msg =
  fold_left Transform (map (fun i => take blockSize (drop (i * blockSize) msg)) (seq 0 n)) s.
Proof.
  revert s msg. induction n as [|n IH]; intros s msg; [done|].
  cbn [absorb seq map fold_left Nat.mul]. rewrite drop_0, IH, <- seq_shift, map_map. f_equal.
  apply map_ext. intros i. by rewrite drop_drop.
Qed.

(** An algorithm whose parts are those of a standard hashes as it says. *)
Lemma md_hash_standard (H : HashAlgo) L digits w n H0 compress msg :
  (0 < @blockSize H)%nat -> @Initialize H = H0 -> (forall s c, @Transform H s c = compress s c) ->
  @padConst H = 2 * Z.of_nat (@blockSize H) - 1 - Z.of_nat L ->
  @sizedesc H (u64 (8 * Z.of_nat (length msg))) = digits L (8 * Z.of_nat (length msg)) ->
  (forall s, @digest H s = flat_map (fun i => digits w (aget s i)) (seq 0 n)) ->
  @md_hash H msg = fips_hash (@blockSize H) L digits w n H0 compress msg.
Proof.
  intros Hb HI HT Hp Hs Hd. unfold md_hash, fips_hash. rewrite Hd.
  assert (padding msg = fips_padding blockSize L digits msg) as ->.
  { unfold padding, fips_padding. cbv zeta. cbn [app]. rewrite Hs, Hp. do 4 f_equal.
    set (l := Z.of_nat (length msg)). set (b := Z.of_nat (@blockSize H)).
    transitivity ((b - Z.of_nat L - 1 - l + 1 * b) mod b); [f_equal; lia|].
    apply Z.mod_add. lia. }
  unfold absorb_all. rewrite absorb_blocks, HI. fold (fips_blocks blockSize (msg ++ fips_padding blockSize L digits msg)).
  generalize (fips_blocks blockSize (msg ++ fips_padding blockSize L digits msg)). intros bs.
  do 2 f_equal. revert H0 HI. intros s _. revert s.
  induction bs as [|b bs IH]; intros s; [done|]. cbn [fold_left]. by rewrite HT.
Qed.
