(* ===== verification/Sha256.v ===== *)
(** * SHA-256 (src/src/crypto/sha256.cpp)

    The compression function is the source's, fully unrolled and with the
    registers renamed from round to round instead of moved; the reference below
    it is the compression function of FIPS 180-4 (message schedule, then
    64 identical rounds), and [Transform256_unroll] equates the two.  [CSHA256] plugs
    it into the streaming engine. *)

From S2P Require Import Prelude Bytes Fips180 HashEngine.
Local Open Scope cxx_scope.

(** ** The code *)

Definition Ch (x y z : Z) : Z := z .^ (x .& (y .^ z)).
Definition Maj (x y z : Z) : Z := (x .& y) .| (z .& (x .| y)).
Definition Sigma0 (x : Z) : Z := (x .>> 2 .| u32 (x .<< 30)) .^ (x .>> 13 .| u32 (x .<< 19)) .^ (x .>> 22 .| u32 (x .<< 10)).
Definition Sigma1 (x : Z) : Z := (x .>> 6 .| u32 (x .<< 26)) .^ (x .>> 11 .| u32 (x .<< 21)) .^ (x .>> 25 .| u32 (x .<< 7)).
Definition sigma0 (x : Z) : Z := (x .>> 7 .| u32 (x .<< 25)) .^ (x .>> 18 .| u32 (x .<< 14)) .^ (x .>> 3).
Definition sigma1 (x : Z) : Z := (x .>> 17 .| u32 (x .<< 15)) .^ (x .>> 19 .| u32 (x .<< 13)) .^ (x .>> 10).

(** [Round] updates [d] and [h] in place: it returns their new values. *)
Definition Round (a b c d e f g h k w : Z) : Z * Z :=
  let t1 := u32 (h + Sigma1 e + Ch e f g + k + w) in
  let t2 := u32 (Sigma0 a + Maj a b c) in
  (u32 (d + t1), u32 (t1 + t2)).

Definition Initialize256 : list Z :=
  [0x6a09e667; 0xbb67ae85; 0x3c6ef372; 0xa54ff53a;
   0x510e527f; 0x9b05688c; 0x1f83d9ab; 0x5be0cd19].

(** The eight working variables and the sixteen message words. *)
Definition regs : Type := (Z * Z * Z * Z * Z * Z * Z * Z)%type.
Definition words : Type := (Z * Z * Z * Z * Z * Z * Z * Z * Z * Z * Z * Z * Z * Z * Z * Z)%type.

(** The rounds, in the groups of sixteen the source lays them out in; the
    register names rotate from call to call and are back after eight. *)
Definition Rounds0 (r : regs) (chunk : list Z) : regs * words :=
  let '(a, b, c, d, e, f, g, h) := r in
  let w0 := ReadBE32 (drop 0 chunk) in
  let '(d, h) := Round a b c d e f g h 0x428a2f98 w0 in
  let w1 := ReadBE32 (drop 4 chunk) in
  let '(c, g) := Round h a b c d e f g 0x71374491 w1 in
  let w2 := ReadBE32 (drop 8 chunk) in
  let '(b, f) := Round g h a b c d e f 0xb5c0fbcf w2 in
  let w3 := ReadBE32 (drop 12 chunk) in
  let '(a, e) := Round f g h a b c d e 0xe9b5dba5 w3 in
  let w4 := ReadBE32 (drop 16 chunk) in
  let '(h, d) := Round e f g h a b c d 0x3956c25b w4 in
  let w5 := ReadBE32 (drop 20 chunk) in
  let '(g, c) := Round d e f g h a b c 0x59f111f1 w5 in
  let w6 := ReadBE32 (drop 24 chunk) in
  let '(f, b) := Round c d e f g h a b 0x923f82a4 w6 in
  let w7 := ReadBE32 (drop 28 chunk) in
  let '(e, a) := Round b c d e f g h a 0xab1c5ed5 w7 in
  let w8 := ReadBE32 (drop 32 chunk) in
  let '(d, h) := Round a b c d e f g h 0xd807aa98 w8 in
  let w9 := ReadBE32 (drop 36 chunk) in
  let '(c, g) := Round h a b c d e f g 0x12835b01 w9 in
  let w10 := ReadBE32 (drop 40 chunk) in
  let '(b, f) := Round g h a b c d e f 0x243185be w10 in
  let w11 := ReadBE32 (drop 44 chunk) in
  let '(a, e) := Round f g h a b c d e 0x550c7dc3 w11 in
  let w12 := ReadBE32 (drop 48 chunk) in
  let '(h, d) := Round e f g h a b c d 0x72be5d74 w12 in
  let w13 := ReadBE32 (drop 52 chunk) in
  let '(g, c) := Round d e f g h a b c 0x80deb1fe w13 in
  let w14 := ReadBE32 (drop 56 chunk) in
  let '(f, b) := Round c d e f g h a b 0x9bdc06a7 w14 in
  let w15 := ReadBE32 (drop 60 chunk) in
  let '(e, a) := Round b c d e f g h a 0xc19bf174 w15 in
  ((a, b, c, d, e, f, g, h), (w0, w1, w2, w3, w4, w5, w6, w7, w8, w9, w10, w11, w12, w13, w14, w15)).

Definition Rounds1 (r : regs) (w : words) : regs * words :=
  let '(a, b, c, d, e, f, g, h) := r in
  let '(w0, w1, w2, w3, w4, w5, w6, w7, w8, w9, w10, w11, w12, w13, w14, w15) := w in
  let w0 := u32 (w0 + (sigma1 w14 + w9 + sigma0 w1)) in
  let '(d, h) := Round a b c d e f g h 0xe49b69c1 w0 in
  let w1 := u32 (w1 + (sigma1 w15 + w10 + sigma0 w2)) in
  let '(c, g) := Round h a b c d e f g 0xefbe4786 w1 in
  let w2 := u32 (w2 + (sigma1 w0 + w11 + sigma0 w3)) in
  let '(b, f) := Round g h a b c d e f 0x0fc19dc6 w2 in
  let w3 := u32 (w3 + (sigma1 w1 + w12 + sigma0 w4)) in
  let '(a, e) := Round f g h a b c d e 0x240ca1cc w3 in
  let w4 := u32 (w4 + (sigma1 w2 + w13 + sigma0 w5)) in
  let '(h, d) := Round e f g h a b c d 0x2de92c6f w4 in
  let w5 := u32 (w5 + (sigma1 w3 + w14 + sigma0 w6)) in
  let '(g, c) := Round d e f g h a b c 0x4a7484aa w5 in
  let w6 := u32 (w6 + (sigma1 w4 + w15 + sigma0 w7)) in
  let '(f, b) := Round c d e f g h a b 0x5cb0a9dc w6 in
  let w7 := u32 (w7 + (sigma1 w5 + w0 + sigma0 w8)) in
  let '(e, a) := Round b c d e f g h a 0x76f988da w7 in
  let w8 := u32 (w8 + (sigma1 w6 + w1 + sigma0 w9)) in
  let '(d, h) := Round a b c d e f g h 0x983e5152 w8 in
  let w9 := u32 (w9 + (sigma1 w7 + w2 + sigma0 w10)) in
  let '(c, g) := Round h a b c d e f g 0xa831c66d w9 in
  let w10 := u32 (w10 + (sigma1 w8 + w3 + sigma0 w11)) in
  let '(b, f) := Round g h a b c d e f 0xb00327c8 w10 in
  let w11 := u32 (w11 + (sigma1 w9 + w4 + sigma0 w12)) in
  let '(a, e) := Round f g h a b c d e 0xbf597fc7 w11 in
  let w12 := u32 (w12 + (sigma1 w10 + w5 + sigma0 w13)) in
  let '(h, d) := Round e f g h a b c d 0xc6e00bf3 w12 in
  let w13 := u32 (w13 + (sigma1 w11 + w6 + sigma0 w14)) in
  let '(g, c) := Round d e f g h a b c 0xd5a79147 w13 in
  let w14 := u32 (w14 + (sigma1 w12 + w7 + sigma0 w15)) in
  let '(f, b) := Round c d e f g h a b 0x06ca6351 w14 in
  let w15 := u32 (w15 + (sigma1 w13 + w8 + sigma0 w0)) in
  let '(e, a) := Round b c d e f g h a 0x14292967 w15 in
  ((a, b, c, d, e, f, g, h), (w0, w1, w2, w3, w4, w5, w6, w7, w8, w9, w10, w11, w12, w13, w14, w15)).

Definition Rounds2 (r : regs) (w : words) : regs * words :=
  let '(a, b, c, d, e, f, g, h) := r in
  let '(w0, w1, w2, w3, w4, w5, w6, w7, w8, w9, w10, w11, w12, w13, w14, w15) := w in
  let w0 := u32 (w0 + (sigma1 w14 + w9 + sigma0 w1)) in
  let '(d, h) := Round a b c d e f g h 0x27b70a85 w0 in
  let w1 := u32 (w1 + (sigma1 w15 + w10 + sigma0 w2)) in
  let '(c, g) := Round h a b c d e f g 0x2e1b2138 w1 in
  let w2 := u32 (w2 + (sigma1 w0 + w11 + sigma0 w3)) in
  let '(b, f) := Round g h a b c d e f 0x4d2c6dfc w2 in
  let w3 := u32 (w3 + (sigma1 w1 + w12 + sigma0 w4)) in
  let '(a, e) := Round f g h a b c d e 0x53380d13 w3 in
  let w4 := u32 (w4 + (sigma1 w2 + w13 + sigma0 w5)) in
  let '(h, d) := Round e f g h a b c d 0x650a7354 w4 in
  let w5 := u32 (w5 + (sigma1 w3 + w14 + sigma0 w6)) in
  let '(g, c) := Round d e f g h a b c 0x766a0abb w5 in
  let w6 := u32 (w6 + (sigma1 w4 + w15 + sigma0 w7)) in
  let '(f, b) := Round c d e f g h a b 0x81c2c92e w6 in
  let w7 := u32 (w7 + (sigma1 w5 + w0 + sigma0 w8)) in
  let '(e, a) := Round b c d e f g h a 0x92722c85 w7 in
  let w8 := u32 (w8 + (sigma1 w6 + w1 + sigma0 w9)) in
  let '(d, h) := Round a b c d e f g h 0xa2bfe8a1 w8 in
  let w9 := u32 (w9 + (sigma1 w7 + w2 + sigma0 w10)) in
  let '(c, g) := Round h a b c d e f g 0xa81a664b w9 in
  let w10 := u32 (w10 + (sigma1 w8 + w3 + sigma0 w11)) in
  let '(b, f) := Round g h a b c d e f 0xc24b8b70 w10 in
  let w11 := u32 (w11 + (sigma1 w9 + w4 + sigma0 w12)) in
  let '(a, e) := Round f g h a b c d e 0xc76c51a3 w11 in
  let w12 := u32 (w12 + (sigma1 w10 + w5 + sigma0 w13)) in
  let '(h, d) := Round e f g h a b c d 0xd192e819 w12 in
  let w13 := u32 (w13 + (sigma1 w11 + w6 + sigma0 w14)) in
  let '(g, c) := Round d e f g h a b c 0xd6990624 w13 in
  let w14 := u32 (w14 + (sigma1 w12 + w7 + sigma0 w15)) in
  let '(f, b) := Round c d e f g h a b 0xf40e3585 w14 in
  let w15 := u32 (w15 + (sigma1 w13 + w8 + sigma0 w0)) in
  let '(e, a) := Round b c d e f g h a 0x106aa070 w15 in
  ((a, b, c, d, e, f, g, h), (w0, w1, w2, w3, w4, w5, w6, w7, w8, w9, w10, w11, w12, w13, w14, w15)).

Definition Rounds3 (r : regs) (w : words) : regs :=
  let '(a, b, c, d, e, f, g, h) := r in
  let '(w0, w1, w2, w3, w4, w5, w6, w7, w8, w9, w10, w11, w12, w13, w14, w15) := w in
  let w0 := u32 (w0 + (sigma1 w14 + w9 + sigma0 w1)) in
  let '(d, h) := Round a b c d e f g h 0x19a4c116 w0 in
  let w1 := u32 (w1 + (sigma1 w15 + w10 + sigma0 w2)) in
  let '(c, g) := Round h a b c d e f g 0x1e376c08 w1 in
  let w2 := u32 (w2 + (sigma1 w0 + w11 + sigma0 w3)) in
  let '(b, f) := Round g h a b c d e f 0x2748774c w2 in
  let w3 := u32 (w3 + (sigma1 w1 + w12 + sigma0 w4)) in
  let '(a, e) := Round f g h a b c d e 0x34b0bcb5 w3 in
  let w4 := u32 (w4 + (sigma1 w2 + w13 + sigma0 w5)) in
  let '(h, d) := Round e f g h a b c d 0x391c0cb3 w4 in
  let w5 := u32 (w5 + (sigma1 w3 + w14 + sigma0 w6)) in
  let '(g, c) := Round d e f g h a b c 0x4ed8aa4a w5 in
  let w6 := u32 (w6 + (sigma1 w4 + w15 + sigma0 w7)) in
  let '(f, b) := Round c d e f g h a b 0x5b9cca4f w6 in
  let w7 := u32 (w7 + (sigma1 w5 + w0 + sigma0 w8)) in
  let '(e, a) := Round b c d e f g h a 0x682e6ff3 w7 in
  let w8 := u32 (w8 + (sigma1 w6 + w1 + sigma0 w9)) in
  let '(d, h) := Round a b c d e f g h 0x748f82ee w8 in
  let w9 := u32 (w9 + (sigma1 w7 + w2 + sigma0 w10)) in
  let '(c, g) := Round h a b c d e f g 0x78a5636f w9 in
  let w10 := u32 (w10 + (sigma1 w8 + w3 + sigma0 w11)) in
  let '(b, f) := Round g h a b c d e f 0x84c87814 w10 in
  let w11 := u32 (w11 + (sigma1 w9 + w4 + sigma0 w12)) in
  let '(a, e) := Round f g h a b c d e 0x8cc70208 w11 in
  let w12 := u32 (w12 + (sigma1 w10 + w5 + sigma0 w13)) in
  let '(h, d) := Round e f g h a b c d 0x90befffa w12 in
  let w13 := u32 (w13 + (sigma1 w11 + w6 + sigma0 w14)) in
  let '(g, c) := Round d e f g h a b c 0xa4506ceb w13 in
  let '(f, b) := Round c d e f g h a b 0xbef9a3f7 (u32 (w14 + sigma1 w12 + w7 + sigma0 w15)) in
  let '(e, a) := Round b c d e f g h a 0xc67178f2 (u32 (w15 + sigma1 w13 + w8 + sigma0 w0)) in
  (a, b, c, d, e, f, g, h).

Definition Transform256 (s chunk : list Z) : list Z :=
  let r := (aget s 0, aget s 1, aget s 2, aget s 3, aget s 4, aget s 5, aget s 6, aget s 7) in
  let '(r, w) := Rounds0 r chunk in
  let '(r, w) := Rounds1 r w in
  let '(r, w) := Rounds2 r w in
  let '(a, b, c, d, e, f, g, h) := Rounds3 r w in
  [u32 (aget s 0 + a); u32 (aget s 1 + b); u32 (aget s 2 + c); u32 (aget s 3 + d);
   u32 (aget s 4 + e); u32 (aget s 5 + f); u32 (aget s 6 + g); u32 (aget s 7 + h)].

(** ** The reference: FIPS 180-4 *)

Definition ROTR (n x : Z) : Z := (x .>> n) .| u32 (x .<< (32 - n)).
Definition SHR (n x : Z) : Z := x .>> n.
Definition fips_Ch (x y z : Z) : Z := (x .& y) .^ Z.ldiff z x.
Definition fips_Maj (x y z : Z) : Z := (x .& y) .^ (x .& z) .^ (y .& z).
Definition fips_Sigma0 (x : Z) : Z := ROTR 2 x .^ ROTR 13 x .^ ROTR 22 x.
Definition fips_Sigma1 (x : Z) : Z := ROTR 6 x .^ ROTR 11 x .^ ROTR 25 x.
Definition fips_sigma0 (x : Z) : Z := ROTR 7 x .^ ROTR 18 x .^ SHR 3 x.
Definition fips_sigma1 (x : Z) : Z := ROTR 17 x .^ ROTR 19 x .^ SHR 10 x.

Definition fips_K : list Z := map (frac_cbrt 32) (take 64 (primes_below 312)).
Definition fips_H0 : list Z := map (frac_sqrt 32) (take 8 (primes_below 20)).

(** [W_t] from the sixteen words before it. *)
Definition fips_next (win : list Z) : Z :=
  u32 (fips_sigma1 (aget win 14) + aget win 9 + fips_sigma0 (aget win 1) + aget win 0).

Fixpoint fips_extend (n : nat) (win : list Z) : list Z :=
  match n with
  | O => []
  | S n => let w := fips_next win in w :: fips_extend n (tail win ++ [w])
  end.

Definition fips_message (chunk : list Z) : list Z :=
  map (fun i => be_word 4 (drop (i * 4) chunk)) (seq 0 16).

Definition fips_schedule (chunk : list Z) : list Z :=
  fips_message chunk ++ fips_extend 48 (fips_message chunk).

Definition fips_round (r : regs) (kw : Z * Z) : regs :=
  let '(a, b, c, d, e, f, g, h) := r in
  let T1 := u32 (h + fips_Sigma1 e + fips_Ch e f g + fst kw + snd kw) in
  let T2 := u32 (fips_Sigma0 a + fips_Maj a b c) in
  (u32 (T1 + T2), a, b, c, u32 (d + T1), e, f, g).

Definition fips_compress256 (s chunk : list Z) : list Z :=
  let '(a, b, c, d, e, f, g, h) :=
    fold_left fips_round (combine fips_K (fips_schedule chunk))
      (aget s 0, aget s 1, aget s 2, aget s 3, aget s 4, aget s 5, aget s 6, aget s 7) in
  [u32 (aget s 0 + a); u32 (aget s 1 + b); u32 (aget s 2 + c); u32 (aget s 3 + d);
   u32 (aget s 4 + e); u32 (aget s 5 + f); u32 (aget s 6 + g); u32 (aget s 7 + h)].

(** ** The unrolled code implements the reference *)

Definition code_message (chunk : list Z) : list Z :=
  map (fun i => ReadBE32 (drop (i * 4) chunk)) (seq 0 16).

Lemma fips_message256 chunk : fips_message chunk = code_message chunk.
Proof. unfold fips_message, code_message. apply map_ext. intros i. by rewrite <- ReadBE_word. Qed.

Lemma Ch_fips256 x y z : Ch x y z = fips_Ch x y z.
Proof. apply bitwise_ch. Qed.
Lemma Maj_fips256 x y z : Maj x y z = fips_Maj x y z.
Proof. apply bitwise_maj. Qed.

Lemma Round_fips256 a b c d e f g h k w :
  fips_round (a, b, c, d, e, f, g, h) (k, w) =
  let '(d', h') := Round a b c d e f g h k w in (h', a, b, c, d', e, f, g).
Proof. unfold fips_round, Round. by rewrite <- Ch_fips256, <- Maj_fips256. Qed.

(** One round of the first sixteen, whose word is read from the chunk. *)
Lemma read_step256 k ks w ws a b c d e f g h :
  fold_left fips_round (combine (k :: ks) (w :: ws)) (a, b, c, d, e, f, g, h) =
  let '(d', h') := Round a b c d e f g h k w in
  fold_left fips_round (combine ks ws) (h', a, b, c, d', e, f, g).
Proof. cbn [combine fold_left]. rewrite Round_fips256. by destruct (Round _ _ _ _ _ _ _ _ _ _). Qed.

(** One later round, whose word extends the schedule. *)
Lemma extend_step256 k ks n w0 w1 w2 w3 w4 w5 w6 w7 w8 w9 w10 w11 w12 w13 w14 w15 a b c d e f g h :
  fold_left fips_round
    (combine (k :: ks)
       (fips_extend (S n) [w0; w1; w2; w3; w4; w5; w6; w7; w8; w9; w10; w11; w12; w13; w14; w15]))
    (a, b, c, d, e, f, g, h) =
  let '(d', h') := Round a b c d e f g h k (u32 (w0 + (sigma1 w14 + w9 + sigma0 w1))) in
  fold_left fips_round
    (combine ks (fips_extend n [w1; w2; w3; w4; w5; w6; w7; w8; w9; w10; w11; w12; w13; w14; w15;
                                u32 (w0 + (sigma1 w14 + w9 + sigma0 w1))]))
    (h', a, b, c, d', e, f, g).
Proof.
  cbn [fips_extend tail app]. unfold fips_next, aget. cbn [nth].
  change fips_sigma1 with sigma1; change fips_sigma0 with sigma0.
  rewrite (Z.add_comm _ w0). apply read_step256.
Qed.

Lemma last_word256 a b c d : u32 (a + b + c + d) = u32 (a + (b + c + d)).
Proof. f_equal. lia. Qed.

Definition words_list (w : words) : list Z :=
  let '(w0, w1, w2, w3, w4, w5, w6, w7, w8, w9, w10, w11, w12, w13, w14, w15) := w in
  [w0; w1; w2; w3; w4; w5; w6; w7; w8; w9; w10; w11; w12; w13; w14; w15].

Lemma fips_K_values256 : fips_K =
  ([0x428a2f98; 0x71374491; 0xb5c0fbcf; 0xe9b5dba5;
      0x3956c25b; 0x59f111f1; 0x923f82a4; 0xab1c5ed5] ++
     [0xd807aa98; 0x12835b01; 0x243185be; 0x550c7dc3;
      0x72be5d74; 0x80deb1fe; 0x9bdc06a7; 0xc19bf174]) ++
  ([0xe49b69c1; 0xefbe4786; 0x0fc19dc6; 0x240ca1cc;
      0x2de92c6f; 0x4a7484aa; 0x5cb0a9dc; 0x76f988da] ++
     [0x983e5152; 0xa831c66d; 0xb00327c8; 0xbf597fc7;
      0xc6e00bf3; 0xd5a79147; 0x06ca6351; 0x14292967]) ++
  ([0x27b70a85; 0x2e1b2138; 0x4d2c6dfc; 0x53380d13;
      0x650a7354; 0x766a0abb; 0x81c2c92e; 0x92722c85] ++
     [0xa2bfe8a1; 0xa81a664b; 0xc24b8b70; 0xc76c51a3;
      0xd192e819; 0xd6990624; 0xf40e3585; 0x106aa070]) ++
  ([0x19a4c116; 0x1e376c08; 0x2748774c; 0x34b0bcb5;
      0x391c0cb3; 0x4ed8aa4a; 0x5b9cca4f; 0x682e6ff3] ++
     [0x748f82ee; 0x78a5636f; 0x84c87814; 0x8cc70208;
      0x90befffa; 0xa4506ceb; 0xbef9a3f7; 0xc67178f2]).
Proof. vm_compute. reflexivity. Qed.

(** Runs one round on both sides: the word of the round, which is the same term
    in the code and in the reference, becomes a variable, and so do the two
    registers [Round] writes. *)
Ltac round_step256 :=
  first [rewrite read_step256 | rewrite extend_step256];
  try rewrite last_word256;
  try lazymatch goal with
  | |- (let x := ?v in @?B x) = _ -> _ =>
      generalize v; let w := fresh "w" in intros w;
      lazymatch goal with |- (let x := ?v in @?B x) = ?X -> ?C =>
        let y := eval cbv beta in (B v) in change (y = X -> C) end
  end;
  lazymatch goal with
  | |- context [Round ?a ?b ?c ?d ?e ?f ?g ?h ?k ?w] =>
      let d' := fresh "d" in let h' := fresh "h" in
      generalize (Round a b c d e f g h k w); intros [d' h']; cbv beta iota
  end.

Lemma group256_0 r chunk r' w' ks ws :
  Rounds0 r chunk = (r', w') ->
  fold_left fips_round (combine (
    ([0x428a2f98; 0x71374491; 0xb5c0fbcf; 0xe9b5dba5;
      0x3956c25b; 0x59f111f1; 0x923f82a4; 0xab1c5ed5] ++
     [0xd807aa98; 0x12835b01; 0x243185be; 0x550c7dc3;
      0x72be5d74; 0x80deb1fe; 0x9bdc06a7; 0xc19bf174]) ++ ks) (code_message chunk ++ ws)) r =
  fold_left fips_round (combine ks ws) r' /\ code_message chunk = words_list w'.
Proof.
  revert r. intros [[[[[[[a b] c] d] e] f] g] h].
  cbv beta iota delta [Rounds0 code_message map seq app Nat.mul Nat.add].
  do 16 round_step256. intros [= <- <-]. done.
Qed.

Lemma group256_1 r w r' w' ks n :
  Rounds1 r w = (r', w') ->
  fold_left fips_round (combine (
    ([0xe49b69c1; 0xefbe4786; 0x0fc19dc6; 0x240ca1cc;
      0x2de92c6f; 0x4a7484aa; 0x5cb0a9dc; 0x76f988da] ++
     [0x983e5152; 0xa831c66d; 0xb00327c8; 0xbf597fc7;
      0xc6e00bf3; 0xd5a79147; 0x06ca6351; 0x14292967]) ++ ks) (fips_extend (16 + n) (words_list w))) r =
  fold_left fips_round (combine ks (fips_extend n (words_list w'))) r'.
Proof.
  revert r w. intros [[[[[[[a b] c] d] e] f] g] h].
  intros [[[[[[[[[[[[[[[w0 w1] w2] w3] w4] w5] w6] w7] w8] w9] w10] w11] w12] w13] w14] w15].
  cbv beta iota delta [Rounds1 words_list app Nat.add].
  do 16 round_step256. intros [= <- <-]. done.
Qed.

Lemma group256_2 r w r' w' ks n :
  Rounds2 r w = (r', w') ->
  fold_left fips_round (combine (
    ([0x27b70a85; 0x2e1b2138; 0x4d2c6dfc; 0x53380d13;
      0x650a7354; 0x766a0abb; 0x81c2c92e; 0x92722c85] ++
     [0xa2bfe8a1; 0xa81a664b; 0xc24b8b70; 0xc76c51a3;
      0xd192e819; 0xd6990624; 0xf40e3585; 0x106aa070]) ++ ks) (fips_extend (16 + n) (words_list w))) r =
  fold_left fips_round (combine ks (fips_extend n (words_list w'))) r'.
Proof.
  revert r w. intros [[[[[[[a b] c] d] e] f] g] h].
  intros [[[[[[[[[[[[[[[w0 w1] w2] w3] w4] w5] w6] w7] w8] w9] w10] w11] w12] w13] w14] w15].
  cbv beta iota delta [Rounds2 words_list app Nat.add].
  do 16 round_step256. intros [= <- <-]. done.
Qed.

Lemma group256_3 r w r' :
  Rounds3 r w = r' ->
  fold_left fips_round (combine
    ([0x19a4c116; 0x1e376c08; 0x2748774c; 0x34b0bcb5;
      0x391c0cb3; 0x4ed8aa4a; 0x5b9cca4f; 0x682e6ff3] ++
     [0x748f82ee; 0x78a5636f; 0x84c87814; 0x8cc70208;
      0x90befffa; 0xa4506ceb; 0xbef9a3f7; 0xc67178f2]) (fips_extend 16 (words_list w))) r = r'.
Proof.
  revert r w. intros [[[[[[[a b] c] d] e] f] g] h].
  intros [[[[[[[[[[[[[[[w0 w1] w2] w3] w4] w5] w6] w7] w8] w9] w10] w11] w12] w13] w14] w15].
  cbv beta iota delta [Rounds3 words_list app Nat.add].
  do 16 round_step256. intros <-. done.
Qed.

Lemma Transform256_unroll s chunk : Transform256 s chunk = fips_compress256 s chunk.
Proof.
  unfold Transform256, fips_compress256, fips_schedule. rewrite fips_message256, fips_K_values256.
  destruct (Rounds0 _ chunk) as [r0 w0] eqn:E0.
  lazymatch goal with |- context [combine (_ ++ ?ks) (_ ++ ?ws)] =>
    destruct (group256_0 _ _ _ _ ks ws E0) as [-> ->] end.
  destruct (Rounds1 r0 w0) as [r1 w1] eqn:E1.
  destruct (Rounds2 r1 w1) as [r2 w2] eqn:E2.
  change 48%nat with (16 + 32)%nat. rewrite (group256_1 _ _ _ _ _ _ E1).
  change 32%nat with (16 + 16)%nat. rewrite (group256_2 _ _ _ _ _ _ E2).
  by rewrite (group256_3 _ _ _ eq_refl).
Qed.

(** ** The hasher *)

Definition CSHA256 : HashAlgo :=
  {| blockSize := 64;
     Initialize := Initialize256;
     Transform := Transform256;
     padConst := 119;
     sizedesc bits := WriteBE64 bits;
     digest s :=
       WriteBE32 (aget s 0) ++ WriteBE32 (aget s 1) ++ WriteBE32 (aget s 2) ++ WriteBE32 (aget s 3) ++
       WriteBE32 (aget s 4) ++ WriteBE32 (aget s 5) ++ WriteBE32 (aget s 6) ++ WriteBE32 (aget s 7) |}.

(** The methods of the class. *)
Definition CSHA256_new : list Z -> CHasher := @construct CSHA256.
Definition CSHA256_Write : CHasher -> list Z -> CHasher := @Write CSHA256.
Definition CSHA256_Finalize : CHasher -> list Z := @Finalize CSHA256.
Definition CSHA256_Reset : CHasher -> CHasher := @Reset CSHA256.

#[export] Instance CSHA256_laws : HashAlgoLaws CSHA256.
Proof.
  split; cbn; [lia|by exists (2 ^ 58)|done|lia].
Qed.

Lemma length_digest256 s : length (@digest CSHA256 s) = 32%nat.
Proof. done. Qed.

(** SHA-256 as FIPS 180-4 defines it, of a whole message. *)
Definition fips_sha256 : list Z -> list Z :=
  fips_hash 64 8 be_digits 4 8 fips_H0 fips_compress256.

Lemma CSHA256_md msg : @md_hash CSHA256 msg = fips_sha256 msg.
Proof.
  apply (md_hash_standard CSHA256);
    [apply blockSize_pos|vm_compute; reflexivity|apply Transform256_unroll|done|rewrite <- be_digits_u64; apply be_bytes_digits|].
  intros s. cbn [digest CSHA256 seq flat_map]. unfold WriteBE32. by rewrite !be_bytes_digits, app_nil_r.
Qed.

(** [CSHA256().Write(data, len).Finalize(hash)] on a fresh hasher. *)
Definition sha256 (data : list Z) : list Z :=
  @Finalize CSHA256 (@Write CSHA256 (@construct CSHA256 (replicate 64 0)) data).

Lemma sha256_correct data : sha256 data = fips_sha256 data.
Proof.
  unfold sha256. destruct (Finalize_writes (H := CSHA256) (replicate 64 0) [data] [] eq_refl) as [E _].
  cbn [fold_left concat] in E. rewrite app_nil_r in E. by rewrite <- CSHA256_md.
Qed.
Lemma sha256_bytes_ok data : bytes_ok (fips_sha256 data).
Proof.
  rewrite <- sha256_correct. unfold sha256. cbn [digest CSHA256 Finalize].
  repeat (apply Forall_app; split); apply Forall_reverse, le_bytes_ok.
Qed.

Lemma length_sha256 data : length (sha256 data) = 32%nat.
Proof. done. Qed.

(** The streaming hasher [CSHA256], whatever its indeterminate buffer holds,
    however the message is cut into [Write] calls and whatever was hashed before
    a [Reset], returns the SHA-256 digest of FIPS 180-4 of the concatenation of
    what was written: the 64 unrolled, register-renamed rounds are the
    schedule and rounds of the standard, with constants the code's tables give
    exactly as the fractional parts of roots of primes. *)
Theorem CSHA256_is_FIPS (buf : list Z) (before chunks : list (list Z)) :
  length buf = 64%nat ->
  CSHA256_Finalize (fold_left CSHA256_Write chunks (CSHA256_new buf)) = fips_sha256 (concat chunks) /\
  CSHA256_Finalize (fold_left CSHA256_Write chunks
    (CSHA256_Reset (fold_left CSHA256_Write before (CSHA256_new buf)))) = fips_sha256 (concat chunks).
Proof.
  intros Hb. rewrite <- CSHA256_md. split.
  - by apply (Finalize_writes (H := CSHA256) buf chunks []).
  - by apply (Finalize_writes (H := CSHA256) buf before chunks).
Qed.

(** The digest of "abc", written byte by byte. *)
Lemma CSHA256_is_FIPS_witness :
  CSHA256_Finalize (fold_left CSHA256_Write [[0x61]; [0x62]; [0x63]] (CSHA256_new (replicate 64 7)))
    = fips_sha256 [0x61; 0x62; 0x63] /\
  fips_sha256 [0x61; 0x62; 0x63] =
    [0xba; 0x78; 0x16; 0xbf; 0x8f; 0x1; 0xcf; 0xea; 0x41; 0x41; 0x40; 0xde; 0x5d; 0xae; 0x22; 0x23; 0xb0; 0x3; 0x61; 0xa3; 0x96; 0x17; 0x7a; 0x9c; 0xb4; 0x10; 0xff; 0x61; 0xf2; 0x0; 0x15; 0xad].
Proof.
  split; [exact (proj1 (CSHA256_is_FIPS (replicate 64 7) [] [[0x61]; [0x62]; [0x63]] eq_refl))|].
  vm_compute. reflexivity.
Defined.
