(* ===== verification/Sha512.v ===== *)
(** * SHA-512 (src/src/crypto/sha512.cpp)

    The compression function is the source's, fully unrolled and with the
    registers renamed from round to round instead of moved; the reference below
    it is the compression function of FIPS 180-4 (message schedule, then
    80 identical rounds), and [Transform512_unroll] equates the two.  [CSHA512] plugs
    it into the streaming engine. *)

From S2P Require Import Prelude Bytes Fips180 HashEngine.
Local Open Scope cxx_scope.

(** ** The code *)

Definition Ch (x y z : Z) : Z := z .^ (x .& (y .^ z)).
Definition Maj (x y z : Z) : Z := (x .& y) .| (z .& (x .| y)).
Definition Sigma0 (x : Z) : Z := (x .>> 28 .| u64 (x .<< 36)) .^ (x .>> 34 .| u64 (x .<< 30)) .^ (x .>> 39 .| u64 (x .<< 25)).
Definition Sigma1 (x : Z) : Z := (x .>> 14 .| u64 (x .<< 50)) .^ (x .>> 18 .| u64 (x .<< 46)) .^ (x .>> 41 .| u64 (x .<< 23)).
Definition sigma0 (x : Z) : Z := (x .>> 1 .| u64 (x .<< 63)) .^ (x .>> 8 .| u64 (x .<< 56)) .^ (x .>> 7).
Definition sigma1 (x : Z) : Z := (x .>> 19 .| u64 (x .<< 45)) .^ (x .>> 61 .| u64 (x .<< 3)) .^ (x .>> 6).

(** [Round] updates [d] and [h] in place: it returns their new values. *)
Definition Round (a b c d e f g h k w : Z) : Z * Z :=
  let t1 := u64 (h + Sigma1 e + Ch e f g + k + w) in
  let t2 := u64 (Sigma0 a + Maj a b c) in
  (u64 (d + t1), u64 (t1 + t2)).

Definition Initialize512 : list Z :=
  [0x6a09e667f3bcc908; 0xbb67ae8584caa73b; 0x3c6ef372fe94f82b; 0xa54ff53a5f1d36f1;
   0x510e527fade682d1; 0x9b05688c2b3e6c1f; 0x1f83d9abfb41bd6b; 0x5be0cd19137e2179].

(** The eight working variables and the sixteen message words. *)
Definition regs : Type := (Z * Z * Z * Z * Z * Z * Z * Z)%type.
Definition words : Type := (Z * Z * Z * Z * Z * Z * Z * Z * Z * Z * Z * Z * Z * Z * Z * Z)%type.

(** The rounds, in the groups of sixteen the source lays them out in; the
    register names rotate from call to call and are back after eight. *)
Definition Rounds0 (r : regs) (chunk : list Z) : regs * words :=
  let '(a, b, c, d, e, f, g, h) := r in
  let w0 := ReadBE64 (drop 0 chunk) in
  let '(d, h) := Round a b c d e f g h 0x428a2f98d728ae22 w0 in
  let w1 := ReadBE64 (drop 8 chunk) in
  let '(c, g) := Round h a b c d e f g 0x7137449123ef65cd w1 in
  let w2 := ReadBE64 (drop 16 chunk) in
  let '(b, f) := Round g h a b c d e f 0xb5c0fbcfec4d3b2f w2 in
  let w3 := ReadBE64 (drop 24 chunk) in
  let '(a, e) := Round f g h a b c d e 0xe9b5dba58189dbbc w3 in
  let w4 := ReadBE64 (drop 32 chunk) in
  let '(h, d) := Round e f g h a b c d 0x3956c25bf348b538 w4 in
  let w5 := ReadBE64 (drop 40 chunk) in
  let '(g, c) := Round d e f g h a b c 0x59f111f1b605d019 w5 in
  let w6 := ReadBE64 (drop 48 chunk) in
  let '(f, b) := Round c d e f g h a b 0x923f82a4af194f9b w6 in
  let w7 := ReadBE64 (drop 56 chunk) in
  let '(e, a) := Round b c d e f g h a 0xab1c5ed5da6d8118 w7 in
  let w8 := ReadBE64 (drop 64 chunk) in
  let '(d, h) := Round a b c d e f g h 0xd807aa98a3030242 w8 in
  let w9 := ReadBE64 (drop 72 chunk) in
  let '(c, g) := Round h a b c d e f g 0x12835b0145706fbe w9 in
  let w10 := ReadBE64 (drop 80 chunk) in
  let '(b, f) := Round g h a b c d e f 0x243185be4ee4b28c w10 in
  let w11 := ReadBE64 (drop 88 chunk) in
  let '(a, e) := Round f g h a b c d e 0x550c7dc3d5ffb4e2 w11 in
  let w12 := ReadBE64 (drop 96 chunk) in
  let '(h, d) := Round e f g h a b c d 0x72be5d74f27b896f w12 in
  let w13 := ReadBE64 (drop 104 chunk) in
  let '(g, c) := Round d e f g h a b c 0x80deb1fe3b1696b1 w13 in
  let w14 := ReadBE64 (drop 112 chunk) in
  let '(f, b) := Round c d e f g h a b 0x9bdc06a725c71235 w14 in
  let w15 := ReadBE64 (drop 120 chunk) in
  let '(e, a) := Round b c d e f g h a 0xc19bf174cf692694 w15 in
  ((a, b, c, d, e, f, g, h), (w0, w1, w2, w3, w4, w5, w6, w7, w8, w9, w10, w11, w12, w13, w14, w15)).

Definition Rounds1 (r : regs) (w : words) : regs * words :=
  let '(a, b, c, d, e, f, g, h) := r in
  let '(w0, w1, w2, w3, w4, w5, w6, w7, w8, w9, w10, w11, w12, w13, w14, w15) := w in
  let w0 := u64 (w0 + (sigma1 w14 + w9 + sigma0 w1)) in
  let '(d, h) := Round a b c d e f g h 0xe49b69c19ef14ad2 w0 in
  let w1 := u64 (w1 + (sigma1 w15 + w10 + sigma0 w2)) in
  let '(c, g) := Round h a b c d e f g 0xefbe4786384f25e3 w1 in
  let w2 := u64 (w2 + (sigma1 w0 + w11 + sigma0 w3)) in
  let '(b, f) := Round g h a b c d e f 0x0fc19dc68b8cd5b5 w2 in
  let w3 := u64 (w3 + (sigma1 w1 + w12 + sigma0 w4)) in
  let '(a, e) := Round f g h a b c d e 0x240ca1cc77ac9c65 w3 in
  let w4 := u64 (w4 + (sigma1 w2 + w13 + sigma0 w5)) in
  let '(h, d) := Round e f g h a b c d 0x2de92c6f592b0275 w4 in
  let w5 := u64 (w5 + (sigma1 w3 + w14 + sigma0 w6)) in
  let '(g, c) := Round d e f g h a b c 0x4a7484aa6ea6e483 w5 in
  let w6 := u64 (w6 + (sigma1 w4 + w15 + sigma0 w7)) in
  let '(f, b) := Round c d e f g h a b 0x5cb0a9dcbd41fbd4 w6 in
  let w7 := u64 (w7 + (sigma1 w5 + w0 + sigma0 w8)) in
  let '(e, a) := Round b c d e f g h a 0x76f988da831153b5 w7 in
  let w8 := u64 (w8 + (sigma1 w6 + w1 + sigma0 w9)) in
  let '(d, h) := Round a b c d e f g h 0x983e5152ee66dfab w8 in
  let w9 := u64 (w9 + (sigma1 w7 + w2 + sigma0 w10)) in
  let '(c, g) := Round h a b c d e f g 0xa831c66d2db43210 w9 in
  let w10 := u64 (w10 + (sigma1 w8 + w3 + sigma0 w11)) in
  let '(b, f) := Round g h a b c d e f 0xb00327c898fb213f w10 in
  let w11 := u64 (w11 + (sigma1 w9 + w4 + sigma0 w12)) in
  let '(a, e) := Round f g h a b c d e 0xbf597fc7beef0ee4 w11 in
  let w12 := u64 (w12 + (sigma1 w10 + w5 + sigma0 w13)) in
  let '(h, d) := Round e f g h a b c d 0xc6e00bf33da88fc2 w12 in
  let w13 := u64 (w13 + (sigma1 w11 + w6 + sigma0 w14)) in
  let '(g, c) := Round d e f g h a b c 0xd5a79147930aa725 w13 in
  let w14 := u64 (w14 + (sigma1 w12 + w7 + sigma0 w15)) in
  let '(f, b) := Round c d e f g h a b 0x06ca6351e003826f w14 in
  let w15 := u64 (w15 + (sigma1 w13 + w8 + sigma0 w0)) in
  let '(e, a) := Round b c d e f g h a 0x142929670a0e6e70 w15 in
  ((a, b, c, d, e, f, g, h), (w0, w1, w2, w3, w4, w5, w6, w7, w8, w9, w10, w11, w12, w13, w14, w15)).

Definition Rounds2 (r : regs) (w : words) : regs * words :=
  let '(a, b, c, d, e, f, g, h) := r in
  let '(w0, w1, w2, w3, w4, w5, w6, w7, w8, w9, w10, w11, w12, w13, w14, w15) := w in
  let w0 := u64 (w0 + (sigma1 w14 + w9 + sigma0 w1)) in
  let '(d, h) := Round a b c d e f g h 0x27b70a8546d22ffc w0 in
  let w1 := u64 (w1 + (sigma1 w15 + w10 + sigma0 w2)) in
  let '(c, g) := Round h a b c d e f g 0x2e1b21385c26c926 w1 in
  let w2 := u64 (w2 + (sigma1 w0 + w11 + sigma0 w3)) in
  let '(b, f) := Round g h a b c d e f 0x4d2c6dfc5ac42aed w2 in
  let w3 := u64 (w3 + (sigma1 w1 + w12 + sigma0 w4)) in
  let '(a, e) := Round f g h a b c d e 0x53380d139d95b3df w3 in
  let w4 := u64 (w4 + (sigma1 w2 + w13 + sigma0 w5)) in
  let '(h, d) := Round e f g h a b c d 0x650a73548baf63de w4 in
  let w5 := u64 (w5 + (sigma1 w3 + w14 + sigma0 w6)) in
  let '(g, c) := Round d e f g h a b c 0x766a0abb3c77b2a8 w5 in
  let w6 := u64 (w6 + (sigma1 w4 + w15 + sigma0 w7)) in
  let '(f, b) := Round c d e f g h a b 0x81c2c92e47edaee6 w6 in
  let w7 := u64 (w7 + (sigma1 w5 + w0 + sigma0 w8)) in
  let '(e, a) := Round b c d e f g h a 0x92722c851482353b w7 in
  let w8 := u64 (w8 + (sigma1 w6 + w1 + sigma0 w9)) in
  let '(d, h) := Round a b c d e f g h 0xa2bfe8a14cf10364 w8 in
  let w9 := u64 (w9 + (sigma1 w7 + w2 + sigma0 w10)) in
  let '(c, g) := Round h a b c d e f g 0xa81a664bbc423001 w9 in
  let w10 := u64 (w10 + (sigma1 w8 + w3 + sigma0 w11)) in
  let '(b, f) := Round g h a b c d e f 0xc24b8b70d0f89791 w10 in
  let w11 := u64 (w11 + (sigma1 w9 + w4 + sigma0 w12)) in
  let '(a, e) := Round f g h a b c d e 0xc76c51a30654be30 w11 in
  let w12 := u64 (w12 + (sigma1 w10 + w5 + sigma0 w13)) in
  let '(h, d) := Round e f g h a b c d 0xd192e819d6ef5218 w12 in
  let w13 := u64 (w13 + (sigma1 w11 + w6 + sigma0 w14)) in
  let '(g, c) := Round d e f g h a b c 0xd69906245565a910 w13 in
  let w14 := u64 (w14 + (sigma1 w12 + w7 + sigma0 w15)) in
  let '(f, b) := Round c d e f g h a b 0xf40e35855771202a w14 in
  let w15 := u64 (w15 + (sigma1 w13 + w8 + sigma0 w0)) in
  let '(e, a) := Round b c d e f g h a 0x106aa07032bbd1b8 w15 in
  ((a, b, c, d, e, f, g, h), (w0, w1, w2, w3, w4, w5, w6, w7, w8, w9, w10, w11, w12, w13, w14, w15)).

Definition Rounds3 (r : regs) (w : words) : regs * words :=
  let '(a, b, c, d, e, f, g, h) := r in
  let '(w0, w1, w2, w3, w4, w5, w6, w7, w8, w9, w10, w11, w12, w13, w14, w15) := w in
  let w0 := u64 (w0 + (sigma1 w14 + w9 + sigma0 w1)) in
  let '(d, h) := Round a b c d e f g h 0x19a4c116b8d2d0c8 w0 in
  let w1 := u64 (w1 + (sigma1 w15 + w10 + sigma0 w2)) in
  let '(c, g) := Round h a b c d e f g 0x1e376c085141ab53 w1 in
  let w2 := u64 (w2 + (sigma1 w0 + w11 + sigma0 w3)) in
  let '(b, f) := Round g h a b c d e f 0x2748774cdf8eeb99 w2 in
  let w3 := u64 (w3 + (sigma1 w1 + w12 + sigma0 w4)) in
  let '(a, e) := Round f g h a b c d e 0x34b0bcb5e19b48a8 w3 in
  let w4 := u64 (w4 + (sigma1 w2 + w13 + sigma0 w5)) in
  let '(h, d) := Round e f g h a b c d 0x391c0cb3c5c95a63 w4 in
  let w5 := u64 (w5 + (sigma1 w3 + w14 + sigma0 w6)) in
  let '(g, c) := Round d e f g h a b c 0x4ed8aa4ae3418acb w5 in
  let w6 := u64 (w6 + (sigma1 w4 + w15 + sigma0 w7)) in
  let '(f, b) := Round c d e f g h a b 0x5b9cca4f7763e373 w6 in
  let w7 := u64 (w7 + (sigma1 w5 + w0 + sigma0 w8)) in
  let '(e, a) := Round b c d e f g h a 0x682e6ff3d6b2b8a3 w7 in
  let w8 := u64 (w8 + (sigma1 w6 + w1 + sigma0 w9)) in
  let '(d, h) := Round a b c d e f g h 0x748f82ee5defb2fc w8 in
  let w9 := u64 (w9 + (sigma1 w7 + w2 + sigma0 w10)) in
  let '(c, g) := Round h a b c d e f g 0x78a5636f43172f60 w9 in
  let w10 := u64 (w10 + (sigma1 w8 + w3 + sigma0 w11)) in
  let '(b, f) := Round g h a b c d e f 0x84c87814a1f0ab72 w10 in
  let w11 := u64 (w11 + (sigma1 w9 + w4 + sigma0 w12)) in
  let '(a, e) := Round f g h a b c d e 0x8cc702081a6439ec w11 in
  let w12 := u64 (w12 + (sigma1 w10 + w5 + sigma0 w13)) in
  let '(h, d) := Round e f g h a b c d 0x90befffa23631e28 w12 in
  let w13 := u64 (w13 + (sigma1 w11 + w6 + sigma0 w14)) in
  let '(g, c) := Round d e f g h a b c 0xa4506cebde82bde9 w13 in
  let w14 := u64 (w14 + (sigma1 w12 + w7 + sigma0 w15)) in
  let '(f, b) := Round c d e f g h a b 0xbef9a3f7b2c67915 w14 in
  let w15 := u64 (w15 + (sigma1 w13 + w8 + sigma0 w0)) in
  let '(e, a) := Round b c d e f g h a 0xc67178f2e372532b w15 in
  ((a, b, c, d, e, f, g, h), (w0, w1, w2, w3, w4, w5, w6, w7, w8, w9, w10, w11, w12, w13, w14, w15)).

Definition Rounds4 (r : regs) (w : words) : regs :=
  let '(a, b, c, d, e, f, g, h) := r in
  let '(w0, w1, w2, w3, w4, w5, w6, w7, w8, w9, w10, w11, w12, w13, w14, w15) := w in
  let w0 := u64 (w0 + (sigma1 w14 + w9 + sigma0 w1)) in
  let '(d, h) := Round a b c d e f g h 0xca273eceea26619c w0 in
  let w1 := u64 (w1 + (sigma1 w15 + w10 + sigma0 w2)) in
  let '(c, g) := Round h a b c d e f g 0xd186b8c721c0c207 w1 in
  let w2 := u64 (w2 + (sigma1 w0 + w11 + sigma0 w3)) in
  let '(b, f) := Round g h a b c d e f 0xeada7dd6cde0eb1e w2 in
  let w3 := u64 (w3 + (sigma1 w1 + w12 + sigma0 w4)) in
  let '(a, e) := Round f g h a b c d e 0xf57d4f7fee6ed178 w3 in
  let w4 := u64 (w4 + (sigma1 w2 + w13 + sigma0 w5)) in
  let '(h, d) := Round e f g h a b c d 0x06f067aa72176fba w4 in
  let w5 := u64 (w5 + (sigma1 w3 + w14 + sigma0 w6)) in
  let '(g, c) := Round d e f g h a b c 0x0a637dc5a2c898a6 w5 in
  let w6 := u64 (w6 + (sigma1 w4 + w15 + sigma0 w7)) in
  let '(f, b) := Round c d e f g h a b 0x113f9804bef90dae w6 in
  let w7 := u64 (w7 + (sigma1 w5 + w0 + sigma0 w8)) in
  let '(e, a) := Round b c d e f g h a 0x1b710b35131c471b w7 in
  let w8 := u64 (w8 + (sigma1 w6 + w1 + sigma0 w9)) in
  let '(d, h) := Round a b c d e f g h 0x28db77f523047d84 w8 in
  let w9 := u64 (w9 + (sigma1 w7 + w2 + sigma0 w10)) in
  let '(c, g) := Round h a b c d e f g 0x32caab7b40c72493 w9 in
  let w10 := u64 (w10 + (sigma1 w8 + w3 + sigma0 w11)) in
  let '(b, f) := Round g h a b c d e f 0x3c9ebe0a15c9bebc w10 in
  let w11 := u64 (w11 + (sigma1 w9 + w4 + sigma0 w12)) in
  let '(a, e) := Round f g h a b c d e 0x431d67c49c100d4c w11 in
  let w12 := u64 (w12 + (sigma1 w10 + w5 + sigma0 w13)) in
  let '(h, d) := Round e f g h a b c d 0x4cc5d4becb3e42b6 w12 in
  let w13 := u64 (w13 + (sigma1 w11 + w6 + sigma0 w14)) in
  let '(g, c) := Round d e f g h a b c 0x597f299cfc657e2a w13 in
  let '(f, b) := Round c d e f g h a b 0x5fcb6fab3ad6faec (u64 (w14 + sigma1 w12 + w7 + sigma0 w15)) in
  let '(e, a) := Round b c d e f g h a 0x6c44198c4a475817 (u64 (w15 + sigma1 w13 + w8 + sigma0 w0)) in
  (a, b, c, d, e, f, g, h).

Definition Transform512 (s chunk : list Z) : list Z :=
  let r := (aget s 0, aget s 1, aget s 2, aget s 3, aget s 4, aget s 5, aget s 6, aget s 7) in
  let '(r, w) := Rounds0 r chunk in
  let '(r, w) := Rounds1 r w in
  let '(r, w) := Rounds2 r w in
  let '(r, w) := Rounds3 r w in
  let '(a, b, c, d, e, f, g, h) := Rounds4 r w in
  [u64 (aget s 0 + a); u64 (aget s 1 + b); u64 (aget s 2 + c); u64 (aget s 3 + d);
   u64 (aget s 4 + e); u64 (aget s 5 + f); u64 (aget s 6 + g); u64 (aget s 7 + h)].

(** ** The reference: FIPS 180-4 *)

Definition ROTR (n x : Z) : Z := (x .>> n) .| u64 (x .<< (64 - n)).
Definition SHR (n x : Z) : Z := x .>> n.
Definition fips_Ch (x y z : Z) : Z := (x .& y) .^ Z.ldiff z x.
Definition fips_Maj (x y z : Z) : Z := (x .& y) .^ (x .& z) .^ (y .& z).
Definition fips_Sigma0 (x : Z) : Z := ROTR 28 x .^ ROTR 34 x .^ ROTR 39 x.
Definition fips_Sigma1 (x : Z) : Z := ROTR 14 x .^ ROTR 18 x .^ ROTR 41 x.
Definition fips_sigma0 (x : Z) : Z := ROTR 1 x .^ ROTR 8 x .^ SHR 7 x.
Definition fips_sigma1 (x : Z) : Z := ROTR 19 x .^ ROTR 61 x .^ SHR 6 x.

Definition fips_K : list Z := map (frac_cbrt 64) (take 80 (primes_below 410)).
Definition fips_H0 : list Z := map (frac_sqrt 64) (take 8 (primes_below 20)).

(** [W_t] from the sixteen words before it. *)
Definition fips_next (win : list Z) : Z :=
  u64 (fips_sigma1 (aget win 14) + aget win 9 + fips_sigma0 (aget win 1) + aget win 0).

Fixpoint fips_extend (n : nat) (win : list Z) : list Z :=
  match n with
  | O => []
  | S n => let w := fips_next win in w :: fips_extend n (tail win ++ [w])
  end.

Definition fips_message (chunk : list Z) : list Z :=
  map (fun i => be_word 8 (drop (i * 8) chunk)) (seq 0 16).

Definition fips_schedule (chunk : list Z) : list Z :=
  fips_message chunk ++ fips_extend 64 (fips_message chunk).

Definition fips_round (r : regs) (kw : Z * Z) : regs :=
  let '(a, b, c, d, e, f, g, h) := r in
  let T1 := u64 (h + fips_Sigma1 e + fips_Ch e f g + fst kw + snd kw) in
  let T2 := u64 (fips_Sigma0 a + fips_Maj a b c) in
  (u64 (T1 + T2), a, b, c, u64 (d + T1), e, f, g).

Definition fips_compress512 (s chunk : list Z) : list Z :=
  let '(a, b, c, d, e, f, g, h) :=
    fold_left fips_round (combine fips_K (fips_schedule chunk))
      (aget s 0, aget s 1, aget s 2, aget s 3, aget s 4, aget s 5, aget s 6, aget s 7) in
  [u64 (aget s 0 + a); u64 (aget s 1 + b); u64 (aget s 2 + c); u64 (aget s 3 + d);
   u64 (aget s 4 + e); u64 (aget s 5 + f); u64 (aget s 6 + g); u64 (aget s 7 + h)].

(** ** The unrolled code implements the reference *)

Definition code_message (chunk : list Z) : list Z :=
  map (fun i => ReadBE64 (drop (i * 8) chunk)) (seq 0 16).

Lemma fips_message512 chunk : fips_message chunk = code_message chunk.
Proof. unfold fips_message, code_message. apply map_ext. intros i. by rewrite <- ReadBE_word. Qed.

Lemma Ch_fips512 x y z : Ch x y z = fips_Ch x y z.
Proof. apply bitwise_ch. Qed.
Lemma Maj_fips512 x y z : Maj x y z = fips_Maj x y z.
Proof. apply bitwise_maj. Qed.

Lemma Round_fips512 a b c d e f g h k w :
  fips_round (a, b, c, d, e, f, g, h) (k, w) =
  let '(d', h') := Round a b c d e f g h k w in (h', a, b, c, d', e, f, g).
Proof. unfold fips_round, Round. by rewrite <- Ch_fips512, <- Maj_fips512. Qed.

(** One round of the first sixteen, whose word is read from the chunk. *)
Lemma read_step512 k ks w ws a b c d e f g h :
  fold_left fips_round (combine (k :: ks) (w :: ws)) (a, b, c, d, e, f, g, h) =
  let '(d', h') := Round a b c d e f g h k w in
  fold_left fips_round (combine ks ws) (h', a, b, c, d', e, f, g).
Proof. cbn [combine fold_left]. rewrite Round_fips512. by destruct (Round _ _ _ _ _ _ _ _ _ _). Qed.

(** One later round, whose word extends the schedule. *)
Lemma extend_step512 k ks n w0 w1 w2 w3 w4 w5 w6 w7 w8 w9 w10 w11 w12 w13 w14 w15 a b c d e f g h :
  fold_left fips_round
    (combine (k :: ks)
       (fips_extend (S n) [w0; w1; w2; w3; w4; w5; w6; w7; w8; w9; w10; w11; w12; w13; w14; w15]))
    (a, b, c, d, e, f, g, h) =
  let '(d', h') := Round a b c d e f g h k (u64 (w0 + (sigma1 w14 + w9 + sigma0 w1))) in
  fold_left fips_round
    (combine ks (fips_extend n [w1; w2; w3; w4; w5; w6; w7; w8; w9; w10; w11; w12; w13; w14; w15;
                                u64 (w0 + (sigma1 w14 + w9 + sigma0 w1))]))
    (h', a, b, c, d', e, f, g).
Proof.
  cbn [fips_extend tail app]. unfold fips_next, aget. cbn [nth].
  change fips_sigma1 with sigma1; change fips_sigma0 with sigma0.
  rewrite (Z.add_comm _ w0). apply read_step512.
Qed.

Lemma last_word512 a b c d : u64 (a + b + c + d) = u64 (a + (b + c + d)).
Proof. f_equal. lia. Qed.

Definition words_list (w : words) : list Z :=
  let '(w0, w1, w2, w3, w4, w5, w6, w7, w8, w9, w10, w11, w12, w13, w14, w15) := w in
  [w0; w1; w2; w3; w4; w5; w6; w7; w8; w9; w10; w11; w12; w13; w14; w15].

Lemma fips_K_values512 : fips_K =
  [0x428a2f98d728ae22; 0x7137449123ef65cd; 0xb5c0fbcfec4d3b2f; 0xe9b5dba58189dbbc;
     0x3956c25bf348b538; 0x59f111f1b605d019; 0x923f82a4af194f9b; 0xab1c5ed5da6d8118;
     0xd807aa98a3030242; 0x12835b0145706fbe; 0x243185be4ee4b28c; 0x550c7dc3d5ffb4e2;
     0x72be5d74f27b896f; 0x80deb1fe3b1696b1; 0x9bdc06a725c71235; 0xc19bf174cf692694] ++
  [0xe49b69c19ef14ad2; 0xefbe4786384f25e3; 0x0fc19dc68b8cd5b5; 0x240ca1cc77ac9c65;
     0x2de92c6f592b0275; 0x4a7484aa6ea6e483; 0x5cb0a9dcbd41fbd4; 0x76f988da831153b5;
     0x983e5152ee66dfab; 0xa831c66d2db43210; 0xb00327c898fb213f; 0xbf597fc7beef0ee4;
     0xc6e00bf33da88fc2; 0xd5a79147930aa725; 0x06ca6351e003826f; 0x142929670a0e6e70] ++
  [0x27b70a8546d22ffc; 0x2e1b21385c26c926; 0x4d2c6dfc5ac42aed; 0x53380d139d95b3df;
     0x650a73548baf63de; 0x766a0abb3c77b2a8; 0x81c2c92e47edaee6; 0x92722c851482353b;
     0xa2bfe8a14cf10364; 0xa81a664bbc423001; 0xc24b8b70d0f89791; 0xc76c51a30654be30;
     0xd192e819d6ef5218; 0xd69906245565a910; 0xf40e35855771202a; 0x106aa07032bbd1b8] ++
  [0x19a4c116b8d2d0c8; 0x1e376c085141ab53; 0x2748774cdf8eeb99; 0x34b0bcb5e19b48a8;
     0x391c0cb3c5c95a63; 0x4ed8aa4ae3418acb; 0x5b9cca4f7763e373; 0x682e6ff3d6b2b8a3;
     0x748f82ee5defb2fc; 0x78a5636f43172f60; 0x84c87814a1f0ab72; 0x8cc702081a6439ec;
     0x90befffa23631e28; 0xa4506cebde82bde9; 0xbef9a3f7b2c67915; 0xc67178f2e372532b] ++
  [0xca273eceea26619c; 0xd186b8c721c0c207; 0xeada7dd6cde0eb1e; 0xf57d4f7fee6ed178;
     0x06f067aa72176fba; 0x0a637dc5a2c898a6; 0x113f9804bef90dae; 0x1b710b35131c471b;
     0x28db77f523047d84; 0x32caab7b40c72493; 0x3c9ebe0a15c9bebc; 0x431d67c49c100d4c;
     0x4cc5d4becb3e42b6; 0x597f299cfc657e2a; 0x5fcb6fab3ad6faec; 0x6c44198c4a475817].
Proof. vm_compute. reflexivity. Qed.

(** Runs one round on both sides: the word of the round, which is the same term
    in the code and in the reference, becomes a variable, and so do the two
    registers [Round] writes. *)
Ltac round_step512 :=
  first [rewrite read_step512 | rewrite extend_step512];
  try rewrite last_word512;
  try lazymatch goal with
  | |- (let x := ?v in @?B x) = _ -> _ =>
      generalize v; let w := fresh "w" in intros w;
      lazymatch goal with |- (let x := ?v in @?B x) = ?X -> ?C =>
        let y := eval cbv beta in (B v) in change (y = X -> C) end
  end;
  lazymatch goal with
  | |- context [Round ?a ?b ?c ?d ?e ?f ?g ?h ?k ?w] =>
      let d' := fresh "d" in let h' := fresh "h" in
      generalize (Round a b c d e f g h k w); intros [d' h']; cbv beta iota
  end.

Lemma group512_0 r chunk r' w' ks ws :
  Rounds0 r chunk = (r', w') ->
  fold_left fips_round (combine (
    [0x428a2f98d728ae22; 0x7137449123ef65cd; 0xb5c0fbcfec4d3b2f; 0xe9b5dba58189dbbc;
     0x3956c25bf348b538; 0x59f111f1b605d019; 0x923f82a4af194f9b; 0xab1c5ed5da6d8118;
     0xd807aa98a3030242; 0x12835b0145706fbe; 0x243185be4ee4b28c; 0x550c7dc3d5ffb4e2;
     0x72be5d74f27b896f; 0x80deb1fe3b1696b1; 0x9bdc06a725c71235; 0xc19bf174cf692694] ++ ks) (code_message chunk ++ ws)) r =
  fold_left fips_round (combine ks ws) r' /\ code_message chunk = words_list w'.
Proof.
  revert r. intros [[[[[[[a b] c] d] e] f] g] h].
  cbv beta iota delta [Rounds0 code_message map seq app Nat.mul Nat.add].
  do 16 round_step512. intros [= <- <-]. done.
Qed.

Lemma group512_1 r w r' w' ks n :
  Rounds1 r w = (r', w') ->
  fold_left fips_round (combine (
    [0xe49b69c19ef14ad2; 0xefbe4786384f25e3; 0x0fc19dc68b8cd5b5; 0x240ca1cc77ac9c65;
     0x2de92c6f592b0275; 0x4a7484aa6ea6e483; 0x5cb0a9dcbd41fbd4; 0x76f988da831153b5;
     0x983e5152ee66dfab; 0xa831c66d2db43210; 0xb00327c898fb213f; 0xbf597fc7beef0ee4;
     0xc6e00bf33da88fc2; 0xd5a79147930aa725; 0x06ca6351e003826f; 0x142929670a0e6e70] ++ ks) (fips_extend (16 + n) (words_list w))) r =
  fold_left fips_round (combine ks (fips_extend n (words_list w'))) r'.
Proof.
  revert r w. intros [[[[[[[a b] c] d] e] f] g] h].
  intros [[[[[[[[[[[[[[[w0 w1] w2] w3] w4] w5] w6] w7] w8] w9] w10] w11] w12] w13] w14] w15].
  cbv beta iota delta [Rounds1 words_list app Nat.add].
  do 16 round_step512. intros [= <- <-]. done.
Qed.

Lemma group512_2 r w r' w' ks n :
  Rounds2 r w = (r', w') ->
  fold_left fips_round (combine (
    [0x27b70a8546d22ffc; 0x2e1b21385c26c926; 0x4d2c6dfc5ac42aed; 0x53380d139d95b3df;
     0x650a73548baf63de; 0x766a0abb3c77b2a8; 0x81c2c92e47edaee6; 0x92722c851482353b;
     0xa2bfe8a14cf10364; 0xa81a664bbc423001; 0xc24b8b70d0f89791; 0xc76c51a30654be30;
     0xd192e819d6ef5218; 0xd69906245565a910; 0xf40e35855771202a; 0x106aa07032bbd1b8] ++ ks) (fips_extend (16 + n) (words_list w))) r =
  fold_left fips_round (combine ks (fips_extend n (words_list w'))) r'.
Proof.
  revert r w. intros [[[[[[[a b] c] d] e] f] g] h].
  intros [[[[[[[[[[[[[[[w0 w1] w2] w3] w4] w5] w6] w7] w8] w9] w10] w11] w12] w13] w14] w15].
  cbv beta iota delta [Rounds2 words_list app Nat.add].
  do 16 round_step512. intros [= <- <-]. done.
Qed.

Lemma group512_3 r w r' w' ks n :
  Rounds3 r w = (r', w') ->
  fold_left fips_round (combine (
    [0x19a4c116b8d2d0c8; 0x1e376c085141ab53; 0x2748774cdf8eeb99; 0x34b0bcb5e19b48a8;
     0x391c0cb3c5c95a63; 0x4ed8aa4ae3418acb; 0x5b9cca4f7763e373; 0x682e6ff3d6b2b8a3;
     0x748f82ee5defb2fc; 0x78a5636f43172f60; 0x84c87814a1f0ab72; 0x8cc702081a6439ec;
     0x90befffa23631e28; 0xa4506cebde82bde9; 0xbef9a3f7b2c67915; 0xc67178f2e372532b] ++ ks) (fips_extend (16 + n) (words_list w))) r =
  fold_left fips_round (combine ks (fips_extend n (words_list w'))) r'.
Proof.
  revert r w. intros [[[[[[[a b] c] d] e] f] g] h].
  intros [[[[[[[[[[[[[[[w0 w1] w2] w3] w4] w5] w6] w7] w8] w9] w10] w11] w12] w13] w14] w15].
  cbv beta iota delta [Rounds3 words_list app Nat.add].
  do 16 round_step512. intros [= <- <-]. done.
Qed.

Lemma group512_4 r w r' :
  Rounds4 r w = r' ->
  fold_left fips_round (combine
    [0xca273eceea26619c; 0xd186b8c721c0c207; 0xeada7dd6cde0eb1e; 0xf57d4f7fee6ed178;
     0x06f067aa72176fba; 0x0a637dc5a2c898a6; 0x113f9804bef90dae; 0x1b710b35131c471b;
     0x28db77f523047d84; 0x32caab7b40c72493; 0x3c9ebe0a15c9bebc; 0x431d67c49c100d4c;
     0x4cc5d4becb3e42b6; 0x597f299cfc657e2a; 0x5fcb6fab3ad6faec; 0x6c44198c4a475817] (fips_extend 16 (words_list w))) r = r'.
Proof.
  revert r w. intros [[[[[[[a b] c] d] e] f] g] h].
  intros [[[[[[[[[[[[[[[w0 w1] w2] w3] w4] w5] w6] w7] w8] w9] w10] w11] w12] w13] w14] w15].
  cbv beta iota delta [Rounds4 words_list app Nat.add].
  do 16 round_step512. intros <-. done.
Qed.

Lemma Transform512_unroll s chunk : Transform512 s chunk = fips_compress512 s chunk.
Proof.
  unfold Transform512, fips_compress512, fips_schedule. rewrite fips_message512, fips_K_values512.
  destruct (Rounds0 _ chunk) as [r0 w0] eqn:E0.
  lazymatch goal with |- context [combine (_ ++ ?ks) (_ ++ ?ws)] =>
    destruct (group512_0 _ _ _ _ ks ws E0) as [-> ->] end.
  destruct (Rounds1 r0 w0) as [r1 w1] eqn:E1.
  destruct (Rounds2 r1 w1) as [r2 w2] eqn:E2.
  destruct (Rounds3 r2 w2) as [r3 w3] eqn:E3.
  change 64%nat with (16 + 48)%nat. rewrite (group512_1 _ _ _ _ _ _ E1).
  change 48%nat with (16 + 32)%nat. rewrite (group512_2 _ _ _ _ _ _ E2).
  change 32%nat with (16 + 16)%nat. rewrite (group512_3 _ _ _ _ _ _ E3).
  by rewrite (group512_4 _ _ _ eq_refl).
Qed.

(** ** The hasher *)

Definition CSHA512 : HashAlgo :=
  {| blockSize := 128;
     Initialize := Initialize512;
     Transform := Transform512;
     padConst := 239;
     sizedesc bits := replicate 8 0 ++ WriteBE64 bits;
     digest s :=
       WriteBE64 (aget s 0) ++ WriteBE64 (aget s 1) ++ WriteBE64 (aget s 2) ++ WriteBE64 (aget s 3) ++
       WriteBE64 (aget s 4) ++ WriteBE64 (aget s 5) ++ WriteBE64 (aget s 6) ++ WriteBE64 (aget s 7) |}.

(** The methods of the class. *)
Definition CSHA512_new : list Z -> CHasher := @construct CSHA512.
Definition CSHA512_Write : CHasher -> list Z -> CHasher := @Write CSHA512.
Definition CSHA512_Finalize : CHasher -> list Z := @Finalize CSHA512.
Definition CSHA512_Reset : CHasher -> CHasher := @Reset CSHA512.

#[export] Instance CSHA512_laws : HashAlgoLaws CSHA512.
Proof.
  split; cbn; [lia|by exists (2 ^ 57)|done|lia].
Qed.

Lemma length_digest512 s : length (@digest CSHA512 s) = 64%nat.
Proof. done. Qed.

(** SHA-512 as FIPS 180-4 defines it, of a whole message. *)
Definition fips_sha512 : list Z -> list Z :=
  fips_hash 128 16 be_digits 8 8 fips_H0 fips_compress512.

(** The code writes the length with eight bytes and leaves the eight before
    them zero, which is right below [2^64] bits. *)
Lemma length_field512 x : 0 <= x < 2 ^ 64 -> replicate 8 0 ++ WriteBE64 (u64 x) = be_digits 16 x.
Proof.
  intros Hx. unfold WriteBE64. rewrite be_bytes_digits, u64_id by done.
  unfold be_digits. change (seq 0 16) with (seq 0 8 ++ map (Nat.add 8) (seq 0 8)).
  rewrite map_app, map_map. f_equal. cbn [seq map replicate Nat.sub].
  assert (forall k, 8 <= k -> x / 256 ^ k mod 256 = 0) as E; [|by rewrite !E by lia].
  intros k Hk. rewrite Z.div_small; [done|]. split; [lia|]. eapply Z.lt_le_trans; [apply Hx|].
  change (2 ^ 64) with (256 ^ 8). by apply Z.pow_le_mono_r.
Qed.

Lemma CSHA512_md msg :
  Z.of_nat (length msg) < 2 ^ 61 -> @md_hash CSHA512 msg = fips_sha512 msg.
Proof.
  intros Hl. apply (md_hash_standard CSHA512);
    [apply blockSize_pos|vm_compute; reflexivity|apply Transform512_unroll|done|apply length_field512; lia|].
  intros s. cbn [digest CSHA512 seq flat_map]. unfold WriteBE64. by rewrite !be_bytes_digits, app_nil_r.
Qed.

(** [CSHA512().Write(data, len).Finalize(hash)] on a fresh hasher. *)
Definition sha512 (data : list Z) : list Z :=
  @Finalize CSHA512 (@Write CSHA512 (@construct CSHA512 (replicate 128 0)) data).

Lemma sha512_correct data :
  Z.of_nat (length data) < 2 ^ 61 -> sha512 data = fips_sha512 data.
Proof.
  intros Hl. unfold sha512. destruct (Finalize_writes (H := CSHA512) (replicate 128 0) [data] [] eq_refl) as [E _].
  cbn [fold_left concat] in E. rewrite app_nil_r in E. by rewrite <- CSHA512_md.
Qed.

Lemma length_sha512 data : length (sha512 data) = 64%nat.
Proof. done. Qed.

(** The streaming hasher [CSHA512], whatever its indeterminate buffer holds,
    however the message is cut into [Write] calls and whatever was hashed before
    a [Reset], returns the SHA-512 digest of FIPS 180-4 of the concatenation of
    what was written, up to [2^61] bytes: the 80 unrolled, register-renamed rounds are the
    schedule and rounds of the standard, with constants the code's tables give
    exactly as the fractional parts of roots of primes. *)
Theorem CSHA512_is_FIPS (buf : list Z) (before chunks : list (list Z)) :
  length buf = 128%nat -> Z.of_nat (length (concat chunks)) < 2 ^ 61 ->
  CSHA512_Finalize (fold_left CSHA512_Write chunks (CSHA512_new buf)) = fips_sha512 (concat chunks) /\
  CSHA512_Finalize (fold_left CSHA512_Write chunks
    (CSHA512_Reset (fold_left CSHA512_Write before (CSHA512_new buf)))) = fips_sha512 (concat chunks).
Proof.
  intros Hb Hl. rewrite <- CSHA512_md by done. split.
  - by apply (Finalize_writes (H := CSHA512) buf chunks []).
  - by apply (Finalize_writes (H := CSHA512) buf before chunks).
Qed.

(** The digest of "abc", written byte by byte. *)
Lemma CSHA512_is_FIPS_witness :
  CSHA512_Finalize (fold_left CSHA512_Write [[0x61]; [0x62]; [0x63]] (CSHA512_new (replicate 128 7)))
    = fips_sha512 [0x61; 0x62; 0x63] /\
  fips_sha512 [0x61; 0x62; 0x63] =
    [0xdd; 0xaf; 0x35; 0xa1; 0x93; 0x61; 0x7a; 0xba; 0xcc; 0x41; 0x73; 0x49; 0xae; 0x20; 0x41; 0x31; 0x12; 0xe6; 0xfa; 0x4e; 0x89; 0xa9; 0x7e; 0xa2; 0xa; 0x9e; 0xee; 0xe6; 0x4b; 0x55; 0xd3; 0x9a; 0x21; 0x92; 0x99; 0x2a; 0x27; 0x4f; 0xc1; 0xa8; 0x36; 0xba; 0x3c; 0x23; 0xa3; 0xfe; 0xeb; 0xbd; 0x45; 0x4d; 0x44; 0x23; 0x64; 0x3c; 0xe8; 0xe; 0x2a; 0x9a; 0xc9; 0x4f; 0xa5; 0x4c; 0xa4; 0x9f].
Proof.
  split; [exact (proj1 (CSHA512_is_FIPS (replicate 128 7) [] [[0x61]; [0x62]; [0x63]] eq_refl eq_refl))|].
  vm_compute. reflexivity.
Defined.
