(* ===== verification/Sha1.v ===== *)
(** * SHA-1 (src/src/crypto/sha1.cpp)

    The unrolled compression function of the source, the reference of FIPS 180-4
    (message schedule, then eighty rounds) and the proof that they agree;
    [CSHA1] plugs it into the streaming engine. *)

From S2P Require Import Prelude Bytes Fips180 HashEngine.
Local Open Scope cxx_scope.

(** ** The code *)

(** [Round] updates [b] and [e] in place: it returns their new values. *)
Definition Round (a b c d e f k w : Z) : Z * Z :=
  let e := u32 (e + ((u32 (a .<< 5) .| (a .>> 27)) + f + k + w)) in
  let b := u32 (b .<< 30) .| (b .>> 2) in
  (b, e).

Definition f1 (b c d : Z) : Z := d .^ (b .& (c .^ d)).
Definition f2 (b c d : Z) : Z := b .^ c .^ d.
Definition f3 (b c d : Z) : Z := (b .& c) .| (d .& (b .| c)).

Definition left (x : Z) : Z := u32 (x .<< 1) .| (x .>> 31).

Definition Initialize1 : list Z := [0x67452301; 0xEFCDAB89; 0x98BADCFE; 0x10325476; 0xC3D2E1F0].

Definition k1 : Z := 0x5A827999.
Definition k2 : Z := 0x6ED9EBA1.
Definition k3 : Z := 0x8F1BBCDC.
Definition k4 : Z := 0xCA62C1D6.

Definition regs : Type := (Z * Z * Z * Z * Z)%type.
Definition words : Type := (Z * Z * Z * Z * Z * Z * Z * Z * Z * Z * Z * Z * Z * Z * Z * Z)%type.

(** The rounds, in the groups of sixteen the source lays them out in. *)
Definition Rounds0 (r : regs) (chunk : list Z) : regs * words :=
  let '(a, b, c, d, e) := r in
  let w0 := ReadBE32 (drop 0 chunk) in
  let '(b, e) := Round a b c d e (f1 b c d) k1 w0 in
  let w1 := ReadBE32 (drop 4 chunk) in
  let '(a, d) := Round e a b c d (f1 a b c) k1 w1 in
  let w2 := ReadBE32 (drop 8 chunk) in
  let '(e, c) := Round d e a b c (f1 e a b) k1 w2 in
  let w3 := ReadBE32 (drop 12 chunk) in
  let '(d, b) := Round c d e a b (f1 d e a) k1 w3 in
  let w4 := ReadBE32 (drop 16 chunk) in
  let '(c, a) := Round b c d e a (f1 c d e) k1 w4 in
  let w5 := ReadBE32 (drop 20 chunk) in
  let '(b, e) := Round a b c d e (f1 b c d) k1 w5 in
  let w6 := ReadBE32 (drop 24 chunk) in
  let '(a, d) := Round e a b c d (f1 a b c) k1 w6 in
  let w7 := ReadBE32 (drop 28 chunk) in
  let '(e, c) := Round d e a b c (f1 e a b) k1 w7 in
  let w8 := ReadBE32 (drop 32 chunk) in
  let '(d, b) := Round c d e a b (f1 d e a) k1 w8 in
  let w9 := ReadBE32 (drop 36 chunk) in
  let '(c, a) := Round b c d e a (f1 c d e) k1 w9 in
  let w10 := ReadBE32 (drop 40 chunk) in
  let '(b, e) := Round a b c d e (f1 b c d) k1 w10 in
  let w11 := ReadBE32 (drop 44 chunk) in
  let '(a, d) := Round e a b c d (f1 a b c) k1 w11 in
  let w12 := ReadBE32 (drop 48 chunk) in
  let '(e, c) := Round d e a b c (f1 e a b) k1 w12 in
  let w13 := ReadBE32 (drop 52 chunk) in
  let '(d, b) := Round c d e a b (f1 d e a) k1 w13 in
  let w14 := ReadBE32 (drop 56 chunk) in
  let '(c, a) := Round b c d e a (f1 c d e) k1 w14 in
  let w15 := ReadBE32 (drop 60 chunk) in
  let '(b, e) := Round a b c d e (f1 b c d) k1 w15 in
  ((a, b, c, d, e), (w0, w1, w2, w3, w4, w5, w6, w7, w8, w9, w10, w11, w12, w13, w14, w15)).

Definition Rounds1 (r : regs) (w : words) : regs * words :=
  let '(a, b, c, d, e) := r in
  let '(w0, w1, w2, w3, w4, w5, w6, w7, w8, w9, w10, w11, w12, w13, w14, w15) := w in
  let w0 := left (w0 .^ w13 .^ w8 .^ w2) in
  let '(a, d) := Round e a b c d (f1 a b c) k1 w0 in
  let w1 := left (w1 .^ w14 .^ w9 .^ w3) in
  let '(e, c) := Round d e a b c (f1 e a b) k1 w1 in
  let w2 := left (w2 .^ w15 .^ w10 .^ w4) in
  let '(d, b) := Round c d e a b (f1 d e a) k1 w2 in
  let w3 := left (w3 .^ w0 .^ w11 .^ w5) in
  let '(c, a) := Round b c d e a (f1 c d e) k1 w3 in
  let w4 := left (w4 .^ w1 .^ w12 .^ w6) in
  let '(b, e) := Round a b c d e (f2 b c d) k2 w4 in
  let w5 := left (w5 .^ w2 .^ w13 .^ w7) in
  let '(a, d) := Round e a b c d (f2 a b c) k2 w5 in
  let w6 := left (w6 .^ w3 .^ w14 .^ w8) in
  let '(e, c) := Round d e a b c (f2 e a b) k2 w6 in
  let w7 := left (w7 .^ w4 .^ w15 .^ w9) in
  let '(d, b) := Round c d e a b (f2 d e a) k2 w7 in
  let w8 := left (w8 .^ w5 .^ w0 .^ w10) in
  let '(c, a) := Round b c d e a (f2 c d e) k2 w8 in
  let w9 := left (w9 .^ w6 .^ w1 .^ w11) in
  let '(b, e) := Round a b c d e (f2 b c d) k2 w9 in
  let w10 := left (w10 .^ w7 .^ w2 .^ w12) in
  let '(a, d) := Round e a b c d (f2 a b c) k2 w10 in
  let w11 := left (w11 .^ w8 .^ w3 .^ w13) in
  let '(e, c) := Round d e a b c (f2 e a b) k2 w11 in
  let w12 := left (w12 .^ w9 .^ w4 .^ w14) in
  let '(d, b) := Round c d e a b (f2 d e a) k2 w12 in
  let w13 := left (w13 .^ w10 .^ w5 .^ w15) in
  let '(c, a) := Round b c d e a (f2 c d e) k2 w13 in
  let w14 := left (w14 .^ w11 .^ w6 .^ w0) in
  let '(b, e) := Round a b c d e (f2 b c d) k2 w14 in
  let w15 := left (w15 .^ w12 .^ w7 .^ w1) in
  let '(a, d) := Round e a b c d (f2 a b c) k2 w15 in
  ((a, b, c, d, e), (w0, w1, w2, w3, w4, w5, w6, w7, w8, w9, w10, w11, w12, w13, w14, w15)).

Definition Rounds2 (r : regs) (w : words) : regs * words :=
  let '(a, b, c, d, e) := r in
  let '(w0, w1, w2, w3, w4, w5, w6, w7, w8, w9, w10, w11, w12, w13, w14, w15) := w in
  let w0 := left (w0 .^ w13 .^ w8 .^ w2) in
  let '(e, c) := Round d e a b c (f2 e a b) k2 w0 in
  let w1 := left (w1 .^ w14 .^ w9 .^ w3) in
  let '(d, b) := Round c d e a b (f2 d e a) k2 w1 in
  let w2 := left (w2 .^ w15 .^ w10 .^ w4) in
  let '(c, a) := Round b c d e a (f2 c d e) k2 w2 in
  let w3 := left (w3 .^ w0 .^ w11 .^ w5) in
  let '(b, e) := Round a b c d e (f2 b c d) k2 w3 in
  let w4 := left (w4 .^ w1 .^ w12 .^ w6) in
  let '(a, d) := Round e a b c d (f2 a b c) k2 w4 in
  let w5 := left (w5 .^ w2 .^ w13 .^ w7) in
  let '(e, c) := Round d e a b c (f2 e a b) k2 w5 in
  let w6 := left (w6 .^ w3 .^ w14 .^ w8) in
  let '(d, b) := Round c d e a b (f2 d e a) k2 w6 in
  let w7 := left (w7 .^ w4 .^ w15 .^ w9) in
  let '(c, a) := Round b c d e a (f2 c d e) k2 w7 in
  let w8 := left (w8 .^ w5 .^ w0 .^ w10) in
  let '(b, e) := Round a b c d e (f3 b c d) k3 w8 in
  let w9 := left (w9 .^ w6 .^ w1 .^ w11) in
  let '(a, d) := Round e a b c d (f3 a b c) k3 w9 in
  let w10 := left (w10 .^ w7 .^ w2 .^ w12) in
  let '(e, c) := Round d e a b c (f3 e a b) k3 w10 in
  let w11 := left (w11 .^ w8 .^ w3 .^ w13) in
  let '(d, b) := Round c d e a b (f3 d e a) k3 w11 in
  let w12 := left (w12 .^ w9 .^ w4 .^ w14) in
  let '(c, a) := Round b c d e a (f3 c d e) k3 w12 in
  let w13 := left (w13 .^ w10 .^ w5 .^ w15) in
  let '(b, e) := Round a b c d e (f3 b c d) k3 w13 in
  let w14 := left (w14 .^ w11 .^ w6 .^ w0) in
  let '(a, d) := Round e a b c d (f3 a b c) k3 w14 in
  let w15 := left (w15 .^ w12 .^ w7 .^ w1) in
  let '(e, c) := Round d e a b c (f3 e a b) k3 w15 in
  ((a, b, c, d, e), (w0, w1, w2, w3, w4, w5, w6, w7, w8, w9, w10, w11, w12, w13, w14, w15)).

Definition Rounds3 (r : regs) (w : words) : regs * words :=
  let '(a, b, c, d, e) := r in
  let '(w0, w1, w2, w3, w4, w5, w6, w7, w8, w9, w10, w11, w12, w13, w14, w15) := w in
  let w0 := left (w0 .^ w13 .^ w8 .^ w2) in
  let '(d, b) := Round c d e a b (f3 d e a) k3 w0 in
  let w1 := left (w1 .^ w14 .^ w9 .^ w3) in
  let '(c, a) := Round b c d e a (f3 c d e) k3 w1 in
  let w2 := left (w2 .^ w15 .^ w10 .^ w4) in
  let '(b, e) := Round a b c d e (f3 b c d) k3 w2 in
  let w3 := left (w3 .^ w0 .^ w11 .^ w5) in
  let '(a, d) := Round e a b c d (f3 a b c) k3 w3 in
  let w4 := left (w4 .^ w1 .^ w12 .^ w6) in
  let '(e, c) := Round d e a b c (f3 e a b) k3 w4 in
  let w5 := left (w5 .^ w2 .^ w13 .^ w7) in
  let '(d, b) := Round c d e a b (f3 d e a) k3 w5 in
  let w6 := left (w6 .^ w3 .^ w14 .^ w8) in
  let '(c, a) := Round b c d e a (f3 c d e) k3 w6 in
  let w7 := left (w7 .^ w4 .^ w15 .^ w9) in
  let '(b, e) := Round a b c d e (f3 b c d) k3 w7 in
  let w8 := left (w8 .^ w5 .^ w0 .^ w10) in
  let '(a, d) := Round e a b c d (f3 a b c) k3 w8 in
  let w9 := left (w9 .^ w6 .^ w1 .^ w11) in
  let '(e, c) := Round d e a b c (f3 e a b) k3 w9 in
  let w10 := left (w10 .^ w7 .^ w2 .^ w12) in
  let '(d, b) := Round c d e a b (f3 d e a) k3 w10 in
  let w11 := left (w11 .^ w8 .^ w3 .^ w13) in
  let '(c, a) := Round b c d e a (f3 c d e) k3 w11 in
  let w12 := left (w12 .^ w9 .^ w4 .^ w14) in
  let '(b, e) := Round a b c d e (f2 b c d) k4 w12 in
  let w13 := left (w13 .^ w10 .^ w5 .^ w15) in
  let '(a, d) := Round e a b c d (f2 a b c) k4 w13 in
  let w14 := left (w14 .^ w11 .^ w6 .^ w0) in
  let '(e, c) := Round d e a b c (f2 e a b) k4 w14 in
  let w15 := left (w15 .^ w12 .^ w7 .^ w1) in
  let '(d, b) := Round c d e a b (f2 d e a) k4 w15 in
  ((a, b, c, d, e), (w0, w1, w2, w3, w4, w5, w6, w7, w8, w9, w10, w11, w12, w13, w14, w15)).

Definition Rounds4 (r : regs) (w : words) : regs :=
  let '(a, b, c, d, e) := r in
  let '(w0, w1, w2, w3, w4, w5, w6, w7, w8, w9, w10, w11, w12, w13, w14, w15) := w in
  let w0 := left (w0 .^ w13 .^ w8 .^ w2) in
  let '(c, a) := Round b c d e a (f2 c d e) k4 w0 in
  let w1 := left (w1 .^ w14 .^ w9 .^ w3) in
  let '(b, e) := Round a b c d e (f2 b c d) k4 w1 in
  let w2 := left (w2 .^ w15 .^ w10 .^ w4) in
  let '(a, d) := Round e a b c d (f2 a b c) k4 w2 in
  let w3 := left (w3 .^ w0 .^ w11 .^ w5) in
  let '(e, c) := Round d e a b c (f2 e a b) k4 w3 in
  let w4 := left (w4 .^ w1 .^ w12 .^ w6) in
  let '(d, b) := Round c d e a b (f2 d e a) k4 w4 in
  let w5 := left (w5 .^ w2 .^ w13 .^ w7) in
  let '(c, a) := Round b c d e a (f2 c d e) k4 w5 in
  let w6 := left (w6 .^ w3 .^ w14 .^ w8) in
  let '(b, e) := Round a b c d e (f2 b c d) k4 w6 in
  let w7 := left (w7 .^ w4 .^ w15 .^ w9) in
  let '(a, d) := Round e a b c d (f2 a b c) k4 w7 in
  let w8 := left (w8 .^ w5 .^ w0 .^ w10) in
  let '(e, c) := Round d e a b c (f2 e a b) k4 w8 in
  let w9 := left (w9 .^ w6 .^ w1 .^ w11) in
  let '(d, b) := Round c d e a b (f2 d e a) k4 w9 in
  let w10 := left (w10 .^ w7 .^ w2 .^ w12) in
  let '(c, a) := Round b c d e a (f2 c d e) k4 w10 in
  let w11 := left (w11 .^ w8 .^ w3 .^ w13) in
  let '(b, e) := Round a b c d e (f2 b c d) k4 w11 in
  let w12 := left (w12 .^ w9 .^ w4 .^ w14) in
  let '(a, d) := Round e a b c d (f2 a b c) k4 w12 in
  let '(e, c) := Round d e a b c (f2 e a b) k4 (left (w13 .^ w10 .^ w5 .^ w15)) in
  let '(d, b) := Round c d e a b (f2 d e a) k4 (left (w14 .^ w11 .^ w6 .^ w0)) in
  let '(c, a) := Round b c d e a (f2 c d e) k4 (left (w15 .^ w12 .^ w7 .^ w1)) in
  (a, b, c, d, e).

Definition Transform1 (s chunk : list Z) : list Z :=
  let r := (aget s 0, aget s 1, aget s 2, aget s 3, aget s 4) in
  let '(r, w) := Rounds0 r chunk in
  let '(r, w) := Rounds1 r w in
  let '(r, w) := Rounds2 r w in
  let '(r, w) := Rounds3 r w in
  let '(a, b, c, d, e) := Rounds4 r w in
  [u32 (aget s 0 + a); u32 (aget s 1 + b); u32 (aget s 2 + c); u32 (aget s 3 + d); u32 (aget s 4 + e)].

(** ** The reference: FIPS 180-4 *)

Definition ROTL (n x : Z) : Z := u32 (x .<< n) .| (x .>> (32 - n)).

(** The logical function and the constant of each run of twenty rounds; the
    constants are [2^30] times the square roots of 2, 3, 5 and 10. *)
Definition fips_f (phase : nat) (x y z : Z) : Z :=
  match phase with
  | 0%nat => (x .& y) .^ Z.ldiff z x
  | 2%nat => (x .& y) .^ (x .& z) .^ (y .& z)
  | _ => x .^ y .^ z
  end.
Definition fips_k (phase : nat) : Z := Z.sqrt (nth phase [2; 3; 5; 10] 0 * 2 ^ 60).

Definition fips_next (win : list Z) : Z :=
  ROTL 1 (aget win 13 .^ aget win 8 .^ aget win 2 .^ aget win 0).

Fixpoint fips_extend (n : nat) (win : list Z) : list Z :=
  match n with
  | O => []
  | S n => let w := fips_next win in w :: fips_extend n (tail win ++ [w])
  end.

Definition fips_message (chunk : list Z) : list Z :=
  map (fun i => be_word 4 (drop (i * 4) chunk)) (seq 0 16).

Definition fips_schedule (chunk : list Z) : list Z :=
  fips_message chunk ++ fips_extend 64 (fips_message chunk).

Definition fips_round (r : regs) (pw : nat * Z) : regs :=
  let '(a, b, c, d, e) := r in
  (u32 (ROTL 5 a + fips_f (fst pw) b c d + e + fips_k (fst pw) + snd pw), a, ROTL 30 b, c, d).

Definition fips_phases : list nat := map (fun t => t / 20)%nat (seq 0 80).

Definition fips_compress1 (s chunk : list Z) : list Z :=
  let '(a, b, c, d, e) :=
    fold_left fips_round (combine fips_phases (fips_schedule chunk))
      (aget s 0, aget s 1, aget s 2, aget s 3, aget s 4) in
  [u32 (aget s 0 + a); u32 (aget s 1 + b); u32 (aget s 2 + c); u32 (aget s 3 + d); u32 (aget s 4 + e)].

(** ** The unrolled code implements the reference *)

Definition code_message (chunk : list Z) : list Z :=
  map (fun i => ReadBE32 (drop (i * 4) chunk)) (seq 0 16).

Lemma fips_message1 chunk : fips_message chunk = code_message chunk.
Proof. unfold fips_message, code_message. apply map_ext. intros i. by rewrite <- ReadBE_word. Qed.

Definition code_f (phase : nat) (b c d : Z) : Z :=
  match phase with 0%nat => f1 b c d | 2%nat => f3 b c d | _ => f2 b c d end.
Definition code_k (phase : nat) : Z :=
  match phase with 0%nat => k1 | 1%nat => k2 | 2%nat => k3 | _ => k4 end.

Lemma code_f_fips p b c d : fips_f p b c d = code_f p b c d.
Proof.
  destruct p as [|[|[|p]]]; try done; symmetry; [apply bitwise_ch|apply bitwise_maj].
Qed.

(** One round of the first sixteen, whose word is read from the chunk. *)
Lemma sha1_read_step p ps w ws a b c d e :
  (p < 4)%nat ->
  fold_left fips_round (combine (p :: ps) (w :: ws)) (a, b, c, d, e) =
  let '(b', e') := Round a b c d e (code_f p b c d) (code_k p) w in
  fold_left fips_round (combine ps ws) (e', a, b', c, d).
Proof.
  intros Hp. cbn [combine fold_left]. unfold Round, fips_round at 2. cbv zeta. cbn [fst snd].
  rewrite code_f_fips.
  assert (fips_k p = code_k p) as -> by (destruct p as [|[|[|[|p]]]]; [vm_compute; reflexivity..|lia]).
  replace (ROTL 5 a + code_f p b c d + e + code_k p + w)
    with (e + ((u32 (a .<< 5) .| (a .>> 27)) + code_f p b c d + code_k p + w)); [done|].
  change (ROTL 5 a) with (u32 (a .<< 5) .| (a .>> 27)). lia.
Qed.

Lemma sha1_next w0 w2 w8 w13 :
  left (w0 .^ w13 .^ w8 .^ w2) = ROTL 1 (w13 .^ w8 .^ w2 .^ w0).
Proof.
  unfold left, ROTL. replace (w0 .^ w13 .^ w8 .^ w2) with (w13 .^ w8 .^ w2 .^ w0); [done|].
  rewrite (Z.lxor_comm _ w0), <- !Z.lxor_assoc. done.
Qed.

(** One later round, whose word extends the schedule. *)
Lemma sha1_extend_step p ps n w0 w1 w2 w3 w4 w5 w6 w7 w8 w9 w10 w11 w12 w13 w14 w15 a b c d e :
  (p < 4)%nat ->
  fold_left fips_round (combine (p :: ps) (fips_extend (S n) [w0; w1; w2; w3; w4; w5; w6; w7; w8; w9; w10; w11; w12; w13; w14; w15])) (a, b, c, d, e) =
  let '(b', e') := Round a b c d e (code_f p b c d) (code_k p) (left (w0 .^ w13 .^ w8 .^ w2)) in
  fold_left fips_round
    (combine ps (fips_extend n [w1; w2; w3; w4; w5; w6; w7; w8; w9; w10; w11; w12; w13; w14; w15;
                                left (w0 .^ w13 .^ w8 .^ w2)]))
    (e', a, b', c, d).
Proof.
  intros Hp. cbn [fips_extend tail app]. unfold fips_next, aget. cbn [nth].
  rewrite <- sha1_next. by apply sha1_read_step.
Qed.

Definition words_list (w : words) : list Z :=
  let '(w0, w1, w2, w3, w4, w5, w6, w7, w8, w9, w10, w11, w12, w13, w14, w15) := w in
  [w0; w1; w2; w3; w4; w5; w6; w7; w8; w9; w10; w11; w12; w13; w14; w15].

(** The code renames its registers where the reference moves them: after one
    round the reference's tuple is the code's rotated by one place. *)
Definition rotate (r : regs) : regs := let '(a, b, c, d, e) := r in (e, a, b, c, d).

(** Runs one round on both sides: the word of the round and the two registers
    [Round] writes become variables. *)
Ltac round_step1 :=
  first [rewrite sha1_read_step by (apply Nat.ltb_lt; reflexivity)
        |rewrite sha1_extend_step by (apply Nat.ltb_lt; reflexivity)];
  cbv beta iota delta [code_f code_k];
  try lazymatch goal with
  | |- (let x := ?v in @?B x) = _ -> _ =>
      generalize v; let w := fresh "w" in intros w;
      lazymatch goal with |- (let x := ?v in @?B x) = ?X -> ?C =>
        let y := eval cbv beta in (B v) in change (y = X -> C) end
  end;
  lazymatch goal with
  | |- (let (_, _) := ?t in _) = _ -> _ =>
      let b' := fresh "b" in let e' := fresh "e" in
      generalize t; intros [b' e']; cbv beta iota
  end.

Lemma sha1_group_0 r chunk r' w' ps ws :
  Rounds0 r chunk = (r', w') ->
  fold_left fips_round (combine ([0; 0; 0; 0; 0; 0; 0; 0; 0; 0; 0; 0; 0; 0; 0; 0]%nat ++ ps) (code_message chunk ++ ws)) r =
  fold_left fips_round (combine ps ws) (Nat.iter 1 rotate r') /\ code_message chunk = words_list w'.
Proof.
  revert r. intros [[[[a b] c] d] e].
  cbv beta iota delta [Rounds0 code_message map seq app Nat.mul Nat.add].
  do 16 round_step1. intros [= <- <-]. done.
Qed.

Lemma sha1_group_1 r w r' w' ps n :
  Rounds1 r w = (r', w') ->
  fold_left fips_round (combine ([0; 0; 0; 0; 1; 1; 1; 1; 1; 1; 1; 1; 1; 1; 1; 1]%nat ++ ps) (fips_extend (16 + n) (words_list w))) (Nat.iter 1 rotate r) =
  fold_left fips_round (combine ps (fips_extend n (words_list w'))) (Nat.iter 2 rotate r').
Proof.
  revert r w. intros [[[[a b] c] d] e].
  intros [[[[[[[[[[[[[[[w0 w1] w2] w3] w4] w5] w6] w7] w8] w9] w10] w11] w12] w13] w14] w15].
  cbv beta iota delta [Rounds1 words_list app Nat.add Nat.iter nat_rect rotate].
  do 16 round_step1. intros [= <- <-]. done.
Qed.

Lemma sha1_group_2 r w r' w' ps n :
  Rounds2 r w = (r', w') ->
  fold_left fips_round (combine ([1; 1; 1; 1; 1; 1; 1; 1; 2; 2; 2; 2; 2; 2; 2; 2]%nat ++ ps) (fips_extend (16 + n) (words_list w))) (Nat.iter 2 rotate r) =
  fold_left fips_round (combine ps (fips_extend n (words_list w'))) (Nat.iter 3 rotate r').
Proof.
  revert r w. intros [[[[a b] c] d] e].
  intros [[[[[[[[[[[[[[[w0 w1] w2] w3] w4] w5] w6] w7] w8] w9] w10] w11] w12] w13] w14] w15].
  cbv beta iota delta [Rounds2 words_list app Nat.add Nat.iter nat_rect rotate].
  do 16 round_step1. intros [= <- <-]. done.
Qed.

Lemma sha1_group_3 r w r' w' ps n :
  Rounds3 r w = (r', w') ->
  fold_left fips_round (combine ([2; 2; 2; 2; 2; 2; 2; 2; 2; 2; 2; 2; 3; 3; 3; 3]%nat ++ ps) (fips_extend (16 + n) (words_list w))) (Nat.iter 3 rotate r) =
  fold_left fips_round (combine ps (fips_extend n (words_list w'))) (Nat.iter 4 rotate r').
Proof.
  revert r w. intros [[[[a b] c] d] e].
  intros [[[[[[[[[[[[[[[w0 w1] w2] w3] w4] w5] w6] w7] w8] w9] w10] w11] w12] w13] w14] w15].
  cbv beta iota delta [Rounds3 words_list app Nat.add Nat.iter nat_rect rotate].
  do 16 round_step1. intros [= <- <-]. done.
Qed.

Lemma sha1_group_4 r w r' :
  Rounds4 r w = r' ->
  fold_left fips_round (combine [3; 3; 3; 3; 3; 3; 3; 3; 3; 3; 3; 3; 3; 3; 3; 3]%nat (fips_extend 16 (words_list w))) (Nat.iter 4 rotate r) = Nat.iter 5 rotate r'.
Proof.
  revert r w. intros [[[[a b] c] d] e].
  intros [[[[[[[[[[[[[[[w0 w1] w2] w3] w4] w5] w6] w7] w8] w9] w10] w11] w12] w13] w14] w15].
  cbv beta iota delta [Rounds4 words_list app Nat.add Nat.iter nat_rect rotate].
  do 16 round_step1. intros <-. done.
Qed.

Lemma fips_phases_values : fips_phases =
  [0; 0; 0; 0; 0; 0; 0; 0; 0; 0; 0; 0; 0; 0; 0; 0]%nat ++
  [0; 0; 0; 0; 1; 1; 1; 1; 1; 1; 1; 1; 1; 1; 1; 1]%nat ++
  [1; 1; 1; 1; 1; 1; 1; 1; 2; 2; 2; 2; 2; 2; 2; 2]%nat ++
  [2; 2; 2; 2; 2; 2; 2; 2; 2; 2; 2; 2; 3; 3; 3; 3]%nat ++
  [3; 3; 3; 3; 3; 3; 3; 3; 3; 3; 3; 3; 3; 3; 3; 3]%nat.
Proof. reflexivity. Qed.

Lemma Transform1_unroll s chunk : Transform1 s chunk = fips_compress1 s chunk.
Proof.
  unfold Transform1, fips_compress1, fips_schedule. rewrite fips_message1, fips_phases_values.
  destruct (Rounds0 _ chunk) as [r0 w0] eqn:E0.
  lazymatch goal with |- context [combine (_ ++ ?ps) (_ ++ ?ws)] =>
    destruct (sha1_group_0 _ _ _ _ ps ws E0) as [-> ->] end.
  destruct (Rounds1 r0 w0) as [r1 w1] eqn:E1.
  destruct (Rounds2 r1 w1) as [r2 w2] eqn:E2.
  destruct (Rounds3 r2 w2) as [r3 w3] eqn:E3.
  change 64%nat with (16 + 48)%nat. rewrite (sha1_group_1 _ _ _ _ _ _ E1).
  change 48%nat with (16 + 32)%nat. rewrite (sha1_group_2 _ _ _ _ _ _ E2).
  change 32%nat with (16 + 16)%nat. rewrite (sha1_group_3 _ _ _ _ _ _ E3).
  rewrite (sha1_group_4 _ _ _ eq_refl). by destruct (Rounds4 r3 w3) as [[[[a b] c] d] e].
Qed.

(** ** The hasher *)

Definition CSHA1 : HashAlgo :=
  {| blockSize := 64;
     Initialize := Initialize1;
     Transform := Transform1;
     padConst := 119;
     sizedesc bits := WriteBE64 bits;
     digest s :=
       WriteBE32 (aget s 0) ++ WriteBE32 (aget s 1) ++ WriteBE32 (aget s 2) ++
       WriteBE32 (aget s 3) ++ WriteBE32 (aget s 4) |}.

(** The methods of the class. *)
Definition CSHA1_new : list Z -> CHasher := @construct CSHA1.
Definition CSHA1_Write : CHasher -> list Z -> CHasher := @Write CSHA1.
Definition CSHA1_Finalize : CHasher -> list Z := @Finalize CSHA1.
Definition CSHA1_Reset : CHasher -> CHasher := @Reset CSHA1.

#[export] Instance CSHA1_laws : HashAlgoLaws CSHA1.
Proof. split; cbn; [lia|by exists (2 ^ 58)|done|lia]. Qed.

(** SHA-1 as FIPS 180-4 defines it, of a whole message. *)
Definition fips_sha1 : list Z -> list Z := fips_hash 64 8 be_digits 4 5 fips_IV fips_compress1.

(** [CSHA1().Write(data, len).Finalize(hash)] on a fresh hasher. *)
Definition sha1 (data : list Z) : list Z :=
  @Finalize CSHA1 (@Write CSHA1 (@construct CSHA1 (replicate 64 0)) data).

Lemma CSHA1_md msg : @md_hash CSHA1 msg = fips_sha1 msg.
Proof.
  apply (md_hash_standard CSHA1); [apply blockSize_pos|done|apply Transform1_unroll|done|rewrite <- be_digits_u64; apply be_bytes_digits|].
  intros s. cbn [digest CSHA1 seq flat_map]. unfold WriteBE32. by rewrite !be_bytes_digits, app_nil_r.
Qed.

Lemma length_sha1 data : length (sha1 data) = 20%nat.
Proof. done. Qed.

(** The streaming hasher [CSHA1], whatever its indeterminate buffer holds,
    however the message is cut into [Write] calls and whatever was hashed before
    a [Reset], returns the SHA-1 digest of FIPS 180-4 of the concatenation of
    what was written. *)
Theorem CSHA1_is_FIPS (buf : list Z) (before chunks : list (list Z)) :
  length buf = 64%nat ->
  CSHA1_Finalize (fold_left CSHA1_Write chunks (CSHA1_new buf)) = fips_sha1 (concat chunks) /\
  CSHA1_Finalize (fold_left CSHA1_Write chunks
    (CSHA1_Reset (fold_left CSHA1_Write before (CSHA1_new buf)))) = fips_sha1 (concat chunks).
Proof.
  intros Hb. rewrite <- CSHA1_md. split.
  - by apply (Finalize_writes (H := CSHA1) buf chunks []).
  - by apply (Finalize_writes (H := CSHA1) buf before chunks).
Qed.

(** The digest of "abc", written byte by byte. *)
Lemma CSHA1_is_FIPS_witness :
  CSHA1_Finalize (fold_left CSHA1_Write [[0x61]; [0x62]; [0x63]] (CSHA1_new (replicate 64 7)))
    = fips_sha1 [0x61; 0x62; 0x63] /\
  fips_sha1 [0x61; 0x62; 0x63] =
    [0xa9; 0x99; 0x3e; 0x36; 0x47; 0x6; 0x81; 0x6a; 0xba; 0x3e; 0x25; 0x71; 0x78; 0x50; 0xc2; 0x6c; 0x9c; 0xd0; 0xd8; 0x9d].
Proof.
  split; [exact (proj1 (CSHA1_is_FIPS (replicate 64 7) [] [[0x61]; [0x62]; [0x63]] eq_refl))|].
  vm_compute. reflexivity.
Defined.
