(* ===== verification/Ripemd160.v ===== *)
(** * RIPEMD-160 (src/src/crypto/ripemd160.cpp)

    The source interleaves the two lines of the compression function and unrolls
    their eighty steps each, renaming registers; the reference runs each line as
    a fold over step tables computed from the permutations [rho] and [pi] of the
    specification.  [Transform160_unroll] equates the two, and [CRIPEMD160]
    plugs the code into the streaming engine. *)

From S2P Require Import Prelude Bytes Fips180 HashEngine.
Local Open Scope cxx_scope.

(** ** The code *)

Definition not32 (x : Z) : Z := u32 (Z.lnot x).

Definition f1 (x y z : Z) : Z := x .^ y .^ z.
Definition f2 (x y z : Z) : Z := (x .& y) .| (not32 x .& z).
Definition f3 (x y z : Z) : Z := (x .| not32 y) .^ z.
Definition f4 (x y z : Z) : Z := (x .& z) .| (y .& not32 z).
Definition f5 (x y z : Z) : Z := x .^ (y .| not32 z).

Definition Initialize160 : list Z := [0x67452301; 0xEFCDAB89; 0x98BADCFE; 0x10325476; 0xC3D2E1F0].

Definition rol (x i : Z) : Z := u32 (x .<< i) .| (x .>> (32 - i)).

(** [Round] updates [a] and [c] in place: it returns their new values. *)
Definition Round (a b c d e f x k r : Z) : Z * Z :=
  let a := u32 (rol (u32 (a + f + x + k)) r + e) in
  let c := rol c 10 in
  (a, c).

Definition R11 (a b c d e x r : Z) : Z * Z := Round a b c d e (f1 b c d) x 0 r.
Definition R21 (a b c d e x r : Z) : Z * Z := Round a b c d e (f2 b c d) x 0x5A827999 r.
Definition R31 (a b c d e x r : Z) : Z * Z := Round a b c d e (f3 b c d) x 0x6ED9EBA1 r.
Definition R41 (a b c d e x r : Z) : Z * Z := Round a b c d e (f4 b c d) x 0x8F1BBCDC r.
Definition R51 (a b c d e x r : Z) : Z * Z := Round a b c d e (f5 b c d) x 0xA953FD4E r.

Definition R12 (a b c d e x r : Z) : Z * Z := Round a b c d e (f5 b c d) x 0x50A28BE6 r.
Definition R22 (a b c d e x r : Z) : Z * Z := Round a b c d e (f4 b c d) x 0x5C4DD124 r.
Definition R32 (a b c d e x r : Z) : Z * Z := Round a b c d e (f3 b c d) x 0x6D703EF3 r.
Definition R42 (a b c d e x r : Z) : Z * Z := Round a b c d e (f2 b c d) x 0x7A6D76E9 r.
Definition R52 (a b c d e x r : Z) : Z * Z := Round a b c d e (f1 b c d) x 0 r.

Definition regs : Type := (Z * Z * Z * Z * Z)%type.
Definition words : Type := (Z * Z * Z * Z * Z * Z * Z * Z * Z * Z * Z * Z * Z * Z * Z * Z)%type.

(** The thirty-two calls of each of the five rounds. *)
Definition Rounds0 (l r : regs) (w : words) : regs * regs :=
  let '(a1, b1, c1, d1, e1) := l in
  let '(a2, b2, c2, d2, e2) := r in
  let '(w0, w1, w2, w3, w4, w5, w6, w7, w8, w9, w10, w11, w12, w13, w14, w15) := w in
  let '(a1, c1) := R11 a1 b1 c1 d1 e1 w0 11 in
  let '(a2, c2) := R12 a2 b2 c2 d2 e2 w5 8 in
  let '(e1, b1) := R11 e1 a1 b1 c1 d1 w1 14 in
  let '(e2, b2) := R12 e2 a2 b2 c2 d2 w14 9 in
  let '(d1, a1) := R11 d1 e1 a1 b1 c1 w2 15 in
  let '(d2, a2) := R12 d2 e2 a2 b2 c2 w7 9 in
  let '(c1, e1) := R11 c1 d1 e1 a1 b1 w3 12 in
  let '(c2, e2) := R12 c2 d2 e2 a2 b2 w0 11 in
  let '(b1, d1) := R11 b1 c1 d1 e1 a1 w4 5 in
  let '(b2, d2) := R12 b2 c2 d2 e2 a2 w9 13 in
  let '(a1, c1) := R11 a1 b1 c1 d1 e1 w5 8 in
  let '(a2, c2) := R12 a2 b2 c2 d2 e2 w2 15 in
  let '(e1, b1) := R11 e1 a1 b1 c1 d1 w6 7 in
  let '(e2, b2) := R12 e2 a2 b2 c2 d2 w11 15 in
  let '(d1, a1) := R11 d1 e1 a1 b1 c1 w7 9 in
  let '(d2, a2) := R12 d2 e2 a2 b2 c2 w4 5 in
  let '(c1, e1) := R11 c1 d1 e1 a1 b1 w8 11 in
  let '(c2, e2) := R12 c2 d2 e2 a2 b2 w13 7 in
  let '(b1, d1) := R11 b1 c1 d1 e1 a1 w9 13 in
  let '(b2, d2) := R12 b2 c2 d2 e2 a2 w6 7 in
  let '(a1, c1) := R11 a1 b1 c1 d1 e1 w10 14 in
  let '(a2, c2) := R12 a2 b2 c2 d2 e2 w15 8 in
  let '(e1, b1) := R11 e1 a1 b1 c1 d1 w11 15 in
  let '(e2, b2) := R12 e2 a2 b2 c2 d2 w8 11 in
  let '(d1, a1) := R11 d1 e1 a1 b1 c1 w12 6 in
  let '(d2, a2) := R12 d2 e2 a2 b2 c2 w1 14 in
  let '(c1, e1) := R11 c1 d1 e1 a1 b1 w13 7 in
  let '(c2, e2) := R12 c2 d2 e2 a2 b2 w10 14 in
  let '(b1, d1) := R11 b1 c1 d1 e1 a1 w14 9 in
  let '(b2, d2) := R12 b2 c2 d2 e2 a2 w3 12 in
  let '(a1, c1) := R11 a1 b1 c1 d1 e1 w15 8 in
  let '(a2, c2) := R12 a2 b2 c2 d2 e2 w12 6 in
  ((a1, b1, c1, d1, e1), (a2, b2, c2, d2, e2)).

Definition Rounds1 (l r : regs) (w : words) : regs * regs :=
  let '(a1, b1, c1, d1, e1) := l in
  let '(a2, b2, c2, d2, e2) := r in
  let '(w0, w1, w2, w3, w4, w5, w6, w7, w8, w9, w10, w11, w12, w13, w14, w15) := w in
  let '(e1, b1) := R21 e1 a1 b1 c1 d1 w7 7 in
  let '(e2, b2) := R22 e2 a2 b2 c2 d2 w6 9 in
  let '(d1, a1) := R21 d1 e1 a1 b1 c1 w4 6 in
  let '(d2, a2) := R22 d2 e2 a2 b2 c2 w11 13 in
  let '(c1, e1) := R21 c1 d1 e1 a1 b1 w13 8 in
  let '(c2, e2) := R22 c2 d2 e2 a2 b2 w3 15 in
  let '(b1, d1) := R21 b1 c1 d1 e1 a1 w1 13 in
  let '(b2, d2) := R22 b2 c2 d2 e2 a2 w7 7 in
  let '(a1, c1) := R21 a1 b1 c1 d1 e1 w10 11 in
  let '(a2, c2) := R22 a2 b2 c2 d2 e2 w0 12 in
  let '(e1, b1) := R21 e1 a1 b1 c1 d1 w6 9 in
  let '(e2, b2) := R22 e2 a2 b2 c2 d2 w13 8 in
  let '(d1, a1) := R21 d1 e1 a1 b1 c1 w15 7 in
  let '(d2, a2) := R22 d2 e2 a2 b2 c2 w5 9 in
  let '(c1, e1) := R21 c1 d1 e1 a1 b1 w3 15 in
  let '(c2, e2) := R22 c2 d2 e2 a2 b2 w10 11 in
  let '(b1, d1) := R21 b1 c1 d1 e1 a1 w12 7 in
  let '(b2, d2) := R22 b2 c2 d2 e2 a2 w14 7 in
  let '(a1, c1) := R21 a1 b1 c1 d1 e1 w0 12 in
  let '(a2, c2) := R22 a2 b2 c2 d2 e2 w15 7 in
  let '(e1, b1) := R21 e1 a1 b1 c1 d1 w9 15 in
  let '(e2, b2) := R22 e2 a2 b2 c2 d2 w8 12 in
  let '(d1, a1) := R21 d1 e1 a1 b1 c1 w5 9 in
  let '(d2, a2) := R22 d2 e2 a2 b2 c2 w12 7 in
  let '(c1, e1) := R21 c1 d1 e1 a1 b1 w2 11 in
  let '(c2, e2) := R22 c2 d2 e2 a2 b2 w4 6 in
  let '(b1, d1) := R21 b1 c1 d1 e1 a1 w14 7 in
  let '(b2, d2) := R22 b2 c2 d2 e2 a2 w9 15 in
  let '(a1, c1) := R21 a1 b1 c1 d1 e1 w11 13 in
  let '(a2, c2) := R22 a2 b2 c2 d2 e2 w1 13 in
  let '(e1, b1) := R21 e1 a1 b1 c1 d1 w8 12 in
  let '(e2, b2) := R22 e2 a2 b2 c2 d2 w2 11 in
  ((a1, b1, c1, d1, e1), (a2, b2, c2, d2, e2)).

Definition Rounds2 (l r : regs) (w : words) : regs * regs :=
  let '(a1, b1, c1, d1, e1) := l in
  let '(a2, b2, c2, d2, e2) := r in
  let '(w0, w1, w2, w3, w4, w5, w6, w7, w8, w9, w10, w11, w12, w13, w14, w15) := w in
  let '(d1, a1) := R31 d1 e1 a1 b1 c1 w3 11 in
  let '(d2, a2) := R32 d2 e2 a2 b2 c2 w15 9 in
  let '(c1, e1) := R31 c1 d1 e1 a1 b1 w10 13 in
  let '(c2, e2) := R32 c2 d2 e2 a2 b2 w5 7 in
  let '(b1, d1) := R31 b1 c1 d1 e1 a1 w14 6 in
  let '(b2, d2) := R32 b2 c2 d2 e2 a2 w1 15 in
  let '(a1, c1) := R31 a1 b1 c1 d1 e1 w4 7 in
  let '(a2, c2) := R32 a2 b2 c2 d2 e2 w3 11 in
  let '(e1, b1) := R31 e1 a1 b1 c1 d1 w9 14 in
  let '(e2, b2) := R32 e2 a2 b2 c2 d2 w7 8 in
  let '(d1, a1) := R31 d1 e1 a1 b1 c1 w15 9 in
  let '(d2, a2) := R32 d2 e2 a2 b2 c2 w14 6 in
  let '(c1, e1) := R31 c1 d1 e1 a1 b1 w8 13 in
  let '(c2, e2) := R32 c2 d2 e2 a2 b2 w6 6 in
  let '(b1, d1) := R31 b1 c1 d1 e1 a1 w1 15 in
  let '(b2, d2) := R32 b2 c2 d2 e2 a2 w9 14 in
  let '(a1, c1) := R31 a1 b1 c1 d1 e1 w2 14 in
  let '(a2, c2) := R32 a2 b2 c2 d2 e2 w11 12 in
  let '(e1, b1) := R31 e1 a1 b1 c1 d1 w7 8 in
  let '(e2, b2) := R32 e2 a2 b2 c2 d2 w8 13 in
  let '(d1, a1) := R31 d1 e1 a1 b1 c1 w0 13 in
  let '(d2, a2) := R32 d2 e2 a2 b2 c2 w12 5 in
  let '(c1, e1) := R31 c1 d1 e1 a1 b1 w6 6 in
  let '(c2, e2) := R32 c2 d2 e2 a2 b2 w2 14 in
  let '(b1, d1) := R31 b1 c1 d1 e1 a1 w13 5 in
  let '(b2, d2) := R32 b2 c2 d2 e2 a2 w10 13 in
  let '(a1, c1) := R31 a1 b1 c1 d1 e1 w11 12 in
  let '(a2, c2) := R32 a2 b2 c2 d2 e2 w0 13 in
  let '(e1, b1) := R31 e1 a1 b1 c1 d1 w5 7 in
  let '(e2, b2) := R32 e2 a2 b2 c2 d2 w4 7 in
  let '(d1, a1) := R31 d1 e1 a1 b1 c1 w12 5 in
  let '(d2, a2) := R32 d2 e2 a2 b2 c2 w13 5 in
  ((a1, b1, c1, d1, e1), (a2, b2, c2, d2, e2)).

Definition Rounds3 (l r : regs) (w : words) : regs * regs :=
  let '(a1, b1, c1, d1, e1) := l in
  let '(a2, b2, c2, d2, e2) := r in
  let '(w0, w1, w2, w3, w4, w5, w6, w7, w8, w9, w10, w11, w12, w13, w14, w15) := w in
  let '(c1, e1) := R41 c1 d1 e1 a1 b1 w1 11 in
  let '(c2, e2) := R42 c2 d2 e2 a2 b2 w8 15 in
  let '(b1, d1) := R41 b1 c1 d1 e1 a1 w9 12 in
  let '(b2, d2) := R42 b2 c2 d2 e2 a2 w6 5 in
  let '(a1, c1) := R41 a1 b1 c1 d1 e1 w11 14 in
  let '(a2, c2) := R42 a2 b2 c2 d2 e2 w4 8 in
  let '(e1, b1) := R41 e1 a1 b1 c1 d1 w10 15 in
  let '(e2, b2) := R42 e2 a2 b2 c2 d2 w1 11 in
  let '(d1, a1) := R41 d1 e1 a1 b1 c1 w0 14 in
  let '(d2, a2) := R42 d2 e2 a2 b2 c2 w3 14 in
  let '(c1, e1) := R41 c1 d1 e1 a1 b1 w8 15 in
  let '(c2, e2) := R42 c2 d2 e2 a2 b2 w11 14 in
  let '(b1, d1) := R41 b1 c1 d1 e1 a1 w12 9 in
  let '(b2, d2) := R42 b2 c2 d2 e2 a2 w15 6 in
  let '(a1, c1) := R41 a1 b1 c1 d1 e1 w4 8 in
  let '(a2, c2) := R42 a2 b2 c2 d2 e2 w0 14 in
  let '(e1, b1) := R41 e1 a1 b1 c1 d1 w13 9 in
  let '(e2, b2) := R42 e2 a2 b2 c2 d2 w5 6 in
  let '(d1, a1) := R41 d1 e1 a1 b1 c1 w3 14 in
  let '(d2, a2) := R42 d2 e2 a2 b2 c2 w12 9 in
  let '(c1, e1) := R41 c1 d1 e1 a1 b1 w7 5 in
  let '(c2, e2) := R42 c2 d2 e2 a2 b2 w2 12 in
  let '(b1, d1) := R41 b1 c1 d1 e1 a1 w15 6 in
  let '(b2, d2) := R42 b2 c2 d2 e2 a2 w13 9 in
  let '(a1, c1) := R41 a1 b1 c1 d1 e1 w14 8 in
  let '(a2, c2) := R42 a2 b2 c2 d2 e2 w9 12 in
  let '(e1, b1) := R41 e1 a1 b1 c1 d1 w5 6 in
  let '(e2, b2) := R42 e2 a2 b2 c2 d2 w7 5 in
  let '(d1, a1) := R41 d1 e1 a1 b1 c1 w6 5 in
  let '(d2, a2) := R42 d2 e2 a2 b2 c2 w10 15 in
  let '(c1, e1) := R41 c1 d1 e1 a1 b1 w2 12 in
  let '(c2, e2) := R42 c2 d2 e2 a2 b2 w14 8 in
  ((a1, b1, c1, d1, e1), (a2, b2, c2, d2, e2)).

Definition Rounds4 (l r : regs) (w : words) : regs * regs :=
  let '(a1, b1, c1, d1, e1) := l in
  let '(a2, b2, c2, d2, e2) := r in
  let '(w0, w1, w2, w3, w4, w5, w6, w7, w8, w9, w10, w11, w12, w13, w14, w15) := w in
  let '(b1, d1) := R51 b1 c1 d1 e1 a1 w4 9 in
  let '(b2, d2) := R52 b2 c2 d2 e2 a2 w12 8 in
  let '(a1, c1) := R51 a1 b1 c1 d1 e1 w0 15 in
  let '(a2, c2) := R52 a2 b2 c2 d2 e2 w15 5 in
  let '(e1, b1) := R51 e1 a1 b1 c1 d1 w5 5 in
  let '(e2, b2) := R52 e2 a2 b2 c2 d2 w10 12 in
  let '(d1, a1) := R51 d1 e1 a1 b1 c1 w9 11 in
  let '(d2, a2) := R52 d2 e2 a2 b2 c2 w4 9 in
  let '(c1, e1) := R51 c1 d1 e1 a1 b1 w7 6 in
  let '(c2, e2) := R52 c2 d2 e2 a2 b2 w1 12 in
  let '(b1, d1) := R51 b1 c1 d1 e1 a1 w12 8 in
  let '(b2, d2) := R52 b2 c2 d2 e2 a2 w5 5 in
  let '(a1, c1) := R51 a1 b1 c1 d1 e1 w2 13 in
  let '(a2, c2) := R52 a2 b2 c2 d2 e2 w8 14 in
  let '(e1, b1) := R51 e1 a1 b1 c1 d1 w10 12 in
  let '(e2, b2) := R52 e2 a2 b2 c2 d2 w7 6 in
  let '(d1, a1) := R51 d1 e1 a1 b1 c1 w14 5 in
  let '(d2, a2) := R52 d2 e2 a2 b2 c2 w6 8 in
  let '(c1, e1) := R51 c1 d1 e1 a1 b1 w1 12 in
  let '(c2, e2) := R52 c2 d2 e2 a2 b2 w2 13 in
  let '(b1, d1) := R51 b1 c1 d1 e1 a1 w3 13 in
  let '(b2, d2) := R52 b2 c2 d2 e2 a2 w13 6 in
  let '(a1, c1) := R51 a1 b1 c1 d1 e1 w8 14 in
  let '(a2, c2) := R52 a2 b2 c2 d2 e2 w14 5 in
  let '(e1, b1) := R51 e1 a1 b1 c1 d1 w11 11 in
  let '(e2, b2) := R52 e2 a2 b2 c2 d2 w0 15 in
  let '(d1, a1) := R51 d1 e1 a1 b1 c1 w6 8 in
  let '(d2, a2) := R52 d2 e2 a2 b2 c2 w3 13 in
  let '(c1, e1) := R51 c1 d1 e1 a1 b1 w15 5 in
  let '(c2, e2) := R52 c2 d2 e2 a2 b2 w9 11 in
  let '(b1, d1) := R51 b1 c1 d1 e1 a1 w13 6 in
  let '(b2, d2) := R52 b2 c2 d2 e2 a2 w11 11 in
  ((a1, b1, c1, d1, e1), (a2, b2, c2, d2, e2)).

(** [w0 = ReadLE32(chunk + 0), ..., w15 = ReadLE32(chunk + 60)] *)
Definition read_words (chunk : list Z) : words :=
  (ReadLE32 (drop 0 chunk), ReadLE32 (drop 4 chunk), ReadLE32 (drop 8 chunk), ReadLE32 (drop 12 chunk),
   ReadLE32 (drop 16 chunk), ReadLE32 (drop 20 chunk), ReadLE32 (drop 24 chunk), ReadLE32 (drop 28 chunk),
   ReadLE32 (drop 32 chunk), ReadLE32 (drop 36 chunk), ReadLE32 (drop 40 chunk), ReadLE32 (drop 44 chunk),
   ReadLE32 (drop 48 chunk), ReadLE32 (drop 52 chunk), ReadLE32 (drop 56 chunk), ReadLE32 (drop 60 chunk)).

Definition Transform160 (s chunk : list Z) : list Z :=
  let l := (aget s 0, aget s 1, aget s 2, aget s 3, aget s 4) in
  let r := l in
  let w := read_words chunk in
  let '(l, r) := Rounds0 l r w in
  let '(l, r) := Rounds1 l r w in
  let '(l, r) := Rounds2 l r w in
  let '(l, r) := Rounds3 l r w in
  let '(l, r) := Rounds4 l r w in
  let '(a1, b1, c1, d1, e1) := l in
  let '(a2, b2, c2, d2, e2) := r in
  [u32 (aget s 1 + c1 + d2); u32 (aget s 2 + d1 + e2); u32 (aget s 3 + e1 + a2);
   u32 (aget s 4 + a1 + b2); u32 (aget s 0 + b1 + c2)].

(** ** The reference: the RIPEMD-160 specification *)

(** The message word of each step: the identity (left) or [i -> 9i+5 mod 16]
    (right), followed by one more application of [rho] in each round. *)
Definition rho (i : nat) : nat := nth i [7; 4; 13; 1; 10; 6; 15; 3; 12; 0; 9; 5; 2; 14; 11; 8]%nat 0%nat.
Definition pi (i : nat) : nat := ((9 * i + 5) mod 16)%nat.

(** The rotation of each message word in each round. *)
Definition shift_amount (round i : nat) : Z :=
  aget (nth round
    [[11; 14; 15; 12; 5; 8; 7; 9; 11; 13; 14; 15; 6; 7; 9; 8];
     [12; 13; 11; 15; 6; 9; 9; 7; 12; 15; 11; 13; 7; 8; 7; 7];
     [13; 15; 14; 11; 7; 7; 6; 8; 13; 14; 13; 12; 5; 5; 6; 9];
     [14; 11; 12; 14; 8; 6; 5; 5; 15; 12; 15; 14; 9; 9; 8; 6];
     [15; 12; 13; 13; 9; 5; 8; 6; 14; 11; 12; 11; 8; 6; 5; 5]] []) i.

Definition step_table (base : nat -> nat) : list (nat * nat * Z) :=
  flat_map (fun round =>
    map (fun j => let i := Nat.iter round rho (base j) in (round, i, shift_amount round i)) (seq 0 16))
    (seq 0 5).

(** The boolean function and the constant of each round; the constants are
    [2^30] times the square roots (left) and cube roots (right) of 2, 3, 5, 7. *)
Definition rmd_not (x : Z) : Z := u32 (Z.lnot x).
Definition rmd_rol (n x : Z) : Z := u32 (x .<< n) .| (x .>> (32 - n)).
Definition rmd_f (n : nat) (x y z : Z) : Z :=
  match n with
  | 0%nat => x .^ y .^ z
  | 1%nat => (x .& y) .| (rmd_not x .& z)
  | 2%nat => (x .| rmd_not y) .^ z
  | 3%nat => (x .& z) .| (y .& rmd_not z)
  | _ => x .^ (y .| rmd_not z)
  end.
Definition left_fk (round : nat) : (Z -> Z -> Z -> Z) * Z :=
  (rmd_f round, Z.sqrt (nth round [0; 2; 3; 5; 7] 0 * 2 ^ 60)).
Definition right_fk (round : nat) : (Z -> Z -> Z -> Z) * Z :=
  (rmd_f (4 - round), cbrt_bits 40 (nth round [2; 3; 5; 7; 0] 0 * 2 ^ 90) 0).

Definition line_step (fk : nat -> (Z -> Z -> Z -> Z) * Z) (ws : list Z) (r : regs) (step : nat * nat * Z) : regs :=
  let '(a, b, c, d, e) := r in
  let '(round, i, s) := step in
  let '(f, k) := fk round in
  (e, u32 (rmd_rol s (u32 (a + f b c d + aget ws i + k)) + e), b, rmd_rol 10 c, d).

Definition words_list (w : words) : list Z :=
  let '(w0, w1, w2, w3, w4, w5, w6, w7, w8, w9, w10, w11, w12, w13, w14, w15) := w in
  [w0; w1; w2; w3; w4; w5; w6; w7; w8; w9; w10; w11; w12; w13; w14; w15].

Definition rmd_compress (s chunk : list Z) : list Z :=
  let ws := map (fun i => le_word 4 (drop (i * 4) chunk)) (seq 0 16) in
  let r0 := (aget s 0, aget s 1, aget s 2, aget s 3, aget s 4) in
  let '(a, b, c, d, e) := fold_left (line_step left_fk ws) (step_table (fun i => i)) r0 in
  let '(a', b', c', d', e') := fold_left (line_step right_fk ws) (step_table pi) r0 in
  [u32 (aget s 1 + c + d'); u32 (aget s 2 + d + e'); u32 (aget s 3 + e + a');
   u32 (aget s 4 + a + b'); u32 (aget s 0 + b + c')].

(** ** The unrolled code implements the reference *)

Lemma line_step_code fk ws round i s rest f k a b c d e :
  fk round = (f, k) ->
  fold_left (line_step fk ws) ((round, i, s) :: rest) (a, b, c, d, e) =
  let '(a', c') := Round a b c d e (f b c d) (aget ws i) k s in
  fold_left (line_step fk ws) rest (e, a', b, c', d).
Proof. intros E. cbn [fold_left]. unfold line_step at 2. by rewrite E. Qed.

Lemma rmd_left_fk :
  map left_fk (seq 0 5) =
  [(rmd_f 0, 0); (rmd_f 1, 0x5A827999); (rmd_f 2, 0x6ED9EBA1); (rmd_f 3, 0x8F1BBCDC); (rmd_f 4, 0xA953FD4E)].
Proof. reflexivity. Qed.
Lemma rmd_right_fk :
  map right_fk (seq 0 5) =
  [(rmd_f 4, 0x50A28BE6); (rmd_f 3, 0x5C4DD124); (rmd_f 2, 0x6D703EF3); (rmd_f 1, 0x7A6D76E9); (rmd_f 0, 0)].
Proof. reflexivity. Qed.

Lemma R11_step a b c d e ws i s rest :
  fold_left (line_step left_fk ws) ((0%nat, i, s) :: rest) (a, b, c, d, e) =
  let '(a', c') := R11 a b c d e (aget ws i) s in
  fold_left (line_step left_fk ws) rest (e, a', b, c', d).
Proof. by apply line_step_code. Qed.
Lemma R12_step a b c d e ws i s rest :
  fold_left (line_step right_fk ws) ((0%nat, i, s) :: rest) (a, b, c, d, e) =
  let '(a', c') := R12 a b c d e (aget ws i) s in
  fold_left (line_step right_fk ws) rest (e, a', b, c', d).
Proof. by apply line_step_code. Qed.
Lemma R21_step a b c d e ws i s rest :
  fold_left (line_step left_fk ws) ((1%nat, i, s) :: rest) (a, b, c, d, e) =
  let '(a', c') := R21 a b c d e (aget ws i) s in
  fold_left (line_step left_fk ws) rest (e, a', b, c', d).
Proof. by apply line_step_code. Qed.
Lemma R22_step a b c d e ws i s rest :
  fold_left (line_step right_fk ws) ((1%nat, i, s) :: rest) (a, b, c, d, e) =
  let '(a', c') := R22 a b c d e (aget ws i) s in
  fold_left (line_step right_fk ws) rest (e, a', b, c', d).
Proof. by apply line_step_code. Qed.
Lemma R31_step a b c d e ws i s rest :
  fold_left (line_step left_fk ws) ((2%nat, i, s) :: rest) (a, b, c, d, e) =
  let '(a', c') := R31 a b c d e (aget ws i) s in
  fold_left (line_step left_fk ws) rest (e, a', b, c', d).
Proof. by apply line_step_code. Qed.
Lemma R32_step a b c d e ws i s rest :
  fold_left (line_step right_fk ws) ((2%nat, i, s) :: rest) (a, b, c, d, e) =
  let '(a', c') := R32 a b c d e (aget ws i) s in
  fold_left (line_step right_fk ws) rest (e, a', b, c', d).
Proof. by apply line_step_code. Qed.
Lemma R41_step a b c d e ws i s rest :
  fold_left (line_step left_fk ws) ((3%nat, i, s) :: rest) (a, b, c, d, e) =
  let '(a', c') := R41 a b c d e (aget ws i) s in
  fold_left (line_step left_fk ws) rest (e, a', b, c', d).
Proof. by apply line_step_code. Qed.
Lemma R42_step a b c d e ws i s rest :
  fold_left (line_step right_fk ws) ((3%nat, i, s) :: rest) (a, b, c, d, e) =
  let '(a', c') := R42 a b c d e (aget ws i) s in
  fold_left (line_step right_fk ws) rest (e, a', b, c', d).
Proof. by apply line_step_code. Qed.
Lemma R51_step a b c d e ws i s rest :
  fold_left (line_step left_fk ws) ((4%nat, i, s) :: rest) (a, b, c, d, e) =
  let '(a', c') := R51 a b c d e (aget ws i) s in
  fold_left (line_step left_fk ws) rest (e, a', b, c', d).
Proof. by apply line_step_code. Qed.
Lemma R52_step a b c d e ws i s rest :
  fold_left (line_step right_fk ws) ((4%nat, i, s) :: rest) (a, b, c, d, e) =
  let '(a', c') := R52 a b c d e (aget ws i) s in
  fold_left (line_step right_fk ws) rest (e, a', b, c', d).
Proof. by apply line_step_code. Qed.

Lemma left_table : step_table (fun i => i) =
  [(0%nat, 0%nat, 11); (0%nat, 1%nat, 14); (0%nat, 2%nat, 15); (0%nat, 3%nat, 12);
     (0%nat, 4%nat, 5); (0%nat, 5%nat, 8); (0%nat, 6%nat, 7); (0%nat, 7%nat, 9);
     (0%nat, 8%nat, 11); (0%nat, 9%nat, 13); (0%nat, 10%nat, 14); (0%nat, 11%nat, 15);
     (0%nat, 12%nat, 6); (0%nat, 13%nat, 7); (0%nat, 14%nat, 9); (0%nat, 15%nat, 8)] ++
  [(1%nat, 7%nat, 7); (1%nat, 4%nat, 6); (1%nat, 13%nat, 8); (1%nat, 1%nat, 13);
     (1%nat, 10%nat, 11); (1%nat, 6%nat, 9); (1%nat, 15%nat, 7); (1%nat, 3%nat, 15);
     (1%nat, 12%nat, 7); (1%nat, 0%nat, 12); (1%nat, 9%nat, 15); (1%nat, 5%nat, 9);
     (1%nat, 2%nat, 11); (1%nat, 14%nat, 7); (1%nat, 11%nat, 13); (1%nat, 8%nat, 12)] ++
  [(2%nat, 3%nat, 11); (2%nat, 10%nat, 13); (2%nat, 14%nat, 6); (2%nat, 4%nat, 7);
     (2%nat, 9%nat, 14); (2%nat, 15%nat, 9); (2%nat, 8%nat, 13); (2%nat, 1%nat, 15);
     (2%nat, 2%nat, 14); (2%nat, 7%nat, 8); (2%nat, 0%nat, 13); (2%nat, 6%nat, 6);
     (2%nat, 13%nat, 5); (2%nat, 11%nat, 12); (2%nat, 5%nat, 7); (2%nat, 12%nat, 5)] ++
  [(3%nat, 1%nat, 11); (3%nat, 9%nat, 12); (3%nat, 11%nat, 14); (3%nat, 10%nat, 15);
     (3%nat, 0%nat, 14); (3%nat, 8%nat, 15); (3%nat, 12%nat, 9); (3%nat, 4%nat, 8);
     (3%nat, 13%nat, 9); (3%nat, 3%nat, 14); (3%nat, 7%nat, 5); (3%nat, 15%nat, 6);
     (3%nat, 14%nat, 8); (3%nat, 5%nat, 6); (3%nat, 6%nat, 5); (3%nat, 2%nat, 12)] ++
  [(4%nat, 4%nat, 9); (4%nat, 0%nat, 15); (4%nat, 5%nat, 5); (4%nat, 9%nat, 11);
     (4%nat, 7%nat, 6); (4%nat, 12%nat, 8); (4%nat, 2%nat, 13); (4%nat, 10%nat, 12);
     (4%nat, 14%nat, 5); (4%nat, 1%nat, 12); (4%nat, 3%nat, 13); (4%nat, 8%nat, 14);
     (4%nat, 11%nat, 11); (4%nat, 6%nat, 8); (4%nat, 15%nat, 5); (4%nat, 13%nat, 6)] ++ [].
Proof. reflexivity. Qed.
Lemma right_table : step_table pi =
  [(0%nat, 5%nat, 8); (0%nat, 14%nat, 9); (0%nat, 7%nat, 9); (0%nat, 0%nat, 11);
     (0%nat, 9%nat, 13); (0%nat, 2%nat, 15); (0%nat, 11%nat, 15); (0%nat, 4%nat, 5);
     (0%nat, 13%nat, 7); (0%nat, 6%nat, 7); (0%nat, 15%nat, 8); (0%nat, 8%nat, 11);
     (0%nat, 1%nat, 14); (0%nat, 10%nat, 14); (0%nat, 3%nat, 12); (0%nat, 12%nat, 6)] ++
  [(1%nat, 6%nat, 9); (1%nat, 11%nat, 13); (1%nat, 3%nat, 15); (1%nat, 7%nat, 7);
     (1%nat, 0%nat, 12); (1%nat, 13%nat, 8); (1%nat, 5%nat, 9); (1%nat, 10%nat, 11);
     (1%nat, 14%nat, 7); (1%nat, 15%nat, 7); (1%nat, 8%nat, 12); (1%nat, 12%nat, 7);
     (1%nat, 4%nat, 6); (1%nat, 9%nat, 15); (1%nat, 1%nat, 13); (1%nat, 2%nat, 11)] ++
  [(2%nat, 15%nat, 9); (2%nat, 5%nat, 7); (2%nat, 1%nat, 15); (2%nat, 3%nat, 11);
     (2%nat, 7%nat, 8); (2%nat, 14%nat, 6); (2%nat, 6%nat, 6); (2%nat, 9%nat, 14);
     (2%nat, 11%nat, 12); (2%nat, 8%nat, 13); (2%nat, 12%nat, 5); (2%nat, 2%nat, 14);
     (2%nat, 10%nat, 13); (2%nat, 0%nat, 13); (2%nat, 4%nat, 7); (2%nat, 13%nat, 5)] ++
  [(3%nat, 8%nat, 15); (3%nat, 6%nat, 5); (3%nat, 4%nat, 8); (3%nat, 1%nat, 11);
     (3%nat, 3%nat, 14); (3%nat, 11%nat, 14); (3%nat, 15%nat, 6); (3%nat, 0%nat, 14);
     (3%nat, 5%nat, 6); (3%nat, 12%nat, 9); (3%nat, 2%nat, 12); (3%nat, 13%nat, 9);
     (3%nat, 9%nat, 12); (3%nat, 7%nat, 5); (3%nat, 10%nat, 15); (3%nat, 14%nat, 8)] ++
  [(4%nat, 12%nat, 8); (4%nat, 15%nat, 5); (4%nat, 10%nat, 12); (4%nat, 4%nat, 9);
     (4%nat, 1%nat, 12); (4%nat, 5%nat, 5); (4%nat, 8%nat, 14); (4%nat, 7%nat, 6);
     (4%nat, 6%nat, 8); (4%nat, 2%nat, 13); (4%nat, 13%nat, 6); (4%nat, 14%nat, 5);
     (4%nat, 0%nat, 15); (4%nat, 3%nat, 13); (4%nat, 9%nat, 11); (4%nat, 11%nat, 11)] ++ [].
Proof. reflexivity. Qed.

(** The code renames its registers where the reference moves them. *)
Definition rotate (r : regs) : regs := let '(a, b, c, d, e) := r in (e, a, b, c, d).

Ltac line_step2 lem :=
  rewrite lem; cbv beta iota delta [aget nth];
  lazymatch goal with
  | |- (let (_, _) := ?t in _) = _ -> _ =>
      let a' := fresh "a" in let c' := fresh "c" in
      generalize t; intros [a' c']; cbv beta iota
  end.

Lemma rmd_group_0 l r w l' r' ls rs :
  Rounds0 l r w = (l', r') ->
  fold_left (line_step left_fk (words_list w)) (
    [(0%nat, 0%nat, 11); (0%nat, 1%nat, 14); (0%nat, 2%nat, 15); (0%nat, 3%nat, 12);
     (0%nat, 4%nat, 5); (0%nat, 5%nat, 8); (0%nat, 6%nat, 7); (0%nat, 7%nat, 9);
     (0%nat, 8%nat, 11); (0%nat, 9%nat, 13); (0%nat, 10%nat, 14); (0%nat, 11%nat, 15);
     (0%nat, 12%nat, 6); (0%nat, 13%nat, 7); (0%nat, 14%nat, 9); (0%nat, 15%nat, 8)] ++ ls) l =
  fold_left (line_step left_fk (words_list w)) ls (Nat.iter 1 rotate l') /\
  fold_left (line_step right_fk (words_list w)) (
    [(0%nat, 5%nat, 8); (0%nat, 14%nat, 9); (0%nat, 7%nat, 9); (0%nat, 0%nat, 11);
     (0%nat, 9%nat, 13); (0%nat, 2%nat, 15); (0%nat, 11%nat, 15); (0%nat, 4%nat, 5);
     (0%nat, 13%nat, 7); (0%nat, 6%nat, 7); (0%nat, 15%nat, 8); (0%nat, 8%nat, 11);
     (0%nat, 1%nat, 14); (0%nat, 10%nat, 14); (0%nat, 3%nat, 12); (0%nat, 12%nat, 6)] ++ rs) r =
  fold_left (line_step right_fk (words_list w)) rs (Nat.iter 1 rotate r').
Proof.
  revert l r w. intros [[[[a1 b1] c1] d1] e1] [[[[a2 b2] c2] d2] e2].
  intros [[[[[[[[[[[[[[[w0 w1] w2] w3] w4] w5] w6] w7] w8] w9] w10] w11] w12] w13] w14] w15].
  cbv beta iota delta [Rounds0 words_list app Nat.iter nat_rect rotate].
  do 16 (line_step2 R11_step; line_step2 R12_step). intros [= <- <-]. done.
Qed.

Lemma rmd_group_1 l r w l' r' ls rs :
  Rounds1 l r w = (l', r') ->
  fold_left (line_step left_fk (words_list w)) (
    [(1%nat, 7%nat, 7); (1%nat, 4%nat, 6); (1%nat, 13%nat, 8); (1%nat, 1%nat, 13);
     (1%nat, 10%nat, 11); (1%nat, 6%nat, 9); (1%nat, 15%nat, 7); (1%nat, 3%nat, 15);
     (1%nat, 12%nat, 7); (1%nat, 0%nat, 12); (1%nat, 9%nat, 15); (1%nat, 5%nat, 9);
     (1%nat, 2%nat, 11); (1%nat, 14%nat, 7); (1%nat, 11%nat, 13); (1%nat, 8%nat, 12)] ++ ls) (Nat.iter 1 rotate l) =
  fold_left (line_step left_fk (words_list w)) ls (Nat.iter 2 rotate l') /\
  fold_left (line_step right_fk (words_list w)) (
    [(1%nat, 6%nat, 9); (1%nat, 11%nat, 13); (1%nat, 3%nat, 15); (1%nat, 7%nat, 7);
     (1%nat, 0%nat, 12); (1%nat, 13%nat, 8); (1%nat, 5%nat, 9); (1%nat, 10%nat, 11);
     (1%nat, 14%nat, 7); (1%nat, 15%nat, 7); (1%nat, 8%nat, 12); (1%nat, 12%nat, 7);
     (1%nat, 4%nat, 6); (1%nat, 9%nat, 15); (1%nat, 1%nat, 13); (1%nat, 2%nat, 11)] ++ rs) (Nat.iter 1 rotate r) =
  fold_left (line_step right_fk (words_list w)) rs (Nat.iter 2 rotate r').
Proof.
  revert l r w. intros [[[[a1 b1] c1] d1] e1] [[[[a2 b2] c2] d2] e2].
  intros [[[[[[[[[[[[[[[w0 w1] w2] w3] w4] w5] w6] w7] w8] w9] w10] w11] w12] w13] w14] w15].
  cbv beta iota delta [Rounds1 words_list app Nat.iter nat_rect rotate].
  do 16 (line_step2 R21_step; line_step2 R22_step). intros [= <- <-]. done.
Qed.

Lemma rmd_group_2 l r w l' r' ls rs :
  Rounds2 l r w = (l', r') ->
  fold_left (line_step left_fk (words_list w)) (
    [(2%nat, 3%nat, 11); (2%nat, 10%nat, 13); (2%nat, 14%nat, 6); (2%nat, 4%nat, 7);
     (2%nat, 9%nat, 14); (2%nat, 15%nat, 9); (2%nat, 8%nat, 13); (2%nat, 1%nat, 15);
     (2%nat, 2%nat, 14); (2%nat, 7%nat, 8); (2%nat, 0%nat, 13); (2%nat, 6%nat, 6);
     (2%nat, 13%nat, 5); (2%nat, 11%nat, 12); (2%nat, 5%nat, 7); (2%nat, 12%nat, 5)] ++ ls) (Nat.iter 2 rotate l) =
  fold_left (line_step left_fk (words_list w)) ls (Nat.iter 3 rotate l') /\
  fold_left (line_step right_fk (words_list w)) (
    [(2%nat, 15%nat, 9); (2%nat, 5%nat, 7); (2%nat, 1%nat, 15); (2%nat, 3%nat, 11);
     (2%nat, 7%nat, 8); (2%nat, 14%nat, 6); (2%nat, 6%nat, 6); (2%nat, 9%nat, 14);
     (2%nat, 11%nat, 12); (2%nat, 8%nat, 13); (2%nat, 12%nat, 5); (2%nat, 2%nat, 14);
     (2%nat, 10%nat, 13); (2%nat, 0%nat, 13); (2%nat, 4%nat, 7); (2%nat, 13%nat, 5)] ++ rs) (Nat.iter 2 rotate r) =
  fold_left (line_step right_fk (words_list w)) rs (Nat.iter 3 rotate r').
Proof.
  revert l r w. intros [[[[a1 b1] c1] d1] e1] [[[[a2 b2] c2] d2] e2].
  intros [[[[[[[[[[[[[[[w0 w1] w2] w3] w4] w5] w6] w7] w8] w9] w10] w11] w12] w13] w14] w15].
  cbv beta iota delta [Rounds2 words_list app Nat.iter nat_rect rotate].
  do 16 (line_step2 R31_step; line_step2 R32_step). intros [= <- <-]. done.
Qed.

Lemma rmd_group_3 l r w l' r' ls rs :
  Rounds3 l r w = (l', r') ->
  fold_left (line_step left_fk (words_list w)) (
    [(3%nat, 1%nat, 11); (3%nat, 9%nat, 12); (3%nat, 11%nat, 14); (3%nat, 10%nat, 15);
     (3%nat, 0%nat, 14); (3%nat, 8%nat, 15); (3%nat, 12%nat, 9); (3%nat, 4%nat, 8);
     (3%nat, 13%nat, 9); (3%nat, 3%nat, 14); (3%nat, 7%nat, 5); (3%nat, 15%nat, 6);
     (3%nat, 14%nat, 8); (3%nat, 5%nat, 6); (3%nat, 6%nat, 5); (3%nat, 2%nat, 12)] ++ ls) (Nat.iter 3 rotate l) =
  fold_left (line_step left_fk (words_list w)) ls (Nat.iter 4 rotate l') /\
  fold_left (line_step right_fk (words_list w)) (
    [(3%nat, 8%nat, 15); (3%nat, 6%nat, 5); (3%nat, 4%nat, 8); (3%nat, 1%nat, 11);
     (3%nat, 3%nat, 14); (3%nat, 11%nat, 14); (3%nat, 15%nat, 6); (3%nat, 0%nat, 14);
     (3%nat, 5%nat, 6); (3%nat, 12%nat, 9); (3%nat, 2%nat, 12); (3%nat, 13%nat, 9);
     (3%nat, 9%nat, 12); (3%nat, 7%nat, 5); (3%nat, 10%nat, 15); (3%nat, 14%nat, 8)] ++ rs) (Nat.iter 3 rotate r) =
  fold_left (line_step right_fk (words_list w)) rs (Nat.iter 4 rotate r').
Proof.
  revert l r w. intros [[[[a1 b1] c1] d1] e1] [[[[a2 b2] c2] d2] e2].
  intros [[[[[[[[[[[[[[[w0 w1] w2] w3] w4] w5] w6] w7] w8] w9] w10] w11] w12] w13] w14] w15].
  cbv beta iota delta [Rounds3 words_list app Nat.iter nat_rect rotate].
  do 16 (line_step2 R41_step; line_step2 R42_step). intros [= <- <-]. done.
Qed.

Lemma rmd_group_4 l r w l' r' ls rs :
  Rounds4 l r w = (l', r') ->
  fold_left (line_step left_fk (words_list w)) (
    [(4%nat, 4%nat, 9); (4%nat, 0%nat, 15); (4%nat, 5%nat, 5); (4%nat, 9%nat, 11);
     (4%nat, 7%nat, 6); (4%nat, 12%nat, 8); (4%nat, 2%nat, 13); (4%nat, 10%nat, 12);
     (4%nat, 14%nat, 5); (4%nat, 1%nat, 12); (4%nat, 3%nat, 13); (4%nat, 8%nat, 14);
     (4%nat, 11%nat, 11); (4%nat, 6%nat, 8); (4%nat, 15%nat, 5); (4%nat, 13%nat, 6)] ++ ls) (Nat.iter 4 rotate l) =
  fold_left (line_step left_fk (words_list w)) ls (Nat.iter 5 rotate l') /\
  fold_left (line_step right_fk (words_list w)) (
    [(4%nat, 12%nat, 8); (4%nat, 15%nat, 5); (4%nat, 10%nat, 12); (4%nat, 4%nat, 9);
     (4%nat, 1%nat, 12); (4%nat, 5%nat, 5); (4%nat, 8%nat, 14); (4%nat, 7%nat, 6);
     (4%nat, 6%nat, 8); (4%nat, 2%nat, 13); (4%nat, 13%nat, 6); (4%nat, 14%nat, 5);
     (4%nat, 0%nat, 15); (4%nat, 3%nat, 13); (4%nat, 9%nat, 11); (4%nat, 11%nat, 11)] ++ rs) (Nat.iter 4 rotate r) =
  fold_left (line_step right_fk (words_list w)) rs (Nat.iter 5 rotate r').
Proof.
  revert l r w. intros [[[[a1 b1] c1] d1] e1] [[[[a2 b2] c2] d2] e2].
  intros [[[[[[[[[[[[[[[w0 w1] w2] w3] w4] w5] w6] w7] w8] w9] w10] w11] w12] w13] w14] w15].
  cbv beta iota delta [Rounds4 words_list app Nat.iter nat_rect rotate].
  do 16 (line_step2 R51_step; line_step2 R52_step). intros [= <- <-]. done.
Qed.

Lemma rmd_words_code chunk :
  map (fun i => le_word 4 (drop (i * 4) chunk)) (seq 0 16) = words_list (read_words chunk).
Proof.
  etransitivity; [|exact (eq_refl (map (fun i => ReadLE32 (drop (i * 4) chunk)) (seq 0 16)))].
  apply map_ext. intros i. by rewrite <- ReadLE_word.
Qed.

Lemma Transform160_unroll s chunk : Transform160 s chunk = rmd_compress s chunk.
Proof.
  unfold Transform160, rmd_compress. rewrite left_table, right_table.
  rewrite rmd_words_code.
  generalize (read_words chunk). intros w.
  set (s0 := (aget s 0, aget s 1, aget s 2, aget s 3, aget s 4)).
  destruct (Rounds0 s0 s0 w) as [l1 r1] eqn:E1.
  destruct (Rounds1 l1 r1 w) as [l2 r2] eqn:E2.
  destruct (Rounds2 l2 r2 w) as [l3 r3] eqn:E3.
  destruct (Rounds3 l3 r3 w) as [l4 r4] eqn:E4.
  destruct (Rounds4 l4 r4 w) as [l5 r5] eqn:E5.
  rewrite (proj1 (rmd_group_0 _ _ _ _ _ _ [] E1)), (proj2 (rmd_group_0 _ _ _ _ _ [] _ E1)).
  rewrite (proj1 (rmd_group_1 _ _ _ _ _ _ [] E2)), (proj2 (rmd_group_1 _ _ _ _ _ [] _ E2)).
  rewrite (proj1 (rmd_group_2 _ _ _ _ _ _ [] E3)), (proj2 (rmd_group_2 _ _ _ _ _ [] _ E3)).
  rewrite (proj1 (rmd_group_3 _ _ _ _ _ _ [] E4)), (proj2 (rmd_group_3 _ _ _ _ _ [] _ E4)).
  rewrite (proj1 (rmd_group_4 _ _ _ _ _ _ [] E5)), (proj2 (rmd_group_4 _ _ _ _ _ [] _ E5)).
  by destruct l5 as [[[[a1 b1] c1] d1] e1], r5 as [[[[a2 b2] c2] d2] e2].
Qed.

(** ** The hasher *)

Definition CRIPEMD160 : HashAlgo :=
  {| blockSize := 64;
     Initialize := Initialize160;
     Transform := Transform160;
     padConst := 119;
     sizedesc bits := WriteLE64 bits;
     digest s :=
       WriteLE32 (aget s 0) ++ WriteLE32 (aget s 1) ++ WriteLE32 (aget s 2) ++
       WriteLE32 (aget s 3) ++ WriteLE32 (aget s 4) |}.

(** The methods of the class. *)
Definition CRIPEMD160_new : list Z -> CHasher := @construct CRIPEMD160.
Definition CRIPEMD160_Write : CHasher -> list Z -> CHasher := @Write CRIPEMD160.
Definition CRIPEMD160_Finalize : CHasher -> list Z := @Finalize CRIPEMD160.
Definition CRIPEMD160_Reset : CHasher -> CHasher := @Reset CRIPEMD160.

#[export] Instance CRIPEMD160_laws : HashAlgoLaws CRIPEMD160.
Proof. split; cbn; [lia|by exists (2 ^ 58)|done|lia]. Qed.

(** RIPEMD-160 of a whole message. *)
Definition ref_ripemd160 : list Z -> list Z :=
  fips_hash 64 8 le_digits 4 5 fips_IV rmd_compress.

(** [CRIPEMD160().Write(data, len).Finalize(hash)] on a fresh hasher. *)
Definition ripemd160 (data : list Z) : list Z :=
  @Finalize CRIPEMD160 (@Write CRIPEMD160 (@construct CRIPEMD160 (replicate 64 0)) data).

Lemma CRIPEMD160_md msg : @md_hash CRIPEMD160 msg = ref_ripemd160 msg.
Proof.
  apply (md_hash_standard CRIPEMD160); [apply blockSize_pos|done|apply Transform160_unroll|done|rewrite <- le_digits_u64; apply le_bytes_digits|].
  intros s. cbn [digest CRIPEMD160 seq flat_map]. unfold WriteLE32. by rewrite !le_bytes_digits, app_nil_r.
Qed.

Lemma length_ripemd160 data : length (ripemd160 data) = 20%nat.
Proof. done. Qed.

(** The streaming hasher [CRIPEMD160], whatever its indeterminate buffer
    holds, however the message is cut into [Write] calls and whatever was hashed
    before a [Reset], returns the RIPEMD-160 digest of the concatenation of what
    was written: the 160 interleaved, register-renamed calls are the two lines
    of the specification, with its word order, rotations and constants. *)
Theorem CRIPEMD160_is_RIPEMD (buf : list Z) (before chunks : list (list Z)) :
  length buf = 64%nat ->
  CRIPEMD160_Finalize (fold_left CRIPEMD160_Write chunks (CRIPEMD160_new buf))
    = ref_ripemd160 (concat chunks) /\
  CRIPEMD160_Finalize (fold_left CRIPEMD160_Write chunks
    (CRIPEMD160_Reset (fold_left CRIPEMD160_Write before (CRIPEMD160_new buf))))
    = ref_ripemd160 (concat chunks).
Proof.
  intros Hb. rewrite <- CRIPEMD160_md. split.
  - by apply (Finalize_writes (H := CRIPEMD160) buf chunks []).
  - by apply (Finalize_writes (H := CRIPEMD160) buf before chunks).
Qed.

(** The digest of "abc", written byte by byte. *)
Lemma CRIPEMD160_is_RIPEMD_witness :
  CRIPEMD160_Finalize
    (fold_left CRIPEMD160_Write [[0x61]; [0x62]; [0x63]] (CRIPEMD160_new (replicate 64 7)))
    = ref_ripemd160 [0x61; 0x62; 0x63] /\
  ref_ripemd160 [0x61; 0x62; 0x63] =
    [0x8e; 0xb2; 0x8; 0xf7; 0xe0; 0x5d; 0x98; 0x7a; 0x9b; 0x4; 0x4a; 0x8e; 0x98; 0xc6; 0xb0; 0x87; 0xf1; 0x5a; 0xb; 0xfc].
Proof.
  split; [exact (proj1 (CRIPEMD160_is_RIPEMD (replicate 64 7) [] [[0x61]; [0x62]; [0x63]] eq_refl))|].
  vm_compute. reflexivity.
Defined.
