(* ===== verification/Hash.v ===== *)
(** * Composed hashes: double SHA-256, HASH160, HMAC
    (src/src/hash.h, src/src/hash.cpp, src/src/crypto/hmac_sha*.cpp)

    Hash functions built on the streaming hashers.  The theorems relate the
    stateful objects to the one-shot functions the rest of the node means by
    "the hash of": the digests of the standards, double SHA-256 of a concatenation,
    RFC 2104 HMAC. *)

From S2P Require Import Prelude Bytes HashEngine Sha256 Sha512 Sha1 Ripemd160.
Local Open Scope cxx_scope.

(** ** CHash256 and CHash160: a CSHA256 and what [Finalize] makes of it *)

Record CHash256 : Type := { h256_sha : CHasher }.

Definition CHash256_new (buf : list Z) : CHash256 := {| h256_sha := @construct CSHA256 buf |}.
Definition CHash256_Write (st : CHash256) (data : list Z) : CHash256 :=
  {| h256_sha := @Write CSHA256 (h256_sha st) data |}.
Definition CHash256_Reset (st : CHash256) : CHash256 := {| h256_sha := @Reset CSHA256 (h256_sha st) |}.

(** The member hasher is reset and reused for the second pass. *)
Definition CHash256_Finalize (st : CHash256) : list Z :=
  let buf := @Finalize CSHA256 (h256_sha st) in
  @Finalize CSHA256 (@Write CSHA256 (@Reset CSHA256 (@finalized CSHA256 (h256_sha st))) buf).

Record CHash160 : Type := { h160_sha : CHasher }.

Definition CHash160_new (buf : list Z) : CHash160 := {| h160_sha := @construct CSHA256 buf |}.
Definition CHash160_Write (st : CHash160) (data : list Z) : CHash160 :=
  {| h160_sha := @Write CSHA256 (h160_sha st) data |}.
Definition CHash160_Reset (st : CHash160) : CHash160 := {| h160_sha := @Reset CSHA256 (h160_sha st) |}.
Definition CHash160_Finalize (st : CHash160) : list Z :=
  let buf := @Finalize CSHA256 (h160_sha st) in
  @Finalize CRIPEMD160 (@Write CRIPEMD160 (@construct CRIPEMD160 (replicate 64 0)) buf).

(** [Hash(p1begin, p1end, ..., pnbegin, pnend)]: the overloads for one to six
    ranges write each range in turn. *)
Definition Hash (ranges : list (list Z)) : list Z :=
  CHash256_Finalize (fold_left CHash256_Write ranges (CHash256_new (replicate 64 0))).

Definition Hash160 (vch : list Z) : list Z :=
  CHash160_Finalize (CHash160_Write (CHash160_new (replicate 64 0)) vch).

(** [CHashWriter]: a serialization stream whose [write]s feed a [CHash256]. *)
Definition CHashWriter_GetHash (writes : list (list Z)) : list Z :=
  CHash256_Finalize (fold_left CHash256_Write writes (CHash256_new (replicate 64 0))).

(** ** HMAC (crypto/hmac_sha256.cpp, crypto/hmac_sha512.cpp) *)

Record CHMAC : Type := { hm_outer : CHasher; hm_inner : CHasher }.

(** The reference: RFC 2104 over a hash function [h] with blocks of [B] bytes. *)
Definition rfc2104 (B : nat) (h : list Z -> list Z) (key text : list Z) : list Z :=
  let k0 := if (length key <=? B)%nat then key else h key in
  let k0 := k0 ++ replicate (B - length k0) 0 in
  h (map (Z.lxor 0x5c) k0 ++ h (map (Z.lxor 0x36) k0 ++ text)).

(** Two hash functions that agree on messages shorter than [N], of digests no
    longer than a block, give the same HMAC of short enough keys and texts. *)
Lemma rfc2104_ext (B N : nat) h1 h2 key text :
  (forall m, (length m < N)%nat -> h1 m = h2 m) ->
  (forall m, length (h1 m) <= B)%nat ->
  (length key < N -> B + length text < N -> B + B < N ->
   rfc2104 B h1 key text = rfc2104 B h2 key text)%nat.
Proof.
  intros E Hl Hk Ht HN. unfold rfc2104. cbv zeta. rewrite <- (E key) by done.
  set (k0 := if (length key <=? B)%nat then key else h1 key).
  assert (length k0 <= B)%nat as Hk0.
  { unfold k0. destruct (Nat.leb_spec (length key) B); [done|apply Hl]. }
  set (kb := k0 ++ replicate (B - length k0) 0).
  assert (length kb = B) as Hkb by (unfold kb; rewrite length_app, length_replicate; lia).
  rewrite <- (E (map (Z.lxor 54) kb ++ text)) by (rewrite length_app, length_map; lia).
  apply E. rewrite length_app, length_map, Hkb. specialize (Hl (map (Z.lxor 54) kb ++ text)). lia.
Qed.

Section HMAC.
Context {H : HashAlgo}.

(** The key block: the key itself, or its digest when it is longer than a
    block, filled up with zeros. *)
Definition rkey (key : list Z) : list Z :=
  if (length key <=? blockSize)%nat then key ++ replicate (blockSize - length key) 0
  else
    let d := Finalize (Write (construct (replicate blockSize 0)) key) in
    d ++ replicate (blockSize - length d) 0.

(** [bo] and [bi] are the indeterminate buffers of the two member hashers. *)
Definition CHMAC_new (bo bi : list Z) (key : list Z) : CHMAC :=
  let rk := rkey key in
  let rk := map (fun b => b .^ 0x5c) rk in
  let outer := Write (construct bo) rk in
  let rk := map (fun b => b .^ (0x5c .^ 0x36)) rk in
  let inner := Write (construct bi) rk in
  {| hm_outer := outer; hm_inner := inner |}.

Definition CHMAC_Write (st : CHMAC) (data : list Z) : CHMAC :=
  {| hm_outer := hm_outer st; hm_inner := Write (hm_inner st) data |}.

Definition CHMAC_Finalize (st : CHMAC) : list Z :=
  let temp := Finalize (hm_inner st) in
  Finalize (Write (hm_outer st) temp).


Context {HL : HashAlgoLaws H}.

Lemma oneshot_md buf data : length buf = blockSize ->
  Finalize (Write (construct buf) data) = md_hash data.
Proof.
  intros Hb. apply Finalize_repr. apply (repr_Write _ []). by apply repr_construct.
Qed.

Lemma rkey_md key :
  rkey key = (let k0 := if (length key <=? blockSize)%nat then key else md_hash key in
              k0 ++ replicate (blockSize - length k0) 0).
Proof.
  unfold rkey. rewrite oneshot_md by (by rewrite length_replicate).
  by destruct (length key <=? blockSize)%nat.
Qed.

Lemma xor_flip x : x .^ 0x5c .^ (0x5c .^ 0x36) = Z.lxor 0x36 x.
Proof.
  rewrite <- Z.lxor_assoc, (Z.lxor_assoc x), Z.lxor_nilpotent, Z.lxor_0_r. apply Z.lxor_comm.
Qed.

Lemma CHMAC_rfc2104 bo bi key chunks :
  length bo = blockSize -> length bi = blockSize ->
  CHMAC_Finalize (fold_left CHMAC_Write chunks (CHMAC_new bo bi key)) =
  rfc2104 blockSize md_hash key (concat chunks).
Proof.
  intros Ho Hi. unfold CHMAC_new. rewrite rkey_md. unfold rfc2104.
  set (k0 := (if (length key <=? blockSize)%nat then key else md_hash key)).
  set (kb := k0 ++ _). cbv zeta. rewrite map_map.
  rewrite (map_ext (fun x => x .^ 0x5c .^ (0x5c .^ 0x36)) (Z.lxor 0x36)) by apply xor_flip.
  rewrite (map_ext (fun x => x .^ 0x5c) (Z.lxor 0x5c)) by (intros; apply Z.lxor_comm).
  apply repr_construct in Ho, Hi.
  apply (repr_Write _ _ (map (Z.lxor 0x5c) kb)) in Ho. apply (repr_Write _ _ (map (Z.lxor 0x36) kb)) in Hi.
  cbn [app] in Ho, Hi.
  assert (forall st m, repr (hm_inner st) m ->
    hm_outer (fold_left CHMAC_Write chunks st) = hm_outer st /\
    repr (hm_inner (fold_left CHMAC_Write chunks st)) (m ++ concat chunks)) as Hfold.
  { induction chunks as [|c cs IH]; intros st m Hm; cbn [fold_left concat]; [by rewrite app_nil_r|].
    destruct (IH (CHMAC_Write st c) (m ++ c)) as [Eo Er]; [by apply repr_Write|].
    rewrite Eo. split; [done|]. by rewrite app_assoc. }
  match goal with |- context [fold_left _ _ ?st] => destruct (Hfold st _ Hi) as [Eo Er] end.
  unfold CHMAC_Finalize. rewrite Eo, (Finalize_repr _ _ Er). cbn [hm_outer].
  by apply Finalize_repr, repr_Write.
Qed.
End HMAC.

(** The two classes of the source. *)
Definition CHMAC_SHA256_new : list Z -> list Z -> list Z -> CHMAC := @CHMAC_new CSHA256.
Definition CHMAC_SHA256_Write : CHMAC -> list Z -> CHMAC := @CHMAC_Write CSHA256.
Definition CHMAC_SHA256_Finalize : CHMAC -> list Z := @CHMAC_Finalize CSHA256.
Definition CHMAC_SHA512_new : list Z -> list Z -> list Z -> CHMAC := @CHMAC_new CSHA512.
Definition CHMAC_SHA512_Write : CHMAC -> list Z -> CHMAC := @CHMAC_Write CSHA512.
Definition CHMAC_SHA512_Finalize : CHMAC -> list Z := @CHMAC_Finalize CSHA512.

(** [BIP32Hash]: the child number, big-endian, after the header and the data. *)
Definition BIP32Hash (bo bi chainCode : list Z) (nChild header : Z) (data : list Z) : list Z :=
  let num := [(nChild .>> 24) .& 0xFF; (nChild .>> 16) .& 0xFF; (nChild .>> 8) .& 0xFF; (nChild .>> 0) .& 0xFF] in
  CHMAC_SHA512_Finalize
    (CHMAC_SHA512_Write (CHMAC_SHA512_Write (CHMAC_SHA512_Write
      (CHMAC_SHA512_new bo bi chainCode) [header]) data) num).

(** ** The composed hashes are what their names say *)

Lemma CHash256_double buf chunks :
  length buf = 64%nat ->
  CHash256_Finalize (fold_left CHash256_Write chunks (CHash256_new buf)) =
  fips_sha256 (fips_sha256 (concat chunks)).
Proof.
  intros Hb. apply (repr_construct (H := CSHA256)) in Hb.
  assert (forall st m, @repr CSHA256 (h256_sha st) m ->
    @repr CSHA256 (h256_sha (fold_left CHash256_Write chunks st)) (m ++ concat chunks)) as Hf.
  { induction chunks as [|c cs IH]; intros st m Hm; cbn [fold_left concat]; [by rewrite app_nil_r|].
    rewrite app_assoc. apply IH. by apply (repr_Write (H := CSHA256)). }
  specialize (Hf (CHash256_new buf) [] Hb). cbn [app] in Hf.
  unfold CHash256_Finalize. rewrite (Finalize_repr (H := CSHA256) _ _ Hf).
  rewrite <- (CSHA256_md (concat chunks)), <- (CSHA256_md (md_hash _)).
  apply (Finalize_repr (H := CSHA256)). apply (repr_Write (H := CSHA256) _ []).
  by eapply finalized_Reset.
Qed.

Lemma Hash_double ranges : Hash ranges = fips_sha256 (fips_sha256 (concat ranges)).
Proof. by apply CHash256_double. Qed.

Lemma Hash160_spec vch : Hash160 vch = ref_ripemd160 (fips_sha256 vch).
Proof.
  unfold Hash160, CHash160_Finalize, CHash160_Write, CHash160_new. cbn [h160_sha].
  rewrite !oneshot_md by done. by rewrite CSHA256_md, CRIPEMD160_md.
Qed.

Lemma length_Hash ranges : length (Hash ranges) = 32%nat.
Proof. done. Qed.

(** C39: The four streaming hashers compute their standards.  Whatever its
    indeterminate buffer holds, however the message is cut into [Write] calls and
    whatever was hashed before a [Reset], each returns the digest FIPS 180-4 (for
    RIPEMD-160, its specification) gives for the concatenation of what was written,
    when that is shorter than [2^61] bytes: the initial value, the words of a block,
    the unrolled rounds with renamed registers and in-place schedules, the padding
    and the length field, and the bytes of the digest are those of the standards,
    stated in [Fips180] without the code's definitions. *)
Theorem streaming_hashers_are_standard (buf buf512 : list Z) (before chunks : list (list Z)) :
  length buf = 64%nat -> length buf512 = 128%nat ->
  Z.of_nat (length (concat chunks)) < 2 ^ 61 ->
  CSHA256_Finalize (fold_left CSHA256_Write chunks (CSHA256_Reset (fold_left CSHA256_Write before (CSHA256_new buf))))
    = fips_sha256 (concat chunks) /\
  CSHA512_Finalize (fold_left CSHA512_Write chunks (CSHA512_Reset (fold_left CSHA512_Write before (CSHA512_new buf512))))
    = fips_sha512 (concat chunks) /\
  CSHA1_Finalize (fold_left CSHA1_Write chunks (CSHA1_Reset (fold_left CSHA1_Write before (CSHA1_new buf))))
    = fips_sha1 (concat chunks) /\
  CRIPEMD160_Finalize
    (fold_left CRIPEMD160_Write chunks (CRIPEMD160_Reset (fold_left CRIPEMD160_Write before (CRIPEMD160_new buf))))
    = ref_ripemd160 (concat chunks) /\
  CSHA256_Finalize (fold_left CSHA256_Write chunks (CSHA256_new buf)) = fips_sha256 (concat chunks) /\
  CSHA512_Finalize (fold_left CSHA512_Write chunks (CSHA512_new buf512)) = fips_sha512 (concat chunks) /\
  CSHA1_Finalize (fold_left CSHA1_Write chunks (CSHA1_new buf)) = fips_sha1 (concat chunks) /\
  CRIPEMD160_Finalize (fold_left CRIPEMD160_Write chunks (CRIPEMD160_new buf)) = ref_ripemd160 (concat chunks).
Proof.
  intros H H512 Hl. destruct (CSHA256_is_FIPS buf before chunks H), (CSHA512_is_FIPS buf512 before chunks H512 Hl),
    (CSHA1_is_FIPS buf before chunks H), (CRIPEMD160_is_RIPEMD buf before chunks H). tauto.
Qed.

(** "abc" in two pieces, after something else. *)
Lemma streaming_hashers_are_standard_witness :
  CSHA256_Finalize (fold_left CSHA256_Write [[0x61]; [0x62; 0x63]] (CSHA256_new (replicate 64 7)))
    = fips_sha256 [0x61; 0x62; 0x63] /\
  CRIPEMD160_Finalize (fold_left CRIPEMD160_Write [[0x61]; [0x62; 0x63]]
    (CRIPEMD160_Reset (fold_left CRIPEMD160_Write [[1; 2; 3]] (CRIPEMD160_new (replicate 64 7)))))
    = ref_ripemd160 [0x61; 0x62; 0x63] /\
  ref_ripemd160 [0x61; 0x62; 0x63] =
    [0x8e; 0xb2; 0x8; 0xf7; 0xe0; 0x5d; 0x98; 0x7a; 0x9b; 0x4; 0x4a; 0x8e; 0x98; 0xc6; 0xb0; 0x87; 0xf1; 0x5a; 0xb; 0xfc].
Proof.
  destruct (streaming_hashers_are_standard (replicate 64 7) (replicate 128 7) [[1; 2; 3]] [[0x61]; [0x62; 0x63]]
    eq_refl eq_refl eq_refl) as (_ & _ & _ & H1 & H2 & _).
  split; [exact H2|]. split; [exact H1|]. vm_compute. reflexivity.
Defined.

(** The hash objects of hash.h are their textbook functions.  A [CHash256]
    fed in any pieces, and each overload of [Hash], give SHA-256 of SHA-256 of
    the concatenation, although the second pass reuses the first pass's hasher
    after a [Reset]; [Hash160] gives RIPEMD-160 of SHA-256. *)
Theorem composed_hashes (buf : list Z) (ranges : list (list Z)) (vch : list Z) :
  length buf = 64%nat ->
  CHash256_Finalize (fold_left CHash256_Write ranges (CHash256_new buf)) =
    fips_sha256 (fips_sha256 (concat ranges)) /\
  CHash256_Finalize (fold_left CHash256_Write ranges
    (CHash256_Reset (fold_left CHash256_Write [vch] (CHash256_new buf)))) =
    fips_sha256 (fips_sha256 (concat ranges)) /\
  Hash ranges = fips_sha256 (fips_sha256 (concat ranges)) /\
  Hash160 vch = ref_ripemd160 (fips_sha256 vch).
Proof.
  intros Hb. split_and!; [by apply CHash256_double| |apply Hash_double|apply Hash160_spec].
  assert (length (h_buf (@Write CSHA256 (@construct CSHA256 buf) vch)) = 64%nat) as Hl.
  { apply (repr_Write (H := CSHA256) _ [] vch). by apply (repr_construct (H := CSHA256)). }
  exact (CHash256_double _ ranges Hl).
Qed.

Lemma composed_hashes_witness :
  CHash256_Finalize (fold_left CHash256_Write [[1]; [2; 3]] (CHash256_new (replicate 64 9))) =
    fips_sha256 (fips_sha256 [1; 2; 3]).
Proof. exact (proj1 (composed_hashes (replicate 64 9) [[1]; [2; 3]] [] eq_refl)). Defined.

(** [CHMAC_SHA256] and [CHMAC_SHA512] compute HMAC of RFC 2104 over their
    hash, for keys shorter than, as long as and longer than a block, and for any
    cutting of the text into [Write]s; [BIP32Hash] is HMAC-SHA512 keyed with the
    chain code, of the header, the key data and the big-endian child number.  The
    bounds are SHA-512's, whose length field the code fills to [2^64] bits only. *)
Theorem CHMAC_is_HMAC (bo bi key : list Z) (chunks : list (list Z)) :
  (length bo = 64%nat -> length bi = 64%nat ->
   CHMAC_SHA256_Finalize (fold_left CHMAC_SHA256_Write chunks (CHMAC_SHA256_new bo bi key)) =
   rfc2104 64 fips_sha256 key (concat chunks)) /\
  (length bo = 128%nat -> length bi = 128%nat -> Z.of_nat (length key) < 2 ^ 61 ->
   (Z.of_nat (length (concat chunks)) < 2 ^ 61 - 128 ->
    CHMAC_SHA512_Finalize (fold_left CHMAC_SHA512_Write chunks (CHMAC_SHA512_new bo bi key)) =
    rfc2104 128 fips_sha512 key (concat chunks)) /\
   forall nChild header data, Z.of_nat (length data) < 2 ^ 61 - 133 ->
     BIP32Hash bo bi key nChild header data =
     rfc2104 128 fips_sha512 key ([header] ++ data ++ WriteBE32 nChild)).
Proof.
  assert (forall text, Z.of_nat (length key) < 2 ^ 61 -> Z.of_nat (length text) < 2 ^ 61 - 128 ->
    rfc2104 128 (@md_hash CSHA512) key text = rfc2104 128 fips_sha512 key text) as E512.
  { intros text Hk Ht. apply (rfc2104_ext 128 (Z.to_nat (2 ^ 61))); [|intros m|lia..].
    - intros m Hm. apply CSHA512_md. lia.
    - unfold md_hash. rewrite length_digest512. lia. }
  split; intros Ho Hi; [|intros Hk; split].
  - etransitivity; [by apply (CHMAC_rfc2104 (H := CSHA256))|].
    unfold rfc2104. by rewrite !CSHA256_md.
  - intros Ht. etransitivity; [by apply (CHMAC_rfc2104 (H := CSHA512))|]. by apply E512.
  - intros nChild header data Hd.
    pose proof (CHMAC_rfc2104 (H := CSHA512) bo bi key [[header]; data; WriteBE32 nChild] Ho Hi) as E.
    cbn [concat] in E. rewrite app_nil_r in E. etransitivity; [exact E|]. apply E512; [done|].
    rewrite !length_app. cbn [length]. change (length (WriteBE32 nChild)) with 4%nat. lia.
Qed.

(** The second test case of RFC 4231: key "Jefe", a 28-byte text. *)
Lemma CHMAC_is_HMAC_witness :
  let text := map Z.of_nat [119; 104; 97; 116; 32; 100; 111; 32; 121; 97; 32; 119; 97; 110; 116; 32;
                            102; 111; 114; 32; 110; 111; 116; 104; 105; 110; 103; 63]%nat in
  CHMAC_SHA256_Finalize (fold_left CHMAC_SHA256_Write [text]
    (CHMAC_SHA256_new (replicate 64 1) (replicate 64 2) [74; 101; 102; 101])) =
  rfc2104 64 fips_sha256 [74; 101; 102; 101] (concat [text]) /\
  rfc2104 64 fips_sha256 [74; 101; 102; 101] text =
    [0x5b; 0xdc; 0xc1; 0x46; 0xbf; 0x60; 0x75; 0x4e; 0x6a; 0x4; 0x24; 0x26; 0x8; 0x95; 0x75; 0xc7; 0x5a; 0x0; 0x3f; 0x8; 0x9d; 0x27; 0x39; 0x83; 0x9d; 0xec; 0x58; 0xb9; 0x64; 0xec; 0x38; 0x43].
Proof.
  intros text. split.
  - exact (proj1 (CHMAC_is_HMAC (replicate 64 1) (replicate 64 2) [74; 101; 102; 101] [text]) eq_refl eq_refl).
  - vm_compute. reflexivity.
Defined.
