(* ===== verification/SipHash.v ===== *)
(** * SipHash-2-4 and MurmurHash3 (src/src/hash.cpp)

    [CSipHasher] absorbs bytes one at a time into a pending word; the reference
    [siphash] is the definition of SipHash-2-4 over the little-endian words of
    the whole message.  The specialised routines for a 256-bit value, used for
    the node's salted hash tables, are proved equal to it as well. *)

From S2P Require Import Prelude Bytes.
Local Open Scope cxx_scope.

(** ** The round *)

Definition ROTL (x b : Z) : Z := u64 (u64 (x .<< b) .| (x .>> (64 - b))).

Definition sipv : Type := (Z * Z * Z * Z)%type.

Definition SIPROUND (v : sipv) : sipv :=
  let '(v0, v1, v2, v3) := v in
  let v0 := u64 (v0 + v1) in let v1 := ROTL v1 13 in let v1 := v1 .^ v0 in
  let v0 := ROTL v0 32 in
  let v2 := u64 (v2 + v3) in let v3 := ROTL v3 16 in let v3 := v3 .^ v2 in
  let v0 := u64 (v0 + v3) in let v3 := ROTL v3 21 in let v3 := v3 .^ v0 in
  let v2 := u64 (v2 + v1) in let v1 := ROTL v1 17 in let v1 := v1 .^ v2 in
  let v2 := ROTL v2 32 in
  (v0, v1, v2, v3).

(** [v3 ^= data; SIPROUND; SIPROUND; v0 ^= data;] *)
Definition sip_absorb (v : sipv) (data : Z) : sipv :=
  let '(v0, v1, v2, v3) := v in
  let v3 := v3 .^ data in
  let '(v0, v1, v2, v3) := SIPROUND (SIPROUND (v0, v1, v2, v3)) in
  (v0 .^ data, v1, v2, v3).

(** [v2 ^= 0xFF; SIPROUND; SIPROUND; SIPROUND; SIPROUND; return v0 ^ v1 ^ v2 ^ v3;] *)
Definition sip_finish (v : sipv) : Z :=
  let '(v0, v1, v2, v3) := v in
  let '(v0, v1, v2, v3) := SIPROUND (SIPROUND (SIPROUND (SIPROUND (v0, v1, v2 .^ 0xFF, v3)))) in
  v0 .^ v1 .^ v2 .^ v3.

(** ** CSipHasher *)

Record CSipHasher : Type := { sip_v : sipv; sip_tmp : Z; sip_count : Z }.

Definition sip_init (k0 k1 : Z) : sipv :=
  (0x736f6d6570736575 .^ k0, 0x646f72616e646f6d .^ k1,
   0x6c7967656e657261 .^ k0, 0x7465646279746573 .^ k1).

Definition CSipHasher_new (k0 k1 : Z) : CSipHasher :=
  {| sip_v := sip_init k0 k1; sip_tmp := 0; sip_count := 0 |}.

(** [Write(uint64_t)]: [None] when the assertion fails. *)
Definition Write64 (st : CSipHasher) (data : Z) : option CSipHasher :=
  if sip_count st mod 8 =? 0 then
    Some {| sip_v := sip_absorb (sip_v st) data;
            sip_tmp := sip_tmp st;
            sip_count := i32 (sip_count st + 8) |}
  else None.

(** The body of the byte loop. *)
Definition write_byte (st : CSipHasher) (b : Z) : CSipHasher :=
  let t := sip_tmp st .| u64 (b .<< (8 * (sip_count st mod 8))) in
  let c := i32 (sip_count st + 1) in
  if (c .& 7) =? 0 then {| sip_v := sip_absorb (sip_v st) t; sip_tmp := 0; sip_count := c |}
  else {| sip_v := sip_v st; sip_tmp := t; sip_count := c |}.

Definition WriteBytes (st : CSipHasher) (data : list Z) : CSipHasher := fold_left write_byte data st.

Definition SipFinalize (st : CSipHasher) : Z :=
  let t := sip_tmp st .| u64 (u64 (sip_count st) .<< 56) in
  sip_finish (sip_absorb (sip_v st) t).

(** ** The specialised routines *)

(** [base_blob::GetUint64] *)
Definition GetUint64 (val : list Z) (pos : nat) : Z := ReadLE64 (drop (pos * 8) val).

Definition SipHashUint256 (k0 k1 : Z) (val : list Z) : Z :=
  let d := GetUint64 val 0 in
  let '(v0, v1, v2, v3) := sip_init k0 k1 in
  let v3 := v3 .^ d in
  let '(v0, v1, v2, v3) := SIPROUND (SIPROUND (v0, v1, v2, v3)) in
  let v0 := v0 .^ d in
  let d := GetUint64 val 1 in
  let v3 := v3 .^ d in
  let '(v0, v1, v2, v3) := SIPROUND (SIPROUND (v0, v1, v2, v3)) in
  let v0 := v0 .^ d in
  let d := GetUint64 val 2 in
  let v3 := v3 .^ d in
  let '(v0, v1, v2, v3) := SIPROUND (SIPROUND (v0, v1, v2, v3)) in
  let v0 := v0 .^ d in
  let d := GetUint64 val 3 in
  let v3 := v3 .^ d in
  let '(v0, v1, v2, v3) := SIPROUND (SIPROUND (v0, v1, v2, v3)) in
  let v0 := v0 .^ d in
  let v3 := v3 .^ u64 (4 .<< 59) in
  let '(v0, v1, v2, v3) := SIPROUND (SIPROUND (v0, v1, v2, v3)) in
  let v0 := v0 .^ u64 (4 .<< 59) in
  let v2 := v2 .^ 0xFF in
  let '(v0, v1, v2, v3) := SIPROUND (SIPROUND (SIPROUND (SIPROUND (v0, v1, v2, v3)))) in
  v0 .^ v1 .^ v2 .^ v3.

Definition SipHashUint256Extra (k0 k1 : Z) (val : list Z) (extra : Z) : Z :=
  let d := GetUint64 val 0 in
  let '(v0, v1, v2, v3) := sip_init k0 k1 in
  let v3 := v3 .^ d in
  let '(v0, v1, v2, v3) := SIPROUND (SIPROUND (v0, v1, v2, v3)) in
  let v0 := v0 .^ d in
  let d := GetUint64 val 1 in
  let v3 := v3 .^ d in
  let '(v0, v1, v2, v3) := SIPROUND (SIPROUND (v0, v1, v2, v3)) in
  let v0 := v0 .^ d in
  let d := GetUint64 val 2 in
  let v3 := v3 .^ d in
  let '(v0, v1, v2, v3) := SIPROUND (SIPROUND (v0, v1, v2, v3)) in
  let v0 := v0 .^ d in
  let d := GetUint64 val 3 in
  let v3 := v3 .^ d in
  let '(v0, v1, v2, v3) := SIPROUND (SIPROUND (v0, v1, v2, v3)) in
  let v0 := v0 .^ d in
  let d := u64 (36 .<< 56) .| extra in
  let v3 := v3 .^ d in
  let '(v0, v1, v2, v3) := SIPROUND (SIPROUND (v0, v1, v2, v3)) in
  let v0 := v0 .^ d in
  let v2 := v2 .^ 0xFF in
  let '(v0, v1, v2, v3) := SIPROUND (SIPROUND (SIPROUND (SIPROUND (v0, v1, v2, v3)))) in
  v0 .^ v1 .^ v2 .^ v3.

(** ** MurmurHash3 (x86, 32 bits) *)

Definition ROTL32 (x r : Z) : Z := u32 (x .<< r) .| (x .>> (32 - r)).

Definition murmur_mix_k (k1 : Z) : Z :=
  let k1 := u32 (k1 * 0xcc9e2d51) in
  let k1 := ROTL32 k1 15 in
  u32 (k1 * 0x1b873593).

(** The body of the block loop. *)
Definition murmur_block (h1 k1 : Z) : Z :=
  let h1 := h1 .^ murmur_mix_k k1 in
  let h1 := ROTL32 h1 13 in
  u32 (h1 * 5 + 0xe6546b64).

(** The [switch], whose cases fall through. *)
Definition murmur_tail (h1 : Z) (tail : list Z) (size3 : Z) : Z :=
  let k1 := 0 in
  let k1 := if size3 =? 3 then k1 .^ u32 (aget tail 2 .<< 16) else k1 in
  let k1 := if (size3 =? 3) || (size3 =? 2) then k1 .^ u32 (aget tail 1 .<< 8) else k1 in
  if (size3 =? 3) || (size3 =? 2) || (size3 =? 1) then
    h1 .^ murmur_mix_k (k1 .^ aget tail 0)
  else h1.

Definition MurmurHash3 (nHashSeed : Z) (vDataToHash : list Z) : Z :=
  let size := Z.of_nat (length vDataToHash) in
  let h1 := nHashSeed in
  let h1 :=
    if 0 <? size then
      let nblocks := (length vDataToHash / 4)%nat in
      let h1 := fold_left (fun h1 i => murmur_block h1 (ReadLE32 (drop (i * 4) vDataToHash)))
                  (seq 0 nblocks) h1 in
      murmur_tail h1 (drop (nblocks * 4) vDataToHash) (size .& 3)
    else h1 in
  let h1 := u32 (h1 .^ size) in
  let h1 := h1 .^ (h1 .>> 16) in
  let h1 := u32 (h1 * 0x85ebca6b) in
  let h1 := h1 .^ (h1 .>> 13) in
  let h1 := u32 (h1 * 0xc2b2ae35) in
  h1 .^ (h1 .>> 16).

(** ** The reference SipHash-2-4 *)

(** The little-endian words of the message; the last one holds the leftover
    bytes and, in its top byte, the length modulo 256. *)
Definition sip_words (msg : list Z) : list Z :=
  map (fun i => ReadLE64 (drop (i * 8) msg)) (seq 0 (length msg / 8)).
Definition sip_last (msg : list Z) : Z :=
  le_val (drop (length msg / 8 * 8) msg) + (Z.of_nat (length msg) mod 256) * 2 ^ 56.
Definition siphash (k0 k1 : Z) (msg : list Z) : Z :=
  sip_finish (sip_absorb (fold_left sip_absorb (sip_words msg) (sip_init k0 k1)) (sip_last msg)).

(** ** The hasher computes SipHash-2-4 *)

Lemma sip_words_snoc msg b :
  sip_words (msg ++ [b]) =
  if ((length msg + 1) mod 8 =? 0)%nat
  then sip_words msg ++ [le_val (drop (length msg / 8 * 8) msg ++ [b])]
  else sip_words msg.
Proof.
  unfold sip_words. rewrite length_app. cbn [length].
  pose proof (Nat.div_mod_eq (length msg) 8) as Hdm.
  pose proof (Nat.mod_upper_bound (length msg) 8 ltac:(lia)).
  assert (map (fun i => ReadLE64 (drop (i * 8) (msg ++ [b]))) (seq 0 (length msg / 8)) =
          map (fun i => ReadLE64 (drop (i * 8) msg)) (seq 0 (length msg / 8))) as Hpre.
  { apply map_ext_in. intros i Hi%in_seq. unfold ReadLE64.
    rewrite drop_app_le, take_app_le; [done| |]; rewrite ?length_drop; lia. }
  destruct (Nat.eqb_spec ((length msg + 1) mod 8) 0) as [E|E].
  - assert ((length msg + 1) / 8 = S (length msg / 8))%nat as ->
      by (pose proof (Nat.div_mod_eq (length msg + 1) 8); lia).
    rewrite seq_S, map_app, Hpre. cbn [map Nat.add]. do 2 f_equal. unfold ReadLE64.
    rewrite drop_app_le by lia. f_equal. apply take_ge. rewrite length_app, length_drop.
    cbn [length]. pose proof (Nat.div_mod_eq (length msg + 1) 8). lia.
  - assert ((length msg + 1) / 8 = length msg / 8)%nat as ->; [|done].
    pose proof (Nat.div_mod_eq (length msg + 1) 8).
    pose proof (Nat.mod_upper_bound (length msg + 1) 8 ltac:(lia)). lia.
Qed.

Definition sip_repr (k0 k1 : Z) (st : CSipHasher) (msg : list Z) : Prop :=
  sip_v st = fold_left sip_absorb (sip_words msg) (sip_init k0 k1) /\
  sip_tmp st = le_val (drop (length msg / 8 * 8) msg) /\
  sip_count st = Z.of_nat (length msg).

Lemma sip_tail_length (msg : list Z) : length (drop (length msg / 8 * 8) msg) = (length msg mod 8)%nat.
Proof. rewrite length_drop. pose proof (Nat.div_mod_eq (length msg) 8). lia. Qed.

Lemma sip_pending msg b :
  bytes_ok msg -> is_u 8 b ->
  le_val (drop (length msg / 8 * 8) msg) .| u64 (b .<< (8 * (Z.of_nat (length msg) mod 8))) =
  le_val (drop (length msg / 8 * 8) msg ++ [b]).
Proof.
  intros Hm Hb. set (tail := drop _ msg).
  assert (bytes_ok tail) as Ht by (by apply Forall_drop).
  assert (Z.of_nat (length msg) mod 8 = Z.of_nat (length tail)) as ->
    by (unfold tail; rewrite sip_tail_length, Nat2Z.inj_mod; done).
  assert (length tail < 8)%nat as Hl
    by (unfold tail; rewrite sip_tail_length; apply Nat.mod_upper_bound; lia).
  rewrite u64_id.
  - rewrite lor_disjoint_add; [|lia|exact (le_val_range _ Ht)].
    rewrite le_val_app by done. cbn [le_val]. rewrite Z.shiftl_0_l, Z.lor_0_r. lia.
  - rewrite shiftl_mul by lia. unfold is_u in *. split; [lia|].
    apply Z.lt_le_trans with (2 ^ 8 * 2 ^ (8 * Z.of_nat (length tail))).
    + apply Z.mul_lt_mono_pos_r; lia.
    + rewrite <- Z.pow_add_r by lia. apply Z.pow_le_mono_r; lia.
Qed.

Lemma sip_write_byte k0 k1 st msg b :
  sip_repr k0 k1 st msg -> bytes_ok msg -> is_u 8 b -> Z.of_nat (length msg) + 1 < 2 ^ 31 ->
  sip_repr k0 k1 (write_byte st b) (msg ++ [b]).
Proof.
  intros (Hv & Ht & Hc) Hm Hb Hlen. unfold write_byte.
  rewrite Hc, Ht, sip_pending by done.
  replace (i32 (Z.of_nat (length msg) + 1)) with (Z.of_nat (length (msg ++ [b])))
    by (symmetry; rewrite length_app; cbn [length]; unfold i32; rewrite wraps_id;
        [lia|lia|unfold is_s; lia]).
  change 7 with (2 ^ 3 - 1). rewrite land_mask by lia. change (2 ^ 3) with (Z.of_nat 8).
  rewrite <- Nat2Z.inj_mod. unfold sip_repr. rewrite sip_words_snoc, length_app. cbn [length].
  pose proof (Nat.div_mod_eq (length msg) 8). pose proof (Nat.div_mod_eq (length msg + 1) 8).
  pose proof (Nat.mod_upper_bound (length msg) 8 ltac:(lia)).
  pose proof (Nat.mod_upper_bound (length msg + 1) 8 ltac:(lia)).
  destruct (Nat.eqb_spec ((length msg + 1) mod 8) 0) as [E|E].
  - rewrite E. change (Z.of_nat 0 =? 0) with true. cbn [sip_v sip_tmp sip_count]. split_and!.
    + by rewrite fold_left_app, Hv.
    + rewrite (drop_ge (msg ++ [b])); [done|]. rewrite length_app. cbn [length]. lia.
    + done.
  - rewrite (proj2 (Z.eqb_neq _ _)) by lia. cbn [sip_v sip_tmp sip_count]. split_and!; [done| |done].
    replace ((length msg + 1) / 8)%nat with (length msg / 8)%nat by lia.
    by rewrite drop_app_le by lia.
Qed.

Lemma sip_write_bytes k0 k1 data st msg :
  sip_repr k0 k1 st msg -> bytes_ok (msg ++ data) -> Z.of_nat (length (msg ++ data)) < 2 ^ 31 ->
  sip_repr k0 k1 (WriteBytes st data) (msg ++ data).
Proof.
  revert st msg. induction data as [|b data IH]; intros st msg Hr Hok Hl; unfold WriteBytes; cbn [fold_left].
  - by rewrite app_nil_r.
  - change (b :: data) with ([b] ++ data) in *. rewrite app_assoc in *. apply IH; [|done|done].
    apply Forall_app in Hok as [Hok _]. apply Forall_app in Hok as [Hm Hb%Forall_inv].
    apply sip_write_byte; [done..|]. rewrite !length_app in Hl. cbn [length] in Hl. lia.
Qed.

Lemma u64_shl56 x : 0 <= x -> u64 (u64 x .<< 56) = (x mod 256) * 2 ^ 56.
Proof.
  intros Hx. unfold u64, wrapu. rewrite shiftl_mul by lia.
  change (2 ^ 64) with (256 * 2 ^ 56). rewrite Z.mul_mod_distr_r by lia. f_equal.
  apply Z.mod_mod_divide. by exists (2 ^ 56).
Qed.

Lemma SipFinalize_repr k0 k1 st msg :
  sip_repr k0 k1 st msg -> bytes_ok msg -> SipFinalize st = siphash k0 k1 msg.
Proof.
  intros (Hv & Ht & Hc) Hok. unfold SipFinalize, siphash, sip_last. rewrite Hv, Ht, Hc.
  rewrite u64_shl56 by lia. rewrite <- shiftl_mul by lia.
  rewrite lor_disjoint_add; [by rewrite shiftl_mul by lia|lia|].
  pose proof (le_val_range (drop (length msg / 8 * 8) msg) (Forall_drop _ _ _ Hok)) as [H0 H1].
  split; [done|]. eapply Z.lt_le_trans; [exact H1|]. apply Z.pow_le_mono_r; [lia|].
  rewrite sip_tail_length. pose proof (Nat.mod_upper_bound (length msg) 8 ltac:(lia)). lia.
Qed.

Lemma sip_repr_new k0 k1 : sip_repr k0 k1 (CSipHasher_new k0 k1) [].
Proof. done. Qed.

Lemma siphash_fold k0 k1 chunks :
  fold_left WriteBytes chunks (CSipHasher_new k0 k1) = WriteBytes (CSipHasher_new k0 k1) (concat chunks).
Proof.
  generalize (CSipHasher_new k0 k1). induction chunks as [|c cs IH]; intros st; [done|].
  cbn [fold_left concat]. rewrite IH. unfold WriteBytes. by rewrite fold_left_app.
Qed.

Lemma siphash_writes k0 k1 chunks :
  bytes_ok (concat chunks) -> Z.of_nat (length (concat chunks)) < 2 ^ 31 ->
  SipFinalize (fold_left WriteBytes chunks (CSipHasher_new k0 k1)) = siphash k0 k1 (concat chunks).
Proof.
  intros Hok Hl. apply SipFinalize_repr; [|done]. rewrite siphash_fold.
  by apply (sip_write_bytes k0 k1 _ _ []).
Qed.

(** The four words a [uint256] is absorbed as. *)
Lemma siphash_words4 k0 k1 val extra :
  length val = 32%nat -> (length extra < 8)%nat ->
  siphash k0 k1 (val ++ extra) =
  sip_finish (sip_absorb
    (sip_absorb (sip_absorb (sip_absorb (sip_absorb (sip_init k0 k1)
      (GetUint64 val 0)) (GetUint64 val 1)) (GetUint64 val 2)) (GetUint64 val 3))
    (le_val extra + Z.of_nat (32 + length extra) * 2 ^ 56)).
Proof.
  intros Hv He. unfold siphash, sip_last, sip_words.
  assert (length (val ++ extra) = 32 + length extra)%nat as Hl by (rewrite length_app; lia).
  assert (length (val ++ extra) / 8 = 4)%nat as ->
    by (rewrite Hl; symmetry; apply (Nat.div_unique _ _ _ (length extra)); lia).
  rewrite Hl, (drop_app_length' val extra) by lia. rewrite Z.mod_small by lia.
  cbn [seq map fold_left Nat.mul Nat.add]. unfold GetUint64, ReadLE64. cbn [Nat.mul Nat.add].
  rewrite !(drop_app_le val extra), !take_app_le by (rewrite ?length_drop; lia). done.
Qed.

Lemma sip_length_tag x : is_u 32 x -> u64 (36 .<< 56) .| x = x + 36 * 2 ^ 56.
Proof.
  intros [H0 H1]. change (u64 (36 .<< 56)) with (36 .<< 56). rewrite Z.lor_comm.
  apply lor_disjoint_add; [lia|]. split; [done|]. eapply Z.lt_trans; [exact H1|done].
Qed.

(** Absorbing a whole word at a word boundary. *)
Lemma sip_repr_word k0 k1 st msg data :
  sip_repr k0 k1 st msg -> (length msg mod 8 = 0)%nat -> Z.of_nat (length msg) + 8 < 2 ^ 31 -> is_u 64 data ->
  sip_repr k0 k1 {| sip_v := sip_absorb (sip_v st) data; sip_tmp := sip_tmp st;
                    sip_count := i32 (Z.of_nat (length msg) + 8) |} (msg ++ WriteLE64 data).
Proof.
  intros (Hv & Ht & Hc) E Hl Hd. pose proof (Nat.div_mod_eq (length msg) 8) as Hdm.
  assert (length (msg ++ WriteLE64 data) = length msg + 8)%nat as Hlen
    by (rewrite length_app; unfold WriteLE64; by rewrite length_le_bytes).
  assert ((length msg + 8) / 8 = S (length msg / 8))%nat as Hd8
    by (symmetry; apply (Nat.div_unique _ _ _ 0); lia).
  unfold sip_repr, sip_words. cbn [sip_v sip_tmp sip_count]. rewrite Hlen, Hd8. split_and!.
  - rewrite seq_S, map_app, fold_left_app. cbn [map fold_left Nat.add]. rewrite Hv.
    replace (drop (length msg / 8 * 8) (msg ++ WriteLE64 data)) with (WriteLE64 data)
      by (symmetry; apply drop_app_length'; lia).
    rewrite <- (app_nil_r (WriteLE64 data)) at 1. rewrite ReadLE64_Write by done. do 2 f_equal.
    apply map_ext_in. intros i Hi%in_seq. unfold ReadLE64.
    rewrite drop_app_le, take_app_le; [done| |]; rewrite ?length_drop; lia.
  - rewrite Ht, !drop_ge by lia. done.
  - unfold i32. rewrite wraps_id; [lia|lia|unfold is_s; lia].
Qed.

(** [CSipHasher], fed a message in any pieces of bytes, returns SipHash-2-4
    of the whole message under the key [(k0, k1)]; [Write(uint64_t)] at a word
    boundary absorbs the eight little-endian bytes of its argument and fails its
    assertion elsewhere.  (The byte counter is an [int], hence the bound.) *)
Theorem CSipHasher_is_siphash (k0 k1 : Z) (chunks : list (list Z)) (data : Z) :
  bytes_ok (concat chunks) -> Z.of_nat (length (concat chunks)) + 8 < 2 ^ 31 -> is_u 64 data ->
  SipFinalize (fold_left WriteBytes chunks (CSipHasher_new k0 k1)) = siphash k0 k1 (concat chunks) /\
  (option_map SipFinalize (Write64 (fold_left WriteBytes chunks (CSipHasher_new k0 k1)) data) =
   if (length (concat chunks) mod 8 =? 0)%nat
   then Some (siphash k0 k1 (concat chunks ++ WriteLE64 data)) else None).
Proof.
  intros Hok Hl Hd. split; [apply siphash_writes; [done|lia]|].
  rewrite siphash_fold. set (msg := concat chunks) in *.
  pose proof (sip_write_bytes k0 k1 msg _ [] (sip_repr_new k0 k1) Hok ltac:(cbn [app]; lia)) as Hr.
  cbn [app] in Hr. set (st := WriteBytes _ msg) in *. pose proof Hr as (Hv & Ht & Hc).
  unfold Write64. rewrite Hc. change 8 with (Z.of_nat 8) at 1. rewrite <- Nat2Z.inj_mod.
  destruct (Nat.eqb_spec (length msg mod 8) 0) as [E|E].
  - rewrite E. change (Z.of_nat 0 =? 0) with true. cbn [option_map]. f_equal.
    apply SipFinalize_repr; [|apply Forall_app; split; [done|apply le_bytes_ok]].
    by apply sip_repr_word.
  - rewrite (proj2 (Z.eqb_neq _ _)) by lia. done.
Qed.

Lemma CSipHasher_is_siphash_witness :
  let key0 := 0x0706050403020100 in let key1 := 0x0f0e0d0c0b0a0908 in
  SipFinalize (fold_left WriteBytes [[0; 1; 2]; [3; 4]; [5; 6; 7; 8; 9; 10; 11; 12; 13; 14]]
    (CSipHasher_new key0 key1)) = siphash key0 key1 [0; 1; 2; 3; 4; 5; 6; 7; 8; 9; 10; 11; 12; 13; 14] /\
  siphash key0 key1 [0; 1; 2; 3; 4; 5; 6; 7; 8; 9; 10; 11; 12; 13; 14] = 0xa129ca6149be45e5.
Proof.
  intros key0 key1. split; [|vm_compute; reflexivity].
  refine (proj1 (CSipHasher_is_siphash key0 key1
    [[0; 1; 2]; [3; 4]; [5; 6; 7; 8; 9; 10; 11; 12; 13; 14]] 0 _ _ _)).
  - cbn [concat app]. repeat (apply Forall_cons_iff; split; [unfold is_u; lia|]). constructor.
  - cbn [concat app length]. lia.
  - unfold is_u. lia.
Defined.

(** Runs both sides round by round, the rounds themselves left abstract. *)
Ltac unroll_sip :=
  unfold sip_finish, sip_absorb, sip_init;
  generalize SIPROUND; intros R;
  repeat lazymatch goal with
  | |- context [R (R (?a, ?b, ?c, ?d))] => destruct (R (R (a, b, c, d))) as [[[? ?] ?] ?]; cbv beta iota zeta
  end.

(** The routines specialised to a 256-bit value are the generic hasher, as
    hash.h says: [SipHashUint256] is SipHash-2-4 of the 32 bytes of the value
    and [SipHashUint256Extra] that of the value followed by the four
    little-endian bytes of [extra]. *)
Theorem SipHashUint256_specialised (k0 k1 : Z) (val : list Z) (extra : Z) :
  length val = 32%nat -> is_u 32 extra ->
  SipHashUint256 k0 k1 val = siphash k0 k1 val /\
  SipHashUint256Extra k0 k1 val extra = siphash k0 k1 (val ++ WriteLE32 extra).
Proof.
  intros Hv He. split.
  - rewrite <- (app_nil_r val) at 2. rewrite siphash_words4; [|done|cbn [length]; lia].
    change (le_val [] + Z.of_nat (32 + length []) * 2 ^ 56) with (u64 (4 .<< 59)).
    unfold SipHashUint256. by unroll_sip.
  - rewrite siphash_words4; [|done|unfold WriteLE32; rewrite length_le_bytes; lia].
    unfold WriteLE32. rewrite length_le_bytes, le_val_bytes, Z.mod_small by done.
    change (Z.of_nat (32 + 4)) with 36. unfold SipHashUint256Extra. rewrite sip_length_tag by done.
    by unroll_sip.
Qed.

Lemma SipHashUint256_specialised_witness :
  SipHashUint256Extra 1 2 (map Z.of_nat (seq 0 32)) 0x01020304 =
  siphash 1 2 (map Z.of_nat (seq 0 32) ++ [4; 3; 2; 1]).
Proof.
  refine (proj2 (SipHashUint256_specialised 1 2 (map Z.of_nat (seq 0 32)) 0x01020304 eq_refl _)).
  unfold is_u. lia.
Defined.

(** MurmurHash3 on inputs of the repository's own tests (test/hash_tests.cpp). *)
Example MurmurHash3_vectors :
  MurmurHash3 0 [] = 0 /\ MurmurHash3 0xFBA4C795 [] = 0x6a396f08 /\
  MurmurHash3 0x00000000 [0x00] = 0x514e28b7 /\
  MurmurHash3 0x00000000 [0x00; 0x11; 0x22] = 0x8eb51c3d /\
  MurmurHash3 0x00000000 [0x00; 0x11; 0x22; 0x33; 0x44; 0x55; 0x66; 0x77; 0x88] = 0xb4698def.
Proof. vm_compute. done. Qed.

(** Every SipHash routine is SipHash-2-4.  A [CSipHasher] fed a message in any
    pieces of bytes returns it for the whole message; [Write(uint64_t)] absorbs the
    little-endian bytes of its argument at a word boundary and fails its assertion
    elsewhere; and the routines specialised to a 256-bit value, with the
    padding and the length worked out by hand, equal the generic hasher, as hash.h
    says.  (The byte counter is an [int], hence the bound.) *)
Theorem siphash_routines (k0 k1 : Z) (chunks : list (list Z)) (data : Z) (val : list Z) (extra : Z) :
  bytes_ok (concat chunks) -> Z.of_nat (length (concat chunks)) + 8 < 2 ^ 31 -> is_u 64 data ->
  length val = 32%nat -> is_u 32 extra ->
  SipFinalize (fold_left WriteBytes chunks (CSipHasher_new k0 k1)) = siphash k0 k1 (concat chunks) /\
  (option_map SipFinalize (Write64 (fold_left WriteBytes chunks (CSipHasher_new k0 k1)) data) =
   if (length (concat chunks) mod 8 =? 0)%nat
   then Some (siphash k0 k1 (concat chunks ++ WriteLE64 data)) else None) /\
  SipHashUint256 k0 k1 val = siphash k0 k1 val /\
  SipHashUint256Extra k0 k1 val extra = siphash k0 k1 (val ++ WriteLE32 extra).
Proof.
  intros H1 H2 H3 H4 H5. destruct (CSipHasher_is_siphash k0 k1 chunks data H1 H2 H3) as [H6 H7].
  exact (conj H6 (conj H7 (SipHashUint256_specialised k0 k1 val extra H4 H5))).
Qed.

Lemma siphash_routines_witness :
  let key0 := 0x0706050403020100 in let key1 := 0x0f0e0d0c0b0a0908 in
  SipFinalize (fold_left WriteBytes [[0; 1; 2]; [3; 4]; [5; 6; 7; 8; 9; 10; 11; 12; 13; 14]]
    (CSipHasher_new key0 key1)) = siphash key0 key1 [0; 1; 2; 3; 4; 5; 6; 7; 8; 9; 10; 11; 12; 13; 14] /\
  siphash key0 key1 [0; 1; 2; 3; 4; 5; 6; 7; 8; 9; 10; 11; 12; 13; 14] = 0xa129ca6149be45e5 /\
  SipHashUint256Extra key0 key1 (map Z.of_nat (seq 0 32)) 0x01020304 =
    siphash key0 key1 (map Z.of_nat (seq 0 32) ++ [4; 3; 2; 1]).
Proof.
  intros key0 key1.
  pose proof (fun a b c d e => proj1 (siphash_routines key0 key1 [[0; 1; 2]; [3; 4]; [5; 6; 7; 8; 9; 10; 11; 12; 13; 14]] 0
    (map Z.of_nat (seq 0 32)) 0x01020304 a b c d e)) as H1.
  pose proof (fun a b c d e => proj2 (proj2 (proj2 (siphash_routines key0 key1 [] 0
    (map Z.of_nat (seq 0 32)) 0x01020304 a b c d e)))) as H2.
  split; [apply H1|split; [vm_compute; reflexivity|apply H2]].
  - cbn [concat app]. repeat (apply Forall_cons_iff; split; [unfold is_u; lia|]). constructor.
  - cbn [concat app length]. lia.
  - unfold is_u. lia.
  - reflexivity.
  - unfold is_u. lia.
  - constructor.
  - cbn [concat app length]. lia.
  - unfold is_u. lia.
  - reflexivity.
  - unfold is_u. lia.
Defined.
