(* ===== verification/Merkle.v ===== *)
(** * Merkle trees (src/src/consensus/merkle.cpp)

    [MerkleComputation] folds the leaves of a block into a binary counter of
    subtree hashes in constant space, and sweeps the counter at the end.  It is
    modelled with its state: [count], the array [inner], [matchlevel], the
    mutation flag and the branch being built.  The reference is the definition of
    the tree, level by level, with the last node of an odd level paired with
    itself.  The theorems: the root is the reference's; a computed branch leads
    back to the root; the mutation flag is exactly what makes the root binding. *)

From S2P Require Import Prelude Bytes HashEngine Sha256 Hash.
Local Open Scope cxx_scope.

Section Merkle.
Context {A : Type} `{EqDecision A} (null : A) (hash2 : A -> A -> A).

(** ** The code *)

Record mstate : Type := {
  m_inner : list A;
  m_matchlevel : Z;
  m_mutated : bool;
  m_branch : list A;
}.

(** [count & (((uint32_t)1) << level)] *)
Definition bit_set (count : Z) (level : nat) : bool := nz (count .& u32 (1 .<< Z.of_nat level)).

Definition inner_at (st : mstate) (level : nat) : A := default null (m_inner st !! level).

(** The [if (pbranch) ...] block both merging loops share: the branch and
    [matchh] after combining [inner[level]] with [h]. *)
Definition push_branch (pbranch : bool) (st : mstate) (level : nat) (h : A) (matchh : bool) : mstate * bool :=
  if pbranch then
    if matchh then
      ({| m_inner := m_inner st; m_matchlevel := m_matchlevel st; m_mutated := m_mutated st;
          m_branch := m_branch st ++ [inner_at st level] |}, matchh)
    else if m_matchlevel st =? Z.of_nat level then
      ({| m_inner := m_inner st; m_matchlevel := m_matchlevel st; m_mutated := m_mutated st;
          m_branch := m_branch st ++ [h] |}, true)
    else (st, matchh)
  else (st, matchh).

(** [for (level = 0; !(count & (1 << level)); level++) { ... }] *)
Fixpoint leaf_loop (fuel : nat) (pbranch : bool) (count : Z) (level : nat) (h : A) (matchh : bool) (st : mstate)
  : nat * A * bool * mstate :=
  match fuel with
  | O => (level, h, matchh, st)
  | S fuel =>
      if negb (bit_set count level) then
        let '(st, matchh) := push_branch pbranch st level h matchh in
        let st := {| m_inner := m_inner st; m_matchlevel := m_matchlevel st;
                     m_mutated := m_mutated st || bool_decide (inner_at st level = h);
                     m_branch := m_branch st |} in
        leaf_loop fuel pbranch count (S level) (hash2 (inner_at st level) h) matchh st
      else (level, h, matchh, st)
  end.

(** The body of [while (count < leaves.size())]. *)
Definition leaf_step (pbranch : bool) (branchpos : Z) (cs : Z * mstate) (leaf : A) : Z * mstate :=
  let '(count, st) := cs in
  let h := leaf in
  let matchh := count =? branchpos in
  let count := u32 (count + 1) in
  let '(level, h, matchh, st) := leaf_loop 32 pbranch count 0 h matchh st in
  (count,
   {| m_inner := <[level := h]> (m_inner st);
      m_matchlevel := if matchh then Z.of_nat level else m_matchlevel st;
      m_mutated := m_mutated st; m_branch := m_branch st |}).

(** [while (!(count & (1 << level))) level++;] *)
Fixpoint lowest_level (fuel : nat) (count : Z) (level : nat) : nat :=
  match fuel with
  | O => level
  | S fuel => if negb (bit_set count level) then lowest_level fuel count (S level) else level
  end.

(** The inner [while] of the final sweep. *)
Fixpoint sweep_up (fuel : nat) (pbranch : bool) (count : Z) (level : nat) (h : A) (matchh : bool) (st : mstate)
  : nat * A * bool * mstate :=
  match fuel with
  | O => (level, h, matchh, st)
  | S fuel =>
      if negb (bit_set count level) then
        let '(st, matchh) := push_branch pbranch st level h matchh in
        sweep_up fuel pbranch count (S level) (hash2 (inner_at st level) h) matchh st
      else (level, h, matchh, st)
  end.

(** [while (count != (((uint32_t)1) << level)) { ... }] *)
Fixpoint sweep (fuel : nat) (pbranch : bool) (count : Z) (level : nat) (h : A) (matchh : bool) (st : mstate)
  : A * mstate :=
  match fuel with
  | O => (h, st)
  | S fuel =>
      if negb (count =? u32 (1 .<< Z.of_nat level)) then
        let st := if pbranch && matchh
                  then {| m_inner := m_inner st; m_matchlevel := m_matchlevel st;
                          m_mutated := m_mutated st; m_branch := m_branch st ++ [h] |}
                  else st in
        let h := hash2 h h in
        let count := u32 (count + u32 (1 .<< Z.of_nat level)) in
        let level := S level in
        let '(level, h, matchh, st) := sweep_up 32 pbranch count level h matchh st in
        sweep fuel pbranch count level h matchh st
      else (h, st)
  end.

(** The final sweep over the rightmost branch, from the state the leaf loop
    leaves; returns the root, the mutation flag and the branch. *)
Definition finish (pbranch : bool) (cs : Z * mstate) : A * bool * list A :=
  let '(count, st) := cs in
  let level := lowest_level 32 count 0 in
  let h := inner_at st level in
  let matchh := m_matchlevel st =? Z.of_nat level in
  let '(h, st) := sweep 32 pbranch count level h matchh st in
  (h, m_mutated st, m_branch st).

Definition start : Z * mstate :=
  (0, {| m_inner := replicate 32 null; m_matchlevel := -1; m_mutated := false; m_branch := [] |}).

Definition MerkleComputation (leaves : list A) (branchpos : Z) (pbranch : bool) : A * bool * list A :=
  if (length leaves =? 0)%nat then (null, false, [])
  else finish pbranch (fold_left (leaf_step pbranch branchpos) leaves start).

Definition ComputeMerkleRoot (leaves : list A) : A * bool :=
  let '(root, mutated, _) := MerkleComputation leaves (2 ^ 32 - 1) false in (root, mutated).

Definition ComputeMerkleBranch (leaves : list A) (position : Z) : list A :=
  let '(_, _, branch) := MerkleComputation leaves position true in branch.

Definition root_from_branch_step (hi : A * Z) (it : A) : A * Z :=
  let '(hash, nIndex) := hi in
  (if nz (nIndex .& 1) then hash2 it hash else hash2 hash it, nIndex .>> 1).

Definition ComputeMerkleRootFromBranch (leaf : A) (vMerkleBranch : list A) (nIndex : Z) : A :=
  fst (fold_left root_from_branch_step vMerkleBranch (leaf, nIndex)).

(** ** The reference: the tree, level by level *)

Fixpoint pair_level (l : list A) : list A :=
  match l with
  | a :: b :: r => hash2 a b :: pair_level r
  | [a] => [hash2 a a]
  | [] => []
  end.

Fixpoint tree_root (height : nat) (l : list A) : A :=
  match l with
  | [] => null
  | [a] => a
  | _ => match height with O => null | S height => tree_root height (pair_level l) end
  end.

(** The number of levels above the leaves. *)
Definition tree_height (n : nat) : nat := Nat.log2_up n.
Definition merkle_root (l : list A) : A := tree_root (tree_height (length l)) l.

(** The sibling of node [pos] of a level, and the branch of a leaf. *)
Definition sibling (l : list A) (pos : nat) : A :=
  if Nat.odd pos then nth (pos - 1) l null
  else nth (pos + 1) l (nth pos l null).

Fixpoint branch_of (height : nat) (l : list A) (pos : nat) : list A :=
  match height with
  | O => []
  | S height => sibling l pos :: branch_of height (pair_level l) (pos / 2)
  end.

(** Two equal nodes, both present, that are paired on some level. *)
Fixpoint full_pairs (l : list A) : list A :=
  match l with
  | a :: b :: r => hash2 a b :: full_pairs r
  | _ => []
  end.
Fixpoint equal_pair (l : list A) : bool :=
  match l with
  | a :: b :: r => bool_decide (a = b) || equal_pair r
  | _ => false
  end.
Fixpoint has_duplicate (height : nat) (l : list A) : bool :=
  match height with
  | O => false
  | S height => equal_pair l || has_duplicate height (full_pairs l)
  end.

(** ** The binary counter, abstractly

    A forest is the list of subtree hashes by level, [None] where the bit of
    [count] is clear; each hash carries the flag "depends on the matched leaf". *)
Abbreviation elt := (A * bool)%type.

Definition comb (x h : elt) : elt := (hash2 (fst x) (fst h), snd h || snd x).
Definition push (x h : elt) : list A := if snd h then [fst x] else if snd x then [fst h] else [].
Definition dup (x : elt) : elt := (hash2 (fst x) (fst x), snd x).

Fixpoint add (f : list (option elt)) (h : elt) : list (option elt) * list A * bool :=
  match f with
  | [] => ([], [], false)
  | None :: f => (Some h :: f, [], false)
  | Some x :: f =>
      let '(f', p, m) := add f (comb x h) in
      (None :: f', push x h ++ p, bool_decide (fst x = fst h) || m)
  end.

(** Carrying without storing: the hash, the forest above it, the pushes. *)
Fixpoint up (f : list (option elt)) (h : elt) : elt * list (option elt) * list A :=
  match f with
  | [] => (h, [], [])
  | None :: f => (h, f, [])
  | Some x :: f => let '(h', f', p) := up f (comb x h) in (h', f', push x h ++ p)
  end.

Fixpoint sweep_from (fuel : nat) (h : elt) (f : list (option elt)) : A * list A :=
  match fuel with
  | O => (fst h, [])
  | S fuel =>
      if forallb (fun o => match o with Some _ => false | None => true end) f then (fst h, [])
      else
        let '(h', f', p) := up f (dup h) in
        let '(r, q) := sweep_from fuel h' f' in
        (r, (if snd h then [fst h] else []) ++ p ++ q)
  end.

Fixpoint sweep_forest (fuel : nat) (f : list (option elt)) : A * list A :=
  match f with
  | [] => (null, [])
  | None :: f => sweep_forest fuel f
  | Some h :: f => sweep_from fuel h f
  end.

Lemma sweep_forest_add fuel f h :
  let '(f', p, _) := add f h in let '(h1, f1, p1) := up f h in
  (exists y, Some y ∈ f') -> sweep_forest fuel f' = sweep_from fuel h1 f1 /\ p = p1.
Proof.
  revert h. induction f as [|[x|] f IH]; intros h; cbn [add up].
  - intros [y Hy]. by apply not_elem_of_nil in Hy.
  - specialize (IH (comb x h)). destruct (add f (comb x h)) as [[f' p] m].
    destruct (up f (comb x h)) as [[h1 f1] p1]. intros [y Hy].
    destruct IH as [IH1 ->]; [|done]. exists y. by apply elem_of_cons in Hy as [?|?].
  - done.
Qed.

(** ** The counter after a list of leaves *)

Fixpoint fpairs (l : list elt) : list elt :=
  match l with x :: h :: r => comb x h :: fpairs r | _ => [] end.
Fixpoint pushes (l : list elt) : list A :=
  match l with x :: h :: r => push x h ++ pushes r | _ => [] end.

Fixpoint forest (k : nat) (l : list elt) : list (option elt) :=
  match k with
  | O => []
  | S k => (if Nat.odd (length l) then list.last l else None) :: forest k (fpairs l)
  end.
Fixpoint all_pushes (k : nat) (l : list elt) : list A :=
  match k with O => [] | S k => pushes l ++ all_pushes k (fpairs l) end.

Definition nflags (l : list elt) : nat := length (List.filter snd l).

Lemma pair_ind {B} (P : list B -> Prop) :
  P [] -> (forall a, P [a]) -> (forall a b r, P r -> P (a :: b :: r)) -> forall l, P l.
Proof.
  intros H0 H1 H2. assert (forall l, P l /\ forall a, P (a :: l)) as HP; [|intros l; apply HP].
  induction l as [|a l [IH1 IH2]]; [auto|]. split; [apply IH2|]. intros b. apply H2, IH1.
Qed.

Lemma nflags_app l1 l2 : nflags (l1 ++ l2) = (nflags l1 + nflags l2)%nat.
Proof. unfold nflags. by rewrite List.filter_app, length_app. Qed.

Lemma nflags_fpairs l : (nflags (fpairs l) <= nflags l)%nat.
Proof.
  induction l as [| |[a []] [b []] r IH] using pair_ind; unfold nflags in *; cbn in *; lia.
Qed.

Lemma pushes_no_flag l : nflags l = 0%nat -> pushes l = [].
Proof.
  induction l as [| |[a []] [b []] r IH] using pair_ind; unfold nflags in *; cbn in *; try done; intros; lia.
Qed.

Lemma all_pushes_no_flag k l : nflags l = 0%nat -> all_pushes k l = [].
Proof.
  revert l. induction k as [|k IH]; intros l Hl; [done|]. cbn [all_pushes].
  rewrite pushes_no_flag, IH; [done| |done]. pose proof (nflags_fpairs l). lia.
Qed.

Lemma length_fpairs l : length (fpairs l) = (length l / 2)%nat.
Proof.
  induction l as [| |a b r IH] using pair_ind; [done..|]. cbn [fpairs length]. rewrite IH.
  apply (Nat.div_unique _ _ _ (length r mod 2)); [apply Nat.mod_upper_bound; lia|].
  pose proof (Nat.div_mod_eq (length r) 2). lia.
Qed.

(** Adding a leaf on an even and on an odd position. *)
Lemma even_snoc l h : Nat.even (length l) = true ->
  fpairs (l ++ [h]) = fpairs l /\ pushes (l ++ [h]) = pushes l /\
  equal_pair (map fst (l ++ [h])) = equal_pair (map fst l).
Proof.
  induction l as [| |a b r IH] using pair_ind; [done|done|]. intros He. cbn [length Nat.even] in He.
  destruct (IH He) as (E1 & E2 & E3). cbn [app fpairs pushes map equal_pair].
  by rewrite E1, E2, E3.
Qed.

Lemma odd_snoc l x h : Nat.even (length l) = true ->
  fpairs (l ++ [x; h]) = fpairs l ++ [comb x h] /\ pushes (l ++ [x; h]) = pushes l ++ push x h /\
  equal_pair (map fst (l ++ [x; h])) = equal_pair (map fst l) || bool_decide (fst x = fst h).
Proof.
  induction l as [| |a b r IH] using pair_ind; [|done|].
  - intros _. cbn. by rewrite app_nil_r, orb_false_r.
  - intros He. cbn [length Nat.even] in He. destruct (IH He) as (E1 & E2 & E3).
    cbn [app fpairs pushes map equal_pair]. rewrite E1, E2, E3, app_assoc, orb_assoc. done.
Qed.

Lemma map_fst_fpairs l : map fst (fpairs l) = full_pairs (map fst l).
Proof.
  induction l as [| |a b r IH] using pair_ind; [done..|]. cbn [fpairs map full_pairs]. by rewrite IH.
Qed.

Lemma odd_split (l : list elt) : Nat.odd (length l) = true ->
  exists l' x, l = l' ++ [x] /\ Nat.even (length l') = true /\ list.last l = Some x.
Proof.
  intros Ho. destruct l as [|x l' _] using rev_ind; [done|]. exists l', x.
  rewrite length_app, Nat.add_1_r, Nat.odd_succ in Ho. by rewrite last_snoc.
Qed.

Lemma orb_exchange a b c d : a || b || (c || d) = a || c || (b || d).
Proof. by destruct a, b, c, d. Qed.

(** The counter's increment is the counter of one more leaf. *)
Lemma add_forest k l h :
  (length l + 1 < 2 ^ k)%nat -> (nflags (l ++ [h]) <= 1)%nat ->
  let '(f, p, m) := add (forest k l) h in
  f = forest k (l ++ [h]) /\ all_pushes k (l ++ [h]) = all_pushes k l ++ p /\
  has_duplicate k (map fst (l ++ [h])) = has_duplicate k (map fst l) || m.
Proof.
  revert l h. induction k as [|k IH]; intros l h Hl Hf; [cbn in Hl; lia|].
  cbn [forest all_pushes has_duplicate]. rewrite <- !map_fst_fpairs.
  destruct (Nat.odd (length l)) eqn:Ho.
  - destruct (odd_split l Ho) as (l' & x & -> & He & ->). cbn [add].
    rewrite <- !app_assoc in *. cbn [app] in *. destruct (odd_snoc l' x h He) as (E1 & E2 & E3).
    destruct (even_snoc l' x He) as (F1 & F2 & F3). rewrite E1, E2, E3, F1, F2, F3.
    assert (length (l' ++ [x; h]) = S (length (l' ++ [x]))) as Hlen by (rewrite !length_app; cbn; lia).
    rewrite Hlen, Nat.odd_succ, <- Nat.negb_odd, Ho. cbn [negb].
    specialize (IH (fpairs l') (comb x h)). destruct (add (forest k (fpairs l')) (comb x h)) as [[f p] m].
    destruct IH as (-> & Ep & Em).
    { rewrite length_fpairs. rewrite length_app in Hl. cbn [length Nat.pow] in Hl.
      apply Nat.even_spec in He as [q Hq]. rewrite Hq, (Nat.mul_comm 2 q), Nat.div_mul by lia. lia. }
    { pose proof (nflags_fpairs (l' ++ [x; h])) as Hn. rewrite E1 in Hn. lia. }
    split_and!; [done| |].
    + rewrite Ep, !app_assoc. f_equal. rewrite <- !app_assoc. f_equal.
      destruct (push x h) as [|q [|]] eqn:Epush; [by rewrite app_nil_r| |].
      * rewrite all_pushes_no_flag; [done|]. pose proof (nflags_fpairs l').
        rewrite nflags_app in Hf. assert (1 <= nflags [x; h])%nat; [|lia].
        unfold push, nflags in *. clear -Epush. destruct x as [? []], h as [? []]; cbn in *; lia || done.
      * unfold push in Epush. destruct (snd h), (snd x); done.
    + rewrite Em. apply orb_exchange.
  - assert (Nat.even (length l) = true) as He by (by rewrite <- Nat.negb_odd, Ho).
    cbn [add]. destruct (even_snoc l h He) as (E1 & E2 & E3). rewrite E1, E2, E3, last_snoc.
    rewrite length_app, Nat.add_1_r, Nat.odd_succ, He, app_nil_r, orb_false_r. done.
Qed.

(** ** The sweep finishes the tree *)

(** A whole level with its flags, and the sibling of the flagged node. *)
Fixpoint elevel (l : list elt) : list elt :=
  match l with x :: h :: r => comb x h :: elevel r | [x] => [dup x] | [] => [] end.
Fixpoint lpushes (l : list elt) : list A :=
  match l with x :: h :: r => push x h ++ lpushes r | [x] => if snd x then [fst x] else [] | [] => [] end.
Fixpoint ebranch (height : nat) (l : list elt) : list A :=
  match l with
  | [] | [_] => []
  | _ => match height with O => [] | S height => lpushes l ++ ebranch height (elevel l) end
  end.

Lemma elevel_even l : Nat.even (length l) = true -> elevel l = fpairs l /\ lpushes l = pushes l.
Proof.
  induction l as [| |a b r IH] using pair_ind; [done..|]. intros He. cbn [length Nat.even] in He.
  destruct (IH He) as [E1 E2]. cbn [elevel fpairs lpushes pushes]. by rewrite E1, E2.
Qed.

Lemma elevel_odd l x : Nat.even (length l) = true ->
  elevel (l ++ [x]) = fpairs l ++ [dup x] /\
  lpushes (l ++ [x]) = pushes l ++ (if snd x then [fst x] else []).
Proof.
  induction l as [| |a b r IH] using pair_ind; [done..|]. intros He. cbn [length Nat.even] in He.
  destruct (IH He) as [E1 E2]. cbn [app elevel fpairs lpushes pushes]. by rewrite E1, E2, app_assoc.
Qed.

Lemma map_fst_elevel l : map fst (elevel l) = pair_level (map fst l).
Proof.
  induction l as [| |a b r IH] using pair_ind; [done..|]. cbn [elevel map pair_level]. by rewrite IH.
Qed.

Lemma length_elevel l : length (elevel l) = ((length l + 1) / 2)%nat.
Proof.
  induction l as [| |a b r IH] using pair_ind; [done..|]. cbn [elevel length]. rewrite IH.
  apply (Nat.div_unique _ _ _ ((length r + 1) mod 2)); [apply Nat.mod_upper_bound; lia|].
  pose proof (Nat.div_mod_eq (length r + 1) 2). lia.
Qed.

Lemma nflags_elevel l : (nflags (elevel l) <= nflags l)%nat.
Proof.
  induction l as [|[a []]|[a []] [b []] r IH] using pair_ind; unfold nflags in *; cbn in *; lia.
Qed.

Lemma forest_nonempty k l : l <> [] -> (length l < 2 ^ k)%nat -> exists y, Some y ∈ forest k l.
Proof.
  revert l. induction k as [|k IH]; intros l Hn Hl; [destruct l; [done|cbn in Hl; lia]|].
  cbn [forest]. destruct (Nat.odd (length l)) eqn:Ho.
  - destruct (odd_split l Ho) as (l' & x & -> & _ & ->). exists x. apply list_elem_of_here.
  - destruct (IH (fpairs l)) as [y Hy]; [| |exists y; by apply list_elem_of_further].
    + destruct l as [|a [|b r]]; done.
    + rewrite length_fpairs. cbn [Nat.pow] in Hl. apply Nat.Div0.div_lt_upper_bound. lia.
Qed.

Lemma forest_nil k : forest k [] = replicate k None.
Proof. induction k as [|k IH]; [done|]. cbn [forest replicate]. f_equal. apply IH. Qed.

Abbreviation all_none := (forallb (fun o : option elt => match o with Some _ => false | None => true end)).

Lemma all_none_replicate k : all_none (replicate k None) = true.
Proof. by induction k. Qed.

Lemma all_none_in f y : Some y ∈ f -> all_none f = false.
Proof.
  intros Hy. apply not_true_is_false. rewrite forallb_forall. intros Ht.
  by specialize (Ht (Some y) (proj1 (list_elem_of_In _ _) Hy)).
Qed.

Lemma sweep_forest_tree h k fuel l :
  l <> [] -> (length l <= 2 ^ h)%nat -> (h < k)%nat -> (h <= fuel)%nat -> (nflags l <= 1)%nat ->
  fst (sweep_forest fuel (forest k l)) = tree_root h (map fst l) /\
  all_pushes k l ++ snd (sweep_forest fuel (forest k l)) = ebranch h l.
Proof.
  revert k fuel l. induction h as [|h IH]; intros k fuel l Hn Hl Hk Hfu Hf.
  all: destruct k as [|k]; [lia|].
  all: destruct (decide (length l = 1%nat)) as [E1|E1].
  1,3: destruct l as [|x [|]]; try done; cbn [forest fpairs length Nat.odd Nat.even negb list.last sweep_forest all_pushes pushes];
    rewrite forest_nil, all_pushes_no_flag by done; destruct fuel; cbn [sweep_from];
    rewrite ?all_none_replicate; done.
  { exfalso. destruct l as [|x [|]]; cbn in *; (done || lia). }
  assert (tree_root (S h) (map fst l) = tree_root h (map fst (elevel l))) as ->
    by (rewrite map_fst_elevel; destruct l as [|? [|]]; done).
  assert (ebranch (S h) l = lpushes l ++ ebranch h (elevel l)) as ->
    by (destruct l as [|? [|]]; done).
  assert (elevel l <> []) as Hn' by (destruct l as [|? [|]]; done).
  assert (length (elevel l) <= 2 ^ h)%nat as Hl'.
  { rewrite length_elevel. cbn [Nat.pow] in Hl. apply Nat.lt_succ_r, Nat.Div0.div_lt_upper_bound. lia. }
  assert (nflags (elevel l) <= 1)%nat as Hf' by (pose proof (nflags_elevel l); lia).
  assert (length (elevel l) < 2 ^ k)%nat as Hk'.
  { eapply Nat.le_lt_trans; [exact Hl'|]. apply Nat.pow_lt_mono_r; lia. }
  cbn [forest all_pushes sweep_forest]. destruct (Nat.odd (length l)) eqn:Ho.
  - destruct (odd_split l Ho) as (l' & x & -> & He & ->). cbn [sweep_forest].
    destruct (even_snoc l' x He) as (-> & -> & _). destruct (elevel_odd l' x He) as [El ->].
    rewrite El in *. rewrite length_app in Hk'. cbn [length] in Hk'.
    destruct fuel as [|fuel]; [lia|].
    destruct (forest_nonempty k (fpairs l')) as [y Hy]; [|lia|].
    { destruct l' as [|? [|]]; done. }
    pose proof (add_forest k (fpairs l') (dup x) Hk' Hf') as Hadd.
    pose proof (sweep_forest_add fuel (forest k (fpairs l')) (dup x)) as Hsw.
    destruct (add (forest k (fpairs l')) (dup x)) as [[f p] m]. destruct Hadd as (-> & Ep & _).
    cbn [sweep_from]. rewrite (all_none_in _ y Hy).
    destruct (up (forest k (fpairs l')) (dup x)) as [[h1 f1] p1].
    destruct Hsw as [Hs <-].
    { apply forest_nonempty; [by destruct (fpairs l')|rewrite length_app; cbn; lia]. }
    destruct (IH k fuel (fpairs l' ++ [dup x])) as [IH1 IH2]; [done|done|lia|lia|done|].
    rewrite Hs in IH1, IH2. destruct (sweep_from fuel h1 f1) as [r q]. cbn [fst snd] in *.
    split; [done|]. rewrite <- IH2, Ep, <- !app_assoc. f_equal.
    destruct (snd x) eqn:Ex; [|done]. rewrite all_pushes_no_flag; [done|].
    rewrite nflags_app in Hf. pose proof (nflags_fpairs l').
    assert (nflags [x] = 1)%nat by (unfold nflags; cbn; by rewrite Ex). lia.
  - assert (Nat.even (length l) = true) as He by (by rewrite <- Nat.negb_odd, Ho).
    destruct (elevel_even l He) as [El Ep]. rewrite El, Ep in *.
    destruct (IH k fuel (fpairs l)) as [IH1 IH2]; [done|done|lia|lia|done|].
    split; [done|]. by rewrite <- app_assoc, IH2.
Qed.


(** ** The array [inner] and [count] represent a forest *)

Lemma bit_set_odd count lev :
  0 <= count -> (lev < 32)%nat -> bit_set count lev = Z.odd (count / 2 ^ Z.of_nat lev).
Proof.
  intros Hc Hl. unfold bit_set.
  assert (u32 (1 .<< Z.of_nat lev) = 2 ^ Z.of_nat lev) as ->.
  { rewrite shiftl_mul, Z.mul_1_l by lia. apply u32_id. split; [lia|]. apply Z.pow_lt_mono_r; lia. }
  rewrite <- Z.shiftr_div_pow2, <- Z.testbit_odd by lia.
  destruct (Z.testbit count (Z.of_nat lev)) eqn:E.
  - apply nz_true. intros H0. apply (f_equal (fun z => Z.testbit z (Z.of_nat lev))) in H0.
    by rewrite Z.land_spec, E, Z.pow2_bits_true, Z.bits_0 in H0 by lia.
  - replace (count .& 2 ^ Z.of_nat lev) with 0; [done|]. symmetry. apply Z.bits_inj'. intros i Hi.
    rewrite Z.land_spec, Z.bits_0. destruct (Z.eq_dec i (Z.of_nat lev)) as [->|Hne].
    + by rewrite E.
    + rewrite Z.pow2_bits_false by lia. apply andb_false_r.
Qed.

(** The forest above level [lev]; [c] is [count >> lev]. *)
Fixpoint absf (k lev : nat) (c : Z) (inner : list A) (ml : Z) : list (option elt) :=
  match k with
  | O => []
  | S k =>
      (if Z.odd c then Some (default null (inner !! lev), ml =? Z.of_nat lev) else None)
      :: absf k (S lev) (c / 2) inner ml
  end.

(** [matchlevel] only ever names a level in use. *)
Fixpoint ml_ok (k lev : nat) (c ml : Z) : Prop :=
  match k with
  | O => True
  | S k => (ml = Z.of_nat lev -> Z.odd c = true) /\ ml_ok k (S lev) (c / 2) ml
  end.

Lemma ml_ok_below k lev c ml : ml < Z.of_nat lev -> ml_ok k lev c ml.
Proof.
  revert lev c. induction k as [|k IH]; intros lev c Hml; [done|]. split; [lia|]. apply IH. lia.
Qed.

Lemma absf_insert k lev c inner ml j h :
  (j < lev)%nat -> absf k lev c (<[j := h]> inner) ml = absf k lev c inner ml.
Proof.
  revert lev c. induction k as [|k IH]; intros lev c Hj; [done|]. cbn [absf].
  rewrite list_lookup_insert_ne, IH by lia. done.
Qed.

Lemma absf_below k lev c inner ml ml' :
  ml < Z.of_nat lev -> ml' < Z.of_nat lev -> absf k lev c inner ml = absf k lev c inner ml'.
Proof.
  revert lev c. induction k as [|k IH]; intros lev c H1 H2; [done|]. cbn [absf].
  rewrite (IH (S lev) (c / 2)) by lia.
  by rewrite (proj2 (Z.eqb_neq ml _)), (proj2 (Z.eqb_neq ml' _)) by lia.
Qed.

Lemma push_branch_true st lev h m :
  let x := (inner_at st lev, m_matchlevel st =? Z.of_nat lev) in
  push_branch true st lev h m =
  ({| m_inner := m_inner st; m_matchlevel := m_matchlevel st; m_mutated := m_mutated st;
      m_branch := m_branch st ++ push x (h, m) |}, snd (comb x (h, m))).
Proof.
  unfold push_branch, push, comb. cbn [fst snd]. destruct m; [done|].
  destruct (m_matchlevel st =? Z.of_nat lev); [done|]. destruct st. cbn. by rewrite app_nil_r.
Qed.

Lemma next_count count lev c :
  0 <= c -> count / 2 ^ Z.of_nat lev = c + 1 -> Z.odd c = true ->
  count / 2 ^ Z.of_nat (S lev) = c / 2 + 1.
Proof.
  intros Hc Hd Ho. rewrite Nat2Z.inj_succ, Z.pow_succ_r, Z.mul_comm, <- Z.div_div, Hd by lia.
  pose proof (Zmod_odd c) as Hm. rewrite Ho in Hm. dlia.
Qed.

Lemma half_carry c : 0 <= c ->
  (Z.odd c = true -> Z.odd (c + 1) = false /\ (c + 1) / 2 = c / 2 + 1) /\
  (Z.odd c = false -> Z.odd (c + 1) = true /\ (c + 1) / 2 = c / 2).
Proof.
  intros Hc. pose proof (Zmod_odd c) as Hm.
  split; intros Ho; rewrite Ho in Hm; rewrite Z.odd_add, Ho; (split; [done|dlia]).
Qed.

Lemma leaf_loop_add k lev fuel c h m st count inner ml :
  m_inner st = inner -> m_matchlevel st = ml ->
  0 <= count -> (lev + k = 32)%nat -> (k <= fuel)%nat -> length inner = 32%nat ->
  0 <= c -> c + 1 < 2 ^ Z.of_nat k -> count / 2 ^ Z.of_nat lev = c + 1 ->
  (m = true -> ml < Z.of_nat lev) -> ml_ok k lev c ml ->
  let '(f, p, mu) := add (absf k lev c inner ml) (h, m) in
  let '(lev', h', m', st') := leaf_loop fuel true count lev h m st in
  let ml' := if m' : bool then Z.of_nat lev' else ml in
  ((lev <= lev' < 32)%nat /\ (m = true -> m' = true) /\ (m = false -> ml < Z.of_nat lev -> m' = false)) /\
  m_inner st' = inner /\ m_matchlevel st' = ml /\
  m_branch st' = m_branch st ++ p /\ m_mutated st' = m_mutated st || mu /\
  absf k lev (c + 1) (<[lev' := h']> inner) ml' = f /\ ml_ok k lev (c + 1) ml'.
Proof.
  revert lev fuel c h m st. induction k as [|k IH];
    intros lev fuel c h m st Ein Eml Hc Hk Hfu Hin Hc0 Hc1 Hd Hm Hml; [cbn in Hc1; lia|].
  destruct fuel as [|fuel]; [lia|]. cbn [absf leaf_loop ml_ok] in *.
  rewrite bit_set_odd, Hd by lia. destruct (half_carry c Hc0) as [Hodd Heven].
  destruct Hml as [Hml1 Hml2]. destruct (Z.odd c) eqn:Ho.
  - destruct (Hodd eq_refl) as [-> Hc2]. cbn [negb add]. rewrite push_branch_true. cbv zeta.
    assert (inner_at st lev = default null (inner !! lev)) as Hx by (unfold inner_at; by rewrite Ein).
    rewrite Hx, Eml. set (x := (default null (inner !! lev), ml =? Z.of_nat lev)).
    match goal with |- context [leaf_loop fuel true count (S lev) _ _ ?s] =>
      specialize (IH (S lev) fuel (c / 2) (fst (comb x (h, m))) (snd (comb x (h, m))) s Ein eq_refl) end.
    cbn [m_inner m_branch m_mutated] in IH. rewrite <- surjective_pairing in IH.
    unfold inner_at at 2. cbn [m_inner]. rewrite Ein.
    change (hash2 (default null (inner !! lev)) h) with (fst (comb x (h, m))).
    unfold inner_at in IH. cbn [m_inner] in IH. rewrite Ein in IH.
    destruct (add (absf k (S lev) (c / 2) inner ml) (comb x (h, m))) as [[f p] mu].
    destruct (leaf_loop fuel true count (S lev) _ _ _) as [[[lev' h'] m'] st'].
    destruct IH as ((H1 & H1' & H1'') & H2 & H3 & H4 & H5 & H6 & H7); [lia|lia|lia|done|dlia| | | | |].
    { rewrite Nat2Z.inj_succ, Z.pow_succ_r in Hc1 by lia. dlia. }
    { by apply next_count. }
    { unfold comb. cbn [snd x]. intros [Hm'|Hx']%orb_true_iff; [specialize (Hm Hm')|apply Z.eqb_eq in Hx']; lia. }
    { done. }
    cbv zeta in H6, H7 |- *. rewrite Hc2, H6.
    repeat apply conj; [lia|lia| | |done|done|by rewrite H4, app_assoc|by rewrite H5, orb_assoc|done| |done].
    { intros ->. by apply H1'. }
    { intros -> Hlt. apply H1''; [|lia]. unfold comb, x. cbn [snd]. apply Z.eqb_neq. lia. }
    intros Heq. destruct m'; [lia|]. cut (false = true); [done|]. apply H1'.
    unfold comb, x. cbn [snd]. rewrite (proj2 (Z.eqb_eq ml _) Heq). apply orb_true_r.
  - destruct (Heven eq_refl) as [-> Hc2]. cbn [negb add]. cbv zeta. rewrite Hc2.
    rewrite list_lookup_insert_eq by lia. cbn [default].
    repeat apply conj; [lia|lia|done|done|done|done|by rewrite app_nil_r|by rewrite orb_false_r| |done|].
    + rewrite absf_insert by lia. destruct m.
      * rewrite Z.eqb_refl. f_equal. apply absf_below; [lia|]. specialize (Hm eq_refl). lia.
      * rewrite (proj2 (Z.eqb_neq ml _)); [done|]. intros E. by specialize (Hml1 E).
    + destruct m; [apply ml_ok_below; lia|done].
Qed.

(** The leaves with the flag of the matched position. *)
Definition marked (pos : Z) (l : list A) : list elt :=
  zip_with (fun a i => (a, Z.of_nat i =? pos)) l (seq 0 (length l)).

Lemma marked_snoc pos l a : marked pos (l ++ [a]) = marked pos l ++ [(a, Z.of_nat (length l) =? pos)].
Proof.
  unfold marked. rewrite length_app, Nat.add_1_r, seq_S, zip_with_app by (by rewrite length_seq). done.
Qed.
Lemma length_marked pos l : length (marked pos l) = length l.
Proof. unfold marked. rewrite length_zip_with, length_seq. lia. Qed.
Lemma map_fst_marked pos l : map fst (marked pos l) = l.
Proof.
  induction l as [|a l IH] using rev_ind; [done|]. rewrite marked_snoc, map_app, IH. done.
Qed.
Lemma nflags_marked pos l :
  nflags (marked pos l) = if (0 <=? pos) && (pos <? Z.of_nat (length l)) then 1%nat else 0%nat.
Proof.
  induction l as [|a l IH] using rev_ind.
  - change (nflags (marked pos [])) with 0%nat. cbn [length].
    destruct (Z.leb_spec 0 pos), (Z.ltb_spec pos (Z.of_nat 0)); cbn [andb]; lia.
  - rewrite marked_snoc, nflags_app, IH, length_app. cbn [length]. unfold nflags. cbn [List.filter snd].
    destruct (Z.leb_spec 0 pos), (Z.ltb_spec pos (Z.of_nat (length l))), (Z.eqb_spec (Z.of_nat (length l)) pos),
      (Z.ltb_spec pos (Z.of_nat (length l + 1))); cbn; lia.
Qed.

Lemma fold_left_cons {B C} (f : B -> C -> B) c l b : fold_left f (c :: l) b = fold_left f l (f b c).
Proof. done. Qed.

(** The loop over the leaves keeps the counter of the leaves seen so far. *)
Definition counter_inv (pos : Z) (l : list A) (cs : Z * mstate) : Prop :=
  let '(count, st) := cs in
  count = Z.of_nat (length l) /\ length (m_inner st) = 32%nat /\
  absf 32 0 count (m_inner st) (m_matchlevel st) = forest 32 (marked pos l) /\
  m_branch st = all_pushes 32 (marked pos l) /\
  m_mutated st = has_duplicate 32 l /\
  ml_ok 32 0 count (m_matchlevel st) /\
  (count <= pos -> m_matchlevel st = -1).

Lemma leaf_step_inv pos l cs a :
  counter_inv pos l cs -> Z.of_nat (length l) + 1 < 2 ^ 32 ->
  counter_inv pos (l ++ [a]) (leaf_step true pos cs a).
Proof.
  destruct cs as [count st]. intros (Hc & Hi & Hf & Hb & Hmu & Hml & Hneg) Hl. subst count.
  set (n := Z.of_nat (length l)) in *.
  unfold leaf_step. rewrite u32_id by (unfold is_u; lia).
  pose proof (leaf_loop_add 32 0 32 n a (n =? pos) st (n + 1) _ _ eq_refl eq_refl) as HL.
  rewrite Hf in HL. pose proof (add_forest 32 (marked pos l) (a, n =? pos)) as HA.
  rewrite <- marked_snoc, !map_fst_marked in HA.
  destruct (add (forest 32 (marked pos l)) (a, n =? pos)) as [[f p] mu].
  destruct HA as (Hf' & Hp' & Hmu').
  { rewrite length_marked. apply Nat2Z.inj_lt. rewrite Nat2Z.inj_add, Nat2Z.inj_pow. fold n.
    change (Z.of_nat 2) with 2. change (Z.of_nat 32) with 32. lia. }
  { rewrite nflags_marked. by destruct (_ && _); lia. }
  destruct (leaf_loop 32 true (n + 1) 0 a (n =? pos) st) as [[[lev' h'] m'] st'].
  destruct HL as ((H1 & H1' & H1'') & H2 & H3 & H4 & H5 & H6 & H7);
    [lia|lia|lia|done|lia|exact Hl|by rewrite Z.div_1_r| |done|].
  { intros Heq%Z.eqb_eq. rewrite Hneg; lia. }
  unfold counter_inv. cbn [m_inner m_matchlevel m_branch m_mutated]. rewrite H2, H3, length_app.
  assert (Z.of_nat (length l + length [a]) = n + 1) as -> by (cbn [length]; lia).
  refine (conj eq_refl (conj _ (conj _ (conj _ (conj _ (conj H7 _)))))).
  - by rewrite length_insert.
  - by rewrite H6, Hf'.
  - by rewrite H4, Hb, Hp'.
  - by rewrite H5, Hmu, Hmu'.
  - intros Hle. rewrite (Hneg ltac:(lia)) in *. rewrite H1''; [done| |lia]. apply Z.eqb_neq. lia.
Qed.

Lemma leaf_steps_inv pos l cs l0 :
  counter_inv pos l0 cs -> Z.of_nat (length (l0 ++ l)) < 2 ^ 32 ->
  counter_inv pos (l0 ++ l) (fold_left (leaf_step true pos) l cs).
Proof.
  revert cs l0. induction l as [|a l IH]; intros cs l0 Hinv Hl; cbn [fold_left]; [by rewrite app_nil_r|].
  change (a :: l) with ([a] ++ l) in *. rewrite app_assoc in *. apply IH; [|done].
  apply leaf_step_inv; [done|]. rewrite !length_app in Hl. cbn [length] in Hl. lia.
Qed.

(** ** The final sweep on the array *)

Lemma sweep_up_up k lev fuel c h m st count inner ml :
  m_inner st = inner -> m_matchlevel st = ml ->
  0 <= count -> (lev + k = 32)%nat -> (k <= fuel)%nat ->
  0 <= c -> c + 1 < 2 ^ Z.of_nat k -> count = (c + 1) * 2 ^ Z.of_nat lev ->
  (m = true -> ml < Z.of_nat lev) ->
  let '(hm', f', p) := up (absf k lev c inner ml) (h, m) in
  let '(lev', h', m', st') := sweep_up fuel true count lev h m st in
  (lev <= lev' < 32)%nat /\ hm' = (h', m') /\ m_inner st' = inner /\ m_matchlevel st' = ml /\
  m_branch st' = m_branch st ++ p /\ m_mutated st' = m_mutated st /\
  f' = absf (31 - lev') (S lev') (count / 2 ^ Z.of_nat (S lev')) inner ml /\
  (exists q, 0 <= q /\ count = (2 * q + 1) * 2 ^ Z.of_nat lev') /\ (m' = true -> ml <= Z.of_nat lev').
Proof.
  revert lev fuel c h m st. induction k as [|k IH];
    intros lev fuel c h m st Ein Eml Hc Hk Hfu Hc0 Hc1 Hd Hm; [cbn in Hc1; lia|].
  destruct fuel as [|fuel]; [lia|]. cbn [absf sweep_up] in *.
  assert (count / 2 ^ Z.of_nat lev = c + 1) as Hdiv by (rewrite Hd; apply Z.div_mul; lia).
  rewrite bit_set_odd, Hdiv by lia. destruct (half_carry c Hc0) as [Hodd Heven].
  pose proof (Zmod_odd c) as Hmod. destruct (Z.odd c) eqn:Ho.
  - destruct (Hodd eq_refl) as [-> Hc2]. cbn [negb up]. rewrite push_branch_true. cbv zeta.
    assert (inner_at st lev = default null (inner !! lev)) as Hx by (unfold inner_at; by rewrite Ein).
    rewrite Hx, Eml. set (x := (default null (inner !! lev), ml =? Z.of_nat lev)).
    match goal with |- context [sweep_up fuel true count (S lev) _ _ ?s] =>
      specialize (IH (S lev) fuel (c / 2) (fst (comb x (h, m))) (snd (comb x (h, m))) s Ein eq_refl) end.
    cbn [m_inner m_branch m_mutated] in IH. rewrite <- surjective_pairing in IH.
    unfold inner_at. cbn [m_inner]. rewrite Ein in IH |- *.
    change (hash2 (default null (inner !! lev)) h) with (fst (comb x (h, m))).
    destruct (up (absf k (S lev) (c / 2) inner ml) (comb x (h, m))) as [[hm' f'] p].
    destruct (sweep_up fuel true count (S lev) _ _ _) as [[[lev' h'] m'] st'].
    destruct IH as (H1 & H2 & H3 & H4 & H5 & H6 & H7 & H8 & H9); [lia|lia|lia|dlia| | | |].
    { rewrite Nat2Z.inj_succ, Z.pow_succ_r in Hc1 by lia. dlia. }
    { rewrite Hd, Nat2Z.inj_succ, Z.pow_succ_r by lia. replace (c + 1) with ((c / 2 + 1) * 2) by dlia. lia. }
    { unfold comb. cbn [snd x]. intros [Hm'|Hx']%orb_true_iff; [specialize (Hm Hm')|apply Z.eqb_eq in Hx']; lia. }
    refine (conj _ (conj H2 (conj H3 (conj H4 (conj _ (conj H6 (conj H7 (conj H8 H9)))))))); [lia|].
    by rewrite H5, app_assoc.
  - destruct (Heven eq_refl) as [-> Hc2]. cbn [negb up].
    refine (conj _ (conj eq_refl (conj Ein (conj Eml (conj _ (conj eq_refl (conj _ (conj _ _)))))))).
    + lia.
    + by rewrite app_nil_r.
    + replace (31 - lev)%nat with k by lia.
      replace (count / 2 ^ Z.of_nat (S lev)) with (c / 2); [done|].
      rewrite Nat2Z.inj_succ, Z.pow_succ_r, Z.mul_comm, <- Z.div_div, Hdiv by lia. lia.
    + exists (c / 2). split; [dlia|]. rewrite Hd. f_equal. dlia.
    + intros E. specialize (Hm E). lia.
Qed.

Lemma all_none_absf k lev c inner ml :
  0 <= c < 2 ^ Z.of_nat k -> all_none (absf k lev c inner ml) = (c =? 0).
Proof.
  revert lev c. induction k as [|k IH]; intros lev c Hc; cbn [absf forallb].
  - symmetry. apply Z.eqb_eq. cbn in Hc. lia.
  - rewrite Nat2Z.inj_succ, Z.pow_succ_r in Hc by lia. pose proof (Zmod_odd c) as Hm.
    destruct (Z.odd c).
    + cbn [andb]. symmetry. apply Z.eqb_neq. dlia.
    + cbn [andb]. rewrite IH by dlia. destruct (Z.eqb_spec c 0), (Z.eqb_spec (c / 2) 0); dlia || done.
Qed.

Lemma sweep_sweep_from fuel lev h m st count inner ml q :
  m_inner st = inner -> m_matchlevel st = ml ->
  0 <= q -> count = (2 * q + 1) * 2 ^ Z.of_nat lev -> count <= 2 ^ 31 -> (lev < 32)%nat ->
  (31 - lev <= fuel)%nat -> (m = true -> ml <= Z.of_nat lev) ->
  let '(r, p) := sweep_from fuel (h, m) (absf (31 - lev) (S lev) q inner ml) in
  let '(h', st') := sweep fuel true count lev h m st in
  h' = r /\ m_branch st' = m_branch st ++ p /\ m_mutated st' = m_mutated st.
Proof.
  revert lev h m st count q. induction fuel as [|fuel IH];
    intros lev h m st count q Ein Eml Hq Hd Hc Hlev Hfu Hm; cbn [sweep_from sweep]; [by rewrite app_nil_r|].
  pose proof (Z.pow_pos_nonneg 2 (Z.of_nat lev) ltac:(lia) ltac:(lia)) as Hpow.
  assert (u32 (1 .<< Z.of_nat lev) = 2 ^ Z.of_nat lev) as Hsh.
  { rewrite shiftl_mul, Z.mul_1_l by lia. apply u32_id. split; [lia|]. apply Z.pow_lt_mono_r; lia. }
  rewrite Hsh.
  assert (0 <= q < 2 ^ Z.of_nat (31 - lev)) as Hq2.
  { split; [done|].
    assert (q * 2 ^ Z.of_nat (S lev) < 2 ^ Z.of_nat (31 - lev) * 2 ^ Z.of_nat (S lev)) as HH.
    { rewrite <- Z.pow_add_r by lia. replace (Z.of_nat (31 - lev) + Z.of_nat (S lev)) with 32 by lia.
      rewrite Nat2Z.inj_succ, Z.pow_succ_r by lia. change (2 ^ 32) with (2 * 2 ^ 31). nia. }
    apply Z.mul_lt_mono_pos_r in HH; [done|]. apply Z.pow_pos_nonneg; lia. }
  rewrite all_none_absf by done.
  destruct (Z.eqb_spec q 0) as [->|Hq0].
  { rewrite (proj2 (Z.eqb_eq count _)) by lia. cbn [negb]. by rewrite app_nil_r. }
  rewrite (proj2 (Z.eqb_neq count _)) by nia. cbn [negb].
  assert (lev < 31)%nat as Hlev31.
  { destruct (decide (lev = 31%nat)) as [->|]; [|lia]. change (2 ^ Z.of_nat 31) with (2 ^ 31) in Hd. nia. }
  assert (count + 2 ^ Z.of_nat lev = (q + 1) * 2 ^ Z.of_nat (S lev)) as Hnext.
  { rewrite Nat2Z.inj_succ, Z.pow_succ_r by lia. lia. }
  assert (q + 1 <= 2 ^ Z.of_nat (30 - lev)) as Hq3.
  { apply Z.lt_pred_le. apply Z.mul_lt_mono_pos_r with (2 ^ Z.of_nat (S lev)); [apply Z.pow_pos_nonneg; lia|].
    rewrite <- Z.pow_add_r by lia. replace (Z.of_nat (30 - lev) + Z.of_nat (S lev)) with 31 by lia.
    rewrite Nat2Z.inj_succ, Z.pow_succ_r by lia. nia. }
  assert ((q + 1) * 2 ^ Z.of_nat (S lev) <= 2 ^ 31) as Hmax.
  { replace (2 ^ 31) with (2 ^ Z.of_nat (30 - lev) * 2 ^ Z.of_nat (S lev)).
    - apply Z.mul_le_mono_nonneg_r; [|done]. apply Z.lt_le_incl, Z.pow_pos_nonneg; lia.
    - rewrite <- Z.pow_add_r by lia. f_equal. lia. }
  rewrite u32_id by (unfold is_u; split; [lia|]; change (2 ^ 32) with (2 * 2 ^ 31); lia).
  rewrite Hnext. cbn [andb].
  set (st1 := if m then _ else st).
  assert (m_inner st1 = inner /\ m_matchlevel st1 = ml /\ m_mutated st1 = m_mutated st /\
          m_branch st1 = m_branch st ++ (if m then [h] else [])) as (E1 & E2 & E3 & E4).
  { unfold st1. destruct m; cbn; [done|]. by rewrite app_nil_r. }
  assert (Z.of_nat (S lev) = Z.of_nat lev + 1) as HSl by lia.
  pose proof (sweep_up_up (31 - lev) (S lev) 32 q (hash2 h h) m st1 ((q + 1) * 2 ^ Z.of_nat (S lev)) inner ml E1 E2) as HU.
  change (dup (h, m)) with (hash2 h h, m). cbn [snd fst].
  destruct (up (absf (31 - lev) (S lev) q inner ml) (hash2 h h, m)) as [[hm' f'] p].
  destruct (sweep_up 32 true _ (S lev) (hash2 h h) m st1) as [[[lev' h'] m'] st'].
  destruct HU as (U1 & -> & U3 & U4 & U5 & U6 & -> & (q' & Hq' & Hcq') & U9);
    [nia|lia|lia|done| |done| |].
  { eapply Z.le_lt_trans; [exact Hq3|]. apply Z.pow_lt_mono_r; lia. }
  { intros E. specialize (Hm E). lia. }
  assert ((q + 1) * 2 ^ Z.of_nat (S lev) / 2 ^ Z.of_nat (S lev') = q') as ->.
  { rewrite Hcq'. rewrite (Nat2Z.inj_succ lev'), Z.pow_succ_r by lia.
    symmetry. apply Z.div_unique with (2 ^ Z.of_nat lev'); [|lia].
    left. split; [apply Z.pow_nonneg; lia|]. pose proof (Z.pow_pos_nonneg 2 (Z.of_nat lev')). lia. }
  specialize (IH lev' h' m' st' ((q + 1) * 2 ^ Z.of_nat (S lev)) q' U3 U4 Hq' Hcq' Hmax ltac:(lia) ltac:(lia) U9).
  destruct (sweep_from fuel (h', m') _) as [r p2].
  destruct (sweep fuel true _ lev' h' m' st') as [h2 st2]. destruct IH as (-> & I2 & I3).
  split_and!; [done| |by rewrite I3, U6, E3]. rewrite I2, U5, E4, <- !app_assoc. done.
Qed.

Lemma lowest_level_forest k lev fuel fuel' c inner ml count :
  (lev + k = 32)%nat -> (k <= fuel)%nat -> 0 < c < 2 ^ Z.of_nat k -> count = c * 2 ^ Z.of_nat lev ->
  let j := lowest_level fuel count lev in
  (j < 32)%nat /\
  exists q, 0 <= q /\ count = (2 * q + 1) * 2 ^ Z.of_nat j /\
  sweep_forest fuel' (absf k lev c inner ml) =
  sweep_from fuel' (default null (inner !! j), ml =? Z.of_nat j) (absf (31 - j) (S j) q inner ml).
Proof.
  revert lev fuel c. induction k as [|k IH]; intros lev fuel c Hk Hfu Hc Hd; [cbn in Hc; lia|].
  destruct fuel as [|fuel]; [lia|]. cbn [absf lowest_level].
  assert (count / 2 ^ Z.of_nat lev = c) as Hdiv by (rewrite Hd; apply Z.div_mul; lia).
  rewrite bit_set_odd, Hdiv by (nia || lia). pose proof (Zmod_odd c) as Hm.
  destruct (Z.odd c) eqn:Ho; cbn [negb sweep_forest].
  - split; [lia|]. exists (c / 2). split; [dlia|]. split; [rewrite Hd; f_equal; dlia|].
    by replace (31 - lev)%nat with k by lia.
  - apply IH; [lia|lia| |].
    + rewrite Nat2Z.inj_succ, Z.pow_succ_r in Hc by lia. dlia.
    + rewrite Hd, Nat2Z.inj_succ, Z.pow_succ_r by lia. replace c with (c / 2 * 2) at 1 by dlia. lia.
Qed.

(** A branch is only collected, never consulted: hashes and flag are the same
    with and without one. *)
Lemma push_branch_inner pb st lev h m :
  m_inner (fst (push_branch pb st lev h m)) = m_inner st /\
  m_mutated (fst (push_branch pb st lev h m)) = m_mutated st.
Proof. unfold push_branch. by destruct pb, m, (m_matchlevel st =? Z.of_nat lev). Qed.

Definition same_hashes (s1 s2 : mstate) : Prop :=
  m_inner s1 = m_inner s2 /\ m_mutated s1 = m_mutated s2.

Lemma leaf_loop_same fuel pb1 pb2 count lev h m1 m2 s1 s2 :
  same_hashes s1 s2 ->
  let '(l1, h1, _, s1') := leaf_loop fuel pb1 count lev h m1 s1 in
  let '(l2, h2, _, s2') := leaf_loop fuel pb2 count lev h m2 s2 in
  l1 = l2 /\ h1 = h2 /\ same_hashes s1' s2'.
Proof.
  revert lev h m1 m2 s1 s2. induction fuel as [|fuel IH]; intros lev h m1 m2 s1 s2 [Hi Hm]; cbn [leaf_loop]; [done|].
  destruct (negb (bit_set count lev)); [|done].
  destruct (push_branch_inner pb1 s1 lev h m1) as [A1 B1]. destruct (push_branch_inner pb2 s2 lev h m2) as [A2 B2].
  destruct (push_branch pb1 s1 lev h m1) as [t1 n1], (push_branch pb2 s2 lev h m2) as [t2 n2]. cbn [fst] in *.
  unfold inner_at. cbn [m_inner]. rewrite A1, A2, Hi.
  apply IH. split; cbn; [done|by rewrite B1, B2, Hm].
Qed.

Lemma sweep_up_same fuel pb1 pb2 count lev h m1 m2 s1 s2 :
  same_hashes s1 s2 ->
  let '(l1, h1, _, s1') := sweep_up fuel pb1 count lev h m1 s1 in
  let '(l2, h2, _, s2') := sweep_up fuel pb2 count lev h m2 s2 in
  l1 = l2 /\ h1 = h2 /\ same_hashes s1' s2'.
Proof.
  revert lev h m1 m2 s1 s2. induction fuel as [|fuel IH]; intros lev h m1 m2 s1 s2 [Hi Hm]; cbn [sweep_up]; [done|].
  destruct (negb (bit_set count lev)); [|done].
  destruct (push_branch_inner pb1 s1 lev h m1) as [A1 B1]. destruct (push_branch_inner pb2 s2 lev h m2) as [A2 B2].
  destruct (push_branch pb1 s1 lev h m1) as [t1 n1], (push_branch pb2 s2 lev h m2) as [t2 n2]. cbn [fst] in *.
  assert (inner_at t1 lev = inner_at t2 lev) as -> by (unfold inner_at; by rewrite A1, A2, Hi).
  apply IH. split; [by rewrite A1, A2|by rewrite B1, B2].
Qed.

Lemma sweep_same fuel pb1 pb2 count lev h m1 m2 s1 s2 :
  same_hashes s1 s2 ->
  let '(h1, s1') := sweep fuel pb1 count lev h m1 s1 in
  let '(h2, s2') := sweep fuel pb2 count lev h m2 s2 in
  h1 = h2 /\ same_hashes s1' s2'.
Proof.
  revert count lev h m1 m2 s1 s2. induction fuel as [|fuel IH]; intros count lev h m1 m2 s1 s2 Hs; cbn [sweep]; [done|].
  destruct (negb _); [|done].
  match goal with |- context [sweep_up 32 pb1 ?c ?l ?hh ?m ?t1] =>
    match goal with |- context [sweep_up 32 pb2 c l hh ?m' ?t2] =>
      pose proof (sweep_up_same 32 pb1 pb2 c l hh m m' t1 t2) as HU end end.
  destruct (sweep_up 32 pb1 _ _ _ _ _) as [[[l1 h1] n1] t1]. destruct (sweep_up 32 pb2 _ _ _ _ _) as [[[l2 h2] n2] t2].
  destruct HU as (-> & -> & HU); [|by apply IH].
  destruct Hs as [Hi Hm]. by destruct (pb1 && m1), (pb2 && m2).
Qed.

Lemma leaf_step_same pb1 pb2 p1 p2 c s1 s2 a :
  same_hashes s1 s2 ->
  fst (leaf_step pb1 p1 (c, s1) a) = fst (leaf_step pb2 p2 (c, s2) a) /\
  same_hashes (snd (leaf_step pb1 p1 (c, s1) a)) (snd (leaf_step pb2 p2 (c, s2) a)).
Proof.
  intros Hs. unfold leaf_step. generalize 32%nat. intros fuel.
  pose proof (leaf_loop_same fuel pb1 pb2 (u32 (c + 1)) 0 a (c =? p1) (c =? p2) s1 s2 Hs) as HL.
  destruct (leaf_loop fuel pb1 _ _ _ _ _) as [[[l1 h1] n1] t1].
  destruct (leaf_loop fuel pb2 _ _ _ _ _) as [[[l2 h2] n2] t2].
  destruct HL as (-> & -> & [Hi Hm]). split; [done|]. split; cbn; [by rewrite Hi|done].
Qed.

Lemma leaf_steps_same pb1 pb2 p1 p2 l c s1 s2 :
  same_hashes s1 s2 ->
  fst (fold_left (leaf_step pb1 p1) l (c, s1)) = fst (fold_left (leaf_step pb2 p2) l (c, s2)) /\
  same_hashes (snd (fold_left (leaf_step pb1 p1) l (c, s1))) (snd (fold_left (leaf_step pb2 p2) l (c, s2))).
Proof.
  revert c s1 s2. induction l as [|a l IH]; intros c s1 s2 Hs; [done|].
  rewrite !fold_left_cons.
  destruct (leaf_step_same pb1 pb2 p1 p2 c s1 s2 a Hs) as [Ec Es].
  destruct (leaf_step pb1 p1 (c, s1) a) as [c1 t1], (leaf_step pb2 p2 (c, s2) a) as [c2 t2].
  cbn [fst snd] in *. subst c2. by apply IH.
Qed.

Lemma tree_height_bound (l : list A) :
  l <> [] -> Z.of_nat (length l) <= 2 ^ 31 ->
  (length l <= 2 ^ tree_height (length l))%nat /\ (tree_height (length l) <= 31)%nat.
Proof.
  intros Hn Hl. unfold tree_height.
  destruct (Nat.le_gt_cases (length l) 1) as [H1|H1].
  - destruct l as [|a [|]]; [done| |cbn in H1; lia]. cbn. lia.
  - split; [by apply Nat.log2_up_spec|].
    apply Nat2Z.inj_le. apply Nat.log2_up_spec in H1 as [Hlow _].
    apply Nat2Z.inj_lt in Hlow. rewrite Nat2Z.inj_pow in Hlow.
    destruct (Z.le_gt_cases (Z.of_nat (Nat.log2_up (length l))) (Z.of_nat 31)) as [|Hgt]; [done|].
    exfalso. apply (Z.lt_irrefl (2 ^ 31)). eapply Z.le_lt_trans; [|exact (Z.lt_le_trans _ _ _ Hlow Hl)].
    apply Z.pow_le_mono_r; lia.
Qed.

Lemma finish_same pb1 pb2 cs1 cs2 :
  fst cs1 = fst cs2 -> same_hashes (snd cs1) (snd cs2) -> fst (finish pb1 cs1) = fst (finish pb2 cs2).
Proof.
  destruct cs1 as [c s1], cs2 as [c2 s2]. cbn [fst snd]. intros <- Es. unfold finish.
  generalize 32%nat. intros fuel. generalize (lowest_level fuel c 0). intros j.
  assert (inner_at s1 j = inner_at s2 j) as -> by (unfold inner_at; by rewrite (proj1 Es)).
  pose proof (sweep_same fuel pb1 pb2 c j (inner_at s2 j) (m_matchlevel s1 =? Z.of_nat j)
    (m_matchlevel s2 =? Z.of_nat j) s1 s2 Es) as HS.
  destruct (sweep fuel pb1 _ _ _ _ _) as [h1 t1], (sweep fuel pb2 _ _ _ _ _) as [h2 t2].
  destruct HS as (-> & _ & ->). done.
Qed.

Lemma MerkleComputation_same l p1 p2 pb1 pb2 :
  fst (MerkleComputation l p1 pb1) = fst (MerkleComputation l p2 pb2).
Proof.
  unfold MerkleComputation. destruct (length l =? 0)%nat; [done|].
  by apply finish_same; apply leaf_steps_same.
Qed.

(** The sweep of a counter that holds the leaves [l]. *)
Lemma finish_inv l pos cs :
  counter_inv pos l cs -> l <> [] -> Z.of_nat (length l) <= 2 ^ 31 ->
  finish true cs = (merkle_root l, has_duplicate 32 l, ebranch (tree_height (length l)) (marked pos l)).
Proof.
  destruct cs as [count st]. intros (-> & Hin & Hf & Hb & Hmu & Hml & _) Hn Hl.
  assert (0 < Z.of_nat (length l)) as Hpos by (destruct l; [done|cbn [length]; lia]).
  unfold finish. set (n := Z.of_nat (length l)) in *.
  destruct (lowest_level_forest 32 0 32 32 n (m_inner st) (m_matchlevel st) n) as (Hj & q & Hq & Hnq & Hsw);
    [lia|lia|change (2 ^ Z.of_nat 32) with (2 * 2 ^ 31); lia|lia|].
  set (j := lowest_level 32 n 0) in *.
  pose proof (sweep_sweep_from 32 j (inner_at st j) (m_matchlevel st =? Z.of_nat j) st n _ _ q eq_refl eq_refl
    Hq Hnq Hl Hj ltac:(lia)) as HS.
  pose proof (sweep_forest_tree (tree_height (length l)) 32 32 (marked pos l)) as HT.
  rewrite <- Hf, Hsw, map_fst_marked, length_marked in HT. fold (inner_at st j) in HT.
  destruct (sweep_from 32 _ _) as [r p]. destruct (sweep 32 true n j _ _ st) as [h' st'].
  destruct HS as (-> & Hb' & Hm'). { intros E%Z.eqb_eq. lia. }
  pose proof (tree_height_bound l Hn Hl) as [Hh1 Hh2].
  cbn [fst snd] in HT. destruct HT as [-> HT].
  { destruct l; [done|]. by rewrite <- length_zero_iff_nil, length_marked. }
  { done. } { lia. } { lia. }
  { rewrite nflags_marked. destruct (_ && _); lia. }
  by rewrite Hm', Hmu, Hb', Hb, HT.
Qed.

Lemma start_inv pos : counter_inv pos [] start.
Proof. repeat apply conj; try done; cbn; lia. Qed.

Lemma MerkleComputation_true l pos :
  l <> [] -> Z.of_nat (length l) <= 2 ^ 31 ->
  MerkleComputation l pos true =
  (merkle_root l, has_duplicate 32 l, ebranch (tree_height (length l)) (marked pos l)).
Proof.
  intros Hn Hl. unfold MerkleComputation. rewrite (proj2 (Nat.eqb_neq _ _)) by (by destruct l).
  apply finish_inv; [|done|done]. apply (leaf_steps_inv pos l start []); [apply start_inv|]. cbn [app]. lia.
Qed.

(** ** Branches *)

Lemma tree_height_step n : (2 <= n)%nat -> tree_height n = S (tree_height ((n + 1) / 2)).
Proof.
  intros Hn. unfold tree_height. set (m := ((n + 1) / 2)%nat).
  pose proof (Nat.div_mod_eq (n + 1) 2). pose proof (Nat.mod_upper_bound (n + 1) 2 ltac:(lia)). fold m in H.
  apply Nat.log2_up_unique; [lia|]. cbn [pred]. rewrite Nat.pow_succ_r'.
  destruct (decide (m = 1%nat)) as [->|Hm]; [cbn; lia|].
  destruct (Nat.log2_up_spec m) as [H1 H2]; [lia|].
  assert (0 < Nat.log2_up m)%nat by (apply Nat.log2_up_pos; lia).
  replace (Nat.log2_up m) with (S (pred (Nat.log2_up m))) at 1 by lia. rewrite Nat.pow_succ_r'. lia.
Qed.

Lemma length_pair_level l : length (pair_level l) = ((length l + 1) / 2)%nat.
Proof.
  induction l as [| |a b r IH] using pair_ind; [done..|]. cbn [pair_level length]. rewrite IH.
  apply (Nat.div_unique _ _ _ ((length r + 1) mod 2)); [apply Nat.mod_upper_bound; lia|].
  pose proof (Nat.div_mod_eq (length r + 1) 2). lia.
Qed.

Lemma sibling_cons2 a b r q : sibling (a :: b :: r) (S (S q)) = sibling r q.
Proof.
  unfold sibling. cbn [Nat.odd Nat.even]. rewrite !Nat.odd_succ, Nat.even_succ.
  destruct (Nat.odd q) eqn:E; [|done]. destruct q; [done|]. cbn [Nat.sub nth]. by rewrite Nat.sub_0_r.
Qed.

Lemma div2_SS q : (S (S q) / 2 = S (q / 2))%nat.
Proof.
  symmetry. apply (Nat.div_unique _ _ _ (q mod 2)); [apply Nat.mod_upper_bound; lia|].
  pose proof (Nat.div_mod_eq q 2). lia.
Qed.

Lemma nth_pair_level l p :
  (p < length l)%nat ->
  nth (p / 2) (pair_level l) null =
  if Nat.odd p then hash2 (sibling l p) (nth p l null) else hash2 (nth p l null) (sibling l p).
Proof.
  revert p. induction l as [|a|a b r IH] using pair_ind; intros p Hp.
  - cbn in Hp. lia.
  - by destruct p; [|cbn in Hp; lia].
  - destruct p as [|[|p]]; [done|done|]. rewrite sibling_cons2, div2_SS. cbn [pair_level nth length] in *.
    rewrite IH by lia. by rewrite !Nat.odd_succ, Nat.even_succ.
Qed.

(** Marks from an even index. *)
Definition marked_from (i p : nat) (l : list A) : list elt :=
  zip_with (fun a j => (a, (j =? p)%nat)) l (seq i (length l)).

Lemma marked_marked_from p l : marked (Z.of_nat p) l = marked_from 0 p l.
Proof.
  unfold marked, marked_from. generalize (seq 0 (length l)). induction l as [|a l IH]; intros [|j js]; cbn; try done.
  rewrite IH. do 2 f_equal. destruct (Nat.eqb_spec j p); [subst; apply Z.eqb_refl|apply Z.eqb_neq; lia].
Qed.

Lemma elevel_marked l i p :
  (p < 2 * i + length l)%nat ->
  elevel (marked_from (2 * i) p l) = marked_from i (p / 2) (pair_level l) /\
  lpushes (marked_from (2 * i) p l) = if (2 * i <=? p)%nat then [sibling l (p - 2 * i)] else [].
Proof.
  revert i. induction l as [|a|a b r IH] using pair_ind; intros i Hp; unfold marked_from in *.
  - cbn [length seq zip_with elevel lpushes pair_level] in *. split; [done|].
    rewrite (proj2 (Nat.leb_gt _ _)) by (cbn [length] in Hp; lia). done.
  - cbn [length seq zip_with elevel lpushes pair_level] in *. unfold dup. cbn [fst snd].
    pose proof (Nat.div_mod_eq p 2). pose proof (Nat.mod_upper_bound p 2 ltac:(lia)).
    destruct (Nat.eqb_spec (2 * i) p) as [<-|Hne].
    + rewrite Nat.mul_comm, Nat.div_mul, Nat.eqb_refl, Nat.leb_refl, Nat.sub_diag by lia. done.
    + rewrite (proj2 (Nat.leb_gt _ _)), (proj2 (Nat.eqb_neq i _)) by lia. done.
  - cbn [length seq zip_with elevel lpushes pair_level] in *. unfold comb, push. cbn [fst snd].
    replace (S (S (2 * i))) with (2 * S i)%nat by lia.
    destruct (IH (S i)) as [E1 E2]; [lia|]. rewrite E1, E2. cbn [seq].
    pose proof (Nat.div_mod_eq p 2). pose proof (Nat.mod_upper_bound p 2 ltac:(lia)).
    destruct (Nat.eqb_spec (S (2 * i)) p) as [<-|H1]; [|destruct (Nat.eqb_spec (2 * i) p) as [<-|H2]].
    + rewrite (proj2 (Nat.leb_le (2 * i) _)), (proj2 (Nat.leb_gt _ _)), (proj2 (Nat.eqb_eq i _)) by lia.
      by replace (S (2 * i) - 2 * i)%nat with 1%nat by lia.
    + rewrite (proj2 (Nat.leb_le (2 * i) _)), (proj2 (Nat.leb_gt _ _)), (proj2 (Nat.eqb_eq i _)) by lia.
      by replace (2 * i - 2 * i)%nat with 0%nat by lia.
    + rewrite (proj2 (Nat.eqb_neq i _)) by lia. cbn [orb app]. split; [done|].
      destruct (Nat.leb_spec (2 * S i) p).
      * rewrite (proj2 (Nat.leb_le _ _)) by lia.
        replace (p - 2 * i)%nat with (S (S (p - 2 * S i))) by lia. by rewrite sibling_cons2.
      * by rewrite (proj2 (Nat.leb_gt _ _)) by lia.
Qed.

Lemma ebranch_branch_of l p :
  (p < length l)%nat ->
  ebranch (tree_height (length l)) (marked_from 0 p l) = branch_of (tree_height (length l)) l p.
Proof.
  remember (tree_height (length l)) as h eqn:Hh. revert l p Hh. induction h as [|h IH]; intros l p Hh Hp.
  - by destruct l as [|? [|]].
  - assert (2 <= length l)%nat as H2 by (destruct l as [|? [|]]; [done|done|cbn; lia]).
    rewrite tree_height_step in Hh by done. injection Hh as Hh.
    destruct (elevel_marked l 0 p) as [E1 E2]; [lia|]. cbn [Nat.mul Nat.add] in E1, E2.
    assert (ebranch (S h) (marked_from 0 p l) = lpushes (marked_from 0 p l) ++ ebranch h (elevel (marked_from 0 p l))) as ->.
    { unfold marked_from. destruct l as [|? [|]]; [cbn in H2; lia|cbn in H2; lia|reflexivity]. }
    rewrite E1, E2. cbn [branch_of Nat.leb app]. rewrite Nat.sub_0_r. f_equal.
    apply IH; rewrite length_pair_level; [done|].
    pose proof (Nat.div_mod_eq p 2). pose proof (Nat.div_mod_eq (length l + 1) 2).
    pose proof (Nat.mod_upper_bound (length l + 1) 2 ltac:(lia)). lia.
Qed.

Lemma land_1_odd p : nz (Z.of_nat p .& 1) = Nat.odd p.
Proof.
  change 1 with (2 ^ 1 - 1). rewrite land_mask by lia. change (2 ^ 1) with 2.
  destruct (Nat.Even_or_Odd p) as [[q Hq]|[q Hq]].
  - rewrite <- Nat.negb_even, (proj2 (Nat.even_spec p)) by (by exists q).
    replace (Z.of_nat p mod 2) with 0 by dlia. done.
  - rewrite (proj2 (Nat.odd_spec p)) by (by exists q).
    replace (Z.of_nat p mod 2) with 1 by dlia. done.
Qed.

Lemma branch_of_verifies l p :
  (p < length l)%nat ->
  ComputeMerkleRootFromBranch (nth p l null) (branch_of (tree_height (length l)) l p) (Z.of_nat p) = merkle_root l.
Proof.
  unfold merkle_root, ComputeMerkleRootFromBranch.
  remember (tree_height (length l)) as h eqn:Hh. revert l p Hh. induction h as [|h IH]; intros l p Hh Hp.
  - destruct l as [|a [|b r]]; [cbn in Hp; lia|by destruct p; [|cbn in Hp; lia]|].
    rewrite tree_height_step in Hh by (cbn; lia). done.
  - assert (2 <= length l)%nat as H2 by (destruct l as [|? [|]]; [done|done|cbn; lia]).
    rewrite tree_height_step in Hh by done. injection Hh as Hh.
    cbn [branch_of]. rewrite fold_left_cons. unfold root_from_branch_step at 2.
    assert (nz (Z.of_nat p .& 1) = Nat.odd p) as ->.
    { apply land_1_odd. }
    assert (Z.of_nat p .>> 1 = Z.of_nat (p / 2)) as ->.
    { rewrite shiftr_div by lia. by rewrite Nat2Z.inj_div. }
    rewrite <- nth_pair_level by done.
    assert (p / 2 < (length l + 1) / 2)%nat as Hlt.
    { pose proof (Nat.div_mod_eq p 2). pose proof (Nat.div_mod_eq (length l + 1) 2).
      pose proof (Nat.mod_upper_bound (length l + 1) 2 ltac:(lia)). lia. }
    rewrite IH; [destruct l as [|? [|]]; [cbn in H2; lia|cbn in H2; lia|done]| |]; rewrite length_pair_level; done.
Qed.

(** ** What the mutation flag is for *)

Lemma has_duplicate_nil k : has_duplicate k [] = false.
Proof. by induction k. Qed.

Lemma length_full_pairs l : length (full_pairs l) = (length l / 2)%nat.
Proof.
  induction l as [| |a b r IH] using pair_ind; [done..|]. cbn [full_pairs length]. by rewrite IH, div2_SS.
Qed.

Lemma has_duplicate_stable k j l :
  (length l <= 2 ^ k)%nat -> has_duplicate (k + j) l = has_duplicate k l.
Proof.
  revert l. induction k as [|k IH]; intros l Hl.
  - destruct l as [|a [|]]; [apply has_duplicate_nil| |cbn in Hl; lia].
    destruct j; [done|]. apply has_duplicate_nil.
  - cbn [Nat.add has_duplicate]. f_equal. apply IH. rewrite length_full_pairs. cbn [Nat.pow] in Hl.
    apply Nat.lt_succ_r, Nat.Div0.div_lt_upper_bound. lia.
Qed.

Lemma equal_pair_app l1 l2 : Nat.even (length l1) = true -> equal_pair (l1 ++ l2) = equal_pair l1 || equal_pair l2.
Proof.
  induction l1 as [| |a b r IH] using pair_ind; [done|done|]. intros He. cbn [length Nat.even] in He.
  cbn [app equal_pair]. by rewrite IH, orb_assoc.
Qed.

Lemma full_pairs_app l1 l2 : Nat.even (length l1) = true -> full_pairs (l1 ++ l2) = full_pairs l1 ++ full_pairs l2.
Proof.
  induction l1 as [| |a b r IH] using pair_ind; [done|done|]. intros He. cbn [length Nat.even] in He.
  cbn [app full_pairs]. by rewrite IH.
Qed.

Lemma pair_level_app l1 l2 : Nat.even (length l1) = true -> pair_level (l1 ++ l2) = full_pairs l1 ++ pair_level l2.
Proof.
  induction l1 as [| |a b r IH] using pair_ind; [done|done|]. intros He. cbn [length Nat.even] in He.
  cbn [app full_pairs pair_level]. by rewrite IH.
Qed.

(** The pairs hashed for one level, and for a whole tree. *)
Fixpoint level_pairs (l : list A) : list (A * A) :=
  match l with a :: b :: r => (a, b) :: level_pairs r | [a] => [(a, a)] | [] => [] end.
Fixpoint tree_pairs (height : nat) (l : list A) : list (A * A) :=
  match height with O => [] | S height => level_pairs l ++ tree_pairs height (pair_level l) end.

Lemma level_pairs_app l1 l2 :
  Nat.even (length l1) = true -> level_pairs (l1 ++ l2) = level_pairs l1 ++ level_pairs l2.
Proof.
  induction l1 as [| |a b r IH] using pair_ind; [done|done|]. intros He. cbn [length Nat.even] in He.
  cbn [app level_pairs]. by rewrite IH.
Qed.

Section Binding.
(** The pairs hashed while the two trees are built, free of collisions. *)
Context (hashed : A * A -> Prop).
Hypothesis hash2_inj : forall a b c d,
  hashed (a, b) -> hashed (c, d) -> hash2 a b = hash2 c d -> a = c /\ b = d.

(** A node of level [j] none of whose subtrees has two equal children. *)
Fixpoint clean (j : nat) (v : A) : Prop :=
  match j with
  | O => True
  | S j => exists a b, hashed (a, b) /\ v = hash2 a b /\ a <> b /\ clean j a /\ clean j b
  end.

(** A level of a tree without duplicates: clean nodes, then possibly one node
    over the padding of the odd levels below. *)
Definition level_ok (j : nat) (l : list A) : Prop :=
  exists c t, l = c ++ t /\ Forall (clean j) c /\ (forall k, has_duplicate k c = false) /\
  (t = [] \/ exists d, t = [d] /\ ~ clean j d).

Lemma dup_not_clean j x : hashed (x, x) -> ~ clean (S j) (hash2 x x).
Proof. intros Hx (a & b & Hab & E & Hne & _). apply hash2_inj in E as [<- <-]; done. Qed.

Lemma tail_not_clean j x d : hashed (x, d) -> ~ clean j d -> ~ clean (S j) (hash2 x d).
Proof. intros Hx Hd (a & b & Hab & E & _ & _ & Hb). apply hash2_inj in E as [<- <-]; done. Qed.

Lemma full_pairs_clean j c :
  Forall hashed (level_pairs c) -> Forall (clean j) c -> equal_pair c = false ->
  Forall (clean (S j)) (full_pairs c).
Proof.
  induction c as [| |a b r IH] using pair_ind; [constructor..|].
  intros HP HF He. apply Forall_cons_iff in HP as [Hp HP].
  apply Forall_cons_iff in HF as [Ha HF]. apply Forall_cons_iff in HF as [Hb HF].
  cbn [equal_pair] in He. apply orb_false_iff in He as [Hne He]. apply bool_decide_eq_false in Hne.
  cbn [full_pairs]. constructor; [by exists a, b|by apply IH].
Qed.

Lemma full_pairs_even_odd (c : list A) :
  Nat.even (length c) = true \/
  exists c' y, c = c' ++ [y] /\ Nat.even (length c') = true.
Proof.
  destruct (Nat.even (length c)) eqn:E; [by left|right].
  destruct c as [|y c' _] using rev_ind; [done|]. exists c', y. split; [done|].
  rewrite length_app, Nat.add_1_r, Nat.even_succ, <- Nat.negb_even in E. by apply negb_false_iff.
Qed.

Lemma level_ok_step j l : Forall hashed (level_pairs l) -> level_ok j l -> level_ok (S j) (pair_level l).
Proof.
  intros HP (c & t & -> & HF & Hd & Ht).
  destruct (full_pairs_even_odd c) as [He|(c' & y & -> & He)].
  - rewrite level_pairs_app in HP by done. apply Forall_app in HP as [HP HPt]. rewrite pair_level_app by done. exists (full_pairs c), (pair_level t).
    refine (conj eq_refl (conj _ (conj _ _))).
    + apply full_pairs_clean; [done|done|]. specialize (Hd 1%nat). cbn in Hd. by destruct (equal_pair c).
    + intros k. specialize (Hd (S k)). cbn in Hd. by apply orb_false_iff in Hd as [_ ?].
    + destruct Ht as [->|(d & -> & Hnc)]; [by left|right]. exists (hash2 d d). split; [done|].
      apply dup_not_clean. by apply Forall_inv in HPt.
  - rewrite <- app_assoc, level_pairs_app in HP by done. apply Forall_app in HP as [HP HPt].
    rewrite <- app_assoc, pair_level_app by done. exists (full_pairs c'), (pair_level ([y] ++ t)).
    apply Forall_app in HF as [HF _].
    refine (conj eq_refl (conj _ (conj _ _))).
    + apply full_pairs_clean; [done|done|]. specialize (Hd 1%nat). cbn [has_duplicate] in Hd.
      rewrite equal_pair_app in Hd by done. by destruct (equal_pair c').
    + intros k. specialize (Hd (S k)). cbn [has_duplicate] in Hd. apply orb_false_iff in Hd as [_ Hd].
      rewrite full_pairs_app in Hd by done. cbn [full_pairs] in Hd. by rewrite app_nil_r in Hd.
    + right. destruct Ht as [->|(d & -> & Hnc)].
      * exists (hash2 y y). split; [done|]. apply dup_not_clean. by apply Forall_inv in HPt.
      * exists (hash2 y d). split; [done|]. apply tail_not_clean; [by apply Forall_inv in HPt|done].
Qed.

Lemma level_ok_no_twin j l x : Nat.even (length l) = true -> ~ level_ok j (l ++ [x; x]).
Proof.
  intros He (c & t & E & HF & Hd & [->|(d & -> & Hnc)]).
  - rewrite app_nil_r in E. subst c. specialize (Hd 1%nat). cbn [has_duplicate] in Hd.
    rewrite equal_pair_app in Hd by done. cbn [equal_pair] in Hd.
    rewrite bool_decide_eq_true_2, orb_true_r in Hd by done. done.
  - change [x; x] with ([x] ++ [x]) in E. rewrite app_assoc in E. apply app_inj_tail in E as [<- <-].
    apply Forall_app in HF as [_ HF]. by apply Forall_inv in HF.
Qed.

Lemma pair_level_inj l1 l2 :
  Forall hashed (level_pairs l1) -> Forall hashed (level_pairs l2) -> pair_level l1 = pair_level l2 ->
  l1 = l2 \/ exists l x, Nat.even (length l) = true /\
    ((l1 = l ++ [x; x] /\ l2 = l ++ [x]) \/ (l2 = l ++ [x; x] /\ l1 = l ++ [x])).
Proof.
  revert l2. induction l1 as [|a|a b r IH] using pair_ind; intros [|a' [|b' r']] HP1 HP2 E;
    cbn [pair_level level_pairs] in *; try done; [by left| | | |].
  all: apply Forall_cons_iff in HP1 as [P1 HP1], HP2 as [P2 HP2].
  all: pose proof (f_equal (@tl A) E) as Er; apply (f_equal (@hd_error A)) in E;
    cbn [tl hd_error] in E, Er; injection E as E; apply hash2_inj in E as [E1 E2]; [subst|done..].
  - by left.
  - symmetry in Er. destruct r' as [|? [|]]; try done. right. eexists [], _. split; [done|]. by right.
  - destruct r as [|? [|]]; try done. right. eexists [], _. split; [done|]. by left.
  - destruct (IH _ HP1 HP2 Er) as [->|(l & x & He & [[-> ->]|[-> ->]])]; [by left|right..].
    + eexists (_ :: _ :: l), x. split; [done|]. by left.
    + eexists (_ :: _ :: l), x. split; [done|]. by right.
Qed.

Lemma tree_root_binding h j l1 l2 :
  tree_height (length l1) = h -> tree_height (length l2) = h -> l1 <> [] -> l2 <> [] ->
  Forall hashed (tree_pairs h l1) -> Forall hashed (tree_pairs h l2) ->
  level_ok j l1 -> level_ok j l2 -> tree_root h l1 = tree_root h l2 -> l1 = l2.
Proof.
  revert j l1 l2. induction h as [|h IH]; intros j l1 l2 H1 H2 Hn1 Hn2 HP1 HP2 Hok1 Hok2 E.
  - destruct l1 as [|a [|b1 r1]]; [done| |rewrite tree_height_step in H1 by (cbn; lia); done].
    destruct l2 as [|a' [|b2 r2]]; [done| |rewrite tree_height_step in H2 by (cbn; lia); done].
    cbn in E. by subst.
  - assert (forall l, tree_height (length l) = S h -> l <> [] ->
      tree_height (length (pair_level l)) = h /\ pair_level l <> [] /\ tree_root (S h) l = tree_root h (pair_level l)) as Hstep.
    { intros [|a [|b r]] Hh Hn; [done|done|]. rewrite tree_height_step in Hh by (cbn; lia).
      rewrite length_pair_level. injection Hh as Hh. done. }
    destruct (Hstep l1 H1 Hn1) as (A1 & A2 & A3), (Hstep l2 H2 Hn2) as (B1 & B2 & B3).
    cbn [tree_pairs] in HP1, HP2. apply Forall_app in HP1 as [P1 HP1], HP2 as [P2 HP2].
    rewrite A3, B3 in E. apply (IH (S j)) in E; [|done..|by apply level_ok_step|by apply level_ok_step].
    apply pair_level_inj in E as [->|(l & x & He & [[-> ->]|[-> ->]])]; [done| | |done|done];
      exfalso; eapply level_ok_no_twin; eauto.
Qed.

End Binding.

Definition collision (L : list (A * A)) : Prop :=
  exists p q, In p L /\ In q L /\ p <> q /\ hash2 (fst p) (snd p) = hash2 (fst q) (snd q).

Lemma collision_or_injective L :
  collision L \/
  forall a b c d, In (a, b) L -> In (c, d) L -> hash2 a b = hash2 c d -> a = c /\ b = d.
Proof.
  destruct (decide (Exists (fun p => Exists (fun q =>
    p <> q /\ hash2 (fst p) (snd p) = hash2 (fst q) (snd q)) L) L)) as [HE|HN].
  - left. apply Exists_exists in HE as (p & Hp & (q & Hq & Hne & E)%Exists_exists). by exists p, q.
  - right. intros a b c d Ha Hc E. destruct (decide ((a, b) = (c, d))) as [[= -> ->]|Hne]; [done|].
    exfalso. apply HN, Exists_exists. exists (a, b). split; [done|]. apply Exists_exists. by exists (c, d).
Qed.

(** Two different lists of leaves under the same root, neither flagged, exhibit
    two different pairs with the same hash. *)
Lemma merkle_binding l1 l2 :
  l1 <> [] -> l2 <> [] -> tree_height (length l1) = tree_height (length l2) ->
  (forall k, has_duplicate k l1 = false) -> (forall k, has_duplicate k l2 = false) ->
  merkle_root l1 = merkle_root l2 -> l1 <> l2 ->
  collision (tree_pairs (tree_height (length l1)) l1 ++ tree_pairs (tree_height (length l2)) l2).
Proof.
  intros Hn1 Hn2 Hh Hd1 Hd2 E Hne. unfold merkle_root in E. rewrite Hh in E |- *.
  set (h := tree_height (length l2)) in *.
  destruct (collision_or_injective (tree_pairs h l1 ++ tree_pairs h l2)) as [HC|Hinj]; [done|].
  exfalso. apply Hne.
  assert (forall l, (forall k, has_duplicate k l = false) ->
    level_ok (fun p => In p (tree_pairs h l1 ++ tree_pairs h l2)) 0 l) as Hok.
  { intros l Hd. exists l, []. rewrite app_nil_r. refine (conj eq_refl (conj _ (conj Hd (or_introl eq_refl)))).
    by apply Forall_true. }
  apply (tree_root_binding (fun p => In p (tree_pairs h l1 ++ tree_pairs h l2)) Hinj h 0); try done; [| |by apply Hok|by apply Hok].
  - apply Forall_forall. intros p Hp. apply in_app_iff. by left.
  - apply Forall_forall. intros p Hp. apply in_app_iff. by right.
Qed.

(** Padding the last odd level by hand leaves the root alone but is flagged. *)
Lemma twin_same_level l x :
  Nat.even (length l) = true -> pair_level (l ++ [x; x]) = pair_level (l ++ [x]).
Proof. intros He. by rewrite !pair_level_app by done. Qed.

Lemma ComputeMerkleRoot_spec l :
  Z.of_nat (length l) <= 2 ^ 31 ->
  ComputeMerkleRoot l = (merkle_root l, has_duplicate (tree_height (length l)) l).
Proof.
  intros Hl. unfold ComputeMerkleRoot.
  destruct l as [|a r]; [done|]. pose proof (MerkleComputation_same (a :: r) (2 ^ 32 - 1) 0 false true) as Hs.
  rewrite MerkleComputation_true in Hs by done.
  destruct (MerkleComputation (a :: r) (2 ^ 32 - 1) false) as [[root mu] br]. cbn [fst] in Hs.
  destruct (tree_height_bound (a :: r)) as [H1 H2]; [done|done|].
  rewrite <- (has_duplicate_stable _ (32 - tree_height (length (a :: r)))) by done.
  replace (tree_height _ + (32 - tree_height _))%nat with 32%nat by lia. done.
Qed.

Lemma ComputeMerkleBranch_spec l p :
  (p < length l)%nat -> Z.of_nat (length l) <= 2 ^ 31 ->
  ComputeMerkleBranch l (Z.of_nat p) = branch_of (tree_height (length l)) l p.
Proof.
  intros Hp Hl. unfold ComputeMerkleBranch.
  rewrite MerkleComputation_true; [|by destruct l; [cbn in Hp; lia|]|done].
  by rewrite marked_marked_from, ebranch_branch_of.
Qed.

Lemma not_flagged l :
  Z.of_nat (length l) <= 2 ^ 31 -> snd (ComputeMerkleRoot l) = false -> forall k, has_duplicate k l = false.
Proof.
  intros Hl Hf k. rewrite ComputeMerkleRoot_spec in Hf by done. cbn [snd] in Hf.
  destruct l as [|a r]; [apply has_duplicate_nil|].
  destruct (tree_height_bound (a :: r)) as [H1 _]; [done|done|].
  set (h := tree_height _) in *.
  rewrite <- (has_duplicate_stable h k) in Hf by done.
  clear -Hf. revert Hf. generalize (a :: r). revert h.
  induction k as [|k IH]; intros h l Hf; [done|]. rewrite Nat.add_succ_r in Hf. cbn [has_duplicate] in *.
  apply orb_false_iff in Hf as [-> Hf]. cbn [orb]. by apply IH.
Qed.
End Merkle.

(** ** The node's trees: 256-bit hashes under double SHA-256 *)

Abbreviation uint256 := (list Z) (only parsing).

Definition null256 : uint256 := replicate 32 0.
Definition hash_pair (left right : uint256) : uint256 := Hash [left; right].

(** [BlockMerkleRoot] and [BlockMerkleBranch] of a block's transaction ids. *)
Definition BlockMerkleRoot (txids : list uint256) : uint256 * bool :=
  ComputeMerkleRoot null256 hash_pair txids.
Definition BlockMerkleBranch (txids : list uint256) (position : Z) : list uint256 :=
  ComputeMerkleBranch null256 hash_pair txids position.

(** The constant-space computation of the Merkle root (one array slot per
    level, merged like the carries of a binary counter, then a final sweep)
    gives the root of the tree defined level by level, where the last node of an
    odd level is paired with itself; and its mutation flag says exactly whether
    two equal present nodes are paired somewhere below complete subtrees.  The
    bound keeps the 32-bit leaf counter from wrapping during the sweep. *)
Theorem MerkleComputation_correct {A : Type} `{EqDecision A} (null : A) (hash2 : A -> A -> A) (leaves : list A) :
  Z.of_nat (length leaves) <= 2 ^ 31 ->
  ComputeMerkleRoot null hash2 leaves =
  (merkle_root null hash2 leaves, has_duplicate hash2 (tree_height (length leaves)) leaves).
Proof. apply ComputeMerkleRoot_spec. Qed.

Lemma MerkleComputation_correct_witness :
  let leaves := map (fun i => replicate 32 i) [1; 2; 3; 4; 5; 6; 7; 5; 6; 7; 8] in
  ComputeMerkleRoot null256 hash_pair leaves =
  (merkle_root null256 hash_pair leaves, has_duplicate hash_pair (tree_height (length leaves)) leaves).
Proof. intros leaves. apply (MerkleComputation_correct null256 hash_pair leaves). cbn. lia. Defined.

(** A Merkle branch leads from its leaf back to the root: for every position
    of the list, [ComputeMerkleRootFromBranch] applied to the leaf and to what
    [ComputeMerkleBranch] returns for its position gives [ComputeMerkleRoot]. *)
Theorem merkle_branch_roundtrip {A : Type} `{EqDecision A} (null : A) (hash2 : A -> A -> A)
    (leaves : list A) (position : nat) (leaf : A) :
  Z.of_nat (length leaves) <= 2 ^ 31 -> leaves !! position = Some leaf ->
  ComputeMerkleRootFromBranch hash2 leaf
    (ComputeMerkleBranch null hash2 leaves (Z.of_nat position)) (Z.of_nat position) =
  fst (ComputeMerkleRoot null hash2 leaves) /\
  length (ComputeMerkleBranch null hash2 leaves (Z.of_nat position)) = tree_height (length leaves).
Proof.
  intros Hl Hp. pose proof (lookup_lt_Some _ _ _ Hp) as Hlt.
  rewrite ComputeMerkleBranch_spec, ComputeMerkleRoot_spec by done. cbn [fst]. split.
  - rewrite <- (branch_of_verifies null hash2 leaves position Hlt).
    by rewrite (nth_lookup_Some _ _ null _ Hp).
  - generalize (tree_height (length leaves)). clear. intros h. revert leaves position.
    induction h as [|h IH]; intros l p; [done|]. cbn [branch_of length]. by rewrite IH.
Qed.

Lemma merkle_branch_roundtrip_witness :
  let leaves := map (fun i => replicate 32 i) [1; 2; 3; 4; 5; 6; 7] in
  ComputeMerkleRootFromBranch hash_pair (replicate 32 7) (ComputeMerkleBranch null256 hash_pair leaves 6) 6 =
  fst (ComputeMerkleRoot null256 hash_pair leaves).
Proof.
  intros leaves.
  apply (merkle_branch_roundtrip null256 hash_pair leaves 6 (replicate 32 7)); [cbn; lia|reflexivity].
Defined.

(** Why blocks with the mutation flag must be rejected, and why that is
    enough.  Two lists of leaves of trees of the same height that have the same
    root and are not flagged are equal, or else two different pairs of nodes
    among those hashed for the two trees collide under the hash. *)
Theorem unflagged_root_binding {A : Type} `{EqDecision A} (null : A) (hash2 : A -> A -> A) (l1 l2 : list A) :
  l1 <> [] -> l2 <> [] -> Z.of_nat (length l1) <= 2 ^ 31 -> Z.of_nat (length l2) <= 2 ^ 31 ->
  tree_height (length l1) = tree_height (length l2) ->
  ComputeMerkleRoot null hash2 l1 = ComputeMerkleRoot null hash2 l2 ->
  snd (ComputeMerkleRoot null hash2 l1) = false ->
  l1 = l2 \/
  collision hash2 (tree_pairs hash2 (tree_height (length l1)) l1 ++
                   tree_pairs hash2 (tree_height (length l2)) l2).
Proof.
  intros Hn1 Hn2 Hl1 Hl2 Hh E Hf. destruct (decide (l1 = l2)) as [|Hne]; [by left|right].
  eapply (merkle_binding null); try done.
  - by eapply (not_flagged null).
  - eapply (not_flagged null); [done|]. by rewrite <- E.
  - rewrite !ComputeMerkleRoot_spec in E by done. by injection E.
Qed.

(** Applied to lists that are in fact equal, so that no collision is claimed. *)
Lemma unflagged_root_binding_witness :
  let l := map (fun i => replicate 32 i) [1; 2; 3] in
  l = l \/ collision hash_pair (tree_pairs hash_pair 2 l ++ tree_pairs hash_pair 2 l).
Proof.
  intros l. by apply (unflagged_root_binding null256 hash_pair l l).
Defined.

(** Repeating the last leaf of an odd list keeps the root and raises the flag. *)
Example CVE_2012_2459 :
  let l := map (fun i => replicate 32 i) [1; 2; 3] in
  let l' := map (fun i => replicate 32 i) [1; 2; 3; 3] in
  fst (BlockMerkleRoot l) = fst (BlockMerkleRoot l') /\
  snd (BlockMerkleRoot l) = false /\ snd (BlockMerkleRoot l') = true.
Proof. vm_compute. done. Qed.
