(* ===== verification/Serialize.v ===== *)
(** * Serialization primitives (src/src/serialize.h)

    Writers return the bytes they append to the stream; readers take the
    remaining bytes and return a value with what is left, or the exception they
    throw.  [CompactSize] and [VarInt] are the two length encodings of the
    network and disk formats. *)

From S2P Require Import Prelude Bytes.
Local Open Scope cxx_scope.

(** ** Streams

    [SerOutOfFuel] is not an exception of the source: it marks a loop of the model
    stopped too early, which the theorems exclude. *)

Inductive ser_error : Type :=
| EndOfData
| NonCanonicalSize
| SizeTooLarge
| InvalidObject
| SerOutOfFuel.

Definition reader (A : Type) : Type := list Z -> result ser_error (A * list Z).

(** [s.read(pch, n)]: a short stream throws. *)
Definition read_bytes (n : nat) : reader (list Z) := fun s =>
  if (length s <? n)%nat then Throw EndOfData else Ok (take n s, drop n s).

Definition ser_writedata8 (obj : Z) : list Z := [u8 obj].
Definition ser_writedata16 (obj : Z) : list Z := WriteLE16 obj.
Definition ser_writedata32 (obj : Z) : list Z := WriteLE32 obj.
Definition ser_writedata32be (obj : Z) : list Z := WriteBE32 obj.
Definition ser_writedata64 (obj : Z) : list Z := WriteLE64 obj.

Definition ser_readdata8 : reader Z := fun s =>
  let! r := read_bytes 1 s in Ok (le_val (fst r), snd r).
Definition ser_readdata16 : reader Z := fun s =>
  let! r := read_bytes 2 s in Ok (ReadLE16 (fst r), snd r).
Definition ser_readdata32 : reader Z := fun s =>
  let! r := read_bytes 4 s in Ok (ReadLE32 (fst r), snd r).
Definition ser_readdata32be : reader Z := fun s =>
  let! r := read_bytes 4 s in Ok (ReadBE32 (fst r), snd r).
Definition ser_readdata64 : reader Z := fun s =>
  let! r := read_bytes 8 s in Ok (ReadLE64 (fst r), snd r).

(** ** CompactSize *)

Definition MAX_SIZE : Z := 0x02000000.

Definition GetSizeOfCompactSize (nSize : Z) : Z :=
  if nSize <? 253 then 1
  else if nSize <=? 0xffff then 3
  else if nSize <=? 0xffffffff then 5
  else 9.

Definition WriteCompactSize (nSize : Z) : list Z :=
  if nSize <? 253 then ser_writedata8 nSize
  else if nSize <=? 0xffff then ser_writedata8 253 ++ ser_writedata16 nSize
  else if nSize <=? 0xffffffff then ser_writedata8 254 ++ ser_writedata32 nSize
  else ser_writedata8 255 ++ ser_writedata64 nSize.

Definition ReadCompactSize : reader Z := fun s =>
  let! r := ser_readdata8 s in
  let '(chSize, s) := r in
  let! r :=
    if chSize <? 253 then Ok (chSize, s)
    else if chSize =? 253 then
      let! r := ser_readdata16 s in
      if fst r <? 253 then Throw NonCanonicalSize else Ok r
    else if chSize =? 254 then
      let! r := ser_readdata32 s in
      if fst r <? 0x10000 then Throw NonCanonicalSize else Ok r
    else
      let! r := ser_readdata64 s in
      if fst r <? 0x100000000 then Throw NonCanonicalSize else Ok r in
  if MAX_SIZE <? fst r then Throw SizeTooLarge else Ok r.

(** ** VarInt, over an unsigned type of [w] bits *)

(** The loop that fills [tmp], lowest digit first; [None] when it would run past
    the [cap] bytes of the array.  [first] is [len == 0]. *)
Fixpoint varint_digits (cap : nat) (first : bool) (n : Z) : option (list Z) :=
  match cap with
  | O => None
  | S cap =>
      let d := (n .& 0x7F) .| (if first then 0x00 else 0x80) in
      if n <=? 0x7F then Some [d]
      else
        match varint_digits cap false ((n .>> 7) - 1) with
        | Some ds => Some (d :: ds)
        | None => None
        end
  end.

Definition varint_cap (w : Z) : nat := Z.to_nat ((w + 6) / 7).

Definition WriteVarInt (w n : Z) : option (list Z) :=
  option_map (@reverse Z) (varint_digits (varint_cap w) true n).

Fixpoint GetSizeOfVarInt (fuel : nat) (n : Z) : Z :=
  match fuel with
  | O => 0
  | S fuel => if n <=? 0x7F then 1 else 1 + GetSizeOfVarInt fuel ((n .>> 7) - 1)
  end.

(** The loop reads at least one byte per turn: the stream is the fuel. *)
Fixpoint ReadVarInt_loop (w n : Z) (s : list Z) : result ser_error (Z * list Z) :=
  match s with
  | [] => Throw EndOfData
  | chData :: s =>
      let n := wrapu w (n .<< 7) .| (chData .& 0x7F) in
      if nz (chData .& 0x80) then ReadVarInt_loop w (wrapu w (n + 1)) s
      else Ok (n, s)
  end.
Definition ReadVarInt (w : Z) : reader Z := ReadVarInt_loop w 0.

(** ** Reading back what was written *)

Lemma read_bytes_app n a r : length a = n -> read_bytes n (a ++ r) = Ok (a, r).
Proof.
  intros <-. unfold read_bytes. rewrite (proj2 (Nat.ltb_ge _ _)) by (rewrite length_app; lia).
  by rewrite take_app_length, drop_app_length.
Qed.

Lemma read_bytes_inv n s a r : read_bytes n s = Ok (a, r) -> s = a ++ r /\ length a = n.
Proof.
  unfold read_bytes. destruct (Nat.ltb_spec (length s) n) as [|Hl]; [done|]. intros [= <- <-].
  rewrite take_drop, length_take. split; [done|lia].
Qed.

Lemma read8_write x r : is_u 8 x -> ser_readdata8 (ser_writedata8 x ++ r) = Ok (x, r).
Proof.
  intros Hx. unfold ser_readdata8, ser_writedata8. rewrite read_bytes_app by done.
  cbn [rbind fst snd le_val]. by rewrite Z.shiftl_0_l, Z.lor_0_r, u8_id.
Qed.
Lemma read16_write x r : is_u 16 x -> ser_readdata16 (ser_writedata16 x ++ r) = Ok (x, r).
Proof.
  intros Hx. unfold ser_readdata16, ser_writedata16. rewrite read_bytes_app by apply length_le_bytes.
  cbn [rbind fst snd]. by rewrite <- (app_nil_r (WriteLE16 x)), ReadLE16_Write.
Qed.
Lemma read32_write x r : is_u 32 x -> ser_readdata32 (ser_writedata32 x ++ r) = Ok (x, r).
Proof.
  intros Hx. unfold ser_readdata32, ser_writedata32. rewrite read_bytes_app by apply length_le_bytes.
  cbn [rbind fst snd]. by rewrite <- (app_nil_r (WriteLE32 x)), ReadLE32_Write.
Qed.
Lemma read32be_write x r : is_u 32 x -> ser_readdata32be (ser_writedata32be x ++ r) = Ok (x, r).
Proof.
  intros Hx. unfold ser_readdata32be, ser_writedata32be.
  rewrite read_bytes_app by (unfold WriteBE32; by rewrite length_reverse, length_le_bytes).
  cbn [rbind fst snd]. by rewrite <- (app_nil_r (WriteBE32 x)), ReadBE32_Write.
Qed.
Lemma read64_write x r : is_u 64 x -> ser_readdata64 (ser_writedata64 x ++ r) = Ok (x, r).
Proof.
  intros Hx. unfold ser_readdata64, ser_writedata64. rewrite read_bytes_app by apply length_le_bytes.
  cbn [rbind fst snd]. by rewrite <- (app_nil_r (WriteLE64 x)), ReadLE64_Write.
Qed.

Lemma read_inv n (rd : reader Z) s x r :
  (forall s, rd s = let! r := read_bytes n s in Ok (le_val (take n (fst r)), snd r)) ->
  bytes_ok s -> rd s = Ok (x, r) -> s = le_bytes n x ++ r /\ is_u (8 * Z.of_nat n) x /\ bytes_ok r.
Proof.
  intros -> Hok. destruct (read_bytes n s) as [[a r']|] eqn:E; [|done]. cbn [rbind fst snd].
  apply read_bytes_inv in E as [-> <-]. intros [= <- <-]. rewrite take_ge by lia.
  apply Forall_app in Hok as [Ha Hr]. rewrite le_bytes_val by done.
  split; [done|]. split; [by apply le_val_range|done].
Qed.

Lemma read8_inv s x r : bytes_ok s -> ser_readdata8 s = Ok (x, r) -> s = x :: r /\ is_u 8 x /\ bytes_ok r.
Proof.
  intros Hok E. apply (read_inv 1) in E as (Es & Hx & Hr); [|clear|done].
  - cbn [le_bytes app] in Es. rewrite land_ff, Z.mod_small in Es by done. done.
  - intros s. unfold ser_readdata8. destruct (read_bytes 1 s) as [[a r]|] eqn:E; [|done]. cbn [rbind fst snd].
    apply read_bytes_inv in E as [_ E]. by rewrite take_ge by lia.
Qed.
Lemma read16_inv s x r :
  bytes_ok s -> ser_readdata16 s = Ok (x, r) -> s = ser_writedata16 x ++ r /\ is_u 16 x /\ bytes_ok r.
Proof. intros Hok E. by apply (read_inv 2) in E. Qed.
Lemma read32_inv s x r :
  bytes_ok s -> ser_readdata32 s = Ok (x, r) -> s = ser_writedata32 x ++ r /\ is_u 32 x /\ bytes_ok r.
Proof. intros Hok E. by apply (read_inv 4) in E. Qed.
Lemma read64_inv s x r :
  bytes_ok s -> ser_readdata64 s = Ok (x, r) -> s = ser_writedata64 x ++ r /\ is_u 64 x /\ bytes_ok r.
Proof. intros Hok E. by apply (read_inv 8) in E. Qed.

(** *** CompactSize *)

Lemma ReadCompactSize_write n r :
  is_u 64 n ->
  ReadCompactSize (WriteCompactSize n ++ r) = if n <=? MAX_SIZE then Ok (n, r) else Throw SizeTooLarge.
Proof.
  intros Hn. unfold WriteCompactSize, ReadCompactSize.
  assert (forall x, (if MAX_SIZE <? fst (x, r) then Throw SizeTooLarge else Ok (x, r)) =
    (if x <=? MAX_SIZE then Ok (x, r) else Throw SizeTooLarge : result ser_error (Z * list Z))) as Hfin.
  { intros x. cbn [fst]. destruct (Z.ltb_spec MAX_SIZE x), (Z.leb_spec x MAX_SIZE); (done || lia). }
  unfold is_u in Hn.
  destruct (n <? 253) eqn:E1; [|destruct (n <=? 0xffff) eqn:E2; [|destruct (n <=? 0xffffffff) eqn:E3]];
    bool_to_prop; rewrite <- ?app_assoc, read8_write by (unfold is_u; lia); cbn [rbind].
  - rewrite (proj2 (Z.ltb_lt _ _)) by done. cbn [rbind]. apply Hfin.
  - cbn [Z.ltb Z.eqb Z.compare]. change (253 <? 253) with false. change (253 =? 253) with true. cbn [rbind].
    rewrite read16_write by (unfold is_u; lia). cbn [rbind]. change (fst (n, r)) with n at 1.
    rewrite (proj2 (Z.ltb_ge n _)) by lia. cbn [rbind]. apply Hfin.
  - change (254 <? 253) with false. change (254 =? 253) with false. change (254 =? 254) with true. cbn [rbind].
    rewrite read32_write by (unfold is_u; lia). cbn [rbind]. change (fst (n, r)) with n at 1.
    rewrite (proj2 (Z.ltb_ge n _)) by lia. cbn [rbind]. apply Hfin.
  - change (255 <? 253) with false. change (255 =? 253) with false. change (255 =? 254) with false. cbn [rbind].
    rewrite read64_write by (unfold is_u; lia). cbn [rbind]. change (fst (n, r)) with n at 1.
    rewrite (proj2 (Z.ltb_ge n _)) by lia. cbn [rbind]. apply Hfin.
Qed.

Lemma ReadCompactSize_inv s n r :
  bytes_ok s -> ReadCompactSize s = Ok (n, r) -> s = WriteCompactSize n ++ r /\ 0 <= n <= MAX_SIZE.
Proof.
  intros Hok. unfold ReadCompactSize. destruct (ser_readdata8 s) as [[ch s1]|] eqn:E1; [|done].
  apply read8_inv in E1 as (-> & Hch & Hok1); [|done]. cbn [rbind].
  assert (forall m : result ser_error (Z * list Z),
    (forall x t, m = Ok (x, t) -> ch :: s1 = WriteCompactSize x ++ t /\ 0 <= x) ->
    (let! r := m in if MAX_SIZE <? fst r then Throw SizeTooLarge else Ok r) = Ok (n, r) ->
    ch :: s1 = WriteCompactSize n ++ r /\ 0 <= n <= MAX_SIZE) as Hfin.
  { intros [[x t]|] Hm; [|done]. cbn [rbind fst]. destruct (Z.ltb_spec MAX_SIZE x); [done|].
    intros [= <- <-]. destruct (Hm x t eq_refl). done. }
  apply Hfin. clear Hfin n r. intros n r. unfold is_u in Hch.
  repeat case_if; bool_to_prop.
  - intros [= <- <-]. unfold WriteCompactSize. rewrite (proj2 (Z.ltb_lt _ _)) by done.
    unfold ser_writedata8. rewrite u8_id by done. split; [done|lia].
  - subst ch. destruct (ser_readdata16 s1) as [[x t]|] eqn:Er; [|done]. cbn [rbind fst].
    apply read16_inv in Er as (-> & Hx & _); [|done]. unfold is_u in Hx. case_if; [done|]. bool_to_prop.
    intros [= <- <-]. unfold WriteCompactSize. rewrite (proj2 (Z.ltb_ge _ _)), (proj2 (Z.leb_le _ _)) by lia.
    split; [done|lia].
  - subst ch. destruct (ser_readdata32 s1) as [[x t]|] eqn:Er; [|done]. cbn [rbind fst].
    apply read32_inv in Er as (-> & Hx & _); [|done]. unfold is_u in Hx. case_if; [done|]. bool_to_prop.
    intros [= <- <-]. unfold WriteCompactSize.
    rewrite (proj2 (Z.ltb_ge _ _)), (proj2 (Z.leb_gt x 0xffff)), (proj2 (Z.leb_le _ _)) by lia. split; [done|lia].
  - assert (ch = 255) as -> by lia. destruct (ser_readdata64 s1) as [[x t]|] eqn:Er; [|done]. cbn [rbind fst].
    apply read64_inv in Er as (-> & Hx & _); [|done]. unfold is_u in Hx. case_if; [done|]. bool_to_prop.
    intros [= <- <-]. unfold WriteCompactSize.
    rewrite (proj2 (Z.ltb_ge _ _)), (proj2 (Z.leb_gt x 0xffff)), (proj2 (Z.leb_gt x 0xffffffff)) by lia.
    split; [done|lia].
Qed.

Lemma length_WriteCompactSize n : Z.of_nat (length (WriteCompactSize n)) = GetSizeOfCompactSize n.
Proof. unfold WriteCompactSize, GetSizeOfCompactSize. by repeat case_if. Qed.

(** *** VarInt *)

Lemma forall_below (n : nat) (P : Z -> bool) :
  forallb (fun i => P (Z.of_nat i)) (seq 0 n) = true -> forall x, 0 <= x < Z.of_nat n -> P x = true.
Proof.
  rewrite forallb_forall. intros H x Hx. rewrite <- (Z2Nat.id x) by lia. apply H, in_seq. lia.
Qed.

(** The two fields of a digit byte. *)
Lemma digit_fields r : 0 <= r < 128 ->
  (r .| 0x80) .& 0x7F = r /\ nz ((r .| 0x80) .& 0x80) = true /\
  (r .| 0x00) .& 0x7F = r /\ nz ((r .| 0x00) .& 0x80) = false.
Proof.
  intros Hr.
  pose proof (forall_below 128 (fun r => ((r .| 0x80) .& 0x7F =? r) && nz ((r .| 0x80) .& 0x80) &&
    ((r .| 0x00) .& 0x7F =? r) && negb (nz ((r .| 0x00) .& 0x80))) ltac:(vm_compute; reflexivity) r Hr) as H.
  cbv beta in H. bool_to_prop. done.
Qed.

Lemma byte_digit ch : 0 <= ch < 256 ->
  0 <= ch .& 0x7F < 128 /\ ch = (ch .& 0x7F) .| (if nz (ch .& 0x80) then 0x80 else 0x00).
Proof.
  intros Hc.
  pose proof (forall_below 256 (fun ch => (0 <=? ch .& 0x7F) && (ch .& 0x7F <? 128) &&
    (ch =? (ch .& 0x7F) .| (if nz (ch .& 0x80) then 0x80 else 0x00))) ltac:(vm_compute; reflexivity) ch Hc) as H.
  cbv beta in H. bool_to_prop. done.
Qed.

Lemma land_7F x : x .& 0x7F = x mod 128.
Proof. by apply (land_mask 7). Qed.

(** The accumulator step on a digit. *)
Lemma varint_step w m r :
  0 <= w -> 0 <= m -> 0 <= r < 128 -> m * 128 + r < 2 ^ w -> wrapu w (m .<< 7) .| r = m * 128 + r.
Proof.
  intros Hw Hm Hr Hlt. rewrite wrapu_id by (unfold is_u; rewrite shiftl_mul by lia; lia).
  rewrite Z.lor_comm, lor_disjoint_add by lia. lia.
Qed.

Lemma varint_shift m : 0x7F < m -> 0 <= (m .>> 7) - 1 /\ (m .>> 7) * 128 + m mod 128 = m.
Proof. intros Hm. rewrite shiftr_div by lia. change (2 ^ 7) with 128. split; dlia. Qed.

Lemma read_continued w cap m ds s :
  0 <= w -> 0 <= m -> m + 1 < 2 ^ w -> varint_digits cap false m = Some ds ->
  ReadVarInt_loop w 0 (reverse ds ++ s) = ReadVarInt_loop w (m + 1) s.
Proof.
  intros Hw. revert m ds s. induction cap as [|cap IH]; intros m ds s Hm Hlt; cbn [varint_digits]; [done|].
  pose proof (Z.mod_pos_bound m 128 ltac:(lia)) as Hr.
  pose proof (Z.mod_le m 128 Hm ltac:(lia)) as Hle0. rewrite land_7F.
  destruct (digit_fields _ Hr) as (D1 & D2 & _). destruct (Z.leb_spec m 0x7F) as [Hle|Hgt].
  - intros [= <-]. cbn [reverse app rev_append ReadVarInt_loop]. unfold reverse. cbn [rev_append app ReadVarInt_loop].
    rewrite D1, D2, varint_step by lia. rewrite Z.mod_small by lia. cbn [Z.mul Z.add].
    by rewrite wrapu_id by (unfold is_u; lia).
  - destruct (varint_shift m Hgt) as [Hs1 Hs2].
    destruct (varint_digits cap false ((m .>> 7) - 1)) as [ds'|] eqn:E; [|done]. intros [= <-].
    rewrite reverse_cons, <- app_assoc, (IH _ ds') by (done || lia). cbn [app ReadVarInt_loop].
    rewrite D1, D2. replace ((m .>> 7) - 1 + 1) with (m .>> 7) by lia.
    rewrite varint_step by lia. rewrite Hs2. by rewrite wrapu_id by (unfold is_u; lia).
Qed.

Lemma ReadVarInt_write w n enc s :
  0 <= w -> is_u w n -> WriteVarInt w n = Some enc -> ReadVarInt w (enc ++ s) = Ok (n, s).
Proof.
  intros Hw [Hn0 Hn1]. unfold WriteVarInt, ReadVarInt. generalize (varint_cap w). intros cap.
  destruct (varint_digits cap true n) as [ds|] eqn:E; [|done]. intros [= <-].
  destruct cap as [|cap]; [done|]. cbn [varint_digits] in E.
  pose proof (Z.mod_pos_bound n 128 ltac:(lia)) as Hr.
  pose proof (Z.mod_le n 128 Hn0 ltac:(lia)) as Hle0. rewrite land_7F in E.
  destruct (digit_fields _ Hr) as (_ & _ & D3 & D4). destruct (Z.leb_spec n 0x7F) as [Hle|Hgt].
  - injection E as <-. unfold reverse. cbn [rev_append app ReadVarInt_loop].
    rewrite D3, D4, varint_step by lia. rewrite Z.mod_small by lia. done.
  - destruct (varint_shift n Hgt) as [Hs1 Hs2].
    destruct (varint_digits cap false ((n .>> 7) - 1)) as [ds'|] eqn:E'; [|done]. injection E as <-.
    rewrite reverse_cons, <- app_assoc, (read_continued w cap _ ds') by (done || lia).
    cbn [app ReadVarInt_loop]. rewrite D3, D4. replace ((n .>> 7) - 1 + 1) with (n .>> 7) by lia.
    rewrite varint_step by lia. by rewrite Hs2.
Qed.

(** The buffer is long enough. *)
Lemma varint_digits_total cap first n :
  (0 < cap)%nat -> 0 <= n < 2 ^ (7 * Z.of_nat cap) -> exists ds, varint_digits cap first n = Some ds.
Proof.
  revert first n. induction cap as [|cap IH]; intros first n Hc Hn; [lia|]. cbn [varint_digits].
  destruct (Z.leb_spec n 0x7F) as [|Hgt]; [by eexists|].
  assert (0 < cap)%nat. { destruct cap; [|lia]. cbn in Hn. lia. }
  destruct (IH false ((n .>> 7) - 1)) as [ds ->]; [done| |by eexists].
  destruct (varint_shift n Hgt) as [Hs _]. split; [done|]. rewrite shiftr_div by lia.
  replace (7 * Z.of_nat (S cap)) with (7 + 7 * Z.of_nat cap) in Hn by lia. rewrite Z.pow_add_r in Hn by lia.
  change (2 ^ 7) with 128 in *. dlia.
Qed.

Lemma WriteVarInt_total w n : 0 < w -> is_u w n -> exists enc, WriteVarInt w n = Some enc.
Proof.
  intros Hw [H0 H1]. unfold WriteVarInt, varint_cap.
  destruct (varint_digits_total (Z.to_nat ((w + 6) / 7)) true n) as [ds ->]; [dlia| |by eexists].
  split; [done|]. eapply Z.lt_le_trans; [exact H1|]. apply Z.pow_le_mono_r; [lia|]. dlia.
Qed.

Lemma varint_digits_det k1 k2 first n a b :
  varint_digits k1 first n = Some a -> varint_digits k2 first n = Some b -> a = b.
Proof.
  revert k2 first n a b. induction k1 as [|k1 IH]; intros [|k2] first n a b; cbn [varint_digits]; try done.
  destruct (n <=? 0x7F); [by intros [= <-] [= <-]|].
  destruct (varint_digits k1 false _) as [d1|] eqn:E1; [|done].
  destruct (varint_digits k2 false _) as [d2|] eqn:E2; [|done].
  intros [= <-] [= <-]. f_equal. by eapply IH.
Qed.

Lemma GetSizeOfVarInt_spec fuel first n ds :
  varint_digits fuel first n = Some ds -> GetSizeOfVarInt fuel n = Z.of_nat (length ds).
Proof.
  revert first n ds. induction fuel as [|fuel IH]; intros first n ds; cbn [varint_digits GetSizeOfVarInt]; [done|].
  destruct (n <=? 0x7F); [by intros [= <-]|].
  destruct (varint_digits fuel false _) as [d|] eqn:E; [|done]. intros [= <-].
  rewrite (IH _ _ _ E). cbn [length]. lia.
Qed.

(** The number a byte sequence denotes, by the formula of the source's comment,
    with no bound on its size. *)
Fixpoint varint_value (n : Z) (s : list Z) : option (Z * list Z) :=
  match s with
  | [] => None
  | ch :: s =>
      let n := n * 128 + (ch .& 0x7F) in
      if nz (ch .& 0x80) then varint_value (n + 1) s else Some (n, s)
  end.

Lemma varint_value_mono m s n r : bytes_ok s -> 0 <= m -> varint_value m s = Some (n, r) -> m * 128 <= n.
Proof.
  intros Hok. revert m. induction Hok as [|ch s Hch Hok IH]; intros m Hm; cbn [varint_value]; [done|].
  destruct (byte_digit ch Hch) as [Hd _]. destruct (nz (ch .& 0x80)).
  - intros E. apply IH in E; lia.
  - intros [= <- <-]. lia.
Qed.

Lemma varint_value_read w m s n r :
  bytes_ok s -> 0 <= w -> 0 <= m -> n < 2 ^ w -> varint_value m s = Some (n, r) ->
  ReadVarInt_loop w m s = Ok (n, r).
Proof.
  intros Hok Hw. revert m. induction Hok as [|ch s Hch Hok IH]; intros m Hm Hn; cbn [varint_value]; [done|].
  cbn [ReadVarInt_loop]. destruct (byte_digit ch Hch) as [Hd _]. destruct (nz (ch .& 0x80)).
  - intros E. pose proof E as Hmono. apply varint_value_mono in Hmono; [|done|lia].
    rewrite varint_step by lia. rewrite wrapu_id by (unfold is_u; lia). apply IH; [lia|done|done].
  - intros [= <- <-]. by rewrite varint_step by lia.
Qed.

Lemma varint_value_canonical k p m s n r :
  bytes_ok s -> 0 <= m ->
  (m = 0 /\ p = [] \/ 0 < m /\ varint_digits k false (m - 1) = Some (reverse p)) ->
  varint_value m s = Some (n, r) ->
  exists k' enc, varint_digits k' true n = Some (reverse (p ++ enc)) /\ s = enc ++ r.
Proof.
  intros Hok. revert k p m. induction Hok as [|ch s Hch Hok IH]; intros k p m Hm Hp; cbn [varint_value]; [done|].
  destruct (byte_digit ch Hch) as [Hd Hb].
  assert (forall first : bool, ch = (ch .& 0x7F) .| (if first then 0x00 else 0x80) ->
    varint_digits (S k) first (m * 128 + (ch .& 0x7F)) = Some (reverse (p ++ [ch]))) as Hdig.
  { intros first Hf. cbn [varint_digits]. rewrite (land_7F (m * 128 + (ch .& 0x7F))).
    assert ((m * 128 + (ch .& 0x7F)) mod 128 = ch .& 0x7F) as -> by dlia. rewrite <- Hf, reverse_snoc.
    destruct Hp as [[-> ->]|[Hp Hdg]].
    - rewrite (proj2 (Z.leb_le _ _)) by lia. done.
    - rewrite (proj2 (Z.leb_gt _ _)) by lia.
      replace ((m * 128 + (ch .& 0x7F)) .>> 7) with m by (rewrite shiftr_div by lia; change (2 ^ 7) with 128; dlia).
      by rewrite Hdg. }
  destruct (nz (ch .& 0x80)).
  - intros E. destruct (IH (S k) (p ++ [ch]) (m * 128 + (ch .& 0x7F) + 1)) as (k' & enc & H1 & ->);
      [lia| |done|].
    + right. split; [lia|]. rewrite Z.add_simpl_r. by apply Hdig.
    + exists k', (ch :: enc). by rewrite <- app_assoc in H1.
  - intros [= <- <-]. exists (S k), [ch]. by rewrite Hdig.
Qed.

(** ** Properties *)

(** [CompactSize] is a canonical encoding.  A size up to [MAX_SIZE] reads
    back as itself, whatever follows it; a larger one is refused; the length is
    what [GetSizeOfCompactSize] says; and whatever [ReadCompactSize] accepts is
    the one encoding [WriteCompactSize] produces, so no size has two. *)
Theorem CompactSize_roundtrip (n : Z) (rest stream : list Z) :
  is_u 64 n -> bytes_ok stream ->
  ReadCompactSize (WriteCompactSize n ++ rest) =
    (if n <=? MAX_SIZE then Ok (n, rest) else Throw SizeTooLarge) /\
  Z.of_nat (length (WriteCompactSize n)) = GetSizeOfCompactSize n /\
  (forall m r, ReadCompactSize stream = Ok (m, r) -> stream = WriteCompactSize m ++ r /\ 0 <= m <= MAX_SIZE).
Proof.
  intros Hn Hs. split; [by apply ReadCompactSize_write|]. split; [apply length_WriteCompactSize|].
  intros m r. by apply ReadCompactSize_inv.
Qed.

Lemma CompactSize_roundtrip_witness :
  ReadCompactSize (WriteCompactSize 70000 ++ [1; 2]) = Ok (70000, [1; 2]) /\
  ReadCompactSize [253; 252; 0] = Throw NonCanonicalSize.
Proof.
  split; [|reflexivity].
  refine (proj1 (CompactSize_roundtrip 70000 [1; 2] [] _ _)); [unfold is_u; lia|constructor].
Defined.

(** [VarInt] is a bijection between integers and byte strings.  Writing never
    runs past the stack buffer and has the length [GetSizeOfVarInt] says; every
    value of the [w]-bit type reads back as itself; and every byte string whose
    value fits the type is the encoding [WriteVarInt] gives that value, so that
    each integer has exactly one encoding. *)
Theorem VarInt_bijection (w n : Z) (rest stream : list Z) :
  0 < w -> is_u w n -> bytes_ok stream ->
  (exists enc, WriteVarInt w n = Some enc /\ ReadVarInt w (enc ++ rest) = Ok (n, rest) /\
     GetSizeOfVarInt (varint_cap w) n = Z.of_nat (length enc)) /\
  (forall m r, varint_value 0 stream = Some (m, r) -> m < 2 ^ w ->
     ReadVarInt w stream = Ok (m, r) /\ exists enc, WriteVarInt w m = Some enc /\ stream = enc ++ r).
Proof.
  intros Hw Hn Hs. split.
  - destruct (WriteVarInt_total w n Hw Hn) as [enc E]. exists enc. split; [done|].
    split; [by apply ReadVarInt_write; [lia|..]|]. unfold WriteVarInt in E.
    destruct (varint_digits _ true n) as [ds|] eqn:Ed; [|done]. injection E as <-.
    rewrite length_reverse. by eapply GetSizeOfVarInt_spec.
  - intros m r E Hm. split; [by apply varint_value_read; [|lia|lia|..]|].
    pose proof E as Hmono. apply varint_value_mono in Hmono; [|done|lia].
    destruct (varint_value_canonical 0 [] 0 stream m r Hs ltac:(lia) (or_introl (conj eq_refl eq_refl)) E)
      as (k & enc & Hk & ->).
    destruct (WriteVarInt_total w m Hw) as [enc' E']; [unfold is_u; lia|].
    exists enc'. split; [done|]. f_equal. unfold WriteVarInt in E'.
    destruct (varint_digits (varint_cap w) true m) as [ds|] eqn:Ed; [|done]. injection E' as <-.
    rewrite (varint_digits_det _ _ _ _ _ _ Ed Hk). cbn [app]. by rewrite reverse_involutive.
Qed.

(** The values of the source's comment. *)
Lemma VarInt_bijection_witness :
  (exists enc, WriteVarInt 64 (2 ^ 32) = Some enc /\ ReadVarInt 64 (enc ++ [9]) = Ok (2 ^ 32, [9]) /\
     GetSizeOfVarInt (varint_cap 64) (2 ^ 32) = Z.of_nat (length enc)) /\
  WriteVarInt 64 (2 ^ 32) = Some [0x8E; 0xFE; 0xFE; 0xFF; 0x00].
Proof.
  split; [|reflexivity].
  refine (proj1 (VarInt_bijection 64 (2 ^ 32) [9] [] _ _ _)); [lia|unfold is_u; lia|constructor].
Defined.
