(* ===== verification/Containers.v ===== *)
(** * Serializable types and vectors (src/src/serialize.h)

    A type with [Serialize] and [Unserialize] is an instance of [Serializable].
    Two interfaces state what such a pair promises: what was written reads back
    ([RoundTrip]), and what was read is what writing the value gives
    ([Canonical]).  Vectors are read in blocks so that a bogus length cannot make
    the node allocate memory; the blocks are modelled, and proved unobservable. *)

From S2P Require Import Prelude Bytes Serialize.
Local Open Scope cxx_scope.

Class Serializable (T : Type) := {
  Serialize : T -> list Z;
  Unserialize : reader T;
}.

(** [GetSerializeSize]: the [CSizeComputer] stream only counts. *)
Definition GetSerializeSize {T} `{Serializable T} (x : T) : Z := Z.of_nat (length (Serialize x)).

Class RoundTrip (T : Type) `{Serializable T} := {
  serializable : T -> Prop;
  Unserialize_Serialize x rest : serializable x -> Unserialize (Serialize x ++ rest) = Ok (x, rest);
}.

Class Canonical (T : Type) `{RoundTrip T} := {
  Unserialize_inv s x rest :
    bytes_ok s -> Unserialize s = Ok (x, rest) -> s = Serialize x ++ rest /\ serializable x /\ bytes_ok rest;
}.

(** ** Vectors of bytes (and scripts): one opaque blob *)

Definition blob_Serialize (v : list Z) : list Z := WriteCompactSize (Z.of_nat (length v)) ++ v.

(** [while (i < nSize)]: at most [1 + 4999999 / sizeof(T)] bytes per read; [v]
    holds the [i] bytes read so far. *)
Fixpoint blob_loop (fuel : nat) (nSize : Z) (v : list Z) : reader (list Z) := fun s =>
  let i := Z.of_nat (length v) in
  if i <? nSize then
    match fuel with
    | O => Throw SerOutOfFuel
    | S fuel =>
        let blk := Z.min (nSize - i) (1 + 4999999 / 1) in
        let! r := read_bytes (Z.to_nat blk) s in
        blob_loop fuel nSize (v ++ fst r) (snd r)
    end
  else Ok (v, s).

Definition blob_Unserialize : reader (list Z) := fun s =>
  let! r := ReadCompactSize s in
  let '(nSize, s) := r in
  blob_loop (Z.to_nat (nSize / 5000000) + 1) nSize [] s.

(** ** Vectors of other types *)

Section Vector.
Context {T : Type} `{Serializable T} (sizeofT : Z).

Fixpoint Serialize_all (v : list T) : list Z :=
  match v with
  | [] => []
  | x :: v => Serialize x ++ Serialize_all v
  end.

Definition vector_Serialize (v : list T) : list Z :=
  WriteCompactSize (Z.of_nat (length v)) ++ Serialize_all v.

(** [for (; i < nMid; i++) Unserialize(is, v[i]);] with [n = nMid - i] *)
Fixpoint Unserialize_n (n : nat) : reader (list T) := fun s =>
  match n with
  | O => Ok ([], s)
  | S n =>
      let! r := Unserialize s in
      let '(x, s) := r in
      let! r := Unserialize_n n s in
      let '(v, s) := r in
      Ok (x :: v, s)
  end.

(** [while (nMid < nSize)] *)
Fixpoint vector_loop (fuel : nat) (nSize nMid : Z) (v : list T) : reader (list T) := fun s =>
  if nMid <? nSize then
    match fuel with
    | O => Throw SerOutOfFuel
    | S fuel =>
        let nMid := u32 (nMid + 5000000 / sizeofT) in
        let nMid := if nSize <? nMid then nSize else nMid in
        let! r := Unserialize_n (Z.to_nat nMid - length v) s in
        vector_loop fuel nSize nMid (v ++ fst r) (snd r)
    end
  else Ok (v, s).

Definition vector_Unserialize : reader (list T) := fun s =>
  let! r := ReadCompactSize s in
  let '(nSize, s) := r in
  vector_loop (Z.to_nat (nSize / (5000000 / sizeofT)) + 1) nSize 0 [] s.

End Vector.

(** ** The blocks are unobservable *)

Lemma ReadCompactSize_range s n r : ReadCompactSize s = Ok (n, r) -> n <= MAX_SIZE.
Proof.
  unfold ReadCompactSize. destruct (ser_readdata8 s) as [[ch s1]|]; [|done]. cbn [rbind].
  match goal with |- (let! r := ?m in _) = _ -> _ => destruct m as [[x t]|]; [|done] end.
  cbn [rbind fst]. destruct (Z.ltb_spec MAX_SIZE x); [done|]. by intros [= <- <-].
Qed.

Lemma read_bytes_split a b s : 
  read_bytes (a + b) s =
  (let! r := read_bytes a s in let! q := read_bytes b (snd r) in Ok (fst r ++ fst q, snd q)).
Proof.
  unfold read_bytes. destruct (Nat.ltb_spec (length s) a).
  - by rewrite (proj2 (Nat.ltb_lt _ _)) by lia.
  - cbn [rbind fst snd]. rewrite length_drop.
    destruct (Nat.ltb_spec (length s) (a + b)), (Nat.ltb_spec (length s - a) b); try lia; [done|].
    cbn [rbind fst snd]. rewrite drop_drop. f_equal. f_equal. by rewrite <- take_take_drop.
Qed.

Lemma blob_loop_spec fuel nSize v s :
  nSize - Z.of_nat (length v) <= 5000000 * Z.of_nat fuel ->
  blob_loop fuel nSize v s =
  (let! r := read_bytes (Z.to_nat nSize - length v) s in Ok (v ++ fst r, snd r)).
Proof.
  assert (forall v s, nSize <= Z.of_nat (length v) ->
    Ok (v, s) = (let! r := read_bytes (Z.to_nat nSize - length v) s in Ok (v ++ fst r, snd r))) as Hend.
  { intros v' s' Hl. replace (Z.to_nat nSize - length v')%nat with 0%nat by lia. cbn. by rewrite drop_0, app_nil_r. }
  revert v s. induction fuel as [|fuel IH]; intros v s Hf; cbn [blob_loop].
  - rewrite (proj2 (Z.ltb_ge _ _)) by lia. apply Hend. lia.
  - destruct (Z.ltb_spec (Z.of_nat (length v)) nSize) as [Hlt|]; [|by apply Hend].
    change (1 + 4999999 / 1) with 5000000.
    set (blk := Z.min (nSize - Z.of_nat (length v)) 5000000).
    replace (Z.to_nat nSize - length v)%nat with (Z.to_nat blk + (Z.to_nat nSize - length v - Z.to_nat blk))%nat by lia.
    rewrite read_bytes_split. destruct (read_bytes (Z.to_nat blk) s) as [[a r]|] eqn:E; [|done].
    cbn [rbind fst snd]. apply read_bytes_inv in E as [-> Ha]. rewrite IH by (rewrite length_app; lia).
    rewrite length_app. replace (Z.to_nat nSize - (length v + length a))%nat
      with (Z.to_nat nSize - length v - Z.to_nat blk)%nat by lia.
    destruct (read_bytes _ r) as [[b q]|]; [|done]. cbn [rbind fst snd]. by rewrite app_assoc.
Qed.

Lemma blob_Unserialize_unblocked s :
  blob_Unserialize s = (let! r := ReadCompactSize s in read_bytes (Z.to_nat (fst r)) (snd r)).
Proof.
  unfold blob_Unserialize. destruct (ReadCompactSize s) as [[n r]|]; [|done]. cbn [rbind fst snd].
  rewrite blob_loop_spec by (cbn [length]; dlia). cbn [length]. rewrite Nat.sub_0_r.
  by destruct (read_bytes _ r) as [[a q]|].
Qed.

Section VectorFacts.
Context {T : Type} `{HS : Serializable T} (sizeofT : Z).
Hypothesis sizeof_small : 0 < sizeofT <= 5000000.

Lemma Unserialize_n_split a b s :
  Unserialize_n (a + b) s =
  (let! r := Unserialize_n a s in let! q := Unserialize_n b (snd r) in Ok (fst r ++ fst q, snd q)).
Proof.
  revert s. induction a as [|a IH]; intros s; cbn [Unserialize_n Nat.add rbind fst snd].
  - by destruct (Unserialize_n b s) as [[v r]|].
  - destruct (Unserialize s) as [[x r]|]; [|done]. cbn [rbind]. rewrite IH.
    destruct (Unserialize_n a r) as [[v q]|]; [|done]. cbn [rbind fst snd].
    by destruct (Unserialize_n b q) as [[w p]|].
Qed.

Lemma Unserialize_n_length n s v r : Unserialize_n n s = Ok (v, r) -> length v = n.
Proof.
  revert s v. induction n as [|n IH]; intros s v; cbn [Unserialize_n]; [by intros [= <- <-]|].
  destruct (Unserialize s) as [[x q]|]; [|done]. cbn [rbind].
  destruct (Unserialize_n n q) as [[w p]|] eqn:E; [|done]. cbn [rbind]. intros [= <- <-].
  cbn [length]. by rewrite (IH _ _ E).
Qed.

Lemma vector_loop_spec fuel nSize nMid v s :
  0 <= nMid <= nSize -> nSize <= MAX_SIZE -> nMid = Z.of_nat (length v) ->
  nSize - nMid <= 5000000 / sizeofT * Z.of_nat fuel ->
  vector_loop sizeofT fuel nSize nMid v s =
  (let! r := Unserialize_n (Z.to_nat nSize - length v) s in Ok (v ++ fst r, snd r)).
Proof.
  unfold MAX_SIZE. revert nMid v s. induction fuel as [|fuel IH]; intros nMid v s Hm Hn Hv Hf; cbn [vector_loop].
  - rewrite (proj2 (Z.ltb_ge _ _)) by lia. replace (Z.to_nat nSize - length v)%nat with 0%nat by lia.
    cbn. by rewrite app_nil_r.
  - destruct (Z.ltb_spec nMid nSize) as [Hlt|].
    2: { replace (Z.to_nat nSize - length v)%nat with 0%nat by lia. cbn. by rewrite app_nil_r. }
    set (step := 5000000 / sizeofT) in *.
    assert (1 <= step <= 5000000) as Hstep by (subst step; split; [apply Z.div_le_lower_bound|apply Z.div_le_upper_bound]; nia).
    rewrite u32_id by (unfold is_u; lia).
    set (mid := if nSize <? nMid + step then nSize else nMid + step).
    assert (nMid < mid <= nSize /\ (mid = nSize \/ mid = nMid + step)) as Hmid
      by (subst mid; destruct (Z.ltb_spec nSize (nMid + step)); lia).
    replace (Z.to_nat nSize - length v)%nat with ((Z.to_nat mid - length v) + (Z.to_nat nSize - Z.to_nat mid))%nat by lia.
    rewrite Unserialize_n_split. destruct (Unserialize_n (Z.to_nat mid - length v) s) as [[a r]|] eqn:E; [|done].
    cbn [rbind fst snd]. apply Unserialize_n_length in E.
    rewrite IH by (rewrite ?length_app; nia). rewrite length_app.
    replace (Z.to_nat nSize - (length v + length a))%nat with (Z.to_nat nSize - Z.to_nat mid)%nat by lia.
    destruct (Unserialize_n _ r) as [[b q]|]; [|done]. cbn [rbind fst snd]. by rewrite app_assoc.
Qed.

Lemma vector_Unserialize_unblocked s :
  vector_Unserialize sizeofT s = (let! r := ReadCompactSize s in Unserialize_n (Z.to_nat (fst r)) (snd r)).
Proof.
  unfold vector_Unserialize. destruct (ReadCompactSize s) as [[n r]|] eqn:E; [|done]. cbn [rbind fst snd].
  apply ReadCompactSize_range in E.
  assert (0 < 5000000 / sizeofT) by (apply Z.div_str_pos; lia).
  set (step := 5000000 / sizeofT) in *. destruct (Z_lt_ge_dec 0 n) as [Hn|Hn].
  - assert (0 <= n / step) by (apply Z.div_pos; lia).
    pose proof (Z.mod_pos_bound n step ltac:(lia)). pose proof (Z.div_mod n step ltac:(lia)).
    rewrite vector_loop_spec by (rewrite ?Nat2Z.inj_add, ?Z2Nat.id by lia; cbn [length]; nia || lia).
    cbn [length]. rewrite Nat.sub_0_r. by destruct (Unserialize_n _ r) as [[a q]|].
  - replace (Z.to_nat n) with 0%nat by lia.
    destruct (Z.to_nat (n / step) + 1)%nat; cbn [vector_loop]; by rewrite (proj2 (Z.ltb_ge _ _)) by lia.
Qed.

Lemma Unserialize_n_all {HR : @RoundTrip T HS} v rest :
  Forall serializable v -> Unserialize_n (length v) (Serialize_all v ++ rest) = Ok (v, rest).
Proof.
  induction 1 as [|x v Hx _ IH]; [done|]. cbn [length Unserialize_n Serialize_all].
  rewrite <- app_assoc, Unserialize_Serialize by done. cbn [rbind]. by rewrite IH.
Qed.

Lemma Unserialize_n_inv {HR : @RoundTrip T HS} {HC : @Canonical T HS HR} n s v rest :
  bytes_ok s -> Unserialize_n n s = Ok (v, rest) ->
  s = Serialize_all v ++ rest /\ Forall serializable v /\ bytes_ok rest.
Proof.
  revert s v. induction n as [|n IH]; intros s v Hs; cbn [Unserialize_n]; [by intros [= <- <-]|].
  destruct (Unserialize s) as [[x q]|] eqn:Ex; [|done]. cbn [rbind].
  apply Unserialize_inv in Ex as (-> & Hx & Hq); [|done].
  destruct (Unserialize_n n q) as [[w p]|] eqn:E; [|done]. cbn [rbind]. intros [= <- <-].
  apply IH in E as (-> & Hw & Hp); [|done]. cbn [Serialize_all]. rewrite app_assoc. auto.
Qed.

(** What a vector must satisfy to be read back: a length within [MAX_SIZE] and
    serializable elements. *)
Definition vector_ok {HR : @RoundTrip T HS} (v : list T) : Prop :=
  Z.of_nat (length v) <= MAX_SIZE /\ Forall serializable v.

Lemma vector_roundtrip {HR : @RoundTrip T HS} v rest :
  vector_ok v -> vector_Unserialize sizeofT (vector_Serialize v ++ rest) = Ok (v, rest).
Proof.
  intros [Hl Hv]. rewrite vector_Unserialize_unblocked. unfold vector_Serialize.
  rewrite <- app_assoc, ReadCompactSize_write by (unfold is_u, MAX_SIZE in *; lia).
  rewrite (proj2 (Z.leb_le _ _)) by done. cbn [rbind fst snd]. rewrite Nat2Z.id. by apply Unserialize_n_all.
Qed.

Lemma vector_inv {HR : @RoundTrip T HS} {HC : @Canonical T HS HR} s v rest :
  bytes_ok s -> vector_Unserialize sizeofT s = Ok (v, rest) ->
  s = vector_Serialize v ++ rest /\ vector_ok v /\ bytes_ok rest.
Proof.
  intros Hs. rewrite vector_Unserialize_unblocked.
  destruct (ReadCompactSize s) as [[n r]|] eqn:E; [|done]. cbn [rbind fst snd]. intros Hn.
  pose proof (ReadCompactSize_inv _ _ _ Hs E) as [-> Hr]. apply Forall_app in Hs as [_ Hs].
  pose proof (Unserialize_n_length _ _ _ _ Hn) as Hl. apply Unserialize_n_inv in Hn as (-> & Hv & Hok); [|done].
  unfold vector_Serialize, vector_ok. replace (Z.of_nat (length v)) with n by lia.
  rewrite app_assoc. split; [done|]. by split; [split; [lia|]|].
Qed.

End VectorFacts.

(** ** Blobs *)

Definition blob_ok (v : list Z) : Prop := Z.of_nat (length v) <= MAX_SIZE /\ bytes_ok v.

Lemma blob_roundtrip v rest : blob_ok v -> blob_Unserialize (blob_Serialize v ++ rest) = Ok (v, rest).
Proof.
  intros [Hl Hv]. rewrite blob_Unserialize_unblocked. unfold blob_Serialize.
  rewrite <- app_assoc, ReadCompactSize_write by (unfold is_u, MAX_SIZE in *; lia).
  rewrite (proj2 (Z.leb_le _ _)) by done. cbn [rbind fst snd]. rewrite Nat2Z.id. by apply read_bytes_app.
Qed.

Lemma blob_inv s v rest :
  bytes_ok s -> blob_Unserialize s = Ok (v, rest) -> s = blob_Serialize v ++ rest /\ blob_ok v /\ bytes_ok rest.
Proof.
  intros Hs. rewrite blob_Unserialize_unblocked.
  destruct (ReadCompactSize s) as [[n r]|] eqn:E; [|done]. cbn [rbind fst snd]. intros Hn.
  pose proof (ReadCompactSize_inv _ _ _ Hs E) as [-> Hr]. apply Forall_app in Hs as [_ Hs].
  apply read_bytes_inv in Hn as [-> Hl]. apply Forall_app in Hs as [Hv Hok].
  unfold blob_Serialize, blob_ok. replace (Z.of_nat (length v)) with n by lia.
  rewrite app_assoc. split; [done|]. by split; [split; [lia|]|].
Qed.
