(* ===== verification/Script.v ===== *)
(** * Scripts and script numbers (src/src/script/script.h, src/src/script/script.cpp)

    A script is its bytes.  The file has the opcodes, [CScriptNum], the pushes of
    [CScript], the instruction decoder [GetOp2] and the inspections built on it
    (signature-operation counting, template tests, [FindAndDelete]). *)

From Stdlib Require Import String.
From S2P Require Import Prelude Bytes Serialize.
Local Open Scope cxx_scope.

(** ** Opcodes

    The enum, with [OP_byte b] for a byte the enum does not name. *)

Inductive opcodetype : Type :=
| OP_0 | OP_PUSHDATA1 | OP_PUSHDATA2 | OP_PUSHDATA4 | OP_1NEGATE | OP_RESERVED
| OP_1 | OP_2 | OP_3 | OP_4 | OP_5 | OP_6
| OP_7 | OP_8 | OP_9 | OP_10 | OP_11 | OP_12
| OP_13 | OP_14 | OP_15 | OP_16 | OP_NOP | OP_VER
| OP_IF | OP_NOTIF | OP_VERIF | OP_VERNOTIF | OP_ELSE | OP_ENDIF
| OP_VERIFY | OP_RETURN | OP_TOALTSTACK | OP_FROMALTSTACK | OP_2DROP | OP_2DUP
| OP_3DUP | OP_2OVER | OP_2ROT | OP_2SWAP | OP_IFDUP | OP_DEPTH
| OP_DROP | OP_DUP | OP_NIP | OP_OVER | OP_PICK | OP_ROLL
| OP_ROT | OP_SWAP | OP_TUCK | OP_CAT | OP_SUBSTR | OP_LEFT
| OP_RIGHT | OP_SIZE | OP_INVERT | OP_AND | OP_OR | OP_XOR
| OP_EQUAL | OP_EQUALVERIFY | OP_RESERVED1 | OP_RESERVED2 | OP_1ADD | OP_1SUB
| OP_2MUL | OP_2DIV | OP_NEGATE | OP_ABS | OP_NOT | OP_0NOTEQUAL
| OP_ADD | OP_SUB | OP_MUL | OP_DIV | OP_MOD | OP_LSHIFT
| OP_RSHIFT | OP_BOOLAND | OP_BOOLOR | OP_NUMEQUAL | OP_NUMEQUALVERIFY | OP_NUMNOTEQUAL
| OP_LESSTHAN | OP_GREATERTHAN | OP_LESSTHANOREQUAL | OP_GREATERTHANOREQUAL | OP_MIN | OP_MAX
| OP_WITHIN | OP_RIPEMD160 | OP_SHA1 | OP_SHA256 | OP_HASH160 | OP_HASH256
| OP_CODESEPARATOR | OP_CHECKSIG | OP_CHECKSIGVERIFY | OP_CHECKMULTISIG | OP_CHECKMULTISIGVERIFY | OP_NOP1
| OP_CHECKLOCKTIMEVERIFY | OP_CHECKSEQUENCEVERIFY | OP_NOP4 | OP_NOP5 | OP_NOP6 | OP_NOP7
| OP_NOP8 | OP_NOP9 | OP_NOP10 | OP_SMALLINTEGER | OP_PUBKEYS | OP_PUBKEYHASH
| OP_PUBKEY | OP_INVALIDOPCODE
| OP_byte (b : Z).

Definition opcode_value (op : opcodetype) : Z :=
  match op with
  | OP_0 => 0x00 | OP_PUSHDATA1 => 0x4c | OP_PUSHDATA2 => 0x4d
  | OP_PUSHDATA4 => 0x4e | OP_1NEGATE => 0x4f | OP_RESERVED => 0x50
  | OP_1 => 0x51 | OP_2 => 0x52 | OP_3 => 0x53
  | OP_4 => 0x54 | OP_5 => 0x55 | OP_6 => 0x56
  | OP_7 => 0x57 | OP_8 => 0x58 | OP_9 => 0x59
  | OP_10 => 0x5a | OP_11 => 0x5b | OP_12 => 0x5c
  | OP_13 => 0x5d | OP_14 => 0x5e | OP_15 => 0x5f
  | OP_16 => 0x60 | OP_NOP => 0x61 | OP_VER => 0x62
  | OP_IF => 0x63 | OP_NOTIF => 0x64 | OP_VERIF => 0x65
  | OP_VERNOTIF => 0x66 | OP_ELSE => 0x67 | OP_ENDIF => 0x68
  | OP_VERIFY => 0x69 | OP_RETURN => 0x6a | OP_TOALTSTACK => 0x6b
  | OP_FROMALTSTACK => 0x6c | OP_2DROP => 0x6d | OP_2DUP => 0x6e
  | OP_3DUP => 0x6f | OP_2OVER => 0x70 | OP_2ROT => 0x71
  | OP_2SWAP => 0x72 | OP_IFDUP => 0x73 | OP_DEPTH => 0x74
  | OP_DROP => 0x75 | OP_DUP => 0x76 | OP_NIP => 0x77
  | OP_OVER => 0x78 | OP_PICK => 0x79 | OP_ROLL => 0x7a
  | OP_ROT => 0x7b | OP_SWAP => 0x7c | OP_TUCK => 0x7d
  | OP_CAT => 0x7e | OP_SUBSTR => 0x7f | OP_LEFT => 0x80
  | OP_RIGHT => 0x81 | OP_SIZE => 0x82 | OP_INVERT => 0x83
  | OP_AND => 0x84 | OP_OR => 0x85 | OP_XOR => 0x86
  | OP_EQUAL => 0x87 | OP_EQUALVERIFY => 0x88 | OP_RESERVED1 => 0x89
  | OP_RESERVED2 => 0x8a | OP_1ADD => 0x8b | OP_1SUB => 0x8c
  | OP_2MUL => 0x8d | OP_2DIV => 0x8e | OP_NEGATE => 0x8f
  | OP_ABS => 0x90 | OP_NOT => 0x91 | OP_0NOTEQUAL => 0x92
  | OP_ADD => 0x93 | OP_SUB => 0x94 | OP_MUL => 0x95
  | OP_DIV => 0x96 | OP_MOD => 0x97 | OP_LSHIFT => 0x98
  | OP_RSHIFT => 0x99 | OP_BOOLAND => 0x9a | OP_BOOLOR => 0x9b
  | OP_NUMEQUAL => 0x9c | OP_NUMEQUALVERIFY => 0x9d | OP_NUMNOTEQUAL => 0x9e
  | OP_LESSTHAN => 0x9f | OP_GREATERTHAN => 0xa0 | OP_LESSTHANOREQUAL => 0xa1
  | OP_GREATERTHANOREQUAL => 0xa2 | OP_MIN => 0xa3 | OP_MAX => 0xa4
  | OP_WITHIN => 0xa5 | OP_RIPEMD160 => 0xa6 | OP_SHA1 => 0xa7
  | OP_SHA256 => 0xa8 | OP_HASH160 => 0xa9 | OP_HASH256 => 0xaa
  | OP_CODESEPARATOR => 0xab | OP_CHECKSIG => 0xac | OP_CHECKSIGVERIFY => 0xad
  | OP_CHECKMULTISIG => 0xae | OP_CHECKMULTISIGVERIFY => 0xaf | OP_NOP1 => 0xb0
  | OP_CHECKLOCKTIMEVERIFY => 0xb1 | OP_CHECKSEQUENCEVERIFY => 0xb2 | OP_NOP4 => 0xb3
  | OP_NOP5 => 0xb4 | OP_NOP6 => 0xb5 | OP_NOP7 => 0xb6
  | OP_NOP8 => 0xb7 | OP_NOP9 => 0xb8 | OP_NOP10 => 0xb9
  | OP_SMALLINTEGER => 0xfa | OP_PUBKEYS => 0xfb | OP_PUBKEYHASH => 0xfd
  | OP_PUBKEY => 0xfe | OP_INVALIDOPCODE => 0xff
  | OP_byte b => b
  end.

Definition to_opcode (b : Z) : opcodetype :=
  match b with
  | 0x00 => OP_0 | 0x4c => OP_PUSHDATA1 | 0x4d => OP_PUSHDATA2 | 0x4e => OP_PUSHDATA4
  | 0x4f => OP_1NEGATE | 0x50 => OP_RESERVED | 0x51 => OP_1 | 0x52 => OP_2
  | 0x53 => OP_3 | 0x54 => OP_4 | 0x55 => OP_5 | 0x56 => OP_6
  | 0x57 => OP_7 | 0x58 => OP_8 | 0x59 => OP_9 | 0x5a => OP_10
  | 0x5b => OP_11 | 0x5c => OP_12 | 0x5d => OP_13 | 0x5e => OP_14
  | 0x5f => OP_15 | 0x60 => OP_16 | 0x61 => OP_NOP | 0x62 => OP_VER
  | 0x63 => OP_IF | 0x64 => OP_NOTIF | 0x65 => OP_VERIF | 0x66 => OP_VERNOTIF
  | 0x67 => OP_ELSE | 0x68 => OP_ENDIF | 0x69 => OP_VERIFY | 0x6a => OP_RETURN
  | 0x6b => OP_TOALTSTACK | 0x6c => OP_FROMALTSTACK | 0x6d => OP_2DROP | 0x6e => OP_2DUP
  | 0x6f => OP_3DUP | 0x70 => OP_2OVER | 0x71 => OP_2ROT | 0x72 => OP_2SWAP
  | 0x73 => OP_IFDUP | 0x74 => OP_DEPTH | 0x75 => OP_DROP | 0x76 => OP_DUP
  | 0x77 => OP_NIP | 0x78 => OP_OVER | 0x79 => OP_PICK | 0x7a => OP_ROLL
  | 0x7b => OP_ROT | 0x7c => OP_SWAP | 0x7d => OP_TUCK | 0x7e => OP_CAT
  | 0x7f => OP_SUBSTR | 0x80 => OP_LEFT | 0x81 => OP_RIGHT | 0x82 => OP_SIZE
  | 0x83 => OP_INVERT | 0x84 => OP_AND | 0x85 => OP_OR | 0x86 => OP_XOR
  | 0x87 => OP_EQUAL | 0x88 => OP_EQUALVERIFY | 0x89 => OP_RESERVED1 | 0x8a => OP_RESERVED2
  | 0x8b => OP_1ADD | 0x8c => OP_1SUB | 0x8d => OP_2MUL | 0x8e => OP_2DIV
  | 0x8f => OP_NEGATE | 0x90 => OP_ABS | 0x91 => OP_NOT | 0x92 => OP_0NOTEQUAL
  | 0x93 => OP_ADD | 0x94 => OP_SUB | 0x95 => OP_MUL | 0x96 => OP_DIV
  | 0x97 => OP_MOD | 0x98 => OP_LSHIFT | 0x99 => OP_RSHIFT | 0x9a => OP_BOOLAND
  | 0x9b => OP_BOOLOR | 0x9c => OP_NUMEQUAL | 0x9d => OP_NUMEQUALVERIFY | 0x9e => OP_NUMNOTEQUAL
  | 0x9f => OP_LESSTHAN | 0xa0 => OP_GREATERTHAN | 0xa1 => OP_LESSTHANOREQUAL | 0xa2 => OP_GREATERTHANOREQUAL
  | 0xa3 => OP_MIN | 0xa4 => OP_MAX | 0xa5 => OP_WITHIN | 0xa6 => OP_RIPEMD160
  | 0xa7 => OP_SHA1 | 0xa8 => OP_SHA256 | 0xa9 => OP_HASH160 | 0xaa => OP_HASH256
  | 0xab => OP_CODESEPARATOR | 0xac => OP_CHECKSIG | 0xad => OP_CHECKSIGVERIFY | 0xae => OP_CHECKMULTISIG
  | 0xaf => OP_CHECKMULTISIGVERIFY | 0xb0 => OP_NOP1 | 0xb1 => OP_CHECKLOCKTIMEVERIFY | 0xb2 => OP_CHECKSEQUENCEVERIFY
  | 0xb3 => OP_NOP4 | 0xb4 => OP_NOP5 | 0xb5 => OP_NOP6 | 0xb6 => OP_NOP7
  | 0xb7 => OP_NOP8 | 0xb8 => OP_NOP9 | 0xb9 => OP_NOP10 | 0xfa => OP_SMALLINTEGER
  | 0xfb => OP_PUBKEYS | 0xfd => OP_PUBKEYHASH | 0xfe => OP_PUBKEY | 0xff => OP_INVALIDOPCODE
  | _ => OP_byte b
  end.

Definition OP_FALSE : opcodetype := OP_0.
Definition OP_TRUE : opcodetype := OP_1.
Definition OP_NOP2 : opcodetype := OP_CHECKLOCKTIMEVERIFY.
Definition OP_NOP3 : opcodetype := OP_CHECKSEQUENCEVERIFY.

#[export] Instance opcodetype_eq_dec : EqDecision opcodetype.
Proof. solve_decision. Defined.

Definition GetOpName (opcode : opcodetype) : string :=
  match opcode with
  | OP_0 => "0"
  | OP_PUSHDATA1 => "OP_PUSHDATA1"
  | OP_PUSHDATA2 => "OP_PUSHDATA2"
  | OP_PUSHDATA4 => "OP_PUSHDATA4"
  | OP_1NEGATE => "-1"
  | OP_RESERVED => "OP_RESERVED"
  | OP_1 => "1"
  | OP_2 => "2"
  | OP_3 => "3"
  | OP_4 => "4"
  | OP_5 => "5"
  | OP_6 => "6"
  | OP_7 => "7"
  | OP_8 => "8"
  | OP_9 => "9"
  | OP_10 => "10"
  | OP_11 => "11"
  | OP_12 => "12"
  | OP_13 => "13"
  | OP_14 => "14"
  | OP_15 => "15"
  | OP_16 => "16"
  | OP_NOP => "OP_NOP"
  | OP_VER => "OP_VER"
  | OP_IF => "OP_IF"
  | OP_NOTIF => "OP_NOTIF"
  | OP_VERIF => "OP_VERIF"
  | OP_VERNOTIF => "OP_VERNOTIF"
  | OP_ELSE => "OP_ELSE"
  | OP_ENDIF => "OP_ENDIF"
  | OP_VERIFY => "OP_VERIFY"
  | OP_RETURN => "OP_RETURN"
  | OP_TOALTSTACK => "OP_TOALTSTACK"
  | OP_FROMALTSTACK => "OP_FROMALTSTACK"
  | OP_2DROP => "OP_2DROP"
  | OP_2DUP => "OP_2DUP"
  | OP_3DUP => "OP_3DUP"
  | OP_2OVER => "OP_2OVER"
  | OP_2ROT => "OP_2ROT"
  | OP_2SWAP => "OP_2SWAP"
  | OP_IFDUP => "OP_IFDUP"
  | OP_DEPTH => "OP_DEPTH"
  | OP_DROP => "OP_DROP"
  | OP_DUP => "OP_DUP"
  | OP_NIP => "OP_NIP"
  | OP_OVER => "OP_OVER"
  | OP_PICK => "OP_PICK"
  | OP_ROLL => "OP_ROLL"
  | OP_ROT => "OP_ROT"
  | OP_SWAP => "OP_SWAP"
  | OP_TUCK => "OP_TUCK"
  | OP_CAT => "OP_CAT"
  | OP_SUBSTR => "OP_SUBSTR"
  | OP_LEFT => "OP_LEFT"
  | OP_RIGHT => "OP_RIGHT"
  | OP_SIZE => "OP_SIZE"
  | OP_INVERT => "OP_INVERT"
  | OP_AND => "OP_AND"
  | OP_OR => "OP_OR"
  | OP_XOR => "OP_XOR"
  | OP_EQUAL => "OP_EQUAL"
  | OP_EQUALVERIFY => "OP_EQUALVERIFY"
  | OP_RESERVED1 => "OP_RESERVED1"
  | OP_RESERVED2 => "OP_RESERVED2"
  | OP_1ADD => "OP_1ADD"
  | OP_1SUB => "OP_1SUB"
  | OP_2MUL => "OP_2MUL"
  | OP_2DIV => "OP_2DIV"
  | OP_NEGATE => "OP_NEGATE"
  | OP_ABS => "OP_ABS"
  | OP_NOT => "OP_NOT"
  | OP_0NOTEQUAL => "OP_0NOTEQUAL"
  | OP_ADD => "OP_ADD"
  | OP_SUB => "OP_SUB"
  | OP_MUL => "OP_MUL"
  | OP_DIV => "OP_DIV"
  | OP_MOD => "OP_MOD"
  | OP_LSHIFT => "OP_LSHIFT"
  | OP_RSHIFT => "OP_RSHIFT"
  | OP_BOOLAND => "OP_BOOLAND"
  | OP_BOOLOR => "OP_BOOLOR"
  | OP_NUMEQUAL => "OP_NUMEQUAL"
  | OP_NUMEQUALVERIFY => "OP_NUMEQUALVERIFY"
  | OP_NUMNOTEQUAL => "OP_NUMNOTEQUAL"
  | OP_LESSTHAN => "OP_LESSTHAN"
  | OP_GREATERTHAN => "OP_GREATERTHAN"
  | OP_LESSTHANOREQUAL => "OP_LESSTHANOREQUAL"
  | OP_GREATERTHANOREQUAL => "OP_GREATERTHANOREQUAL"
  | OP_MIN => "OP_MIN"
  | OP_MAX => "OP_MAX"
  | OP_WITHIN => "OP_WITHIN"
  | OP_RIPEMD160 => "OP_RIPEMD160"
  | OP_SHA1 => "OP_SHA1"
  | OP_SHA256 => "OP_SHA256"
  | OP_HASH160 => "OP_HASH160"
  | OP_HASH256 => "OP_HASH256"
  | OP_CODESEPARATOR => "OP_CODESEPARATOR"
  | OP_CHECKSIG => "OP_CHECKSIG"
  | OP_CHECKSIGVERIFY => "OP_CHECKSIGVERIFY"
  | OP_CHECKMULTISIG => "OP_CHECKMULTISIG"
  | OP_CHECKMULTISIGVERIFY => "OP_CHECKMULTISIGVERIFY"
  | OP_NOP1 => "OP_NOP1"
  | OP_CHECKLOCKTIMEVERIFY => "OP_CHECKLOCKTIMEVERIFY"
  | OP_CHECKSEQUENCEVERIFY => "OP_CHECKSEQUENCEVERIFY"
  | OP_NOP4 => "OP_NOP4"
  | OP_NOP5 => "OP_NOP5"
  | OP_NOP6 => "OP_NOP6"
  | OP_NOP7 => "OP_NOP7"
  | OP_NOP8 => "OP_NOP8"
  | OP_NOP9 => "OP_NOP9"
  | OP_NOP10 => "OP_NOP10"
  | OP_INVALIDOPCODE => "OP_INVALIDOPCODE"
  | _ => "OP_UNKNOWN"
  end%string.

Definition MAX_SCRIPT_ELEMENT_SIZE : Z := 520.
Definition MAX_OPS_PER_SCRIPT : Z := 201.
Definition MAX_PUBKEYS_PER_MULTISIG : Z := 20.
Definition MAX_SCRIPT_SIZE : Z := 10000.
Definition LOCKTIME_THRESHOLD : Z := 500000000.

(** ** CScriptNum

    A script number is its [int64_t] value. *)

Inductive scriptnum_error : Type :=
| NumOverflow
| NonMinimal.

Definition INT64_MAX : Z := 2 ^ 63 - 1.
Definition INT64_MIN : Z := - 2 ^ 63.

Definition back (vch : list Z) : Z := aget vch (length vch - 1).

Definition set_vch (vch : list Z) : Z :=
  if (length vch =? 0)%nat then 0
  else
    let result := i64 (le_val vch) in
    if nz (back vch .& 0x80) then
      i64 (- (i64 (u64 result .& u64 (Z.lnot (u64 (0x80 .<< (8 * Z.of_nat (length vch - 1))))))))
    else result.

(** The minimality test of the constructor. *)
Definition minimal (vch : list Z) : bool :=
  negb ((0 <? length vch)%nat && (back vch .& 0x7f =? 0) &&
        ((length vch <=? 1)%nat || (aget vch (length vch - 2) .& 0x80 =? 0))).

Definition CScriptNum (vch : list Z) (fRequireMinimal : bool) (nMaxNumSize : nat) : result scriptnum_error Z :=
  if (nMaxNumSize <? length vch)%nat then Throw NumOverflow
  else if fRequireMinimal && negb (minimal vch) then Throw NonMinimal
  else Ok (set_vch vch).

Definition nDefaultMaxNumSize : nat := 4.

(** [while (absvalue) { result.push_back(absvalue & 0xff); absvalue >>= 8; }] *)
Fixpoint abs_bytes (fuel : nat) (absvalue : Z) : list Z :=
  match fuel with
  | O => []
  | S fuel =>
      if absvalue =? 0 then [] else (absvalue .& 0xff) :: abs_bytes fuel (absvalue .>> 8)
  end.

Definition set_back (l : list Z) (x : Z) : list Z := take (length l - 1) l ++ [x].

Definition serialize (value : Z) : list Z :=
  if value =? 0 then []
  else
    let neg := value <? 0 in
    let absvalue := u64 (if neg then - value else value) in
    let result := abs_bytes 8 absvalue in
    if nz (back result .& 0x80) then result ++ [if neg then 0x80 else 0]
    else if neg then set_back result (back result .| 0x80)
    else result.

Definition getint (m_value : Z) : Z :=
  if 2 ^ 31 - 1 <? m_value then 2 ^ 31 - 1
  else if m_value <? - 2 ^ 31 then - 2 ^ 31
  else m_value.

(** ** CScript: pushing *)

(** [operator<<(opcodetype)] *)
Definition push_op (script : list Z) (op : opcodetype) : list Z := script ++ [opcode_value op].

(** [operator<<(const std::vector<unsigned char>&)] *)
Definition push_data (b : list Z) : list Z :=
  let size := Z.of_nat (length b) in
  (if size <? 0x4c then [size]
   else if size <=? 0xff then [0x4c; size]
   else if size <=? 0xffff then 0x4d :: WriteLE16 size
   else 0x4e :: WriteLE32 size) ++ b.
Definition push_vch (script b : list Z) : list Z := script ++ push_data b.

Definition push_int64 (script : list Z) (n : Z) : list Z :=
  if (n =? -1) || ((1 <=? n) && (n <=? 16)) then script ++ [u8 (n + (opcode_value OP_1 - 1))]
  else if n =? 0 then push_op script OP_0
  else push_vch script (serialize n).

(** Small integers; [None] when the assertion fails. *)
Definition DecodeOP_N (opcode : opcodetype) : option Z :=
  let v := opcode_value opcode in
  if v =? opcode_value OP_0 then Some 0
  else if (opcode_value OP_1 <=? v) && (v <=? opcode_value OP_16) then Some (v - (opcode_value OP_1 - 1))
  else None.
Definition EncodeOP_N (n : Z) : option opcodetype :=
  if (0 <=? n) && (n <=? 16) then
    Some (if n =? 0 then OP_0 else to_opcode (opcode_value OP_1 + n - 1))
  else None.

(** ** CScript: decoding

    [pc] is the rest of the script.  A successful [GetOp2] gives the opcode, the
    data pushed and the rest after the instruction. *)

(** The length field of an immediate operand, and what follows it. *)
Definition operand_size (opcode : Z) (pc : list Z) : option (Z * list Z) :=
  if opcode <? 0x4c then Some (opcode, pc)
  else if opcode =? 0x4c then
    match pc with [] => None | n :: pc => Some (n, pc) end
  else if opcode =? 0x4d then
    if (length pc <? 2)%nat then None else Some (ReadLE16 pc, drop 2 pc)
  else if (length pc <? 4)%nat then None else Some (ReadLE32 pc, drop 4 pc).

Definition GetOp2 (pc : list Z) : option (opcodetype * list Z * list Z) :=
  match pc with
  | [] => None
  | opcode :: pc =>
      if opcode <=? 0x4e then
        match operand_size opcode pc with
        | None => None
        | Some (nSize, pc) =>
            if Z.of_nat (length pc) <? nSize then None
            else Some (to_opcode opcode, take (Z.to_nat nSize) pc, drop (Z.to_nat nSize) pc)
        end
      else Some (to_opcode opcode, [], pc)
  end.

Definition GetOp (pc : list Z) : option (opcodetype * list Z) :=
  match GetOp2 pc with
  | Some (op, _, pc) => Some (op, pc)
  | None => None
  end.

(** ** Inspections *)

Definition starts_with (b pc : list Z) : bool :=
  (length b <=? length pc)%nat && bool_decide (take (length b) pc = b).

(** The inner [while] of [FindAndDelete]. *)
Fixpoint skip_matches (fuel : nat) (b pc : list Z) (nFound : Z) : list Z * Z :=
  match fuel with
  | O => (pc, nFound)
  | S fuel =>
      if starts_with b pc then skip_matches fuel b (drop (length b) pc) (nFound + 1) else (pc, nFound)
  end.

(** The [do ... while]; [pc2] and [pc] are suffixes of the script. *)
Fixpoint find_and_delete_loop (fuel : nat) (b : list Z) (acc pc2 pc : list Z) (nFound : Z) : list Z * list Z * Z :=
  match fuel with
  | O => (acc, pc2, nFound)
  | S fuel =>
      let acc := acc ++ take (length pc2 - length pc) pc2 in
      let '(pc, nFound) := skip_matches (length pc) b pc nFound in
      let pc2 := pc in
      match GetOp pc with
      | Some (_, pc) => find_and_delete_loop fuel b acc pc2 pc nFound
      | None => (acc, pc2, nFound)
      end
  end.

Definition FindAndDelete (script b : list Z) : list Z * Z :=
  if (length b =? 0)%nat then (script, 0)
  else
    let '(acc, pc2, nFound) := find_and_delete_loop (S (length script)) b [] script script 0 in
    if 0 <? nFound then (acc ++ pc2, nFound) else (script, nFound).

Fixpoint Find_loop (fuel : nat) (op : opcodetype) (pc : list Z) (nFound : Z) : Z :=
  match fuel, GetOp pc with
  | S fuel, Some (opcode, pc) =>
      Find_loop fuel op pc (if bool_decide (opcode = op) then nFound + 1 else nFound)
  | _, _ => nFound
  end.
Definition Find (script : list Z) (op : opcodetype) : Z := Find_loop (length script) op script 0.

Definition is_small_int (op : opcodetype) : bool :=
  (opcode_value OP_1 <=? opcode_value op) && (opcode_value op <=? opcode_value OP_16).

Fixpoint sigop_loop (fuel : nat) (fAccurate : bool) (pc : list Z) (lastOpcode : opcodetype) (n : Z) : Z :=
  match fuel, GetOp pc with
  | S fuel, Some (opcode, pc) =>
      let n :=
        match opcode with
        | OP_CHECKSIG | OP_CHECKSIGVERIFY => u32 (n + 1)
        | OP_CHECKMULTISIG | OP_CHECKMULTISIGVERIFY =>
            if fAccurate && is_small_int lastOpcode
            then u32 (n + (opcode_value lastOpcode - (opcode_value OP_1 - 1)))
            else u32 (n + MAX_PUBKEYS_PER_MULTISIG)
        | _ => n
        end in
      sigop_loop fuel fAccurate pc opcode n
  | _, _ => n
  end.
Definition GetSigOpCount (script : list Z) (fAccurate : bool) : Z :=
  sigop_loop (length script) fAccurate script OP_INVALIDOPCODE 0.

Definition IsPayToScriptHash (script : list Z) : bool :=
  (length script =? 23)%nat &&
  (aget script 0 =? opcode_value OP_HASH160) && (aget script 1 =? 0x14) &&
  (aget script 22 =? opcode_value OP_EQUAL).

Definition IsPayToPublicKeyHash (script : list Z) : bool :=
  (length script =? 25)%nat &&
  (aget script 0 =? opcode_value OP_DUP) && (aget script 1 =? opcode_value OP_HASH160) &&
  (aget script 2 =? 0x14) &&
  (aget script 23 =? opcode_value OP_EQUALVERIFY) && (aget script 24 =? opcode_value OP_CHECKSIG).

Definition IsPayToPublicKey (script : list Z) : bool :=
  if (length script =? 35)%nat then
    ((aget script 1 =? 0x02) || (aget script 1 =? 0x03)) && (aget script 34 =? opcode_value OP_CHECKSIG)
  else if (length script =? 67)%nat then
    (aget script 1 =? 0x04) && (aget script 66 =? opcode_value OP_CHECKSIG)
  else false.

(** The loop over a scriptSig that keeps the last data pushed; [None] when an
    instruction does not decode or is not a push. *)
Fixpoint last_push_loop (fuel : nat) (pc data : list Z) : option (list Z) :=
  match pc, fuel with
  | [], _ => Some data
  | _, O => Some data
  | _, S fuel =>
      match GetOp2 pc with
      | None => None
      | Some (opcode, data, pc) =>
          if opcode_value OP_16 <? opcode_value opcode then None else last_push_loop fuel pc data
      end
  end.

(** [GetSigOpCount(const CScript& scriptSig)] *)
Definition GetSigOpCount_p2sh (script scriptSig : list Z) : Z :=
  if negb (IsPayToScriptHash script) then GetSigOpCount script true
  else
    match last_push_loop (length scriptSig) scriptSig [] with
    | None => 0
    | Some data => GetSigOpCount data true
    end.

Fixpoint IsPushOnly_loop (fuel : nat) (pc : list Z) : bool :=
  match pc, fuel with
  | [], _ => true
  | _, O => true
  | _, S fuel =>
      match GetOp pc with
      | None => false
      | Some (opcode, pc) =>
          if opcode_value OP_16 <? opcode_value opcode then false else IsPushOnly_loop fuel pc
      end
  end.
Definition IsPushOnly (script : list Z) : bool := IsPushOnly_loop (length script) script.

Definition IsUnspendable (script : list Z) : bool :=
  ((0 <? length script)%nat && (aget script 0 =? opcode_value OP_RETURN)) ||
  (MAX_SCRIPT_SIZE <? Z.of_nat (length script)).

(** ** Opcodes and bytes *)

Lemma opcode_value_to_opcode b : 0 <= b < 256 -> opcode_value (to_opcode b) = b.
Proof.
  intros Hb. apply Z.eqb_eq.
  apply (forall_below 256 (fun b => opcode_value (to_opcode b) =? b)); [|done]. vm_compute. reflexivity.
Qed.

(** ** Script numbers *)

Lemma back_snoc l b : back (l ++ [b]) = b.
Proof.
  unfold back, aget. rewrite length_app. cbn [length]. rewrite Nat.add_sub.
  rewrite app_nth2, Nat.sub_diag by lia. done.
Qed.

Lemma set_back_snoc l b x : set_back (l ++ [b]) x = l ++ [x].
Proof. unfold set_back. rewrite length_app. cbn [length]. by rewrite Nat.add_sub, take_app_length. Qed.

Lemma byte_sign b : 0 <= b < 256 ->
  nz (b .& 0x80) = (128 <=? b) /\ b .& 0x7f = b mod 128 /\ b .| 0x80 = b mod 128 + 128.
Proof.
  intros Hb. pose proof (forall_below 256 (fun b => Bool.eqb (nz (b .& 0x80)) (128 <=? b) &&
    (b .& 0x7f =? b mod 128) && (b .| 0x80 =? b mod 128 + 128)) ltac:(vm_compute; reflexivity) b Hb) as H.
  cbv beta in H. bool_to_prop. apply Bool.eqb_prop in H. done.
Qed.

(** Clearing a set bit. *)
Lemma clear_bit x k : 0 <= k < 64 -> is_u 64 x -> Z.testbit x k = true ->
  x .& u64 (Z.lnot (u64 (1 .<< k))) = x - 2 ^ k.
Proof.
  intros Hk Hx Hb. rewrite shiftl_mul, Z.mul_1_l by lia.
  rewrite (u64_id (2 ^ k)) by (split; [lia|]; apply Z.pow_lt_mono_r; lia).
  assert (x .& u64 (Z.lnot (2 ^ k)) = Z.ldiff x (2 ^ k)) as ->.
  { apply Z.bits_inj'. intros i Hi. rewrite Z.land_spec, Z.ldiff_spec. unfold u64, wrapu.
    destruct (Z_lt_ge_dec i 64).
    - rewrite Z.mod_pow2_bits_low by lia. by rewrite Z.lnot_spec by lia.
    - rewrite (bits_is_u 64 x i) by (done || lia). done. }
  rewrite Z.sub_nocarry_ldiff; [done|]. apply Z.bits_inj'. intros i Hi. rewrite Z.ldiff_spec, Z.bits_0.
  destruct (Z.eq_dec i k) as [->|Hne]; [by rewrite Hb, andb_false_r|].
  by rewrite Z.pow2_bits_false by lia.
Qed.

Lemma i64_id x : - 2 ^ 63 <= x < 2 ^ 63 -> i64 x = x.
Proof. intros. by apply wraps_id. Qed.


Lemma le_val_snoc l b : bytes_ok l -> le_val (l ++ [b]) = le_val l + 2 ^ (8 * Z.of_nat (length l)) * b.
Proof. intros Hl. rewrite le_val_app by done. cbn [le_val]. by rewrite Z.shiftl_0_l, Z.lor_0_r. Qed.

Lemma set_vch_snoc l b : bytes_ok l -> is_u 8 b -> (length l < 8)%nat ->
  set_vch (l ++ [b]) =
  let B := 2 ^ (8 * Z.of_nat (length l)) in
  if 128 <=? b then - (le_val l + B * (b - 128)) else le_val l + B * b.
Proof.
  intros Hl Hb Hn. unfold set_vch. rewrite length_app. cbn [length].
  rewrite (proj2 (Nat.eqb_neq _ _)) by lia. rewrite back_snoc, le_val_snoc by done.
  rewrite Nat.add_sub. destruct (byte_sign b Hb) as (-> & _ & _). unfold is_u in Hb.
  destruct (le_val_range l Hl) as [HL0 HL1]. set (B := 2 ^ (8 * Z.of_nat (length l))) in *.
  assert (B * 256 <= 2 ^ 64) as HB.
  { unfold B. change 256 with (2 ^ 8). rewrite <- Z.pow_add_r by lia. apply Z.pow_le_mono_r; lia. }
  assert (0 < B) as HB0 by (apply Z.pow_pos_nonneg; lia). cbv zeta.
  destruct (Z.leb_spec 128 b) as [Hge|Hlt].
  - rewrite u64_i64, u64_id by (split; nia).
    assert (u64 (0x80 .<< (8 * Z.of_nat (length l))) = u64 (1 .<< (8 * Z.of_nat (length l) + 7))) as ->.
    { f_equal. rewrite !shiftl_mul by lia. rewrite Z.pow_add_r by lia. lia. }
    rewrite clear_bit; [|lia|split; nia|].
    + rewrite Z.pow_add_r by lia. fold B. change (2 ^ 7) with 128.
      rewrite (i64_id (_ - _)) by nia. rewrite i64_id by nia. lia.
    + rewrite Z.testbit_odd, shiftr_div, Z.pow_add_r by lia. fold B. change (2 ^ 7) with 128.
      replace ((le_val l + B * b) / (B * 128)) with 1; [done|].
      apply Z.div_unique with (le_val l + B * (b - 128)); nia.
  - apply i64_id. nia.
Qed.

Lemma abs_bytes_spec fuel a :
  0 <= a < 2 ^ (8 * Z.of_nat fuel) ->
  bytes_ok (abs_bytes fuel a) /\ le_val (abs_bytes fuel a) = a /\
  (a <> 0 -> exists l b, abs_bytes fuel a = l ++ [b] /\ b <> 0).
Proof.
  revert a. induction fuel as [|fuel IH]; intros a Ha; cbn [abs_bytes].
  - assert (a = 0) as -> by (cbn in Ha; lia). split; [constructor|]. done.
  - destruct (Z.eqb_spec a 0) as [->|Hne]; [split; [constructor|done]|].
    rewrite land_ff, shiftr_div by lia.
    destruct (IH (a / 2 ^ 8)) as (H1 & H2 & H3).
    { replace (8 * Z.of_nat (S fuel)) with (8 + 8 * Z.of_nat fuel) in Ha by lia.
      rewrite Z.pow_add_r in Ha by lia. change (2 ^ 8) with 256 in *. dlia. }
    assert (is_u 8 (a mod 2 ^ 8)) as Hm by (apply Z.mod_pos_bound; lia).
    split; [by constructor|]. split; [rewrite le_val_cons, H2 by done; dlia|]. intros _.
    destruct (Z.eq_dec (a / 2 ^ 8) 0) as [E|E].
    + exists [], (a mod 2 ^ 8). rewrite E.
      split; [destruct fuel; [done|]; cbn [abs_bytes]; done|]. change (2 ^ 8) with 256 in *. dlia.
    + destruct (H3 E) as (l & b & -> & Hb). by exists (a mod 2 ^ 8 :: l), b.
Qed.

Lemma abs_bytes_unique fuel l b :
  bytes_ok (l ++ [b]) -> b <> 0 -> (length l < fuel)%nat -> abs_bytes fuel (le_val (l ++ [b])) = l ++ [b].
Proof.
  revert fuel. induction l as [|x l IH]; intros fuel Hok Hb Hf; (destruct fuel as [|fuel]; [lia|]).
  - cbn [app] in *. apply Forall_inv in Hok. unfold is_u in Hok.
    assert (le_val [b] = b) as -> by (cbn [le_val]; by rewrite Z.shiftl_0_l, Z.lor_0_r).
    cbn [abs_bytes]. rewrite (proj2 (Z.eqb_neq b 0)) by done. rewrite land_ff, shiftr_div by lia.
    rewrite Z.mod_small by lia. f_equal. rewrite Z.div_small by lia. by destruct fuel.
  - cbn [app] in *. apply Forall_cons_iff in Hok as [Hx Hok]. cbn [length] in Hf.
    rewrite le_val_cons by done. cbn [abs_bytes]. unfold is_u in Hx.
    assert (0 < le_val (l ++ [b])) as Hpos.
    { apply Forall_app in Hok as [Hl Hbb%Forall_inv]. rewrite le_val_snoc by done.
      destruct (le_val_range l Hl) as [H0 _]. unfold is_u in Hbb.
      pose proof (Z.pow_pos_nonneg 2 (8 * Z.of_nat (length l)) ltac:(lia) ltac:(lia)). nia. }
    rewrite (proj2 (Z.eqb_neq _ 0)) by lia. rewrite land_ff, shiftr_div by lia. f_equal; [dlia|].
    rewrite <- (IH fuel) at 2 by (done || lia). f_equal. dlia.
Qed.

(** The encoding of a nonzero number: sign and magnitude. *)
Lemma serialize_cases v : v <> 0 -> - 2 ^ 63 < v < 2 ^ 63 ->
  exists l b, abs_bytes 8 (Z.abs v) = l ++ [b] /\ bytes_ok (l ++ [b]) /\ b <> 0 /\
    le_val l + 2 ^ (8 * Z.of_nat (length l)) * b = Z.abs v /\ (length l < 8)%nat /\
    (128 <= b -> (length l < 7)%nat) /\
    serialize v =
      (if 128 <=? b then l ++ [b; if v <? 0 then 0x80 else 0]
       else l ++ [if v <? 0 then b + 128 else b]).
Proof.
  intros Hv Hr. destruct (abs_bytes_spec 8 (Z.abs v)) as (Hok & Hval & Hlast).
  { change (2 ^ (8 * Z.of_nat 8)) with (2 * 2 ^ 63). lia. }
  destruct Hlast as (l & b & E & Hb); [lia|]. exists l, b. rewrite E in Hok, Hval.
  pose proof Hok as Hok'. apply Forall_app in Hok' as [Hl Hbb%Forall_inv].
  rewrite le_val_snoc in Hval by done. destruct (le_val_range l Hl) as [HL0 HL1]. unfold is_u in Hbb.
  assert (forall k, (k <= length l)%nat -> 2 ^ (8 * Z.of_nat k) * b <= Z.abs v) as Hbound.
  { intros k Hk. rewrite <- Hval.
    pose proof (Z.pow_le_mono_r 2 (8 * Z.of_nat k) (8 * Z.of_nat (length l)) ltac:(lia) ltac:(lia)). nia. }
  split; [done|]. split; [done|]. split; [done|]. split; [done|]. split; [|split].
  - destruct (Nat.lt_ge_cases (length l) 8) as [|H8]; [done|].
    specialize (Hbound 8%nat H8). change (2 ^ (8 * Z.of_nat 8)) with (2 * 2 ^ 63) in Hbound. lia.
  - intros Hge. destruct (Nat.lt_ge_cases (length l) 7) as [|H7]; [done|].
    specialize (Hbound 7%nat H7). change (2 ^ (8 * Z.of_nat 7)) with (2 ^ 56) in Hbound. lia.
  - unfold serialize. rewrite (proj2 (Z.eqb_neq v 0)) by done.
    assert (u64 (if v <? 0 then - v else v) = Z.abs v) as ->.
    { destruct (Z.ltb_spec v 0); rewrite u64_id by (unfold is_u; lia); lia. }
    rewrite E, back_snoc, set_back_snoc. destruct (byte_sign b Hbb) as (-> & _ & ->).
    destruct (Z.leb_spec 128 b); [by rewrite <- app_assoc|].
    destruct (v <? 0); [|done]. by rewrite Z.mod_small by lia.
Qed.

Lemma length_serialize v : - 2 ^ 63 < v < 2 ^ 63 -> (length (serialize v) <= 8)%nat.
Proof.
  intros Hr. destruct (Z.eq_dec v 0) as [->|Hv]; [cbn; lia|].
  destruct (serialize_cases v Hv Hr) as (l & b & _ & _ & _ & _ & H8 & H7 & ->).
  destruct (Z.leb_spec 128 b) as [Hge|]; rewrite length_app; cbn [length]; [specialize (H7 Hge)|]; lia.
Qed.

Lemma set_vch_serialize v : - 2 ^ 63 < v < 2 ^ 63 -> set_vch (serialize v) = v.
Proof.
  intros Hr. destruct (Z.eq_dec v 0) as [->|Hv]; [done|].
  destruct (serialize_cases v Hv Hr) as (l & b & _ & Hok & Hb & Hval & H8 & H7 & ->).
  pose proof Hok as Hok'. apply Forall_app in Hok' as [Hl Hbb%Forall_inv]. pose proof Hbb as Hbb'. unfold is_u in Hbb'.
  destruct (Z.leb_spec 128 b) as [Hge|Hlt].
  - change [b; if v <? 0 then 0x80 else 0] with ([b] ++ [if v <? 0 then 0x80 else 0]). rewrite app_assoc.
    rewrite set_vch_snoc; [|done|destruct (v <? 0); unfold is_u; lia|rewrite length_app; cbn [length]; specialize (H7 Hge); lia].
    cbv zeta. rewrite le_val_snoc by done. destruct (Z.ltb_spec v 0).
    + change (128 <=? 0x80) with true. cbn match. lia.
    + change (128 <=? 0) with false. cbn match. lia.
  - rewrite set_vch_snoc; [|done|destruct (v <? 0); unfold is_u; lia|done]. cbv zeta.
    destruct (Z.ltb_spec v 0).
    + rewrite (proj2 (Z.leb_le _ _)) by lia. replace (b + 128 - 128) with b by lia. lia.
    + rewrite (proj2 (Z.leb_gt _ _)) by lia. lia.
Qed.

Lemma minimal_serialize v : - 2 ^ 63 < v < 2 ^ 63 -> minimal (serialize v) = true.
Proof.
  intros Hr. destruct (Z.eq_dec v 0) as [->|Hv]; [done|].
  destruct (serialize_cases v Hv Hr) as (l & b & _ & Hok & Hb & Hval & H8 & H7 & ->).
  apply Forall_app in Hok as [Hl Hbb%Forall_inv]. unfold minimal. apply negb_true_iff.
  destruct (byte_sign b Hbb) as (Hs & _ & _). unfold is_u in Hbb.
  destruct (Z.leb_spec 128 b) as [Hge|Hlt].
  - change [b; if v <? 0 then 0x80 else 0] with ([b] ++ [if v <? 0 then 0x80 else 0]). rewrite app_assoc.
    rewrite (length_app (l ++ [b])), (length_app l). cbn [length].
    rewrite (proj2 (Nat.leb_gt (length l + 1 + 1) 1)) by lia. cbn [orb].
    replace (aget ((l ++ [b]) ++ [if v <? 0 then 0x80 else 0]) (length l + 1 + 1 - 2)) with b.
    + unfold nz in Hs. apply negb_true_iff in Hs. rewrite Hs. apply andb_false_r.
    + unfold aget. rewrite <- app_assoc, app_nth2 by lia. by replace (length l + 1 + 1 - 2 - length l)%nat with 0%nat by lia.
  - rewrite back_snoc. destruct (byte_sign (if v <? 0 then b + 128 else b)) as (_ & -> & _); [destruct (v <? 0); lia|].
    replace ((if v <? 0 then b + 128 else b) mod 128) with b by (destruct (v <? 0); dlia).
    rewrite (proj2 (Z.eqb_neq b 0)) by done. by rewrite andb_false_r.
Qed.

Lemma serialize_set_vch vch :
  bytes_ok vch -> (length vch <= 8)%nat -> minimal vch = true ->
  serialize (set_vch vch) = vch /\ - 2 ^ 63 < set_vch vch < 2 ^ 63.
Proof.
  intros Hok Hn Hmin. destruct vch as [|b l _] using rev_ind; [done|].
  apply Forall_app in Hok as [Hl Hb%Forall_inv]. rewrite length_app in Hn. cbn [length] in Hn.
  rewrite set_vch_snoc by (done || lia). cbv zeta. destruct (le_val_range l Hl) as [HL0 HL1].
  set (B := 2 ^ (8 * Z.of_nat (length l))) in *.
  assert (B * 256 <= 2 ^ 64) as HB.
  { unfold B. change 256 with (2 ^ 8). rewrite <- Z.pow_add_r by lia. apply Z.pow_le_mono_r; lia. }
  assert (0 < B) as HB0 by (apply Z.pow_pos_nonneg; lia).
  destruct (byte_sign b Hb) as (_ & H7f & _). pose proof Hb as Hb'. unfold is_u in Hb'.
  set (c := b mod 128) in *. set (v := if 128 <=? b then _ else _).
  assert (Z.abs v = le_val l + B * c /\ (v <? 0) = (128 <=? b) && negb (le_val l + B * c =? 0)) as [Habs Hneg].
  { unfold v, c. destruct (Z.leb_spec 128 b).
    - replace (b mod 128) with (b - 128) by dlia. cbn [andb].
      destruct (Z.eqb_spec (le_val l + B * (b - 128)) 0), (Z.ltb_spec (- (le_val l + B * (b - 128))) 0); cbn [negb];
        split; try done; nia.
    - replace (b mod 128) with b by dlia. split; [nia|]. apply Z.ltb_ge. nia. }
  assert (- 2 ^ 63 < v < 2 ^ 63) as Hrange.
  { assert (Z.abs v < 2 ^ 63); [|lia]. rewrite Habs. assert (0 <= c < 128) by (apply Z.mod_pos_bound; lia). nia. }
  split; [|done].
  (* the canonical form of the magnitude is a list ending in a nonzero byte *)
  assert (forall l' b', bytes_ok (l' ++ [b']) -> b' <> 0 -> (length l' < 8)%nat -> le_val (l' ++ [b']) = le_val l + B * c ->
    serialize v = if 128 <=? b' then l' ++ [b'; if v <? 0 then 0x80 else 0]
                  else l' ++ [if v <? 0 then b' + 128 else b']) as Hcanon.
  { intros l' b' Hok' Hb0 Hlen Hv'.
    assert (0 < le_val (l' ++ [b'])) as Hp.
    { apply Forall_app in Hok' as [Hl' Hbb'%Forall_inv]. rewrite le_val_snoc by done. unfold is_u in Hbb'.
      destruct (le_val_range l' Hl') as [? _]. pose proof (Z.pow_pos_nonneg 2 (8 * Z.of_nat (length l')) ltac:(lia) ltac:(lia)). nia. }
    destruct (serialize_cases v) as (l2 & b2 & E2 & _ & _ & _ & _ & _ & ->); [lia|done|].
    rewrite Habs, <- Hv', abs_bytes_unique in E2 by done. by apply app_inj_tail in E2 as [<- <-]. }
  destruct (Z.eq_dec c 0) as [Hc|Hc].
  - (* the top byte is a bare sign: the byte below has its high bit set *)
    unfold minimal in Hmin. apply negb_true_iff in Hmin. rewrite length_app, back_snoc, H7f, Hc in Hmin. cbn [length] in Hmin.
    rewrite (proj2 (Nat.ltb_lt 0 (length l + 1))) in Hmin by lia. cbn [andb Z.eqb] in Hmin.
    apply orb_false_iff in Hmin as [Hm1%Nat.leb_gt Hm2].
    destruct l as [|p l' _] using rev_ind; [cbn [length] in Hm1; lia|].
    rewrite length_app in Hm2, Hn. cbn [length] in Hm2, Hn.
    assert (aget ((l' ++ [p]) ++ [b]) (length l' + 1 + 1 - 2) = p) as Hp.
    { unfold aget. rewrite <- app_assoc, app_nth2 by lia. by replace (length l' + 1 + 1 - 2 - length l')%nat with 0%nat by lia. }
    rewrite Hp in Hm2. pose proof Hl as Hl'. apply Forall_app in Hl' as [Hl' Hpp%Forall_inv].
    destruct (byte_sign p Hpp) as (Hs & _ & _). unfold nz in Hs. rewrite Hm2 in Hs. cbn [negb] in Hs.
    symmetry in Hs. apply Z.leb_le in Hs.
    rewrite (Hcanon l' p) by (done || lia). rewrite (proj2 (Z.leb_le _ _) Hs), <- app_assoc. cbn [app]. do 3 f_equal.
    rewrite Hneg. rewrite (proj2 (Z.eqb_neq _ 0)).
    + cbn [negb]. rewrite andb_true_r. unfold c in Hc. destruct (Z.leb_spec 128 b); dlia.
    + rewrite le_val_snoc by done. destruct (le_val_range l' Hl') as [? _].
      pose proof (Z.pow_pos_nonneg 2 (8 * Z.of_nat (length l')) ltac:(lia) ltac:(lia)). nia.
  - assert (0 < c < 128) as Hc' by (unfold c in *; dlia).
    rewrite (Hcanon l c); [|apply Forall_app; split; [done|]; constructor; [unfold is_u; lia|constructor]|done|lia|by rewrite le_val_snoc].
    rewrite (proj2 (Z.leb_gt _ _)) by lia. do 2 f_equal. rewrite Hneg, (proj2 (Z.eqb_neq _ 0)) by nia. cbn [negb].
    rewrite andb_true_r. unfold c in *. destruct (Z.leb_spec 128 b); dlia.
Qed.

Lemma set_vch_range vch : bytes_ok vch -> (length vch <= 8)%nat -> Z.abs (set_vch vch) < 2 ^ 63.
Proof.
  intros Hok Hn. destruct vch as [|b l _] using rev_ind; [done|].
  apply Forall_app in Hok as [Hl Hb%Forall_inv]. rewrite length_app in Hn. cbn [length] in Hn.
  rewrite set_vch_snoc by (done || lia). cbv zeta. destruct (le_val_range l Hl) as [HL0 HL1]. unfold is_u in Hb.
  assert (2 ^ (8 * Z.of_nat (length l)) * 256 <= 2 ^ 64) as HB.
  { change 256 with (2 ^ 8). rewrite <- Z.pow_add_r by lia. apply Z.pow_le_mono_r; lia. }
  pose proof (Z.pow_pos_nonneg 2 (8 * Z.of_nat (length l)) ltac:(lia) ltac:(lia)).
  destruct (Z.leb_spec 128 b); nia.
Qed.

(** Script numbers have one encoding.  Every value of magnitude below [2^63]
    that fits the size limit is read back from [serialize] under the minimality
    rule, a longer encoding is refused as an overflow, and conversely the
    constructor accepts a byte string of at most eight bytes as minimal only when
    it is exactly what [serialize] gives for the value it denotes. *)
Theorem CScriptNum_canonical (v : Z) (vch : list Z) (nMaxNumSize : nat) :
  - 2 ^ 63 < v < 2 ^ 63 -> bytes_ok vch -> (nMaxNumSize <= 8)%nat ->
  CScriptNum (serialize v) true nMaxNumSize =
    (if (length (serialize v) <=? nMaxNumSize)%nat then Ok v else Throw NumOverflow) /\
  (forall x, CScriptNum vch true nMaxNumSize = Ok x -> serialize x = vch) /\
  (CScriptNum vch true nMaxNumSize = Throw NonMinimal ->
     serialize (set_vch vch) <> vch /\ CScriptNum vch false nMaxNumSize = Ok (set_vch vch)).
Proof.
  intros Hv Hok Hmax. unfold CScriptNum. cbn [andb]. split_and!.
  - rewrite minimal_serialize, set_vch_serialize by done. cbn [negb].
    by destruct (Nat.ltb_spec nMaxNumSize (length (serialize v))), (Nat.leb_spec (length (serialize v)) nMaxNumSize); try lia.
  - intros x. destruct (Nat.ltb_spec nMaxNumSize (length vch)); [done|].
    destruct (minimal vch) eqn:Hm; cbn [negb]; [|done]. intros [= <-]. apply serialize_set_vch; [done|lia|done].
  - destruct (Nat.ltb_spec nMaxNumSize (length vch)) as [|Hl]; [done|].
    destruct (minimal vch) eqn:Hm; cbn [negb]; [done|]. intros _. split; [|done]. intros E.
    destruct (Z_lt_ge_dec (Z.abs (set_vch vch)) (2 ^ 63)) as [Hlt|Hge].
    + rewrite <- E in Hm. by rewrite minimal_serialize in Hm by lia.
    + pose proof (set_vch_range vch Hok ltac:(lia)). lia.
Qed.

Lemma CScriptNum_canonical_witness :
  CScriptNum (serialize (-255)) true 4 = Ok (-255) /\ serialize (-255) = [0xff; 0x80] /\
  CScriptNum [0xff; 0x00; 0x00] true 4 = Throw NonMinimal.
Proof.
  split; [|split; reflexivity].
  refine (proj1 (CScriptNum_canonical (-255) [] 4 _ _ _)); [lia|constructor|lia].
Defined.

(** ** Decoding *)

Lemma operand_size_shrinks op pc n pc' : operand_size op pc = Some (n, pc') -> (length pc' <= length pc)%nat.
Proof.
  unfold operand_size. repeat case_if; try done.
  - by intros [= <- <-].
  - destruct pc; [done|]. intros [= <- <-]. cbn [length]. lia.
  - intros [= <- <-]. rewrite length_drop. lia.
  - intros [= <- <-]. rewrite length_drop. lia.
Qed.

(** Every instruction consumes at least its opcode: the loops below never run
    out of fuel when the fuel is the length of the script. *)
Lemma GetOp2_shrinks pc op vch pc' : GetOp2 pc = Some (op, vch, pc') -> (length pc' < length pc)%nat.
Proof.
  unfold GetOp2. destruct pc as [|o pc]; [done|]. destruct (o <=? 0x4e).
  - destruct (operand_size o pc) as [[n pc1]|] eqn:E; [|done]. apply operand_size_shrinks in E.
    destruct (_ <? n); [done|]. intros [= _ _ <-]. rewrite length_drop. cbn [length]. lia.
  - intros [= _ _ <-]. cbn [length]. lia.
Qed.

Lemma GetOp_shrinks pc op pc' : GetOp pc = Some (op, pc') -> (length pc' < length pc)%nat.
Proof.
  unfold GetOp. destruct (GetOp2 pc) as [[[o v] p]|] eqn:E; [|done]. intros [= <- <-]. by apply GetOp2_shrinks in E.
Qed.

(** The instruction decoder inverts the pushes. *)
Lemma GetOp2_push_data b rest :
  Z.of_nat (length b) < 2 ^ 32 ->
  GetOp2 (push_data b ++ rest) =
  Some (to_opcode (let n := Z.of_nat (length b) in
    if n <? 0x4c then n else if n <=? 0xff then 0x4c else if n <=? 0xffff then 0x4d else 0x4e), b, rest).
Proof.
  intros Hb. unfold push_data. set (n := Z.of_nat (length b)) in *. cbv zeta.
  assert (forall op, (if Z.of_nat (length (b ++ rest)) <? n then None
    else Some (to_opcode op, take (Z.to_nat n) (b ++ rest), drop (Z.to_nat n) (b ++ rest))) =
    Some (to_opcode op, b, rest)) as Hfin.
  { intros op. rewrite (proj2 (Z.ltb_ge _ _)) by (rewrite length_app; lia).
    unfold n. rewrite Nat2Z.id, take_app_length, drop_app_length. done. }
  destruct (Z.ltb_spec n 0x4c); [|destruct (Z.leb_spec n 0xff); [|destruct (Z.leb_spec n 0xffff)]].
  - rewrite <- app_assoc. cbn [app GetOp2]. rewrite (proj2 (Z.leb_le _ _)) by lia. unfold operand_size.
    rewrite (proj2 (Z.ltb_lt _ _)) by done. apply Hfin.
  - rewrite <- app_assoc. cbn [app GetOp2]. change (0x4c <=? 0x4e) with true. unfold operand_size.
    change (0x4c <? 0x4c) with false. change (0x4c =? 0x4c) with true. apply (Hfin 0x4c).
  - rewrite <- app_assoc. cbn [app GetOp2]. change (0x4d <=? 0x4e) with true. unfold operand_size.
    change (0x4d <? 0x4c) with false. change (0x4d =? 0x4c) with false. change (0x4d =? 0x4d) with true.
    rewrite (proj2 (Nat.ltb_ge _ _)) by (rewrite length_app; unfold WriteLE16; rewrite length_le_bytes; lia).
    rewrite ReadLE16_Write by (unfold is_u; lia). rewrite drop_app_length' by done. apply (Hfin 0x4d).
  - rewrite <- app_assoc. cbn [app GetOp2]. change (0x4e <=? 0x4e) with true. unfold operand_size.
    change (0x4e <? 0x4c) with false. change (0x4e =? 0x4c) with false. change (0x4e =? 0x4d) with false.
    rewrite (proj2 (Nat.ltb_ge _ _)) by (rewrite length_app; unfold WriteLE32; rewrite length_le_bytes; lia).
    rewrite ReadLE32_Write by (unfold is_u; lia). rewrite drop_app_length' by done. apply (Hfin 0x4e).
Qed.

Lemma push_data_opcode n : 0 <= n ->
  opcode_value (to_opcode (if n <? 0x4c then n else if n <=? 0xff then 0x4c else if n <=? 0xffff then 0x4d else 0x4e)) <= 0x4e.
Proof.
  intros Hn. destruct (Z.ltb_spec n 0x4c); [rewrite opcode_value_to_opcode; lia|]. by repeat case_if.
Qed.

Lemma last_push_loop_pushes items fuel d :
  (length (concat (map push_data items)) <= fuel)%nat -> Forall (fun b => Z.of_nat (length b) < 2 ^ 32) items ->
  last_push_loop fuel (concat (map push_data items)) d = Some (default d (list.last items)).
Proof.
  revert fuel d. induction items as [|b items IH]; intros fuel d Hf HF.
  - by destruct fuel.
  - apply Forall_cons_iff in HF as [Hb HF]. cbn [map concat] in *.
    pose proof (GetOp2_push_data b (concat (map push_data items)) Hb) as HG.
    pose proof (GetOp2_shrinks _ _ _ _ HG) as Hs.
    destruct (push_data b ++ concat (map push_data items)) as [|x r] eqn:E; [done|].
    destruct fuel as [|fuel]; [cbn [length] in Hf; lia|]. cbn [last_push_loop]. rewrite HG.
    rewrite (proj2 (Z.ltb_ge _ _)).
    + rewrite IH by (done || (cbn [length] in *; lia)). rewrite last_cons. by destruct (list.last items).
    + pose proof (push_data_opcode (Z.of_nat (length b)) ltac:(lia)). cbn [opcode_value]. cbv zeta. lia.
Qed.

Lemma IsPushOnly_loop_last fuel pc d :
  IsPushOnly_loop fuel pc = match last_push_loop fuel pc d with Some _ => true | None => false end.
Proof.
  revert pc d. induction fuel as [|fuel IH]; intros pc d; [by destruct pc|].
  destruct pc as [|x pc]; [done|]. cbn [IsPushOnly_loop last_push_loop]. unfold GetOp.
  destruct (GetOp2 (x :: pc)) as [[[op v] r]|]; [|done]. destruct (_ <? _); [done|]. apply IH.
Qed.

Lemma P2SH_shape script :
  IsPayToScriptHash script = true <->
  exists h, length h = 20%nat /\ script = [opcode_value OP_HASH160; 0x14] ++ h ++ [opcode_value OP_EQUAL].
Proof.
  unfold IsPayToScriptHash. split.
  - intros H. bool_to_prop. apply Nat.eqb_eq in H.
    destruct script as [|a [|b script]]; [done|done|].
    destruct script as [|e h _] using rev_ind; [done|]. cbn [length] in H. rewrite length_app in H. cbn [length] in H.
    exists h. split; [lia|]. unfold aget in *. cbn [nth] in *.
    rewrite app_nth2 in H0 by lia. replace (20 - length h)%nat with 0%nat in H0 by lia. cbn [nth] in H0. by subst.
  - intros (h & Hh & ->). rewrite !length_app. cbn [length]. unfold aget. cbn [app nth].
    rewrite Hh. rewrite app_nth2, Hh by lia. done.
Qed.

(** *** Signature-operation counts *)

Lemma sigop_loop_bound fuel acc pc lst n :
  0 <= n -> n + 20 * Z.of_nat (length pc) < 2 ^ 32 ->
  n <= sigop_loop fuel acc pc lst n <= n + 20 * Z.of_nat (length pc).
Proof.
  revert pc lst n. induction fuel as [|fuel IH]; intros pc lst n Hn Hb; [cbn; lia|].
  cbn [sigop_loop]. destruct (GetOp pc) as [[op pc']|] eqn:E; [|lia]. apply GetOp_shrinks in E.
  match goal with |- context [sigop_loop fuel acc pc' op ?m] => set (n' := m) end.
  assert (n <= n' <= n + 20) as Hn'.
  { assert (forall k, 0 <= k <= 20 -> n <= u32 (n + k) <= n + 20) as Hk.
    { intros k Hk. rewrite u32_id by (unfold is_u; lia). lia. }
    unfold n', MAX_PUBKEYS_PER_MULTISIG, is_small_int. destruct op; try lia; try (apply Hk; lia).
    all: destruct acc; cbn [andb]; [|apply Hk; lia].
    all: case_if; bool_to_prop; cbn [opcode_value] in *; apply Hk; lia. }
  specialize (IH pc' op n' ltac:(lia) ltac:(lia)). lia.
Qed.

(** *** FindAndDelete *)

(** The reference: skip an occurrence of [b] at an instruction boundary, keep
    any other instruction. *)
Fixpoint erase (fuel : nat) (b s : list Z) : list Z :=
  match fuel with
  | O => s
  | S fuel =>
      if starts_with b s then erase fuel b (drop (length b) s)
      else match GetOp s with
           | Some (_, rest) => take (length s - length rest) s ++ erase fuel b rest
           | None => s
           end
  end.

Definition suffix_of (t s : list Z) : Prop := exists p, s = p ++ t.

Lemma suffix_take t s : suffix_of t s -> s = take (length s - length t) s ++ t.
Proof.
  intros [p ->]. rewrite length_app. replace (length p + length t - length t)%nat with (length p) by lia.
  by rewrite take_app_length.
Qed.

Lemma drop_suffix n (s : list Z) : suffix_of (drop n s) s.
Proof. exists (take n s). by rewrite take_drop. Qed.

Lemma suffix_trans a b c : suffix_of a b -> suffix_of b c -> suffix_of a c.
Proof. intros [p ->] [q ->]. exists (q ++ p). by rewrite app_assoc. Qed.

Lemma operand_size_suffix op pc n pc' : operand_size op pc = Some (n, pc') -> suffix_of pc' pc.
Proof.
  unfold operand_size. repeat case_if; try done.
  - intros [= <- <-]. by exists [].
  - destruct pc as [|x pc]; [done|]. intros [= <- <-]. by exists [x].
  - intros [= <- <-]. apply drop_suffix.
  - intros [= <- <-]. apply drop_suffix.
Qed.

Lemma GetOp_suffix pc op pc' : GetOp pc = Some (op, pc') -> suffix_of pc' pc.
Proof.
  unfold GetOp, GetOp2. destruct pc as [|o pc]; [done|]. assert (suffix_of pc (o :: pc)) as Ho by (by exists [o]).
  destruct (o <=? 0x4e).
  - destruct (operand_size o pc) as [[n pc1]|] eqn:E; [|done]. apply operand_size_suffix in E.
    destruct (_ <? n); [done|]. intros [= _ <-]. eapply suffix_trans; [apply drop_suffix|]. by eapply suffix_trans.
  - by intros [= _ <-].
Qed.

Lemma starts_with_spec b s : starts_with b s = true <-> exists t, s = b ++ t.
Proof.
  unfold starts_with. rewrite andb_true_iff, Nat.leb_le, bool_decide_eq_true. split.
  - intros [_ E]. exists (drop (length b) s). by rewrite <- E at 1; rewrite take_drop.
  - intros [t ->]. rewrite length_app, take_app_length. split; [lia|done].
Qed.

Lemma erase_fuel b f1 f2 s :
  (0 < length b)%nat -> (length s < f1)%nat -> (length s < f2)%nat -> erase f1 b s = erase f2 b s.
Proof.
  intros Hb. revert f2 s. induction f1 as [|f1 IH]; intros [|f2] s H1 H2; try lia. cbn [erase].
  destruct (starts_with b s) eqn:E.
  - apply starts_with_spec in E as [t ->]. rewrite drop_app_length, length_app in *. apply IH; lia.
  - destruct (GetOp s) as [[op r]|] eqn:EG; [|done]. apply GetOp_shrinks in EG. f_equal. apply IH; lia.
Qed.

Lemma skip_matches_spec fuel b pc n :
  (0 < length b)%nat -> (length pc <= fuel)%nat ->
  let '(pc', n') := skip_matches fuel b pc n in
  starts_with b pc' = false /\ (length pc' <= length pc)%nat /\
  Z.of_nat (length pc) = Z.of_nat (length pc') + (n' - n) * Z.of_nat (length b) /\ n <= n' /\
  (n' = n -> pc' = pc) /\ erase (S (length pc)) b pc = erase (S (length pc')) b pc'.
Proof.
  intros Hb. revert pc n. induction fuel as [|fuel IH]; intros pc n Hf; cbn [skip_matches].
  - destruct pc; [|cbn in Hf; lia]. split_and!; try done; try lia.
    unfold starts_with. rewrite (proj2 (Nat.leb_gt _ _)) by (cbn; lia). done.
  - destruct (starts_with b pc) eqn:E; [|split_and!; (done || lia)].
    pose proof E as E0. apply starts_with_spec in E as [t ->]. rewrite drop_app_length. rewrite length_app in Hf.
    specialize (IH t (n + 1) ltac:(lia)). destruct (skip_matches fuel b t (n + 1)) as [pc' n'].
    destruct IH as (I1 & I2 & I3 & I4 & I5 & I6). rewrite length_app. split_and!; try done; try lia.
    rewrite <- I6. etransitivity; [|apply (erase_fuel b (length b + length t)); lia].
    cbn [erase]. by rewrite E0, drop_app_length.
Qed.

Lemma find_and_delete_loop_spec fuel b acc pc2 pc n :
  (0 < length b)%nat -> (length pc < fuel)%nat -> suffix_of pc pc2 ->
  let '(acc', pc2', n') := find_and_delete_loop fuel b acc pc2 pc n in
  acc' ++ pc2' = acc ++ take (length pc2 - length pc) pc2 ++ erase (S (length pc)) b pc /\
  n <= n' /\ (n' = n -> acc' ++ pc2' = acc ++ pc2) /\
  Z.of_nat (length (acc' ++ pc2')) + (n' - n) * Z.of_nat (length b) = Z.of_nat (length (acc ++ pc2)).
Proof.
  intros Hb. revert acc pc2 pc n. induction fuel as [|fuel IH]; intros acc pc2 pc n Hf Hs; [lia|].
  cbn [find_and_delete_loop]. set (seg := take (length pc2 - length pc) pc2).
  pose proof (suffix_take pc pc2 Hs) as Hsplit. fold seg in Hsplit.
  pose proof (skip_matches_spec (length pc) b pc n Hb ltac:(lia)) as Hsk.
  destruct (skip_matches (length pc) b pc n) as [pc1 n1]. destruct Hsk as (S1 & S2 & S3 & S4 & S5 & S6).
  rewrite S6. cbn [erase]. rewrite S1.
  assert (Z.of_nat (length (acc ++ pc2)) = Z.of_nat (length acc + length seg) + Z.of_nat (length pc)) as Hlen
    by (rewrite Hsplit, !length_app; lia).
  destruct (GetOp pc1) as [[op pc3]|] eqn:EG.
  - pose proof (GetOp_shrinks _ _ _ EG). pose proof (GetOp_suffix _ _ _ EG) as Hsuf.
    specialize (IH (acc ++ seg) pc1 pc3 n1 ltac:(lia) Hsuf).
    destruct (find_and_delete_loop fuel b (acc ++ seg) pc1 pc3 n1) as [[acc' pc2'] n'].
    destruct IH as (I1 & I2 & I3 & I4). split_and!.
    + rewrite I1, <- !app_assoc. do 3 f_equal. apply erase_fuel; lia.
    + lia.
    + intros E. rewrite I3, S5, <- app_assoc, <- Hsplit by lia. done.
    + rewrite Hlen. rewrite !length_app in *. lia.
  - split_and!; [by rewrite <- !app_assoc|lia| |].
    + intros E. by rewrite S5, <- app_assoc, <- Hsplit by lia.
    + rewrite Hlen, !length_app. lia.
Qed.

Lemma FindAndDelete_erase script b : (0 < length b)%nat ->
  fst (FindAndDelete script b) = erase (S (length script)) b script /\
  Z.of_nat (length (fst (FindAndDelete script b))) + snd (FindAndDelete script b) * Z.of_nat (length b)
    = Z.of_nat (length script) /\
  (snd (FindAndDelete script b) = 0 -> fst (FindAndDelete script b) = script).
Proof.
  intros Hb. unfold FindAndDelete. rewrite (proj2 (Nat.eqb_neq _ _)) by lia.
  pose proof (find_and_delete_loop_spec (S (length script)) b [] script script 0 ltac:(lia) ltac:(lia)
    (ex_intro _ [] eq_refl)) as HL.
  destruct (find_and_delete_loop _ b [] script script 0) as [[acc pc2] n]. destruct HL as (L1 & L2 & L3 & L4).
  rewrite Nat.sub_diag, take_0 in L1. cbn [app] in L1, L3, L4. rewrite Z.sub_0_r in L4.
  destruct (Z.ltb_spec 0 n); cbn [fst snd].
  - split_and!; [done|lia|lia].
  - assert (n = 0) as -> by lia. split_and!; [by rewrite <- L1, L3|lia|done].
Qed.

(** [FindAndDelete] removes exactly the occurrences of [b] that start at an
    instruction boundary: the result is the reference [erase], the count is the
    number of bytes removed divided by the length of [b], and a script without
    such an occurrence (or an empty [b]) is left unchanged. *)
Theorem FindAndDelete_spec (script b : list Z) :
  let '(out, nFound) := FindAndDelete script b in
  (0 < length b)%nat ->
  out = erase (S (length script)) b script /\
  Z.of_nat (length out) + nFound * Z.of_nat (length b) = Z.of_nat (length script) /\
  (nFound = 0 -> out = script).
Proof.
  pose proof (FindAndDelete_erase script b) as H. destruct (FindAndDelete script b) as [out nFound]. exact H.
Qed.

Lemma FindAndDelete_spec_witness :
  FindAndDelete [0x02; 0xab; 0xcd; 0xab; 0xab; 0x51] [0xab] = ([0x02; 0xab; 0xcd; 0x51], 2) /\
  [0x02; 0xab; 0xcd; 0x51] = erase 7 [0xab] [0x02; 0xab; 0xcd; 0xab; 0xab; 0x51].
Proof.
  split; [reflexivity|].
  refine (proj1 (FindAndDelete_spec [0x02; 0xab; 0xcd; 0xab; 0xab; 0x51] [0xab] _)). cbn. lia.
Defined.

(** A scriptSig made of data pushes.  Whatever the sizes of the items, the
    bytes decode push by push, the script is push-only, and for a
    pay-to-script-hash output the signature operations counted are those of the
    last item pushed, never more than twenty per byte of it. *)
Theorem pushed_items_decode (items : list (list Z)) (h rest : list Z) (b : list Z) :
  Forall (fun x => Z.of_nat (length x) < 2 ^ 27) (b :: items) -> length h = 20%nat ->
  let scriptSig := concat (map push_data items) in
  let p2sh := [opcode_value OP_HASH160; 0x14] ++ h ++ [opcode_value OP_EQUAL] in
  let redeem := default [] (list.last items) in
  option_map (fun r => (snd (fst r), snd r)) (GetOp2 (push_data b ++ rest)) = Some (b, rest) /\
  IsPushOnly scriptSig = true /\
  GetSigOpCount_p2sh p2sh scriptSig = GetSigOpCount redeem true /\
  0 <= GetSigOpCount redeem true <= 20 * Z.of_nat (length redeem).
Proof.
  intros HF Hh. cbv zeta. apply Forall_cons_iff in HF as [Hb HF].
  assert (Forall (fun x => Z.of_nat (length x) < 2 ^ 32) items) as HF32.
  { eapply Forall_impl; [|exact HF]. cbv beta. lia. }
  assert (Z.of_nat (length (default [] (list.last items))) < 2 ^ 27) as Hred.
  { destruct (list.last items) as [x|] eqn:E; [|cbn; lia]. apply last_Some in E as [l ->].
    apply Forall_app in HF as [_ HF]. by apply Forall_inv in HF. }
  split_and!.
  - rewrite GetOp2_push_data by lia. done.
  - unfold IsPushOnly. rewrite (IsPushOnly_loop_last _ _ []), last_push_loop_pushes by (done || lia). done.
  - unfold GetSigOpCount_p2sh. rewrite (proj2 (P2SH_shape _)) by (by exists h). cbn [negb].
    by rewrite last_push_loop_pushes by (done || lia).
  - unfold GetSigOpCount. pose proof (sigop_loop_bound (length (default [] (list.last items))) true
      (default [] (list.last items)) OP_INVALIDOPCODE 0). lia.
  - unfold GetSigOpCount. pose proof (sigop_loop_bound (length (default [] (list.last items))) true
      (default [] (list.last items)) OP_INVALIDOPCODE 0). lia.
Qed.

(** A 2-of-3 redeem script with stand-in keys counts three operations. *)
Lemma pushed_items_decode_witness :
  let redeem := [0x52; 1; 9; 1; 9; 1; 9; 0x53; 0xae] in
  GetSigOpCount_p2sh ([opcode_value OP_HASH160; 0x14] ++ replicate 20 5 ++ [opcode_value OP_EQUAL])
    (concat (map push_data [[]; redeem])) = GetSigOpCount redeem true /\
  GetSigOpCount redeem true = 3.
Proof.
  intros redeem. split; [|reflexivity].
  refine (proj1 (proj2 (proj2 (pushed_items_decode [[]; redeem] (replicate 20 5) [] [] _ eq_refl)))).
  repeat (apply Forall_cons_iff; split; [cbn [length redeem]; lia|]). constructor.
Defined.
