(* ===== verification/Amount.v ===== *)
(** * Amounts and fee rates (src/src/amount.h, src/src/amount.cpp)

    Amounts are [int64_t]; products wrap as the hardware does (the C++ code
    relies on their not overflowing, which the theorem's bounds guarantee).
    Division truncates towards zero. *)

From S2P Require Import Prelude.
Local Open Scope cxx_scope.

Definition COIN : Z := 100000000.
Definition CENT : Z := 1000000.
Definition MAX_MONEY : Z := 100000000 * COIN.
Definition MoneyRange (nValue : Z) : bool := (0 <=? nValue) && (nValue <=? MAX_MONEY).

(** A fee rate is its [nSatoshisPerK]; [None] when the size assertion fails. *)
Definition size_ok (nBytes : Z) : bool := nBytes <=? 2 ^ 63 - 1.

Definition CFeeRate (nFeePaid nBytes : Z) : option Z :=
  if size_ok nBytes then
    let nSize := nBytes in
    Some (if 0 <? nSize then Z.quot (i64 (nFeePaid * 1000)) nSize else 0)
  else None.

Definition GetFee (nSatoshisPerK nBytes : Z) : option Z :=
  if size_ok nBytes then
    let nSize := nBytes in
    let nFee := Z.quot (i64 (nSatoshisPerK * nSize)) 1000 in
    Some
      (if (nFee =? 0) && negb (nSize =? 0) then
         let nFee := if 0 <? nSatoshisPerK then 1 else nFee in
         if nSatoshisPerK <? 0 then -1 else nFee
       else nFee)
  else None.

Definition GetFeePerK (nSatoshisPerK : Z) : option Z := GetFee nSatoshisPerK 1000.

(** [operator+=] *)
Definition fee_add (a b : Z) : Z := i64 (a + b).

Lemma GetFee_pos rate size :
  0 <= rate -> 0 <= size -> rate * size < 2 ^ 63 -> size < 2 ^ 63 ->
  GetFee rate size = Some (if (rate * size / 1000 =? 0) && negb (size =? 0) && (0 <? rate) then 1 else rate * size / 1000).
Proof.
  intros Hr Hs Hp Hsz. unfold GetFee, size_ok. rewrite (proj2 (Z.leb_le _ _)) by lia.
  unfold i64. rewrite wraps_id by (unfold is_s; lia || nia). rewrite Z.quot_div_nonneg by nia.
  rewrite (proj2 (Z.ltb_ge rate 0)) by lia.
  destruct (rate * size / 1000 =? 0), (negb (size =? 0)), (0 <? rate); done.
Qed.

(** Fees are proportional to size, never rounded to nothing, and never
    charge more than was paid.  For fees and sizes in range: a positive rate on a
    positive size costs at least one unit and otherwise the rate times the size
    divided by 1000, rounded down; a larger size never costs less; and the rate
    computed from a fee, applied to the same size, gives back at most that fee
    and less than it by no more than [size / 1000 + 1]. *)
Theorem fee_rate_laws (rate size size' fee : Z) :
  0 <= rate -> 0 < size <= size' -> size' < 2 ^ 31 -> rate * size' < 2 ^ 63 -> 0 <= fee -> fee * 1000 < 2 ^ 63 ->
  exists f f' r g,
    GetFee rate size = Some f /\ GetFee rate size' = Some f' /\ f <= f' /\
    (0 < rate -> 0 < f) /\ Z.max f 1 = Z.max 1 (rate * size / 1000) /\
    CFeeRate fee size = Some r /\ GetFee r size = Some g /\ g <= fee <= g + size / 1000 + 1.
Proof.
  intros Hr Hs Hs' Hp Hm Hm2.
  assert (rate * size <= rate * size') by nia.
  rewrite !GetFee_pos by nia.
  do 2 eexists. exists (fee * 1000 / size). eexists.
  split; [reflexivity|]. split; [reflexivity|].
  assert (rate * size / 1000 <= rate * size' / 1000) by (apply Z.div_le_mono; lia).
  assert (0 <= rate * size / 1000) by (apply Z.div_pos; nia).
  split; [|split; [|split; [|split; [|split]]]].
  - destruct (Z.eqb_spec (rate * size / 1000) 0), (Z.eqb_spec (rate * size' / 1000) 0), (Z.eqb_spec size 0),
      (Z.eqb_spec size' 0), (Z.ltb_spec 0 rate); cbn [negb andb]; lia.
  - intros. destruct (Z.eqb_spec (rate * size / 1000) 0), (Z.eqb_spec size 0), (Z.ltb_spec 0 rate); cbn [negb andb]; lia.
  - destruct (Z.eqb_spec (rate * size / 1000) 0), (Z.eqb_spec size 0), (Z.ltb_spec 0 rate); cbn [negb andb]; lia.
  - unfold CFeeRate, size_ok. rewrite (proj2 (Z.leb_le _ _)), (proj2 (Z.ltb_lt _ _)) by lia.
    unfold i64. rewrite wraps_id by (unfold is_s; lia). by rewrite Z.quot_div_nonneg by lia.
  - apply GetFee_pos; [apply Z.div_pos; lia|lia| |lia].
    pose proof (Z.mul_div_le (fee * 1000) size). lia.
  - pose proof (Z.mul_div_le (fee * 1000) size ltac:(lia)).
    pose proof (Z.mul_succ_div_gt (fee * 1000) size ltac:(lia)).
    set (r := fee * 1000 / size) in *. assert (0 <= r) by (apply Z.div_pos; lia).
    destruct (Z.eqb_spec (r * size / 1000) 0), (Z.eqb_spec size 0), (Z.ltb_spec 0 r); cbn [negb andb]; try lia; dlia.
Qed.

Lemma fee_rate_laws_witness :
  exists f f' r g,
    GetFee 1000 225 = Some f /\ GetFee 1000 226 = Some f' /\ f <= f' /\
    (0 < 1000 -> 0 < f) /\ Z.max f 1 = Z.max 1 (1000 * 225 / 1000) /\
    CFeeRate 5000 225 = Some r /\ GetFee r 225 = Some g /\ g <= 5000 <= g + 225 / 1000 + 1.
Proof. apply (fee_rate_laws 1000 225 226 5000); (lia || reflexivity). Defined.

(** The product [nFeePaid * 1000] of the constructor does not fit [int64_t] for
    every amount [MoneyRange] accepts: the largest one gives a negative rate. *)
Theorem fee_rate_overflow :
  MoneyRange MAX_MONEY = true /\ 2 ^ 63 <= MAX_MONEY * 1000 /\
  exists r, CFeeRate MAX_MONEY 1000 = Some r /\ r < 0.
Proof.
  split; [reflexivity|]. split; [vm_compute; done|]. eexists. split; [vm_compute; reflexivity|lia].
Qed.
