(* ===== verification/Transaction.v ===== *)
(** * Transactions (src/src/primitives/transaction.h, transaction.cpp, uint256.h)

    The data of a transaction, its serialized form and the totals the node
    computes from it.  [CMutableTransaction] holds the fields; [CTransaction] is
    the same fields, constant, with the hash its constructor computes. *)

From stdpp Require Import countable.
From S2P Require Import Prelude Bytes Hash Serialize Containers Script Amount.
Local Open Scope cxx_scope.

(** ** Integers of the stream, by type (serialize.h) *)

Definition ser_int32 (a : Z) : list Z := ser_writedata32 (u32 a).
Definition ser_int64 (a : Z) : list Z := ser_writedata64 (u64 a).
Definition unser_int32 : reader Z := fun s => let! r := ser_readdata32 s in Ok (i32 (fst r), snd r).
Definition unser_int64 : reader Z := fun s => let! r := ser_readdata64 s in Ok (i64 (fst r), snd r).

(** ** uint256, as its bytes (uint256.h) *)

Definition uint256_null : list Z := replicate 32 0.
Definition uint256_IsNull (data : list Z) : bool := forallb (fun b => b =? 0) data.
Definition uint256_Serialize (data : list Z) : list Z := data.
Definition uint256_Unserialize : reader (list Z) := read_bytes 32.

(** ** The data *)

Record COutPoint : Type := { op_hash : list Z; op_n : Z }.

Record CTxIn : Type := { prevout : COutPoint; scriptSig : list Z; nSequence : Z }.

Record CTxOut : Type := { nValue : Z; scriptPubKey : list Z; nRounds : Z }.

Record CMutableTransaction : Type := {
  nVersion : Z;
  nType : Z;
  vin : list CTxIn;
  vout : list CTxOut;
  nLockTime : Z;
  vExtraPayload : list Z;
}.

Record CTransaction : Type := { tx_data : CMutableTransaction; tx_hash : list Z }.

#[global] Instance COutPoint_eq_dec : EqDecision COutPoint.
Proof. solve_decision. Defined.
#[global] Instance CTxIn_eq_dec : EqDecision CTxIn.
Proof. solve_decision. Defined.
#[global] Instance CTxOut_eq_dec : EqDecision CTxOut.
Proof. solve_decision. Defined.
#[global] Instance CMutableTransaction_eq_dec : EqDecision CMutableTransaction.
Proof. solve_decision. Defined.
#[global] Instance COutPoint_countable : Countable COutPoint.
Proof.
  refine (inj_countable' (fun o => (op_hash o, op_n o)) (fun p => {| op_hash := p.1; op_n := p.2 |}) _).
  by intros [].
Defined.

(** ** Outpoints, inputs and outputs *)

Definition COutPoint_null : COutPoint := {| op_hash := uint256_null; op_n := 0xffffffff |}.
Definition COutPoint_IsNull (o : COutPoint) : bool := uint256_IsNull (op_hash o) && (op_n o =? 0xffffffff).

Definition SEQUENCE_FINAL : Z := 0xffffffff.
Definition SEQUENCE_LOCKTIME_DISABLE_FLAG : Z := 1 .<< 31.
Definition SEQUENCE_LOCKTIME_TYPE_FLAG : Z := 1 .<< 22.
Definition SEQUENCE_LOCKTIME_MASK : Z := 0x0000ffff.
Definition SEQUENCE_LOCKTIME_GRANULARITY : Z := 9.

Definition COutPoint_Serialize (o : COutPoint) : list Z :=
  uint256_Serialize (op_hash o) ++ ser_writedata32 (op_n o).
Definition COutPoint_Unserialize : reader COutPoint := fun s =>
  let! r := uint256_Unserialize s in
  let '(hash, s) := r in
  let! r := ser_readdata32 s in
  let '(n, s) := r in
  Ok ({| op_hash := hash; op_n := n |}, s).
#[global] Instance COutPoint_serializable : Serializable COutPoint :=
  {| Serialize := COutPoint_Serialize; Unserialize := COutPoint_Unserialize |}.

Definition CTxIn_Serialize (i : CTxIn) : list Z :=
  Serialize (prevout i) ++ blob_Serialize (scriptSig i) ++ ser_writedata32 (nSequence i).
Definition CTxIn_Unserialize : reader CTxIn := fun s =>
  let! r := Unserialize s in
  let '(o, s) := r in
  let! r := blob_Unserialize s in
  let '(script, s) := r in
  let! r := ser_readdata32 s in
  let '(n, s) := r in
  Ok ({| prevout := o; scriptSig := script; nSequence := n |}, s).
#[global] Instance CTxIn_serializable : Serializable CTxIn :=
  {| Serialize := CTxIn_Serialize; Unserialize := CTxIn_Unserialize |}.

Definition CTxOut_null : CTxOut := {| nValue := -1; scriptPubKey := []; nRounds := -10 |}.
Definition CTxOut_IsNull (o : CTxOut) : bool := nValue o =? -1.

(** [nRounds] is not serialized: an output read from a stream keeps the -10 of
    the default constructor. *)
Definition CTxOut_Serialize (o : CTxOut) : list Z :=
  ser_int64 (nValue o) ++ blob_Serialize (scriptPubKey o).
Definition CTxOut_Unserialize : reader CTxOut := fun s =>
  let! r := unser_int64 s in
  let '(v, s) := r in
  let! r := blob_Unserialize s in
  let '(script, s) := r in
  Ok ({| nValue := v; scriptPubKey := script; nRounds := nRounds CTxOut_null |}, s).
#[global] Instance CTxOut_serializable : Serializable CTxOut :=
  {| Serialize := CTxOut_Serialize; Unserialize := CTxOut_Unserialize |}.

(** [minRelayTxFee] is the [nSatoshisPerK] of the fee rate; [3 * fee] is an
    [int64_t] product. *)
Definition GetDustThreshold (o : CTxOut) (minRelayTxFee : Z) : option Z :=
  if IsUnspendable (scriptPubKey o) then Some 0
  else
    let nSize := u64 (GetSerializeSize o + 148) in
    option_map (fun fee => i64 (3 * fee)) (GetFee minRelayTxFee nSize).
Definition IsDust (o : CTxOut) (minRelayTxFee : Z) : option bool :=
  option_map (fun t => nValue o <? t) (GetDustThreshold o minRelayTxFee).

(** ** Transactions *)

Definition TRANSACTION_NORMAL : Z := 0.
Definition TRANSACTION_PROVIDER_REGISTER : Z := 1.
Definition TRANSACTION_PROVIDER_UPDATE_SERVICE : Z := 2.
Definition TRANSACTION_PROVIDER_UPDATE_REGISTRAR : Z := 3.
Definition TRANSACTION_PROVIDER_UPDATE_REVOKE : Z := 4.
Definition TRANSACTION_COINBASE : Z := 5.
Definition TRANSACTION_QUORUM_COMMITMENT : Z := 6.

Definition CURRENT_VERSION : Z := 2.

(** The two 16-bit fields travel in one [int32_t]; both are promoted to [int]
    first, the version with its sign. *)
Definition n32bitVersion (tx : CMutableTransaction) : Z := i32 (nVersion tx .| (nType tx .<< 16)).

Definition has_payload (nVersion nType : Z) : bool :=
  (nVersion =? 3) && negb (nType =? TRANSACTION_NORMAL).

(** [sizeof(CTxIn)] and [sizeof(CTxOut)] decide the blocks vectors are read in. *)
Definition sizeof_CTxIn : Z := 72.
Definition sizeof_CTxOut : Z := 48.

Definition CMutableTransaction_Serialize (tx : CMutableTransaction) : list Z :=
  ser_int32 (n32bitVersion tx) ++
  vector_Serialize (vin tx) ++
  vector_Serialize (vout tx) ++
  ser_writedata32 (nLockTime tx) ++
  (if has_payload (nVersion tx) (nType tx) then blob_Serialize (vExtraPayload tx) else []).

Definition CMutableTransaction_Unserialize : reader CMutableTransaction := fun s =>
  let! r := unser_int32 s in
  let '(n32, s) := r in
  let version := i16 (n32 .& 0xffff) in
  let type := i16 ((n32 .>> 16) .& 0xffff) in
  let! r := vector_Unserialize sizeof_CTxIn s in
  let '(ins, s) := r in
  let! r := vector_Unserialize sizeof_CTxOut s in
  let '(outs, s) := r in
  let! r := ser_readdata32 s in
  let '(locktime, s) := r in
  let! r := if has_payload version type then blob_Unserialize s else Ok ([], s) in
  let '(payload, s) := r in
  Ok ({| nVersion := version; nType := type; vin := ins; vout := outs; nLockTime := locktime;
         vExtraPayload := payload |}, s).

#[global] Instance CMutableTransaction_serializable : Serializable CMutableTransaction :=
  {| Serialize := CMutableTransaction_Serialize; Unserialize := CMutableTransaction_Unserialize |}.

(** [CTransaction::Serialize], of the constant fields. *)
Definition CTransaction_Serialize (tx : CTransaction) : list Z :=
  let f := tx_data tx in
  ser_int32 (i32 (nVersion f .| (nType f .<< 16))) ++
  vector_Serialize (vin f) ++
  vector_Serialize (vout f) ++
  ser_writedata32 (nLockTime f) ++
  (if has_payload (nVersion f) (nType f) then blob_Serialize (vExtraPayload f) else []).

(** [SerializeHash]: the writes of a serialization arrive one by one at the
    hasher; [Hash.composed_hashes] shows that only their concatenation matters. *)
Definition SerializeHash {T} `{Serializable T} (obj : T) : list Z := CHashWriter_GetHash [Serialize obj].

(** [CTransaction(const CMutableTransaction &tx)]; the hash is [ComputeHash()]. *)
Definition CTransaction_of (tx : CMutableTransaction) : CTransaction :=
  let t := {| tx_data := tx; tx_hash := uint256_null |} in
  {| tx_data := tx; tx_hash := CHashWriter_GetHash [CTransaction_Serialize t] |}.

(** The deserializing constructor. *)
Definition CTransaction_Unserialize : reader CTransaction := fun s =>
  let! r := CMutableTransaction_Unserialize s in
  Ok (CTransaction_of (fst r), snd r).
#[global] Instance CTransaction_serializable : Serializable CTransaction :=
  {| Serialize := CTransaction_Serialize; Unserialize := CTransaction_Unserialize |}.

Definition tx_IsNull (tx : CMutableTransaction) : bool :=
  bool_decide (vin tx = []) && bool_decide (vout tx = []).

Definition IsCoinBase (tx : CMutableTransaction) : bool :=
  match vin tx with
  | [i] => COutPoint_IsNull (prevout i)
  | _ => false
  end.

(** [None] is the exception "value out of range". *)
Fixpoint value_out_loop (nValueOut : Z) (outs : list CTxOut) : option Z :=
  match outs with
  | [] => Some nValueOut
  | o :: outs =>
      let nValueOut := i64 (nValueOut + nValue o) in
      if negb (MoneyRange (nValue o)) || negb (MoneyRange nValueOut) then None
      else value_out_loop nValueOut outs
  end.
Definition GetValueOut (tx : CMutableTransaction) : option Z := value_out_loop 0 (vout tx).

(** [unsigned int] arithmetic. *)
Definition CalculateModifiedSize (tx : CMutableTransaction) (nTxSize : Z) : Z :=
  let nTxSize := if nTxSize =? 0 then u32 (GetSerializeSize tx) else nTxSize in
  fold_left
    (fun nTxSize i =>
       let offset := u32 (41 + Z.min 110 (u32 (Z.of_nat (length (scriptSig i))))) in
       if offset <? nTxSize then u32 (nTxSize - offset) else nTxSize)
    (vin tx) nTxSize.

Definition GetTotalSize (tx : CMutableTransaction) : Z := u32 (GetSerializeSize tx).

(** ** Integers of the stream *)

Lemma read_int32 x r : is_s 32 x -> unser_int32 (ser_int32 x ++ r) = Ok (x, r).
Proof.
  intros Hx. unfold unser_int32, ser_int32. rewrite read32_write by apply u32_range.
  cbn [rbind fst snd]. by rewrite i32_u32.
Qed.
Lemma read_int64 x r : is_s 64 x -> unser_int64 (ser_int64 x ++ r) = Ok (x, r).
Proof.
  intros Hx. unfold unser_int64, ser_int64. rewrite read64_write by apply u64_range.
  cbn [rbind fst snd]. by rewrite i64_u64.
Qed.

Lemma read_int32_inv s x r :
  bytes_ok s -> unser_int32 s = Ok (x, r) -> s = ser_int32 x ++ r /\ is_s 32 x /\ bytes_ok r.
Proof.
  intros Hs. unfold unser_int32, ser_int32. destruct (ser_readdata32 s) as [[y q]|] eqn:E; [|done].
  apply read32_inv in E as (-> & Hy & Hq); [|done]. cbn [rbind fst snd]. intros [= <- <-].
  rewrite u32_i32, u32_id by done. split; [done|]. split; [|done]. apply wraps_range. lia.
Qed.
Lemma read_int64_inv s x r :
  bytes_ok s -> unser_int64 s = Ok (x, r) -> s = ser_int64 x ++ r /\ is_s 64 x /\ bytes_ok r.
Proof.
  intros Hs. unfold unser_int64, ser_int64. destruct (ser_readdata64 s) as [[y q]|] eqn:E; [|done].
  apply read64_inv in E as (-> & Hy & Hq); [|done]. cbn [rbind fst snd]. intros [= <- <-].
  rewrite u64_i64, u64_id by done. split; [done|]. split; [|done]. apply wraps_range. lia.
Qed.

(** Consumes the first read of a decoder known to succeed, with the inversion
    lemma of that reader. *)
Ltac read_with lem :=
  match goal with
  | |- (let! r := ?m in _) = Ok _ -> _ =>
      let E := fresh "E" in
      destruct m as [[? ?]|] eqn:E; [|done]; cbn [rbind fst snd];
      apply lem in E as (-> & ? & ?); [|done]
  end.

Definition uint256_ok (h : list Z) : Prop := length h = 32%nat /\ bytes_ok h.

Lemma uint256_inv s h r : bytes_ok s -> uint256_Unserialize s = Ok (h, r) ->
  s = uint256_Serialize h ++ r /\ uint256_ok h /\ bytes_ok r.
Proof.
  intros Hs E. apply read_bytes_inv in E as [-> Hl]. apply Forall_app in Hs as [Hh Hr]. done.
Qed.

(** ** Outpoints, inputs and outputs read back *)

Definition COutPoint_ok (o : COutPoint) : Prop := uint256_ok (op_hash o) /\ is_u 32 (op_n o).
#[global] Program Instance COutPoint_RoundTrip : RoundTrip COutPoint := {| serializable := COutPoint_ok |}.
Next Obligation.
  intros [h n] rest [[Hl Hh] Hn]. change (COutPoint_Unserialize (COutPoint_Serialize {| op_hash := h; op_n := n |} ++ rest) = Ok ({| op_hash := h; op_n := n |}, rest)).
  unfold COutPoint_Unserialize, COutPoint_Serialize, uint256_Unserialize, uint256_Serialize. cbn [op_n op_hash].
  rewrite <- app_assoc, read_bytes_app by done. cbn [rbind]. by rewrite read32_write.
Qed.
#[global] Program Instance COutPoint_Canonical : Canonical COutPoint.
Next Obligation.
  intros s x rest Hs. change (Unserialize (T:=COutPoint)) with COutPoint_Unserialize. unfold COutPoint_Unserialize.
  read_with uint256_inv. read_with read32_inv. intros [= <- <-].
  change (Serialize (T:=COutPoint)) with COutPoint_Serialize. unfold COutPoint_Serialize. cbn [op_hash op_n].
  rewrite <- app_assoc. done.
Qed.

Definition CTxIn_ok (i : CTxIn) : Prop :=
  COutPoint_ok (prevout i) /\ blob_ok (scriptSig i) /\ is_u 32 (nSequence i).
#[global] Program Instance CTxIn_RoundTrip : RoundTrip CTxIn := {| serializable := CTxIn_ok |}.
Next Obligation.
  intros [o sc n] rest (Ho & Hs & Hn). change (Unserialize (T:=CTxIn)) with CTxIn_Unserialize.
  change (Serialize (T:=CTxIn)) with CTxIn_Serialize. unfold CTxIn_Unserialize, CTxIn_Serialize. rewrite <- !app_assoc.
  cbn [prevout scriptSig nSequence].
  rewrite Unserialize_Serialize by done. cbn [rbind]. rewrite blob_roundtrip by done. cbn [rbind].
  by rewrite read32_write.
Qed.
#[global] Program Instance CTxIn_Canonical : Canonical CTxIn.
Next Obligation.
  intros s x rest Hs. change (Unserialize (T:=CTxIn)) with CTxIn_Unserialize. unfold CTxIn_Unserialize.
  read_with (Unserialize_inv (T:=COutPoint)). read_with blob_inv. read_with read32_inv. intros [= <- <-].
  change (Serialize (T:=CTxIn)) with CTxIn_Serialize. unfold CTxIn_Serialize. cbn [prevout scriptSig nSequence].
  rewrite <- !app_assoc. done.
Qed.

Definition CTxOut_ok (o : CTxOut) : Prop :=
  is_s 64 (nValue o) /\ blob_ok (scriptPubKey o) /\ nRounds o = -10.
#[global] Program Instance CTxOut_RoundTrip : RoundTrip CTxOut := {| serializable := CTxOut_ok |}.
Next Obligation.
  intros [v sc n] rest (Hv & Hs & Hn). cbn in Hn. subst n. change (Unserialize (T:=CTxOut)) with CTxOut_Unserialize.
  change (Serialize (T:=CTxOut)) with CTxOut_Serialize. unfold CTxOut_Unserialize, CTxOut_Serialize. rewrite <- !app_assoc.
  cbn [nValue scriptPubKey]. rewrite read_int64 by done. cbn [rbind]. by rewrite blob_roundtrip.
Qed.
#[global] Program Instance CTxOut_Canonical : Canonical CTxOut.
Next Obligation.
  intros s x rest Hs. change (Unserialize (T:=CTxOut)) with CTxOut_Unserialize. unfold CTxOut_Unserialize.
  read_with read_int64_inv. read_with blob_inv. intros [= <- <-].
  change (Serialize (T:=CTxOut)) with CTxOut_Serialize. unfold CTxOut_Serialize. cbn [nValue scriptPubKey].
  rewrite <- !app_assoc. done.
Qed.

(** ** The packed version and type *)

Lemma pack_nonneg v t : 0 <= v < 2 ^ 15 -> is_s 16 t -> v .| (t .<< 16) = v + t * 2 ^ 16.
Proof. intros Hv Ht. apply lor_disjoint_add; lia. Qed.

(** The sign bits of a negative version cover the type. *)
Lemma pack_negative v t : - 2 ^ 15 <= v < 0 -> v .| (t .<< 16) = v.
Proof.
  intros Hv. apply Z.bits_inj'. intros i Hi. rewrite Z.lor_spec.
  destruct (Z_lt_ge_dec i 16) as [Hlt|Hge].
  - by rewrite Z.shiftl_spec_low, orb_false_r by lia.
  - assert (Z.testbit v i = true) as ->; [|done]. rewrite <- (Z.lnot_involutive v), Z.lnot_spec by lia.
    rewrite (bits_is_u 16 (Z.lnot v)) by (unfold is_u, Z.lnot; lia). done.
Qed.

Lemma unpack_version n : is_s 32 n -> i16 (n .& 0xffff) = i16 n /\ i16 ((n .>> 16) .& 0xffff) = n / 2 ^ 16.
Proof.
  intros Hn. change 0xffff with (2 ^ 16 - 1). rewrite !land_mask, shiftr_div by lia.
  split; [by apply wraps_wrapu|]. change ((n / 2 ^ 16) mod 2 ^ 16) with (wrapu 16 (n / 2 ^ 16)).
  unfold i16. rewrite wraps_wrapu by lia. apply wraps_id; unfold is_s in *; [lia|].
  change (2 ^ (32 - 1)) with (2 ^ 15 * 2 ^ 16) in Hn. change (2 ^ (16 - 1)) with (2 ^ 15).
  split; [apply Z.div_le_lower_bound|apply Z.div_lt_upper_bound]; lia.
Qed.

Lemma i16_small v : - 2 ^ 15 <= v < 2 ^ 15 -> i16 v = v.
Proof. intros. by apply wraps_id. Qed.

Lemma i16_range x : is_s 16 (i16 x).
Proof. by apply wraps_range. Qed.

Lemma pack_unpack n : is_s 32 n -> 0 <= i16 n -> i32 (i16 n .| ((n / 2 ^ 16) .<< 16)) = n.
Proof.
  intros Hn Hv. pose proof (i16_range n) as Hr. unfold is_s in Hr, Hn.
  rewrite pack_nonneg; unfold is_s; [|lia|dlia].
  assert (i16 n = n mod 2 ^ 16) as ->.
  { unfold i16, wraps in *. change (16 - 1) with 15 in *. dlia. }
  unfold i32. rewrite wraps_id by (unfold is_s; dlia). dlia.
Qed.

(** ** Transactions read back *)

(** A transaction as the node can hold it: 16-bit fields, vectors within the
    size limit, a payload only where the format has one. *)
Record tx_ok (tx : CMutableTransaction) : Prop := {
  ok_version : is_s 16 (nVersion tx);
  ok_type : is_s 16 (nType tx);
  ok_vin : vector_ok (vin tx);
  ok_vout : vector_ok (vout tx);
  ok_locktime : is_u 32 (nLockTime tx);
  ok_payload : if has_payload (nVersion tx) (nType tx) then blob_ok (vExtraPayload tx) else vExtraPayload tx = [];
}.

Lemma vin_inv s v r : bytes_ok s -> vector_Unserialize (T:=CTxIn) sizeof_CTxIn s = Ok (v, r) ->
  s = vector_Serialize v ++ r /\ vector_ok v /\ bytes_ok r.
Proof. apply vector_inv; [done|apply _]. Qed.
Lemma vout_inv s v r : bytes_ok s -> vector_Unserialize (T:=CTxOut) sizeof_CTxOut s = Ok (v, r) ->
  s = vector_Serialize v ++ r /\ vector_ok v /\ bytes_ok r.
Proof. apply vector_inv; [done|apply _]. Qed.

Lemma vin_roundtrip (v : list CTxIn) r : vector_ok v -> vector_Unserialize sizeof_CTxIn (vector_Serialize v ++ r) = Ok (v, r).
Proof. apply vector_roundtrip. done. Qed.
Lemma vout_roundtrip (v : list CTxOut) r : vector_ok v -> vector_Unserialize sizeof_CTxOut (vector_Serialize v ++ r) = Ok (v, r).
Proof. apply vector_roundtrip. done. Qed.

Lemma tx_read_back tx rest : tx_ok tx -> 0 <= nVersion tx ->
  CMutableTransaction_Unserialize (CMutableTransaction_Serialize tx ++ rest) = Ok (tx, rest).
Proof.
  intros [Hv Ht Hi Ho Hl Hp] H0. destruct tx as [v t ins outs lt pl].
  cbn [nVersion nType vin vout nLockTime vExtraPayload] in *. unfold is_s in Hv, Ht.
  unfold CMutableTransaction_Unserialize, CMutableTransaction_Serialize, n32bitVersion.
  cbn [nVersion nType vin vout nLockTime vExtraPayload].
  rewrite pack_nonneg by (unfold is_s; lia). unfold i32 at 1. rewrite wraps_id by (unfold is_s; lia).
  assert (is_s 32 (v + t * 2 ^ 16)) as Hn by (unfold is_s; lia).
  rewrite <- !app_assoc, read_int32 by done. cbn [rbind].
  destruct (unpack_version _ Hn) as [-> ->].
  assert ((v + t * 2 ^ 16) / 2 ^ 16 = t) as -> by dlia.
  assert (i16 (v + t * 2 ^ 16) = v) as ->.
  { rewrite <- (i16_small v) at 2 by lia. unfold i16, wraps. f_equal.
    rewrite <- (Z.mod_add (v + 2 ^ (16 - 1)) t (2 ^ 16)) by lia. f_equal. lia. }
  rewrite vin_roundtrip by done. cbn [rbind]. rewrite vout_roundtrip by done. cbn [rbind].
  rewrite read32_write by done. cbn [rbind].
  destruct (has_payload v t); [by rewrite blob_roundtrip|by subst pl].
Qed.

Lemma tx_read_inv s tx r : bytes_ok s -> CMutableTransaction_Unserialize s = Ok (tx, r) ->
  tx_ok tx /\ bytes_ok r /\ (0 <= nVersion tx -> s = CMutableTransaction_Serialize tx ++ r).
Proof.
  intros Hs. unfold CMutableTransaction_Unserialize. read_with read_int32_inv.
  destruct (unpack_version z) as [-> ->]; [done|].
  read_with vin_inv. read_with vout_inv.
  read_with read32_inv. unfold CMutableTransaction_Serialize.
  assert (forall p, (if has_payload (i16 z) (z / 2 ^ 16) then blob_ok p else p = []) ->
    tx_ok {| nVersion := i16 z; nType := z / 2 ^ 16; vin := l0; vout := l; nLockTime := z0; vExtraPayload := p |}) as Hok.
  { intros p Hp. split; try done; [apply i16_range|]. cbn [nType]. unfold is_s in *. dlia. }
  assert (forall p q, l1 = (if has_payload (i16 z) (z / 2 ^ 16) then blob_Serialize p else []) ++ q ->
    let tx := {| nVersion := i16 z; nType := z / 2 ^ 16; vin := l0; vout := l; nLockTime := z0; vExtraPayload := p |} in
    0 <= nVersion tx -> ser_int32 z ++ vector_Serialize l0 ++ vector_Serialize l ++ ser_writedata32 z0 ++ l1 =
      CMutableTransaction_Serialize tx ++ q) as Hser.
  { intros p q -> tx' H0'. unfold CMutableTransaction_Serialize, n32bitVersion. subst tx'.
    cbn [nVersion nType vin vout nLockTime vExtraPayload] in *. rewrite pack_unpack by done. by rewrite <- !app_assoc. }
  destruct (has_payload (i16 z) (z / 2 ^ 16)) eqn:Ep.
  - read_with blob_inv. intros [= <- <-]. split; [by apply Hok|]. split; [done|]. by apply Hser.
  - cbn [rbind]. intros [= <- <-]. split; [by apply Hok|]. split; [done|]. by apply Hser.
Qed.

(** ** Amounts out *)

Lemma MAX_MONEY_small : MAX_MONEY < 2 ^ 62.
Proof. done. Qed.

Definition total_out (outs : list CTxOut) : Z := fold_right (fun o => Z.add (nValue o)) 0 outs.

Lemma MoneyRange_spec v : MoneyRange v = true <-> 0 <= v <= MAX_MONEY.
Proof. unfold MoneyRange. rewrite andb_true_iff, Z.leb_le, Z.leb_le. done. Qed.

Lemma value_out_loop_spec outs acc v :
  Forall (fun o => is_s 64 (nValue o)) outs -> 0 <= acc <= MAX_MONEY ->
  value_out_loop acc outs = Some v <->
  Forall (fun o => 0 <= nValue o <= MAX_MONEY) outs /\ acc + total_out outs <= MAX_MONEY /\ v = acc + total_out outs.
Proof.
  intros Hs. revert acc. induction Hs as [|o outs Ho Hs IH]; intros acc Ha; cbn [value_out_loop total_out fold_right].
  - split; [intros [= <-]; split_and!; [constructor|lia..]|]. intros (_ & _ & ->). f_equal. lia.
  - rewrite Forall_cons_iff. destruct (MoneyRange (nValue o)) eqn:Ev; cbn [negb orb].
    2: { split; [done|]. intros [[Hv _] _]. apply MoneyRange_spec in Hv. congruence. }
    apply MoneyRange_spec in Ev. pose proof MAX_MONEY_small.
    assert (i64 (acc + nValue o) = acc + nValue o) as ->.
    { apply wraps_id; [lia|]. unfold is_s. change (2 ^ (64 - 1)) with (2 * 2 ^ 62). lia. }
    assert (Forall (fun o => 0 <= nValue o <= MAX_MONEY) outs -> 0 <= total_out outs) as Hpos.
    { clear. induction 1; cbn [total_out fold_right]; [lia|]. unfold total_out in *. lia. }
    destruct (MoneyRange (acc + nValue o)) eqn:Ea; cbn [negb].
    + apply MoneyRange_spec in Ea. rewrite IH by done. fold (total_out outs). intuition lia.
    + split; [done|]. fold (total_out outs). intros (Hf & Hle & _).
      assert (MoneyRange (acc + nValue o) = true); [|congruence]. apply MoneyRange_spec. destruct Hf as [? Hf].
      specialize (Hpos Hf). lia.
Qed.

Lemma modified_size_loop ins n : 0 < n < 2 ^ 32 ->
  0 < fold_left
    (fun nTxSize i =>
       let offset := u32 (41 + Z.min 110 (u32 (Z.of_nat (length (scriptSig i))))) in
       if offset <? nTxSize then u32 (nTxSize - offset) else nTxSize) ins n <= n.
Proof.
  revert n. induction ins as [|i ins IH]; intros n Hn; cbn [fold_left]; [lia|].
  pose proof (u32_range (Z.of_nat (length (scriptSig i)))) as Hr. unfold is_u in Hr.
  set (len := u32 (Z.of_nat (length (scriptSig i)))) in *. clearbody len. set (off := u32 (41 + _)).
  assert (41 <= off <= 151) as Hoff.
  { subst off. rewrite u32_id; clear -Hr; [lia|unfold is_u; lia]. }
  cbv zeta. destruct (Z.ltb_spec off n) as [Hlt|Hge]; [|by apply IH].
  clearbody off. rewrite u32_id by (clear IH; unfold is_u; lia). destruct (IH (n - off) ltac:(lia)) as [H1 H2].
  split; [exact H1|]. etransitivity; [exact H2|lia].
Qed.

Definition with_type (tx : CMutableTransaction) (t : Z) : CMutableTransaction :=
  {| nVersion := nVersion tx; nType := t; vin := vin tx; vout := vout tx; nLockTime := nLockTime tx;
     vExtraPayload := vExtraPayload tx |}.

(** C40: Transactions survive the wire, and their identity is the hash of the bytes.
    A transaction whose version is not negative reads back as itself from its
    serialization, whatever follows; whatever decodes is well-formed, and if its
    version is not negative it is exactly what serializing it gives, so the hash
    [CTransaction] caches is the double SHA-256 of the bytes consumed.  A negative
    version (bit 15 of the wire format) is where this stops: its sign bits cover
    the type, so that all types serialize alike. *)
Theorem transaction_roundtrip (tx : CMutableTransaction) (rest stream : list Z) :
  tx_ok tx -> bytes_ok stream ->
  (0 <= nVersion tx ->
     CMutableTransaction_Unserialize (CMutableTransaction_Serialize tx ++ rest) = Ok (tx, rest)) /\
  (forall t r, CTransaction_Unserialize stream = Ok (t, r) ->
     tx_ok (tx_data t) /\
     (0 <= nVersion (tx_data t) ->
        exists used, stream = used ++ r /\ used = CMutableTransaction_Serialize (tx_data t) /\
          tx_hash t = Hash [used])) /\
  (nVersion tx < 0 -> forall t',
     CMutableTransaction_Serialize (with_type tx t') = CMutableTransaction_Serialize tx /\
     tx_hash (CTransaction_of (with_type tx t')) = tx_hash (CTransaction_of tx)).
Proof.
  intros Ht Hs. split; [by apply tx_read_back|]. split.
  - intros t r. unfold CTransaction_Unserialize.
    destruct (CMutableTransaction_Unserialize stream) as [[f q]|] eqn:E; [|done]. cbn [rbind fst snd].
    apply tx_read_inv in E as (Hok & _ & Hser); [|done]. intros [= <- <-].
    split; [done|]. intros H0. eexists. split; [by apply Hser|]. done.
  - intros Hneg t'. pose proof (ok_version _ Ht) as Hv. unfold is_s in Hv.
    assert (CMutableTransaction_Serialize (with_type tx t') = CMutableTransaction_Serialize tx) as E.
    { unfold CMutableTransaction_Serialize, n32bitVersion, has_payload, with_type.
      cbn [nVersion nType vin vout nLockTime vExtraPayload].
      rewrite !pack_negative by lia. by rewrite (proj2 (Z.eqb_neq (nVersion tx) 3)) by lia. }
    split; [done|]. unfold CTransaction_of. cbn [tx_hash].
    assert (forall f, CTransaction_Serialize {| tx_data := f; tx_hash := uint256_null |} =
      CMutableTransaction_Serialize f) as Hf by done.
    by rewrite !Hf, E.
Qed.

Definition sample_tx (version : Z) : CMutableTransaction :=
  {| nVersion := version; nType := 0;
     vin := [{| prevout := {| op_hash := replicate 32 7; op_n := 1 |}; scriptSig := [0x51; 0x52]; nSequence := 5 |}];
     vout := [{| nValue := 1000; scriptPubKey := [0x53]; nRounds := -10 |}];
     nLockTime := 17; vExtraPayload := [] |}.

Lemma sample_tx_ok version : is_s 16 version -> tx_ok (sample_tx version).
Proof.
  intros Hv. unfold sample_tx. split; cbn [nVersion nType vin vout nLockTime vExtraPayload];
    try done; try (unfold is_s, is_u; lia).
  - split; [done|]. repeat constructor; cbn; try done; unfold is_u; lia.
  - split; [done|]. repeat constructor; cbn; try done; unfold is_u; lia.
  - unfold has_payload. by rewrite andb_false_r.
Qed.

(** The two byte strings of the finding: they differ in the type field, both
    decode, and both get the same identity. *)
Definition negative_wire (t : Z) : list Z :=
  [0x00; 0x80] ++ WriteLE16 t ++ drop 4 (CMutableTransaction_Serialize (sample_tx 1)).

Lemma transaction_roundtrip_witness :
  CMutableTransaction_Unserialize (CMutableTransaction_Serialize (sample_tx 2) ++ [9]) = Ok (sample_tx 2, [9]) /\
  (exists a b, CMutableTransaction_Unserialize (negative_wire 0) = Ok (a, []) /\
     CMutableTransaction_Unserialize (negative_wire 0xffff) = Ok (b, []) /\
     nType a <> nType b /\ tx_hash (CTransaction_of b) = tx_hash (CTransaction_of a)).
Proof.
  split.
  - refine (proj1 (transaction_roundtrip (sample_tx 2) [9] [] _ _) _); [apply sample_tx_ok; done|constructor|done].
  - exists (sample_tx (-32768)), (with_type (sample_tx (-32768)) (-1)).
    split; [vm_compute; reflexivity|]. split; [vm_compute; reflexivity|]. split; [done|].
    refine (proj2 (proj2 (proj2 (transaction_roundtrip (sample_tx (-32768)) [] [] _ _)) _ (-1)));
      [apply sample_tx_ok; done|constructor|done].
Defined.

(** The totals of a transaction.  [GetValueOut] returns the exact sum of the
    outputs when every output and the sum are within [MAX_MONEY], and throws
    otherwise, the 64-bit accumulator never being trusted after an overflow;
    [CalculateModifiedSize] subtracts without ever reaching zero or going below it. *)
Theorem transaction_totals (tx : CMutableTransaction) (v nTxSize : Z) :
  Forall (fun o => is_s 64 (nValue o)) (vout tx) -> 0 < nTxSize < 2 ^ 32 ->
  (GetValueOut tx = Some v <->
     Forall (fun o => 0 <= nValue o <= MAX_MONEY) (vout tx) /\ total_out (vout tx) <= MAX_MONEY /\ v = total_out (vout tx)) /\
  0 < CalculateModifiedSize tx nTxSize <= nTxSize.
Proof.
  intros Hf Hn. split.
  - unfold GetValueOut. by rewrite value_out_loop_spec by (done || (vm_compute; done)).
  - unfold CalculateModifiedSize. rewrite (proj2 (Z.eqb_neq _ _)) by lia. by apply modified_size_loop.
Qed.

Lemma transaction_totals_witness :
  GetValueOut (sample_tx 2) = Some 1000 /\ 0 < CalculateModifiedSize (sample_tx 2) 60 <= 60 /\
  GetValueOut {| nVersion := 2; nType := 0; vin := []; vout := [{| nValue := MAX_MONEY; scriptPubKey := []; nRounds := 0 |};
    {| nValue := 1; scriptPubKey := []; nRounds := 0 |}]; nLockTime := 0; vExtraPayload := [] |} = None.
Proof.
  assert (Forall (fun o => is_s 64 (nValue o)) (vout (sample_tx 2))) as H by (repeat constructor; done).
  destruct (transaction_totals (sample_tx 2) 1000 60 H ltac:(lia)) as [H1 H2].
  split; [|split; [exact H2|reflexivity]]. apply H1. split; [|done]. repeat constructor; vm_compute; done.
Defined.
