(* ===== verification/Block.v ===== *)
(** * Blocks and block locators (src/src/primitives/block.h, src/src/primitives/block.cpp)

    Headers, blocks and locators as they travel and are stored, the identity of a
    block and the choice of its proof-of-work hash.  The four algorithms other than
    double SHA-256 are vendored code, hence parameters. *)

From S2P Require Import Prelude Bytes Serialize Containers ArithUint256 Compact Hash Transaction.
From S2P Require Pow.
Local Open Scope cxx_scope.

(** ** Vectors of 256-bit hashes *)

Record uint256 : Type := { u256_data : list Z }.

#[global] Instance uint256_eq_dec : EqDecision uint256.
Proof. solve_decision. Defined.

#[global] Instance uint256_serializable : Serializable uint256 :=
  {| Serialize h := uint256_Serialize (u256_data h);
     Unserialize := fun s => let! r := uint256_Unserialize s in Ok ({| u256_data := fst r |}, snd r) |}.
#[global] Program Instance uint256_RoundTrip : RoundTrip uint256 :=
  {| serializable h := uint256_ok (u256_data h) |}.
Next Obligation.
  intros [h] rest [Hl Hh]. cbn [Unserialize Serialize uint256_serializable u256_data] in *.
  unfold uint256_Unserialize, uint256_Serialize. by rewrite read_bytes_app.
Qed.
#[global] Program Instance uint256_Canonical : Canonical uint256.
Next Obligation.
  intros s x rest Hs. cbn [Unserialize Serialize uint256_serializable].
  read_with uint256_inv. by intros [= <- <-].
Qed.

Definition sizeof_uint256 : Z := 32.

(** ** Headers *)

Record CBlockHeader : Type := {
  bh_nVersion : Z;
  hashPrevBlock : list Z;
  hashMerkleRoot : list Z;
  nTime : Z;
  nBits : Z;
  nNonce : Z;
}.

#[global] Instance CBlockHeader_eq_dec : EqDecision CBlockHeader.
Proof. solve_decision. Defined.

Definition CBlockHeader_null : CBlockHeader :=
  {| bh_nVersion := 0; hashPrevBlock := uint256_null; hashMerkleRoot := uint256_null; nTime := 0; nBits := 0; nNonce := 0 |}.
Definition CBlockHeader_IsNull (h : CBlockHeader) : bool := nBits h =? 0.
Definition GetBlockTime (h : CBlockHeader) : Z := i64 (nTime h).

Definition CBlockHeader_Serialize (h : CBlockHeader) : list Z :=
  ser_int32 (bh_nVersion h) ++ uint256_Serialize (hashPrevBlock h) ++ uint256_Serialize (hashMerkleRoot h) ++
  ser_writedata32 (nTime h) ++ ser_writedata32 (nBits h) ++ ser_writedata32 (nNonce h).
Definition CBlockHeader_Unserialize : reader CBlockHeader := fun s =>
  let! r := unser_int32 s in
  let '(version, s) := r in
  let! r := uint256_Unserialize s in
  let '(prev, s) := r in
  let! r := uint256_Unserialize s in
  let '(merkle, s) := r in
  let! r := ser_readdata32 s in
  let '(time, s) := r in
  let! r := ser_readdata32 s in
  let '(bits, s) := r in
  let! r := ser_readdata32 s in
  let '(nonce, s) := r in
  Ok ({| bh_nVersion := version; hashPrevBlock := prev; hashMerkleRoot := merkle; nTime := time; nBits := bits;
         nNonce := nonce |}, s).
#[global] Instance CBlockHeader_serializable : Serializable CBlockHeader :=
  {| Serialize := CBlockHeader_Serialize; Unserialize := CBlockHeader_Unserialize |}.

Definition GetHash (h : CBlockHeader) : list Z := SerializeHash h.

Section ProofOfWorkHash.
(** The vendored hash functions, of the 80 bytes of the header in memory. *)
Context (scrypt_1024_1_1_256 HashX11 yespower_hash LYRA2 : list Z -> list Z).

Definition GetPoWAlgoHash (h : CBlockHeader) : list Z :=
  let data := CBlockHeader_Serialize h in
  let algo := Pow.GetAlgo (bh_nVersion h) in
  if algo =? Pow.ALGO_SHA256D then GetHash h
  else if algo =? Pow.ALGO_SCRYPT then scrypt_1024_1_1_256 data
  else if algo =? Pow.ALGO_X11 then HashX11 data
  else if algo =? Pow.ALGO_YESPOWER then yespower_hash data
  else if algo =? Pow.ALGO_LYRA2 then LYRA2 data
  else if algo =? Pow.ALGO_UNKNOWN then arith_uint256.ArithToUint256 (base_uint.op_compl (base_uint.of_u64 8 0))
  else GetHash h.

End ProofOfWorkHash.

(** ** Blocks *)

Record CBlock : Type := { bl_header : CBlockHeader; vtx : list CTransaction }.

(** The elements of [vtx] are shared pointers. *)
Definition sizeof_CTransactionRef : Z := 16.

Definition CBlock_Serialize (b : CBlock) : list Z :=
  CBlockHeader_Serialize (bl_header b) ++ vector_Serialize (vtx b).
Definition CBlock_Unserialize : reader CBlock := fun s =>
  let! r := CBlockHeader_Unserialize s in
  let '(h, s) := r in
  let! r := vector_Unserialize sizeof_CTransactionRef s in
  let '(txs, s) := r in
  Ok ({| bl_header := h; vtx := txs |}, s).
#[global] Instance CBlock_serializable : Serializable CBlock :=
  {| Serialize := CBlock_Serialize; Unserialize := CBlock_Unserialize |}.

Definition GetBlockHeader (b : CBlock) : CBlockHeader :=
  let h := bl_header b in
  {| bh_nVersion := bh_nVersion h; hashPrevBlock := hashPrevBlock h; hashMerkleRoot := hashMerkleRoot h;
     nTime := nTime h; nBits := nBits h; nNonce := nNonce h |}.

(** ** Locators: the version of the stream is written, and skipped when read *)

Record CBlockLocator : Type := { vHave : list uint256 }.

Definition CBlockLocator_Serialize (nVersion : Z) (get_hash : bool) (l : CBlockLocator) : list Z :=
  (if negb get_hash then ser_int32 nVersion else []) ++ vector_Serialize (vHave l).
Definition CBlockLocator_Unserialize (get_hash : bool) : reader CBlockLocator := fun s =>
  let! r := if negb get_hash then (let! r := unser_int32 s in Ok (snd r)) else Ok s in
  let! r := vector_Unserialize sizeof_uint256 r in
  Ok ({| vHave := fst r |}, snd r).

(** ** Reading back *)

Record header_ok (h : CBlockHeader) : Prop := {
  ok_bversion : is_s 32 (bh_nVersion h);
  ok_prev : uint256_ok (hashPrevBlock h);
  ok_merkle : uint256_ok (hashMerkleRoot h);
  ok_time : is_u 32 (nTime h);
  ok_bits : is_u 32 (nBits h);
  ok_nonce : is_u 32 (nNonce h);
}.

Lemma uint256_read h r : uint256_ok h -> uint256_Unserialize (uint256_Serialize h ++ r) = Ok (h, r).
Proof. intros [Hl Hh]. by apply read_bytes_app. Qed.

#[global] Program Instance CBlockHeader_RoundTrip : RoundTrip CBlockHeader := {| serializable := header_ok |}.
Next Obligation.
  intros [v p m t b n] rest [Hv Hp Hm Ht Hb Hn]. cbn [bh_nVersion hashPrevBlock hashMerkleRoot nTime nBits nNonce] in *.
  change (Unserialize (T:=CBlockHeader)) with CBlockHeader_Unserialize.
  change (Serialize (T:=CBlockHeader)) with CBlockHeader_Serialize.
  unfold CBlockHeader_Unserialize, CBlockHeader_Serialize. rewrite <- !app_assoc.
  cbn [bh_nVersion hashPrevBlock hashMerkleRoot nTime nBits nNonce].
  rewrite read_int32 by done. cbn [rbind]. do 2 (rewrite uint256_read by done; cbn [rbind]).
  do 2 (rewrite read32_write by done; cbn [rbind]). by rewrite read32_write.
Qed.
#[global] Program Instance CBlockHeader_Canonical : Canonical CBlockHeader.
Next Obligation.
  intros s x rest Hs. change (Unserialize (T:=CBlockHeader)) with CBlockHeader_Unserialize.
  change (Serialize (T:=CBlockHeader)) with CBlockHeader_Serialize. unfold CBlockHeader_Unserialize.
  read_with read_int32_inv. do 2 read_with uint256_inv. do 3 read_with read32_inv. intros [= <- <-].
  unfold CBlockHeader_Serialize. rewrite <- !app_assoc. cbn [bh_nVersion hashPrevBlock hashMerkleRoot nTime nBits nNonce].
  split; [done|]. by split.
Qed.

Lemma header_read h rest : header_ok h -> CBlockHeader_Unserialize (CBlockHeader_Serialize h ++ rest) = Ok (h, rest).
Proof. exact (Unserialize_Serialize (T:=CBlockHeader) h rest). Qed.

(** Transactions by reference: the hash is the one the constructor computes. *)
#[global] Program Instance CTransaction_RoundTrip : RoundTrip CTransaction :=
  {| serializable t := tx_ok (tx_data t) /\ 0 <= nVersion (tx_data t) /\ t = CTransaction_of (tx_data t) |}.
Next Obligation.
  intros t rest (Hok & H0 & E). change (Unserialize (T:=CTransaction)) with CTransaction_Unserialize.
  change (Serialize t) with (CMutableTransaction_Serialize (tx_data t)).
  unfold CTransaction_Unserialize. rewrite tx_read_back by done. cbn [rbind fst snd]. by rewrite <- E.
Qed.

Lemma vtx_roundtrip (v : list CTransaction) r :
  vector_ok v -> vector_Unserialize sizeof_CTransactionRef (vector_Serialize v ++ r) = Ok (v, r).
Proof. apply vector_roundtrip. done. Qed.
Lemma vHave_roundtrip (v : list uint256) r :
  vector_ok v -> vector_Unserialize sizeof_uint256 (vector_Serialize v ++ r) = Ok (v, r).
Proof. apply vector_roundtrip. done. Qed.

Definition block_ok (b : CBlock) : Prop := header_ok (bl_header b) /\ vector_ok (vtx b).
#[global] Program Instance CBlock_RoundTrip : RoundTrip CBlock := {| serializable := block_ok |}.
Next Obligation.
  intros [h v] rest [Hh Hv]. change (Unserialize (T:=CBlock)) with CBlock_Unserialize.
  change (Serialize (T:=CBlock)) with CBlock_Serialize. unfold CBlock_Unserialize, CBlock_Serialize.
  rewrite <- app_assoc. cbn [bl_header vtx] in *.
  rewrite header_read by done. cbn [rbind].
  by rewrite vtx_roundtrip.
Qed.

Lemma length_uint256 h : uint256_ok h -> length (uint256_Serialize h) = 32%nat.
Proof. by intros [H _]. Qed.

Lemma header_length h : header_ok h -> length (CBlockHeader_Serialize h) = 80%nat.
Proof.
  intros [Hv Hp Hm _ _ _]. unfold CBlockHeader_Serialize, ser_int32, ser_writedata32, WriteLE32.
  by rewrite !length_app, !length_le_bytes, !length_uint256.
Qed.


(** Eighty bytes are a header. *)
Lemma cut_bytes n l : bytes_ok l -> (n <= length l)%nat ->
  exists a b, l = a ++ b /\ length a = n /\ length b = (length l - n)%nat /\ bytes_ok a /\ bytes_ok b.
Proof.
  intros Hl Hn. exists (take n l), (drop n l). rewrite take_drop, length_take, length_drop.
  split_and!; [done|lia|lia|by apply Forall_take|by apply Forall_drop].
Qed.

Lemma four_bytes l : bytes_ok l -> length l = 4%nat -> exists x, l = ser_writedata32 x /\ is_u 32 x.
Proof.
  intros Hl H4. exists (le_val l). unfold ser_writedata32, WriteLE32.
  pose proof (le_bytes_val l Hl) as E. rewrite H4 in E. split; [by rewrite E|].
  pose proof (le_val_range l Hl) as Hr. rewrite H4 in Hr. exact Hr.
Qed.

Lemma header_bytes bytes (rest : list Z) : bytes_ok bytes -> length bytes = 80%nat ->
  exists h, CBlockHeader_Serialize h = bytes /\ header_ok h.
Proof.
  intros Hb Hl.
  destruct (cut_bytes 4 bytes Hb) as (b1 & r1 & -> & H1 & L1 & B1 & R1); [lia|].
  destruct (cut_bytes 32 r1 R1) as (b2 & r2 & -> & H2 & L2 & B2 & R2); [lia|].
  destruct (cut_bytes 32 r2 R2) as (b3 & r3 & -> & H3 & L3 & B3 & R3); [lia|].
  destruct (cut_bytes 4 r3 R3) as (b4 & r4 & -> & H4 & L4 & B4 & R4); [lia|].
  destruct (cut_bytes 4 r4 R4) as (b5 & r5 & -> & H5 & L5 & B5 & R5); [lia|].
  destruct (four_bytes b1 B1 H1) as (v & -> & Hv). destruct (four_bytes b4 B4 H4) as (t & -> & Ht).
  destruct (four_bytes b5 B5 H5) as (bi & -> & Hbi). destruct (four_bytes r5 R5) as (n & -> & Hn); [lia|].
  exists {| bh_nVersion := i32 v; hashPrevBlock := b2; hashMerkleRoot := b3; nTime := t; nBits := bi; nNonce := n |}.
  split.
  - unfold CBlockHeader_Serialize, ser_int32. cbn [bh_nVersion hashPrevBlock hashMerkleRoot nTime nBits nNonce].
    by rewrite u32_i32, u32_id.
  - split; cbn [bh_nVersion hashPrevBlock hashMerkleRoot nTime nBits nNonce]; try done. apply wraps_range. lia.
Qed.
(** Blocks survive the wire and the disk, and their identity is that of the
    80 bytes of the header.  A header or block whose fields fit their types (and whose
    transactions have versions that are not negative) reads back as itself from
    its serialization, whatever follows; a header takes 80 bytes and every 80
    bytes are a header, so two well-formed headers have the same bytes, hence are hashed alike,
    only if they are equal; and a locator reads back, whatever version is written
    before it. *)
Theorem block_roundtrip (b : CBlock) (h : CBlockHeader) (loc : CBlockLocator) (rest bytes : list Z) (version : Z) (get_hash : bool) :
  block_ok b -> header_ok h -> vector_ok (vHave loc) -> is_s 32 version -> bytes_ok bytes -> length bytes = 80%nat ->
  CBlock_Unserialize (CBlock_Serialize b ++ rest) = Ok (b, rest) /\
  CBlockHeader_Unserialize (CBlockHeader_Serialize h ++ rest) = Ok (h, rest) /\
  length (CBlockHeader_Serialize h) = 80%nat /\
  (exists h', CBlockHeader_Unserialize (bytes ++ rest) = Ok (h', rest) /\ CBlockHeader_Serialize h' = bytes) /\
  (CBlockHeader_Serialize (bl_header b) = CBlockHeader_Serialize h <-> bl_header b = h) /\
  CBlockLocator_Unserialize get_hash (CBlockLocator_Serialize version get_hash loc ++ rest) = Ok (loc, rest).
Proof.
  intros Hb Hh Hloc Hv Hbytes Hlen. split; [exact (Unserialize_Serialize (T:=CBlock) b rest Hb)|].
  split; [by apply header_read|]. split; [by apply header_length|]. split; [|split].
  - destruct (header_bytes bytes rest Hbytes Hlen) as (h' & E & Hh'). exists h'. by rewrite <- E, header_read.
  - split; [|by intros ->]. intros E. destruct Hb as [Hb _]. pose proof (header_read _ [] Hb) as E1.
    rewrite E, header_read in E1 by done. by injection E1 as <-.
  - unfold CBlockLocator_Unserialize, CBlockLocator_Serialize.
    pose proof (vHave_roundtrip (vHave loc) rest Hloc) as E.
    destruct get_hash; cbn [negb app rbind].
    + rewrite E. by destruct loc.
    + rewrite <- app_assoc, read_int32 by done. cbn [rbind snd]. rewrite E. by destruct loc.
Qed.

Definition sample_header : CBlockHeader :=
  {| bh_nVersion := 0x20000400; hashPrevBlock := replicate 32 1; hashMerkleRoot := replicate 32 2; nTime := 1545000000;
     nBits := 0x1e0fffff; nNonce := 7 |}.
Definition sample_block : CBlock := {| bl_header := sample_header; vtx := [CTransaction_of (sample_tx 2)] |}.

Lemma sample_block_ok : block_ok sample_block.
Proof.
  split.
  - split; try (unfold is_s, is_u; cbn; lia); (split; [done|]; repeat constructor; unfold is_u; lia).
  - split; [done|]. constructor; [|constructor]. split; [by apply sample_tx_ok|done].
Qed.

Lemma block_roundtrip_witness :
  CBlock_Unserialize (CBlock_Serialize sample_block ++ [1; 2]) = Ok (sample_block, [1; 2]) /\
  CBlockLocator_Unserialize false (CBlockLocator_Serialize 70210 false {| vHave := [{| u256_data := replicate 32 1 |}] |}
    ++ [1; 2]) = Ok ({| vHave := [{| u256_data := replicate 32 1 |}] |}, [1; 2]).
Proof.
  destruct (block_roundtrip sample_block sample_header {| vHave := [{| u256_data := replicate 32 1 |}] |} [1; 2]
    (replicate 80 0) 70210 false sample_block_ok) as (H1 & _ & _ & _ & _ & H2).
  - exact (proj1 sample_block_ok).
  - split; [done|]. constructor; [|constructor]. split; [done|]. repeat constructor; unfold is_u; lia.
  - unfold is_s. lia.
  - repeat constructor; unfold is_u; lia.
  - reflexivity.
  - split; [exact H1|exact H2].
Defined.
