(* ===== verification/MerkleBlock.v ===== *)
(** * Partial Merkle trees (src/src/merkleblock.cpp, src/src/merkleblock.h)

    A block's tree of transaction ids with the subtrees of no interest pruned:
    built by a depth-first walk that emits flag bits and hashes, read back by a
    walk that consumes them.  The reference is the pruned tree as data.  The
    theorems: what is built is read back, root, matches and positions; and
    whatever tree is accepted under a block's root, its matches are that block's
    transactions at the positions given, or hash collisions are at hand. *)

From S2P Require Import Prelude Bytes Serialize Containers HashEngine Sha256 Hash ArithUint256 Merkle Transaction Block.
From Stdlib Require Import ZifyNat.
From stdpp Require Import list.
Local Open Scope Z_scope.
Local Open Scope cxx_scope.

(** ** The shape of the tree *)

Definition CalcTreeWidth (nTransactions : Z) (height : nat) : Z :=
  u32 (nTransactions + (1 .<< Z.of_nat height) - 1) .>> Z.of_nat height.

(** [while (CalcTreeWidth(nHeight) > 1) nHeight++;] *)
Fixpoint tree_levels (fuel : nat) (n : Z) (nHeight : nat) : nat :=
  match fuel with
  | O => nHeight
  | S fuel => if 1 <? CalcTreeWidth n nHeight then tree_levels fuel n (S nHeight) else nHeight
  end.

(** The number of nodes of a level of a tree of [n] leaves. *)
Definition width (n h : nat) : nat := Nat.iter h (fun w => (w + 1) / 2)%nat n.

Lemma width_S n h : width n (S h) = ((width n h + 1) / 2)%nat.
Proof. done. Qed.

Lemma width_le n h : (width n h <= n)%nat.
Proof. induction h as [|h IH]; [done|]. rewrite width_S. dlia. Qed.

Lemma width_child n h p : (p < width n (S h))%nat -> (2 * p < width n h)%nat.
Proof. rewrite width_S. intros. dlia. Qed.

Lemma width_div n h : Z.of_nat (width n h) = (Z.of_nat n + 2 ^ Z.of_nat h - 1) / 2 ^ Z.of_nat h.
Proof.
  induction h as [|h IH]; [cbn; rewrite Z.div_1_r; lia|].
  rewrite width_S, Nat2Z.inj_div, Nat2Z.inj_add, IH. replace (Z.of_nat (S h)) with (Z.of_nat h + 1) by lia.
  rewrite Z.pow_add_r, Z.pow_1_r by lia. set (d := 2 ^ Z.of_nat h). assert (0 < d) by (apply Z.pow_pos_nonneg; lia). change (Z.of_nat 1) with 1. change (Z.of_nat 2) with 2.
  rewrite <- (Z.div_add (Z.of_nat n + d - 1) 1 d) by lia. rewrite Z.div_div by lia. f_equal; lia.
Qed.

Lemma width_covers n h : (n <= width n h * 2 ^ h)%nat.
Proof.
  apply Nat2Z.inj_le. rewrite Nat2Z.inj_mul, width_div, Nat2Z.inj_pow. change (Z.of_nat 2) with 2.
  set (d := 2 ^ Z.of_nat h). assert (0 < d) by (apply Z.pow_pos_nonneg; lia).
  pose proof (Z.mul_succ_div_gt (Z.of_nat n + d - 1) d ltac:(lia)). nia.
Qed.

Lemma CalcTreeWidth_spec n h : Z.of_nat n <= 2 ^ 30 -> (h <= 30)%nat ->
  CalcTreeWidth (Z.of_nat n) h = Z.of_nat (width n h).
Proof.
  intros Hn Hh. unfold CalcTreeWidth. rewrite Z.shiftl_mul_pow2, Z.mul_1_l by lia.
  assert (0 < 2 ^ Z.of_nat h <= 2 ^ 30) as Hd by (split; [apply Z.pow_pos_nonneg|apply Z.pow_le_mono_r]; lia).
  rewrite u32_id by (unfold is_u; lia). by rewrite Z.shiftr_div_pow2, width_div by lia.
Qed.

Lemma tree_levels_spec fuel n h : Z.of_nat n <= 2 ^ 30 ->
  (tree_height (width n h) <= fuel)%nat -> (h + tree_height (width n h) <= 30)%nat ->
  tree_levels fuel (Z.of_nat n) h = (h + tree_height (width n h))%nat.
Proof.
  revert h. induction fuel as [|fuel IH]; intros h Hn Hf Hh; cbn [tree_levels]; [lia|].
  rewrite CalcTreeWidth_spec by lia. destruct (Z.ltb_spec 1 (Z.of_nat (width n h))) as [Hw|Hw].
  - rewrite (tree_height_step (width n h)) in * by lia. rewrite <- width_S in *. rewrite IH by lia. lia.
  - assert (tree_height (width n h) = 0%nat) as ->; [|lia]. destruct (width n h) as [|[|]]; [done|done|lia].
Qed.

Lemma tree_levels_height n : (0 < n)%nat -> Z.of_nat n <= 2 ^ 30 ->
  tree_levels 32 (Z.of_nat n) 0 = tree_height n /\ (tree_height n <= 30)%nat /\ width n (tree_height n) = 1%nat.
Proof.
  intros H0 Hn. assert (tree_height n <= 30)%nat as Hh.
  { apply Nat.log2_up_le_pow2; [done|]. apply Nat2Z.inj_le. rewrite Nat2Z.inj_pow. exact Hn. }
  pose proof (tree_levels_spec 32 n 0 Hn) as E. change (width n 0) with n in E. split; [rewrite E; lia|].
  split; [done|]. clear E.
  clear Hn Hh. remember (tree_height n) as h eqn:E. revert n H0 E. induction h as [|h IH]; intros n H0 E.
  - destruct n as [|[|n]]; [lia|done|]. rewrite tree_height_step in E by lia. done.
  - destruct n as [|[|n]]; [lia|done|]. rewrite tree_height_step in E by lia. injection E as E.
    rewrite <- (IH ((S (S n) + 1) / 2)%nat) by (done || dlia). unfold width. by rewrite Nat.iter_succ_r.
Qed.

Section PartialTree.
Context {A : Type} `{EqDecision A} (null : A) (hash2 : A -> A -> A).

(** ** The code *)

Record CPartialMerkleTree : Type := {
  nTransactions : Z;
  vBits : list bool;
  vHash : list A;
  fBad : bool;
}.

Fixpoint CalcHash (n : Z) (height : nat) (pos : Z) (vTxid : list A) : A :=
  match height with
  | O => default null (vTxid !! Z.to_nat pos)
  | S height =>
      let hleft := CalcHash n height (u32 (pos * 2)) vTxid in
      let hright := if u32 (u32 (pos * 2) + 1) <? CalcTreeWidth n height
                   then CalcHash n height (u32 (u32 (pos * 2) + 1)) vTxid else hleft in
      hash2 hleft hright
  end.

(** [for (p = pos << height; p < (pos+1) << height && p < nTransactions; p++)] *)
Fixpoint any_match (fuel : nat) (p stop n : Z) (vMatch : list bool) : bool :=
  match fuel with
  | O => false
  | S fuel =>
      if (p <? stop) && (p <? n)
      then default false (vMatch !! Z.to_nat p) || any_match fuel (u32 (p + 1)) stop n vMatch
      else false
  end.

Definition ParentOfMatch (n : Z) (height : nat) (pos : Z) (vMatch : list bool) : bool :=
  any_match (Z.to_nat n) (u32 (pos .<< Z.of_nat height)) (u32 (u32 (pos + 1) .<< Z.of_nat height)) n vMatch.

(** [vBits] and [vHash] so far are threaded through. *)
Fixpoint TraverseAndBuild (n : Z) (height : nat) (pos : Z) (vTxid : list A) (vMatch : list bool)
    (out : list bool * list A) : list bool * list A :=
  let fParentOfMatch := ParentOfMatch n height pos vMatch in
  let out := (fst out ++ [fParentOfMatch], snd out) in
  match height with
  | O => (fst out, snd out ++ [CalcHash n O pos vTxid])
  | S height' =>
      if negb fParentOfMatch then (fst out, snd out ++ [CalcHash n height pos vTxid])
      else
        let out := TraverseAndBuild n height' (u32 (pos * 2)) vTxid vMatch out in
        if u32 (u32 (pos * 2) + 1) <? CalcTreeWidth n height'
        then TraverseAndBuild n height' (u32 (u32 (pos * 2) + 1)) vTxid vMatch out else out
  end.

Definition CPartialMerkleTree_new (vTxid : list A) (vMatch : list bool) : CPartialMerkleTree :=
  let n := u32 (Z.of_nat (length vTxid)) in
  let '(bits, hashes) := TraverseAndBuild n (tree_levels 32 n 0) 0 vTxid vMatch ([], []) in
  {| nTransactions := n; vBits := bits; vHash := hashes; fBad := false |}.

(** What [TraverseAndExtract] updates. *)
Record extraction : Type := {
  nBitsUsed : nat;
  nHashUsed : nat;
  xMatch : list A;
  xIndex : list Z;
  xBad : bool;
}.

Definition set_bad (x : extraction) : extraction :=
  {| nBitsUsed := nBitsUsed x; nHashUsed := nHashUsed x; xMatch := xMatch x; xIndex := xIndex x; xBad := true |}.

(** The branch that takes a stored hash. *)
Definition take_hash (t : CPartialMerkleTree) (leaf_match : bool) (pos : Z) (x : extraction) : A * extraction :=
  match vHash t !! nHashUsed x with
  | None => (null, set_bad x)
  | Some hash =>
      (hash, {| nBitsUsed := nBitsUsed x; nHashUsed := S (nHashUsed x);
                xMatch := if leaf_match then xMatch x ++ [hash] else xMatch x;
                xIndex := if leaf_match then xIndex x ++ [pos] else xIndex x; xBad := xBad x |})
  end.

Fixpoint TraverseAndExtract (t : CPartialMerkleTree) (height : nat) (pos : Z) (x : extraction) : A * extraction :=
  match vBits t !! nBitsUsed x with
  | None => (null, set_bad x)
  | Some fParentOfMatch =>
      let x := {| nBitsUsed := S (nBitsUsed x); nHashUsed := nHashUsed x; xMatch := xMatch x;
                  xIndex := xIndex x; xBad := xBad x |} in
      match height with
      | O => take_hash t fParentOfMatch pos x
      | S height =>
          if negb fParentOfMatch then take_hash t false pos x
          else
            let '(hleft, x) := TraverseAndExtract t height (u32 (pos * 2)) x in
            let '(hright, x) :=
              if u32 (u32 (pos * 2) + 1) <? CalcTreeWidth (nTransactions t) height then
                let '(hright, x) := TraverseAndExtract t height (u32 (u32 (pos * 2) + 1)) x in
                (hright, if bool_decide (hright = hleft) then set_bad x else x)
              else (hleft, x) in
            (hash2 hleft hright, x)
      end
  end.

(** [MaxBlockSize(true) / 60] *)
Definition max_transactions : Z := 2000000 / 60.

(** The root, or null on failure; the matches, the positions appended to those
    passed in (they are not cleared), and the tree with its [fBad]. *)
Definition ExtractMatches (t : CPartialMerkleTree) (vnIndex : list Z)
  : A * list A * list Z * CPartialMerkleTree :=
  if nTransactions t =? 0 then (null, [], vnIndex, t)
  else if max_transactions <? nTransactions t then (null, [], vnIndex, t)
  else if nTransactions t <? Z.of_nat (length (vHash t)) then (null, [], vnIndex, t)
  else if (length (vBits t) <? length (vHash t))%nat then (null, [], vnIndex, t)
  else
    let '(hashMerkleRoot, x) :=
      TraverseAndExtract t (tree_levels 32 (nTransactions t) 0) 0
        {| nBitsUsed := 0; nHashUsed := 0; xMatch := []; xIndex := vnIndex; xBad := fBad t |} in
    let t := {| nTransactions := nTransactions t; vBits := vBits t; vHash := vHash t; fBad := xBad x |} in
    let ok := negb (xBad x) && ((nBitsUsed x + 7) / 8 =? (length (vBits t) + 7) / 8)%nat &&
              (nHashUsed x =? length (vHash t))%nat in
    (if ok then hashMerkleRoot else null, xMatch x, xIndex x, t).

(** ** The reference: the tree by levels, and pruned trees as data *)

Definition level (h : nat) (l : list A) : list A := Nat.iter h (pair_level hash2) l.
Definition node (h p : nat) (l : list A) : A := nth p (level h l) null.

(** A node kept by its hash, with the flag bit 1 for a matched leaf, or opened
    into two children, or into its only one. *)
Inductive ptree : Type :=
  | Stub (hash : A) (matched : bool)
  | Both (l r : ptree)
  | Single (l : ptree).

Fixpoint bits_of (t : ptree) : list bool :=
  match t with
  | Stub _ b => [b]
  | Both l r => true :: bits_of l ++ bits_of r
  | Single l => true :: bits_of l
  end.
Fixpoint hashes_of (t : ptree) : list A :=
  match t with
  | Stub h _ => [h]
  | Both l r => hashes_of l ++ hashes_of r
  | Single l => hashes_of l
  end.
Fixpoint root_of (t : ptree) : A :=
  match t with
  | Stub h _ => h
  | Both l r => hash2 (root_of l) (root_of r)
  | Single l => hash2 (root_of l) (root_of l)
  end.
Fixpoint matches_of (p : nat) (t : ptree) : list (nat * A) :=
  match t with
  | Stub h b => if b then [(p, h)] else []
  | Both l r => matches_of (2 * p) l ++ matches_of (2 * p + 1) r
  | Single l => matches_of (2 * p) l
  end.
(** The pairs hashed to get the root. *)
Fixpoint pairs_of (t : ptree) : list (A * A) :=
  match t with
  | Stub _ _ => []
  | Both l r => (root_of l, root_of r) :: pairs_of l ++ pairs_of r
  | Single l => (root_of l, root_of l) :: pairs_of l
  end.

(** A pruned tree at node [p] of level [h] of a tree of [n] leaves. *)
Fixpoint shape (n h p : nat) (t : ptree) : Prop :=
  match t, h with
  | Stub _ b, _ => b = true -> h = 0%nat
  | Both l r, S h => (2 * p + 1 < width n h)%nat /\ shape n h (2 * p) l /\ shape n h (2 * p + 1) r
  | Single l, S h => (width n h <= 2 * p + 1)%nat /\ shape n h (2 * p) l
  | _, O => False
  end.
Fixpoint distinct (t : ptree) : Prop :=
  match t with
  | Stub _ _ => True
  | Both l r => root_of l <> root_of r /\ distinct l /\ distinct r
  | Single l => distinct l
  end.

(** The leaves selected by [vMatch] among [len] from [start], with positions. *)
Definition selected (l : list A) (vMatch : list bool) (start len : nat) : list (nat * A) :=
  omap (fun i => if default false (vMatch !! i) then (fun h => (i, h)) <$> l !! i else None) (seq start len).

Fixpoint build (l : list A) (vMatch : list bool) (h p : nat) : ptree :=
  if bool_decide (selected l vMatch (p * 2 ^ h) (2 ^ h) = []) then Stub (node h p l) false
  else match h with
       | O => Stub (node O p l) true
       | S h' =>
           if (2 * p + 1 <? width (length l) h')%nat
           then Both (build l vMatch h' (2 * p)) (build l vMatch h' (2 * p + 1))
           else Single (build l vMatch h' (2 * p))
       end.

Lemma length_level l h : length (level h l) = width (length l) h.
Proof.
  induction h as [|h IH]; [done|]. change (level (S h) l) with (pair_level hash2 (level h l)).
  rewrite length_pair_level, IH. by rewrite width_S.
Qed.

Lemma root_level l : l <> [] -> node (tree_height (length l)) 0 l = merkle_root null hash2 l.
Proof.
  unfold merkle_root, node. remember (tree_height (length l)) as h eqn:E. revert l E.
  induction h as [|h IH]; intros l E Hn.
  - destruct l as [|a [|b r]]; [done|done|]. cbn [length] in E. rewrite tree_height_step in E by lia. done.
  - destruct l as [|a [|b r]]; [done|done|]. cbn [tree_root]. rewrite <- IH; [|rewrite length_pair_level|done].
    + unfold level. by rewrite Nat.iter_succ_r.
    + rewrite tree_height_step in E by (cbn; lia). by injection E.
Qed.

(** *** The node over two nodes *)

Lemma node_S h p l : (p < width (length l) (S h))%nat ->
  node (S h) p l = hash2 (node h (2 * p) l)
    (if (2 * p + 1 <? width (length l) h)%nat then node h (2 * p + 1) l else node h (2 * p) l).
Proof.
  intros Hp. apply width_child in Hp. rewrite <- length_level in Hp. unfold node at 1.
  change (level (S h) l) with (pair_level hash2 (level h l)).
  replace p with (2 * p / 2)%nat at 1 by dlia. rewrite (nth_pair_level null) by done.
  replace (Nat.odd (2 * p)) with false by (symmetry; rewrite Nat.odd_mul; done).
  unfold sibling. replace (Nat.odd (2 * p)) with false by (symmetry; rewrite Nat.odd_mul; done).
  unfold node. f_equal. rewrite <- length_level.
  destruct (Nat.ltb_spec (2 * p + 1) (length (level h l))); [by apply nth_indep|by apply nth_overflow].
Qed.

(** *** Selections *)

Lemma selected_app l vm start a b :
  selected l vm start (a + b) = selected l vm start a ++ selected l vm (start + a) b.
Proof. unfold selected. by rewrite seq_app, omap_app. Qed.

Lemma selected_cons l vm start len :
  selected l vm start (S len) =
  option_list (if default false (vm !! start) then (fun h => (start, h)) <$> l !! start else None) ++
  selected l vm (S start) len.
Proof. unfold selected. cbn [seq omap list_omap]. by destruct (if default false (vm !! start) then _ else _). Qed.

Lemma selected_above l vm start len : (length l <= start)%nat -> selected l vm start len = [].
Proof.
  revert start. induction len as [|len IH]; intros start Hs; [done|]. rewrite selected_cons, IH by lia.
  rewrite (lookup_ge_None_2 l) by lia. by destruct (default false _).
Qed.

Lemma selected_split l vm h p :
  selected l vm (p * 2 ^ S h) (2 ^ S h) = selected l vm (2 * p * 2 ^ h) (2 ^ h) ++ selected l vm ((2 * p + 1) * 2 ^ h) (2 ^ h).
Proof.
  replace (2 ^ S h)%nat with (2 ^ h + 2 ^ h)%nat by (cbn; lia). rewrite selected_app. f_equal; f_equal; lia.
Qed.

Lemma any_match_spec fuel l vm p stop : length vm = length l -> Z.of_nat (length l) <= 2 ^ 30 ->
  (length l - p <= fuel)%nat ->
  any_match fuel (Z.of_nat p) (Z.of_nat stop) (Z.of_nat (length l)) vm =
  negb (bool_decide (selected l vm p (stop - p) = [])).
Proof.
  intros Hvm Hn. revert p. induction fuel as [|fuel IH]; intros p Hf; cbn [any_match].
  - by rewrite selected_above, bool_decide_eq_true_2 by (done || lia).
  - destruct (Z.ltb_spec (Z.of_nat p) (Z.of_nat stop)) as [H1|H1]; cbn [andb].
    2: { replace (stop - p)%nat with 0%nat by lia. by rewrite bool_decide_eq_true_2. }
    destruct (Z.ltb_spec (Z.of_nat p) (Z.of_nat (length l))) as [H2|H2].
    2: { by rewrite selected_above, bool_decide_eq_true_2 by (done || lia). }
    rewrite Nat2Z.id. replace (stop - p)%nat with (S (stop - S p)) by lia. rewrite selected_cons.
    destruct (lookup_lt_is_Some_2 l p) as [h ->]; [lia|]. destruct (lookup_lt_is_Some_2 vm p) as [b ->]; [lia|].
    cbn [default from_option id]. destruct b; cbn [orb fmap option_fmap option_map].
    + by rewrite bool_decide_eq_false_2.
    + rewrite u32_id by (unfold is_u; lia). replace (Z.of_nat p + 1) with (Z.of_nat (S p)) by lia. apply IH. lia.
Qed.

Lemma shift_pos p h : u32 (Z.of_nat p .<< Z.of_nat h) = u32 (Z.of_nat (p * 2 ^ h)).
Proof. rewrite Z.shiftl_mul_pow2, Nat2Z.inj_mul, Nat2Z.inj_pow by lia. done. Qed.

(** Nodes of the tree start below [2^30] and end below [2^31]. *)
Lemma node_start n h p : Z.of_nat n <= 2 ^ 30 -> (p < width n h)%nat -> (p * 2 ^ h < n)%nat.
Proof.
  intros Hn Hp. apply Nat2Z.inj_lt. apply Nat2Z.inj_lt in Hp. rewrite width_div in Hp.
  rewrite Nat2Z.inj_mul, Nat2Z.inj_pow. change (Z.of_nat 2) with 2.
  set (d := 2 ^ Z.of_nat h) in *. assert (0 < d) by (apply Z.pow_pos_nonneg; lia).
  pose proof (Z.mul_div_le (Z.of_nat n + d - 1) d ltac:(lia)). nia.
Qed.

Lemma pow2_30 h : (h <= 30)%nat -> Z.of_nat (2 ^ h) <= 2 ^ 30.
Proof. intros Hh. rewrite Nat2Z.inj_pow. apply Z.pow_le_mono_r; lia. Qed.

Lemma ParentOfMatch_spec l vm h p : length vm = length l -> Z.of_nat (length l) <= 2 ^ 30 -> (h <= 30)%nat ->
  (p < width (length l) h)%nat ->
  ParentOfMatch (Z.of_nat (length l)) h (Z.of_nat p) vm = negb (bool_decide (selected l vm (p * 2 ^ h) (2 ^ h) = [])).
Proof.
  intros Hvm Hn Hh Hp. pose proof (node_start _ _ _ Hn Hp) as Hs. pose proof (pow2_30 h Hh) as Hd.
  pose proof (width_le (length l) h). unfold ParentOfMatch.
  rewrite (u32_id (Z.of_nat p + 1)) by (unfold is_u; lia). replace (Z.of_nat p + 1) with (Z.of_nat (S p)) by lia.
  rewrite !shift_pos, !u32_id by (unfold is_u; lia). rewrite any_match_spec; [|done|done|lia].
  replace (S p * 2 ^ h - p * 2 ^ h)%nat with (2 ^ h)%nat by lia. done.
Qed.

(** *** Positions do not wrap *)

Lemma pos_left p : Z.of_nat p < 2 ^ 30 -> u32 (Z.of_nat p * 2) = Z.of_nat (2 * p).
Proof. intros. rewrite u32_id by (unfold is_u; lia). lia. Qed.
Lemma pos_right p : Z.of_nat p < 2 ^ 30 -> u32 (u32 (Z.of_nat p * 2) + 1) = Z.of_nat (2 * p + 1).
Proof. intros. rewrite pos_left by done. rewrite u32_id by (unfold is_u; lia). lia. Qed.

Lemma of_nat_ltb a b : (Z.of_nat a <? Z.of_nat b) = (a <? b)%nat.
Proof. destruct (Nat.ltb_spec a b), (Z.ltb_spec (Z.of_nat a) (Z.of_nat b)); lia. Qed.

Section Leaves.
Context (l : list A) (vm : list bool).
Hypothesis (vm_length : length vm = length l) (l_small : Z.of_nat (length l) <= 2 ^ 30).
Local Abbreviation n := (length l).

Lemma pos_small h p : (p < width n h)%nat -> Z.of_nat p < 2 ^ 30.
Proof. pose proof (width_le n h). lia. Qed.

Lemma CalcHash_spec h p : (h <= 30)%nat -> (p < width n h)%nat ->
  CalcHash (Z.of_nat n) h (Z.of_nat p) l = node h p l.
Proof.
  revert p. induction h as [|h IH]; intros p Hh Hp; cbn [CalcHash].
  - rewrite Nat2Z.id. unfold node, level. cbn. by rewrite nth_lookup.
  - pose proof (pos_small _ _ Hp). rewrite pos_right, pos_left, CalcTreeWidth_spec, of_nat_ltb by (done || lia).
    pose proof (width_child _ _ _ Hp). rewrite node_S by done. rewrite (IH (2 * p)%nat) by (done || lia).
    destruct (Nat.ltb_spec (2 * p + 1) (width n h)); [|done]. by rewrite IH by (done || lia).
Qed.

Lemma TraverseAndBuild_spec h p out : (h <= 30)%nat -> (p < width n h)%nat ->
  TraverseAndBuild (Z.of_nat n) h (Z.of_nat p) l vm out =
  (out.1 ++ bits_of (build l vm h p), out.2 ++ hashes_of (build l vm h p)).
Proof.
  revert p out. induction h as [|h IH]; intros p out Hh Hp; cbn [TraverseAndBuild build];
    rewrite ParentOfMatch_spec by done.
  - rewrite CalcHash_spec by done. by destruct (bool_decide _).
  - rewrite CalcHash_spec by done. destruct (bool_decide _); cbn [negb fst snd]; [done|].
    pose proof (pos_small _ _ Hp). pose proof (width_child _ _ _ Hp).
    rewrite pos_right, pos_left, CalcTreeWidth_spec, of_nat_ltb by (done || lia). rewrite (IH (2 * p)%nat) by (done || lia).
    destruct (Nat.ltb_spec (2 * p + 1) (width n h)); cbn [bits_of hashes_of fst snd].
    + rewrite IH by (done || lia). cbn [fst snd]. by rewrite <- !app_assoc.
    + by rewrite <- app_assoc.
Qed.

Lemma build_root h p : (p < width n h)%nat -> root_of (build l vm h p) = node h p l.
Proof.
  revert p. induction h as [|h IH]; intros p Hp; cbn [build]; destruct (bool_decide _); try done.
  pose proof (width_child _ _ _ Hp). rewrite node_S by done.
  destruct (Nat.ltb_spec (2 * p + 1) (width n h)); cbn [root_of]; by rewrite !IH.
Qed.

Lemma build_shape h p : (p < width n h)%nat -> shape n h p (build l vm h p).
Proof.
  revert p. induction h as [|h IH]; intros p Hp; cbn [build]; destruct (bool_decide _); try done.
  pose proof (width_child _ _ _ Hp). destruct (Nat.ltb_spec (2 * p + 1) (width n h)); cbn [shape]; auto.
Qed.

Lemma selected_beyond h p : (width n h <= p)%nat -> selected l vm (p * 2 ^ h) (2 ^ h) = [].
Proof.
  intros Hp. apply selected_above. pose proof (width_covers n h). nia.
Qed.

Lemma build_matches h p : (p < width n h)%nat -> matches_of p (build l vm h p) = selected l vm (p * 2 ^ h) (2 ^ h).
Proof.
  revert p. induction h as [|h IH]; intros p Hp; cbn [build]; (case_bool_decide as E; [by rewrite E|]).
  - cbn [matches_of Nat.pow] in *. rewrite Nat.mul_1_r, selected_cons in *. change (width n 0) with n in Hp.
    destruct (lookup_lt_is_Some_2 l p Hp) as [x Hx]. rewrite Hx in *.
    destruct (default false (vm !! p)); [|done]. unfold node. cbn. by rewrite (nth_lookup_Some _ _ _ _ Hx).
  - pose proof (width_child _ _ _ Hp). rewrite selected_split.
    destruct (Nat.ltb_spec (2 * p + 1) (width n h)); cbn [matches_of]; rewrite !IH by done; [done|].
    by rewrite (selected_beyond h (2 * p + 1)), app_nil_r.
Qed.

Lemma build_distinct h p : (p < width n h)%nat ->
  (forall k q, (k < h)%nat -> (2 * q + 1 < width n k)%nat -> node k (2 * q) l <> node k (2 * q + 1) l) ->
  distinct (build l vm h p).
Proof.
  revert p. induction h as [|h IH]; intros p Hp Hd; cbn [build]; destruct (bool_decide _); try done.
  pose proof (width_child _ _ _ Hp).
  assert (forall k q, (k < h)%nat -> (2 * q + 1 < width n k)%nat -> node k (2 * q) l <> node k (2 * q + 1) l) as Hd'
    by (intros k q Hk; apply Hd; lia).
  destruct (Nat.ltb_spec (2 * p + 1) (width n h)); cbn [distinct]; [|by apply IH].
  rewrite !build_root by done. split; [apply Hd; [lia|done]|]. split; by apply IH.
Qed.

(** No more hashes than leaves below the node. *)
Lemma build_hashes h p : (p < width n h)%nat ->
  (length (hashes_of (build l vm h p)) + p * 2 ^ h <= n)%nat /\
  (length (hashes_of (build l vm h p)) <= 2 ^ h)%nat.
Proof.
  revert p. induction h as [|h IH]; intros p Hp; cbn [build].
  - change (width n 0) with n in Hp. destruct (bool_decide _); cbn [hashes_of length Nat.pow]; lia.
  - pose proof (node_start _ _ _ l_small Hp) as Hs.
    destruct (bool_decide _); [cbn [hashes_of length]; pose proof (Nat.pow_nonzero 2 (S h) ltac:(lia)); lia|].
    pose proof (width_child _ _ _ Hp). destruct (IH (2 * p)%nat) as [H1 H2]; [done|]. cbn [Nat.pow].
    destruct (Nat.ltb_spec (2 * p + 1) (width n h)) as [H3|H3]; cbn [hashes_of]; [|lia].
    rewrite length_app. destruct (IH (2 * p + 1)%nat H3) as [H4 H5]. lia.
Qed.

End Leaves.

Lemma hashes_bits t : (length (hashes_of t) <= length (bits_of t))%nat.
Proof. clear null hash2. induction t; cbn [hashes_of bits_of length]; rewrite ?length_app; lia. Qed.

(** *** Reading a pruned tree back *)

Lemma drop_hd {B} (l : list B) i b r : drop i l = b :: r -> l !! i = Some b /\ drop (S i) l = r.
Proof.
  intros E. split.
  - replace i with (i + 0)%nat by lia. by rewrite <- lookup_drop, E.
  - replace (S i) with (i + 1)%nat by lia. by rewrite <- drop_drop, E.
Qed.

Lemma drop_app_eq {B} (l a b : list B) i : drop i l = a ++ b -> drop (i + length a) l = b.
Proof. intros E. by rewrite <- drop_drop, E, drop_app_length. Qed.

(** What reading [t] at node [p] makes of the state. *)
Definition advance (p : nat) (t : ptree) (x : extraction) : extraction :=
  {| nBitsUsed := nBitsUsed x + length (bits_of t); nHashUsed := nHashUsed x + length (hashes_of t);
     xMatch := xMatch x ++ map snd (matches_of p t);
     xIndex := xIndex x ++ map (fun m => Z.of_nat (fst m)) (matches_of p t); xBad := xBad x |}.

Lemma take_hash_stub t b p x h r : drop (nHashUsed x) (vHash t) = h :: r ->
  take_hash t b (Z.of_nat p) x =
  (h, {| nBitsUsed := nBitsUsed x; nHashUsed := nHashUsed x + 1;
         xMatch := xMatch x ++ map snd (matches_of p (Stub h b));
         xIndex := xIndex x ++ map (fun m => Z.of_nat (fst m)) (matches_of p (Stub h b)); xBad := xBad x |}).
Proof.
  intros [E _]%drop_hd. unfold take_hash. rewrite E, Nat.add_1_r.
  destruct b; cbn [matches_of map fst snd]; by rewrite ?app_nil_r.
Qed.

Section Extract.
Context (t : CPartialMerkleTree) (n : nat).
Hypothesis (t_count : nTransactions t = Z.of_nat n) (n_small : Z.of_nat n <= 2 ^ 30).

Lemma node_small h p : (p < width n h)%nat -> Z.of_nat p < 2 ^ 30.
Proof. pose proof (width_le n h). lia. Qed.

Lemma TraverseAndExtract_reads pt h p x bs hs : (h <= 30)%nat -> (p < width n h)%nat ->
  shape n h p pt -> distinct pt ->
  drop (nBitsUsed x) (vBits t) = bits_of pt ++ bs -> drop (nHashUsed x) (vHash t) = hashes_of pt ++ hs ->
  TraverseAndExtract t h (Z.of_nat p) x = (root_of pt, advance p pt x).
Proof.
  revert h p x bs hs. induction pt as [hash b|l IHl r IHr|l IHl]; intros h p x bs hs Hh Hp Hs Hd Hb Hx.
  - cbn [bits_of hashes_of app] in *. apply drop_hd in Hb as [Hb _]. unfold advance. cbn [bits_of hashes_of length].
    destruct h as [|h]; cbn [TraverseAndExtract]; rewrite Hb.
    + erewrite take_hash_stub by exact Hx. cbn [nBitsUsed nHashUsed xMatch xIndex xBad]. by rewrite !Nat.add_1_r.
    + destruct b; [by specialize (Hs eq_refl)|]. cbn [negb]. erewrite take_hash_stub by exact Hx.
      cbn [nBitsUsed nHashUsed xMatch xIndex xBad]. by rewrite !Nat.add_1_r.
  - destruct h as [|h]; [done|]. destruct Hs as (Hw & Hsl & Hsr). destruct Hd as (Hne & Hdl & Hdr).
    cbn [bits_of hashes_of app] in *. rewrite <- app_assoc in Hb, Hx. apply drop_hd in Hb as [Hb Hb'].
    pose proof (node_small _ _ Hp). pose proof (width_child _ _ _ Hp). cbn [TraverseAndExtract]. rewrite Hb. cbn [negb].
    rewrite pos_right, pos_left by done. rewrite t_count, CalcTreeWidth_spec, of_nat_ltb by (done || lia).
    rewrite (proj2 (Nat.ltb_lt _ _)) by done.
    erewrite IHl; [|lia|done..]. cbn [nBitsUsed nHashUsed].
    erewrite IHr; [|lia|done|done|done|cbn [advance nBitsUsed nHashUsed]; apply drop_app_eq; eassumption..].
    rewrite bool_decide_eq_false_2 by done. unfold advance.
    cbn [root_of bits_of hashes_of matches_of nBitsUsed nHashUsed xMatch xIndex xBad length].
    rewrite !length_app, !map_app, <- !app_assoc. do 2 f_equal; lia.
  - destruct h as [|h]; [done|]. destruct Hs as (Hw & Hsl). cbn [bits_of hashes_of app distinct] in *.
    apply drop_hd in Hb as [Hb Hb'].
    pose proof (node_small _ _ Hp). pose proof (width_child _ _ _ Hp). cbn [TraverseAndExtract]. rewrite Hb. cbn [negb].
    rewrite pos_right, pos_left by done. rewrite t_count, CalcTreeWidth_spec, of_nat_ltb by (done || lia).
    rewrite (proj2 (Nat.ltb_ge _ _)) by done.
    erewrite IHl; [|lia|done..]. unfold advance. cbn [root_of bits_of hashes_of matches_of nBitsUsed nHashUsed xMatch xIndex xBad length].
    do 2 f_equal; lia.
Qed.

Lemma take_hash_bad b pos x : xBad x = true -> xBad (take_hash t b pos x).2 = true.
Proof. intros Hx. unfold take_hash. by destruct (vHash t !! _). Qed.

Lemma extract_bad h pos x : xBad x = true -> xBad (TraverseAndExtract t h pos x).2 = true.
Proof.
  revert pos x. induction h as [|h IH]; intros pos x Hx; cbn [TraverseAndExtract];
    (destruct (vBits t !! nBitsUsed x) as [b|]; [|done]); [by apply take_hash_bad|].
  destruct b; cbn [negb]; [|by apply take_hash_bad].
  match goal with |- context [TraverseAndExtract t h ?p1 ?x1] =>
    pose proof (IH p1 x1 Hx) as H1; destruct (TraverseAndExtract t h p1 x1) as [hl xl] end.
  destruct (_ <? _); [|done].
  match goal with |- context [TraverseAndExtract t h ?p2 xl] =>
    pose proof (IH p2 xl H1) as H2; destruct (TraverseAndExtract t h p2 xl) as [hr xr] end.
  by destruct (bool_decide (hr = hl)).
Qed.

Lemma take_hash_sound b p x r x' : take_hash t b (Z.of_nat p) x = (r, x') -> xBad x' = false ->
  exists hs, drop (nHashUsed x) (vHash t) = r :: hs.
Proof.
  unfold take_hash. destruct (vHash t !! nHashUsed x) as [h|] eqn:E; [|by intros [= <- <-]].
  intros [= <- <-] _. eexists. by apply drop_S.
Qed.

(** An extraction that is not bad has read a pruned tree. *)
Lemma TraverseAndExtract_sound h p x r x' : (h <= 30)%nat -> (p < width n h)%nat ->
  TraverseAndExtract t h (Z.of_nat p) x = (r, x') -> xBad x' = false ->
  exists pt bs hs, shape n h p pt /\ distinct pt /\ r = root_of pt /\ x' = advance p pt x /\
    drop (nBitsUsed x) (vBits t) = bits_of pt ++ bs /\ drop (nHashUsed x) (vHash t) = hashes_of pt ++ hs.
Proof.
  assert (forall h p x b r x', (b = true -> h = 0%nat) -> vBits t !! nBitsUsed x = Some b ->
    take_hash t b (Z.of_nat p) {| nBitsUsed := S (nBitsUsed x); nHashUsed := nHashUsed x; xMatch := xMatch x;
      xIndex := xIndex x; xBad := xBad x |} = (r, x') -> xBad x' = false ->
    exists pt bs hs, shape n h p pt /\ distinct pt /\ r = root_of pt /\ x' = advance p pt x /\
      drop (nBitsUsed x) (vBits t) = bits_of pt ++ bs /\ drop (nHashUsed x) (vHash t) = hashes_of pt ++ hs) as Hstub.
  { intros h0 p0 x0 b r0 x0' Hb Hbit Hr Hbad. destruct (take_hash_sound _ _ _ _ _ Hr Hbad) as [hs Hhs].
    cbn [nHashUsed] in Hhs. exists (Stub r0 b), (drop (S (nBitsUsed x0)) (vBits t)), hs.
    erewrite take_hash_stub in Hr by exact Hhs. apply (f_equal snd) in Hr. cbn [snd] in Hr. subst x0'. split_and!; try done.
    - by destruct h0.
    - unfold advance. cbn [bits_of hashes_of length nBitsUsed nHashUsed xMatch xIndex xBad]. by rewrite !Nat.add_1_r.
    - by rewrite (drop_S _ _ _ Hbit). }
  revert p x r x'. induction h as [|h IH]; intros p x r x' Hh Hp; cbn [TraverseAndExtract];
    (destruct (vBits t !! nBitsUsed x) as [b|] eqn:Eb; [|by intros [= <- <-]]); [by apply Hstub|].
  destruct b; cbn [negb]; [|by apply Hstub].
  pose proof (node_small _ _ Hp). pose proof (width_child _ _ _ Hp).
  rewrite pos_right, pos_left by done. rewrite t_count, CalcTreeWidth_spec, of_nat_ltb by (done || lia).
  set (x0 := {| nBitsUsed := S (nBitsUsed x) |}).
  destruct (TraverseAndExtract t h (Z.of_nat (2 * p)) x0) as [hl xl] eqn:El.
  assert (xBad xl = false -> exists pt bs hs, shape n h (2 * p) pt /\ distinct pt /\ hl = root_of pt /\ xl = advance (2 * p) pt x0 /\
    drop (nBitsUsed x0) (vBits t) = bits_of pt ++ bs /\ drop (nHashUsed x0) (vHash t) = hashes_of pt ++ hs) as Hl
    by (intros Hbad; apply (IH (2 * p)%nat x0 hl xl); [lia|done..]).
  destruct (Nat.ltb_spec (2 * p + 1) (width n h)) as [Hw|Hw].
  - destruct (TraverseAndExtract t h (Z.of_nat (2 * p + 1)) xl) as [hr xr] eqn:Er.
    intros [= <- <-] Hbad. case_bool_decide as Hne; [done|].
    assert (xBad xl = false) as Hbl.
    { apply not_true_is_false. intros E. pose proof (extract_bad h (Z.of_nat (2 * p + 1)) xl E) as E'.
      rewrite Er in E'. cbn [snd] in E'. congruence. }
    destruct (Hl Hbl) as (pl & bs & hs & Hs1 & Hd1 & -> & -> & Hb1 & Hh1).
    destruct (IH (2 * p + 1)%nat (advance (2 * p) pl x0) hr xr) as (pr & bs' & hs' & Hs2 & Hd2 & -> & -> & Hb2 & Hh2);
      [lia|done..|].
    cbn [advance nBitsUsed nHashUsed] in Hb2, Hh2. rewrite (drop_app_eq _ _ _ _ Hb1) in Hb2.
    rewrite (drop_app_eq _ _ _ _ Hh1) in Hh2. subst bs hs. exists (Both pl pr), bs', hs'. split_and!; try done.
    + unfold advance. cbn [x0 root_of bits_of hashes_of matches_of nBitsUsed nHashUsed xMatch xIndex xBad length].
      rewrite !length_app, !map_app, <- !app_assoc. f_equal; lia.
    + cbn [bits_of app]. rewrite <- app_assoc, <- Hb1. by apply drop_S.
    + cbn [hashes_of]. by rewrite <- app_assoc, <- Hh1.
  - intros [= <- <-] Hbad. destruct (Hl Hbad) as (pl & bs & hs & Hs1 & Hd1 & -> & -> & Hb1 & Hh1).
    exists (Single pl), bs, hs. split_and!; try done.
    + unfold advance. cbn [x0 root_of bits_of hashes_of matches_of nBitsUsed nHashUsed xMatch xIndex xBad length]. f_equal; lia.
    + cbn [bits_of app]. rewrite <- Hb1. by apply drop_S.
Qed.

End Extract.

(** *** Against a real tree *)

Lemma in_level_pairs (L : list A) p : (2 * p < length L)%nat ->
  In (nth (2 * p) L null, if (2 * p + 1 <? length L)%nat then nth (2 * p + 1) L null else nth (2 * p) L null) (level_pairs L).
Proof.
  revert p. induction L as [|a|a b r IH] using pair_ind; intros p Hp; cbn [length level_pairs] in *; [lia| |].
  - replace p with 0%nat by lia. by left.
  - destruct p as [|p]; [by left|]. right. specialize (IH p ltac:(lia)).
    replace (2 * S p + 1)%nat with (S (S (2 * p + 1))) by lia. replace (2 * S p)%nat with (S (S (2 * p))) by lia.
    cbn [nth]. change (S (S (2 * p + 1)) <? S (S (length r)))%nat with (2 * p + 1 <? length r)%nat. done.
Qed.

Lemma level_pairs_in (l : list A) k h x : (h < k)%nat -> In x (level_pairs (level h l)) -> In x (tree_pairs hash2 k l).
Proof.
  revert k l. induction h as [|h IH]; intros [|k] l Hk Hx; try lia; cbn [tree_pairs]; apply in_app_iff; [by left|right].
  apply IH; [lia|]. unfold level in *. by rewrite Nat.iter_succ_r in Hx.
Qed.

Lemma in_tree_pairs (l : list A) k h p : (h < k)%nat -> (p < width (length l) (S h))%nat ->
  In (node h (2 * p) l, if (2 * p + 1 <? width (length l) h)%nat then node h (2 * p + 1) l else node h (2 * p) l)
     (tree_pairs hash2 k l).
Proof.
  intros Hk Hp. apply (level_pairs_in _ _ h); [done|]. rewrite <- length_level. apply in_level_pairs.
  rewrite length_level. by apply width_child.
Qed.

Section Binding.
Context (l : list A) (k : nat) (hashed : A * A -> Prop).
Hypothesis hash2_inj : forall a b c d,
  hashed (a, b) -> hashed (c, d) -> hash2 a b = hash2 c d -> a = c /\ b = d.
Hypothesis tree_hashed : forall x, In x (tree_pairs hash2 k l) -> hashed x.

(** A pruned tree without equal siblings whose root is a node of the real tree
    selects only leaves of it. *)
Lemma matches_in_tree n pt h p : (h <= k)%nat -> (p < width (length l) h)%nat ->
  shape n h p pt -> distinct pt -> (forall x, In x (pairs_of pt) -> hashed x) -> root_of pt = node h p l ->
  Forall (fun m => l !! fst m = Some (snd m)) (matches_of p pt).
Proof.
  revert h p. induction pt as [hash b|pl IHl pr IHr|pl IHl]; intros h p Hh Hp Hs Hd Hpairs Hroot.
  - cbn [matches_of root_of] in *. destruct b; [|constructor].
    assert (h = 0%nat) as -> by (destruct h; [done|by specialize (Hs eq_refl)]). constructor; [|constructor]. cbn [fst snd].
    rewrite Hroot. unfold node. cbn. change (width (length l) 0) with (length l) in Hp.
    destruct (lookup_lt_is_Some_2 l p Hp) as [x Hx]. by rewrite (nth_lookup_Some _ _ _ _ Hx).
  - destruct h as [|h]; [done|]. destruct Hs as (Hw & Hs1 & Hs2). destruct Hd as (Hne & Hd1 & Hd2).
    cbn [root_of pairs_of matches_of] in *. pose proof (in_tree_pairs l k h p ltac:(lia) Hp) as Hin.
    rewrite node_S in Hroot by done. apply hash2_inj in Hroot as [E1 E2];
      [|by apply Hpairs; left|by apply tree_hashed]. pose proof (width_child _ _ _ Hp).
    destruct (Nat.ltb_spec (2 * p + 1) (width (length l) h)); [|congruence].
    apply Forall_app. split; [apply (IHl h (2 * p)%nat)|apply (IHr h (2 * p + 1)%nat)]; try done; try lia;
      intros x Hx; apply Hpairs; right; apply in_app_iff; tauto.
  - destruct h as [|h]; [done|]. destruct Hs as (Hw & Hs1). cbn [root_of pairs_of matches_of distinct] in *.
    pose proof (in_tree_pairs l k h p ltac:(lia) Hp) as Hin. rewrite node_S in Hroot by done.
    apply hash2_inj in Hroot as [E1 _]; [|by apply Hpairs; left|by apply tree_hashed].
    pose proof (width_child _ _ _ Hp).
    apply (IHl h (2 * p)%nat); try done; try lia. intros x Hx. apply Hpairs. by right.
Qed.

Lemma equal_pair_nth (c : list A) p : equal_pair c = false -> (2 * p + 1 < length c)%nat ->
  nth (2 * p) c null <> nth (2 * p + 1) c null.
Proof.
  revert p. induction c as [|a|a b r IH] using pair_ind; intros p He Hp; cbn [length equal_pair] in *; [lia..|].
  apply orb_false_iff in He as [Ha He]. apply bool_decide_eq_false in Ha.
  destruct p as [|p]; [done|]. replace (2 * S p + 1)%nat with (S (S (2 * p + 1))) by lia.
  replace (2 * S p)%nat with (S (S (2 * p))) by lia. cbn [nth]. apply IH; [done|lia].
Qed.

Lemma level_ok_siblings j L p : level_ok hash2 hashed j L -> (2 * p + 1 < length L)%nat ->
  nth (2 * p) L null <> nth (2 * p + 1) L null.
Proof.
  intros (c & t & -> & HF & Hd & Ht) Hp. pose proof (Hd 1%nat) as He. cbn [has_duplicate] in He.
  apply orb_false_iff in He as [He _].
  destruct Ht as [->|(d & -> & Hnc)]; [rewrite app_nil_r in *; by apply equal_pair_nth|].
  rewrite length_app in Hp. cbn [length] in Hp. destruct (decide (2 * p + 1 < length c)%nat) as [Hlt|Hge].
  - rewrite !app_nth1 by lia. by apply equal_pair_nth.
  - rewrite app_nth1, app_nth2 by lia. replace (2 * p + 1 - length c)%nat with 0%nat by lia. cbn [nth].
    intros E. apply Hnc. rewrite <- E. rewrite List.Forall_forall in HF. apply HF, nth_In. lia.
Qed.

Lemma levels_ok j : (j <= k)%nat -> level_ok hash2 hashed 0 l -> level_ok hash2 hashed j (level j l).
Proof.
  intros Hj H0. induction j as [|j IH]; [done|]. change (level (S j) l) with (pair_level hash2 (level j l)).
  apply level_ok_step; [done| |apply IH; lia]. apply List.Forall_forall. intros x Hx. apply tree_hashed.
  by apply (level_pairs_in _ _ j).
Qed.

Lemma siblings_differ : (forall i, has_duplicate hash2 i l = false) ->
  forall j p, (j < k)%nat -> (2 * p + 1 < width (length l) j)%nat -> node j (2 * p) l <> node j (2 * p + 1) l.
Proof.
  intros Hdup j p Hj Hp. unfold node. apply (level_ok_siblings j); [|by rewrite length_level].
  apply levels_ok; [lia|]. exists l, []. rewrite app_nil_r. refine (conj eq_refl (conj _ (conj Hdup (or_introl eq_refl)))).
  by apply Forall_true.
Qed.

End Binding.

Lemma collision_app L1 L2 : collision hash2 L1 -> collision hash2 (L1 ++ L2).
Proof. intros (p & q & Hp & Hq & H). exists p, q. rewrite !in_app_iff. tauto. Qed.

(** *** The two directions *)

(** What [ExtractMatches] returns for the tree built, even if padded with clear
    bits to whole bytes. *)
Lemma ExtractMatches_built l vm vnIndex pad :
  l <> [] -> Z.of_nat (length l) <= max_transactions -> length vm = length l ->
  snd (ComputeMerkleRoot null hash2 l) = false ->
  let t := CPartialMerkleTree_new l vm in
  ((length (vBits t) + 7) / 8 = (length (vBits t ++ pad) + 7) / 8)%nat ->
  let t' := {| nTransactions := nTransactions t; vBits := vBits t ++ pad; vHash := vHash t; fBad := fBad t |} in
  collision hash2 (tree_pairs hash2 (tree_height (length l)) l) \/
  ExtractMatches t' vnIndex =
    (fst (ComputeMerkleRoot null hash2 l), map snd (selected l vm 0 (length l)),
     vnIndex ++ map (fun m => Z.of_nat (fst m)) (selected l vm 0 (length l)), t').
Proof.
  intros Hne Hmax Hvm Hflag t. change max_transactions with 33333 in Hmax.
  assert (0 < length l)%nat as H0 by (destruct l; [done|cbn; lia]).
  destruct (tree_levels_height (length l) H0 ltac:(lia)) as (Hlev & Hh & Hw1). set (h := tree_height (length l)) in *.
  assert (t = {| nTransactions := Z.of_nat (length l); vBits := bits_of (build l vm h 0);
                 vHash := hashes_of (build l vm h 0); fBad := false |}) as ->.
  { subst t. unfold CPartialMerkleTree_new. rewrite u32_id by (unfold is_u; lia). rewrite Hlev.
    rewrite (TraverseAndBuild_spec l vm Hvm ltac:(lia) h 0) by lia. done. }
  cbn [nTransactions vBits vHash fBad]. intros Hpad.
  destruct (collision_or_injective hash2 (tree_pairs hash2 h l)) as [|Hinj]; [by left|right].
  assert (forall j p, (j < h)%nat -> (2 * p + 1 < width (length l) j)%nat -> node j (2 * p) l <> node j (2 * p + 1) l) as Hsib.
  { apply (siblings_differ l h (fun x => In x (tree_pairs hash2 h l))); try done. by apply (not_flagged null); [lia|]. }
  assert (selected l vm (0 * 2 ^ h) (2 ^ h) = selected l vm 0 (length l)) as Hsel.
  { pose proof (width_covers (length l) h) as Hc. rewrite Hw1 in Hc.
    replace (2 ^ h)%nat with (length l + (2 ^ h - length l))%nat at 2 by lia.
    rewrite selected_app, (selected_above _ _ (0 + _)), app_nil_r by lia. done. }
  unfold ExtractMatches. cbn [nTransactions vBits vHash fBad]. change max_transactions with 33333.
  destruct (build_hashes l vm Hvm ltac:(lia) h 0) as [Hc1 _]; [lia|].
  pose proof (hashes_bits (build l vm h 0)) as Hc2.
  rewrite (proj2 (Z.eqb_neq _ _)), (proj2 (Z.ltb_ge _ _)), (proj2 (Z.ltb_ge _ _)) by lia.
  rewrite (proj2 (Nat.ltb_ge _ _)) by (rewrite length_app; lia). rewrite Hlev.
  change 0 with (Z.of_nat 0) at 1.
  erewrite (TraverseAndExtract_reads _ (length l)); [|done|lia|exact Hh|lia| | |cbn [nBitsUsed vBits]; by rewrite drop_0
    |cbn [nHashUsed vHash]; by rewrite drop_0, app_nil_r].
  2: { apply (build_shape l vm); (done || lia). }
  2: { apply (build_distinct l vm); (exact Hsib || done || lia). }
  unfold advance. cbn [nBitsUsed nHashUsed xMatch xIndex xBad Nat.add app negb andb].
  rewrite (proj2 (Nat.eqb_eq _ _)) by done. rewrite Nat.eqb_refl. cbn [andb].
  rewrite (build_root l vm) by (done || lia). rewrite (build_matches l vm) by (done || lia).
  rewrite Hsel. rewrite ComputeMerkleRoot_spec by lia. cbn [fst]. subst h. by rewrite root_level.
Qed.

(** Whatever is accepted under a block's root selects that block's transactions. *)
Lemma ExtractMatches_accepted t vnIndex l :
  l <> [] -> Z.of_nat (length l) <= 2 ^ 30 -> 0 <= nTransactions t ->
  tree_height (Z.to_nat (nTransactions t)) = tree_height (length l) ->
  forall matches indices t',
  ExtractMatches t vnIndex = (fst (ComputeMerkleRoot null hash2 l), matches, indices, t') ->
  fst (ComputeMerkleRoot null hash2 l) <> null ->
  exists pt bs, shape (Z.to_nat (nTransactions t)) (tree_height (length l)) 0 pt /\
    vBits t = bits_of pt ++ bs /\ vHash t = hashes_of pt /\
    matches = map snd (matches_of 0 pt) /\ indices = vnIndex ++ map (fun m => Z.of_nat (fst m)) (matches_of 0 pt) /\
    (Forall (fun m => l !! fst m = Some (snd m)) (matches_of 0 pt) \/
     collision hash2 (tree_pairs hash2 (tree_height (length l)) l ++ pairs_of pt)).
Proof.
  intros Hne Hl Hn Hheight matches indices t'. rewrite ComputeMerkleRoot_spec by lia. cbn [fst].
  intros HE Hroot. revert HE. unfold ExtractMatches. change max_transactions with 33333.
  destruct (Z.eqb_spec (nTransactions t) 0) as [|H0]; [intros HE; injection HE; congruence|].
  destruct (Z.ltb_spec 33333 (nTransactions t)) as [|Hmax]; [intros HE; injection HE; congruence|].
  destruct (Z.ltb_spec (nTransactions t) (Z.of_nat (length (vHash t)))); [intros HE; injection HE; congruence|].
  destruct (_ <? _)%nat; [intros HE; injection HE; congruence|].
  set (n := Z.to_nat (nTransactions t)) in *. assert (nTransactions t = Z.of_nat n) as En by lia. rewrite En at 1.
  destruct (tree_levels_height n) as (-> & Hh & Hw1); [lia..|].
  match goal with |- context [TraverseAndExtract t _ 0 ?x0] =>
    destruct (TraverseAndExtract t (tree_height n) 0 x0) as [r x] eqn:Ex end.
  cbn [vBits vHash]. destruct (xBad x) eqn:Eb; cbn [negb andb]; [intros HE; injection HE; congruence|].
  destruct (_ =? (length (vBits t) + 7) / 8)%nat; cbn [andb]; [|intros HE; injection HE; congruence].
  destruct (Nat.eqb_spec (nHashUsed x) (length (vHash t))) as [Eh|]; [|intros HE; injection HE; congruence].
  intros [= Er <- <- _]. change 0 with (Z.of_nat 0) in Ex.
  destruct (TraverseAndExtract_sound t n En ltac:(lia) (tree_height n) 0 _ r x Hh ltac:(lia) Ex Eb)
    as (pt & bs & hs & Hs & Hd & -> & -> & Hbits & Hhashes).
  cbn [nBitsUsed nHashUsed] in *. rewrite ?drop_0 in Hbits; rewrite ?drop_0 in Hhashes.
  assert (hs = []) as ->.
  { cbn [advance nHashUsed] in Eh. rewrite Hhashes, length_app in Eh. destruct hs; [done|cbn in Eh; lia]. }
  rewrite app_nil_r in Hhashes. exists pt, bs. rewrite Hheight in Hs. split_and!; try done.
  destruct (collision_or_injective hash2 (tree_pairs hash2 (tree_height (length l)) l ++ pairs_of pt)) as [|Hinj];
    [by right|left].
  assert (0 < length l)%nat as Hl0 by (destruct l; [done|cbn; lia]).
  destruct (tree_levels_height (length l) Hl0 Hl) as (_ & _ & Hwl).
  apply (matches_in_tree l (tree_height (length l)) (fun x => In x (tree_pairs hash2 (tree_height (length l)) l ++ pairs_of pt)))
    with (n := n) (h := tree_height (length l)); try done; try lia.
  - intros x Hx. apply in_app_iff. by left.
  - intros x Hx. apply in_app_iff. by right.
  - by rewrite root_level.
Qed.

End PartialTree.

Arguments CPartialMerkleTree : clear implicits.

(** ** On the wire: hashes of the node, flag bits packed into bytes *)

Abbreviation tree256 := (CPartialMerkleTree (list Z)).

(** [vBytes[p / 8] |= vBits[p] << (p % 8)] *)
Definition pack_bits (vBits : list bool) : list Z :=
  fold_left
    (fun vBytes p =>
       <[(p / 8)%nat := u8 (aget vBytes (p / 8) .| (b2z (default false (vBits !! p)) .<< Z.of_nat (p mod 8)))]> vBytes)
    (seq 0 (length vBits)) (replicate ((length vBits + 7) / 8) 0).

(** [vBits[p] = (vBytes[p / 8] & (1 << (p % 8))) != 0] *)
Definition unpack_bits (vBytes : list Z) : list bool :=
  map (fun p => nz (aget vBytes (p / 8) .& (1 .<< Z.of_nat (p mod 8)))) (seq 0 (length vBytes * 8)).

Definition CPartialMerkleTree_Serialize (t : tree256) : list Z :=
  ser_writedata32 (nTransactions t) ++ vector_Serialize (map Build_uint256 (vHash t)) ++ blob_Serialize (pack_bits (vBits t)).

Definition CPartialMerkleTree_Unserialize : reader tree256 := fun s =>
  let! r := ser_readdata32 s in
  let '(n, s) := r in
  let! r := vector_Unserialize sizeof_uint256 s in
  let '(hashes, s) := r in
  let! r := blob_Unserialize s in
  let '(vBytes, s) := r in
  Ok ({| nTransactions := n; vBits := unpack_bits vBytes; vHash := map u256_data hashes; fBad := false |}, s).

(** ** Merkle blocks *)

Record CMerkleBlock : Type := {
  mb_header : CBlockHeader;
  txn : tree256;
  vMatchedTxn : list (nat * list Z);
}.

(** [CMerkleBlock(const CBlock& block, const std::set<uint256>& txids)] *)
Definition CMerkleBlock_of_txids (block : CBlock) (txids : list Z -> bool) : CMerkleBlock :=
  let vHashes := map tx_hash (vtx block) in
  {| mb_header := GetBlockHeader block;
     txn := CPartialMerkleTree_new null256 hash_pair vHashes (map txids vHashes);
     vMatchedTxn := [] |}.

Definition CMerkleBlock_Serialize (b : CMerkleBlock) : list Z :=
  CBlockHeader_Serialize (mb_header b) ++ CPartialMerkleTree_Serialize (txn b).
Definition CMerkleBlock_Unserialize : reader CMerkleBlock := fun s =>
  let! r := CBlockHeader_Unserialize s in
  let '(h, s) := r in
  let! r := CPartialMerkleTree_Unserialize s in
  let '(t, s) := r in
  Ok ({| mb_header := h; txn := t; vMatchedTxn := [] |}, s).

(** *** Packing *)

Lemma unpack_lookup v p : unpack_bits v !! p =
  if (p <? length v * 8)%nat then Some (Z.testbit (aget v (p / 8)) (Z.of_nat (p mod 8))) else None.
Proof.
  unfold unpack_bits. rewrite list_lookup_fmap. destruct (Nat.ltb_spec p (length v * 8)).
  - rewrite lookup_seq_lt by done. cbn [fmap option_fmap option_map Nat.add]. f_equal.
    rewrite Z.shiftl_1_l. apply base_uint.nz_testbit. lia.
  - by rewrite lookup_seq_ge.
Qed.

Lemma div8_mod8 p q i : (i < 8)%nat -> (p / 8)%nat = q /\ (p mod 8)%nat = i <-> p = (8 * q + i)%nat.
Proof. intros. split; [intros [<- <-]; apply Nat.div_mod; lia|intros ->; split; dlia]. Qed.

Lemma pack_loop_spec bits k : (k <= length bits)%nat ->
  let v := fold_left
    (fun vBytes p =>
       <[(p / 8)%nat := u8 (aget vBytes (p / 8) .| (b2z (default false (bits !! p)) .<< Z.of_nat (p mod 8)))]> vBytes)
    (seq 0 k) (replicate ((length bits + 7) / 8) 0) in
  length v = ((length bits + 7) / 8)%nat /\ bytes_ok v /\
  forall q i, (i < 8)%nat -> Z.testbit (aget v q) (Z.of_nat i) = (8 * q + i <? k)%nat && default false (bits !! (8 * q + i)%nat).
Proof.
  induction k as [|k IH]; intros Hk.
  - cbn [seq fold_left]. split; [by rewrite length_replicate|]. split.
    + by apply Forall_replicate.
    + intros q i Hi. rewrite aget_default. cbn [Nat.ltb Nat.leb andb].
      destruct (replicate _ 0 !! q) eqn:E; [|apply Z.bits_0]. apply lookup_replicate_1 in E as [-> _]. apply Z.bits_0.
  - rewrite seq_S, fold_left_app. cbn [fold_left Nat.add]. destruct (IH ltac:(lia)) as (Hl & Hok & Hbits).
    set (v := fold_left _ (seq 0 k) _) in *. split_and!.
    + by rewrite length_insert.
    + apply Forall_insert; [done|apply u8_range].
    + intros q i Hi. rewrite base_uint.aget_insert, Hl. rewrite (proj2 (Nat.ltb_lt (k / 8) _)) by dlia.
      rewrite andb_true_r. destruct (Nat.eqb_spec (k / 8) q) as [<-|Hq].
      2: { rewrite Hbits by done. destruct (Nat.ltb_spec (8 * q + i) k), (Nat.ltb_spec (8 * q + i) (S k)); try done; lia. }
      unfold u8, wrapu. rewrite Z.mod_pow2_bits_low, Z.lor_spec, Hbits by lia.
      rewrite Z.shiftl_spec by lia.
      destruct (decide (k mod 8 = i)%nat) as [<-|Hne].
      * replace (8 * (k / 8) + k mod 8)%nat with k by (apply Nat.div_mod; lia).
        rewrite Nat.ltb_irrefl, (proj2 (Nat.ltb_lt k (S k))), Z.sub_diag by lia. cbn [andb orb].
        by destruct (default false (bits !! k)).
      * assert (Z.testbit (b2z (default false (bits !! k))) (Z.of_nat i - Z.of_nat (k mod 8)) = false) as ->.
        { destruct (default false (bits !! k)); [|apply Z.bits_0].
          destruct (Z.ltb_spec (Z.of_nat i) (Z.of_nat (k mod 8))); [by apply Z.testbit_neg_r; lia|].
          change (b2z true) with (2 ^ 0). apply Z.pow2_bits_false. lia. }
        rewrite orb_false_r. f_equal.
        assert (8 * (k / 8) + i <> k)%nat by (intros E; symmetry in E; apply div8_mod8 in E as [_ ?]; [done|done]).
        destruct (Nat.ltb_spec (8 * (k / 8) + i) k), (Nat.ltb_spec (8 * (k / 8) + i) (S k)); lia.
Qed.

(** Packing loses nothing but the length: the bits come back padded to bytes. *)
Lemma unpack_pack bits : exists pad,
  unpack_bits (pack_bits bits) = bits ++ pad /\ bytes_ok (pack_bits bits) /\
  length (pack_bits bits) = ((length bits + 7) / 8)%nat /\
  ((length bits + 7) / 8 = (length (bits ++ pad) + 7) / 8)%nat.
Proof.
  destruct (pack_loop_spec bits (length bits) ltac:(lia)) as (Hl & Hok & Hbits).
  change (fold_left _ (seq 0 (length bits)) _) with (pack_bits bits) in *.
  set (L := ((length bits + 7) / 8)%nat) in *. assert (length bits <= L * 8 < length bits + 8)%nat as HL by (subst L; dlia).
  exists (replicate (L * 8 - length bits) false). split_and!; [|done|done|].
  - apply list_eq. intros p. rewrite unpack_lookup, Hl.
    destruct (Nat.ltb_spec p (L * 8)) as [Hp|Hp].
    + rewrite Hbits by dlia. replace (8 * (p / 8) + p mod 8)%nat with p by (apply Nat.div_mod; lia).
      destruct (Nat.ltb_spec p (length bits)) as [H1|H1]; cbn [andb].
      * rewrite lookup_app_l by done. by destruct (lookup_lt_is_Some_2 bits p H1) as [b ->].
      * rewrite lookup_app_r by done. by rewrite lookup_replicate_2 by lia.
    + rewrite lookup_ge_None_2; [done|]. rewrite length_app, length_replicate. lia.
  - rewrite length_app, length_replicate. subst L. dlia.
Qed.

Lemma map_u256 l : map u256_data (map Build_uint256 l) = l.
Proof. rewrite map_map. cbn. apply map_id. Qed.

Lemma tree_reads_back (t : tree256) rest :
  is_u 32 (nTransactions t) -> Forall uint256_ok (vHash t) -> Z.of_nat (length (vHash t)) <= MAX_SIZE ->
  Z.of_nat (length (vBits t)) <= MAX_SIZE ->
  exists pad, CPartialMerkleTree_Unserialize (CPartialMerkleTree_Serialize t ++ rest) =
    Ok ({| nTransactions := nTransactions t; vBits := vBits t ++ pad; vHash := vHash t; fBad := false |}, rest) /\
    ((length (vBits t) + 7) / 8 = (length (vBits t ++ pad) + 7) / 8)%nat.
Proof.
  intros Hn Hh Hl1 Hl2. destruct (unpack_pack (vBits t)) as (pad & E & Hok & Hlen & Hpad). exists pad. split; [|done].
  unfold CPartialMerkleTree_Unserialize, CPartialMerkleTree_Serialize. rewrite <- !app_assoc.
  rewrite read32_write by done. cbn [rbind]. rewrite vHave_roundtrip.
  - cbn [rbind]. rewrite blob_roundtrip; [cbn [rbind]; by rewrite E, map_u256|]. split; [|done]. rewrite Hlen. dlia.
  - split; [by rewrite length_map|]. apply Forall_map. cbn. done.
Qed.

(** *** Everything hashed fits its type *)

Lemma hash_pair_ok a b : uint256_ok (hash_pair a b).
Proof.
  split; [done|]. unfold hash_pair, Hash, CHash256_Finalize, Finalize.
  match goal with |- bytes_ok (digest (h_s ?f)) => generalize (h_s f); intros s end.
  cbn [digest CSHA256]. repeat (apply Forall_app; split); apply Forall_reverse, le_bytes_ok.
Qed.

Section Sizes.
Context (l : list (list Z)) (vm : list bool) (l_ok : Forall uint256_ok l).

Lemma pair_level_ok (L : list (list Z)) : Forall uint256_ok L -> Forall uint256_ok (pair_level hash_pair L).
Proof.
  induction L as [|a|a b r IH] using pair_ind; intros HF; cbn [pair_level]; [constructor|constructor; [apply hash_pair_ok|constructor]|].
  constructor; [apply hash_pair_ok|]. apply IH. by inversion HF as [|? ? _ H']; inversion H'.
Qed.

Lemma node_ok h p : uint256_ok (node null256 hash_pair h p l).
Proof.
  assert (Forall uint256_ok (level hash_pair h l)) as HF.
  { induction h as [|h IH]; [done|]. by apply pair_level_ok. }
  unfold node. destruct (nth_in_or_default p (level hash_pair h l) null256) as [Hin| ->].
  - rewrite List.Forall_forall in HF. by apply HF.
  - split; [done|]. apply Forall_replicate. unfold is_u. lia.
Qed.

Lemma build_hashes_ok h p : Forall uint256_ok (hashes_of (build null256 hash_pair l vm h p)).
Proof.
  revert p. induction h as [|h IH]; intros p; cbn [build]; destruct (bool_decide _); cbn [hashes_of];
    try (constructor; [apply node_ok|constructor]).
  destruct (_ <? _)%nat; cbn [hashes_of]; [|apply IH]. apply Forall_app. split; apply IH.
Qed.

Lemma build_bits_length h p : (length (bits_of (build null256 hash_pair l vm h p)) < 2 ^ S h)%nat.
Proof.
  revert p. induction h as [|h IH]; intros p; cbn [build]; destruct (bool_decide _); cbn [bits_of length]; try (cbn; lia).
  pose proof (IH (2 * p)%nat). pose proof (IH (2 * p + 1)%nat). cbn [Nat.pow] in *.
  destruct (_ <? _)%nat; cbn [bits_of length]; rewrite ?length_app; lia.
Qed.

End Sizes.

(** ** The theorems *)

(** Proofs that transactions are in a block arrive intact.  For the ids of a
    block's transactions, up to the number a block can hold and not flagged as
    mutated, and any choice among them, the partial tree built, written and read
    back yields on extraction the block's Merkle root and exactly the chosen ids,
    in order, with their positions; unless the block's own tree exhibits a
    collision of the hash. *)
Theorem merkle_proof_complete (txids : list (list Z)) (vMatch : list bool) (rest : list Z) :
  txids <> [] -> Z.of_nat (length txids) <= max_transactions -> length vMatch = length txids ->
  Forall uint256_ok txids -> snd (BlockMerkleRoot txids) = false ->
  exists t', CPartialMerkleTree_Unserialize
      (CPartialMerkleTree_Serialize (CPartialMerkleTree_new null256 hash_pair txids vMatch) ++ rest) = Ok (t', rest) /\
    (collision hash_pair (tree_pairs hash_pair (tree_height (length txids)) txids) \/
     ExtractMatches null256 hash_pair t' [] =
       (fst (BlockMerkleRoot txids), map snd (selected txids vMatch 0 (length txids)),
        map (fun m => Z.of_nat (fst m)) (selected txids vMatch 0 (length txids)), t')).
Proof.
  intros Hne Hmax Hvm Hok Hflag. pose proof Hmax as Hmax'. change max_transactions with 33333 in Hmax'.
  set (t := CPartialMerkleTree_new null256 hash_pair txids vMatch).
  assert (0 < length txids)%nat as H0 by (destruct txids; [done|cbn; lia]).
  destruct (tree_levels_height (length txids) H0 ltac:(lia)) as (Hlev & _ & Hw1). set (h := tree_height (length txids)) in *.
  assert (h <= 16)%nat as Hh by (apply Nat.log2_up_le_pow2; [done|apply Nat2Z.inj_le; rewrite Nat2Z.inj_pow; change (Z.of_nat 2 ^ Z.of_nat 16) with 65536; lia]).
  assert (t = {| nTransactions := Z.of_nat (length txids); vBits := bits_of (build null256 hash_pair txids vMatch h 0);
                 vHash := hashes_of (build null256 hash_pair txids vMatch h 0); fBad := false |}) as Et.
  { subst t. unfold CPartialMerkleTree_new. rewrite u32_id by (unfold is_u; lia). rewrite Hlev.
    rewrite (TraverseAndBuild_spec null256 hash_pair txids vMatch Hvm ltac:(lia) h 0) by lia. done. }
  pose proof (build_bits_length txids vMatch h 0) as Hb.
  assert (Z.of_nat (2 ^ S h) <= 2 ^ 17) as Hp by (rewrite Nat2Z.inj_pow; apply Z.pow_le_mono_r; lia).
  set (nodes := (2 ^ S h)%nat) in *. clearbody nodes. pose proof (hashes_bits (build null256 hash_pair txids vMatch h 0)) as Hhb.
  destruct (tree_reads_back t rest) as (pad & E & Hpad).
  - rewrite Et. cbn [nTransactions]. unfold is_u. lia.
  - rewrite Et. by apply build_hashes_ok.
  - rewrite Et. cbn [vHash]. unfold MAX_SIZE. lia.
  - rewrite Et. cbn [vBits]. unfold MAX_SIZE. lia.
  - eexists. split; [exact E|].
    destruct (ExtractMatches_built null256 hash_pair txids vMatch [] pad Hne Hmax Hvm Hflag Hpad) as [|Hex]; [by left|right].
    subst t. rewrite Et in Hex |- *. exact Hex.
Qed.

(** C38: nothing else is believed.  Whatever partial tree a peer sends, if extraction gives
    the Merkle root of a block (not null) and the number of transactions it claims
    makes a tree as high as the block's, then each id it reports is that of the
    block's transaction at the position reported; or else two different pairs
    among those hashed for the block and for the proof collide. *)
Theorem merkle_proof_sound (t : tree256) (vnIndex : list Z) (txids matches : list (list Z)) (indices : list Z) (t' : tree256) :
  txids <> [] -> Z.of_nat (length txids) <= 2 ^ 30 -> 0 <= nTransactions t ->
  tree_height (Z.to_nat (nTransactions t)) = tree_height (length txids) ->
  ExtractMatches null256 hash_pair t vnIndex = (fst (BlockMerkleRoot txids), matches, indices, t') ->
  fst (BlockMerkleRoot txids) <> null256 ->
  exists pt padding found,
    vBits t = bits_of pt ++ padding /\ vHash t = hashes_of pt /\ found = matches_of 0 pt /\
    matches = map snd found /\ indices = vnIndex ++ map (fun m => Z.of_nat (fst m)) found /\
    (Forall (fun m => txids !! fst m = Some (snd m)) found \/
     collision hash_pair (tree_pairs hash_pair (tree_height (length txids)) txids ++ pairs_of hash_pair pt)).
Proof.
  intros Hne Hl Hn Hheight HE Hroot.
  destruct (ExtractMatches_accepted null256 hash_pair t vnIndex txids Hne Hl Hn Hheight matches indices t' HE Hroot)
    as (pt & bs & _ & H1 & H2 & H3 & H4 & H5).
  by exists pt, bs, (matches_of 0 pt).
Qed.

(** Seven transactions, the second and the last chosen. *)
Definition sample_txids : list (list Z) := map (fun i => replicate 32 i) [1; 2; 3; 4; 5; 6; 7].
Definition sample_choice : list bool := [false; true; false; false; false; false; true].

Lemma sample_txids_ok : Forall uint256_ok sample_txids.
Proof. repeat constructor; unfold is_u; lia. Qed.

Lemma merkle_proof_complete_witness :
  exists t', CPartialMerkleTree_Unserialize
      (CPartialMerkleTree_Serialize (CPartialMerkleTree_new null256 hash_pair sample_txids sample_choice) ++ []) = Ok (t', []) /\
    (collision hash_pair (tree_pairs hash_pair 3 sample_txids) \/
     ExtractMatches null256 hash_pair t' [] =
       (fst (BlockMerkleRoot sample_txids), [replicate 32 2; replicate 32 7], [1; 6], t')).
Proof.
  apply (merkle_proof_complete sample_txids sample_choice []).
  - discriminate.
  - vm_compute. discriminate.
  - reflexivity.
  - exact sample_txids_ok.
  - vm_compute. reflexivity.
Defined.

Lemma merkle_proof_sound_witness :
  exists pt found,
    matches_of 0 pt = found /\ [replicate 32 2; replicate 32 7] = map snd found /\ [1; 6] = map (fun m => Z.of_nat (fst m)) found /\
    (Forall (fun m => sample_txids !! fst m = Some (snd m)) found \/
     collision hash_pair (tree_pairs hash_pair 3 sample_txids ++ pairs_of hash_pair pt)).
Proof.
  destruct (merkle_proof_sound (CPartialMerkleTree_new null256 hash_pair sample_txids sample_choice) [] sample_txids
    [replicate 32 2; replicate 32 7] [1; 6] (CPartialMerkleTree_new null256 hash_pair sample_txids sample_choice))
    as (pt & pad & found & _ & _ & H1 & H2 & H3 & H4).
  - discriminate.
  - vm_compute. discriminate.
  - vm_compute. discriminate.
  - vm_compute. reflexivity.
  - vm_compute. reflexivity.
  - vm_compute. discriminate.
  - exists pt, found. split; [symmetry; exact H1|]. split; [exact H2|]. split; [exact H3|exact H4].
Defined.
