(* ===== verification/ProviderTx.v ===== *)
(** * Provider transactions (src/src/evo/providertx.h, src/src/evo/specialtx.h)

    The payloads with which masternodes are registered, updated and revoked, and
    the types they are made of: network addresses (src/src/netaddress.h), key
    identifiers (src/src/pubkey.h), BLS keys and signatures (src/src/bls/bls.h).
    The BLS curve is a library outside src/: class [BLSCurve].  The theorem: a
    payload and its bytes determine each other. *)

From S2P Require Import Prelude Bytes Serialize Containers Compact Transaction Block.
Local Open Scope cxx_scope.

(** ** Addresses and key identifiers *)

(** [CNetAddr] and [CService]; [scopeId] takes part neither in comparison nor in
    serialization. *)
Record CService : Type := { ip : list Z; port : Z }.
#[global] Instance CService_eq_dec : EqDecision CService.
Proof. solve_decision. Defined.

Definition CService_null : CService := {| ip := replicate 16 0; port := 0 |}.

(** [htons] makes the two bytes of the port big-endian in memory. *)
Definition CService_Serialize (a : CService) : list Z := ip a ++ reverse (WriteLE16 (port a)).
Definition CService_Unserialize : reader CService := fun s =>
  let! r := read_bytes 16 s in
  let '(ip, s) := r in
  let! r := read_bytes 2 s in
  let '(portN, s) := r in
  Ok ({| ip := ip; port := ReadLE16 (reverse portN) |}, s).
#[global] Instance CService_serializable : Serializable CService :=
  {| Serialize := CService_Serialize; Unserialize := CService_Unserialize |}.

(** A [uint160]. *)
Record CKeyID : Type := { keyid : list Z }.
#[global] Instance CKeyID_eq_dec : EqDecision CKeyID.
Proof. solve_decision. Defined.

Definition CKeyID_null : CKeyID := {| keyid := replicate 20 0 |}.
Definition CKeyID_IsNull (k : CKeyID) : bool := forallb (fun b => b =? 0) (keyid k).
#[global] Instance CKeyID_serializable : Serializable CKeyID :=
  {| Serialize := keyid;
     Unserialize := fun s => let! r := read_bytes 20 s in Ok ({| keyid := fst r |}, snd r) |}.

(** ** BLS keys and signatures *)

(** [CBLSWrapper]: nothing, or the canonical bytes of a curve object. *)
Record CBLSPublicKey : Type := { bls_pk : option (list Z) }.
Record CBLSSignature : Type := { bls_sig : option (list Z) }.
#[global] Instance CBLSPublicKey_eq_dec : EqDecision CBLSPublicKey.
Proof. solve_decision. Defined.
#[global] Instance CBLSSignature_eq_dec : EqDecision CBLSSignature.
Proof. solve_decision. Defined.

Definition CBLSPublicKey_null : CBLSPublicKey := {| bls_pk := None |}.
Definition IsValid (k : CBLSPublicKey) : bool := bool_decide (is_Some (bls_pk k)).
Definition SigIsValid (s : CBLSSignature) : bool := bool_decide (is_Some (bls_sig s)).

(** What the curve library (chiabls) decides: which buffers are the canonical
    bytes of an object, and which signatures are right. *)
Class BLSCurve : Type := {
  public_key_ok : list Z -> bool;
  signature_ok : list Z -> bool;
  curve_Verify : list Z -> list Z -> list Z -> bool;
  curve_VerifySecure : list Z -> list (list Z) -> list Z -> bool;
}.

Definition BLS_GetBuf (size : nat) (obj : option (list Z)) : list Z :=
  match obj with None => replicate size 0 | Some buf => buf end.

(** [SetBuf]: zeros are the null object; [CheckMalleable] throws unless the bytes
    are those the object writes, hence also for an invalid one, which was reset. *)
Definition BLS_Unserialize (size : nat) (ok : list Z -> bool) : reader (option (list Z)) := fun s =>
  let! r := read_bytes size s in
  let '(buf, s) := r in
  if forallb (fun b => b =? 0) buf then Ok (None, s)
  else if ok buf then Ok (Some buf, s)
  else Throw InvalidObject.

Definition SerSize_pk : nat := 48.
Definition SerSize_sig : nat := 96.

#[global] Instance CBLSPublicKey_serializable `{BLSCurve} : Serializable CBLSPublicKey :=
  {| Serialize k := BLS_GetBuf SerSize_pk (bls_pk k);
     Unserialize := fun s => let! r := BLS_Unserialize SerSize_pk public_key_ok s in Ok ({| bls_pk := fst r |}, snd r) |}.
#[global] Instance CBLSSignature_serializable `{BLSCurve} : Serializable CBLSSignature :=
  {| Serialize k := BLS_GetBuf SerSize_sig (bls_sig k);
     Unserialize := fun s => let! r := BLS_Unserialize SerSize_sig signature_ok s in Ok ({| bls_sig := fst r |}, snd r) |}.

Definition VerifyInsecure `{BLSCurve} (s : CBLSSignature) (pubKey : CBLSPublicKey) (hash : list Z) : bool :=
  match bls_sig s, bls_pk pubKey with
  | Some s, Some pk => curve_Verify s pk hash
  | _, _ => false
  end.

(** ** Payloads

    [Serialize_hashed] leaves the signature out, as [SER_GETHASH] streams do. *)

Module CProRegTx.
Record t : Type := {
  nVersion : Z;
  nType : Z;
  nMode : Z;
  collateralOutpoint : COutPoint;
  addr : CService;
  keyIDOwner : CKeyID;
  pubKeyOperator : CBLSPublicKey;
  keyIDVoting : CKeyID;
  nOperatorReward : Z;
  scriptPayout : list Z;
  inputsHash : list Z;
  vchSig : list Z;
}.
Definition CURRENT_VERSION : Z := 1.
#[export] Instance t_eq_dec : EqDecision t.
Proof. solve_decision. Defined.

Section BLS.
Context `{BLSCurve}.
Definition Serialize_hashed (p : t) : list Z :=
  ser_writedata16 (nVersion p) ++ ser_writedata16 (nType p) ++ ser_writedata16 (nMode p) ++
  Serialize (collateralOutpoint p) ++ Serialize (addr p) ++ Serialize (keyIDOwner p) ++
  Serialize (pubKeyOperator p) ++ Serialize (keyIDVoting p) ++ ser_writedata16 (nOperatorReward p) ++
  blob_Serialize (scriptPayout p) ++ uint256_Serialize (inputsHash p).
Definition Serialize (p : t) : list Z := Serialize_hashed p ++ blob_Serialize (vchSig p).
Definition Unserialize : reader t := fun s =>
  let! r := ser_readdata16 s in let '(version, s) := r in
  let! r := ser_readdata16 s in let '(type, s) := r in
  let! r := ser_readdata16 s in let '(mode, s) := r in
  let! r := Unserialize s in let '(coll, s) := r in
  let! r := Unserialize s in let '(addr, s) := r in
  let! r := Unserialize s in let '(owner, s) := r in
  let! r := Unserialize s in let '(operator, s) := r in
  let! r := Unserialize s in let '(voting, s) := r in
  let! r := ser_readdata16 s in let '(reward, s) := r in
  let! r := blob_Unserialize s in let '(payout, s) := r in
  let! r := uint256_Unserialize s in let '(inputs, s) := r in
  let! r := blob_Unserialize s in let '(sig, s) := r in
  Ok ({| nVersion := version; nType := type; nMode := mode; collateralOutpoint := coll; addr := addr;
         keyIDOwner := owner; pubKeyOperator := operator; keyIDVoting := voting; nOperatorReward := reward;
         scriptPayout := payout; inputsHash := inputs; vchSig := sig |}, s).
#[export] Instance serializable : Serializable t := {| Containers.Serialize := Serialize; Containers.Unserialize := Unserialize |}.
End BLS.
End CProRegTx.

Module CProUpServTx.
Record t : Type := {
  nVersion : Z;
  proTxHash : list Z;
  addr : CService;
  scriptOperatorPayout : list Z;
  inputsHash : list Z;
  sig : CBLSSignature;
}.
#[export] Instance t_eq_dec : EqDecision t.
Proof. solve_decision. Defined.

Section BLS.
Context `{BLSCurve}.
Definition Serialize_hashed (p : t) : list Z :=
  ser_writedata16 (nVersion p) ++ uint256_Serialize (proTxHash p) ++ Serialize (addr p) ++
  blob_Serialize (scriptOperatorPayout p) ++ uint256_Serialize (inputsHash p).
Definition Serialize (p : t) : list Z := Serialize_hashed p ++ Serialize (sig p).
Definition Unserialize : reader t := fun s =>
  let! r := ser_readdata16 s in let '(version, s) := r in
  let! r := uint256_Unserialize s in let '(hash, s) := r in
  let! r := Unserialize s in let '(addr, s) := r in
  let! r := blob_Unserialize s in let '(payout, s) := r in
  let! r := uint256_Unserialize s in let '(inputs, s) := r in
  let! r := Unserialize s in let '(sig, s) := r in
  Ok ({| nVersion := version; proTxHash := hash; addr := addr; scriptOperatorPayout := payout;
         inputsHash := inputs; sig := sig |}, s).
#[export] Instance serializable : Serializable t := {| Containers.Serialize := Serialize; Containers.Unserialize := Unserialize |}.
End BLS.
End CProUpServTx.

Module CProUpRegTx.
Record t : Type := {
  nVersion : Z;
  proTxHash : list Z;
  nMode : Z;
  pubKeyOperator : CBLSPublicKey;
  keyIDVoting : CKeyID;
  scriptPayout : list Z;
  inputsHash : list Z;
  vchSig : list Z;
}.
#[export] Instance t_eq_dec : EqDecision t.
Proof. solve_decision. Defined.

Section BLS.
Context `{BLSCurve}.
Definition Serialize_hashed (p : t) : list Z :=
  ser_writedata16 (nVersion p) ++ uint256_Serialize (proTxHash p) ++ ser_writedata16 (nMode p) ++
  Serialize (pubKeyOperator p) ++ Serialize (keyIDVoting p) ++ blob_Serialize (scriptPayout p) ++
  uint256_Serialize (inputsHash p).
Definition Serialize (p : t) : list Z := Serialize_hashed p ++ blob_Serialize (vchSig p).
Definition Unserialize : reader t := fun s =>
  let! r := ser_readdata16 s in let '(version, s) := r in
  let! r := uint256_Unserialize s in let '(hash, s) := r in
  let! r := ser_readdata16 s in let '(mode, s) := r in
  let! r := Unserialize s in let '(operator, s) := r in
  let! r := Unserialize s in let '(voting, s) := r in
  let! r := blob_Unserialize s in let '(payout, s) := r in
  let! r := uint256_Unserialize s in let '(inputs, s) := r in
  let! r := blob_Unserialize s in let '(sig, s) := r in
  Ok ({| nVersion := version; proTxHash := hash; nMode := mode; pubKeyOperator := operator; keyIDVoting := voting;
         scriptPayout := payout; inputsHash := inputs; vchSig := sig |}, s).
#[export] Instance serializable : Serializable t := {| Containers.Serialize := Serialize; Containers.Unserialize := Unserialize |}.
End BLS.
End CProUpRegTx.

Module CProUpRevTx.
Record t : Type := {
  nVersion : Z;
  proTxHash : list Z;
  nReason : Z;
  inputsHash : list Z;
  sig : CBLSSignature;
}.
#[export] Instance t_eq_dec : EqDecision t.
Proof. solve_decision. Defined.
Definition REASON_NOT_SPECIFIED : Z := 0.
Definition REASON_LAST : Z := 3.

Section BLS.
Context `{BLSCurve}.
Definition Serialize_hashed (p : t) : list Z :=
  ser_writedata16 (nVersion p) ++ uint256_Serialize (proTxHash p) ++ ser_writedata16 (nReason p) ++
  uint256_Serialize (inputsHash p).
Definition Serialize (p : t) : list Z := Serialize_hashed p ++ Serialize (sig p).
Definition Unserialize : reader t := fun s =>
  let! r := ser_readdata16 s in let '(version, s) := r in
  let! r := uint256_Unserialize s in let '(hash, s) := r in
  let! r := ser_readdata16 s in let '(reason, s) := r in
  let! r := uint256_Unserialize s in let '(inputs, s) := r in
  let! r := Unserialize s in let '(sig, s) := r in
  Ok ({| nVersion := version; proTxHash := hash; nReason := reason; inputsHash := inputs; sig := sig |}, s).
#[export] Instance serializable : Serializable t := {| Containers.Serialize := Serialize; Containers.Unserialize := Unserialize |}.
End BLS.
End CProUpRevTx.

Export (hints) CProRegTx CProUpServTx CProUpRegTx CProUpRevTx.

(** [GetTxPayload]: nothing may be left over. *)
Definition GetTxPayload (T : Type) `{Serializable T} (payload : list Z) : option T :=
  match Unserialize payload with
  | Ok (obj, []) => Some obj
  | _ => None
  end.
Definition SetTxPayload {T : Type} `{Serializable T} (payload : T) : list Z := Serialize payload.

(** ** Reading back *)

Lemma WriteLE16_Read l : bytes_ok l -> length l = 2%nat -> WriteLE16 (ReadLE16 l) = l /\ is_u 16 (ReadLE16 l).
Proof.
  intros Hb Hl. unfold WriteLE16, ReadLE16. rewrite take_ge by lia. rewrite <- Hl at 1. rewrite le_bytes_val by done.
  split; [done|]. pose proof (le_val_range l Hb) as Hr. by rewrite Hl in Hr.
Qed.

Definition CService_ok (a : CService) : Prop := length (ip a) = 16%nat /\ bytes_ok (ip a) /\ is_u 16 (port a).
#[global] Program Instance CService_RoundTrip : RoundTrip CService := {| serializable := CService_ok |}.
Next Obligation.
  intros [a p] rest (Hl & _ & Hp). cbn [ip port] in *. cbn [Unserialize Serialize CService_serializable].
  unfold CService_Unserialize, CService_Serialize. cbn [ip port]. rewrite <- app_assoc, read_bytes_app by done.
  cbn [rbind]. rewrite read_bytes_app by (by rewrite length_reverse). cbn [rbind].
  rewrite reverse_involutive. by rewrite <- (app_nil_r (WriteLE16 p)), ReadLE16_Write.
Qed.
#[global] Program Instance CService_Canonical : Canonical CService.
Next Obligation.
  intros s x rest Hs. cbn [Unserialize Serialize CService_serializable]. unfold CService_Unserialize.
  destruct (read_bytes 16 s) as [[a s1]|] eqn:E1; [|done]. cbn [rbind].
  apply read_bytes_inv in E1 as [-> Ha]. apply Forall_app in Hs as [Hba Hs].
  destruct (read_bytes 2 s1) as [[p s2]|] eqn:E2; [|done]. cbn [rbind].
  apply read_bytes_inv in E2 as [-> Hp]. apply Forall_app in Hs as [Hbp Hs]. intros [= <- <-].
  assert (bytes_ok (reverse p)) as Hr by (unfold bytes_ok in *; by rewrite reverse_Permutation).
  destruct (WriteLE16_Read (reverse p) Hr ltac:(by rewrite length_reverse)) as [E Hu].
  unfold CService_Serialize. cbn [ip port]. rewrite E, reverse_involutive, <- app_assoc. done.
Qed.

Definition CKeyID_ok (k : CKeyID) : Prop := length (keyid k) = 20%nat /\ bytes_ok (keyid k).
#[global] Program Instance CKeyID_RoundTrip : RoundTrip CKeyID := {| serializable := CKeyID_ok |}.
Next Obligation.
  intros [k] rest [Hl _]. cbn [Unserialize Serialize CKeyID_serializable keyid] in *. by rewrite read_bytes_app.
Qed.
#[global] Program Instance CKeyID_Canonical : Canonical CKeyID.
Next Obligation.
  intros s x rest Hs. cbn [Unserialize Serialize CKeyID_serializable].
  destruct (read_bytes 20 s) as [[k r]|] eqn:E; [|done]. apply read_bytes_inv in E as [-> Hk].
  apply Forall_app in Hs as [Hb Hr]. by intros [= <- <-].
Qed.

Definition bls_ok (size : nat) (ok : list Z -> bool) (obj : option (list Z)) : Prop :=
  match obj with
  | None => True
  | Some buf => length buf = size /\ bytes_ok buf /\ forallb (fun b => b =? 0) buf = false /\ ok buf = true
  end.

Lemma zeros_replicate l : forallb (fun b => b =? 0) l = true -> l = replicate (length l) 0.
Proof. induction l as [|x l IH]; [done|]. cbn. intros [->%Z.eqb_eq H]%andb_true_iff. by rewrite <- IH. Qed.
Lemma replicate_zeros n : forallb (fun b => b =? 0) (replicate n 0) = true.
Proof. by induction n. Qed.

Lemma bls_read size ok obj rest : bls_ok size ok obj ->
  BLS_Unserialize size ok (BLS_GetBuf size obj ++ rest) = Ok (obj, rest).
Proof.
  intros Hok. unfold BLS_Unserialize, BLS_GetBuf. destruct obj as [buf|].
  - destruct Hok as (Hl & _ & Hz & Hv). rewrite read_bytes_app by done. cbn [rbind]. by rewrite Hz, Hv.
  - rewrite read_bytes_app by apply length_replicate. cbn [rbind]. by rewrite replicate_zeros.
Qed.
Lemma bls_inv size ok s obj rest : bytes_ok s -> BLS_Unserialize size ok s = Ok (obj, rest) ->
  s = BLS_GetBuf size obj ++ rest /\ bls_ok size ok obj /\ bytes_ok rest.
Proof.
  intros Hs. unfold BLS_Unserialize. destruct (read_bytes size s) as [[buf r]|] eqn:E; [|done]. cbn [rbind].
  apply read_bytes_inv in E as [-> Hl]. apply Forall_app in Hs as [Hb Hr].
  destruct (forallb _ buf) eqn:Ez.
  - intros [= <- <-]. cbn [BLS_GetBuf]. apply zeros_replicate in Ez. by rewrite <- Hl, <- Ez.
  - destruct (ok buf) eqn:Eo; [|done]. by intros [= <- <-].
Qed.

Section Curve.
Context `{BLSCurve}.

#[global] Program Instance CBLSPublicKey_RoundTrip : RoundTrip CBLSPublicKey :=
  {| serializable k := bls_ok SerSize_pk public_key_ok (bls_pk k) |}.
Next Obligation. intros [k] rest Hk. cbn [Unserialize Serialize CBLSPublicKey_serializable bls_pk] in *. by rewrite bls_read. Qed.
#[global] Program Instance CBLSPublicKey_Canonical : Canonical CBLSPublicKey.
Next Obligation.
  intros s x rest Hs. cbn [Unserialize Serialize CBLSPublicKey_serializable]. read_with bls_inv. by intros [= <- <-].
Qed.
#[global] Program Instance CBLSSignature_RoundTrip : RoundTrip CBLSSignature :=
  {| serializable k := bls_ok SerSize_sig signature_ok (bls_sig k) |}.
Next Obligation. intros [k] rest Hk. cbn [Unserialize Serialize CBLSSignature_serializable bls_sig] in *. by rewrite bls_read. Qed.
#[global] Program Instance CBLSSignature_Canonical : Canonical CBLSSignature.
Next Obligation.
  intros s x rest Hs. cbn [Unserialize Serialize CBLSSignature_serializable]. read_with bls_inv. by intros [= <- <-].
Qed.

Definition proreg_ok (p : CProRegTx.t) : Prop :=
  is_u 16 (CProRegTx.nVersion p) /\ is_u 16 (CProRegTx.nType p) /\ is_u 16 (CProRegTx.nMode p) /\
  serializable (CProRegTx.collateralOutpoint p) /\ serializable (CProRegTx.addr p) /\
  serializable (CProRegTx.keyIDOwner p) /\ serializable (CProRegTx.pubKeyOperator p) /\
  serializable (CProRegTx.keyIDVoting p) /\ is_u 16 (CProRegTx.nOperatorReward p) /\
  blob_ok (CProRegTx.scriptPayout p) /\ uint256_ok (CProRegTx.inputsHash p) /\ blob_ok (CProRegTx.vchSig p).
Definition proupserv_ok (p : CProUpServTx.t) : Prop :=
  is_u 16 (CProUpServTx.nVersion p) /\ uint256_ok (CProUpServTx.proTxHash p) /\ serializable (CProUpServTx.addr p) /\
  blob_ok (CProUpServTx.scriptOperatorPayout p) /\ uint256_ok (CProUpServTx.inputsHash p) /\
  serializable (CProUpServTx.sig p).
Definition proupreg_ok (p : CProUpRegTx.t) : Prop :=
  is_u 16 (CProUpRegTx.nVersion p) /\ uint256_ok (CProUpRegTx.proTxHash p) /\ is_u 16 (CProUpRegTx.nMode p) /\
  serializable (CProUpRegTx.pubKeyOperator p) /\ serializable (CProUpRegTx.keyIDVoting p) /\
  blob_ok (CProUpRegTx.scriptPayout p) /\ uint256_ok (CProUpRegTx.inputsHash p) /\ blob_ok (CProUpRegTx.vchSig p).
Definition prouprev_ok (p : CProUpRevTx.t) : Prop :=
  is_u 16 (CProUpRevTx.nVersion p) /\ uint256_ok (CProUpRevTx.proTxHash p) /\ is_u 16 (CProUpRevTx.nReason p) /\
  uint256_ok (CProUpRevTx.inputsHash p) /\ serializable (CProUpRevTx.sig p).

(** Runs a reader over what a writer wrote, field by field. *)
Ltac read_field :=
  first [ rewrite read16_write by done | rewrite uint256_read by done | rewrite blob_roundtrip by done
        | rewrite Unserialize_Serialize by done ]; cbn [rbind].
Ltac inv_field :=
  first [ read_with read16_inv | read_with uint256_inv | read_with blob_inv
        | read_with (Unserialize_inv (T:=COutPoint)) | read_with (Unserialize_inv (T:=CService))
        | read_with (Unserialize_inv (T:=CKeyID)) | read_with (Unserialize_inv (T:=CBLSPublicKey))
        | read_with (Unserialize_inv (T:=CBLSSignature)) ].

#[global] Program Instance CProRegTx_RoundTrip : RoundTrip CProRegTx.t := {| serializable := proreg_ok |}.
Next Obligation.
  intros p rest (?&?&?&?&?&?&?&?&?&?&?&?). cbn [Unserialize Serialize CProRegTx.serializable].
  unfold CProRegTx.Unserialize, CProRegTx.Serialize, CProRegTx.Serialize_hashed. rewrite <- !app_assoc.
  repeat read_field. by destruct p.
Qed.
#[global] Program Instance CProRegTx_Canonical : Canonical CProRegTx.t.
Next Obligation.
  intros s x rest Hs. cbn [Unserialize Serialize CProRegTx.serializable]. unfold CProRegTx.Unserialize.
  repeat inv_field. intros [= <- <-]. unfold CProRegTx.Serialize, CProRegTx.Serialize_hashed. rewrite <- !app_assoc. done.
Qed.
#[global] Program Instance CProUpServTx_RoundTrip : RoundTrip CProUpServTx.t := {| serializable := proupserv_ok |}.
Next Obligation.
  intros p rest (?&?&?&?&?&?). cbn [Unserialize Serialize CProUpServTx.serializable].
  unfold CProUpServTx.Unserialize, CProUpServTx.Serialize, CProUpServTx.Serialize_hashed. rewrite <- !app_assoc.
  repeat read_field. by destruct p.
Qed.
#[global] Program Instance CProUpServTx_Canonical : Canonical CProUpServTx.t.
Next Obligation.
  intros s x rest Hs. cbn [Unserialize Serialize CProUpServTx.serializable]. unfold CProUpServTx.Unserialize.
  repeat inv_field. intros [= <- <-]. unfold CProUpServTx.Serialize, CProUpServTx.Serialize_hashed. rewrite <- !app_assoc. done.
Qed.
#[global] Program Instance CProUpRegTx_RoundTrip : RoundTrip CProUpRegTx.t := {| serializable := proupreg_ok |}.
Next Obligation.
  intros p rest (?&?&?&?&?&?&?&?). cbn [Unserialize Serialize CProUpRegTx.serializable].
  unfold CProUpRegTx.Unserialize, CProUpRegTx.Serialize, CProUpRegTx.Serialize_hashed. rewrite <- !app_assoc.
  repeat read_field. by destruct p.
Qed.
#[global] Program Instance CProUpRegTx_Canonical : Canonical CProUpRegTx.t.
Next Obligation.
  intros s x rest Hs. cbn [Unserialize Serialize CProUpRegTx.serializable]. unfold CProUpRegTx.Unserialize.
  repeat inv_field. intros [= <- <-]. unfold CProUpRegTx.Serialize, CProUpRegTx.Serialize_hashed. rewrite <- !app_assoc. done.
Qed.
#[global] Program Instance CProUpRevTx_RoundTrip : RoundTrip CProUpRevTx.t := {| serializable := prouprev_ok |}.
Next Obligation.
  intros p rest (?&?&?&?&?). cbn [Unserialize Serialize CProUpRevTx.serializable].
  unfold CProUpRevTx.Unserialize, CProUpRevTx.Serialize, CProUpRevTx.Serialize_hashed. rewrite <- !app_assoc.
  repeat read_field. by destruct p.
Qed.
#[global] Program Instance CProUpRevTx_Canonical : Canonical CProUpRevTx.t.
Next Obligation.
  intros s x rest Hs. cbn [Unserialize Serialize CProUpRevTx.serializable]. unfold CProUpRevTx.Unserialize.
  repeat inv_field. intros [= <- <-]. unfold CProUpRevTx.Serialize, CProUpRevTx.Serialize_hashed. rewrite <- !app_assoc. done.
Qed.

End Curve.

(** For any format with both laws. *)
Lemma GetTxPayload_spec (T : Type) `{Canonical T} payload (obj : T) : bytes_ok payload ->
  GetTxPayload T payload = Some obj -> payload = SetTxPayload obj /\ serializable obj.
Proof.
  intros Hb. unfold GetTxPayload, SetTxPayload. destruct (Unserialize payload) as [[x r]|] eqn:E; [|done].
  destruct (Unserialize_inv _ _ _ Hb E) as (-> & Hx & _). destruct r; [|done]. intros [= <-]. by rewrite app_nil_r.
Qed.
Lemma GetTxPayload_SetTxPayload (T : Type) `{RoundTrip T} (obj : T) : serializable obj ->
  GetTxPayload T (SetTxPayload obj) = Some obj.
Proof.
  intros Hx. unfold GetTxPayload, SetTxPayload.
  pose proof (Unserialize_Serialize obj [] Hx) as E. rewrite app_nil_r in E. by rewrite E.
Qed.

(** Provider payloads.  For each of the four provider transactions, whatever the
    BLS library accepts as keys and signatures: a payload that was set is the one
    that is got, and a byte string from which a payload is got is the only one: it
    is the serialization of that payload, with nothing left over.  So a payload
    cannot be altered without altering what it says. *)
Theorem provider_payloads_canonical `{BLSCurve} :
  ((forall p : CProRegTx.t, proreg_ok p -> GetTxPayload CProRegTx.t (SetTxPayload p) = Some p) /\
   (forall p : CProUpServTx.t, proupserv_ok p -> GetTxPayload CProUpServTx.t (SetTxPayload p) = Some p) /\
   (forall p : CProUpRegTx.t, proupreg_ok p -> GetTxPayload CProUpRegTx.t (SetTxPayload p) = Some p) /\
   (forall p : CProUpRevTx.t, prouprev_ok p -> GetTxPayload CProUpRevTx.t (SetTxPayload p) = Some p)) /\
  (forall payload, bytes_ok payload ->
   (forall p : CProRegTx.t, GetTxPayload CProRegTx.t payload = Some p -> payload = CProRegTx.Serialize p /\ proreg_ok p) /\
   (forall p : CProUpServTx.t, GetTxPayload CProUpServTx.t payload = Some p -> payload = CProUpServTx.Serialize p /\ proupserv_ok p) /\
   (forall p : CProUpRegTx.t, GetTxPayload CProUpRegTx.t payload = Some p -> payload = CProUpRegTx.Serialize p /\ proupreg_ok p) /\
   (forall p : CProUpRevTx.t, GetTxPayload CProUpRevTx.t payload = Some p -> payload = CProUpRevTx.Serialize p /\ prouprev_ok p)).
Proof.
  split.
  - split; [|split; [|split]]; intros p Hp; exact (GetTxPayload_SetTxPayload _ p Hp).
  - intros payload Hb. split; [|split; [|split]]; intros p Hp; exact (GetTxPayload_spec _ payload p Hb Hp).
Qed.

(** ** A sample, over a curve library that accepts everything *)

Definition any_curve : BLSCurve :=
  {| public_key_ok _ := true; signature_ok _ := true; curve_Verify _ _ _ := true; curve_VerifySecure _ _ _ := true |}.

Definition sample_service (i : Z) : CService :=
  {| ip := replicate 10 0 ++ [255; 255; 10; 0; 0; i]; port := 8768 |}.
Definition sample_operator (i : Z) : CBLSPublicKey := {| bls_pk := Some (replicate 48 i) |}.
Definition sample_key (i : Z) : CKeyID := {| keyid := replicate 20 i |}.

Definition sample_registration (i : Z) : CProRegTx.t :=
  {| CProRegTx.nVersion := 1; CProRegTx.nType := 0; CProRegTx.nMode := 0;
     CProRegTx.collateralOutpoint := {| op_hash := replicate 32 i; op_n := 1 |};
     CProRegTx.addr := sample_service i; CProRegTx.keyIDOwner := sample_key i;
     CProRegTx.pubKeyOperator := sample_operator i; CProRegTx.keyIDVoting := sample_key i;
     CProRegTx.nOperatorReward := 0; CProRegTx.scriptPayout := [0x76; 0xa9]; CProRegTx.inputsHash := replicate 32 0;
     CProRegTx.vchSig := [] |}.

Example sample_registration_read :
  GetTxPayload (H := CProRegTx.serializable (H := any_curve)) CProRegTx.t
    (SetTxPayload (H := CProRegTx.serializable (H := any_curve)) (sample_registration 7)) = Some (sample_registration 7).
Proof. vm_compute. reflexivity. Qed.
