(* ===== verification/MasternodeList.v ===== *)
(** * The list of deterministic masternodes (src/src/evo/deterministicmns.h and .cpp,
    [CDeterministicMNList])

    A list holds the masternodes by registration transaction and, beside them, a
    reference-counted index of the properties no two may share: collateral,
    address, owner and operator key.  [None] is a failed assertion: the node stops.
    Shared pointers to immutable states and [immer] maps are values.

    The theorems: the index is always the one recomputed from the masternodes; an
    operation asserts exactly when it would share a property; a difference of two
    lists, applied to the first, gives the second; penalties stay within bounds. *)

From S2P Require Import Prelude Bytes Serialize Containers Compact Hash Transaction ProviderTx.
From stdpp Require Import list gmap.
Local Open Scope Z_scope.
Local Open Scope cxx_scope.

Record CDeterministicMNState : Type := {
  nRegisteredHeight : Z;
  nLastPaidHeight : Z;
  nPoSePenalty : Z;
  nPoSeRevivedHeight : Z;
  nPoSeBanHeight : Z;
  nRevocationReason : Z;
  confirmedHash : list Z;
  confirmedHashWithProRegTxHash : list Z;
  keyIDOwner : CKeyID;
  pubKeyOperator : CBLSPublicKey;
  keyIDVoting : CKeyID;
  addr : CService;
  scriptPayout : list Z;
  scriptOperatorPayout : list Z;
}.
#[global] Instance CDeterministicMNState_eq_dec : EqDecision CDeterministicMNState.
Proof. solve_decision. Defined.

(** [CDeterministicMNState(const CProRegTx&)] *)
Definition CDeterministicMNState_of (proTx : CProRegTx.t) : CDeterministicMNState :=
  {| nRegisteredHeight := -1; nLastPaidHeight := 0; nPoSePenalty := 0; nPoSeRevivedHeight := -1; nPoSeBanHeight := -1;
     nRevocationReason := CProUpRevTx.REASON_NOT_SPECIFIED; confirmedHash := uint256_null;
     confirmedHashWithProRegTxHash := uint256_null; keyIDOwner := CProRegTx.keyIDOwner proTx;
     pubKeyOperator := CProRegTx.pubKeyOperator proTx; keyIDVoting := CProRegTx.keyIDVoting proTx;
     addr := CProRegTx.addr proTx; scriptPayout := CProRegTx.scriptPayout proTx; scriptOperatorPayout := [] |}.

(** Assignments to members. *)
Section Setters.
Context (s : CDeterministicMNState).
Local Abbreviation build a b c d e f g h i j k l m n :=
  {| nRegisteredHeight := a; nLastPaidHeight := b; nPoSePenalty := c; nPoSeRevivedHeight := d; nPoSeBanHeight := e;
     nRevocationReason := f; confirmedHash := g; confirmedHashWithProRegTxHash := h; keyIDOwner := i;
     pubKeyOperator := j; keyIDVoting := k; addr := l; scriptPayout := m; scriptOperatorPayout := n |}.
Local Abbreviation A := (nRegisteredHeight s).
Local Abbreviation B := (nLastPaidHeight s).
Local Abbreviation C := (nPoSePenalty s).
Local Abbreviation D := (nPoSeRevivedHeight s).
Local Abbreviation E := (nPoSeBanHeight s).
Local Abbreviation F := (nRevocationReason s).
Local Abbreviation G := (confirmedHash s).
Local Abbreviation H := (confirmedHashWithProRegTxHash s).
Local Abbreviation I := (keyIDOwner s).
Local Abbreviation J := (pubKeyOperator s).
Local Abbreviation K := (keyIDVoting s).
Local Abbreviation L := (addr s).
Local Abbreviation M := (scriptPayout s).
Local Abbreviation N := (scriptOperatorPayout s).
Definition set_nRegisteredHeight (x : Z) := build x B C D E F G H I J K L M N.
Definition set_nLastPaidHeight (x : Z) := build A x C D E F G H I J K L M N.
Definition set_nPoSePenalty (x : Z) := build A B x D E F G H I J K L M N.
Definition set_nPoSeBanHeight (x : Z) := build A B C D x F G H I J K L M N.
Definition set_nRevocationReason (x : Z) := build A B C D E x G H I J K L M N.
(** [nPoSePenalty = 0; nPoSeBanHeight = -1; nPoSeRevivedHeight = nHeight;] *)
Definition revive (nHeight : Z) := build A B 0 nHeight (-1) F G H I J K L M N.
Definition set_service (a : CService) (script : list Z) := build A B C D E F G H I J K a M script.
Definition set_registrar (operator : CBLSPublicKey) (voting : CKeyID) (payout : list Z) :=
  build A B C D E F G H I operator voting L payout N.
Definition ResetOperatorFields := build A B C D E CProUpRevTx.REASON_NOT_SPECIFIED G H I CBLSPublicKey_null K CService_null M [].
Definition BanIfNotBanned (height : Z) := if E =? -1 then set_nPoSeBanHeight height else s.
(** The hash is a single SHA-256. *)
Definition UpdateConfirmedHash (_proTxHash _confirmedHash : list Z) :=
  build A B C D E F _confirmedHash
    (@HashEngine.Finalize Sha256.CSHA256 (@HashEngine.Write Sha256.CSHA256
       (@HashEngine.Write Sha256.CSHA256 (@HashEngine.construct Sha256.CSHA256 (replicate 64 0)) _proTxHash) _confirmedHash))
    I J K L M N.
End Setters.

Record CDeterministicMN : Type := {
  proTxHash : list Z;
  collateralOutpoint : COutPoint;
  nOperatorReward : Z;
  pdmnState : CDeterministicMNState;
}.
#[global] Instance CDeterministicMN_eq_dec : EqDecision CDeterministicMN.
Proof. solve_decision. Defined.

Definition set_pdmnState (dmn : CDeterministicMN) (st : CDeterministicMNState) : CDeterministicMN :=
  {| proTxHash := proTxHash dmn; collateralOutpoint := collateralOutpoint dmn; nOperatorReward := nOperatorReward dmn;
     pdmnState := st |}.

Abbreviation MnMap := (gmap (list Z) CDeterministicMN).
Abbreviation MnUniquePropertyMap := (gmap (list Z) (list Z * Z)).

Record CDeterministicMNList : Type := {
  blockHash : list Z;
  nHeight : Z;
  mnMap : MnMap;
  mnUniquePropertyMap : MnUniquePropertyMap;
}.

Definition CDeterministicMNList_new (_blockHash : list Z) (_height : Z) : CDeterministicMNList :=
  {| blockHash := _blockHash; nHeight := _height; mnMap := ∅; mnUniquePropertyMap := ∅ |}.
Definition SetBlockHash (l : CDeterministicMNList) (_blockHash : list Z) : CDeterministicMNList :=
  {| blockHash := _blockHash; nHeight := nHeight l; mnMap := mnMap l; mnUniquePropertyMap := mnUniquePropertyMap l |}.
Definition SetHeight (l : CDeterministicMNList) (_height : Z) : CDeterministicMNList :=
  {| blockHash := blockHash l; nHeight := _height; mnMap := mnMap l; mnUniquePropertyMap := mnUniquePropertyMap l |}.
Definition set_mnMap (l : CDeterministicMNList) (m : MnMap) : CDeterministicMNList :=
  {| blockHash := blockHash l; nHeight := nHeight l; mnMap := m; mnUniquePropertyMap := mnUniquePropertyMap l |}.
Definition set_props (l : CDeterministicMNList) (u : MnUniquePropertyMap) : CDeterministicMNList :=
  {| blockHash := blockHash l; nHeight := nHeight l; mnMap := mnMap l; mnUniquePropertyMap := u |}.

(** ** Reading a list *)

Definition IsMNPoSeBanned (dmn : CDeterministicMN) : bool := negb (nPoSeBanHeight (pdmnState dmn) =? -1).
Definition IsMNValid (dmn : CDeterministicMN) : bool := negb (IsMNPoSeBanned dmn).

(** What [ForEachMN] visits; the order of [immer::map] is unspecified, and no result
    below depends on it. *)
Definition ForEachMN (l : CDeterministicMNList) (onlyValid : bool) : list CDeterministicMN :=
  List.filter (fun dmn => negb onlyValid || IsMNValid dmn) (map snd (map_to_list (mnMap l))).

Definition GetAllMNsCount (l : CDeterministicMNList) : Z := Z.of_nat (size (mnMap l)).
Definition GetValidMNsCount (l : CDeterministicMNList) : Z := Z.of_nat (length (ForEachMN l true)).
Definition GetMN (l : CDeterministicMNList) (p : list Z) : option CDeterministicMN := mnMap l !! p.
Definition HasMN (l : CDeterministicMNList) (p : list Z) : bool := bool_decide (is_Some (GetMN l p)).
Definition GetValidMN (l : CDeterministicMNList) (p : list Z) : option CDeterministicMN :=
  match GetMN l p with
  | Some dmn => if negb (IsMNValid dmn) then None else Some dmn
  | None => None
  end.
Definition GetMNByOperatorKey (l : CDeterministicMNList) (pubKey : CBLSPublicKey) : option CDeterministicMN :=
  List.find (fun dmn => bool_decide (pubKeyOperator (pdmnState dmn) = pubKey)) (ForEachMN l false).

(** ** The index of unique properties *)

(** The types of properties, with the [T()] that counts as none. *)
Class UniqueProperty (T : Type) `{EqDecision T, Serializable T} := nullValue : T.

#[global] Instance collateral_property : UniqueProperty COutPoint := COutPoint_null.
#[global] Instance service_property : UniqueProperty CService := CService_null.
#[global] Instance owner_property : UniqueProperty CKeyID := CKeyID_null.
#[global] Instance operator_property `{BLSCurve} : UniqueProperty CBLSPublicKey := CBLSPublicKey_null.

Section Properties.
Context {T : Type} `{UniqueProperty T}.

Definition HasUniqueProperty (l : CDeterministicMNList) (v : T) : bool :=
  bool_decide (is_Some (mnUniquePropertyMap l !! SerializeHash v)).
Definition GetUniquePropertyMN (l : CDeterministicMNList) (v : T) : option CDeterministicMN :=
  p ← mnUniquePropertyMap l !! SerializeHash v; GetMN l (fst p).

Definition AddUniqueProperty (l : CDeterministicMNList) (dmn : CDeterministicMN) (v : T) : option CDeterministicMNList :=
  if bool_decide (v = nullValue) then None
  else
    let hash := SerializeHash v in
    match mnUniquePropertyMap l !! hash with
    | Some (owner, count) =>
        if bool_decide (owner = proTxHash dmn)
        then Some (set_props l (<[hash := (proTxHash dmn, u32 (count + 1))]> (mnUniquePropertyMap l)))
        else None
    | None => Some (set_props l (<[hash := (proTxHash dmn, 1)]> (mnUniquePropertyMap l)))
    end.

Definition DeleteUniqueProperty (l : CDeterministicMNList) (dmn : CDeterministicMN) (oldValue : T) : option CDeterministicMNList :=
  if bool_decide (oldValue = nullValue) then None
  else
    let oldHash := SerializeHash oldValue in
    match mnUniquePropertyMap l !! oldHash with
    | Some (owner, count) =>
        if bool_decide (owner = proTxHash dmn)
        then Some (set_props l (if count =? 1 then delete oldHash (mnUniquePropertyMap l)
                                else <[oldHash := (proTxHash dmn, u32 (count - 1))]> (mnUniquePropertyMap l)))
        else None
    | None => None
    end.

Definition UpdateUniqueProperty (l : CDeterministicMNList) (dmn : CDeterministicMN) (oldValue newValue : T)
  : option CDeterministicMNList :=
  if bool_decide (oldValue = newValue) then Some l
  else
    l ← (if bool_decide (oldValue = nullValue) then Some l else DeleteUniqueProperty l dmn oldValue);
    if bool_decide (newValue = nullValue) then Some l else AddUniqueProperty l dmn newValue.

End Properties.

Definition GetMNByCollateral (l : CDeterministicMNList) (outpoint : COutPoint) : option CDeterministicMN :=
  GetUniquePropertyMN l outpoint.

(** ** Adding, updating and removing masternodes *)

Section Operations.
Context `{BLSCurve}.

Definition AddMN (l : CDeterministicMNList) (dmn : CDeterministicMN) : option CDeterministicMNList :=
  if bool_decide (is_Some (mnMap l !! proTxHash dmn)) then None
  else
    let l := set_mnMap l (<[proTxHash dmn := dmn]> (mnMap l)) in
    l ← AddUniqueProperty l dmn (collateralOutpoint dmn);
    l ← (if bool_decide (addr (pdmnState dmn) = CService_null) then Some l
         else AddUniqueProperty l dmn (addr (pdmnState dmn)));
    l ← AddUniqueProperty l dmn (keyIDOwner (pdmnState dmn));
    if IsValid (pubKeyOperator (pdmnState dmn)) then AddUniqueProperty l dmn (pubKeyOperator (pdmnState dmn)) else Some l.

Definition UpdateMN (l : CDeterministicMNList) (p : list Z) (st : CDeterministicMNState) : option CDeterministicMNList :=
  oldDmn ← mnMap l !! p;
  let dmn := set_pdmnState oldDmn st in
  let oldState := pdmnState oldDmn in
  let l := set_mnMap l (<[p := dmn]> (mnMap l)) in
  l ← UpdateUniqueProperty l dmn (addr oldState) (addr st);
  l ← UpdateUniqueProperty l dmn (keyIDOwner oldState) (keyIDOwner st);
  UpdateUniqueProperty l dmn (pubKeyOperator oldState) (pubKeyOperator st).

Definition RemoveMN (l : CDeterministicMNList) (p : list Z) : option CDeterministicMNList :=
  dmn ← GetMN l p;
  l ← DeleteUniqueProperty l dmn (collateralOutpoint dmn);
  l ← (if bool_decide (addr (pdmnState dmn) = CService_null) then Some l
       else DeleteUniqueProperty l dmn (addr (pdmnState dmn)));
  l ← DeleteUniqueProperty l dmn (keyIDOwner (pdmnState dmn));
  l ← (if IsValid (pubKeyOperator (pdmnState dmn)) then DeleteUniqueProperty l dmn (pubKeyOperator (pdmnState dmn)) else Some l);
  Some (set_mnMap l (delete p (mnMap l))).

(** ** Proof of service *)

Definition CalcMaxPoSePenalty (l : CDeterministicMNList) : Z := Z.max 100 (i32 (GetAllMNsCount l)).
Definition CalcPenalty (l : CDeterministicMNList) (percent : Z) : option Z :=
  if 0 <? percent then Some (Z.quot (CalcMaxPoSePenalty l * percent) 100) else None.

Definition PoSePunish (l : CDeterministicMNList) (p : list Z) (penalty : Z) : option CDeterministicMNList :=
  if negb (0 <? penalty) then None
  else
    dmn ← GetMN l p;
    let maxPenalty := CalcMaxPoSePenalty l in
    let newState := set_nPoSePenalty (pdmnState dmn) (Z.min maxPenalty (nPoSePenalty (pdmnState dmn) + penalty)) in
    let newState :=
      if (maxPenalty <=? nPoSePenalty newState) && (nPoSeBanHeight newState =? -1)
      then set_nPoSeBanHeight newState (nHeight l) else newState in
    UpdateMN l p newState.

Definition PoSeDecrease (l : CDeterministicMNList) (p : list Z) : option CDeterministicMNList :=
  dmn ← GetMN l p;
  if (0 <? nPoSePenalty (pdmnState dmn)) && (nPoSeBanHeight (pdmnState dmn) =? -1)
  then UpdateMN l p (set_nPoSePenalty (pdmnState dmn) (nPoSePenalty (pdmnState dmn) - 1))
  else None.

(** [CDeterministicMNManager::DecreasePoSePenalties] *)
Fixpoint decrease_all (l : CDeterministicMNList) (toDecrease : list (list Z)) : option CDeterministicMNList :=
  match toDecrease with
  | [] => Some l
  | p :: toDecrease => l ← PoSeDecrease l p; decrease_all l toDecrease
  end.
Definition DecreasePoSePenalties (l : CDeterministicMNList) : option CDeterministicMNList :=
  decrease_all l (map proTxHash (List.filter (fun dmn => (0 <? nPoSePenalty (pdmnState dmn)) && (nPoSeBanHeight (pdmnState dmn) =? -1))
                                  (ForEachMN l true))).

(** ** Differences *)

Record CDeterministicMNListDiff : Type := {
  diff_prevBlockHash : list Z;
  diff_blockHash : list Z;
  diff_nHeight : Z;
  addedMNs : gmap (list Z) CDeterministicMN;
  updatedMNs : gmap (list Z) CDeterministicMNState;
  removedMns : gset (list Z);
}.
Definition HasChanges (d : CDeterministicMNListDiff) : bool :=
  negb (bool_decide (addedMNs d = ∅)) || negb (bool_decide (updatedMNs d = ∅)) || negb (bool_decide (removedMns d = ∅)).

(** [std::map::emplace] keeps an entry that is there. *)
Definition emplace {V} (k : list Z) (v : V) (m : gmap (list Z) V) : gmap (list Z) V :=
  match m !! k with Some _ => m | None => <[k := v]> m end.

Definition BuildDiff (from to : CDeterministicMNList) : CDeterministicMNListDiff :=
  {| diff_prevBlockHash := blockHash from; diff_blockHash := blockHash to; diff_nHeight := nHeight to;
     addedMNs := fold_left (fun added toPtr =>
       match GetMN from (proTxHash toPtr) with
       | None => emplace (proTxHash toPtr) toPtr added
       | Some _ => added
       end) (ForEachMN to false) ∅;
     updatedMNs := fold_left (fun updated toPtr =>
       match GetMN from (proTxHash toPtr) with
       | None => updated
       | Some fromPtr => if bool_decide (pdmnState toPtr = pdmnState fromPtr) then updated
                         else emplace (proTxHash toPtr) (pdmnState toPtr) updated
       end) (ForEachMN to false) ∅;
     removedMns := fold_left (fun removed fromPtr =>
       match GetMN to (proTxHash fromPtr) with
       | None => {[ proTxHash fromPtr ]} ∪ removed
       | Some _ => removed
       end) (ForEachMN from false) ∅ |}.

Fixpoint remove_all (l : CDeterministicMNList) (hashes : list (list Z)) : option CDeterministicMNList :=
  match hashes with
  | [] => Some l
  | p :: hashes => l ← RemoveMN l p; remove_all l hashes
  end.
Fixpoint add_all (l : CDeterministicMNList) (added : list (list Z * CDeterministicMN)) : option CDeterministicMNList :=
  match added with
  | [] => Some l
  | (_, dmn) :: added => l ← AddMN l dmn; add_all l added
  end.
Fixpoint update_all (l : CDeterministicMNList) (updated : list (list Z * CDeterministicMNState)) : option CDeterministicMNList :=
  match updated with
  | [] => Some l
  | (p, st) :: updated => l ← UpdateMN l p st; update_all l updated
  end.

Definition ApplyDiff (l : CDeterministicMNList) (diff : CDeterministicMNListDiff) : option CDeterministicMNList :=
  if bool_decide (diff_prevBlockHash diff = blockHash l) && (diff_nHeight diff =? nHeight l + 1) then
    let result := SetHeight (SetBlockHash l (diff_blockHash diff)) (diff_nHeight diff) in
    result ← remove_all result (elements (removedMns diff));
    result ← add_all result (map_to_list (addedMNs diff));
    update_all result (map_to_list (updatedMNs diff))
  else None.

End Operations.

(** ** The index as a function of the masternodes *)

#[local] Opaque SerializeHash.

(** The hash of a property, unless there is none. *)
Definition hash_of {T} `{UniqueProperty T} (v : T) : list (list Z) :=
  if bool_decide (v = nullValue) then [] else [SerializeHash v].

(** How often a hash occurs. *)
Definition count (keys : list (list Z)) (h : list Z) : nat := count_occ (List.list_eq_dec Z.eq_dec) keys h.

Section Index.
Context `{BLSCurve}.

Definition state_keys (s : CDeterministicMNState) : list (list Z) :=
  hash_of (addr s) ++ hash_of (keyIDOwner s) ++ hash_of (pubKeyOperator s).
Definition property_keys (d : CDeterministicMN) : list (list Z) :=
  hash_of (collateralOutpoint d) ++ state_keys (pdmnState d).

Definition keys_at (m : MnMap) (p : list Z) : list (list Z) :=
  match m !! p with Some d => property_keys d | None => [] end.

(** An entry names the only masternode with that hash, and how often it has it. *)
Definition entry_ok (keys : list Z -> list (list Z)) (h : list Z) (entry : option (list Z * Z)) : Prop :=
  match entry with
  | None => forall p, count (keys p) h = 0%nat
  | Some (q, n) => 0 < n /\ n = Z.of_nat (count (keys q) h) /\ forall p, p <> q -> count (keys p) h = 0%nat
  end.
Definition index_of (u : MnUniquePropertyMap) (keys : list Z -> list (list Z)) : Prop :=
  forall h, entry_ok keys h (u !! h).

Definition mn_ok (p : list Z) (d : CDeterministicMN) : Prop :=
  proTxHash d = p /\ collateralOutpoint d <> COutPoint_null /\ keyIDOwner (pdmnState d) <> CKeyID_null.

Record list_ok (l : CDeterministicMNList) : Prop := {
  mns_ok : map_Forall mn_ok (mnMap l);
  index_ok : index_of (mnUniquePropertyMap l) (keys_at (mnMap l));
}.

(** No two masternodes share a property hash. *)
Definition exclusive (keys : list Z -> list (list Z)) : Prop :=
  forall p q h, p <> q -> h ∈ keys p -> h ∉ keys q.

End Index.

Lemma count_cons h k l : count (k :: l) h = ((if decide (k = h) then 1 else 0) + count l h)%nat.
Proof. unfold count. cbn. destruct (List.list_eq_dec Z.eq_dec k h), (decide (k = h)); congruence || done. Qed.
Lemma count_app h l k : count (l ++ k) h = (count l h + count k h)%nat.
Proof. apply count_occ_app. Qed.
Lemma count_length h l : (count l h <= length l)%nat.
Proof. apply count_occ_bound. Qed.
Lemma count_zero h l : count l h = 0%nat <-> h ∉ l.
Proof. rewrite list_elem_of_In. symmetry. apply count_occ_not_In. Qed.
Lemma count_pos h l : (0 < count l h)%nat <-> h ∈ l.
Proof. rewrite list_elem_of_In. symmetry. apply count_occ_In. Qed.

Lemma entry_ext keys keys' h e : (forall p, count (keys p) h = count (keys' p) h) -> entry_ok keys h e -> entry_ok keys' h e.
Proof.
  intros E. destruct e as [[q n]|]; cbn.
  - intros (Hn & -> & Ho). rewrite <- E. split; [done|]. split; [done|]. intros p Hp. rewrite <- E. by apply Ho.
  - intros Ho p. by rewrite <- E.
Qed.
Lemma index_ext u keys keys' : (forall p h, count (keys p) h = count (keys' p) h) -> index_of u keys -> index_of u keys'.
Proof. intros E Hu h. apply (entry_ext keys); [|done]. intros p. apply E. Qed.

(** The index is determined by the masternodes. *)
Lemma index_unique u u' keys : index_of u keys -> index_of u' keys -> u = u'.
Proof.
  intros Hu Hu'. apply map_eq. intros h. specialize (Hu h). specialize (Hu' h).
  destruct (u !! h) as [[q n]|], (u' !! h) as [[q' n']|]; cbn in Hu, Hu'; [| | |done].
  - destruct Hu as (Hn & -> & _), Hu' as (Hn' & -> & Ho).
    destruct (decide (q = q')) as [->|Hne]; [done|]. specialize (Ho q Hne). lia.
  - destruct Hu as (Hn & -> & _). specialize (Hu' q). lia.
  - destruct Hu' as (Hn & -> & _). specialize (Hu q'). lia.
Qed.

Lemma index_exclusive u keys : index_of u keys -> exclusive keys.
Proof.
  intros Hu p q h Hne Hp%count_pos Hq%count_pos. specialize (Hu h). destruct (u !! h) as [[r n]|]; cbn in Hu.
  - destruct Hu as (_ & _ & Ho). destruct (decide (p = r)) as [->|Hpr]; [rewrite (Ho q) in Hq by done; lia|].
    rewrite (Ho p) in Hp by done. lia.
  - rewrite (Hu p) in Hp. lia.
Qed.

(** [keys] with those of [p] replaced. *)
Definition with_keys (keys : list Z -> list (list Z)) (p : list Z) (ks : list (list Z)) : list Z -> list (list Z) :=
  fun q => if decide (q = p) then ks else keys q.

Lemma with_keys_eq keys p ks : with_keys keys p ks p = ks.
Proof. unfold with_keys. by rewrite decide_True. Qed.
Lemma with_keys_ne keys p ks q : q <> p -> with_keys keys p ks q = keys q.
Proof. intros. unfold with_keys. by rewrite decide_False. Qed.

(** *** One property *)

Section OneProperty.
Context {T : Type} `{UniqueProperty T} (dmn : CDeterministicMN).
Local Abbreviation p := (proTxHash dmn).

Lemma AddUniqueProperty_ok l (v : T) keys ks :
  index_of (mnUniquePropertyMap l) keys -> v <> nullValue -> (length (keys p) < 100)%nat ->
  (forall q, q <> p -> SerializeHash v ∉ keys q) -> (forall h, count ks h = count (SerializeHash v :: keys p) h) ->
  exists u, AddUniqueProperty l dmn v = Some (set_props l u) /\ index_of u (with_keys keys p ks).
Proof.
  intros Hu Hv Hlen Hno Hks. unfold AddUniqueProperty. rewrite bool_decide_false by done.
  set (h := SerializeHash v) in *.
  assert (forall k, k <> h -> entry_ok (with_keys keys p ks) k (mnUniquePropertyMap l !! k)) as Hother.
  { intros k Hk. apply (entry_ext keys); [|apply Hu]. intros q. destruct (decide (q = p)) as [->|Hq].
    - by rewrite with_keys_eq, Hks, count_cons, decide_False by done.
    - by rewrite with_keys_ne. }
  pose proof (Hu h) as Hh. destruct (mnUniquePropertyMap l !! h) as [[q n]|] eqn:Eh; cbn in Hh.
  - destruct Hh as (Hn & -> & Ho).
    assert (q = p) as -> by (destruct (decide (q = p)) as [|Hq]; [done|]; destruct (Hno q Hq); apply count_pos; lia).
    rewrite bool_decide_true by done. eexists. split; [done|]. intros k.
    destruct (decide (k = h)) as [->|Hk]; [|rewrite lookup_insert_ne by done; by apply Hother].
    rewrite lookup_insert_eq. cbn. rewrite with_keys_eq, Hks, count_cons, decide_True by done.
    pose proof (count_length h (keys p)). rewrite u32_id by (unfold is_u; lia). split; [lia|]. split; [lia|].
    intros r Hr. rewrite with_keys_ne by done. by apply Ho.
  - eexists. split; [done|]. intros k.
    destruct (decide (k = h)) as [->|Hk]; [|rewrite lookup_insert_ne by done; by apply Hother].
    rewrite lookup_insert_eq. cbn. rewrite with_keys_eq, Hks, count_cons, decide_True, Hh by done.
    split; [lia|]. split; [lia|]. intros r Hr. by rewrite with_keys_ne.
Qed.

(** It fails exactly when another masternode has the property. *)
Lemma AddUniqueProperty_shared l (v : T) keys q :
  index_of (mnUniquePropertyMap l) keys -> q <> p -> SerializeHash v ∈ keys q -> AddUniqueProperty l dmn v = None.
Proof.
  intros Hu Hq Hin%count_pos. unfold AddUniqueProperty. case_bool_decide; [done|].
  specialize (Hu (SerializeHash v)). destruct (mnUniquePropertyMap l !! _) as [[r n]|]; cbn in Hu.
  - destruct Hu as (_ & _ & Ho). rewrite bool_decide_false; [done|]. intros ->. rewrite (Ho q Hq) in Hin. lia.
  - rewrite Hu in Hin. lia.
Qed.

Lemma DeleteUniqueProperty_ok l (v : T) keys ks :
  index_of (mnUniquePropertyMap l) keys -> v <> nullValue -> (length (keys p) < 100)%nat ->
  (forall h, count (keys p) h = count (SerializeHash v :: ks) h) ->
  exists u, DeleteUniqueProperty l dmn v = Some (set_props l u) /\ index_of u (with_keys keys p ks).
Proof.
  intros Hu Hv Hlen Hks. unfold DeleteUniqueProperty. rewrite bool_decide_false by done.
  set (h := SerializeHash v) in *.
  assert (forall k, k <> h -> entry_ok (with_keys keys p ks) k (mnUniquePropertyMap l !! k)) as Hother.
  { intros k Hk. apply (entry_ext keys); [|apply Hu]. intros q. destruct (decide (q = p)) as [->|Hq].
    - by rewrite with_keys_eq, Hks, count_cons, decide_False by done.
    - by rewrite with_keys_ne. }
  pose proof (Hks h) as Ec. rewrite count_cons, decide_True in Ec by done.
  pose proof (count_length h (keys p)). pose proof (Hu h) as Hh.
  destruct (mnUniquePropertyMap l !! h) as [[q n]|] eqn:Eh; cbn in Hh; [|rewrite Hh in Ec; lia].
  destruct Hh as (Hn & -> & Ho).
  assert (q = p) as -> by (destruct (decide (q = p)) as [|Hq]; [done|]; rewrite (Ho p) in Ec by done; lia).
  rewrite bool_decide_true by done. eexists. split; [done|]. intros k.
  destruct (decide (k = h)) as [->|Hk].
  - destruct (Z.eqb_spec (Z.of_nat (count (keys p) h)) 1) as [E1|E1].
    + rewrite lookup_delete_eq. intros r. destruct (decide (r = p)) as [->|Hr]; [rewrite with_keys_eq; lia|].
      rewrite with_keys_ne by done. by apply Ho.
    + rewrite lookup_insert_eq. cbn. rewrite with_keys_eq, u32_id by (unfold is_u; lia). split; [lia|]. split; [lia|].
      intros r Hr. rewrite with_keys_ne by done. by apply Ho.
  - destruct (_ =? 1); [rewrite lookup_delete_ne by done|rewrite lookup_insert_ne by done]; by apply Hother.
Qed.

Lemma set_props_twice l u u' : set_props (set_props l u) u' = set_props l u'.
Proof. done. Qed.
Lemma with_keys_twice keys q ks ks' r : with_keys (with_keys keys q ks) q ks' r = with_keys keys q ks' r.
Proof. unfold with_keys. by case_decide. Qed.

(** The keys of [p] are those of the old value and [rest]. *)
Lemma UpdateUniqueProperty_ok l (old new : T) keys rest ks :
  index_of (mnUniquePropertyMap l) keys -> (length rest < 50)%nat -> (length (keys p) < 100)%nat ->
  (forall h, count (keys p) h = count (hash_of old ++ rest) h) ->
  (forall h, count ks h = count (hash_of new ++ rest) h) ->
  (forall h q, h ∈ hash_of new -> q <> p -> h ∉ keys q) ->
  exists u, UpdateUniqueProperty l dmn old new = Some (set_props l u) /\ index_of u (with_keys keys p ks).
Proof.
  intros Hu Hlen Hlen' Hold Hnew Hno. unfold UpdateUniqueProperty.
  case_bool_decide as Eon.
  { subst new. exists (mnUniquePropertyMap l). split; [by destruct l|]. apply (index_ext _ keys); [|done].
    intros q h. destruct (decide (q = p)) as [->|]; [|by rewrite with_keys_ne]. by rewrite with_keys_eq, Hold, Hnew. }
  assert (exists u, (if bool_decide (old = nullValue) then Some l else DeleteUniqueProperty l dmn old) = Some (set_props l u) /\
    index_of u (with_keys keys p rest)) as (u & -> & Hu1).
  { unfold hash_of in Hold. case_bool_decide as E.
    - exists (mnUniquePropertyMap l). split; [by destruct l|]. apply (index_ext _ keys); [|done].
      intros q h. destruct (decide (q = p)) as [->|]; [|by rewrite with_keys_ne]. by rewrite with_keys_eq, Hold.
    - exact (DeleteUniqueProperty_ok l old keys rest Hu E Hlen' Hold). }
  cbn [mbind option_bind]. unfold hash_of in Hnew, Hno. case_bool_decide as E.
  - exists u. split; [done|]. apply (index_ext _ (with_keys keys p rest)); [|done].
    intros q h. destruct (decide (q = p)) as [->|]; [by rewrite !with_keys_eq, Hnew|by rewrite !with_keys_ne].
  - destruct (AddUniqueProperty_ok (set_props l u) new (with_keys keys p rest) ks Hu1 E) as (u' & -> & Hu2).
    + rewrite with_keys_eq. lia.
    + intros q Hq. rewrite with_keys_ne by done. apply (Hno _ q); [by left|done].
    + intros h. by rewrite with_keys_eq, Hnew.
    + exists u'. split; [done|]. apply (index_ext _ (with_keys (with_keys keys p rest) p ks)); [|done].
      intros q h. by rewrite with_keys_twice.
Qed.

Lemma UpdateUniqueProperty_shared l (old new : T) keys rest q :
  index_of (mnUniquePropertyMap l) keys -> (length (keys p) < 100)%nat -> old <> new ->
  (forall h, count (keys p) h = count (hash_of old ++ rest) h) ->
  q <> p -> new <> nullValue -> SerializeHash new ∈ keys q -> UpdateUniqueProperty l dmn old new = None.
Proof.
  intros Hu Hlen Hne Hold Hq Hnew Hin. unfold UpdateUniqueProperty. rewrite bool_decide_false by done.
  rewrite (bool_decide_false (new = nullValue)) by done. unfold hash_of in Hold. case_bool_decide as E; cbn [mbind option_bind].
  - by apply (AddUniqueProperty_shared l new keys q).
  - destruct (DeleteUniqueProperty_ok l old keys rest Hu E Hlen Hold) as (u & -> & Hu1). cbn [mbind option_bind].
    apply (AddUniqueProperty_shared _ new (with_keys keys p rest) q); [done|done|by rewrite with_keys_ne].
Qed.

End OneProperty.

(** *** The operations *)

Section Steps.
Context {T : Type} `{UniqueProperty T} (dmn : CDeterministicMN).
Local Abbreviation p := (proTxHash dmn).

(** A property that may be none, added to and deleted from the keys [ks] of [p]. *)
Lemma add_step l u (v : T) keys ks ks' :
  index_of u (with_keys keys p ks) -> (length ks < 100)%nat ->
  (forall q h, h ∈ hash_of v -> q <> p -> h ∉ keys q) -> (forall h, count ks' h = count (hash_of v ++ ks) h) ->
  exists u', (if bool_decide (v = nullValue) then Some (set_props l u) else AddUniqueProperty (set_props l u) dmn v) =
             Some (set_props l u') /\ index_of u' (with_keys keys p ks').
Proof.
  intros Hu Hlen Hno Hks. unfold hash_of in *. case_bool_decide as E.
  - exists u. split; [done|]. apply (index_ext _ (with_keys keys p ks)); [|done]. intros q h.
    destruct (decide (q = p)) as [->|]; [by rewrite !with_keys_eq, Hks|by rewrite !with_keys_ne].
  - destruct (AddUniqueProperty_ok dmn (set_props l u) v (with_keys keys p ks) ks' Hu E) as (u' & -> & Hu').
    + by rewrite with_keys_eq.
    + intros q Hq. rewrite with_keys_ne by done. apply Hno; [by left|done].
    + intros h. by rewrite with_keys_eq, Hks.
    + exists u'. split; [done|]. apply (index_ext _ (with_keys (with_keys keys p ks) p ks')); [|done].
      intros q h. by rewrite with_keys_twice.
Qed.

Lemma delete_step l u (v : T) keys ks ks' :
  index_of u (with_keys keys p ks) -> (length ks < 100)%nat -> (forall h, count ks h = count (hash_of v ++ ks') h) ->
  exists u', (if bool_decide (v = nullValue) then Some (set_props l u) else DeleteUniqueProperty (set_props l u) dmn v) =
             Some (set_props l u') /\ index_of u' (with_keys keys p ks').
Proof.
  intros Hu Hlen Hks. unfold hash_of in *. case_bool_decide as E.
  - exists u. split; [done|]. apply (index_ext _ (with_keys keys p ks)); [|done]. intros q h.
    destruct (decide (q = p)) as [->|]; [by rewrite !with_keys_eq, Hks|by rewrite !with_keys_ne].
  - destruct (DeleteUniqueProperty_ok dmn (set_props l u) v (with_keys keys p ks) ks' Hu E) as (u' & -> & Hu').
    + by rewrite with_keys_eq.
    + intros h. by rewrite with_keys_eq, Hks.
    + exists u'. split; [done|]. apply (index_ext _ (with_keys (with_keys keys p ks) p ks')); [|done].
      intros q h. by rewrite with_keys_twice.
Qed.

Lemma update_step l u (old new : T) keys rest ks ks' :
  index_of u (with_keys keys p ks) -> (length rest < 50)%nat -> (length ks < 100)%nat ->
  (forall h, count ks h = count (hash_of old ++ rest) h) -> (forall h, count ks' h = count (hash_of new ++ rest) h) ->
  (forall h q, h ∈ hash_of new -> q <> p -> h ∉ keys q) ->
  exists u', UpdateUniqueProperty (set_props l u) dmn old new = Some (set_props l u') /\ index_of u' (with_keys keys p ks').
Proof.
  intros Hu Hr Hlen Hold Hnew Hno.
  destruct (UpdateUniqueProperty_ok dmn (set_props l u) old new (with_keys keys p ks) rest ks' Hu Hr) as (u' & -> & Hu').
  - by rewrite with_keys_eq.
  - intros h. by rewrite with_keys_eq.
  - done.
  - intros h q Hh Hq. rewrite with_keys_ne by done. by apply Hno.
  - exists u'. split; [done|]. apply (index_ext _ (with_keys (with_keys keys p ks) p ks')); [|done].
    intros q h. by rewrite with_keys_twice.
Qed.

End Steps.

Lemma hash_of_length {T} `{UniqueProperty T} (v : T) : (length (hash_of v) <= 1)%nat.
Proof. unfold hash_of. case_bool_decide; cbn; lia. Qed.

Lemma IsValid_null k : IsValid k = negb (bool_decide (k = CBLSPublicKey_null)).
Proof.
  by destruct k as [[buf|]].
Qed.

Section Operations.
Context `{BLSCurve}.

Lemma state_keys_length s : (length (state_keys s) <= 3)%nat.
Proof.
  unfold state_keys. rewrite !length_app.
  pose proof (hash_of_length (addr s)). pose proof (hash_of_length (keyIDOwner s)).
  pose proof (hash_of_length (pubKeyOperator s)). lia.
Qed.

Lemma keys_at_insert m p d q : keys_at (<[p := d]> m) q = with_keys (keys_at m) p (property_keys d) q.
Proof. unfold keys_at, with_keys. case_decide; [subst; by rewrite lookup_insert_eq|by rewrite lookup_insert_ne]. Qed.
Lemma keys_at_delete m p q : keys_at (delete p m) q = with_keys (keys_at m) p [] q.
Proof. unfold keys_at, with_keys. case_decide; [subst; by rewrite lookup_delete_eq|by rewrite lookup_delete_ne]. Qed.
Lemma keys_at_Some m p d : m !! p = Some d -> keys_at m p = property_keys d.
Proof. intros E. unfold keys_at. by rewrite E. Qed.
Lemma keys_at_None m p : m !! p = None -> keys_at m p = [].
Proof. intros E. unfold keys_at. by rewrite E. Qed.

Lemma list_exclusive l : list_ok l -> exclusive (keys_at (mnMap l)).
Proof. intros [_ Hu]. by apply (index_exclusive (mnUniquePropertyMap l)). Qed.

(** Nobody but [p] has a property of [ks]. *)
Definition free_for (m : MnMap) (p : list Z) (ks : list (list Z)) : Prop :=
  forall q h, h ∈ ks -> q <> p -> h ∉ keys_at m q.

Ltac count_solve :=
  intros; unfold property_keys, state_keys; rewrite ?count_app; cbn [count count_occ]; lia.

Lemma AddMN_ok l d : list_ok l -> mnMap l !! proTxHash d = None -> mn_ok (proTxHash d) d ->
  free_for (mnMap l) (proTxHash d) (property_keys d) ->
  exists u, AddMN l d = Some (set_props (set_mnMap l (<[proTxHash d := d]> (mnMap l))) u) /\
    list_ok (set_props (set_mnMap l (<[proTxHash d := d]> (mnMap l))) u).
Proof.
  intros [Hm Hu] Hd Hok Hfree. unfold AddMN. rewrite Hd, bool_decide_false by (by intros []).
  destruct Hok as (Hp & Hcoll & Howner). set (m' := <[proTxHash d := d]> (mnMap l)).
  set (l0 := set_mnMap l m'). set (keys := keys_at (mnMap l)).
  assert (forall ks : list (list Z), (forall h, h ∈ ks -> h ∈ property_keys d) -> forall q h, h ∈ ks -> q <> proTxHash d -> h ∉ keys q) as Hno
    by (intros ks Hks q h Hh; exact (Hfree q h (Hks h Hh))).
  assert (index_of (mnUniquePropertyMap l) (with_keys keys (proTxHash d) [])) as H0.
  { apply (index_ext _ keys); [|done]. intros q h. unfold with_keys. case_decide; [|done]. subst q.
    unfold keys. by rewrite keys_at_None. }
  destruct (add_step d l0 (mnUniquePropertyMap l) (collateralOutpoint d) keys [] (hash_of (collateralOutpoint d)) H0)
    as (u1 & E1 & H1); [cbn; lia|apply Hno; unfold property_keys; set_solver|by intros; rewrite app_nil_r|].
  rewrite bool_decide_false in E1 by done.
  change (AddUniqueProperty l0 d (collateralOutpoint d))
    with (AddUniqueProperty (set_props l0 (mnUniquePropertyMap l)) d (collateralOutpoint d)).
  rewrite E1. cbn [mbind option_bind].
  destruct (add_step d l0 u1 (addr (pdmnState d)) keys _ (hash_of (addr (pdmnState d)) ++ hash_of (collateralOutpoint d)) H1)
    as (u2 & E2 & H2); [pose proof (hash_of_length (collateralOutpoint d)); lia
    |apply Hno; unfold property_keys, state_keys; set_solver|done|].
  change (@nullValue CService _ _ service_property) with CService_null in E2. rewrite E2. cbn [mbind option_bind].
  destruct (add_step d l0 u2 (keyIDOwner (pdmnState d)) keys _
              (hash_of (keyIDOwner (pdmnState d)) ++ hash_of (addr (pdmnState d)) ++ hash_of (collateralOutpoint d)) H2)
    as (u3 & E3 & H3); [rewrite length_app; pose proof (hash_of_length (collateralOutpoint d));
      pose proof (hash_of_length (addr (pdmnState d))); lia
    |apply Hno; unfold property_keys, state_keys; set_solver|done|].
  rewrite bool_decide_false in E3 by done. rewrite E3. cbn [mbind option_bind].
  destruct (add_step d l0 u3 (pubKeyOperator (pdmnState d)) keys _ (property_keys d) H3)
    as (u4 & E4 & H4); [rewrite !length_app; pose proof (hash_of_length (collateralOutpoint d));
      pose proof (hash_of_length (addr (pdmnState d))); pose proof (hash_of_length (keyIDOwner (pdmnState d))); lia
    |apply Hno; unfold property_keys, state_keys; set_solver|count_solve|].
  rewrite IsValid_null. change (@nullValue CBLSPublicKey _ _ operator_property) with CBLSPublicKey_null in E4.
  exists u4. split.
  - destruct (bool_decide (pubKeyOperator (pdmnState d) = CBLSPublicKey_null)); cbn [negb]; exact E4.
  - split; cbn.
    + by apply map_Forall_insert_2.
    + apply (index_ext _ (with_keys keys (proTxHash d) (property_keys d))); [|done]. intros q h.
      unfold m'. by rewrite keys_at_insert.
Qed.

Lemma AddMN_shared_collateral l d q : list_ok l -> q <> proTxHash d ->
  SerializeHash (collateralOutpoint d) ∈ keys_at (mnMap l) q -> AddMN l d = None.
Proof.
  intros [Hm Hu] Hq Hin. unfold AddMN. case_bool_decide; [done|].
  change (AddUniqueProperty (set_mnMap l (<[proTxHash d:=d]> (mnMap l))) d (collateralOutpoint d)) with
    (AddUniqueProperty (set_props (set_mnMap l (<[proTxHash d:=d]> (mnMap l))) (mnUniquePropertyMap l)) d (collateralOutpoint d)).
  by rewrite (AddUniqueProperty_shared d _ (collateralOutpoint d) (keys_at (mnMap l)) q).
Qed.

Lemma RemoveMN_ok l p d : list_ok l -> mnMap l !! p = Some d ->
  exists u, RemoveMN l p = Some (set_mnMap (set_props l u) (delete p (mnMap l))) /\
    list_ok (set_mnMap (set_props l u) (delete p (mnMap l))).
Proof.
  intros [Hm Hu] Hd. destruct (Hm p d Hd) as (Hp & Hcoll & Howner). unfold RemoveMN, GetMN. rewrite Hd. cbn [mbind option_bind].
  set (keys := keys_at (mnMap l)).
  assert (index_of (mnUniquePropertyMap l) (with_keys keys (proTxHash d) (property_keys d))) as H0.
  { apply (index_ext _ keys); [|done]. intros q h. unfold with_keys. case_decide; [|done]. subst q.
    unfold keys. by rewrite Hp, (keys_at_Some _ _ _ Hd). }
  pose proof (hash_of_length (collateralOutpoint d)) as L1. pose proof (state_keys_length (pdmnState d)) as L2.
  destruct (delete_step d l (mnUniquePropertyMap l) (collateralOutpoint d) keys _ (state_keys (pdmnState d)) H0)
    as (u1 & E1 & H1); [unfold property_keys; rewrite length_app; lia|done|].
  rewrite bool_decide_false in E1 by done.
  replace (set_props l (mnUniquePropertyMap l)) with l in E1 by (by destruct l). rewrite E1. cbn [mbind option_bind].
  destruct (delete_step d l u1 (addr (pdmnState d)) keys _
              (hash_of (keyIDOwner (pdmnState d)) ++ hash_of (pubKeyOperator (pdmnState d))) H1)
    as (u2 & E2 & H2); [lia|done|].
  change (@nullValue CService _ _ service_property) with CService_null in E2. rewrite E2. cbn [mbind option_bind].
  destruct (delete_step d l u2 (keyIDOwner (pdmnState d)) keys _ (hash_of (pubKeyOperator (pdmnState d))) H2)
    as (u3 & E3 & H3); [rewrite length_app; pose proof (hash_of_length (keyIDOwner (pdmnState d)));
      pose proof (hash_of_length (pubKeyOperator (pdmnState d))); lia|done|].
  rewrite bool_decide_false in E3 by done. rewrite E3. cbn [mbind option_bind].
  destruct (delete_step d l u3 (pubKeyOperator (pdmnState d)) keys _ [] H3)
    as (u4 & E4 & H4); [pose proof (hash_of_length (pubKeyOperator (pdmnState d))); lia|by intros; rewrite app_nil_r|].
  rewrite IsValid_null. change (@nullValue CBLSPublicKey _ _ operator_property) with CBLSPublicKey_null in E4.
  assert ((if negb (bool_decide (pubKeyOperator (pdmnState d) = CBLSPublicKey_null))
           then DeleteUniqueProperty (set_props l u3) d (pubKeyOperator (pdmnState d)) else Some (set_props l u3))
          = Some (set_props l u4)) as -> by (destruct (bool_decide (pubKeyOperator (pdmnState d) = CBLSPublicKey_null)); exact E4).
  cbn [mbind option_bind]. exists u4. split; [done|]. split; cbn.
  - by apply map_Forall_delete.
  - apply (index_ext _ (with_keys keys (proTxHash d) [])); [|done]. intros q h. by rewrite keys_at_delete, Hp.
Qed.

Lemma UpdateMN_ok l p d st : list_ok l -> mnMap l !! p = Some d -> keyIDOwner st <> CKeyID_null ->
  free_for (mnMap l) p (state_keys st) ->
  exists u, UpdateMN l p st = Some (set_props (set_mnMap l (<[p := set_pdmnState d st]> (mnMap l))) u) /\
    list_ok (set_props (set_mnMap l (<[p := set_pdmnState d st]> (mnMap l))) u).
Proof.
  intros [Hm Hu] Hd Hst Hfree. destruct (Hm p d Hd) as (Hp & Hcoll & Howner). unfold UpdateMN. rewrite Hd. cbn [mbind option_bind].
  set (d' := set_pdmnState d st). set (l0 := set_mnMap l (<[p := d']> (mnMap l))). set (keys := keys_at (mnMap l)).
  assert (proTxHash d' = p) as Hp' by done.
  assert (index_of (mnUniquePropertyMap l) (with_keys keys (proTxHash d') (property_keys d))) as H0.
  { apply (index_ext _ keys); [|done]. intros q h. unfold with_keys. case_decide; [|done]. subst q.
    unfold keys. by rewrite Hp', (keys_at_Some _ _ _ Hd). }
  set (o := pdmnState d) in *. set (cl := hash_of (collateralOutpoint d)).
  pose proof (hash_of_length (collateralOutpoint d)) as Lc. fold cl in Lc.
  pose proof (hash_of_length (keyIDOwner o)) as L1. pose proof (hash_of_length (pubKeyOperator o)) as L2.
  pose proof (hash_of_length (addr o)) as L3. pose proof (hash_of_length (keyIDOwner st)) as L4.
  pose proof (hash_of_length (addr st)) as L5. pose proof (hash_of_length (pubKeyOperator st)) as L6.
  assert (forall ks : list (list Z), (forall h, h ∈ ks -> h ∈ state_keys st) -> forall h q, h ∈ ks -> q <> proTxHash d' -> h ∉ keys q) as Hno.
  { intros ks Hks h q Hh Hq. apply Hfree; [by apply Hks|by rewrite <- Hp']. }
  destruct (update_step d' l0 (mnUniquePropertyMap l) (addr o) (addr st) keys
              (cl ++ hash_of (keyIDOwner o) ++ hash_of (pubKeyOperator o)) _
              (cl ++ hash_of (addr st) ++ hash_of (keyIDOwner o) ++ hash_of (pubKeyOperator o)) H0) as (u1 & E1 & H1);
    [rewrite !length_app; lia|unfold property_keys, state_keys; rewrite !length_app; fold o cl; lia
    |unfold property_keys, state_keys; intros; rewrite !count_app; fold o cl; lia|intros; rewrite !count_app; lia
    |apply Hno; unfold state_keys; set_solver|].
  change (set_props l0 (mnUniquePropertyMap l)) with l0 in E1. rewrite E1. cbn [mbind option_bind].
  destruct (update_step d' l0 u1 (keyIDOwner o) (keyIDOwner st) keys
              (cl ++ hash_of (addr st) ++ hash_of (pubKeyOperator o)) _
              (cl ++ hash_of (addr st) ++ hash_of (keyIDOwner st) ++ hash_of (pubKeyOperator o)) H1) as (u2 & E2 & H2);
    [rewrite !length_app; lia|rewrite !length_app; lia|intros; rewrite !count_app; lia|intros; rewrite !count_app; lia
    |apply Hno; unfold state_keys; set_solver|].
  rewrite E2. cbn [mbind option_bind].
  destruct (update_step d' l0 u2 (pubKeyOperator o) (pubKeyOperator st) keys
              (cl ++ hash_of (addr st) ++ hash_of (keyIDOwner st)) _ (property_keys d') H2) as (u3 & E3 & H3);
    [rewrite !length_app; lia|rewrite !length_app; lia|intros; rewrite !count_app; lia
    |unfold property_keys, state_keys; intros; rewrite !count_app; fold cl; cbn [d' pdmnState collateralOutpoint set_pdmnState]; fold cl; lia
    |apply Hno; unfold state_keys; set_solver|].
  rewrite Hp' in H3. exists u3. split; [done|]. split; cbn.
  - by apply map_Forall_insert_2.
  - apply (index_ext _ (with_keys keys p (property_keys d'))); [|done]. intros q h. by rewrite keys_at_insert.
Qed.

End Operations.

(** *** When the operations fail *)

Lemma share_dec u keys p h : index_of u keys -> (forall q, q <> p -> h ∉ keys q) \/ (exists q, q <> p /\ h ∈ keys q).
Proof.
  intros Hu. specialize (Hu h). destruct (u !! h) as [[r n]|]; cbn in Hu.
  - destruct Hu as (Hn & -> & Ho). destruct (decide (r = p)) as [->|Hr].
    + left. intros q Hq. by apply count_zero, Ho.
    + right. exists r. split; [done|]. apply count_pos. lia.
  - left. intros q _. by apply count_zero.
Qed.

Section Failures.
Context {T : Type} `{UniqueProperty T} (dmn : CDeterministicMN).
Local Abbreviation p := (proTxHash dmn).

Definition shared (keys : list Z -> list (list Z)) (ks : list (list Z)) : Prop :=
  exists q h, h ∈ ks /\ q <> p /\ h ∈ keys q.

Lemma shared_or_free u keys (v : T) : index_of u keys ->
  (forall q h, h ∈ hash_of v -> q <> p -> h ∉ keys q) \/ shared keys (hash_of v).
Proof.
  intros Hu. unfold shared, hash_of. case_bool_decide; [left; intros q h Hh; by apply elem_of_nil in Hh|].
  destruct (share_dec u keys p (SerializeHash v) Hu) as [Hf|(q & Hq & Hh)].
  - left. intros q h Hh%list_elem_of_singleton. subst h. apply Hf.
  - right. exists q, (SerializeHash v). split_and!; [by left|done|done].
Qed.

Lemma AddUniqueProperty_null l (v : T) : v = nullValue -> AddUniqueProperty l dmn v = None.
Proof. intros E. unfold AddUniqueProperty. by rewrite (bool_decide_true _ E). Qed.

Lemma add_step_shared l u (v : T) keys ks :
  index_of u (with_keys keys p ks) -> shared keys (hash_of v) ->
  (if bool_decide (v = nullValue) then Some (set_props l u) else AddUniqueProperty (set_props l u) dmn v) = None.
Proof.
  intros Hu (q & h & Hh & Hq & Hin). unfold hash_of in Hh. case_bool_decide; [by apply elem_of_nil in Hh|].
  apply list_elem_of_singleton in Hh. subst h.
  apply (AddUniqueProperty_shared dmn _ v (with_keys keys p ks) q); [done|done|by rewrite with_keys_ne].
Qed.

Lemma update_step_shared l u (old new : T) keys rest ks :
  index_of u (with_keys keys p ks) -> (length ks < 100)%nat -> old <> new ->
  (forall h, count ks h = count (hash_of old ++ rest) h) -> shared keys (hash_of new) ->
  UpdateUniqueProperty (set_props l u) dmn old new = None.
Proof.
  intros Hu Hlen Hne Hold (q & h & Hh & Hq & Hin). unfold hash_of in Hh. case_bool_decide; [by apply elem_of_nil in Hh|].
  apply list_elem_of_singleton in Hh. subst h.
  apply (UpdateUniqueProperty_shared dmn _ old new (with_keys keys p ks) rest q); try done.
  - by rewrite with_keys_eq.
  - intros h. by rewrite with_keys_eq.
  - by rewrite with_keys_ne.
Qed.

End Failures.

Section OperationFailures.
Context `{BLSCurve}.

(** Registering a masternode whose operator key, say, is another's stops the node; so
    does updating one to it. *)
Lemma AddMN_shared l d : list_ok l -> shared d (keys_at (mnMap l)) (property_keys d) -> AddMN l d = None.
Proof.
  intros [Hm Hu] Hsh. unfold AddMN. case_bool_decide as Hd; [done|].
  assert (mnMap l !! proTxHash d = None) as Hnone by (destruct (mnMap l !! proTxHash d); [destruct Hd; by eexists|done]).
  set (m' := <[proTxHash d := d]> (mnMap l)). set (l0 := set_mnMap l m'). set (keys := keys_at (mnMap l)) in *.
  assert (index_of (mnUniquePropertyMap l) (with_keys keys (proTxHash d) [])) as H0.
  { apply (index_ext _ keys); [|done]. intros q h. unfold with_keys. case_decide; [|done]. subst q.
    unfold keys. by rewrite keys_at_None. }
  pose proof (hash_of_length (collateralOutpoint d)) as L1. pose proof (hash_of_length (addr (pdmnState d))) as L2.
  pose proof (hash_of_length (keyIDOwner (pdmnState d))) as L3.
  destruct (decide (collateralOutpoint d = nullValue)) as [En|Hn1].
  { by rewrite AddUniqueProperty_null. }
  change (AddUniqueProperty l0 d (collateralOutpoint d))
    with (AddUniqueProperty (set_props l0 (mnUniquePropertyMap l)) d (collateralOutpoint d)).
  destruct (shared_or_free d _ keys (collateralOutpoint d) Hu) as [F1|S1];
    [|pose proof (add_step_shared d l0 _ _ keys [] H0 S1) as E; rewrite bool_decide_false in E by done; by rewrite E].
  destruct (add_step d l0 (mnUniquePropertyMap l) (collateralOutpoint d) keys [] (hash_of (collateralOutpoint d)) H0)
    as (u1 & E1 & H1); [cbn; lia|exact F1|by intros; rewrite app_nil_r|].
  rewrite bool_decide_false in E1 by done. rewrite E1. cbn [mbind option_bind]. clear E1.
  change CService_null with (@nullValue CService _ _ service_property).
  destruct (shared_or_free d _ keys (addr (pdmnState d)) Hu) as [F2|S2];
    [|by rewrite (add_step_shared d l0 u1 _ keys _ H1 S2)].
  destruct (add_step d l0 u1 (addr (pdmnState d)) keys _ (hash_of (addr (pdmnState d)) ++ hash_of (collateralOutpoint d)) H1)
    as (u2 & E2 & H2); [lia|exact F2|done|]. rewrite E2. cbn [mbind option_bind]. clear E2.
  destruct (decide (keyIDOwner (pdmnState d) = nullValue)) as [En|Hn3].
  { by rewrite AddUniqueProperty_null. }
  destruct (shared_or_free d _ keys (keyIDOwner (pdmnState d)) Hu) as [F3|S3];
    [|pose proof (add_step_shared d l0 _ _ keys _ H2 S3) as E; rewrite bool_decide_false in E by done; by rewrite E].
  destruct (add_step d l0 u2 (keyIDOwner (pdmnState d)) keys _
              (hash_of (keyIDOwner (pdmnState d)) ++ hash_of (addr (pdmnState d)) ++ hash_of (collateralOutpoint d)) H2)
    as (u3 & E3 & H3); [rewrite length_app; lia|exact F3|done|].
  rewrite bool_decide_false in E3 by done. rewrite E3. cbn [mbind option_bind]. clear E3.
  rewrite IsValid_null. change CBLSPublicKey_null with (@nullValue CBLSPublicKey _ _ operator_property).
  destruct (shared_or_free d _ keys (pubKeyOperator (pdmnState d)) Hu) as [F4|S4].
  - exfalso. destruct Hsh as (q & h & Hh & Hq & Hin). unfold property_keys, state_keys in Hh.
    rewrite !elem_of_app in Hh. destruct Hh as [Hh|[Hh|[Hh|Hh]]];
      [by apply (F1 q h)|by apply (F2 q h)|by apply (F3 q h)|by apply (F4 q h)].
  - rewrite <- (add_step_shared d l0 u3 _ keys _ H3 S4). by case_bool_decide.
Qed.

Lemma UpdateMN_shared l p d st : list_ok l -> mnMap l !! p = Some d -> shared d (keys_at (mnMap l)) (state_keys st) ->
  UpdateMN l p st = None.
Proof.
  intros [Hm Hu] Hd Hsh. destruct (Hm p d Hd) as (Hp & _ & _). unfold UpdateMN. rewrite Hd. cbn [mbind option_bind].
  set (d' := set_pdmnState d st). set (l0 := set_mnMap l (<[p := d']> (mnMap l))). set (keys := keys_at (mnMap l)) in *.
  assert (index_of (mnUniquePropertyMap l) (with_keys keys (proTxHash d') (property_keys d))) as H0.
  { apply (index_ext _ keys); [|done]. intros q h. unfold with_keys. case_decide as Hq; [|done]. subst q.
    change (proTxHash d') with (proTxHash d). unfold keys. by rewrite Hp, (keys_at_Some _ _ _ Hd). }
  set (o := pdmnState d) in *. set (cl := hash_of (collateralOutpoint d)).
  pose proof (hash_of_length (collateralOutpoint d)) as Lc. fold cl in Lc.
  pose proof (hash_of_length (keyIDOwner o)) as L1. pose proof (hash_of_length (pubKeyOperator o)) as L2.
  pose proof (hash_of_length (addr o)) as L3. pose proof (hash_of_length (keyIDOwner st)) as L4.
  pose proof (hash_of_length (addr st)) as L5.
  pose proof (index_exclusive _ _ Hu) as Hex. fold keys in Hex.
  assert (forall h, h ∈ property_keys d -> forall q, q <> proTxHash d' -> h ∉ keys q) as Hown.
  { intros h Hh q Hq. apply (Hex p q); [by rewrite <- Hp|]. unfold keys. by rewrite (keys_at_Some _ _ _ Hd). }
  assert (forall h, count (property_keys d) h =
    count (hash_of (addr o) ++ cl ++ hash_of (keyIDOwner o) ++ hash_of (pubKeyOperator o)) h) as C0.
  { intros h. unfold property_keys, state_keys. fold o cl. rewrite !count_app. lia. }
  assert (length (property_keys d) < 100)%nat as Ld by (unfold property_keys, state_keys; rewrite !length_app; fold o cl; lia).
  change l0 with (set_props l0 (mnUniquePropertyMap l)).
  destruct (shared_or_free d' _ keys (addr st) Hu) as [F1|S1].
  2: { rewrite (update_step_shared d' l0 _ (addr o) (addr st) keys (cl ++ hash_of (keyIDOwner o) ++ hash_of (pubKeyOperator o)) _ H0 Ld); [done| |exact C0|exact S1].
       intros E. destruct S1 as (q & h & Hh & Hq & Hin). refine (Hown h _ q Hq Hin).
       unfold property_keys, state_keys. fold o. rewrite E. set_solver. }
  destruct (update_step d' l0 (mnUniquePropertyMap l) (addr o) (addr st) keys
              (cl ++ hash_of (keyIDOwner o) ++ hash_of (pubKeyOperator o)) _
              (cl ++ hash_of (addr st) ++ hash_of (keyIDOwner o) ++ hash_of (pubKeyOperator o)) H0) as (u1 & E1 & H1);
    [rewrite !length_app; lia|exact Ld|exact C0|intros; rewrite !count_app; lia|intros h q Hh Hq; by apply F1|].
  rewrite E1. cbn [mbind option_bind]. clear E1.
  destruct (shared_or_free d' _ keys (keyIDOwner st) Hu) as [F2|S2].
  2: { rewrite (update_step_shared d' l0 u1 (keyIDOwner o) (keyIDOwner st) keys
         (cl ++ hash_of (addr st) ++ hash_of (pubKeyOperator o)) _ H1);
         [done|rewrite !length_app; lia| |intros; rewrite !count_app; lia|exact S2].
       intros E. destruct S2 as (q & h & Hh & Hq & Hin). refine (Hown h _ q Hq Hin).
       unfold property_keys, state_keys. fold o. rewrite E. set_solver. }
  destruct (update_step d' l0 u1 (keyIDOwner o) (keyIDOwner st) keys
              (cl ++ hash_of (addr st) ++ hash_of (pubKeyOperator o)) _
              (cl ++ hash_of (addr st) ++ hash_of (keyIDOwner st) ++ hash_of (pubKeyOperator o)) H1) as (u2 & E2 & H2);
    [rewrite !length_app; lia|rewrite !length_app; lia|intros; rewrite !count_app; lia|intros; rewrite !count_app; lia
    |intros h q Hh Hq; by apply F2|].
  rewrite E2. cbn [mbind option_bind]. clear E2.
  destruct (shared_or_free d' _ keys (pubKeyOperator st) Hu) as [F3|S3].
  - exfalso. destruct Hsh as (q & h & Hh & Hq & Hin). unfold state_keys in Hh.
    rewrite !elem_of_app in Hh. destruct Hh as [Hh|[Hh|Hh]]; [by apply (F1 q h)|by apply (F2 q h)|by apply (F3 q h)].
  - apply (update_step_shared d' l0 u2 (pubKeyOperator o) (pubKeyOperator st) keys
      (cl ++ hash_of (addr st) ++ hash_of (keyIDOwner st)) _ H2);
      [rewrite !length_app; lia| |intros; rewrite !count_app; lia|exact S3].
    intros E. destruct S3 as (q & h & Hh & Hq & Hin). refine (Hown h _ q Hq Hin).
    unfold property_keys, state_keys. fold o. rewrite E. set_solver.
Qed.

End OperationFailures.

(** ** Differences of lists *)

Section FoldEmplace.
Context {V : Type} (g : CDeterministicMN -> option V).

Lemma fold_emplace (f : gmap (list Z) V -> CDeterministicMN -> gmap (list Z) V) mns acc :
  (forall m x, f m x = match g x with Some v => emplace (proTxHash x) v m | None => m end) ->
  NoDup (map proTxHash mns) -> (forall x, x ∈ mns -> acc !! proTxHash x = None) ->
  forall k v, fold_left f mns acc !! k = Some v <-> acc !! k = Some v \/ exists x, x ∈ mns /\ proTxHash x = k /\ g x = Some v.
Proof.
  intros Hf. revert acc. induction mns as [|x mns IH]; intros acc Hnd Hacc k v; cbn [fold_left].
  { split; [by left|]. intros [|(x & Hx & _)]; [done|by apply elem_of_nil in Hx]. }
  apply NoDup_cons in Hnd as [Hx Hnd]. rewrite IH; [|done|].
  - rewrite Hf. split.
    + intros [Hk|(y & Hy & Hk)]; [|right; exists y; split; [by right|done]]. destruct (g x) as [w|] eqn:Eg; [|by left].
      unfold emplace in Hk. rewrite (Hacc x) in Hk by left. destruct (decide (proTxHash x = k)) as [<-|Hne].
      * rewrite lookup_insert_eq in Hk. simplify_eq. right. exists x. split_and!; [by left|done|done].
      * rewrite lookup_insert_ne in Hk by done. by left.
    + intros [Hk|(y & Hy & Hk & Hg)].
      * left. destruct (g x); [|done]. unfold emplace. rewrite (Hacc x) by left.
        rewrite lookup_insert_ne; [done|]. intros E. rewrite <- E, (Hacc x) in Hk by left. done.
      * apply elem_of_cons in Hy as [->|Hy]; [|right; by exists y]. left. rewrite Hg. unfold emplace.
        rewrite (Hacc x) by left. rewrite Hk. by rewrite lookup_insert_eq.
  - intros y Hy. rewrite Hf. destruct (g x); [|apply Hacc; by right]. unfold emplace. rewrite (Hacc x) by left.
    rewrite lookup_insert_ne; [apply Hacc; by right|]. intros E. apply Hx. rewrite E. by apply list_elem_of_fmap_2.
Qed.

End FoldEmplace.

Lemma fold_removed (g : CDeterministicMN -> bool) mns acc k :
  k ∈ fold_left (fun (removed : gset (list Z)) x => if g x then {[ proTxHash x ]} ∪ removed else removed) mns acc <->
  k ∈ acc \/ exists x, x ∈ mns /\ proTxHash x = k /\ g x = true.
Proof.
  revert acc. induction mns as [|x mns IH]; intros acc; cbn [fold_left].
  { split; [by left|]. intros [|(x & Hx & _)]; [done|by apply elem_of_nil in Hx]. }
  rewrite IH. clear IH. setoid_rewrite elem_of_cons. destruct (g x) eqn:Eg.
  - rewrite elem_of_union, elem_of_singleton. split.
    + intros [[->|Hk]|(y & Hy & Hy2)]; [right; exists x; split; [by left|done]|by left|right; exists y; split; [by right|done]].
    + intros [Hk|(y & [->|Hy] & E & Hy2)]; [left; by right|by left; left|right; by exists y].
  - split.
    + intros [Hk|(y & Hy & Hy2)]; [by left|right; exists y; split; [by right|done]].
    + intros [Hk|(y & [->|Hy] & E & Hy2)]; [by left|congruence|right; by exists y].
Qed.

Section Diffs.
Context `{BLSCurve}.

Lemma ForEachMN_all l : ForEachMN l false = map snd (map_to_list (mnMap l)).
Proof. unfold ForEachMN. induction (map snd (map_to_list (mnMap l))); [done|]. cbn [List.filter negb orb]. by f_equal. Qed.

Lemma elem_of_all l d : map_Forall mn_ok (mnMap l) -> d ∈ ForEachMN l false <-> mnMap l !! proTxHash d = Some d.
Proof.
  intros Hm. rewrite ForEachMN_all. split.
  - intros ([p e] & -> & Hp)%list_elem_of_fmap. apply elem_of_map_to_list in Hp. cbn. by destruct (Hm p e Hp) as [-> _].
  - intros Hd. apply list_elem_of_fmap. exists (proTxHash d, d). split; [done|]. by apply elem_of_map_to_list.
Qed.

Lemma NoDup_all l : map_Forall mn_ok (mnMap l) -> NoDup (map proTxHash (ForEachMN l false)).
Proof.
  intros Hm. rewrite ForEachMN_all. rewrite <- list_fmap_compose.
  replace ((proTxHash ∘ snd) <$> map_to_list (mnMap l)) with (map_to_list (mnMap l)).*1; [apply NoDup_fst_map_to_list|].
  apply list_fmap_ext. intros i [p d] Hi. cbn. symmetry. apply list_elem_of_lookup_2, elem_of_map_to_list in Hi.
  by destruct (Hm p d Hi).
Qed.

Section Spec.
Context (from to : CDeterministicMNList) (Hfrom : map_Forall mn_ok (mnMap from)) (Hto : map_Forall mn_ok (mnMap to)).

Lemma added_spec p d : addedMNs (BuildDiff from to) !! p = Some d <-> mnMap to !! p = Some d /\ mnMap from !! p = None.
Proof using Hto.
  cbn [BuildDiff addedMNs].
  rewrite (fold_emplace (fun x => match GetMN from (proTxHash x) with None => Some x | Some _ => None end));
    [|intros m x; by destruct (GetMN from (proTxHash x))|by apply NoDup_all|intros x _; apply lookup_empty].
  rewrite lookup_empty. unfold GetMN. split.
  - intros [?|(x & Hx & <- & Hg)]; [done|]. apply elem_of_all in Hx; [|done].
    destruct (mnMap from !! proTxHash x); [done|]. by simplify_eq.
  - intros [Hd Hn]. right. destruct (Hto p d Hd) as [<- _]. exists d. split_and!; [by apply elem_of_all|done|by rewrite Hn].
Qed.

Lemma updated_spec p st : updatedMNs (BuildDiff from to) !! p = Some st <->
  exists d e, mnMap to !! p = Some d /\ mnMap from !! p = Some e /\ st = pdmnState d /\ pdmnState d <> pdmnState e.
Proof using Hto.
  cbn [BuildDiff updatedMNs].
  rewrite (fold_emplace (fun x => match GetMN from (proTxHash x) with None => None
             | Some e => if bool_decide (pdmnState x = pdmnState e) then None else Some (pdmnState x) end));
    [|intros m x; destruct (GetMN from (proTxHash x)); [by case_bool_decide|done]|by apply NoDup_all|intros x _; apply lookup_empty].
  rewrite lookup_empty. unfold GetMN. split.
  - intros [?|(x & Hx & <- & Hg)]; [done|]. apply elem_of_all in Hx; [|done].
    destruct (mnMap from !! proTxHash x) as [e|]; [|done]. case_bool_decide; [done|]. simplify_eq. by exists x, e.
  - intros (d & e & Hd & He & -> & Hne). right. destruct (Hto p d Hd) as [<- _]. exists d.
    split_and!; [by apply elem_of_all|done|]. by rewrite He, bool_decide_false.
Qed.

Lemma removed_spec p : p ∈ removedMns (BuildDiff from to) <-> is_Some (mnMap from !! p) /\ mnMap to !! p = None.
Proof using Hfrom Hto.
  cbn [BuildDiff removedMns].
  assert (forall mns (acc : gset (list Z)),
    fold_left (fun removed fromPtr => match GetMN to (proTxHash fromPtr) with
      | None => {[ proTxHash fromPtr ]} ∪ removed | Some _ => removed end) mns acc =
    fold_left (fun removed x => if bool_decide (GetMN to (proTxHash x) = None) then {[ proTxHash x ]} ∪ removed else removed) mns acc) as E.
  { induction mns as [|x mns IH]; intros acc; [done|]. cbn [fold_left]. rewrite IH. by destruct (GetMN to (proTxHash x)). }
  rewrite E, fold_removed. setoid_rewrite bool_decide_eq_true. split.
  - intros [?|(x & Hx & <- & Hg)]; [set_solver|]. apply elem_of_all in Hx; [|done]. split; [by exists x|done].
  - intros [[d Hd] Hn]. right. destruct (Hfrom p d Hd) as [<- _]. exists d. split_and!; [by apply elem_of_all|done|done].
Qed.

End Spec.

(** *** The three phases of applying one *)

Lemma remove_all_ok (hashes : list (list Z)) (l : CDeterministicMNList) : list_ok l -> NoDup hashes -> (forall p, p ∈ hashes -> is_Some (mnMap l !! p)) ->
  exists l', remove_all l hashes = Some l' /\ list_ok l' /\ blockHash l' = blockHash l /\ nHeight l' = nHeight l /\
    forall p, mnMap l' !! p = if decide (p ∈ hashes) then None else mnMap l !! p.
Proof.
  revert l. induction hashes as [|p hashes IH]; intros l Hl Hnd Hin; cbn [remove_all].
  { by exists l. }
  apply NoDup_cons in Hnd as [Hp Hnd]. destruct (Hin p ltac:(by left)) as [d Hd].
  destruct (RemoveMN_ok l p d Hl Hd) as (u & -> & Hl1). cbn [mbind option_bind].
  destruct (IH _ Hl1 Hnd) as (l' & -> & Hl' & Hb & Hh & Hm).
  { intros q Hq. cbn. rewrite lookup_delete_ne by (by intros ->). apply Hin. by right. }
  exists l'. split_and!; try done. intros q. rewrite Hm. cbn. destruct (decide (q = p)) as [->|Hq].
  - rewrite lookup_delete_eq. rewrite (decide_True (P := (p ∈ p :: hashes))) by left. by case_decide.
  - rewrite lookup_delete_ne by done. destruct (decide (q ∈ hashes)).
    + by rewrite decide_True by (by right).
    + rewrite decide_False; [done|]. intros [|]%elem_of_cons; done.
Qed.

Lemma keys_at_sub (m m' : MnMap) (p h : list Z) : (forall d, m !! p = Some d -> m' !! p = Some d) -> h ∈ keys_at m p -> h ∈ keys_at m' p.
Proof.
  intros Hs. unfold keys_at. destruct (m !! p) as [d|] eqn:E; [by rewrite (Hs d)|]. intros Hin. by apply elem_of_nil in Hin.
Qed.

Lemma add_all_ok (added : list (list Z * CDeterministicMN)) (l : CDeterministicMNList) (m' : MnMap) : list_ok l -> NoDup added.*1 ->
  (forall p d, (p, d) ∈ added -> mnMap l !! p = None /\ mn_ok p d /\ m' !! p = Some d) ->
  (forall p d, mnMap l !! p = Some d -> m' !! p = Some d) -> exclusive (keys_at m') ->
  exists l', add_all l added = Some l' /\ list_ok l' /\ blockHash l' = blockHash l /\ nHeight l' = nHeight l /\
    forall p d, mnMap l' !! p = Some d <-> mnMap l !! p = Some d \/ (p, d) ∈ added.
Proof.
  revert l. induction added as [|[p d] added IH]; intros l Hl Hnd Hadd Hsub Hex; cbn [add_all].
  { exists l. split_and!; try done. intros p d. split; [by left|]. intros [|Hin]; [done|by apply elem_of_nil in Hin]. }
  cbn in Hnd. apply NoDup_cons in Hnd as [Hp Hnd]. destruct (Hadd p d ltac:(by left)) as (Hnone & Hok & Hm').
  pose proof Hok as [Epd _]. subst p.
  destruct (AddMN_ok l d Hl Hnone Hok) as (u & -> & Hl1).
  { intros q h Hh Hq Hin. apply (Hex (proTxHash d) q h); [done| |].
    - by rewrite (keys_at_Some _ _ _ Hm').
    - apply (keys_at_sub (mnMap l)); [apply Hsub|done]. }
  cbn [mbind option_bind]. destruct (IH _ Hl1 Hnd) as (l' & -> & Hl' & Hb & Hh & Hm).
  - intros q e Hq. cbn. destruct (Hadd q e ltac:(by right)) as (Hn & Hoke & Hme). split; [|done].
    rewrite lookup_insert_ne; [done|]. intros <-. apply Hp. apply list_elem_of_fmap. by exists (proTxHash d, e).
  - intros q e. cbn. destruct (decide (q = proTxHash d)) as [->|Hq].
    + rewrite lookup_insert_eq. by intros [= <-].
    + rewrite lookup_insert_ne by done. apply Hsub.
  - done.
  - exists l'. split_and!; try done. intros q e. rewrite Hm. cbn. rewrite elem_of_cons.
    destruct (decide (q = proTxHash d)) as [->|Hq].
    + rewrite lookup_insert_eq, Hnone. split.
      * intros [[= <-]|]; [right; by left|right; by right].
      * intros [|[[= ->]|]]; [done|by left|by right].
    + rewrite lookup_insert_ne by done. split; [intros [|]; [by left|right; by right]|]. intros [|[[=]|]]; [by left|done|by right].
Qed.

Lemma update_all_ok (updated : list (list Z * CDeterministicMNState)) (l : CDeterministicMNList) (m0 m1 : MnMap) : list_ok l -> NoDup updated.*1 ->
  (forall p d, mnMap l !! p = Some d -> m0 !! p = Some d \/ m1 !! p = Some d) ->
  (forall p st, (p, st) ∈ updated -> keyIDOwner st <> CKeyID_null /\
     exists d, mnMap l !! p = Some d /\ m1 !! p = Some (set_pdmnState d st)) ->
  (forall p q h, p <> q -> h ∈ keys_at m1 p -> h ∉ keys_at m0 q /\ h ∉ keys_at m1 q) ->
  exists l', update_all l updated = Some l' /\ list_ok l' /\ blockHash l' = blockHash l /\ nHeight l' = nHeight l /\
    forall p, mnMap l' !! p = if decide (p ∈ updated.*1) then m1 !! p else mnMap l !! p.
Proof.
  revert l. induction updated as [|[p st] updated IH]; intros l Hl Hnd Hor Hupd Hex; cbn [update_all].
  { by exists l. }
  cbn in Hnd. apply NoDup_cons in Hnd as [Hp Hnd]. destruct (Hupd p st ltac:(by left)) as (Hst & d & Hd & Hm1).
  destruct (UpdateMN_ok l p d st Hl Hd Hst) as (u & -> & Hl1).
  { intros q h Hh Hq Hin. destruct (Hex p q h) as [H0 H1]; [done| |].
    - rewrite (keys_at_Some _ _ _ Hm1). unfold property_keys. apply elem_of_app. by right.
    - unfold keys_at in Hin, H0, H1. destruct (mnMap l !! q) as [e|] eqn:Eq; [|by apply elem_of_nil in Hin].
      destruct (Hor q e Eq) as [E|E]; rewrite E in *; done. }
  cbn [mbind option_bind]. destruct (IH _ Hl1 Hnd) as (l' & -> & Hl' & Hb & Hh & Hm).
  - intros q e. cbn. destruct (decide (q = p)) as [->|Hq].
    + rewrite lookup_insert_eq. intros [= <-]. by right.
    + rewrite lookup_insert_ne by done. apply Hor.
  - intros q st' Hq. destruct (Hupd q st' ltac:(by right)) as (Hst' & e & He & Hme). split; [done|]. exists e. split; [|done].
    cbn. rewrite lookup_insert_ne; [done|]. intros <-. apply Hp. apply list_elem_of_fmap. by exists (p, st').
  - done.
  - exists l'. split_and!; try done. intros q. rewrite Hm. cbn. destruct (decide (q = p)) as [->|Hq].
    + rewrite (decide_True (P := (p ∈ (p :: (updated.*1))))) by left. rewrite lookup_insert_eq, Hm1. by case_decide.
    + rewrite lookup_insert_ne by done. destruct (decide (q ∈ updated.*1)).
      * by rewrite decide_True by (by right).
      * rewrite decide_False; [done|]. intros [|]%elem_of_cons; done.
Qed.

End Diffs.

(** ** Looking a property up *)

Section Lookup.
Context {T : Type} `{UniqueProperty T} `{BLSCurve}.

Lemma GetUniquePropertyMN_spec l (v : T) d : list_ok l ->
  GetUniquePropertyMN l v = Some d <-> mnMap l !! proTxHash d = Some d /\ SerializeHash v ∈ property_keys d.
Proof.
  intros [Hm Hu]. unfold GetUniquePropertyMN, GetMN. pose proof (Hu (SerializeHash v)) as Hv.
  destruct (mnUniquePropertyMap l !! SerializeHash v) as [[q n]|] eqn:E; cbn [mbind option_bind fst].
  - destruct Hv as (Hn & -> & Ho). assert (0 < count (keys_at (mnMap l) q) (SerializeHash v))%nat as Hq by lia.
    apply count_pos in Hq. split.
    + intros Hd. destruct (Hm q d Hd) as [-> _]. split; [done|]. by rewrite (keys_at_Some _ _ _ Hd) in Hq.
    + intros [Hd Hin]. destruct (decide (proTxHash d = q)) as [<-|Hne]; [done|].
      specialize (Ho _ Hne). rewrite (keys_at_Some _ _ _ Hd) in Ho. apply count_zero in Ho. done.
  - split; [done|]. intros [Hd Hin]. specialize (Hv (proTxHash d)). rewrite (keys_at_Some _ _ _ Hd) in Hv.
    by apply count_zero in Hv.
Qed.

Lemma HasUniqueProperty_spec l (v : T) : list_ok l ->
  HasUniqueProperty l v = true <-> exists d, GetUniquePropertyMN l v = Some d.
Proof.
  intros [Hm Hu]. unfold HasUniqueProperty, GetUniquePropertyMN, GetMN. rewrite bool_decide_eq_true.
  pose proof (Hu (SerializeHash v)) as Hv.
  destruct (mnUniquePropertyMap l !! SerializeHash v) as [[q n]|]; cbn [mbind option_bind fst].
  - split; [|done]. intros _. destruct Hv as (Hn & -> & _). unfold keys_at in Hn.
    destruct (mnMap l !! q) as [d|]; [by exists d|]. done.
  - split; [by intros []|by intros []].
Qed.

(** A property that no masternode has is free for any. *)
Lemma HasUniqueProperty_free l (v : T) p : list_ok l -> HasUniqueProperty l v = false -> free_for (mnMap l) p (hash_of v).
Proof.
  intros Hl Hv q h Hh _ Hin. unfold hash_of in Hh. case_bool_decide; [by apply elem_of_nil in Hh|].
  apply list_elem_of_singleton in Hh. subst h. unfold keys_at in Hin.
  destruct (mnMap l !! q) as [d|] eqn:Ed; [|by apply elem_of_nil in Hin].
  destruct (mns_ok l Hl q d Ed) as [Hq _].
  assert (HasUniqueProperty l v = true) as E; [|congruence]. apply HasUniqueProperty_spec; [done|]. exists d.
  apply GetUniquePropertyMN_spec; [done|]. by rewrite Hq.
Qed.

End Lookup.

Lemma shared_dec d u keys ks : index_of u keys ->
  (forall q h, h ∈ ks -> q <> proTxHash d -> h ∉ keys q) \/ shared d keys ks.
Proof.
  intros Hu. induction ks as [|h ks IH]; [left; intros q h Hh; by apply elem_of_nil in Hh|].
  destruct (share_dec u keys (proTxHash d) h Hu) as [Hf|(q & Hq & Hin)].
  - destruct IH as [IH|(q & k & Hk & Hq & Hin)]; [|right; exists q, k; split_and!; [by right|done|done]].
    left. intros q k [->|Hk]%elem_of_cons Hq; [by apply Hf|by apply IH].
  - right. exists q, h. split_and!; [by left|done|done].
Qed.

Section Theorems.
Context `{BLSCurve}.

(** The list in which an operation leaves its masternodes; the rest is kept. *)
Definition same_header (l l' : CDeterministicMNList) : Prop := blockHash l' = blockHash l /\ nHeight l' = nHeight l.

Lemma AddMN_cases l d : list_ok l ->
  match AddMN l d with
  | Some l' => mnMap l !! proTxHash d = None /\ list_ok l' /\ mnMap l' = <[proTxHash d := d]> (mnMap l) /\ same_header l l'
  | None => is_Some (mnMap l !! proTxHash d) \/ ~ mn_ok (proTxHash d) d \/ shared d (keys_at (mnMap l)) (property_keys d)
  end.
Proof.
  intros Hl. pose proof Hl as [Hm Hu].
  destruct (mnMap l !! proTxHash d) as [e|] eqn:Ed.
  { unfold AddMN. rewrite Ed, bool_decide_true by done. by left. }
  destruct (decide (collateralOutpoint d = COutPoint_null)) as [Ec|Hc].
  { unfold AddMN. rewrite Ed, bool_decide_false by (by intros []). rewrite AddUniqueProperty_null by done. cbn.
    right. left. by intros (_ & Hc & _). }
  destruct (shared_dec d _ _ (property_keys d) Hu) as [Hf|Hs]; [|rewrite (AddMN_shared l d Hl Hs); by right; right].
  destruct (decide (keyIDOwner (pdmnState d) = CKeyID_null)) as [Eo|Ho].
  + destruct (AddMN l d) as [l'|] eqn:E; [|right; left; by intros (_ & _ & Ho)]. exfalso.
    unfold AddMN in E. rewrite Ed, bool_decide_false in E by (by intros []).
    destruct (AddUniqueProperty _ d (collateralOutpoint d)) as [l1|] eqn:E1; [|done]. cbn [mbind option_bind] in E.
    destruct (if bool_decide _ then _ else _) as [l2|] eqn:E2; [|done]. cbn [mbind option_bind] in E.
    by rewrite (AddUniqueProperty_null d l2 (keyIDOwner (pdmnState d)) Eo) in E.
  + destruct (AddMN_ok l d Hl Ed ltac:(done) Hf) as (u & -> & Hl'). split_and!; done.
Qed.

Lemma UpdateMN_cases l p st : list_ok l -> keyIDOwner st <> CKeyID_null ->
  match UpdateMN l p st with
  | Some l' => exists d, mnMap l !! p = Some d /\ list_ok l' /\ mnMap l' = <[p := set_pdmnState d st]> (mnMap l) /\ same_header l l'
  | None => mnMap l !! p = None \/ exists d, mnMap l !! p = Some d /\ shared d (keys_at (mnMap l)) (state_keys st)
  end.
Proof.
  intros Hl Hst. pose proof Hl as [Hm Hu].
  destruct (mnMap l !! p) as [d|] eqn:Ed; [|unfold UpdateMN; rewrite Ed; by left].
  destruct (Hm p d Ed) as (Hp & _). destruct (shared_dec d _ _ (state_keys st) Hu) as [Hf|Hs].
  + rewrite Hp in Hf. destruct (UpdateMN_ok l p d st Hl Ed Hst Hf) as (u & -> & Hl'). exists d. done.
  + rewrite (UpdateMN_shared l p d st Hl Ed Hs). right. by exists d.
Qed.

Lemma RemoveMN_cases l p : list_ok l ->
  match RemoveMN l p with
  | Some l' => is_Some (mnMap l !! p) /\ list_ok l' /\ mnMap l' = delete p (mnMap l) /\ same_header l l'
  | None => mnMap l !! p = None
  end.
Proof.
  intros Hl.
  destruct (mnMap l !! p) as [d|] eqn:Ed; [|unfold RemoveMN, GetMN; by rewrite Ed].
  destruct (RemoveMN_ok l p d Hl Ed) as (u & -> & Hl'). split_and!; done.
Qed.

(** C18: The masternode list.  Let the index of a list be the one recomputed from its
    masternodes.  Adding, updating and removing a masternode either succeed, with
    exactly that effect on the masternodes, a recomputable index and no property in
    common between two masternodes; or assert, exactly if the masternode is already
    there (or missing), has a null collateral or owner, or would share a property
    with another.  A property is reported as taken exactly if some masternode has it,
    and the masternode found is that one. *)
Theorem mn_list_operations (l : CDeterministicMNList) :
  list_ok l ->
  exclusive (keys_at (mnMap l)) /\
  (forall d, match AddMN l d with
     | Some l' => mnMap l !! proTxHash d = None /\ list_ok l' /\ mnMap l' = <[proTxHash d := d]> (mnMap l) /\ same_header l l'
     | None => is_Some (mnMap l !! proTxHash d) \/ ~ mn_ok (proTxHash d) d \/ shared d (keys_at (mnMap l)) (property_keys d)
     end) /\
  (forall p st, keyIDOwner st <> CKeyID_null ->
     match UpdateMN l p st with
     | Some l' => exists d, mnMap l !! p = Some d /\ list_ok l' /\ mnMap l' = <[p := set_pdmnState d st]> (mnMap l) /\ same_header l l'
     | None => mnMap l !! p = None \/ exists d, mnMap l !! p = Some d /\ shared d (keys_at (mnMap l)) (state_keys st)
     end) /\
  (forall p, match RemoveMN l p with
     | Some l' => is_Some (mnMap l !! p) /\ list_ok l' /\ mnMap l' = delete p (mnMap l) /\ same_header l l'
     | None => mnMap l !! p = None
     end) /\
  (forall outpoint d, GetMNByCollateral l outpoint = Some d <->
     mnMap l !! proTxHash d = Some d /\ SerializeHash outpoint ∈ property_keys d) /\
  (forall key : CBLSPublicKey, HasUniqueProperty l key = true <-> exists d, GetUniquePropertyMN l key = Some d).
Proof.
  intros Hl. split; [by apply list_exclusive|].
  split; [exact (fun d => AddMN_cases l d Hl)|]. split; [exact (fun p st => UpdateMN_cases l p st Hl)|].
  split; [exact (fun p => RemoveMN_cases l p Hl)|].
  split; [exact (fun outpoint d => GetUniquePropertyMN_spec l outpoint d Hl)|exact (fun key => HasUniqueProperty_spec l key Hl)].
Qed.

End Theorems.

Section DiffTheorems.
Context `{BLSCurve}.

(** Two lists of consecutive blocks: who stays keeps collateral and reward, and what
    changes hands belonged to a masternode that is gone. *)
Record successive (from to : CDeterministicMNList) : Prop := {
  next_height : nHeight to = nHeight from + 1;
  same_registration : forall p d e, mnMap from !! p = Some d -> mnMap to !! p = Some e ->
    collateralOutpoint e = collateralOutpoint d /\ nOperatorReward e = nOperatorReward d;
  no_handover : forall p q h, p <> q -> h ∈ keys_at (mnMap from) p -> h ∈ keys_at (mnMap to) q -> mnMap to !! p = None;
}.

Lemma mn_eq d e : proTxHash d = proTxHash e -> collateralOutpoint d = collateralOutpoint e ->
  nOperatorReward d = nOperatorReward e -> pdmnState d = pdmnState e -> d = e.
Proof. destruct d, e. cbn. by intros -> -> -> ->. Qed.

Lemma list_ext (l l' : CDeterministicMNList) : list_ok l -> list_ok l' -> blockHash l = blockHash l' -> nHeight l = nHeight l' ->
  mnMap l = mnMap l' -> l = l'.
Proof.
  destruct l as [b h m u], l' as [b' h' m' u']. intros [_ Hu] [_ Hu']. cbn in *. intros -> -> ->.
  f_equal. by apply (index_unique _ _ (keys_at m')).
Qed.

(** *** The phases, for the difference of two lists *)

Section Phases.
Context (from to : CDeterministicMNList) (Hfrom : list_ok from) (Hto : list_ok to) (Hs : successive from to).
Local Abbreviation diff := (BuildDiff from to).

Lemma removal_phase : exists l1,
  remove_all (SetHeight (SetBlockHash from (blockHash to)) (nHeight to)) (elements (removedMns diff)) = Some l1 /\
  list_ok l1 /\ blockHash l1 = blockHash to /\ nHeight l1 = nHeight to /\
  forall p d, mnMap l1 !! p = Some d <-> mnMap from !! p = Some d /\ is_Some (mnMap to !! p).
Proof using Hfrom Hto.
  clear Hs. pose proof (removed_spec from to (mns_ok from Hfrom) (mns_ok to Hto)) as Hrem.
  set (l0 := SetHeight _ _). assert (list_ok l0) as Hl0 by (destruct Hfrom; by split).
  destruct (remove_all_ok (elements (removedMns diff)) l0 Hl0) as (l1 & E1 & Hl1 & Hb1 & Hh1 & Hm1);
    [apply NoDup_elements|intros p Hp; by apply elem_of_elements, Hrem in Hp as [? _]|].
  exists l1. split_and!; try done. intros p d. rewrite Hm1. case_decide as Hp.
  - apply elem_of_elements, Hrem in Hp as [_ Hn]. rewrite Hn. split; [done|]. by intros [_ []].
  - split; [|by intros []]. intros Hd. split; [done|]. destruct (mnMap to !! p) eqn:E; [by eexists|]. destruct Hp.
    apply elem_of_elements, Hrem. split; [by eexists|done].
Qed.

(** Once the removals are done and the additions too, nobody has what another shall have. *)
Definition between (m : MnMap) : Prop := forall p d, m !! p = Some d <->
  (mnMap from !! p = Some d /\ is_Some (mnMap to !! p)) \/ (mnMap to !! p = Some d /\ mnMap from !! p = None).

Lemma between_cross m p q h : between m -> p <> q -> h ∈ keys_at m p -> h ∉ keys_at (mnMap to) q.
Proof using Hto Hs.
  intros Hm Hpq Hp Hq. unfold keys_at in Hp. destruct (m !! p) as [d|] eqn:Ed; [|by apply elem_of_nil in Hp].
  apply Hm in Ed as [[Ed [e He]]|[Ed _]].
  - rewrite (no_handover from to Hs p q h) in He; [done|done| |done]. by rewrite (keys_at_Some _ _ _ Ed).
  - apply (list_exclusive to Hto p q h); [done| |done]. by rewrite (keys_at_Some _ _ _ Ed).
Qed.

Lemma between_exclusive m : between m -> exclusive (keys_at m).
Proof using Hfrom Hto Hs.
  intros Hm p q h Hpq Hp Hq. pose proof Hq as Hq'. unfold keys_at in Hq'.
  destruct (m !! q) as [e|] eqn:Ee; [|by apply elem_of_nil in Hq']. apply Hm in Ee as [[Ee Hin]|[Ee _]].
  - pose proof Hp as Hp'. unfold keys_at in Hp'. destruct (m !! p) as [d|] eqn:Ed; [|by apply elem_of_nil in Hp'].
    apply Hm in Ed as [[Ed _]|[Ed _]].
    + apply (list_exclusive from Hfrom p q h); [done| |]; by rewrite (keys_at_Some _ _ _) by done.
    + apply (between_cross m q p h Hm); [done|done|]. by rewrite (keys_at_Some _ _ _ Ed).
  - apply (between_cross m p q h Hm); [done|done|]. by rewrite (keys_at_Some _ _ _ Ee).
Qed.

Lemma addition_phase l1 : list_ok l1 -> blockHash l1 = blockHash to -> nHeight l1 = nHeight to ->
  (forall p d, mnMap l1 !! p = Some d <-> mnMap from !! p = Some d /\ is_Some (mnMap to !! p)) ->
  exists l2, add_all l1 (map_to_list (addedMNs diff)) = Some l2 /\ list_ok l2 /\ blockHash l2 = blockHash to /\
    nHeight l2 = nHeight to /\ between (mnMap l2).
Proof using Hfrom Hto Hs.
  intros Hl1 Hb1 Hh1 Hm1. pose proof (added_spec from to (mns_ok to Hto)) as Hadd.
  assert (forall p d, addedMNs diff !! p = Some d -> mnMap l1 !! p = None) as Hdisj.
  { intros p d Hd. apply Hadd in Hd as [_ Hn]. destruct (mnMap l1 !! p) as [e|] eqn:E; [|done].
    apply Hm1 in E as [E _]. congruence. }
  assert (between (mnMap l1 ∪ addedMNs diff)) as Hm2.
  { intros p d. rewrite lookup_union_Some_raw, <- Hm1, <- Hadd. split; [intros [|[_ ?]]; [by left|by right]|].
    intros [|Hd]; [by left|]. right. split; [by apply (Hdisj p d)|done]. }
  destruct (add_all_ok (map_to_list (addedMNs diff)) l1 (mnMap l1 ∪ addedMNs diff) Hl1)
    as (l2 & E2 & Hl2 & Hb2 & Hh2 & Hm2').
  - apply NoDup_fst_map_to_list.
  - intros p d Hd%elem_of_map_to_list. split; [by apply (Hdisj p d)|].
    pose proof (Hdisj p d Hd). apply Hadd in Hd as [Hd Hn]. split; [by apply (mns_ok to Hto)|]. apply Hm2. by right.
  - intros p d Hd. apply lookup_union_Some_raw. by left.
  - by apply between_exclusive.
  - exists l2. split_and!; [done|done|congruence|congruence|]. intros p d. rewrite Hm2', elem_of_map_to_list, Hadd, Hm1. done.
Qed.

Lemma update_phase l2 : list_ok l2 -> blockHash l2 = blockHash to -> nHeight l2 = nHeight to -> between (mnMap l2) ->
  update_all l2 (map_to_list (updatedMNs diff)) = Some to.
Proof using Hfrom Hto Hs.
  intros Hl2 Hb2 Hh2 Hm2. pose proof (updated_spec from to (mns_ok to Hto)) as Hupd.
  destruct (update_all_ok (map_to_list (updatedMNs diff)) l2 (mnMap l2) (mnMap to) Hl2) as (l3 & -> & Hl3 & Hb3 & Hh3 & Hm3).
  - apply NoDup_fst_map_to_list.
  - intros p d Hd. by left.
  - intros p st Hst%elem_of_map_to_list. apply Hupd in Hst as (d & e & Hd & He & -> & _).
    destruct (mns_ok to Hto p d Hd) as (Hpd & _ & Ho), (mns_ok from Hfrom p e He) as (Hpe & _ & _). split; [done|].
    exists e. split; [apply Hm2; left; split; [done|by eexists]|].
    rewrite Hd. f_equal. destruct (same_registration from to Hs p e d He Hd). apply mn_eq; cbn; congruence.
  - intros p q h Hpq Hp. split; [|by apply (list_exclusive to Hto p)]. intros Hq. by apply (between_cross (mnMap l2) q p h).
  - f_equal. apply list_ext; [done|done|congruence|congruence|]. apply map_eq. intros p. rewrite Hm3.
    case_decide as Hp; [done|]. assert (forall d e, mnMap from !! p = Some d -> mnMap to !! p = Some e -> d = e) as Hsame.
    { intros d e Hd He. destruct (mns_ok to Hto p e He) as (Hpe & _), (mns_ok from Hfrom p d Hd) as (Hpd & _).
      destruct (same_registration from to Hs p d e Hd He).
      destruct (decide (pdmnState e = pdmnState d)) as [Est|Hne]; [apply mn_eq; congruence|].
      destruct Hp. apply list_elem_of_fmap. exists (p, pdmnState e). split; [done|]. apply elem_of_map_to_list, Hupd. by exists e, d. }
    apply option_eq. intros d. rewrite (Hm2 p d). split.
    + intros [[Hd [e He]]|[Hd _]]; [|done]. rewrite He. f_equal. symmetry. by apply Hsame.
    + intros Hd. destruct (mnMap from !! p) as [e|] eqn:He; [|by right]. left. split; [f_equal; by apply Hsame|by eexists].
Qed.

End Phases.

(** A difference leads from the one list to the other. *)
Lemma ApplyDiff_BuildDiff (from to : CDeterministicMNList) :
  list_ok from -> list_ok to -> successive from to -> ApplyDiff from (BuildDiff from to) = Some to.
Proof.
  intros Hfrom Hto Hs. destruct (removal_phase from to Hfrom Hto) as (l1 & E1 & Hl1 & Hb1 & Hh1 & Hm1).
  destruct (addition_phase from to Hfrom Hto Hs l1 Hl1 Hb1 Hh1 Hm1) as (l2 & E2 & Hl2 & Hb2 & Hh2 & Hm2).
  unfold ApplyDiff. change (diff_prevBlockHash (BuildDiff from to)) with (blockHash from).
  change (diff_nHeight (BuildDiff from to)) with (nHeight to). change (diff_blockHash (BuildDiff from to)) with (blockHash to).
  rewrite bool_decide_true by done. rewrite <- (next_height from to Hs), Z.eqb_refl. cbn [andb].
  rewrite E1. cbn [mbind option_bind]. rewrite E2. cbn [mbind option_bind]. by apply update_phase.
Qed.

(** Differences of lists.  Let the second of two lists be a successor of the first
    in which every property that changes hands comes from a masternode that is gone.
    Then the difference built from them, applied to the first, asserts nothing and
    gives the second, to the last detail: block, height, masternodes and index. *)
Theorem diff_roundtrip (from to : CDeterministicMNList) :
  list_ok from -> list_ok to -> successive from to -> ApplyDiff from (BuildDiff from to) = Some to.
Proof. exact (ApplyDiff_BuildDiff from to). Qed.

End DiffTheorems.

(** ** Proof of service *)

Lemma NoDup_filtered {A B} (f : A -> B) (g : A -> bool) (l : list A) : NoDup (map f l) -> NoDup (map f (List.filter g l)).
Proof.
  induction l as [|x l IH]; [done|]. intros [Hx Hl]%NoDup_cons. cbn. destruct (g x); [|by apply IH].
  apply NoDup_cons. split; [|by apply IH]. intros Hin. apply Hx. apply list_elem_of_fmap in Hin as (y & E & Hy).
  apply list_elem_of_fmap. exists y. split; [done|]. apply list_elem_of_In, filter_In in Hy as [Hy _]. by apply list_elem_of_In.
Qed.

Section PoSe.
Context `{BLSCurve}.

(** A state with the same properties can always be put in. *)
Lemma UpdateMN_keep l p d st : list_ok l -> mnMap l !! p = Some d ->
  state_keys st = state_keys (pdmnState d) -> keyIDOwner st = keyIDOwner (pdmnState d) ->
  exists l', UpdateMN l p st = Some l' /\ list_ok l' /\ mnMap l' = <[p := set_pdmnState d st]> (mnMap l) /\ same_header l l'.
Proof.
  intros Hl Hd Hk Ho. destruct (mns_ok l Hl p d Hd) as (_ & _ & Hno).
  destruct (UpdateMN_ok l p d st Hl Hd) as (u & -> & Hl'); [congruence| |by eexists].
  intros q h Hh Hq Hin. apply (list_exclusive l Hl p q h); [done| |done].
  rewrite (keys_at_Some _ _ _ Hd). unfold property_keys. apply elem_of_app. right. by rewrite <- Hk.
Qed.

(** What a punishment and a block do to a state. *)
Definition punished (maxPenalty height penalty : Z) (s : CDeterministicMNState) : CDeterministicMNState :=
  let s' := set_nPoSePenalty s (Z.min maxPenalty (nPoSePenalty s + penalty)) in
  if (maxPenalty <=? nPoSePenalty s') && (nPoSeBanHeight s' =? -1) then set_nPoSeBanHeight s' height else s'.
Definition recovered (s : CDeterministicMNState) : CDeterministicMNState :=
  if (0 <? nPoSePenalty s) && (nPoSeBanHeight s =? -1) then set_nPoSePenalty s (nPoSePenalty s - 1) else s.

Lemma PoSePunish_ok l p d penalty : list_ok l -> mnMap l !! p = Some d -> 0 < penalty ->
  exists l', PoSePunish l p penalty = Some l' /\ list_ok l' /\ same_header l l' /\
    mnMap l' = <[p := set_pdmnState d (punished (CalcMaxPoSePenalty l) (nHeight l) penalty (pdmnState d))]> (mnMap l).
Proof.
  intros Hl Hd Hpen. unfold PoSePunish. rewrite (proj2 (Z.ltb_lt 0 penalty) Hpen). cbn [negb]. unfold GetMN. rewrite Hd.
  cbn [mbind option_bind]. fold (punished (CalcMaxPoSePenalty l) (nHeight l) penalty (pdmnState d)).
  destruct (UpdateMN_keep l p d (punished (CalcMaxPoSePenalty l) (nHeight l) penalty (pdmnState d)) Hl Hd)
    as (l' & E & Hl' & Hm & Hh); [unfold punished; by case_match|unfold punished; by case_match|]. by exists l'.
Qed.

Lemma PoSeDecrease_ok l p d : list_ok l -> mnMap l !! p = Some d ->
  (0 <? nPoSePenalty (pdmnState d)) && (nPoSeBanHeight (pdmnState d) =? -1) = true ->
  exists l', PoSeDecrease l p = Some l' /\ list_ok l' /\ same_header l l' /\
    mnMap l' = <[p := set_pdmnState d (recovered (pdmnState d))]> (mnMap l).
Proof.
  intros Hl Hd Hc. unfold PoSeDecrease, GetMN. rewrite Hd. cbn [mbind option_bind]. rewrite Hc. unfold recovered. rewrite Hc.
  destruct (UpdateMN_keep l p d (set_nPoSePenalty (pdmnState d) (nPoSePenalty (pdmnState d) - 1)) Hl Hd)
    as (l' & E & Hl' & Hm & Hh); [done|done|]. by exists l'.
Qed.

Lemma decrease_all_ok hashes l : list_ok l -> NoDup hashes ->
  (forall p, p ∈ hashes -> exists d, mnMap l !! p = Some d /\
     (0 <? nPoSePenalty (pdmnState d)) && (nPoSeBanHeight (pdmnState d) =? -1) = true) ->
  exists l', decrease_all l hashes = Some l' /\ list_ok l' /\ same_header l l' /\
    forall p, mnMap l' !! p = if decide (p ∈ hashes) then (fun d => set_pdmnState d (recovered (pdmnState d))) <$> mnMap l !! p
                              else mnMap l !! p.
Proof.
  revert l. induction hashes as [|p hashes IH]; intros l Hl Hnd Hin; cbn [decrease_all].
  { exists l. split_and!; try done. }
  apply NoDup_cons in Hnd as [Hp Hnd]. destruct (Hin p ltac:(by left)) as (d & Hd & Hc).
  destruct (PoSeDecrease_ok l p d Hl Hd Hc) as (l1 & -> & Hl1 & [Hb1 Hh1] & Hm1). cbn [mbind option_bind].
  destruct (IH l1 Hl1 Hnd) as (l' & -> & Hl' & [Hb Hh] & Hm).
  { intros q Hq. rewrite Hm1, lookup_insert_ne by (by intros ->). apply Hin. by right. }
  exists l'. split_and!; [done|done|split; congruence|]. intros q. rewrite Hm, Hm1. destruct (decide (q = p)) as [->|Hq].
  - rewrite lookup_insert_eq. rewrite (decide_True (P := (p ∈ p :: hashes))) by left. rewrite decide_False by done. by rewrite Hd.
  - rewrite lookup_insert_ne by done. destruct (decide (q ∈ hashes)).
    + by rewrite decide_True by (by right).
    + rewrite decide_False; [done|]. intros [|]%elem_of_cons; done.
Qed.

(** Once per block every penalty of a masternode that is not banned goes down by one. *)
Lemma DecreasePoSePenalties_ok l : list_ok l ->
  exists l', DecreasePoSePenalties l = Some l' /\ list_ok l' /\ same_header l l' /\
    mnMap l' = (fun d => set_pdmnState d (recovered (pdmnState d))) <$> mnMap l.
Proof.
  intros Hl. unfold DecreasePoSePenalties. set (hashes := map proTxHash _).
  assert (forall p, p ∈ hashes <-> exists d, mnMap l !! p = Some d /\
     (0 <? nPoSePenalty (pdmnState d)) && (nPoSeBanHeight (pdmnState d) =? -1) = true) as Hin.
  { intros p. unfold hashes. rewrite list_elem_of_fmap. split.
    - intros (d & -> & Hd). apply list_elem_of_In, filter_In in Hd as [Hd Hc].
      unfold ForEachMN in Hd. apply filter_In in Hd as [Hd _]. apply list_elem_of_In in Hd.
      rewrite <- ForEachMN_all in Hd. apply elem_of_all in Hd; [by exists d|apply Hl].
    - intros (d & Hd & Hc). destruct (mns_ok l Hl p d Hd) as (Hp & _). exists d. split; [done|].
      apply list_elem_of_In, filter_In. split; [|done]. unfold ForEachMN. apply filter_In. split.
      + apply list_elem_of_In. rewrite <- ForEachMN_all. apply elem_of_all; [apply Hl|]. by rewrite Hp.
      + cbn. unfold IsMNValid, IsMNPoSeBanned. apply andb_true_iff in Hc as [_ ->]. done. }
  destruct (decrease_all_ok hashes l Hl) as (l' & E & Hl' & Hh & Hm).
  - unfold hashes. apply (NoDup_filtered proTxHash). apply (NoDup_filtered proTxHash).
    rewrite <- ForEachMN_all. apply NoDup_all, Hl.
  - intros p. apply Hin.
  - exists l'. split_and!; [done|done|done|]. apply map_eq. intros p. rewrite Hm, lookup_fmap. case_decide as Hp; [done|].
    destruct (mnMap l !! p) as [d|] eqn:Ed; [|done]. cbn. f_equal. unfold recovered.
    destruct (_ && _) eqn:Ec; [|by destruct d]. destruct Hp. apply Hin. by exists d.
Qed.

End PoSe.

Section PoSeTheorems.
Context `{BLSCurve}.

(** [n] blocks without a failure. *)
Definition blocks (n : nat) (l : CDeterministicMNList) : option CDeterministicMNList :=
  Nat.iter n (fun o => o ≫= DecreasePoSePenalties) (Some l).

Lemma size_keep (m : MnMap) p d e : m !! p = Some d -> size (<[p := e]> m) = size m.
Proof. intros Hd. by rewrite map_size_insert_Some. Qed.

Lemma CalcMax_size l l' : size (mnMap l') = size (mnMap l) -> CalcMaxPoSePenalty l' = CalcMaxPoSePenalty l.
Proof. intros E. unfold CalcMaxPoSePenalty, GetAllMNsCount. by rewrite E. Qed.

Lemma recovered_iter n s : nPoSeBanHeight s = -1 -> 0 <= nPoSePenalty s ->
  nPoSePenalty (Nat.iter n recovered s) = Z.max 0 (nPoSePenalty s - Z.of_nat n) /\ nPoSeBanHeight (Nat.iter n recovered s) = -1.
Proof.
  intros Hb Hp. induction n as [|n IH]; [split; [cbn; lia|done]|]. destruct IH as [IHp IHb]. cbn [Nat.iter]. rewrite Nat.iter_succ in *.
  set (t := Nat.iter n recovered s) in *. unfold recovered. rewrite IHb. cbn [Z.eqb]. rewrite andb_true_r.
  destruct (Z.ltb_spec 0 (nPoSePenalty t)); cbn [nPoSePenalty nPoSeBanHeight set_nPoSePenalty]; split; (done || lia).
Qed.

Lemma recovered_ban n s : nPoSeBanHeight (Nat.iter n recovered s) = nPoSeBanHeight s.
Proof. induction n as [|n IH]; [done|]. rewrite Nat.iter_succ. unfold recovered at 1. case_match; [|apply IH]. cbn. apply IH. Qed.

Lemma blocks_ok n l : list_ok l -> exists l', blocks n l = Some l' /\ list_ok l' /\ same_header l l' /\
  mnMap l' = (fun d => set_pdmnState d (Nat.iter n recovered (pdmnState d))) <$> mnMap l.
Proof.
  intros Hl. induction n as [|n (l1 & E1 & Hl1 & [Hb1 Hh1] & Hm1)].
  - exists l. split_and!; try done. cbn. rewrite <- (map_fmap_id (mnMap l)) at 1. apply map_fmap_ext. by intros p [].
  - destruct (DecreasePoSePenalties_ok l1 Hl1) as (l2 & E2 & Hl2 & [Hb2 Hh2] & Hm2). exists l2.
    split; [unfold blocks in *; rewrite Nat.iter_succ, E1; done|]. split; [done|]. split; [split; congruence|].
    rewrite Hm2, Hm1, <- map_fmap_compose. apply map_fmap_ext. done.
Qed.

(** C19: Failing twice.  Take a list of masternodes with a sound index, and one of them
    with no penalty that is not banned.  When a quorum finds it failing, it is fined 66%
    of the maximal penalty and not banned; every block takes one off; and when it
    fails again [n] blocks later, it is banned exactly if the two fines less the [n]
    still reach the maximum.  No step asserts, and no other masternode is banned. *)
Theorem pose_failures (l : CDeterministicMNList) (p : list Z) (d : CDeterministicMN) (n : nat) (fine : Z) :
  list_ok l -> mnMap l !! p = Some d -> nPoSePenalty (pdmnState d) = 0 -> nPoSeBanHeight (pdmnState d) = -1 ->
  nHeight l <> -1 -> CalcPenalty l 66 = Some fine ->
  exists l1 l2 l3 s, PoSePunish l p fine = Some l1 /\ blocks n l1 = Some l2 /\ PoSePunish l2 p fine = Some l3 /\
    list_ok l3 /\ mnMap l3 !! p = Some (set_pdmnState d s) /\
    nPoSePenalty s = Z.min (CalcMaxPoSePenalty l) (Z.max 0 (fine - Z.of_nat n) + fine) /\
    (nPoSeBanHeight s = -1 <-> Z.max 0 (fine - Z.of_nat n) + fine < CalcMaxPoSePenalty l) /\
    forall q e, q <> p -> mnMap l !! q = Some e ->
      exists e', mnMap l3 !! q = Some e' /\ nPoSeBanHeight (pdmnState e') = nPoSeBanHeight (pdmnState e).
Proof.
  intros Hl Hd Hp0 Hb0 Hh Hf. unfold CalcPenalty in Hf. cbn [Z.ltb Z.compare] in Hf. injection Hf as Hf.
  pose proof (eq_refl : CalcMaxPoSePenalty l = Z.max 100 (i32 (GetAllMNsCount l))) as EM. set (M := CalcMaxPoSePenalty l) in *.
  assert (100 <= M) as HM by lia. assert (0 < fine < M) as Hfine by (rewrite <- Hf; rewrite Z.quot_div_nonneg by lia; dlia).
  destruct (PoSePunish_ok l p d fine Hl Hd ltac:(lia)) as (l1 & E1 & Hl1 & [Hb1 Hh1] & Hm1).
  destruct (blocks_ok n l1 Hl1) as (l2 & E2 & Hl2 & [Hb2 Hh2] & Hm2).
  set (s1 := punished M (nHeight l) fine (pdmnState d)) in *.
  assert (nPoSePenalty s1 = fine /\ nPoSeBanHeight s1 = -1) as [Hs1 Hs1b].
  { unfold s1, punished. cbn [nPoSePenalty nPoSeBanHeight set_nPoSePenalty]. rewrite Hp0, Z.add_0_l, Z.min_r by lia.
    rewrite (proj2 (Z.leb_gt M fine)) by lia. done. }
  destruct (recovered_iter n s1 Hs1b ltac:(lia)) as [Hs2 Hs2b]. set (s2 := Nat.iter n recovered s1) in *.
  assert (mnMap l2 !! p = Some (set_pdmnState d s2)) as Hd2 by (rewrite Hm2, lookup_fmap, Hm1, lookup_insert_eq; done).
  assert (CalcMaxPoSePenalty l2 = M) as HM2.
  { apply CalcMax_size. rewrite Hm2, map_size_fmap, Hm1. by apply (size_keep _ _ d). }
  destruct (PoSePunish_ok l2 p _ fine Hl2 Hd2 ltac:(lia)) as (l3 & E3 & Hl3 & _ & Hm3).
  rewrite HM2 in Hm3. cbn [pdmnState set_pdmnState] in Hm3.
  exists l1, l2, l3, (punished M (nHeight l2) fine s2). split_and!; [done|done|done|done|by rewrite Hm3, lookup_insert_eq| | |].
  - unfold punished. rewrite <- Hs1, <- Hs2. by case_match.
  - unfold punished. cbn [nPoSePenalty nPoSeBanHeight set_nPoSePenalty]. rewrite Hs2b, Hs2, Hs1. cbn [Z.eqb]. rewrite andb_true_r.
    destruct (Z.leb_spec M (Z.min M (Z.max 0 (fine - Z.of_nat n) + fine))) as [Hle|Hgt];
      cbn [nPoSeBanHeight set_nPoSeBanHeight set_nPoSePenalty]; [|rewrite Hs2b; split; lia].
    split; [|lia]. rewrite Hh2, Hh1. done.
  - intros q e Hq He. exists (set_pdmnState e (Nat.iter n recovered (pdmnState e))).
    split; [by rewrite Hm3, lookup_insert_ne, Hm2, lookup_fmap, Hm1, lookup_insert_ne, He by done|].
    apply recovered_ban.
Qed.

End PoSeTheorems.

(** ** Sample lists *)

Section Deciding.
Context `{BLSCurve}.

Definition successiveb (from to : CDeterministicMNList) : bool :=
  (nHeight to =? nHeight from + 1) &&
  forallb (fun pd : list Z * CDeterministicMN =>
    match mnMap to !! fst pd with
    | None => true
    | Some e =>
        bool_decide (collateralOutpoint e = collateralOutpoint (snd pd)) && (nOperatorReward e =? nOperatorReward (snd pd)) &&
        forallb (fun qe : list Z * CDeterministicMN => bool_decide (fst pd = fst qe) ||
          forallb (fun h => negb (bool_decide (h ∈ property_keys (snd qe)))) (property_keys (snd pd))) (map_to_list (mnMap to))
    end) (map_to_list (mnMap from)).

Lemma forallb_map (m : MnMap) f : forallb f (map_to_list m) = true <-> forall p d, m !! p = Some d -> f (p, d) = true.
Proof.
  rewrite forallb_forall. split.
  - intros Hf p d Hd. apply Hf, list_elem_of_In. by apply elem_of_map_to_list.
  - intros Hf [p d] Hd%list_elem_of_In%elem_of_map_to_list. by apply Hf.
Qed.

Lemma successiveb_ok from to : successiveb from to = true -> successive from to.
Proof.
  unfold successiveb. intros [Hh Hf]%andb_true_iff. rewrite forallb_map in Hf. split; [by apply Z.eqb_eq|..].
  - intros p d e Hd He. specialize (Hf p d Hd). cbn in Hf. rewrite He in Hf.
    apply andb_true_iff in Hf as [[Hc Hr]%andb_true_iff _]. split; [by apply bool_decide_eq_true in Hc|by apply Z.eqb_eq].
  - intros p q h Hpq Hp Hq. destruct (mnMap to !! p) as [e|] eqn:He; [|done]. exfalso.
    unfold keys_at in Hp, Hq. destruct (mnMap from !! p) as [d|] eqn:Hd; [|by apply elem_of_nil in Hp].
    destruct (mnMap to !! q) as [x|] eqn:Hx; [|by apply elem_of_nil in Hq].
    specialize (Hf p d Hd). cbn in Hf. rewrite He in Hf. apply andb_true_iff in Hf as [_ Hf]. rewrite forallb_map in Hf.
    specialize (Hf q x Hx). cbn in Hf. rewrite bool_decide_false in Hf by done. cbn [orb] in Hf.
    rewrite forallb_forall in Hf. specialize (Hf h ltac:(by apply list_elem_of_In)). by rewrite bool_decide_true in Hf.
Qed.

(** Operations that leave the list alone when they assert. *)
Definition try_add (l : CDeterministicMNList) (d : CDeterministicMN) := default l (AddMN l d).
Definition try_remove (l : CDeterministicMNList) (p : list Z) := default l (RemoveMN l p).

Lemma try_add_ok l d : list_ok l -> list_ok (try_add l d).
Proof. intros Hl. pose proof (AddMN_cases l d Hl) as E. unfold try_add. destruct (AddMN l d); [apply E|done]. Qed.
Lemma try_remove_ok l p : list_ok l -> list_ok (try_remove l p).
Proof. intros Hl. pose proof (RemoveMN_cases l p Hl) as E. unfold try_remove. destruct (RemoveMN l p); [apply E|done]. Qed.

Lemma new_list_ok h n : list_ok (CDeterministicMNList_new h n).
Proof. split; [apply map_Forall_empty|]. intros k. cbn. rewrite lookup_empty. cbn. intros p. unfold keys_at. by rewrite lookup_empty. Qed.

Lemma SetHeight_ok l b h : list_ok l -> list_ok (SetHeight (SetBlockHash l b) h).
Proof. intros [Hm Hu]. by split. Qed.

End Deciding.

Definition sample_mn (i : Z) : CDeterministicMN :=
  {| proTxHash := replicate 32 i; collateralOutpoint := CProRegTx.collateralOutpoint (sample_registration i); nOperatorReward := 0;
     pdmnState := set_nRegisteredHeight (CDeterministicMNState_of (sample_registration i)) (100 + i) |}.

Definition sample_list : CDeterministicMNList :=
  try_add (H := any_curve) (try_add (H := any_curve) (CDeterministicMNList_new (replicate 32 9) 200) (sample_mn 3)) (sample_mn 5).
Definition sample_next : CDeterministicMNList :=
  SetHeight (SetBlockHash (try_add (H := any_curve) (try_remove (H := any_curve) sample_list (replicate 32 3)) (sample_mn 7))
               (replicate 32 8)) 201.

Lemma sample_list_ok : list_ok (H := any_curve) sample_list.
Proof. unfold sample_list. apply try_add_ok, try_add_ok, new_list_ok. Qed.
Lemma sample_next_ok : list_ok (H := any_curve) sample_next.
Proof. unfold sample_next. apply SetHeight_ok, try_add_ok, try_remove_ok, sample_list_ok. Qed.

(** A third masternode with the operator key of the first cannot be added. *)
Definition sample_thief : CDeterministicMN :=
  set_pdmnState (sample_mn 6) (set_registrar (pdmnState (sample_mn 6)) (sample_operator 3) (sample_key 6) []).

Lemma mn_list_operations_witness :
  AddMN (H := any_curve) sample_list sample_thief = None /\
  exists l', RemoveMN (H := any_curve) sample_list (replicate 32 3) = Some l' /\ list_ok (H := any_curve) l'.
Proof.
  split; [vm_compute; reflexivity|].
  destruct (mn_list_operations (H := any_curve) sample_list sample_list_ok) as (_ & _ & _ & Hr & _).
  specialize (Hr (replicate 32 3)). destruct (RemoveMN (H := any_curve) sample_list (replicate 32 3)) as [l'|].
  - exists l'. split; [reflexivity|exact (proj1 (proj2 Hr))].
  - exfalso. assert (is_Some (mnMap sample_list !! replicate 32 3)) as [d E]; [|rewrite Hr in E; discriminate].
    exists (sample_mn 3). vm_compute. reflexivity.
Defined.

Lemma diff_roundtrip_witness :
  ApplyDiff (H := any_curve) sample_list (BuildDiff sample_list sample_next) = Some sample_next.
Proof.
  apply (diff_roundtrip (H := any_curve) sample_list sample_next sample_list_ok sample_next_ok).
  apply successiveb_ok. vm_compute. reflexivity.
Defined.

(** Two failures ten blocks apart: the masternode is banned. *)
Lemma pose_failures_witness :
  exists l1 l2 l3 s, PoSePunish (H := any_curve) sample_list (replicate 32 3) 66 = Some l1 /\
    blocks (H := any_curve) 10 l1 = Some l2 /\ PoSePunish (H := any_curve) l2 (replicate 32 3) 66 = Some l3 /\
    mnMap l3 !! replicate 32 3 = Some (set_pdmnState (sample_mn 3) s) /\ nPoSeBanHeight s <> -1.
Proof.
  destruct (pose_failures (H := any_curve) sample_list (replicate 32 3) (sample_mn 3) 10 66 sample_list_ok)
    as (l1 & l2 & l3 & s & H1 & H2 & H3 & _ & H4 & _ & H5 & _);
    [vm_compute; reflexivity|reflexivity|reflexivity|vm_compute; discriminate|vm_compute; reflexivity|].
  exists l1, l2, l3, s. split; [exact H1|]. split; [exact H2|]. split; [exact H3|]. split; [exact H4|].
  intros E. apply (proj1 H5) in E. revert E. replace (CalcMaxPoSePenalty sample_list) with 100 by (vm_compute; reflexivity). lia.
Defined.

(** The header promises a ban after three failures within a payment cycle; with a
    hundred masternodes and failures at blocks 0, 50 and 100 there is none. *)
Definition fail_after (n : nat) (s : CDeterministicMNState) : CDeterministicMNState := punished 100 500 66 (Nat.iter n recovered s).
Example three_failures_no_ban : nPoSeBanHeight (fail_after 50 (fail_after 50 (fail_after 0 (pdmnState (sample_mn 3))))) = -1.
Proof. vm_compute. reflexivity. Qed.
