(* ===== verification/MasternodeQueue.v ===== *)
(** * Whose turn it is: payments and quorums
    (src/src/evo/deterministicmns.cpp, [GetMNPayee], [GetProjectedMNPayees],
    [CalculateScores], [CalculateQuorum])

    The masternode paid by a block is the one that has waited longest.  The
    specification is a queue: the valid masternodes in the order of their last
    payment (or revival, or registration).  The theorems: the payee is the head of
    the queue, whatever order the map is visited in; a payment moves the head to the
    back, so the projection of a full cycle pays everyone once; a quorum consists of
    the confirmed masternodes with the highest scores. *)

From S2P Require Import Prelude Bytes Serialize Containers ArithUint256 Compact Pow HashEngine Sha256 Hash Transaction ProviderTx MasternodeList.
From stdpp Require Import list gmap sorting.
Local Open Scope Z_scope.
Local Open Scope cxx_scope.

(** [memcmp]; arrays of one length are compared. *)
Fixpoint memcmp (a b : list Z) : Z :=
  match a, b with
  | [], [] => 0
  | [], _ :: _ => -1
  | _ :: _, [] => 1
  | x :: a, y :: b => if x <? y then -1 else if y <? x then 1 else memcmp a b
  end.

(** [operator<] of [base_blob] and of [COutPoint] *)
Definition uint256_lt (a b : list Z) : bool := memcmp a b <? 0.
Definition COutPoint_lt (a b : COutPoint) : bool :=
  let cmp := memcmp (op_hash a) (op_hash b) in
  (cmp <? 0) || ((cmp =? 0) && (op_n a <? op_n b)).

(** ** Payments *)

Definition CompareByLastPaid_GetHeight (dmn : CDeterministicMN) : Z :=
  let s := pdmnState dmn in
  let height := nLastPaidHeight s in
  if negb (nPoSeRevivedHeight s =? -1) && (height <? nPoSeRevivedHeight s) then nPoSeRevivedHeight s
  else if height =? 0 then nRegisteredHeight s
  else height.

Definition CompareByLastPaid (_a _b : CDeterministicMN) : bool :=
  let ah := CompareByLastPaid_GetHeight _a in
  let bh := CompareByLastPaid_GetHeight _b in
  if ah =? bh then uint256_lt (proTxHash _a) (proTxHash _b) else ah <? bh.

(** The callback of [ForEachMN]. *)
Definition best_of (best : option CDeterministicMN) (dmn : CDeterministicMN) : option CDeterministicMN :=
  match best with
  | None => Some dmn
  | Some b => if CompareByLastPaid dmn b then Some dmn else best
  end.

Definition GetMNPayee (l : CDeterministicMNList) : option CDeterministicMN :=
  if (size (mnMap l) =? 0)%nat then None else fold_left best_of (ForEachMN l true) None.

(** [for (int h = nHeight; h < nHeight + nCount; h++)]; [None] is a null pointer
    dereferenced: nobody can be paid. *)
Fixpoint project `{BLSCurve} (l tmpMNList : CDeterministicMNList) (h : Z) (n : nat) : option (list (option CDeterministicMN)) :=
  match n with
  | O => Some []
  | S n =>
      let tmpMNList := SetHeight tmpMNList h in
      payee ← GetMNPayee tmpMNList;
      tmpMNList ← UpdateMN tmpMNList (proTxHash payee) (set_nLastPaidHeight (pdmnState payee) h);
      result ← project l tmpMNList (h + 1) n;
      Some (GetMN l (proTxHash payee) :: result)
  end.
Definition GetProjectedMNPayees `{BLSCurve} (l : CDeterministicMNList) (nCount : Z) : option (list (option CDeterministicMN)) :=
  project l l (nHeight l) (Z.to_nat nCount).

(** ** Quorums *)

Definition CalculateScores (l : CDeterministicMNList) (modifier : list Z) : list (list Z * CDeterministicMN) :=
  map (fun dmn =>
    (arith_uint256.UintToArith256
       (@Finalize CSHA256 (@Write CSHA256 (@Write CSHA256
          (@construct CSHA256 (replicate 64 0)) (confirmedHashWithProRegTxHash (pdmnState dmn))) modifier)),
     dmn))
    (List.filter (fun dmn => negb (uint256_IsNull (confirmedHash (pdmnState dmn)))) (ForEachMN l true)).

Definition score_lt (a b : list Z * CDeterministicMN) : bool :=
  if (base_uint.CompareTo (fst a) (fst b) =? 0) then COutPoint_lt (collateralOutpoint (snd a)) (collateralOutpoint (snd b))
  else base_uint.op_lt (fst a) (fst b).

(** [std::sort] from [rbegin] to [rend]: descending. *)
Definition CalculateQuorum (l : CDeterministicMNList) (maxSize : nat) (modifier : list Z) : list CDeterministicMN :=
  map snd (take maxSize (merge_sort (fun a b => negb (score_lt a b)) (CalculateScores l modifier))).

(** ** The order of payment *)

Lemma memcmp_refl a : memcmp a a = 0.
Proof. induction a as [|x a IH]; [done|]. cbn. by rewrite Z.ltb_irrefl. Qed.
Lemma memcmp_eq a b : memcmp a b = 0 -> a = b.
Proof.
  revert b. induction a as [|x a IH]; intros [|y b]; cbn; try done.
  destruct (Z.ltb_spec x y); [done|]. destruct (Z.ltb_spec y x); [done|]. intros E. f_equal; [lia|by apply IH].
Qed.
Lemma memcmp_sym a b : memcmp b a = - memcmp a b.
Proof.
  revert b. induction a as [|x a IH]; intros [|y b]; cbn; try done.
  destruct (Z.ltb_spec x y), (Z.ltb_spec y x); first [lia | apply IH].
Qed.
Lemma memcmp_trans a b c : memcmp a b <= 0 -> memcmp b c <= 0 -> memcmp a c <= 0.
Proof.
  revert b c. induction a as [|x a IH]; intros [|y b] [|z c]; cbn; try lia.
  destruct (Z.ltb_spec x y), (Z.ltb_spec y x), (Z.ltb_spec y z), (Z.ltb_spec z y), (Z.ltb_spec x z), (Z.ltb_spec z x);
    intros; first [lia | by apply (IH b c)].
Qed.

(** The height waited from, and the hash. *)
Definition pkey (dmn : CDeterministicMN) : Z * list Z := (CompareByLastPaid_GetHeight dmn, proTxHash dmn).
Definition key_le (a b : Z * list Z) : Prop := a.1 < b.1 \/ a.1 = b.1 /\ memcmp a.2 b.2 <= 0.
#[export] Instance key_le_dec a b : Decision (key_le a b).
Proof. unfold key_le. apply _. Defined.
#[export] Instance key_le_total : Total key_le.
Proof.
  intros [x a] [y b]. unfold key_le. cbn. pose proof (memcmp_sym a b). destruct (Z.lt_trichotomy x y) as [|[]]; [left; lia| |right; lia].
  destruct (Z.le_ge_cases (memcmp a b) 0); [left|right]; right; split; lia.
Qed.
#[export] Instance key_le_trans : Transitive key_le.
Proof.
  intros [x a] [y b] [z c]. unfold key_le. cbn. intros [|[-> Hab]] [|[-> Hbc]]; try (left; lia).
  right. split; [done|]. by apply (memcmp_trans a b c).
Qed.
#[export] Instance key_le_antisym : AntiSymm (=) key_le.
Proof.
  intros [x a] [y b]. unfold key_le. cbn. intros H1 H2. pose proof (memcmp_sym a b).
  assert (x = y /\ memcmp a b = 0) as [-> E%memcmp_eq] by lia. by subst.
Qed.

Lemma CompareByLastPaid_spec d e : CompareByLastPaid d e = true <-> key_le (pkey d) (pkey e) /\ pkey d <> pkey e.
Proof.
  unfold CompareByLastPaid, pkey, key_le, uint256_lt. cbn. pose proof (memcmp_sym (proTxHash d) (proTxHash e)).
  destruct (Z.eqb_spec (CompareByLastPaid_GetHeight d) (CompareByLastPaid_GetHeight e)) as [E|E].
  - rewrite Z.ltb_lt, E. split.
    + intros Hlt. split; [right; split; [done|lia]|]. intros [= E2]. rewrite E2, memcmp_refl in Hlt. lia.
    + intros [[|[_ Hle]] Hne]; [lia|]. destruct (Z.eq_dec (memcmp (proTxHash d) (proTxHash e)) 0) as [E0|]; [|lia].
      apply memcmp_eq in E0. by rewrite E0 in Hne.
  - rewrite Z.ltb_lt. split; [intros Hlt; split; [by left|]; intros [=]; lia|]. intros [[|[]] _]; lia.
Qed.

Lemma best_of_spec mns acc d : fold_left best_of mns acc = Some d ->
  (acc = Some d \/ d ∈ mns) /\ (forall e, acc = Some e \/ e ∈ mns -> key_le (pkey d) (pkey e)).
Proof.
  revert acc. induction mns as [|x mns IH]; intros acc; cbn [fold_left].
  { intros ->. split; [by left|]. intros e [[= ->]|He]; [|by apply elem_of_nil in He]. destruct (total key_le (pkey e) (pkey e)); done. }
  intros E. destruct (IH _ E) as [Hd Hle]. clear IH E. destruct acc as [b|]; cbn [best_of] in *.
  - destruct (CompareByLastPaid x b) eqn:Ec.
    + apply CompareByLastPaid_spec in Ec as [Hxb _]. split.
      * destruct Hd as [[= ->]|]; [right; by left|right; by right].
      * intros e [[= <-]|[->|He]%elem_of_cons]; [etrans; [apply Hle; by left|done]|apply Hle; by left|apply Hle; by right].
    + assert (key_le (pkey b) (pkey x)) as Hbx.
      { destruct (decide (pkey b = pkey x)) as [->|Hne]; [by destruct (total key_le (pkey x) (pkey x))|].
        destruct (total key_le (pkey b) (pkey x)) as [|Hx]; [done|].
        assert (CompareByLastPaid x b = true) by (apply CompareByLastPaid_spec; by split). congruence. }
      split; [destruct Hd; [by left|right; by right]|].
      intros e [[= <-]|[->|He]%elem_of_cons]; [apply Hle; by left|etrans; [apply Hle; by left|done]|apply Hle; by right].
  - split; [destruct Hd as [[= ->]|]; [right; by left|right; by right]|].
    intros e [[=]|[->|He]%elem_of_cons]; [apply Hle; by left|apply Hle; by right].
Qed.

Lemma best_of_none mns acc : fold_left best_of mns acc = None -> acc = None /\ mns = [].
Proof.
  revert acc. induction mns as [|x mns IH]; intros acc; cbn [fold_left]; [done|]. intros [E _]%IH.
  destruct acc; [|done]. cbn in E. by case_match.
Qed.

(** ** The queue *)

Definition valid_keys (l : CDeterministicMNList) : list (Z * list Z) := map pkey (ForEachMN l true).
Definition queue_keys (l : CDeterministicMNList) : list (Z * list Z) := merge_sort key_le (valid_keys l).
Definition queue (l : CDeterministicMNList) : list (list Z) := map snd (queue_keys l).

Lemma elem_of_valid l d : map_Forall mn_ok (mnMap l) ->
  d ∈ ForEachMN l true <-> mnMap l !! proTxHash d = Some d /\ IsMNValid d = true.
Proof.
  intros Hm. rewrite <- (elem_of_all l d Hm), ForEachMN_all. unfold ForEachMN.
  rewrite !list_elem_of_In, filter_In. cbn [negb orb]. done.
Qed.

Lemma GetMNPayee_fold l : GetMNPayee l = fold_left best_of (ForEachMN l true) None.
Proof.
  unfold GetMNPayee. destruct (Nat.eqb_spec (size (mnMap l)) 0) as [E|]; [|done].
  apply map_size_empty_iff in E. unfold ForEachMN. by rewrite E.
Qed.

Lemma payee_least l d : GetMNPayee l = Some d -> d ∈ ForEachMN l true /\ forall e, e ∈ ForEachMN l true -> key_le (pkey d) (pkey e).
Proof.
  rewrite GetMNPayee_fold. intros E. destruct (best_of_spec _ _ _ E) as [[|Hd] Hle]; [done|]. split; [done|].
  intros e He. apply Hle. by right.
Qed.

(** The head of a sorted list of keys. *)
Lemma sorted_head ks k : k ∈ ks -> (forall x, x ∈ ks -> key_le k x) -> head (merge_sort key_le ks) = Some k.
Proof.
  intros Hk Hle. pose proof (merge_sort_Permutation key_le ks) as Hp.
  pose proof (StronglySorted_merge_sort key_le ks) as Hs.
  destruct (merge_sort key_le ks) as [|x rest]; [apply Permutation_nil in Hp; rewrite Hp in Hk; by apply elem_of_nil in Hk|].
  cbn. f_equal. apply StronglySorted_inv in Hs as [_ Hs]. apply (anti_symm key_le).
  - assert (k ∈ x :: rest) as Hin by (by rewrite Hp). apply elem_of_cons in Hin as [->|Hin].
    + by destruct (total key_le x x).
    + rewrite Forall_forall in Hs. by apply Hs.
  - apply Hle. rewrite <- Hp. by left.
Qed.

Lemma payee_head l : head (queue_keys l) = pkey <$> GetMNPayee l.
Proof.
  destruct (GetMNPayee l) as [d|] eqn:E.
  - destruct (payee_least l d E) as [Hd Hle]. cbn. apply sorted_head.
    + apply list_elem_of_fmap. by exists d.
    + intros x (e & -> & He)%list_elem_of_fmap. by apply Hle.
  - rewrite GetMNPayee_fold in E. apply best_of_none in E as [_ E]. unfold queue_keys, valid_keys. by rewrite E.
Qed.

(** C20: Whose turn it is.  In a list with a sound index: somebody is paid exactly if some
    masternode is not banned; the payee is in the list, not banned, and everybody else
    who is not banned has waited less, or as long with a greater hash; this is the
    head of the queue, and any other order of visiting the masternodes finds the same
    one. *)
Theorem GetMNPayee_correct `{BLSCurve} (l : CDeterministicMNList) :
  list_ok l ->
  (GetMNPayee l = None <-> forall p d, mnMap l !! p = Some d -> IsMNValid d = false) /\
  (forall d, GetMNPayee l = Some d ->
     mnMap l !! proTxHash d = Some d /\ IsMNValid d = true /\ head (queue l) = Some (proTxHash d) /\
     forall p e, mnMap l !! p = Some e -> IsMNValid e = true -> e <> d -> CompareByLastPaid d e = true) /\
  (forall mns, mns ≡ₚ ForEachMN l true -> fold_left best_of mns None = GetMNPayee l).
Proof.
  intros Hl. pose proof (mns_ok l Hl) as Hm. split; [|split].
  - rewrite GetMNPayee_fold. split.
    + intros [_ E]%best_of_none p d Hd. destruct (Hm p d Hd) as [Hp _]. destruct (IsMNValid d) eqn:Ev; [|done].
      assert (d ∈ ForEachMN l true) as Hin by (apply elem_of_valid; [done|by rewrite Hp]). rewrite E in Hin. by apply elem_of_nil in Hin.
    + intros Hn. destruct (fold_left best_of (ForEachMN l true) None) as [d|] eqn:E; [|done]. exfalso.
      destruct (best_of_spec _ _ _ E) as [[|Hd] _]; [done|]. apply elem_of_valid in Hd as [Hd Hv]; [|done]. specialize (Hn _ _ Hd). congruence.
  - intros d Hd. destruct (payee_least l d Hd) as [Hin Hle]. apply elem_of_valid in Hin as [Hin Hv]; [|done].
    split_and!; [done|done| |].
    + unfold queue. pose proof (payee_head l) as E. rewrite Hd in E. destruct (queue_keys l); [done|]. cbn in *. by simplify_eq.
    + intros p e He Hve Hne. destruct (Hm p e He) as [Hp _]. apply CompareByLastPaid_spec. split.
      * apply Hle, elem_of_valid; [done|]. by rewrite Hp.
      * intros [= _ E]. apply Hne. rewrite E, Hp in Hin. congruence.
  - intros mns Hperm. rewrite GetMNPayee_fold.
    destruct (fold_left best_of mns None) as [d|] eqn:E1, (fold_left best_of (ForEachMN l true) None) as [e|] eqn:E2.
    + destruct (best_of_spec _ _ _ E1) as [[|Hd] Hld], (best_of_spec _ _ _ E2) as [[|He] Hle]; try done. f_equal.
      assert (pkey d = pkey e) as [= _ E].
      { apply (anti_symm key_le); [apply Hld; right; by rewrite Hperm|apply Hle; right; by rewrite <- Hperm]. }
      rewrite Hperm in Hd. apply elem_of_valid in Hd as [Hd _]; [|done]. apply elem_of_valid in He as [He _]; [|done].
      rewrite E in Hd. congruence.
    + apply best_of_none in E2 as [_ E2]. rewrite E2 in Hperm. apply Permutation_nil_r in Hperm. by subst mns.
    + apply best_of_none in E1 as [_ E1]. subst mns. apply Permutation_nil in Hperm. by rewrite Hperm in E2.
    + done.
Qed.

(** ** A payment moves the head to the back *)

Definition vkeys (m : MnMap) : list (Z * list Z) := map pkey (List.filter IsMNValid (map snd (map_to_list m))).

Lemma valid_keys_map l : valid_keys l = vkeys (mnMap l).
Proof. done. Qed.

Lemma filter_perm {A} (f : A -> bool) (l k : list A) : l ≡ₚ k -> List.filter f l ≡ₚ List.filter f k.
Proof.
  induction 1 as [|x l k _ IH|x y l|l k j _ IH1 _ IH2]; [done|cbn; case_match; by rewrite ?IH| |by etrans].
  cbn. repeat case_match; done || by apply Permutation_swap.
Qed.

Lemma vkeys_insert m p d : m !! p = Some d -> exists rest, forall d', IsMNValid d' = true ->
  vkeys (<[p := d']> m) ≡ₚ pkey d' :: rest.
Proof.
  intros Hd. exists (vkeys (delete p m)). intros d' Hv. unfold vkeys.
  rewrite <- insert_delete_eq. rewrite (filter_perm IsMNValid _ (d' :: map snd (map_to_list (delete p m)))).
  - cbn [List.filter]. by rewrite Hv.
  - by rewrite map_to_list_insert by (by rewrite lookup_delete_eq).
Qed.

(** Changes that concern neither the turn nor the ban. *)
Lemma vkeys_fmap (f : CDeterministicMN -> CDeterministicMN) m :
  (forall p d, m !! p = Some d -> pkey (f d) = pkey d /\ IsMNValid (f d) = IsMNValid d) -> vkeys (f <$> m) ≡ₚ vkeys m.
Proof.
  intros Hf. unfold vkeys.
  rewrite (filter_perm IsMNValid (map snd (map_to_list (f <$> m))) (map f (map snd (map_to_list m)))).
  - assert (forall d, d ∈ map snd (map_to_list m) -> pkey (f d) = pkey d /\ IsMNValid (f d) = IsMNValid d) as Hall.
    { intros d ([p e] & -> & He%elem_of_map_to_list)%list_elem_of_fmap. by apply (Hf p). }
    clear Hf. induction (map snd (map_to_list m)) as [|d ds IH]; [done|].
    destruct (Hall d ltac:(by left)) as [Ek Ev]. cbn. rewrite Ev.
    destruct (IsMNValid d); cbn; rewrite ?Ek, IH; [done| |done|]; intros e He; apply Hall; by right.
  - rewrite map_to_list_fmap. rewrite <- !list_fmap_compose. done.
Qed.

Definition paid (h : Z) (dmn : CDeterministicMN) : CDeterministicMN := set_pdmnState dmn (set_nLastPaidHeight (pdmnState dmn) h).

Lemma paid_key h d : 0 < h -> CompareByLastPaid_GetHeight d <= h -> pkey (paid h d) = (h, proTxHash d).
Proof.
  intros Hh. unfold pkey, CompareByLastPaid_GetHeight. cbn. intros Hlt. f_equal.
  rewrite (proj2 (Z.eqb_neq h 0)) by lia.
  destruct (Z.ltb_spec h (nPoSeRevivedHeight (pdmnState d))) as [Hr|]; [|by rewrite andb_false_r].
  exfalso. destruct (Z.eqb_spec (nPoSeRevivedHeight (pdmnState d)) (-1)); [lia|].
  destruct (Z.ltb_spec (nLastPaidHeight (pdmnState d)) (nPoSeRevivedHeight (pdmnState d))); cbn in Hlt; [lia|].
  destruct (Z.eqb_spec (nLastPaidHeight (pdmnState d)) 0); lia.
Qed.

(** Everybody has waited from [h] at the latest. *)
Definition since (h : Z) (m : MnMap) : Prop := forall k, k ∈ vkeys m -> k.1 <= h.

(** Paid at [h], the head of the queue takes its place in what is left of it. *)
Lemma queue_paid (m m' : MnMap) d h : m !! proTxHash d = Some d -> IsMNValid d = true -> 0 < h -> since h m ->
  vkeys m' ≡ₚ vkeys (<[proTxHash d := paid h d]> m) ->
  forall q, merge_sort key_le (vkeys m) = pkey d :: q -> vkeys m' ≡ₚ q ++ [(h, proTxHash d)] /\ since h m'.
Proof.
  intros Hd Hv Hh Hb Hm' q Hq. destruct (vkeys_insert m (proTxHash d) d Hd) as [rest Hrest].
  pose proof (Hrest d Hv) as E1. rewrite insert_id in E1 by done. pose proof (Hrest (paid h d) Hv) as E2.
  assert (CompareByLastPaid_GetHeight d <= h) as Hle by (apply (Hb (pkey d)); rewrite E1; by left).
  rewrite (paid_key h d Hh Hle) in E2.
  pose proof (merge_sort_Permutation key_le (vkeys m)) as Hp. rewrite Hq, E1 in Hp. apply Permutation_cons_inv in Hp.
  assert (vkeys m' ≡ₚ q ++ [(h, proTxHash d)]) as Hm by (by rewrite Hm', E2, Hp, Permutation_app_comm).
  split; [done|]. intros k. rewrite Hm, elem_of_app, list_elem_of_singleton. intros [Hk| ->]; [|done].
  apply Hb. rewrite E1. right. by rewrite <- Hp.
Qed.

(** A queue of [q] and one more key: where nobody of [q] comes after it, the key is the
    last; else it is not. *)
Lemma rejoin_last (q : list (Z * list Z)) (k : Z * list Z) :
  StronglySorted key_le q -> (forall j, j ∈ q -> key_le j k) -> merge_sort key_le (q ++ [k]) = q ++ [k].
Proof.
  intros Hq Hk. apply (StronglySorted_unique key_le); [apply (StronglySorted_merge_sort key_le)| |apply merge_sort_Permutation].
  apply StronglySorted_app. split_and!; [|done|by constructor; [constructor|]].
  intros i j Hi Hj%list_elem_of_singleton. subst j. by apply Hk.
Qed.
Lemma rejoin_not_last (q : list (Z * list Z)) (k j : Z * list Z) :
  j ∈ q -> ~ key_le j k -> k ∈ take (length q) (merge_sort key_le (q ++ [k])).
Proof.
  intros Hj Hn. pose proof (merge_sort_Permutation key_le (q ++ [k])) as Hp.
  pose proof (StronglySorted_merge_sort key_le (q ++ [k])) as Hs.
  destruct (merge_sort key_le (q ++ [k])) as [|z t _] using rev_ind; [apply Permutation_length in Hp; rewrite length_app in Hp; cbn in Hp; lia|].
  assert (length t = length q) as Hl by (apply Permutation_length in Hp; rewrite !length_app in Hp; cbn in Hp; lia).
  rewrite take_app_length' by done. assert (k ∈ t ++ [z]) as Hk by (rewrite Hp; apply elem_of_app; right; by left).
  apply elem_of_app in Hk as [|Hk%list_elem_of_singleton]; [done|subst z]. exfalso. apply Hn.
  assert (j ∈ t ++ [k]) as Hjt by (rewrite Hp; apply elem_of_app; by left).
  apply StronglySorted_app in Hs as (Hs & _ & _). apply elem_of_app in Hjt as [Hjt|Hjt%list_elem_of_singleton].
  - apply Hs; [done|by left].
  - subst j. by destruct (total key_le k k).
Qed.

Section Projection.
Context `{BLSCurve}.

(** One turn of the loop. *)
Lemma project_step l n tmp h k q : list_ok tmp -> 0 < h -> since h (mnMap tmp) -> queue_keys tmp = k :: q ->
  exists tmp', list_ok tmp' /\ since h (mnMap tmp') /\ queue_keys tmp' = merge_sort key_le (q ++ [(h, k.2)]) /\
    project l tmp h (S n) = (result ← project l tmp' (h + 1) n; Some (GetMN l k.2 :: result)).
Proof.
  intros Ht Hh Hb Hq. cbn [project]. change (GetMNPayee (SetHeight tmp h)) with (GetMNPayee tmp).
  pose proof (payee_head tmp) as E. rewrite Hq in E. cbn in E.
  destruct (GetMNPayee tmp) as [d|] eqn:Ed; [|done]. cbn in E. injection E as ->. cbn [mbind option_bind].
  destruct (payee_least tmp d Ed) as [Hin _]. apply elem_of_valid in Hin as [Hd Hv]; [|apply Ht].
  destruct (UpdateMN_keep (SetHeight tmp h) (proTxHash d) d (set_nLastPaidHeight (pdmnState d) h)) as (tmp' & -> & Ht' & Hm & _);
    [exact (SetHeight_ok tmp (blockHash tmp) h Ht)|done|done|done|]. cbn [mbind option_bind].
  change (mnMap (SetHeight tmp h)) with (mnMap tmp) in Hm. fold (paid h d) in Hm.
  assert (vkeys (mnMap tmp') ≡ₚ vkeys (<[proTxHash d := paid h d]> (mnMap tmp))) as Hvk by (by rewrite Hm).
  destruct (queue_paid (mnMap tmp) (mnMap tmp') d h Hd Hv Hh Hb Hvk q Hq) as [Hk Hs].
  exists tmp'. split_and!; [done|done| |done].
  apply (StronglySorted_unique key_le); [apply (StronglySorted_merge_sort key_le)..|].
  unfold queue_keys. rewrite !merge_sort_Permutation. exact Hk.
Qed.

(** From a height after everybody's the queue is a cycle. *)
Lemma project_cycle l n tmp h : list_ok tmp -> 0 < h -> since (h - 1) (mnMap tmp) -> (n <= length (queue_keys tmp))%nat ->
  project l tmp h n = Some (map (fun k => GetMN l k.2) (take n (queue_keys tmp))).
Proof.
  revert tmp h. induction n as [|n IH]; intros tmp h Ht Hh Hb Hn; [done|].
  destruct (queue_keys tmp) as [|k q] eqn:Hq; [cbn in Hn; lia|].
  assert (since h (mnMap tmp)) as Hb' by (intros j Hj; specialize (Hb j Hj); lia).
  destruct (project_step l n tmp h k q Ht Hh Hb' Hq) as (tmp' & Ht' & Hs & Hq' & ->).
  assert (queue_keys tmp' = q ++ [(h, k.2)]) as Eq.
  { rewrite Hq'. apply rejoin_last.
    - pose proof (StronglySorted_merge_sort key_le (valid_keys tmp)) as Hsort. fold (queue_keys tmp) in Hsort.
      rewrite Hq in Hsort. apply StronglySorted_inv in Hsort as [Hsort _]. exact Hsort.
    - intros j Hj. left. cbn. assert (j ∈ vkeys (mnMap tmp)) as Hin; [|specialize (Hb j Hin); lia].
      change (vkeys (mnMap tmp)) with (valid_keys tmp). rewrite <- (merge_sort_Permutation key_le (valid_keys tmp)).
      fold (queue_keys tmp). rewrite Hq. by right. }
  rewrite (IH tmp' (h + 1)); [|done|lia|replace (h + 1 - 1) with h by lia; exact Hs|rewrite Eq, length_app; cbn in *; lia].
  rewrite Eq. cbn [mbind option_bind]. rewrite take_app_le by (cbn in Hn; lia). done.
Qed.

(** The queue names each masternode that is not banned once. *)
Lemma queue_members l : list_ok l ->
  NoDup (queue l) /\ forall p, p ∈ queue l <-> exists d, mnMap l !! p = Some d /\ IsMNValid d = true.
Proof.
  intros Hl. pose proof (mns_ok l Hl) as Hm. unfold queue, queue_keys. split.
  - rewrite (merge_sort_Permutation key_le (valid_keys l)). unfold valid_keys. rewrite <- list_fmap_compose.
    apply (NoDup_filtered proTxHash). rewrite <- ForEachMN_all. by apply NoDup_all.
  - intros p. rewrite (merge_sort_Permutation key_le (valid_keys l)). unfold valid_keys. rewrite <- list_fmap_compose.
    rewrite list_elem_of_fmap. split.
    + intros (d & -> & Hd). apply elem_of_valid in Hd as [Hd Hv]; [|done]. by exists d.
    + intros (d & Hd & Hv). destruct (Hm p d Hd) as [<- _]. exists d. split; [done|]. by apply elem_of_valid.
Qed.

(** C21: Everybody in turn, or one twice.  In a list with a sound index, where nobody
    waits from after the height of the list (the list of any block: payments, revivals
    and registrations are recorded at the block's height), let [first] be the head of the
    queue and [others] the rest.  The projection names [first] and then the others in the
    queue with [first] put back as paid at the height of the list, the height of the last
    real payment and not of the next one.  So a projection of a full cycle names everybody
    who is not banned, each once and in the order of the queue, exactly when nobody else
    comes after [first] there, by height and then by hash; and when somebody does, as the
    last payee does whenever its hash is the greater, [first] is named twice. *)
Theorem GetProjectedMNPayees_cycle (l : CDeterministicMNList) (n : nat) :
  list_ok l -> 0 < nHeight l -> (forall p d, mnMap l !! p = Some d -> IsMNValid d = true -> CompareByLastPaid_GetHeight d <= nHeight l) ->
  (n < length (queue l))%nat ->
  NoDup (queue l) /\ (forall p, p ∈ queue l <-> exists d, mnMap l !! p = Some d /\ IsMNValid d = true) /\
  exists first others, queue_keys l = first :: others /\
  let names := map snd (first :: take n (merge_sort key_le (others ++ [(nHeight l, first.2)]))) in
  GetProjectedMNPayees l (Z.of_nat (S n)) = Some (map (GetMN l) names) /\
  (S n = length (queue l) ->
   (NoDup names <-> names = queue l) /\ (NoDup names <-> forall k, k ∈ others -> key_le k (nHeight l, first.2))).
Proof.
  intros Hl Hh Hb Hn. pose proof (mns_ok l Hl) as Hm. destruct (queue_members l Hl) as [Hnd Hmem].
  split; [done|]. split; [done|].
  assert (since (nHeight l) (mnMap l)) as Hs.
  { intros k Hk. unfold vkeys in Hk. apply list_elem_of_fmap in Hk as (d & -> & Hd).
    apply (elem_of_valid l d Hm) in Hd as [Hd Hv]. by apply (Hb (proTxHash d)). }
  pose proof (StronglySorted_merge_sort key_le (valid_keys l)) as Hsort. fold (queue_keys l) in Hsort.
  unfold queue in Hn, Hnd. rewrite length_map in Hn. unfold queue. rewrite length_map.
  destruct (queue_keys l) as [|first others] eqn:Hq; [cbn in Hn; lia|]. apply StronglySorted_inv in Hsort as [Hsort _].
  exists first, others. split; [done|]. cbn [length] in *. split.
  - unfold GetProjectedMNPayees. rewrite Nat2Z.id.
    destruct (project_step l n l (nHeight l) first others Hl Hh Hs Hq) as (tmp' & Ht' & Hs' & Hq' & ->).
    rewrite (project_cycle l n tmp' (nHeight l + 1)); [|done|lia|replace (nHeight l + 1 - 1) with (nHeight l) by lia; exact Hs'|].
    + rewrite Hq'. cbn [mbind option_bind map]. by rewrite map_map.
    + rewrite Hq', (Permutation_length (merge_sort_Permutation _ _)), length_app. cbn. lia.
  - intros [= ->]. set (names := map snd _).
    assert (NoDup names -> forall k, k ∈ others -> key_le k (nHeight l, first.2)) as H1.
    { intros [Hf _]%NoDup_cons k Hk. destruct (decide (key_le k (nHeight l, first.2))) as [|Hne]; [done|]. exfalso.
      apply Hf, list_elem_of_fmap. exists (nHeight l, first.2). split; [done|]. by apply (rejoin_not_last _ _ k). }
    assert ((forall k, k ∈ others -> key_le k (nHeight l, first.2)) -> names = map snd (first :: others)) as H2.
    { intros Hk. unfold names. by rewrite rejoin_last, take_app_length by done. }
    assert (names = map snd (first :: others) -> NoDup names) as H3 by (by intros ->).
    split; split; auto.
Qed.

End Projection.

(** ** The order of a quorum *)

(** The score of a masternode as a number; ties by the collateral. *)
Definition score (modifier : list Z) (dmn : CDeterministicMN) : Z :=
  le_val (fips_sha256 (confirmedHashWithProRegTxHash (pdmnState dmn) ++ modifier)).
Definition outranks (modifier : list Z) (d e : CDeterministicMN) : Prop :=
  score modifier e < score modifier d \/
  score modifier e = score modifier d /\ COutPoint_lt (collateralOutpoint e) (collateralOutpoint d) = true.
Definition candidate (l : CDeterministicMNList) (d : CDeterministicMN) : Prop :=
  mnMap l !! proTxHash d = Some d /\ IsMNValid d = true /\ uint256_IsNull (confirmedHash (pdmnState d)) = false.

Lemma score_limbs modifier dmn :
  arith_uint256.UintToArith256
    (@Finalize CSHA256 (@Write CSHA256 (@Write CSHA256
       (@construct CSHA256 (replicate 64 0)) (confirmedHashWithProRegTxHash (pdmnState dmn))) modifier)) =
  arith_uint256.UintToArith256 (fips_sha256 (confirmedHashWithProRegTxHash (pdmnState dmn) ++ modifier)).
Proof.
  destruct (Finalize_writes (H := CSHA256) (replicate 64 0) [confirmedHashWithProRegTxHash (pdmnState dmn); modifier] [] eq_refl)
    as [E _].
  cbn [fold_left concat] in E. rewrite app_nil_r in E. by rewrite E, CSHA256_md.
Qed.

Lemma elem_of_scores l modifier x : map_Forall mn_ok (mnMap l) ->
  x ∈ CalculateScores l modifier <-> candidate l (snd x) /\
  fst x = arith_uint256.UintToArith256 (fips_sha256 (confirmedHashWithProRegTxHash (pdmnState (snd x)) ++ modifier)).
Proof.
  intros Hm. unfold CalculateScores, candidate. rewrite list_elem_of_fmap. split.
  - intros (d & -> & Hd). apply list_elem_of_In, filter_In in Hd as [Hd Hc]. cbn [fst snd]. rewrite score_limbs. split; [|done].
    apply list_elem_of_In, elem_of_valid in Hd as [Hd Hv]; [|done]. split_and!; [done|done|]. by destruct (uint256_IsNull _).
  - destruct x as [s d]. cbn [fst snd]. intros ((Hd & Hv & Hc) & ->). exists d. rewrite score_limbs. split; [done|].
    apply list_elem_of_In, filter_In. split; [|by rewrite Hc]. by apply list_elem_of_In, elem_of_valid.
Qed.

Lemma compare_scores l modifier x y : map_Forall mn_ok (mnMap l) -> x ∈ CalculateScores l modifier -> y ∈ CalculateScores l modifier ->
  base_uint.CompareTo (fst x) (fst y) = Z.sgn (score modifier (snd x) - score modifier (snd y)).
Proof.
  intros Hm Hx Hy. apply elem_of_scores in Hx as [_ ->]; [|done]. apply elem_of_scores in Hy as [_ ->]; [|done].
  rewrite (base_uint.CompareTo_spec arith_uint256.WIDTH) by apply arith_uint256.UintToArith256_wf, sha256_bytes_ok.
  by rewrite !val_UintToArith256 by (done || apply sha256_bytes_ok).
Qed.


#[local] Opaque score fips_sha256.

(** Scores and collaterals, in one key. *)
Definition qkey (modifier : list Z) (d : CDeterministicMN) : Z * list Z * Z :=
  (score modifier d, op_hash (collateralOutpoint d), op_n (collateralOutpoint d)).
Definition qle (a b : Z * list Z * Z) : Prop :=
  a.1.1 < b.1.1 \/ a.1.1 = b.1.1 /\ (memcmp a.1.2 b.1.2 < 0 \/ memcmp a.1.2 b.1.2 = 0 /\ a.2 <= b.2).

#[export] Instance qle_trans : Transitive qle.
Proof.
  intros [[x a] n] [[y b] m] [[z c] k]. unfold qle. cbn.
  intros [|[-> Hab]] [|[-> Hbc]]; try (left; lia). right. split; [done|].
  pose proof (memcmp_trans a b c) as Ht. pose proof (memcmp_sym a b) as Es. pose proof (memcmp_sym b c).
  destruct (Z.eq_dec (memcmp a c) 0) as [E|]; [|left; lia]. pose proof (memcmp_eq _ _ E) as ->.
  destruct Hab as [Hab|[Hab Hn]], Hbc as [Hbc|[Hbc Hm]]; [lia|lia|lia|right; lia].
Qed.
Lemma qle_antisym a b : qle a b -> qle b a -> a = b.
Proof.
  destruct a as [[x a] n], b as [[y b] m]. unfold qle. cbn. intros H1 H2. pose proof (memcmp_sym a b).
  assert (x = y /\ memcmp a b = 0 /\ n = m) as (-> & E%memcmp_eq & ->) by lia. by subst.
Qed.

Lemma outranks_qle modifier d e : outranks modifier d e <-> ~ qle (qkey modifier d) (qkey modifier e).
Proof.
  unfold outranks, qle, qkey, COutPoint_lt. cbn.
  pose proof (memcmp_sym (op_hash (collateralOutpoint e)) (op_hash (collateralOutpoint d))).
  rewrite orb_true_iff, andb_true_iff, !Z.ltb_lt, Z.eqb_eq. lia.
Qed.

Lemma score_lt_total (x y : list Z * CDeterministicMN) : score_lt x y = true -> score_lt y x = false.
Proof.
  assert (forall a b, base_uint.compare_loop b a = - base_uint.compare_loop a b) as Hsym.
  { induction a as [|u a IH]; intros [|v b]; cbn; try done. destruct (Z.ltb_spec u v), (Z.ltb_spec v u); first [lia|apply IH]. }
  unfold score_lt, base_uint.op_lt, COutPoint_lt, base_uint.CompareTo. rewrite (Hsym (reverse (fst x)) (reverse (fst y))).
  set (c := base_uint.compare_loop _ _). destruct (Z.eqb_spec c 0) as [->|]; cbn.
  - pose proof (memcmp_sym (op_hash (collateralOutpoint (snd x))) (op_hash (collateralOutpoint (snd y)))) as E. rewrite E.
    change (- 0 =? 0) with true. cbv iota. rewrite orb_true_iff, andb_true_iff, orb_false_iff, andb_false_iff, !Z.ltb_lt, !Z.ltb_ge, Z.eqb_eq, Z.eqb_neq. lia.
  - rewrite Z.ltb_lt. intros. rewrite (proj2 (Z.eqb_neq (- c) 0)) by lia. rewrite Z.ltb_ge. lia.
Qed.

(** What [std::sort] asks of the order, and guarantees of the result. *)
Definition not_before (x y : list Z * CDeterministicMN) : Prop := negb (score_lt x y).
#[export] Instance not_before_total : Total not_before.
Proof.
  intros x y. unfold not_before. destruct (score_lt x y) eqn:E; [|by left]. apply score_lt_total in E. rewrite E. by right.
Qed.

Lemma Sorted_members {A} (R : relation A) (l : list A) :
  (forall x y z, x ∈ l -> y ∈ l -> z ∈ l -> R x y -> R y z -> R x z) -> Sorted R l -> StronglySorted R l.
Proof.
  induction l as [|x l IH]; intros Ht Hs; [constructor|]. apply Sorted_inv in Hs as [Hs Hh].
  assert (StronglySorted R l) as Hss by (apply IH; [intros a b c Ha Hb Hc; apply Ht; by right|done]).
  constructor; [done|]. destruct l as [|y l]; [constructor|]. apply HdRel_inv in Hh. apply StronglySorted_inv in Hss as [_ Hy].
  constructor; [done|]. rewrite Forall_forall in Hy |- *. intros z Hz.
  apply (Ht x y z); [by left|by right; left|by right; right|done|by apply Hy].
Qed.

Section Quorum.
Context `{BLSCurve} (l : CDeterministicMNList) (modifier : list Z) (Hl : list_ok l).

Lemma not_before_spec x y : x ∈ CalculateScores l modifier -> y ∈ CalculateScores l modifier ->
  not_before x y <-> qle (qkey modifier (snd y)) (qkey modifier (snd x)).
Proof using Hl.
  intros Hx Hy. unfold not_before, score_lt, base_uint.op_lt. rewrite (compare_scores l modifier x y (mns_ok l Hl) Hx Hy).
  unfold qle, qkey, COutPoint_lt. cbn [fst snd].
  pose proof (memcmp_sym (op_hash (collateralOutpoint (snd x))) (op_hash (collateralOutpoint (snd y)))) as E. rewrite E.
  set (s := score modifier (snd x)). set (t := score modifier (snd y)).
  destruct (Z.sgn_spec (s - t)) as [[? ->]|[[? ->]|[? ->]]]; cbn.
  - split; [intros _; left; lia|done].
  - rewrite Is_true_true, negb_true_iff, orb_false_iff, andb_false_iff, !Z.ltb_ge, Z.eqb_neq. lia.
  - split; [done|lia].
Qed.

(** Distinct masternodes have distinct collaterals. *)
Lemma collateral_unique d e : candidate l d -> candidate l e -> collateralOutpoint d = collateralOutpoint e -> d = e.
Proof using Hl.
  intros (Hd & _) (He & _) E. destruct (decide (proTxHash d = proTxHash e)) as [Ep|Hp]; [rewrite Ep in Hd; congruence|]. exfalso.
  destruct (mns_ok l Hl _ _ Hd) as (_ & Hc & _).
  assert (SerializeHash (collateralOutpoint d) ∈ hash_of (collateralOutpoint d)) as Hin.
  { unfold hash_of. rewrite bool_decide_false by exact Hc. by left. }
  apply (list_exclusive l Hl (proTxHash d) (proTxHash e) (SerializeHash (collateralOutpoint d)) Hp).
  - rewrite (keys_at_Some _ _ _ Hd). apply elem_of_app. by left.
  - rewrite (keys_at_Some _ _ _ He). apply elem_of_app. left. by rewrite <- E.
Qed.

Lemma qkey_inj d e : candidate l d -> candidate l e -> qkey modifier d = qkey modifier e -> d = e.
Proof using Hl.
  intros Hd He E. unfold qkey in E. injection E as _ E1 E2. apply collateral_unique; [done|done|].
  destruct (collateralOutpoint d), (collateralOutpoint e). cbn in *. by subst.
Qed.

(** The arrangements [std::sort] may return. *)
Definition arranged (xs : list (list Z * CDeterministicMN)) : Prop := xs ≡ₚ CalculateScores l modifier /\ Sorted not_before xs.

Lemma arranged_NoDup xs : arranged xs -> NoDup (map proTxHash (map snd xs)).
Proof using Hl.
  intros [Hp _]. rewrite Hp. unfold CalculateScores. rewrite !map_map. cbn [snd].
  apply (NoDup_filtered proTxHash), (NoDup_filtered proTxHash). rewrite <- ForEachMN_all. apply NoDup_all, Hl.
Qed.

Lemma arranged_ranks xs : arranged xs -> StronglySorted (outranks modifier) (map snd xs).
Proof using Hl.
  intros Harr. pose proof (NoDup_fmap_1 proTxHash _ (arranged_NoDup xs Harr)) as Hnd. destruct Harr as [Hp Hs]. apply Sorted_members in Hs.
  - assert (forall x, x ∈ xs -> x ∈ CalculateScores l modifier) as Hin by (intros x; by rewrite Hp).
    clear Hp. induction Hs as [|x xs Hs IH Hx]; [constructor|]. cbn in *. apply NoDup_cons in Hnd as [Hni Hnd].
    constructor; [apply IH; [done|]; intros y Hy; apply Hin; by right|].
    rewrite Forall_forall in Hx. apply Forall_forall. intros e (y & -> & Hy)%list_elem_of_fmap.
    pose proof (Hin x ltac:(by left)) as Hx1. pose proof (Hin y ltac:(by right)) as Hy1.
    apply outranks_qle. intros Hq. specialize (Hx y Hy). apply not_before_spec in Hx; [|done|done].
    apply Hni. apply list_elem_of_fmap. exists y. split; [|done].
    apply elem_of_scores in Hx1 as [Hcx _]; [|apply Hl]. apply elem_of_scores in Hy1 as [Hcy _]; [|apply Hl].
    apply qkey_inj; [done|done|]. by apply qle_antisym.
  - intros x y z. rewrite Hp. intros Hx Hy Hz. rewrite !not_before_spec by done. intros. by etrans.
Qed.


(** The arrangement the definition takes. *)
Definition ranking : list (list Z * CDeterministicMN) := merge_sort not_before (CalculateScores l modifier).
Lemma ranking_arranged : arranged ranking.
Proof. split; [apply merge_sort_Permutation|apply (Sorted_merge_sort not_before)]. Qed.
Lemma elem_of_ranking d : d ∈ map snd ranking <-> candidate l d.
Proof using Hl.
  rewrite (proj1 ranking_arranged), list_elem_of_fmap. split.
  - intros (x & -> & Hx). apply elem_of_scores in Hx; [apply Hx|apply Hl].
  - intros Hd. exists (arith_uint256.UintToArith256 (fips_sha256 (confirmedHashWithProRegTxHash (pdmnState d) ++ modifier)), d).
    split; [done|]. apply elem_of_scores; [apply Hl|]. by split.
Qed.
Lemma quorum_ranking maxSize : CalculateQuorum l maxSize modifier = take maxSize (map snd ranking).
Proof. exact (fmap_take snd maxSize ranking). Qed.

Lemma quorum_members maxSize :
  length (CalculateQuorum l maxSize modifier) = (maxSize `min` length (CalculateScores l modifier))%nat /\
  NoDup (map proTxHash (CalculateQuorum l maxSize modifier)) /\
  forall d, d ∈ CalculateQuorum l maxSize modifier -> candidate l d.
Proof using Hl.
  rewrite quorum_ranking. split_and!.
  - by rewrite length_take, length_map, (proj1 ranking_arranged).
  - apply (sublist_NoDup _ (map proTxHash (map snd ranking))); [apply arranged_NoDup, ranking_arranged|].
    apply fmap_sublist, sublist_take.
  - intros d Hd. apply elem_of_ranking. rewrite <- (take_drop maxSize (map snd ranking)). apply elem_of_app. by left.
Qed.

(** C22: The quorum.  In a list with a sound index: whatever arrangement the sort
    returns among those its contract allows, the quorum is the same; its members are
    masternodes that are not banned and whose registration is confirmed, each ranking
    above the next by the number SHA-256 gives of the confirmed registration and the
    modifier; there are as many as asked for, or as there are candidates; and every
    member outranks every candidate left out. *)
Theorem CalculateQuorum_correct (maxSize : nat) (quorum := CalculateQuorum l maxSize modifier) :
  (forall xs, arranged xs -> map snd (take maxSize xs) = quorum) /\
  StronglySorted (outranks modifier) quorum /\
  length quorum = (maxSize `min` length (CalculateScores l modifier))%nat /\
  (forall d, d ∈ quorum -> candidate l d) /\
  (forall e, candidate l e -> e ∉ quorum -> length quorum = maxSize /\ forall d, d ∈ quorum -> outranks modifier d e).
Proof using Hl.
  pose proof ranking_arranged as Hxs. pose proof (arranged_ranks ranking Hxs) as Hsx.
  pose proof (quorum_members maxSize) as (Hlen & _ & Hc). fold quorum in Hlen, Hc.
  assert (quorum = take maxSize (map snd ranking)) as Eq by apply quorum_ranking.
  pose proof Hsx as Hss. rewrite <- (take_drop maxSize (map snd ranking)) in Hss.
  apply StronglySorted_app in Hss as (Hcross & Hss & _). rewrite <- Eq in *.
  split_and!; [|done|done|done|].
  - intros ys Hys. rewrite Eq. etransitivity; [exact (fmap_take snd maxSize ys)|]. change (snd <$> ys) with (map snd ys). f_equal.
    apply (StronglySorted_unique_strong (outranks modifier)); [|by apply arranged_ranks|done|by rewrite (proj1 Hys), (proj1 Hxs)].
    intros d e _ _ H1 H2. exfalso. unfold outranks, COutPoint_lt in H1, H2.
    pose proof (memcmp_sym (op_hash (collateralOutpoint d)) (op_hash (collateralOutpoint e))).
    rewrite !orb_true_iff, !andb_true_iff, !Z.ltb_lt, !Z.eqb_eq in H1, H2. lia.
  - intros e He Hne. apply elem_of_ranking in He. rewrite <- (take_drop maxSize (map snd ranking)), <- Eq in He.
    apply elem_of_app in He as [|He]; [done|]. split; [|intros d Hd; by apply Hcross].
    rewrite Eq, length_take. apply Nat.min_l. destruct (Nat.le_gt_cases maxSize (length (map snd ranking))) as [|Hlt]; [done|].
    rewrite drop_ge in He by lia. by apply elem_of_nil in He.
Qed.

End Quorum.

(** ** Concrete lists *)

Definition confirmed (i : Z) : CDeterministicMN :=
  set_pdmnState (sample_mn i) (UpdateConfirmedHash (pdmnState (sample_mn i)) (replicate 32 i) (replicate 32 (10 + i))).
Definition confirmed_list : CDeterministicMNList :=
  try_add (H := any_curve) (try_add (H := any_curve) (try_add (H := any_curve) (CDeterministicMNList_new (replicate 32 9) 200)
    (confirmed 3)) (confirmed 4)) (sample_mn 5).

Lemma GetMNPayee_correct_witness :
  GetMNPayee sample_list = Some (sample_mn 3) /\ CompareByLastPaid (sample_mn 3) (sample_mn 5) = true.
Proof.
  assert (GetMNPayee sample_list = Some (sample_mn 3)) as E by (vm_compute; reflexivity). split; [exact E|].
  destruct (GetMNPayee_correct (H := any_curve) sample_list sample_list_ok) as (_ & Hp & _).
  destruct (Hp _ E) as (_ & _ & _ & Ho). apply (Ho (replicate 32 5) (sample_mn 5)); [vm_compute; reflexivity|reflexivity|].
  intros Eq. apply (f_equal proTxHash) in Eq. discriminate Eq.
Defined.

Lemma CalculateQuorum_correct_witness :
  length (CalculateQuorum confirmed_list 3 (replicate 32 0)) = 2%nat /\
  forall d, d ∈ CalculateQuorum confirmed_list 3 (replicate 32 0) -> IsMNValid d = true.
Proof.
  assert (list_ok (H := any_curve) confirmed_list) as Hok by (unfold confirmed_list; apply try_add_ok, try_add_ok, try_add_ok, new_list_ok).
  destruct (CalculateQuorum_correct (H := any_curve) confirmed_list (replicate 32 0) Hok 3) as (_ & _ & El & Hc & _).
  split.
  - etransitivity; [exact El|]. vm_compute. reflexivity.
  - intros d Hd. apply (Hc d Hd).
Defined.

(** The projection starts at the height of the list, not at the next block.  When [5]
    was paid by the last block, at 200, the first projected payment, to [3], is given the same
    height, and the hash breaks the tie: [3] is projected twice, although [3] is the
    payee of 201 and [5] the one of 202. *)
Definition paid_list : CDeterministicMNList := set_mnMap sample_list (<[replicate 32 5 := paid 200 (sample_mn 5)]> (mnMap sample_list)).
Definition paid_again : CDeterministicMNList := set_mnMap paid_list (<[replicate 32 3 := paid 201 (sample_mn 3)]> (mnMap paid_list)).
Example projection_repeats :
  (option_map (map (option_map proTxHash)) (GetProjectedMNPayees (H := any_curve) paid_list 2),
   option_map proTxHash (GetMNPayee paid_list), option_map proTxHash (GetMNPayee paid_again)) =
  (Some [Some (replicate 32 3); Some (replicate 32 3)], Some (replicate 32 3), Some (replicate 32 5)).
Proof. vm_compute. reflexivity. Qed.

Lemma paid_list_ok : list_ok (H := any_curve) paid_list.
Proof.
  destruct (UpdateMN_keep (H := any_curve) sample_list (replicate 32 5) (sample_mn 5) (set_nLastPaidHeight (pdmnState (sample_mn 5)) 200))
    as (l' & E & Hl' & _); [exact sample_list_ok|vm_compute; reflexivity|reflexivity|reflexivity|].
  assert (UpdateMN (H := any_curve) sample_list (replicate 32 5) (set_nLastPaidHeight (pdmnState (sample_mn 5)) 200) = Some paid_list) as E'
    by (vm_compute; reflexivity).
  rewrite E' in E. injection E as ->. exact Hl'.
Qed.

(** The list after [5] was paid at its height, 200: the projection of two names [3] twice. *)
Lemma GetProjectedMNPayees_cycle_witness :
  queue paid_list = [replicate 32 3; replicate 32 5] /\
  GetProjectedMNPayees (H := any_curve) paid_list 2 = Some [GetMN paid_list (replicate 32 3); GetMN paid_list (replicate 32 3)].
Proof.
  assert (queue paid_list = [replicate 32 3; replicate 32 5]) as E by (vm_compute; reflexivity). split; [exact E|].
  change 2 with (Z.of_nat 2).
  destruct (GetProjectedMNPayees_cycle (H := any_curve) paid_list 1 paid_list_ok ltac:(vm_compute; reflexivity)) as (_ & _ & first & others & Hq & Ep & _).
  - intros p d Hd _.
    assert (map_Forall (fun (_ : list Z) (d : CDeterministicMN) => CompareByLastPaid_GetHeight d <= 200) (mnMap paid_list)) as Hall
      by (apply (bool_decide_unpack _); vm_compute; exact I).
    replace (nHeight paid_list) with 200 by (vm_compute; reflexivity). exact (Hall p d Hd).
  - rewrite E. cbn. lia.
  - rewrite Ep. clear Ep.
    assert (queue_keys paid_list = [(103, replicate 32 3); (200, replicate 32 5)]) as Eq by (vm_compute; reflexivity).
    rewrite Eq in Hq. injection Hq as <- <-. vm_compute. reflexivity.
Defined.

(** With every masternode banned a null pointer is dereferenced. *)
Example projection_of_nobody : GetProjectedMNPayees (H := any_curve) (CDeterministicMNList_new (replicate 32 9) 200) 1 = None.
Proof. vm_compute. reflexivity. Qed.
