(* ===== verification/QuorumCommitment.v ===== *)
(** * Final commitments of quorums
    (src/src/llmq/quorums_commitment.h/.cpp, quorums_utils.cpp, bit sets of
    src/src/serialize.h, quorum parameters of src/src/chainparams.cpp)

    A final commitment is the result of a distributed key generation, mined in a
    block: who took part, and the quorum's key.  Its bit sets are written as packed
    bytes.  The theorems say for which sizes the bits can be read back, for which
    the bytes are unique, and what an accepted commitment guarantees. *)

From S2P Require Import Prelude Bytes Serialize Containers Compact Hash Transaction Block ProviderTx MasternodeList MasternodeQueue.
Local Open Scope Z_scope.
Local Open Scope cxx_scope.

(** ** Bit sets *)

(** [vBytes[p / 8] |= vec[p] << (p % 8)] for [p] below the smaller size. *)
Definition set_bit (vec : list bool) (vBytes : list Z) (p : nat) : list Z :=
  <[(p / 8)%nat := nth (p / 8)%nat vBytes 0 .| (Z.b2z (nth p vec false) .<< Z.of_nat (p mod 8)%nat)]> vBytes.
Definition FixedBitSet_Serialize (vec : list bool) (size : nat) : list Z :=
  fold_left (set_bit vec) (seq 0 (size `min` length vec)) (replicate ((size + 7) / 8) 0).

Definition get_bit (vBytes : list Z) (p : nat) : bool :=
  nz (nth (p / 8)%nat vBytes 0 .& (1 .<< Z.of_nat (p mod 8)%nat)).
Definition FixedBitSet_Unserialize (size : nat) : reader (list bool) := fun s =>
  let! r := read_bytes ((size + 7) / 8) s in
  let '(vBytes, s) := r in
  let vec := map (get_bit vBytes) (seq 0 size) in
  if negb (length vBytes * 8 =? size)%nat then
    let rem := Z.of_nat (length vBytes * 8 - size) in
    let m := u8 (0xff .<< rem) in
    if nz (nth (length vBytes - 1) vBytes 0 .& m) then Throw InvalidObject else Ok (vec, s)
  else Ok (vec, s).

(** [DYNBITSET] *)
Definition DynamicBitSet_Serialize (vec : list bool) : list Z :=
  WriteCompactSize (Z.of_nat (length vec)) ++ FixedBitSet_Serialize vec (length vec).
Definition DynamicBitSet_Unserialize : reader (list bool) := fun s =>
  let! r := ReadCompactSize s in
  let '(size, s) := r in FixedBitSet_Unserialize (Z.to_nat size) s.

(** ** Packed bits *)

Definition bit_at (b : list Z) (p : nat) : bool := Z.testbit (nth (p / 8) b 0) (Z.of_nat (p mod 8)).

Lemma get_bit_at b p : get_bit b p = bit_at b p.
Proof.
  unfold get_bit, bit_at, nz. destruct (Z.testbit _ _) eqn:E.
  - apply negb_true_iff, Z.eqb_neq. intros H. apply (f_equal (fun z => Z.testbit z (Z.of_nat (p mod 8)))) in H.
    rewrite Z.land_spec, E, Z.shiftl_spec, Z.sub_diag, Z.testbit_0_l in H by lia. done.
  - apply negb_false_iff, Z.eqb_eq, Z.bits_inj. intros i. rewrite Z.land_spec, Z.testbit_0_l.
    destruct (Z.lt_ge_cases i 0) as [|Hi]; [by rewrite !Z.testbit_neg_r by done|]. rewrite Z.shiftl_spec by done.
    destruct (Z.eq_dec i (Z.of_nat (p mod 8))) as [->|Hne]; [by rewrite E|].
    destruct (Z.lt_ge_cases i (Z.of_nat (p mod 8))); [by rewrite (Z.testbit_neg_r 1), andb_false_r by lia|].
    rewrite (Z.bits_above_log2 1), andb_false_r; [done|lia|change (Z.log2 1) with 0; lia].
Qed.

Lemma length_set_bit vec b p : length (set_bit vec b p) = length b.
Proof. apply length_insert. Qed.

Lemma testbit_byte_high x i : is_u 8 x -> 8 <= i -> Z.testbit x i = false.
Proof.
  intros Hx Hi. destruct (Z.eq_dec x 0) as [->|]; [apply Z.testbit_0_l|].
  apply Z.bits_above_log2; [unfold is_u in Hx; lia|]. apply Z.log2_lt_pow2; [unfold is_u in Hx; lia|].
  unfold is_u in Hx. pose proof (Z.pow_le_mono_r 2 8 i). lia.
Qed.

Lemma is_u8_bits x : 0 <= x -> (forall i, 8 <= i -> Z.testbit x i = false) -> is_u 8 x.
Proof.
  intros Hx Hb. unfold is_u. split; [done|]. destruct (Z.eq_dec x 0) as [->|]; [lia|]. apply Z.log2_lt_pow2; [lia|].
  destruct (Z.lt_ge_cases (Z.log2 x) 8) as [|Hge]; [done|]. pose proof (Z.bit_log2 x ltac:(lia)) as Hl. by rewrite Hb in Hl by lia.
Qed.

(** The step changes bit [p] and no other. *)
Lemma set_bit_bits vec b p q : bytes_ok b -> (p < 8 * length b)%nat -> bit_at b p = false ->
  bytes_ok (set_bit vec b p) /\ bit_at (set_bit vec b p) q = if decide (q = p) then nth p vec false else bit_at b q.
Proof.
  intros Hb Hp Hbp. pose proof (Nat.div_mod_eq p 8) as Ep. pose proof (Nat.mod_upper_bound p 8 ltac:(lia)) as Hm.
  assert (p / 8 < length b)%nat as Hlt by lia.
  set (x := nth (p / 8) b 0). assert (is_u 8 x) as Hx by (by apply Forall_nth).
  assert (forall i, 0 <= i -> Z.testbit (x .| (Z.b2z (nth p vec false) .<< Z.of_nat (p mod 8))) i =
            if decide (i = Z.of_nat (p mod 8)) then nth p vec false else Z.testbit x i) as Hbits.
  { intros i Hi. rewrite Z.lor_spec, Z.shiftl_spec by done. case_decide as E.
    - subst i. rewrite Z.sub_diag, Z.b2z_bit0. unfold bit_at in Hbp. fold x in Hbp. by rewrite Hbp.
    - destruct (Z.lt_ge_cases i (Z.of_nat (p mod 8))); [by rewrite (Z.testbit_neg_r (Z.b2z _)), orb_false_r by lia|].
      replace (i - Z.of_nat (p mod 8)) with (Z.succ (i - Z.of_nat (p mod 8) - 1)) by lia.
      replace (Z.b2z (nth p vec false)) with (2 * 0 + Z.b2z (nth p vec false)) by lia.
      rewrite Z.testbit_succ_r by lia. by rewrite Z.testbit_0_l, orb_false_r. }
  split.
  - apply Forall_insert; [done|]. apply is_u8_bits.
    + apply Z.lor_nonneg. split; [apply Hx|]. apply Z.shiftl_nonneg. destruct (nth p vec false); cbn; lia.
    + intros i Hi. rewrite Hbits, decide_False by lia. by apply testbit_byte_high.
  - unfold bit_at at 1, set_bit. pose proof (Nat.div_mod_eq q 8) as Eq. pose proof (Nat.mod_upper_bound q 8 ltac:(lia)).
    destruct (decide (q / 8 = p / 8)%nat) as [E|E].
    + rewrite E, nth_lookup, list_lookup_insert_eq by done. cbn [default from_option]. fold x. rewrite Hbits by lia.
      destruct (decide (q = p)) as [->|Hne]; [by rewrite decide_True|]. rewrite decide_False by lia. unfold bit_at. by rewrite E.
    + rewrite decide_False by congruence. rewrite nth_lookup, list_lookup_insert_ne by done. unfold bit_at. by rewrite nth_lookup.
Qed.

Lemma set_bits_spec vec n b0 : bytes_ok b0 -> (n <= 8 * length b0)%nat -> (forall q, bit_at b0 q = false) ->
  let b := fold_left (set_bit vec) (seq 0 n) b0 in
  length b = length b0 /\ bytes_ok b /\ forall q, bit_at b q = if (q <? n)%nat then nth q vec false else false.
Proof.
  intros Hb0 Hn H0. induction n as [|n IH]; [by split_and!|].
  destruct (IH ltac:(lia)) as (Hl & Hb & Hq). rewrite seq_S, fold_left_app. cbn [fold_left Nat.add].
  set (b := fold_left (set_bit vec) (seq 0 n) b0) in *.
  assert (bit_at b n = false) as Hbn by (by rewrite Hq, (proj2 (Nat.ltb_ge n n)) by lia).
  split_and!; [by rewrite length_set_bit|by apply (set_bit_bits vec b n 0); [|lia|]|].
  intros q. rewrite (proj2 (set_bit_bits vec b n q Hb ltac:(lia) Hbn)), Hq.
  case_decide as E; [subst q; by rewrite (proj2 (Nat.ltb_lt n (S n))) by lia|].
  destruct (Nat.ltb_spec q n), (Nat.ltb_spec q (S n)); done || lia.
Qed.

Lemma bit_at_zeros k q : bit_at (replicate k 0) q = false.
Proof.
  unfold bit_at. rewrite nth_lookup. destruct (replicate k 0 !! (q / 8)%nat) eqn:E; [|apply Z.testbit_0_l].
  apply lookup_replicate in E as [-> _]. apply Z.testbit_0_l.
Qed.

(** How many bytes, and what is in them. *)
Lemma FixedBitSet_bytes vec : let b := FixedBitSet_Serialize vec (length vec) in
  length b = ((length vec + 7) / 8)%nat /\ bytes_ok b /\ forall q, bit_at b q = nth q vec false.
Proof.
  unfold FixedBitSet_Serialize. rewrite Nat.min_id. cbn zeta.
  destruct (set_bits_spec vec (length vec) (replicate ((length vec + 7) / 8) 0)) as (Hl & Hb & Hq).
  - apply Forall_replicate. unfold is_u. lia.
  - rewrite length_replicate. pose proof (Nat.div_mod_eq (length vec + 7) 8). pose proof (Nat.mod_upper_bound (length vec + 7) 8 ltac:(lia)). lia.
  - apply bit_at_zeros.
  - rewrite length_replicate in Hl. split_and!; [done|done|]. intros q. rewrite Hq.
    destruct (Nat.ltb_spec q (length vec)); [done|]. by rewrite nth_overflow.
Qed.

Lemma bytes_bits_eq a b : bytes_ok a -> bytes_ok b -> length a = length b ->
  (forall q, (q < 8 * length a)%nat -> bit_at a q = bit_at b q) -> a = b.
Proof.
  intros Ha Hb Hl Hq. apply (nth_ext _ _ 0 0); [done|]. intros k Hk.
  assert (is_u 8 (nth k a 0)) as Hxa by (by apply Forall_nth). assert (is_u 8 (nth k b 0)) as Hxb by (apply Forall_nth; [done|lia]).
  apply Z.bits_inj. intros i. destruct (Z.lt_ge_cases i 0); [by rewrite !Z.testbit_neg_r by done|].
  destruct (Z.le_gt_cases 8 i); [by rewrite !testbit_byte_high by done|].
  specialize (Hq (8 * k + Z.to_nat i)%nat ltac:(lia)). unfold bit_at in Hq.
  replace ((8 * k + Z.to_nat i) / 8)%nat with k in Hq by (apply (Nat.div_unique _ 8 k (Z.to_nat i)); lia).
  replace ((8 * k + Z.to_nat i) mod 8)%nat with (Z.to_nat i) in Hq by (apply (Nat.mod_unique _ 8 k); lia).
  by rewrite Z2Nat.id in Hq by done.
Qed.

(** The mask of the check after reading covers the bits from [rem] on. *)
Lemma mask_spec x rem : is_u 8 x -> 0 <= rem < 8 ->
  nz (x .& u8 (0xff .<< rem)) = existsb (fun j => Z.testbit x (Z.of_nat j)) (seq (Z.to_nat rem) (Z.to_nat (8 - rem))).
Proof.
  intros Hx Hr. unfold is_u in Hx. change (2 ^ 8) with 256 in Hx.
  assert (rem ∈ [0; 1; 2; 3; 4; 5; 6; 7]) as Hin by (repeat (rewrite elem_of_cons); lia).
  assert (forallb (fun r => forallb (fun y => eqb (nz (y .& u8 (0xff .<< r)))
      (existsb (fun j => Z.testbit y (Z.of_nat j)) (seq (Z.to_nat r) (Z.to_nat (8 - r))))) (map Z.of_nat (seq 0 256)))
    [0; 1; 2; 3; 4; 5; 6; 7] = true) as Hall by (vm_compute; reflexivity).
  rewrite forallb_forall in Hall. specialize (Hall rem). rewrite forallb_forall in Hall. apply eqb_prop, Hall.
  - by apply list_elem_of_In.
  - apply in_map_iff. exists (Z.to_nat x). split; [lia|]. apply in_seq. lia.
Qed.

(** Unused bits of the last byte, for a bit set of [n] bits. *)
Definition unused (n : nat) : nat := ((n + 7) / 8 * 8 - n)%nat.

Lemma unused_spec n : (unused n < 8)%nat /\ ((n + 7) / 8 * 8 = n + unused n)%nat.
Proof.
  unfold unused. pose proof (Nat.div_mod_eq (n + 7) 8). pose proof (Nat.mod_upper_bound (n + 7) 8 ltac:(lia)). lia.
Qed.

Definition refused (b : list Z) (n : nat) : Prop :=
  unused n <> 0%nat /\ exists j, (unused n <= j < 8)%nat /\ bit_at b ((n + 7) / 8 * 8 - 8 + j) = true.

Lemma existsb_seq f a n : existsb f (seq a n) = true <-> exists j, (a <= j < a + n)%nat /\ f j = true.
Proof.
  rewrite existsb_exists. split; intros (j & Hj & Hf); exists j; [apply in_seq in Hj|rewrite in_seq]; by split.
Qed.

(** Reading, in terms of the bits. *)
Lemma FixedBitSet_read n b rest : bytes_ok b -> length b = ((n + 7) / 8)%nat ->
  (refused b n /\ FixedBitSet_Unserialize n (b ++ rest) = Throw InvalidObject) \/
  (~ refused b n /\ FixedBitSet_Unserialize n (b ++ rest) = Ok (map (bit_at b) (seq 0 n), rest)).
Proof.
  intros Hb Hl. destruct (unused_spec n) as [Hu En]. unfold FixedBitSet_Unserialize. rewrite read_bytes_app by done. cbn [rbind].
  rewrite (map_ext _ _ (get_bit_at b)), Hl. unfold refused.
  destruct (Nat.eqb_spec ((n + 7) / 8 * 8) n) as [E|E]; cbn [negb]; [right; split; [|done]; intros [Hn _]; lia|].
  assert (forall j, bit_at b ((n + 7) / 8 * 8 - 8 + j) = Z.testbit (nth ((n + 7) / 8 - 1) b 0) (Z.of_nat j) \/ (8 <= j)%nat) as Hbit.
  { intros j. destruct (Nat.le_gt_cases 8 j); [by right|]. left. unfold bit_at.
    replace (((n + 7) / 8 * 8 - 8 + j) / 8)%nat with ((n + 7) / 8 - 1)%nat by (apply (Nat.div_unique _ 8 _ j); lia).
    by replace (((n + 7) / 8 * 8 - 8 + j) mod 8)%nat with j by (apply (Nat.mod_unique _ 8 ((n + 7) / 8 - 1)); lia). }
  rewrite mask_spec; [|apply Forall_nth; [done|lia]|lia].
  replace (Z.to_nat (Z.of_nat ((n + 7) / 8 * 8 - n))) with (unused n) by (unfold unused; lia).
  replace (Z.to_nat (8 - Z.of_nat ((n + 7) / 8 * 8 - n))) with (8 - unused n)%nat by (unfold unused in *; lia).
  destruct (existsb _ _) eqn:Ex; [left|right]; (split; [|done]).
  - split; [lia|]. apply existsb_seq in Ex as (j & Hj & Hf). exists j. split; [lia|]. destruct (Hbit j) as [->|]; [done|lia].
  - intros [_ (j & Hj & Hf)]. apply not_true_iff_false in Ex. apply Ex, existsb_seq. exists j. split; [lia|].
    destruct (Hbit j) as [E1|]; [|lia]. by rewrite <- E1.
Qed.

Lemma map_nth_seq vec : map (fun q => nth q vec false) (seq 0 (length vec)) = vec.
Proof.
  apply (nth_ext _ _ false false); [by rewrite length_map, length_seq|]. rewrite length_map, length_seq. intros k Hk.
  rewrite (nth_indep _ false (nth 0 vec false)) by (by rewrite length_map, length_seq). rewrite (map_nth (fun q => nth q vec false)).
  by rewrite seq_nth by done.
Qed.

Section BitSet.
Context (vec : list bool).
Local Abbreviation n := (length vec).
Local Abbreviation written := (FixedBitSet_Serialize vec n).

Lemma written_read rest : (unused n = 0 \/ 4 <= unused n)%nat -> FixedBitSet_Unserialize n (written ++ rest) = Ok (vec, rest).
Proof.
  intros Hn. destruct (FixedBitSet_bytes vec) as (Hl & Hb & Hq). destruct (unused_spec n) as [Hu En].
  destruct (FixedBitSet_read n written rest Hb Hl) as [[Hr _]|[_ ->]].
  - exfalso. destruct Hr as [Hnz (j & Hj & Hbit)]. rewrite Hq, nth_overflow in Hbit by lia. done.
  - by rewrite (map_ext _ _ Hq), map_nth_seq.
Qed.

Lemma written_refused rest : (1 <= unused n <= 3)%nat -> nth (n - 1) vec false = true ->
  FixedBitSet_Unserialize n (written ++ rest) = Throw InvalidObject.
Proof.
  intros Hn Hlast. destruct (FixedBitSet_bytes vec) as (Hl & Hb & Hq). destruct (unused_spec n) as [Hu En].
  destruct (FixedBitSet_read n written rest Hb Hl) as [[_ ->]|[Hr _]]; [done|]. exfalso. apply Hr. split; [lia|].
  exists (7 - unused n)%nat. split; [lia|]. rewrite Hq. replace ((n + 7) / 8 * 8 - 8 + (7 - unused n))%nat with (n - 1)%nat; [done|].
  assert (0 < n)%nat by (destruct n; [cbn in Hn|]; lia). lia.
Qed.

Lemma read_written b rest : (unused n <= 4)%nat -> bytes_ok b -> length b = ((n + 7) / 8)%nat ->
  FixedBitSet_Unserialize n (b ++ rest) = Ok (vec, rest) -> b = written.
Proof.
  intros Hn Hb Hl. destruct (FixedBitSet_bytes vec) as (Hlw & Hbw & Hq). destruct (unused_spec n) as [Hu En].
  destruct (FixedBitSet_read n b rest Hb Hl) as [[_ ->]|[Hr ->]]; [done|]. intros [= E].
  apply bytes_bits_eq; [done|done|congruence|]. intros q Hlt. rewrite Hq. destruct (Nat.lt_ge_cases q n) as [Hqn|Hqn].
  - rewrite <- E. rewrite (nth_indep _ false (bit_at b 0)) by (by rewrite length_map, length_seq).
    rewrite map_nth. by rewrite seq_nth by done.
  - rewrite nth_overflow by done. apply not_true_iff_false. intros Hbit. apply Hr. split; [lia|].
    exists (q - ((n + 7) / 8 * 8 - 8))%nat. split; [lia|]. by replace ((n + 7) / 8 * 8 - 8 + (q - ((n + 7) / 8 * 8 - 8)))%nat with q by lia.
Qed.

Lemma other_bytes : (5 <= unused n)%nat ->
  exists b, b <> written /\ bytes_ok b /\ forall rest, FixedBitSet_Unserialize n (b ++ rest) = Ok (vec, rest).
Proof.
  intros Hn. destruct (FixedBitSet_bytes vec) as (Hl & Hb & Hq). destruct (unused_spec n) as [Hu En].
  assert (bit_at written n = false) as Hw by (by rewrite Hq, nth_overflow by lia).
  assert (n < 8 * length written)%nat as Hlt by lia.
  exists (set_bit (vec ++ [true]) written n).
  assert (forall q, bit_at (set_bit (vec ++ [true]) written n) q = if decide (q = n) then true else nth q vec false) as Hbits.
  { intros q. rewrite (proj2 (set_bit_bits _ _ _ q Hb Hlt Hw)). case_decide; [by rewrite app_nth2, Nat.sub_diag by lia|apply Hq]. }
  split; [|split; [by apply (set_bit_bits _ _ _ 0 Hb Hlt Hw)|]].
  - intros E. pose proof (Hbits n) as En'. rewrite E, Hw, decide_True in En' by done. done.
  - intros rest. destruct (FixedBitSet_read n (set_bit (vec ++ [true]) written n) rest) as [[Hr _]|[_ ->]].
    + by apply (set_bit_bits _ _ _ 0 Hb Hlt Hw).
    + by rewrite length_set_bit.
    + exfalso. destruct Hr as [_ (j & Hj & Hbit)]. rewrite Hbits, decide_False, nth_overflow in Hbit by lia. done.
    + do 2 f_equal. transitivity (map (fun q => nth q vec false) (seq 0 n)); [|apply map_nth_seq]. apply map_ext_in. intros q Hin%in_seq. rewrite Hbits, decide_False; [done|lia].
Qed.

End BitSet.

(** C30: Packed bits.  Let [u] be the number of unused bits in the last byte of a bit set
    (0 to 7).  What was written is read back if [u] is 0 or at least 4; if [u] is 1, 2 or
    3 and the last bit is set, reading what was written throws.  The bytes are determined by
    the bits if [u] is at most 4; if [u] is 5 or more (as for the quorums of 50 and of 10)
    there are other bytes that read as the same bits. *)
Theorem bit_set_codec (vec : list bool) (rest : list Z) (u := unused (length vec)) :
  ((u = 0 \/ 4 <= u)%nat ->
     FixedBitSet_Unserialize (length vec) (FixedBitSet_Serialize vec (length vec) ++ rest) = Ok (vec, rest)) /\
  ((1 <= u <= 3)%nat -> nth (length vec - 1) vec false = true ->
     FixedBitSet_Unserialize (length vec) (FixedBitSet_Serialize vec (length vec) ++ rest) = Throw InvalidObject) /\
  ((u <= 4)%nat -> forall b, bytes_ok b -> length b = ((length vec + 7) / 8)%nat ->
     FixedBitSet_Unserialize (length vec) (b ++ rest) = Ok (vec, rest) -> b = FixedBitSet_Serialize vec (length vec)) /\
  ((5 <= u)%nat -> exists b, b <> FixedBitSet_Serialize vec (length vec) /\ bytes_ok b /\
     FixedBitSet_Unserialize (length vec) (b ++ rest) = Ok (vec, rest)).
Proof.
  split; [apply written_read|]. split; [apply written_refused|]. split.
  - intros Hu b. by apply read_written.
  - intros Hu. destruct (other_bytes vec Hu) as (b & Hb & Hok & Hr). exists b. split_and!; done || apply Hr.
Qed.

(** Five participants, all of them present: the bytes cannot be read back. *)
Example five_bits_refused : FixedBitSet_Unserialize 5 (FixedBitSet_Serialize (replicate 5 true) 5) = Throw InvalidObject.
Proof. vm_compute. reflexivity. Qed.
(** Fifty bits have sixteen encodings. *)
Example fifty_bits_twice :
  FixedBitSet_Unserialize 50 [0; 0; 0; 0; 0; 0; 0x3c] = FixedBitSet_Unserialize 50 (FixedBitSet_Serialize (replicate 50 false) 50).
Proof. vm_compute. reflexivity. Qed.

Lemma bit_set_codec_witness :
  FixedBitSet_Unserialize 50 (FixedBitSet_Serialize (replicate 50 true) 50) = Ok (replicate 50 true, []) /\
  FixedBitSet_Unserialize 5 (FixedBitSet_Serialize (replicate 5 true) 5) = Throw InvalidObject.
Proof.
  pose proof (bit_set_codec (replicate 50 true) []) as (H50 & _). pose proof (bit_set_codec (replicate 5 true) []) as (_ & H5 & _).
  rewrite app_nil_r in H50, H5. split.
  - apply H50. right. vm_compute. lia.
  - apply H5; [vm_compute; lia|reflexivity].
Defined.

(** ** Quorum parameters (src/src/consensus/params.h, src/src/chainparams.cpp) *)

Record LLMQParams : Type := {
  llmq_type : Z;
  llmq_size : nat;
  minSize : Z;
  threshold : Z;
  dkgInterval : Z;
  dkgPhaseBlocks : Z;
  dkgMiningWindowStart : Z;
  dkgMiningWindowEnd : Z;
}.
Definition LLMQ_NONE : Z := 0xff.
Definition LLMQ_50_60 : Z := 1.
Definition LLMQ_400_60 : Z := 2.
Definition LLMQ_400_85 : Z := 3.
Definition LLMQ_10_60 : Z := 100.

Definition llmq10_60 : LLMQParams := Build_LLMQParams LLMQ_10_60 10 6 6 24 2 10 18.
Definition llmq50_60 : LLMQParams := Build_LLMQParams LLMQ_50_60 50 40 30 24 2 10 18.
Definition llmq400_60 : LLMQParams := Build_LLMQParams LLMQ_400_60 400 300 240 (24 * 12) 4 20 28.
Definition llmq400_85 : LLMQParams := Build_LLMQParams LLMQ_400_85 400 350 340 (24 * 24) 4 20 48.

(** [consensus.llmqs], in the order of its keys: main network and regression test. *)
Definition Llmqs : Type := list (Z * LLMQParams).
Definition main_llmqs : Llmqs := [(LLMQ_50_60, llmq50_60); (LLMQ_400_60, llmq400_60); (LLMQ_400_85, llmq400_85)].
Definition regtest_llmqs : Llmqs := [(LLMQ_50_60, llmq50_60); (LLMQ_10_60, llmq10_60)].
Definition llmqs_at (llmqs : Llmqs) (type : Z) : option LLMQParams :=
  option_map snd (List.find (fun p => fst p =? type) llmqs).

(** ** Commitments *)

Record CFinalCommitment : Type := {
  qc_nVersion : Z;
  llmqType : Z;
  quorumHash : list Z;
  signers : list bool;
  validMembers : list bool;
  quorumPublicKey : CBLSPublicKey;
  quorumVvecHash : list Z;
  quorumSig : CBLSSignature;
  membersSig : CBLSSignature;
}.
Definition qc_CURRENT_VERSION : Z := 1.
#[global] Instance CFinalCommitment_eq_dec : EqDecision CFinalCommitment.
Proof. solve_decision. Defined.

(** The constructor from the parameters: a null commitment. *)
Definition CFinalCommitment_null (params : LLMQParams) (_quorumHash : list Z) : CFinalCommitment :=
  {| qc_nVersion := qc_CURRENT_VERSION; llmqType := llmq_type params; quorumHash := _quorumHash;
     signers := replicate (llmq_size params) false; validMembers := replicate (llmq_size params) false;
     quorumPublicKey := CBLSPublicKey_null; quorumVvecHash := uint256_null;
     quorumSig := {| bls_sig := None |}; membersSig := {| bls_sig := None |} |}.

Definition count_true (v : list bool) : Z := Z.of_nat (length (List.filter id v)).
Definition CountSigners (qc : CFinalCommitment) : Z := count_true (signers qc).
Definition CountValidMembers (qc : CFinalCommitment) : Z := count_true (validMembers qc).

Definition IsNull (qc : CFinalCommitment) : bool :=
  if nz (count_true (signers qc)) || nz (count_true (validMembers qc)) then false
  else negb (IsValid (quorumPublicKey qc) || negb (uint256_IsNull (quorumVvecHash qc)) ||
             SigIsValid (membersSig qc) || SigIsValid (quorumSig qc)).

Definition VerifySizes (qc : CFinalCommitment) (params : LLMQParams) : bool :=
  (length (signers qc) =? llmq_size params)%nat && (length (validMembers qc) =? llmq_size params)%nat.

Definition VerifyNull (llmqs : Llmqs) (qc : CFinalCommitment) : bool :=
  match llmqs_at llmqs (llmqType qc) with
  | None => false
  | Some params => IsNull qc && VerifySizes qc params
  end.

Section Commitments.
Context `{BLSCurve}.

Definition CFinalCommitment_Serialize (qc : CFinalCommitment) : list Z :=
  ser_writedata16 (qc_nVersion qc) ++ ser_writedata8 (llmqType qc) ++ uint256_Serialize (quorumHash qc) ++
  DynamicBitSet_Serialize (signers qc) ++ DynamicBitSet_Serialize (validMembers qc) ++
  Serialize (quorumPublicKey qc) ++ uint256_Serialize (quorumVvecHash qc) ++ Serialize (quorumSig qc) ++ Serialize (membersSig qc).
Definition CFinalCommitment_Unserialize : reader CFinalCommitment := fun s =>
  let! r := ser_readdata16 s in let '(nVersion, s) := r in
  let! r := ser_readdata8 s in let '(llmqType, s) := r in
  let! r := uint256_Unserialize s in let '(quorumHash, s) := r in
  let! r := DynamicBitSet_Unserialize s in let '(signers, s) := r in
  let! r := DynamicBitSet_Unserialize s in let '(validMembers, s) := r in
  let! r := Unserialize s in let '(quorumPublicKey, s) := r in
  let! r := uint256_Unserialize s in let '(quorumVvecHash, s) := r in
  let! r := Unserialize s in let '(quorumSig, s) := r in
  let! r := Unserialize s in let '(membersSig, s) := r in
  Ok ({| qc_nVersion := nVersion; llmqType := llmqType; quorumHash := quorumHash; signers := signers; validMembers := validMembers;
         quorumPublicKey := quorumPublicKey; quorumVvecHash := quorumVvecHash; quorumSig := quorumSig; membersSig := membersSig |}, s).
#[export] Instance CFinalCommitment_serializable : Serializable CFinalCommitment :=
  {| Serialize := CFinalCommitment_Serialize; Unserialize := CFinalCommitment_Unserialize |}.

Record CFinalCommitmentTxPayload : Type := { qcTx_nVersion : Z; qcTx_nHeight : Z; commitment : CFinalCommitment }.

Definition Payload_Serialize (p : CFinalCommitmentTxPayload) : list Z :=
  ser_writedata16 (qcTx_nVersion p) ++ ser_writedata32 (qcTx_nHeight p) ++ Serialize (commitment p).
Definition Payload_Unserialize : reader CFinalCommitmentTxPayload := fun s =>
  let! r := ser_readdata16 s in let '(nVersion, s) := r in
  let! r := ser_readdata32 s in let '(nHeight, s) := r in
  let! r := Unserialize s in let '(commitment, s) := r in
  Ok ({| qcTx_nVersion := nVersion; qcTx_nHeight := nHeight; commitment := commitment |}, s).
#[export] Instance CFinalCommitmentTxPayload_serializable : Serializable CFinalCommitmentTxPayload :=
  {| Serialize := Payload_Serialize; Unserialize := Payload_Unserialize |}.

(** [CLLMQUtils::BuildCommitmentHash] *)
Definition BuildCommitmentHash (llmqType : Z) (blockHash : list Z) (validMembers : list bool) (pubKey : CBLSPublicKey) (vvecHash : list Z) : list Z :=
  CHashWriter_GetHash [ser_writedata8 llmqType; uint256_Serialize blockHash; DynamicBitSet_Serialize validMembers;
                       Serialize pubKey; uint256_Serialize vvecHash].

(** [CLLMQUtils::GetAllQuorumMembers], of the list at the quorum's block; [at] throws for
    an unknown type. *)
Definition GetAllQuorumMembers (llmqs : Llmqs) (allMns : CDeterministicMNList) (llmqType : Z) (blockHash : list Z) : option (list CDeterministicMN) :=
  params ← llmqs_at llmqs llmqType;
  let modifier := CHashWriter_GetHash [ser_writedata8 llmqType; uint256_Serialize blockHash] in
  Some (CalculateQuorum allMns (llmq_size params) modifier).

(** [membersSig.VerifySecureAggregated(pks, hash)]; a null key is handed over as it
    serializes. *)
Definition VerifySecureAggregated (s : CBLSSignature) (pks : list CBLSPublicKey) (hash : list Z) : bool :=
  match pks with
  | [] => false
  | _ => curve_VerifySecure (BLS_GetBuf SerSize_sig (bls_sig s)) (map (fun pk => BLS_GetBuf SerSize_pk (bls_pk pk)) pks) hash
  end.

(** The operator keys of the members that signed. *)
Definition signer_keys (qc : CFinalCommitment) (members : list CDeterministicMN) : list CBLSPublicKey :=
  map (fun x => pubKeyOperator (pdmnState (fst x)))
    (List.filter (fun x => nth (snd x) (signers qc) false) (combine members (seq 0 (length members)))).

Definition Verify (llmqs : Llmqs) (qc : CFinalCommitment) (members : list CDeterministicMN) (checkSigs : bool) : bool :=
  if (qc_nVersion qc =? 0) || (qc_CURRENT_VERSION <? qc_nVersion qc) then false
  else
    match llmqs_at llmqs (llmqType qc) with
    | None => false
    | Some params =>
        if negb (VerifySizes qc params) then false
        else if CountValidMembers qc <? minSize params then false
        else if CountSigners qc <? minSize params then false
        else if negb (IsValid (quorumPublicKey qc)) then false
        else if uint256_IsNull (quorumVvecHash qc) then false
        else if negb (SigIsValid (membersSig qc)) then false
        else if negb (SigIsValid (quorumSig qc)) then false
        else if existsb (fun i => nth i (validMembers qc) false || nth i (signers qc) false)
                  (seq (length members) (llmq_size params - length members)) then false
        else if checkSigs then
          let commitmentHash := BuildCommitmentHash (u8 (llmq_type params)) (quorumHash qc) (validMembers qc) (quorumPublicKey qc) (quorumVvecHash qc) in
          if negb (VerifySecureAggregated (membersSig qc) (signer_keys qc members) commitmentHash) then false
          else VerifyInsecure (quorumSig qc) (quorumPublicKey qc) commitmentHash
        else true
    end.

End Commitments.

(** ** Reading commitments back *)

Section RoundTrips.
Context `{BLSCurve}.

Definition bits_ok (vec : list bool) : Prop :=
  (unused (length vec) = 0 \/ 4 <= unused (length vec))%nat /\ Z.of_nat (length vec) <= MAX_SIZE.

Lemma DynamicBitSet_size (vec : list bool) rest : Z.of_nat (length vec) <= MAX_SIZE ->
  DynamicBitSet_Unserialize (WriteCompactSize (Z.of_nat (length vec)) ++ rest) = FixedBitSet_Unserialize (length vec) rest.
Proof.
  intros Hm. unfold DynamicBitSet_Unserialize. rewrite ReadCompactSize_write by (unfold MAX_SIZE in Hm; unfold is_u; lia).
  rewrite (proj2 (Z.leb_le _ _)) by done. cbn [rbind]. by rewrite Nat2Z.id.
Qed.

Lemma DynamicBitSet_read (vec : list bool) rest : bits_ok vec -> DynamicBitSet_Unserialize (DynamicBitSet_Serialize vec ++ rest) = Ok (vec, rest).
Proof.
  intros [Hu Hm]. unfold DynamicBitSet_Serialize. rewrite <- app_assoc, DynamicBitSet_size by done. by apply written_read.
Qed.

Definition commitment_ok (qc : CFinalCommitment) : Prop :=
  is_u 16 (qc_nVersion qc) /\ is_u 8 (llmqType qc) /\ uint256_ok (quorumHash qc) /\ bits_ok (signers qc) /\ bits_ok (validMembers qc) /\
  serializable (quorumPublicKey qc) /\ uint256_ok (quorumVvecHash qc) /\ serializable (quorumSig qc) /\ serializable (membersSig qc).
Definition payload_ok (p : CFinalCommitmentTxPayload) : Prop :=
  is_u 16 (qcTx_nVersion p) /\ is_u 32 (qcTx_nHeight p) /\ commitment_ok (commitment p).

Ltac read_commitment :=
  first [ rewrite read8_write by done | rewrite read32_write by done | rewrite DynamicBitSet_read by done
        | rewrite read16_write by done | rewrite uint256_read by done | rewrite Unserialize_Serialize by done ]; cbn [rbind].

#[export] Program Instance CFinalCommitment_RoundTrip : RoundTrip CFinalCommitment := {| serializable := commitment_ok |}.
Next Obligation.
  intros qc rest (?&?&?&?&?&?&?&?&?). cbn [Unserialize Serialize CFinalCommitment_serializable].
  unfold CFinalCommitment_Unserialize, CFinalCommitment_Serialize. rewrite <- !app_assoc.
  repeat read_commitment. by destruct qc.
Qed.
#[export] Program Instance CFinalCommitmentTxPayload_RoundTrip : RoundTrip CFinalCommitmentTxPayload := {| serializable := payload_ok |}.
Next Obligation.
  intros p rest (?&?&?). cbn [Unserialize Serialize CFinalCommitmentTxPayload_serializable].
  unfold Payload_Unserialize, Payload_Serialize. rewrite <- !app_assoc. repeat read_commitment. by destruct p.
Qed.

(** The same payload with other bytes for the signers. *)
Definition altered (p : CFinalCommitmentTxPayload) (b : list Z) : list Z :=
  let qc := commitment p in
  ser_writedata16 (qcTx_nVersion p) ++ ser_writedata32 (qcTx_nHeight p) ++
  ser_writedata16 (qc_nVersion qc) ++ ser_writedata8 (llmqType qc) ++ uint256_Serialize (quorumHash qc) ++
  (WriteCompactSize (Z.of_nat (length (signers qc))) ++ b) ++ DynamicBitSet_Serialize (validMembers qc) ++
  Serialize (quorumPublicKey qc) ++ uint256_Serialize (quorumVvecHash qc) ++ Serialize (quorumSig qc) ++ Serialize (membersSig qc).

Lemma altered_read p b : payload_ok p -> (forall rest, FixedBitSet_Unserialize (length (signers (commitment p))) (b ++ rest) = Ok (signers (commitment p), rest)) ->
  GetTxPayload CFinalCommitmentTxPayload (altered p b) = Some p.
Proof.
  intros (?&?&(?&?&?&[_ Hm]&?&?&?&?&?)) Hb. unfold GetTxPayload. cbn [Unserialize CFinalCommitmentTxPayload_serializable].
  unfold Payload_Unserialize, altered. do 2 read_commitment.
  change (Unserialize (T:=CFinalCommitment)) with CFinalCommitment_Unserialize. unfold CFinalCommitment_Unserialize.
  do 3 read_commitment. rewrite <- !app_assoc, DynamicBitSet_size, Hb by done. cbn [rbind].
  repeat read_commitment. rewrite <- (app_nil_r (Serialize (membersSig (commitment p)))). read_commitment.
  destruct p as [? ? []]. done.
Qed.

Lemma altered_ne p b : b <> FixedBitSet_Serialize (signers (commitment p)) (length (signers (commitment p))) -> altered p b <> SetTxPayload p.
Proof.
  intros Hb E. apply Hb. unfold altered, SetTxPayload in E. cbn [Serialize CFinalCommitmentTxPayload_serializable] in E.
  unfold Payload_Serialize in E. cbn [Serialize CFinalCommitment_serializable] in E. unfold CFinalCommitment_Serialize, DynamicBitSet_Serialize in E.
  rewrite <- !app_assoc in E. do 6 apply app_inv_head in E. by apply app_inv_tail in E.
Qed.
End RoundTrips.

(** Commitment payloads.  Whatever the BLS library accepts: a payload that was set, with
    bit sets that can be read back, is the one that is got.  But for bit sets with five or
    more unused bits, as those of the quorums of 50, other bytes give the same payload:
    the commitment does not determine the hash of its transaction. *)
Theorem commitment_payload_roundtrip `{BLSCurve} (p : CFinalCommitmentTxPayload) :
  payload_ok p ->
  GetTxPayload CFinalCommitmentTxPayload (SetTxPayload p) = Some p /\
  ((5 <= unused (length (signers (commitment p))))%nat ->
   exists payload, payload <> SetTxPayload p /\ GetTxPayload CFinalCommitmentTxPayload payload = Some p).
Proof.
  intros Hp. split; [by apply (GetTxPayload_SetTxPayload CFinalCommitmentTxPayload)|]. intros Hu.
  destruct (other_bytes (signers (commitment p)) Hu) as (b & Hb & _ & Hread). exists (altered p b). split; [by apply altered_ne|]. by apply altered_read.
Qed.

(** ** What an accepted commitment guarantees *)

Lemma llmqs_at_In llmqs type params : llmqs_at llmqs type = Some params -> In (type, params) llmqs.
Proof.
  unfold llmqs_at. destruct (List.find _ llmqs) as [[t p]|] eqn:E; [|done]. intros [= <-].
  apply find_some in E as [Hin E]. apply Z.eqb_eq in E. cbn in E. by subst t.
Qed.

Lemma combine_seq_filter {A} (f : nat -> bool) (l : list A) k :
  length (List.filter (fun x => f (snd x)) (combine l (seq k (length l)))) = length (List.filter f (seq k (length l))).
Proof. revert k. induction l as [|x l IH]; intros k; [done|]. cbn. destruct (f k); cbn; by rewrite IH. Qed.

Lemma count_true_seq (v : list bool) k : k = length v -> count_true v = Z.of_nat (length (List.filter (fun i => nth i v false) (seq 0 k))).
Proof.
  intros ->. unfold count_true. f_equal. induction v as [|b v IH] using rev_ind; [done|].
  rewrite length_app, Nat.add_1_r, seq_S, !filter_app, !length_app, IH. cbn [List.filter Nat.add id].
  rewrite app_nth2, Nat.sub_diag by lia. cbn [nth]. f_equal; [|by destruct b]. f_equal. apply filter_ext_in. intros i Hi%in_seq.
  by rewrite app_nth1 by lia.
Qed.

Section Accepted.
Context `{BLSCurve} (llmqs : Llmqs).

Lemma Verify_inv qc members checkSigs : Verify llmqs qc members checkSigs = true ->
  exists params, llmqs_at llmqs (llmqType qc) = Some params /\ qc_nVersion qc <> 0 /\ qc_nVersion qc <= qc_CURRENT_VERSION /\
    VerifySizes qc params = true /\ minSize params <= CountValidMembers qc /\ minSize params <= CountSigners qc /\
    IsValid (quorumPublicKey qc) = true /\ uint256_IsNull (quorumVvecHash qc) = false /\
    SigIsValid (membersSig qc) = true /\ SigIsValid (quorumSig qc) = true /\
    (forall i, (length members <= i < llmq_size params)%nat -> nth i (validMembers qc) false = false /\ nth i (signers qc) false = false) /\
    (checkSigs = true ->
       let commitmentHash := BuildCommitmentHash (u8 (llmq_type params)) (quorumHash qc) (validMembers qc) (quorumPublicKey qc) (quorumVvecHash qc) in
       VerifySecureAggregated (membersSig qc) (signer_keys qc members) commitmentHash = true /\
       VerifyInsecure (quorumSig qc) (quorumPublicKey qc) commitmentHash = true).
Proof.
  unfold Verify. destruct (Z.eqb_spec (qc_nVersion qc) 0); [done|]. destruct (Z.ltb_spec qc_CURRENT_VERSION (qc_nVersion qc)); [done|]. cbn [orb].
  destruct (llmqs_at llmqs (llmqType qc)) as [params|]; [|done]. intros E. exists params.
  repeat match type of E with (if ?b then false else _) = true => destruct b eqn:?; [discriminate E|] end.
  bool_to_prop. split_and!; try done.
  - intros i Hi. assert (existsb (fun i => nth i (validMembers qc) false || nth i (signers qc) false)
      (seq (length members) (llmq_size params - length members)) <> true) as Hex by congruence.
    destruct (nth i (validMembers qc) false) eqn:E1; [exfalso; apply Hex, existsb_seq; exists i; rewrite E1; split; [lia|done]|].
    destruct (nth i (signers qc) false) eqn:E2; [exfalso; apply Hex, existsb_seq; exists i; rewrite E1, E2; split; [lia|done]|]. done.
  - intros ->. destruct (VerifySecureAggregated _ _ _); [|done]. by split.
Qed.

(** As many keys as bits set. *)
Lemma length_signer_keys qc members size : length (signers qc) = size -> (length members <= size)%nat ->
  (forall i, (length members <= i < size)%nat -> nth i (signers qc) false = false) ->
  Z.of_nat (length (signer_keys qc members)) = CountSigners qc.
Proof.
  intros Hl Hm Hz. unfold signer_keys, CountSigners. rewrite length_map, (combine_seq_filter (fun i => nth i (signers qc) false)).
  rewrite (count_true_seq _ size) by done. replace size with (length members + (size - length members))%nat at 1 by lia.
  rewrite seq_app, filter_app, length_app.
  replace (List.filter _ (seq (0 + length members) _)) with (@nil nat); [cbn; lia|]. symmetry.
  assert (forall i, In i (seq (0 + length members) (size - length members)) -> nth i (signers qc) false = false) as Hall
    by (intros i Hi%in_seq; apply Hz; lia).
  induction (seq (0 + length members) (size - length members)) as [|i rest IH]; [done|]. cbn.
  rewrite (Hall i ltac:(by left)). apply IH. intros j Hj. apply Hall. by right.
Qed.

Lemma signer_keys_of qc members k : In k (signer_keys qc members) -> exists d, d ∈ members /\ k = pubKeyOperator (pdmnState d).
Proof.
  unfold signer_keys. intros ([d i] & <- & Hin%filter_In)%in_map_iff. exists d. split; [|done].
  destruct Hin as [Hin _]. apply in_combine_l in Hin. by apply list_elem_of_In.
Qed.

(** C24: What a verified commitment guarantees.  Over a masternode list with a sound index,
    for a commitment accepted with its signatures against the quorum the list gives:
    its type is a configured one and its bit sets have the size of the quorum; at least
    the minimum number of members are marked valid; the aggregated signature is one by as
    many operator keys as signers are marked, at least the minimum number, each of a
    different member, none banned and all confirmed; and it and the quorum's
    signature are on the hash of quorum, members and keys. *)
Theorem verified_commitment (allMns : CDeterministicMNList) (qc : CFinalCommitment) (members : list CDeterministicMN) :
  list_ok allMns -> GetAllQuorumMembers llmqs allMns (llmqType qc) (quorumHash qc) = Some members ->
  Verify llmqs qc members true = true ->
  exists params, llmqs_at llmqs (llmqType qc) = Some params /\
    length (signers qc) = llmq_size params /\ length (validMembers qc) = llmq_size params /\
    minSize params <= CountValidMembers qc /\
    minSize params <= Z.of_nat (length (signer_keys qc members)) /\
    NoDup (map proTxHash members) /\
    (forall k, In k (signer_keys qc members) -> exists d, d ∈ members /\ k = pubKeyOperator (pdmnState d) /\
       mnMap allMns !! proTxHash d = Some d /\ IsMNValid d = true /\ uint256_IsNull (confirmedHash (pdmnState d)) = false) /\
    let commitmentHash := BuildCommitmentHash (u8 (llmq_type params)) (quorumHash qc) (validMembers qc) (quorumPublicKey qc) (quorumVvecHash qc) in
    VerifySecureAggregated (membersSig qc) (signer_keys qc members) commitmentHash = true /\
    VerifyInsecure (quorumSig qc) (quorumPublicKey qc) commitmentHash = true.
Proof.
  intros Hl Hm Hv. destruct (Verify_inv qc members true Hv) as (params & Hp & _ & _ & Hs & Hvm & Hsg & _ & _ & _ & _ & Hbits & Hsig).
  unfold GetAllQuorumMembers in Hm. rewrite Hp in Hm. cbn [mbind option_bind] in Hm. injection Hm as <-.
  set (modifier := CHashWriter_GetHash _) in *. destruct (quorum_members allMns modifier Hl (llmq_size params)) as (Hlen & Hnd & Hc).
  unfold VerifySizes in Hs. apply andb_true_iff in Hs as [Hs1 Hs2]. apply Nat.eqb_eq in Hs1, Hs2.
  exists params. split_and!; [done|done|done|done| |done| |by apply Hsig].
  - rewrite (length_signer_keys qc _ (llmq_size params)); [done|done|rewrite Hlen; lia|]. intros i Hi. by apply Hbits.
  - intros k Hk. destruct (signer_keys_of _ _ _ Hk) as (d & Hd & ->). exists d. split; [done|]. split; [done|]. by apply Hc.
Qed.
End Accepted.

(** ** Samples *)

Definition sample_commitment (params : LLMQParams) (hash : list Z) (bits : list bool) : CFinalCommitment :=
  {| qc_nVersion := 1; llmqType := llmq_type params; quorumHash := hash; signers := bits; validMembers := bits;
     quorumPublicKey := sample_operator 1; quorumVvecHash := replicate 32 1;
     quorumSig := {| bls_sig := Some (replicate 96 2) |}; membersSig := {| bls_sig := Some (replicate 96 3) |} |}.
Definition sample_payload : CFinalCommitmentTxPayload :=
  {| qcTx_nVersion := 1; qcTx_nHeight := 42; commitment := sample_commitment llmq50_60 (replicate 32 9) (replicate 50 true) |}.

Lemma commitment_payload_roundtrip_witness :
  GetTxPayload (H := CFinalCommitmentTxPayload_serializable (H := any_curve)) CFinalCommitmentTxPayload
    (SetTxPayload (H := CFinalCommitmentTxPayload_serializable (H := any_curve)) sample_payload) = Some sample_payload.
Proof.
  apply (commitment_payload_roundtrip (H := any_curve) sample_payload).
  assert (forall n x, 0 <= x < 256 -> bytes_ok (replicate n x)) as Hb by (intros n x Hx; apply Forall_replicate; exact Hx).
  unfold payload_ok, commitment_ok, bits_ok, uint256_ok, is_u. cbn.
  repeat match goal with |- _ /\ _ => split end; try lia; try reflexivity; try (apply (Hb 32%nat); lia); try (apply (Hb 48%nat); lia);
    try (apply (Hb 96%nat); lia); try (right; vm_compute; lia); try (vm_compute; congruence).
Defined.

(** A quorum of two, of which one has to take part. *)
Definition llmq_pair : LLMQParams := Build_LLMQParams 7 2 1 1 24 2 10 18.
Lemma verified_commitment_witness :
  let qc := sample_commitment llmq_pair (replicate 32 9) [true; false] in
  exists members params, GetAllQuorumMembers [(7, llmq_pair)] confirmed_list 7 (replicate 32 9) = Some members /\
    llmqs_at [(7, llmq_pair)] 7 = Some params /\ minSize params <= Z.of_nat (length (signer_keys qc members)).
Proof.
  intros qc.
  assert (list_ok (H := any_curve) confirmed_list) as Hok by (unfold confirmed_list; apply try_add_ok, try_add_ok, try_add_ok, new_list_ok).
  destruct (GetAllQuorumMembers [(7, llmq_pair)] confirmed_list 7 (replicate 32 9)) as [members|] eqn:E; [|vm_compute in E; discriminate E].
  destruct (verified_commitment (H := any_curve) [(7, llmq_pair)] confirmed_list qc members Hok E) as (params & Hp & _ & _ & _ & Hk & _).
  - clear Hok. revert E. vm_compute. intros E. injection E as <-. reflexivity.
  - exists members, params. split; [reflexivity|]. split; [exact Hp|exact Hk].
Defined.
