(* ===== verification/EvoDb.v ===== *)
(** * The evolution database: layered transactions
    (src/src/dbwrapper.h, [CDBTransaction], [CScopedDBTransaction], [CDBBatch];
    src/src/evo/evodb.h/.cpp)

    Blocks are connected over a stack of two transactions: the current one belongs to one
    block and is committed into the root or rolled back; the root collects blocks and
    is committed to disk in one batch when the coins are flushed.  Class
    [KVStore] is what a transaction reads through, [KVTarget] what it commits to, each
    with its laws; the theorem: the whole behaves as three maps. *)

From S2P Require Import Prelude Transaction MasternodeList QuorumCommitment.
From stdpp Require Import gmap fin_maps fin_sets.
Local Open Scope cxx_scope.

(** ** What transactions are stacked on *)

Section Interfaces.
Context (K V : Type) `{Countable K}.

Class KVStore (S : Type) : Type := {
  kv_Read : S -> K -> option V;
  kv_Exists : S -> K -> bool;
}.
Class KVTarget (T : Type) : Type := {
  kv_Write : T -> K -> V -> T;
  kv_Erase : T -> K -> T;
}.

(** A store reads as a map. *)
Class KVStoreLaws (S : Type) `{KVStore S} : Type := {
  view : S -> gmap K V;
  Read_view s k : kv_Read s k = view s !! k;
  Exists_view s k : kv_Exists s k = bool_decide (is_Some (view s !! k));
}.
(** A target applies what is committed to the map it stands for. *)
Class KVTargetLaws (T : Type) `{KVTarget T} : Type := {
  applied : T -> gmap K V -> gmap K V;
  applied_Write t k v m : applied (kv_Write t k v) m = <[k := v]> (applied t m);
  applied_Erase t k m : applied (kv_Erase t k) m = delete k (applied t m);
}.
End Interfaces.
Arguments kv_Read {K V S _} _ _.
Arguments kv_Exists {K V S _} _ _.
Arguments kv_Write {K V T _} _ _ _.
Arguments kv_Erase {K V T _} _ _.
Arguments view {K V _ _ S _ _} _.
Arguments applied {K V _ _ T _ _} _ _.

(** ** Transactions

    The maps of the source are grouped by the type of the key; here the key type is
    one sum.  Values are stored as they are and serialized on their way to disk. *)

Section Transaction.
Context {K V : Type} `{Countable K}.

Record CDBTransaction : Type := { writes : gmap K V; deletes : gset K }.
Definition CDBTransaction_new : CDBTransaction := {| writes := ∅; deletes := ∅ |}.

Definition Write (t : CDBTransaction) (k : K) (v : V) : CDBTransaction :=
  {| writes := <[k := v]> (delete k (writes t)); deletes := deletes t ∖ {[ k ]} |}.
Definition Erase (t : CDBTransaction) (k : K) : CDBTransaction :=
  {| writes := delete k (writes t); deletes := {[ k ]} ∪ deletes t |}.
Definition Clear (t : CDBTransaction) : CDBTransaction := {| writes := ∅; deletes := ∅ |}.
Definition IsClean (t : CDBTransaction) : bool := bool_decide (writes t = ∅) && bool_decide (deletes t = ∅).

Definition Read {S} `{KVStore K V S} (t : CDBTransaction) (parent : S) (k : K) : option V :=
  if bool_decide (k ∈ deletes t) then None
  else match writes t !! k with Some v => Some v | None => kv_Read parent k end.
Definition Exists {S} `{KVStore K V S} (t : CDBTransaction) (parent : S) (k : K) : bool :=
  if bool_decide (k ∈ deletes t) then false
  else if bool_decide (is_Some (writes t !! k)) then true
  else kv_Exists parent k.

(** [Commit]: the deletes, then the writes, then [Clear]. *)
Definition Commit {T} `{KVTarget K V T} (t : CDBTransaction) (commitTarget : T) : CDBTransaction * T :=
  let commitTarget := fold_left (fun target k => kv_Erase target k) (elements (deletes t)) commitTarget in
  let commitTarget := fold_left (fun target (p : K * V) => kv_Write target (fst p) (snd p)) (map_to_list (writes t)) commitTarget in
  (Clear t, commitTarget).

(** A transaction over a parent is a store, and a target. *)
#[export] Instance transaction_target : KVTarget K V CDBTransaction := {| kv_Write := Write; kv_Erase := Erase |}.
#[export] Instance transaction_store {S} `{KVStore K V S} : KVStore K V (CDBTransaction * S) :=
  {| kv_Read s k := Read (fst s) (snd s) k; kv_Exists s k := Exists (fst s) (snd s) k |}.

(** *** Batches of LevelDB, and the map on disk *)

Inductive batch_op : Type := Put (k : K) (v : V) | Delete (k : K).
Definition CDBBatch : Type := list batch_op.
#[export] Instance batch_target : KVTarget K V CDBBatch :=
  {| kv_Write b k v := b ++ [Put k v]; kv_Erase b k := b ++ [Delete k] |}.
#[export] Instance disk_store : KVStore K V (gmap K V) :=
  {| kv_Read m k := m !! k; kv_Exists m k := bool_decide (is_Some (m !! k)) |}.

(** What [leveldb::DB::Write] does with a batch, in its order. *)
Definition batch_step (m : gmap K V) (op : batch_op) : gmap K V :=
  match op with Put k v => <[k := v]> m | Delete k => delete k m end.
Definition WriteBatch (m : gmap K V) (b : CDBBatch) : gmap K V := fold_left batch_step b m.

(** ** [CEvoDB] *)

Record CEvoDB : Type := {
  db : gmap K V;
  rootBatch : CDBBatch;
  rootDBTransaction : CDBTransaction;
  curDBTransaction : CDBTransaction;
}.
Definition CEvoDB_new (disk : gmap K V) : CEvoDB :=
  {| db := disk; rootBatch := []; rootDBTransaction := CDBTransaction_new; curDBTransaction := CDBTransaction_new |}.

Definition EvoDB_Read (e : CEvoDB) (k : K) : option V := Read (curDBTransaction e) (rootDBTransaction e, db e) k.
Definition EvoDB_Exists (e : CEvoDB) (k : K) : bool := Exists (curDBTransaction e) (rootDBTransaction e, db e) k.
Definition set_cur (e : CEvoDB) (t : CDBTransaction) : CEvoDB :=
  {| db := db e; rootBatch := rootBatch e; rootDBTransaction := rootDBTransaction e; curDBTransaction := t |}.
Definition EvoDB_Write (e : CEvoDB) (k : K) (v : V) : CEvoDB := set_cur e (Write (curDBTransaction e) k v).
Definition EvoDB_Erase (e : CEvoDB) (k : K) : CEvoDB := set_cur e (Erase (curDBTransaction e) k).

(** [BeginTransaction] asserts that nothing is pending; [Commit] and [Rollback] are those
    of the scoped transaction it returns, which rolls back when it is destroyed. *)
Definition BeginTransaction (e : CEvoDB) : option CEvoDB := if IsClean (curDBTransaction e) then Some e else None.
Definition ScopedCommit (e : CEvoDB) : CEvoDB :=
  let '(cur, root) := Commit (curDBTransaction e) (rootDBTransaction e) in
  {| db := db e; rootBatch := rootBatch e; rootDBTransaction := root; curDBTransaction := cur |}.
Definition Rollback (e : CEvoDB) : CEvoDB := set_cur e (Clear (curDBTransaction e)).

Definition CommitRootTransaction (e : CEvoDB) : option CEvoDB :=
  if IsClean (curDBTransaction e) then
    let '(root, batch) := Commit (rootDBTransaction e) (rootBatch e) in
    Some {| db := WriteBatch (db e) batch; rootBatch := []; rootDBTransaction := root; curDBTransaction := curDBTransaction e |}
  else None.

End Transaction.
Arguments CDBTransaction K V {_ _}.
Arguments CEvoDB K V {_ _}.

(** ** Laws of the layers *)

Section Laws.
Context {K V : Type} `{Countable K}.
Local Abbreviation tx := (CDBTransaction K V).

(** What a transaction makes of the map under it. *)
Definition over (t : tx) (m : gmap K V) : gmap K V := filter (fun p => p.1 ∉ deletes t) (writes t ∪ m).

Lemma lookup_over (t : tx) m k : over t m !! k =
  if decide (k ∈ deletes t) then None else match writes t !! k with Some v => Some v | None => m !! k end.
Proof.
  unfold over. case_decide as Hk.
  - apply map_lookup_filter_None. right. intros v _. cbn. tauto.
  - rewrite map_lookup_filter, lookup_union. destruct (writes t !! k), (m !! k); cbn; rewrite ?option_guard_True by done; done.
Qed.

#[export] Program Instance disk_laws : KVStoreLaws K V (gmap K V) := {| view m := m |}.
Solve Obligations with done.
#[export] Program Instance transaction_laws {S} `{HS : !KVStore K V S} `{HL : !KVStoreLaws K V S} : KVStoreLaws K V (tx * S) := {| view s := over (fst s) (view (snd s)) |}.
Next Obligation.
  intros S ?? [t p] k. cbn. unfold Read. rewrite lookup_over, (@Read_view K V _ _ S _ _). by case_bool_decide; case_decide.
Qed.
Next Obligation.
  intros S ?? [t p] k. cbn. unfold Exists. rewrite lookup_over, (@Exists_view K V _ _ S _ _). case_bool_decide; case_decide; try done.
  destruct (writes t !! k); case_bool_decide as E; done || by destruct E.
Qed.
#[export] Program Instance transaction_target_laws : KVTargetLaws K V tx := {| applied := over |}.
Next Obligation.
  intros t k v m. apply map_eq. intros j. rewrite lookup_over. cbn. destruct (decide (j = k)) as [->|Hj].
  - rewrite decide_False by set_solver. by rewrite !lookup_insert_eq.
  - rewrite !lookup_insert_ne, lookup_delete_ne, lookup_over by done. by destruct (decide (j ∈ deletes t)), (decide (j ∈ deletes t ∖ {[k]})); try set_solver.
Qed.
Next Obligation.
  intros t k m. apply map_eq. intros j. rewrite lookup_over. cbn. destruct (decide (j = k)) as [->|Hj].
  - rewrite decide_True by set_solver. by rewrite lookup_delete_eq.
  - rewrite !lookup_delete_ne, lookup_over by done. by destruct (decide (j ∈ deletes t)), (decide (j ∈ {[k]} ∪ deletes t)); try set_solver.
Qed.
#[export] Program Instance batch_laws : KVTargetLaws K V CDBBatch := {| applied b m := WriteBatch m b |}.
Next Obligation. intros. cbn. unfold WriteBatch. by rewrite fold_left_app. Qed.
Next Obligation. intros. cbn. unfold WriteBatch. by rewrite fold_left_app. Qed.

(** No key is both written and deleted. *)
Definition tx_ok (t : tx) : Prop := forall k, k ∈ deletes t -> writes t !! k = None.

Lemma Write_ok (t : tx) k v : tx_ok t -> tx_ok (Write t k v).
Proof. intros Ht j Hj. cbn in *. rewrite lookup_insert_ne by set_solver. rewrite lookup_delete_None. right. apply Ht. set_solver. Qed.
Lemma Erase_ok (t : tx) k : tx_ok t -> tx_ok (Erase t k).
Proof. intros Ht j Hj. cbn in *. rewrite lookup_delete_None. destruct (decide (k = j)); [by left|]. right. apply Ht. set_solver. Qed.
Lemma Clear_ok (t : tx) : tx_ok (Clear t).
Proof. intros j Hj. done. Qed.

Section CommitLaw.
Context {T : Type} `{HT : !KVTarget K V T} `{HL : !KVTargetLaws K V T}.

Lemma applied_erases ks target (m : gmap K V) j : applied (fold_left (fun target k => kv_Erase target k) ks target) m !! j =
  if decide (j ∈ ks) then None else applied target m !! j.
Proof.
  revert target. induction ks as [|k ks IH]; intros target; cbn [fold_left]; [done|]. rewrite IH, (@applied_Erase K V _ _ T _ _).
  destruct (decide (j ∈ ks)), (decide (j ∈ k :: ks)) as [Hin|Hin]; try done; try set_solver.
  - apply elem_of_cons in Hin as [->|]; [by rewrite lookup_delete_eq|done].
  - rewrite lookup_delete_ne; [done|]. set_solver.
Qed.

Lemma applied_writes kvs target (m : gmap K V) j : NoDup (kvs.*1) ->
  applied (fold_left (fun target (p : K * V) => kv_Write target (fst p) (snd p)) kvs target) m !! j =
  match (list_to_map kvs : gmap K V) !! j with Some v => Some v | None => applied target m !! j end.
Proof.
  revert target. induction kvs as [|[k v] kvs IH]; intros target Hnd; cbn [fold_left fst snd]; [cbn; by rewrite lookup_empty|].
  cbn in Hnd. apply NoDup_cons in Hnd as [Hk Hnd]. rewrite IH, (@applied_Write K V _ _ T _ _) by done. cbn. destruct (decide (k = j)) as [->|Hj].
  - rewrite !lookup_insert_eq. by rewrite (not_elem_of_list_to_map_1 kvs j Hk).
  - by rewrite !lookup_insert_ne by done.
Qed.

(** Committing applies the transaction to what its target stands for. *)
Lemma applied_Commit (t : tx) target m : tx_ok t -> applied (snd (Commit t target)) m = over t (applied target m).
Proof.
  intros Ht. apply map_eq. intros j. unfold Commit. cbn [snd]. rewrite applied_writes by apply NoDup_fst_map_to_list.
  rewrite list_to_map_to_list, applied_erases, lookup_over.
  destruct (decide (j ∈ deletes t)) as [Hj|Hj].
  - by rewrite (Ht j Hj), decide_True by by apply elem_of_elements.
  - rewrite (decide_False (P := j ∈ elements _)) by by rewrite elem_of_elements. done.
Qed.
End CommitLaw.

(** Committing into a transaction keeps it sound. *)
Lemma Commit_target_ok (t target : tx) : tx_ok target -> tx_ok (snd (Commit t target)).
Proof.
  intros Ht. unfold Commit. cbn [snd].
  assert (forall ks (u : tx), tx_ok u -> tx_ok (fold_left (fun target k => kv_Erase target k) ks u)) as He.
  { induction ks as [|k ks IH]; intros u Hu; [done|]. apply IH. by apply Erase_ok. }
  assert (forall kvs (u : tx), tx_ok u -> tx_ok (fold_left (fun target (p : K * V) => kv_Write target (fst p) (snd p)) kvs u)) as Hw.
  { induction kvs as [|[k v] kvs IH]; intros u Hu; [done|]. apply IH. by apply Write_ok. }
  by apply Hw, He.
Qed.
End Laws.

(** ** Three maps *)

Section Refinement.
Context {K V : Type} `{Countable K}.

(** What the code does to its database, one call at a time. *)
Inductive evo_op : Type :=
| OpWrite (k : K) (v : V) | OpErase (k : K) | OpBegin | OpScopedCommit | OpRollback | OpCommitRoot.

Definition evo_step (e : CEvoDB K V) (op : evo_op) : option (CEvoDB K V) :=
  match op with
  | OpWrite k v => Some (EvoDB_Write e k v)
  | OpErase k => Some (EvoDB_Erase e k)
  | OpBegin => BeginTransaction e
  | OpScopedCommit => Some (ScopedCommit e)
  | OpRollback => Some (Rollback e)
  | OpCommitRoot => CommitRootTransaction e
  end.

(** The specification: the map on disk, the map with every block committed so far, and
    the map the current block works on, with whether it was touched. *)
Record Maps : Type := { disk : gmap K V; base : gmap K V; work : gmap K V; touched : bool }.
Definition Maps_new (m : gmap K V) : Maps := {| disk := m; base := m; work := m; touched := false |}.
Definition maps_step (a : Maps) (op : evo_op) : option Maps :=
  match op with
  | OpWrite k v => Some {| disk := disk a; base := base a; work := <[k := v]> (work a); touched := true |}
  | OpErase k => Some {| disk := disk a; base := base a; work := delete k (work a); touched := true |}
  | OpBegin => if touched a then None else Some a
  | OpScopedCommit => Some {| disk := disk a; base := work a; work := work a; touched := false |}
  | OpRollback => Some {| disk := disk a; base := base a; work := base a; touched := false |}
  | OpCommitRoot => if touched a then None else Some {| disk := base a; base := base a; work := work a; touched := false |}
  end.

Definition run {S} (step : S -> evo_op -> option S) (s : S) (ops : list evo_op) : option S :=
  fold_left (fun s op => s ← s; step s op) ops (Some s).

(** The layers stand for the maps. *)
Record stands_for (e : CEvoDB K V) (a : Maps) : Prop := {
  sf_disk : db e = disk a;
  sf_batch : rootBatch e = [];
  sf_root_ok : tx_ok (rootDBTransaction e);
  sf_cur_ok : tx_ok (curDBTransaction e);
  sf_base : over (rootDBTransaction e) (disk a) = base a;
  sf_work : over (curDBTransaction e) (base a) = work a;
  sf_touched : IsClean (curDBTransaction e) = negb (touched a);
}.

Lemma over_new (m : gmap K V) : over (CDBTransaction_new : CDBTransaction K V) m = m.
Proof. apply map_eq. intros k. rewrite lookup_over, decide_False by set_solver. cbn. by rewrite lookup_empty. Qed.

Lemma over_clean (t : CDBTransaction K V) m : IsClean t = true -> over t m = m.
Proof.
  unfold IsClean. rewrite andb_true_iff, !bool_decide_eq_true. intros [Ew Ed]. destruct t. cbn in *. subst. apply over_new.
Qed.

Lemma Write_dirty (t : CDBTransaction K V) k v : IsClean (Write t k v) = false.
Proof. unfold IsClean. rewrite bool_decide_false; [done|]. cbn. apply insert_non_empty. Qed.
Lemma Erase_dirty (t : CDBTransaction K V) k : IsClean (Erase t k) = false.
Proof. unfold IsClean. rewrite (bool_decide_false (deletes _ = ∅)); [apply andb_false_r|]. cbn. set_solver. Qed.

Lemma stands_for_new m : stands_for (CEvoDB_new m) (Maps_new m).
Proof. split; try done; try apply over_new. Qed.

Lemma stands_for_step e a op : stands_for e a ->
  match evo_step e op, maps_step a op with
  | Some e', Some a' => stands_for e' a'
  | None, None => True
  | _, _ => False
  end.
Proof.
  intros [Hd Hb Hr Hc Hbase Hwork Ht]. destruct op as [k v|k| | | |]; cbn [evo_step maps_step].
  - split; cbn; try done; [by apply Write_ok| |by rewrite Write_dirty].
    rewrite <- Hwork. exact (@applied_Write K V _ _ (CDBTransaction K V) _ transaction_target_laws (curDBTransaction e) k v (base a)).
  - split; cbn; try done; [by apply Erase_ok| |by rewrite Erase_dirty].
    rewrite <- Hwork. exact (@applied_Erase K V _ _ (CDBTransaction K V) _ transaction_target_laws (curDBTransaction e) k (base a)).
  - unfold BeginTransaction. rewrite Ht. destruct (touched a) eqn:Et; [done|]. split; try done. by rewrite Ht, Et.
  - pose proof (applied_Commit (T := CDBTransaction K V) (curDBTransaction e) (rootDBTransaction e) (disk a) Hc) as E.
    cbn [applied transaction_target_laws] in E. unfold ScopedCommit.
    pose proof (Commit_target_ok (curDBTransaction e) (rootDBTransaction e) Hr) as Hr'.
    destruct (Commit (curDBTransaction e) (rootDBTransaction e)) as [cur root] eqn:Ec. cbn [snd] in E, Hr'.
    assert (cur = CDBTransaction_new) as -> by (by injection Ec as <- _).
    split; cbn; try done; [|by rewrite over_new]. by rewrite E, Hbase.
  - split; cbn; try done. apply over_new.
  - unfold CommitRootTransaction. rewrite Ht. destruct (touched a); cbn [negb]; [done|].
    pose proof (applied_Commit (T := CDBBatch) (rootDBTransaction e) (rootBatch e) (disk a) Hr) as E.
    destruct (Commit (rootDBTransaction e) (rootBatch e)) as [root batch] eqn:Ec. cbn [snd applied batch_laws] in E.
    assert (root = CDBTransaction_new) as -> by (by injection Ec as <- _).
    split; cbn; try done; [|apply over_new]. rewrite Hd, E, Hb. cbn. by rewrite Hbase.
Qed.

Lemma stands_for_run ops e a : stands_for e a ->
  match run evo_step e ops, run maps_step a ops with
  | Some e', Some a' => stands_for e' a'
  | None, None => True
  | _, _ => False
  end.
Proof.
  unfold run. intros Hs.
  assert (forall A (f : A -> evo_op -> option A) l, fold_left (fun s op => s ← s; f s op) l None = None) as Hnone
    by (intros A f l; induction l as [|op l IHl]; [reflexivity|exact IHl]).
  revert e a Hs. induction ops as [|op ops IH]; intros e a Hs; [done|]. cbn [fold_left mbind option_bind].
  pose proof (stands_for_step e a op Hs) as Hstep. destruct (evo_step e op) as [e'|], (maps_step a op) as [a'|]; try done; [exact (IH e' a' Hstep)|].
  by rewrite (Hnone _ evo_step ops), (Hnone _ maps_step ops).
Qed.

Lemma stands_for_Read e a k : stands_for e a -> EvoDB_Read e k = work a !! k /\ EvoDB_Exists e k = bool_decide (is_Some (work a !! k)).
Proof.
  intros [Hd _ _ _ Hbase Hwork _].
  pose proof (@Read_view K V _ _ (CDBTransaction K V * (CDBTransaction K V * gmap K V)) _ _ (curDBTransaction e, (rootDBTransaction e, db e)) k) as Er.
  pose proof (@Exists_view K V _ _ (CDBTransaction K V * (CDBTransaction K V * gmap K V)) _ _ (curDBTransaction e, (rootDBTransaction e, db e)) k) as Ee.
  cbn [view transaction_laws disk_laws fst snd] in Er, Ee. 
  assert (over (curDBTransaction e) (over (rootDBTransaction e) (db e)) = work a) as Hv by (rewrite Hd, Hbase; exact Hwork).
  rewrite Hv in Er, Ee. split; [exact Er|exact Ee].
Qed.

(** C23: The evolution database.  Whatever is written, erased, begun, committed and rolled
    back, in whatever order: the layered transactions over the disk assert exactly when
    the three maps of the specification do, and otherwise read like the working map
    (which a rollback sets back to the last committed one and a scoped commit makes the
    committed one), and the disk changes only by a root commit, to all that was
    committed by then. *)
Theorem evodb_refines_maps (m : gmap K V) (ops : list evo_op) :
  match run evo_step (CEvoDB_new m) ops, run maps_step (Maps_new m) ops with
  | Some e, Some a => db e = disk a /\ forall k, EvoDB_Read e k = work a !! k /\ EvoDB_Exists e k = bool_decide (is_Some (work a !! k))
  | None, None => True
  | _, _ => False
  end.
Proof.
  pose proof (stands_for_run ops _ _ (stands_for_new m)) as Hr.
  destruct (run evo_step _ ops), (run maps_step _ ops); try done. split; [apply Hr|]. intros k. by apply stands_for_Read.
Qed.
End Refinement.

(** ** What this node stores

    Keys are pairs of a tag and a hash; a key's tag determines the type of its value,
    and reading with another type finds nothing. *)

Inductive evo_key : Type :=
| DB_LIST_SNAPSHOT (blockHash : list Z)
| DB_LIST_DIFF (blockHash : list Z)
| DB_MINED_COMMITMENT (llmqType : Z) (quorumHash : list Z)
| EVODB_BEST_BLOCK.
#[export] Instance evo_key_eq_dec : EqDecision evo_key.
Proof. solve_decision. Defined.
#[export] Instance evo_key_countable : Countable evo_key.
Proof.
  refine (inj_countable' (fun k => match k with
    | DB_LIST_SNAPSHOT h => (0%nat, 0%Z, h) | DB_LIST_DIFF h => (1%nat, 0%Z, h) | DB_MINED_COMMITMENT t h => (2%nat, t, h) | EVODB_BEST_BLOCK => (3%nat, 0%Z, [])
    end) (fun x : nat * Z * list Z => match x with
    | (0%nat, _, h) => DB_LIST_SNAPSHOT h | (1%nat, _, h) => DB_LIST_DIFF h | (2%nat, t, h) => DB_MINED_COMMITMENT t h | _ => EVODB_BEST_BLOCK
    end) _). by intros [].
Defined.

Inductive evo_value : Type :=
| VList (l : CDeterministicMNList)
| VDiff (d : CDeterministicMNListDiff)
| VCommitment (qc : CFinalCommitment)
| VHash (h : list Z).

Definition EvoStore : Type := CEvoDB evo_key evo_value.

Definition ReadSnapshot (e : EvoStore) (blockHash : list Z) : option CDeterministicMNList :=
  match EvoDB_Read e (DB_LIST_SNAPSHOT blockHash) with Some (VList l) => Some l | _ => None end.
Definition ReadDiff (e : EvoStore) (blockHash : list Z) : option CDeterministicMNListDiff :=
  match EvoDB_Read e (DB_LIST_DIFF blockHash) with Some (VDiff d) => Some d | _ => None end.

(** A write or an erasure shows at its key and nowhere else. *)
Lemma EvoDB_Read_Write (e : EvoStore) k v j : EvoDB_Read (EvoDB_Write e k v) j = if decide (j = k) then Some v else EvoDB_Read e j.
Proof.
  unfold EvoDB_Read, EvoDB_Write, Read. cbn. destruct (decide (j = k)) as [->|Hj].
  - rewrite bool_decide_false by set_solver. by rewrite lookup_insert_eq.
  - rewrite lookup_insert_ne, lookup_delete_ne by done.
    by rewrite (bool_decide_ext (j ∈ deletes (curDBTransaction e) ∖ {[k]}) (j ∈ deletes (curDBTransaction e))) by set_solver.
Qed.
Lemma EvoDB_Read_Erase (e : EvoStore) k j : EvoDB_Read (EvoDB_Erase e k) j = if decide (j = k) then None else EvoDB_Read e j.
Proof.
  unfold EvoDB_Read, EvoDB_Erase, Read. cbn. destruct (decide (j = k)) as [->|Hj].
  - by rewrite bool_decide_true by set_solver.
  - rewrite lookup_delete_ne by done.
    by rewrite (bool_decide_ext (j ∈ {[k]} ∪ deletes (curDBTransaction e)) (j ∈ deletes (curDBTransaction e))) by set_solver.
Qed.

(** [VerifyBestBlock] asserts that the database and the caller agree. *)
Definition VerifyBestBlock (e : EvoStore) (hash : list Z) : option bool :=
  match EvoDB_Read e EVODB_BEST_BLOCK with
  | Some (VHash hashBestBlock) => if bool_decide (hashBestBlock = hash) then Some true else None
  | _ => Some false
  end.
Definition WriteBestBlock (e : EvoStore) (hash : list Z) : EvoStore := EvoDB_Write e EVODB_BEST_BLOCK (VHash hash).
