(* ===== verification/Compressor.v ===== *)
(** * Compressed outputs (src/src/compressor.cpp, src/src/compressor.h)

    The UTXO database stores amounts and output scripts in compressed form.
    Point decompression and key validation are libsecp256k1's: they are
    parameters here, with the one fact about them the round trip needs. *)

From S2P Require Import Prelude Bytes Serialize Script Amount.
Local Open Scope cxx_scope.

(** ** Amounts *)

(** [while (((n % 10) == 0) && e < 9)] *)
Fixpoint strip_zeros (fuel : nat) (n e : Z) : Z * Z :=
  match fuel with
  | O => (n, e)
  | S fuel => if (n mod 10 =? 0) && (e <? 9) then strip_zeros fuel (n / 10) (e + 1) else (n, e)
  end.

Definition CompressAmount (n : Z) : Z :=
  if n =? 0 then 0
  else
    let '(n, e) := strip_zeros 9 n 0 in
    if e <? 9 then
      let d := n mod 10 in
      let n := n / 10 in
      u64 (1 + (n * 9 + d - 1) * 10 + e)
    else u64 (1 + (n - 1) * 10 + 9).

(** [while (e) { n *= 10; e--; }] *)
Fixpoint scale (e : nat) (n : Z) : Z :=
  match e with
  | O => n
  | S e => scale e (u64 (n * 10))
  end.

Definition DecompressAmount (x : Z) : Z :=
  if x =? 0 then 0
  else
    let x := x - 1 in
    let e := x mod 10 in
    let x := x / 10 in
    let n :=
      if e <? 9 then
        let d := x mod 9 + 1 in
        let x := x / 9 in
        u64 (x * 10 + d)
      else u64 (x + 1) in
    scale (Z.to_nat e) n.

Lemma scale_spec e n : 0 <= n -> n * 10 ^ Z.of_nat e < 2 ^ 64 -> scale e n = n * 10 ^ Z.of_nat e.
Proof.
  revert n. induction e as [|e IH]; intros n Hn Hlt; [cbn; lia|].
  cbn [scale]. rewrite Nat2Z.inj_succ, Z.pow_succ_r in * by lia.
  pose proof (Z.pow_pos_nonneg 10 (Z.of_nat e) ltac:(lia) ltac:(lia)).
  rewrite u64_id by (unfold is_u; nia). rewrite IH; nia.
Qed.

Lemma strip_zeros_spec fuel n e :
  0 < n -> 0 <= e -> (e + Z.of_nat fuel = 9) ->
  let '(m, e') := strip_zeros fuel n e in
  0 < m /\ e <= e' <= 9 /\ n = m * 10 ^ (e' - e) /\ (e' < 9 -> m mod 10 <> 0).
Proof.
  revert n e. induction fuel as [|fuel IH]; intros n e Hn He Hf; cbn [strip_zeros].
  - rewrite Z.sub_diag. split_and!; lia.
  - destruct (Z.eqb_spec (n mod 10) 0) as [E|E]; cbn [andb].
    + rewrite (proj2 (Z.ltb_lt e 9)) by lia. specialize (IH (n / 10) (e + 1) ltac:(dlia) ltac:(lia) ltac:(lia)).
      destruct (strip_zeros fuel (n / 10) (e + 1)) as [m e']. destruct IH as (H1 & H2 & H3 & H4).
      split_and!; try lia; try done. replace (e' - e) with (Z.succ (e' - (e + 1))) by lia.
      rewrite Z.pow_succ_r by lia. dlia.
    + rewrite Z.sub_diag. split_and!; lia.
Qed.

(** The largest amount whose code still fits 64 bits is above any amount of money. *)
Lemma Decompress_Compress n : 0 <= n < 2 ^ 60 -> DecompressAmount (CompressAmount n) = n.
Proof.
  intros Hn. unfold CompressAmount. destruct (Z.eqb_spec n 0) as [->|H0]; [done|].
  pose proof (strip_zeros_spec 9 n 0 ltac:(lia) ltac:(lia) ltac:(lia)) as Hs.
  destruct (strip_zeros 9 n 0) as [m e]. destruct Hs as (Hm & He & Hnm & Hd). rewrite Z.sub_0_r in Hnm.
  pose proof (Z.pow_pos_nonneg 10 e ltac:(lia) ltac:(lia)). assert (m <= n) by nia.
  destruct (Z.ltb_spec e 9) as [Hlt|Hge].
  - specialize (Hd Hlt). rewrite u64_id by (unfold is_u; dlia). unfold DecompressAmount.
    rewrite (proj2 (Z.eqb_neq _ 0)) by dlia.
    replace (1 + (m / 10 * 9 + m mod 10 - 1) * 10 + e - 1) with ((m / 10 * 9 + m mod 10 - 1) * 10 + e) by lia.
    assert (((m / 10 * 9 + m mod 10 - 1) * 10 + e) mod 10 = e) as -> by dlia.
    assert (((m / 10 * 9 + m mod 10 - 1) * 10 + e) / 10 = m / 10 * 9 + m mod 10 - 1) as -> by dlia.
    rewrite (proj2 (Z.ltb_lt e 9)) by done.
    assert ((m / 10 * 9 + m mod 10 - 1) mod 9 = m mod 10 - 1) as -> by dlia.
    assert ((m / 10 * 9 + m mod 10 - 1) / 9 = m / 10) as -> by dlia.
    replace (m / 10 * 10 + (m mod 10 - 1 + 1)) with m by dlia. rewrite u64_id by (unfold is_u; lia).
    rewrite scale_spec; rewrite ?Z2Nat.id by lia; lia.
  - assert (e = 9) as -> by lia. rewrite u64_id by (unfold is_u; lia). unfold DecompressAmount.
    rewrite (proj2 (Z.eqb_neq _ 0)) by lia.
    assert ((1 + (m - 1) * 10 + 9 - 1) mod 10 = 9) as -> by dlia.
    assert ((1 + (m - 1) * 10 + 9 - 1) / 10 = m - 1) as -> by dlia. cbn [Z.ltb Z.compare Pos.compare Pos.compare_cont].
    rewrite u64_id by (unfold is_u; lia). rewrite scale_spec; change (Z.of_nat (Z.to_nat 9)) with 9; lia.
Qed.

Lemma CompressAmount_range n : is_u 64 (CompressAmount n).
Proof.
  unfold CompressAmount. destruct (n =? 0); [unfold is_u; lia|]. destruct (strip_zeros 9 n 0) as [m e].
  destruct (e <? 9); apply u64_range.
Qed.

(** The value of a code, without wrap-around. *)
Definition amount_of_code (x : Z) : Z :=
  if x =? 0 then 0
  else
    let e := (x - 1) mod 10 in let y := (x - 1) / 10 in
    (if e <? 9 then y / 9 * 10 + (y mod 9 + 1) else y + 1) * 10 ^ e.

Lemma strip_zeros_exact fuel m e k :
  0 < m -> 0 <= e -> 0 <= k -> e + k <= 9 -> e + Z.of_nat fuel = 9 -> (e + k < 9 -> m mod 10 <> 0) ->
  strip_zeros fuel (m * 10 ^ k) e = (m, e + k).
Proof.
  revert e k. induction fuel as [|fuel IH]; intros e k Hm He Hk Hek Hf Hd; cbn [strip_zeros].
  - assert (k = 0) as -> by lia. rewrite Z.pow_0_r, Z.mul_1_r. f_equal. lia.
  - destruct (Z.eq_dec k 0) as [->|Hk0].
    + rewrite Z.pow_0_r, Z.mul_1_r, (proj2 (Z.eqb_neq _ 0)) by (apply Hd; lia). cbn [andb]. f_equal. lia.
    + assert (m * 10 ^ k = m * 10 ^ (k - 1) * 10) as ->.
      { replace k with (Z.succ (k - 1)) at 1 by lia. rewrite Z.pow_succ_r by lia. lia. }
      rewrite Z.mod_mul, Z.div_mul by lia. rewrite (proj2 (Z.ltb_lt e 9)) by lia. cbn [Z.eqb andb].
      rewrite IH by (lia || (intros; apply Hd; lia)). f_equal. lia.
Qed.

Lemma Compress_Decompress x :
  0 <= x < 2 ^ 64 -> amount_of_code x < 2 ^ 64 ->
  DecompressAmount x = amount_of_code x /\ CompressAmount (amount_of_code x) = x.
Proof.
  intros Hx Ha. unfold DecompressAmount. unfold amount_of_code in *. destruct (Z.eqb_spec x 0) as [->|H0]; [done|].
  set (e := (x - 1) mod 10) in *. set (y := (x - 1) / 10) in *.
  assert (x = 1 + y * 10 + e) as Hxye by (unfold e, y; dlia).
  assert (0 <= e < 10) as He by (apply Z.mod_pos_bound; lia). assert (0 <= y) as Hy by (apply Z.div_pos; lia).
  set (m := if e <? 9 then y / 9 * 10 + (y mod 9 + 1) else y + 1) in *. cbv zeta in *.
  assert (0 < m) as Hm by (unfold m; destruct (e <? 9); dlia).
  pose proof (Z.pow_pos_nonneg 10 e ltac:(lia) ltac:(lia)) as Hpow. assert (m < 2 ^ 64) as Hm64 by nia.
  split.
  - assert ((if e <? 9 then u64 (y / 9 * 10 + (y mod 9 + 1)) else u64 (y + 1)) = m) as ->.
    { unfold m in *. destruct (e <? 9); rewrite u64_id; (done || unfold is_u; lia). }
    rewrite scale_spec; rewrite ?Z2Nat.id by lia; lia.
  - unfold CompressAmount. rewrite (proj2 (Z.eqb_neq _ 0)) by nia.
    rewrite (strip_zeros_exact 9 m 0 e) by (lia || (intros; unfold m; rewrite (proj2 (Z.ltb_lt _ _)) by lia; dlia)).
    rewrite Z.add_0_l. unfold m. destruct (Z.ltb_spec e 9).
    + replace ((y / 9 * 10 + (y mod 9 + 1)) / 10) with (y / 9) by dlia.
      replace ((y / 9 * 10 + (y mod 9 + 1)) mod 10) with (y mod 9 + 1) by dlia.
      replace (1 + (y / 9 * 9 + (y mod 9 + 1) - 1) * 10 + e) with x by (clear -Hxye; dlia). by apply u64_id.
    + replace (1 + (y + 1 - 1) * 10 + 9) with x by lia. by apply u64_id.
Qed.

(** Amount compression loses nothing.  Every amount of money comes back from
    its code, and every 64-bit code whose amount fits 64 bits is the code of the
    amount it expands to, so the compressed form is a one-to-one numbering. *)
Theorem amount_compression (n x : Z) :
  MoneyRange n = true -> is_u 64 x -> amount_of_code x < 2 ^ 64 ->
  DecompressAmount (CompressAmount n) = n /\ CompressAmount (DecompressAmount x) = x.
Proof.
  intros Hm Hx Ha. unfold MoneyRange, MAX_MONEY, COIN in Hm. bool_to_prop. split; [apply Decompress_Compress; lia|].
  destruct (Compress_Decompress x Hx Ha) as [-> ->]. done.
Qed.

Lemma amount_compression_witness :
  DecompressAmount (CompressAmount 5000000000) = 5000000000 /\ CompressAmount (DecompressAmount 50) = 50.
Proof. apply (amount_compression 5000000000 50); [reflexivity|unfold is_u; lia|vm_compute; reflexivity]. Defined.

(** ** Scripts *)

Inductive compress_error : Type :=
| StreamError (e : ser_error)
| AssertionFailed.

Definition nSpecialScripts : Z := 6.

Section ScriptCompressor.
(** [CPubKey::IsFullyValid] and [CPubKey::Decompress]: libsecp256k1. *)
Context (IsFullyValid : list Z -> bool) (pubkey_Decompress : list Z -> option (list Z)).

Definition IsToKeyID (script : list Z) : option (list Z) :=
  if (length script =? 25)%nat && (aget script 0 =? opcode_value OP_DUP) &&
     (aget script 1 =? opcode_value OP_HASH160) && (aget script 2 =? 20) &&
     (aget script 23 =? opcode_value OP_EQUALVERIFY) && (aget script 24 =? opcode_value OP_CHECKSIG)
  then Some (take 20 (drop 3 script)) else None.

Definition IsToScriptID (script : list Z) : option (list Z) :=
  if (length script =? 23)%nat && (aget script 0 =? opcode_value OP_HASH160) &&
     (aget script 1 =? 20) && (aget script 22 =? opcode_value OP_EQUAL)
  then Some (take 20 (drop 2 script)) else None.

Definition IsToPubKey (script : list Z) : option (list Z) :=
  if (length script =? 35)%nat && (aget script 0 =? 33) && (aget script 34 =? opcode_value OP_CHECKSIG) &&
     ((aget script 1 =? 0x02) || (aget script 1 =? 0x03))
  then Some (take 33 (drop 1 script))
  else if (length script =? 67)%nat && (aget script 0 =? 65) && (aget script 66 =? opcode_value OP_CHECKSIG) &&
          (aget script 1 =? 0x04)
  then let pubkey := take 65 (drop 1 script) in if IsFullyValid pubkey then Some pubkey else None
  else None.

Definition Compress (script : list Z) : option (list Z) :=
  match IsToKeyID script with
  | Some keyID => Some (0x00 :: keyID)
  | None =>
  match IsToScriptID script with
  | Some scriptID => Some (0x01 :: scriptID)
  | None =>
  match IsToPubKey script with
  | Some pubkey =>
      if (aget pubkey 0 =? 0x02) || (aget pubkey 0 =? 0x03) then
        Some (aget pubkey 0 :: take 32 (drop 1 pubkey))
      else if aget pubkey 0 =? 0x04 then
        Some ((0x04 .| (aget pubkey 64 .& 0x01)) :: take 32 (drop 1 pubkey))
      else None
  | None => None
  end end end.

Definition GetSpecialSize (nSize : Z) : nat :=
  if (nSize =? 0) || (nSize =? 1) then 20
  else if (nSize =? 2) || (nSize =? 3) || (nSize =? 4) || (nSize =? 5) then 32
  else 0.

(** The new script and the return value; [script] is the script before. *)
Definition Decompress (script : list Z) (nSize : Z) (inp : list Z) : result compress_error (list Z * bool) :=
  if nSize =? 0x00 then
    Ok ([opcode_value OP_DUP; opcode_value OP_HASH160; 20] ++ take 20 inp ++
        [opcode_value OP_EQUALVERIFY; opcode_value OP_CHECKSIG], true)
  else if nSize =? 0x01 then
    Ok ([opcode_value OP_HASH160; 20] ++ take 20 inp ++ [opcode_value OP_EQUAL], true)
  else if (nSize =? 0x02) || (nSize =? 0x03) then
    Ok ([33; nSize] ++ take 32 inp ++ [opcode_value OP_CHECKSIG], true)
  else if (nSize =? 0x04) || (nSize =? 0x05) then
    match pubkey_Decompress ((nSize - 2) :: take 32 inp) with
    | None => Ok (script, false)
    | Some pubkey =>
        if (length pubkey =? 65)%nat
        then Ok ([65] ++ pubkey ++ [opcode_value OP_CHECKSIG], true)
        else Throw AssertionFailed
    end
  else Ok (script, false).

(** [CScriptCompressor::Serialize]; [None] if the size did not fit its buffer. *)
Definition CScriptCompressor_Serialize (script : list Z) : option (list Z) :=
  match Compress script with
  | Some compr => Some compr
  | None =>
      let nSize := u32 (Z.of_nat (length script) + nSpecialScripts) in
      option_map (fun v => v ++ script) (WriteVarInt 32 nSize)
  end.

Definition lift_ser {A} (r : result ser_error A) : result compress_error A :=
  match r with Ok a => Ok a | Throw e => Throw (StreamError e) end.

(** [CScriptCompressor::Unserialize] into an object holding [script]. *)
Definition CScriptCompressor_Unserialize (script s : list Z) : result compress_error (list Z * list Z) :=
  let! r := lift_ser (ReadVarInt 32 s) in
  let '(nSize, s) := r in
  if nSize <? nSpecialScripts then
    let! r := lift_ser (read_bytes (GetSpecialSize nSize) s) in
    let '(vch, s) := r in
    let! d := Decompress script nSize vch in
    Ok (fst d, s)
  else
    let nSize := nSize - nSpecialScripts in
    if MAX_SCRIPT_SIZE <? nSize then
      let! r := lift_ser (read_bytes (Z.to_nat nSize) s) in
      Ok (push_op script OP_RETURN, snd r)
    else
      lift_ser (read_bytes (Z.to_nat nSize) s).

(** [CTxOutCompressor]: the amount, then the script. *)
Definition CTxOutCompressor_Serialize (nValue : Z) (scriptPubKey : list Z) : option (list Z) :=
  match WriteVarInt 64 (CompressAmount nValue), CScriptCompressor_Serialize scriptPubKey with
  | Some v, Some c => Some (v ++ c)
  | _, _ => None
  end.

Definition CTxOutCompressor_Unserialize (script s : list Z) : result compress_error (Z * list Z * list Z) :=
  let! r := lift_ser (ReadVarInt 64 s) in
  let '(nVal, s) := r in
  let nValue := DecompressAmount nVal in
  let! r := CScriptCompressor_Unserialize script s in
  Ok (nValue, fst r, snd r).

(** ** Round trip *)

(** What decompression does to a key that passes the validity test: it restores
    the [y] coordinate from its parity. *)
Hypothesis Decompress_valid : forall x y,
  length x = 32%nat -> length y = 32%nat -> IsFullyValid (0x04 :: x ++ y) = true ->
  pubkey_Decompress ((2 + (aget y 31 .& 1)) :: x) = Some (0x04 :: x ++ y).

(** A list cut into a prefix, a middle part and a suffix of known lengths. *)
Lemma cut3 (l : list Z) a b c :
  length l = (a + b + c)%nat -> l = take a l ++ take b (drop a l) ++ drop (a + b) l.
Proof. intros Hl. rewrite <- drop_drop, !take_drop. done. Qed.


Lemma list1 (l : list Z) : length l = 1%nat -> l = [aget l 0].
Proof. destruct l as [|a [|]]; done. Qed.
Lemma list2 (l : list Z) : length l = 2%nat -> l = [aget l 0; aget l 1].
Proof. destruct l as [|a [|b [|]]]; done. Qed.
Lemma list3 (l : list Z) : length l = 3%nat -> l = [aget l 0; aget l 1; aget l 2].
Proof. destruct l as [|a [|b [|c [|]]]]; done. Qed.

Lemma aget_take n i l : (i < n)%nat -> aget (take n l) i = aget l i.
Proof. intros. rewrite !aget_default. by rewrite lookup_take_lt. Qed.
Lemma aget_drop n i l : aget (drop n l) i = aget l (n + i).
Proof. rewrite !aget_default. by rewrite lookup_drop. Qed.

Lemma IsToKeyID_shape script h :
  IsToKeyID script = Some h ->
  length h = 20%nat /\
  script = [opcode_value OP_DUP; opcode_value OP_HASH160; 20] ++ h ++ [opcode_value OP_EQUALVERIFY; opcode_value OP_CHECKSIG].
Proof.
  unfold IsToKeyID. case_if; [|done]. intros [= <-]. bool_to_prop.
  match goal with H : (_ =? _)%nat = true |- _ => apply Nat.eqb_eq in H as Hlen end.
  split; [rewrite length_take, length_drop; lia|]. rewrite (cut3 script 3 20 2) at 1 by lia.
  rewrite (list3 (take 3 script)), (list2 (drop (3 + 20) script)) by (rewrite ?length_take, ?length_drop; lia).
  rewrite !aget_take, !aget_drop by lia. cbn [Nat.add]. congruence.
Qed.

Lemma IsToScriptID_shape script h :
  IsToScriptID script = Some h ->
  length h = 20%nat /\ script = [opcode_value OP_HASH160; 20] ++ h ++ [opcode_value OP_EQUAL].
Proof.
  unfold IsToScriptID. case_if; [|done]. intros [= <-]. bool_to_prop.
  match goal with H : (_ =? _)%nat = true |- _ => apply Nat.eqb_eq in H as Hlen end.
  split; [rewrite length_take, length_drop; lia|]. rewrite (cut3 script 2 20 1) at 1 by lia.
  rewrite (list2 (take 2 script)), (list1 (drop (2 + 20) script)) by (rewrite ?length_take, ?length_drop; lia).
  rewrite !aget_take, !aget_drop by lia. cbn [Nat.add]. congruence.
Qed.

Lemma IsToPubKey_shape script pk :
  IsToPubKey script = Some pk ->
  (exists x, length x = 32%nat /\ (aget pk 0 = 2 \/ aget pk 0 = 3) /\ pk = aget pk 0 :: x /\
     script = [33; aget pk 0] ++ x ++ [opcode_value OP_CHECKSIG]) \/
  (exists x y, length x = 32%nat /\ length y = 32%nat /\ pk = 0x04 :: x ++ y /\ IsFullyValid pk = true /\
     script = [65] ++ pk ++ [opcode_value OP_CHECKSIG]).
Proof.
  unfold IsToPubKey. case_if.
  - intros [= <-]. bool_to_prop. left.
    match goal with H : (_ =? _)%nat = true |- _ => apply Nat.eqb_eq in H as Hlen end.
    rewrite aget_take, aget_drop by lia. cbn [Nat.add]. exists (take 32 (drop 2 script)).
    assert (aget script 1 = 2 \/ aget script 1 = 3) as Hh by (destruct H1; bool_to_prop; lia).
    split; [rewrite length_take, length_drop; lia|]. split; [done|]. split.
    + destruct script as [|a [|b r]]; done.
    + rewrite (cut3 script 2 32 1) at 1 by lia.
      rewrite (list2 (take 2 script)), (list1 (drop (2 + 32) script)) by (rewrite ?length_take, ?length_drop; lia).
      rewrite !aget_take, !aget_drop by lia. cbn [Nat.add]. congruence.
  - case_if; [|done]. case_if; [|done]. intros [= <-]. bool_to_prop. right.
    match goal with H : (_ =? _)%nat = true |- _ => apply Nat.eqb_eq in H as Hlen end.
    exists (take 32 (drop 2 script)), (take 32 (drop 34 script)).
    split; [rewrite length_take, length_drop; lia|]. split; [rewrite length_take, length_drop; lia|].
    assert (take 65 (drop 1 script) = 0x04 :: take 32 (drop 2 script) ++ take 32 (drop 34 script)) as Hpk.
    { destruct script as [|a [|b r]]; [done|done|]. unfold aget in *. cbn [nth drop skipn take firstn] in *. subst b. f_equal.
      change 64%nat with (32 + 32)%nat. by rewrite <- take_take_drop. }
    split; [done|]. split; [done|]. rewrite (cut3 script 1 65 1) at 1 by lia.
    rewrite (list1 (take 1 script)), (list1 (drop (1 + 65) script)) by (rewrite ?length_take, ?length_drop; lia).
    rewrite !aget_take, !aget_drop by lia. cbn [Nat.add]. congruence.
Qed.

(** A code below [nSpecialScripts] is one byte. *)
Lemma ReadVarInt_special n s : 0 <= n < 6 -> ReadVarInt 32 (n :: s) = Ok (n, s).
Proof.
  intros Hn. assert (n = 0 \/ n = 1 \/ n = 2 \/ n = 3 \/ n = 4 \/ n = 5) as H by lia.
  by destruct H as [->|[->|[->|[->|[->| ->]]]]].
Qed.

Lemma Unserialize_special script0 n vch rest out :
  0 <= n < 6 -> length vch = GetSpecialSize n -> Decompress script0 n vch = Ok (out, true) ->
  CScriptCompressor_Unserialize script0 ((n :: vch) ++ rest) = Ok (out, rest).
Proof.
  intros Hn Hl HD. unfold CScriptCompressor_Unserialize, nSpecialScripts. cbn [app].
  rewrite ReadVarInt_special by done. cbn [lift_ser rbind]. rewrite (proj2 (Z.ltb_lt n 6)) by lia.
  rewrite read_bytes_app by done. cbn [lift_ser rbind]. by rewrite HD.
Qed.

Lemma Compress_length script out : Compress script = Some out -> (length script <= 67)%nat.
Proof.
  unfold Compress. destruct (IsToKeyID script) as [h|] eqn:E1.
  { apply IsToKeyID_shape in E1 as [Hh ->]. intros _. rewrite !length_app. cbn [length]. lia. }
  destruct (IsToScriptID script) as [h|] eqn:E2.
  { apply IsToScriptID_shape in E2 as [Hh ->]. intros _. rewrite !length_app. cbn [length]. lia. }
  destruct (IsToPubKey script) as [pk|] eqn:E3; [|done]. intros _.
  apply IsToPubKey_shape in E3 as [(x & Hx & _ & _ & ->)|(x & y & Hx & Hy & -> & _ & ->)].
  - rewrite !length_app. cbn [length]. lia.
  - rewrite !length_app. cbn [length]. rewrite length_app. lia.
Qed.

Lemma land_1_parity b : b .& 0x01 = b mod 2.
Proof. by apply (land_mask 1). Qed.

Lemma Compress_Unserialize script out script0 rest :
  Compress script = Some out -> CScriptCompressor_Unserialize script0 (out ++ rest) = Ok (script, rest).
Proof.
  unfold Compress. destruct (IsToKeyID script) as [h|] eqn:E1.
  { intros [= <-]. apply IsToKeyID_shape in E1 as [Hh ->]. apply Unserialize_special; [lia|done|].
    unfold Decompress. cbn [Z.eqb]. by rewrite take_ge by lia. }
  destruct (IsToScriptID script) as [h|] eqn:E2.
  { intros [= <-]. apply IsToScriptID_shape in E2 as [Hh ->]. apply Unserialize_special; [lia|done|].
    unfold Decompress. cbn [Z.eqb]. by rewrite take_ge by lia. }
  destruct (IsToPubKey script) as [pk|] eqn:E3; [|done].
  apply IsToPubKey_shape in E3 as [(x & Hx & Hpk & Epk & ->)|(x & y & Hx & Hy & -> & Hval & ->)].
  - remember (aget pk 0) as p eqn:Ep. clear Ep. subst pk. cbn [drop skipn].
    assert ((p =? 2) || (p =? 3) = true) as -> by (destruct Hpk as [-> | ->]; done).
    intros [= <-]. rewrite drop_0, take_ge by lia. apply Unserialize_special; [lia| |].
    + by destruct Hpk as [-> | ->].
    + unfold Decompress. destruct Hpk as [-> | ->]; cbn [Z.eqb Pos.eqb orb]; by rewrite take_ge by lia.
  - rewrite aget_cons_0. change ((0x04 =? 0x02) || (0x04 =? 0x03)) with false.
    change (0x04 =? 0x04) with true. cbn [drop skipn]. rewrite drop_0, take_app_length' by done.
    assert (aget (0x04 :: x ++ y) 64 = aget y 31) as ->.
    { unfold aget. cbn [nth]. rewrite app_nth2 by lia. f_equal. lia. }
    intros [= <-]. pose proof (Decompress_valid x y Hx Hy Hval) as HD. rewrite land_1_parity in HD |- *.
    assert (aget y 31 mod 2 = 0 \/ aget y 31 mod 2 = 1) as [Hp|Hp] by dlia; rewrite Hp in HD |- *.
    + change (0x04 .| 0) with 4. apply Unserialize_special; [lia|done|]. unfold Decompress. cbn [Z.eqb Pos.eqb orb].
      rewrite take_ge by lia. change (4 - 2) with (2 + 0). rewrite HD.
      rewrite (proj2 (Nat.eqb_eq _ _)) by (cbn [length]; rewrite length_app; lia). done.
    + change (0x04 .| 1) with 5. apply Unserialize_special; [lia|done|]. unfold Decompress. cbn [Z.eqb Pos.eqb orb].
      rewrite take_ge by lia. change (5 - 2) with (2 + 1). rewrite HD.
      rewrite (proj2 (Nat.eqb_eq _ _)) by (cbn [length]; rewrite length_app; lia). done.
Qed.

Lemma CScriptCompressor_roundtrip script script0 rest :
  Z.of_nat (length script) + 6 < 2 ^ 32 ->
  exists enc, CScriptCompressor_Serialize script = Some enc /\
  CScriptCompressor_Unserialize script0 (enc ++ rest) =
    Ok (if (MAX_SCRIPT_SIZE <? Z.of_nat (length script)) then push_op script0 OP_RETURN else script, rest).
Proof.
  intros Hl. unfold CScriptCompressor_Serialize. destruct (Compress script) as [out|] eqn:E.
  - exists out. split; [done|]. rewrite (Compress_Unserialize _ _ _ _ E).
    rewrite (proj2 (Z.ltb_ge _ _)); [done|]. pose proof (Compress_length _ _ E). unfold MAX_SCRIPT_SIZE. lia.
  - unfold nSpecialScripts. rewrite u32_id by (unfold is_u; lia).
    destruct (WriteVarInt_total 32 (Z.of_nat (length script) + 6)) as [v Ev]; [lia|unfold is_u; lia|].
    rewrite Ev. exists (v ++ script). split; [done|]. unfold CScriptCompressor_Unserialize, nSpecialScripts.
    rewrite <- app_assoc, (ReadVarInt_write 32 (Z.of_nat (length script) + 6) v) by first [done | unfold is_u; lia]. cbn [lift_ser rbind].
    rewrite (proj2 (Z.ltb_ge _ 6)) by lia. replace (Z.of_nat (length script) + 6 - 6) with (Z.of_nat (length script)) by lia.
    rewrite Nat2Z.id, read_bytes_app by done. cbn [lift_ser rbind snd].
    by destruct (MAX_SCRIPT_SIZE <? Z.of_nat (length script)).
Qed.
End ScriptCompressor.

(** Compressed outputs come back.  An output whose value is an amount of money
    and whose script has at most [MAX_SCRIPT_SIZE] bytes is read back unchanged
    from what [CTxOutCompressor] writes, whichever special form its script takes
    and whatever the receiving object held before; a longer script is replaced by
    an appended [OP_RETURN] and the stream is still left at the right place.  The
    hypothesis on libsecp256k1 is that decompressing the [x] coordinate of a
    valid key with the parity of its [y] restores the key. *)
Theorem CTxOutCompressor_roundtrip (IsFullyValid : list Z -> bool) (pubkey_Decompress : list Z -> option (list Z))
    (nValue : Z) (script script0 rest : list Z) :
  (forall x y, length x = 32%nat -> length y = 32%nat -> IsFullyValid (0x04 :: x ++ y) = true ->
     pubkey_Decompress ((2 + (aget y 31 .& 1)) :: x) = Some (0x04 :: x ++ y)) ->
  MoneyRange nValue = true -> Z.of_nat (length script) + 6 < 2 ^ 32 ->
  exists enc, CTxOutCompressor_Serialize IsFullyValid nValue script = Some enc /\
  CTxOutCompressor_Unserialize pubkey_Decompress script0 (enc ++ rest) =
    Ok (nValue,
        if (MAX_SCRIPT_SIZE <? Z.of_nat (length script)) then push_op script0 OP_RETURN else script, rest).
Proof.
  intros HD Hm Hl. unfold MoneyRange, MAX_MONEY, COIN in Hm. bool_to_prop.
  destruct (CScriptCompressor_roundtrip IsFullyValid pubkey_Decompress HD script script0 rest Hl) as (c & Ec & Hc).
  pose proof (CompressAmount_range nValue) as Hr.
  destruct (WriteVarInt_total 64 (CompressAmount nValue)) as [v Ev]; [lia|done|].
  exists (v ++ c). unfold CTxOutCompressor_Serialize. rewrite Ev, Ec. split; [done|].
  unfold CTxOutCompressor_Unserialize. rewrite <- app_assoc, (ReadVarInt_write 64 (CompressAmount nValue) v) by first [done | lia].
  cbn [lift_ser rbind]. rewrite Hc. cbn [rbind fst snd]. by rewrite Decompress_Compress by lia.
Qed.

(** A pay-to-pubkey-hash output, with a stand-in for the curve: keys whose two
    coordinates are equal are the valid ones. *)
Lemma CTxOutCompressor_roundtrip_witness :
  let valid := fun k : list Z => bool_decide (k = 0x04 :: take 32 (drop 1 k) ++ take 32 (drop 1 k)) in
  let decompress := fun k : list Z => Some (0x04 :: drop 1 k ++ drop 1 k) in
  let script := [0x76; 0xa9; 20] ++ replicate 20 7 ++ [0x88; 0xac] in
  exists enc, CTxOutCompressor_Serialize valid 1250000000 script = Some enc /\
  CTxOutCompressor_Unserialize decompress [] (enc ++ [1; 2]) = Ok (1250000000, script, [1; 2]).
Proof.
  intros valid decompress script.
  apply (CTxOutCompressor_roundtrip valid decompress 1250000000 script [] [1; 2]); [|reflexivity|cbn; lia].
  intros x y Hx Hy Hv. unfold valid in Hv. apply bool_decide_eq_true in Hv. change (drop 1 (0x04 :: x ++ y)) with (x ++ y) in Hv.
  rewrite take_app_length' in Hv by done. injection Hv as Hv. apply app_inv_head in Hv as ->. done.
Defined.
