(* ===== verification/Interpreter.v ===== *)
(** * The script interpreter (src/src/script/interpreter.cpp, script_error.h)

    [EvalScript] is a loop over the instructions of a script; each iteration is
    [step].  A stack is the C++ vector: a list whose last element is the top, so
    [stacktop(-i)], [popstack], [erase], [insert] and [swap] are the vector
    operations of the source and can go wrong the way those do.  The signature
    checker is the virtual interface [BaseSignatureChecker], a record of
    operations; [CPubKey::CheckLowS], which calls libsecp256k1, is a parameter. *)

From S2P Require Import Prelude Bytes HashEngine Sha256 Sha1 Ripemd160 Hash Serialize Script.
Local Open Scope cxx_scope.

(** ** Errors *)

Inductive ScriptError : Type :=
| SCRIPT_ERR_OK | SCRIPT_ERR_UNKNOWN_ERROR | SCRIPT_ERR_EVAL_FALSE | SCRIPT_ERR_OP_RETURN
| SCRIPT_ERR_SCRIPT_SIZE | SCRIPT_ERR_PUSH_SIZE | SCRIPT_ERR_OP_COUNT | SCRIPT_ERR_STACK_SIZE
| SCRIPT_ERR_SIG_COUNT | SCRIPT_ERR_PUBKEY_COUNT
| SCRIPT_ERR_VERIFY | SCRIPT_ERR_EQUALVERIFY | SCRIPT_ERR_CHECKMULTISIGVERIFY
| SCRIPT_ERR_CHECKSIGVERIFY | SCRIPT_ERR_NUMEQUALVERIFY
| SCRIPT_ERR_BAD_OPCODE | SCRIPT_ERR_DISABLED_OPCODE | SCRIPT_ERR_INVALID_STACK_OPERATION
| SCRIPT_ERR_INVALID_ALTSTACK_OPERATION | SCRIPT_ERR_UNBALANCED_CONDITIONAL
| SCRIPT_ERR_NEGATIVE_LOCKTIME | SCRIPT_ERR_UNSATISFIED_LOCKTIME
| SCRIPT_ERR_SIG_HASHTYPE | SCRIPT_ERR_SIG_DER | SCRIPT_ERR_MINIMALDATA | SCRIPT_ERR_SIG_PUSHONLY
| SCRIPT_ERR_SIG_HIGH_S | SCRIPT_ERR_SIG_NULLDUMMY | SCRIPT_ERR_PUBKEYTYPE | SCRIPT_ERR_CLEANSTACK
| SCRIPT_ERR_SIG_NULLFAIL
| SCRIPT_ERR_DISCOURAGE_UPGRADABLE_NOPS.

(** The ways a piece of the evaluator ends without a value: [return set_error(e)],
    an exception, a failed assertion or undefined behaviour, and the model's own
    loop bound. *)
Inductive fault : Type :=
| SetError (e : ScriptError)
| Exn_scriptnum (e : scriptnum_error)
| Exn_out_of_range
| Exn_popstack
| AssertFailed
| Undefined
| OutOfFuel.

Abbreviation M := (result fault).
Abbreviation valtype := (list Z).

Definition set_error {A} (e : ScriptError) : M A := Throw (SetError e).
Definition fail_unless (c : bool) (e : ScriptError) : M unit := if c then Ok tt else set_error e.
Definition cxx_assert (c : bool) : M unit := if c then Ok tt else Throw AssertFailed.

(** ** Flags *)

Definition SCRIPT_VERIFY_NONE : Z := 0.
Definition SCRIPT_VERIFY_P2SH : Z := 2 ^ 0.
Definition SCRIPT_VERIFY_STRICTENC : Z := 2 ^ 1.
Definition SCRIPT_VERIFY_DERSIG : Z := 2 ^ 2.
Definition SCRIPT_VERIFY_LOW_S : Z := 2 ^ 3.
Definition SCRIPT_VERIFY_NULLDUMMY : Z := 2 ^ 4.
Definition SCRIPT_VERIFY_SIGPUSHONLY : Z := 2 ^ 5.
Definition SCRIPT_VERIFY_MINIMALDATA : Z := 2 ^ 6.
Definition SCRIPT_VERIFY_DISCOURAGE_UPGRADABLE_NOPS : Z := 2 ^ 7.
Definition SCRIPT_VERIFY_CLEANSTACK : Z := 2 ^ 8.
Definition SCRIPT_VERIFY_CHECKLOCKTIMEVERIFY : Z := 2 ^ 9.
Definition SCRIPT_VERIFY_CHECKSEQUENCEVERIFY : Z := 2 ^ 10.
Definition SCRIPT_VERIFY_NULLFAIL : Z := 2 ^ 14.

Definition SIGHASH_ALL : Z := 1.
Definition SIGHASH_NONE : Z := 2.
Definition SIGHASH_SINGLE : Z := 3.
Definition SIGHASH_ANYONECANPAY : Z := 0x80.

Definition has (flags f : Z) : bool := nz (flags .& f).

(** ** The vector operations *)

Definition size {A} (v : list A) : Z := Z.of_nat (length v).

(** [v.at(i)] *)
Definition at_ {A} (v : list A) (i : Z) : M A :=
  if i <? 0 then Throw Exn_out_of_range
  else match v !! Z.to_nat i with Some x => Ok x | None => Throw Exn_out_of_range end.

Definition stacktop {A} (v : list A) (i : Z) : M A := at_ v (size v + i).

Definition popstack {A} (v : list A) : M (list A) :=
  if size v =? 0 then Throw Exn_popstack else Ok (take (length v - 1) v).

Definition push_back {A} (v : list A) (x : A) : list A := v ++ [x].

(** [swap(stacktop(i), stacktop(j))] *)
Definition swap {A} (v : list A) (i j : Z) : M (list A) :=
  let! x := stacktop v i in
  let! y := stacktop v j in
  Ok (<[Z.to_nat (size v + j) := x]> (<[Z.to_nat (size v + i) := y]> v)).

(** [v.erase(v.end() - i, v.end() - j)] and [v.insert(v.end() - i, x)]; iterators
    outside the vector are undefined behaviour. *)
Definition erase {A} (v : list A) (i j : Z) : M (list A) :=
  if (j <=? i) && (0 <=? j) && (i <=? size v)
  then Ok (take (Z.to_nat (size v - i)) v ++ drop (Z.to_nat (size v - j)) v)
  else Throw Undefined.
Definition insert_at {A} (v : list A) (i : Z) (x : A) : M (list A) :=
  if (0 <=? i) && (i <=? size v)
  then Ok (take (Z.to_nat (size v - i)) v ++ x :: drop (Z.to_nat (size v - i)) v)
  else Throw Undefined.

(** ** Script numbers in the evaluator *)

Definition scriptnum (vch : valtype) (fRequireMinimal : bool) (nMaxNumSize : nat) : M Z :=
  match CScriptNum vch fRequireMinimal nMaxNumSize with
  | Ok n => Ok n
  | Throw e => Throw (Exn_scriptnum e)
  end.

(** [operator+] and [operator-] overflow silently in C++: undefined behaviour. *)
Definition int64 (x : Z) : M Z :=
  if (INT64_MIN <=? x) && (x <=? INT64_MAX) then Ok x else Throw Undefined.
Definition num_add (a b : Z) : M Z := int64 (a + b).
Definition num_sub (a b : Z) : M Z := int64 (a - b).
(** [operator-()], [operator+=] and [operator-=] assert that they do not. *)
Definition num_neg (a : Z) : M Z := let! _ := cxx_assert (negb (a =? INT64_MIN)) in Ok (- a).
Definition num_add_assign (a rhs : Z) : M Z :=
  let! _ := cxx_assert ((rhs =? 0) || ((0 <? rhs) && (a <=? INT64_MAX - rhs))
                        || ((rhs <? 0) && (INT64_MIN - rhs <=? a))) in Ok (a + rhs).
Definition num_sub_assign (a rhs : Z) : M Z :=
  let! _ := cxx_assert ((rhs =? 0) || ((0 <? rhs) && (INT64_MIN + rhs <=? a))
                        || ((rhs <? 0) && (a <=? INT64_MAX + rhs))) in Ok (a - rhs).

(** ** Truth values and encodings *)

Fixpoint CastToBool (vch : valtype) : bool :=
  match vch with
  | [] => false
  | b :: rest =>
      if nz b then negb ((length rest =? 0)%nat && (b =? 0x80)) else CastToBool rest
  end.

Definition IsCompressedOrUncompressedPubKey (vchPubKey : valtype) : bool :=
  if size vchPubKey <? 33 then false
  else if aget vchPubKey 0 =? 0x04 then size vchPubKey =? 65
  else if (aget vchPubKey 0 =? 0x02) || (aget vchPubKey 0 =? 0x03) then size vchPubKey =? 33
  else false.

Definition IsValidSignatureEncoding (sig : valtype) : bool :=
  if size sig <? 9 then false else
  if 73 <? size sig then false else
  if negb (aget sig 0 =? 0x30) then false else
  if negb (aget sig 1 =? size sig - 3) then false else
  let lenR := aget sig 3 in
  if size sig <=? 5 + lenR then false else
  let lenS := aget sig (Z.to_nat (5 + lenR)) in
  if negb (lenR + lenS + 7 =? size sig) then false else
  if negb (aget sig 2 =? 0x02) then false else
  if lenR =? 0 then false else
  if nz (aget sig 4 .& 0x80) then false else
  if (1 <? lenR) && (aget sig 4 =? 0x00) && negb (nz (aget sig 5 .& 0x80)) then false else
  if negb (aget sig (Z.to_nat (lenR + 4)) =? 0x02) then false else
  if lenS =? 0 then false else
  if nz (aget sig (Z.to_nat (lenR + 6)) .& 0x80) then false else
  if (1 <? lenS) && (aget sig (Z.to_nat (lenR + 6)) =? 0x00)
     && negb (nz (aget sig (Z.to_nat (lenR + 7)) .& 0x80)) then false else
  true.

Definition IsDefinedHashtypeSignature (vchSig : valtype) : bool :=
  if size vchSig =? 0 then false
  else
    let nHashType := u8 (back vchSig .& Z.lnot SIGHASH_ANYONECANPAY) in
    negb ((nHashType <? SIGHASH_ALL) || (SIGHASH_SINGLE <? nHashType)).

Definition CheckMinimalPush (data : valtype) (opcode : opcodetype) : bool :=
  let op := opcode_value opcode in
  if size data =? 0 then op =? opcode_value OP_0
  else if (size data =? 1) && (1 <=? aget data 0) && (aget data 0 <=? 16)
    then op =? opcode_value OP_1 + (aget data 0 - 1)
  else if (size data =? 1) && (aget data 0 =? 0x81) then op =? opcode_value OP_1NEGATE
  else if size data <=? 75 then op =? size data
  else if size data <=? 255 then op =? opcode_value OP_PUSHDATA1
  else if size data <=? 65535 then op =? opcode_value OP_PUSHDATA2
  else true.

(** ** The checker interface *)

Record BaseSignatureChecker : Type := {
  CheckSig : valtype -> valtype -> list Z -> bool;
  CheckLockTime : Z -> bool;
  CheckSequence : Z -> bool;
}.

(** The base class refuses everything. *)
Definition BaseSignatureChecker_default : BaseSignatureChecker :=
  {| CheckSig := fun _ _ _ => false; CheckLockTime := fun _ => false; CheckSequence := fun _ => false |}.

Definition SEQUENCE_LOCKTIME_DISABLE_FLAG : Z := 2 ^ 31.

Definition vchFalse : valtype := [].
Definition vchTrue : valtype := [1].
Definition bool_vch (b : bool) : valtype := if b then vchTrue else vchFalse.

Section Eval.
Variable CheckLowS : valtype -> bool.
Variable checker : BaseSignatureChecker.
Variable flags : Z.

Definition fRequireMinimal : bool := has flags SCRIPT_VERIFY_MINIMALDATA.
Definition num (vch : valtype) : M Z := scriptnum vch fRequireMinimal nDefaultMaxNumSize.

Definition IsLowDERSignature (vchSig : valtype) : M unit :=
  let! _ := fail_unless (IsValidSignatureEncoding vchSig) SCRIPT_ERR_SIG_DER in
  let vchSigCopy := take (length vchSig - 1) vchSig in
  fail_unless (CheckLowS vchSigCopy) SCRIPT_ERR_SIG_HIGH_S.

Definition CheckSignatureEncoding (vchSig : valtype) : M unit :=
  if size vchSig =? 0 then Ok tt
  else if has flags (SCRIPT_VERIFY_DERSIG .| SCRIPT_VERIFY_LOW_S .| SCRIPT_VERIFY_STRICTENC)
          && negb (IsValidSignatureEncoding vchSig)
    then set_error SCRIPT_ERR_SIG_DER
  else
    let! _ := if has flags SCRIPT_VERIFY_LOW_S then IsLowDERSignature vchSig else Ok tt in
    if has flags SCRIPT_VERIFY_STRICTENC && negb (IsDefinedHashtypeSignature vchSig)
    then set_error SCRIPT_ERR_SIG_HASHTYPE
    else Ok tt.

Definition CheckPubKeyEncoding (vchSig : valtype) : M unit :=
  if has flags SCRIPT_VERIFY_STRICTENC && negb (IsCompressedOrUncompressedPubKey vchSig)
  then set_error SCRIPT_ERR_PUBKEYTYPE
  else Ok tt.

(** ** The instructions

    One definition per [case] of the switch that touches only the stack; the
    others work on the whole state below. *)

Definition need (n : Z) (stack : list valtype) : M unit :=
  fail_unless (n <=? size stack) SCRIPT_ERR_INVALID_STACK_OPERATION.

Definition op_upgradable_nop (stack : list valtype) : M (list valtype) :=
  if has flags SCRIPT_VERIFY_DISCOURAGE_UPGRADABLE_NOPS
  then set_error SCRIPT_ERR_DISCOURAGE_UPGRADABLE_NOPS
  else Ok stack.

Definition op_checklocktimeverify (stack : list valtype) : M (list valtype) :=
  if negb (has flags SCRIPT_VERIFY_CHECKLOCKTIMEVERIFY) then op_upgradable_nop stack
  else
    let! _ := need 1 stack in
    let! top := stacktop stack (-1) in
    let! nLockTime := scriptnum top fRequireMinimal 5 in
    if nLockTime <? 0 then set_error SCRIPT_ERR_NEGATIVE_LOCKTIME
    else if negb (CheckLockTime checker nLockTime) then set_error SCRIPT_ERR_UNSATISFIED_LOCKTIME
    else Ok stack.

Definition op_checksequenceverify (stack : list valtype) : M (list valtype) :=
  if negb (has flags SCRIPT_VERIFY_CHECKSEQUENCEVERIFY) then op_upgradable_nop stack
  else
    let! _ := need 1 stack in
    let! top := stacktop stack (-1) in
    let! nSequence := scriptnum top fRequireMinimal 5 in
    if nSequence <? 0 then set_error SCRIPT_ERR_NEGATIVE_LOCKTIME
    else if nz (nSequence .& SEQUENCE_LOCKTIME_DISABLE_FLAG) then Ok stack
    else if negb (CheckSequence checker nSequence) then set_error SCRIPT_ERR_UNSATISFIED_LOCKTIME
    else Ok stack.

Definition op_push_number (opcode : opcodetype) (stack : list valtype) : M (list valtype) :=
  let bn := opcode_value opcode - (opcode_value OP_1 - 1) in
  Ok (push_back stack (serialize bn)).

Definition op_verify (stack : list valtype) : M (list valtype) :=
  let! _ := need 1 stack in
  let! top := stacktop stack (-1) in
  if CastToBool top then popstack stack else set_error SCRIPT_ERR_VERIFY.

(** OP_ROT, OP_SWAP, OP_TUCK and OP_SIZE *)
Definition op_reorder (opcode : opcodetype) (stack : list valtype) : M (list valtype) :=
  match opcode with
  | OP_ROT =>
      let! _ := need 3 stack in
      let! stack := swap stack (-3) (-2) in
      swap stack (-2) (-1)
  | OP_SWAP =>
      let! _ := need 2 stack in
      swap stack (-2) (-1)
  | OP_TUCK =>
      let! _ := need 2 stack in
      let! vch := stacktop stack (-1) in
      insert_at stack 2 vch
  | OP_SIZE =>
      let! _ := need 1 stack in
      let! vch := stacktop stack (-1) in
      Ok (push_back stack (serialize (size vch)))
  | _ => set_error SCRIPT_ERR_BAD_OPCODE
  end.

(** The other stack instructions, OP_2DROP to OP_OVER. *)
Definition op_stack (opcode : opcodetype) (stack : list valtype) : M (list valtype) :=
  match opcode with
  | OP_2DROP =>
      let! _ := need 2 stack in
      let! stack := popstack stack in
      popstack stack
  | OP_2DUP =>
      let! _ := need 2 stack in
      let! vch1 := stacktop stack (-2) in
      let! vch2 := stacktop stack (-1) in
      Ok (push_back (push_back stack vch1) vch2)
  | OP_3DUP =>
      let! _ := need 3 stack in
      let! vch1 := stacktop stack (-3) in
      let! vch2 := stacktop stack (-2) in
      let! vch3 := stacktop stack (-1) in
      Ok (push_back (push_back (push_back stack vch1) vch2) vch3)
  | OP_2OVER =>
      let! _ := need 4 stack in
      let! vch1 := stacktop stack (-4) in
      let! vch2 := stacktop stack (-3) in
      Ok (push_back (push_back stack vch1) vch2)
  | OP_2ROT =>
      let! _ := need 6 stack in
      let! vch1 := stacktop stack (-6) in
      let! vch2 := stacktop stack (-5) in
      let! stack := erase stack 6 4 in
      Ok (push_back (push_back stack vch1) vch2)
  | OP_2SWAP =>
      let! _ := need 4 stack in
      let! stack := swap stack (-4) (-2) in
      swap stack (-3) (-1)
  | OP_IFDUP =>
      let! _ := need 1 stack in
      let! vch := stacktop stack (-1) in
      if CastToBool vch then Ok (push_back stack vch) else Ok stack
  | OP_DEPTH =>
      Ok (push_back stack (serialize (size stack)))
  | OP_DROP =>
      let! _ := need 1 stack in
      popstack stack
  | OP_DUP =>
      let! _ := need 1 stack in
      let! vch := stacktop stack (-1) in
      Ok (push_back stack vch)
  | OP_NIP =>
      let! _ := need 2 stack in
      erase stack 2 1
  | OP_OVER =>
      let! _ := need 2 stack in
      let! vch := stacktop stack (-2) in
      Ok (push_back stack vch)
  | _ => op_reorder opcode stack
  end.

(** OP_PICK and OP_ROLL *)
Definition op_pick_roll (opcode : opcodetype) (stack : list valtype) : M (list valtype) :=
  let! _ := need 2 stack in
  let! top := stacktop stack (-1) in
  let! bn := num top in
  let n := getint bn in
  let! stack := popstack stack in
  if (n <? 0) || (size stack <=? n) then set_error SCRIPT_ERR_INVALID_STACK_OPERATION
  else
    let! vch := stacktop stack (- n - 1) in
    let! stack := if decide (opcode = OP_ROLL) then erase stack (n + 1) n else Ok stack in
    Ok (push_back stack vch).

(** OP_EQUAL and OP_EQUALVERIFY *)
Definition op_equal (opcode : opcodetype) (stack : list valtype) : M (list valtype) :=
  let! _ := need 2 stack in
  let! vch1 := stacktop stack (-2) in
  let! vch2 := stacktop stack (-1) in
  let fEqual := bool_decide (vch1 = vch2) in
  let! stack := popstack stack in
  let! stack := popstack stack in
  let stack := push_back stack (bool_vch fEqual) in
  if decide (opcode = OP_EQUALVERIFY)
  then if fEqual then popstack stack else set_error SCRIPT_ERR_EQUALVERIFY
  else Ok stack.

(** OP_1ADD to OP_0NOTEQUAL *)
Definition op_unary (opcode : opcodetype) (stack : list valtype) : M (list valtype) :=
  let! _ := need 1 stack in
  let! top := stacktop stack (-1) in
  let! bn := num top in
  let! bn :=
    match opcode with
    | OP_1ADD => num_add_assign bn 1
    | OP_1SUB => num_sub_assign bn 1
    | OP_NEGATE => num_neg bn
    | OP_ABS => if bn <? 0 then num_neg bn else Ok bn
    | OP_NOT => Ok (b2z (bn =? 0))
    | OP_0NOTEQUAL => Ok (b2z (negb (bn =? 0)))
    | _ => Throw AssertFailed
    end in
  let! stack := popstack stack in
  Ok (push_back stack (serialize bn)).

(** OP_ADD to OP_MAX *)
Definition binary_value (opcode : opcodetype) (bn1 bn2 : Z) : M Z :=
  match opcode with
  | OP_ADD => num_add bn1 bn2
  | OP_SUB => num_sub bn1 bn2
  | OP_BOOLAND => Ok (b2z (negb (bn1 =? 0) && negb (bn2 =? 0)))
  | OP_BOOLOR => Ok (b2z (negb (bn1 =? 0) || negb (bn2 =? 0)))
  | OP_NUMEQUAL => Ok (b2z (bn1 =? bn2))
  | OP_NUMEQUALVERIFY => Ok (b2z (bn1 =? bn2))
  | OP_NUMNOTEQUAL => Ok (b2z (negb (bn1 =? bn2)))
  | OP_LESSTHAN => Ok (b2z (bn1 <? bn2))
  | OP_GREATERTHAN => Ok (b2z (bn2 <? bn1))
  | OP_LESSTHANOREQUAL => Ok (b2z (bn1 <=? bn2))
  | OP_GREATERTHANOREQUAL => Ok (b2z (bn2 <=? bn1))
  | OP_MIN => Ok (if bn1 <? bn2 then bn1 else bn2)
  | OP_MAX => Ok (if bn2 <? bn1 then bn1 else bn2)
  | _ => Throw AssertFailed
  end.
Definition op_binary (opcode : opcodetype) (stack : list valtype) : M (list valtype) :=
  let! _ := need 2 stack in
  let! top2 := stacktop stack (-2) in
  let! bn1 := num top2 in
  let! top1 := stacktop stack (-1) in
  let! bn2 := num top1 in
  let! bn := binary_value opcode bn1 bn2 in
  let! stack := popstack stack in
  let! stack := popstack stack in
  let stack := push_back stack (serialize bn) in
  if decide (opcode = OP_NUMEQUALVERIFY) then
    let! top := stacktop stack (-1) in
    if CastToBool top then popstack stack else set_error SCRIPT_ERR_NUMEQUALVERIFY
  else Ok stack.

Definition op_within (stack : list valtype) : M (list valtype) :=
  let! _ := need 3 stack in
  let! top3 := stacktop stack (-3) in
  let! bn1 := num top3 in
  let! top2 := stacktop stack (-2) in
  let! bn2 := num top2 in
  let! top1 := stacktop stack (-1) in
  let! bn3 := num top1 in
  let fValue := (bn2 <=? bn1) && (bn1 <? bn3) in
  let! stack := popstack stack in
  let! stack := popstack stack in
  let! stack := popstack stack in
  Ok (push_back stack (bool_vch fValue)).

(** The hash instructions; each uses a fresh hasher, whose buffer starts
    indeterminate and is taken to be zeros (the digest does not depend on it). *)
Definition hash_value (opcode : opcodetype) (vch : valtype) : valtype :=
  let buf := replicate 64 0 in
  match opcode with
  | OP_RIPEMD160 => CRIPEMD160_Finalize (CRIPEMD160_Write (CRIPEMD160_new buf) vch)
  | OP_SHA1 => CSHA1_Finalize (CSHA1_Write (CSHA1_new buf) vch)
  | OP_SHA256 => CSHA256_Finalize (CSHA256_Write (CSHA256_new buf) vch)
  | OP_HASH160 => CHash160_Finalize (CHash160_Write (CHash160_new buf) vch)
  | _ => CHash256_Finalize (CHash256_Write (CHash256_new buf) vch)
  end.
Definition op_hash (opcode : opcodetype) (stack : list valtype) : M (list valtype) :=
  let! _ := need 1 stack in
  let! vch := stacktop stack (-1) in
  let vchHash := hash_value opcode vch in
  let! stack := popstack stack in
  Ok (push_back stack vchHash).

(** OP_CHECKSIG and OP_CHECKSIGVERIFY; [code] is the script from the last
    OP_CODESEPARATOR. *)
Definition op_checksig (opcode : opcodetype) (code : list Z) (stack : list valtype) : M (list valtype) :=
  let! _ := need 2 stack in
  let! vchSig := stacktop stack (-2) in
  let! vchPubKey := stacktop stack (-1) in
  let scriptCode := fst (FindAndDelete code (push_data vchSig)) in
  let! _ := CheckSignatureEncoding vchSig in
  let! _ := CheckPubKeyEncoding vchPubKey in
  let fSuccess := CheckSig checker vchSig vchPubKey scriptCode in
  if negb fSuccess && has flags SCRIPT_VERIFY_NULLFAIL && negb (size vchSig =? 0)
  then set_error SCRIPT_ERR_SIG_NULLFAIL
  else
    let! stack := popstack stack in
    let! stack := popstack stack in
    let stack := push_back stack (bool_vch fSuccess) in
    if decide (opcode = OP_CHECKSIGVERIFY)
    then if fSuccess then popstack stack else set_error SCRIPT_ERR_CHECKSIGVERIFY
    else Ok stack.

(** *** OP_CHECKMULTISIG *)

(** [for (k = 0; k < nSigsCount; k++) scriptCode.FindAndDelete(CScript(stacktop(-isig-k)))] *)
Fixpoint drop_signatures (n : nat) (isig : Z) (stack : list valtype) (scriptCode : list Z) : M (list Z) :=
  match n with
  | O => Ok scriptCode
  | S n =>
      let! vchSig := stacktop stack (- isig) in
      drop_signatures n (isig + 1) stack (fst (FindAndDelete scriptCode (push_data vchSig)))
  end.

(** [while (fSuccess && nSigsCount > 0)] *)
Fixpoint multisig_loop (fuel : nat) (stack : list valtype) (scriptCode : list Z)
    (isig ikey nSigsCount nKeysCount : Z) (fSuccess : bool) : M bool :=
  if negb (fSuccess && (0 <? nSigsCount)) then Ok fSuccess
  else
    match fuel with
    | O => Throw OutOfFuel
    | S fuel =>
        let! vchSig := stacktop stack (- isig) in
        let! vchPubKey := stacktop stack (- ikey) in
        let! _ := CheckSignatureEncoding vchSig in
        let! _ := CheckPubKeyEncoding vchPubKey in
        let fOk := CheckSig checker vchSig vchPubKey scriptCode in
        let '(isig, nSigsCount) := if fOk then (isig + 1, nSigsCount - 1) else (isig, nSigsCount) in
        let ikey := ikey + 1 in
        let nKeysCount := nKeysCount - 1 in
        let fSuccess := if nKeysCount <? nSigsCount then false else fSuccess in
        multisig_loop fuel stack scriptCode isig ikey nSigsCount nKeysCount fSuccess
    end.

(** [while (i-- > 1)] pops the [i - 1] arguments. *)
Fixpoint cleanup_loop (n : nat) (fSuccess : bool) (ikey2 : Z) (stack : list valtype) : M (list valtype) :=
  match n with
  | O => Ok stack
  | S n =>
      let! _ :=
        if negb fSuccess && has flags SCRIPT_VERIFY_NULLFAIL && (ikey2 =? 0) then
          let! top := stacktop stack (-1) in
          fail_unless (size top =? 0) SCRIPT_ERR_SIG_NULLFAIL
        else Ok tt in
      let! stack := popstack stack in
      cleanup_loop n fSuccess (if 0 <? ikey2 then ikey2 - 1 else ikey2) stack
  end.

(** OP_CHECKMULTISIG and OP_CHECKMULTISIGVERIFY; gives the operation count too. *)
Definition op_checkmultisig (opcode : opcodetype) (code : list Z) (nOpCount : Z) (stack : list valtype) :
    M (list valtype * Z) :=
  let i := 1 in
  let! _ := need i stack in
  let! top := stacktop stack (- i) in
  let! bn := num top in
  let nKeysCount := getint bn in
  if (nKeysCount <? 0) || (MAX_PUBKEYS_PER_MULTISIG <? nKeysCount) then set_error SCRIPT_ERR_PUBKEY_COUNT else
  let nOpCount := nOpCount + nKeysCount in
  if MAX_OPS_PER_SCRIPT <? nOpCount then set_error SCRIPT_ERR_OP_COUNT else
  let i := i + 1 in
  let ikey := i in
  let ikey2 := nKeysCount + 2 in
  let i := i + nKeysCount in
  let! _ := need i stack in
  let! top := stacktop stack (- i) in
  let! bn := num top in
  let nSigsCount := getint bn in
  if (nSigsCount <? 0) || (nKeysCount <? nSigsCount) then set_error SCRIPT_ERR_SIG_COUNT else
  let i := i + 1 in
  let isig := i in
  let i := i + nSigsCount in
  let! _ := need i stack in
  let! scriptCode := drop_signatures (Z.to_nat nSigsCount) isig stack code in
  let! fSuccess := multisig_loop (Z.to_nat nKeysCount) stack scriptCode isig ikey nSigsCount nKeysCount true in
  let! stack := cleanup_loop (Z.to_nat (i - 1)) fSuccess ikey2 stack in
  let! _ := need 1 stack in
  let! _ :=
    if has flags SCRIPT_VERIFY_NULLDUMMY then
      let! top := stacktop stack (-1) in
      fail_unless (size top =? 0) SCRIPT_ERR_SIG_NULLDUMMY
    else Ok tt in
  let! stack := popstack stack in
  let stack := push_back stack (bool_vch fSuccess) in
  let! stack :=
    if decide (opcode = OP_CHECKMULTISIGVERIFY)
    then if fSuccess then popstack stack else set_error SCRIPT_ERR_CHECKMULTISIGVERIFY
    else Ok stack in
  Ok (stack, nOpCount).

(** ** The evaluator *)

(** The local variables of [EvalScript]; [pc] and [pbegincodehash] are what is
    left of the script from there on. *)
Record eval_state : Type := {
  pc : list Z;
  stack : list valtype;
  altstack : list valtype;
  vfExec : list bool;
  nOpCount : Z;
  pbegincodehash : list Z;
}.

Definition set_stack (st : eval_state) (s : list valtype) : eval_state :=
  {| pc := pc st; stack := s; altstack := altstack st; vfExec := vfExec st; nOpCount := nOpCount st;
     pbegincodehash := pbegincodehash st |}.
Definition set_stacks (st : eval_state) (s a : list valtype) : eval_state :=
  {| pc := pc st; stack := s; altstack := a; vfExec := vfExec st; nOpCount := nOpCount st;
     pbegincodehash := pbegincodehash st |}.
Definition set_exec (st : eval_state) (s : list valtype) (v : list bool) : eval_state :=
  {| pc := pc st; stack := s; altstack := altstack st; vfExec := v; nOpCount := nOpCount st;
     pbegincodehash := pbegincodehash st |}.
Definition set_code (st : eval_state) (code : list Z) : eval_state :=
  {| pc := pc st; stack := stack st; altstack := altstack st; vfExec := vfExec st; nOpCount := nOpCount st;
     pbegincodehash := code |}.
Definition set_ops (st : eval_state) (s : list valtype) (n : Z) : eval_state :=
  {| pc := pc st; stack := s; altstack := altstack st; vfExec := vfExec st; nOpCount := n;
     pbegincodehash := pbegincodehash st |}.
Definition fetched (st : eval_state) (pc' : list Z) (n : Z) : eval_state :=
  {| pc := pc'; stack := stack st; altstack := altstack st; vfExec := vfExec st; nOpCount := n;
     pbegincodehash := pbegincodehash st |}.

Definition on_stack (st : eval_state) (m : M (list valtype)) : M eval_state :=
  let! s := m in Ok (set_stack st s).

(** OP_IF and OP_NOTIF *)
Definition op_if (opcode : opcodetype) (fExec : bool) (st : eval_state) : M eval_state :=
  if fExec then
    let! _ := fail_unless (1 <=? size (stack st)) SCRIPT_ERR_UNBALANCED_CONDITIONAL in
    let! vch := stacktop (stack st) (-1) in
    let fValue := CastToBool vch in
    let fValue := if decide (opcode = OP_NOTIF) then negb fValue else fValue in
    let! s := popstack (stack st) in
    Ok (set_exec st s (push_back (vfExec st) fValue))
  else Ok (set_exec st (stack st) (push_back (vfExec st) false)).

Definition op_else (st : eval_state) : M eval_state :=
  let! _ := fail_unless (negb (size (vfExec st) =? 0)) SCRIPT_ERR_UNBALANCED_CONDITIONAL in
  let! b := stacktop (vfExec st) (-1) in
  let! v := popstack (vfExec st) in
  Ok (set_exec st (stack st) (push_back v (negb b))).

Definition op_endif (st : eval_state) : M eval_state :=
  let! _ := fail_unless (negb (size (vfExec st) =? 0)) SCRIPT_ERR_UNBALANCED_CONDITIONAL in
  let! v := popstack (vfExec st) in
  Ok (set_exec st (stack st) v).

Definition op_toaltstack (st : eval_state) : M eval_state :=
  let! _ := need 1 (stack st) in
  let! top := stacktop (stack st) (-1) in
  let! s := popstack (stack st) in
  Ok (set_stacks st s (push_back (altstack st) top)).

Definition op_fromaltstack (st : eval_state) : M eval_state :=
  let! _ := fail_unless (1 <=? size (altstack st)) SCRIPT_ERR_INVALID_ALTSTACK_OPERATION in
  let! top := stacktop (altstack st) (-1) in
  let! a := popstack (altstack st) in
  Ok (set_stacks st (push_back (stack st) top) a).

(** The [switch]. *)
Definition exec_op (opcode : opcodetype) (fExec : bool) (st : eval_state) : M eval_state :=
  match opcode with
  | OP_1NEGATE | OP_1 | OP_2 | OP_3 | OP_4 | OP_5 | OP_6 | OP_7 | OP_8 | OP_9 | OP_10 | OP_11 | OP_12
  | OP_13 | OP_14 | OP_15 | OP_16 => on_stack st (op_push_number opcode (stack st))
  | OP_NOP => Ok st
  | OP_CHECKLOCKTIMEVERIFY => on_stack st (op_checklocktimeverify (stack st))
  | OP_CHECKSEQUENCEVERIFY => on_stack st (op_checksequenceverify (stack st))
  | OP_NOP1 | OP_NOP4 | OP_NOP5 | OP_NOP6 | OP_NOP7 | OP_NOP8 | OP_NOP9 | OP_NOP10 =>
      on_stack st (op_upgradable_nop (stack st))
  | OP_IF | OP_NOTIF => op_if opcode fExec st
  | OP_ELSE => op_else st
  | OP_ENDIF => op_endif st
  | OP_VERIFY => on_stack st (op_verify (stack st))
  | OP_RETURN => set_error SCRIPT_ERR_OP_RETURN
  | OP_TOALTSTACK => op_toaltstack st
  | OP_FROMALTSTACK => op_fromaltstack st
  | OP_2DROP | OP_2DUP | OP_3DUP | OP_2OVER | OP_2ROT | OP_2SWAP | OP_IFDUP | OP_DEPTH | OP_DROP | OP_DUP
  | OP_NIP | OP_OVER | OP_ROT | OP_SWAP | OP_TUCK | OP_SIZE => on_stack st (op_stack opcode (stack st))
  | OP_PICK | OP_ROLL => on_stack st (op_pick_roll opcode (stack st))
  | OP_EQUAL | OP_EQUALVERIFY => on_stack st (op_equal opcode (stack st))
  | OP_1ADD | OP_1SUB | OP_NEGATE | OP_ABS | OP_NOT | OP_0NOTEQUAL => on_stack st (op_unary opcode (stack st))
  | OP_ADD | OP_SUB | OP_BOOLAND | OP_BOOLOR | OP_NUMEQUAL | OP_NUMEQUALVERIFY | OP_NUMNOTEQUAL
  | OP_LESSTHAN | OP_GREATERTHAN | OP_LESSTHANOREQUAL | OP_GREATERTHANOREQUAL | OP_MIN | OP_MAX =>
      on_stack st (op_binary opcode (stack st))
  | OP_WITHIN => on_stack st (op_within (stack st))
  | OP_RIPEMD160 | OP_SHA1 | OP_SHA256 | OP_HASH160 | OP_HASH256 => on_stack st (op_hash opcode (stack st))
  | OP_CODESEPARATOR => Ok (set_code st (pc st))
  | OP_CHECKSIG | OP_CHECKSIGVERIFY => on_stack st (op_checksig opcode (pbegincodehash st) (stack st))
  | OP_CHECKMULTISIG | OP_CHECKMULTISIGVERIFY =>
      let! r := op_checkmultisig opcode (pbegincodehash st) (nOpCount st) (stack st) in
      Ok (set_ops st (fst r) (snd r))
  | _ => set_error SCRIPT_ERR_BAD_OPCODE
  end.

Definition disabled (opcode : opcodetype) : bool :=
  match opcode with
  | OP_CAT | OP_SUBSTR | OP_LEFT | OP_RIGHT | OP_INVERT | OP_AND | OP_OR | OP_XOR | OP_2MUL | OP_2DIV
  | OP_MUL | OP_DIV | OP_MOD | OP_LSHIFT | OP_RSHIFT => true
  | _ => false
  end.

(** One iteration of the loop. *)
Definition step (st : eval_state) : M eval_state :=
  let fExec := forallb id (vfExec st) in
  match GetOp2 (pc st) with
  | None => set_error SCRIPT_ERR_BAD_OPCODE
  | Some (opcode, vchPushValue, pc') =>
      if MAX_SCRIPT_ELEMENT_SIZE <? size vchPushValue then set_error SCRIPT_ERR_PUSH_SIZE else
      let op := opcode_value opcode in
      let n := if opcode_value OP_16 <? op then nOpCount st + 1 else nOpCount st in
      if (opcode_value OP_16 <? op) && (MAX_OPS_PER_SCRIPT <? n) then set_error SCRIPT_ERR_OP_COUNT else
      if disabled opcode then set_error SCRIPT_ERR_DISABLED_OPCODE else
      let st := fetched st pc' n in
      let! st :=
        if fExec && (0 <=? op) && (op <=? opcode_value OP_PUSHDATA4) then
          let! _ := fail_unless (negb (fRequireMinimal && negb (CheckMinimalPush vchPushValue opcode)))
                                SCRIPT_ERR_MINIMALDATA in
          Ok (set_stack st (push_back (stack st) vchPushValue))
        else if fExec || ((opcode_value OP_IF <=? op) && (op <=? opcode_value OP_ENDIF))
          then exec_op opcode fExec st
        else Ok st in
      let! _ := fail_unless (size (stack st) + size (altstack st) <=? 1000) SCRIPT_ERR_STACK_SIZE in
      Ok st
  end.

Fixpoint eval_loop (fuel : nat) (st : eval_state) : M eval_state :=
  match pc st with
  | [] => Ok st
  | _ :: _ =>
      match fuel with
      | O => Throw OutOfFuel
      | S fuel => let! st := step st in eval_loop fuel st
      end
  end.

(** [catch (...)]; an assertion failure is not an exception. *)
Definition catch {A} (m : M A) : M A :=
  match m with
  | Throw (Exn_scriptnum _) | Throw Exn_out_of_range | Throw Exn_popstack => set_error SCRIPT_ERR_UNKNOWN_ERROR
  | _ => m
  end.

Definition initial_state (s : list valtype) (script : list Z) : eval_state :=
  {| pc := script; stack := s; altstack := []; vfExec := []; nOpCount := 0; pbegincodehash := script |}.

(** The stack it leaves, or the error it sets. *)
Definition EvalScript (s : list valtype) (script : list Z) : M (list valtype) :=
  if MAX_SCRIPT_SIZE <? size script then set_error SCRIPT_ERR_SCRIPT_SIZE
  else
    let! st := catch (eval_loop (length script) (initial_state s script)) in
    if negb (size (vfExec st) =? 0) then set_error SCRIPT_ERR_UNBALANCED_CONDITIONAL
    else Ok (stack st).

(** ** VerifyScript *)

Definition eval_true (s : list valtype) : M unit :=
  if size s =? 0 then set_error SCRIPT_ERR_EVAL_FALSE
  else
    let! top := stacktop s (-1) in
    fail_unless (CastToBool top) SCRIPT_ERR_EVAL_FALSE.

Definition VerifyScript (scriptSig scriptPubKey : list Z) : M unit :=
  if has flags SCRIPT_VERIFY_SIGPUSHONLY && negb (IsPushOnly scriptSig) then set_error SCRIPT_ERR_SIG_PUSHONLY
  else
    let! s := EvalScript [] scriptSig in
    let stackCopy := s in
    let! s := EvalScript s scriptPubKey in
    let! _ := eval_true s in
    let! s :=
      if has flags SCRIPT_VERIFY_P2SH && IsPayToScriptHash scriptPubKey then
        if negb (IsPushOnly scriptSig) then set_error SCRIPT_ERR_SIG_PUSHONLY
        else
          let s := stackCopy in
          let! _ := cxx_assert (negb (size s =? 0)) in
          let! pubKey2 := stacktop s (-1) in
          let! s := popstack s in
          let! s := EvalScript s pubKey2 in
          let! _ := eval_true s in
          Ok s
      else Ok s in
    if has flags SCRIPT_VERIFY_CLEANSTACK then
      let! _ := cxx_assert (has flags SCRIPT_VERIFY_P2SH) in
      fail_unless (size s =? 1) SCRIPT_ERR_CLEANSTACK
    else Ok tt.

End Eval.
