(* ===== verification/InterpreterProps.v ===== *)
(** * Properties of the script interpreter

    The vector operations under a frame and the stack effects they give, the
    soft-fork safety of the verification flags, and the memory safety, resource
    limits and termination of the evaluator and of [VerifyScript]. *)

From S2P Require Import Prelude Bytes HashEngine Sha256 Sha1 Ripemd160 Hash Serialize Script Interpreter.
Local Open Scope cxx_scope.

(** ** Vector operations under a frame

    An operation that stays within the top [l] of a stack [s ++ l] works as on
    [l] alone. *)

Lemma size_app {A} (s l : list A) : size (s ++ l) = size s + size l.
Proof. unfold size. rewrite length_app. lia. Qed.
Lemma size_nonneg {A} (s : list A) : 0 <= size s.
Proof. unfold size. lia. Qed.
Lemma size_push_back {A} (s : list A) x : size (push_back s x) = size s + 1.
Proof. unfold push_back. by rewrite size_app. Qed.

Definition framed {A} (s : list A) (m : M (list A)) : M (list A) := let! r := m in Ok (s ++ r).

Lemma stacktop_frame {A} (s l : list A) i : - size l <= i -> stacktop (s ++ l) i = stacktop l i.
Proof.
  intros Hi. unfold stacktop, at_. rewrite size_app. pose proof (size_nonneg s).
  rewrite !(proj2 (Z.ltb_ge _ 0)) by lia.
  rewrite lookup_app_r by (unfold size in *; lia).
  replace (Z.to_nat (size s + size l + i) - length s)%nat with (Z.to_nat (size l + i)) by (unfold size in *; lia).
  done.
Qed.

Lemma popstack_frame {A} (s l : list A) : 0 < size l -> popstack (s ++ l) = framed s (popstack l).
Proof.
  intros Hl. unfold popstack, framed. rewrite size_app. pose proof (size_nonneg s).
  rewrite !(proj2 (Z.eqb_neq _ 0)) by lia. cbn [rbind]. f_equal. unfold size in *.
  rewrite length_app, take_app_ge by lia. do 2 f_equal. lia.
Qed.

Lemma swap_frame {A} (s l : list A) i j :
  - size l <= i < 0 -> - size l <= j < 0 -> swap (s ++ l) i j = framed s (swap l i j).
Proof.
  intros Hi Hj. unfold swap. rewrite !stacktop_frame, size_app by lia. pose proof (size_nonneg s).
  destruct (stacktop l i) as [x|]; [|done]. destruct (stacktop l j) as [y|]; [|done].
  cbn [rbind framed]. f_equal. unfold size in *. rewrite !insert_app_r_alt by lia. do 2 f_equal; [lia|].
  f_equal. lia.
Qed.

Lemma erase_frame {A} (s l : list A) i j : i <= size l -> erase (s ++ l) i j = framed s (erase l i j).
Proof.
  intros Hi. unfold erase. rewrite size_app. pose proof (size_nonneg s).
  destruct (j <=? i) eqn:E1, (0 <=? j) eqn:E2; bool_to_prop; cbn [andb]; try done.
  rewrite !(proj2 (Z.leb_le i _)) by lia. cbn [framed rbind]. unfold size in *.
  rewrite take_app_ge, drop_app_ge, <- app_assoc by lia. do 3 f_equal; f_equal; lia.
Qed.

Lemma insert_at_frame {A} (s l : list A) i x :
  i <= size l -> insert_at (s ++ l) i x = framed s (insert_at l i x).
Proof.
  intros Hi. unfold insert_at. rewrite size_app. pose proof (size_nonneg s).
  destruct (0 <=? i) eqn:E1; bool_to_prop; cbn [andb]; try done.
  rewrite !(proj2 (Z.leb_le i _)) by lia. cbn [framed rbind]. unfold size in *.
  rewrite take_app_ge, drop_app_ge, <- app_assoc by lia. do 3 f_equal; [f_equal; lia|]. do 2 f_equal; lia.
Qed.

Lemma need_frame n (s l : list valtype) : n <= size l -> need n (s ++ l) = Ok tt.
Proof.
  intros. unfold need, fail_unless. rewrite size_app. pose proof (size_nonneg s).
  by rewrite (proj2 (Z.leb_le _ _)) by lia.
Qed.

Lemma push_back_frame {A} (s l : list A) x : push_back (s ++ l) x = s ++ push_back l x.
Proof. unfold push_back. by rewrite app_assoc. Qed.

(** Evaluates an operation on a stack whose top elements are written out. *)
Ltac eval_here m := let v := eval cbv in m in change m with v.
Ltac on_top :=
  repeat (first
    [ rewrite need_frame by (unfold size; cbn; lia)
    | rewrite stacktop_frame by (unfold size; cbn; lia)
    | rewrite popstack_frame by (unfold size; cbn; lia)
    | rewrite swap_frame by (unfold size; cbn; lia)
    | rewrite erase_frame by (unfold size; cbn; lia)
    | rewrite insert_at_frame by (unfold size; cbn; lia)
    | rewrite push_back_frame
    | match goal with
      | |- context [stacktop (?x :: ?l) ?i] => eval_here (stacktop (x :: l) i)
      | |- context [popstack (?x :: ?l)] => eval_here (popstack (x :: l))
      | |- context [swap (?x :: ?l) ?i ?j] => eval_here (swap (x :: l) i j)
      | |- context [erase (?x :: ?l) ?i ?j] => eval_here (erase (x :: l) i j)
      | |- context [insert_at (?x :: ?l) ?i ?y] => eval_here (insert_at (x :: l) i y)
      end ];
    cbn [rbind framed]).

(** The stack instructions have the effects their comments announce: each
    line is the comment of the source, [(before -- after)], with the rest of the
    stack untouched.  OP_2SWAP, OP_ROT and OP_2ROT get there by swaps and
    erasures. *)
Theorem stack_effects (s : list valtype) (x1 x2 x3 x4 x5 x6 : valtype) :
  op_stack OP_2DROP (s ++ [x1; x2]) = Ok s /\
  op_stack OP_2DUP (s ++ [x1; x2]) = Ok (s ++ [x1; x2; x1; x2]) /\
  op_stack OP_3DUP (s ++ [x1; x2; x3]) = Ok (s ++ [x1; x2; x3; x1; x2; x3]) /\
  op_stack OP_2OVER (s ++ [x1; x2; x3; x4]) = Ok (s ++ [x1; x2; x3; x4; x1; x2]) /\
  op_stack OP_2ROT (s ++ [x1; x2; x3; x4; x5; x6]) = Ok (s ++ [x3; x4; x5; x6; x1; x2]) /\
  op_stack OP_2SWAP (s ++ [x1; x2; x3; x4]) = Ok (s ++ [x3; x4; x1; x2]) /\
  op_stack OP_IFDUP (s ++ [x1]) = Ok (s ++ (if CastToBool x1 then [x1; x1] else [x1])) /\
  op_stack OP_DEPTH s = Ok (s ++ [serialize (size s)]) /\
  op_stack OP_DROP (s ++ [x1]) = Ok s /\
  op_stack OP_DUP (s ++ [x1]) = Ok (s ++ [x1; x1]) /\
  op_stack OP_NIP (s ++ [x1; x2]) = Ok (s ++ [x2]) /\
  op_stack OP_OVER (s ++ [x1; x2]) = Ok (s ++ [x1; x2; x1]) /\
  op_stack OP_ROT (s ++ [x1; x2; x3]) = Ok (s ++ [x2; x3; x1]) /\
  op_stack OP_SWAP (s ++ [x1; x2]) = Ok (s ++ [x2; x1]) /\
  op_stack OP_TUCK (s ++ [x1; x2]) = Ok (s ++ [x2; x1; x2]) /\
  op_stack OP_SIZE (s ++ [x1]) = Ok (s ++ [x1; serialize (size x1)]).
Proof.
  split_and!; unfold op_stack, op_reorder; on_top; rewrite ?app_nil_r; try done. all: by destruct (CastToBool x1).
Qed.

(** ** Soft-fork safety of the flags

    [m' ⊑ m]: when the stricter computation succeeds, so does the other one,
    with the same result. *)

Definition refines {A} (m' m : M A) : Prop := forall r, m' = Ok r -> m = Ok r.
Local Notation "m' ⊑ m" := (refines m' m) (at level 70).

Lemma refines_refl {A} (m : M A) : m ⊑ m.
Proof. by intros r. Qed.
Lemma refines_throw {A} e (m : M A) : Throw e ⊑ m.
Proof. by intros r. Qed.
Lemma refines_bind {A B} (m' m : M A) (k' k : A -> M B) :
  m' ⊑ m -> (forall a, k' a ⊑ k a) -> rbind m' k' ⊑ rbind m k.
Proof. intros Hm Hk r. destruct m' as [a|]; [|done]. rewrite (Hm a eq_refl). cbn [rbind]. apply Hk. Qed.
Lemma refines_guard {A} (c' c : bool) e' e (k' k : M A) :
  (c = true -> c' = true) -> k' ⊑ k -> (if c' then Throw e' else k') ⊑ (if c then Throw e else k).
Proof. intros Hc Hk. destruct c', c; [by intros r|by intros r|by specialize (Hc eq_refl)|done]. Qed.
Lemma refines_optional (c' c : bool) (m' m : M unit) :
  (c = true -> c' = true) -> m' ⊑ m -> (if c' then m' else Ok tt) ⊑ (if c then m else Ok tt).
Proof.
  intros Hc Hm. destruct c', c; [done| |by specialize (Hc eq_refl)|by intros r]. by intros [] _.
Qed.

Lemma has_sub f g b : f .& g = f -> has f b = true -> has g b = true.
Proof.
  unfold has, nz. intros <- H. apply negb_true_iff in H. apply negb_true_iff. bool_to_prop. apply Z.eqb_neq.
  intros E. apply H. by rewrite <- Z.land_assoc, E, Z.land_0_r.
Qed.

Section Softfork.
Variable CheckLowS : valtype -> bool.
Variable checker : BaseSignatureChecker.
Variables weak strong : Z.
Hypothesis sub : weak .& strong = weak.
Hypothesis nops : has weak SCRIPT_VERIFY_DISCOURAGE_UPGRADABLE_NOPS = true ->
  has weak SCRIPT_VERIFY_CHECKLOCKTIMEVERIFY = true /\ has weak SCRIPT_VERIFY_CHECKSEQUENCEVERIFY = true.

Lemma sub_has b : has weak b = true -> has strong b = true.
Proof. by apply has_sub. Qed.

Ltac weaken :=
  repeat first
    [ apply refines_refl | apply refines_throw
    | apply refines_bind; [|intros ?]
    | apply refines_guard; [rewrite ?andb_true_iff; intuition (auto using sub_has)|]
    | apply refines_optional; [rewrite ?andb_true_iff; intuition (auto using sub_has)|]
    | match goal with
      | |- (if ?b then _ else _) ⊑ (if ?b then _ else _) => destruct b
      | |- (let '(_, _) := ?b in _) ⊑ _ => destruct b
      | |- match ?b with _ => _ end ⊑ match ?b with _ => _ end => destruct b
      end
    | progress cbv zeta ].

Lemma scriptnum_weaken vch n :
  scriptnum vch (fRequireMinimal strong) n ⊑ scriptnum vch (fRequireMinimal weak) n.
Proof.
  unfold scriptnum, CScriptNum, fRequireMinimal. pose proof (sub_has SCRIPT_VERIFY_MINIMALDATA) as H.
  destruct (n <? length vch)%nat; [apply refines_throw|].
  destruct (has weak SCRIPT_VERIFY_MINIMALDATA), (has strong SCRIPT_VERIFY_MINIMALDATA);
    [apply refines_refl|by specialize (H eq_refl)| |apply refines_refl].
  cbn [andb]. destruct (negb (minimal vch)); [apply refines_throw|apply refines_refl].
Qed.
Lemma num_weaken vch : num strong vch ⊑ num weak vch.
Proof. apply scriptnum_weaken. Qed.
Hint Resolve scriptnum_weaken num_weaken : core.

Lemma CheckSignatureEncoding_weaken sig :
  CheckSignatureEncoding CheckLowS strong sig ⊑ CheckSignatureEncoding CheckLowS weak sig.
Proof. unfold CheckSignatureEncoding. weaken. Qed.
Lemma CheckPubKeyEncoding_weaken pk : CheckPubKeyEncoding strong pk ⊑ CheckPubKeyEncoding weak pk.
Proof. unfold CheckPubKeyEncoding. weaken. Qed.
Hint Resolve CheckSignatureEncoding_weaken CheckPubKeyEncoding_weaken : core.

Lemma op_upgradable_nop_weaken s : op_upgradable_nop strong s ⊑ op_upgradable_nop weak s.
Proof. unfold op_upgradable_nop. weaken. Qed.

(** A lock-time instruction that is enabled leaves the stack alone; one that is
    not is a discouraged no-operation. *)
Lemma enabled_weaken (b : Z) (m' m : M (list valtype)) (s : list valtype) :
  (has weak SCRIPT_VERIFY_DISCOURAGE_UPGRADABLE_NOPS = true -> has weak b = true) ->
  (forall r, m' = Ok r -> r = s) -> m' ⊑ m ->
  (if negb (has strong b) then op_upgradable_nop strong s else m') ⊑
  (if negb (has weak b) then op_upgradable_nop weak s else m).
Proof.
  intros Hd Hr Hm. pose proof (sub_has b) as Hb.
  destruct (has strong b), (has weak b); cbn [negb];
    [done| |by specialize (Hb eq_refl)|apply op_upgradable_nop_weaken].
  intros r E. rewrite (Hr r E). unfold op_upgradable_nop.
  destruct (has weak SCRIPT_VERIFY_DISCOURAGE_UPGRADABLE_NOPS); [|done]. by specialize (Hd eq_refl).
Qed.

Ltac ok_inv :=
  repeat match goal with
  | H : rbind ?m _ = Ok _ |- _ => destruct m eqn:?; cbn [rbind] in H; [|done]
  | H : (if ?b then _ else _) = Ok _ |- _ => destruct b eqn:?
  end.

Lemma op_checklocktimeverify_weaken s :
  op_checklocktimeverify checker strong s ⊑ op_checklocktimeverify checker weak s.
Proof.
  unfold op_checklocktimeverify. apply enabled_weaken.
  - intros H. by apply nops in H as [].
  - intros r H. ok_inv; unfold set_error in H; congruence.
  - weaken. auto.
Qed.
Lemma op_checksequenceverify_weaken s :
  op_checksequenceverify checker strong s ⊑ op_checksequenceverify checker weak s.
Proof.
  unfold op_checksequenceverify. apply enabled_weaken.
  - intros H. by apply nops in H as [].
  - intros r H. ok_inv; unfold set_error in H; congruence.
  - weaken. auto.
Qed.

Lemma multisig_loop_weaken fuel s code isig ikey ns nk b :
  multisig_loop CheckLowS checker strong fuel s code isig ikey ns nk b ⊑
  multisig_loop CheckLowS checker weak fuel s code isig ikey ns nk b.
Proof.
  revert isig ikey ns nk b. induction fuel as [|fuel IH]; intros; cbn [multisig_loop]; weaken; auto.
Qed.
Lemma cleanup_loop_weaken n b k s : cleanup_loop strong n b k s ⊑ cleanup_loop weak n b k s.
Proof. revert k s. induction n as [|n IH]; intros; cbn [cleanup_loop]; weaken; auto. Qed.
Hint Resolve multisig_loop_weaken cleanup_loop_weaken : core.

Lemma op_checksig_weaken op code s :
  op_checksig CheckLowS checker strong op code s ⊑ op_checksig CheckLowS checker weak op code s.
Proof. unfold op_checksig. weaken; auto. Qed.
Lemma op_checkmultisig_weaken op code n s :
  op_checkmultisig CheckLowS checker strong op code n s ⊑ op_checkmultisig CheckLowS checker weak op code n s.
Proof. unfold op_checkmultisig. weaken; auto. Qed.

Lemma numeric_weaken op s :
  op_pick_roll strong op s ⊑ op_pick_roll weak op s /\ op_unary strong op s ⊑ op_unary weak op s /\
  op_binary strong op s ⊑ op_binary weak op s /\ op_within strong s ⊑ op_within weak s.
Proof. unfold op_pick_roll, op_unary, op_binary, op_within. split_and!; weaken; auto. Qed.

Lemma exec_op_weaken op b st :
  exec_op CheckLowS checker strong op b st ⊑ exec_op CheckLowS checker weak op b st.
Proof.
  destruct (numeric_weaken op (stack st)) as (H1 & H2 & H3 & H4).
  pose proof op_upgradable_nop_weaken. pose proof op_checklocktimeverify_weaken.
  pose proof op_checksequenceverify_weaken. pose proof op_checksig_weaken. pose proof op_checkmultisig_weaken.
  unfold exec_op, on_stack. destruct op; try apply refines_refl; apply refines_bind; auto using refines_refl.
Qed.

Lemma step_weaken st : step CheckLowS checker strong st ⊑ step CheckLowS checker weak st.
Proof.
  unfold step. destruct (GetOp2 (pc st)) as [[[op vch] pc']|]; [|apply refines_refl]. weaken.
  - unfold fail_unless, fRequireMinimal. pose proof (sub_has SCRIPT_VERIFY_MINIMALDATA) as Hm.
    destruct (CheckMinimalPush vch op), (has strong SCRIPT_VERIFY_MINIMALDATA), (has weak SCRIPT_VERIFY_MINIMALDATA); cbn [negb andb];
      try apply refines_refl; try apply refines_throw.
    by specialize (Hm eq_refl).
  - apply exec_op_weaken.
Qed.

Lemma EvalScript_weaken s script :
  EvalScript CheckLowS checker strong s script ⊑ EvalScript CheckLowS checker weak s script.
Proof.
  unfold EvalScript. weaken. generalize (initial_state s script). intros st.
  assert (eval_loop CheckLowS checker strong (length script) st ⊑ eval_loop CheckLowS checker weak (length script) st) as H.
  { generalize (length script). intros n. revert st. induction n as [|n IH]; intros st; cbn [eval_loop]; weaken;
      auto using step_weaken. }
  intros r. unfold catch. destruct (eval_loop _ _ strong _ st) as [st'|[]] eqn:E; try done.
  by rewrite (H st' eq_refl).
Qed.

Lemma VerifyScript_weaken scriptSig scriptPubKey :
  (has weak SCRIPT_VERIFY_CLEANSTACK = true -> has weak SCRIPT_VERIFY_P2SH = true) ->
  VerifyScript CheckLowS checker strong scriptSig scriptPubKey = Ok tt ->
  VerifyScript CheckLowS checker weak scriptSig scriptPubKey = Ok tt.
Proof.
  intros Hc. pose proof (sub_has SCRIPT_VERIFY_P2SH) as Hp. pose proof (sub_has SCRIPT_VERIFY_CLEANSTACK) as Hcs.
  pose proof EvalScript_weaken as HE. unfold VerifyScript.
  apply refines_guard; [rewrite ?andb_true_iff; intuition (auto using sub_has)|].
  apply refines_bind; [apply HE|intros s0]. apply refines_bind; [apply HE|intros s1].
  apply refines_bind; [apply refines_refl|intros []].
  destruct (has strong SCRIPT_VERIFY_P2SH), (has weak SCRIPT_VERIFY_P2SH); cbn [andb];
    [|clear Hp|by specialize (Hp eq_refl)|].
  - apply refines_bind; [|intros s2].
    { case_if; [|apply refines_refl]. case_if; [apply refines_refl|].
      do 3 (apply refines_bind; [apply refines_refl|intros ?]). apply refines_bind; [apply HE|intros ?].
      apply refines_refl. }
    destruct (has weak SCRIPT_VERIFY_CLEANSTACK); [rewrite Hcs by done; apply refines_refl|]. by intros [].
  - destruct (has weak SCRIPT_VERIFY_CLEANSTACK); [by specialize (Hc eq_refl)|]. by intros [].
  - destruct (has weak SCRIPT_VERIFY_CLEANSTACK); [by specialize (Hc eq_refl)|]. by intros [].
Qed.
End Softfork.

(** C12: the verification flags are soft forks, as interpreter.h says of each of
    them.  A spend accepted under a set of flags is accepted under every subset,
    provided the subset keeps two conventions of the source: CLEANSTACK only
    with P2SH (an assertion), and upgradable no-operations discouraged only when
    NOP2 and NOP3 already have their meaning. *)
Theorem flags_are_soft_forks (CheckLowS : valtype -> bool) (checker : BaseSignatureChecker)
    (weak strong : Z) (scriptSig scriptPubKey : list Z) :
  weak .& strong = weak ->
  (has weak SCRIPT_VERIFY_DISCOURAGE_UPGRADABLE_NOPS = true ->
     has weak SCRIPT_VERIFY_CHECKLOCKTIMEVERIFY = true /\ has weak SCRIPT_VERIFY_CHECKSEQUENCEVERIFY = true) ->
  (has weak SCRIPT_VERIFY_CLEANSTACK = true -> has weak SCRIPT_VERIFY_P2SH = true) ->
  VerifyScript CheckLowS checker strong scriptSig scriptPubKey = Ok tt ->
  VerifyScript CheckLowS checker weak scriptSig scriptPubKey = Ok tt.
Proof. intros. by eapply VerifyScript_weaken. Qed.

(** A spend of [OP_1 OP_EQUAL] by pushing [1], under P2SH, MINIMALDATA and
    CLEANSTACK; hence also under P2SH alone. *)
Lemma flags_are_soft_forks_witness :
  VerifyScript (fun _ => true) BaseSignatureChecker_default (2 ^ 0 + 2 ^ 6 + 2 ^ 8) [81] [81; 135] = Ok tt /\
  VerifyScript (fun _ => true) BaseSignatureChecker_default (2 ^ 0) [81] [81; 135] = Ok tt.
Proof.
  split; [reflexivity|].
  apply (flags_are_soft_forks (fun _ => true) BaseSignatureChecker_default (2 ^ 0) (2 ^ 0 + 2 ^ 6 + 2 ^ 8));
    [reflexivity|discriminate|discriminate|reflexivity].
Defined.

(** ** Memory safety and resource limits

    [safe m Q]: [m] gives a value satisfying [Q], or stops the script by an
    error code or a script-number exception; it does not index or pop outside a
    vector, fail an assertion or run out of iterations. *)

Definition safe {A} (m : M A) (Q : A -> Prop) : Prop :=
  match m with
  | Ok a => Q a
  | Throw (SetError _) | Throw (Exn_scriptnum _) => True
  | Throw _ => False
  end.

Lemma safe_bind {A B} (m : M A) (k : A -> M B) Q : safe m (fun a => safe (k a) Q) -> safe (rbind m k) Q.
Proof. by destruct m. Qed.
Lemma safe_mono {A} (m : M A) (P Q : A -> Prop) : safe m P -> (forall a, P a -> Q a) -> safe m Q.
Proof. intros Hm H. destruct m as [a|[]]; try done. by apply H. Qed.
Lemma safe_fail_unless c e Q : (c = true -> Q tt) -> safe (fail_unless c e) Q.
Proof. intros H. destruct c; [by apply H|done]. Qed.
Lemma safe_need n s Q : (n <= size s -> Q tt) -> safe (need n s) Q.
Proof. intros H. apply safe_fail_unless. intros E. apply H. by apply Z.leb_le. Qed.

Lemma safe_stacktop {A} (P : A -> Prop) (v : list A) i Q :
  Forall P v -> - size v <= i < 0 -> (forall x, P x -> Q x) -> safe (stacktop v i) Q.
Proof.
  intros HP Hi HQ. unfold stacktop, at_. rewrite (proj2 (Z.ltb_ge _ 0)) by lia.
  destruct (v !! Z.to_nat (size v + i)) as [x|] eqn:E.
  - apply HQ. by eapply Forall_lookup_1 in E.
  - apply lookup_ge_None in E. unfold size in *. lia.
Qed.
Lemma safe_popstack {A} (P : A -> Prop) (v : list A) Q :
  Forall P v -> 0 < size v -> (forall w, Forall P w -> size w = size v - 1 -> Q w) -> safe (popstack v) Q.
Proof.
  intros HP Hs HQ. unfold popstack. rewrite (proj2 (Z.eqb_neq _ 0)) by lia. apply HQ; [by apply Forall_take|].
  unfold size in *. rewrite length_take. lia.
Qed.
Lemma safe_swap {A} (P : A -> Prop) (v : list A) i j Q :
  Forall P v -> - size v <= i < 0 -> - size v <= j < 0 ->
  (forall w, Forall P w -> size w = size v -> Q w) -> safe (swap v i j) Q.
Proof.
  intros HP Hi Hj HQ. unfold swap. apply safe_bind, (safe_stacktop P); [done|done|]. intros x Hx.
  apply safe_bind, (safe_stacktop P); [done|done|]. intros y Hy. apply HQ.
  - by apply Forall_insert; [apply Forall_insert|].
  - unfold size. by rewrite !length_insert.
Qed.
Lemma safe_erase {A} (P : A -> Prop) (v : list A) i j Q :
  Forall P v -> 0 <= j <= i -> i <= size v ->
  (forall w, Forall P w -> size w = size v - (i - j) -> Q w) -> safe (erase v i j) Q.
Proof.
  intros HP Hj Hi HQ. unfold erase. rewrite !(proj2 (Z.leb_le _ _)) by lia. apply HQ.
  - apply Forall_app. split; [by apply Forall_take|by apply Forall_drop].
  - unfold size in *. rewrite length_app, length_take, length_drop. lia.
Qed.
Lemma safe_insert_at {A} (P : A -> Prop) (v : list A) i x Q :
  Forall P v -> P x -> 0 <= i <= size v -> (forall w, Forall P w -> Q w) -> safe (insert_at v i x) Q.
Proof.
  intros HP Hx Hi HQ. unfold insert_at. rewrite !(proj2 (Z.leb_le _ _)) by lia. apply HQ.
  apply Forall_app. split; [by apply Forall_take|]. constructor; [done|by apply Forall_drop].
Qed.

(** A stack element: bytes, at most [MAX_SCRIPT_ELEMENT_SIZE] of them. *)
Definition vch_ok (v : valtype) : Prop := bytes_ok v /\ size v <= MAX_SCRIPT_ELEMENT_SIZE.
Definition stack_ok (s : list valtype) : Prop := Forall vch_ok s.

Lemma stack_ok_push s v : stack_ok s -> vch_ok v -> stack_ok (push_back s v).
Proof. intros. apply Forall_app. by split; [|constructor]. Qed.

Lemma bool_vch_ok b : vch_ok (bool_vch b).
Proof. destruct b; (split; [|done]); [by apply Forall_cons_iff|constructor]. Qed.

Lemma serialize_ok v : - 2 ^ 63 < v < 2 ^ 63 -> vch_ok (serialize v).
Proof.
  intros Hv. destruct (Z.eq_dec v 0) as [->|Hz]; [by split; [constructor|]|].
  pose proof (length_serialize v Hv) as Hl. split; [|unfold size, MAX_SCRIPT_ELEMENT_SIZE; lia].
  destruct (serialize_cases v Hz Hv) as (l & b & _ & Hok & _ & _ & _ & _ & ->).
  apply Forall_app in Hok as [Hl' Hb%Forall_inv]. unfold is_u in Hb.
  destruct (Z.leb_spec 128 b); (apply Forall_app; split; [done|]); rewrite ?Forall_cons_iff; unfold is_u;
    case_if; (split_and!; [lia..|constructor]).
Qed.

Lemma scriptnum_range vch rm n Q :
  vch_ok vch -> (n <= 5)%nat -> (forall x, - 2 ^ 40 < x < 2 ^ 40 -> Q x) -> safe (scriptnum vch rm n) Q.
Proof.
  intros [Hok _] Hn HQ. unfold scriptnum, CScriptNum. destruct (Nat.ltb_spec n (length vch)); [done|].
  case_if; [done|]. apply HQ. destruct vch as [|b l _] using rev_ind; [done|].
  apply Forall_app in Hok as [Hl Hb%Forall_inv]. rewrite length_app in H. cbn [length] in H.
  rewrite set_vch_snoc by (done || lia). cbv zeta. destruct (le_val_range l Hl) as [HL0 HL1]. unfold is_u in Hb.
  assert (2 ^ (8 * Z.of_nat (length l)) * 256 <= 2 ^ 40) as HB.
  { change 256 with (2 ^ 8). rewrite <- Z.pow_add_r by lia. apply Z.pow_le_mono_r; lia. }
  pose proof (Z.pow_pos_nonneg 2 (8 * Z.of_nat (length l)) ltac:(lia) ltac:(lia)).
  destruct (Z.leb_spec 128 b); nia.
Qed.

Lemma WriteBE32_ok x : bytes_ok (WriteBE32 x).
Proof. apply Forall_reverse, le_bytes_ok. Qed.
Ltac digest_bytes :=
  repeat (apply Forall_app; split); first [apply WriteBE32_ok | apply le_bytes_ok].
Lemma sha256_digest_ok s : vch_ok (@digest CSHA256 s).
Proof. split; [cbn [digest CSHA256]; digest_bytes|done]. Qed.
Lemma sha1_digest_ok s : vch_ok (@digest CSHA1 s).
Proof. split; [cbn [digest CSHA1]; digest_bytes|done]. Qed.
Lemma ripemd160_digest_ok s : vch_ok (@digest CRIPEMD160 s).
Proof. split; [cbn [digest CRIPEMD160]; digest_bytes|done]. Qed.
Lemma hash_value_ok op vch : vch_ok (hash_value op vch).
Proof.
  unfold hash_value, CHash160_Finalize, CHash256_Finalize, CRIPEMD160_Finalize, CSHA1_Finalize, CSHA256_Finalize, Finalize.
  destruct op; cbv zeta;
    lazymatch goal with
    | |- vch_ok (@digest CSHA256 _) => apply sha256_digest_ok
    | |- vch_ok (@digest CSHA1 _) => apply sha1_digest_ok
    | |- vch_ok (@digest CRIPEMD160 _) => apply ripemd160_digest_ok
    end.
Qed.

Lemma popstack_push_back {A} (s : list A) x : popstack (push_back s x) = Ok s.
Proof.
  unfold push_back. rewrite popstack_frame by (unfold size; cbn; lia).
  change (popstack [x]) with (Ok (E := fault) (@nil A)). cbn [framed rbind]. by rewrite app_nil_r.
Qed.
Lemma stacktop_push_back {A} (s : list A) x : stacktop (push_back s x) (-1) = Ok x.
Proof. unfold push_back. by rewrite stacktop_frame by (unfold size; cbn; lia). Qed.

Section Safety.
Variable CheckLowS : valtype -> bool.
Variable checker : BaseSignatureChecker.
Variable flags : Z.

Ltac safe_go :=
  repeat (cbv zeta; first
    [ exact I
    | assumption
    | lazymatch goal with
      | |- stack_ok (push_back _ _) => apply stack_ok_push
      | |- vch_ok (bool_vch _) => apply bool_vch_ok
      | |- vch_ok (hash_value _ _) => apply hash_value_ok
      | |- safe (rbind _ _) _ => apply safe_bind
      | |- safe (need _ _) _ => apply safe_need; intros ?
      | |- safe (popstack (push_back _ _)) _ => rewrite popstack_push_back; cbn [safe]
      | |- safe (stacktop (push_back _ _) (-1)) _ => rewrite stacktop_push_back; cbn [safe]
      | |- safe (stacktop _ _) _ => eapply (safe_stacktop vch_ok); [eassumption|lia|intros ? ?]
      | |- safe (popstack _) _ => eapply (safe_popstack vch_ok); [eassumption|lia|intros ? ? ?]
      | |- safe (swap _ _ _) _ => eapply (safe_swap vch_ok); [eassumption|lia|lia|intros ? ? ?]
      | |- safe (erase _ _ _) _ => eapply (safe_erase vch_ok); [eassumption|lia|lia|intros ? ? ?]
      | |- safe (insert_at _ _ _) _ => eapply (safe_insert_at vch_ok); [eassumption|eassumption|lia|intros ? ?]
      | |- safe (scriptnum _ _ _) _ =>
          eapply scriptnum_range; [eassumption|unfold nDefaultMaxNumSize; lia|intros ? ?]
      | |- safe (fail_unless _ _) _ => apply safe_fail_unless; intros ?
      | |- safe (if ?b then _ else _) _ => destruct b eqn:?; bool_to_prop
      | |- safe (Ok _) _ => cbn [safe]
      end ]).

Lemma CheckSignatureEncoding_safe sig Q : Q tt -> safe (CheckSignatureEncoding CheckLowS flags sig) Q.
Proof. intros. unfold CheckSignatureEncoding, IsLowDERSignature, fail_unless. by repeat (case_if; cbn [rbind]). Qed.
Lemma CheckPubKeyEncoding_safe pk Q : Q tt -> safe (CheckPubKeyEncoding flags pk) Q.
Proof. intros. unfold CheckPubKeyEncoding. by case_if. Qed.

Lemma op_upgradable_nop_safe s : stack_ok s -> safe (op_upgradable_nop flags s) stack_ok.
Proof. intros. unfold op_upgradable_nop. safe_go. Qed.
Lemma op_checklocktimeverify_safe s : stack_ok s -> safe (op_checklocktimeverify checker flags s) stack_ok.
Proof. intros. unfold op_checklocktimeverify. case_if; [by apply op_upgradable_nop_safe|]. safe_go. Qed.
Lemma op_checksequenceverify_safe s : stack_ok s -> safe (op_checksequenceverify checker flags s) stack_ok.
Proof. intros. unfold op_checksequenceverify. case_if; [by apply op_upgradable_nop_safe|]. safe_go. Qed.

Lemma opcode_value_range op : (forall b, op = OP_byte b -> 0 <= b < 256) -> 0 <= opcode_value op < 256.
Proof. destruct op; cbn; intros H; try lia. by apply H. Qed.

Lemma op_push_number_safe op s :
  0 <= opcode_value op < 256 -> stack_ok s -> safe (op_push_number op s) stack_ok.
Proof.
  intros Hop Hs. apply stack_ok_push; [done|]. apply serialize_ok.
  change (opcode_value OP_1) with 81. lia.
Qed.
Lemma op_verify_safe s : stack_ok s -> safe (op_verify s) stack_ok.
Proof. intros. unfold op_verify. safe_go. Qed.

Lemma op_stack_safe op s : stack_ok s -> size s <= 1000 -> safe (op_stack op s) stack_ok.
Proof.
  intros. pose proof (size_nonneg s). unfold op_stack, op_reorder. destruct op; safe_go; apply serialize_ok; [lia|].
  match goal with H : vch_ok ?x |- _ => destruct H as [_ Hx]; pose proof (size_nonneg x) end.
  unfold MAX_SCRIPT_ELEMENT_SIZE in *. lia.
Qed.

Lemma op_pick_roll_safe op s : stack_ok s -> safe (op_pick_roll flags op s) stack_ok.
Proof. intros. unfold op_pick_roll, num. safe_go. Qed.
Lemma op_equal_safe op s : stack_ok s -> safe (op_equal op s) stack_ok.
Proof. intros. unfold op_equal. safe_go. Qed.

Lemma b2z_range b : 0 <= b2z b <= 1.
Proof. destruct b; cbn; lia. Qed.

Lemma num_neg_safe bn : - 2 ^ 40 < bn < 2 ^ 40 -> num_neg bn = Ok (- bn).
Proof. intros. unfold num_neg, INT64_MIN. by rewrite (proj2 (Z.eqb_neq _ _)) by lia. Qed.

Definition unary_op (op : opcodetype) : Prop :=
  match op with OP_1ADD | OP_1SUB | OP_NEGATE | OP_ABS | OP_NOT | OP_0NOTEQUAL => True | _ => False end.
Lemma op_unary_safe op s : unary_op op -> stack_ok s -> safe (op_unary flags op s) stack_ok.
Proof.
  intros Hop Hs. unfold op_unary, num. safe_go.
  match goal with H : _ < ?x < _ |- _ => rename x into bn end.
  apply (safe_mono _ (fun x => - 2 ^ 63 < x < 2 ^ 63)).
  - pose proof (b2z_range (bn =? 0)). pose proof (b2z_range (negb (bn =? 0))).
    unfold num_add_assign, num_sub_assign, INT64_MIN, INT64_MAX.
    destruct op; try done; rewrite ?num_neg_safe by lia.
    + rewrite (proj2 (Z.leb_le bn _)) by lia. cbn. lia.
    + rewrite (proj2 (Z.leb_le _ bn)) by lia. cbn. lia.
    + cbn. lia.
    + case_if; cbn; lia.
    + cbn [safe]. lia.
    + cbn [safe]. lia.
  - intros y Hy. safe_go. by apply serialize_ok.
Qed.

Definition binary_op (op : opcodetype) : Prop :=
  match op with
  | OP_ADD | OP_SUB | OP_BOOLAND | OP_BOOLOR | OP_NUMEQUAL | OP_NUMEQUALVERIFY | OP_NUMNOTEQUAL
  | OP_LESSTHAN | OP_GREATERTHAN | OP_LESSTHANOREQUAL | OP_GREATERTHANOREQUAL | OP_MIN | OP_MAX => True
  | _ => False
  end.
Lemma binary_value_safe op a b :
  binary_op op -> - 2 ^ 40 < a < 2 ^ 40 -> - 2 ^ 40 < b < 2 ^ 40 ->
  safe (binary_value op a b) (fun x => - 2 ^ 63 < x < 2 ^ 63).
Proof.
  intros Hop Ha Hb. assert (forall c, - 2 ^ 63 < b2z c < 2 ^ 63) as Hc by (by intros []).
  destruct op; try done; unfold binary_value; try apply Hc; unfold num_add, num_sub, int64, INT64_MIN, INT64_MAX;
    try (case_if; cbn [safe]; lia); rewrite !(proj2 (Z.leb_le _ _)) by lia; cbn [andb safe]; lia.
Qed.
Lemma op_binary_safe op s : binary_op op -> stack_ok s -> safe (op_binary flags op s) stack_ok.
Proof.
  intros Hop Hs. unfold op_binary, num. safe_go. eapply safe_mono; [by apply binary_value_safe|].
  intros bn Hbn. cbv beta in Hbn. safe_go. by apply serialize_ok.
Qed.

Lemma op_within_safe s : stack_ok s -> safe (op_within flags s) stack_ok.
Proof. intros. unfold op_within, num. safe_go. Qed.
Lemma op_hash_safe op s : stack_ok s -> safe (op_hash op s) stack_ok.
Proof. intros. unfold op_hash. safe_go. Qed.
Lemma op_checksig_safe op code s : stack_ok s -> safe (op_checksig CheckLowS checker flags op code s) stack_ok.
Proof.
  intros. unfold op_checksig. safe_go. apply CheckSignatureEncoding_safe. safe_go.
  apply CheckPubKeyEncoding_safe. safe_go.
Qed.

Lemma drop_signatures_safe n isig s code :
  stack_ok s -> 0 < isig -> isig + Z.of_nat n - 1 <= size s -> safe (drop_signatures n isig s code) (fun _ => True).
Proof.
  intros Hs. revert isig code. induction n as [|n IH]; intros isig code H0 H1; cbn [drop_signatures]; [done|].
  safe_go. apply IH; lia.
Qed.
Lemma multisig_loop_safe fuel s code isig ikey ns nk b :
  stack_ok s -> 0 < isig -> 0 < ikey -> isig + ns - 1 <= size s -> ikey + nk - 1 <= size s ->
  (b = true -> ns <= nk) -> nk <= Z.of_nat fuel ->
  safe (multisig_loop CheckLowS checker flags fuel s code isig ikey ns nk b) (fun _ => True).
Proof.
  intros Hs. revert isig ikey ns nk b. induction fuel as [|fuel IH]; intros isig ikey ns nk b Hi Hk Hi' Hk' Hb Hf;
    cbn [multisig_loop]; (destruct b; [|done]); specialize (Hb eq_refl); cbn [andb];
    (destruct (Z.ltb_spec 0 ns); [cbn [negb]|done]); [lia|].
  safe_go. apply CheckSignatureEncoding_safe. safe_go. apply CheckPubKeyEncoding_safe.
  case_if; apply IH; try lia; case_if; try done; bool_to_prop; lia.
Qed.
Lemma cleanup_loop_safe n b k s :
  stack_ok s -> Z.of_nat n <= size s -> safe (cleanup_loop flags n b k s) stack_ok.
Proof.
  revert k s. induction n as [|n IH]; intros k s Hs Hn; cbn [cleanup_loop]; [done|]. safe_go; apply IH; try done; lia.
Qed.

Lemma getint_range x : - 2 ^ 31 <= getint x < 2 ^ 31.
Proof. unfold getint. case_if; [lia|]. case_if; [lia|]. bool_to_prop. lia. Qed.

Lemma op_checkmultisig_safe op code n s :
  stack_ok s -> 0 <= n -> 
  safe (op_checkmultisig CheckLowS checker flags op code n s)
       (fun r => stack_ok (fst r) /\ 0 <= snd r <= MAX_OPS_PER_SCRIPT).
Proof.
  intros Hs Hn. unfold op_checkmultisig, num, MAX_PUBKEYS_PER_MULTISIG. safe_go.
  eapply safe_mono; [apply drop_signatures_safe; [done|lia|lia]|]. intros scriptCode _. safe_go.
  eapply safe_mono; [apply multisig_loop_safe; [done|lia..]|]. intros fSuccess _. safe_go.
  eapply safe_mono; [apply cleanup_loop_safe; [done|lia]|]. intros s' Hs'. safe_go.
  all: try (split; cbn [fst snd]; [safe_go|lia]).
Qed.
(** [returns m P]: a value satisfying [P] or an error code. *)
Definition returns {A} (m : M A) (P : A -> Prop) : Prop :=
  (exists a, m = Ok a /\ P a) \/ (exists e, m = Throw (SetError e)).

Lemma returns_bind {A B} (m : M A) (k : A -> M B) P Q :
  returns m P -> (forall a, m = Ok a -> P a -> returns (k a) Q) -> returns (rbind m k) Q.
Proof. intros [(a & -> & Ha)|[e ->]] Hk; [by apply Hk|right; by eexists]. Qed.
Lemma returns_Ok {A} (a : A) (P : A -> Prop) : P a -> returns (Ok a) P.
Proof. intros. left. by eexists. Qed.
Lemma returns_error {A} e (P : A -> Prop) : returns (set_error e) P.
Proof. right. by eexists. Qed.
Lemma returns_fail_unless c e : returns (fail_unless c e) (fun _ => True).
Proof. destruct c; [by apply returns_Ok|apply returns_error]. Qed.

Lemma stacktop_returns {A} (P : A -> Prop) (v : list A) :
  Forall P v -> size v <> 0 -> returns (stacktop v (-1)) P.
Proof.
  intros HP Hv. destruct v as [|x l _] using rev_ind; [done|]. change (l ++ [x]) with (push_back l x) in *.
  rewrite stacktop_push_back. apply returns_Ok. apply Forall_app in HP as [_ HP]. by apply Forall_inv in HP.
Qed.

(** The invariant of the evaluation loop. *)
Definition eval_inv (st : eval_state) : Prop :=
  stack_ok (stack st) /\ stack_ok (altstack st) /\
  size (stack st) + size (altstack st) <= 1000 /\
  0 <= nOpCount st <= MAX_OPS_PER_SCRIPT /\ bytes_ok (pc st).

(** What an instruction may do to the state: the stack-size limit is checked
    after it. *)
Definition op_post (st st' : eval_state) : Prop :=
  stack_ok (stack st') /\ stack_ok (altstack st') /\ 0 <= nOpCount st' <= MAX_OPS_PER_SCRIPT /\ pc st' = pc st.

Lemma on_stack_safe st m :
  stack_ok (altstack st) -> 0 <= nOpCount st <= MAX_OPS_PER_SCRIPT ->
  safe m stack_ok -> safe (on_stack st m) (op_post st).
Proof. intros Ha Hn Hm. apply safe_bind. eapply safe_mono; [exact Hm|]. by intros s Hs. Qed.

Lemma op_conditional_safe op b st :
  stack_ok (stack st) -> stack_ok (altstack st) -> 0 <= nOpCount st <= MAX_OPS_PER_SCRIPT ->
  safe (op_if op b st) (op_post st) /\ safe (op_else st) (op_post st) /\ safe (op_endif st) (op_post st).
Proof.
  intros Hs Ha Hn. pose proof (size_nonneg (vfExec st)).
  assert (Forall (fun _ => True) (vfExec st)) as Hv by (apply Forall_forall; done).
  unfold op_if, op_else, op_endif. split_and!; try case_if; safe_go; bool_to_prop; try done.
  - eapply (safe_stacktop (fun _ => True)); [done|lia|]. intros ? _. safe_go.
    eapply (safe_popstack (fun _ => True)); [done|lia|]. by intros.
  - eapply (safe_popstack (fun _ => True)); [done|lia|]. by intros.
Qed.

Lemma op_altstack_safe st :
  stack_ok (stack st) -> stack_ok (altstack st) -> 0 <= nOpCount st <= MAX_OPS_PER_SCRIPT ->
  safe (op_toaltstack st) (op_post st) /\ safe (op_fromaltstack st) (op_post st).
Proof.
  intros Hs Ha Hn. unfold op_toaltstack, op_fromaltstack. split; safe_go; bool_to_prop; safe_go;
    (refine (conj _ (conj _ (conj _ _))); [..|done|done]; cbn [stack altstack set_stacks]; safe_go).
Qed.

Lemma exec_op_safe op b st :
  0 <= opcode_value op < 256 -> stack_ok (stack st) -> stack_ok (altstack st) -> size (stack st) <= 1000 ->
  0 <= nOpCount st <= MAX_OPS_PER_SCRIPT ->
  safe (exec_op CheckLowS checker flags op b st) (op_post st).
Proof.
  intros Hop Hs Ha Hl Hn. destruct (op_conditional_safe op b st Hs Ha Hn) as (H1 & H2 & H3).
  destruct (op_altstack_safe st Hs Ha Hn) as (H4 & H5).
  unfold exec_op. destruct op; try done; try (apply on_stack_safe; [done|done|]);
    auto using op_push_number_safe, op_checklocktimeverify_safe, op_checksequenceverify_safe,
      op_upgradable_nop_safe, op_verify_safe, op_stack_safe, op_pick_roll_safe, op_equal_safe,
      op_within_safe, op_hash_safe, op_checksig_safe.
  all: try (by apply op_unary_safe); try (by apply op_binary_safe).
  all: apply safe_bind; (eapply safe_mono; [apply op_checkmultisig_safe; [done|lia]|]);
    intros [s' n'] [? ?]; done.
Qed.

Lemma GetOp2_ok p op vch p' :
  bytes_ok p -> GetOp2 p = Some (op, vch, p') -> 0 <= opcode_value op < 256 /\ bytes_ok vch /\ bytes_ok p'.
Proof.
  intros Hp. unfold GetOp2. destruct p as [|b p]; [done|]. apply Forall_cons_iff in Hp as [Hb Hp].
  assert (0 <= opcode_value (to_opcode b) < 256) by (by rewrite opcode_value_to_opcode).
  case_if; [|intros [= <- <- <-]; split; [done|]; split; [constructor|done]].
  destruct (operand_size b p) as [[n q]|] eqn:Eq; [|done]. apply operand_size_suffix in Eq as [r ->].
  apply Forall_app in Hp as [_ Hq]. case_if; [done|]. intros [= <- <- <-].
  split; [done|]. split; [by apply Forall_take|by apply Forall_drop].
Qed.

Lemma step_safe st :
  eval_inv st ->
  safe (step CheckLowS checker flags st) (fun st' => eval_inv st' /\ (length (pc st') < length (pc st))%nat).
Proof.
  intros (Hs & Ha & Hl & Hn & Hp). unfold step. destruct (GetOp2 (pc st)) as [[[op vch] p']|] eqn:EG; [|done].
  destruct (GetOp2_ok _ _ _ _ Hp EG) as (Hop & Hvch & Hp'). apply GetOp2_shrinks in EG.
  pose proof (size_nonneg (altstack st)). case_if; [done|]. cbv zeta. bool_to_prop.
  set (n := if opcode_value OP_16 <? opcode_value op then nOpCount st + 1 else nOpCount st).
  case_if; [done|]. assert (0 <= n <= MAX_OPS_PER_SCRIPT) as Hn'.
  { unfold n in *. destruct (opcode_value OP_16 <? opcode_value op); cbn [andb] in *; bool_to_prop; lia. }
  clearbody n. case_if; [done|]. apply safe_bind, (safe_mono _ (op_post (fetched st p' n))).
  - case_if; [|case_if; [|done]].
    + apply safe_bind, safe_fail_unless. intros _. refine (conj _ (conj Ha (conj Hn' eq_refl))).
      by apply stack_ok_push.
    + apply exec_op_safe; cbn [stack altstack nOpCount fetched]; try done. lia.
  - intros st' (Hs' & Ha' & Hn'' & Epc). apply safe_bind, safe_fail_unless. intros Hsz%Z.leb_le. cbn [safe].
    rewrite Epc. cbn [pc fetched]. split; [|done].
    refine (conj Hs' (conj Ha' (conj Hsz (conj Hn'' _)))). by rewrite Epc.
Qed.

Lemma eval_loop_safe fuel st :
  eval_inv st -> (length (pc st) <= fuel)%nat -> safe (eval_loop CheckLowS checker flags fuel st) eval_inv.
Proof.
  revert st. induction fuel as [|fuel IH]; intros st Hi Hf; cbn [eval_loop]; destruct (pc st) eqn:Ep; try done.
  - cbn [length] in Hf. lia.
  - apply safe_bind. eapply safe_mono; [by apply step_safe|]. intros st' [Hi' Hlt]. apply IH; [done|].
    rewrite Ep in Hlt. cbn [length] in *. lia.
Qed.

Lemma initial_inv s script :
  stack_ok s -> size s <= 1000 -> bytes_ok script -> eval_inv (initial_state s script).
Proof.
  intros Hs Hl Hb. refine (conj Hs (conj _ (conj _ (conj _ Hb)))); [constructor| |].
  - cbn [stack altstack initial_state]. change (size (@nil valtype)) with 0. lia.
  - cbn [nOpCount initial_state]. unfold MAX_OPS_PER_SCRIPT. lia.
Qed.

(** [EvalScript] catches the script-number exceptions. *)
Lemma EvalScript_returns s script :
  stack_ok s -> size s <= 1000 -> bytes_ok script ->
  returns (EvalScript CheckLowS checker flags s script) (fun s' => stack_ok s' /\ size s' <= 1000).
Proof.
  intros Hs Hl Hb. unfold returns, EvalScript. case_if; [right; by eexists|].
  pose proof (eval_loop_safe (length script) _ (initial_inv s script Hs Hl Hb) ltac:(done)) as H. revert H.
  destruct (eval_loop _ _ _ _ _) as [st|[]]; cbn [safe catch rbind]; intros H; try done; try (right; by eexists).
  case_if; [right; by eexists|]. left. eexists. split; [done|].
  destruct H as (H1 & _ & H2 & _). pose proof (size_nonneg (altstack st)). split; [done|lia].
Qed.

(** Evaluation of the P2SH template starts by hashing the top of the stack. *)
Lemma P2SH_needs_operand script :
  IsPayToScriptHash script = true -> exists e, EvalScript CheckLowS checker flags [] script = Throw (SetError e).
Proof.
  intros (h & Hh & ->)%P2SH_shape. unfold EvalScript. case_if; [by eexists|]. clear E.
  change ([opcode_value OP_HASH160; 0x14] ++ h ++ [opcode_value OP_EQUAL]) with (169 :: [0x14] ++ h ++ [135]).
  generalize ([0x14] ++ h ++ [135]). intros rest.
  assert (step CheckLowS checker flags (initial_state [] (169 :: rest)) = set_error SCRIPT_ERR_INVALID_STACK_OPERATION)
    as Hstep by reflexivity.
  change (eval_loop CheckLowS checker flags (length (169 :: rest)) (initial_state [] (169 :: rest)))
    with (let! st := step CheckLowS checker flags (initial_state [] (169 :: rest)) in
          eval_loop CheckLowS checker flags (length rest) st).
  rewrite Hstep. by eexists.
Qed.
End Safety.

Lemma eval_true_returns s : stack_ok s -> returns (eval_true s) (fun _ => True).
Proof.
  intros Hs. unfold eval_true. case_if; [apply returns_error|]. bool_to_prop.
  eapply returns_bind; [by apply (stacktop_returns vch_ok)|]. intros v _ _. apply returns_fail_unless.
Qed.

(** States reached from one another by iterations of the loop. *)
Inductive eval_steps (CheckLowS : valtype -> bool) (checker : BaseSignatureChecker) (flags : Z) :
    eval_state -> eval_state -> Prop :=
| eval_refl st : eval_steps CheckLowS checker flags st st
| eval_next st st1 st2 :
    eval_steps CheckLowS checker flags st st1 -> pc st1 <> [] -> step CheckLowS checker flags st1 = Ok st2 ->
    eval_steps CheckLowS checker flags st st2.

(** C10: the evaluator stays within its limits and always returns.  Started on a
    stack of at most 1000 elements of at most 520 bytes, every state the loop
    reaches has at most 1000 elements on both stacks together, each of at most
    520 bytes, and has counted at most 201 operations; an iteration consumes
    script, and either continues or ends the script with an error code or a
    script-number exception: no access or pop outside a vector, no failed
    assertion in the number arithmetic, no signed overflow.  So [EvalScript]
    returns a stack within the same limits or an error code, for every script. *)
Theorem EvalScript_limits (CheckLowS : valtype -> bool) (checker : BaseSignatureChecker) (flags : Z)
    (s : list valtype) (script : list Z) :
  stack_ok s -> size s <= 1000 -> bytes_ok script ->
  (forall st, eval_steps CheckLowS checker flags (initial_state s script) st ->
     eval_inv st /\
     match step CheckLowS checker flags st with
     | Ok st' => (length (pc st') < length (pc st))%nat
     | Throw (SetError _) | Throw (Exn_scriptnum _) => True
     | Throw _ => False
     end) /\
  returns (EvalScript CheckLowS checker flags s script) (fun s' => stack_ok s' /\ size s' <= 1000).
Proof.
  intros Hs Hl Hb. split; [|by apply EvalScript_returns]. intros st Hst.
  assert (eval_inv st) as Hi.
  { remember (initial_state s script) as st0 eqn:E0. revert E0.
    induction Hst as [st|st st1 st2 Hst IH Hpc Hstep]; intros ->; [by apply initial_inv|].
    pose proof (step_safe CheckLowS checker flags st1 (IH eq_refl)) as H. rewrite Hstep in H. by destruct H. }
  split; [done|]. pose proof (step_safe CheckLowS checker flags st Hi) as H.
  by destruct (step CheckLowS checker flags st) as [st'|[]]; cbn [safe] in H; [destruct H|..].
Qed.

(** [OP_1 OP_DUP OP_ADD] on the empty stack. *)
Lemma EvalScript_limits_witness :
  EvalScript (fun _ => true) BaseSignatureChecker_default 0 [] [81; 118; 147] = Ok [[2]] /\
  returns (EvalScript (fun _ => true) BaseSignatureChecker_default 0 [] [81; 118; 147])
    (fun s' => stack_ok s' /\ size s' <= 1000).
Proof.
  split; [reflexivity|].
  apply (EvalScript_limits (fun _ => true) BaseSignatureChecker_default 0 [] [81; 118; 147]);
    [constructor|unfold size; cbn; lia|].
  apply Forall_cons_iff; split; [unfold is_u; lia|]. apply Forall_cons_iff; split; [unfold is_u; lia|].
  apply Forall_cons_iff; split; [unfold is_u; lia|constructor].
Defined.

(** C11: [VerifyScript] always returns an answer.  With CLEANSTACK only used
    together with P2SH, neither of its assertions can fail - in particular the
    saved stack is not empty when a pay-to-script-hash output is spent, as the
    comment there argues - and every evaluation inside it terminates. *)
Theorem VerifyScript_returns (CheckLowS : valtype -> bool) (checker : BaseSignatureChecker) (flags : Z)
    (scriptSig scriptPubKey : list Z) :
  bytes_ok scriptSig -> bytes_ok scriptPubKey ->
  (has flags SCRIPT_VERIFY_CLEANSTACK = true -> has flags SCRIPT_VERIFY_P2SH = true) ->
  returns (VerifyScript CheckLowS checker flags scriptSig scriptPubKey) (fun _ => True).
Proof.
  intros Hsig Hpk Hc. unfold VerifyScript. case_if; [apply returns_error|].
  pose proof (EvalScript_returns CheckLowS checker flags) as HE.
  eapply returns_bind; [apply HE; [constructor|unfold size; cbn; lia|done]|]. intros s0 _ [Hs0 Hl0].
  eapply returns_bind; [by apply HE|]. intros s1 E1 [Hs1 Hl1].
  eapply returns_bind; [by apply eval_true_returns|]. intros [] _ _. cbv zeta.
  apply (returns_bind _ _ (fun _ => True)).
  - case_if; [|by apply returns_Ok]. bool_to_prop. case_if; [apply returns_error|].
    assert (size s0 <> 0) as Hne.
    { intros Hz. destruct s0; [|done]. destruct (P2SH_needs_operand CheckLowS checker flags scriptPubKey) as [e Ee]; [done|].
      by rewrite Ee in E1. }
    unfold cxx_assert. rewrite (proj2 (Z.eqb_neq _ 0)) by done. cbn [negb rbind].
    eapply returns_bind; [by apply (stacktop_returns vch_ok)|]. intros v _ [Hv _].
    destruct s0 as [|x s0 _] using rev_ind; [done|]. change (s0 ++ [x]) with (push_back s0 x) in *.
    rewrite popstack_push_back. cbn [rbind]. rewrite size_push_back in Hl0.
    apply Forall_app in Hs0 as [Hs0 _]. eapply returns_bind; [apply HE; [done|lia|done]|]. intros s2 _ [Hs2 _].
    eapply returns_bind; [by apply eval_true_returns|]. intros [] _ _. by apply returns_Ok.
  - intros s2 _ _. case_if; [|by apply returns_Ok]. rewrite Hc by done. apply returns_fail_unless.
Qed.

Lemma VerifyScript_returns_witness :
  VerifyScript (fun _ => true) BaseSignatureChecker_default 1 [81] [135] =
    Throw (SetError SCRIPT_ERR_INVALID_STACK_OPERATION) /\
  returns (VerifyScript (fun _ => true) BaseSignatureChecker_default 1 [81] [135]) (fun _ => True).
Proof.
  split; [reflexivity|]. apply (VerifyScript_returns (fun _ => true) BaseSignatureChecker_default 1 [81] [135]).
  - apply Forall_cons_iff; split; [unfold is_u; lia|constructor].
  - apply Forall_cons_iff; split; [unfold is_u; lia|constructor].
  - reflexivity.
Defined.
