(* ===== verification/InterpreterSpec.v ===== *)
(** * What the interpreter computes

    The strings the signature encoding check accepts, the assignment of
    signatures to keys OP_CHECKMULTISIG looks for, and what spends a
    pay-to-pubkey-hash output. *)

From S2P Require Import Prelude Bytes Hash Serialize Script Interpreter InterpreterProps.
Local Open Scope cxx_scope.

(** ** Signature encodings *)

(** A DER integer as BIP66 wants it: not empty, not negative, no needless
    leading zero byte. *)
Definition der_integer (r : list Z) : Prop :=
  r <> [] /\ aget r 0 < 0x80 /\ ((1 < length r)%nat -> aget r 0 = 0 -> 0x80 <= aget r 1).

Lemma sign_bit b : is_u 8 b -> nz (b .& 0x80) = (128 <=? b).
Proof. intros Hb. by apply byte_sign. Qed.

(** The tests on one integer of the signature. *)
Lemma der_integer_tests r :
  bytes_ok r ->
  der_integer r <->
  size r <> 0 /\ nz (aget r 0 .& 0x80) = false /\
  (1 <? size r) && (aget r 0 =? 0x00) && negb (nz (aget r 1 .& 0x80)) = false.
Proof.
  intros Hr. assert (forall i, is_u 8 (aget r i)) as Hi by (intros; by apply aget_Forall).
  rewrite !sign_bit by apply Hi. unfold der_integer, size.
  assert (r <> [] <-> Z.of_nat (length r) <> 0) as -> by (destruct r; cbn [length]; split; (done || lia)).
  destruct (Z.ltb_spec 1 (Z.of_nat (length r))), (Z.eqb_spec (aget r 0) 0), (Z.leb_spec 128 (aget r 0)),
    (Z.leb_spec 128 (aget r 1)); cbn [andb negb]; intuition (try lia; try done).
Qed.

(** A signature cut at the lengths it announces. *)
Lemma signature_cut sig :
  9 <= size sig -> 0 <= aget sig 3 -> 0 <= aget sig (Z.to_nat (5 + aget sig 3)) ->
  aget sig 3 + aget sig (Z.to_nat (5 + aget sig 3)) + 7 = size sig ->
  exists r s ht, sig = [aget sig 0; aget sig 1; aget sig 2; size r] ++ r ++ [aget sig (Z.to_nat (aget sig 3 + 4)); size s] ++ s ++ [ht].
Proof.
  intros H9 H0 H1 Hlen. set (lr := Z.to_nat (aget sig 3)).
  destruct sig as [|a0 [|a1 [|a2 [|a3 t]]]]; try (unfold size in H9; cbn [length] in H9; lia).
  cbn [aget nth] in lr. unfold size in *. cbn [length] in *.
  change (aget (a0 :: a1 :: a2 :: a3 :: t) 3) with a3 in *.
  replace (Z.to_nat (5 + a3)) with (4 + (lr + 1))%nat in * by lia.
  replace (Z.to_nat (a3 + 4)) with (4 + lr)%nat by lia.
  change (aget (a0 :: a1 :: a2 :: a3 :: t) (4 + (lr + 1))) with (aget t (lr + 1)) in *.
  change (aget (a0 :: a1 :: a2 :: a3 :: t) (4 + lr)) with (aget t lr).
  assert (exists r t', t = r ++ t' /\ length r = lr) as (r & t' & -> & Hr).
  { exists (take lr t), (drop lr t). rewrite take_drop, length_take. split; [done|lia]. }
  rewrite (aget_app_r r t' (lr + 1)) in * by lia. rewrite (aget_app_r r t' lr) by lia.
  replace (lr + 1 - length r)%nat with 1%nat in * by lia. replace (lr - length r)%nat with 0%nat by lia.
  rewrite length_app in *. destruct t' as [|c [|d u]]; cbn [length] in *; try lia.
  change (aget (c :: d :: u) 1) with d in *. change (aget (c :: d :: u) 0) with c.
  destruct u as [|ht s _] using rev_ind; [cbn [length] in *; lia|]. rewrite length_app in *. cbn [length] in *.
  exists r, s, ht. cbn [aget nth app]. do 4 f_equal; [lia|]. f_equal. do 2 f_equal. lia.
Qed.

(** The tests on a signature of that shape. *)
Lemma signature_tests a0 a1 a2 r c s ht :
  bytes_ok r -> bytes_ok s ->
  let sig := [a0; a1; a2; size r] ++ r ++ [c; size s] ++ s ++ [ht] in
  IsValidSignatureEncoding sig = true <->
  a0 = 0x30 /\ a1 = size r + size s + 4 /\ a2 = 0x02 /\ c = 0x02 /\
  der_integer r /\ der_integer s /\ size sig <= 73.
Proof.
  intros Hr Hs sig. rewrite !der_integer_tests by done.
  assert (size sig = size r + size s + 7) as Hsz by (unfold sig, size; rewrite !length_app; cbn [length]; lia).
  pose proof (size_nonneg r). pose proof (size_nonneg s).
  assert (forall i, aget sig (4 + i) = aget (r ++ [c; size s] ++ s ++ [ht]) i) as H4 by done.
  assert (forall i, aget (r ++ [c; size s] ++ s ++ [ht]) (length r + i) = aget ([c; size s] ++ s ++ [ht]) i) as Hrr.
  { intros i. rewrite aget_app_r by lia. f_equal. lia. }
  assert (aget sig (Z.to_nat (5 + size r)) = size s) as E5.
  { replace (Z.to_nat (5 + size r)) with (4 + (length r + 1))%nat by (unfold size; lia). by rewrite H4, Hrr. }
  assert (aget sig (Z.to_nat (size r + 4)) = c) as E4.
  { replace (Z.to_nat (size r + 4)) with (4 + (length r + 0))%nat by (unfold size; lia). by rewrite H4, Hrr. }
  assert (size s <> 0 -> aget sig (Z.to_nat (size r + 6)) = aget s 0) as E6.
  { intros Hn. replace (Z.to_nat (size r + 6)) with (4 + (length r + 2))%nat by (unfold size; lia). rewrite H4, Hrr.
    change (aget (s ++ [ht]) 0 = aget s 0). apply aget_app_l. unfold size in *. lia. }
  assert (1 < size s -> aget sig (Z.to_nat (size r + 7)) = aget s 1) as E7.
  { intros Hn. replace (Z.to_nat (size r + 7)) with (4 + (length r + 3))%nat by (unfold size; lia). rewrite H4, Hrr.
    change (aget (s ++ [ht]) 1 = aget s 1). apply aget_app_l. unfold size in *. lia. }
  assert (size r <> 0 -> aget sig 4 = aget r 0) as F4.
  { intros Hn. etransitivity; [exact (H4 0%nat)|]. apply aget_app_l. unfold size in *. lia. }
  assert (1 < size r -> aget sig 5 = aget r 1) as F5.
  { intros Hn. etransitivity; [exact (H4 1%nat)|]. apply aget_app_l. unfold size in *. lia. }
  assert (aget sig 0 = a0 /\ aget sig 1 = a1 /\ aget sig 2 = a2 /\ aget sig 3 = size r) as (G0 & G1 & G2 & G3) by done.
  unfold IsValidSignatureEncoding. cbv zeta. rewrite G0, G1, G2, G3, E5, E4. clearbody sig. clear H4 Hrr.
  do 8 (match goal with |- context [if ?b then false else _] => destruct b eqn:?; bool_to_prop end;
    [split; [done|]; intros (? & ? & ? & ? & (? & ? & ?) & (? & ? & ?) & ?); lia|]).
  rewrite F4 by done.
  assert ((1 <? size r) && (aget r 0 =? 0) && negb (nz (aget sig 5 .& 0x80)) =
          (1 <? size r) && (aget r 0 =? 0) && negb (nz (aget r 1 .& 0x80))) as ->.
  { destruct (Z.ltb_spec 1 (size r)); [by rewrite F5|done]. }
  do 2 (match goal with |- context [if ?b then false else _] => destruct b end; [intuition congruence|]).
  do 2 (match goal with |- context [if ?b then false else _] => destruct b eqn:?; bool_to_prop end;
    [split; [done|]; intros (? & ? & ? & ? & (? & ? & ?) & (? & ? & ?) & ?); lia|]).
  rewrite E6 by done.
  assert ((1 <? size s) && (aget s 0 =? 0) && negb (nz (aget sig (Z.to_nat (size r + 7)) .& 0x80)) =
          (1 <? size s) && (aget s 0 =? 0) && negb (nz (aget s 1 .& 0x80))) as ->.
  { destruct (Z.ltb_spec 1 (size s)); [by rewrite E7|done]. }
  do 2 (match goal with |- context [if ?b then false else _] => destruct b end; [intuition congruence|]).
  split; [|done]. intros _. repeat (split; [done || lia|]). done.
Qed.

(** What a strictly encoded signature is.  The byte-by-byte tests of
    [IsValidSignatureEncoding] accept exactly the strings of the documented
    form [0x30 len 0x02 lenR R 0x02 lenS S hashtype], with both lengths right,
    both integers non-negative without needless leading zeros, and at most 73
    bytes in all; the indices the tests use are always inside the signature. *)
Theorem IsValidSignatureEncoding_spec (sig : valtype) :
  bytes_ok sig ->
  IsValidSignatureEncoding sig = true <->
  exists r s ht,
    sig = [0x30; size r + size s + 4; 0x02; size r] ++ r ++ [0x02; size s] ++ s ++ [ht] /\
    der_integer r /\ der_integer s /\ size sig <= 73.
Proof.
  intros Hsig. assert (forall i, 0 <= aget sig i) as Hpos by (intros; by apply (aget_Forall (is_u 8))).
  split.
  - intros HV. assert (exists a0 a1 a2 r c s ht, sig = [a0; a1; a2; size r] ++ r ++ [c; size s] ++ s ++ [ht])
      as (a0 & a1 & a2 & r & c & s & ht & ->).
    { revert HV. unfold IsValidSignatureEncoding. repeat (case_if; [done|]). intros _. bool_to_prop.
      destruct (signature_cut sig) as (r & s & ht & Hcut); [done|apply Hpos|apply Hpos|done|].
      eexists _, _, _, r, _, s, ht. exact Hcut. }
    unfold bytes_ok in Hsig. rewrite !Forall_app in Hsig. destruct Hsig as (_ & Hr & _ & Hs & _).
    apply signature_tests in HV as (-> & -> & -> & -> & Hdr & Hds & Hl); [|done|done]. by exists r, s, ht.
  - intros (r & s & ht & -> & Hdr & Hds & Hl). unfold bytes_ok in Hsig. rewrite !Forall_app in Hsig. destruct Hsig as (_ & Hr & _ & Hs & _).
    by apply signature_tests.
Qed.

(** The shortest signature: both integers one byte. *)
Lemma IsValidSignatureEncoding_spec_witness :
  IsValidSignatureEncoding [0x30; 6; 2; 1; 1; 2; 1; 1; 1] = true /\
  exists r s ht, [0x30; 6; 2; 1; 1; 2; 1; 1; 1] = [0x30; size r + size s + 4; 0x02; size r] ++ r ++ [0x02; size s] ++ s ++ [ht] /\
    der_integer r /\ der_integer s /\ size [0x30; 6; 2; 1; 1; 2; 1; 1; 1] <= 73.
Proof.
  split; [reflexivity|]. apply (IsValidSignatureEncoding_spec [0x30; 6; 2; 1; 1; 2; 1; 1; 1]); [|reflexivity].
  repeat (apply Forall_cons_iff; split; [unfold is_u; lia|]). constructor.
Defined.

(** ** OP_CHECKMULTISIG *)

(** Greedy assignment of signatures to keys, both in the order they are tried. *)
Fixpoint greedy (ok : valtype -> valtype -> bool) (sigs keys : list valtype) : bool :=
  match sigs, keys with
  | [], _ => true
  | _, [] => false
  | s :: sigs', k :: keys' => if ok s k then greedy ok sigs' keys' else greedy ok sigs keys'
  end.

Lemma greedy_nil ok keys : greedy ok [] keys = true.
Proof. by destruct keys. Qed.

Lemma greedy_short ok sigs keys : (length keys < length sigs)%nat -> greedy ok sigs keys = false.
Proof.
  revert sigs. induction keys as [|k keys IH]; intros [|s sigs] H; cbn [length greedy] in *; try done; [lia|lia|].
  case_if; apply IH; cbn [length]; lia.
Qed.

(** Greedy finds an order-preserving assignment whenever there is one. *)
Lemma greedy_spec ok sigs keys :
  greedy ok sigs keys = true <->
  exists ks, ks `sublist_of` keys /\ Forall2 (fun s k => ok s k = true) sigs ks.
Proof.
  revert sigs. induction keys as [|k keys IH]; intros [|s sigs]; cbn [greedy].
  - split; [|done]. exists []. split; constructor.
  - split; [done|]. intros (ks & Hks%sublist_nil_r & HF). subst. by inversion HF.
  - split; [|done]. intros _. exists []. split; [apply sublist_nil_l|constructor].
  - destruct (ok s k) eqn:Eok.
    + rewrite IH. split.
      * intros (ks & Hks & HF). exists (k :: ks). split; [by apply sublist_skip|by constructor].
      * intros (ks & Hks & HF). inversion HF as [|s' k' ss ks' Hk HF']; subst. exists ks'. split; [|done].
        apply sublist_cons_r in Hks as [Hks|(l & [= -> ->] & Hks)]; [|done].
        etransitivity; [|exact Hks]. by apply sublist_cons.
    + rewrite IH. split; intros (ks & Hks & HF); exists ks; (split; [|done]); [by apply sublist_cons|].
      apply sublist_cons_r in Hks as [Hks|(l & -> & Hks)]; [done|].
      inversion HF; subst. congruence.
Qed.

(** The top of a stack is the front of its reverse. *)
Lemma stacktop_reverse {A} (s : list A) i x :
  0 < i -> reverse s !! Z.to_nat (i - 1) = Some x -> stacktop s (- i) = Ok x.
Proof.
  intros Hi Hx. pose proof (lookup_lt_Some _ _ _ Hx) as Hl. rewrite length_reverse in Hl.
  rewrite reverse_lookup in Hx by done. unfold stacktop, at_, size. rewrite (proj2 (Z.ltb_ge _ 0)) by lia.
  replace (Z.to_nat (Z.of_nat (length s) + - i)) with (length s - S (Z.to_nat (i - 1)))%nat by lia. by rewrite Hx.
Qed.

(** [span s i l]: below the first [i - 1] elements of the stack come those of
    [l], from the top down. *)
Definition span (s : list valtype) (i : Z) (l : list valtype) : Prop :=
  0 < i /\ exists rest, drop (Z.to_nat (i - 1)) (reverse s) = l ++ rest.

Lemma span_cons s i x l : span s i (x :: l) -> stacktop s (- i) = Ok x /\ span s (i + 1) l.
Proof.
  intros [Hi [rest Hd]]. split.
  - apply stacktop_reverse; [done|]. rewrite <- (Nat.add_0_r (Z.to_nat (i - 1))), <- lookup_drop, Hd. done.
  - split; [lia|]. exists rest. replace (Z.to_nat (i + 1 - 1)) with (Z.to_nat (i - 1) + 1)%nat by lia.
    by rewrite <- drop_drop, Hd.
Qed.

Section Multisig.
Variable CheckLowS : valtype -> bool.
Variable checker : BaseSignatureChecker.
Variable flags : Z.

Lemma drop_signatures_span sigs isig s code :
  span s isig sigs ->
  drop_signatures (length sigs) isig s code =
  Ok (fold_left (fun c sig => fst (FindAndDelete c (push_data sig))) sigs code).
Proof.
  revert isig code. induction sigs as [|x sigs IH]; intros isig code Hs; [done|].
  apply span_cons in Hs as [Hx Hs]. cbn [length drop_signatures fold_left]. rewrite Hx. cbn [rbind]. by apply IH.
Qed.

Lemma multisig_loop_greedy fuel s code isig ikey sigs keys :
  span s isig sigs -> span s ikey keys -> (length sigs <= length keys)%nat -> (length keys <= fuel)%nat ->
  Forall (fun x => CheckSignatureEncoding CheckLowS flags x = Ok tt) sigs ->
  Forall (fun x => CheckPubKeyEncoding flags x = Ok tt) keys ->
  multisig_loop CheckLowS checker flags fuel s code isig ikey (size sigs) (size keys) true =
  Ok (greedy (fun sg k => CheckSig checker sg k code) sigs keys).
Proof.
  revert isig ikey sigs keys. induction fuel as [|fuel IH]; intros isig ikey sigs keys Hsig Hkey Hle Hf Hse Hke;
    destruct sigs as [|sg sigs]; try (by rewrite greedy_nil); destruct keys as [|k keys]; cbn [length] in *; try lia.
  cbn [multisig_loop]. rewrite (proj2 (Z.ltb_lt 0 (size (sg :: sigs)))) by (unfold size; cbn [length]; lia).
  cbn [andb negb]. destruct (span_cons _ _ _ _ Hsig) as [-> Hsig']. destruct (span_cons _ _ _ _ Hkey) as [-> Hkey'].
  apply Forall_cons_iff in Hse as [Hsg Hse]. apply Forall_cons_iff in Hke as [Hk Hke].
  cbn [rbind]. rewrite Hsg. cbn [rbind]. rewrite Hk. cbn [rbind greedy].
  replace (size (k :: keys) - 1) with (size keys) by (unfold size; cbn [length]; lia).
  destruct (CheckSig checker sg k code).
  - replace (size (sg :: sigs) - 1) with (size sigs) by (unfold size; cbn [length]; lia).
    rewrite (proj2 (Z.ltb_ge _ _)) by (unfold size; lia). apply IH; try done; lia.
  - destruct (Z.ltb_spec (size keys) (size (sg :: sigs))) as [Hlt|Hge].
    + unfold size in Hlt. rewrite greedy_short by (cbn [length] in *; lia).
      destruct fuel; cbn [multisig_loop andb negb]; done.
    + unfold size in Hge. cbn [length] in Hge. apply IH; try done; [cbn [length]; lia|lia|by apply Forall_cons_iff].
Qed.

(** Above the signatures the clean-up pops without looking. *)
Lemma cleanup_loop_skip (l s : list valtype) m b k :
  Z.of_nat (length l) <= k ->
  cleanup_loop flags (length l + m) b k (s ++ l) = cleanup_loop flags m b (k - Z.of_nat (length l)) s.
Proof.
  revert k. induction l as [|x l IH] using rev_ind; intros k Hk.
  - rewrite app_nil_r. cbn [length Nat.add]. f_equal. lia.
  - rewrite length_app in *. cbn [length] in *. replace (length l + 1 + m)%nat with (S (length l + m)) by lia.
    cbn [cleanup_loop]. rewrite (proj2 (Z.eqb_neq k 0)), andb_false_r by lia. cbn [rbind]. rewrite app_assoc.
    change ((s ++ l) ++ [x]) with (push_back (s ++ l) x). rewrite popstack_push_back. cbn [rbind].
    rewrite (proj2 (Z.ltb_lt 0 k)), IH by lia. f_equal. lia.
Qed.

(** The signatures of a failed check must be empty under NULLFAIL. *)
Definition nonempty (x : valtype) : bool := negb (size x =? 0).

Lemma cleanup_loop_signatures (l s : list valtype) b :
  cleanup_loop flags (length l) b 0 (s ++ l) =
  if negb b && has flags SCRIPT_VERIFY_NULLFAIL && existsb nonempty l
  then set_error SCRIPT_ERR_SIG_NULLFAIL else Ok s.
Proof.
  induction l as [|x l IH] using rev_ind; [by rewrite app_nil_r, andb_false_r|].
  rewrite length_app. cbn [length]. rewrite Nat.add_1_r. cbn [cleanup_loop]. rewrite Z.eqb_refl, andb_true_r, app_assoc.
  change ((s ++ l) ++ [x]) with (push_back (s ++ l) x). rewrite existsb_app. cbn [existsb]. rewrite orb_false_r.
  rewrite stacktop_push_back, popstack_push_back. cbn [rbind]. change (0 <? 0) with false. cbv iota. rewrite IH.
  destruct (negb b && has flags SCRIPT_VERIFY_NULLFAIL); cbn [andb]; [|done].
  unfold fail_unless. change (nonempty x) with (negb (size x =? 0)). destruct (size x =? 0); cbn [negb rbind]; [by rewrite orb_false_r|by rewrite orb_true_r].
Qed.
End Multisig.

(** The arguments of OP_CHECKMULTISIG on top of [base]: the extra argument, the
    signatures, their count, the keys, their count. *)
Definition multisig_stack (base : list valtype) (dummy : valtype) (sigs keys : list valtype) : list valtype :=
  base ++ dummy :: sigs ++ serialize (size sigs) :: keys ++ [serialize (size keys)].

Lemma serialize_small n : 0 <= n <= 20 -> (length (serialize n) <= 1)%nat.
Proof.
  intros Hn. apply Nat.leb_le.
  apply (forall_below 21 (fun n => (length (serialize n) <=? 1)%nat)); [vm_compute; reflexivity|lia].
Qed.

Lemma num_count flags n : 0 <= n <= 20 -> num flags (serialize n) = Ok n.
Proof.
  intros Hn. pose proof (serialize_small n Hn) as Hl. unfold num, scriptnum, CScriptNum, nDefaultMaxNumSize.
  rewrite (proj2 (Nat.ltb_ge _ _)) by lia. rewrite minimal_serialize by lia. rewrite andb_false_r.
  by rewrite set_vch_serialize by lia.
Qed.

Lemma getint_small n : 0 <= n <= 20 -> getint n = n.
Proof. intros. unfold getint. by rewrite !(proj2 (Z.ltb_ge _ _)) by lia. Qed.

(** The stack seen from the top. *)
Lemma multisig_stack_reverse base dummy sigs keys :
  reverse (multisig_stack base dummy sigs keys) =
  serialize (size keys) :: reverse keys ++ serialize (size sigs) :: reverse sigs ++ dummy :: reverse base.
Proof.
  unfold multisig_stack. rewrite !reverse_app, !reverse_cons, !reverse_app, !reverse_cons, !reverse_app.
  cbn [reverse rev_append]. by rewrite <- !app_assoc.
Qed.

Lemma size_reverse {A} (l : list A) : size (reverse l) = size l.
Proof. unfold size. by rewrite length_reverse. Qed.

Section MultisigTheorem.
Variable CheckLowS : valtype -> bool.
Variable checker : BaseSignatureChecker.
Variable flags : Z.
Variables (base : list valtype) (dummy : valtype) (sigs keys : list valtype) (code : list Z) (nOpCount : Z).
Hypothesis Hkeys : size keys <= MAX_PUBKEYS_PER_MULTISIG.
Hypothesis Hsigs : size sigs <= size keys.
Hypothesis Hsig_enc : Forall (fun x => CheckSignatureEncoding CheckLowS flags x = Ok tt) sigs.
Hypothesis Hkey_enc : Forall (fun x => CheckPubKeyEncoding flags x = Ok tt) keys.

Let s := multisig_stack base dummy sigs keys.
Let scriptCode := fold_left (fun c sig => fst (FindAndDelete c (push_data sig))) (reverse sigs) code.

Lemma multisig_top i x rest l :
  0 < i -> reverse s = l ++ x :: rest -> size l = i - 1 -> stacktop s (- i) = Ok x.
Proof.
  intros Hi Hr Hl. apply stacktop_reverse; [done|]. rewrite Hr. replace (Z.to_nat (i - 1)) with (length l) by (unfold size in Hl; lia).
  by apply list_lookup_middle.
Qed.

Lemma size_multisig_stack : size s = size base + size sigs + size keys + 3.
Proof. unfold s, multisig_stack, size. rewrite !length_app. cbn [length]. rewrite !length_app. cbn [length]. rewrite length_app. cbn [length]. lia. Qed.

Lemma need_ok n : n <= size s -> need n s = Ok tt.
Proof. intros. unfold need, fail_unless. by rewrite (proj2 (Z.leb_le _ _)). Qed.

Lemma span_keys : span s 2 (reverse keys).
Proof.
  split; [lia|]. exists (serialize (size sigs) :: reverse sigs ++ dummy :: reverse base).
  unfold s. by rewrite multisig_stack_reverse.
Qed.
Lemma span_sigs : span s (size keys + 3) (reverse sigs).
Proof.
  pose proof (size_nonneg keys). split; [lia|]. exists (dummy :: reverse base).
  unfold s. rewrite multisig_stack_reverse. rewrite app_comm_cons, cons_middle, app_assoc.
  apply drop_app_length'. rewrite !length_app, length_cons, length_reverse. unfold size. cbn [length]. lia.
Qed.

(** The two checks of the arguments that follow the matching, and the result. *)
Definition multisig_outcome (b : bool) : M (list valtype * Z) :=
  if negb b && has flags SCRIPT_VERIFY_NULLFAIL && existsb nonempty sigs then set_error SCRIPT_ERR_SIG_NULLFAIL
  else if has flags SCRIPT_VERIFY_NULLDUMMY && nonempty dummy then set_error SCRIPT_ERR_SIG_NULLDUMMY
  else Ok (base ++ [bool_vch b], nOpCount + size keys).

Lemma multisig_cleanup b :
  cleanup_loop flags (Z.to_nat (size keys + 3 + size sigs - 1)) b (size keys + 2) s =
  if negb b && has flags SCRIPT_VERIFY_NULLFAIL && existsb nonempty sigs
  then set_error SCRIPT_ERR_SIG_NULLFAIL else Ok (push_back base dummy).
Proof.
  set (top := serialize (size sigs) :: keys ++ [serialize (size keys)]).
  assert (s = (push_back base dummy ++ sigs) ++ top) as ->.
  { unfold s, multisig_stack, push_back, top. by rewrite <- !app_assoc. }
  assert (Z.of_nat (length top) = size keys + 2) as Ht.
  { unfold top. cbn [length]. rewrite length_app. cbn [length]. unfold size. lia. }
  pose proof (size_nonneg sigs).
  replace (Z.to_nat (size keys + 3 + size sigs - 1)) with (length top + length sigs)%nat by (unfold size in *; lia).
  rewrite cleanup_loop_skip by lia. rewrite Ht, Z.sub_diag. apply cleanup_loop_signatures.
Qed.

Lemma checkmultisig_greedy :
  op_checkmultisig CheckLowS checker flags OP_CHECKMULTISIG code nOpCount s =
  if MAX_OPS_PER_SCRIPT <? nOpCount + size keys then set_error SCRIPT_ERR_OP_COUNT
  else multisig_outcome (greedy (fun sg k => CheckSig checker sg k scriptCode) (reverse sigs) (reverse keys)).
Proof.
  pose proof (size_nonneg keys). pose proof (size_nonneg sigs). pose proof (size_nonneg base).
  pose proof size_multisig_stack as Hsize. unfold MAX_PUBKEYS_PER_MULTISIG in Hkeys.
  unfold op_checkmultisig. rewrite need_ok by lia. cbn [rbind].
  rewrite (multisig_top 1 (serialize (size keys)) (reverse keys ++ serialize (size sigs) :: reverse sigs ++ dummy :: reverse base) [])
    by (try apply multisig_stack_reverse; lia || done). cbn [rbind].
  rewrite num_count by lia. cbn [rbind]. rewrite getint_small by lia.
  rewrite (proj2 (Z.ltb_ge (size keys) 0)), (proj2 (Z.ltb_ge MAX_PUBKEYS_PER_MULTISIG _)) by (unfold MAX_PUBKEYS_PER_MULTISIG; lia).
  cbn [orb]. destruct (MAX_OPS_PER_SCRIPT <? nOpCount + size keys); [done|]. rewrite need_ok by lia. cbn [rbind].
  rewrite (multisig_top (1 + 1 + size keys) (serialize (size sigs)) (reverse sigs ++ dummy :: reverse base)
             (serialize (size keys) :: reverse keys)).
  2: lia. 2: apply multisig_stack_reverse. 2: { unfold size. cbn [length]. rewrite length_reverse. lia. }
  cbn [rbind]. rewrite num_count by lia. cbn [rbind]. rewrite getint_small by lia.
  rewrite (proj2 (Z.ltb_ge (size sigs) 0)), (proj2 (Z.ltb_ge (size keys) (size sigs))) by lia. cbn [orb].
  rewrite need_ok by lia. cbn [rbind].
  replace (1 + 1 + size keys + 1) with (size keys + 3) by lia.
  replace (Z.to_nat (size sigs)) with (length (reverse sigs)) by (rewrite length_reverse; unfold size; lia).
  rewrite (drop_signatures_span (reverse sigs)) by apply span_sigs. cbn [rbind]. fold scriptCode.
  change (1 + 1) with 2.
  pose proof (multisig_loop_greedy CheckLowS checker flags (Z.to_nat (size keys)) s scriptCode (size keys + 3) 2
    (reverse sigs) (reverse keys) span_sigs span_keys) as HL.
  rewrite !size_reverse, !length_reverse in HL. rewrite HL;
    [|unfold size in Hsigs; lia|unfold size; lia|by apply Forall_reverse|by apply Forall_reverse].
  cbn [rbind]. clear HL. set (b := greedy _ _ _). rewrite multisig_cleanup. unfold multisig_outcome.
  destruct (negb b && _ && _); [done|]. cbn [rbind].
  unfold need, fail_unless. rewrite size_push_back, (proj2 (Z.leb_le _ _)) by lia. cbn [rbind].
  rewrite stacktop_push_back, popstack_push_back. cbn [rbind]. unfold nonempty.
  by destruct (has flags SCRIPT_VERIFY_NULLDUMMY), (size dummy =? 0).
Qed.
End MultisigTheorem.

Lemma sublist_reverse {A} (l k : list A) : l `sublist_of` k -> reverse l `sublist_of` reverse k.
Proof.
  induction 1 as [|x l k H IH|x l k H IH]; [constructor| |]; rewrite ?reverse_cons.
  - by apply sublist_app.
  - by apply sublist_inserts_r.
Qed.

(** Order-preserving assignments read the same from both ends. *)
Lemma assignment_reverse (ok : valtype -> valtype -> bool) sigs keys :
  (exists ks, ks `sublist_of` reverse keys /\ Forall2 (fun s k => ok s k = true) (reverse sigs) ks) <->
  (exists ks, ks `sublist_of` keys /\ Forall2 (fun s k => ok s k = true) sigs ks).
Proof.
  split; intros (ks & Hks & HF); exists (reverse ks).
  - split; [rewrite <- (reverse_involutive keys); by apply sublist_reverse|].
    rewrite <- (reverse_involutive sigs). by apply Forall2_reverse.
  - split; [by apply sublist_reverse|by apply Forall2_reverse].
Qed.

(** C14: what OP_CHECKMULTISIG decides.  Let at most 20 well-encoded keys and no more
    well-encoded signatures than keys lie on the stack with their counts pushed
    minimally.  The opcode fails with OP_COUNT when the keys, each counted as an
    operation, exceed the script's 201 operations.  Otherwise it decides whether there
    is an assignment of the signatures, in their order, to distinct keys in their
    order, each valid for the script code with all the signatures deleted: the greedy
    loop with its early exit misses none.  When there is none, NULLFAIL is set and some
    signature is not empty, it fails with SIG_NULLFAIL; when NULLDUMMY is set and the
    extra argument is not empty, it fails with SIG_NULLDUMMY; else it replaces its
    arguments, the extra one included, by the decision. *)
Theorem multisig_matching (CheckLowS : valtype -> bool) (checker : BaseSignatureChecker) (flags : Z)
    (base : list valtype) (dummy : valtype) (sigs keys : list valtype) (code : list Z) (n : Z) :
  size keys <= MAX_PUBKEYS_PER_MULTISIG -> size sigs <= size keys ->
  Forall (fun x => CheckSignatureEncoding CheckLowS flags x = Ok tt) sigs ->
  Forall (fun x => CheckPubKeyEncoding flags x = Ok tt) keys ->
  let scriptCode := fold_left (fun c sig => fst (FindAndDelete c (push_data sig))) (reverse sigs) code in
  exists b : bool,
  (b = true <-> exists ks, ks `sublist_of` keys /\
                Forall2 (fun sig k => CheckSig checker sig k scriptCode = true) sigs ks) /\
  op_checkmultisig CheckLowS checker flags OP_CHECKMULTISIG code n (multisig_stack base dummy sigs keys) =
    if MAX_OPS_PER_SCRIPT <? n + size keys then set_error SCRIPT_ERR_OP_COUNT
    else if negb b && has flags SCRIPT_VERIFY_NULLFAIL && existsb nonempty sigs then set_error SCRIPT_ERR_SIG_NULLFAIL
    else if has flags SCRIPT_VERIFY_NULLDUMMY && nonempty dummy then set_error SCRIPT_ERR_SIG_NULLDUMMY
    else Ok (base ++ [bool_vch b], n + size keys).
Proof.
  intros Hk Hs Hse Hke scriptCode. eexists. split; [|by apply checkmultisig_greedy].
  rewrite greedy_spec. apply assignment_reverse.
Qed.

(** Two of three under NULLFAIL and NULLDUMMY, with a checker that accepts equal byte
    strings: the right two keys are found, the same two in the other order are not,
    which is an error. *)
Lemma multisig_matching_witness :
  let checker := {| CheckSig := fun sig k _ => bool_decide (sig = k); CheckLockTime := fun _ => false;
                    CheckSequence := fun _ => false |} in
  let flags := Z.lor SCRIPT_VERIFY_NULLFAIL SCRIPT_VERIFY_NULLDUMMY in
  let run sigs := op_checkmultisig (fun _ => true) checker flags OP_CHECKMULTISIG [174] 1
                    (multisig_stack [[7]] [] sigs [[10]; [20]; [30]]) in
  run [[10]; [30]] = Ok ([[7]] ++ [bool_vch true], 1 + 3) /\
  run [[30]; [10]] = set_error SCRIPT_ERR_SIG_NULLFAIL.
Proof.
  intros checker flags run. split.
  - destruct (multisig_matching (fun _ => true) checker flags [[7]] [] [[10]; [30]] [[10]; [20]; [30]] [174] 1)
      as (b & Hb & E).
    1-2: unfold size, MAX_PUBKEYS_PER_MULTISIG; cbn [length Z.of_nat]; lia.
    1-2: repeat (apply Forall_cons_iff; split; [reflexivity|]); constructor.
    assert (b = true) as ->; [|exact E]. apply Hb. exists [[10]; [30]]. split.
    + apply sublist_skip, sublist_cons, sublist_skip, sublist_nil.
    + repeat constructor.
  - vm_compute. reflexivity.
Defined.

(** ** Pay to public key hash *)

Section P2PKH.
Variable CheckLowS : valtype -> bool.
Variable checker : BaseSignatureChecker.
Variable flags : Z.

Lemma eval_loop_step fuel st st' :
  pc st <> [] -> step CheckLowS checker flags st = Ok st' ->
  eval_loop CheckLowS checker flags (S fuel) st = eval_loop CheckLowS checker flags fuel st'.
Proof. intros Hpc Hs. cbn [eval_loop]. destruct (pc st); [done|]. by rewrite Hs. Qed.

Lemma eval_loop_bind fuel st :
  pc st <> [] ->
  eval_loop CheckLowS checker flags (S fuel) st =
  let! st' := step CheckLowS checker flags st in eval_loop CheckLowS checker flags fuel st'.
Proof. intros Hpc. cbn [eval_loop]. by destruct (pc st). Qed.

Lemma direct_push_opcode n :
  2 <= n < 76 -> opcode_value (to_opcode n) = n /\ disabled (to_opcode n) = false.
Proof.
  intros Hn. split; [apply opcode_value_to_opcode; lia|]. apply negb_true_iff.
  apply (forall_below 76 (fun n => negb (disabled (to_opcode n)))); [vm_compute; reflexivity|lia].
Qed.

(** A direct push of two to 75 bytes, which is minimal. *)
Lemma step_push st b rest :
  2 <= size b <= 75 -> pc st = push_data b ++ rest -> vfExec st = [] ->
  size (stack st) + size (altstack st) < 1000 ->
  step CheckLowS checker flags st = Ok (set_stack (fetched st rest (nOpCount st)) (push_back (stack st) b)).
Proof.
  intros Hb Hpc Hv Hl. unfold step. rewrite Hpc, GetOp2_push_data by (unfold size in Hb; lia). fold (size b). cbv zeta.
  rewrite (proj2 (Z.ltb_lt (size b) 0x4c)) by lia. destruct (direct_push_opcode (size b) ltac:(lia)) as [Hop Hdis].
  unfold MAX_SCRIPT_ELEMENT_SIZE. rewrite Hop, Hdis, Hv. change (opcode_value OP_16) with 96. change (opcode_value OP_PUSHDATA4) with 78.
  rewrite (proj2 (Z.ltb_ge 520 _)), (proj2 (Z.ltb_ge 96 _)) by lia. cbn [andb forallb].
  rewrite (proj2 (Z.leb_le 0 _)), (proj2 (Z.leb_le _ 78)) by lia. cbn [andb].
  assert (CheckMinimalPush b (to_opcode (size b)) = true) as ->.
  { unfold CheckMinimalPush. rewrite Hop. rewrite (proj2 (Z.eqb_neq _ 0)), (proj2 (Z.eqb_neq _ 1)) by lia. cbn [andb].
    rewrite (proj2 (Z.leb_le _ 75)) by lia. apply Z.eqb_refl. }
  cbn [negb]. rewrite andb_false_r. cbn [negb fail_unless rbind stack altstack set_stack fetched].
  rewrite size_push_back. unfold fail_unless. by rewrite (proj2 (Z.leb_le _ 1000)) by lia.
Qed.

Definition p2pkh_script (h : list Z) : list Z :=
  [opcode_value OP_DUP; opcode_value OP_HASH160] ++ push_data h ++ [opcode_value OP_EQUALVERIFY; opcode_value OP_CHECKSIG].

Lemma p2pkh_script_bytes h : length h = 20%nat ->
  length (p2pkh_script h) = 25%nat /\ IsPayToPublicKeyHash (p2pkh_script h) = true /\
  IsPayToScriptHash (p2pkh_script h) = false.
Proof. intros Hh. do 21 (destruct h as [|? h]; try done). Qed.

(** The signature script leaves the signature and the key. *)
Lemma EvalScript_scriptSig sig pk :
  2 <= size sig <= 75 -> 2 <= size pk <= 75 ->
  EvalScript CheckLowS checker flags [] (push_data sig ++ push_data pk) = Ok [sig; pk].
Proof.
  intros Hs Hp. unfold EvalScript.
  assert (forall b, 2 <= size b <= 75 -> length (push_data b) = S (length b)) as Hlen.
  { intros b Hb. unfold push_data. rewrite (proj2 (Z.ltb_lt _ _)) by (unfold size in Hb; lia). done. }
  assert (forall b, push_data b <> []) as Hne.
  { intros b Hb. apply (f_equal length) in Hb. unfold push_data in Hb. rewrite length_app in Hb. revert Hb. by repeat case_if. }
  rewrite (proj2 (Z.ltb_ge _ _)).
  2: { unfold size in *. rewrite length_app, !Hlen by done. unfold MAX_SCRIPT_SIZE. lia. }
  rewrite length_app, !Hlen by done. replace (S (length sig) + S (length pk))%nat with (S (S (length sig + length pk))) by lia.
  erewrite eval_loop_step; [|by destruct (push_data sig) eqn:E; [destruct (Hne sig)|]|by apply (step_push _ sig (push_data pk))].
  erewrite eval_loop_step; [|apply Hne|].
  2: { apply (step_push _ pk []); [done|by rewrite app_nil_r|done|done]. }
  by destruct (length sig + length pk)%nat.
Qed.

Definition p2pkh_state (p : list Z) (s : list valtype) (n : Z) (code : list Z) : eval_state :=
  {| pc := p; stack := s; altstack := []; vfExec := []; nOpCount := n; pbegincodehash := code |}.

(** An instruction above OP_16 in an executing branch. *)
Lemma step_op op b rest s n code :
  GetOp2 (b :: rest) = Some (op, [], rest) -> 96 < opcode_value op -> disabled op = false -> n < MAX_OPS_PER_SCRIPT ->
  step CheckLowS checker flags (p2pkh_state (b :: rest) s n code) =
  (let! st := exec_op CheckLowS checker flags op true (p2pkh_state rest s (n + 1) code) in
   let! _ := fail_unless (size (stack st) + size (altstack st) <=? 1000) SCRIPT_ERR_STACK_SIZE in
   Ok st).
Proof.
  intros HG Hop Hd Hn. unfold step. cbn [pc p2pkh_state]. rewrite HG. cbv zeta. change (opcode_value OP_16) with 96.
  change (opcode_value OP_PUSHDATA4) with 78.
  rewrite (proj2 (Z.ltb_lt 96 _)), (proj2 (Z.leb_gt _ 78)) by lia. cbn [nOpCount p2pkh_state vfExec forallb].
  rewrite (proj2 (Z.ltb_ge MAX_OPS_PER_SCRIPT (n + 1))) by lia. by rewrite Hd, !andb_false_r.
Qed.

Lemma op_hash_top op s x : op_hash op (s ++ [x]) = Ok (s ++ [hash_value op x]).
Proof. unfold op_hash. by on_top. Qed.
Lemma op_equal_top op s x y :
  op_equal op (s ++ [x; y]) =
  if decide (op = OP_EQUALVERIFY)
  then if bool_decide (x = y) then Ok s else set_error SCRIPT_ERR_EQUALVERIFY
  else Ok (s ++ [bool_vch (bool_decide (x = y))]).
Proof.
  unfold op_equal. on_top. rewrite popstack_push_back. cbn [framed rbind]. by rewrite app_nil_r.
Qed.

(** What OP_CHECKSIG makes of a signature and a key. *)
Definition checksig_result (code sig pk : list Z) : M bool :=
  let! _ := CheckSignatureEncoding CheckLowS flags sig in
  let! _ := CheckPubKeyEncoding flags pk in
  let fSuccess := CheckSig checker sig pk (fst (FindAndDelete code (push_data sig))) in
  if negb fSuccess && has flags SCRIPT_VERIFY_NULLFAIL && negb (size sig =? 0)
  then set_error SCRIPT_ERR_SIG_NULLFAIL else Ok fSuccess.

Lemma op_checksig_top code s sig pk :
  op_checksig CheckLowS checker flags OP_CHECKSIG code (s ++ [sig; pk]) =
  let! b := checksig_result code sig pk in Ok (s ++ [bool_vch b]).
Proof.
  unfold op_checksig, checksig_result. on_top. destruct (CheckSignatureEncoding _ _ _); [|done].
  destruct (CheckPubKeyEncoding _ _); [|done]. cbn [rbind]. by case_if.
Qed.

Lemma hash160_value x : hash_value OP_HASH160 x = Hash160 x.
Proof. reflexivity. Qed.

Lemma step_dup sig pk rest code :
  step CheckLowS checker flags (p2pkh_state (118 :: rest) [sig; pk] 0 code) =
  Ok (p2pkh_state rest [sig; pk; pk] 1 code).
Proof. reflexivity. Qed.
Lemma step_hash160 sig pk rest code :
  step CheckLowS checker flags (p2pkh_state (169 :: rest) [sig; pk; pk] 1 code) =
  Ok (p2pkh_state rest [sig; pk; Hash160 pk] 2 code).
Proof.
  rewrite (step_op OP_HASH160 169) by done. cbn [exec_op stack p2pkh_state].
  change [sig; pk; pk] with ([sig; pk] ++ [pk]). rewrite op_hash_top, hash160_value. by generalize (Hash160 pk).
Qed.
Lemma step_equalverify sig pk x y rest code :
  step CheckLowS checker flags (p2pkh_state (136 :: rest) [sig; pk; x; y] 2 code) =
  if bool_decide (x = y) then Ok (p2pkh_state rest [sig; pk] 3 code) else set_error SCRIPT_ERR_EQUALVERIFY.
Proof.
  rewrite (step_op OP_EQUALVERIFY 136) by done. cbn [exec_op stack p2pkh_state].
  change [sig; pk; x; y] with ([sig; pk] ++ [x; y]). rewrite op_equal_top.
  destruct (decide _) as [_|]; [|done]. by destruct (bool_decide (x = y)).
Qed.
Lemma step_checksig sig pk rest code :
  step CheckLowS checker flags (p2pkh_state (172 :: rest) [sig; pk] 3 code) =
  let! b := checksig_result code sig pk in Ok (p2pkh_state rest [bool_vch b] 4 code).
Proof.
  rewrite (step_op OP_CHECKSIG 172) by done. cbn [exec_op stack p2pkh_state pbegincodehash].
  change [sig; pk] with ([] ++ [sig; pk]). rewrite op_checksig_top. by destruct (checksig_result code sig pk).
Qed.

Lemma EvalScript_p2pkh sig pk h :
  length h = 20%nat ->
  EvalScript CheckLowS checker flags [sig; pk] (p2pkh_script h) =
  if bool_decide (Hash160 pk = h) then
    match checksig_result (p2pkh_script h) sig pk with
    | Ok b => Ok [bool_vch b]
    | Throw e => catch (Throw e)
    end
  else set_error SCRIPT_ERR_EQUALVERIFY.
Proof.
  intros Hh. destruct (p2pkh_script_bytes h Hh) as (Hl & _ & _). unfold EvalScript.
  rewrite (proj2 (Z.ltb_ge _ _)) by (unfold size; rewrite Hl; unfold MAX_SCRIPT_SIZE; lia). rewrite Hl.
  assert (initial_state [sig; pk] (p2pkh_script h) =
    p2pkh_state (118 :: 169 :: push_data h ++ [136; 172]) [sig; pk] 0 (p2pkh_script h)) as -> by reflexivity.
  generalize (p2pkh_script h). intros code.
  erewrite eval_loop_step; [|done|by apply step_dup].
  erewrite eval_loop_step; [|done|by apply step_hash160].
  erewrite eval_loop_step; [|by intros [? ?]%app_eq_nil|].
  2: { apply (step_push _ h [136; 172]); [unfold size; rewrite Hh; lia|done|done|done]. }
  generalize (Hash160 pk). intros x.
  assert (set_stack (fetched (p2pkh_state (push_data h ++ [136; 172]) [sig; pk; x] 2 code) [136; 172] 2)
            (push_back [sig; pk; x] h) = p2pkh_state [136; 172] [sig; pk; x; h] 2 code) as E by reflexivity.
  cbn [nOpCount stack p2pkh_state] in E |- *. rewrite E. clear E.
  rewrite eval_loop_bind by done. rewrite step_equalverify. destruct (bool_decide (x = h)); [|done].
  cbn [rbind]. rewrite eval_loop_bind by done. rewrite step_checksig.
  by destruct (checksig_result code sig pk) as [b|[]].
Qed.
End P2PKH.

(** C15: a pay-to-pubkey-hash output is spent exactly by a valid signature of the
    hashed key.  For a signature and a key of pushable size, the signature
    script that pushes them satisfies the template if and only if the key hashes
    (RIPEMD-160 of SHA-256) to the 20 bytes of the output, both are encoded as
    the flags ask, and the checker accepts the signature for the output script
    with the signature deleted. *)
Theorem pay_to_pubkey_hash (CheckLowS : valtype -> bool) (checker : BaseSignatureChecker) (flags : Z)
    (sig pk h : list Z) :
  2 <= size sig <= 75 -> 2 <= size pk <= 75 -> length h = 20%nat ->
  (has flags SCRIPT_VERIFY_CLEANSTACK = true -> has flags SCRIPT_VERIFY_P2SH = true) ->
  VerifyScript CheckLowS checker flags (push_data sig ++ push_data pk) (p2pkh_script h) = Ok tt <->
  Hash160 pk = h /\ CheckSignatureEncoding CheckLowS flags sig = Ok tt /\ CheckPubKeyEncoding flags pk = Ok tt /\
  CheckSig checker sig pk (fst (FindAndDelete (p2pkh_script h) (push_data sig))) = true.
Proof.
  intros Hs Hp Hh Hc. destruct (p2pkh_script_bytes h Hh) as (_ & _ & Hnot). unfold VerifyScript.
  assert (IsPushOnly (push_data sig ++ push_data pk) = true) as ->.
  { pose proof (last_push_loop_pushes [sig; pk]) as H. cbn [map concat] in H. rewrite app_nil_r in H.
    unfold IsPushOnly. rewrite (IsPushOnly_loop_last _ _ []), H; [done|done|].
    unfold size in *. repeat (apply Forall_cons_iff; split; [lia|]). constructor. }
  rewrite andb_false_r, EvalScript_scriptSig by done. cbn [rbind]. rewrite EvalScript_p2pkh, Hnot, andb_false_r by done.
  destruct (bool_decide (Hash160 pk = h)) eqn:Eh; [apply bool_decide_eq_true in Eh|apply bool_decide_eq_false in Eh; by split; [|intros []]].
  unfold checksig_result. destruct (CheckSignatureEncoding CheckLowS flags sig) as [[]|[]]; cbn [rbind catch];
    try (split; [done|by intros (_ & ? & _)]).
  destruct (CheckPubKeyEncoding flags pk) as [[]|[]]; cbn [rbind catch]; try (split; [done|by intros (_ & _ & ? & _)]).
  destruct (CheckSig _ _ _ _) eqn:Ec; cbn [negb andb].
  - cbn [rbind]. split; [done|]. intros _. change (eval_true [bool_vch true]) with (Ok (E := fault) tt). cbn [rbind].
    destruct (has flags SCRIPT_VERIFY_CLEANSTACK); [by rewrite Hc|done].
  - split; [|by intros (_ & _ & _ & ?)]. by case_if.
Qed.

(** A key hashed by the model itself, and a checker that accepts one signature. *)
Lemma pay_to_pubkey_hash_witness :
  let checker := {| CheckSig := fun sig k _ => bool_decide (sig = [1; 2; 3]); CheckLockTime := fun _ => false;
                    CheckSequence := fun _ => false |} in
  VerifyScript (fun _ => true) checker SCRIPT_VERIFY_P2SH (push_data [1; 2; 3] ++ push_data [4; 5; 6])
    (p2pkh_script (Hash160 [4; 5; 6])) = Ok tt.
Proof.
  intros checker.
  apply (pay_to_pubkey_hash (fun _ => true) checker SCRIPT_VERIFY_P2SH [1; 2; 3] [4; 5; 6] (Hash160 [4; 5; 6]));
    [unfold size; cbn [length Z.of_nat]; lia|unfold size; cbn [length Z.of_nat]; lia|reflexivity|discriminate|].
  refine (conj eq_refl (conj eq_refl (conj eq_refl _))). reflexivity.
Defined.
