(* ===== verification/SigHash.v ===== *)
(** * The signature hash and the transaction signature checker
    (src/src/script/interpreter.cpp, src/src/pubkey.h)

    [CTransactionSignatureSerializer] writes the part of the spending transaction
    a hash type commits to without copying the transaction.  The reference is the
    copying definition the unit tests keep ([SignatureHashOld] of
    src/src/test/sighash_tests.cpp).  [TransactionSignatureChecker] implements the
    interface the interpreter is verified against; checking a signature on the
    curve is libsecp256k1's and a parameter. *)

From S2P Require Import Prelude Bytes Hash Serialize Containers Script Amount Transaction Interpreter.
Local Open Scope cxx_scope.

(** ** CTransactionSignatureSerializer *)

(** The iterator a failed [GetOp] leaves behind: past the opcode and the length
    field, as far as they could be read. *)
Definition failed_pc (pc : list Z) : list Z :=
  match pc with
  | [] => []
  | opcode :: pc =>
      if opcode <=? 0x4e then
        match operand_size opcode pc with
        | None => pc
        | Some (_, pc) => pc
        end
      else pc
  end.

(** The first [while (scriptCode.GetOp(it, opcode))]. *)
Fixpoint count_separators (fuel : nat) (it : list Z) (nCodeSeparators : Z) : Z :=
  match fuel, GetOp it with
  | S fuel, Some (opcode, it) =>
      count_separators fuel it
        (if bool_decide (opcode = OP_CODESEPARATOR) then u32 (nCodeSeparators + 1) else nCodeSeparators)
  | _, _ => nCodeSeparators
  end.

(** The second: what is written, [itBegin] and [it] at the end; iterators are
    suffixes of the script. *)
Fixpoint write_segments (fuel : nat) (itBegin it out : list Z) : list Z * list Z * list Z :=
  match fuel with
  | O => (out, itBegin, it)
  | S fuel =>
      match GetOp it with
      | Some (opcode, it) =>
          if bool_decide (opcode = OP_CODESEPARATOR)
          then write_segments fuel it it (out ++ take (length itBegin - length it - 1) itBegin)
          else write_segments fuel itBegin it out
      | None => (out, itBegin, failed_pc it)
      end
  end.

Definition SerializeScriptCode (scriptCode : list Z) : list Z :=
  let nCodeSeparators := count_separators (S (length scriptCode)) scriptCode 0 in
  let '(out, itBegin, it) := write_segments (S (length scriptCode)) scriptCode scriptCode [] in
  WriteCompactSize (u64 (size scriptCode - nCodeSeparators)) ++ out ++
  (if bool_decide (itBegin <> []) then take (length itBegin - length it) itBegin else []).

Record CTransactionSignatureSerializer : Type := {
  ss_txTo : CMutableTransaction;
  ss_scriptCode : list Z;
  ss_nIn : Z;
  fAnyoneCanPay : bool;
  fHashSingle : bool;
  fHashNone : bool;
}.

Definition CTransactionSignatureSerializer_new (txTo : CMutableTransaction) (scriptCode : list Z) (nIn nHashType : Z)
  : CTransactionSignatureSerializer :=
  {| ss_txTo := txTo; ss_scriptCode := scriptCode; ss_nIn := nIn;
     fAnyoneCanPay := nz (nHashType .& SIGHASH_ANYONECANPAY);
     fHashSingle := nHashType .& 0x1f =? SIGHASH_SINGLE;
     fHashNone := nHashType .& 0x1f =? SIGHASH_NONE |}.

(** [txTo.vin[n]] and [txTo.vout[n]]; the callers stay in range. *)
Definition CTxIn_default : CTxIn := {| prevout := COutPoint_null; scriptSig := []; nSequence := SEQUENCE_FINAL |}.
Definition vin_at (tx : CMutableTransaction) (n : Z) : CTxIn := nth (Z.to_nat n) (vin tx) CTxIn_default.
Definition vout_at (tx : CMutableTransaction) (n : Z) : CTxOut := nth (Z.to_nat n) (vout tx) CTxOut_null.

Definition SerializeInput (s : CTransactionSignatureSerializer) (nInput : Z) : list Z :=
  let nInput := if fAnyoneCanPay s then ss_nIn s else nInput in
  let i := vin_at (ss_txTo s) nInput in
  Serialize (prevout i) ++
  (if negb (nInput =? ss_nIn s) then blob_Serialize [] else SerializeScriptCode (ss_scriptCode s)) ++
  (if negb (nInput =? ss_nIn s) && (fHashSingle s || fHashNone s) then ser_int32 0
   else ser_writedata32 (nSequence i)).

Definition SerializeOutput (s : CTransactionSignatureSerializer) (nOutput : Z) : list Z :=
  if fHashSingle s && negb (nOutput =? ss_nIn s) then Serialize CTxOut_null
  else Serialize (vout_at (ss_txTo s) nOutput).

(** [for (n = 0; n < count; n++)] *)
Definition counted (count : Z) (f : Z -> list Z) : list Z :=
  concat (map (fun n => f (Z.of_nat n)) (seq 0 (Z.to_nat count))).

Definition SignatureSerializer_Serialize (s : CTransactionSignatureSerializer) : list Z :=
  let tx := ss_txTo s in
  let nInputs := if fAnyoneCanPay s then 1 else u32 (size (vin tx)) in
  let nOutputs := if fHashNone s then 0 else if fHashSingle s then u32 (ss_nIn s + 1) else u32 (size (vout tx)) in
  ser_int32 (i32 (nVersion tx .| (nType tx .<< 16))) ++
  WriteCompactSize nInputs ++ counted nInputs (SerializeInput s) ++
  WriteCompactSize nOutputs ++ counted nOutputs (SerializeOutput s) ++
  ser_writedata32 (nLockTime tx) ++
  (if has_payload (nVersion tx) (nType tx) then blob_Serialize (vExtraPayload tx) else []).

(** ** SignatureHash *)

Definition uint256_one : list Z := 1 :: replicate 31 0.

Definition SignatureHash (scriptCode : list Z) (txTo : CMutableTransaction) (nIn nHashType : Z) : list Z :=
  if size (vin txTo) <=? nIn then uint256_one
  else if (nHashType .& 0x1f =? SIGHASH_SINGLE) && (size (vout txTo) <=? nIn) then uint256_one
  else
    let txTmp := CTransactionSignatureSerializer_new txTo scriptCode nIn nHashType in
    CHashWriter_GetHash [SignatureSerializer_Serialize txTmp; ser_int32 nHashType].

(** ** The reference: copy the transaction and edit it (test/sighash_tests.cpp) *)

Definition blank_script (i : CTxIn) : CTxIn :=
  {| prevout := prevout i; scriptSig := []; nSequence := nSequence i |}.
Definition set_script (code : list Z) (i : CTxIn) : CTxIn :=
  {| prevout := prevout i; scriptSig := code; nSequence := nSequence i |}.
Definition zero_sequence (i : CTxIn) : CTxIn :=
  {| prevout := prevout i; scriptSig := scriptSig i; nSequence := 0 |}.

(** [if (i != nIn) txTmp.vin[i].nSequence = 0] for every [i] *)
Definition zero_others (nIn : Z) (ins : list CTxIn) : list CTxIn :=
  imap (fun i x => if Z.of_nat i =? nIn then x else zero_sequence x) ins.

Definition SignatureHashOld (scriptCode : list Z) (txTo : CMutableTransaction) (nIn nHashType : Z) : list Z :=
  if size (vin txTo) <=? nIn then uint256_one
  else
    let code := fst (FindAndDelete scriptCode [opcode_value OP_CODESEPARATOR]) in
    let ins := map blank_script (vin txTo) in
    let ins := alter (set_script code) (Z.to_nat nIn) ins in
    let none := nHashType .& 0x1f =? SIGHASH_NONE in
    let single := nHashType .& 0x1f =? SIGHASH_SINGLE in
    if negb none && single && (size (vout txTo) <=? nIn) then uint256_one
    else
      let outs :=
        if none then []
        else if single then replicate (Z.to_nat nIn) CTxOut_null ++ take 1 (drop (Z.to_nat nIn) (vout txTo))
        else vout txTo in
      let ins := if none || single then zero_others nIn ins else ins in
      let ins := if nz (nHashType .& SIGHASH_ANYONECANPAY) then take 1 (drop (Z.to_nat nIn) ins) else ins in
      let txTmp := {| nVersion := nVersion txTo; nType := nType txTo; vin := ins; vout := outs;
                      nLockTime := nLockTime txTo; vExtraPayload := vExtraPayload txTo |} in
      CHashWriter_GetHash [CMutableTransaction_Serialize txTmp; ser_int32 nHashType].

(** ** TransactionSignatureChecker *)

Definition GetLen (chHeader : Z) : Z :=
  if (chHeader =? 2) || (chHeader =? 3) then 33
  else if (chHeader =? 4) || (chHeader =? 6) || (chHeader =? 7) then 65
  else 0.

(** [CPubKey(vch)]: [None] is an invalidated key. *)
Definition CPubKey_Set (vch : list Z) : option (list Z) :=
  let len := match vch with [] => 0 | b :: _ => GetLen b end in
  if nz len && (len =? size vch) then Some vch else None.

Section Checker.
(** [CPubKey::Verify]: key, hash, DER signature (libsecp256k1). *)
Variable Verify : list Z -> list Z -> list Z -> bool.
Variable txTo : CMutableTransaction.
Variable nIn : Z.

Definition VerifySignature (vchSig pubkey sighash : list Z) : bool := Verify pubkey sighash vchSig.

Definition tx_CheckSig (vchSigIn vchPubKey scriptCode : list Z) : bool :=
  match CPubKey_Set vchPubKey with
  | None => false
  | Some pubkey =>
      match list.last vchSigIn with
      | None => false
      | Some nHashType =>
          let vchSig := take (length vchSigIn - 1) vchSigIn in
          let sighash := SignatureHash scriptCode txTo nIn nHashType in
          if negb (VerifySignature vchSig pubkey sighash) then false else true
      end
  end.

Definition LOCKTIME_THRESHOLD : Z := 500000000.

Definition tx_CheckLockTime (n : Z) : bool :=
  let lock := nLockTime txTo in
  if negb ((lock <? LOCKTIME_THRESHOLD) && (n <? LOCKTIME_THRESHOLD)
           || (LOCKTIME_THRESHOLD <=? lock) && (LOCKTIME_THRESHOLD <=? n)) then false
  else if lock <? n then false
  else if SEQUENCE_FINAL =? nSequence (vin_at txTo nIn) then false
  else true.

Definition tx_CheckSequence (n : Z) : bool :=
  let txToSequence := nSequence (vin_at txTo nIn) in
  if u32 (nVersion txTo) <? 2 then false
  else if nz (txToSequence .& SEQUENCE_LOCKTIME_DISABLE_FLAG) then false
  else
    let nLockTimeMask := SEQUENCE_LOCKTIME_TYPE_FLAG .| SEQUENCE_LOCKTIME_MASK in
    let txToSequenceMasked := txToSequence .& nLockTimeMask in
    let nSequenceMasked := n .& nLockTimeMask in
    if negb ((txToSequenceMasked <? SEQUENCE_LOCKTIME_TYPE_FLAG) && (nSequenceMasked <? SEQUENCE_LOCKTIME_TYPE_FLAG)
             || (SEQUENCE_LOCKTIME_TYPE_FLAG <=? txToSequenceMasked) && (SEQUENCE_LOCKTIME_TYPE_FLAG <=? nSequenceMasked))
    then false
    else if txToSequenceMasked <? nSequenceMasked then false
    else true.

Definition TransactionSignatureChecker : BaseSignatureChecker :=
  {| CheckSig := tx_CheckSig; CheckLockTime := tx_CheckLockTime; CheckSequence := tx_CheckSequence |}.

End Checker.

(** ** The segments written are the script without its separators *)

(** The script decodes to its last byte. *)
Fixpoint decodes (fuel : nat) (s : list Z) : bool :=
  match fuel, s with
  | _, [] => true
  | O, _ => false
  | S fuel, _ => match GetOp s with Some (_, r) => decodes fuel r | None => false end
  end.

Definition separator : list Z := [opcode_value OP_CODESEPARATOR].

Lemma separator_head s op r : bytes_ok s -> GetOp s = Some (op, r) ->
  starts_with separator s = bool_decide (op = OP_CODESEPARATOR) /\
  (op = OP_CODESEPARATOR -> s = opcode_value OP_CODESEPARATOR :: r).
Proof.
  intros Hs. destruct s as [|b s]; [done|]. unfold GetOp, GetOp2. apply Forall_cons_iff in Hs as [Hb _].
  assert (starts_with separator (b :: s) = (b =? 0xab)) as ->.
  { unfold starts_with, separator. cbn [length Nat.leb andb take]. destruct (Z.eqb_spec b 0xab) as [->|Hne]; [done|].
    apply bool_decide_eq_false. by intros [= ->]. }
  assert ((b =? 0xab) = bool_decide (to_opcode b = OP_CODESEPARATOR)) as ->.
  { destruct (Z.eqb_spec b 0xab) as [->|Hne]; [done|]. symmetry. apply bool_decide_eq_false. intros E.
    apply Hne. rewrite <- (opcode_value_to_opcode b Hb), E. done. }
  assert (to_opcode b = OP_CODESEPARATOR -> b = 0xab) as Hval
    by (intros E; rewrite <- (opcode_value_to_opcode b Hb), E; done).
  destruct (Z.leb_spec b 0x4e) as [Hle|Hgt].
  - destruct (operand_size b s) as [[n s1]|]; [|done]. destruct (_ <? n); [done|]. intros [= <- <-].
    split; [done|]. intros E. apply Hval in E. lia.
  - intros [= <- <-]. split; [done|]. intros E. by rewrite (Hval E).
Qed.

Lemma decodes_step fuel s : decodes (S fuel) s = true -> s = [] \/
  exists op r, GetOp s = Some (op, r) /\ decodes fuel r = true /\ (length r < length s)%nat.
Proof.
  cbn [decodes]. destruct s as [|b s]; [by left|]. right. destruct (GetOp (b :: s)) as [[op r]|] eqn:E; [|done].
  exists op, r. split; [done|]. split; [done|]. by apply GetOp_shrinks in E.
Qed.

Lemma GetOp_bytes s op r : bytes_ok s -> GetOp s = Some (op, r) -> bytes_ok r.
Proof. intros Hs E. apply GetOp_suffix in E as [p ->]. by apply Forall_app in Hs as [_ Hs]. Qed.

Lemma erase_step fuel s op r : bytes_ok s -> GetOp s = Some (op, r) ->
  Script.erase (S fuel) separator s =
  (if bool_decide (op = OP_CODESEPARATOR) then [] else take (length s - length r) s) ++ Script.erase fuel separator r.
Proof.
  intros Hs E. cbn [Script.erase]. destruct (separator_head s op r Hs E) as [-> Hsep].
  destruct (bool_decide (op = OP_CODESEPARATOR)) eqn:Eb; [|by rewrite E].
  apply bool_decide_eq_true in Eb. by rewrite (Hsep Eb).
Qed.

(** Both loops, over the erased script [erase fuel separator it]. *)
Lemma count_separators_spec fuel it n :
  bytes_ok it -> decodes fuel it = true -> 0 <= n -> n + size it < 2 ^ 32 ->
  count_separators (S fuel) it n = n + size it - size (Script.erase (S fuel) separator it).
Proof.
  unfold size. revert it n. induction fuel as [|fuel IH]; intros it n Hs Hd H0 Hn.
  - destruct it; [cbn; lia|done].
  - destruct (decodes_step _ _ Hd) as [->|(op & r & E & Hd' & Hl)]; [cbn; lia|].
    rewrite (erase_step _ it op r Hs E). remember (S fuel) as f. cbn [count_separators]. rewrite E. subst f.
    destruct (separator_head it op r Hs E) as [_ Hsep]. pose proof (GetOp_bytes _ _ _ Hs E) as Hr.
    destruct (bool_decide (op = OP_CODESEPARATOR)) eqn:Eb.
    + apply bool_decide_eq_true in Eb. specialize (Hsep Eb). subst it. cbn [length] in *.
      rewrite u32_id by (unfold is_u; lia). rewrite IH by (done || lia). cbn [app]. lia.
    + rewrite IH by (done || lia). rewrite length_app, length_take. lia.
Qed.

Lemma write_segments_spec fuel seg it out :
  bytes_ok it -> decodes fuel it = true ->
  let '(out', itBegin, e) := write_segments (S fuel) (seg ++ it) it out in
  e = [] /\ out' ++ itBegin = out ++ seg ++ Script.erase (S fuel) separator it.
Proof.
  revert seg it out. induction fuel as [|fuel IH]; intros seg it out Hs Hd.
  - destruct it; [|done]. cbn. split; [done|]. by rewrite app_nil_r.
  - destruct (decodes_step _ _ Hd) as [->|(op & r & E & Hd' & Hl)].
    { cbn. split; [done|]. by rewrite app_nil_r. }
    rewrite (erase_step _ it op r Hs E). remember (S fuel) as f. cbn [write_segments]. rewrite E. subst f.
    destruct (separator_head it op r Hs E) as [_ Hsep]. pose proof (GetOp_bytes _ _ _ Hs E) as Hr.
    destruct (bool_decide (op = OP_CODESEPARATOR)) eqn:Eb.
    + apply bool_decide_eq_true in Eb. specialize (Hsep Eb). subst it. cbn [app].
      specialize (IH [] r (out ++ take (length (seg ++ opcode_value OP_CODESEPARATOR :: r) - length r - 1)
        (seg ++ opcode_value OP_CODESEPARATOR :: r)) Hr Hd'). cbn [app] in IH.
      destruct (write_segments (S fuel) r r _) as [[o b] e]. destruct IH as [-> IH]. split; [done|].
      rewrite IH, <- app_assoc. f_equal. f_equal. rewrite length_app. cbn [length].
      replace (length seg + S (length r) - length r - 1)%nat with (length seg) by lia. by rewrite take_app_length.
    + pose proof (suffix_take r it (GetOp_suffix _ _ _ E)) as Hsplit.
      specialize (IH (seg ++ take (length it - length r) it) r out Hr Hd').
      rewrite <- app_assoc, <- Hsplit in IH. destruct (write_segments (S fuel) (seg ++ it) r out) as [[o b] e].
      destruct IH as [-> IH]. split; [done|]. by rewrite IH, <- !app_assoc.
Qed.

Lemma erase_length_le fuel b s : (length (Script.erase fuel b s) <= length s)%nat.
Proof.
  revert s. induction fuel as [|fuel IH]; intros s; cbn [Script.erase]; [lia|].
  case_if; [etransitivity; [apply IH|rewrite length_drop; lia]|].
  destruct (GetOp s) as [[op r]|] eqn:EG; [|lia]. apply GetOp_shrinks in EG.
  rewrite length_app, length_take. specialize (IH r). lia.
Qed.

Lemma SerializeScriptCode_spec code :
  bytes_ok code -> decodes (length code) code = true -> size code < 2 ^ 32 ->
  SerializeScriptCode code = blob_Serialize (fst (FindAndDelete code separator)).
Proof.
  intros Hs Hd Hn. destruct (FindAndDelete_erase code separator) as [-> _]; [cbn; lia|].
  unfold SerializeScriptCode. rewrite count_separators_spec by (done || lia).
  pose proof (write_segments_spec (length code) [] code [] Hs Hd) as Hw. cbn [app] in Hw.
  destruct (write_segments (S (length code)) code code []) as [[out b] e]. destruct Hw as [-> Hw].
  unfold blob_Serialize. pose proof (erase_length_le (S (length code)) separator code). unfold size in *. f_equal.
  - f_equal. rewrite u64_id by (unfold is_u; lia). lia.
  - cbn [length]. rewrite Nat.sub_0_r, take_ge by lia. rewrite <- Hw.
    destruct b; by rewrite ?bool_decide_eq_false_2, ?bool_decide_eq_true_2 by done.
Qed.

(** ** The in-place serializer and the edited copy *)

(** A loop that looks up position by position serializes the list it describes. *)
Lemma counted_Serialize_all {T} `{Serializable T} (n : nat) (f : Z -> list Z) (l' : list T) :
  length l' = n -> (forall i, (i < n)%nat -> exists y, l' !! i = Some y /\ f (Z.of_nat i) = Serialize y) ->
  counted (Z.of_nat n) f = Serialize_all l'.
Proof.
  intros Hl Hf. unfold counted. rewrite Nat2Z.id.
  assert (map (fun n => f (Z.of_nat n)) (seq 0 n) = map Serialize l') as ->.
  { apply list_eq. intros i. rewrite !list_lookup_fmap. destruct (decide (i < n)%nat) as [Hi|Hi].
    - destruct (Hf i Hi) as (y & Ey & Ef). rewrite lookup_seq_lt, Ey by done. cbn. by rewrite Ef.
    - by rewrite lookup_seq_ge, (lookup_ge_None_2 l') by lia. }
  clear. induction l' as [|x l IH]; cbn; [done|]. by rewrite IH.
Qed.

Section Equivalence.
Variables (code : list Z) (tx : CMutableTransaction) (nIn nHashType : Z).
Hypothesis code_bytes : bytes_ok code.
Hypothesis code_decodes : decodes (length code) code = true.
Hypothesis code_size : size code < 2 ^ 32.
Hypothesis nIn_range : 0 <= nIn < size (vin tx).
Hypothesis vin_size : size (vin tx) < 2 ^ 32.
Hypothesis vout_size : size (vout tx) < 2 ^ 32.

Let s := CTransactionSignatureSerializer_new tx code nIn nHashType.
Let none := nHashType .& 0x1f =? SIGHASH_NONE.
Let single := nHashType .& 0x1f =? SIGHASH_SINGLE.
Let anyone := nz (nHashType .& SIGHASH_ANYONECANPAY).
Let stripped := fst (FindAndDelete code separator).

Definition edited_inputs : list CTxIn :=
  let ins := alter (set_script stripped) (Z.to_nat nIn) (map blank_script (vin tx)) in
  if none || single then zero_others nIn ins else ins.

Definition edited_input (i : nat) (x : CTxIn) : CTxIn :=
  let y := if Z.of_nat i =? nIn then set_script stripped (blank_script x) else blank_script x in
  if (none || single) && negb (Z.of_nat i =? nIn) then zero_sequence y else y.

Lemma edited_inputs_lookup i : edited_inputs !! i = edited_input i <$> vin tx !! i.
Proof.
  unfold edited_inputs, edited_input, zero_others.
  assert (alter (set_script stripped) (Z.to_nat nIn) (map blank_script (vin tx)) !! i =
    (fun x => if Z.of_nat i =? nIn then set_script stripped (blank_script x) else blank_script x) <$> vin tx !! i) as E.
  { destruct (Z.eqb_spec (Z.of_nat i) nIn) as [<-|Hne].
    - rewrite Nat2Z.id, list_lookup_alter_eq, list_lookup_fmap. by destruct (vin tx !! i).
    - rewrite list_lookup_alter_ne, list_lookup_fmap by lia. done. }
  destruct (none || single); cbn [andb]; [|exact E].
  rewrite list_lookup_imap, E. destruct (vin tx !! i); cbn; [|done]. by destruct (Z.of_nat i =? nIn).
Qed.

Lemma vin_at_lookup i x : vin tx !! i = Some x -> vin_at tx (Z.of_nat i) = x.
Proof. intros E. unfold vin_at. rewrite Nat2Z.id. by apply nth_lookup_Some with (d := CTxIn_default) in E. Qed.
Lemma vout_at_lookup i x : vout tx !! i = Some x -> vout_at tx (Z.of_nat i) = x.
Proof. intros E. unfold vout_at. rewrite Nat2Z.id. by apply nth_lookup_Some with (d := CTxOut_null) in E. Qed.

(** What the serializer writes at position [n], when it means position [i]. *)
Lemma SerializeInput_edited n i x :
  (if anyone then nIn else n) = Z.of_nat i -> vin tx !! i = Some x ->
  SerializeInput s n = Serialize (edited_input i x).
Proof.
  intros Hn E. unfold SerializeInput. cbn [s fAnyoneCanPay ss_nIn ss_txTo ss_scriptCode fHashSingle fHashNone
    CTransactionSignatureSerializer_new]. fold anyone single none. rewrite Hn, (vin_at_lookup _ _ E).
  rewrite SerializeScriptCode_spec by done. fold stripped.
  change (Serialize (T:=CTxIn)) with CTxIn_Serialize. unfold edited_input, CTxIn_Serialize.
  destruct (Z.of_nat i =? nIn), none, single; reflexivity.
Qed.

Lemma length_edited_inputs : length edited_inputs = length (vin tx).
Proof.
  unfold edited_inputs, zero_others. destruct (none || single); rewrite ?length_imap, length_alter; apply length_map.
Qed.

Lemma input_at_nIn : exists x, vin tx !! Z.to_nat nIn = Some x.
Proof. apply lookup_lt_is_Some. unfold size in *. lia. Qed.

Definition hashed_inputs : list CTxIn :=
  if anyone then take 1 (drop (Z.to_nat nIn) edited_inputs) else edited_inputs.

Lemma inputs_hashed :
  let nInputs := if anyone then 1 else u32 (size (vin tx)) in
  WriteCompactSize nInputs ++ counted nInputs (SerializeInput s) = vector_Serialize hashed_inputs.
Proof.
  cbv zeta. unfold vector_Serialize, hashed_inputs. destruct anyone eqn:Ea.
  - destruct input_at_nIn as [x E].
    assert (take 1 (drop (Z.to_nat nIn) edited_inputs) = [edited_input (Z.to_nat nIn) x]) as ->.
    { rewrite (drop_S _ (edited_input (Z.to_nat nIn) x)); [done|]. by rewrite edited_inputs_lookup, E. }
    assert (counted 1 (SerializeInput s) = SerializeInput s 0) as -> by apply app_nil_r.
    cbn [length Serialize_all]. rewrite app_nil_r. f_equal. apply SerializeInput_edited; [|done]. rewrite Ea. lia.
  - unfold size in *. rewrite u32_id by (unfold is_u; lia). rewrite length_edited_inputs. f_equal.
    apply counted_Serialize_all; [apply length_edited_inputs|]. intros i Hi.
    destruct (lookup_lt_is_Some_2 (vin tx) i Hi) as [x E]. exists (edited_input i x).
    rewrite edited_inputs_lookup, E. split; [done|]. apply SerializeInput_edited; [by rewrite Ea|done].
Qed.

Definition hashed_outputs : list CTxOut :=
  if none then []
  else if single then replicate (Z.to_nat nIn) CTxOut_null ++ take 1 (drop (Z.to_nat nIn) (vout tx))
  else vout tx.

Lemma outputs_hashed : (single = true -> nIn < size (vout tx)) ->
  let nOutputs := if none then 0 else if single then u32 (nIn + 1) else u32 (size (vout tx)) in
  WriteCompactSize nOutputs ++ counted nOutputs (SerializeOutput s) = vector_Serialize hashed_outputs.
Proof.
  intros Hs. cbv zeta. unfold vector_Serialize, hashed_outputs, size in *.
  assert (forall n, SerializeOutput s n = if single && negb (n =? nIn) then Serialize CTxOut_null else Serialize (vout_at tx n)) as Ho by done.
  destruct none; [done|]. destruct single.
  - specialize (Hs eq_refl). destruct (lookup_lt_is_Some_2 (vout tx) (Z.to_nat nIn) ltac:(lia)) as [y E].
    rewrite u32_id by (unfold is_u; lia). rewrite (drop_S _ y) by done. cbn [take].
    rewrite length_app, length_replicate. cbn [length].
    replace (nIn + 1) with (Z.of_nat (Z.to_nat nIn + 1)) by lia. f_equal.
    apply counted_Serialize_all; [by rewrite length_app, length_replicate|]. intros i Hi. rewrite Ho. cbn [andb].
    destruct (Z.eqb_spec (Z.of_nat i) nIn) as [<-|Hne]; cbn [negb].
    + rewrite Nat2Z.id in *. exists y. rewrite lookup_app_r, length_replicate, Nat.sub_diag by (rewrite length_replicate; lia).
      by rewrite (vout_at_lookup _ _ E).
    + exists CTxOut_null. by rewrite lookup_app_l, lookup_replicate_2 by (rewrite ?length_replicate; lia).
  - rewrite u32_id by (unfold is_u; lia). f_equal. apply counted_Serialize_all; [done|]. intros i Hi.
    destruct (lookup_lt_is_Some_2 (vout tx) i Hi) as [y E]. exists y. by rewrite Ho, (vout_at_lookup _ _ E).
Qed.

Lemma SignatureSerializer_copy : (single = true -> nIn < size (vout tx)) ->
  SignatureSerializer_Serialize s = CMutableTransaction_Serialize
    {| nVersion := nVersion tx; nType := nType tx; vin := hashed_inputs; vout := hashed_outputs;
       nLockTime := nLockTime tx; vExtraPayload := vExtraPayload tx |}.
Proof.
  intros Hs. unfold SignatureSerializer_Serialize, CMutableTransaction_Serialize, n32bitVersion.
  cbn [nVersion nType vin vout nLockTime vExtraPayload].
  rewrite <- inputs_hashed, <- (outputs_hashed Hs), <- !app_assoc. reflexivity.
Qed.

End Equivalence.

(** C13: The hash a signature commits to is the hash of the edited copy.  For every
    transaction, input, hash type and script that decodes, [SignatureHash], which
    never copies the transaction, gives what the reference implementation of the
    unit tests computes by blanking scripts, sequences and outputs of a copy
    according to the hash type, erasing OP_CODESEPARATOR from the script and
    hashing the result; the out-of-range cases return the constant one alike. *)
Theorem SignatureHash_is_reference (code : list Z) (tx : CMutableTransaction) (nIn nHashType : Z) :
  bytes_ok code -> decodes (length code) code = true -> size code < 2 ^ 32 ->
  0 <= nIn -> size (vin tx) < 2 ^ 32 -> size (vout tx) < 2 ^ 32 ->
  SignatureHash code tx nIn nHashType = SignatureHashOld code tx nIn nHashType.
Proof.
  intros Hb Hd Hc Hn Hi Ho. unfold SignatureHash, SignatureHashOld.
  destruct (Z.leb_spec (size (vin tx)) nIn) as [|Hlt]; [done|].
  assert (forall a, (nHashType .& 0x1f =? SIGHASH_SINGLE) && a = negb (nHashType .& 0x1f =? SIGHASH_NONE) && (nHashType .& 0x1f =? SIGHASH_SINGLE) && a) as Hex.
  { intros a. destruct (Z.eqb_spec (nHashType .& 0x1f) SIGHASH_SINGLE) as [->|]; [done|by rewrite andb_false_r]. }
  rewrite <- Hex. destruct ((nHashType .& 0x1f =? SIGHASH_SINGLE) && (size (vout tx) <=? nIn)) eqn:E; [done|].
  cbv zeta. rewrite (SignatureSerializer_copy code tx nIn nHashType) by (try done; intros Es; rewrite Es in E; cbn in E; bool_to_prop; lia).
  reflexivity.
Qed.

Lemma SignatureHash_is_reference_witness :
  let code := [0x76; 0xa9; 0xab; 0x01; 0xab; 0xac] in
  SignatureHash code (sample_tx 2) 0 0x83 = SignatureHashOld code (sample_tx 2) 0 0x83 /\
  SerializeScriptCode code = blob_Serialize [0x76; 0xa9; 0x01; 0xab; 0xac].
Proof.
  split; [|reflexivity].
  apply SignatureHash_is_reference; try reflexivity; try lia. repeat constructor; unfold is_u; lia.
Defined.
