(* ===== verification/Standard.v ===== *)
(** * Standard scripts and destinations
    (src/src/script/standard.h/.cpp, [CPubKey::GetID] of src/src/pubkey.h)

    [Solver] matches an output script against the templates of payments to a key, a key's
    hash and m of n keys; [ExtractDestination] names who is paid.  The theorems: the
    scripts the node builds for a destination are recognised as that destination, and
    what is recognised pays whom it says. *)

From S2P Require Import Prelude Bytes Hash Script SigHash ProviderTx.
From stdpp Require Import list sets.
Local Open Scope Z_scope.
Local Open Scope cxx_scope.

Inductive txnouttype : Type := TX_NONSTANDARD | TX_PUBKEY | TX_PUBKEYHASH | TX_SCRIPTHASH | TX_MULTISIG | TX_NULL_DATA.
#[export] Instance txnouttype_eq_dec : EqDecision txnouttype.
Proof. solve_decision. Defined.

Record CScriptID : Type := { scriptid : list Z }.
#[export] Instance CScriptID_eq_dec : EqDecision CScriptID.
Proof. solve_decision. Defined.

(** [boost::variant<CNoDestination, CKeyID, CScriptID>] *)
Inductive CTxDestination : Type :=
| CNoDestination
| DestKey (keyID : CKeyID)
| DestScript (scriptID : CScriptID).
#[export] Instance CTxDestination_eq_dec : EqDecision CTxDestination.
Proof. solve_decision. Defined.

(** ** [Solver] *)

(** The templates, in the order of the multimap. *)
Definition mTemplates : list (txnouttype * list Z) :=
  [(TX_PUBKEY, push_op (push_op [] OP_PUBKEY) OP_CHECKSIG);
   (TX_PUBKEYHASH, push_op (push_op (push_op (push_op (push_op [] OP_DUP) OP_HASH160) OP_PUBKEYHASH) OP_EQUALVERIFY) OP_CHECKSIG);
   (TX_MULTISIG, push_op (push_op (push_op (push_op [] OP_SMALLINTEGER) OP_PUBKEYS) OP_SMALLINTEGER) OP_CHECKMULTISIG)].

(** [script1.GetOp(pc1, opcode1, vch1)] into variables that a failure resets. *)
Definition fetch (pc : list Z) : bool * (opcodetype * list Z * list Z) :=
  match GetOp2 pc with
  | Some (opcode, vch, pc) => (true, (opcode, vch, pc))
  | None => (false, (OP_INVALIDOPCODE, [], pc))
  end.

(** The run of keys of [OP_PUBKEYS]. *)
Fixpoint take_keys (fuel : nat) (opcode1 : opcodetype) (vch1 pc1 : list Z) (vSolutions : list (list Z))
  : opcodetype * list Z * list Z * list (list Z) :=
  if (33 <=? length vch1)%nat && (length vch1 <=? 65)%nat then
    let vSolutions := vSolutions ++ [vch1] in
    match fuel with
    | O => (opcode1, vch1, pc1, vSolutions)
    | S fuel =>
        let '(ok, (opcode1, vch1, pc1)) := fetch pc1 in
        if ok then take_keys fuel opcode1 vch1 pc1 vSolutions else (opcode1, vch1, pc1, vSolutions)
    end
  else (opcode1, vch1, pc1, vSolutions).

(** What one template instruction accepts: the solutions, or a break. *)
Definition match_op (opcode2 : opcodetype) (vch2 : list Z) (opcode1 : opcodetype) (vch1 : list Z) (vSolutions : list (list Z))
  : option (list (list Z)) :=
  if decide (opcode2 = OP_PUBKEY) then
    if (length vch1 <? 33)%nat || (65 <? length vch1)%nat then None else Some (vSolutions ++ [vch1])
  else if decide (opcode2 = OP_PUBKEYHASH) then
    if negb (length vch1 =? 20)%nat then None else Some (vSolutions ++ [vch1])
  else if decide (opcode2 = OP_SMALLINTEGER) then
    match DecodeOP_N opcode1 with Some n => Some (vSolutions ++ [[n]]) | None => None end
  else if negb (bool_decide (opcode1 = opcode2)) || negb (bool_decide (vch1 = vch2)) then None
  else Some vSolutions.

(** [while (true)] over both scripts; [None] is a break. *)
Fixpoint match_loop (fuel : nat) (pc1 pc2 : list Z) (vSolutions : list (list Z)) : option (list (list Z)) :=
  match pc1, pc2 with
  | [], [] => Some vSolutions
  | _, _ =>
      match fuel with
      | O => None
      | S fuel =>
          a ← GetOp2 pc1;
          b ← GetOp2 pc2;
          let '(opcode1, vch1, pc1) := a in
          let '(opcode2, vch2, pc2) := b in
          if decide (opcode2 = OP_PUBKEYS) then
            let '(opcode1, vch1, pc1, vSolutions) := take_keys (length pc1) opcode1 vch1 pc1 vSolutions in
            b ← GetOp2 pc2;
            let '(opcode2, vch2, pc2) := b in
            vSolutions ← match_op opcode2 vch2 opcode1 vch1 vSolutions;
            match_loop fuel pc1 pc2 vSolutions
          else
            vSolutions ← match_op opcode2 vch2 opcode1 vch1 vSolutions;
            match_loop fuel pc1 pc2 vSolutions
      end
  end.
Definition match_template (script1 script2 : list Z) : option (list (list Z)) := match_loop (length script2) script1 script2 [].

(** The counts of a multisig script: [m], the keys, [n]. *)
Definition multisig_counts_ok (vSolutions : list (list Z)) : bool :=
  let m := aget (nth 0 vSolutions []) 0 in
  let n := aget (List.last vSolutions []) 0 in
  negb ((m <? 1) || (n <? 1) || (n <? m) || negb (Z.of_nat (length vSolutions) - 2 =? n)).

Fixpoint scan_templates (scriptPubKey : list Z) (templates : list (txnouttype * list Z)) : bool * txnouttype * list (list Z) :=
  match templates with
  | [] => (false, TX_NONSTANDARD, [])
  | (type, script2) :: templates =>
      match match_template scriptPubKey script2 with
      | Some vSolutions =>
          if bool_decide (type = TX_MULTISIG) && negb (multisig_counts_ok vSolutions) then (false, type, vSolutions)
          else (true, type, vSolutions)
      | None => scan_templates scriptPubKey templates
      end
  end.

(** The result, and [typeRet] and [vSolutionsRet]. *)
Definition Solver (scriptPubKey : list Z) : bool * txnouttype * list (list Z) :=
  if IsPayToScriptHash scriptPubKey then (true, TX_SCRIPTHASH, [take 20 (drop 2 scriptPubKey)])
  else if (1 <=? length scriptPubKey)%nat && (aget scriptPubKey 0 =? opcode_value OP_RETURN) && IsPushOnly (drop 1 scriptPubKey)
  then (true, TX_NULL_DATA, [])
  else scan_templates scriptPubKey mTemplates.

(** ** Destinations *)

Definition GetID (pubKey : list Z) : CKeyID := {| keyid := Hash160 pubKey |}.

Definition ExtractDestination (scriptPubKey : list Z) : option CTxDestination :=
  match Solver scriptPubKey with
  | (true, TX_PUBKEY, vSolutions) => pubKey ← CPubKey_Set (nth 0 vSolutions []); Some (DestKey (GetID pubKey))
  | (true, TX_PUBKEYHASH, vSolutions) => Some (DestKey {| keyid := nth 0 vSolutions [] |})
  | (true, TX_SCRIPTHASH, vSolutions) => Some (DestScript {| scriptid := nth 0 vSolutions [] |})
  | _ => None
  end.

(** Destinations, how many of them have to sign, and the type. *)
Definition ExtractDestinations (scriptPubKey : list Z) : option (txnouttype * list CTxDestination * Z) :=
  match Solver scriptPubKey with
  | (true, TX_NULL_DATA, _) => None
  | (true, TX_MULTISIG, vSolutions) =>
      let keys := take (length vSolutions - 2) (drop 1 vSolutions) in
      let addressRet := omap (fun v => option_map (fun k => DestKey (GetID k)) (CPubKey_Set v)) keys in
      match addressRet with
      | [] => None
      | _ => Some (TX_MULTISIG, addressRet, aget (nth 0 vSolutions []) 0)
      end
  | (true, type, _) => address ← ExtractDestination scriptPubKey; Some (type, [address], 1)
  | (false, _, _) => None
  end.

Definition GetScriptForDestination (dest : CTxDestination) : list Z :=
  match dest with
  | CNoDestination => []
  | DestKey k => push_op (push_op (push_vch (push_op (push_op [] OP_DUP) OP_HASH160) (keyid k)) OP_EQUALVERIFY) OP_CHECKSIG
  | DestScript s => push_op (push_vch (push_op [] OP_HASH160) (scriptid s)) OP_EQUAL
  end.
Definition GetScriptForRawPubKey (pubKey : list Z) : list Z := push_op (push_vch [] pubKey) OP_CHECKSIG.

(** [EncodeOP_N] asserts at most sixteen. *)
Definition GetScriptForMultisig (nRequired : Z) (keys : list (list Z)) : option (list Z) :=
  m ← EncodeOP_N nRequired;
  n ← EncodeOP_N (Z.of_nat (length keys));
  Some (push_op (push_op (fold_left push_vch keys (push_op [] m)) n) OP_CHECKMULTISIG).

(** ** Matching a template *)

#[local] Opaque Hash160.

(** The instructions of a script that decodes to its end. *)
Fixpoint decode (fuel : nat) (pc : list Z) : option (list (opcodetype * list Z)) :=
  match pc, fuel with
  | [], _ => Some []
  | _, O => None
  | _, S fuel => a ← GetOp2 pc; rest ← decode fuel (snd a); Some (fst a :: rest)
  end.
Definition instructions (script : list Z) : option (list (opcodetype * list Z)) := decode (length script) script.

Lemma decode_cons fuel pc op vch pc' ins : (length pc <= fuel)%nat -> GetOp2 pc = Some (op, vch, pc') ->
  decode fuel pc' = Some ins -> decode fuel pc = Some ((op, vch) :: ins).
Proof.
  revert pc pc' ins. induction fuel as [|fuel IH]; intros pc pc' ins Hf E Hd.
  - apply GetOp2_shrinks in E. lia.
  - destruct pc as [|b pc]; [done|]. cbn [decode]. rewrite E. cbn [mbind option_bind fst snd].
    pose proof (GetOp2_shrinks _ _ _ _ E) as Hlt. cbn in Hf, Hlt.
    assert (decode fuel pc' = Some ins) as ->; [|done].
    assert (forall f p i, (length p <= f)%nat -> decode (S f) p = Some i -> decode f p = Some i) as Hless; [|apply Hless; [lia|done]].
    clear. induction f as [|f IHf]; intros p i Hp; [destruct p; [done|cbn in Hp; lia]|].
    destruct p as [|c p]; [done|]. change (decode (S (S f)) (c :: p)) with (a ← GetOp2 (c :: p); rest ← decode (S f) (snd a); Some (fst a :: rest)).
    change (decode (S f) (c :: p)) with (a ← GetOp2 (c :: p); rest ← decode f (snd a); Some (fst a :: rest)).
    destruct (GetOp2 (c :: p)) as [[[o v] q]|] eqn:Eg; [|done]. cbn [mbind option_bind fst snd].
    apply GetOp2_shrinks in Eg. cbn in Eg, Hp. destruct (decode (S f) q) as [j|] eqn:Ej; [|done]. cbn [mbind option_bind]. intros [= <-].
    by rewrite (IHf q j ltac:(lia) Ej).
Qed.

(** One step of the loop over a template without a run of keys. *)
Lemma match_step fuel pc1 b rest2 sols r : 0x4e < b -> to_opcode b <> OP_PUBKEYS ->
  match_loop (S fuel) pc1 (b :: rest2) sols = Some r <->
  exists opcode1 vch1 pc1' sols', GetOp2 pc1 = Some (opcode1, vch1, pc1') /\
    match_op (to_opcode b) [] opcode1 vch1 sols = Some sols' /\ match_loop fuel pc1' rest2 sols' = Some r.
Proof.
  intros Hb Hk.
  assert (match_loop (S fuel) pc1 (b :: rest2) sols =
    (a ← GetOp2 pc1; let '(opcode1, vch1, pc1) := a in
     vSolutions ← match_op (to_opcode b) [] opcode1 vch1 sols; match_loop fuel pc1 rest2 vSolutions)) as ->.
  { assert (GetOp2 (b :: rest2) = Some (to_opcode b, [], rest2)) as E2 by (cbn [GetOp2]; by rewrite (proj2 (Z.leb_gt _ _)) by lia).
    destruct pc1 as [|c pc1]; [done|]. cbn [match_loop]. destruct (GetOp2 (c :: pc1)) as [[[o v] p]|]; [|done].
    rewrite E2. cbn [mbind option_bind]. by rewrite decide_False by done. }
  destruct (GetOp2 pc1) as [[[o v] p]|]; cbn [mbind option_bind].
  - destruct (match_op (to_opcode b) [] o v sols) as [s'|] eqn:Em; cbn [mbind option_bind].
    + split; [intros; by exists o, v, p, s'|]. intros (o' & v' & p' & s'' & [= <- <- <-] & E & ?). congruence.
    + split; [done|]. intros (o' & v' & p' & s'' & [= <- <- <-] & E & ?). congruence.
  - split; [done|]. by intros (? & ? & ? & ? & ? & _).
Qed.

Lemma match_end fuel pc1 sols r : match_loop fuel pc1 [] sols = Some r <-> pc1 = [] /\ r = sols.
Proof.
  destruct pc1 as [|b pc1].
  { assert (match_loop fuel [] [] sols = Some sols) as -> by (by destruct fuel). split; [by intros [= ->]|by intros [_ ->]]. }
  split; [|by intros [? _]].
  destruct fuel as [|fuel]; [done|]. cbn [match_loop]. by destruct (GetOp2 (b :: pc1)) as [[[? ?] ?]|].
Qed.

Lemma match_plain op opcode1 vch1 sols r : op <> OP_PUBKEY -> op <> OP_PUBKEYHASH -> op <> OP_SMALLINTEGER ->
  match_op op [] opcode1 vch1 sols = Some r <-> opcode1 = op /\ vch1 = [] /\ r = sols.
Proof.
  intros Hk Hh Hs. unfold match_op. rewrite !decide_False by done.
  destruct (decide (opcode1 = op)) as [->|H1]; [|rewrite bool_decide_false by done; split; [done|by intros [? _]]].
  rewrite bool_decide_true by done. destruct (decide (vch1 = [])) as [->|H2]; [|rewrite bool_decide_false by done; split; [done|by intros (_ & ? & _)]].
  rewrite bool_decide_true by done. cbn. split; [by intros [= ->]|by intros (_ & _ & ->)].
Qed.
Lemma match_pubkey opcode1 vch1 sols r :
  match_op OP_PUBKEY [] opcode1 vch1 sols = Some r <-> (33 <= length vch1 <= 65)%nat /\ r = sols ++ [vch1].
Proof.
  unfold match_op. rewrite decide_True by done. destruct (Nat.ltb_spec (length vch1) 33), (Nat.ltb_spec 65 (length vch1)); cbn.
  all: split; [intros E|intros [? ->]]; simplify_eq; done || lia.
Qed.
Lemma match_pubkeyhash opcode1 vch1 sols r :
  match_op OP_PUBKEYHASH [] opcode1 vch1 sols = Some r <-> length vch1 = 20%nat /\ r = sols ++ [vch1].
Proof.
  unfold match_op. rewrite decide_False, decide_True by done. destruct (Nat.eqb_spec (length vch1) 20) as [E|E]; cbn.
  all: split; [intros E1|intros [? ->]]; simplify_eq; done || lia.
Qed.

(** ** The templates *)

Definition pubkey_template : list Z := [0xfe; 0xac].
Definition pubkeyhash_template : list Z := [0x76; 0xa9; 0xfd; 0x88; 0xac].
Definition multisig_template : list Z := [0xfa; 0xfb; 0xfa; 0xae].
Lemma mTemplates_values : mTemplates =
  [(TX_PUBKEY, pubkey_template); (TX_PUBKEYHASH, pubkeyhash_template); (TX_MULTISIG, multisig_template)].
Proof. reflexivity. Qed.

Lemma pubkey_match s r : match_template s pubkey_template = Some r ->
  exists op pk, (33 <= length pk <= 65)%nat /\ r = [pk] /\ instructions s = Some [(op, pk); (OP_CHECKSIG, [])].
Proof.
  unfold match_template, pubkey_template. cbn [length]. intros H.
  apply match_step in H as (op & pk & p1 & s1 & G1 & M1 & H); [|lia|done]. apply match_pubkey in M1 as [Hl ->].
  apply match_step in H as (o2 & v2 & p2 & s2 & G2 & M2 & H); [|lia|done]. apply match_plain in M2 as (-> & -> & ->);[|done..].
  apply match_end in H as [-> ->]. exists op, pk. split; [done|]. split; [done|]. unfold instructions.
  pose proof (GetOp2_shrinks _ _ _ _ G1). pose proof (GetOp2_shrinks _ _ _ _ G2).
  apply (decode_cons _ _ _ _ p1); [lia|done|]. apply (decode_cons _ _ _ _ []); [lia|done|]. by destruct (length s).
Qed.

Lemma pubkeyhash_match s r : match_template s pubkeyhash_template = Some r ->
  exists op h, length h = 20%nat /\ r = [h] /\
    instructions s = Some [(OP_DUP, []); (OP_HASH160, []); (op, h); (OP_EQUALVERIFY, []); (OP_CHECKSIG, [])].
Proof.
  unfold match_template, pubkeyhash_template. cbn [length]. intros H.
  apply match_step in H as (o1 & v1 & p1 & s1 & G1 & M1 & H); [|lia|done]. apply match_plain in M1 as (-> & -> & ->);[|done..].
  apply match_step in H as (o2 & v2 & p2 & s2 & G2 & M2 & H); [|lia|done]. apply match_plain in M2 as (-> & -> & ->);[|done..].
  apply match_step in H as (op & h & p3 & s3 & G3 & M3 & H); [|lia|done]. apply match_pubkeyhash in M3 as [Hl ->].
  apply match_step in H as (o4 & v4 & p4 & s4 & G4 & M4 & H); [|lia|done]. apply match_plain in M4 as (-> & -> & ->);[|done..].
  apply match_step in H as (o5 & v5 & p5 & s5 & G5 & M5 & H); [|lia|done]. apply match_plain in M5 as (-> & -> & ->);[|done..].
  apply match_end in H as [-> ->]. exists op, h. split; [done|]. split; [done|]. unfold instructions.
  pose proof (GetOp2_shrinks _ _ _ _ G1). pose proof (GetOp2_shrinks _ _ _ _ G2). pose proof (GetOp2_shrinks _ _ _ _ G3).
  pose proof (GetOp2_shrinks _ _ _ _ G4). pose proof (GetOp2_shrinks _ _ _ _ G5).
  apply (decode_cons _ _ _ _ p1); [lia|done|]. apply (decode_cons _ _ _ _ p2); [lia|done|].
  apply (decode_cons _ _ _ _ p3); [lia|done|]. apply (decode_cons _ _ _ _ p4); [lia|done|].
  apply (decode_cons _ _ _ _ []); [lia|done|]. by destruct (length s).
Qed.

(** A script that starts with another byte is no P2SH script, and no data carrier. *)
Lemma Solver_scan s : aget s 0 <> 0xa9 -> aget s 0 <> 0x6a -> Solver s = scan_templates s mTemplates.
Proof.
  intros H1 H2. unfold Solver, IsPayToScriptHash.
  rewrite (proj2 (Z.eqb_neq (aget s 0) (opcode_value OP_HASH160))), (proj2 (Z.eqb_neq (aget s 0) (opcode_value OP_RETURN))) by done.
  by rewrite !andb_false_r.
Qed.

Lemma no_pubkey s op vch rest : GetOp2 s = Some (op, vch, rest) -> (length vch < 33)%nat -> match_template s pubkey_template = None.
Proof.
  intros E Hl. unfold match_template, pubkey_template. cbn [length]. destruct (match_loop _ _ _ _) as [r|] eqn:Em; [|done].
  apply match_step in Em as (o & v & p & s' & G & M & _); [|lia|done]. apply match_pubkey in M as [Hv _]. rewrite E in G. simplify_eq. lia.
Qed.
Lemma no_pubkeyhash s op vch rest : GetOp2 s = Some (op, vch, rest) -> op <> OP_DUP -> match_template s pubkeyhash_template = None.
Proof.
  intros E Hop. unfold match_template, pubkeyhash_template. cbn [length]. destruct (match_loop _ _ _ _) as [r|] eqn:Em; [|done].
  apply match_step in Em as (o & v & p & s' & G & M & _); [|lia|done]. apply match_plain in M as (-> & _);[|done..].
  rewrite E in G. injection G as -> _ _. by destruct Hop.
Qed.

(** A plain instruction of a script. *)
Lemma GetOp2_plain b rest : 0x4e < b -> GetOp2 (b :: rest) = Some (to_opcode b, [], rest).
Proof. intros Hb. cbn [GetOp2]. by rewrite (proj2 (Z.leb_gt _ _)) by lia. Qed.

Lemma ExtractDestination_key k : length (keyid k) = 20%nat -> ExtractDestination (GetScriptForDestination (DestKey k)) = Some (DestKey k).
Proof.
  intros Hl. unfold ExtractDestination.
  assert (GetScriptForDestination (DestKey k) = 0x76 :: 0xa9 :: push_data (keyid k) ++ [0x88; 0xac]) as ->
    by (cbn; unfold push_op, push_vch; cbn; by rewrite <- !app_assoc).
  rewrite Solver_scan, mTemplates_values by done. cbn [scan_templates].
  rewrite (no_pubkey _ OP_DUP [] (0xa9 :: push_data (keyid k) ++ [0x88; 0xac])) by (done || (cbn; lia)).
  assert (match_template (0x76 :: 0xa9 :: push_data (keyid k) ++ [0x88; 0xac]) pubkeyhash_template = Some [keyid k]) as ->; [|by destruct k].
  unfold match_template, pubkeyhash_template. cbn [length].
  apply match_step; [lia|done|]. eexists _, _, _, []. split; [by apply GetOp2_plain|]. split; [by apply match_plain|].
  apply match_step; [lia|done|]. eexists _, _, _, []. split; [by apply GetOp2_plain|]. split; [by apply match_plain|].
  apply match_step; [lia|done|]. eexists _, _, _, [keyid k]. split; [apply GetOp2_push_data; rewrite Hl; lia|]. split; [by apply match_pubkeyhash|].
  apply match_step; [lia|done|]. eexists _, _, _, [keyid k]. split; [by apply GetOp2_plain|]. split; [by apply match_plain|].
  apply match_step; [lia|done|]. eexists _, _, _, [keyid k]. split; [by apply GetOp2_plain|]. split; [by apply match_plain|].
  by apply match_end.
Qed.

Lemma ExtractDestination_script i : length (scriptid i) = 20%nat ->
  ExtractDestination (GetScriptForDestination (DestScript i)) = Some (DestScript i).
Proof.
  intros Hl. unfold ExtractDestination, Solver.
  assert (GetScriptForDestination (DestScript i) = [0xa9; 0x14] ++ scriptid i ++ [0x87]) as ->.
  { unfold GetScriptForDestination, push_vch, push_data. rewrite Hl. cbn. by rewrite <- app_assoc. }
  rewrite (proj2 (P2SH_shape _)) by (by exists (scriptid i)). change (drop 2 ([0xa9; 0x14] ++ scriptid i ++ [0x87])) with (scriptid i ++ [0x87]).
  rewrite take_app_length' by done. by destruct i.
Qed.

Lemma CPubKey_Set_length pk : CPubKey_Set pk = Some pk -> (length pk = 33 \/ length pk = 65)%nat.
Proof.
  unfold CPubKey_Set, Interpreter.size. destruct pk as [|b pk]; [done|]. unfold GetLen.
  destruct ((b =? 2) || (b =? 3)); [|destruct ((b =? 4) || (b =? 6) || (b =? 7)); [|by change (nz 0) with false]].
  all: change (nz 33) with true; change (nz 65) with true; cbn [andb].
  - destruct (Z.eqb_spec 33 (Z.of_nat (length (b :: pk)))) as [E|]; [|done]. intros _. left. lia.
  - destruct (Z.eqb_spec 65 (Z.of_nat (length (b :: pk)))) as [E|]; [|done]. intros _. right. lia.
Qed.

Lemma push_data_first pk rest : (33 <= length pk <= 65)%nat -> aget (push_data pk ++ rest) 0 = Z.of_nat (length pk).
Proof. intros Hl. unfold push_data. rewrite (proj2 (Z.ltb_lt _ _)) by lia. done. Qed.

Lemma ExtractDestination_pubkey pk : CPubKey_Set pk = Some pk ->
  ExtractDestination (GetScriptForRawPubKey pk) = Some (DestKey (GetID pk)).
Proof.
  intros Hpk. pose proof (CPubKey_Set_length pk Hpk) as Hl. unfold ExtractDestination.
  change (GetScriptForRawPubKey pk) with (push_data pk ++ [0xac]).
  rewrite Solver_scan, mTemplates_values by (rewrite push_data_first; lia). cbn [scan_templates].
  assert (match_template (push_data pk ++ [0xac]) pubkey_template = Some [pk]) as ->.
  { unfold match_template, pubkey_template. cbn [length].
    apply match_step; [lia|done|]. eexists _, _, _, [pk]. split; [apply GetOp2_push_data; lia|]. split; [apply match_pubkey; split; [lia|done]|].
    apply match_step; [lia|done|]. eexists _, _, _, [pk]. split; [by apply GetOp2_plain|]. split; [by apply match_plain|]. by apply match_end. }
  change (bool_decide (TX_PUBKEY = TX_MULTISIG)) with false. cbn [andb nth]. by rewrite Hpk.
Qed.

(** *** Keys of a multisig script *)

Definition key_ok (k : list Z) : Prop := CPubKey_Set k = Some k.

Lemma key_ok_length k : key_ok k -> (33 <= length k <= 65)%nat.
Proof. intros Hk. apply CPubKey_Set_length in Hk. lia. Qed.

Lemma take_keys_all keys k op rest opr vr pr fuel sols : Forall key_ok (k :: keys) -> GetOp2 rest = Some (opr, vr, pr) -> (length vr < 33)%nat ->
  (length keys < fuel)%nat ->
  take_keys fuel op k (concat (map push_data keys) ++ rest) sols = (opr, vr, pr, sols ++ k :: keys).
Proof.
  intros Hf Hr Hv. revert k op fuel sols Hf. induction keys as [|k2 keys IH]; intros k op fuel sols [Hk Hks]%Forall_cons Hfuel.
  all: destruct fuel as [|fuel]; [lia|]; pose proof (key_ok_length k Hk) as Hl; cbn [take_keys];
    rewrite (proj2 (Nat.leb_le 33 _)), (proj2 (Nat.leb_le _ 65)) by lia; cbn [andb].
  - cbn [map concat app]. unfold fetch. rewrite Hr. destruct fuel; cbn [take_keys]; by rewrite (proj2 (Nat.leb_gt 33 _)) by lia.
  - cbn [map concat]. rewrite <- app_assoc. apply Forall_cons in Hks as Hk2. destruct Hk2 as [Hk2 _].
    pose proof (key_ok_length k2 Hk2) as Hl2. unfold fetch. rewrite GetOp2_push_data by lia.
    rewrite IH; [|done|cbn in Hfuel; lia]. by rewrite <- app_assoc.
Qed.

Lemma small_int n : 0 <= n <= 16 -> exists op, EncodeOP_N n = Some op /\ DecodeOP_N op = Some n /\ to_opcode (opcode_value op) = op /\
  (opcode_value op = 0 \/ 0x51 <= opcode_value op <= 0x60).
Proof.
  intros Hn. unfold EncodeOP_N. rewrite (proj2 (Z.leb_le 0 n)), (proj2 (Z.leb_le n 16)) by lia. cbn [andb]. eexists. split; [done|].
  assert (n = 0 \/ exists k, (k < 16)%nat /\ n = Z.of_nat k + 1) as [->|(k & Hk & ->)].
  { destruct (Z.eq_dec n 0); [by left|]. right. exists (Z.to_nat (n - 1)). lia. }
  - split; [reflexivity|]. split; [reflexivity|]. cbn. lia.
  - do 16 (destruct k as [|k]; [split; [reflexivity|]; split; [reflexivity|]; right; vm_compute; split; discriminate|]). lia.
Qed.

Lemma length_concat_pushes keys : (length keys <= length (concat (map push_data keys)))%nat.
Proof.
  induction keys as [|k keys IH]; [done|]. cbn. rewrite length_app.
  assert (1 <= length (push_data k))%nat; [|lia]. unfold push_data. rewrite length_app. repeat case_match; cbn; lia.
Qed.

Lemma fold_push_vch keys s : fold_left push_vch keys s = s ++ concat (map push_data keys).
Proof.
  revert s. induction keys as [|k keys IH]; intros s; cbn; [by rewrite app_nil_r|]. rewrite IH. unfold push_vch. by rewrite <- app_assoc.
Qed.

Lemma match_smallint op v sols n : DecodeOP_N op = Some n -> match_op OP_SMALLINTEGER [] op v sols = Some (sols ++ [[n]]).
Proof. intros E. unfold match_op. rewrite !decide_False, decide_True by done. by rewrite E. Qed.

Lemma multisig_match m n opm opn keys : 1 <= m <= 16 -> 1 <= n <= 16 -> Forall key_ok keys -> keys <> [] ->
  EncodeOP_N m = Some opm -> EncodeOP_N n = Some opn ->
  match_template (opcode_value opm :: concat (map push_data keys) ++ [opcode_value opn; 0xae]) multisig_template = Some ([m] :: keys ++ [[n]]).
Proof.
  intros Hm Hn Hks Hne Em En.
  destruct (small_int m) as (om & Em' & Dm & Tm & Vm); [lia|]. destruct (small_int n) as (on & En' & Dn & Tn & Vn); [lia|]. simplify_eq.
  assert (0x51 <= opcode_value opm <= 0x60) as Vm'.
  { destruct Vm as [V|]; [|done]. rewrite V in Tm. subst opm. cbn in Dm. simplify_eq. lia. }
  assert (0x51 <= opcode_value opn <= 0x60) as Vn'.
  { destruct Vn as [V|]; [|done]. rewrite V in Tn. subst opn. cbn in Dn. simplify_eq. lia. }
  unfold match_template, multisig_template. cbn [length]. apply match_step; [lia|done|].
  eexists _, _, _, [[m]]. split; [apply GetOp2_plain; lia|]. split; [rewrite Tm; exact (match_smallint opm [] [] m Dm)|].
  destruct keys as [|k keys]; [done|]. pose proof Hks as [Hk _]%Forall_cons. pose proof (key_ok_length k Hk) as Hl.
  cbn [map concat]. rewrite <- app_assoc. set (rest := concat (map push_data keys) ++ [opcode_value opn; 0xae]).
  pose proof (GetOp2_push_data k rest ltac:(lia)) as Eg. cbv zeta in Eg.
  destruct (push_data k ++ rest) as [|c pc] eqn:Epc; [done|].
  change (match_loop 3 (c :: pc) [0xfb; 0xfa; 0xae] [[m]] = Some ([m] :: (k :: keys) ++ [[n]])). cbn [match_loop]. rewrite Eg. cbn [mbind option_bind].
  change (GetOp2 [0xfb; 0xfa; 0xae]) with (Some (OP_PUBKEYS, @nil Z, [0xfa; 0xae])). cbn [mbind option_bind]. rewrite decide_True by done.
  unfold rest. rewrite (take_keys_all keys k _ [opcode_value opn; 0xae] opn [] [0xae] _ [[m]]); [|done|rewrite GetOp2_plain by lia; by rewrite Tn|cbn; lia|].
  - change (GetOp2 [0xfa; 0xae]) with (Some (OP_SMALLINTEGER, @nil Z, [0xae])). cbn [mbind option_bind].
    rewrite (match_smallint opn [] _ n Dn). cbn [mbind option_bind app].
    reflexivity.
  - rewrite length_app. pose proof (length_concat_pushes keys). cbn. lia.
Qed.

Lemma counts_ok m keys : 1 <= m <= Z.of_nat (length keys) -> multisig_counts_ok ([m] :: keys ++ [[Z.of_nat (length keys)]]) = true.
Proof.
  intros Hm. unfold multisig_counts_ok. cbn [nth]. rewrite app_comm_cons, last_last. unfold aget. cbn [nth].
  rewrite length_app. cbn [length]. rewrite (proj2 (Z.ltb_ge m 1)), (proj2 (Z.ltb_ge (Z.of_nat (length keys)) 1)),
    (proj2 (Z.ltb_ge (Z.of_nat (length keys)) m)) by lia. rewrite (proj2 (Z.eqb_eq _ _)) by lia. done.
Qed.

Lemma ExtractDestinations_multisig m keys : 1 <= m <= Z.of_nat (length keys) -> (length keys <= 16)%nat -> Forall key_ok keys ->
  exists s, GetScriptForMultisig m keys = Some s /\
    ExtractDestinations s = Some (TX_MULTISIG, map (fun k => DestKey (GetID k)) keys, m).
Proof.
  intros Hm Hlen Hks. set (n := Z.of_nat (length keys)).
  destruct (small_int m) as (opm & Em & Dm & Tm & Vm); [lia|]. destruct (small_int n) as (opn & En & Dn & Tn & Vn); [lia|].
  exists (opcode_value opm :: concat (map push_data keys) ++ [opcode_value opn; 0xae]). split.
  { unfold GetScriptForMultisig. fold n. rewrite Em, En. cbn [mbind option_bind]. rewrite fold_push_vch. unfold push_op. cbn [app].
    by rewrite <- app_assoc. }
  assert (keys <> []) as Hne by (intros ->; cbn in *; lia).
  pose proof (multisig_match m n opm opn keys ltac:(lia) ltac:(lia) Hks Hne Em En) as Hmatch.
  assert (0x51 <= opcode_value opm <= 0x60) as Vm'.
  { destruct Vm as [V|]; [|done]. rewrite V in Tm. subst opm. cbn in Dm. simplify_eq. lia. }
  unfold ExtractDestinations. rewrite Solver_scan, mTemplates_values by (cbn; lia). cbn [scan_templates].
  rewrite (no_pubkey _ opm [] (concat (map push_data keys) ++ [opcode_value opn; 0xae])) by ((rewrite GetOp2_plain by lia; by rewrite Tm) || (cbn; lia)).
  rewrite (no_pubkeyhash _ opm [] (concat (map push_data keys) ++ [opcode_value opn; 0xae])) by ((rewrite GetOp2_plain by lia; by rewrite Tm) || (intros ->; cbn in Vm'; lia)).
  rewrite Hmatch, counts_ok by done. change (bool_decide (TX_MULTISIG = TX_MULTISIG)) with true. cbn [andb negb].
  assert (take (length ([m] :: keys ++ [[n]]) - 2) (drop 1 ([m] :: keys ++ [[n]])) = keys) as ->.
  { cbn [length drop]. rewrite length_app. cbn [length]. replace (S (length keys + 1) - 2)%nat with (length keys) by lia. apply take_app_length. }
  assert (omap (fun v => option_map (fun k => DestKey (GetID k)) (CPubKey_Set v)) keys = map (fun k => DestKey (GetID k)) keys) as ->.
  { clear -Hks. induction Hks as [|k keys Hk _ IH]; [done|]. cbn. unfold key_ok in Hk. rewrite Hk. cbn. f_equal. exact IH. }
  by destruct keys.
Qed.

(** C32: Who is paid.  For a destination of twenty bytes, a valid public key, and one to
    sixteen valid keys of which [m] must sign: the script the node builds is recognised as
    that destination, that key's, those keys' with [m].  Conversely, a script recognised
    as paying a script is the one the node builds, and one recognised as paying a key
    decodes either to the five instructions of a payment to its hash, or to a push of
    a valid public key with that hash and a signature check. *)
Theorem destinations_correct :
  (forall k, length (keyid k) = 20%nat -> ExtractDestination (GetScriptForDestination (DestKey k)) = Some (DestKey k)) /\
  (forall i, length (scriptid i) = 20%nat -> ExtractDestination (GetScriptForDestination (DestScript i)) = Some (DestScript i)) /\
  (forall pk, CPubKey_Set pk = Some pk -> ExtractDestination (GetScriptForRawPubKey pk) = Some (DestKey (GetID pk))) /\
  (forall m keys, 1 <= m <= Z.of_nat (length keys) -> (length keys <= 16)%nat -> Forall (fun k => CPubKey_Set k = Some k) keys ->
     exists s, GetScriptForMultisig m keys = Some s /\
       ExtractDestinations s = Some (TX_MULTISIG, map (fun k => DestKey (GetID k)) keys, m)) /\
  (forall s i, ExtractDestination s = Some (DestScript i) -> s = GetScriptForDestination (DestScript i)) /\
  (forall s k, ExtractDestination s = Some (DestKey k) ->
     (exists op, instructions s = Some [(OP_DUP, []); (OP_HASH160, []); (op, keyid k); (OP_EQUALVERIFY, []); (OP_CHECKSIG, [])] /\
        length (keyid k) = 20%nat) \/
     (exists op pk, instructions s = Some [(op, pk); (OP_CHECKSIG, [])] /\ CPubKey_Set pk = Some pk /\ k = GetID pk)).
Proof.
  split_and!; [apply ExtractDestination_key|apply ExtractDestination_script|apply ExtractDestination_pubkey|apply ExtractDestinations_multisig| |].
  all: intros s d; unfold ExtractDestination, Solver; destruct (IsPayToScriptHash s) eqn:Es.
  - intros [= <-]. apply P2SH_shape in Es as (h & Hl & ->). unfold GetScriptForDestination, push_vch, push_data. cbn [scriptid nth].
    change (drop 2 ([opcode_value OP_HASH160; 0x14] ++ h ++ [opcode_value OP_EQUAL])) with (h ++ [0x87]).
    rewrite take_app_length', Hl by done. cbn. by rewrite <- app_assoc.
  - destruct (_ && _ && _); [done|]. rewrite mTemplates_values. cbn [scan_templates].
    repeat (case_match; simplify_eq; try done). all: by destruct (CPubKey_Set _).
  - done.
  - destruct (_ && _ && _); [done|]. rewrite mTemplates_values. cbn [scan_templates].
    destruct (match_template s pubkey_template) as [r1|] eqn:E1; [|destruct (match_template s pubkeyhash_template) as [r2|] eqn:E2].
    + apply pubkey_match in E1 as (op & pk & _ & -> & Hi). change (bool_decide (TX_PUBKEY = TX_MULTISIG)) with false. cbn [andb nth].
      destruct (CPubKey_Set pk) as [pk'|] eqn:Ek; [|done]. intros [= <-]. right. exists op, pk.
      assert (pk' = pk) as -> by (unfold CPubKey_Set in Ek; by case_match; simplify_eq). done.
    + apply pubkeyhash_match in E2 as (op & h & Hl & -> & Hi). change (bool_decide (TX_PUBKEYHASH = TX_MULTISIG)) with false. cbn [andb nth].
      intros [= <-]. left. by exists op.
    + repeat (case_match; simplify_eq; try done).
Qed.

(** The recognised push may be longer than the shortest. *)
Example pushdata_hash_recognised :
  ExtractDestination ([0x76; 0xa9; 0x4c; 0x14] ++ replicate 20 7 ++ [0x88; 0xac]) = Some (DestKey {| keyid := replicate 20 7 |}).
Proof. vm_compute. reflexivity. Qed.
Lemma destinations_correct_witness :
  ExtractDestination (GetScriptForDestination (DestKey {| keyid := replicate 20 7 |})) = Some (DestKey {| keyid := replicate 20 7 |}).
Proof. apply (proj1 destinations_correct). reflexivity. Defined.
