(* ===== verification/Base58.v ===== *)
(** * Base58 (src/src/base58.h/.cpp)

    Addresses and keys as text.  The bytes are read as a number in base 256 and written in
    base 58, leading zero bytes as leading ones; both loops multiply a fixed array of
    digits in place and assert that it was large enough.  The theorems: the assertions
    never fail, decoding inverts encoding, and but for blanks around it a text that
    decodes is the encoding of what it decodes to; the same for addresses. *)

From S2P Require Import Prelude Bytes HashEngine Sha256 Hash Script ProviderTx Standard.
From stdpp Require Import list.
Local Open Scope Z_scope.
Local Open Scope cxx_scope.

(** Characters are their codes. *)
Definition pszBase58 : list Z :=
  [49; 50; 51; 52; 53; 54; 55; 56; 57; 65; 66; 67; 68; 69; 70; 71; 72; 74; 75; 76; 77; 78; 80; 81; 82; 83; 84; 85; 86; 87; 88; 89; 90;
   97; 98; 99; 100; 101; 102; 103; 104; 105; 106; 107; 109; 110; 111; 112; 113; 114; 115; 116; 117; 118; 119; 120; 121; 122].
Definition isspace (c : Z) : bool := (c =? 32) || ((9 <=? c) && (c <=? 13)).

(** [strchr(pszBase58, c) - pszBase58] *)
Fixpoint index_of_char (s : list Z) (c : Z) (k : Z) : option Z :=
  match s with
  | [] => None
  | x :: s => if x =? c then Some k else index_of_char s c (k + 1)
  end.
Definition digit_of (c : Z) : option Z := index_of_char pszBase58 c 0.

(** The inner loop, from the last element of the array to the first: [it] is the rest of
    the reversed array, [i] how many elements were visited. *)
Fixpoint mul_add (mul base carry : Z) (i length : nat) (it : list Z) : Z * nat * list Z :=
  match it with
  | [] => (carry, i, [])
  | d :: rest =>
      if negb (carry =? 0) || (i <? length)%nat then
        let carry := carry + mul * d in
        let '(out, i, rest) := mul_add mul base (carry / base) (S i) length rest in
        (out, i, carry mod base :: rest)
      else (carry, i, it)
  end.

(** The outer loop; [None] when [assert(carry == 0)] fails. *)
Fixpoint convert (mul base : Z) (digits : list Z) (length : nat) (array : list Z) : option (nat * list Z) :=
  match digits with
  | [] => Some (length, array)
  | d :: digits =>
      let '(carry, i, array) := mul_add mul base d 0 length array in
      if carry =? 0 then convert mul base digits i array else None
  end.

Fixpoint skip (f : Z -> bool) (s : list Z) : list Z :=
  match s with
  | [] => []
  | c :: s' => if f c then skip f s' else s
  end.
Definition skipped (f : Z -> bool) (s : list Z) : nat := (length s - length (skip f s))%nat.

Definition EncodeBase58 (v : list Z) : option (list Z) :=
  let zeroes := skipped (fun b => b =? 0) v in
  let v := skip (fun b => b =? 0) v in
  let size := (length v * 138 / 100 + 1)%nat in
  r ← convert 256 58 v 0 (replicate size 0);
  let '(length, array) := r in
  let it := skip (fun d => d =? 0) (drop (size - length) (reverse array)) in
  Some (replicate zeroes 49 ++ map (fun d => aget pszBase58 (Z.to_nat d)) it).

Inductive decode_result : Type := DecodeAssert | DecodeFail | Decoded (vch : list Z).

(** The loop reads a character and multiplies; an unknown character returns, a carry
    asserts, whichever comes first. *)
Fixpoint decode_loop (psz : list Z) (length : nat) (array : list Z) : decode_result + (list Z * nat * list Z) :=
  match psz with
  | [] => inr ([], length, array)
  | c :: psz' =>
      if isspace c then inr (psz, length, array)
      else
        match digit_of c with
        | None => inl DecodeFail
        | Some d =>
            let '(carry, i, array) := mul_add 58 256 d 0 length array in
            if carry =? 0 then decode_loop psz' i array else inl DecodeAssert
        end
  end.

(** A C string: no character is zero. *)
Definition DecodeBase58 (psz : list Z) : decode_result :=
  let psz := skip isspace psz in
  let zeroes := skipped (fun c => c =? 49) psz in
  let psz := skip (fun c => c =? 49) psz in
  let size := (length psz * 733 / 1000 + 1)%nat in
  match decode_loop psz 0 (replicate size 0) with
  | inl r => r
  | inr (psz, length, array) =>
      match skip isspace psz with
      | [] => Decoded (replicate zeroes 0 ++ skip (fun d => d =? 0) (drop (size - length) (reverse array)))
      | _ => DecodeFail
      end
  end.

Definition EncodeBase58Check (vchIn : list Z) : option (list Z) :=
  EncodeBase58 (vchIn ++ take 4 (Hash [vchIn])).
Definition DecodeBase58Check (psz : list Z) : decode_result :=
  match DecodeBase58 psz with
  | Decoded vchRet =>
      if (length vchRet <? 4)%nat then DecodeFail
      else
        let body := take (length vchRet - 4) vchRet in
        if bool_decide (take 4 (Hash [body]) = drop (length vchRet - 4) vchRet) then Decoded body else DecodeFail
  | r => r
  end.

(** ** Data with a version, and addresses *)

Record CBase58Data : Type := { vchVersion : list Z; vchData : list Z }.
Definition CBase58Data_new : CBase58Data := {| vchVersion := []; vchData := [] |}.
Definition SetData (vchVersionIn pdata : list Z) : CBase58Data := {| vchVersion := vchVersionIn; vchData := pdata |}.
(** [SetString] with its default of one version byte; [None] when an assertion fails. *)
Definition SetString (psz : list Z) : option (bool * CBase58Data) :=
  match DecodeBase58Check psz with
  | DecodeAssert => None
  | DecodeFail => Some (false, CBase58Data_new)
  | Decoded vchTemp =>
      if (length vchTemp <? 1)%nat then Some (false, CBase58Data_new)
      else Some (true, {| vchVersion := take 1 vchTemp; vchData := drop 1 vchTemp |})
  end.
Definition ToString (b : CBase58Data) : option (list Z) := EncodeBase58Check (vchVersion b ++ vchData b).

(** [Params().Base58Prefix] *)
Record Base58Prefixes : Type := { PUBKEY_ADDRESS : list Z; SCRIPT_ADDRESS : list Z; SECRET_KEY : list Z }.
Definition main_prefixes : Base58Prefixes := {| PUBKEY_ADDRESS := [55]; SCRIPT_ADDRESS := [16]; SECRET_KEY := [183] |}.
Definition test_prefixes : Base58Prefixes := {| PUBKEY_ADDRESS := [140]; SCRIPT_ADDRESS := [19]; SECRET_KEY := [239] |}.

Section Addresses.
Context (params : Base58Prefixes).

(** [CBitcoinAddress::Set]; for no destination it returns false and leaves the address. *)
Definition SetDestination (dest : CTxDestination) (addr : CBase58Data) : bool * CBase58Data :=
  match dest with
  | CNoDestination => (false, addr)
  | DestKey id => (true, SetData (PUBKEY_ADDRESS params) (keyid id))
  | DestScript id => (true, SetData (SCRIPT_ADDRESS params) (scriptid id))
  end.
Definition CBitcoinAddress_IsValid (a : CBase58Data) : bool :=
  let fCorrectSize := (length (vchData a) =? 20)%nat in
  let fKnownVersion := bool_decide (vchVersion a = PUBKEY_ADDRESS params) || bool_decide (vchVersion a = SCRIPT_ADDRESS params) in
  fCorrectSize && fKnownVersion.
Definition CBitcoinAddress_Get (a : CBase58Data) : CTxDestination :=
  if negb (CBitcoinAddress_IsValid a) then CNoDestination
  else if bool_decide (vchVersion a = PUBKEY_ADDRESS params) then DestKey {| keyid := vchData a |}
  else if bool_decide (vchVersion a = SCRIPT_ADDRESS params) then DestScript {| scriptid := vchData a |}
  else CNoDestination.
(** [GetIndexKey]: the hash and its type, 1 for keys and 2 for scripts. *)
Definition GetIndexKey (a : CBase58Data) : option (list Z * Z) :=
  if negb (CBitcoinAddress_IsValid a) then None
  else if bool_decide (vchVersion a = PUBKEY_ADDRESS params) then Some (vchData a, 1)
  else if bool_decide (vchVersion a = SCRIPT_ADDRESS params) then Some (vchData a, 2)
  else None.
Definition GetKeyID (a : CBase58Data) : option CKeyID :=
  if negb (CBitcoinAddress_IsValid a) || negb (bool_decide (vchVersion a = PUBKEY_ADDRESS params)) then None
  else Some {| keyid := vchData a |}.
Definition IsScript (a : CBase58Data) : bool := CBitcoinAddress_IsValid a && bool_decide (vchVersion a = SCRIPT_ADDRESS params).

(** [CBitcoinSecret]: the 32 bytes of a key, and whether its public key is compressed. *)
Definition SetKey (key : list Z) (compressed : bool) : CBase58Data :=
  SetData (SECRET_KEY params) (key ++ (if compressed then [1] else [])).
Definition GetKey (a : CBase58Data) : option (list Z * bool) :=
  if (length (vchData a) <? 32)%nat then None
  else Some (take 32 (vchData a), (32 <? length (vchData a))%nat && (aget (vchData a) 32 =? 1)).
Definition CBitcoinSecret_IsValid (a : CBase58Data) : bool :=
  let fExpectedFormat := (length (vchData a) =? 32)%nat || ((length (vchData a) =? 33)%nat && (aget (vchData a) 32 =? 1)) in
  fExpectedFormat && bool_decide (vchVersion a = SECRET_KEY params).
End Addresses.

(** ** Numbers in a base *)

(** Most significant digit first, and least significant first. *)
Definition num (B : Z) (acc : Z) (ds : list Z) : Z := fold_left (fun a d => a * B + d) ds acc.
Fixpoint val (B : Z) (l : list Z) : Z :=
  match l with [] => 0 | d :: l => d + B * val B l end.
Definition digits (B : Z) (l : list Z) : Prop := Forall (fun d => 0 <= d < B) l.
Definition zeros (l : list Z) : Prop := Forall (fun d => d = 0) l.
Definition is0 (d : Z) : bool := d =? 0.

Lemma num_acc B ds : forall acc, num B acc ds = acc * B ^ Z.of_nat (length ds) + num B 0 ds.
Proof.
  induction ds as [|d ds IH]; intros acc; cbn [num fold_left length]; [lia|].
  change (num B (acc * B + d) ds = acc * B ^ Z.of_nat (S (length ds)) + num B (0 * B + d) ds).
  rewrite (IH (acc * B + d)), (IH (0 * B + d)), Nat2Z.inj_succ, Z.pow_succ_r by lia. lia.
Qed.
Lemma num_cons B d ds : num B 0 (d :: ds) = d * B ^ Z.of_nat (length ds) + num B 0 ds.
Proof. change (num B (0 * B + d) ds = d * B ^ Z.of_nat (length ds) + num B 0 ds). rewrite num_acc. lia. Qed.
Lemma num_snoc B acc ds d : num B acc (ds ++ [d]) = num B acc ds * B + d.
Proof. unfold num. rewrite fold_left_app. done. Qed.
Lemma num_val B l : num B 0 (reverse l) = val B l.
Proof.
  induction l as [|d l IH]; [done|].
  rewrite reverse_cons, num_snoc, IH. cbn [val]. lia.
Qed.
Lemma num_bound B ds : 0 < B -> digits B ds -> 0 <= num B 0 ds < B ^ Z.of_nat (length ds).
Proof.
  intros HB. induction 1 as [|d ds Hd _ IH]; [done|].
  rewrite num_cons. cbn [length]. rewrite Nat2Z.inj_succ, Z.pow_succ_r by lia. nia.
Qed.
Lemma zeros_val B l : zeros l -> val B l = 0.
Proof. induction 1 as [|d l -> _ IH]; cbn [val]; lia. Qed.

(** Leading zeros do not count, and without them the digits are determined. *)
Definition canonical (l : list Z) : Prop := match l with [] => True | d :: _ => d <> 0 end.
Lemma skip_split f s : exists p, s = p ++ skip f s /\ Forall (fun c => f c = true) p /\ length p = skipped f s.
Proof.
  induction s as [|c s [p (E & F & L)]]; [exists []; done|].
  unfold skipped in *. cbn [skip]. destruct (f c) eqn:Ec.
  - exists (c :: p). rewrite E at 1. split_and!; [done|by constructor|].
    cbn [length]. assert (length s = length (p ++ skip f s)) as L' by (by rewrite <- E).
    rewrite length_app in L'. lia.
  - exists []. cbn [length]. split_and!; [done..|lia].
Qed.
Lemma skip_head f s : match skip f s with [] => True | c :: _ => f c = false end.
Proof. induction s as [|c s IH]; cbn [skip]; [done|]. by destruct (f c) eqn:?. Qed.
Lemma skip_app f p s : Forall (fun c => f c = true) p -> skip f (p ++ s) = skip f s.
Proof. induction 1 as [|c p Hc _ IH]; [done|]. cbn [app skip]. by rewrite Hc. Qed.
Lemma skip_stop f s : match s with [] => True | c :: _ => f c = false end -> skip f s = s.
Proof. destruct s as [|c s]; [done|]. cbn [skip]. by intros ->. Qed.
Lemma skip0_canonical l : canonical (skip is0 l).
Proof. pose proof (skip_head is0 l) as H. destruct (skip is0 l); [done|]. cbn. unfold is0 in H. lia. Qed.
Lemma skip0_num B l : num B 0 (skip is0 l) = num B 0 l.
Proof.
  induction l as [|d l IH]; [done|]. cbn [skip]. destruct (is0 d) eqn:E; [|done].
  unfold is0 in E. rewrite num_cons, IH. assert (d = 0) as -> by lia. lia.
Qed.
Lemma skip0_digits B l : digits B l -> digits B (skip is0 l).
Proof. induction 1 as [|d l Hd Hl IH]; [constructor|]. cbn [skip]. destruct (is0 d); [done|by constructor]. Qed.
Lemma skip0_drop k l : zeros (take k l) -> skip is0 (drop k l) = skip is0 l.
Proof.
  intros H. rewrite <- (take_drop k l) at 2. symmetry. apply skip_app.
  eapply Forall_impl; [exact H|]. intros c ->. done.
Qed.

Lemma canonical_length B l1 l2 :
  1 < B -> digits B l1 -> digits B l2 -> canonical l1 -> canonical l2 -> num B 0 l1 = num B 0 l2 ->
  (length l1 <= length l2)%nat.
Proof.
  intros HB D1 D2 C1 C2 E. destruct (decide (length l1 <= length l2)%nat) as [L|L]; [done|].
  destruct l1 as [|d l1]; [cbn in L; lia|]. cbn in C1. exfalso.
  pose proof (num_bound B _ ltac:(lia) D2) as U. rewrite <- E, num_cons in U.
  inversion D1 as [|? ? Hd D1']; subst. pose proof (num_bound B _ ltac:(lia) D1') as V. cbn [length] in L.
  assert (B ^ Z.of_nat (length l2) <= B ^ Z.of_nat (length l1)) by (apply Z.pow_le_mono_r; lia).
  nia.
Qed.
Lemma digits_inj B : 1 < B -> forall l1 l2, digits B l1 -> digits B l2 -> length l1 = length l2 ->
  num B 0 l1 = num B 0 l2 -> l1 = l2.
Proof.
  intros HB. induction l1 as [|d1 l1 IH]; intros [|d2 l2] D1 D2 L E; try done.
  inversion D1 as [|? ? H1 D1']; inversion D2 as [|? ? H2 D2']; subst. injection L as L.
  rewrite !num_cons, L in E.
  pose proof (num_bound B _ ltac:(lia) D1') as V1. pose proof (num_bound B _ ltac:(lia) D2') as V2. rewrite L in V1.
  assert (d1 = d2) as -> by nia. f_equal. apply IH; [done..|lia].
Qed.
Lemma canonical_inj B l1 l2 :
  1 < B -> digits B l1 -> digits B l2 -> canonical l1 -> canonical l2 -> num B 0 l1 = num B 0 l2 -> l1 = l2.
Proof.
  intros HB D1 D2 C1 C2 E. apply (digits_inj B); [done..| |done].
  pose proof (canonical_length B l1 l2 HB D1 D2 C1 C2 E).
  pose proof (canonical_length B l2 l1 HB D2 D1 C2 C1 (eq_sym E)). lia.
Qed.

(** ** The loops compute in place *)

(** The array holds digits, and those beyond the first [k] are zero. *)
Definition good (base : Z) (size k : nat) (array : list Z) : Prop :=
  length array = size /\ digits base array /\ zeros (drop k array).

Lemma mul_add_spec mul base k : 0 < mul -> 0 < base -> forall it carry i,
  0 <= carry -> digits base it -> zeros (drop (k - i) it) ->
  let '(c, i', out) := mul_add mul base carry i k it in
  0 <= c /\ val base out + c * base ^ Z.of_nat (length it) = mul * val base it + carry /\
  (i <= i')%nat /\ good base (length it) (i' - i) out.
Proof.
  intros Hm Hb. induction it as [|d rest IH]; intros carry i Hc Hd Hz; cbn [mul_add].
  { unfold good. rewrite drop_nil. cbn. split_and!; try constructor; lia. }
  inversion Hd as [|? ? H Hd']; subst.
  destruct (negb (carry =? 0) || (i <? k)%nat) eqn:E.
  - assert (zeros (drop (k - S i) rest)) as Hz'.
    { destruct (k - i)%nat as [|j] eqn:Ej; cbn [drop] in Hz.
      - replace (k - S i)%nat with 0%nat by lia. cbn. by inversion Hz.
      - by replace (k - S i)%nat with j by lia. }
    remember (carry + mul * d) as t eqn:Et. assert (0 <= t) by nia.
    pose proof (Z.div_pos t base ltac:(lia) Hb) as Hq.
    specialize (IH (t / base) (S i) Hq Hd' Hz').
    destruct (mul_add mul base (t / base) (S i) k rest) as [[c i'] out].
    destruct IH as (C0 & V & I & L & D & Z0). pose proof (Z.div_mod t base ltac:(lia)) as Q.
    pose proof (Z.mod_pos_bound t base Hb) as R.
    cbn [val length]. rewrite Nat2Z.inj_succ, Z.pow_succ_r by lia. unfold good. cbn [length].
    replace (i' - i)%nat with (S (i' - S i)) by lia. cbn [drop].
    split_and!; [lia| |lia|lia|by constructor|done].
    apply (f_equal (Z.mul base)) in V. revert V Q. clear -Et.
    generalize (base ^ Z.of_nat (length rest)), (t / base), (t mod base). intros p q r V Q. lia.
  - apply orb_false_iff in E as [E1%negb_false_iff E2%Nat.ltb_ge]. apply Z.eqb_eq in E1 as ->.
    replace (k - i)%nat with 0%nat in Hz by lia. cbn [drop] in Hz.
    rewrite (zeros_val base _ Hz). replace (i - i)%nat with 0%nat by lia. unfold good. cbn [drop]. split_and!; lia || done.
Qed.

(** One character: the value is multiplied and the digit added, if that fits. *)
Lemma step_spec mul base size k array d :
  0 < mul -> 0 < base -> 0 <= d -> good base size k array -> mul * val base array + d < base ^ Z.of_nat size ->
  exists k' array', mul_add mul base d 0 k array = (0, k', array') /\ good base size k' array' /\
    val base array' = mul * val base array + d.
Proof.
  intros Hm Hb Hd (L & D & Z0) Hlt.
  pose proof (mul_add_spec mul base k Hm Hb array d 0 Hd D) as S. rewrite Nat.sub_0_r in S. specialize (S Z0).
  destruct (mul_add mul base d 0 k array) as [[c i'] out]. destruct S as (C0 & V & _ & G).
  rewrite Nat.sub_0_r, L in G. rewrite L in V.
  assert (0 <= val base out) as P.
  { rewrite <- num_val. apply num_bound; [lia|]. apply Forall_reverse, G. }
  assert (c = 0) as -> by nia. exists i', out. split_and!; [done|exact G|lia].
Qed.

Lemma convert_spec mul base size : 0 < mul -> 0 < base -> forall ds k array,
  digits mul ds -> good base size k array -> num mul (val base array) ds < base ^ Z.of_nat size ->
  exists k' array', convert mul base ds k array = Some (k', array') /\ good base size k' array' /\
    val base array' = num mul (val base array) ds.
Proof.
  intros Hm Hb. induction ds as [|d ds IH]; intros k array Hd G Hlt; [by exists k, array|].
  inversion Hd as [|? ? H Hd']; subst. cbn [convert].
  change (num mul (val base array) (d :: ds)) with (num mul (val base array * mul + d) ds) in *.
  assert (0 <= val base array) as P.
  { rewrite <- num_val. apply num_bound; [lia|]. apply Forall_reverse, G. }
  destruct (step_spec mul base size k array d Hm Hb ltac:(lia) G) as (k' & array' & -> & G' & V).
  { rewrite num_acc in Hlt. pose proof (num_bound mul ds Hm Hd').
    assert (1 <= mul ^ Z.of_nat (length ds)) by (pose proof (Z.pow_pos_nonneg mul (Z.of_nat (length ds))); lia). nia. }
  rewrite Z.eqb_refl. replace (val base array * mul + d) with (val base array') in * by lia.
  by apply IH.
Qed.

(** The result, without the unused front and its leading zeros. *)
Lemma result_spec base size k array :
  good base size k array -> let out := skip is0 (drop (size - k) (reverse array)) in
  digits base out /\ canonical out /\ num base 0 out = val base array.
Proof.
  intros (L & D & Z0). cbn zeta. rewrite skip0_drop.
  - split_and!; [by apply skip0_digits, Forall_reverse|apply skip0_canonical|by rewrite skip0_num, num_val].
  - assert (take (size - k) (reverse array) = reverse (drop k array)) as ->; [|by apply Forall_reverse].
    rewrite <- (take_drop k array) at 1. rewrite reverse_app, take_app_le
      by (rewrite length_reverse, length_drop; lia).
    apply take_ge. rewrite length_reverse, length_drop. lia.
Qed.
Lemma good_start base size : 0 < base -> good base size 0 (replicate size 0) /\ val base (replicate size 0) = 0.
Proof.
  intros Hb. assert (zeros (replicate size 0)) as Z0 by (by apply Forall_replicate).
  split_and!; [split_and!|by apply zeros_val].
  - apply length_replicate.
  - apply Forall_replicate. lia.
  - by rewrite drop_0.
Qed.

(** ** The arrays are large enough *)

Lemma power_fits a b p q n size :
  1 < a -> 1 < b -> 0 < q -> a ^ q <= b ^ p -> 0 <= n -> p * n <= q * size -> 0 <= p -> 0 <= size -> a ^ n <= b ^ size.
Proof.
  intros Ha Hb Hq Hab Hn Hs Hp Hsz.
  destruct (decide (a ^ n <= b ^ size)) as [L|L]; [done|]. exfalso.
  assert ((b ^ size) ^ q < (a ^ n) ^ q) as C by (apply Z.pow_lt_mono_l; [lia|split; [apply Z.pow_nonneg; lia|lia]]).
  rewrite <- !Z.pow_mul_r, (Z.mul_comm n q), (Z.pow_mul_r a q n) in C by lia.
  assert ((a ^ q) ^ n <= (b ^ p) ^ n) as M by (apply Z.pow_le_mono_l; split; [apply Z.pow_nonneg; lia|done]).
  rewrite <- (Z.pow_mul_r b p n) in M by lia.
  assert (b ^ (p * n) <= b ^ (size * q)) by (apply Z.pow_le_mono_r; lia). lia.
Qed.
Lemma encode_fits n : 256 ^ Z.of_nat n <= 58 ^ Z.of_nat (n * 138 / 100 + 1).
Proof.
  apply (power_fits 256 58 138 100); [lia..|by vm_compute|lia| |lia|lia].
  pose proof (Nat.div_mod (n * 138) 100 ltac:(lia)). pose proof (Nat.mod_upper_bound (n * 138) 100 ltac:(lia)). lia.
Qed.
Lemma decode_fits n : 58 ^ Z.of_nat n <= 256 ^ Z.of_nat (n * 733 / 1000 + 1).
Proof.
  apply (power_fits 58 256 733 1000); [lia..|by vm_compute|lia| |lia|lia].
  pose proof (Nat.div_mod (n * 733) 1000 ltac:(lia)). pose proof (Nat.mod_upper_bound (n * 733) 1000 ltac:(lia)). lia.
Qed.

(** ** The alphabet *)

Definition chr (d : Z) : Z := aget pszBase58 (Z.to_nat d).
Lemma chr_ok d : 0 <= d < 58 -> digit_of (chr d) = Some d /\ isspace (chr d) = false /\ (chr d =? 49) = is0 d.
Proof.
  intros Hd. assert (forallb (fun k => let d := Z.of_nat k in
    bool_decide (digit_of (chr d) = Some d) && negb (isspace (chr d)) && Bool.eqb (chr d =? 49) (is0 d)) (seq 0 58) = true)
    as H by (by vm_compute).
  rewrite forallb_forall in H. specialize (H (Z.to_nat d)).
  assert (In (Z.to_nat d) (seq 0 58)) as I by (apply in_seq; lia). specialize (H I). rewrite Z2Nat.id in H by lia.
  apply andb_true_iff in H as [[H1%bool_decide_eq_true H2%negb_true_iff]%andb_true_iff H3%Bool.eqb_prop].
  done.
Qed.
Lemma index_of_char_sound s c : forall k d, index_of_char s c k = Some d -> k <= d < k + Z.of_nat (length s) /\ c = aget s (Z.to_nat (d - k)).
Proof.
  induction s as [|x s IH]; intros k d H; [done|]. cbn [index_of_char] in H. cbn [length].
  destruct (x =? c) eqn:E.
  - injection H as <-. apply Z.eqb_eq in E as ->. rewrite Z.sub_diag. split; [lia|done].
  - apply IH in H as [H ->]. split; [lia|]. unfold aget.
    replace (Z.to_nat (d - k)) with (S (Z.to_nat (d - (k + 1)))) by lia. done.
Qed.
Lemma digit_of_sound c d : digit_of c = Some d -> 0 <= d < 58 /\ c = chr d.
Proof. intros H. apply index_of_char_sound in H as [H E]. rewrite Z.sub_0_r in E. split; [exact H|exact E]. Qed.

Definition blanks (s : list Z) : Prop := Forall (fun c => isspace c = true) s.
(** Where the digits of a text end. *)
Definition stops (s : list Z) : Prop := match s with [] => True | c :: _ => isspace c = true end.
Definition stray (s : list Z) : Prop := match s with [] => False | c :: _ => isspace c = false /\ digit_of c = None end.
Lemma text_split s : exists ds rest, s = map chr ds ++ rest /\ digits 58 ds /\ (stops rest \/ stray rest).
Proof.
  induction s as [|c s (ds & rest & -> & D & H)]; [by exists [], []; split_and!; [|constructor|left]|].
  destruct (isspace c) eqn:Ec; [exists [], (c :: map chr ds ++ rest); split_and!; [done|constructor|by left]|].
  destruct (digit_of c) as [d|] eqn:Ed.
  - apply digit_of_sound in Ed as [Hd ->]. exists (d :: ds), rest. split_and!; [done|by constructor|done].
  - exists [], (c :: map chr ds ++ rest). split_and!; [done|constructor|by right].
Qed.

Lemma decode_loop_digits ds rest : digits 58 ds -> forall k array,
  decode_loop (map chr ds ++ rest) k array =
  match convert 58 256 ds k array with
  | Some (k', array') => decode_loop rest k' array'
  | None => inl DecodeAssert
  end.
Proof.
  induction 1 as [|d ds Hd _ IH]; intros k array; [done|].
  cbn [map app decode_loop convert]. destruct (chr_ok d Hd) as (-> & -> & _).
  destruct (mul_add 58 256 d 0 k array) as [[c k'] array']. destruct (c =? 0); [apply IH|done].
Qed.
Lemma decode_loop_end rest k array :
  (stops rest -> decode_loop rest k array = inr (rest, k, array)) /\ (stray rest -> decode_loop rest k array = inl DecodeFail).
Proof. destruct rest as [|c rest]; cbn; [done|]. split; [by intros ->|by intros [-> ->]]. Qed.

(** From one base to the other, in an array that is large enough. *)
Lemma conversion mul base size ds :
  0 < mul -> 0 < base -> digits mul ds -> mul ^ Z.of_nat (length ds) <= base ^ Z.of_nat size ->
  exists k array, convert mul base ds 0 (replicate size 0) = Some (k, array) /\
  let out := skip is0 (drop (size - k) (reverse array)) in
  digits base out /\ canonical out /\ num base 0 out = num mul 0 ds.
Proof.
  intros Hm Hb Hd Hs. destruct (good_start base size Hb) as [G V].
  destruct (convert_spec mul base size Hm Hb ds 0 (replicate size 0) Hd G) as (k & array & E & G' & V').
  { rewrite V. pose proof (num_bound mul ds Hm Hd). lia. }
  exists k, array. split; [done|]. rewrite V in V'. rewrite <- V'. by apply result_spec.
Qed.

(** ** What is written, and what is read *)

Lemma replicate_skipped f a s : (forall c, f c = true -> c = a) -> s = replicate (skipped f s) a ++ skip f s.
Proof.
  intros Hf. destruct (skip_split f s) as (p & E & F & L). rewrite E at 1. f_equal. rewrite <- L.
  clear -Hf F. induction F as [|c p Hc _ IH]; [done|]. cbn. by rewrite (Hf _ Hc), <- IH.
Qed.
Lemma skip_replicate f n a s : f a = true -> skip f (replicate n a ++ s) = skip f s.
Proof. intros H. apply skip_app, Forall_replicate, H. Qed.
Lemma skipped_replicate f n a s : f a = true -> skip f s = s -> skipped f (replicate n a ++ s) = n.
Proof. intros H E. unfold skipped. rewrite skip_replicate, E, length_app, length_replicate by done. lia. Qed.

Lemma EncodeBase58_spec n w : digits 256 w -> canonical w ->
  exists ds, EncodeBase58 (replicate n 0 ++ w) = Some (replicate n 49 ++ map chr ds) /\
  digits 58 ds /\ canonical ds /\ num 58 0 ds = num 256 0 w.
Proof.
  intros Hw Cw. assert (skip is0 w = w) as Sw.
  { apply skip_stop. destruct w; [done|]. cbn in Cw. unfold is0. lia. }
  unfold EncodeBase58. change (fun b => b =? 0) with is0.
  rewrite skipped_replicate, skip_replicate, Sw by done. cbn zeta.
  destruct (conversion 256 58 (length w * 138 / 100 + 1) w) as (k & array & -> & D & C & E); [done..|apply encode_fits|].
  exists (skip is0 (drop ((length w * 138 / 100 + 1) - k) (reverse array))). done.
Qed.

(** A text: blanks, ones, the digits of a number, and what follows them. *)
Lemma DecodeBase58_eq b1 n ds rest (p := replicate n 49 ++ map chr ds ++ rest) :
  blanks b1 -> digits 58 ds -> canonical ds -> stops rest \/ stray rest -> skip isspace p = p ->
  exists e, digits 256 e /\ canonical e /\ num 256 0 e = num 58 0 ds /\
  DecodeBase58 (b1 ++ p) = (if decide (skip isspace rest = []) then Decoded (replicate n 0 ++ e) else DecodeFail).
Proof.
  intros H1 Hd Cd Hr Hp. unfold DecodeBase58. rewrite (skip_app _ b1), Hp by done.
  assert (skip (fun c => c =? 49) (map chr ds ++ rest) = map chr ds ++ rest) as S49.
  { apply skip_stop. destruct Hd as [|d ds Hd _]; cbn [map app].
    - destruct rest as [|c rest]; [done|]. cbn in Hr. destruct (c =? 49) eqn:E; [|done].
      apply Z.eqb_eq in E as ->. by destruct Hr as [?|[_ ?]].
    - destruct (chr_ok d Hd) as (_ & _ & ->). cbn in Cd. unfold is0. lia. }
  unfold p. rewrite skipped_replicate, skip_replicate, S49 by done. cbn zeta.
  set (size := (length (map chr ds ++ rest) * 733 / 1000 + 1)%nat).
  destruct (conversion 58 256 size ds) as (k & array & Ec & D & C & E); [done..| |].
  { etransitivity; [|apply decode_fits]. apply Z.pow_le_mono_r; [lia|]. rewrite length_app, length_map. lia. }
  rewrite decode_loop_digits, Ec by done.
  exists (skip is0 (drop (size - k) (reverse array))). split_and!; [done..|].
  destruct (decode_loop_end rest k array) as [E1 E2].
  destruct Hr as [Hr|Hr]; [rewrite (E1 Hr)|rewrite (E2 Hr)].
  - destruct (skip isspace rest) eqn:Es; by destruct (decide _).
  - destruct (decide _) as [Es|]; [|done]. exfalso. destruct rest as [|c rest]; [done|]. cbn in Hr, Es.
    by rewrite (proj1 Hr) in Es.
Qed.
Lemma text_shape s : exists b1 n ds rest (p := replicate n 49 ++ map chr ds ++ rest),
  s = b1 ++ p /\ blanks b1 /\ digits 58 ds /\ canonical ds /\ (stops rest \/ stray rest) /\ skip isspace p = p.
Proof.
  destruct (skip_split isspace s) as (b1 & E1 & H1 & _). pose proof (skip_head isspace s) as Hp.
  set (p := skip isspace s) in *. pose proof (replicate_skipped (fun c => c =? 49) 49 p) as E2.
  pose proof (skip_head (fun c => c =? 49) p) as Hq.
  set (q := skip (fun c => c =? 49) p) in *. destruct (text_split q) as (ds & rest & E3 & D & R).
  exists b1, (skipped (fun c => c =? 49) p), ds, rest. cbn zeta.
  assert (replicate (skipped (fun c => c =? 49) p) 49 ++ map chr ds ++ rest = p) as ->.
  { rewrite <- E3. symmetry. apply E2. intros c. lia. }
  split_and!; [done..| |done|by apply skip_stop].
  destruct D as [|d ds Hd _]; [done|]. rewrite E3 in Hq. cbn [map app canonical] in Hq |- *.
  destruct (chr_ok d Hd) as (_ & _ & E). rewrite E in Hq. unfold is0 in Hq. lia.
Qed.

Lemma Decode_Encode v : bytes_ok v -> exists t, EncodeBase58 v = Some t /\ DecodeBase58 t = Decoded v.
Proof.
  intros Hv. pose proof (skip0_digits 256 v Hv) as D. pose proof (skip0_canonical v) as C.
  pose proof (replicate_skipped is0 0 v ltac:(unfold is0; lia)) as E.
  destruct (EncodeBase58_spec (skipped is0 v) _ D C) as (ds & En & Dd & Cd & N). rewrite <- E in En.
  eexists. split; [exact En|].
  destruct (DecodeBase58_eq [] (skipped is0 v) ds []) as (e & De & Ce & Ne & Ed); [constructor|done..|by left| |].
  - rewrite app_nil_r. apply skip_stop. destruct (skipped is0 v); [|done].
    destruct Dd as [|d ds Hd _]; [done|]. apply (chr_ok d Hd).
  - rewrite app_nil_r in Ed. cbn [app] in Ed. rewrite Ed. destruct (decide _) as [_|n]; [|by destruct n].
    f_equal. rewrite E. f_equal; [|]. { by rewrite <- E. }
    apply (canonical_inj 256); [lia|done..|]. congruence.
Qed.
Lemma Encode_Decode s :
  DecodeBase58 s = DecodeFail \/ exists v b1 t b2, DecodeBase58 s = Decoded v /\ bytes_ok v /\
  s = b1 ++ t ++ b2 /\ blanks b1 /\ blanks b2 /\ EncodeBase58 v = Some t.
Proof.
  destruct (text_shape s) as (b1 & n & ds & rest & -> & H1 & D & C & R & Hp).
  destruct (DecodeBase58_eq b1 n ds rest H1 D C R Hp) as (e & De & Ce & Ne & ->).
  destruct (decide _) as [Es|]; [|by left]. right.
  exists (replicate n 0 ++ e), b1, (replicate n 49 ++ map chr ds), rest. split_and!; [done| | |done| |].
  - apply Forall_app. split; [by apply Forall_replicate|done].
  - by rewrite <- app_assoc.
  - destruct (skip_split isspace rest) as (q & E & F & _). rewrite Es, app_nil_r in E. by subst q.
  - destruct (EncodeBase58_spec n e De Ce) as (ds' & -> & D' & C' & N'). do 3 f_equal.
    apply (canonical_inj 58); [lia|done..|]. congruence.
Qed.

(** Base 58 is an exact text form of byte strings.  Every byte string has an encoding
    and decoding it gives the byte string back, leading zero bytes included; neither
    routine's assertion that its array was large enough can fail, on any text; and a text
    that decodes is, but for blanks around it, the encoding of what it decodes to, so
    that two texts for the same bytes differ in blanks only. *)
Theorem base58_codec (v s : list Z) (Hv : bytes_ok v) :
  (exists t, EncodeBase58 v = Some t /\ DecodeBase58 t = Decoded v) /\
  (DecodeBase58 s = DecodeFail \/ exists w b1 t b2,
   DecodeBase58 s = Decoded w /\ bytes_ok w /\ s = b1 ++ t ++ b2 /\ blanks b1 /\ blanks b2 /\ EncodeBase58 w = Some t).
Proof. split; [by apply Decode_Encode|apply Encode_Decode]. Qed.

Lemma base58_codec_witness :
  (exists t, EncodeBase58 [0; 0; 255; 1] = Some t /\ DecodeBase58 t = Decoded [0; 0; 255; 1]) /\
  (DecodeBase58 [32; 49; 50; 32] = DecodeFail \/ exists w b1 t b2,
   DecodeBase58 [32; 49; 50; 32] = Decoded w /\ bytes_ok w /\ [32; 49; 50; 32] = b1 ++ t ++ b2 /\ blanks b1 /\ blanks b2 /\
   EncodeBase58 w = Some t).
Proof. apply (base58_codec [0; 0; 255; 1] [32; 49; 50; 32]). by repeat constructor. Defined.

(** The blanks are dropped, and an embedded one refused. *)
Example decoded_texts :
  DecodeBase58 [32; 49; 50; 32] = Decoded [0; 1] /\ DecodeBase58 [49; 50] = Decoded [0; 1] /\
  DecodeBase58 [50; 32; 50] = DecodeFail /\ DecodeBase58 [48] = DecodeFail /\ DecodeBase58 [] = Decoded [].
Proof. by vm_compute. Qed.

(** ** Addresses *)

Lemma Hash_bytes_ok v : bytes_ok (Hash v).
Proof. rewrite Hash_double. apply sha256_bytes_ok. Qed.
Lemma Decode_EncodeCheck v : bytes_ok v -> exists t, EncodeBase58Check v = Some t /\ DecodeBase58Check t = Decoded v.
Proof.
  intros Hv. assert (bytes_ok (v ++ take 4 (Hash [v]))) as Hb.
  { apply Forall_app. split; [done|]. apply Forall_take, Hash_bytes_ok. }
  destruct (Decode_Encode _ Hb) as (t & E & D). exists t. split; [exact E|].
  unfold DecodeBase58Check. rewrite D, length_app, length_take, length_Hash.
  destruct (_ <? 4)%nat eqn:L; [apply Nat.ltb_lt in L; lia|].
  replace (length v + 4 `min` 32 - 4)%nat with (length v) by lia.
  rewrite take_app_length, drop_app_length. by rewrite bool_decide_true.
Qed.
Lemma Encode_DecodeCheck s :
  DecodeBase58Check s = DecodeFail \/ exists v b1 t b2, DecodeBase58Check s = Decoded v /\ bytes_ok v /\
  s = b1 ++ t ++ b2 /\ blanks b1 /\ blanks b2 /\ EncodeBase58Check v = Some t.
Proof.
  unfold DecodeBase58Check. destruct (Encode_Decode s) as [->|(v & b1 & t & b2 & -> & Hv & H)]; [by left|].
  destruct (_ <? 4)%nat eqn:L; [by left|]. case_bool_decide as C; [|by left]. right.
  exists (take (length v - 4) v), b1, t, b2. split_and!; [done|by apply Forall_take|apply H..|].
  unfold EncodeBase58Check. rewrite C, take_drop. apply H.
Qed.

(** The prefixes of a network are single bytes that tell its addresses apart. *)
Definition prefixes_ok (p : Base58Prefixes) : Prop :=
  length (PUBKEY_ADDRESS p) = 1%nat /\ length (SCRIPT_ADDRESS p) = 1%nat /\
  bytes_ok (PUBKEY_ADDRESS p) /\ bytes_ok (SCRIPT_ADDRESS p) /\ PUBKEY_ADDRESS p <> SCRIPT_ADDRESS p.
Definition destination_ok (d : CTxDestination) : Prop :=
  match d with
  | CNoDestination => False
  | DestKey id => length (keyid id) = 20%nat /\ bytes_ok (keyid id)
  | DestScript id => length (scriptid id) = 20%nat /\ bytes_ok (scriptid id)
  end.

Lemma Get_Set params d a0 : prefixes_ok params -> destination_ok d ->
  let a := snd (SetDestination params d a0) in
  CBitcoinAddress_IsValid params a = true /\ CBitcoinAddress_Get params a = d /\
  length (vchVersion a) = 1%nat /\ bytes_ok (vchVersion a ++ vchData a).
Proof.
  intros (L1 & L2 & B1 & B2 & N) Hd.
  destruct d as [|[id]|[id]]; [done|destruct Hd as [L B]..]; cbn in L, B; unfold CBitcoinAddress_Get, CBitcoinAddress_IsValid; cbn; rewrite L; cbn.
  - rewrite (bool_decide_true (_ = _)) by done. cbn. split_and!; [done..|by apply Forall_app].
  - rewrite (bool_decide_false (_ = PUBKEY_ADDRESS params)) by done. rewrite (bool_decide_true (_ = _)) by done. cbn.
    split_and!; [done..|by apply Forall_app].
Qed.
Lemma Set_Get params a : CBitcoinAddress_IsValid params a = true -> bytes_ok (vchData a) ->
  destination_ok (CBitcoinAddress_Get params a) /\ snd (SetDestination params (CBitcoinAddress_Get params a) CBase58Data_new) = a.
Proof.
  intros V B. unfold CBitcoinAddress_Get. rewrite V. unfold CBitcoinAddress_IsValid in V. cbn [negb].
  apply andb_true_iff in V as [L%Nat.eqb_eq V]. destruct a as [ver data]. cbn in *.
  case_bool_decide as P1; [|case_bool_decide as P2; [|done]]; cbn; subst ver; by split_and!.
Qed.

Lemma SetString_cases s :
  SetString s = Some (false, CBase58Data_new) \/ exists a b1 t b2, SetString s = Some (true, a) /\
  length (vchVersion a) = 1%nat /\ bytes_ok (vchVersion a ++ vchData a) /\
  s = b1 ++ t ++ b2 /\ blanks b1 /\ blanks b2 /\ ToString a = Some t.
Proof.
  unfold SetString. destruct (Encode_DecodeCheck s) as [->|(v & b1 & t & b2 & -> & Hv & H)]; [by left|].
  destruct (length v <? 1)%nat eqn:L; [by left|]. apply Nat.ltb_ge in L. right.
  eexists _, b1, t, b2. split_and!; [done| | |apply H..|]; cbn [vchVersion vchData].
  - rewrite length_take. lia.
  - by rewrite take_drop.
  - unfold ToString. cbn [vchVersion vchData]. rewrite take_drop. apply H.
Qed.

(** C31: Addresses are an exact text form of destinations.  On a network whose two prefixes
    differ, the address of a key or script hash has a text, reading the text gives a
    valid address of the same destination; and a text that reads as a valid address is,
    but for blanks around it, the text of its destination.  Reading never fails an
    assertion. *)
Theorem address_roundtrip (params : Base58Prefixes) (Hp : prefixes_ok params)
    (d : CTxDestination) (Hd : destination_ok d) (s : list Z) :
  (exists t a, ToString (snd (SetDestination params d CBase58Data_new)) = Some t /\
   SetString t = Some (true, a) /\ CBitcoinAddress_IsValid params a = true /\ CBitcoinAddress_Get params a = d) /\
  (exists r a, SetString s = Some (r, a) /\ (CBitcoinAddress_IsValid params a = true -> exists b1 t b2,
   s = b1 ++ t ++ b2 /\ blanks b1 /\ blanks b2 /\
   ToString (snd (SetDestination params (CBitcoinAddress_Get params a) CBase58Data_new)) = Some t)).
Proof.
  split.
  - destruct (Get_Set params d CBase58Data_new Hp Hd) as (V & G & L & B).
    set (a := snd (SetDestination params d CBase58Data_new)) in *.
    destruct (Decode_EncodeCheck _ B) as (t & E & D). exists t, a. split_and!; [exact E| |done..].
    unfold SetString. rewrite D. destruct a as [ver data]. cbn in *.
    rewrite length_app, L. cbn [Nat.ltb Nat.leb Nat.add]. rewrite <- L, take_app_length, drop_app_length. done.
  - destruct (SetString_cases s) as [->|(a & b1 & t & b2 & -> & L & B & H)]; [by exists false, CBase58Data_new|].
    exists true, a. split; [done|]. intros V. apply Forall_app in B as [_ B].
    destruct (Set_Get params a V B) as [_ ->]. by exists b1, t, b2.
Qed.

Lemma address_roundtrip_witness :
  (exists t a, ToString (snd (SetDestination main_prefixes (DestKey {| keyid := replicate 20 7 |}) CBase58Data_new)) = Some t /\
   SetString t = Some (true, a) /\ CBitcoinAddress_IsValid main_prefixes a = true /\
   CBitcoinAddress_Get main_prefixes a = DestKey {| keyid := replicate 20 7 |}) /\
  (exists r a, SetString [49; 50] = Some (r, a) /\ (CBitcoinAddress_IsValid main_prefixes a = true -> exists b1 t b2,
   [49; 50] = b1 ++ t ++ b2 /\ blanks b1 /\ blanks b2 /\
   ToString (snd (SetDestination main_prefixes (CBitcoinAddress_Get main_prefixes a) CBase58Data_new)) = Some t)).
Proof.
  apply (address_roundtrip main_prefixes).
  - split_and!; [done..|by repeat constructor|by repeat constructor|done].
  - split; [done|]. by apply Forall_replicate.
Defined.
