(* ===== verification/NetAddress.v ===== *)
(** * Network addresses (src/src/netaddress.h/.cpp)

    [CNetAddr] is sixteen bytes, an IPv6 address with IPv4 and Tor mapped into it.  The
    classification decides which addresses are dialled, which masternodes may
    announce, and which peers count as one group; [CSubNet] is what bans are made of.
    The theorems: a subnet matches exactly the valid addresses that share its prefix,
    and what the group of an address is. *)

From S2P Require Import Prelude Bytes Hash ProviderTx MasternodeQueue.
From stdpp Require Import list.
Local Open Scope Z_scope.
Local Open Scope cxx_scope.

Definition NET_UNROUTABLE : Z := 0.
Definition NET_IPV4 : Z := 1.
Definition NET_IPV6 : Z := 2.
Definition NET_TOR : Z := 3.
Definition NET_MAX : Z := 4.

Section Address.
Context (ip : list Z).

Definition pchIPv4 : list Z := [0; 0; 0; 0; 0; 0; 0; 0; 0; 0; 0xff; 0xff].
Definition pchOnionCat : list Z := [0xfd; 0x87; 0xd8; 0x7e; 0xeb; 0x43].

(** [memcmp(ip, prefix, n) == 0] *)
Definition prefix_is (prefix : list Z) : bool := memcmp (take (length prefix) ip) prefix =? 0.
Definition GetByte (n : nat) : Z := aget ip (15 - n).

Definition IsIPv4 : bool := prefix_is pchIPv4.
Definition IsTor : bool := prefix_is pchOnionCat.
Definition IsIPv6 : bool := negb IsIPv4 && negb IsTor.
Definition IsRFC1918 : bool :=
  IsIPv4 && ((GetByte 3 =? 10) || ((GetByte 3 =? 192) && (GetByte 2 =? 168)) ||
             ((GetByte 3 =? 172) && ((16 <=? GetByte 2) && (GetByte 2 <=? 31)))).
Definition IsRFC2544 : bool := IsIPv4 && (GetByte 3 =? 198) && ((GetByte 2 =? 18) || (GetByte 2 =? 19)).
Definition IsRFC3927 : bool := IsIPv4 && ((GetByte 3 =? 169) && (GetByte 2 =? 254)).
Definition IsRFC6598 : bool := IsIPv4 && (GetByte 3 =? 100) && (64 <=? GetByte 2) && (GetByte 2 <=? 127).
Definition IsRFC5737 : bool :=
  IsIPv4 && (((GetByte 3 =? 192) && (GetByte 2 =? 0) && (GetByte 1 =? 2)) ||
             ((GetByte 3 =? 198) && (GetByte 2 =? 51) && (GetByte 1 =? 100)) ||
             ((GetByte 3 =? 203) && (GetByte 2 =? 0) && (GetByte 1 =? 113))).
Definition IsRFC3849 : bool := (GetByte 15 =? 0x20) && (GetByte 14 =? 0x01) && (GetByte 13 =? 0x0d) && (GetByte 12 =? 0xb8).
Definition IsRFC3964 : bool := (GetByte 15 =? 0x20) && (GetByte 14 =? 0x02).
Definition IsRFC6052 : bool := prefix_is [0; 0x64; 0xff; 0x9b; 0; 0; 0; 0; 0; 0; 0; 0].
Definition IsRFC4380 : bool := (GetByte 15 =? 0x20) && (GetByte 14 =? 0x01) && (GetByte 13 =? 0) && (GetByte 12 =? 0).
Definition IsRFC4862 : bool := prefix_is [0xfe; 0x80; 0; 0; 0; 0; 0; 0].
Definition IsRFC4193 : bool := GetByte 15 .& 0xfe =? 0xfc.
Definition IsRFC6145 : bool := prefix_is [0; 0; 0; 0; 0; 0; 0; 0; 0xff; 0xff; 0; 0].
Definition IsRFC4843 : bool := (GetByte 15 =? 0x20) && (GetByte 14 =? 0x01) && (GetByte 13 =? 0x00) && (GetByte 12 .& 0xf0 =? 0x10).
Definition IsLocal : bool :=
  if IsIPv4 && ((GetByte 3 =? 127) || (GetByte 3 =? 0)) then true
  else if prefix_is [0; 0; 0; 0; 0; 0; 0; 0; 0; 0; 0; 0; 0; 0; 0; 1] then true
  else false.
Definition IsMulticast : bool := (IsIPv4 && (GetByte 3 .& 0xf0 =? 0xe0)) || (GetByte 15 =? 0xff).

(** [INADDR_NONE] is 255.255.255.255. *)
Definition IsValidAddr : bool :=
  if prefix_is (drop 3 pchIPv4) then false
  else if prefix_is (replicate 16 0) then false
  else if IsRFC3849 then false
  else if IsIPv4 then
    if memcmp (take 4 (drop 12 ip)) [0xff; 0xff; 0xff; 0xff] =? 0 then false
    else if memcmp (take 4 (drop 12 ip)) [0; 0; 0; 0] =? 0 then false
    else true
  else true.

(** The option [-allowprivatenet]. *)
Context (fAllowPrivateNet : bool).

Definition IsRoutable : bool :=
  if negb IsValidAddr then false
  else if negb fAllowPrivateNet && IsRFC1918 then false
  else negb (IsRFC2544 || IsRFC3927 || IsRFC4862 || IsRFC6598 || IsRFC5737 || (IsRFC4193 && negb IsTor) || IsRFC4843 || IsLocal).

Definition GetNetwork : Z :=
  if negb IsRoutable then NET_UNROUTABLE else if IsIPv4 then NET_IPV4 else if IsTor then NET_TOR else NET_IPV6.

(** [while (nBits >= 8)] and the last, partial byte. *)
Fixpoint group_bytes (fuel : nat) (nStartByte : nat) (nBits : Z) : list Z :=
  match fuel with
  | O => []
  | S fuel =>
      if 8 <=? nBits then GetByte (15 - nStartByte) :: group_bytes fuel (S nStartByte) (nBits - 8)
      else if 0 <? nBits then [GetByte (15 - nStartByte) .| ((1 .<< (8 - nBits)) - 1)]
      else []
  end.
Definition GetGroup : list Z :=
  let '(nClass, nStartByte, nBits) := if IsLocal then (255, 0%nat, 0) else (NET_IPV6, 0%nat, 16) in
  let finish nClass nStartByte nBits := u8 nClass :: group_bytes 6 nStartByte nBits in
  if negb IsRoutable then finish NET_UNROUTABLE nStartByte 0
  else if IsIPv4 || IsRFC6145 || IsRFC6052 then finish NET_IPV4 12%nat nBits
  else if IsRFC3964 then finish NET_IPV4 2%nat nBits
  else if IsRFC4380 then [NET_IPV4; Z.lxor (GetByte 3) 0xff; Z.lxor (GetByte 2) 0xff]
  else if IsTor then finish NET_TOR 6%nat 4
  else if (GetByte 15 =? 0x20) && (GetByte 14 =? 0x01) && (GetByte 13 =? 0x04) && (GetByte 12 =? 0x70) then finish nClass nStartByte 36
  else finish nClass nStartByte 32.

Definition GetHashAddr : Z := ReadLE64 (Hash [ip]).
End Address.

(** ** Reachability *)

Definition NET_UNKNOWN : Z := NET_MAX + 0.
Definition NET_TEREDO : Z := NET_MAX + 1.
Inductive Reachability : Type :=
| REACH_UNREACHABLE | REACH_DEFAULT | REACH_TEREDO | REACH_IPV6_WEAK | REACH_IPV4 | REACH_IPV6_STRONG | REACH_PRIVATE.

Definition GetExtNetwork (fAllowPrivateNet : bool) (addr : option (list Z)) : Z :=
  match addr with
  | None => NET_UNKNOWN
  | Some addr => if IsRFC4380 addr then NET_TEREDO else GetNetwork addr fAllowPrivateNet
  end.

Definition GetReachabilityFrom (fAllowPrivateNet : bool) (ip : list Z) (paddrPartner : option (list Z)) : Reachability :=
  if negb (IsRoutable ip fAllowPrivateNet) then REACH_UNREACHABLE
  else
    let ourNet := GetExtNetwork fAllowPrivateNet (Some ip) in
    let theirNet := GetExtNetwork fAllowPrivateNet paddrPartner in
    let fTunnel := IsRFC3964 ip || IsRFC6052 ip || IsRFC6145 ip in
    if theirNet =? NET_IPV4 then if ourNet =? NET_IPV4 then REACH_IPV4 else REACH_DEFAULT
    else if theirNet =? NET_IPV6 then
      if ourNet =? NET_TEREDO then REACH_TEREDO
      else if ourNet =? NET_IPV4 then REACH_IPV4
      else if ourNet =? NET_IPV6 then if fTunnel then REACH_IPV6_WEAK else REACH_IPV6_STRONG
      else REACH_DEFAULT
    else if theirNet =? NET_TOR then
      if ourNet =? NET_IPV4 then REACH_IPV4 else if ourNet =? NET_TOR then REACH_PRIVATE else REACH_DEFAULT
    else if theirNet =? NET_TEREDO then
      if ourNet =? NET_TEREDO then REACH_TEREDO
      else if ourNet =? NET_IPV6 then REACH_IPV6_WEAK
      else if ourNet =? NET_IPV4 then REACH_IPV4
      else REACH_DEFAULT
    else
      if ourNet =? NET_TEREDO then REACH_TEREDO
      else if ourNet =? NET_IPV6 then REACH_IPV6_WEAK
      else if ourNet =? NET_IPV4 then REACH_IPV4
      else if ourNet =? NET_TOR then REACH_PRIVATE
      else REACH_DEFAULT.

(** ** Subnets *)

Record CSubNet : Type := { network : list Z; netmask : list Z; valid : bool }.

(** [netmask[n>>3] &= ~(1<<(7-(n&7)))] for [n] up to 127 *)
Definition clear_bit (netmask : list Z) (n : nat) : list Z :=
  <[(n / 8)%nat := u8 (aget netmask (n / 8) .& Z.lnot (1 .<< (7 - Z.of_nat (n mod 8))))]> netmask.
Definition and_bytes (a m : list Z) : list Z := zip_with (fun x y => x .& y) a m.

Definition CSubNet_mask (addr : list Z) (mask : Z) : CSubNet :=
  let astartofs := if IsIPv4 addr then 12 else 0 in
  let all := replicate 16 255 in
  if (0 <=? mask) && (mask <=? 128 - astartofs * 8) then
    let n := Z.to_nat (mask + astartofs * 8) in
    let netmask := fold_left clear_bit (seq n (128 - n)) all in
    {| network := and_bytes addr netmask; netmask := netmask; valid := true |}
  else {| network := and_bytes addr all; netmask := all; valid := false |}.

Definition CSubNet_netmask (addr mask : list Z) : CSubNet :=
  let astartofs := if IsIPv4 addr then 12%nat else 0%nat in
  let netmask := replicate astartofs 255 ++ drop astartofs mask in
  {| network := and_bytes addr netmask; netmask := netmask; valid := true |}.

Definition CSubNet_single (addr : list Z) : CSubNet :=
  {| network := addr; netmask := replicate 16 255; valid := IsValidAddr addr |}.

Definition Match (s : CSubNet) (addr : list Z) : bool :=
  if negb (valid s) || negb (IsValidAddr addr) then false
  else forallb (fun x => aget addr x .& aget (netmask s) x =? aget (network s) x) (seq 0 16).

(** ** Prefixes *)

(** The bits of an address from the most significant on. *)
Definition addr_bit (a : list Z) (p : nat) : bool := Z.testbit (aget a (p / 8)) (7 - Z.of_nat (p mod 8)).

Lemma byte_index p k : (k < 8)%nat -> ((8 * p + k) / 8 = p /\ (8 * p + k) mod 8 = k)%nat.
Proof. intros Hk. split; [symmetry; apply (Nat.div_unique _ 8 p k); lia|symmetry; apply (Nat.mod_unique _ 8 p k); lia]. Qed.

Lemma byte_testbit_high x i : is_u 8 x -> 8 <= i -> Z.testbit x i = false.
Proof.
  intros Hx Hi. rewrite <- (Z.mod_small x (2 ^ 8)) by exact Hx. by apply Z.mod_pow2_bits_high.
Qed.

Lemma testbit_pow2 k i : 0 <= k -> Z.testbit (1 .<< k) i = bool_decide (i = k).
Proof.
  intros Hk. rewrite Z.shiftl_1_l. case_bool_decide as E; [subst; by apply Z.pow2_bits_true|by apply Z.pow2_bits_false].
Qed.

Lemma aget_list_insert l i x j : (i < length l)%nat -> aget (<[i := x]> l) j = if decide (j = i) then x else aget l j.
Proof.
  intros Hi. unfold aget. rewrite !nth_lookup. case_decide as E; [subst; by rewrite list_lookup_insert_eq|].
  by rewrite list_lookup_insert_ne by done.
Qed.

Lemma clear_bit_spec m p q : length m = 16%nat -> bytes_ok m -> (p < 128)%nat -> (q < 128)%nat ->
  length (clear_bit m p) = 16%nat /\ bytes_ok (clear_bit m p) /\
  addr_bit (clear_bit m p) q = addr_bit m q && negb (bool_decide (q = p)).
Proof.
  intros Hl Hm Hp Hq. unfold clear_bit. rewrite length_insert. split; [done|].
  pose proof (Nat.div_mod_eq p 8). pose proof (Nat.mod_upper_bound p 8 ltac:(lia)).
  pose proof (Nat.div_mod_eq q 8). pose proof (Nat.mod_upper_bound q 8 ltac:(lia)).
  split; [apply Forall_insert; [done|apply wrapu_range; lia]|].
  unfold addr_bit. rewrite aget_list_insert by lia. case_decide as E.
  - rewrite E. unfold u8, wrapu. rewrite Z.mod_pow2_bits_low by lia.
    rewrite Z.land_spec, Z.lnot_spec, testbit_pow2 by lia. f_equal. f_equal. apply bool_decide_ext. lia.
  - rewrite (bool_decide_false (q = p)) by (intros ->; done). by rewrite andb_true_r.
Qed.

Lemma netmask_spec n k q : (n + k <= 128)%nat -> (q < 128)%nat ->
  let m := fold_left clear_bit (seq n k) (replicate 16 255) in
  length m = 16%nat /\ bytes_ok m /\ addr_bit m q = negb ((n <=? q)%nat && (q <? n + k)%nat).
Proof.
  intros Hn Hq. induction k as [|k IH]; cbn zeta.
  - split; [done|]. split; [apply Forall_replicate; unfold is_u; lia|]. cbn [seq fold_left].
    assert (addr_bit (replicate 16 255) q = true) as ->.
    { unfold addr_bit, aget. rewrite nth_lookup, lookup_replicate_2 by (apply Nat.Div0.div_lt_upper_bound; lia). cbn [default from_option].
      assert (q mod 8 < 8)%nat as Hm by (apply Nat.mod_upper_bound; lia).
      revert Hm. generalize (q mod 8)%nat. intros r Hr. do 8 (destruct r as [|r]; [done|]). lia. }
    destruct (Nat.leb_spec n q), (Nat.ltb_spec q (n + 0)); done || lia.
  - destruct (IH ltac:(lia)) as (Hl & Hb & Hq'). rewrite seq_S, fold_left_app. cbn [fold_left].
    set (m := fold_left clear_bit (seq n k) (replicate 16 255)) in *.
    destruct (clear_bit_spec m (n + k) q Hl Hb ltac:(lia) Hq) as (Hl2 & Hb2 & ->). split; [done|]. split; [done|]. rewrite Hq'.
    destruct (Nat.leb_spec n q), (Nat.ltb_spec q (n + k)), (Nat.ltb_spec q (n + S k)), (bool_decide_reflect (q = n + k)%nat); done || lia.
Qed.

Lemma aget_byte m x : bytes_ok m -> (x < length m)%nat -> is_u 8 (aget m x).
Proof. intros Hm Hx. by apply (proj1 (Forall_nth _ 0 m) Hm x). Qed.

(** Bytes agree under a mask if they agree on its bits. *)
Lemma land_agree a b m : is_u 8 m -> (a .& m = b .& m <-> forall k, 0 <= k < 8 -> Z.testbit m k = true -> Z.testbit a k = Z.testbit b k).
Proof.
  intros Hm. split.
  - intros E k Hk Hb. apply (f_equal (fun z => Z.testbit z k)) in E. by rewrite !Z.land_spec, Hb, !andb_true_r in E.
  - intros Hall. apply Z.bits_inj. intros k. rewrite !Z.land_spec.
    destruct (Z.lt_ge_cases k 0); [by rewrite !Z.testbit_neg_r by done|].
    destruct (Z.le_gt_cases 8 k); [by rewrite (byte_testbit_high m), !andb_false_r by done|].
    destruct (Z.testbit m k) eqn:E; [|by rewrite !andb_false_r]. by rewrite (Hall k) by done.
Qed.

Lemma aget_and_bytes a m x : (x < length a)%nat -> (x < length m)%nat -> aget (and_bytes a m) x = aget a x .& aget m x.
Proof.
  intros Ha Hm. unfold aget, and_bytes. rewrite !nth_lookup, lookup_zip_with.
  destruct (lookup_lt_is_Some_2 a x Ha) as [u ->], (lookup_lt_is_Some_2 m x Hm) as [v ->]. done.
Qed.

Lemma masked_agree addr base m : length base = 16%nat -> length m = 16%nat -> bytes_ok m ->
  forallb (fun x => aget addr x .& aget m x =? aget (and_bytes base m) x) (seq 0 16) = true <->
  forall q, (q < 128)%nat -> addr_bit m q = true -> addr_bit addr q = addr_bit base q.
Proof.
  intros Hb Hm Hok. rewrite forallb_forall. split.
  - intros Hall q Hq Hbit. unfold addr_bit in *. specialize (Hall (q / 8)%nat).
    assert (q / 8 < 16)%nat as Hq8 by (apply Nat.Div0.div_lt_upper_bound; lia).
    rewrite aget_and_bytes, Z.eqb_eq in Hall by lia. pose proof (Nat.mod_upper_bound q 8 ltac:(lia)).
    apply (land_agree _ _ (aget m (q / 8))); [apply aget_byte; [done|lia]|apply Hall, in_seq; lia|lia|done].
  - intros Hall x Hx%in_seq. rewrite aget_and_bytes, Z.eqb_eq by lia. apply land_agree; [apply aget_byte; [done|lia]|].
    intros k Hk Hbit. specialize (Hall (8 * x + (7 - Z.to_nat k))%nat ltac:(lia)). unfold addr_bit in Hall.
    destruct (byte_index x (7 - Z.to_nat k)) as [E1 E2]; [lia|]. rewrite E1, E2 in Hall.
    replace (7 - Z.of_nat (7 - Z.to_nat k)) with k in Hall by lia. by apply Hall.
Qed.

(** Subnets.  For an address and a prefix length within its bits (32 for an IPv4
    address, whose prefix starts after the 96 mapped bits, 128 otherwise): the subnet
    matches exactly the valid addresses that agree with it on the prefix.  Any other
    prefix length gives a subnet that matches nothing. *)
Theorem subnet_match (base addr : list Z) (mask : Z) (offset := if IsIPv4 base then 96 else 0) :
  length base = 16%nat ->
  (0 <= mask <= 128 - offset ->
   Match (CSubNet_mask base mask) addr = true <->
   IsValidAddr addr = true /\ forall q, Z.of_nat q < offset + mask -> addr_bit addr q = addr_bit base q) /\
  (~ (0 <= mask <= 128 - offset) -> Match (CSubNet_mask base mask) addr = false).
Proof.
  intros Hl. unfold Match, CSubNet_mask.
  replace ((if IsIPv4 base then 12 else 0) * 8) with offset by (unfold offset; by destruct (IsIPv4 base)).
  assert (0 <= offset <= 96) as Ho by (unfold offset; destruct (IsIPv4 base); lia).
  split; intros Hr.
  - rewrite (proj2 (Z.leb_le 0 mask)), (proj2 (Z.leb_le mask _)) by lia. cbn [andb valid negb orb network netmask].
    destruct (IsValidAddr addr); cbn [negb]; [|by split; [|intros []]].
    set (n := Z.to_nat (mask + offset)). destruct (netmask_spec n (128 - n) 0 ltac:(lia) ltac:(lia)) as (Hlm & Hbm & _).
    rewrite masked_agree by done. split.
    + intros Hall. split; [done|]. intros q Hq. apply Hall; [lia|]. destruct (netmask_spec n (128 - n) q ltac:(lia) ltac:(lia)) as (_ & _ & ->).
      by rewrite (proj2 (Nat.leb_gt n q)) by lia.
    + intros [_ Hall] q Hq Hbit. apply Hall. destruct (netmask_spec n (128 - n) q ltac:(lia) ltac:(lia)) as (_ & _ & E).
      rewrite E in Hbit. destruct (Nat.leb_spec n q); [|lia]. by rewrite (proj2 (Nat.ltb_lt q _)) in Hbit by lia.
  - destruct ((0 <=? mask) && (mask <=? 128 - offset)) eqn:E; [|done]. apply andb_true_iff in E as [E1 E2].
    rewrite Z.leb_le in E1, E2. lia.
Qed.

(** 10.0.0.0/8 *)
Definition sample_ip (a b c d : Z) : list Z := pchIPv4 ++ [a; b; c; d].
Lemma subnet_match_witness :
  Match (CSubNet_mask (sample_ip 10 0 0 0) 8) (sample_ip 10 1 2 3) = true /\ Match (CSubNet_mask (sample_ip 10 0 0 0) 33) (sample_ip 10 0 0 0) = false.
Proof.
  split.
  - destruct (subnet_match (sample_ip 10 0 0 0) (sample_ip 10 1 2 3) 8 eq_refl) as [H _]. apply H; [change (IsIPv4 (sample_ip 10 0 0 0)) with true; lia|].
    split; [reflexivity|]. change (IsIPv4 (sample_ip 10 0 0 0)) with true. intros q Hq.
    assert (q < 104)%nat as Hq' by lia. clear Hq.
    assert (forallb (fun q => eqb (addr_bit (sample_ip 10 1 2 3) q) (addr_bit (sample_ip 10 0 0 0) q)) (seq 0 104) = true) as Hall by (vm_compute; reflexivity).
    rewrite forallb_forall in Hall. apply eqb_prop, Hall, in_seq. lia.
  - destruct (subnet_match (sample_ip 10 0 0 0) (sample_ip 10 0 0 0) 33 eq_refl) as [_ H]. apply H.
    change (IsIPv4 (sample_ip 10 0 0 0)) with true. lia.
Defined.

(** ** Groups *)

(** The group of an address that carries an IPv4 address is that of the IPv4 address. *)
Lemma group_of_ipv4 a b c d p : IsRoutable (sample_ip a b c d) p = true -> GetGroup (sample_ip a b c d) p = [1; a; b].
Proof.
  intros Hr. unfold GetGroup. rewrite Hr. cbn [negb]. assert (IsLocal (sample_ip a b c d) = false) as ->.
  { unfold IsRoutable in Hr. destruct (IsLocal _); [|done]. rewrite !orb_true_r in Hr. cbn [negb] in Hr. by repeat case_match. }
  change (IsIPv4 (sample_ip a b c d)) with true. reflexivity.
Qed.

(** Local addresses are unroutable, so the class 255 the function prepares for them is
    never used: they share the group of everything unroutable. *)
Lemma local_group ip p : IsLocal ip = true -> GetGroup ip p = [0].
Proof.
  intros Hl. unfold GetGroup. assert (IsRoutable ip p = false) as ->.
  { unfold IsRoutable. rewrite Hl, !orb_true_r. cbn [negb]. by repeat case_match. }
  rewrite Hl. reflexivity.
Qed.
