(* ===== verification/LockTime.v ===== *)
(** * Lock times (src/src/validation.cpp: IsFinalTx to SequenceLocks)

    When a transaction may enter a block: the absolute lock time of [IsFinalTx]
    and the relative ones of BIP 68.  The two theorems connect them with the
    script instructions that test them, OP_CHECKLOCKTIMEVERIFY and
    OP_CHECKSEQUENCEVERIFY, through the transaction signature checker.

    A [const CBlockIndex&] is, as in Pow.v, the block and its ancestors, nearest
    first. *)

From stdpp Require Import sorting.
From S2P Require Import Prelude Pow Script Transaction Interpreter InterpreterProps SigHash.
Local Open Scope cxx_scope.

Definition LOCKTIME_VERIFY_SEQUENCE : Z := 1 .<< 0.
Definition LOCKTIME_MEDIAN_TIME_PAST : Z := 1 .<< 1.

Definition IsFinalTx (tx : CMutableTransaction) (nBlockHeight nBlockTime : Z) : bool :=
  if nLockTime tx =? 0 then true
  else if nLockTime tx <? (if nLockTime tx <? LOCKTIME_THRESHOLD then nBlockHeight else nBlockTime) then true
  else forallb (fun txin => nSequence txin =? SEQUENCE_FINAL) (vin tx).

(** [GetAncestor]: the ancestor at a height, with its own ancestors; [[]] is the
    null pointer.  Chain.v relates the skip list of the code to it. *)
Definition ancestor (block : pindex) (height : Z) : pindex :=
  match block with
  | [] => []
  | b :: _ =>
      if (Pow.nHeight b <? height) || (height <? 0) then []
      else drop (Z.to_nat (Pow.nHeight b - height)) block
  end.

Definition block_height (block : pindex) : Z := match block with [] => -1 | b :: _ => Pow.nHeight b end.

(** [chainActive] is its tip; [adjusted] is [GetAdjustedTime()]. *)
Definition CheckFinalTx (chainActive : pindex) (adjusted : Z) (tx : CMutableTransaction) (flags : Z) : bool :=
  let flags := Z.max flags 0 in
  let nBlockHeight := i32 (block_height chainActive + 1) in
  let nBlockTime := if nz (flags .& LOCKTIME_MEDIAN_TIME_PAST) then GetMedianTimePast chainActive else adjusted in
  IsFinalTx tx nBlockHeight nBlockTime.

(** The loop over the inputs; it also clears the heights of the inputs without
    relative lock.  [(nMinHeight, nMinTime, prevHeights)]; [None] when the ancestor
    at the height below the coin's is null. *)
Fixpoint sequence_loop (block : pindex) (ins : list CTxIn) (prevHeights : list Z) (nMinHeight nMinTime : Z)
  : option (Z * Z * list Z) :=
  match ins, prevHeights with
  | txin :: ins, nCoinHeight :: prevHeights =>
      if nz (nSequence txin .& SEQUENCE_LOCKTIME_DISABLE_FLAG) then
        r ← sequence_loop block ins prevHeights nMinHeight nMinTime;
        let '(h, t, hs) := r in Some (h, t, 0 :: hs)
      else
        mins ←
          (if nz (nSequence txin .& SEQUENCE_LOCKTIME_TYPE_FLAG) then
            match ancestor block (Z.max (nCoinHeight - 1) 0) with
            | [] => None
            | anc =>
                let nCoinTime := GetMedianTimePast anc in
                Some (nMinHeight,
                  Z.max nMinTime
                    (i64 (nCoinTime + u32 ((nSequence txin .& SEQUENCE_LOCKTIME_MASK) .<< SEQUENCE_LOCKTIME_GRANULARITY) - 1)))
            end
          else
            Some (Z.max nMinHeight (i32 (nCoinHeight + (nSequence txin .& SEQUENCE_LOCKTIME_MASK) - 1)), nMinTime));
        let '(nMinHeight, nMinTime) := mins in
        r ← sequence_loop block ins prevHeights nMinHeight nMinTime;
        let '(h, t, hs) := r in Some (h, t, nCoinHeight :: hs)
  | _, _ => Some (nMinHeight, nMinTime, prevHeights)
  end.

(** [None] is a failed assertion or a null ancestor. *)
Definition CalculateSequenceLocks (tx : CMutableTransaction) (flags : Z) (prevHeights : list Z) (block : pindex)
  : option (Z * Z * list Z) :=
  if negb (size prevHeights =? size (vin tx)) then None
  else
    let nMinHeight := -1 in
    let nMinTime := -1 in
    let fEnforceBIP68 := (2 <=? u32 (nVersion tx)) && nz (flags .& LOCKTIME_VERIFY_SEQUENCE) in
    if negb fEnforceBIP68 then Some (nMinHeight, nMinTime, prevHeights)
    else sequence_loop block (vin tx) prevHeights nMinHeight nMinTime.

Definition EvaluateSequenceLocks (block : pindex) (lockPair : Z * Z) : option bool :=
  match block with
  | b :: (_ :: _) as pprev =>
      let nBlockTime := GetMedianTimePast pprev in
      Some (negb ((Pow.nHeight b <=? fst lockPair) || (nBlockTime <=? snd lockPair)))
  | _ => None
  end.

Definition SequenceLocks (tx : CMutableTransaction) (flags : Z) (prevHeights : list Z) (block : pindex)
  : option (bool * list Z) :=
  match CalculateSequenceLocks tx flags prevHeights block with
  | None => None
  | Some (h, t, prevHeights) => option_map (fun b => (b, prevHeights)) (EvaluateSequenceLocks block (h, t))
  end.

(** ** What the loop guarantees for one input *)

(** What one turn of the loop does to the two minima. *)
Definition input_lock (block : pindex) (txin : CTxIn) (c h t h' t' : Z) : Prop :=
  if nz (nSequence txin .& SEQUENCE_LOCKTIME_DISABLE_FLAG) then h' = h /\ t' = t
  else if nz (nSequence txin .& SEQUENCE_LOCKTIME_TYPE_FLAG) then
    h' = h /\ ancestor block (Z.max (c - 1) 0) <> [] /\
    t' = Z.max t (i64 (GetMedianTimePast (ancestor block (Z.max (c - 1) 0)) +
                       u32 ((nSequence txin .& SEQUENCE_LOCKTIME_MASK) .<< SEQUENCE_LOCKTIME_GRANULARITY) - 1))
  else h' = Z.max h (i32 (c + (nSequence txin .& SEQUENCE_LOCKTIME_MASK) - 1)) /\ t' = t.

Lemma sequence_loop_cons block x ins c hs h t h' t' hs' :
  sequence_loop block (x :: ins) (c :: hs) h t = Some (h', t', hs') ->
  exists h1 t1 hs1, input_lock block x c h t h1 t1 /\ sequence_loop block ins hs h1 t1 = Some (h', t', hs1).
Proof.
  cbn [sequence_loop]. unfold input_lock. destruct (nz (nSequence x .& SEQUENCE_LOCKTIME_DISABLE_FLAG)).
  - intros ([[h1 t1] hs1] & E & [= <- <- _])%bind_Some. by exists h, t, hs1.
  - intros ([h1 t1] & Em & ([[h2 t2] hs1] & E & [= <- <- _])%bind_Some)%bind_Some.
    exists h1, t1, hs1. split; [|done]. destruct (nz (nSequence x .& SEQUENCE_LOCKTIME_TYPE_FLAG)).
    + destruct (ancestor block (Z.max (c - 1) 0)) eqn:Ea; [done|]. by injection Em as <- <-.
    + by injection Em as <- <-.
Qed.

Lemma input_lock_mono block x c h t h' t' : input_lock block x c h t h' t' -> h <= h' /\ t <= t'.
Proof. unfold input_lock. repeat case_match; lia. Qed.

Lemma sequence_loop_mono block ins hs h t h' t' hs' :
  sequence_loop block ins hs h t = Some (h', t', hs') -> h <= h' /\ t <= t'.
Proof.
  revert hs h t hs'. induction ins as [|x ins IH]; intros [|c hs] h t hs'; try (cbn [sequence_loop]; intros [= <- <- _]; lia).
  intros (h1 & t1 & hs1 & Hl%input_lock_mono & E)%sequence_loop_cons. apply IH in E. lia.
Qed.

(** The lock an input that is not exempt contributes. *)
Lemma sequence_loop_input block ins hs h t h' t' hs' i x c :
  ins !! i = Some x -> hs !! i = Some c -> nz (nSequence x .& SEQUENCE_LOCKTIME_DISABLE_FLAG) = false ->
  sequence_loop block ins hs h t = Some (h', t', hs') ->
  if nz (nSequence x .& SEQUENCE_LOCKTIME_TYPE_FLAG)
  then i64 (GetMedianTimePast (ancestor block (Z.max (c - 1) 0)) +
            u32 ((nSequence x .& SEQUENCE_LOCKTIME_MASK) .<< SEQUENCE_LOCKTIME_GRANULARITY) - 1) <= t'
  else i32 (c + (nSequence x .& SEQUENCE_LOCKTIME_MASK) - 1) <= h'.
Proof.
  revert hs h t hs' i. induction ins as [|y ins IH]; intros [|d hs] h t hs' i; try done.
  intros Hi Hc Hd (h1 & t1 & hs1 & Hl & E)%sequence_loop_cons. destruct i as [|i]; [|by apply (IH hs h1 t1 hs1 i)].
  injection Hi as ->. injection Hc as ->. apply sequence_loop_mono in E. unfold input_lock in Hl. rewrite Hd in Hl.
  destruct (nz (nSequence x .& SEQUENCE_LOCKTIME_TYPE_FLAG)); lia.
Qed.

(** The masked comparison of the script instruction: same kind of lock and no
    larger a value. *)
Lemma mask_fields x : 0 <= x ->
  let m := x .& (SEQUENCE_LOCKTIME_TYPE_FLAG .| SEQUENCE_LOCKTIME_MASK) in
  m = x .& SEQUENCE_LOCKTIME_MASK + (if nz (x .& SEQUENCE_LOCKTIME_TYPE_FLAG) then 2 ^ 22 else 0) /\
  0 <= x .& SEQUENCE_LOCKTIME_MASK < 2 ^ 16.
Proof.
  intros Hx. cbv zeta. assert (0 <= x .& SEQUENCE_LOCKTIME_MASK < 2 ^ 16) as Hr.
  { change SEQUENCE_LOCKTIME_MASK with (2 ^ 16 - 1). rewrite land_mask by lia. apply Z.mod_pos_bound. lia. }
  split; [|done]. rewrite Z.land_lor_distr_r.
  assert (x .& SEQUENCE_LOCKTIME_TYPE_FLAG = (if nz (x .& SEQUENCE_LOCKTIME_TYPE_FLAG) then 1 else 0) .<< 22) as E.
  { assert (x .& SEQUENCE_LOCKTIME_TYPE_FLAG = if Z.testbit x 22 then 2 ^ 22 else 0) as ->.
    { change SEQUENCE_LOCKTIME_TYPE_FLAG with (2 ^ 22). apply Z.bits_inj'. intros j Hj. rewrite Z.land_spec.
      destruct (Z.eq_dec j 22) as [->|Hne].
      - destruct (Z.testbit x 22); [done|]. by rewrite Z.bits_0.
      - rewrite Z.pow2_bits_false, andb_false_r by done. destruct (Z.testbit x 22); [|by rewrite Z.bits_0].
        by rewrite Z.pow2_bits_false. }
    by destruct (Z.testbit x 22). }
  rewrite E at 1. rewrite Z.lor_comm, (lor_disjoint_add 22) by lia. by destruct (nz _).
Qed.

(** Blocks with 32-bit times, as [CBlockIndex::nTime] is. *)
Definition times_ok (block : pindex) : Prop := Forall (fun b => is_u 32 (Pow.nTime b)) block.

Lemma MedianTimePast_range block : times_ok block -> 0 <= GetMedianTimePast block < 2 ^ 32.
Proof.
  intros Hb. unfold GetMedianTimePast.
  apply (aget_Forall (fun x => 0 <= x < 2 ^ 32)); [|lia].
  rewrite merge_sort_Permutation, reverse_Permutation. apply Forall_map, Forall_take. exact Hb.
Qed.

Lemma ancestor_times block h : times_ok block -> times_ok (ancestor block h).
Proof.
  intros Hb. unfold ancestor. destruct block as [|b bs]; [done|]. case_if; [constructor|]. by apply Forall_drop.
Qed.

(** ** The two instructions *)

(** The script number on top of the stack that either instruction reads. *)
Definition operand (flags : Z) (s : list valtype) (n : Z) : Prop :=
  exists base x, s = push_back base x /\ scriptnum x (fRequireMinimal flags) 5 = Ok n.

Lemma operand_read (flags n : Z) (s : list valtype) {A} (k : Z -> M A) (r : A) :
  (let! _ := need 1 s in let! top := stacktop s (-1) in let! m := scriptnum top (fRequireMinimal flags) 5 in k m) = Ok r <->
  exists m, operand flags s m /\ k m = Ok r.
Proof.
  destruct s as [|x base _] using rev_ind.
  - split; [done|]. intros (m & (base & x & E & _) & _). by destruct base.
  - change (base ++ [x]) with (push_back base x). unfold need, fail_unless.
    pose proof (size_nonneg base). rewrite size_push_back, (proj2 (Z.leb_le 1 _)), stacktop_push_back by lia. cbn [rbind]. split.
    + destruct (scriptnum x (fRequireMinimal flags) 5) as [m|] eqn:E; [|done]. cbn [rbind]. intros Hk.
      exists m. split; [by exists base, x|done].
    + intros (m & (base' & x' & E & Em) & Hk). apply app_inj_tail in E as [_ ->]. by rewrite Em.
Qed.

Lemma checklocktime_iff (tx : CMutableTransaction) (nIn n : Z) :
  tx_CheckLockTime tx nIn n = true <->
  (n < LOCKTIME_THRESHOLD <-> nLockTime tx < LOCKTIME_THRESHOLD) /\ n <= nLockTime tx /\
  nSequence (vin_at tx nIn) <> SEQUENCE_FINAL.
Proof.
  unfold tx_CheckLockTime.
  destruct (Z.ltb_spec (nLockTime tx) LOCKTIME_THRESHOLD), (Z.ltb_spec n LOCKTIME_THRESHOLD),
    (Z.leb_spec LOCKTIME_THRESHOLD (nLockTime tx)), (Z.leb_spec LOCKTIME_THRESHOLD n);
    cbn [andb orb negb]; try lia.
  all: try (split; [done|lia]).
  all: destruct (Z.ltb_spec (nLockTime tx) n); [split; [done|lia]|].
  all: destruct (Z.eqb_spec SEQUENCE_FINAL (nSequence (vin_at tx nIn))); (split; [|]); try done; try lia.
  all: intros; repeat split; try lia; congruence.
Qed.

Lemma checklocktime_enforces (tx : CMutableTransaction) (nIn n nBlockHeight nBlockTime : Z) :
  0 <= nIn < size (vin tx) -> 0 < nBlockHeight -> tx_CheckLockTime tx nIn n = true ->
  IsFinalTx tx nBlockHeight nBlockTime = true ->
  n < if n <? LOCKTIME_THRESHOLD then nBlockHeight else nBlockTime.
Proof.
  intros Hin Hh (Hk & Hle & Hseq)%checklocktime_iff. unfold IsFinalTx.
  assert (0 < LOCKTIME_THRESHOLD) by done.
  destruct (Z.eqb_spec (nLockTime tx) 0); [destruct (Z.ltb_spec n LOCKTIME_THRESHOLD); lia|].
  assert ((nLockTime tx <? LOCKTIME_THRESHOLD) = (n <? LOCKTIME_THRESHOLD)) as ->.
  { destruct (Z.ltb_spec (nLockTime tx) LOCKTIME_THRESHOLD), (Z.ltb_spec n LOCKTIME_THRESHOLD); lia. }
  match goal with |- context [nLockTime tx <? ?b] => destruct (Z.ltb_spec (nLockTime tx) b); [lia|] end.
  intros Hall. destruct Hseq. rewrite forallb_forall in Hall. apply Z.eqb_eq, Hall.
  unfold vin_at. apply nth_In. unfold size in Hin. lia.
Qed.

(** C16: OP_CHECKLOCKTIMEVERIFY enforces its operand.  Where the instruction is
    enabled it succeeds exactly when the top of the stack is a script number of at most
    five bytes, not negative, of the same kind (height or time) as the transaction's
    lock time and not above it, and the input is not final; it leaves the stack as it
    is.  And a transaction for one of whose inputs it succeeds is final in no block,
    after the first, whose height (for a height) or time (for a time) does not exceed
    the operand. *)
Theorem cltv_enforces_lock_time (Verify : list Z -> list Z -> list Z -> bool) (tx : CMutableTransaction)
    (nIn flags : Z) (s s' : list valtype) :
  0 <= nIn < size (vin tx) -> has flags SCRIPT_VERIFY_CHECKLOCKTIMEVERIFY = true ->
  (op_checklocktimeverify (TransactionSignatureChecker Verify tx nIn) flags s = Ok s' <->
   s' = s /\ exists n, operand flags s n /\ 0 <= n <= nLockTime tx /\
     (n < LOCKTIME_THRESHOLD <-> nLockTime tx < LOCKTIME_THRESHOLD) /\ nSequence (vin_at tx nIn) <> SEQUENCE_FINAL) /\
  (op_checklocktimeverify (TransactionSignatureChecker Verify tx nIn) flags s = Ok s' ->
   exists n, operand flags s n /\ forall nBlockHeight nBlockTime,
     0 < nBlockHeight -> IsFinalTx tx nBlockHeight nBlockTime = true ->
     n < if n <? LOCKTIME_THRESHOLD then nBlockHeight else nBlockTime).
Proof.
  intros Hin Hf. unfold op_checklocktimeverify. rewrite Hf. cbn [negb]. rewrite (operand_read flags nIn).
  assert (forall n, (if n <? 0 then set_error SCRIPT_ERR_NEGATIVE_LOCKTIME
      else if negb (CheckLockTime (TransactionSignatureChecker Verify tx nIn) n) then set_error SCRIPT_ERR_UNSATISFIED_LOCKTIME
      else Ok s) = Ok s' <-> s' = s /\ 0 <= n /\ tx_CheckLockTime tx nIn n = true) as Hn.
  { intros n. cbn [CheckLockTime TransactionSignatureChecker]. destruct (Z.ltb_spec n 0); [split; [done|lia]|].
    destruct (tx_CheckLockTime tx nIn n); (split; [intros [=]|intros (-> & _ & ?)]); done. }
  split.
  - split; [intros (n & Ho & (-> & H0 & Hc)%Hn)|intros (-> & n & Ho & H0 & Hc)].
    + apply checklocktime_iff in Hc. split; [done|]. exists n. split_and!; tauto || lia.
    + exists n. split; [done|]. apply Hn. split_and!; [done|lia|]. apply checklocktime_iff. tauto.
  - intros (n & Ho & (-> & H0 & Hc)%Hn). exists n. split; [done|]. intros h t Hh. by apply (checklocktime_enforces tx nIn).
Qed.

Lemma checksequence_iff (tx : CMutableTransaction) (nIn n : Z) :
  let x := nSequence (vin_at tx nIn) in
  0 <= x -> 0 <= n -> tx_CheckSequence tx nIn n = true <->
  2 <= u32 (nVersion tx) /\ nz (x .& SEQUENCE_LOCKTIME_DISABLE_FLAG) = false /\
  nz (x .& SEQUENCE_LOCKTIME_TYPE_FLAG) = nz (n .& SEQUENCE_LOCKTIME_TYPE_FLAG) /\
  n .& SEQUENCE_LOCKTIME_MASK <= x .& SEQUENCE_LOCKTIME_MASK.
Proof.
  cbv zeta. unfold tx_CheckSequence. generalize (nSequence (vin_at tx nIn)) as x. intros x Hx Hn. cbv zeta.
  destruct (mask_fields x Hx) as [-> Hmx]. destruct (mask_fields n Hn) as [-> Hmn].
  revert Hmx Hmn. generalize (x .& SEQUENCE_LOCKTIME_MASK), (n .& SEQUENCE_LOCKTIME_MASK). intros mx mn Hmx Hmn.
  destruct (Z.ltb_spec (u32 (nVersion tx)) 2) as [|Hver]; [split; [done|lia]|].
  destruct (nz (x .& SEQUENCE_LOCKTIME_DISABLE_FLAG)); [split; [done|by intros (_ & ? & _)]|].
  destruct (nz (x .& SEQUENCE_LOCKTIME_TYPE_FLAG)), (nz (n .& SEQUENCE_LOCKTIME_TYPE_FLAG));
    change SEQUENCE_LOCKTIME_TYPE_FLAG with (2 ^ 22);
    repeat match goal with |- context [?a <? ?b] => destruct (Z.ltb_spec a b); try lia end;
    repeat match goal with |- context [?a <=? ?b] => destruct (Z.leb_spec a b); try lia end;
    cbn [andb orb negb]; (split; [intros ?; try done|intros (_ & _ & E & ?)]); try done; repeat split; lia.
Qed.

(** An input with the sequence number the instruction asks for, in a transaction that
    satisfies its sequence locks in a block. *)
Lemma checksequence_enforces (tx : CMutableTransaction)
    (i : nat) (c n lockflags : Z) (prevHeights after : list Z) (b : CBlockIndex) (ancestors : pindex) :
  is_s 16 (nVersion tx) -> (i < length (vin tx))%nat -> prevHeights !! i = Some c -> 0 <= c < 2 ^ 30 ->
  0 <= n -> Forall (fun x => is_u 32 (nSequence x)) (vin tx) ->
  times_ok (b :: ancestors) -> nz (lockflags .& LOCKTIME_VERIFY_SEQUENCE) = true ->
  tx_CheckSequence tx (Z.of_nat i) n = true ->
  SequenceLocks tx lockflags prevHeights (b :: ancestors) = Some (true, after) ->
  if nz (n .& SEQUENCE_LOCKTIME_TYPE_FLAG)
  then GetMedianTimePast (ancestor (b :: ancestors) (Z.max (c - 1) 0)) + (n .& SEQUENCE_LOCKTIME_MASK) * 512
         <= GetMedianTimePast ancestors
  else c + (n .& SEQUENCE_LOCKTIME_MASK) <= Pow.nHeight b.
Proof.
  intros Hv Hi Hc Hcr Hn Hseqs Ht Hf Hcheck.
  destruct (lookup_lt_is_Some_2 _ _ Hi) as [x Hx].
  pose proof (proj1 (Forall_lookup _ _) Hseqs i x Hx) as Hsx. cbn in Hsx. unfold is_u in Hsx.
  apply checksequence_iff in Hcheck; rewrite ?(vin_at_lookup tx i x Hx) in *; [|lia|done].
  destruct Hcheck as (Hver & Hd & <- & Hle). destruct (mask_fields (nSequence x) ltac:(lia)) as [_ Hmx].
  unfold SequenceLocks, CalculateSequenceLocks. destruct (negb (size prevHeights =? size (vin tx))); [done|].
  rewrite (proj2 (Z.leb_le 2 _)), Hf by done. cbn [andb negb].
  destruct (sequence_loop (b :: ancestors) (vin tx) prevHeights (-1) (-1)) as [[[h t] hs]|] eqn:El; [|done].
  pose proof (sequence_loop_input _ _ _ _ _ _ _ _ i x c Hx Hc Hd El) as Hl.
  unfold EvaluateSequenceLocks. destruct ancestors as [|p ps]; [done|]. cbn [option_map fst snd].
  destruct (Z.leb_spec (Pow.nHeight b) h); [done|].
  destruct (Z.leb_spec (GetMedianTimePast (p :: ps)) t); [done|]. intros _.
  destruct (nz (nSequence x .& SEQUENCE_LOCKTIME_TYPE_FLAG)).
  - pose proof (MedianTimePast_range _ (ancestor_times _ (Z.max (c - 1) 0) Ht)) as Hm.
    rewrite shiftl_mul, u32_id in Hl by (unfold is_u, SEQUENCE_LOCKTIME_GRANULARITY; lia).
    change (2 ^ SEQUENCE_LOCKTIME_GRANULARITY) with 512 in Hl.
    unfold i64 in Hl. rewrite wraps_id in Hl by (unfold is_s; lia). lia.
  - unfold i32 in Hl. rewrite wraps_id in Hl by (unfold is_s; lia). lia.
Qed.

(** C17: OP_CHECKSEQUENCEVERIFY enforces its operand.  Where the instruction is enabled
    it succeeds exactly when the top of the stack is a script number of at most five
    bytes, not negative, that has the disable flag set, or else the transaction is of
    version 2 at least and the input's sequence number has the disable flag clear, the
    type flag of the operand and at least its masked value; it leaves the stack as it
    is.  And when it succeeds on an operand without the disable flag and the transaction
    satisfies its sequence locks in a block, then at least [n & 0xffff] blocks, or units
    of 512 seconds of median time, lie between the coin the input spends and that block. *)
Theorem csv_enforces_relative_lock (Verify : list Z -> list Z -> list Z -> bool) (tx : CMutableTransaction)
    (i : nat) (flags : Z) (s s' : list valtype) (x := nSequence (vin_at tx (Z.of_nat i))) :
  is_s 16 (nVersion tx) -> (i < length (vin tx))%nat -> Forall (fun x => is_u 32 (nSequence x)) (vin tx) ->
  has flags SCRIPT_VERIFY_CHECKSEQUENCEVERIFY = true ->
  (op_checksequenceverify (TransactionSignatureChecker Verify tx (Z.of_nat i)) flags s = Ok s' <->
   s' = s /\ exists n, operand flags s n /\ 0 <= n /\
     (nz (n .& SEQUENCE_LOCKTIME_DISABLE_FLAG) = true \/
      2 <= u32 (nVersion tx) /\ nz (x .& SEQUENCE_LOCKTIME_DISABLE_FLAG) = false /\
      nz (x .& SEQUENCE_LOCKTIME_TYPE_FLAG) = nz (n .& SEQUENCE_LOCKTIME_TYPE_FLAG) /\
      n .& SEQUENCE_LOCKTIME_MASK <= x .& SEQUENCE_LOCKTIME_MASK)) /\
  (op_checksequenceverify (TransactionSignatureChecker Verify tx (Z.of_nat i)) flags s = Ok s' ->
   exists n, operand flags s n /\ (nz (n .& SEQUENCE_LOCKTIME_DISABLE_FLAG) = false ->
     forall c lockflags prevHeights after b ancestors,
     prevHeights !! i = Some c -> 0 <= c < 2 ^ 30 -> times_ok (b :: ancestors) ->
     nz (lockflags .& LOCKTIME_VERIFY_SEQUENCE) = true ->
     SequenceLocks tx lockflags prevHeights (b :: ancestors) = Some (true, after) ->
     if nz (n .& SEQUENCE_LOCKTIME_TYPE_FLAG)
     then GetMedianTimePast (ancestor (b :: ancestors) (Z.max (c - 1) 0)) + (n .& SEQUENCE_LOCKTIME_MASK) * 512
            <= GetMedianTimePast ancestors
     else c + (n .& SEQUENCE_LOCKTIME_MASK) <= Pow.nHeight b)).
Proof.
  intros Hv Hi Hseqs Hf. unfold op_checksequenceverify. rewrite Hf. cbn [negb]. rewrite (operand_read flags 0).
  assert (0 <= x) as Hx.
  { destruct (lookup_lt_is_Some_2 _ _ Hi) as [y Hy]. unfold x. rewrite (vin_at_lookup tx i y Hy).
    apply (proj1 (Forall_lookup _ _) Hseqs i y Hy). }
  assert (forall n, (if n <? 0 then set_error SCRIPT_ERR_NEGATIVE_LOCKTIME
      else if nz (n .& SEQUENCE_LOCKTIME_DISABLE_FLAG) then Ok s
      else if negb (CheckSequence (TransactionSignatureChecker Verify tx (Z.of_nat i)) n) then set_error SCRIPT_ERR_UNSATISFIED_LOCKTIME
      else Ok s) = Ok s' <->
      s' = s /\ 0 <= n /\ (nz (n .& SEQUENCE_LOCKTIME_DISABLE_FLAG) = true \/ tx_CheckSequence tx (Z.of_nat i) n = true)) as Hn.
  { intros n. cbn [CheckSequence TransactionSignatureChecker]. destruct (Z.ltb_spec n 0); [split; [done|lia]|].
    destruct (nz (n .& SEQUENCE_LOCKTIME_DISABLE_FLAG)); [split; [intros [= <-]; auto|by intros (-> & _)]|].
    destruct (tx_CheckSequence tx (Z.of_nat i) n); (split; [intros [=]|intros (-> & _ & [?|?])]); try done; auto. }
  split.
  - split; [intros (n & Ho & (-> & H0 & Hc)%Hn)|intros (-> & n & Ho & H0 & Hc)].
    + split; [done|]. exists n. split_and!; [done|done|]. destruct Hc as [|Hc]; [by left|right]. by apply checksequence_iff in Hc.
    + exists n. split; [done|]. apply Hn. split_and!; [done|done|]. destruct Hc as [|Hc]; [by left|right]. by apply checksequence_iff.
  - intros (n & Ho & (-> & H0 & [Hc|Hc])%Hn); exists n; (split; [done|]); intros Hd; [congruence|].
    intros c lf hs after b anc Hc' Hr Ht Hlf. by apply (checksequence_enforces tx i c n lf hs after b anc).
Qed.

(** A chain of four blocks and a transaction of version 2 whose input asks for two. *)
Definition csv_tx : CMutableTransaction :=
  {| nVersion := 2; nType := 0;
     vin := [{| prevout := COutPoint_null; scriptSig := []; nSequence := 2 |}]; vout := []; nLockTime := 600000000;
     vExtraPayload := [] |}.
Definition csv_chain (n : nat) : pindex :=
  map (fun i => {| Pow.nHeight := Z.of_nat i; Pow.nVersion := 2; nTime := 1000 + Z.of_nat i; nBits := 0 |})
    (reverse (seq 0 n)).

Definition lock_flags : Z := Z.lor SCRIPT_VERIFY_CHECKLOCKTIMEVERIFY (Z.lor SCRIPT_VERIFY_CHECKSEQUENCEVERIFY SCRIPT_VERIFY_MINIMALDATA).

(** The operand 550000000, a time; the transaction is final only after it. *)
Lemma cltv_enforces_lock_time_witness :
  let checker := TransactionSignatureChecker (fun _ _ _ => true) csv_tx 0 in
  op_checklocktimeverify checker lock_flags [serialize 550000000] = Ok [serialize 550000000] /\
  op_checklocktimeverify checker lock_flags [serialize 600000001] = set_error SCRIPT_ERR_UNSATISFIED_LOCKTIME /\
  IsFinalTx csv_tx 5 600000001 = true /\ IsFinalTx csv_tx 5 550000000 = false.
Proof.
  split; [|split; [|split]]; [|vm_compute; reflexivity..].
  apply (cltv_enforces_lock_time (fun _ _ _ => true) csv_tx 0 lock_flags [serialize 550000000] [serialize 550000000]);
    [unfold size; cbn [length csv_tx vin]; lia|reflexivity|].
  split; [reflexivity|]. exists 550000000. split; [|split; [|split; [|discriminate]]].
  - exists [], (serialize 550000000). split; [reflexivity|vm_compute; reflexivity].
  - cbn [csv_tx nLockTime]. lia.
  - unfold LOCKTIME_THRESHOLD. cbn [csv_tx nLockTime]. lia.
Defined.

(** The operand 2, of a coin of height 1: the block of height 3 is the first. *)
Lemma csv_enforces_relative_lock_witness :
  op_checksequenceverify (TransactionSignatureChecker (fun _ _ _ => true) csv_tx 0) lock_flags [serialize 2] = Ok [serialize 2] /\
  1 + (2 .& SEQUENCE_LOCKTIME_MASK) <= 3 /\
  SequenceLocks csv_tx 1 [1] (csv_chain 3) = Some (false, [1]).
Proof.
  assert (op_checksequenceverify (TransactionSignatureChecker (fun _ _ _ => true) csv_tx 0) lock_flags [serialize 2]
    = Ok [serialize 2]) as Eop by (vm_compute; reflexivity).
  split; [exact Eop|]. split; [|vm_compute; reflexivity].
  destruct (csv_enforces_relative_lock (fun _ _ _ => true) csv_tx 0 lock_flags [serialize 2] [serialize 2]) as [_ H].
  - unfold is_s. cbn. lia.
  - cbn. lia.
  - repeat constructor; unfold is_u; cbn; lia.
  - reflexivity.
  - destruct (H Eop) as (n & (base & x & E & En) & Hn). clear H Eop.
    destruct base as [|y base]; [|destruct base; discriminate E]. injection E as <-.
    vm_compute in En. injection En as <-.
    exact (Hn eq_refl 1 1 [1] [1] {| Pow.nHeight := 3; Pow.nVersion := 2; nTime := 1003; nBits := 0 |} (tail (csv_chain 4))
      eq_refl ltac:(lia) ltac:(unfold times_ok; repeat constructor; unfold is_u; cbn; lia) eq_refl
      ltac:(vm_compute; reflexivity)).
Defined.
