(* ===== verification/Chain.v ===== *)
(** * The block index and the active chain (src/src/chain.h, src/src/chain.cpp)

    Block index entries point to their predecessor and, with [pskip], to a
    further ancestor; [CChain] keeps the active chain as an array of pointers.
    Memory is a finite map from addresses to entries, so that sharing, pointer
    comparison and [nullptr] are the source's.

    The theorems: [GetAncestor] is repeated [pprev], always terminates and agrees
    with the list view of Pow.v; [BuildSkip] keeps the skip pointers right;
    [SetTip], which stops early, leaves exactly the path to the new tip;
    [FindFork] finds the last common block; a locator describes the branch in
    logarithmic space. *)

From stdpp Require Import gmap sorting.
From S2P Require Import Prelude.
From S2P Require Pow LockTime.
Local Open Scope cxx_scope.

Abbreviation ptr := nat (only parsing).

Record CBlockIndex : Type := {
  entry : Pow.CBlockIndex;       (** height, version, time, bits *)
  phashBlock : list Z;
  pprev : option ptr;
  pskip : option ptr;
  nTimeMax : Z;
}.

Definition nHeight (b : CBlockIndex) : Z := Pow.nHeight (entry b).
Definition set_pskip (b : CBlockIndex) (q : option ptr) : CBlockIndex :=
  {| entry := entry b; phashBlock := phashBlock b; pprev := pprev b; pskip := q; nTimeMax := nTimeMax b |}.

Abbreviation index := (gmap nat CBlockIndex).

(** ** The skip list *)

Definition InvertLowestOne (n : Z) : Z := n .& (n - 1).

Definition GetSkipHeight (height : Z) : Z :=
  if height <? 2 then 0
  else if nz (height .& 1) then InvertLowestOne (InvertLowestOne (height - 1)) + 1
  else InvertLowestOne height.

(** The [while] of [GetAncestor].  [None]: an invalid pointer, a failed assertion
    or the end of the fuel. *)
Fixpoint walk (fuel : nat) (m : index) (pindexWalk : ptr) (heightWalk height : Z) : option ptr :=
  if height <? heightWalk then
    match fuel with
    | O => None
    | S fuel =>
        b ← m !! pindexWalk;
        let heightSkip := GetSkipHeight heightWalk in
        let heightSkipPrev := GetSkipHeight (heightWalk - 1) in
        let follow := (heightSkip =? height) ||
          ((height <? heightSkip) && negb ((heightSkipPrev <? heightSkip - 2) && (height <=? heightSkipPrev))) in
        match pskip b, follow with
        | Some skip, true => walk fuel m skip heightSkip height
        | _, _ => p ← pprev b; walk fuel m p (heightWalk - 1) height
        end
    end
  else Some pindexWalk.

(** The outer option is failure, the inner one [NULL]. *)
Definition GetAncestor (m : index) (this : ptr) (height : Z) : option (option ptr) :=
  b ← m !! this;
  if (nHeight b <? height) || (height <? 0) then Some None
  else Some <$> walk (Z.to_nat (nHeight b)) m this (nHeight b) height.

Definition BuildSkip (m : index) (this : ptr) : option index :=
  b ← m !! this;
  match pprev b with
  | None => Some m
  | Some q => s ← GetAncestor m q (GetSkipHeight (nHeight b)); Some (<[this := set_pskip b s]> m)
  end.

(** ** CChain *)

Abbreviation CChain := (list (option nat)).

Definition Height (vChain : CChain) : Z := Z.of_nat (length vChain) - 1.
Definition at_height (vChain : CChain) (h : Z) : option ptr :=
  if (h <? 0) || (Z.of_nat (length vChain) <=? h) then None else mjoin (vChain !! Z.to_nat h).
Definition Genesis (vChain : CChain) : option ptr := mjoin (head vChain).
Definition Tip (vChain : CChain) : option ptr := mjoin (list.last vChain).
Definition Contains (m : index) (vChain : CChain) (p : ptr) : option bool :=
  b ← m !! p; Some (bool_decide (at_height vChain (nHeight b) = Some p)).
Definition Next (m : index) (vChain : CChain) (p : ptr) : option (option ptr) :=
  b ← m !! p;
  c ← Contains m vChain p;
  Some (if (c : bool) then at_height vChain (nHeight b + 1) else None).

(** [std::vector::resize]: new elements are null pointers. *)
Definition resize_chain (n : nat) (vChain : CChain) : CChain :=
  take n vChain ++ replicate (n - length vChain) None.

(** [while (pindex && vChain[pindex->nHeight] != pindex)] *)
Fixpoint set_tip_loop (fuel : nat) (m : index) (vChain : CChain) (pindex : option ptr) : option CChain :=
  match pindex with
  | None => Some vChain
  | Some p =>
      b ← m !! p;
      if bool_decide (vChain !! Z.to_nat (nHeight b) = Some (Some p)) then Some vChain
      else
        match fuel with
        | O => None
        | S fuel => set_tip_loop fuel m (<[Z.to_nat (nHeight b) := Some p]> vChain) (pprev b)
        end
  end.

Definition SetTip (m : index) (vChain : CChain) (pindex : option ptr) : option CChain :=
  match pindex with
  | None => Some []
  | Some p =>
      b ← m !! p;
      let n := Z.to_nat (nHeight b + 1) in
      set_tip_loop n m (resize_chain n vChain) (Some p)
  end.

Fixpoint fork_loop (fuel : nat) (m : index) (vChain : CChain) (pindex : option ptr) : option (option ptr) :=
  match pindex with
  | None => Some None
  | Some p =>
      c ← Contains m vChain p;
      if (c : bool) then Some (Some p)
      else
        match fuel with
        | O => None
        | S fuel => b ← m !! p; fork_loop fuel m vChain (pprev b)
        end
  end.

Definition FindFork (m : index) (vChain : CChain) (pindex : option ptr) : option (option ptr) :=
  match pindex with
  | None => Some None
  | Some p =>
      b ← m !! p;
      start ← (if Height vChain <? nHeight b then GetAncestor m p (Height vChain) else Some (Some p));
      fork_loop (Z.to_nat (nHeight b) + 1) m vChain start
  end.

(** The [while] of [GetLocator]; [vHave] as pushed so far. *)
Fixpoint locator_loop (fuel : nat) (m : index) (vChain : CChain) (pindex : option ptr) (nStep : Z)
    (vHave : list (list Z)) : option (list (list Z)) :=
  match pindex with
  | None => Some vHave
  | Some p =>
      b ← m !! p;
      let vHave := vHave ++ [phashBlock b] in
      if nHeight b =? 0 then Some vHave
      else
        match fuel with
        | O => None
        | S fuel =>
            let h := Z.max (nHeight b - nStep) 0 in
            c ← Contains m vChain p;
            next ← (if (c : bool) then Some (at_height vChain h) else GetAncestor m p h);
            let nStep := if (10 <? length vHave)%nat then i32 (nStep * 2) else nStep in
            locator_loop fuel m vChain next nStep vHave
        end
  end.

Definition GetLocator (m : index) (vChain : CChain) (pindex : option ptr) : option (list (list Z)) :=
  let pindex := match pindex with None => Tip vChain | _ => pindex end in
  match pindex with
  | None => Some []
  | Some p => b ← m !! p; locator_loop (Z.to_nat (nHeight b)) m vChain pindex 1 []
  end.

(** [std::lower_bound]: the first entry not before [nTime]; the entries are
    partitioned because [nTimeMax] never decreases along a chain. *)
Fixpoint FindEarliestAtLeast (m : index) (vChain : CChain) (nTime : Z) : option (option ptr) :=
  match vChain with
  | [] => Some None
  | None :: _ => None
  | Some p :: vChain =>
      b ← m !! p;
      if nTimeMax b <? nTime then FindEarliestAtLeast m vChain nTime else Some (Some p)
  end.

(** ** Well-formed indexes *)

(** [n] steps of [pprev]. *)
Fixpoint up (n : nat) (m : index) (p : ptr) : option ptr :=
  match n with
  | O => Some p
  | S n => b ← m !! p; q ← pprev b; up n m q
  end.

(** The specification of [GetAncestor]. *)
Definition ancestor (m : index) (p : ptr) (height : Z) : option ptr :=
  b ← m !! p;
  if (nHeight b <? height) || (height <? 0) then None else up (Z.to_nat (nHeight b - height)) m p.

Record node_ok (m : index) (b : CBlockIndex) : Prop := {
  height_range : is_u 31 (nHeight b);
  prev_ok : match pprev b with
            | None => nHeight b = 0
            | Some q => exists c, m !! q = Some c /\ nHeight b = nHeight c + 1
            end;
}.

Definition tree_ok (m : index) : Prop := map_Forall (fun _ b => node_ok m b) m.

Definition skips_ok (m : index) : Prop :=
  map_Forall (fun p b => forall q, pskip b = Some q -> ancestor m p (GetSkipHeight (nHeight b)) = Some q) m.

(** ** Skip heights *)

Lemma land_le_l a b : 0 <= a -> Z.land a b <= a.
Proof.
  intros Ha. assert (Z.land a b + Z.ldiff a b = a) as E.
  { rewrite Z.add_nocarry_lor; [apply Z.bits_inj'; intros i Hi|]; [|apply Z.bits_inj'; intros i Hi].
    - rewrite Z.lor_spec, Z.land_spec, Z.ldiff_spec. by destruct (Z.testbit a i), (Z.testbit b i).
    - rewrite !Z.land_spec, Z.ldiff_spec, Z.bits_0. by destruct (Z.testbit a i), (Z.testbit b i). }
  assert (0 <= Z.ldiff a b) by (apply Z.ldiff_nonneg; by left). lia.
Qed.

Lemma InvertLowestOne_range n : 0 <= n -> 0 <= InvertLowestOne n /\ (1 <= n -> InvertLowestOne n < n).
Proof.
  intros Hn. unfold InvertLowestOne. split; [apply Z.land_nonneg; by left|].
  intros H1. rewrite Z.land_comm. pose proof (land_le_l (n - 1) n ltac:(lia)). lia.
Qed.

Lemma GetSkipHeight_range h : 1 <= h -> 0 <= GetSkipHeight h < h.
Proof.
  intros Hh. unfold GetSkipHeight. destruct (Z.ltb_spec h 2); [lia|].
  destruct (nz (h .& 1)).
  - destruct (InvertLowestOne_range (h - 1) ltac:(lia)) as [H1 H2]. specialize (H2 ltac:(lia)).
    destruct (InvertLowestOne_range (InvertLowestOne (h - 1)) H1) as [H3 H4].
    destruct (Z.eq_dec (InvertLowestOne (h - 1)) 0) as [->|]; [change (InvertLowestOne 0) with 0; lia|]. specialize (H4 ltac:(lia)). lia.
  - destruct (InvertLowestOne_range h ltac:(lia)) as [H1 H2]. specialize (H2 ltac:(lia)). lia.
Qed.

(** ** Ancestors *)

Section Tree.
Context (m : index) (Htree : tree_ok m).

Lemma node_at p b : m !! p = Some b -> node_ok m b.
Proof. apply Htree. Qed.

Lemma prev_node p b : m !! p = Some b -> 0 < nHeight b ->
  exists q c, pprev b = Some q /\ m !! q = Some c /\ nHeight b = nHeight c + 1.
Proof.
  intros Hp Hh. destruct (node_at p b Hp) as [_ Hq]. destruct (pprev b) as [q|]; [|lia].
  destruct Hq as (c & Hc & E). by exists q, c.
Qed.

Lemma genesis_node p b : m !! p = Some b -> nHeight b = 0 -> pprev b = None.
Proof.
  intros Hp Hh. destruct (node_at p b Hp) as [_ Hq]. destruct (pprev b) as [q|]; [|done].
  destruct Hq as (c & Hc & E). destruct (node_at q c Hc) as [Hr _]. unfold is_u in Hr. lia.
Qed.

Lemma height_nonneg p b : m !! p = Some b -> 0 <= nHeight b < 2 ^ 31.
Proof. intros Hp. apply (node_at p b Hp). Qed.

Lemma up_S n p b q : m !! p = Some b -> pprev b = Some q -> up (S n) m p = up n m q.
Proof. intros Hp Hq. cbn [up]. by rewrite Hp; cbn; rewrite Hq. Qed.

Lemma up_add a b p : up (a + b) m p = (up a m p ≫= up b m).
Proof.
  revert p. induction a as [|a IH]; intros p; [done|]. cbn [Nat.add up].
  destruct (m !! p) as [nd|]; [|done]. cbn. destruct (pprev nd) as [q|]; [apply IH|done].
Qed.

Lemma up_total n p b : m !! p = Some b -> Z.of_nat n <= nHeight b ->
  exists q c, up n m p = Some q /\ m !! q = Some c /\ nHeight c = nHeight b - Z.of_nat n.
Proof.
  revert p b. induction n as [|n IH]; intros p b Hp Hn; [exists p, b; split_and!; (done || lia)|].
  destruct (prev_node p b Hp ltac:(lia)) as (q & c & Hq & Hc & E).
  destruct (IH q c Hc ltac:(lia)) as (r & d & Hr & Hd & Ed). exists r, d.
  rewrite (up_S n p b q Hp Hq). split_and!; (done || lia).
Qed.

Lemma ancestor_total p b h : m !! p = Some b -> 0 <= h <= nHeight b ->
  exists q c, ancestor m p h = Some q /\ m !! q = Some c /\ nHeight c = h.
Proof.
  intros Hp Hh. unfold ancestor. rewrite Hp. cbn.
  rewrite (proj2 (Z.ltb_ge _ _)), (proj2 (Z.ltb_ge _ _)) by lia. cbn [orb].
  destruct (up_total (Z.to_nat (nHeight b - h)) p b Hp ltac:(lia)) as (q & c & Hq & Hc & E).
  exists q, c. split_and!; (done || lia).
Qed.

(** An ancestor of an ancestor: the way down can stop anywhere above. *)
Lemma ancestor_via p b s hs h : m !! p = Some b -> ancestor m p hs = Some s -> 0 <= h <= hs -> hs <= nHeight b ->
  ancestor m s h = ancestor m p h.
Proof.
  intros Hp Hs Hh Hle. destruct (ancestor_total p b hs Hp ltac:(lia)) as (q & c & Hq & Hc & E).
  assert (q = s) as -> by congruence. clear Hq.
  unfold ancestor in *. rewrite Hp in *. rewrite Hc. cbn in *.
  rewrite (proj2 (Z.ltb_ge (nHeight b) hs)), (proj2 (Z.ltb_ge hs 0)) in Hs by lia. cbn [orb] in Hs.
  rewrite !(proj2 (Z.ltb_ge _ _)) by lia. cbn [orb].
  replace (Z.to_nat (nHeight b - h)) with (Z.to_nat (nHeight b - hs) + Z.to_nat (nHeight c - h))%nat by lia.
  by rewrite up_add, Hs.
Qed.

Lemma ancestor_self p b : m !! p = Some b -> ancestor m p (nHeight b) = Some p.
Proof.
  intros Hp. unfold ancestor. rewrite Hp. cbn. pose proof (height_nonneg p b Hp).
  rewrite !(proj2 (Z.ltb_ge _ _)) by lia. cbn [orb]. by rewrite Z.sub_diag.
Qed.

Lemma ancestor_prev p b q h : m !! p = Some b -> pprev b = Some q -> h < nHeight b ->
  ancestor m q h = ancestor m p h.
Proof.
  intros Hp Hq Hh. destruct (node_at p b Hp) as [_ Hpr]. rewrite Hq in Hpr. destruct Hpr as (c & Hc & E).
  unfold ancestor. rewrite Hp, Hc. cbn. destruct (Z.ltb_spec h 0); [by rewrite !orb_true_r|].
  rewrite !(proj2 (Z.ltb_ge _ _)) by lia. cbn [orb].
  replace (Z.to_nat (nHeight b - h)) with (S (Z.to_nat (nHeight c - h))) by lia. by rewrite (up_S _ p b q).
Qed.

Context (Hskip : skips_ok m).

Lemma walk_spec fuel p b h : m !! p = Some b -> 0 <= h <= nHeight b -> nHeight b - h <= Z.of_nat fuel ->
  walk fuel m p (nHeight b) h = ancestor m p h.
Proof.
  revert p b. induction fuel as [|fuel IH]; intros p b Hp Hh Hf; cbn [walk];
    destruct (Z.ltb_spec h (nHeight b)) as [Hlt|Hge]; try lia;
    try (assert (h = nHeight b) as -> by lia; by rewrite (ancestor_self p b)).
  rewrite Hp. cbn.
  assert ((p' ← pprev b; walk fuel m p' (nHeight b - 1) h) = ancestor m p h) as Hprev.
  { destruct (prev_node p b Hp ltac:(lia)) as (q & c & Hq & Hc & E). rewrite Hq. cbn.
    replace (nHeight b - 1) with (nHeight c) by lia. rewrite (IH q c) by (done || lia).
    by apply (ancestor_prev p b). }
  destruct (pskip b) as [s|] eqn:Es; [|exact Hprev].
  match goal with |- (if ?c then _ else _) = _ => destruct c eqn:Ec; [|exact Hprev] end.
  pose proof (Hskip p b Hp s Es) as Ha. pose proof (GetSkipHeight_range (nHeight b) ltac:(lia)) as Hr.
  assert (h <= GetSkipHeight (nHeight b)) as Hle.
  { apply orb_true_iff in Ec as [Ec|Ec]; bool_to_prop; lia. }
  destruct (ancestor_total p b (GetSkipHeight (nHeight b)) Hp ltac:(lia)) as (q & c & Hq & Hc & E).
  assert (q = s) as -> by congruence. rewrite <- E. rewrite (IH s c) by (done || lia).
  apply (ancestor_via p b _ (GetSkipHeight (nHeight b))); (done || lia).
Qed.

Lemma GetAncestor_spec p b h : m !! p = Some b -> GetAncestor m p h = Some (ancestor m p h).
Proof.
  intros Hp. unfold GetAncestor. rewrite Hp. cbn. pose proof (height_nonneg p b Hp).
  destruct ((nHeight b <? h) || (h <? 0)) eqn:E.
  - unfold ancestor. rewrite Hp. cbn. by rewrite E.
  - bool_to_prop. rewrite walk_spec by (done || lia).
    destruct (ancestor_total p b h Hp ltac:(lia)) as (q & c & Hq & _). by rewrite Hq.
Qed.


(** ** The array of the active chain *)

(** The path from the genesis block to [p]. *)
Definition path (p : ptr) (n : nat) : CChain := map (fun i => ancestor m p (Z.of_nat i)) (seq 0 (S n)).

Definition path_to (p : ptr) : CChain :=
  match m !! p with Some b => path p (Z.to_nat (nHeight b)) | None => [] end.

Lemma path_to_lookup p b i : m !! p = Some b ->
  path_to p !! i = if decide (Z.of_nat i <= nHeight b) then Some (ancestor m p (Z.of_nat i)) else None.
Proof.
  intros Hp. pose proof (height_nonneg p b Hp). unfold path_to, path. rewrite Hp, list_lookup_fmap.
  case_decide; [rewrite lookup_seq_lt by lia; done|by rewrite lookup_seq_ge by lia].
Qed.

Lemma path_to_length p b : m !! p = Some b -> Z.of_nat (length (path_to p)) = nHeight b + 1.
Proof.
  intros Hp. pose proof (height_nonneg p b Hp). unfold path_to, path. rewrite Hp, length_map, length_seq. lia.
Qed.

(** An array that can be the active chain. *)
Definition chain_ok (c : CChain) : Prop := c = [] \/ exists p b, m !! p = Some b /\ c = path_to p.

Lemma chain_ok_below c i r : chain_ok c -> c !! i = Some (Some r) -> forall j, (j <= i)%nat ->
  c !! j = Some (ancestor m r (Z.of_nat j)) /\ exists d, m !! r = Some d /\ nHeight d = Z.of_nat i.
Proof.
  intros [->|(p & b & Hp & ->)] Hi j Hj; [done|]. rewrite (path_to_lookup p b) in Hi |- * by done.
  case_decide; [|done]. rewrite decide_True by lia.
  destruct (ancestor_total p b (Z.of_nat i) Hp ltac:(lia)) as (q & d & Hq & Hd & E).
  assert (q = r) as -> by congruence. split; [|by exists d].
  f_equal. symmetry. apply (ancestor_via p b r (Z.of_nat i)); (done || lia).
Qed.

(** [SetTip]'s loop at an entry of the path: what is above is already written,
    and an entry below that is found in place certifies everything under it. *)
Lemma set_tip_loop_spec p b fuel c q k :
  m !! p = Some b -> Z.of_nat (length c) = nHeight b + 1 -> Z.of_nat k <= nHeight b ->
  ancestor m p (Z.of_nat k) = Some q -> (k < fuel)%nat ->
  (forall i, (k < i)%nat -> c !! i = path_to p !! i) ->
  (forall i r, (i <= k)%nat -> c !! i = Some (Some r) -> ancestor m p (Z.of_nat i) = Some r ->
     forall j, (j <= i)%nat -> c !! j = path_to p !! j) ->
  set_tip_loop fuel m c (Some q) = Some (path_to p).
Proof.
  intros Hp. pose proof (path_to_length p b Hp) as Hlen.
  revert c q k. induction fuel as [|fuel IH]; intros c q k Hl Hk Hq Hf Hup Hlow; [lia|].
  destruct (ancestor_total p b (Z.of_nat k) Hp ltac:(lia)) as (q' & d & Hq' & Hd & Ed).
  assert (q' = q) as -> by congruence. cbn [set_tip_loop]. rewrite Hd. cbn. rewrite Ed, Nat2Z.id.
  case_bool_decide as Hin.
  - f_equal. apply list_eq. intros i. destruct (decide (i <= k)%nat); [exact (Hlow k q ltac:(lia) Hin Hq i ltac:(lia))|apply Hup; lia].
  - assert (forall i, (k <= i)%nat -> <[k := Some q]> c !! i = path_to p !! i) as Hup'.
    { intros i Hi. destruct (decide (i = k)) as [->|].
      - rewrite list_lookup_insert_eq by lia. rewrite (path_to_lookup p b), decide_True, Hq by (done || lia). done.
      - rewrite list_lookup_insert_ne by done. apply Hup. lia. }
    destruct (Z.eq_dec (nHeight d) 0) as [E0|E0].
    + rewrite (genesis_node q d Hd E0). destruct fuel; cbn [set_tip_loop]; f_equal; apply list_eq; intros i;
        apply Hup'; lia.
    + destruct (prev_node q d Hd ltac:(lia)) as (q1 & d1 & Hq1 & Hd1 & E1). rewrite Hq1.
      apply (IH _ q1 (k - 1)%nat); try lia.
      * by rewrite length_insert.
      * rewrite <- (ancestor_via p b q (Z.of_nat k) (Z.of_nat (k - 1)) Hp Hq) by lia.
        rewrite <- (ancestor_prev q d q1) by (done || lia).
        replace (Z.of_nat (k - 1)) with (nHeight d1) by lia. by apply (ancestor_self q1 d1).
      * intros i Hi. apply Hup'. lia.
      * intros i r Hi. rewrite list_lookup_insert_ne by lia. intros Hr Ha j Hj.
        rewrite list_lookup_insert_ne by lia. apply (Hlow i r); (done || lia).
Qed.

Lemma resize_chain_length n c : length (resize_chain n c) = n.
Proof. unfold resize_chain. rewrite length_app, length_take, length_replicate. lia. Qed.

Lemma resize_chain_lookup n c i r : resize_chain n c !! i = Some (Some r) -> c !! i = Some (Some r) /\ (i < n)%nat.
Proof.
  unfold resize_chain. intros H. destruct (decide (i < length (take n c))%nat) as [Hi|Hi].
  - rewrite lookup_app_l in H by done. rewrite length_take in Hi. rewrite lookup_take in H. case_decide; [done|done].
  - rewrite lookup_app_r in H by lia. by apply lookup_replicate in H as [? _].
Qed.

Lemma SetTip_path c p b : m !! p = Some b -> chain_ok c -> SetTip m c (Some p) = Some (path_to p).
Proof.
  intros Hp Hc. pose proof (height_nonneg p b Hp) as Hh. pose proof (path_to_length p b Hp) as Hlen.
  unfold SetTip. rewrite Hp. cbn.
  set (n := Z.to_nat (nHeight b + 1)).
  apply (set_tip_loop_spec p b n _ p (Z.to_nat (nHeight b))); try done; try lia.
  - rewrite resize_chain_length. lia.
  - rewrite Z2Nat.id by lia. by apply (ancestor_self p b).
  - intros i Hi. rewrite (lookup_ge_None_2 (resize_chain n c)), (lookup_ge_None_2 (path_to p)); [done|lia|].
    rewrite resize_chain_length. lia.
  - intros i r Hi Hr Ha j Hj. apply resize_chain_lookup in Hr as [Hr Hin].
    destruct (chain_ok_below c i r Hc Hr j Hj) as [Hcj _].
    rewrite (path_to_lookup p b), decide_True by (done || lia).
    assert (j < length c)%nat as Hjc by (apply lookup_lt_Some in Hcj; lia).
    unfold resize_chain. rewrite lookup_app_l by (rewrite length_take; lia).
    rewrite lookup_take, decide_True, Hcj by lia. f_equal.
    apply (ancestor_via p b r (Z.of_nat i)); (done || lia).
Qed.

(** ** Forks *)

Lemma at_height_lookup c h r : at_height c h = Some r <-> 0 <= h /\ c !! Z.to_nat h = Some (Some r).
Proof.
  unfold at_height. destruct (Z.ltb_spec h 0); cbn [orb]; [split; [done|lia]|].
  destruct (Z.leb_spec (Z.of_nat (length c)) h) as [Hge|Hlt].
  - split; [done|]. intros [_ E]. apply lookup_lt_Some in E. lia.
  - destruct (c !! Z.to_nat h) as [[x|]|]; cbn; split; try done; try (by intros [_ [= ->]]). by intros [= ->].
Qed.

Lemma at_height_above c h : Height c < h -> at_height c h = None.
Proof.
  unfold Height, at_height. intros Hh. destruct (h <? 0); [done|]. cbn [orb].
  by rewrite (proj2 (Z.leb_le _ _)) by lia.
Qed.

(** Whether the ancestor of [p] at height [h] is on the chain. *)
Definition common (c : CChain) (p : ptr) (h : Z) : Prop :=
  exists q, ancestor m p h = Some q /\ at_height c h = Some q.

Definition last_common (c : CChain) (p : ptr) (r : option ptr) : Prop :=
  match r with
  | None => forall h, ~ common c p h
  | Some f => exists h, ancestor m p h = Some f /\ at_height c h = Some f /\ forall h', h < h' -> ~ common c p h'
  end.

Lemma fork_loop_spec c p b fuel q k :
  m !! p = Some b -> 0 <= k <= nHeight b -> k < Z.of_nat fuel -> ancestor m p k = Some q ->
  (forall h', k < h' -> ~ common c p h') ->
  exists r, fork_loop fuel m c (Some q) = Some r /\ last_common c p r.
Proof.
  intros Hp. revert q k. induction fuel as [|fuel IH]; intros q k Hk Hf Hq Hno; [lia|].
  destruct (ancestor_total p b k Hp Hk) as (q' & d & Hq' & Hd & Ed). assert (q' = q) as -> by congruence.
  cbn [fork_loop]. unfold Contains. rewrite Hd. cbn. rewrite Ed. case_bool_decide as Hc.
  { exists (Some q). split; [done|]. by exists k. }
  assert (forall h', k <= h' -> ~ common c p h') as Hno'.
  { intros h' Hh' (x & Hx & Hcx). destruct (Z.eq_dec h' k) as [->|]; [congruence|].
    apply (Hno h'); [lia|by exists x]. }
  destruct (Z.eq_dec k 0) as [->|Hne].
  - rewrite (genesis_node q d Hd Ed). exists None. split; [by destruct fuel|]. intros h Hcom.
    destruct (Z_lt_ge_dec h 0); [|by apply (Hno' h); [lia|]].
    destruct Hcom as (x & _ & Hcx). apply at_height_lookup in Hcx. lia.
  - destruct (prev_node q d Hd ltac:(lia)) as (q1 & d1 & Hq1 & Hd1 & E1). rewrite Hq1.
    apply (IH q1 (k - 1)); try lia.
    + rewrite <- (ancestor_via p b q k (k - 1) Hp Hq) by lia.
      rewrite <- (ancestor_prev q d q1) by (done || lia).
      replace (k - 1) with (nHeight d1) by lia. by apply (ancestor_self q1 d1).
    + intros h' Hh'. apply Hno'. lia.
Qed.

Lemma FindFork_last_common c p b : m !! p = Some b ->
  exists r, FindFork m c (Some p) = Some r /\ last_common c p r.
Proof.
  intros Hp. pose proof (height_nonneg p b Hp) as Hh. unfold FindFork. rewrite Hp. cbn.
  assert (forall h', Height c < h' -> ~ common c p h') as Habove
    by (intros h' Hh' (x & _ & Hcx); by rewrite at_height_above in Hcx).
  destruct (Z.ltb_spec (Height c) (nHeight b)) as [Hlt|Hge].
  - rewrite (GetAncestor_spec p b) by done. cbn.
    destruct (Z_lt_ge_dec (Height c) 0) as [Hneg|Hpos].
    + assert (ancestor m p (Height c) = None) as ->.
      { unfold ancestor. rewrite Hp. cbn. rewrite (proj2 (Z.ltb_lt (Height c) 0)) by lia. by rewrite orb_true_r. }
      exists None. split; [by destruct (Z.to_nat (nHeight b) + 1)%nat|]. intros h Hcom.
      destruct (Z_lt_ge_dec (Height c) h); [by apply (Habove h)|].
      destruct Hcom as (x & _ & Hcx). apply at_height_lookup in Hcx. lia.
    + destruct (ancestor_total p b (Height c) Hp ltac:(lia)) as (q & d & Hq & _). rewrite Hq.
      apply (fork_loop_spec c p b _ q (Height c)); (done || lia).
  - apply (fork_loop_spec c p b _ p (nHeight b)); try done; try lia.
    + by apply (ancestor_self p b).
    + intros h' Hh' (x & Hx & _). unfold ancestor in Hx. rewrite Hp in Hx. cbn in Hx.
      by rewrite (proj2 (Z.ltb_lt (nHeight b) h')) in Hx by lia.
Qed.

(** ** Locators *)

(** The heights a locator names, from the top; [count] entries were pushed. *)
Fixpoint locator_heights (fuel : nat) (h nStep : Z) (count : nat) : list Z :=
  match fuel with
  | O => [h]
  | S fuel =>
      if h =? 0 then [h]
      else h :: locator_heights fuel (Z.max (h - nStep) 0) (if (9 <? count)%nat then nStep * 2 else nStep) (S count)
  end.

Definition hash_at (p : ptr) (h : Z) : list Z :=
  default [] (phashBlock <$> (ancestor m p h ≫= fun q => m !! q)).

Lemma at_height_contained c r d h : chain_ok c -> m !! r = Some d -> at_height c (nHeight d) = Some r ->
  0 <= h <= nHeight d -> at_height c h = ancestor m r h.
Proof.
  intros Hc Hr Hat Hh. apply at_height_lookup in Hat as [_ Hat].
  destruct (chain_ok_below c _ r Hc Hat (Z.to_nat h) ltac:(lia)) as [Hj _].
  unfold at_height. rewrite (proj2 (Z.ltb_ge h 0)) by lia. cbn [orb].
  apply lookup_lt_Some in Hj as Hlt. rewrite (proj2 (Z.leb_gt _ _)), Hj by lia. cbn. by rewrite Z2Nat.id by lia.
Qed.

Lemma locator_heights_0 fuel s s' n : locator_heights fuel 0 s n = locator_heights fuel 0 s' n.
Proof. by destruct fuel. Qed.

Lemma locator_loop_spec c p b fuel q h nStep vHave :
  chain_ok c -> m !! p = Some b -> ancestor m p h = Some q -> 0 <= h <= nHeight b -> h <= Z.of_nat fuel ->
  h = 0 \/ 1 <= nStep /\ nStep + h < 2 ^ 31 ->
  locator_loop fuel m c (Some q) nStep vHave =
  Some (vHave ++ map (hash_at p) (locator_heights fuel h nStep (length vHave))).
Proof.
  intros Hc Hp. revert q h nStep vHave.
  induction fuel as [|fuel IH]; intros q h nStep vHave Hq Hh Hf Hs;
    destruct (ancestor_total p b h Hp Hh) as (q' & d & Hq' & Hd & Ed); assert (q' = q) as -> by congruence;
    assert (hash_at p h = phashBlock d) as Ehash by (unfold hash_at; rewrite Hq; cbn; by rewrite Hd);
    cbn [locator_loop locator_heights]; rewrite Hd; cbn [mbind option_bind]; rewrite Ed.
  - assert (h = 0) as -> by lia. cbn [Z.eqb map]. by rewrite Ehash.
  - destruct (Z.eqb_spec h 0) as [->|Hne]; [cbn [map]; by rewrite Ehash|].
    set (h' := Z.max (h - nStep) 0).
    destruct (ancestor_total p b h' Hp ltac:(lia)) as (q2 & d2 & Hq2 & Hd2 & Ed2).
    assert (ancestor m q h' = Some q2) as Hstep
      by (rewrite (ancestor_via p b q h) by (done || lia); done).
    unfold Contains. rewrite Hd. cbn [mbind option_bind].
    assert ((if bool_decide (at_height c (nHeight d) = Some q) then Some (at_height c h') else GetAncestor m q h')
      = Some (Some q2)) as ->.
    { case_bool_decide as Hin.
      - rewrite (at_height_contained c q d h') by (done || lia). by rewrite Hstep.
      - rewrite (GetAncestor_spec q d) by done. by rewrite Hstep. }
    cbn [mbind option_bind]. destruct Hs as [?|[Hs Hb]]; [done|]. cbn [map]. rewrite Ehash.
    assert (forall l, vHave ++ phashBlock d :: l = (vHave ++ [phashBlock d]) ++ l) as Happ
      by (intros l; by rewrite <- app_assoc).
    rewrite (Happ (map _ _)). clear Happ.
    replace (S (length vHave)) with (length (vHave ++ [phashBlock d])) by (rewrite length_app; cbn [length]; lia).
    replace (9 <? length vHave)%nat with (10 <? length (vHave ++ [phashBlock d]))%nat
      by (rewrite length_app; cbn [length];
          destruct (Nat.ltb_spec 10 (length vHave + 1)), (Nat.ltb_spec 9 (length vHave)); (done || lia)).
    destruct (Z_le_gt_dec h nStep) as [Hle|Hgt].
    + assert (h' = 0) as E0 by lia. clearbody h'. rewrite E0 in *.
      rewrite (locator_heights_0 fuel _ (if (10 <? length (vHave ++ [phashBlock d]))%nat then i32 (nStep * 2) else nStep)).
      apply IH; try done; lia.
    + assert (forall x : bool, (if x then i32 (nStep * 2) else nStep) = (if x then nStep * 2 else nStep)) as ->
        by (intros []; [apply wraps_id; unfold is_s|]; lia).
      apply IH; try done; try lia. right. destruct (10 <? _)%nat; lia.
Qed.

(** ** The list view of Pow.v *)

Fixpoint pindex_of (n : nat) (p : ptr) : Pow.pindex :=
  match m !! p with
  | None => []
  | Some b => entry b :: match n, pprev b with S n, Some q => pindex_of n q | _, _ => [] end
  end.

(** The block and its ancestors. *)
Definition view (p : ptr) : Pow.pindex :=
  match m !! p with Some b => pindex_of (Z.to_nat (nHeight b)) p | None => [] end.

Lemma view_cons p b : m !! p = Some b ->
  view p = entry b :: match pprev b with Some q => view q | None => [] end.
Proof.
  intros Hp. pose proof (height_nonneg p b Hp). unfold view. rewrite Hp.
  destruct (Z.eq_dec (nHeight b) 0) as [E|E].
  - rewrite (genesis_node p b Hp E), E. change (Z.to_nat 0) with 0%nat. cbn [pindex_of]. by rewrite Hp.
  - destruct (prev_node p b Hp ltac:(lia)) as (q & c & Hq & Hc & Ec). rewrite Hq, Hc.
    replace (Z.to_nat (nHeight b)) with (S (Z.to_nat (nHeight c))) by lia. cbn [pindex_of]. by rewrite Hp, Hq.
Qed.

Lemma view_up n p b : m !! p = Some b -> Z.of_nat n <= nHeight b ->
  drop n (view p) = match up n m p with Some q => view q | None => [] end.
Proof.
  revert p b. induction n as [|n IH]; intros p b Hp Hn; [done|].
  destruct (prev_node p b Hp ltac:(lia)) as (q & c & Hq & Hc & Ec).
  rewrite (up_S n p b q Hp Hq), (view_cons p b Hp), Hq. cbn [drop]. apply (IH q c); (done || lia).
Qed.

Lemma view_ancestor p b h : m !! p = Some b ->
  LockTime.ancestor (view p) h = match ancestor m p h with Some q => view q | None => [] end.
Proof.
  intros Hp. unfold LockTime.ancestor, ancestor. rewrite Hp. cbn [mbind option_bind].
  rewrite (view_cons p b Hp) at 1. change (Pow.nHeight (entry b)) with (nHeight b).
  destruct ((nHeight b <? h) || (h <? 0)) eqn:E; [done|]. bool_to_prop.
  apply (view_up _ p b Hp). lia.
Qed.

End Tree.

(** ** Building the skip list *)

Lemma set_pskip_tree m p b s : m !! p = Some b -> tree_ok m -> tree_ok (<[p := set_pskip b s]> m).
Proof.
  intros Hp Ht q c Hq. assert (forall x y, m !! x = Some y ->
    exists z, <[p := set_pskip b s]> m !! x = Some z /\ nHeight z = nHeight y) as Hsame.
  { intros x y Hx. destruct (decide (x = p)) as [->|].
    - rewrite lookup_insert_eq. exists (set_pskip b s). split; [done|]. by assert (y = b) as -> by congruence.
    - rewrite lookup_insert_ne by done. by exists y. }
  assert (exists c0, m !! q = Some c0 /\ entry c0 = entry c /\ pprev c0 = pprev c) as (c0 & Hq0 & He & Hpr).
  { destruct (decide (q = p)) as [->|].
    - rewrite lookup_insert_eq in Hq. injection Hq as <-. by exists b.
    - rewrite lookup_insert_ne in Hq by done. by exists c. }
  destruct (Ht q c0 Hq0) as [Hr Hpv]. unfold nHeight in *. rewrite He in *. rewrite Hpr in *. split; [done|].
  destruct (pprev c) as [x|]; [|done]. destruct Hpv as (y & Hy & E).
  destruct (Hsame x y Hy) as (z & Hz & Ez). exists z. split; [done|]. unfold nHeight in *. by rewrite Ez.
Qed.

Lemma set_pskip_up m p b s n q : m !! p = Some b -> up n (<[p := set_pskip b s]> m) q = up n m q.
Proof.
  intros Hp. revert q. induction n as [|n IH]; intros q; [done|]. cbn [up].
  destruct (decide (q = p)) as [->|].
  - rewrite lookup_insert_eq, Hp. cbn. destruct (pprev b) as [r|]; [apply IH|done].
  - rewrite lookup_insert_ne by done. destruct (m !! q) as [c|]; [|done]. cbn.
    destruct (pprev c) as [r|]; [apply IH|done].
Qed.

Lemma set_pskip_ancestor m p b s q h : m !! p = Some b ->
  ancestor (<[p := set_pskip b s]> m) q h = ancestor m q h.
Proof.
  intros Hp. unfold ancestor. destruct (decide (q = p)) as [->|].
  - rewrite lookup_insert_eq, Hp. cbn. change (nHeight (set_pskip b s)) with (nHeight b).
    by rewrite set_pskip_up.
  - rewrite lookup_insert_ne by done. destruct (m !! q) as [c|]; [|done]. cbn. by rewrite set_pskip_up.
Qed.

(** C36: The skip list.  In a well-formed block tree whose skip pointers are right,
    [GetAncestor] terminates without touching an invalid pointer and returns the
    block reached by repeated [pprev], or null outside the heights of the branch;
    it is the function of the list of ancestors that the rest of the development
    uses.  [BuildSkip] gives a block the right skip pointer and disturbs nothing,
    so that adding blocks one by one maintains the invariant. *)
Theorem GetAncestor_correct (m : index) (p : ptr) (b : CBlockIndex) (height : Z) :
  tree_ok m -> skips_ok m -> m !! p = Some b ->
  GetAncestor m p height = Some (ancestor m p height) /\
  LockTime.ancestor (view m p) height = match ancestor m p height with Some q => view m q | None => [] end /\
  exists m', BuildSkip m p = Some m' /\ tree_ok m' /\ skips_ok m' /\
    (forall q h, ancestor m' q h = ancestor m q h) /\
    (forall b', m' !! p = Some b' -> pprev b <> None -> pskip b' = ancestor m p (GetSkipHeight (nHeight b))).
Proof.
  intros Ht Hs Hp. split; [by apply (GetAncestor_spec m Ht Hs p b)|]. split; [by apply (view_ancestor m Ht p b)|].
  unfold BuildSkip. rewrite Hp. cbn. destruct (pprev b) as [q|] eqn:Eq.
  2: { exists m. split_and!; try done. }
  destruct (node_at m Ht p b Hp) as [Hr Hpv]. rewrite Eq in Hpv. destruct Hpv as (c & Hc & Ec).
  pose proof (height_nonneg m Ht q c Hc). pose proof (GetSkipHeight_range (nHeight b) ltac:(lia)) as Hrange.
  rewrite (GetAncestor_spec m Ht Hs q c) by done. cbn.
  rewrite (ancestor_prev m Ht p b q) by (done || lia). set (s := ancestor m p (GetSkipHeight (nHeight b))).
  exists (<[p := set_pskip b s]> m). split; [done|]. split; [by apply set_pskip_tree|].
  split; [|split].
  - intros r d Hrd x Hx. rewrite (set_pskip_ancestor m p b s) by done. destruct (decide (r = p)) as [->|].
    + rewrite lookup_insert_eq in Hrd. injection Hrd as <-. exact Hx.
    + rewrite lookup_insert_ne in Hrd by done. by apply (Hs r d).
  - intros r h. by apply set_pskip_ancestor.
  - intros b' Hb' _. rewrite lookup_insert_eq in Hb'. by injection Hb' as <-.
Qed.

(** The active chain.  From any array [SetTip] can have left, [SetTip] to a block
    leaves exactly the path from the genesis block to it, although its loop stops
    at the first entry already in place; a null tip empties the array. *)
Theorem SetTip_correct (m : index) (c : CChain) (p : ptr) (b : CBlockIndex) :
  tree_ok m -> m !! p = Some b -> chain_ok m c ->
  exists c', SetTip m c (Some p) = Some c' /\ chain_ok m c' /\ SetTip m c None = Some [] /\
    Height c' = nHeight b /\ Tip c' = Some p /\ forall h, 0 <= h <= nHeight b -> at_height c' h = ancestor m p h.
Proof.
  intros Ht Hp Hc. exists (path_to m p). pose proof (height_nonneg m Ht p b Hp) as Hh.
  pose proof (path_to_length m Ht p b Hp) as Hlen.
  assert (forall h, 0 <= h <= nHeight b -> at_height (path_to m p) h = ancestor m p h) as Hat.
  { intros h Hr. unfold at_height. rewrite (proj2 (Z.ltb_ge h 0)), (proj2 (Z.leb_gt _ _)) by lia. cbn [orb].
    rewrite (path_to_lookup m Ht p b), decide_True by (done || lia). cbn. by rewrite Z2Nat.id by lia. }
  split; [by apply (SetTip_path m Ht c p b)|]. split; [right; by exists p, b|]. split; [done|].
  split; [unfold Height; lia|]. split; [|exact Hat].
  unfold Tip. rewrite last_lookup, (path_to_lookup m Ht p b), decide_True by (done || lia). cbn.
  replace (Z.of_nat (pred (length (path_to m p)))) with (nHeight b) by lia. by apply (ancestor_self m Ht p b).
Qed.

(** ** Deciding well-formedness, and a sample tree *)

Definition node_okb (m : index) (b : CBlockIndex) : bool :=
  (0 <=? nHeight b) && (nHeight b <? 2 ^ 31) &&
  match pprev b with
  | None => nHeight b =? 0
  | Some q => match m !! q with Some c => nHeight b =? nHeight c + 1 | None => false end
  end.

Definition skip_okb (m : index) (p : ptr) (b : CBlockIndex) : bool :=
  match pskip b with
  | None => true
  | Some q => bool_decide (ancestor m p (GetSkipHeight (nHeight b)) = Some q)
  end.

Definition index_okb (m : index) : bool :=
  forallb (fun pb => node_okb m (snd pb) && skip_okb m (fst pb) (snd pb)) (map_to_list m).

Lemma index_okb_ok m : index_okb m = true -> tree_ok m /\ skips_ok m.
Proof.
  unfold index_okb. rewrite forallb_forall. intros Hall.
  assert (forall p b, m !! p = Some b -> node_okb m b = true /\ skip_okb m p b = true) as H.
  { intros p b Hp. apply andb_true_iff, (Hall (p, b)), list_elem_of_In. by apply elem_of_map_to_list. }
  split.
  - intros p b Hp. apply H in Hp as [Hn _]. unfold node_okb in Hn. apply andb_true_iff in Hn as [Hr Hn].
    bool_to_prop. split; [by split|]. destruct (pprev b) as [q|]; [|by bool_to_prop].
    destruct (m !! q) as [c|]; [|done]. bool_to_prop. by exists c.
  - intros p b Hp q Hq. apply H in Hp as [_ Hs]. unfold skip_okb in Hs. rewrite Hq in Hs.
    by apply bool_decide_eq_true in Hs.
Qed.

Definition sample_node (h : Z) (prev : option ptr) : CBlockIndex :=
  {| entry := {| Pow.nHeight := h; Pow.nVersion := 2; Pow.nTime := 1000 + h; Pow.nBits := 0 |};
     phashBlock := [h]; pprev := prev; pskip := None; nTimeMax := 1000 + h |}.

Definition add_block (m : index) (p : ptr) (h : Z) (prev : option ptr) : index :=
  default m (BuildSkip (<[p := sample_node h prev]> m) p).

(** Blocks 0 to 30 in a row and a fork of three blocks on the twentieth. *)
Definition sample_index : index :=
  let m := fold_left (fun m i => add_block m i (Z.of_nat i) (match i with O => None | S j => Some j end)) (seq 0 31) ∅ in
  add_block (add_block (add_block m 31 21 (Some 20%nat)) 32 22 (Some 31%nat)) 33 23 (Some 32%nat).

Lemma sample_index_ok : tree_ok sample_index /\ skips_ok sample_index.
Proof. apply index_okb_ok. vm_compute. reflexivity. Qed.

Definition sample_at (p : ptr) : CBlockIndex := default (sample_node 0 None) (sample_index !! p).

Lemma GetAncestor_correct_witness :
  GetAncestor sample_index 33 7 = Some (Some 7%nat) /\ GetAncestor sample_index 33 24 = Some None.
Proof.
  split.
  - refine (eq_trans (proj1 (GetAncestor_correct sample_index 33 (sample_at 33) 7 (proj1 sample_index_ok)
      (proj2 sample_index_ok) _)) _); vm_compute; reflexivity.
  - vm_compute. reflexivity.
Defined.

(** The array after following the main branch, moved to the fork. *)
Definition sample_chain : CChain := path_to sample_index 30.

Lemma SetTip_correct_witness :
  exists c, SetTip sample_index sample_chain (Some 33%nat) = Some c /\ Height c = 23 /\ Tip c = Some 33%nat.
Proof.
  destruct (SetTip_correct sample_index sample_chain 33 (sample_at 33) (proj1 sample_index_ok)) as (c & H1 & _ & _ & H2 & H3 & _).
  - vm_compute. reflexivity.
  - right. exists 30%nat, (sample_at 30). split; [vm_compute; reflexivity|done].
  - exists c. split; [exact H1|]. split; [|exact H3]. rewrite H2. vm_compute. reflexivity.
Defined.

(** Forks.  For a well-formed tree and any array of blocks, [FindFork] terminates
    and returns the highest block that is both on the branch of [p] and in the
    chain, or null when there is none. *)
Theorem FindFork_correct (m : index) (c : CChain) (p : ptr) (b : CBlockIndex) :
  tree_ok m -> skips_ok m -> m !! p = Some b ->
  exists r, FindFork m c (Some p) = Some r /\
  match r with
  | None => forall h q, ancestor m p h = Some q -> at_height c h <> Some q
  | Some f => exists h, ancestor m p h = Some f /\ at_height c h = Some f /\
      forall h' q, h < h' -> ancestor m p h' = Some q -> at_height c h' <> Some q
  end.
Proof.
  intros Ht Hs Hp. destruct (FindFork_last_common m Ht Hs c p b Hp) as (r & Hr & Hl). exists r. split; [done|].
  destruct r as [f|]; cbn in Hl.
  - destruct Hl as (h & Ha & Hc & Hno). exists h. split; [done|]. split; [done|].
    intros h' q Hh Hq Hat. apply (Hno h' Hh). by exists q.
  - intros h q Hq Hat. apply (Hl h). by exists q.
Qed.

Lemma FindFork_correct_witness : FindFork sample_index sample_chain (Some 33%nat) = Some (Some 20%nat).
Proof.
  destruct (FindFork_correct sample_index sample_chain 33 (sample_at 33) (proj1 sample_index_ok) (proj2 sample_index_ok))
    as (r & H & _); [vm_compute; reflexivity|].
  rewrite H. revert H. vm_compute. intros H. exact (eq_sym H).
Defined.

(** ** The shape of a locator *)

Lemma locator_heights_length k fuel h s n :
  0 <= h -> h <= s * (2 ^ Z.of_nat k - 1) -> 1 <= s -> (9 < n)%nat ->
  (length (locator_heights fuel h s n) <= 1 + k)%nat.
Proof.
  revert fuel h s n. induction k as [|k IH]; intros fuel h s n H0 Hh Hs Hn.
  - assert (h = 0) as -> by (change (2 ^ Z.of_nat 0) with 1 in Hh; lia). destruct fuel; cbn; lia.
  - destruct fuel as [|fuel]; cbn [locator_heights length]; [lia|]. destruct (h =? 0); [cbn; lia|].
    cbn [length]. rewrite (proj2 (Nat.ltb_lt 9 n)) by done.
    rewrite Nat2Z.inj_succ, Z.pow_succ_r in Hh by lia.
    specialize (IH fuel (Z.max (h - s) 0) (s * 2) (S n) ltac:(lia)). 
    assert (1 <= 2 ^ Z.of_nat k) by (apply Z.lt_pred_le, Z.pow_pos_nonneg; lia).
    specialize (IH ltac:(nia) ltac:(lia) ltac:(lia)). lia.
Qed.

(** Up to ten more steps of one block each while fewer than eleven are listed. *)
Lemma locator_heights_start j k fuel h n :
  (n + j = 10)%nat -> 0 <= h -> h <= Z.of_nat j + 1 * (2 ^ Z.of_nat k - 1) ->
  (length (locator_heights fuel h 1 n) <= j + 1 + k)%nat.
Proof.
  revert fuel h n. induction j as [|j IH]; intros fuel h n Hn H0 Hh.
  - etransitivity; [apply (locator_heights_length k); lia|lia].
  - destruct fuel as [|fuel]; cbn [locator_heights length]; [lia|]. destruct (h =? 0); [cbn; lia|].
    cbn [length]. assert (1 <= 2 ^ Z.of_nat k) by (apply Z.lt_pred_le, Z.pow_pos_nonneg; lia).
    destruct (Nat.ltb_spec 9 n); [lia|].
    specialize (IH fuel (Z.max (h - 1) 0) (S n) ltac:(lia) ltac:(lia) ltac:(lia)). lia.
Qed.

Lemma locator_heights_shape fuel h s n :
  0 <= h <= Z.of_nat fuel -> 1 <= s ->
  list.last (locator_heights fuel h s n) = Some 0 /\
  StronglySorted Z.gt (locator_heights fuel h s n) /\ Forall (fun x => 0 <= x <= h) (locator_heights fuel h s n) /\
  head (locator_heights fuel h s n) = Some h.
Proof.
  revert h s n. induction fuel as [|fuel IH]; intros h s n Hh Hs; cbn [locator_heights].
  - assert (h = 0) as -> by lia. split_and!; try done; repeat constructor; lia.
  - destruct (Z.eqb_spec h 0) as [->|Hne]; [split_and!; try done; repeat constructor; lia|].
    destruct (IH (Z.max (h - s) 0) (if (9 <? n)%nat then s * 2 else s) (S n)) as (H1 & H2 & H3 & H4);
      [lia|destruct (9 <? n)%nat; lia|].
    split_and!; [|constructor; [done|]|constructor; [lia|]|done].
    + by rewrite last_cons, H1.
    + eapply Forall_impl; [|exact H3]. cbn. lia.
    + eapply Forall_impl; [|exact H3]. cbn. lia.
Qed.

(** Block locators.  The locator of a block, computed partly from the array of the
    active chain and partly by the skip list, lists hashes of the block's own
    ancestors at strictly decreasing heights, from the block itself down to the
    genesis block, and has at most [12 + log2 height] entries. *)
Theorem GetLocator_correct (m : index) (c : CChain) (p : ptr) (b : CBlockIndex) :
  tree_ok m -> skips_ok m -> chain_ok m c -> m !! p = Some b -> nHeight b < 2 ^ 31 - 1 ->
  exists hs, GetLocator m c (Some p) = Some (map (hash_at m p) hs) /\
    head hs = Some (nHeight b) /\ list.last hs = Some 0 /\ StronglySorted Z.gt hs /\
    Forall (fun h => 0 <= h <= nHeight b) hs /\
    (length hs <= 12 + Z.to_nat (Z.log2 (nHeight b)))%nat.
Proof.
  intros Ht Hs Hc Hp Hb. pose proof (height_nonneg m Ht p b Hp) as Hh.
  exists (locator_heights (Z.to_nat (nHeight b)) (nHeight b) 1 0). split.
  { unfold GetLocator. rewrite Hp. cbn [mbind option_bind].
    rewrite (locator_loop_spec m Ht Hs c p b _ p (nHeight b)) by
      (done || lia || (by apply (ancestor_self m Ht p b)) || (right; lia)). done. }
  destruct (locator_heights_shape (Z.to_nat (nHeight b)) (nHeight b) 1 0) as (H1 & H2 & H3 & H4); [lia|lia|].
  split_and!; try done.
  pose proof (locator_heights_start 10 (S (Z.to_nat (Z.log2 (nHeight b)))) (Z.to_nat (nHeight b)) (nHeight b) 0) as Hl.
  pose proof (Z.log2_nonneg (nHeight b)).
  replace (Z.of_nat (S (Z.to_nat (Z.log2 (nHeight b))))) with (Z.succ (Z.log2 (nHeight b))) in Hl by lia.
  assert (nHeight b < 2 ^ Z.succ (Z.log2 (nHeight b))).
  { destruct (Z.eq_dec (nHeight b) 0) as [->|]; [cbn; lia|]. apply Z.log2_spec. lia. }
  specialize (Hl eq_refl ltac:(lia) ltac:(lia)). lia.
Qed.

Lemma GetLocator_correct_witness :
  GetLocator sample_index sample_chain (Some 33%nat) =
    Some (map (fun h => [h]) [23; 22; 21; 20; 19; 18; 17; 16; 15; 14; 13; 12; 10; 6; 0]) /\
  exists hs, GetLocator sample_index sample_chain (Some 33%nat) = Some (map (hash_at sample_index 33) hs).
Proof.
  split; [vm_compute; reflexivity|].
  destruct (GetLocator_correct sample_index sample_chain 33 (sample_at 33) (proj1 sample_index_ok) (proj2 sample_index_ok))
    as (hs & H & _).
  - right. exists 30%nat, (sample_at 30). split; [vm_compute; reflexivity|done].
  - vm_compute. reflexivity.
  - vm_compute. reflexivity.
  - by exists hs.
Defined.
