(* ===== verification/VersionBits.v ===== *)
(** * Version bits: deployment of consensus changes
    (src/src/versionbits.cpp, src/src/versionbits.h)

    Miners signal a change in block versions; period by period a state machine
    decides whether it is locked in.  States are computed on demand, walking back
    to a block whose state is cached and forward again.  The reference is the state
    machine run from the genesis block, without cache or shortcut.  The theorems:
    the computation agrees with it for every valid cache, and leaves the cache
    valid; the machine only moves forward, and a change becomes active only after
    a period with enough signals. *)

From stdpp Require Import gmap sorting.
From S2P Require Import Prelude Chain.
From S2P Require Pow.
Local Open Scope cxx_scope.

Definition VERSIONBITS_TOP_BITS : Z := 0x20000000.
Definition VERSIONBITS_TOP_MASK : Z := i32 0xE0000000.

Inductive ThresholdState : Type :=
  THRESHOLD_DEFINED | THRESHOLD_STARTED | THRESHOLD_LOCKED_IN | THRESHOLD_ACTIVE | THRESHOLD_FAILED.

#[global] Instance ThresholdState_eq_dec : EqDecision ThresholdState.
Proof. solve_decision. Defined.

(** Indexed by the parent of the first block of a period, null for the genesis
    block's. *)
Abbreviation ThresholdConditionCache := (gmap (option nat) ThresholdState).

(** The virtual functions, for given consensus parameters. *)
Record AbstractThresholdConditionChecker : Type := {
  Condition : Pow.CBlockIndex -> bool;
  BeginTime : Z;
  EndTime : Z;
  Period : Z;
  Threshold : Z;
}.

Section Checker.
Context (m : index) (c : AbstractThresholdConditionChecker).

(** [pindex->GetMedianTimePast()] *)
Definition MedianTimePast (p : ptr) : Z := Pow.GetMedianTimePast (view m p).

(** [for (i = 0; i < nPeriod; i++)]; [None] is a null pointer dereferenced. *)
Fixpoint count_loop (n : nat) (pindexCount : option ptr) (count : Z) : option Z :=
  match n with
  | O => Some count
  | S n =>
      p ← pindexCount;
      b ← m !! p;
      count_loop n (pprev b) (if Condition c (entry b) then count + 1 else count)
  end.

(** The [switch]. *)
Definition next_state (state : ThresholdState) (p : ptr) : option ThresholdState :=
  match state with
  | THRESHOLD_DEFINED =>
      Some (if EndTime c <=? MedianTimePast p then THRESHOLD_FAILED
            else if BeginTime c <=? MedianTimePast p then THRESHOLD_STARTED else THRESHOLD_DEFINED)
  | THRESHOLD_STARTED =>
      if EndTime c <=? MedianTimePast p then Some THRESHOLD_FAILED
      else
        count ← count_loop (Z.to_nat (Period c)) (Some p) 0;
        Some (if Threshold c <=? count then THRESHOLD_LOCKED_IN else THRESHOLD_STARTED)
  | THRESHOLD_LOCKED_IN => Some THRESHOLD_ACTIVE
  | THRESHOLD_FAILED => Some THRESHOLD_FAILED
  | THRESHOLD_ACTIVE => Some THRESHOLD_ACTIVE
  end.

(** [while (cache.count(pindexPrev) == 0)]; [vToCompute] is a stack. *)
Fixpoint walk_back (fuel : nat) (cache : ThresholdConditionCache) (pindexPrev : option ptr) (vToCompute : list ptr)
  : option (ThresholdConditionCache * option ptr * list ptr) :=
  match cache !! pindexPrev with
  | Some _ => Some (cache, pindexPrev, vToCompute)
  | None =>
      match pindexPrev with
      | None => Some (<[None := THRESHOLD_DEFINED]> cache, None, vToCompute)
      | Some p =>
          if MedianTimePast p <? BeginTime c then Some (<[Some p := THRESHOLD_DEFINED]> cache, Some p, vToCompute)
          else
            match fuel with
            | O => None
            | S fuel =>
                b ← m !! p;
                prev ← GetAncestor m p (nHeight b - Period c);
                walk_back fuel cache prev (p :: vToCompute)
            end
      end
  end.

(** [while (!vToCompute.empty())] *)
Fixpoint compute (cache : ThresholdConditionCache) (state : ThresholdState) (vToCompute : list ptr)
  : option (ThresholdState * ThresholdConditionCache) :=
  match vToCompute with
  | [] => Some (state, cache)
  | p :: vToCompute =>
      stateNext ← next_state state p;
      compute (<[Some p := stateNext]> cache) stateNext vToCompute
  end.

(** The last block of the last full period, [None] if there is none. *)
Definition period_parent (pindexPrev : option ptr) : option (option ptr) :=
  match pindexPrev with
  | None => Some None
  | Some p => b ← m !! p; GetAncestor m p (nHeight b - Z.rem (nHeight b + 1) (Period c))
  end.

Definition walk_fuel (pindexPrev : option ptr) : nat :=
  match pindexPrev with
  | None => 0
  | Some p => match m !! p with Some b => Z.to_nat (nHeight b + 1) | None => 0 end
  end.

Definition GetStateFor (pindexPrev : option ptr) (cache : ThresholdConditionCache)
  : option (ThresholdState * ThresholdConditionCache) :=
  pindexPrev ← period_parent pindexPrev;
  r ← walk_back (walk_fuel pindexPrev) cache pindexPrev [];
  let '(cache, pindexPrev, vToCompute) := r in
  state ← cache !! pindexPrev;
  compute cache state vToCompute.

(** [while (previousPeriodParent != NULL && GetStateFor(...) == initialState)]:
    the block found and the cache. *)
Fixpoint since_loop (fuel : nat) (initialState : ThresholdState) (pindexPrev : ptr) (previousPeriodParent : option ptr)
    (cache : ThresholdConditionCache) : option (ptr * ThresholdConditionCache) :=
  match previousPeriodParent with
  | None => Some (pindexPrev, cache)
  | Some q =>
      r ← GetStateFor (Some q) cache;
      if bool_decide (fst r = initialState) then
        match fuel with
        | O => None
        | S fuel =>
            b ← m !! q;
            prev ← GetAncestor m q (nHeight b - Period c);
            since_loop fuel initialState q prev (snd r)
        end
      else Some (pindexPrev, snd r)
  end.

Definition GetStateSinceHeightFor (pindexPrev : option ptr) (cache : ThresholdConditionCache)
  : option (Z * ThresholdConditionCache) :=
  r ← GetStateFor pindexPrev cache;
  let '(initialState, cache) := r in
  if bool_decide (initialState = THRESHOLD_DEFINED) then Some (0, cache)
  else
    parent ← period_parent pindexPrev;
    p ← parent;
    b ← m !! p;
    previousPeriodParent ← GetAncestor m p (nHeight b - Period c);
    r ← since_loop (Z.to_nat (nHeight b + 1)) initialState p previousPeriodParent cache;
    b ← m !! fst r;
    Some (nHeight b + 1, snd r).

(** [while (pindexCount && pindexCount->nHeight != nStopHeight)] *)
Fixpoint window_loop (fuel : nat) (nStopHeight : Z) (pindexCount : option ptr) (count : Z) : option Z :=
  match pindexCount with
  | None => Some count
  | Some p =>
      b ← m !! p;
      if nHeight b =? nStopHeight then Some count
      else
        match fuel with
        | O => None
        | S fuel => window_loop fuel nStopHeight (pprev b) (if Condition c (entry b) then count + 1 else count)
        end
  end.

Definition CountBlocksInWindow (pindex : ptr) : option Z :=
  b ← m !! pindex;
  window_loop (Z.to_nat (nHeight b + 1)) (nHeight b - Z.rem (nHeight b) (Period c) - 1) (Some pindex) 0.

End Checker.

(** ** Deployments *)

Record BIP9Deployment : Type := {
  bit : Z;
  nStartTime : Z;
  nTimeout : Z;
  nWindowSize : Z;
  nThreshold : Z;
}.

Definition Mask (d : BIP9Deployment) : Z := u32 (1 .<< bit d).

Definition VersionBitsConditionChecker (d : BIP9Deployment) (nMinerConfirmationWindow nRuleChangeActivationThreshold : Z)
  : AbstractThresholdConditionChecker :=
  {| Condition pindex :=
       (i32 (Pow.nVersion pindex .& VERSIONBITS_TOP_MASK) =? VERSIONBITS_TOP_BITS) &&
       negb (u32 (Pow.nVersion pindex) .& Mask d =? 0);
     BeginTime := nStartTime d;
     EndTime := nTimeout d;
     Period := i32 (if nz (nWindowSize d) then nWindowSize d else nMinerConfirmationWindow);
     Threshold := i32 (if nz (nThreshold d) then nThreshold d else nRuleChangeActivationThreshold) |}.

(** ** The state machine, run from the genesis block *)

Section Reference.
Context (m : index) (c : AbstractThresholdConditionChecker).

Definition signals (p : ptr) : Z := Z.of_nat (length (List.filter (Condition c) (take (Z.to_nat (Period c)) (view m p)))).

(** What the period ending with block [p] does to the state. *)
Definition transition (state : ThresholdState) (p : ptr) : ThresholdState :=
  match state with
  | THRESHOLD_DEFINED =>
      if EndTime c <=? MedianTimePast m p then THRESHOLD_FAILED
      else if BeginTime c <=? MedianTimePast m p then THRESHOLD_STARTED else THRESHOLD_DEFINED
  | THRESHOLD_STARTED =>
      if EndTime c <=? MedianTimePast m p then THRESHOLD_FAILED
      else if Threshold c <=? signals p then THRESHOLD_LOCKED_IN else THRESHOLD_STARTED
  | THRESHOLD_LOCKED_IN => THRESHOLD_ACTIVE
  | THRESHOLD_FAILED => THRESHOLD_FAILED
  | THRESHOLD_ACTIVE => THRESHOLD_ACTIVE
  end.

(** The last block of the [k]-th period of the branch of [p]. *)
Definition period_end (p : ptr) (k : nat) : option ptr := ancestor m p (Period c * Z.of_nat k - 1).

Fixpoint state_after (p : ptr) (k : nat) : ThresholdState :=
  match k with
  | O => THRESHOLD_DEFINED
  | S k => match period_end p (S k) with
           | Some q => transition (state_after p k) q
           | None => state_after p k
           end
  end.

(** Full periods of a branch, and the state of a block whose parent is given. *)
Definition periods (p : ptr) : nat :=
  match m !! p with Some b => Z.to_nat ((nHeight b + 1) / Period c) | None => 0 end.
Definition state_of (pindexPrev : option ptr) : ThresholdState :=
  match pindexPrev with None => THRESHOLD_DEFINED | Some p => state_after p (periods p) end.

(** A cache built by these functions: states of ends of periods. *)
Definition cache_valid (cache : ThresholdConditionCache) : Prop :=
  map_Forall (fun key st =>
    st = state_of key /\
    match key with None => True | Some p => exists b, m !! p = Some b /\ (nHeight b + 1) mod Period c = 0 end) cache.

End Reference.

(** A header is accepted only if its time is above the median time of its parent
    ([ContextualCheckBlockHeader] of src/src/validation.cpp). *)
Definition times_accepted (m : index) : Prop :=
  map_Forall (fun _ b => forall q, pprev b = Some q -> MedianTimePast m q < Pow.nTime (entry b)) m.

Record checker_ok (c : AbstractThresholdConditionChecker) : Prop := {
  period_pos : 0 < Period c;
  begin_end : BeginTime c <= EndTime c;
}.

(** The order of the states. *)
Definition rank (s : ThresholdState) : nat :=
  match s with THRESHOLD_DEFINED => 0 | THRESHOLD_STARTED => 1 | THRESHOLD_LOCKED_IN => 2 | THRESHOLD_ACTIVE => 3 | THRESHOLD_FAILED => 4 end.

#[export] Instance rank_inj : Inj eq eq rank.
Proof. by intros [] []. Qed.

(** ** Median times *)

Definition below (v : Z) (l : list Z) : nat := length (List.filter (fun x => x <? v) l).

Lemma below_cons v x l : below v (x :: l) = ((if (x <? v)%Z then 1 else 0) + below v l)%nat.
Proof. unfold below. cbn. by destruct (x <? v). Qed.

Lemma below_perm v l k : l ≡ₚ k -> below v l = below v k.
Proof. induction 1; rewrite ?below_cons; lia. Qed.

Lemma below_take v n l : (below v (take n l) <= below v l)%nat.
Proof. revert n. induction l as [|x l IH]; intros [|n]; cbn [take]; try (unfold below; cbn; lia). rewrite !below_cons. specialize (IH n). lia. Qed.

(** Position [i] of a sorted list is at least [v] when at most [i] elements are below [v]. *)
Lemma sorted_below v l i : StronglySorted Z.le l -> (i < length l)%nat -> (below v l <= i)%nat <-> v <= aget l i.
Proof.
  intros Hs. revert i. induction Hs as [|x l _ IH Hx]; intros i Hi; [cbn in Hi; lia|].
  rewrite below_cons. destruct i as [|i]; cbn [aget nth].
  - destruct (Z.ltb_spec x v); [cbn; lia|]. split; [lia|]. intros _.
    enough (below v l = 0%nat) by lia. unfold below. clear IH Hi. induction Hx as [|y l Hy _ IH]; [done|].
    cbn. destruct (Z.ltb_spec y v); [lia|done].
  - cbn in Hi. specialize (IH i ltac:(lia)). destruct (Z.ltb_spec x v) as [Hlt|Hge].
    + unfold aget in *. cbn. rewrite <- IH. lia.
    + assert (below v l = 0%nat) as E0.
      { clear IH Hi. unfold below. induction Hx as [|y l Hy _ IH]; [done|]. cbn. destruct (Z.ltb_spec y v); [lia|done]. }
      rewrite E0 in *. unfold aget in *. cbn. split; [intros _; apply IH; lia|lia].
Qed.

Lemma median_spec v l : (0 < length l)%nat ->
  (below v l <= length l / 2)%nat <-> v <= aget (merge_sort Z.le l) (length l / 2).
Proof.
  intros Hl. rewrite (below_perm v l (merge_sort Z.le l)) by (symmetry; apply merge_sort_Permutation).
  apply sorted_below; [apply (StronglySorted_merge_sort _)|].
  rewrite (Permutation_length (merge_sort_Permutation Z.le l)). apply Nat.div_lt; lia.
Qed.

(** The window of times. *)
Definition window (l : Pow.pindex) : list Z := map Pow.nTime (take Pow.nMedianTimeSpan l).

Lemma MedianTimePast_spec v l : l <> [] ->
  (below v (window l) <= length (window l) / 2)%nat <-> v <= Pow.GetMedianTimePast l.
Proof.
  intros Hl. rewrite (below_perm v (window l) (reverse (window l))) by (symmetry; apply reverse_Permutation).
  rewrite <- (length_reverse (window l)). rewrite median_spec.
  - unfold Pow.GetMedianTimePast. fold (window l).
    by rewrite (Permutation_length (merge_sort_Permutation Z.le (reverse (window l)))).
  - rewrite length_reverse. destruct l; [done|]. unfold window. cbn. lia.
Qed.

(** A block later than the median time of its parent does not move it back. *)
Lemma MedianTimePast_grows b l : l <> [] -> Pow.GetMedianTimePast l < Pow.nTime b ->
  Pow.GetMedianTimePast l <= Pow.GetMedianTimePast (b :: l).
Proof.
  intros Hl Hb. apply MedianTimePast_spec; [done|].
  pose proof (proj2 (MedianTimePast_spec (Pow.GetMedianTimePast l) l Hl) ltac:(lia)) as H.
  assert (window (b :: l) = Pow.nTime b :: take 10 (window l)) as -> by (unfold window; rewrite firstn_map, firstn_firstn; done).
  rewrite below_cons. rewrite (proj2 (Z.ltb_ge _ _)) by lia.
  pose proof (below_take (Pow.GetMedianTimePast l) 10 (window l)).
  assert (length (window l) / 2 <= length (Pow.nTime b :: take 10 (window l)) / 2)%nat; [|lia].
  apply Nat.Div0.div_le_mono. cbn [length]. rewrite length_take.
  unfold window. rewrite length_map, length_take. change Pow.nMedianTimeSpan with 11%nat. lia.
Qed.

(** Median times never decrease from a block to its children. *)
Lemma times_ordered (m : index) p b q : tree_ok m -> times_accepted m -> m !! p = Some b -> pprev b = Some q ->
  MedianTimePast m q <= MedianTimePast m p.
Proof.
  intros Ht Ha Hp Hq. destruct (node_at m Ht p b Hp) as [_ Hn]. rewrite Hq in Hn. destruct Hn as (d & Hd & _).
  unfold MedianTimePast. rewrite (view_cons m Ht p b Hp), Hq. apply MedianTimePast_grows; [|exact (Ha p b Hp q Hq)].
  rewrite (view_cons m Ht q d Hd). by destruct (pprev d).
Qed.

(** ** The computation agrees with the machine *)

Section Correct.
Context (m : index) (Htree : tree_ok m) (Hskip : skips_ok m).
Context (c : AbstractThresholdConditionChecker) (Hc : checker_ok c).

Local Abbreviation P := (Period c).

Lemma count_loop_spec n p b count : m !! p = Some b -> Z.of_nat n <= nHeight b + 1 ->
  count_loop m c n (Some p) count = Some (count + Z.of_nat (length (List.filter (Condition c) (take n (view m p))))).
Proof using Htree.
  revert p b count. induction n as [|n IH]; intros p b count Hp Hn; cbn [count_loop]; [by rewrite take_0, Z.add_0_r|].
  cbn [mbind option_bind]. rewrite Hp. cbn [mbind option_bind]. rewrite (view_cons m Htree p b Hp). cbn [take List.filter].
  destruct (pprev b) as [q|] eqn:Eq.
  - destruct (node_at m Htree p b Hp) as [_ Hq]. rewrite Eq in Hq. destruct Hq as (d & Hd & E).
    rewrite (IH q d) by (done || lia). f_equal. destruct (Condition c (entry b)); cbn [length]; lia.
  - destruct (node_at m Htree p b Hp) as [_ H0]. rewrite Eq in H0. simpl in H0. assert (n = 0%nat) as -> by (unfold nHeight in *; lia).
    cbn. f_equal. destruct (Condition c (entry b)); cbn [length]; lia.
Qed.

Lemma next_state_spec state p b : m !! p = Some b -> P <= nHeight b + 1 ->
  next_state m c state p = Some (transition m c state p).
Proof using Htree Hc.
  intros Hp Hn. pose proof (period_pos c Hc). destruct state; try done.
  cbn [next_state transition]. destruct (EndTime c <=? MedianTimePast m p); [done|].
  rewrite (count_loop_spec _ p b) by (done || lia). cbn. by rewrite Z.add_0_l.
Qed.

(** *** Ends of periods *)

Section Branch.
Context (p : ptr) (b : CBlockIndex) (Hp : m !! p = Some b).

Local Abbreviation within k := (P * Z.of_nat k - 1 <= nHeight b).

Lemma period_end_0 : period_end m c p 0 = None.
Proof using Hp. unfold period_end, ancestor. rewrite Hp. cbn. rewrite Z.mul_0_r. cbn. by rewrite orb_true_r. Qed.

Lemma period_end_S k : within (S k) ->
  exists q d, period_end m c p (S k) = Some q /\ m !! q = Some d /\ nHeight d = P * Z.of_nat (S k) - 1.
Proof using Htree Hc Hp. intros Hk. pose proof (period_pos c Hc). apply (ancestor_total m Htree p b); [done|nia]. Qed.

Lemma period_end_via q h k : ancestor m p h = Some q -> P * Z.of_nat k - 1 <= h <= nHeight b ->
  period_end m c q k = period_end m c p k.
Proof using Htree Hc Hp.
  intros Hq Hh. destruct k as [|k].
  - assert (0 <= h).
    { unfold ancestor in Hq. rewrite Hp in Hq. cbn in Hq. destruct (Z.ltb_spec h 0); [by rewrite orb_true_r in Hq|lia]. }
    destruct (ancestor_total m Htree p b h Hp ltac:(lia)) as (q' & d & Hq' & Hd & _).
    assert (q' = q) as -> by congruence. rewrite period_end_0. unfold period_end, ancestor. rewrite Hd. cbn.
    rewrite Z.mul_0_r. cbn. by rewrite orb_true_r.
  - pose proof (period_pos c Hc). apply (ancestor_via m Htree p b q h); (done || nia).
Qed.

Lemma state_after_via q h k : ancestor m p h = Some q -> P * Z.of_nat k - 1 <= h <= nHeight b ->
  state_after m c q k = state_after m c p k.
Proof using Htree Hc Hp.
  intros Hq Hh. pose proof (period_pos c Hc). induction k as [|k IH]; [done|]. cbn [state_after].
  rewrite (period_end_via q h (S k)) by done. rewrite IH by nia. done.
Qed.

(** The state kept under the end of a period is the state after it. *)
Lemma state_of_end k : within k -> state_of m c (period_end m c p k) = state_after m c p k.
Proof using Htree Hc Hp.
  intros Hk. pose proof (period_pos c Hc). destruct k as [|k]; [by rewrite period_end_0|].
  destruct (period_end_S k Hk) as (q & d & Hq & Hd & E). rewrite Hq. cbn [state_of].
  replace (periods m c q) with (S k).
  - apply (state_after_via q (P * Z.of_nat (S k) - 1)); [done|lia].
  - unfold periods. rewrite Hd, E. replace (P * Z.of_nat (S k) - 1 + 1) with (Z.of_nat (S k) * P) by lia.
    rewrite Z.div_mul by lia. lia.
Qed.

Lemma previous_period k q d : within (S k) -> period_end m c p (S k) = Some q -> m !! q = Some d ->
  nHeight d = P * Z.of_nat (S k) - 1 ->
  GetAncestor m q (nHeight d - P) = Some (period_end m c p k).
Proof using Htree Hskip Hc Hp.
  intros Hk Hq Hd E. pose proof (period_pos c Hc). rewrite (GetAncestor_spec m Htree Hskip q d) by done. f_equal.
  rewrite <- (period_end_via q (P * Z.of_nat (S k) - 1) k Hq) by nia.
  unfold period_end. f_equal. nia.
Qed.

(** *** Median times along a branch *)

Context (Htimes : times_accepted m).

Lemma times_up n q d r : m !! q = Some d -> up n m q = Some r -> MedianTimePast m r <= MedianTimePast m q.
Proof using Htree Htimes.
  clear Hp. revert q d. induction n as [|n IH]; intros q d Hd Hr; [cbn in Hr; simplify_eq; lia|].
  cbn [up] in Hr. rewrite Hd in Hr. cbn in Hr. destruct (pprev d) as [s|] eqn:Es; [|done]. cbn in Hr.
  destruct (node_at m Htree q d Hd) as [_ Hs]. rewrite Es in Hs. destruct Hs as (e & He & _).
  pose proof (IH s e He Hr). pose proof (times_ordered m q d s Htree Htimes Hd Es). cbn in *. lia.
Qed.

Lemma times_before k j q r : within (S k) -> (j <= k)%nat ->
  period_end m c p (S k) = Some q -> period_end m c p (S j) = Some r -> MedianTimePast m r <= MedianTimePast m q.
Proof using Htree Hc Hp Htimes.
  intros Hk Hj Hq Hr. pose proof (period_pos c Hc).
  destruct (period_end_S k Hk) as (q' & d & Hq' & Hd & E). assert (q' = q) as -> by congruence.
  rewrite <- (period_end_via q (P * Z.of_nat (S k) - 1) (S j) Hq) in Hr by nia.
  unfold period_end, ancestor in Hr. rewrite Hd in Hr. cbn in Hr.
  destruct (_ || _) in Hr; [done|]. exact (times_up _ q d r Hd Hr).
Qed.

(** The shortcut of the walk back. *)
Lemma defined_before k q : within (S k) -> period_end m c p (S k) = Some q ->
  MedianTimePast m q < BeginTime c -> state_after m c p (S k) = THRESHOLD_DEFINED.
Proof using Htree Hc Hp Htimes.
  intros Hk Hq Ht. pose proof (period_pos c Hc) as HP. pose proof (begin_end c Hc).
  assert (forall j, (j <= S k)%nat -> state_after m c p j = THRESHOLD_DEFINED) as H0; [|by apply H0].
  induction j as [|j IH]; [done|]. intros Hj. cbn [state_after]. rewrite IH by lia.
  destruct (period_end_S j ltac:(nia)) as (r & d & Hr & Hd & E). rewrite Hr. cbn [transition].
  pose proof (times_before k j q r Hk ltac:(lia) Hq Hr).
  rewrite !(proj2 (Z.leb_gt _ _)) by lia. done.
Qed.

(** *** The two loops *)

Definition ends (i n : nat) : list ptr := omap (period_end m c p) (seq i n).

Lemma cache_insert (cache : ThresholdConditionCache) k : cache_valid m c cache -> within k ->
  cache_valid m c (<[period_end m c p k := state_after m c p k]> cache).
Proof using Htree Hc Hp.
  intros Hv Hk. pose proof (period_pos c Hc). apply map_Forall_insert_2; [|done]. rewrite <- (state_of_end k Hk). split; [done|].
  destruct k as [|k]; [by rewrite period_end_0|].
  destruct (period_end_S k Hk) as (q & d & Hq & Hd & E). rewrite Hq. exists d. split; [done|]. rewrite E.
  replace (P * Z.of_nat (S k) - 1 + 1) with (Z.of_nat (S k) * P) by lia. apply Z.mod_mul. lia.
Qed.

Lemma cache_lookup (cache : ThresholdConditionCache) k st : cache_valid m c cache -> within k ->
  cache !! period_end m c p k = Some st -> st = state_after m c p k.
Proof using Htree Hc Hp. intros Hv Hk Hl. rewrite <- (state_of_end k Hk). by apply (Hv _ _ Hl). Qed.

Lemma walk_back_spec fuel cache k stack : cache_valid m c cache -> within k -> (k <= fuel)%nat ->
  exists j cache', (j <= k)%nat /\
    walk_back m c fuel cache (period_end m c p k) stack = Some (cache', period_end m c p j, ends (S j) (k - j) ++ stack) /\
    cache_valid m c cache' /\ cache' !! period_end m c p j = Some (state_after m c p j).
Proof using Htree Hskip Hc Hp Htimes.
  pose proof (period_pos c Hc) as HP.
  revert cache k stack. induction fuel as [|fuel IH]; intros cache k stack Hv Hk Hf;
    (* found, or nothing before *)
    (destruct (cache !! period_end m c p k) as [st|] eqn:El;
     [exists k, cache; rewrite Nat.sub_diag; split_and!;
       [lia|cbn [walk_back]; by rewrite El|done|by rewrite El, (cache_lookup cache k st Hv Hk El)]|]);
    (destruct k as [|k];
     [exists 0%nat, (<[None := THRESHOLD_DEFINED]> cache); pose proof (cache_insert cache 0 Hv Hk) as Hi;
       rewrite period_end_0 in El, Hi |- *; split_and!;
       [lia|cbn [walk_back]; by rewrite El|exact Hi|by rewrite lookup_insert_eq]|]); [lia|].
  destruct (period_end_S k Hk) as (q & d & Hq & Hd & E).
  rewrite Hq in El |- *. cbn [walk_back]. rewrite El.
  destruct (Z.ltb_spec (MedianTimePast m q) (BeginTime c)) as [Ht|Ht].
  - exists (S k), (<[Some q := THRESHOLD_DEFINED]> cache). rewrite Nat.sub_diag, Hq.
    pose proof (cache_insert cache (S k) Hv Hk) as Hi. rewrite (defined_before k q Hk Hq Ht) in Hi |- *. rewrite Hq in Hi.
    split_and!; [lia|done|done|by rewrite lookup_insert_eq].
  - rewrite Hd. cbn. rewrite (previous_period k q d Hk Hq Hd E). cbn.
    destruct (IH cache k (q :: stack) Hv ltac:(nia) ltac:(lia)) as (j & cache' & Hj & Ew & Hv' & Hl).
    exists j, cache'. split_and!; [lia| |done|done]. rewrite Ew. do 2 f_equal.
    replace (S k - j)%nat with ((k - j) + 1)%nat by lia. unfold ends. rewrite seq_app, omap_app.
    replace (S j + (k - j))%nat with (S k) by lia. cbn [seq omap list_omap]. rewrite Hq. by rewrite <- app_assoc.
Qed.

Lemma compute_spec (n j : nat) (cache : ThresholdConditionCache) : cache_valid m c cache -> within (j + n)%nat ->
  exists cache', compute m c cache (state_after m c p j) (ends (S j) n) = Some (state_after m c p (j + n), cache') /\
    cache_valid m c cache' /\
    ((0 < n)%nat \/ cache !! period_end m c p j = Some (state_after m c p j) ->
     cache' !! period_end m c p (j + n) = Some (state_after m c p (j + n))).
Proof using Htree Hc Hp.
  pose proof (period_pos c Hc) as HP.
  revert j cache. induction n as [|n IH]; intros j cache Hv Hk.
  - exists cache. rewrite Nat.add_0_r. split_and!; [done|done|intros [?|?]; [lia|done]].
  - destruct (period_end_S j ltac:(nia)) as (q & d & Hq & Hd & E).
    assert (ends (S j) (S n) = q :: ends (S (S j)) n) as Ee by (unfold ends; cbn [seq omap list_omap]; by rewrite Hq).
    rewrite Ee. cbn [compute]. rewrite (next_state_spec _ q d) by (done || nia). cbn [mbind option_bind].
    pose proof (cache_insert cache (S j) Hv ltac:(nia)) as Hi. rewrite Hq in Hi.
    assert (state_after m c p (S j) = transition m c (state_after m c p j) q) as Es by (cbn [state_after]; by rewrite Hq).
    destruct (IH (S j) _ Hi ltac:(nia)) as (cache' & Ec & Hv' & Hl). rewrite <- Nat.add_succ_comm in *.
    exists cache'. rewrite <- Es. split_and!; [done|done|]. intros _. apply Hl. right. rewrite Hq. apply lookup_insert_eq.
Qed.

End Branch.

Lemma period_parent_spec p b : m !! p = Some b ->
  period_parent m c (Some p) = Some (period_end m c p (periods m c p)) /\ P * Z.of_nat (periods m c p) - 1 <= nHeight b.
Proof using Htree Hskip Hc.
  intros Hp. pose proof (height_nonneg m Htree p b Hp). pose proof (period_pos c Hc).
  cbn [period_parent]. rewrite Hp. cbn [mbind option_bind]. rewrite (GetAncestor_spec m Htree Hskip p b) by done.
  unfold period_end, periods. rewrite Hp.
  pose proof (Z.div_pos (nHeight b + 1) P ltac:(lia) ltac:(lia)).
  pose proof (Z.div_mod (nHeight b + 1) P ltac:(lia)). pose proof (Z.mod_pos_bound (nHeight b + 1) P ltac:(lia)).
  rewrite Z.rem_mod_nonneg by lia. rewrite Z2Nat.id by done. split; [|lia]. do 2 f_equal. lia.
Qed.

Lemma walk_fuel_enough p b : m !! p = Some b -> P * Z.of_nat (periods m c p) - 1 <= nHeight b ->
  (periods m c p <= walk_fuel m (period_end m c p (periods m c p)))%nat.
Proof using Htree Hc.
  intros Hp Hk. pose proof (period_pos c Hc). destruct (periods m c p) as [|k]; [lia|].
  destruct (period_end_S p b Hp k Hk) as (q & d & Hq & Hd & E). rewrite Hq. cbn [walk_fuel]. rewrite Hd, E. nia.
Qed.

(** [GetStateFor] on a branch, cache entry of the answer included. *)
Lemma GetStateFor_spec (Htimes : times_accepted m) (p : ptr) (b : CBlockIndex) (cache : ThresholdConditionCache) : m !! p = Some b -> cache_valid m c cache ->
  exists cache', GetStateFor m c (Some p) cache = Some (state_after m c p (periods m c p), cache') /\ cache_valid m c cache'.
Proof using Htree Hskip Hc.
  intros Hp Hv. destruct (period_parent_spec p b Hp) as [E Hk]. unfold GetStateFor. rewrite E. cbn [mbind option_bind].
  destruct (walk_back_spec p b Hp Htimes (walk_fuel m (period_end m c p (periods m c p))) cache (periods m c p) [] Hv Hk
              (walk_fuel_enough p b Hp Hk)) as (j & cache1 & Hj & -> & Hv1 & Hl).
  cbn [mbind option_bind]. rewrite Hl, app_nil_r. cbn [mbind option_bind].
  destruct (compute_spec p b Hp (periods m c p - j) j cache1 Hv1) as (cache2 & Ec & Hv2 & _).
  - replace (j + (periods m c p - j))%nat with (periods m c p) by lia. done.
  - replace (j + (periods m c p - j))%nat with (periods m c p) in Ec by lia. by exists cache2.
Qed.

Lemma GetStateFor_end (Htimes : times_accepted m) (p : ptr) (b : CBlockIndex) (k : nat) (cache : ThresholdConditionCache) : m !! p = Some b -> P * Z.of_nat (S k) - 1 <= nHeight b ->
  cache_valid m c cache ->
  exists cache', GetStateFor m c (period_end m c p (S k)) cache = Some (state_after m c p (S k), cache') /\ cache_valid m c cache'.
Proof using Htree Hskip Hc.
  intros Hp Hk Hv. destruct (period_end_S p b Hp k Hk) as (q & d & Hq & Hd & E).
  pose proof (state_of_end p b Hp (S k) Hk) as Es. rewrite Hq in Es |- *. cbn [state_of] in Es. rewrite <- Es.
  by apply (GetStateFor_spec Htimes q d).
Qed.

(** *** The state machine *)


Lemma transition_rank s q : (rank s <= rank (transition m c s q))%nat.
Proof. destruct s; cbn [transition]; repeat case_match; cbn; lia. Qed.

Lemma state_after_rank p i k : (i <= k)%nat -> (rank (state_after m c p i) <= rank (state_after m c p k))%nat.
Proof.
  induction 1 as [|k _ IH]; [done|]. cbn [state_after]. destruct (period_end m c p (S k)) as [q|]; [|done].
  pose proof (transition_rank (state_after m c p k) q). lia.
Qed.

(** Periods with the same state are contiguous. *)
Lemma state_after_between p i j k : (i <= j <= k)%nat -> state_after m c p i = state_after m c p k ->
  state_after m c p j = state_after m c p k.
Proof.
  intros Hj E. apply (inj rank). pose proof (state_after_rank p i j ltac:(lia)).
  pose proof (state_after_rank p j k ltac:(lia)). rewrite E in *. lia.
Qed.

Lemma since_loop_spec (Htimes : times_accepted m) (p : ptr) (b : CBlockIndex) (s : ThresholdState) (n fuel k : nat) (q : ptr) (cache : ThresholdConditionCache) :
  m !! p = Some b -> P * Z.of_nat n - 1 <= nHeight b -> s <> THRESHOLD_DEFINED ->
  (k < n)%nat -> (k <= fuel)%nat -> cache_valid m c cache -> period_end m c p (S k) = Some q ->
  state_after m c p (S k) = s ->
  exists j r cache', since_loop m c fuel s q (period_end m c p k) cache = Some (r, cache') /\ cache_valid m c cache' /\
    (j <= k)%nat /\ period_end m c p (S j) = Some r /\ state_after m c p (S j) = s /\ state_after m c p j <> s.
Proof using Htree Hskip Hc.
  intros Hp Hn Hs. pose proof (period_pos c Hc) as HP. revert k q cache.
  induction fuel as [|fuel IH]; intros k q cache Hk Hf Hv Hq Es;
    (destruct k as [|k];
      [exists 0%nat, q, cache; rewrite (period_end_0 p b Hp); split_and!; try done; intros E0; by rewrite <- E0 in Hs|]); [lia|].
  destruct (period_end_S p b Hp k ltac:(nia)) as (r & d & Hr & Hd & E).
  destruct (GetStateFor_end Htimes p b k cache Hp ltac:(nia) Hv) as (cache1 & Eg & Hv1). rewrite Hr in Eg |- *.
  cbn [since_loop]. rewrite Eg. cbn [mbind option_bind fst snd]. case_bool_decide as Ek.
  - rewrite Hd. cbn [mbind option_bind]. rewrite (previous_period p b Hp k r d) by (done || nia). cbn [mbind option_bind].
    destruct (IH k r cache1 ltac:(lia) ltac:(lia) Hv1 Hr Ek) as (j & t & cache2 & H1 & H2 & H3 & H4 & H5 & H6).
    exists j, t, cache2. split_and!; (done || lia).
  - exists (S k), q, cache1. split_and!; done.
Qed.

Lemma window_loop_spec fuel n p b count : m !! p = Some b -> Z.of_nat n <= nHeight b + 1 -> (n <= fuel)%nat ->
  window_loop m c fuel (nHeight b - Z.of_nat n) (Some p) count =
  Some (count + Z.of_nat (length (List.filter (Condition c) (take n (view m p))))).
Proof using Htree.
  revert n p b count. induction fuel as [|fuel IH]; intros n p b count Hp Hn Hf; cbn [window_loop];
    rewrite Hp; cbn [mbind option_bind].
  1: { assert (n = 0%nat) as -> by lia. rewrite Z.sub_0_r, Z.eqb_refl. f_equal. rewrite take_0. cbn. lia. }
  destruct n as [|n]; [rewrite Z.sub_0_r, Z.eqb_refl; f_equal; rewrite take_0; cbn; lia|].
  rewrite (proj2 (Z.eqb_neq _ _)) by lia. rewrite (view_cons m Htree p b Hp). cbn [take List.filter].
  destruct (pprev b) as [q|] eqn:Eq.
  - destruct (node_at m Htree p b Hp) as [_ Hq]. rewrite Eq in Hq. destruct Hq as (d & Hd & E).
    replace (nHeight b - Z.of_nat (S n)) with (nHeight d - Z.of_nat n) by lia.
    rewrite (IH n q d) by (done || lia). f_equal. destruct (Condition c (entry b)); cbn [length]; lia.
  - destruct (node_at m Htree p b Hp) as [_ H0]. rewrite Eq in H0. simpl in H0.
    assert (n = 0%nat) as -> by (unfold nHeight in *; lia). destruct fuel; cbn [window_loop]; f_equal;
      rewrite take_0; destruct (Condition c (entry b)); cbn [length List.filter]; lia.
Qed.

End Correct.

(** ** Final states, and what it takes to be active *)

Lemma final_states m c p i k : (i <= k)%nat ->
  state_after m c p i = THRESHOLD_ACTIVE \/ state_after m c p i = THRESHOLD_FAILED ->
  state_after m c p k = state_after m c p i.
Proof.
  intros Hk Hi. induction Hk as [|k _ IH]; [done|]. cbn [state_after]. rewrite IH.
  by destruct (period_end m c p (S k)), Hi as [-> | ->].
Qed.

Lemma started_after_begin m c p k : state_after m c p k = THRESHOLD_STARTED ->
  exists i q, (i <= k)%nat /\ period_end m c p i = Some q /\ BeginTime c <= MedianTimePast m q.
Proof.
  induction k as [|k IH]; [done|]. cbn [state_after]. destruct (period_end m c p (S k)) as [q|] eqn:Eq.
  - destruct (state_after m c p k) eqn:Es; cbn [transition]; try done.
    + destruct (_ <=? _); [done|]. destruct (Z.leb_spec (BeginTime c) (MedianTimePast m q)); [|done]. intros _. by exists (S k), q.
    + intros _. destruct (IH eq_refl) as (i & r & Hi & Hr & Hb). exists i, r. split_and!; (done || lia).
  - intros Es. destruct (IH Es) as (i & r & Hi & Hr & Hb). exists i, r. split_and!; (done || lia).
Qed.

Lemma locked_in_signalled m c p k : state_after m c p k = THRESHOLD_LOCKED_IN ->
  exists i j q r, (i < j <= k)%nat /\ period_end m c p i = Some q /\ BeginTime c <= MedianTimePast m q /\
    state_after m c p (j - 1) = THRESHOLD_STARTED /\ state_after m c p j = THRESHOLD_LOCKED_IN /\
    period_end m c p j = Some r /\ MedianTimePast m r < EndTime c /\ Threshold c <= signals m c r.
Proof.
  induction k as [|k IH]; [done|]. intros Hk. pose proof Hk as Hk'. cbn [state_after] in Hk.
  destruct (period_end m c p (S k)) as [r|] eqn:Er.
  - destruct (state_after m c p k) eqn:Es; cbn [transition] in Hk; try done.
    + by repeat case_match.
    + destruct (Z.leb_spec (EndTime c) (MedianTimePast m r)); [done|].
      destruct (Z.leb_spec (Threshold c) (signals m c r)); [|done].
      destruct (started_after_begin m c p k Es) as (i & q & Hi & Hq & Hb).
      exists i, (S k), q, r. rewrite Nat.sub_succ, Nat.sub_0_r. split_and!; (done || lia).
  - destruct (IH Hk) as (i & j & q & r & Hij & H). exists i, j, q, r. split; [lia|exact H].
Qed.

Lemma active_signalled m c p k : state_after m c p k = THRESHOLD_ACTIVE ->
  exists i j q r, (i < j < k)%nat /\ period_end m c p i = Some q /\ BeginTime c <= MedianTimePast m q /\
    state_after m c p (j - 1) = THRESHOLD_STARTED /\ state_after m c p j = THRESHOLD_LOCKED_IN /\
    period_end m c p j = Some r /\ MedianTimePast m r < EndTime c /\ Threshold c <= signals m c r.
Proof.
  induction k as [|k IH]; [done|]. cbn [state_after]. destruct (period_end m c p (S k)) as [r|] eqn:Er.
  - destruct (state_after m c p k) eqn:Es; cbn [transition]; intros Hk; try done.
    + by repeat case_match.
    + by repeat case_match.
    + destruct (locked_in_signalled m c p k Es) as (i & j & q & s & Hij & H). exists i, j, q, s. split; [lia|exact H].
    + destruct (IH eq_refl) as (i & j & q & s & Hij & H). exists i, j, q, s. split; [lia|exact H].
  - intros Es. destruct (IH Es) as (i & j & q & s & Hij & H). exists i, j, q, s. split; [lia|exact H].
Qed.

(** C34: Deployment states.  In a well-formed tree of accepted blocks, for every
    cache of states of period ends, [GetStateFor] terminates with the state that the
    machine, run period by period from the genesis block, has after the last full
    period before the block, and leaves such a cache: neither the walk back to a
    cached state, nor its shortcut below the start time, nor the skip list changes
    the answer. *)
Theorem GetStateFor_correct (m : index) (c : AbstractThresholdConditionChecker) (pindexPrev : option ptr)
    (cache : ThresholdConditionCache) :
  tree_ok m -> skips_ok m -> times_accepted m -> checker_ok c -> cache_valid m c cache ->
  (forall p, pindexPrev = Some p -> exists b, m !! p = Some b) ->
  exists cache', GetStateFor m c pindexPrev cache = Some (state_of m c pindexPrev, cache') /\ cache_valid m c cache'.
Proof.
  intros Ht Hs Ha Hc Hv Hp. destruct pindexPrev as [p|].
  - destruct (Hp p eq_refl) as [b Hb]. exact (GetStateFor_spec m Ht Hs c Hc Ha p b cache Hb Hv).
  - unfold GetStateFor. cbn [period_parent mbind option_bind walk_fuel walk_back].
    destruct (cache !! None) as [st|] eqn:E; cbn [mbind option_bind].
    + rewrite E. cbn. exists cache. split; [|done]. by destruct (Hv None st E) as [-> _].
    + rewrite lookup_insert_eq. cbn. exists (<[None := THRESHOLD_DEFINED]> cache). split; [done|]. by apply map_Forall_insert_2.
Qed.

(** The state of an ancestor is a state of the branch. *)
Lemma state_of_ancestor (m : index) (c : AbstractThresholdConditionChecker) (p q : ptr) (b : CBlockIndex) (h : Z) :
  tree_ok m -> checker_ok c -> m !! p = Some b -> ancestor m p h = Some q ->
  exists d, m !! q = Some d /\ (periods m c q <= periods m c p)%nat /\ state_of m c (Some q) = state_after m c p (periods m c q).
Proof.
  intros Ht Hc Hp Hq. pose proof (period_pos c Hc). pose proof (height_nonneg m Ht p b Hp).
  assert (0 <= h <= nHeight b) as Hh.
  { unfold ancestor in Hq. rewrite Hp in Hq. cbn in Hq. destruct (_ || _) eqn:E in Hq; [done|]. bool_to_prop. lia. }
  destruct (ancestor_total m Ht p b h Hp Hh) as (q' & d & Hq' & Hd & E). assert (q' = q) as -> by congruence.
  exists d. split; [done|]. unfold periods. rewrite Hp, Hd. split.
  - apply Z2Nat.inj_le; [apply Z.div_pos; lia|apply Z.div_pos; lia|]. apply Z.div_le_mono; lia.
  - cbn [state_of]. unfold periods. rewrite Hd. apply (state_after_via m Ht c Hc p b Hp q h); [done|].
    rewrite Z2Nat.id by (apply Z.div_pos; lia). pose proof (Z.mul_div_le (nHeight d + 1) (Period c) ltac:(lia)). lia.
Qed.

(** The life of a deployment.  On any branch of accepted blocks, [GetStateFor] is
    total; the state it gives for a block is never earlier than that for an ancestor,
    and the same if the ancestor's is failed or active; and it answers active only if
    a period of the branch ended after the start time and a later one, which ended
    before the timeout, had at least [Threshold] signalling blocks and locked the
    deployment in. *)
Theorem deployment_lifecycle (m : index) (c : AbstractThresholdConditionChecker) (cache : ThresholdConditionCache)
    (p : ptr) (b : CBlockIndex) :
  tree_ok m -> skips_ok m -> times_accepted m -> checker_ok c -> cache_valid m c cache -> m !! p = Some b ->
  exists s cache', GetStateFor m c (Some p) cache = Some (s, cache') /\
    (forall h q, ancestor m p h = Some q -> exists st cache1, GetStateFor m c (Some q) cache' = Some (st, cache1) /\
       (rank st <= rank s)%nat /\ (st = THRESHOLD_ACTIVE \/ st = THRESHOLD_FAILED -> s = st)) /\
    (s = THRESHOLD_ACTIVE ->
     exists i j q r, (i < j)%nat /\ period_end m c p i = Some q /\ BeginTime c <= MedianTimePast m q /\
       period_end m c p j = Some r /\ MedianTimePast m r < EndTime c /\ Threshold c <= signals m c r /\
       exists cache1, GetStateFor m c (Some r) cache' = Some (THRESHOLD_LOCKED_IN, cache1)).
Proof.
  intros Ht Hs Ha Hc Hv Hp. destruct (GetStateFor_spec m Ht Hs c Hc Ha p b cache Hp Hv) as (cache' & E & Hv').
  eexists _, cache'. split; [exact E|]. split.
  - intros h q Hq. destruct (state_of_ancestor m c p q b h Ht Hc Hp Hq) as (d & Hd & Hle & Es).
    destruct (GetStateFor_spec m Ht Hs c Hc Ha q d cache' Hd Hv') as (cache1 & E1 & _).
    eexists _, cache1. split; [exact E1|]. cbn [state_of] in Es. rewrite Es.
    split; [by apply state_after_rank|]. intros Hf. by apply final_states.
  - intros HA. destruct (active_signalled m c p _ HA) as (i & j & q & r & Hij & Hq & Hb & _ & Hl & Hr & He & Hn).
    destruct (state_of_ancestor m c p r b _ Ht Hc Hp Hr) as (d & Hd & _).
    destruct (GetStateFor_spec m Ht Hs c Hc Ha r d cache' Hd Hv') as (cache1 & E1 & _).
    exists i, j, q, r. split_and!; try done; [lia|]. exists cache1. rewrite E1. do 2 f_equal.
    destruct (period_parent_spec m Ht Hs c Hc p b Hp) as [_ Hk]. pose proof (period_pos c Hc).
    assert (Period c * Z.of_nat j - 1 <= nHeight b) as Hj by nia.
    pose proof (state_of_end m Ht c Hc p b Hp j Hj) as Ee. rewrite Hr in Ee. by rewrite <- Hl.
Qed.

(** Since when.  [GetStateSinceHeightFor] is zero for a deployment still defined,
    and otherwise the height of the first block that has the current state: the
    period that ends below it is the first after which the state is the current
    one. *)
Theorem GetStateSinceHeightFor_correct (m : index) (c : AbstractThresholdConditionChecker) (p : ptr) (b : CBlockIndex)
    (cache : ThresholdConditionCache) :
  tree_ok m -> skips_ok m -> times_accepted m -> checker_ok c -> cache_valid m c cache -> m !! p = Some b ->
  exists k cache', GetStateSinceHeightFor m c (Some p) cache = Some (Period c * Z.of_nat k, cache') /\
    cache_valid m c cache' /\ (k <= periods m c p)%nat /\
    forall i, (i <= periods m c p)%nat -> state_after m c p i = state_of m c (Some p) <-> (k <= i)%nat.
Proof.
  intros Ht Hs Ha Hc Hv Hp. destruct (GetStateFor_spec m Ht Hs c Hc Ha p b cache Hp Hv) as (cache1 & E1 & Hv1).
  unfold GetStateSinceHeightFor. rewrite E1. cbn [mbind option_bind]. cbn [state_of].
  case_bool_decide as Hd.
  { exists 0%nat, cache1. split_and!; [by rewrite Z.mul_0_r|done|lia|]. intros i Hi. split; [lia|]. intros _.
    apply (state_after_between m c p 0); [lia|]. by rewrite Hd. }
  destruct (period_parent_spec m Ht Hs c Hc p b Hp) as [E2 Hk]. rewrite E2. cbn [mbind option_bind].
  destruct (periods m c p) as [|k] eqn:En; [done|].
  destruct (period_end_S m Ht c Hc p b Hp k Hk) as (q & d & Hq & Hdq & E). rewrite Hq. cbn [mbind option_bind].
  rewrite Hdq. cbn [mbind option_bind]. rewrite (previous_period m Ht Hs c Hc p b Hp k q d) by done. cbn [mbind option_bind].
  pose proof (period_pos c Hc).
  destruct (since_loop_spec m Ht Hs c Hc Ha p b _ (S k) (Z.to_nat (nHeight d + 1)) k q cache1 Hp Hk Hd ltac:(lia) ltac:(nia) Hv1 Hq eq_refl)
    as (j & r & cache2 & E3 & Hv2 & Hj & Hr & Hrs & Hne).
  rewrite E3. cbn [mbind option_bind fst snd].
  destruct (period_end_S m Ht c Hc p b Hp j ltac:(nia)) as (r' & e & Hr' & He & Ee). assert (r' = r) as -> by congruence.
  rewrite He. cbn [mbind option_bind]. exists (S j), cache2. split_and!; [do 2 f_equal; lia|done|lia|].
  intros i Hi. split; intros Hx.
  - destruct (decide (S j <= i)%nat); [done|]. destruct Hne. apply (state_after_between m c p i); [lia|done].
  - apply (state_after_between m c p (S j)); [lia|done].
Qed.

(** Signals of a window.  [CountBlocksInWindow] counts the signalling blocks of
    the period in progress, from its first block up to the given one. *)
Theorem CountBlocksInWindow_correct (m : index) (c : AbstractThresholdConditionChecker) (p : ptr) (b : CBlockIndex) :
  tree_ok m -> 0 < Period c -> m !! p = Some b ->
  CountBlocksInWindow m c p =
  Some (Z.of_nat (length (List.filter (Condition c) (take (Z.to_nat (nHeight b mod Period c + 1)) (view m p))))).
Proof.
  intros Ht HP Hp. pose proof (height_nonneg m Ht p b Hp). unfold CountBlocksInWindow. rewrite Hp. cbn [mbind option_bind].
  rewrite Z.rem_mod_nonneg by lia. pose proof (Z.mod_pos_bound (nHeight b) (Period c) HP).
  pose proof (Z.mod_le (nHeight b) (Period c) ltac:(lia) HP).
  replace (nHeight b - nHeight b mod Period c - 1) with (nHeight b - Z.of_nat (Z.to_nat (nHeight b mod Period c + 1))) by lia.
  rewrite (window_loop_spec m Ht c _ _ p b) by (done || lia). done.
Qed.

(** ** A sample: periods of three blocks *)

Definition signalling (h : Z) : bool := (h =? 7) || (h =? 8).
Definition vb_node (p : nat) : CBlockIndex :=
  {| entry := {| Pow.nHeight := Z.of_nat p; Pow.nVersion := if signalling (Z.of_nat p) then 0x20000002 else 0x20000000;
                 Pow.nTime := 1000 + 10 * Z.of_nat p; Pow.nBits := 0 |};
     phashBlock := [Z.of_nat p]; pprev := match p with O => None | S q => Some q end; pskip := None; nTimeMax := 1000 + 10 * Z.of_nat p |}.
Definition vb_index : index :=
  fold_left (fun m p => default m (BuildSkip (<[p := vb_node p]> m) p)) (seq 0 16) ∅.
Definition vb_deployment : BIP9Deployment :=
  {| bit := 1; nStartTime := 1020; nTimeout := 1100; nWindowSize := 0; nThreshold := 2 |}.
Definition vb_checker : AbstractThresholdConditionChecker := VersionBitsConditionChecker vb_deployment 3 1.

Definition times_acceptedb (m : index) : bool :=
  forallb (fun pb => match pprev (snd pb) with Some q => MedianTimePast m q <? Pow.nTime (entry (snd pb)) | None => true end) (map_to_list m).

Lemma times_acceptedb_ok m : times_acceptedb m = true -> times_accepted m.
Proof.
  unfold times_acceptedb. rewrite forallb_forall. intros Hall p b Hp q Hq.
  specialize (Hall (p, b) ltac:(apply list_elem_of_In; by apply elem_of_map_to_list)). cbn [snd] in Hall.
  rewrite Hq in Hall. by apply Z.ltb_lt.
Qed.

Lemma vb_index_ok : tree_ok vb_index /\ skips_ok vb_index /\ times_accepted vb_index.
Proof.
  split; [|split]; [apply index_okb_ok|apply index_okb_ok|apply times_acceptedb_ok]; vm_compute; reflexivity.
Qed.

Lemma vb_checker_ok : checker_ok vb_checker.
Proof. by split. Qed.

Lemma empty_cache_valid m c : cache_valid m c ∅.
Proof. by intros key st Hk. Qed.

Lemma GetStateFor_correct_witness :
  exists cache', GetStateFor vb_index vb_checker (Some 13%nat) ∅ = Some (THRESHOLD_ACTIVE, cache').
Proof.
  destruct vb_index_ok as (Ht & Hs & Ha).
  destruct (GetStateFor_correct vb_index vb_checker (Some 13%nat) ∅ Ht Hs Ha vb_checker_ok (empty_cache_valid _ _)) as (cache' & E & _).
  - intros p E. injection E as <-. exists (default (vb_node 0) (vb_index !! 13%nat)). vm_compute. reflexivity.
  - exists cache'. refine (eq_trans E _). vm_compute. reflexivity.
Defined.

Lemma deployment_lifecycle_witness :
  exists j r, period_end vb_index vb_checker 15 j = Some r /\ 2 <= signals vb_index vb_checker r.
Proof.
  destruct vb_index_ok as (Ht & Hs & Ha).
  destruct (deployment_lifecycle vb_index vb_checker ∅ 15 (default (vb_node 0) (vb_index !! 15%nat)) Ht Hs Ha vb_checker_ok
              (empty_cache_valid _ _)) as (s & cache' & E & _ & HA); [vm_compute; reflexivity|].
  destruct HA as (i & j & q & r & _ & _ & _ & Hr & _ & Hn & _).
  - assert (fst <$> GetStateFor vb_index vb_checker (Some 15%nat) ∅ = Some THRESHOLD_ACTIVE) as E1 by (vm_compute; reflexivity).
    rewrite E in E1. injection E1 as E1. exact E1.
  - exists j, r. split; [exact Hr|exact Hn].
Defined.

Lemma GetStateSinceHeightFor_correct_witness :
  exists k cache', GetStateSinceHeightFor vb_index vb_checker (Some 15%nat) ∅ = Some (3 * Z.of_nat k, cache').
Proof.
  destruct vb_index_ok as (Ht & Hs & Ha).
  destruct (GetStateSinceHeightFor_correct vb_index vb_checker 15 (default (vb_node 0) (vb_index !! 15%nat)) ∅ Ht Hs Ha
              vb_checker_ok (empty_cache_valid _ _)) as (k & cache' & E & _).
  - vm_compute. reflexivity.
  - exists k, cache'. exact E.
Defined.

Lemma CountBlocksInWindow_correct_witness : CountBlocksInWindow vb_index vb_checker 7 = Some 1.
Proof.
  refine (eq_trans (CountBlocksInWindow_correct vb_index vb_checker 7 (default (vb_node 0) (vb_index !! 7%nat)) (proj1 vb_index_ok) _ _) _);
    vm_compute; reflexivity.
Defined.

Example states_of_sample :
  map (fun p => fst <$> GetStateFor vb_index vb_checker (Some p) ∅) [1; 4; 7; 9; 10; 11; 15]%nat =
  map Some [THRESHOLD_DEFINED; THRESHOLD_DEFINED; THRESHOLD_STARTED; THRESHOLD_LOCKED_IN; THRESHOLD_LOCKED_IN; THRESHOLD_ACTIVE; THRESHOLD_ACTIVE].
Proof. vm_compute. reflexivity. Qed.
