(* ===== verification/Coins.v ===== *)
(** * The coins cache (src/src/coins.h, src/src/coins.cpp)

    The set of unspent outputs is seen through a stack of views: a database and
    caches over it.  [CCoinsView] is what a view offers and [CCoinsViewLaws] what
    it promises: that it behaves as a map from outpoints to unspent coins.
    [CCoinsViewCache] is built over any view and is proved to keep the promise, so
    that caches can be stacked; its DIRTY and FRESH flags are an optimisation that
    no caller can observe.

    Reading through a cache fills it, so every operation returns the new state.
    Memory usage counts a script as allocated exactly; iteration over the hash
    map is over a list of its entries in any order. *)

From S2P Require Import Prelude Bytes Serialize Script Amount Transaction.
From stdpp Require Import list gmap.
Local Open Scope Z_scope.
Local Open Scope cxx_scope.

(** ** Coins *)

Record Coin : Type := { coin_out : CTxOut; fCoinBase : bool; coin_nHeight : Z }.

#[global] Instance Coin_eq_dec : EqDecision Coin.
Proof. solve_decision. Defined.

(** [nHeight] is a 31-bit field. *)
Definition Coin_new (outIn : CTxOut) (nHeightIn : Z) (fCoinBaseIn : bool) : Coin :=
  {| coin_out := outIn; fCoinBase := fCoinBaseIn; coin_nHeight := wrapu 31 nHeightIn |}.
Definition coinEmpty : Coin := {| coin_out := CTxOut_null; fCoinBase := false; coin_nHeight := 0 |}.
Definition Clear (c : Coin) : Coin := {| coin_out := CTxOut_null; fCoinBase := false; coin_nHeight := 0 |}.
Definition IsSpent (c : Coin) : bool := CTxOut_IsNull (coin_out c).

(** memusage.h and prevector.h: scripts of up to 28 bytes are stored in place.  The
    capacity of a longer script is taken to be its size, as after a copy. *)
Definition MallocUsage (alloc : Z) : Z :=
  if alloc =? 0 then 0 else u64 (((alloc + 31) .>> 4) .<< 4).
Definition DynamicMemoryUsage (c : Coin) : Z :=
  let size := Z.of_nat (length (scriptPubKey (coin_out c))) in
  MallocUsage (if size <=? 28 then 0 else size).

Definition DIRTY : Z := 1 .<< 0.
Definition FRESH : Z := 1 .<< 1.

Record CCoinsCacheEntry : Type := { ce_coin : Coin; ce_flags : Z }.

Definition is_dirty (e : CCoinsCacheEntry) : bool := nz (ce_flags e .& DIRTY).
Definition is_fresh (e : CCoinsCacheEntry) : bool := nz (ce_flags e .& FRESH).

Inductive coins_error : Type := LogicError | AssertionFailed.

(** ** The interface *)

Class CCoinsView (B : Type) := {
  GetCoin : B -> COutPoint -> option Coin * B;
  GetBestBlock : B -> list Z * B;
  BatchWrite : B -> list (COutPoint * CCoinsCacheEntry) -> list Z -> result coins_error (bool * B);
}.

(** Coins as blocks create them: an amount of money, a script that can be spent
    and the fields in range. *)
Record coin_ok (c : Coin) : Prop := {
  ok_value : MoneyRange (nValue (coin_out c)) = true;
  ok_script : IsUnspendable (scriptPubKey (coin_out c)) = false;
  ok_script_bytes : bytes_ok (scriptPubKey (coin_out c));
  ok_rounds : nRounds (coin_out c) = -10;
  ok_height : is_u 31 (coin_nHeight c);
}.

(** What an entry stands for: a coin, or its absence. *)
Definition entry_value (e : CCoinsCacheEntry) : option Coin :=
  if IsSpent (ce_coin e) then None else Some (ce_coin e).

(** The changes a batch asks for. *)
Definition apply_entry (f : COutPoint -> option Coin) (ke : COutPoint * CCoinsCacheEntry) : COutPoint -> option Coin :=
  if is_dirty (snd ke) then fun o => if decide (o = fst ke) then entry_value (snd ke) else f o else f.
Definition apply_entries (l : list (COutPoint * CCoinsCacheEntry)) (f : COutPoint -> option Coin) :
  COutPoint -> option Coin := fold_left apply_entry l f.

(** What the caller of [BatchWrite] owes: FRESH entries are absent below. *)
Definition entry_ok (f : COutPoint -> option Coin) (o : COutPoint) (e : CCoinsCacheEntry) : Prop :=
  COutPoint_ok o /\ (IsSpent (ce_coin e) = false -> coin_ok (ce_coin e)) /\ (is_fresh e = true -> f o = None).
Definition batch_ok (f : COutPoint -> option Coin) (l : list (COutPoint * CCoinsCacheEntry)) : Prop :=
  NoDup l.*1 /\ Forall (fun ke => entry_ok f (fst ke) (snd ke)) l.

Class CCoinsViewLaws (B : Type) `{CCoinsView B} := {
  view_ok : B -> Prop;
  contents : B -> COutPoint -> option Coin;
  best : B -> list Z;
  contents_coin b o c : view_ok b -> contents b o = Some c -> IsSpent c = false /\ coin_ok c;
  GetCoin_law b o : view_ok b -> COutPoint_ok o ->
    let '(r, b') := GetCoin b o in
    r = contents b o /\ view_ok b' /\ (forall x, contents b' x = contents b x) /\ best b' = best b;
  GetBestBlock_law b : view_ok b ->
    let '(h, b') := GetBestBlock b in
    h = best b /\ view_ok b' /\ (forall x, contents b' x = contents b x) /\ best b' = best b;
  BatchWrite_law b l h : view_ok b -> batch_ok (contents b) l ->
    exists fOk b', BatchWrite b l h = Ok (fOk, b') /\
      (fOk = true -> view_ok b' /\
         (forall o, COutPoint_ok o -> contents b' o = apply_entries l (contents b) o) /\
         (uint256_IsNull h = false -> best b' = h));
}.

(** ** CCoinsViewCache *)

Record CCoinsViewCache (B : Type) : Type := {
  base : B;
  hashBlock : list Z;
  cacheCoins : gmap COutPoint CCoinsCacheEntry;
  cachedCoinsUsage : Z;
}.
Arguments base {B}. Arguments hashBlock {B}. Arguments cacheCoins {B}. Arguments cachedCoinsUsage {B}.
Arguments Build_CCoinsViewCache {B}.

Section Cache.
Context {B : Type} `{CCoinsView B}.
Implicit Types (c : CCoinsViewCache B) (o : COutPoint).

Definition CCoinsViewCache_new (b : B) : CCoinsViewCache B :=
  {| base := b; hashBlock := uint256_null; cacheCoins := ∅; cachedCoinsUsage := 0 |}.

Definition set_base c (b : B) : CCoinsViewCache B :=
  {| base := b; hashBlock := hashBlock c; cacheCoins := cacheCoins c; cachedCoinsUsage := cachedCoinsUsage c |}.
Definition set_cache c (m : gmap COutPoint CCoinsCacheEntry) (usage : Z) : CCoinsViewCache B :=
  {| base := base c; hashBlock := hashBlock c; cacheCoins := m; cachedCoinsUsage := u64 usage |}.

(** The entry found or fetched ([None] is [cacheCoins.end()]), and the new state. *)
Definition FetchCoin c o : option CCoinsCacheEntry * CCoinsViewCache B :=
  match cacheCoins c !! o with
  | Some e => (Some e, c)
  | None =>
      let '(r, b) := GetCoin (base c) o in
      match r with
      | None => (None, set_base c b)
      | Some tmp =>
          let ret := {| ce_coin := tmp; ce_flags := if IsSpent tmp then FRESH else 0 |} in
          (Some ret, set_cache (set_base c b) (<[o := ret]> (cacheCoins c)) (cachedCoinsUsage c + DynamicMemoryUsage tmp))
      end
  end.

Definition cache_GetCoin c o : option Coin * CCoinsViewCache B :=
  let '(it, c) := FetchCoin c o in
  match it with
  | Some e => (if negb (IsSpent (ce_coin e)) then Some (ce_coin e) else None, c)
  | None => (None, c)
  end.

Definition cache_HaveCoin c o : bool * CCoinsViewCache B :=
  let '(it, c) := FetchCoin c o in
  (match it with Some e => negb (IsSpent (ce_coin e)) | None => false end, c).

Definition HaveCoinInCache c o : bool :=
  match cacheCoins c !! o with Some e => negb (IsSpent (ce_coin e)) | None => false end.

Definition AccessCoin c o : Coin * CCoinsViewCache B :=
  let '(it, c) := FetchCoin c o in
  (match it with Some e => ce_coin e | None => coinEmpty end, c).

(** [emplace] inserts a default entry when there is none. *)
Definition AddCoin c o (coin : Coin) (possible_overwrite : bool) : result coins_error (CCoinsViewCache B) :=
  if IsSpent coin then Throw AssertionFailed
  else if IsUnspendable (scriptPubKey (coin_out coin)) then Ok c
  else
    let '(e, inserted) :=
      match cacheCoins c !! o with
      | Some e => (e, false)
      | None => ({| ce_coin := coinEmpty; ce_flags := 0 |}, true)
      end in
    let usage := if negb inserted then u64 (cachedCoinsUsage c - DynamicMemoryUsage (ce_coin e)) else cachedCoinsUsage c in
    if negb possible_overwrite && negb (IsSpent (ce_coin e)) then Throw LogicError
    else
      let fresh := negb possible_overwrite && negb (is_dirty e) in
      let e := {| ce_coin := coin; ce_flags := ce_flags e .| (DIRTY .| (if fresh then FRESH else 0)) |} in
      Ok (set_cache c (<[o := e]> (cacheCoins c)) (usage + DynamicMemoryUsage coin)).

(** What [moveout] receives; [None] is the result [false]. *)
Definition SpendCoin c o : option Coin * CCoinsViewCache B :=
  let '(it, c) := FetchCoin c o in
  match it with
  | None => (None, c)
  | Some e =>
      let usage := cachedCoinsUsage c - DynamicMemoryUsage (ce_coin e) in
      if is_fresh e then (Some (ce_coin e), set_cache c (delete o (cacheCoins c)) usage)
      else
        let e' := {| ce_coin := Clear (ce_coin e); ce_flags := ce_flags e .| DIRTY |} in
        (Some (ce_coin e), set_cache c (<[o := e']> (cacheCoins c)) usage)
  end.

Definition cache_GetBestBlock c : list Z * CCoinsViewCache B :=
  if uint256_IsNull (hashBlock c) then
    let '(h, b) := GetBestBlock (base c) in
    (h, {| base := b; hashBlock := h; cacheCoins := cacheCoins c; cachedCoinsUsage := cachedCoinsUsage c |})
  else (hashBlock c, c).

Definition SetBestBlock c (hashBlockIn : list Z) : CCoinsViewCache B :=
  {| base := base c; hashBlock := hashBlockIn; cacheCoins := cacheCoins c; cachedCoinsUsage := cachedCoinsUsage c |}.

(** One turn of the loop of [BatchWrite]. *)
Definition batch_step c (ke : COutPoint * CCoinsCacheEntry) : result coins_error (CCoinsViewCache B) :=
  let '(o, e) := ke in
  if is_dirty e then
    match cacheCoins c !! o with
    | None =>
        if negb (is_fresh e && IsSpent (ce_coin e)) then
          let entry := {| ce_coin := ce_coin e; ce_flags := if is_fresh e then DIRTY .| FRESH else DIRTY |} in
          Ok (set_cache c (<[o := entry]> (cacheCoins c)) (cachedCoinsUsage c + DynamicMemoryUsage (ce_coin e)))
        else Ok c
    | Some us =>
        if is_fresh e && negb (IsSpent (ce_coin us)) then Throw LogicError
        else if is_fresh us && IsSpent (ce_coin e) then
          Ok (set_cache c (delete o (cacheCoins c)) (cachedCoinsUsage c - DynamicMemoryUsage (ce_coin us)))
        else
          let usage := u64 (cachedCoinsUsage c - DynamicMemoryUsage (ce_coin us)) in
          let us := {| ce_coin := ce_coin e; ce_flags := ce_flags us .| DIRTY |} in
          Ok (set_cache c (<[o := us]> (cacheCoins c)) (usage + DynamicMemoryUsage (ce_coin us)))
    end
  else Ok c.

Fixpoint batch_loop c (mapCoins : list (COutPoint * CCoinsCacheEntry)) : result coins_error (CCoinsViewCache B) :=
  match mapCoins with
  | [] => Ok c
  | ke :: mapCoins => let! c := batch_step c ke in batch_loop c mapCoins
  end.

Definition cache_BatchWrite c (mapCoins : list (COutPoint * CCoinsCacheEntry)) (hashBlockIn : list Z) :
  result coins_error (bool * CCoinsViewCache B) :=
  let! c := batch_loop c mapCoins in
  Ok (true, SetBestBlock c hashBlockIn).

Definition Flush c : result coins_error (bool * CCoinsViewCache B) :=
  let! r := BatchWrite (base c) (map_to_list (cacheCoins c)) (hashBlock c) in
  let '(fOk, b) := r in
  Ok (fOk, {| base := b; hashBlock := hashBlock c; cacheCoins := ∅; cachedCoinsUsage := 0 |}).

Definition Uncache c o : CCoinsViewCache B :=
  match cacheCoins c !! o with
  | Some e =>
      if ce_flags e =? 0
      then set_cache c (delete o (cacheCoins c)) (cachedCoinsUsage c - DynamicMemoryUsage (ce_coin e))
      else c
  | None => c
  end.

Definition GetCacheSize c : Z := u32 (Z.of_nat (size (cacheCoins c))).

(** ** Whole transactions *)

Fixpoint AddCoins_loop c (txid : list Z) (i : nat) (outs : list CTxOut) (fCoinbase : bool) (nHeight : Z) :
  result coins_error (CCoinsViewCache B) :=
  match outs with
  | [] => Ok c
  | out :: outs =>
      let! c := AddCoin c {| op_hash := txid; op_n := u32 (Z.of_nat i) |} (Coin_new out nHeight fCoinbase) fCoinbase in
      AddCoins_loop c txid (S i) outs fCoinbase nHeight
  end.
Definition AddCoins c (tx : CTransaction) (nHeight : Z) : result coins_error (CCoinsViewCache B) :=
  AddCoins_loop c (tx_hash tx) 0 (vout (tx_data tx)) (IsCoinBase (tx_data tx)) nHeight.

Fixpoint GetValueIn_loop c (ins : list CTxIn) (nResult : Z) : Z * CCoinsViewCache B :=
  match ins with
  | [] => (nResult, c)
  | i :: ins =>
      let '(coin, c) := AccessCoin c (prevout i) in
      GetValueIn_loop c ins (i64 (nResult + nValue (coin_out coin)))
  end.
Definition GetValueIn c (tx : CTransaction) : Z * CCoinsViewCache B :=
  if IsCoinBase (tx_data tx) then (0, c) else GetValueIn_loop c (vin (tx_data tx)) 0.

Fixpoint HaveInputs_loop c (ins : list CTxIn) : bool * CCoinsViewCache B :=
  match ins with
  | [] => (true, c)
  | i :: ins =>
      let '(have, c) := cache_HaveCoin c (prevout i) in
      if negb have then (false, c) else HaveInputs_loop c ins
  end.
Definition HaveInputs c (tx : CTransaction) : bool * CCoinsViewCache B :=
  if negb (IsCoinBase (tx_data tx)) then HaveInputs_loop c (vin (tx_data tx)) else (true, c).

End Cache.

#[global] Instance CCoinsViewCache_view (B : Type) `{CCoinsView B} : CCoinsView (CCoinsViewCache B) :=
  {| GetCoin := cache_GetCoin; GetBestBlock := cache_GetBestBlock; BatchWrite := cache_BatchWrite |}.

(** ** Flags *)

Lemma nz_lor x y d : nz ((x .| y) .& d) = nz (x .& d) || nz (y .& d).
Proof.
  unfold nz. rewrite Z.land_lor_distr_l.
  destruct (Z.eqb_spec (x .& d) 0) as [->|Hx]; [by rewrite Z.lor_0_l|]. cbn [negb orb].
  destruct (Z.eqb_spec ((x .& d) .| (y .& d)) 0) as [E|]; [|done]. apply Z.lor_eq_0_iff in E. tauto.
Qed.

Lemma dirty_of_lor coin f g : is_dirty {| ce_coin := coin; ce_flags := f .| g |} = nz (f .& DIRTY) || nz (g .& DIRTY).
Proof. apply nz_lor. Qed.
Lemma fresh_of_lor coin f g : is_fresh {| ce_coin := coin; ce_flags := f .| g |} = nz (f .& FRESH) || nz (g .& FRESH).
Proof. apply nz_lor. Qed.

(** ** The memory accounted for *)

Definition total_usage (m : gmap COutPoint CCoinsCacheEntry) : Z :=
  map_fold (fun _ e n => DynamicMemoryUsage (ce_coin e) + n) 0 m.

Lemma total_usage_insert m o e : m !! o = None ->
  total_usage (<[o := e]> m) = DynamicMemoryUsage (ce_coin e) + total_usage m.
Proof.
  intros Ho. unfold total_usage. rewrite map_fold_insert_L; [done| |done]. intros. lia.
Qed.

Lemma total_usage_delete m o e : m !! o = Some e ->
  total_usage (delete o m) = total_usage m - DynamicMemoryUsage (ce_coin e).
Proof.
  intros Ho. rewrite <- (insert_delete_id m o e Ho) at 2.
  rewrite total_usage_insert by apply lookup_delete_eq. lia.
Qed.

Lemma total_usage_replace m o e e' : m !! o = Some e ->
  total_usage (<[o := e']> m) = total_usage m - DynamicMemoryUsage (ce_coin e) + DynamicMemoryUsage (ce_coin e').
Proof.
  intros Ho. rewrite <- insert_delete_eq, total_usage_insert by apply lookup_delete_eq.
  rewrite (total_usage_delete m o e) by done. lia.
Qed.

Lemma u64_add_l x y : u64 (u64 x + y) = u64 (x + y).
Proof. unfold u64, wrapu. apply Zplus_mod_idemp_l. Qed.
Lemma u64_sub_l x y : u64 (u64 x - y) = u64 (x - y).
Proof. unfold u64, wrapu. apply Zminus_mod_idemp_l. Qed.

Lemma money_unspent c : MoneyRange (nValue (coin_out c)) = true -> IsSpent c = false.
Proof.
  unfold IsSpent, CTxOut_IsNull. intros Hm. apply MoneyRange_spec in Hm. apply Z.eqb_neq. lia.
Qed.

(** ** What a cache stands for *)

Section CacheLaws.
Context {B : Type} `{HV : CCoinsView B} {HL : CCoinsViewLaws B}.
Implicit Types (c : CCoinsViewCache B) (o : COutPoint).

Definition cache_contents c o : option Coin :=
  match cacheCoins c !! o with Some e => entry_value e | None => contents (base c) o end.

Definition cache_best c : list Z := if uint256_IsNull (hashBlock c) then best (base c) else hashBlock c.

(** An entry is right about its flags: FRESH only if the view below has no coin
    there, and not DIRTY only if it says the same as the view below. *)
Definition cached_ok (f : COutPoint -> option Coin) (o : COutPoint) (e : CCoinsCacheEntry) : Prop :=
  entry_ok f o e /\ (is_dirty e = false -> f o = entry_value e).

Record cache_ok c : Prop := {
  cache_base : view_ok (base c);
  cache_entries : map_Forall (cached_ok (contents (base c))) (cacheCoins c);
  cache_usage : cachedCoinsUsage c = u64 (total_usage (cacheCoins c));
}.

Lemma cached_ok_ext f g o e : (forall x, g x = f x) -> cached_ok f o e -> cached_ok g o e.
Proof. intros E. unfold cached_ok, entry_ok. by rewrite E. Qed.

Lemma cache_ok_base c b : cache_ok c -> view_ok b -> (forall x, contents b x = contents (base c) x) ->
  best b = best (base c) ->
  cache_ok (set_base c b) /\ (forall x, cache_contents (set_base c b) x = cache_contents c x) /\
  cache_best (set_base c b) = cache_best c.
Proof.
  intros [H1 H2 H3] Hb E Eb. split; [split; try done|split].
  - intros x e Hx. by eapply cached_ok_ext, (H2 x e).
  - intros x. unfold cache_contents. cbn [cacheCoins base set_base]. by destruct (cacheCoins c !! x).
  - unfold cache_best. cbn [hashBlock base set_base]. by rewrite Eb.
Qed.

(** Updating or dropping one entry. *)
Lemma cache_ok_insert c o e usage : cache_ok c -> cached_ok (contents (base c)) o e ->
  u64 usage = u64 (total_usage (<[o := e]> (cacheCoins c))) ->
  cache_ok (set_cache c (<[o := e]> (cacheCoins c)) usage) /\
  forall x, cache_contents (set_cache c (<[o := e]> (cacheCoins c)) usage) x =
    if decide (x = o) then entry_value e else cache_contents c x.
Proof.
  intros [H1 H2 H3] He Hu. split; [split; [done| |]|].
  - cbn [cacheCoins base set_cache]. by apply map_Forall_insert_2.
  - exact Hu.
  - intros x. unfold cache_contents. cbn [cacheCoins base set_cache]. rewrite lookup_insert.
    destruct (decide (x = o)) as [->|Hne]; [by rewrite decide_True|by rewrite decide_False].
Qed.

Lemma cache_ok_delete c o e usage : cache_ok c -> cacheCoins c !! o = Some e ->
  u64 usage = u64 (total_usage (delete o (cacheCoins c))) ->
  cache_ok (set_cache c (delete o (cacheCoins c)) usage) /\
  forall x, cache_contents (set_cache c (delete o (cacheCoins c)) usage) x =
    if decide (x = o) then contents (base c) o else cache_contents c x.
Proof.
  intros [H1 H2 H3] He Hu. split; [split; [done| |]|].
  - cbn [cacheCoins base set_cache]. by apply map_Forall_delete.
  - exact Hu.
  - intros x. unfold cache_contents. cbn [cacheCoins base set_cache]. rewrite lookup_delete.
    destruct (decide (x = o)) as [->|Hne]; [by rewrite decide_True|by rewrite decide_False].
Qed.

Lemma cache_entry c o e : cache_ok c -> cacheCoins c !! o = Some e ->
  COutPoint_ok o /\ (IsSpent (ce_coin e) = false -> coin_ok (ce_coin e)) /\
  (is_fresh e = true -> contents (base c) o = None) /\ (is_dirty e = false -> contents (base c) o = entry_value e).
Proof. intros Hc He. destruct (cache_entries c Hc o e He) as [(H1 & H2 & H3) H4]. done. Qed.

(** Reading through the cache fills it and changes nothing it stands for. *)
Lemma FetchCoin_spec c o : cache_ok c -> COutPoint_ok o ->
  let '(it, c') := FetchCoin c o in
  cache_ok c' /\ (forall x, cache_contents c' x = cache_contents c x) /\ cache_best c' = cache_best c /\
  cacheCoins c' !! o = it /\ (forall e, it = Some e -> cache_contents c o = entry_value e) /\
  (it = None -> cache_contents c o = None).
Proof.
  intros Hc Ho. unfold FetchCoin. destruct (cacheCoins c !! o) as [e|] eqn:E.
  { split_and!; try done. intros e' [= <-]. unfold cache_contents. by rewrite E. }
  pose proof (GetCoin_law (base c) o (cache_base c Hc) Ho) as Hg. destruct (GetCoin (base c) o) as [r b].
  destruct Hg as (Hr & Hb & Hcont & Hbest). destruct (cache_ok_base c b Hc Hb Hcont Hbest) as (H1 & H2 & H3).
  assert (cache_contents c o = r) as Ho' by (unfold cache_contents; by rewrite E).
  destruct r as [tmp|]; [|by split_and!].
  destruct (contents_coin (base c) o tmp (cache_base c Hc) (eq_sym Hr)) as [Hsp Htmp]. rewrite Hsp.
  set (e := {| ce_coin := tmp; ce_flags := 0 |}).
  assert (entry_value e = Some tmp) as Hev by (unfold entry_value, e; cbn [ce_coin]; by rewrite Hsp).
  destruct (cache_ok_insert (set_base c b) o e (cachedCoinsUsage c + DynamicMemoryUsage tmp)) as [H4 H5].
  - done.
  - split; [split; [done|]|]; [by split|]. intros _. cbn [base set_base]. rewrite Hev, Hcont. done.
  - cbn [cacheCoins set_base]. rewrite (cache_usage c Hc), u64_add_l, total_usage_insert by done. f_equal. subst e. cbn. lia.
  - split_and!; try done.
    + intros x. rewrite H5. destruct (decide (x = o)) as [->|]; [by rewrite Hev|apply H2].
    + apply lookup_insert_eq.
    + intros e' [= <-]. by rewrite Hev.
Qed.

(** Coins made from the outputs of blocks. *)
Lemma AddCoin_spec c o coin ow : cache_ok c -> COutPoint_ok o ->
  MoneyRange (nValue (coin_out coin)) = true -> bytes_ok (scriptPubKey (coin_out coin)) ->
  nRounds (coin_out coin) = -10 -> is_u 31 (coin_nHeight coin) ->
  (ow = false -> cache_contents c o = None) ->
  exists c', AddCoin c o coin ow = Ok c' /\ cache_ok c' /\ cache_best c' = cache_best c /\
    forall x, cache_contents c' x =
      if decide (x = o) then if IsUnspendable (scriptPubKey (coin_out coin)) then cache_contents c o else Some coin
      else cache_contents c x.
Proof.
  intros Hc Ho Hm Hb Hr Hh How. unfold AddCoin. rewrite (money_unspent coin Hm).
  destruct (IsUnspendable (scriptPubKey (coin_out coin))) eqn:Eu.
  { exists c. split_and!; try done. intros x. by destruct (decide (x = o)) as [->|]. }
  set (fl e := {| ce_coin := coin; ce_flags := ce_flags e .| (DIRTY .| (if negb ow && negb (is_dirty e) then FRESH else 0)) |}).
  assert (forall e, entry_value (fl e) = Some coin) as Hev
    by (intros e; unfold entry_value, fl; cbn [ce_coin]; by rewrite (money_unspent coin Hm)).
  assert (forall e usage, (is_fresh e = true -> contents (base c) o = None) ->
    (ow = false -> is_dirty e = false -> contents (base c) o = None) ->
    u64 usage = u64 (total_usage (<[o := fl e]> (cacheCoins c))) ->
    exists c', Ok (E := coins_error) (set_cache c (<[o := fl e]> (cacheCoins c)) usage) = Ok c' /\ cache_ok c' /\
      cache_best c' = cache_best c /\
      forall x, cache_contents c' x = if decide (x = o) then Some coin else cache_contents c x) as Hfin.
  { intros e usage Hf Hd Hu. eexists. split; [done|].
    destruct (cache_ok_insert c o (fl e) usage Hc) as [H1 H2]; [|done|].
    - split; [split; [done|split; [by intros _|]]|].
      + unfold fl. rewrite fresh_of_lor, nz_lor. intros Hx. destruct (nz (ce_flags e .& FRESH)) eqn:Ef; [by apply Hf|].
        destruct ow, (is_dirty e); cbn in Hx; try discriminate Hx. by apply Hd.
      + unfold fl. rewrite dirty_of_lor, nz_lor. change (nz (DIRTY .& DIRTY)) with true. by rewrite orb_true_r.
    - split; [done|]. split; [done|]. intros x. rewrite H2. by rewrite Hev. }
  destruct (cacheCoins c !! o) as [e|] eqn:E; cbn [negb andb].
  - destruct (cache_entry c o e Hc E) as (_ & _ & Hf & Hd).
    assert (negb ow && negb (IsSpent (ce_coin e)) = false) as ->.
    { destruct ow; [done|]. specialize (How eq_refl). unfold cache_contents, entry_value in How. rewrite E in How.
      by destruct (IsSpent (ce_coin e)). }
    apply Hfin; [done| |].
    + intros Ew Ed. rewrite (Hd Ed). specialize (How Ew). unfold cache_contents in How. by rewrite E in How.
    + rewrite u64_add_l, (cache_usage c Hc). rewrite (total_usage_replace _ _ e) by done. unfold u64 at 1 2.
      unfold wrapu. rewrite <- Zplus_mod_idemp_l, Zminus_mod_idemp_l, Zplus_mod_idemp_l. done.
  - rewrite andb_false_r. cbn [negb]. apply (Hfin {| ce_coin := coinEmpty; ce_flags := 0 |}); [done| |].
    + intros Ew _. specialize (How Ew). unfold cache_contents in How. by rewrite E in How.
    + rewrite (cache_usage c Hc), u64_add_l, total_usage_insert by done. f_equal. cbn [fl ce_coin]. lia.
Qed.

Lemma SpendCoin_spec c o : cache_ok c -> COutPoint_ok o ->
  let '(r, c') := SpendCoin c o in
  cache_ok c' /\ cache_best c' = cache_best c /\
  (forall x, cache_contents c' x = if decide (x = o) then None else cache_contents c x) /\
  (forall coin, cache_contents c o = Some coin -> r = Some coin) /\
  (cache_contents c o = None -> forall coin, r = Some coin -> IsSpent coin = true).
Proof.
  intros Hc Ho. unfold SpendCoin. pose proof (FetchCoin_spec c o Hc Ho) as Hf.
  destruct (FetchCoin c o) as [it c1]. destruct Hf as (H1 & H2 & H3 & H4 & H5 & H6).
  destruct it as [e|].
  2: { split_and!; try done; [|intros coin E; by rewrite (H6 eq_refl) in E].
       intros x. rewrite H2. destruct (decide (x = o)) as [->|]; [by rewrite H6|done]. }
  specialize (H5 e eq_refl). destruct (cache_entry c1 o e H1 H4) as (_ & _ & Hfr & Hd).
  assert (forall coin, cache_contents c o = Some coin -> Some (ce_coin e) = Some coin) as Hr1.
  { rewrite H5. unfold entry_value. by destruct (IsSpent (ce_coin e)). }
  assert (cache_contents c o = None -> forall coin, Some (ce_coin e) = Some coin -> IsSpent coin = true) as Hr2.
  { rewrite H5. unfold entry_value. intros Hn coin [= <-]. by destruct (IsSpent (ce_coin e)). }
  destruct (is_fresh e) eqn:Ef.
  - destruct (cache_ok_delete c1 o e (cachedCoinsUsage c1 - DynamicMemoryUsage (ce_coin e)) H1 H4) as [H7 H8].
    { by rewrite (cache_usage c1 H1), u64_sub_l, (total_usage_delete _ o e). }
    split_and!; try done. intros x. rewrite H8, H2. destruct (decide (x = o)); [by apply Hfr|done].
  - set (e' := {| ce_coin := Clear (ce_coin e); ce_flags := ce_flags e .| DIRTY |}).
    destruct (cache_ok_insert c1 o e' (cachedCoinsUsage c1 - DynamicMemoryUsage (ce_coin e)) H1) as [H7 H8].
    { split; [split; [done|split]|]; [done| |].
      - unfold e'. rewrite fresh_of_lor. unfold is_fresh in Ef. by rewrite Ef.
      - unfold e'. rewrite dirty_of_lor. change (nz (DIRTY .& DIRTY)) with true. by rewrite orb_true_r. }
    { rewrite (cache_usage c1 H1), u64_sub_l, (total_usage_replace _ o e) by done. f_equal.
      change (DynamicMemoryUsage (ce_coin e')) with 0. lia. }
    split_and!; try done. intros x. rewrite H8, H2. by destruct (decide (x = o)).
Qed.

Lemma Uncache_spec c o : cache_ok c ->
  cache_ok (Uncache c o) /\ cache_best (Uncache c o) = cache_best c /\
  forall x, cache_contents (Uncache c o) x = cache_contents c x.
Proof.
  intros Hc. unfold Uncache. destruct (cacheCoins c !! o) as [e|] eqn:E; [|done].
  destruct (Z.eqb_spec (ce_flags e) 0) as [E0|]; [|done].
  destruct (cache_entry c o e Hc E) as (_ & _ & _ & Hd).
  assert (contents (base c) o = entry_value e) as Hb by (apply Hd; unfold is_dirty; by rewrite E0).
  destruct (cache_ok_delete c o e (cachedCoinsUsage c - DynamicMemoryUsage (ce_coin e)) Hc E) as [H1 H2].
  { by rewrite (cache_usage c Hc), u64_sub_l, (total_usage_delete _ o e). }
  split_and!; try done. intros x. rewrite H2. destruct (decide (x = o)) as [->|]; [|done].
  rewrite Hb. unfold cache_contents. by rewrite E.
Qed.

(** ** A batch from above *)

Lemma batch_step_spec c o e : cache_ok c -> entry_ok (cache_contents c) o e ->
  exists c', batch_step c (o, e) = Ok c' /\ cache_ok c' /\ hashBlock c' = hashBlock c /\ base c' = base c /\
    forall x, cache_contents c' x = apply_entry (cache_contents c) (o, e) x.
Proof.
  intros Hc (Ho & Hcoin & Hfresh). unfold batch_step, apply_entry. cbn [fst snd].
  destruct (is_dirty e) eqn:Ed; [|by exists c].
  destruct (cacheCoins c !! o) as [us|] eqn:E.
  - destruct (cache_entry c o us Hc E) as (_ & _ & Hfu & Hdu).
    assert (is_fresh e && negb (IsSpent (ce_coin us)) = false) as ->.
    { destruct (is_fresh e); [|done]. specialize (Hfresh eq_refl). unfold cache_contents, entry_value in Hfresh.
      rewrite E in Hfresh. by destruct (IsSpent (ce_coin us)). }
    destruct (is_fresh us && IsSpent (ce_coin e)) eqn:Ef.
    + apply andb_true_iff in Ef as [Ef Es].
      destruct (cache_ok_delete c o us (cachedCoinsUsage c - DynamicMemoryUsage (ce_coin us)) Hc E) as [H1 H2].
      { by rewrite (cache_usage c Hc), u64_sub_l, (total_usage_delete _ o us). }
      eexists. split_and!; try done. intros x. rewrite H2. destruct (decide (x = o)) as [->|]; [|done].
      unfold entry_value. rewrite Es. by apply Hfu.
    + set (us' := {| ce_coin := ce_coin e; ce_flags := ce_flags us .| DIRTY |}).
      destruct (cache_ok_insert c o us' (u64 (cachedCoinsUsage c - DynamicMemoryUsage (ce_coin us)) + DynamicMemoryUsage (ce_coin us')) Hc)
        as [H1 H2].
      { split; [split; [done|split]|]; [done| |].
        - unfold us'. rewrite fresh_of_lor. change (nz (DIRTY .& FRESH)) with false. by rewrite orb_false_r.
        - unfold us'. rewrite dirty_of_lor. change (nz (DIRTY .& DIRTY)) with true. by rewrite orb_true_r. }
      { rewrite u64_add_l, (cache_usage c Hc), (total_usage_replace _ o us) by done. unfold u64 at 1 2. unfold wrapu.
        by rewrite <- Zplus_mod_idemp_l, Zminus_mod_idemp_l, Zplus_mod_idemp_l. }
      eexists. split_and!; try done.
  - assert (cache_contents c o = contents (base c) o) as Eb by (unfold cache_contents; by rewrite E).
    destruct (is_fresh e && IsSpent (ce_coin e)) eqn:Efs; cbn [negb].
    + apply andb_true_iff in Efs as [Ef Es]. exists c. split_and!; try done. intros x.
      destruct (decide (x = o)) as [->|]; [|done]. unfold entry_value. rewrite Es. by apply Hfresh.
    + set (entry := {| ce_coin := ce_coin e; ce_flags := if is_fresh e then DIRTY .| FRESH else DIRTY |}).
      destruct (cache_ok_insert c o entry (cachedCoinsUsage c + DynamicMemoryUsage (ce_coin e)) Hc) as [H1 H2].
      { split; [split; [done|split]|]; [done| |].
        - unfold entry, is_fresh at 1. cbn [ce_flags]. rewrite <- Eb.
          destruct (is_fresh e); [intros _; by apply Hfresh|done].
        - unfold entry, is_dirty at 1. cbn [ce_flags]. by destruct (is_fresh e). }
      { rewrite (cache_usage c Hc), u64_add_l, total_usage_insert by done. f_equal. cbn [ce_coin entry]. lia. }
      eexists. split_and!; try done.
Qed.

Lemma entry_ok_ext f g o e : (is_fresh e = true -> g o = f o) -> entry_ok f o e -> entry_ok g o e.
Proof. intros E (H1 & H2 & H3). split_and!; try done. intros Hf. rewrite E by done. by apply H3. Qed.

Lemma apply_entries_other l f o : o ∉ l.*1 -> apply_entries l f o = f o.
Proof.
  revert f. induction l as [|[k e] l IH]; intros f Ho; [done|].
  cbn in Ho. apply not_elem_of_cons in Ho as [Hne Ho]. cbn [apply_entries fold_left].
  change (apply_entries l (apply_entry f (k, e)) o = f o). rewrite IH by done. unfold apply_entry. cbn [fst snd].
  destruct (is_dirty e); [|done]. by rewrite decide_False.
Qed.

Lemma apply_entries_ext l f g : (forall x, f x = g x) -> forall x, apply_entries l f x = apply_entries l g x.
Proof.
  revert f g. induction l as [|ke l IH]; intros f g E; [done|]. cbn [apply_entries fold_left]. apply IH.
  intros x. unfold apply_entry. destruct (is_dirty _); [|done]. by destruct (decide _).
Qed.

Lemma batch_loop_spec l c : cache_ok c -> batch_ok (cache_contents c) l ->
  exists c', batch_loop c l = Ok c' /\ cache_ok c' /\ hashBlock c' = hashBlock c /\ base c' = base c /\
    forall x, cache_contents c' x = apply_entries l (cache_contents c) x.
Proof.
  revert c. induction l as [|[o e] l IH]; intros c Hc [Hnd Hall]; cbn [batch_loop]; [by exists c|].
  cbn in Hnd. apply NoDup_cons in Hnd as [Hno Hnd]. apply Forall_cons in Hall as [He Hall].
  destruct (batch_step_spec c o e Hc He) as (c1 & -> & H1 & H2 & H3 & H4). cbn [rbind].
  destruct (IH c1 H1) as (c2 & -> & H5 & H6 & H7 & H8).
  - split; [done|]. apply Forall_forall. intros [k d] Hk.
    apply (entry_ok_ext (cache_contents c)); [|exact (proj1 (Forall_forall _ _) Hall _ Hk)].
    intros _. rewrite H4. unfold apply_entry. cbn [fst snd]. destruct (is_dirty e); [|done].
    rewrite decide_False; [done|]. intros ->. apply Hno. apply list_elem_of_fmap. by exists (o, d).
  - exists c2. split; [done|]. split; [done|]. split; [by rewrite H6|]. split; [by rewrite H7|].
    intros x. rewrite H8. cbn [apply_entries fold_left]. by apply apply_entries_ext.
Qed.

Lemma cache_contents_coin c o coin : cache_ok c -> cache_contents c o = Some coin ->
  IsSpent coin = false /\ coin_ok coin.
Proof.
  intros Hc. unfold cache_contents. destruct (cacheCoins c !! o) as [e|] eqn:E.
  - destruct (cache_entry c o e Hc E) as (_ & Hcoin & _). unfold entry_value.
    destruct (IsSpent (ce_coin e)) eqn:Es; [done|]. intros [= <-]. auto.
  - apply contents_coin, Hc.
Qed.

Lemma cache_GetCoin_spec c o : cache_ok c -> COutPoint_ok o ->
  let '(r, c') := cache_GetCoin c o in
  r = cache_contents c o /\ cache_ok c' /\ (forall x, cache_contents c' x = cache_contents c x) /\
  cache_best c' = cache_best c.
Proof.
  intros Hc Ho. unfold cache_GetCoin. pose proof (FetchCoin_spec c o Hc Ho) as Hf.
  destruct (FetchCoin c o) as [it c1]. destruct Hf as (H1 & H2 & H3 & H4 & H5 & H6).
  destruct it as [e|]; split_and!; try done.
  - rewrite (H5 e eq_refl). unfold entry_value. by destruct (IsSpent (ce_coin e)).
  - by rewrite (H6 eq_refl).
Qed.

Lemma cache_GetBestBlock_spec c : cache_ok c ->
  let '(h, c') := cache_GetBestBlock c in
  h = cache_best c /\ cache_ok c' /\ (forall x, cache_contents c' x = cache_contents c x) /\ cache_best c' = cache_best c.
Proof.
  intros Hc. unfold cache_GetBestBlock, cache_best. destruct (uint256_IsNull (hashBlock c)) eqn:E.
  - pose proof (GetBestBlock_law (base c) (cache_base c Hc)) as Hg. destruct (GetBestBlock (base c)) as [h b].
    destruct Hg as (-> & Hb & Hcont & Hbest). destruct (cache_ok_base c b Hc Hb Hcont Hbest) as ([H1 H2 H3] & H4 & _).
    split; [done|]. split; [by split|]. split; [exact H4|]. cbn [hashBlock base]. rewrite Hbest.
    by destruct (uint256_IsNull (best (base c))).
  - by rewrite E.
Qed.

Lemma cache_BatchWrite_spec c l h : cache_ok c -> batch_ok (cache_contents c) l ->
  exists fOk c', cache_BatchWrite c l h = Ok (fOk, c') /\
    (fOk = true -> cache_ok c' /\
      (forall o, COutPoint_ok o -> cache_contents c' o = apply_entries l (cache_contents c) o) /\
      (uint256_IsNull h = false -> cache_best c' = h)).
Proof.
  intros Hc Hl. unfold cache_BatchWrite. destruct (batch_loop_spec l c Hc Hl) as (c1 & -> & [H1 H2 H3] & _ & _ & H4).
  exists true, (SetBestBlock c1 h). split; [done|]. intros _. split; [by split|]. split; [intros o _; apply H4|].
  intros Hh. unfold cache_best. cbn [hashBlock SetBestBlock]. by rewrite Hh.
Qed.

#[global] Instance CCoinsViewCache_laws : CCoinsViewLaws (CCoinsViewCache B) := {|
  view_ok := cache_ok;
  contents := cache_contents;
  best := cache_best;
  contents_coin := cache_contents_coin;
  GetCoin_law := cache_GetCoin_spec;
  GetBestBlock_law := cache_GetBestBlock_spec;
  BatchWrite_law := cache_BatchWrite_spec;
|}.

(** ** Flushing *)

Lemma cache_batch_ok c : cache_ok c -> batch_ok (contents (base c)) (map_to_list (cacheCoins c)).
Proof.
  intros Hc. split; [apply NoDup_fst_map_to_list|]. apply Forall_forall. intros [o e] He.
  apply elem_of_map_to_list in He. cbn [fst snd]. by apply (cache_entries c Hc).
Qed.

Lemma apply_entries_lookup l f o e : NoDup l.*1 -> (o, e) ∈ l ->
  apply_entries l f o = if is_dirty e then entry_value e else f o.
Proof.
  revert f. induction l as [|[k d] l IH]; intros f Hnd Hin; [by apply not_elem_of_nil in Hin|].
  cbn in Hnd. apply NoDup_cons in Hnd as [Hno Hnd]. cbn [apply_entries fold_left].
  change (apply_entries l (apply_entry f (k, d)) o = if is_dirty e then entry_value e else f o).
  apply elem_of_cons in Hin as [[= <- <-]|Hin].
  - rewrite apply_entries_other by done. unfold apply_entry. cbn [fst snd]. destruct (is_dirty e); [|done].
    by rewrite decide_True.
  - rewrite (IH _ Hnd Hin). destruct (is_dirty e); [done|]. unfold apply_entry. cbn [fst snd].
    destruct (is_dirty d); [|done]. rewrite decide_False; [done|]. intros ->. apply Hno.
    apply list_elem_of_fmap. by exists (k, e).
Qed.

(** The dirty entries are the difference between the cache and the view below. *)
Lemma flush_contents c o : cache_ok c ->
  apply_entries (map_to_list (cacheCoins c)) (contents (base c)) o = cache_contents c o.
Proof.
  intros Hc. unfold cache_contents. destruct (cacheCoins c !! o) as [e|] eqn:E.
  - rewrite (apply_entries_lookup _ _ o e); [|apply NoDup_fst_map_to_list|by apply elem_of_map_to_list].
    destruct (cache_entry c o e Hc E) as (_ & _ & _ & Hd). destruct (is_dirty e) eqn:Ed; [done|by apply Hd].
  - apply apply_entries_other. intros Hin. apply list_elem_of_fmap in Hin as ([k e] & -> & Hin).
    apply elem_of_map_to_list in Hin. cbn in E. congruence.
Qed.

Lemma Flush_spec c : cache_ok c ->
  exists fOk c', Flush c = Ok (fOk, c') /\ cacheCoins c' = ∅ /\
    (fOk = true -> cache_ok c' /\
      forall o, COutPoint_ok o -> contents (base c') o = cache_contents c o /\ cache_contents c' o = cache_contents c o).
Proof.
  intros Hc. unfold Flush.
  destruct (BatchWrite_law (base c) (map_to_list (cacheCoins c)) (hashBlock c) (cache_base c Hc) (cache_batch_ok c Hc))
    as (fOk & b & -> & Hok). cbn [rbind]. eexists fOk, _. split; [done|]. split; [done|]. intros E.
  destruct (Hok E) as (Hb & Hcont & _). split.
  - split; [done| |done]. cbn [cacheCoins]. apply map_Forall_empty.
  - intros o Ho. unfold cache_contents at 2. cbn [cacheCoins base]. rewrite lookup_empty, (Hcont o Ho).
    split; by apply flush_contents.
Qed.

End CacheLaws.

(** ** The reference view: a map *)

Record map_view : Type := { mv_coins : gmap COutPoint Coin; mv_best : list Z }.

Definition mv_apply (m : gmap COutPoint Coin) (ke : COutPoint * CCoinsCacheEntry) : gmap COutPoint Coin :=
  if is_dirty (snd ke)
  then match entry_value (snd ke) with Some coin => <[fst ke := coin]> m | None => delete (fst ke) m end
  else m.

#[global] Instance map_view_view : CCoinsView map_view := {|
  GetCoin v o := (mv_coins v !! o, v);
  GetBestBlock v := (mv_best v, v);
  BatchWrite v l h := Ok (true, {| mv_coins := fold_left mv_apply l (mv_coins v); mv_best := h |});
|}.

Definition mv_ok (v : map_view) : Prop := map_Forall (fun _ coin => coin_ok coin) (mv_coins v).

Lemma mv_apply_lookup m ke o : mv_apply m ke !! o = apply_entry (fun x => m !! x) ke o.
Proof.
  destruct ke as [k e]. unfold mv_apply, apply_entry. cbn [fst snd]. destruct (is_dirty e); [|done].
  destruct (entry_value e); rewrite ?lookup_insert, ?lookup_delete;
    destruct (decide (o = k)) as [->|]; by rewrite ?decide_True, ?decide_False by done.
Qed.

Lemma mv_apply_all l m : forall o, fold_left mv_apply l m !! o = apply_entries l (fun x => m !! x) o.
Proof.
  revert m. induction l as [|ke l IH]; intros m o; [done|]. cbn [fold_left apply_entries]. rewrite IH.
  apply apply_entries_ext. intros x. apply mv_apply_lookup.
Qed.

Lemma mv_apply_ok f l m : Forall (fun ke => entry_ok f (fst ke) (snd ke)) l -> map_Forall (fun _ coin => coin_ok coin) m ->
  map_Forall (fun _ coin => coin_ok coin) (fold_left mv_apply l m).
Proof.
  revert m. induction l as [|[k e] l IH]; intros m Hl Hm; [done|]. apply Forall_cons in Hl as [(_ & He & _) Hl].
  cbn [fold_left]. apply IH; [done|]. unfold mv_apply. cbn [fst snd] in *. destruct (is_dirty e); [|done].
  unfold entry_value. destruct (IsSpent (ce_coin e)); [by apply map_Forall_delete|]. by apply map_Forall_insert_2; auto.
Qed.

#[global] Program Instance map_view_laws : CCoinsViewLaws map_view := {|
  view_ok := mv_ok;
  contents v o := mv_coins v !! o;
  best := mv_best;
|}.
Next Obligation.
  intros b o c Hb Hc. pose proof (Hb o c Hc) as H. split; [|done]. apply money_unspent, H.
Qed.
Next Obligation. done. Qed.
Next Obligation. done. Qed.
Next Obligation.
  intros b l h Hb [Hnd Hl]. eexists true, _. split; [done|]. intros _. split; [by eapply mv_apply_ok|].
  split; [|done]. intros o _. apply mv_apply_all.
Qed.

(** ** Sequences of operations *)

Inductive coin_op : Type :=
| OpAdd (o : COutPoint) (coin : Coin) (possible_overwrite : bool)
| OpSpend (o : COutPoint)
| OpGet (o : COutPoint)
| OpHave (o : COutPoint)
| OpAccess (o : COutPoint)
| OpUncache (o : COutPoint).

(** What the caller of an operation sees; a coin is an unspent one. *)
Inductive observation : Type :=
| SawNothing
| SawCoin (r : option Coin)
| SawBool (b : bool).

Section Traces.
Context {B : Type} `{HV : CCoinsView B}.

Definition unspent (coin : Coin) : option Coin := if IsSpent coin then None else Some coin.

Definition run_op (c : CCoinsViewCache B) (op : coin_op) : result coins_error (observation * CCoinsViewCache B) :=
  match op with
  | OpAdd o coin ow => let! c := AddCoin c o coin ow in Ok (SawNothing, c)
  | OpSpend o => let '(r, c) := SpendCoin c o in Ok (SawCoin (r ≫= unspent), c)
  | OpGet o => let '(r, c) := cache_GetCoin c o in Ok (SawCoin r, c)
  | OpHave o => let '(have, c) := cache_HaveCoin c o in Ok (SawBool have, c)
  | OpAccess o => let '(coin, c) := AccessCoin c o in Ok (SawCoin (unspent coin), c)
  | OpUncache o => Ok (SawNothing, Uncache c o)
  end.

Fixpoint run_ops (c : CCoinsViewCache B) (ops : list coin_op) : result coins_error (list observation * CCoinsViewCache B) :=
  match ops with
  | [] => Ok ([], c)
  | op :: ops =>
      let! r := run_op c op in
      let '(seen, c) := r in
      let! r := run_ops c ops in
      let '(rest, c) := r in
      Ok (seen :: rest, c)
  end.
End Traces.

(** The same on a map. *)
Definition spec_op (f : COutPoint -> option Coin) (op : coin_op) : observation * (COutPoint -> option Coin) :=
  match op with
  | OpAdd o coin _ =>
      (SawNothing, if IsUnspendable (scriptPubKey (coin_out coin)) then f
             else fun x => if decide (x = o) then Some coin else f x)
  | OpSpend o => (SawCoin (f o), fun x => if decide (x = o) then None else f x)
  | OpGet o | OpAccess o => (SawCoin (f o), f)
  | OpHave o => (SawBool (bool_decide (is_Some (f o))), f)
  | OpUncache _ => (SawNothing, f)
  end.

Fixpoint spec_ops (f : COutPoint -> option Coin) (ops : list coin_op) : list observation * (COutPoint -> option Coin) :=
  match ops with
  | [] => ([], f)
  | op :: ops =>
      let '(seen, f) := spec_op f op in
      let '(rest, f) := spec_ops f ops in
      (seen :: rest, f)
  end.

(** What callers owe: outpoints and coins in range, and no silent overwriting. *)
Definition op_ok (f : COutPoint -> option Coin) (op : coin_op) : Prop :=
  match op with
  | OpAdd o coin ow =>
      COutPoint_ok o /\ MoneyRange (nValue (coin_out coin)) = true /\ bytes_ok (scriptPubKey (coin_out coin)) /\
      nRounds (coin_out coin) = -10 /\ is_u 31 (coin_nHeight coin) /\ (ow = false -> f o = None)
  | OpSpend o | OpGet o | OpHave o | OpAccess o | OpUncache o => COutPoint_ok o
  end.

Fixpoint ops_ok (f : COutPoint -> option Coin) (ops : list coin_op) : Prop :=
  match ops with
  | [] => True
  | op :: ops => op_ok f op /\ ops_ok (snd (spec_op f op)) ops
  end.

Section TraceLaws.
Context {B : Type} `{HV : CCoinsView B} {HL : CCoinsViewLaws B}.
Implicit Types (c : CCoinsViewCache B).

Lemma cache_HaveCoin_spec c o : cache_ok c -> COutPoint_ok o ->
  let '(have, c') := cache_HaveCoin c o in
  have = bool_decide (is_Some (cache_contents c o)) /\ cache_ok c' /\
  (forall x, cache_contents c' x = cache_contents c x) /\ cache_best c' = cache_best c.
Proof.
  intros Hc Ho. unfold cache_HaveCoin. pose proof (FetchCoin_spec c o Hc Ho) as Hf.
  destruct (FetchCoin c o) as [it c1]. destruct Hf as (H1 & H2 & H3 & H4 & H5 & H6).
  destruct it as [e|]; split_and!; try done.
  - rewrite (H5 e eq_refl). unfold entry_value. destruct (IsSpent (ce_coin e)); by rewrite ?bool_decide_eq_true_2 by eauto.
  - by rewrite (H6 eq_refl).
Qed.

Lemma AccessCoin_spec c o : cache_ok c -> COutPoint_ok o ->
  let '(coin, c') := AccessCoin c o in
  unspent coin = cache_contents c o /\ cache_ok c' /\
  (forall x, cache_contents c' x = cache_contents c x) /\ cache_best c' = cache_best c.
Proof.
  intros Hc Ho. unfold AccessCoin. pose proof (FetchCoin_spec c o Hc Ho) as Hf.
  destruct (FetchCoin c o) as [it c1]. destruct Hf as (H1 & H2 & H3 & H4 & H5 & H6).
  destruct it as [e|]; split_and!; try done.
  - by rewrite (H5 e eq_refl).
  - by rewrite (H6 eq_refl).
Qed.

Lemma run_op_spec c f op : cache_ok c -> (forall x, cache_contents c x = f x) -> op_ok f op ->
  exists c', run_op c op = Ok (fst (spec_op f op), c') /\ cache_ok c' /\
    forall x, cache_contents c' x = snd (spec_op f op) x.
Proof.
  intros Hc Hf Hop. destruct op as [o coin ow|o|o|o|o|o]; cbn [run_op spec_op fst snd op_ok] in *.
  - destruct Hop as (Ho & Hm & Hb & Hr & Hh & How).
    destruct (AddCoin_spec c o coin ow Hc Ho Hm Hb Hr Hh) as (c' & -> & H1 & _ & H2); [by rewrite Hf|].
    exists c'. split; [done|]. split; [done|]. intros x. rewrite H2.
    destruct (IsUnspendable _); destruct (decide (x = o)) as [->|]; by rewrite ?Hf.
  - pose proof (SpendCoin_spec c o Hc Hop) as Hs. destruct (SpendCoin c o) as [r c'].
    destruct Hs as (H1 & _ & H2 & H3 & H4). exists c'. split; [|split; [done|]].
    + f_equal. f_equal. f_equal. rewrite Hf in H3, H4. destruct (f o) as [coin|] eqn:E.
      * rewrite (H3 coin eq_refl). cbn. unfold unspent.
        destruct (cache_contents_coin c o coin Hc) as [-> _]; [by rewrite Hf|done].
      * destruct r as [coin|]; [|done]. cbn. unfold unspent. by rewrite (H4 eq_refl coin eq_refl).
    + intros x. rewrite H2. by destruct (decide (x = o)); rewrite ?Hf.
  - pose proof (cache_GetCoin_spec c o Hc Hop) as Hs. destruct (cache_GetCoin c o) as [r c'].
    destruct Hs as (-> & H1 & H2 & _). exists c'. rewrite <- Hf. split; [done|]. split; [done|].
    intros x. by rewrite H2, Hf.
  - pose proof (cache_HaveCoin_spec c o Hc Hop) as Hs. destruct (cache_HaveCoin c o) as [r c'].
    destruct Hs as (-> & H1 & H2 & _). exists c'. rewrite <- Hf. split; [done|]. split; [done|].
    intros x. by rewrite H2, Hf.
  - pose proof (AccessCoin_spec c o Hc Hop) as Hs. destruct (AccessCoin c o) as [coin c'].
    destruct Hs as (E & H1 & H2 & _). exists c'. rewrite E, Hf. split; [done|]. split; [done|].
    intros x. by rewrite H2, Hf.
  - destruct (Uncache_spec c o Hc) as (H1 & _ & H2). eexists. split; [done|]. split; [done|].
    intros x. by rewrite H2, Hf.
Qed.

Lemma run_ops_spec ops c f : cache_ok c -> (forall x, cache_contents c x = f x) -> ops_ok f ops ->
  exists c', run_ops c ops = Ok (fst (spec_ops f ops), c') /\ cache_ok c' /\
    forall x, cache_contents c' x = snd (spec_ops f ops) x.
Proof.
  revert c f. induction ops as [|op ops IH]; intros c f Hc Hf Hops; cbn [run_ops spec_ops]; [by exists c|].
  destruct Hops as [Hop Hops]. destruct (run_op_spec c f op Hc Hf Hop) as (c1 & -> & H1 & H2). cbn [rbind].
  destruct (spec_op f op) as [seen f1]. cbn [fst snd] in *.
  destruct (IH c1 f1 H1 H2 Hops) as (c2 & -> & H3 & H4). cbn [rbind]. exists c2.
  by destruct (spec_ops f1 ops) as [rest f2].
Qed.

End TraceLaws.

(** C6: A coins cache is a map.  Over any view that keeps the interface's promise, and
    for any sequence of additions, spends, reads and evictions that respects the
    contract of [AddCoin], no operation throws, every result is the one a plain
    map of unspent coins gives, and the DIRTY and FRESH flags stay right; when the
    cache is then flushed successfully the view below holds that map, and the
    cache, now empty, still stands for it.  The memory accounted for is exactly
    that of the entries held. *)
Theorem coins_cache_refines_map {B : Type} `{HV : CCoinsView B} {HL : CCoinsViewLaws B} (c : CCoinsViewCache B)
    (ops : list coin_op) :
  cache_ok c -> ops_ok (cache_contents c) ops ->
  exists c', run_ops c ops = Ok (fst (spec_ops (cache_contents c) ops), c') /\ cache_ok c' /\
    (forall o, cache_contents c' o = snd (spec_ops (cache_contents c) ops) o) /\
    cachedCoinsUsage c' = u64 (total_usage (cacheCoins c')) /\
    exists fOk c'', Flush c' = Ok (fOk, c'') /\ cacheCoins c'' = ∅ /\
      (fOk = true -> cache_ok c'' /\ forall o, COutPoint_ok o ->
         contents (base c'') o = snd (spec_ops (cache_contents c) ops) o /\
         cache_contents c'' o = snd (spec_ops (cache_contents c) ops) o).
Proof.
  intros Hc Hops. destruct (run_ops_spec ops c (cache_contents c) Hc (fun _ => eq_refl) Hops) as (c' & H1 & H2 & H3).
  exists c'. split; [done|]. split; [done|]. split; [done|]. split; [apply H2|].
  destruct (Flush_spec c' H2) as (fOk & c2 & H4 & H5 & H6). exists fOk, c2. split; [done|]. split; [done|].
  intros E. destruct (H6 E) as [H7 H8]. split; [done|]. intros o Ho. rewrite <- H3. by apply H8.
Qed.

(** A cache on a cache on a map: a coin is added above, spent and added again,
    and one of the map is spent. *)
Definition sample_out (v : Z) : CTxOut := {| nValue := v; scriptPubKey := [0x51]; nRounds := -10 |}.
Definition sample_point (n : Z) : COutPoint := {| op_hash := replicate 32 7; op_n := n |}.
Definition sample_base : map_view :=
  {| mv_coins := {[ sample_point 0 := Coin_new (sample_out 50) 5 true ]}; mv_best := uint256_null |}.
Definition sample_ops : list coin_op :=
  [OpAdd (sample_point 1) (Coin_new (sample_out 60) 6 false) false; OpSpend (sample_point 1); OpGet (sample_point 1);
   OpAdd (sample_point 1) (Coin_new (sample_out 70) 7 false) false; OpHave (sample_point 0); OpSpend (sample_point 0);
   OpAccess (sample_point 0); OpUncache (sample_point 1); OpAccess (sample_point 1)].

Lemma sample_point_ok n : is_u 32 n -> COutPoint_ok (sample_point n).
Proof. intros Hn. split; [|done]. split; [done|]. repeat constructor; unfold is_u; lia. Qed.

Lemma sample_cache_ok : cache_ok (CCoinsViewCache_new (CCoinsViewCache_new sample_base)).
Proof.
  split; [split; [|apply map_Forall_empty|reflexivity]|apply map_Forall_empty|reflexivity].
  apply map_Forall_singleton. split; [reflexivity|reflexivity| |reflexivity|split; vm_compute; [discriminate|reflexivity]].
  repeat constructor; unfold is_u; lia.
Qed.

Lemma coins_cache_refines_map_witness :
  exists c', run_ops (CCoinsViewCache_new (CCoinsViewCache_new sample_base)) sample_ops =
    Ok ([SawNothing; SawCoin (Some (Coin_new (sample_out 60) 6 false)); SawCoin None; SawNothing; SawBool true;
         SawCoin (Some (Coin_new (sample_out 50) 5 true)); SawCoin None; SawNothing;
         SawCoin (Some (Coin_new (sample_out 70) 7 false))], c').
Proof.
  destruct (coins_cache_refines_map (CCoinsViewCache_new (CCoinsViewCache_new sample_base)) sample_ops sample_cache_ok)
    as (c' & H & _).
  - assert (bytes_ok [0x51]) as Hb by (repeat constructor; unfold is_u; lia).
    refine (conj _ (conj _ (conj _ (conj _ (conj _ (conj _ (conj _ (conj _ (conj _ I)))))))));
      try (apply sample_point_ok; unfold is_u; lia).
    + split; [apply sample_point_ok; unfold is_u; lia|]. split; [reflexivity|]. split; [exact Hb|].
      split; [reflexivity|]. split; [split; vm_compute; [discriminate|reflexivity]|]. intros _. vm_compute. reflexivity.
    + split; [apply sample_point_ok; unfold is_u; lia|]. split; [reflexivity|]. split; [exact Hb|].
      split; [reflexivity|]. split; [split; vm_compute; [discriminate|reflexivity]|]. intros _. vm_compute. reflexivity.
  - exists c'. refine (eq_trans H _). f_equal.
Defined.
