(* ===== verification/UtxoBlock.v ===== *)
(** * Blocks and the unspent outputs (src/src/validation.cpp, src/src/coins.cpp)

    What connecting a block does to the coins view and what disconnecting it
    undoes: [UpdateCoins] for each transaction, recording the coins spent, and the
    loop of [DisconnectBlock] with [ApplyTxInUndo].  The optional address and spent
    indexes are off.  The theorem is that disconnecting a block restores the view. *)

From S2P Require Import Prelude Bytes Script Amount Transaction Coins.
From stdpp Require Import list gmap.
Local Open Scope Z_scope.
Local Open Scope cxx_scope.

Inductive DisconnectResult : Type := DISCONNECT_OK | DISCONNECT_UNCLEAN | DISCONNECT_FAILED.

#[global] Instance DisconnectResult_eq_dec : EqDecision DisconnectResult.
Proof. solve_decision. Defined.

(** [MaxBlockSize(true) / GetSerializeSize(CTxOut())] *)
Definition MAX_DIP0001_BLOCK_SIZE : Z := 2000000.
Definition MAX_OUTPUTS_PER_BLOCK : Z := MAX_DIP0001_BLOCK_SIZE / Containers.GetSerializeSize CTxOut_null.

Section Blocks.
Context {B : Type} `{HV : CCoinsView B}.
Implicit Types (view : CCoinsViewCache B).

(** ** Connecting *)

(** [SpendCoin] with [assert(is_spent)] for every input; the coins moved out. *)
Fixpoint spend_inputs view (ins : list CTxIn) : result coins_error (list Coin * CCoinsViewCache B) :=
  match ins with
  | [] => Ok ([], view)
  | txin :: ins =>
      let '(moved, view) := SpendCoin view (prevout txin) in
      match moved with
      | None => Throw AssertionFailed
      | Some coin =>
          let! r := spend_inputs view ins in
          Ok (coin :: fst r, snd r)
      end
  end.

Definition UpdateCoins (tx : CTransaction) view (nHeight : Z) : result coins_error (list Coin * CCoinsViewCache B) :=
  let! r := if negb (IsCoinBase (tx_data tx)) then spend_inputs view (vin (tx_data tx)) else Ok ([], view) in
  let '(vprevout, view) := r in
  let! view := AddCoins view tx nHeight in
  Ok (vprevout, view).

(** The transactions of [ConnectBlock] after their checks: the undo record of
    the first is a dummy. *)
Fixpoint connect_rest view (vtx : list CTransaction) (nHeight : Z) :
  result coins_error (list (list Coin) * CCoinsViewCache B) :=
  match vtx with
  | [] => Ok ([], view)
  | tx :: vtx =>
      let! r := UpdateCoins tx view nHeight in
      let '(undo, view) := r in
      let! r := connect_rest view vtx nHeight in
      Ok (undo :: fst r, snd r)
  end.

Definition connect_coins view (vtx : list CTransaction) (nHeight : Z) (blockHash : list Z) :
  result coins_error (list (list Coin) * CCoinsViewCache B) :=
  match vtx with
  | [] => Ok ([], SetBestBlock view blockHash)
  | tx :: vtx =>
      let! r := UpdateCoins tx view nHeight in
      let! r := connect_rest (snd r) vtx nHeight in
      Ok (fst r, SetBestBlock (snd r) blockHash)
  end.

(** ** Disconnecting *)

Fixpoint access_by_txid (fuel : nat) view (txid : list Z) (n : Z) : Coin * CCoinsViewCache B :=
  match fuel with
  | O => (coinEmpty, view)
  | S fuel =>
      let '(alternate, view) := AccessCoin view {| op_hash := txid; op_n := n |} in
      if negb (IsSpent alternate) then (alternate, view) else access_by_txid fuel view txid (n + 1)
  end.
Definition AccessByTxid view (txid : list Z) : Coin * CCoinsViewCache B :=
  access_by_txid (Z.to_nat MAX_OUTPUTS_PER_BLOCK) view txid 0.

Definition ApplyTxInUndo (undo : Coin) view (out : COutPoint) : result coins_error (DisconnectResult * CCoinsViewCache B) :=
  let '(have, view) := cache_HaveCoin view out in
  let fClean := negb have in
  let '(metadata, view) :=
    if coin_nHeight undo =? 0 then
      let '(alternate, view) := AccessByTxid view (op_hash out) in
      if negb (IsSpent alternate)
      then (Some {| coin_out := coin_out undo; fCoinBase := fCoinBase alternate; coin_nHeight := coin_nHeight alternate |}, view)
      else (None, view)
    else (Some undo, view) in
  match metadata with
  | None => Ok (DISCONNECT_FAILED, view)
  | Some undo =>
      let! view := AddCoin view out undo (fCoinBase undo) in
      Ok (if fClean then DISCONNECT_OK else DISCONNECT_UNCLEAN, view)
  end.

(** The check and removal of the outputs of one transaction. *)
Fixpoint remove_outputs view (hash : list Z) (i : nat) (outs : list CTxOut) (is_coinbase : bool) (nHeight : Z)
    (fClean : bool) : bool * CCoinsViewCache B :=
  match outs with
  | [] => (fClean, view)
  | txout :: outs =>
      if negb (IsUnspendable (scriptPubKey txout)) then
        let '(moved, view) := SpendCoin view {| op_hash := hash; op_n := u32 (Z.of_nat i) |} in
        let ok := match moved with
                  | None => false
                  | Some coin => bool_decide (txout = coin_out coin) && (nHeight =? coin_nHeight coin) &&
                                 eqb is_coinbase (fCoinBase coin)
                  end in
        remove_outputs view hash (S i) outs is_coinbase nHeight (if negb ok then false else fClean)
      else remove_outputs view hash (S i) outs is_coinbase nHeight fClean
  end.

(** The inputs with their undo records, last first; [None] is a return of
    DISCONNECT_FAILED. *)
Fixpoint restore_inputs view (l : list (CTxIn * Coin)) (fClean : bool) :
  result coins_error (option bool * CCoinsViewCache B) :=
  match l with
  | [] => Ok (Some fClean, view)
  | (txin, undo) :: l =>
      let! r := ApplyTxInUndo undo view (prevout txin) in
      let '(res, view) := r in
      if decide (res = DISCONNECT_FAILED) then Ok (None, view)
      else restore_inputs view l (fClean && bool_decide (res <> DISCONNECT_UNCLEAN))
  end.

(** The loop over the transactions, last first; only the first of the block has
    no undo record. *)
Fixpoint undo_transactions view (l : list (CTransaction * option (list Coin))) (nHeight : Z) (fClean : bool) :
  result coins_error (option bool * CCoinsViewCache B) :=
  match l with
  | [] => Ok (Some fClean, view)
  | (tx, txundo) :: l =>
      let f := tx_data tx in
      let '(fClean, view) := remove_outputs view (tx_hash tx) 0 (vout f) (IsCoinBase f) nHeight fClean in
      let! r :=
        match txundo with
        | None => Ok (Some fClean, view)
        | Some vprevout =>
            if negb (length vprevout =? length (vin f))%nat then Ok (None, view)
            else restore_inputs view (reverse (zip (vin f) vprevout)) fClean
        end in
      let '(clean, view) := r in
      match clean with
      | None => Ok (None, view)
      | Some fClean => undo_transactions view l nHeight fClean
      end
  end.

Definition disconnect_coins view (vtx : list CTransaction) (vtxundo : list (list Coin)) (nHeight : Z)
    (prevHash : list Z) : result coins_error (DisconnectResult * CCoinsViewCache B) :=
  if negb (length vtxundo + 1 =? length vtx)%nat then Ok (DISCONNECT_FAILED, view)
  else
    let! r := undo_transactions view (reverse (zip vtx (None :: map Some vtxundo))) nHeight true in
    let '(clean, view) := r in
    match clean with
    | None => Ok (DISCONNECT_FAILED, view)
    | Some fClean => Ok (if fClean then DISCONNECT_OK else DISCONNECT_UNCLEAN, SetBestBlock view prevHash)
    end.

End Blocks.

(** ** What a block does to the map of coins *)

Definition same (f g : COutPoint -> option Coin) : Prop := forall x, f x = g x.

(** The map after spending, and the outpoints a transaction creates. *)
Definition without (o : COutPoint) (f : COutPoint -> option Coin) : COutPoint -> option Coin :=
  fun x => if decide (x = o) then None else f x.

Fixpoint spent (f : COutPoint -> option Coin) (ins : list CTxIn) : COutPoint -> option Coin :=
  match ins with
  | [] => f
  | i :: ins => spent (without (prevout i) f) ins
  end.

Definition point (txid : list Z) (i : nat) : COutPoint := {| op_hash := txid; op_n := u32 (Z.of_nat i) |}.

Fixpoint created (txid : list Z) (i : nat) (outs : list CTxOut) (nHeight : Z) (cb : bool) (x : COutPoint) : option Coin :=
  match outs with
  | [] => None
  | out :: outs =>
      if decide (x = point txid i)
      then if IsUnspendable (scriptPubKey out) then None else Some (Coin_new out nHeight cb)
      else created txid (S i) outs nHeight cb x
  end.

Definition with_created (txid : list Z) (i : nat) (outs : list CTxOut) (nHeight : Z) (cb : bool)
    (f : COutPoint -> option Coin) : COutPoint -> option Coin :=
  fun x => match created txid i outs nHeight cb x with Some coin => Some coin | None => f x end.

Definition after_inputs (f : COutPoint -> option Coin) (tx : CTransaction) : COutPoint -> option Coin :=
  if IsCoinBase (tx_data tx) then f else spent f (vin (tx_data tx)).
Definition after_tx (f : COutPoint -> option Coin) (tx : CTransaction) (nHeight : Z) : COutPoint -> option Coin :=
  with_created (tx_hash tx) 0 (vout (tx_data tx)) nHeight (IsCoinBase (tx_data tx)) (after_inputs f tx).
Definition after_block (f : COutPoint -> option Coin) (vtx : list CTransaction) (nHeight : Z) :=
  fold_left (fun f tx => after_tx f tx nHeight) vtx f.

(** What the checks before [UpdateCoins] ensure: inputs exist (and were not
    created in the genesis block), outputs are amounts of money and do not hide
    an existing coin. *)
Fixpoint inputs_ok (f : COutPoint -> option Coin) (ins : list CTxIn) : Prop :=
  match ins with
  | [] => True
  | i :: ins =>
      COutPoint_ok (prevout i) /\ (exists coin, f (prevout i) = Some coin /\ coin_nHeight coin <> 0) /\
      inputs_ok (without (prevout i) f) ins
  end.

Definition output_ok (out : CTxOut) : Prop :=
  MoneyRange (nValue out) = true /\ bytes_ok (scriptPubKey out) /\ nRounds out = -10.

Definition outputs_ok (f : COutPoint -> option Coin) (txid : list Z) (i : nat) (outs : list CTxOut) : Prop :=
  Forall output_ok outs /\ forall j, (i <= j < i + length outs)%nat -> f (point txid j) = None.

Record tx_valid (f : COutPoint -> option Coin) (tx : CTransaction) : Prop := {
  valid_txid : uint256_ok (tx_hash tx);
  valid_inputs : IsCoinBase (tx_data tx) = false -> inputs_ok f (vin (tx_data tx));
  valid_size : Z.of_nat (length (vout (tx_data tx))) < 2 ^ 32;
  valid_outputs : outputs_ok (after_inputs f tx) (tx_hash tx) 0 (vout (tx_data tx));
}.

Fixpoint txs_valid (f : COutPoint -> option Coin) (vtx : list CTransaction) (nHeight : Z) : Prop :=
  match vtx with
  | [] => True
  | tx :: vtx => IsCoinBase (tx_data tx) = false /\ tx_valid f tx /\ txs_valid (after_tx f tx nHeight) vtx nHeight
  end.

Definition block_valid (f : COutPoint -> option Coin) (vtx : list CTransaction) (nHeight : Z) : Prop :=
  match vtx with
  | [] => False
  | tx :: vtx => IsCoinBase (tx_data tx) = true /\ tx_valid f tx /\ txs_valid (after_tx f tx nHeight) vtx nHeight
  end.

(** *** These depend on the map's values only *)

Lemma without_same o f g : same f g -> same (without o f) (without o g).
Proof. intros E x. unfold without. by destruct (decide (x = o)). Qed.

Lemma spent_same ins f g : same f g -> same (spent f ins) (spent g ins).
Proof. revert f g. induction ins as [|i ins IH]; intros f g E; [done|]. by apply IH, without_same. Qed.

Lemma inputs_ok_same ins f g : same f g -> inputs_ok f ins -> inputs_ok g ins.
Proof.
  revert f g. induction ins as [|i ins IH]; intros f g E; [done|]. cbn [inputs_ok].
  rewrite (E (prevout i)). intros (H1 & H2 & H3). split_and!; try done. eapply IH; [|exact H3]. by apply without_same.
Qed.

Lemma after_inputs_same tx f g : same f g -> same (after_inputs f tx) (after_inputs g tx).
Proof. intros E. unfold after_inputs. destruct (IsCoinBase _); [done|]. by apply spent_same. Qed.

Lemma after_tx_same tx h f g : same f g -> same (after_tx f tx h) (after_tx g tx h).
Proof. intros E x. unfold after_tx, with_created. destruct (created _ _ _ _ _ x); [done|]. by apply after_inputs_same. Qed.

Lemma tx_valid_same tx f g : same f g -> tx_valid f tx -> tx_valid g tx.
Proof.
  intros E [H1 H2 H3 [H4 H5]]. split; try done.
  - intros Hcb. by eapply inputs_ok_same, H2.
  - split; [done|]. intros j Hj. rewrite <- (after_inputs_same tx f g E). by apply H5.
Qed.

Lemma txs_valid_same vtx h f g : same f g -> txs_valid f vtx h -> txs_valid g vtx h.
Proof.
  revert f g. induction vtx as [|tx vtx IH]; intros f g E; [done|]. intros (H1 & H2 & H3).
  split_and!; [done|by eapply tx_valid_same|]. eapply IH; [|exact H3]. by apply after_tx_same.
Qed.

Lemma point_inj txid i j : Z.of_nat i < 2 ^ 32 -> Z.of_nat j < 2 ^ 32 -> point txid i = point txid j -> i = j.
Proof. unfold point. intros Hi Hj [= E]. rewrite !u32_id in E by (unfold is_u; lia). lia. Qed.

Lemma point_ok txid i : uint256_ok txid -> COutPoint_ok (point txid i).
Proof. intros Ht. split; [done|]. apply u32_range. Qed.

Lemma created_below txid i j outs h cb : (i < j)%nat -> Z.of_nat (j + length outs) <= 2 ^ 32 ->
  created txid j outs h cb (point txid i) = None.
Proof.
  revert j. induction outs as [|out outs IH]; intros j Hij Hj; [done|]. cbn [created length] in *.
  rewrite decide_False; [apply IH; lia|]. intros E. apply point_inj in E; lia.
Qed.

(** ** The cache follows *)

Section Effects.
Context {B : Type} `{HV : CCoinsView B} {HL : CCoinsViewLaws B}.
Implicit Types (view : CCoinsViewCache B).

(** A usable cache standing for [f]. *)
Definition holds view (f : COutPoint -> option Coin) : Prop := cache_ok view /\ same (cache_contents view) f.

Lemma holds_same view f g : same f g -> holds view f -> holds view g.
Proof. intros E [H1 H2]. split; [done|]. intros x. by rewrite H2, E. Qed.

Lemma spend_holds view f o coin : holds view f -> COutPoint_ok o -> f o = Some coin ->
  exists view', SpendCoin view o = (Some coin, view') /\ holds view' (without o f) /\ coin_ok coin.
Proof.
  intros [Hc Hf] Ho Hcoin. pose proof (SpendCoin_spec view o Hc Ho) as Hs.
  destruct (SpendCoin view o) as [r view']. destruct Hs as (H1 & _ & H2 & H3 & _). exists view'.
  rewrite <- Hf in Hcoin. rewrite (H3 coin Hcoin). split; [done|]. split.
  - split; [done|]. intros x. rewrite H2. unfold without. by rewrite Hf.
  - by apply (cache_contents_coin view o).
Qed.

Lemma add_holds view f o coin ow : holds view f -> COutPoint_ok o -> coin_ok coin -> f o = None ->
  exists view', AddCoin view o coin ow = Ok view' /\ holds view' (fun x => if decide (x = o) then Some coin else f x).
Proof.
  intros [Hc Hf] Ho [H1 H2 H3 H4 H5] Hn.
  destruct (AddCoin_spec view o coin ow Hc Ho H1 H3 H4 H5) as (view' & E & H6 & _ & H7); [intros _; by rewrite Hf|].
  exists view'. split; [done|]. split; [done|]. intros x. rewrite H7, H2. by rewrite Hf.
Qed.

Lemma restore_inputs_app view l1 l2 b :
  restore_inputs view (l1 ++ l2) b =
  (let! r := restore_inputs view l1 b in
   match fst r with None => Ok (None, snd r) | Some b => restore_inputs (snd r) l2 b end).
Proof.
  revert view b. induction l1 as [|[i u] l1 IH]; intros view b; [done|]. cbn [app restore_inputs].
  destruct (ApplyTxInUndo u view (prevout i)) as [[res v]|]; [|done]. cbn [rbind].
  destruct (decide (res = DISCONNECT_FAILED)); [done|apply IH].
Qed.

(** Undoing one spend. *)
Lemma ApplyTxInUndo_holds view f o coin : holds view (without o f) -> COutPoint_ok o -> f o = Some coin ->
  coin_ok coin -> coin_nHeight coin <> 0 ->
  exists view', ApplyTxInUndo coin view o = Ok (DISCONNECT_OK, view') /\ holds view' f.
Proof.
  intros [Hc Hf] Ho Hcoin Hok Hh. unfold ApplyTxInUndo.
  assert (without o f o = None) as Hn by (unfold without; by rewrite decide_True).
  pose proof (cache_HaveCoin_spec view o Hc Ho) as Hhave. destruct (cache_HaveCoin view o) as [have v1].
  destruct Hhave as (-> & H1 & H2 & _). rewrite Hf, Hn, bool_decide_eq_false_2 by (intros [? ?]; done).
  rewrite (proj2 (Z.eqb_neq _ _)) by done. cbn [negb].
  destruct (add_holds v1 (without o f) o coin (fCoinBase coin)) as (v2 & -> & H3); try done.
  { split; [done|]. intros x. by rewrite H2. }
  exists v2. split; [done|]. eapply holds_same; [|exact H3]. intros x. unfold without.
  by destruct (decide (x = o)) as [->|].
Qed.

Lemma spend_inputs_holds view f ins : holds view f -> inputs_ok f ins ->
  exists coins view', spend_inputs view ins = Ok (coins, view') /\ holds view' (spent f ins) /\
    length coins = length ins /\
    forall view2 b, holds view2 (spent f ins) ->
      exists view3, restore_inputs view2 (reverse (zip ins coins)) b = Ok (Some b, view3) /\ holds view3 f.
Proof.
  revert view f. induction ins as [|i ins IH]; intros view f Hv Hins; cbn [spend_inputs spent].
  { exists [], view. split_and!; try done. intros view2 b H2. by exists view2. }
  destruct Hins as (Ho & (coin & Hcoin & Hh) & Hins).
  destruct (spend_holds view f (prevout i) coin Hv Ho Hcoin) as (v1 & -> & H1 & Hok).
  destruct (IH v1 _ H1 Hins) as (coins & v2 & -> & H2 & Hlen & Hundo). cbn [rbind fst snd].
  exists (coin :: coins), v2. split_and!; [done|done|cbn; by rewrite Hlen|].
  intros view2 b Hv2. cbn [zip zip_with]. rewrite reverse_cons, restore_inputs_app.
  destruct (Hundo view2 b Hv2) as (v3 & -> & H3). cbn [rbind fst snd restore_inputs].
  destruct (ApplyTxInUndo_holds v3 f (prevout i) coin H3 Ho Hcoin Hok Hh) as (v4 & -> & H4). cbn [rbind].
  rewrite decide_False by done. rewrite bool_decide_eq_true_2, andb_true_r by done. by exists v4.
Qed.

(** Outputs added and removed again. *)
Lemma AddCoins_holds view f txid i outs cb h : holds view f -> uint256_ok txid -> is_u 31 h ->
  Z.of_nat (i + length outs) <= 2 ^ 32 -> outputs_ok f txid i outs ->
  exists view', AddCoins_loop view txid i outs cb h = Ok view' /\ holds view' (with_created txid i outs h cb f).
Proof.
  intros Hv Ht Hh. revert view f i Hv. induction outs as [|out outs IH]; intros view f i Hv Hi [Hall Hfree];
    cbn [AddCoins_loop]; [by exists view|].
  apply Forall_cons in Hall as [(Hm & Hb & Hr) Hall]. cbn [length] in *.
  change {| op_hash := txid; op_n := u32 (Z.of_nat i) |} with (point txid i).
  destruct Hv as [Hc Hf]. assert (f (point txid i) = None) as Hn by (apply Hfree; lia).
  destruct (AddCoin_spec view (point txid i) (Coin_new out h cb) cb Hc) as (v1 & -> & H1 & _ & H2); try done.
  { by apply point_ok. }
  { cbn [Coin_new coin_nHeight]. apply wrapu_range. lia. }
  { intros _. by rewrite Hf. }
  cbn [rbind coin_out Coin_new] in *.
  set (g := fun x => if decide (x = point txid i) then if IsUnspendable (scriptPubKey out) then None else Some (Coin_new out h cb) else f x).
  destruct (IH v1 g (S i)) as (v2 & -> & H3).
  - split; [done|]. intros x. rewrite H2. unfold g. destruct (decide (x = point txid i)) as [->|]; [|apply Hf].
    destruct (IsUnspendable _); [|done]. by rewrite Hf.
  - lia.
  - split; [done|]. intros j Hj. unfold g. rewrite decide_False; [apply Hfree; lia|].
    intros E. apply point_inj in E; lia.
  - exists v2. split; [done|]. eapply holds_same; [|exact H3]. intros x. unfold with_created, g. cbn [created].
    destruct (decide (x = point txid i)) as [->|Hne].
    + rewrite created_below by lia. destruct (IsUnspendable _); [by rewrite Hn|done].
    + done.
Qed.

Lemma remove_outputs_holds view f txid i outs cb h b : uint256_ok txid -> is_u 31 h ->
  Z.of_nat (i + length outs) <= 2 ^ 32 -> outputs_ok f txid i outs ->
  holds view (with_created txid i outs h cb f) ->
  exists view', remove_outputs view txid i outs cb h b = (b, view') /\ holds view' f.
Proof.
  intros Ht Hh. revert view i. induction outs as [|out outs IH]; intros view i Hi [Hall Hfree] Hv;
    cbn [remove_outputs]; [by exists view|].
  apply Forall_cons in Hall as [_ Hall]. cbn [length] in *.
  assert (outputs_ok f txid (S i) outs) as Hrest by (split; [done|]; intros j Hj; apply Hfree; lia).
  assert (forall x, x <> point txid i -> with_created txid i (out :: outs) h cb f x = with_created txid (S i) outs h cb f x)
    as Hoff by (intros x Hx; unfold with_created; cbn [created]; by rewrite decide_False).
  assert (with_created txid (S i) outs h cb f (point txid i) = None) as Hafter
    by (unfold with_created; rewrite created_below by lia; apply Hfree; lia).
  destruct (IsUnspendable (scriptPubKey out)) eqn:Eu; cbn [negb].
  - apply IH; [lia|done|]. eapply holds_same; [|exact Hv]. intros x.
    destruct (decide (x = point txid i)) as [->|Hne]; [|by apply Hoff].
    rewrite Hafter. unfold with_created. cbn [created]. rewrite decide_True, Eu by done. apply Hfree. lia.
  - change {| op_hash := txid; op_n := u32 (Z.of_nat i) |} with (point txid i).
    destruct (spend_holds view _ (point txid i) (Coin_new out h cb) Hv) as (v1 & -> & H1 & _).
    { by apply point_ok. }
    { unfold with_created. cbn [created]. by rewrite decide_True, Eu. }
    cbn [coin_out Coin_new coin_nHeight fCoinBase]. rewrite wrapu_id by done.
    rewrite bool_decide_eq_true_2, Z.eqb_refl, eqb_reflx by done. cbn [andb negb].
    apply IH; [lia|done|]. eapply holds_same; [|exact H1]. intros x. unfold without.
    destruct (decide (x = point txid i)) as [->|Hne]; [by rewrite Hafter|by apply Hoff].
Qed.

(** ** Transactions and blocks *)

Lemma undo_transactions_app view l1 l2 h b :
  undo_transactions view (l1 ++ l2) h b =
  (let! r := undo_transactions view l1 h b in
   match fst r with None => Ok (None, snd r) | Some b => undo_transactions (snd r) l2 h b end).
Proof.
  revert view b. induction l1 as [|[tx u] l1 IH]; intros view b; [done|]. cbn [app undo_transactions].
  destruct (remove_outputs _ _ _ _ _ _ _) as [b1 v1].
  match goal with |- (let! r := ?m in _) = _ => destruct m as [[[b2|] v2]|]; [apply IH|done|done] end.
Qed.

(** [u] is the undo record as [DisconnectBlock] looks it up. *)
Lemma UpdateCoins_holds view f tx h u : holds view f -> tx_valid f tx -> is_u 31 h ->
  (u = IsCoinBase (tx_data tx)) ->
  exists undo view', UpdateCoins tx view h = Ok (undo, view') /\ holds view' (after_tx f tx h) /\
    forall view2 b, holds view2 (after_tx f tx h) ->
      exists view3, undo_transactions view2 [(tx, if u then None else Some undo)] h b = Ok (Some b, view3) /\
        holds view3 f.
Proof.
  intros Hv [Ht Hin Hsz Hout] Hh ->. unfold UpdateCoins, after_tx, AddCoins in *.
  set (g := after_inputs f tx) in *.
  assert (exists undo v1, (if negb (IsCoinBase (tx_data tx)) then spend_inputs view (vin (tx_data tx)) else Ok ([], view))
      = Ok (undo, v1) /\ holds v1 g /\
    forall view2 b, holds view2 g -> exists view3,
      (if IsCoinBase (tx_data tx) then Ok (Some b, view2)
       else if negb (length undo =? length (vin (tx_data tx)))%nat then Ok (None, view2)
       else restore_inputs view2 (reverse (zip (vin (tx_data tx)) undo)) b) = Ok (Some b, view3) /\ holds view3 f)
    as (undo & v1 & -> & H1 & Hundo).
  { subst g. unfold after_inputs. destruct (IsCoinBase (tx_data tx)) eqn:Ecb; cbn [negb].
    - exists [], view. split; [done|]. split; [done|]. intros view2 b H2. by exists view2.
    - destruct (spend_inputs_holds view f (vin (tx_data tx)) Hv (Hin eq_refl)) as (undo & v1 & E & H1 & Hl & Hu).
      exists undo, v1. split; [done|]. split; [done|]. intros view2 b H2. rewrite Hl, Nat.eqb_refl. by apply Hu. }
  cbn [rbind].
  destruct (AddCoins_holds v1 g (tx_hash tx) 0 (vout (tx_data tx)) (IsCoinBase (tx_data tx)) h) as (v2 & -> & H2);
    [done|done|done|cbn [Nat.add]; lia|done|]. cbn [rbind].
  exists undo, v2. split; [done|]. split; [done|]. intros view2 b Hv2. cbn [undo_transactions].
  destruct (remove_outputs_holds view2 g (tx_hash tx) 0 (vout (tx_data tx)) (IsCoinBase (tx_data tx)) h b) as (v3 & -> & H3);
    [done|done|cbn [Nat.add]; lia|done|done|].
  destruct (Hundo v3 b H3) as (v4 & E & H4). exists v4. split; [|done].
  destruct (IsCoinBase (tx_data tx)).
  - injection E as ->. done.
  - by rewrite E.
Qed.

Lemma connect_rest_holds view f vtx h : holds view f -> txs_valid f vtx h -> is_u 31 h ->
  exists undos view', connect_rest view vtx h = Ok (undos, view') /\ holds view' (after_block f vtx h) /\
    length undos = length vtx /\
    forall view2 b, holds view2 (after_block f vtx h) ->
      exists view3, undo_transactions view2 (reverse (zip vtx (map Some undos))) h b = Ok (Some b, view3) /\
        holds view3 f.
Proof.
  intros Hv Hvalid Hh. revert view f Hv Hvalid. induction vtx as [|tx vtx IH]; intros view f Hv Hvalid; cbn [connect_rest].
  { exists [], view. split_and!; try done. intros view2 b H2. by exists view2. }
  destruct Hvalid as (Hcb & Htx & Hvalid).
  destruct (UpdateCoins_holds view f tx h _ Hv Htx Hh eq_refl) as (undo & v1 & -> & H1 & Hundo). cbn [rbind].
  destruct (IH v1 _ H1 Hvalid) as (undos & v2 & -> & H2 & Hlen & Hrest). cbn [rbind fst snd].
  exists (undo :: undos), v2. split_and!; [done|done|cbn; by rewrite Hlen|].
  intros view2 b Hv2. cbn [map zip zip_with]. rewrite reverse_cons, undo_transactions_app.
  destruct (Hrest view2 b Hv2) as (v3 & -> & H3). cbn [rbind fst snd].
  rewrite Hcb in Hundo. by apply Hundo.
Qed.

End Effects.

(** ** Disconnecting what was connected *)

Section Restore.
Context {B : Type} `{HV : CCoinsView B} {HL : CCoinsViewLaws B}.
Implicit Types (view : CCoinsViewCache B).

Lemma best_holds view f h : holds view f -> holds (SetBestBlock view h) f.
Proof. intros [[H1 H2 H3] H4]. by split. Qed.

(** C7: Connecting a valid block never fails and leaves the view with exactly the
    coins the block's transactions spend and create, at the block's hash; and the
    undo records it returns are enough: from any usable view with those coins,
    disconnecting the block returns DISCONNECT_OK and a view with exactly the coins
    there were before, at the previous block's hash. *)
Theorem disconnect_restores view vtx h blockHash prevHash :
  cache_ok view -> is_u 31 h -> block_valid (cache_contents view) vtx h ->
  exists undos view',
    connect_coins view vtx h blockHash = Ok (undos, view') /\ cache_ok view' /\ hashBlock view' = blockHash /\
    (forall o, cache_contents view' o = after_block (cache_contents view) vtx h o) /\
    forall view2, cache_ok view2 -> (forall o, cache_contents view2 o = cache_contents view' o) ->
      exists view3, disconnect_coins view2 vtx undos h prevHash = Ok (DISCONNECT_OK, view3) /\
        cache_ok view3 /\ hashBlock view3 = prevHash /\ (forall o, cache_contents view3 o = cache_contents view o).
Proof.
  intros Hc Hh Hvalid. destruct vtx as [|tx vtx]; [done|]. destruct Hvalid as (Hcb & Htx & Hvalid).
  set (f := cache_contents view) in *.
  destruct (UpdateCoins_holds view f tx h true) as (undo & v1 & E1 & H1 & Hundo); try done.
  destruct (connect_rest_holds v1 _ vtx h H1 Hvalid Hh) as (undos & v2 & E2 & [H2 H2'] & Hlen & Hrest).
  pose proof (best_holds v2 _ blockHash (conj H2 H2')) as [Hb Hb'].
  exists undos, (SetBestBlock v2 blockHash). unfold connect_coins. rewrite E1. cbn [rbind snd]. rewrite E2.
  cbn [rbind fst snd]. split_and!; try done.
  intros view2 Hc2 Hsame. assert (holds view2 (after_block f (tx :: vtx) h)) as Hv2.
  { split; [done|]. intros o. rewrite Hsame. apply H2'. }
  unfold disconnect_coins. cbn [length]. rewrite Hlen, Nat.add_1_r, Nat.eqb_refl. cbn [negb zip zip_with].
  rewrite reverse_cons, undo_transactions_app.
  destruct (Hrest view2 true Hv2) as (v3 & -> & H3). cbn [rbind fst snd].
  destruct (Hundo v3 true H3) as (v4 & -> & H4). cbn [rbind].
  destruct (best_holds v4 _ prevHash H4) as [Hd Hd']. by exists (SetBestBlock v4 prevHash).
Qed.

End Restore.

(** A coinbase, a transaction that spends a coin of the map into two outputs (one
    unspendable) and one that spends the first of these. *)
Definition block_tx (h : Z) (ins : list COutPoint) (outs : list CTxOut) : CTransaction :=
  {| tx_data := {| nVersion := 2; nType := 0; vin := map (fun o => {| prevout := o; scriptSig := []; nSequence := 0 |}) ins;
                   vout := outs; nLockTime := 0; vExtraPayload := [] |};
     tx_hash := replicate 32 h |}.
Definition block_sample : list CTransaction :=
  [block_tx 1 [COutPoint_null] [sample_out 25];
   block_tx 2 [sample_point 0] [sample_out 40; {| nValue := 0; scriptPubKey := [0x6a]; nRounds := -10 |}];
   block_tx 3 [point (replicate 32 2) 0] [sample_out 39]].
Definition block_view : CCoinsViewCache (CCoinsViewCache map_view) := CCoinsViewCache_new (CCoinsViewCache_new sample_base).

Lemma block_sample_valid : block_valid (cache_contents block_view) block_sample 6.
Proof.
  assert (forall o, In o [sample_out 25; sample_out 40; sample_out 39;
    {| nValue := 0; scriptPubKey := [0x6a]; nRounds := -10 |}] -> output_ok o) as Hout.
  { intros o Ho. assert (bytes_ok [0x51] /\ bytes_ok [0x6a]) as [? ?] by (split; repeat constructor; unfold is_u; lia).
    repeat destruct Ho as [<-|Ho]; try done. }
  assert (forall h, is_u 8 h -> uint256_ok (replicate 32 h)) as Hh by (intros h H; split; [done|]; by apply Forall_replicate).
  split; [done|]. split; [|split; [done|split; [|split; [done|split; [|done]]]]]; split.
  - apply Hh. unfold is_u. lia.
  - done.
  - done.
  - split; [apply List.Forall_forall; intros o Ho; apply Hout; cbn in *; tauto|].
    intros [|j] Hj; cbn [length] in Hj; [by vm_compute|cbn in Hj; lia].
  - apply Hh. unfold is_u. lia.
  - intros _. split; [apply sample_point_ok; unfold is_u; lia|]. split; [|done]. eexists. by split; [vm_compute|].
  - done.
  - split; [apply List.Forall_forall; intros o Ho; apply Hout; cbn in *; tauto|].
    intros [|[|j]] Hj; [by vm_compute|by vm_compute|cbn in Hj; lia].
  - apply Hh. unfold is_u. lia.
  - intros _. split; [split; [apply Hh|apply u32_range]; unfold is_u; lia|]. split; [|done]. eexists. by split; [vm_compute|].
  - done.
  - split; [apply List.Forall_forall; intros o Ho; apply Hout; cbn in *; tauto|].
    intros [|j] Hj; [by vm_compute|cbn in Hj; lia].
Qed.

Lemma disconnect_restores_witness :
  exists undos view' view3,
    connect_coins block_view block_sample 6 (replicate 32 8) = Ok (undos, view') /\
    cache_contents view' (sample_point 0) = None /\ cache_contents view' (point (replicate 32 2) 0) = None /\
    cache_contents view' (point (replicate 32 3) 0) = Some (Coin_new (sample_out 39) 6 false) /\
    disconnect_coins view' block_sample undos 6 (replicate 32 9) = Ok (DISCONNECT_OK, view3) /\
    cache_contents view3 (sample_point 0) = Some (Coin_new (sample_out 50) 5 true).
Proof.
  destruct (disconnect_restores block_view block_sample 6 (replicate 32 8) (replicate 32 9) sample_cache_ok)
    as (undos & view' & E & Hok & _ & Hafter & Hback).
  - unfold is_u. lia.
  - exact block_sample_valid.
  - destruct (Hback view' Hok (fun o => eq_refl)) as (view3 & E3 & _ & _ & Hrestored).
    exists undos, view', view3. split; [exact E|]. split; [rewrite Hafter; vm_compute; reflexivity|].
    split; [rewrite Hafter; vm_compute; reflexivity|]. split; [rewrite Hafter; vm_compute; reflexivity|].
    split; [exact E3|]. rewrite Hrestored. vm_compute. reflexivity.
Defined.
