(* ===== verification/ProviderChecks.v ===== *)
(** * Admission of masternode transactions
    (src/src/evo/providertx.cpp, src/src/collateral.cpp, src/src/messagesigner.cpp)

    What a registration, a service or registrar update and a revocation have to satisfy
    against the masternode list of the previous block and the unspent outputs.  A check
    that fails calls [state.DoS] and returns; the result carries that call.  The
    theorems: what a transaction that passes guarantees, which the list of the next block
    relies on; that no check can assert over a sound list; and that a registration
    with its own output as collateral never passes. *)

From Stdlib Require Import String Ascii.
From S2P Require Import Prelude Bytes Serialize Containers Hash Script Amount Compressor Transaction Coins ProviderTx MasternodeList Standard NetAddress Base58.
From stdpp Require Import list gmap.
Local Open Scope Z_scope.
Local Open Scope cxx_scope.

(** ** Validation state (consensus/validation.h) *)

Definition REJECT_INVALID : Z := 0x10.
Definition REJECT_DUPLICATE : Z := 0x12.
Definition REJECT_CONFLICT : Z := 0x102.

(** A call [state.DoS(level, false, code, reason)]. *)
Record DoSCall : Type := { dos_level : Z; dos_code : Z; dos_reason : string }.
Inductive failure : Type :=
| Rejected (calls : list DoSCall)
| AssertFails.
Definition check (A : Type) : Type := result failure A.
Definition DoS {A} (level code : Z) (reason : string) : check A :=
  Throw (Rejected [{| dos_level := level; dos_code := code; dos_reason := reason |}]).
Arguments DoS {A} level code reason%_string.
Definition asserted {A} (o : option A) : check A := match o with Some a => Ok a | None => Throw AssertFails end.

(** What the calls leave in the state. *)
Inductive mode_state : Type := MODE_VALID | MODE_INVALID | MODE_ERROR.
Record CValidationState : Type := { mode : mode_state; nDoS : Z; strRejectReason : string; chRejectCode : Z }.
Definition CValidationState_new : CValidationState :=
  {| mode := MODE_VALID; nDoS := 0; strRejectReason := ""; chRejectCode := 0 |}.
Definition state_DoS (st : CValidationState) (c : DoSCall) : CValidationState :=
  match mode st with
  | MODE_ERROR => {| mode := MODE_ERROR; nDoS := nDoS st; strRejectReason := dos_reason c; chRejectCode := dos_code c |}
  | _ => {| mode := MODE_INVALID; nDoS := i32 (nDoS st + dos_level c); strRejectReason := dos_reason c; chRejectCode := dos_code c |}
  end.
Definition state_Error (st : CValidationState) (reason : string) : CValidationState :=
  {| mode := MODE_ERROR; nDoS := nDoS st;
     strRejectReason := match mode st with MODE_VALID => reason | _ => strRejectReason st end; chRejectCode := chRejectCode st |}.
Definition state_IsInvalid (st : CValidationState) : option Z := match mode st with MODE_INVALID => Some (nDoS st) | _ => None end.
Definition after_calls (st : CValidationState) (calls : list DoSCall) : CValidationState := fold_left state_DoS calls st.

(** ** Text *)

Definition chars (s : string) : list Z := map (fun a => Z.of_N (N_of_ascii a)) (list_ascii_of_string s).

(** [strprintf("%d", n)] for at most twenty digits. *)
Fixpoint decimal_loop (fuel : nat) (n : Z) : list Z :=
  match fuel with
  | O => []
  | S fuel => (if n <? 10 then [] else decimal_loop fuel (n / 10)) ++ [48 + n mod 10]
  end.
Definition decimal (n : Z) : list Z := decimal_loop 20 n.

Definition hex_digit (d : Z) : Z := if d <? 10 then 48 + d else 87 + d.
Definition HexStr (v : list Z) : list Z := concat (map (fun b => [hex_digit (b .>> 4); hex_digit (b .& 15)]) v).
(** [uint256::GetHex]: the bytes in reverse. *)
Definition uint256_ToString (h : list Z) : list Z := HexStr (reverse h).

(** ** The node around the checks *)

Inductive Network : Type := MAIN | TESTNET | DEVNET | REGTEST.
#[global] Instance Network_eq_dec : EqDecision Network.
Proof. solve_decision. Defined.
(** The default port of the main network, whatever the network is. *)
Definition mainnetDefaultPort : Z := 8118.
Definition MEMPOOL_HEIGHT : Z := 0x7FFFFFFF.
Definition strMessageMagic : string := String.append "DarkCoin Signed Message:" (String "010" EmptyString).

Record NodeState : Type := {
  network : Network;
  prefixes : Base58Prefixes;
  fAllowPrivateNet : bool;
  fLiteMode : bool;
  tip_nHeight : Z;                              (** [chainActive.Tip()->nHeight] *)
  pcoinsTip : COutPoint -> option Coin;         (** [pcoinsTip->GetCoin] *)
  mempool : list Z -> option CTransaction;      (** [mempool.get] *)
  mns_tipHeight : Z;                            (** [deterministicMNManager->tipHeight] *)
  spork15Value : Z;
}.

Section Checks.
Context `{BLSCurve}.
(** [CPubKey::RecoverCompact] (libsecp256k1): hash and signature to public key. *)
Context (RecoverCompact : list Z -> list Z -> option (list Z)).
Context (node : NodeState).

(** ** Coins and collaterals *)

Definition GetUTXOCoin (outpoint : COutPoint) : option Coin :=
  match pcoinsTip node outpoint with
  | Some coin => if IsSpent coin then None else Some coin
  | None => None
  end.

(** [CCoinsViewMemPool::GetCoin] *)
Definition viewMemPool_GetCoin (outpoint : COutPoint) : option Coin :=
  match mempool node (op_hash outpoint) with
  | Some ptx =>
      if op_n outpoint <? Z.of_nat (length (vout (tx_data ptx)))
      then option_map (fun out => Coin_new out (i32 MEMPOOL_HEIGHT) false) (vout (tx_data ptx) !! Z.to_nat (op_n outpoint))
      else None
  | None => pcoinsTip node outpoint
  end.

(** The value of a collateral at a height of the chain. *)
Definition collateral_value_ok (height collatValue : Z) : bool :=
  if negb (collatValue =? 1000 * COIN) && negb (collatValue =? 2500 * COIN) && negb (collatValue =? 5000 * COIN) then false
  else if height <? 100000 then collatValue =? 1000 * COIN
  else if (100000 <=? height) && (height <? 265000) then collatValue =? 2500 * COIN
  else if (265000 <=? height) && (height <? 285000) then (collatValue =? 2500 * COIN) || (collatValue =? 5000 * COIN)
  else if 285000 <=? height then collatValue =? 5000 * COIN
  else false.
Definition validateCollateral (collateral : COutPoint) : bool :=
  match viewMemPool_GetCoin collateral with
  | None => false
  | Some coin => if IsSpent coin then false else collateral_value_ok (tip_nHeight node) (nValue (coin_out coin))
  end.

(** ** Signatures *)

Definition VerifyHash (hash : list Z) (keyID : CKeyID) (vchSig : list Z) : bool :=
  match RecoverCompact hash vchSig with
  | None => false
  | Some pubkeyFromSig => bool_decide (GetID pubkeyFromSig = keyID)
  end.
Definition VerifyMessage (keyID : CKeyID) (vchSig strMessage : list Z) : bool :=
  VerifyHash (CHashWriter_GetHash [blob_Serialize (chars strMessageMagic); blob_Serialize strMessage]) keyID vchSig.

Definition CheckHashSigKey (hash : list Z) (keyID : CKeyID) (vchSig : list Z) : check unit :=
  if negb (VerifyHash hash keyID vchSig) then DoS 100 REJECT_INVALID "bad-protx-sig" else Ok tt.
Definition CheckHashSigBLS (hash : list Z) (pubKey : CBLSPublicKey) (sig : CBLSSignature) : check unit :=
  if negb (VerifyInsecure sig pubKey hash) then DoS 100 REJECT_INVALID "bad-protx-sig" else Ok tt.
Definition CheckStringSig (message : list Z) (keyID : CKeyID) (vchSig : list Z) : check unit :=
  if negb (VerifyMessage keyID vchSig message) then DoS 100 REJECT_INVALID "bad-protx-sig" else Ok tt.

Definition CalcTxInputsHash (tx : CTransaction) : list Z :=
  CHashWriter_GetHash (map (fun i => COutPoint_Serialize (prevout i)) (vin (tx_data tx))).
Definition CheckInputsHash (tx : CTransaction) (inputsHash : list Z) : check unit :=
  if negb (bool_decide (CalcTxInputsHash tx = inputsHash)) then DoS 100 REJECT_INVALID "bad-protx-inputs-hash" else Ok tt.

Definition CheckService (addr : CService) : check unit :=
  if negb (IsValidAddr (ip addr)) then DoS 10 REJECT_INVALID "bad-protx-addr"
  else if negb (bool_decide (network node = REGTEST)) && negb (bool_decide (network node = TESTNET)) && negb (IsRoutable (ip addr) (fAllowPrivateNet node))
  then DoS 10 REJECT_INVALID "bad-protx-addr"
  else if bool_decide (network node = MAIN) && negb (port addr =? mainnetDefaultPort) then DoS 10 REJECT_INVALID "bad-protx-addr-port"
  else if negb (bool_decide (network node = MAIN)) && (port addr =? mainnetDefaultPort) then DoS 10 REJECT_INVALID "bad-protx-addr-port"
  else if negb (IsIPv4 (ip addr)) then DoS 10 REJECT_INVALID "bad-protx-addr"
  else Ok tt.

(** [CProRegTx::MakeSignString] *)
Definition address_string (dest : CTxDestination) : check (list Z) :=
  asserted (ToString (snd (SetDestination (prefixes node) dest CBase58Data_new))).
Definition MakeSignString (ptx : CProRegTx.t) : check (list Z) :=
  let! strPayout :=
    match ExtractDestination (CProRegTx.scriptPayout ptx) with
    | Some destPayout => address_string destPayout
    | None => Ok (HexStr (CProRegTx.scriptPayout ptx))
    end in
  let! owner := address_string (DestKey (CProRegTx.keyIDOwner ptx)) in
  let! voting := address_string (DestKey (CProRegTx.keyIDVoting ptx)) in
  Ok (strPayout ++ chars "|" ++ decimal (CProRegTx.nOperatorReward ptx) ++ chars "|" ++ owner ++ chars "|" ++ voting ++ chars "|" ++
      uint256_ToString (CHashWriter_GetHash [CProRegTx.Serialize_hashed ptx])).

Definition IsDeterministicMNsSporkActive (nHeight : Z) : bool :=
  let nHeight := if nHeight =? -1 then mns_tipHeight node else nHeight in
  spork15Value node <=? nHeight.

(** ** The four transactions

    [pindexPrev] is the previous block, its hash and height, or none; [GetListForBlock]
    the manager's, which may assert. *)

Context (GetListForBlock : list Z -> option CDeterministicMNList).

(** [p->proTxHash] through a pointer that must not be null. *)
Definition deref {A} (o : option A) : check A := asserted o.

Definition ok_payout (script : list Z) : bool := IsPayToPublicKeyHash script || IsPayToScriptHash script.

(** The collateral: outpoint, destination and the key that has to sign, null if the
    collateral is an output of the transaction itself. *)
Definition CheckCollateral (tx : CTransaction) (ptx : CProRegTx.t) : check (COutPoint * CTxDestination * CKeyID) :=
  let outpoint := CProRegTx.collateralOutpoint ptx in
  if negb (uint256_IsNull (op_hash outpoint)) then
    match GetUTXOCoin outpoint with
    | None => DoS 10 REJECT_INVALID "bad-protx-collateral"
    | Some coin =>
        if negb (validateCollateral outpoint) then DoS 10 REJECT_INVALID "bad-protx-collateral"
        else
          match ExtractDestination (scriptPubKey (coin_out coin)) with
          | None => DoS 10 REJECT_INVALID "bad-protx-collateral-dest"
          | Some collateralTxDest =>
              match GetKeyID (prefixes node) (snd (SetDestination (prefixes node) collateralTxDest CBase58Data_new)) with
              | None => DoS 10 REJECT_INVALID "bad-protx-collateral-pkh"
              | Some keyForPayloadSig => Ok (outpoint, collateralTxDest, keyForPayloadSig)
              end
          end
    end
  else
    match vout (tx_data tx) !! Z.to_nat (op_n outpoint) with
    | None => DoS 10 REJECT_INVALID "bad-protx-collateral-index"
    | Some out =>
        if negb (validateCollateral outpoint) then DoS 10 REJECT_INVALID "bad-protx-collateral"
        else
          match ExtractDestination (scriptPubKey out) with
          | None => DoS 10 REJECT_INVALID "bad-protx-collateral-dest"
          | Some collateralTxDest =>
              Ok ({| op_hash := tx_hash tx; op_n := op_n outpoint |}, collateralTxDest, CKeyID_null)
          end
    end.

Definition CheckProRegTx (tx : CTransaction) (pindexPrev : option (list Z * Z)) : check unit :=
  if negb (nType (tx_data tx) =? TRANSACTION_PROVIDER_REGISTER) then DoS 100 REJECT_INVALID "bad-protx-type"
  else
    match GetTxPayload CProRegTx.t (vExtraPayload (tx_data tx)) with
    | None => DoS 100 REJECT_INVALID "bad-protx-payload"
    | Some ptx =>
        if (CProRegTx.nVersion ptx =? 0) || (CProRegTx.CURRENT_VERSION <? CProRegTx.nVersion ptx) then DoS 100 REJECT_INVALID "bad-protx-version"
        else if negb (CProRegTx.nType ptx =? 0) then DoS 100 REJECT_INVALID "bad-protx-type"
        else if negb (CProRegTx.nMode ptx =? 0) then DoS 100 REJECT_INVALID "bad-protx-mode"
        else if CKeyID_IsNull (CProRegTx.keyIDOwner ptx) || negb (IsValid (CProRegTx.pubKeyOperator ptx)) || CKeyID_IsNull (CProRegTx.keyIDVoting ptx)
        then DoS 10 REJECT_INVALID "bad-protx-key-null"
        else if negb (ok_payout (CProRegTx.scriptPayout ptx)) then DoS 10 REJECT_INVALID "bad-protx-payee"
        else
          match ExtractDestination (CProRegTx.scriptPayout ptx) with
          | None => DoS 10 REJECT_INVALID "bad-protx-payee-dest"
          | Some payoutDest =>
              if bool_decide (payoutDest = DestKey (CProRegTx.keyIDOwner ptx)) || bool_decide (payoutDest = DestKey (CProRegTx.keyIDVoting ptx))
              then DoS 10 REJECT_INVALID "bad-protx-payee-reuse"
              else
                let! _ := if negb (bool_decide (CProRegTx.addr ptx = CService_null)) then CheckService (CProRegTx.addr ptx) else Ok tt in
                if 10000 <? CProRegTx.nOperatorReward ptx then DoS 10 REJECT_INVALID "bad-protx-operator-reward"
                else
                  let! c := CheckCollateral tx ptx in
                  let '(collateralOutpoint, collateralTxDest, keyForPayloadSig) := c in
                  if bool_decide (collateralTxDest = DestKey (CProRegTx.keyIDOwner ptx)) || bool_decide (collateralTxDest = DestKey (CProRegTx.keyIDVoting ptx))
                  then DoS 10 REJECT_INVALID "bad-protx-collateral-reuse"
                  else
                    let! _ :=
                      match pindexPrev with
                      | None => Ok tt
                      | Some (hash, height) =>
                          let! mnList := asserted (GetListForBlock hash) in
                          let! dup :=
                            if HasUniqueProperty mnList (CProRegTx.addr ptx)
                            then let! d := deref (GetUniquePropertyMN mnList (CProRegTx.addr ptx)) in
                                 Ok (negb (bool_decide (MasternodeList.collateralOutpoint d = collateralOutpoint)))
                            else Ok false in
                          if (dup : bool) then DoS 10 REJECT_DUPLICATE "bad-protx-dup-addr"
                          else if HasUniqueProperty mnList (CProRegTx.keyIDOwner ptx) || HasUniqueProperty mnList (CProRegTx.pubKeyOperator ptx)
                          then DoS 10 REJECT_DUPLICATE "bad-protx-dup-key"
                          else if negb (fLiteMode node) && negb (IsDeterministicMNsSporkActive height) &&
                                  negb (bool_decide (CProRegTx.keyIDOwner ptx = CProRegTx.keyIDVoting ptx))
                          then DoS 10 REJECT_INVALID "bad-protx-key-not-same"
                          else Ok tt
                      end in
                    let! _ := CheckInputsHash tx (CProRegTx.inputsHash ptx) in
                    if negb (CKeyID_IsNull keyForPayloadSig) then
                      let! message := MakeSignString ptx in
                      CheckStringSig message keyForPayloadSig (CProRegTx.vchSig ptx)
                    else if negb (bool_decide (CProRegTx.vchSig ptx = [])) then DoS 100 REJECT_INVALID "bad-protx-sig"
                    else Ok tt
          end
    end.

Definition CheckProUpServTx (tx : CTransaction) (pindexPrev : option (list Z * Z)) : check unit :=
  if negb (nType (tx_data tx) =? TRANSACTION_PROVIDER_UPDATE_SERVICE) then DoS 100 REJECT_INVALID "bad-protx-type"
  else
    match GetTxPayload CProUpServTx.t (vExtraPayload (tx_data tx)) with
    | None => DoS 100 REJECT_INVALID "bad-protx-payload"
    | Some ptx =>
        if (CProUpServTx.nVersion ptx =? 0) || (CProRegTx.CURRENT_VERSION <? CProUpServTx.nVersion ptx) then DoS 100 REJECT_INVALID "bad-protx-version"
        else
          let! _ := CheckService (CProUpServTx.addr ptx) in
          match pindexPrev with
          | None => Ok tt
          | Some (hash, height) =>
              let! mnList := asserted (GetListForBlock hash) in
              match GetMN mnList (CProUpServTx.proTxHash ptx) with
              | None => DoS 100 REJECT_INVALID "bad-protx-hash"
              | Some mn =>
                  let! dup :=
                    if HasUniqueProperty mnList (CProUpServTx.addr ptx)
                    then let! d := deref (GetUniquePropertyMN mnList (CProUpServTx.addr ptx)) in
                         Ok (negb (bool_decide (proTxHash d = CProUpServTx.proTxHash ptx)))
                    else Ok false in
                  if (dup : bool) then DoS 10 REJECT_DUPLICATE "bad-protx-dup-addr"
                  else
                    let script := CProUpServTx.scriptOperatorPayout ptx in
                    if negb (bool_decide (script = [])) && (MasternodeList.nOperatorReward mn =? 0) then DoS 10 REJECT_INVALID "bad-protx-operator-payee"
                    else if negb (bool_decide (script = [])) && negb (ok_payout script) then DoS 10 REJECT_INVALID "bad-protx-operator-payee"
                    else
                      let! _ := CheckInputsHash tx (CProUpServTx.inputsHash ptx) in
                      CheckHashSigBLS (CHashWriter_GetHash [CProUpServTx.Serialize_hashed ptx])
                        (MasternodeList.pubKeyOperator (pdmnState mn)) (CProUpServTx.sig ptx)
              end
          end
    end.

Definition CheckProUpRegTx (tx : CTransaction) (pindexPrev : option (list Z * Z)) : check unit :=
  if negb (nType (tx_data tx) =? TRANSACTION_PROVIDER_UPDATE_REGISTRAR) then DoS 100 REJECT_INVALID "bad-protx-type"
  else
    match GetTxPayload CProUpRegTx.t (vExtraPayload (tx_data tx)) with
    | None => DoS 100 REJECT_INVALID "bad-protx-payload"
    | Some ptx =>
        if (CProUpRegTx.nVersion ptx =? 0) || (CProRegTx.CURRENT_VERSION <? CProUpRegTx.nVersion ptx) then DoS 100 REJECT_INVALID "bad-protx-version"
        else if negb (CProUpRegTx.nMode ptx =? 0) then DoS 100 REJECT_INVALID "bad-protx-mode"
        else if negb (IsValid (CProUpRegTx.pubKeyOperator ptx)) || CKeyID_IsNull (CProUpRegTx.keyIDVoting ptx) then DoS 10 REJECT_INVALID "bad-protx-key-null"
        else if negb (ok_payout (CProUpRegTx.scriptPayout ptx)) then DoS 10 REJECT_INVALID "bad-protx-payee"
        else
          match ExtractDestination (CProUpRegTx.scriptPayout ptx) with
          | None => DoS 10 REJECT_INVALID "bad-protx-payee-dest"
          | Some payoutDest =>
              match pindexPrev with
              | None => Ok tt
              | Some (hash, height) =>
                  let! mnList := asserted (GetListForBlock hash) in
                  match GetMN mnList (CProUpRegTx.proTxHash ptx) with
                  | None => DoS 100 REJECT_INVALID "bad-protx-hash"
                  | Some dmn =>
                      let owner := MasternodeList.keyIDOwner (pdmnState dmn) in
                      if bool_decide (payoutDest = DestKey owner) || bool_decide (payoutDest = DestKey (CProUpRegTx.keyIDVoting ptx))
                      then DoS 10 REJECT_INVALID "bad-protx-payee-reuse"
                      else
                        match GetUTXOCoin (MasternodeList.collateralOutpoint dmn) with
                        | None => DoS 100 REJECT_INVALID "bad-protx-collateral"
                        | Some coin =>
                            match ExtractDestination (scriptPubKey (coin_out coin)) with
                            | None => DoS 100 REJECT_INVALID "bad-protx-collateral-dest"
                            | Some collateralTxDest =>
                                if bool_decide (collateralTxDest = DestKey owner) || bool_decide (collateralTxDest = DestKey (CProUpRegTx.keyIDVoting ptx))
                                then DoS 10 REJECT_INVALID "bad-protx-collateral-reuse"
                                else
                                  let! dup :=
                                    if HasUniqueProperty mnList (CProUpRegTx.pubKeyOperator ptx)
                                    then let! otherDmn := deref (GetUniquePropertyMN mnList (CProUpRegTx.pubKeyOperator ptx)) in
                                         Ok (negb (bool_decide (CProUpRegTx.proTxHash ptx = proTxHash otherDmn)))
                                    else Ok false in
                                  if (dup : bool) then DoS 10 REJECT_DUPLICATE "bad-protx-dup-key"
                                  else if negb (fLiteMode node) && negb (IsDeterministicMNsSporkActive height) &&
                                          negb (bool_decide (owner = CProUpRegTx.keyIDVoting ptx))
                                  then DoS 10 REJECT_INVALID "bad-protx-key-not-same"
                                  else
                                    let! _ := CheckInputsHash tx (CProUpRegTx.inputsHash ptx) in
                                    CheckHashSigKey (CHashWriter_GetHash [CProUpRegTx.Serialize_hashed ptx]) owner (CProUpRegTx.vchSig ptx)
                            end
                        end
                  end
              end
          end
    end.

Definition CheckProUpRevTx (tx : CTransaction) (pindexPrev : option (list Z * Z)) : check unit :=
  if negb (nType (tx_data tx) =? TRANSACTION_PROVIDER_UPDATE_REVOKE) then DoS 100 REJECT_INVALID "bad-protx-type"
  else
    match GetTxPayload CProUpRevTx.t (vExtraPayload (tx_data tx)) with
    | None => DoS 100 REJECT_INVALID "bad-protx-payload"
    | Some ptx =>
        if (CProUpRevTx.nVersion ptx =? 0) || (CProRegTx.CURRENT_VERSION <? CProUpRevTx.nVersion ptx) then DoS 100 REJECT_INVALID "bad-protx-version"
        else if CProUpRevTx.REASON_LAST <? CProUpRevTx.nReason ptx then DoS 100 REJECT_INVALID "bad-protx-reason"
        else
          match pindexPrev with
          | None => Ok tt
          | Some (hash, height) =>
              let! mnList := asserted (GetListForBlock hash) in
              match GetMN mnList (CProUpRevTx.proTxHash ptx) with
              | None => DoS 100 REJECT_INVALID "bad-protx-hash"
              | Some dmn =>
                  let! _ := CheckInputsHash tx (CProUpRevTx.inputsHash ptx) in
                  CheckHashSigBLS (CHashWriter_GetHash [CProUpRevTx.Serialize_hashed ptx])
                    (MasternodeList.pubKeyOperator (pdmnState dmn)) (CProUpRevTx.sig ptx)
              end
          end
    end.

End Checks.

(** ** What passing a check means *)

Lemma DoS_not_Ok {A} level code reason (a : A) : DoS level code reason = Ok a -> False.
Proof. done. Qed.

(** Peels the guards off a check that passed. *)
Ltac passes H :=
  repeat match type of H with
  | (if ?b then DoS _ _ _ else _) = Ok _ => let E := fresh "G" in destruct b eqn:E; [discriminate H|]
  | match ?o with Some _ => _ | None => DoS _ _ _ end = Ok _ => let E := fresh "G" in destruct o eqn:E; [|discriminate H]
  | rbind ?m _ = Ok _ => let E := fresh "B" in destruct m eqn:E; [|discriminate H]; cbn [rbind] in H
  end.

Section Passed.
Context `{BLSCurve}.
Context (RecoverCompact : list Z -> list Z -> option (list Z)) (node : NodeState) (GetListForBlock : list Z -> option CDeterministicMNList).
Implicit Types (tx : CTransaction) (l : CDeterministicMNList).

Lemma asserted_Ok {A} (o : option A) a : asserted o = Ok a -> o = Some a.
Proof. destruct o; cbn; [by intros [= ->]|done]. Qed.

(** A duplicate that is tolerated belongs to the masternode itself. *)
Lemma tolerated {T} `{UniqueProperty T} l (v : T) (f : CDeterministicMN -> bool) :
  (if HasUniqueProperty l v then let! d := deref (GetUniquePropertyMN l v) in Ok (negb (f d)) else Ok false) = @Ok failure bool false ->
  HasUniqueProperty l v = true -> exists d, GetUniquePropertyMN l v = Some d /\ f d = true.
Proof.
  intros E Hv. rewrite Hv in E. unfold deref in E. destruct (GetUniquePropertyMN l v) as [d|]; [|done].
  cbn in E. injection E as E. exists d. split; [done|]. by destruct (f d).
Qed.

Lemma CheckInputsHash_spec tx h a : CheckInputsHash tx h = Ok a -> h = CalcTxInputsHash tx.
Proof. unfold CheckInputsHash. by case_bool_decide. Qed.

Definition service_ok (a : CService) : Prop :=
  IsValidAddr (ip a) = true /\ IsIPv4 (ip a) = true /\ (network node = MAIN <-> port a = mainnetDefaultPort) /\
  (network node = MAIN \/ network node = DEVNET -> IsRoutable (ip a) (fAllowPrivateNet node) = true).

Lemma CheckService_spec a : CheckService node a = Ok tt <-> service_ok a.
Proof.
  unfold CheckService, service_ok. destruct (IsValidAddr (ip a)); cbn [negb]; [|split; [done|by intros [? _]]].
  destruct (IsRoutable (ip a) (fAllowPrivateNet node)), (IsIPv4 (ip a)), (Z.eqb_spec (port a) mainnetDefaultPort) as [Ep|Ep], (network node) eqn:En;
    cbn; split; try done; (intros (_ & ? & [H1 H2] & Hr) || intros _); try done;
    try (by specialize (Hr ltac:(by (left + right)))); try (by specialize (H1 eq_refl)); try (by specialize (H2 Ep));
    split_and!; try done; try (by intros [?|?]).
Qed.

(** Who has to sign for a collateral, and that it is one. *)
Lemma CheckCollateral_spec tx ptx outpoint dest key : PUBKEY_ADDRESS (prefixes node) <> SCRIPT_ADDRESS (prefixes node) ->
  CheckCollateral node tx ptx = Ok (outpoint, dest, key) ->
  validateCollateral node (CProRegTx.collateralOutpoint ptx) = true /\
  (uint256_IsNull (op_hash (CProRegTx.collateralOutpoint ptx)) = false ->
     outpoint = CProRegTx.collateralOutpoint ptx /\ dest = DestKey key /\
     exists coin, GetUTXOCoin node outpoint = Some coin /\ ExtractDestination (scriptPubKey (coin_out coin)) = Some dest) /\
  (uint256_IsNull (op_hash (CProRegTx.collateralOutpoint ptx)) = true ->
     outpoint = {| op_hash := tx_hash tx; op_n := op_n (CProRegTx.collateralOutpoint ptx) |} /\ key = CKeyID_null /\
     exists out, vout (tx_data tx) !! Z.to_nat (op_n (CProRegTx.collateralOutpoint ptx)) = Some out /\
       ExtractDestination (scriptPubKey out) = Some dest).
Proof.
  unfold CheckCollateral. intros Hp E. destruct (uint256_IsNull _) eqn:En; cbn [negb] in E.
  - destruct (vout _ !! _) as [out|]; [|discriminate E]. passes E. injection E as <- <- <-.
    split_and!; [by apply negb_false_iff|done|]. intros _. split_and!; [done|done|by exists out].
  - destruct (GetUTXOCoin node _) as [coin|] eqn:Ec; [|discriminate E]. passes E.
    match goal with G : GetKeyID _ _ = Some _ |- _ => rename G into Ek end.
    injection E as <- <- <-. split_and!; [by apply negb_false_iff| |done].
    intros _. split_and!; [done| |by exists coin].
    match goal with |- ?d = _ => destruct d as [|[id]|[id]] end; unfold GetKeyID, CBitcoinAddress_IsValid in Ek; cbn in Ek; [done|..].
    + destruct (_ || _) in Ek; [done|]. by injection Ek as <-.
    + rewrite (bool_decide_false (SCRIPT_ADDRESS _ = PUBKEY_ADDRESS _)), orb_true_r in Ek by (intros Heq; by apply Hp). done.
Qed.

(** A registration that passes, over the list of the previous block. *)
Record registration_passed tx l (ptx : CProRegTx.t) (outpoint : COutPoint) : Prop := {
  reg_type : nType (tx_data tx) = TRANSACTION_PROVIDER_REGISTER;
  reg_payload : GetTxPayload CProRegTx.t (vExtraPayload (tx_data tx)) = Some ptx;
  reg_version : CProRegTx.nVersion ptx <> 0 /\ CProRegTx.nVersion ptx <= CProRegTx.CURRENT_VERSION /\
    CProRegTx.nType ptx = 0 /\ CProRegTx.nMode ptx = 0;
  reg_keys : CKeyID_IsNull (CProRegTx.keyIDOwner ptx) = false /\ IsValid (CProRegTx.pubKeyOperator ptx) = true /\ CKeyID_IsNull (CProRegTx.keyIDVoting ptx) = false;
  reg_payout_script : ok_payout (CProRegTx.scriptPayout ptx) = true;
  reg_payout : exists dest, ExtractDestination (CProRegTx.scriptPayout ptx) = Some dest /\
    dest <> DestKey (CProRegTx.keyIDOwner ptx) /\ dest <> DestKey (CProRegTx.keyIDVoting ptx);
  reg_addr : CProRegTx.addr ptx = CService_null \/ service_ok (CProRegTx.addr ptx);
  reg_reward : CProRegTx.nOperatorReward ptx <= 10000;
  reg_collateral : exists dest key, CheckCollateral node tx ptx = Ok (outpoint, dest, key) /\
    dest <> DestKey (CProRegTx.keyIDOwner ptx) /\ dest <> DestKey (CProRegTx.keyIDVoting ptx) /\
    (CKeyID_IsNull key = false -> exists message, MakeSignString node ptx = Ok message /\
       VerifyMessage RecoverCompact key (CProRegTx.vchSig ptx) message = true) /\
    (CKeyID_IsNull key = true -> CProRegTx.vchSig ptx = []);
  reg_addr_free : HasUniqueProperty l (CProRegTx.addr ptx) = true ->
    exists d, GetUniquePropertyMN l (CProRegTx.addr ptx) = Some d /\ MasternodeList.collateralOutpoint d = outpoint;
  reg_keys_free : HasUniqueProperty l (CProRegTx.keyIDOwner ptx) = false /\ HasUniqueProperty l (CProRegTx.pubKeyOperator ptx) = false;
  reg_inputs : CProRegTx.inputsHash ptx = CalcTxInputsHash tx;
}.

Lemma CheckProRegTx_inv tx hash height : CheckProRegTx RecoverCompact node GetListForBlock tx (Some (hash, height)) = Ok tt ->
  exists ptx l outpoint, GetListForBlock hash = Some l /\ registration_passed tx l ptx outpoint.
Proof.
  unfold CheckProRegTx. intros E. passes E. destruct a0 as [[outpoint dest] key]. passes E.
  destruct (GetListForBlock hash) as [l|] eqn:El; [|discriminate B1]. cbn [asserted rbind] in B1.
  destruct (if HasUniqueProperty l (CProRegTx.addr t) then _ else _) as [dup|] eqn:Ed; [|discriminate B1]. cbn [rbind] in B1.
  destruct dup; [discriminate B1|]. passes B1. exists t, l, outpoint. split; [done|]. bool_to_prop.
  split; try done.
  - exists c. by repeat case_bool_decide.
  - destruct (decide (CProRegTx.addr t = CService_null)) as [Ea|Ea]; [by left|]. right.
    rewrite bool_decide_false in B by done. apply CheckService_spec. cbn [negb] in B. by destruct a.
  - exists dest, key. split_and!; [done|by repeat case_bool_decide|by repeat case_bool_decide|..].
    + intros Hk. rewrite Hk in E. cbn [negb] in E. destruct (MakeSignString node t) as [m|] eqn:Em; [|discriminate E]. cbn [rbind] in E.
      exists m. split; [done|]. unfold CheckStringSig in E. by destruct (VerifyMessage _ _ _ _).
    + intros Hk. rewrite Hk in E. cbn [negb] in E. by case_bool_decide.
  - intros Hv. destruct (tolerated l _ _ Ed Hv) as (d & Hd & Hc). exists d. split; [done|]. by apply bool_decide_eq_true in Hc.
  - by apply (CheckInputsHash_spec _ _ _ B2).
Qed.

(** A service update, a registrar update and a revocation that pass. *)
Record service_passed tx l (ptx : CProUpServTx.t) : Prop := {
  serv_type : nType (tx_data tx) = TRANSACTION_PROVIDER_UPDATE_SERVICE;
  serv_payload : GetTxPayload CProUpServTx.t (vExtraPayload (tx_data tx)) = Some ptx;
  serv_addr : service_ok (CProUpServTx.addr ptx);
  serv_addr_free : HasUniqueProperty l (CProUpServTx.addr ptx) = true ->
    exists d, GetUniquePropertyMN l (CProUpServTx.addr ptx) = Some d /\ proTxHash d = CProUpServTx.proTxHash ptx;
  serv_sig : exists mn, GetMN l (CProUpServTx.proTxHash ptx) = Some mn /\
    VerifyInsecure (CProUpServTx.sig ptx) (MasternodeList.pubKeyOperator (pdmnState mn)) (CHashWriter_GetHash [CProUpServTx.Serialize_hashed ptx]) = true;
}.
Lemma CheckProUpServTx_inv tx hash height : CheckProUpServTx node GetListForBlock tx (Some (hash, height)) = Ok tt ->
  exists ptx l, GetListForBlock hash = Some l /\ service_passed tx l ptx.
Proof.
  unfold CheckProUpServTx. intros E. passes E. apply asserted_Ok in B0. eexists _, _. split; [exact B0|].
  match goal with G : ?b = false |- _ => is_var b; subst b end. bool_to_prop. split; [done..| | |].
  - apply CheckService_spec. match goal with B : CheckService _ _ = Ok ?u |- _ => by destruct u end.
  - intros Hv. match goal with B : context [deref] |- _ => destruct (tolerated _ _ _ B Hv) as (d & Hd & Hc) end. exists d. split; [done|]. by apply bool_decide_eq_true in Hc.
  - eexists. split; [done|]. unfold CheckHashSigBLS in E. by destruct (VerifyInsecure _ _ _).
Qed.

Record registrar_passed tx l (ptx : CProUpRegTx.t) : Prop := {
  upreg_type : nType (tx_data tx) = TRANSACTION_PROVIDER_UPDATE_REGISTRAR;
  upreg_payload : GetTxPayload CProUpRegTx.t (vExtraPayload (tx_data tx)) = Some ptx;
  upreg_keys : IsValid (CProUpRegTx.pubKeyOperator ptx) = true /\ CKeyID_IsNull (CProUpRegTx.keyIDVoting ptx) = false;
  upreg_operator_free : HasUniqueProperty l (CProUpRegTx.pubKeyOperator ptx) = true ->
    exists d, GetUniquePropertyMN l (CProUpRegTx.pubKeyOperator ptx) = Some d /\ proTxHash d = CProUpRegTx.proTxHash ptx;
  upreg_sig : exists mn, GetMN l (CProUpRegTx.proTxHash ptx) = Some mn /\
    VerifyHash RecoverCompact (CHashWriter_GetHash [CProUpRegTx.Serialize_hashed ptx]) (MasternodeList.keyIDOwner (pdmnState mn)) (CProUpRegTx.vchSig ptx) = true;
}.
Lemma CheckProUpRegTx_inv tx hash height : CheckProUpRegTx RecoverCompact node GetListForBlock tx (Some (hash, height)) = Ok tt ->
  exists ptx l, GetListForBlock hash = Some l /\ registrar_passed tx l ptx.
Proof.
  unfold CheckProUpRegTx. intros E. passes E. apply asserted_Ok in B. eexists _, _. split; [exact B|].
  match goal with G : ?b = false |- _ => is_var b; subst b end. bool_to_prop. split; [done..| |].
  - intros Hv. match goal with B : context [deref] |- _ => destruct (tolerated _ _ _ B Hv) as (d & Hd & Hc) end. exists d. split; [done|]. by apply bool_decide_eq_true in Hc.
  - eexists. split; [done|]. unfold CheckHashSigKey in E. by destruct (VerifyHash _ _ _ _).
Qed.

Record revocation_passed tx l (ptx : CProUpRevTx.t) : Prop := {
  rev_type : nType (tx_data tx) = TRANSACTION_PROVIDER_UPDATE_REVOKE;
  rev_payload : GetTxPayload CProUpRevTx.t (vExtraPayload (tx_data tx)) = Some ptx;
  rev_reason : CProUpRevTx.nReason ptx <= CProUpRevTx.REASON_LAST;
  rev_sig : exists mn, GetMN l (CProUpRevTx.proTxHash ptx) = Some mn /\
    VerifyInsecure (CProUpRevTx.sig ptx) (MasternodeList.pubKeyOperator (pdmnState mn)) (CHashWriter_GetHash [CProUpRevTx.Serialize_hashed ptx]) = true;
}.
Lemma CheckProUpRevTx_inv tx hash height : CheckProUpRevTx GetListForBlock tx (Some (hash, height)) = Ok tt ->
  exists ptx l, GetListForBlock hash = Some l /\ revocation_passed tx l ptx.
Proof.
  unfold CheckProUpRevTx. intros E. passes E. apply asserted_Ok in B. eexists _, _. split; [exact B|].
  bool_to_prop. split; [done..|].
  eexists. split; [done|]. unfold CheckHashSigBLS in E. by destruct (VerifyInsecure _ _ _).
Qed.
End Passed.

(** ** No check asserts *)

Definition reported (c : DoSCall) : Prop :=
  (dos_level c = 10 \/ dos_level c = 100) /\ (dos_code c = REJECT_INVALID \/ dos_code c = REJECT_DUPLICATE).
(** A check that passes, or fails with one report. *)
Definition reports {A} (m : check A) : Prop :=
  match m with Ok _ => True | Throw (Rejected [c]) => reported c | Throw _ => False end.

Lemma reports_DoS {A} level code reason : level = 10 \/ level = 100 -> code = REJECT_INVALID \/ code = REJECT_DUPLICATE ->
  reports (@DoS A level code reason).
Proof. done. Qed.
Lemma reports_bind {A B} (m : check A) (k : A -> check B) : reports m -> (forall a, m = Ok a -> reports (k a)) -> reports (rbind m k).
Proof. destruct m as [a|e]; cbn; [intros _ Hk; by apply Hk|intros He _; exact He]. Qed.
Lemma reports_if {A} (b : bool) (m k : check A) : (b = true -> reports m) -> (b = false -> reports k) -> reports (if b then m else k).
Proof. destruct b; auto. Qed.

Ltac report :=
  repeat (lazymatch goal with |- reports (rbind (asserted _) _) => fail | |- reports (if HasUniqueProperty _ _ then _ else _) => fail | |- reports (MakeSignString _ _) => fail | _ => idtac end; first
    [ exact I
    | apply reports_DoS; [by (left + right)|by (left + right)]
    | apply reports_if; intros ?
    | apply reports_bind; [|intros ? ?]
    | match goal with |- reports (match ?o with Some _ => _ | None => _ end) => destruct o eqn:? end
    | match goal with |- reports (let '(_, _) := ?p in _) => destruct p end ]).

(** A script that is accepted for a payout pays the destination it was built for. *)
Lemma payout_destination s : ok_payout s = true -> bytes_ok s ->
  exists d, ExtractDestination s = Some d /\ destination_ok d /\ GetScriptForDestination d = s.
Proof.
  intros Hp Hb. unfold ok_payout in Hp. apply orb_true_iff in Hp as [Hp|Hp].
  - unfold IsPayToPublicKeyHash in Hp. bool_to_prop.
    assert (exists h, length h = 20%nat /\ s = [0x76; 0xa9; 0x14] ++ h ++ [0x88; 0xac]) as (h & Hl & ->).
    { do 25 (destruct s as [|? s]; [done|]). destruct s; [|done]. unfold aget in *. cbn [nth opcode_value] in *. subst.
      eexists (_ :: _ :: _ :: _ :: _ :: _ :: _ :: _ :: _ :: _ :: _ :: _ :: _ :: _ :: _ :: _ :: _ :: _ :: _ :: [_]). split; [done|]. cbn. f_equal. }
    exists (DestKey {| keyid := h |}). rewrite <- (ExtractDestination_key {| keyid := h |}) by done.
    assert (GetScriptForDestination (DestKey {| keyid := h |}) = [0x76; 0xa9; 0x14] ++ h ++ [0x88; 0xac]) as E
      by (cbn; unfold push_op, push_vch, push_data; rewrite Hl; cbn; by rewrite <- app_assoc).
    rewrite E. split_and!; [done|split; [done|]|done]. apply Forall_app in Hb as [_ Hb]. by apply Forall_app in Hb as [Hb _].
  - pose proof Hp as (h & Hl & ->)%P2SH_shape. exists (DestScript {| scriptid := h |}).
    rewrite <- (ExtractDestination_script {| scriptid := h |}) by done.
    assert (GetScriptForDestination (DestScript {| scriptid := h |}) = [opcode_value OP_HASH160; 0x14] ++ h ++ [opcode_value OP_EQUAL]) as E
      by (cbn; unfold push_op, push_vch, push_data; rewrite Hl; cbn; by rewrite <- app_assoc).
    rewrite E. split_and!; [done|split; [done|]|done]. apply Forall_app in Hb as [_ Hb]. by apply Forall_app in Hb as [Hb _].
Qed.

Section Reports.
Context `{BLSCurve}.
Context (RecoverCompact : list Z -> list Z -> option (list Z)) (node : NodeState) (GetListForBlock : list Z -> option CDeterministicMNList).
Implicit Types (tx : CTransaction) (l : CDeterministicMNList).

Lemma dup_reports {T} `{UniqueProperty T} l (v : T) (f : CDeterministicMN -> bool) : list_ok l ->
  reports (if HasUniqueProperty l v then let! d := deref (GetUniquePropertyMN l v) in Ok (f d) else Ok false).
Proof.
  intros Hl. destruct (HasUniqueProperty l v) eqn:E; [|exact I].
  apply HasUniqueProperty_spec in E as [d E]; [|done]. by rewrite E.
Qed.
Lemma service_reports a : reports (CheckService node a).
Proof. unfold CheckService. report. Qed.
Lemma inputs_reports tx h : reports (CheckInputsHash tx h).
Proof. unfold CheckInputsHash. report. Qed.
Lemma collateral_reports tx ptx : reports (CheckCollateral node tx ptx).
Proof. unfold CheckCollateral. report. Qed.
Lemma bls_reports h k s : reports (CheckHashSigBLS h k s).
Proof. unfold CheckHashSigBLS. report. Qed.
Lemma key_reports h k s : reports (CheckHashSigKey RecoverCompact h k s).
Proof. unfold CheckHashSigKey. report. Qed.

Lemma address_reports d : prefixes_ok (prefixes node) -> destination_ok d -> exists s, address_string node d = Ok s.
Proof.
  intros Hp Hd. destruct (Get_Set (prefixes node) d CBase58Data_new Hp Hd) as (_ & _ & _ & B).
  destruct (Decode_EncodeCheck _ B) as (t & E & _). exists t. unfold address_string, ToString. by rewrite E.
Qed.
Lemma MakeSignString_total ptx : prefixes_ok (prefixes node) -> CKeyID_ok (CProRegTx.keyIDOwner ptx) -> CKeyID_ok (CProRegTx.keyIDVoting ptx) ->
  (forall d, ExtractDestination (CProRegTx.scriptPayout ptx) = Some d -> destination_ok d) ->
  exists s, MakeSignString node ptx = Ok s.
Proof.
  intros Hp Ho Hv Hd. unfold MakeSignString.
  destruct (address_reports (DestKey (CProRegTx.keyIDOwner ptx)) Hp Ho) as (so & Eo).
  destruct (address_reports (DestKey (CProRegTx.keyIDVoting ptx)) Hp Hv) as (sv & Ev).
  destruct (ExtractDestination _) as [d|] eqn:Ed; [destruct (address_reports d Hp (Hd d eq_refl)) as (sd & ->)|]; cbn [rbind]; rewrite Eo, Ev; cbn [rbind]; by eexists.
Qed.

(** The lists the manager gives have a sound index. *)
Context (Hlists : forall hash, exists l, GetListForBlock hash = Some l /\ list_ok l).

Lemma list_reports {A} hash (k : CDeterministicMNList -> check A) : (forall l, list_ok l -> reports (k l)) ->
  reports (let! l := asserted (GetListForBlock hash) in k l).
Proof. destruct (Hlists hash) as (l & -> & Hl). intros Hk. by apply Hk. Qed.

Lemma CheckProRegTx_reports tx prev : prefixes_ok (prefixes node) -> bytes_ok (vExtraPayload (tx_data tx)) ->
  reports (CheckProRegTx RecoverCompact node GetListForBlock tx prev).
Proof.
  intros Hp Hb. unfold CheckProRegTx. report. all: try apply service_reports. all: try apply collateral_reports. all: try apply inputs_reports.
  - apply list_reports. intros mns Hl. report. by apply dup_reports.
  - match goal with Ht : GetTxPayload _ _ = Some ?ptx, G : negb (ok_payout _) = false |- _ =>
      destruct (GetTxPayload_spec CProRegTx.t _ _ Hb Ht) as [_ (_ & _ & _ & _ & _ & Ho & _ & Hv & _ & Hs & _)];
      apply negb_false_iff in G; destruct (payout_destination _ G (proj2 Hs)) as (d' & E' & Hd' & _);
      destruct (MakeSignString_total ptx Hp Ho Hv) as (s & ->); [intros d Ed; congruence|done] end.
Qed.
Lemma CheckProUpServTx_reports tx prev : reports (CheckProUpServTx node GetListForBlock tx prev).
Proof.
  unfold CheckProUpServTx. report. all: try apply service_reports.
  apply list_reports. intros mns Hl. report. all: first [apply inputs_reports|apply bls_reports|by apply dup_reports].
Qed.
Lemma CheckProUpRegTx_reports tx prev : reports (CheckProUpRegTx RecoverCompact node GetListForBlock tx prev).
Proof.
  unfold CheckProUpRegTx. report.
  apply list_reports. intros mns Hl. report. all: first [apply inputs_reports|apply key_reports|by apply dup_reports].
Qed.
Lemma CheckProUpRevTx_reports tx prev : reports (CheckProUpRevTx GetListForBlock tx prev).
Proof.
  unfold CheckProUpRevTx. report.
  apply list_reports. intros mns Hl. report. all: first [apply inputs_reports|apply bls_reports].
Qed.
End Reports.

Section Theorems.
Context `{BLSCurve}.
Context (RecoverCompact : list Z -> list Z -> option (list Z)) (node : NodeState) (GetListForBlock : list Z -> option CDeterministicMNList).
Implicit Types (tx : CTransaction) (l : CDeterministicMNList).

(** C26: Every verdict is a report.  When the manager's lists have sound indices and the
    network's prefixes tell addresses apart, then on any payload the four checks end
    without an assertion or a null pointer: they pass, or call [DoS] exactly once, with
    level 10 or 100 and code INVALID or DUPLICATE, whatever the libraries answer. *)
Theorem checks_report tx (prev : option (list Z * Z)) :
  (forall hash, exists l, GetListForBlock hash = Some l /\ list_ok l) ->
  prefixes_ok (prefixes node) -> bytes_ok (vExtraPayload (tx_data tx)) ->
  reports (CheckProRegTx RecoverCompact node GetListForBlock tx prev) /\
  reports (CheckProUpServTx node GetListForBlock tx prev) /\
  reports (CheckProUpRegTx RecoverCompact node GetListForBlock tx prev) /\
  reports (CheckProUpRevTx GetListForBlock tx prev).
Proof.
  intros Hl Hp Hb. split_and!; [by apply CheckProRegTx_reports|by apply CheckProUpServTx_reports|by apply CheckProUpRegTx_reports|by apply CheckProUpRevTx_reports].
Qed.

(** No masternode of a list has a property. *)
Definition unused {T} `{UniqueProperty T} l (v : T) : Prop := forall d, mnMap l !! proTxHash d = Some d -> SerializeHash v ∉ property_keys d.
Lemma HasUniqueProperty_unused {T} `{UniqueProperty T} l (v : T) : list_ok l -> HasUniqueProperty l v = false -> unused l v.
Proof.
  intros Hl Hv d Hd Hin. assert (HasUniqueProperty l v = true); [|congruence].
  apply HasUniqueProperty_spec; [done|]. exists d. by apply GetUniquePropertyMN_spec.
Qed.

(** C25: What an admitted registration guarantees, over a list with a sound index.  Its
    version is known, type and mode are 0, its keys are not null, the operator's reward is
    at most all, its inputs hash is right; the payout script pays a key or a script, not
    the owner or voting key.  Its address is null or valid IPv4, with the main network's
    port exactly there, routable on the main and development networks; no masternode has
    it but one with the same collateral, and none the owner's or operator's key.  The
    collateral is an unspent coin, in the memory pool's view, of the value required at the
    chain's height.  An external one (with a hash) is an unspent output of the chain, that
    coin if the pool lacks the transaction, paying a key other than the owner and voting
    keys, which signed the payload (for the null key there is no signature).  An
    internal one is an output of the transaction, paying neither key, with no signature. *)
Theorem registration_admitted tx (hash : list Z) (height : Z) :
  CheckProRegTx RecoverCompact node GetListForBlock tx (Some (hash, height)) = Ok tt ->
  prefixes_ok (prefixes node) -> (forall l, GetListForBlock hash = Some l -> list_ok l) ->
  exists ptx l dest, GetTxPayload CProRegTx.t (vExtraPayload (tx_data tx)) = Some ptx /\ GetListForBlock hash = Some l /\
    (let payload_outpoint := CProRegTx.collateralOutpoint ptx in
     let external := negb (uint256_IsNull (op_hash payload_outpoint)) in
     let outpoint := if external then payload_outpoint else {| op_hash := tx_hash tx; op_n := op_n payload_outpoint |} in
     CProRegTx.nVersion ptx <> 0 /\ CProRegTx.nVersion ptx <= CProRegTx.CURRENT_VERSION /\
     CProRegTx.nType ptx = 0 /\ CProRegTx.nMode ptx = 0 /\ CProRegTx.nOperatorReward ptx <= 10000 /\
     CProRegTx.inputsHash ptx = CalcTxInputsHash tx /\
     CKeyID_IsNull (CProRegTx.keyIDOwner ptx) = false /\ IsValid (CProRegTx.pubKeyOperator ptx) = true /\
     CKeyID_IsNull (CProRegTx.keyIDVoting ptx) = false /\
     (IsPayToPublicKeyHash (CProRegTx.scriptPayout ptx) || IsPayToScriptHash (CProRegTx.scriptPayout ptx)) = true /\
     (exists payout, ExtractDestination (CProRegTx.scriptPayout ptx) = Some payout /\
        payout <> DestKey (CProRegTx.keyIDOwner ptx) /\ payout <> DestKey (CProRegTx.keyIDVoting ptx)) /\
     (CProRegTx.addr ptx = CService_null \/
      IsValidAddr (ip (CProRegTx.addr ptx)) = true /\ IsIPv4 (ip (CProRegTx.addr ptx)) = true /\
      (network node = MAIN <-> port (CProRegTx.addr ptx) = mainnetDefaultPort) /\
      (network node = MAIN \/ network node = DEVNET -> IsRoutable (ip (CProRegTx.addr ptx)) (fAllowPrivateNet node) = true)) /\
     (forall d, mnMap l !! proTxHash d = Some d -> SerializeHash (CProRegTx.addr ptx) ∈ property_keys d ->
        MasternodeList.collateralOutpoint d = outpoint) /\
     unused l (CProRegTx.keyIDOwner ptx) /\ unused l (CProRegTx.pubKeyOperator ptx) /\
     (exists coin, viewMemPool_GetCoin node payload_outpoint = Some coin /\ IsSpent coin = false /\
        collateral_value_ok (tip_nHeight node) (nValue (coin_out coin)) = true) /\
     dest <> DestKey (CProRegTx.keyIDOwner ptx) /\ dest <> DestKey (CProRegTx.keyIDVoting ptx) /\
     if external then
       exists coin key, GetUTXOCoin node payload_outpoint = Some coin /\
         (mempool node (op_hash payload_outpoint) = None -> viewMemPool_GetCoin node payload_outpoint = Some coin) /\
         ExtractDestination (scriptPubKey (coin_out coin)) = Some dest /\ dest = DestKey key /\
         if CKeyID_IsNull key then CProRegTx.vchSig ptx = []
         else exists message, MakeSignString node ptx = Ok message /\ VerifyMessage RecoverCompact key (CProRegTx.vchSig ptx) message = true
     else
       CProRegTx.vchSig ptx = [] /\ exists out, vout (tx_data tx) !! Z.to_nat (op_n payload_outpoint) = Some out /\
         ExtractDestination (scriptPubKey out) = Some dest).
Proof.
  intros E Hp Hl. apply CheckProRegTx_inv in E as (ptx & l & outpoint & El & R). specialize (Hl l El).
  destruct (reg_collateral _ _ _ _ _ _ R) as (dest & key & Ec & D1 & D2 & Hsig & Hnosig).
  destruct (CheckCollateral_spec node tx ptx outpoint dest key ltac:(apply Hp) Ec) as (V & Ext & Int).
  exists ptx, l, dest. split; [apply (reg_payload _ _ _ _ _ _ R)|]. split; [done|]. cbv zeta.
  destruct (reg_version _ _ _ _ _ _ R) as (? & ? & ? & ?), (reg_keys _ _ _ _ _ _ R) as (? & ? & ?), (reg_keys_free _ _ _ _ _ _ R) as [? ?].
  do 4 (split; [done|]). split; [apply (reg_reward _ _ _ _ _ _ R)|]. split; [apply (reg_inputs _ _ _ _ _ _ R)|].
  do 3 (split; [done|]). split; [apply (reg_payout_script _ _ _ _ _ _ R)|]. split; [apply (reg_payout _ _ _ _ _ _ R)|].
  split; [apply (reg_addr _ _ _ _ _ _ R)|]. split.
  { intros d Hd Hin. assert (MasternodeList.collateralOutpoint d = outpoint) as ->.
    - destruct (reg_addr_free _ _ _ _ _ _ R) as (e & He & <-).
      + apply HasUniqueProperty_spec; [done|]. exists d. by apply GetUniquePropertyMN_spec.
      + assert (GetUniquePropertyMN l (CProRegTx.addr ptx) = Some d) as Hd' by (by apply GetUniquePropertyMN_spec). congruence.
    - destruct (uint256_IsNull _); [by destruct (Int eq_refl) as (-> & _)|by destruct (Ext eq_refl) as (-> & _)]. }
  do 2 (split; [by apply HasUniqueProperty_unused|]). split.
  { unfold validateCollateral in V. destruct (viewMemPool_GetCoin node _) as [c|]; [|done]. exists c. by destruct (IsSpent c). }
  split; [done|]. split; [done|]. destruct (uint256_IsNull _); cbn [negb].
  - destruct (Int eq_refl) as (_ & -> & Hout). split; [by apply Hnosig|done].
  - destruct (Ext eq_refl) as (-> & -> & coin & Ecoin & Ed). exists coin, key. split; [done|]. split.
    + intros Hnone. unfold viewMemPool_GetCoin. rewrite Hnone. unfold GetUTXOCoin in Ecoin.
      destruct (pcoinsTip node _) as [c|]; [|done]. by destruct (IsSpent c).
    + split; [done|]. split; [done|]. destruct (CKeyID_IsNull key); auto.
Qed.

(** A registration cannot bring its own collateral.  The checks and the block handler
    pass the payload's outpoint, whose hash is null for a collateral that is an output
    of the registration itself, to [validateCollateral], which looks that outpoint up: as
    no coin has a null hash, every such registration is refused. *)
Theorem internal_collateral_refused tx (prev : option (list Z * Z)) (ptx : CProRegTx.t) :
  GetTxPayload CProRegTx.t (vExtraPayload (tx_data tx)) = Some ptx ->
  uint256_IsNull (op_hash (CProRegTx.collateralOutpoint ptx)) = true ->
  pcoinsTip node (CProRegTx.collateralOutpoint ptx) = None -> mempool node (op_hash (CProRegTx.collateralOutpoint ptx)) = None ->
  CheckProRegTx RecoverCompact node GetListForBlock tx prev <> Ok tt.
Proof.
  intros Ep En Hn Hm E. unfold CheckProRegTx in E. rewrite Ep in E. passes E.
  match goal with B : CheckCollateral _ _ _ = Ok _ |- _ => unfold CheckCollateral in B; rewrite En in B; cbn [negb] in B; passes B end.
  match goal with G : negb (validateCollateral _ _) = false |- _ =>
    unfold validateCollateral, viewMemPool_GetCoin in G; rewrite Hm, Hn in G; done end.
Qed.
End Theorems.

(** ** A node and a registration *)

#[local] Existing Instance any_curve.
Lemma forallb_bytes_ok l : forallb (fun b => (0 <=? b) && (b <? 256)) l = true -> bytes_ok l.
Proof. rewrite forallb_forall. intros Hf. apply Forall_forall. intros b Hb%list_elem_of_In. specialize (Hf b Hb). unfold is_u. lia. Qed.

Definition sample_pubkey : list Z := 2 :: replicate 32 17.
Definition sample_coin : Coin :=
  Coin_new {| nValue := 1000 * COIN; scriptPubKey := GetScriptForDestination (DestKey (GetID sample_pubkey)); nRounds := -10 |} 50 false.
Definition sample_collateral : COutPoint := {| op_hash := replicate 32 88; op_n := 1 |}.
Definition sample_node : NodeState :=
  {| network := REGTEST; prefixes := test_prefixes; fAllowPrivateNet := false; fLiteMode := false; tip_nHeight := 600;
     pcoinsTip := fun o => if decide (o = sample_collateral) then Some sample_coin else None;
     mempool := fun _ => None; mns_tipHeight := 600; spork15Value := 0 |}.
(** A signature library in which every signature is by one key. *)
Definition one_signer (hash sig : list Z) : option (list Z) := Some sample_pubkey.

Definition sample_ptx (collateral : COutPoint) : CProRegTx.t :=
  {| CProRegTx.nVersion := 1; CProRegTx.nType := 0; CProRegTx.nMode := 0; CProRegTx.collateralOutpoint := collateral;
     CProRegTx.addr := CService_null; CProRegTx.keyIDOwner := sample_key 101; CProRegTx.pubKeyOperator := sample_operator 102;
     CProRegTx.keyIDVoting := sample_key 103; CProRegTx.nOperatorReward := 500;
     CProRegTx.scriptPayout := GetScriptForDestination (DestKey (sample_key 104)); CProRegTx.inputsHash := Hash []; CProRegTx.vchSig := [1; 2; 3] |}.
Definition register (ptx : CProRegTx.t) : CTransaction :=
  CTransaction_of {| nVersion := 3; nType := TRANSACTION_PROVIDER_REGISTER; vin := [];
    vout := [{| nValue := 1000 * COIN; scriptPubKey := GetScriptForDestination (DestKey (sample_key 105)); nRounds := -10 |}]; nLockTime := 0;
    vExtraPayload := SetTxPayload ptx |}.
Definition sample_manager (hash : list Z) : option CDeterministicMNList := Some sample_list.

Lemma sample_manager_ok hash l : sample_manager hash = Some l -> list_ok l.
Proof. unfold sample_manager. generalize sample_list_ok. generalize sample_list. intros l' Hl E. by simplify_eq. Qed.

Lemma registration_admitted_witness :
  CheckProRegTx one_signer sample_node sample_manager (register (sample_ptx sample_collateral)) (Some (replicate 32 9, 600)) = Ok tt /\
  exists coin dest, viewMemPool_GetCoin sample_node sample_collateral = Some coin /\
    ExtractDestination (scriptPubKey (coin_out coin)) = Some dest /\ dest <> DestKey (sample_key 101).
Proof.
  assert (CheckProRegTx one_signer sample_node sample_manager (register (sample_ptx sample_collateral)) (Some (replicate 32 9, 600)) = Ok tt)
    as E by (vm_compute; reflexivity).
  split; [exact E|].
  destruct (registration_admitted one_signer sample_node sample_manager (register (sample_ptx sample_collateral)) (replicate 32 9) 600 E)
    as (ptx & l & dest & H1 & _ & H3).
  - split_and!; [done|done|by repeat constructor|by repeat constructor|done].
  - exact (sample_manager_ok (replicate 32 9)).
  - assert (GetTxPayload CProRegTx.t (vExtraPayload (tx_data (register (sample_ptx sample_collateral)))) = Some (sample_ptx sample_collateral))
      as Ep by (vm_compute; reflexivity).
    rewrite Ep in H1. injection H1 as <-.
    assert (uint256_IsNull (op_hash (CProRegTx.collateralOutpoint (sample_ptx sample_collateral))) = false) as En by (vm_compute; reflexivity).
    cbv zeta in H3. rewrite En in H3. cbn [negb] in H3.
    destruct H3 as (_ & _ & _ & _ & _ & _ & _ & _ & _ & _ & _ & _ & _ & _ & _ & _ & Hd & _ & coin & key & _ & Hm & Hx & _).
    exists coin, dest. exact (conj (Hm eq_refl) (conj Hx Hd)).
Defined.

Lemma checks_report_witness :
  reports (CheckProRegTx one_signer sample_node sample_manager (register (sample_ptx sample_collateral)) None).
Proof.
  refine (proj1 (checks_report one_signer sample_node sample_manager (register (sample_ptx sample_collateral)) None _ _ _)).
  - intros hash. exists sample_list. split; [exact eq_refl|exact sample_list_ok].
  - split_and!; [done|done|by repeat constructor|by repeat constructor|done].
  - apply forallb_bytes_ok. vm_compute. reflexivity.
Defined.

(** The registration with its first output as collateral, worth what is required. *)
Lemma internal_collateral_refused_witness :
  CheckProRegTx one_signer sample_node sample_manager (register (sample_ptx {| op_hash := uint256_null; op_n := 0 |})) None <> Ok tt.
Proof.
  apply (internal_collateral_refused one_signer sample_node sample_manager _ None (sample_ptx {| op_hash := uint256_null; op_n := 0 |})).
  - vm_compute. reflexivity.
  - reflexivity.
  - reflexivity.
  - reflexivity.
Defined.

Example text_samples :
  decimal 0 = chars "0" /\ decimal 65535 = chars "65535" /\ HexStr [0; 171; 255] = chars "00abff" /\ last (chars strMessageMagic) = Some 10.
Proof. by vm_compute. Qed.
