(* ===== verification/QuorumProcessor.v ===== *)
(** * Mining quorum commitments (src/src/llmq/quorums_blockprocessor.h/.cpp,
    [CheckLLMQCommitment] of src/src/llmq/quorums_commitment.cpp)

    Which commitments a block must and may hold, what is kept of those mined, and which
    commitment a miner puts into the next block.  The block index and the active chain are
    those of Chain.v; mined commitments are in the evolution database; the list of a
    block, asked of the masternode manager, is a parameter.

    The theorems: a block that is accepted holds for every type of quorum exactly the
    commitment that is required; undoing it restores the database and makes its
    commitments minable again; and of the commitments taken in for a quorum the one
    with most signers, and among these the first, is mined. *)

From Stdlib Require Import String.
From S2P Require Import Prelude Bytes Serialize Containers Hash Transaction Block ProviderTx MasternodeList MasternodeQueue QuorumCommitment EvoDb ProviderChecks.
From S2P Require Chain Pow.
From stdpp Require Import list gmap.
Local Open Scope Z_scope.
Local Open Scope cxx_scope.

(** [mapBlockIndex], the entries it points to, and [chainActive]. *)
Record ChainState : Type := {
  mapBlockIndex : gmap (list Z) nat;
  entries : gmap nat Chain.CBlockIndex;
  chainActive : list (option nat);
}.

(** [GetBlockHash]; the outer option is a pointer that is invalid. *)
Definition GetBlockHash (chain : ChainState) (nBlockHeight : Z) : option (option (list Z)) :=
  match Chain.Tip (chainActive chain) with
  | None => Some None
  | Some _ =>
      if (nBlockHeight <? -1) || (Chain.Height (chainActive chain) <? nBlockHeight) then Some None
      else
        let nBlockHeight := if nBlockHeight =? -1 then Chain.Height (chainActive chain) else nBlockHeight in
        p ← Chain.at_height (chainActive chain) nBlockHeight;
        b ← entries chain !! p;
        Some (Some (Chain.phashBlock b))
  end.

Record CQuorumBlockProcessor : Type := {
  minableCommitmentsByQuorum : gmap (Z * list Z) (list Z);
  minableCommitments : gmap (list Z) CFinalCommitment;
}.
Definition CQuorumBlockProcessor_new : CQuorumBlockProcessor := {| minableCommitmentsByQuorum := ∅; minableCommitments := ∅ |}.

(** What is sent or done to a peer. *)
Inductive PeerAction : Type := RelayInv (hash : list Z) | Misbehaving (howmuch : Z).

(** [std::map<Consensus::LLMQType, CFinalCommitment>], in the order of its keys. *)
Fixpoint map_emplace (k : Z) (v : CFinalCommitment) (m : list (Z * CFinalCommitment)) : list (Z * CFinalCommitment) :=
  match m with
  | [] => [(k, v)]
  | (j, w) :: m' => if k <? j then (k, v) :: m else if k =? j then m else (j, w) :: map_emplace k v m'
  end.
Definition map_count (k : Z) (m : list (Z * CFinalCommitment)) : bool := existsb (fun p => fst p =? k) m.

Section Processor.
Context `{BLSCurve}.
Context (llmqs : Llmqs) (GetListForBlock : list Z -> option CDeterministicMNList).

(** ** Sessions *)

Definition IsMiningPhase (llmqType nHeight : Z) : option bool :=
  params ← llmqs_at llmqs llmqType;
  let phaseIndex := Z.rem nHeight (dkgInterval params) in
  Some ((dkgMiningWindowStart params <=? phaseIndex) && (phaseIndex <=? dkgMiningWindowEnd params)).

Definition GetQuorumBlockHash (chain : ChainState) (llmqType nHeight : Z) : option (list Z) :=
  params ← llmqs_at llmqs llmqType;
  let quorumStartHeight := nHeight - Z.rem nHeight (dkgInterval params) in
  r ← GetBlockHash chain quorumStartHeight;
  Some (default uint256_null r).

Definition HasMinedCommitment (evo : EvoStore) (llmqType : Z) (quorumHash : list Z) : bool :=
  EvoDB_Exists evo (DB_MINED_COMMITMENT (u8 llmqType) quorumHash).
Definition GetMinedCommitment (evo : EvoStore) (llmqType : Z) (quorumHash : list Z) : option CFinalCommitment :=
  match EvoDB_Read evo (DB_MINED_COMMITMENT (u8 llmqType) quorumHash) with Some (VCommitment qc) => Some qc | _ => None end.

Definition IsCommitmentRequired (chain : ChainState) (evo : EvoStore) (llmqType nHeight : Z) : option bool :=
  quorumHash ← GetQuorumBlockHash chain llmqType nHeight;
  isMiningPhase ← (if negb (uint256_IsNull quorumHash) then IsMiningPhase llmqType nHeight else Some false);
  let hasMinedCommitment := negb (uint256_IsNull quorumHash) && HasMinedCommitment evo llmqType quorumHash in
  Some (isMiningPhase && negb hasMinedCommitment).

(** [CLLMQUtils::GetAllQuorumMembers] of the list at the quorum's block. *)
Definition quorum_at (llmqType : Z) (blockHash : list Z) : option (list CDeterministicMN) :=
  allMns ← GetListForBlock blockHash;
  GetAllQuorumMembers llmqs allMns llmqType blockHash.

(** ** Commitments that can be mined *)

Definition AddMinableCommitment (proc : CQuorumBlockProcessor) (fqc : CFinalCommitment) : option (CQuorumBlockProcessor * list PeerAction) :=
  let commitmentHash := SerializeHash fqc in
  let k := (llmqType fqc, quorumHash fqc) in
  match minableCommitmentsByQuorum proc !! k with
  | None =>
      Some ({| minableCommitmentsByQuorum := <[k := commitmentHash]> (minableCommitmentsByQuorum proc);
               minableCommitments := emplace commitmentHash fqc (minableCommitments proc) |}, [RelayInv commitmentHash])
  | Some known =>
      oldFqc ← minableCommitments proc !! known;
      if CountSigners oldFqc <? CountSigners fqc then
        let known := commitmentHash in
        Some ({| minableCommitmentsByQuorum := <[k := known]> (minableCommitmentsByQuorum proc);
                 minableCommitments := emplace commitmentHash fqc (delete known (minableCommitments proc)) |}, [RelayInv commitmentHash])
      else Some (proc, [])
  end.

Definition HasMinableCommitment (proc : CQuorumBlockProcessor) (hash : list Z) : bool :=
  bool_decide (is_Some (minableCommitments proc !! hash)).
Definition GetMinableCommitmentByHash (proc : CQuorumBlockProcessor) (commitmentHash : list Z) : option CFinalCommitment :=
  minableCommitments proc !! commitmentHash.

(** The inner option is [false]. *)
Definition GetMinableCommitment (chain : ChainState) (evo : EvoStore) (proc : CQuorumBlockProcessor) (llmqType nHeight : Z)
  : option (option CFinalCommitment) :=
  required ← IsCommitmentRequired chain evo llmqType nHeight;
  if negb (required : bool) then Some None
  else
    quorumHash ← GetQuorumBlockHash chain llmqType nHeight;
    if uint256_IsNull quorumHash then Some None
    else
      match minableCommitmentsByQuorum proc !! (llmqType, quorumHash) with
      | None => params ← llmqs_at llmqs llmqType; Some (Some (CFinalCommitment_null params quorumHash))
      | Some known => qc ← minableCommitments proc !! known; Some (Some qc)
      end.

Definition GetMinableCommitmentTx (chain : ChainState) (evo : EvoStore) (proc : CQuorumBlockProcessor) (llmqType nHeight : Z)
  : option (option CTransaction) :=
  qc ← GetMinableCommitment chain evo proc llmqType nHeight;
  match qc with
  | None => Some None
  | Some qc =>
      Some (Some (CTransaction_of {| nVersion := 3; nType := TRANSACTION_QUORUM_COMMITMENT; vin := []; vout := []; nLockTime := 0;
        vExtraPayload := SetTxPayload {| qcTx_nVersion := 1; qcTx_nHeight := u32 nHeight; commitment := qc |} |}))
  end.

(** The commitments of a new block ([BlockAssembler::CreateNewBlock], src/src/miner.cpp). *)
Fixpoint commitment_txs (chain : ChainState) (evo : EvoStore) (proc : CQuorumBlockProcessor) (nHeight : Z) (types : Llmqs) : option (list CTransaction) :=
  match types with
  | [] => Some []
  | (type, _) :: types =>
      qcTx ← GetMinableCommitmentTx chain evo proc type nHeight;
      txs ← commitment_txs chain evo proc nHeight types;
      Some (match qcTx with Some tx => tx :: txs | None => txs end)
  end.

(** ** Messages: the body of [ProcessMessage] for [qfcommit]

    An exception of the stream goes to the caller: a rejection that reports nothing. *)

Definition ProcessMessage (chain : ChainState) (proc : CQuorumBlockProcessor) (vRecv : list Z) : check (CQuorumBlockProcessor * list PeerAction) :=
  match CFinalCommitment_Unserialize vRecv with
  | Throw _ => Throw (Rejected [])
  | Ok (qc, _) =>
      if IsNull qc then Ok (proc, [Misbehaving 100])
      else
        match llmqs_at llmqs (llmqType qc) with
        | None => Ok (proc, [Misbehaving 100])
        | Some params =>
            match mapBlockIndex chain !! quorumHash qc with
            | None => Ok (proc, [])
            | Some pquorumIndex =>
                let! b := deref (entries chain !! pquorumIndex) in
                let! tip := deref (Chain.Tip (chainActive chain)) in
                let! ancestor := asserted (Chain.GetAncestor (entries chain) tip (Chain.nHeight b)) in
                if negb (bool_decide (ancestor = Some pquorumIndex)) then Ok (proc, [])
                else if negb (Chain.nHeight b - Z.rem (Chain.nHeight b) (dkgInterval params) =? Chain.nHeight b) then Ok (proc, [Misbehaving 100])
                else
                  let known := hash ← minableCommitmentsByQuorum proc !! (llmqType qc, quorumHash qc); minableCommitments proc !! hash in
                  if match known with Some have => CountSigners have <=? CountSigners qc | None => false end then Ok (proc, [])
                  else
                    let! members := asserted (quorum_at (llmqType qc) (quorumHash qc)) in
                    if negb (Verify llmqs qc members true) then Ok (proc, [Misbehaving 100])
                    else asserted (AddMinableCommitment proc qc)
            end
        end
  end.

(** ** Blocks *)

Fixpoint commitments_loop (vtx : list CTransaction) (ret : list (Z * CFinalCommitment)) : check (list (Z * CFinalCommitment)) :=
  match vtx with
  | [] => Ok ret
  | tx :: vtx =>
      if nType (tx_data tx) =? TRANSACTION_QUORUM_COMMITMENT then
        match GetTxPayload CFinalCommitmentTxPayload (vExtraPayload (tx_data tx)) with
        | None => DoS 100 REJECT_INVALID "bad-tx-payload"
        | Some qc =>
            if map_count (llmqType (commitment qc)) ret then DoS 100 REJECT_INVALID "bad-qc-dup"
            else commitments_loop vtx (map_emplace (llmqType (commitment qc)) (commitment qc) ret)
        end
      else commitments_loop vtx ret
  end.
Definition GetCommitmentsFromBlock (block : CBlock) (fDIP0003Active : bool) : check (list (Z * CFinalCommitment)) :=
  let! ret := commitments_loop (vtx block) [] in
  if negb fDIP0003Active && negb (bool_decide (ret = [])) then DoS 100 REJECT_INVALID "bad-qc-premature" else Ok ret.

Definition ProcessCommitment (chain : ChainState) (evo : EvoStore) (nHeight : Z) (qc : CFinalCommitment) : check EvoStore :=
  let! params := asserted (llmqs_at llmqs (llmqType qc)) in
  let! hash := asserted (GetQuorumBlockHash chain (llmqType qc) nHeight) in
  if uint256_IsNull hash then DoS 100 REJECT_INVALID "bad-qc-block"
  else if negb (bool_decide (hash = quorumHash qc)) then DoS 100 REJECT_INVALID "bad-qc-block"
  else if IsNull qc then
    (if negb (VerifyNull llmqs qc) then DoS 100 REJECT_INVALID "bad-qc-invalid-null" else Ok evo)
  else if HasMinedCommitment evo (llmq_type params) hash then DoS 100 REJECT_INVALID "bad-qc-dup"
  else
    let! phase := asserted (IsMiningPhase (llmq_type params) nHeight) in
    if negb phase then DoS 100 REJECT_INVALID "bad-qc-height"
    else
      let! members := asserted (quorum_at (llmq_type params) hash) in
      if negb (Verify llmqs qc members true) then DoS 100 REJECT_INVALID "bad-qc-invalid"
      else Ok (EvoDB_Write evo (DB_MINED_COMMITMENT (u8 (llmq_type params)) hash) (VCommitment qc)).

(** The loop over the configured types. *)
Fixpoint required_loop (chain : ChainState) (evo : EvoStore) (nHeight : Z) (qcs : list (Z * CFinalCommitment)) (types : Llmqs) : check unit :=
  match types with
  | [] => Ok tt
  | (type, _) :: types =>
      let hasCommitmentInNewBlock := map_count type qcs in
      let! isCommitmentRequired := asserted (IsCommitmentRequired chain evo type nHeight) in
      if hasCommitmentInNewBlock && negb isCommitmentRequired then DoS 100 REJECT_INVALID "bad-qc-not-allowed"
      else if negb hasCommitmentInNewBlock && isCommitmentRequired then DoS 100 REJECT_INVALID "bad-qc-missing"
      else required_loop chain evo nHeight qcs types
  end.

(** The loop over the commitments, with the database as it is left, also by a failure. *)
Fixpoint process_loop (chain : ChainState) (evo : EvoStore) (nHeight : Z) (qcs : list (Z * CFinalCommitment)) : check unit * EvoStore :=
  match qcs with
  | [] => (Ok tt, evo)
  | (_, qc) :: qcs =>
      match ProcessCommitment chain evo nHeight qc with
      | Ok evo => process_loop chain evo nHeight qcs
      | Throw e => (Throw e, evo)
      end
  end.

Definition ProcessBlock (chain : ChainState) (evo : EvoStore) (block : CBlock) (nHeight : Z) (fDIP0003Active : bool) : check unit * EvoStore :=
  if negb fDIP0003Active then (Ok tt, evo)
  else
    match (let! qcs := GetCommitmentsFromBlock block fDIP0003Active in
           let! _ := required_loop chain evo nHeight qcs llmqs in Ok qcs) with
    | Throw e => (Throw e, evo)
    | Ok qcs => process_loop chain evo nHeight qcs
    end.

Fixpoint undo_loop (evo : EvoStore) (proc : CQuorumBlockProcessor) (qcs : list (Z * CFinalCommitment)) : option (EvoStore * CQuorumBlockProcessor) :=
  match qcs with
  | [] => Some (evo, proc)
  | (_, qc) :: qcs =>
      if IsNull qc then undo_loop evo proc qcs
      else
        let evo := EvoDB_Erase evo (DB_MINED_COMMITMENT (llmqType qc) (quorumHash qc)) in
        r ← AddMinableCommitment proc qc;
        undo_loop evo (fst r) qcs
  end.
Definition UndoBlock (evo : EvoStore) (proc : CQuorumBlockProcessor) (block : CBlock) (fDIP0003Active : bool)
  : check (bool * (EvoStore * CQuorumBlockProcessor)) :=
  match GetCommitmentsFromBlock block fDIP0003Active with
  | Throw _ => Ok (false, (evo, proc))
  | Ok qcs => let! r := asserted (undo_loop evo proc qcs) in Ok (true, r)
  end.

(** ** The check of one transaction *)

Definition CheckLLMQCommitment (chain : ChainState) (tx : CTransaction) (pindexPrev : option nat) : check unit :=
  match GetTxPayload CFinalCommitmentTxPayload (vExtraPayload (tx_data tx)) with
  | None => DoS 100 REJECT_INVALID "bad-qc-payload"
  | Some qcTx =>
      if (qcTx_nVersion qcTx =? 0) || (1 <? qcTx_nVersion qcTx) then DoS 100 REJECT_INVALID "bad-qc-version"
      else
        let! pprev := deref pindexPrev in
        let! prev := deref (entries chain !! pprev) in
        if negb (qcTx_nHeight qcTx =? u32 (Chain.nHeight prev + 1)) then DoS 100 REJECT_INVALID "bad-qc-height"
        else
          match mapBlockIndex chain !! quorumHash (commitment qcTx) with
          | None => DoS 100 REJECT_INVALID "bad-qc-quorum-hash"
          | Some pindexQuorum =>
              let! b := deref (entries chain !! pindexQuorum) in
              let! ancestor := asserted (Chain.GetAncestor (entries chain) pprev (Chain.nHeight b)) in
              if negb (bool_decide (ancestor = Some pindexQuorum)) then DoS 100 REJECT_INVALID "bad-qc-quorum-hash"
              else
                match llmqs_at llmqs (llmqType (commitment qcTx)) with
                | None => DoS 100 REJECT_INVALID "bad-qc-type"
                | Some params =>
                    if IsNull (commitment qcTx) then
                      (if negb (VerifyNull llmqs (commitment qcTx)) then DoS 100 REJECT_INVALID "bad-qc-invalid-null" else Ok tt)
                    else
                      let! members := asserted (quorum_at (llmq_type params) (quorumHash (commitment qcTx))) in
                      if negb (Verify llmqs (commitment qcTx) members false) then DoS 100 REJECT_INVALID "bad-qc-invalid" else Ok tt
                end
          end
  end.
End Processor.

(** ** Lemmas *)

Lemma EvoDB_Exists_Read (e : EvoStore) k : EvoDB_Exists e k = bool_decide (is_Some (EvoDB_Read e k)).
Proof.
  unfold EvoDB_Exists, EvoDB_Read, EvoDb.Exists, EvoDb.Read. cbn. unfold EvoDb.Exists, EvoDb.Read. cbn.
  assert (forall v : evo_value, bool_decide (is_Some (Some v)) = true) as Ht by (intros v; by apply bool_decide_true).
  destruct (bool_decide (k ∈ deletes (curDBTransaction e))); [done|]. destruct (writes (curDBTransaction e) !! k); [by rewrite !Ht|].
  rewrite (bool_decide_false (is_Some None)) by (by intros []).
  destruct (bool_decide (k ∈ deletes (rootDBTransaction e))); [done|]. destruct (writes (rootDBTransaction e) !! k); [by rewrite !Ht|].
  by rewrite (bool_decide_false (is_Some None)) by (by intros []).
Qed.

Section Sessions.
Context `{BLSCurve}.
Context (llmqs : Llmqs) (GetListForBlock : list Z -> option CDeterministicMNList).
Implicit Types (chain : ChainState) (evo : EvoStore) (qc : CFinalCommitment) (qcs : list (Z * CFinalCommitment)).

(** The configured types are bytes, each once, with parameters of its own type. *)
Record llmqs_ok : Prop := {
  types_distinct : NoDup (map fst llmqs);
  types_own : forall type params, (type, params) ∈ llmqs -> llmq_type params = type /\ is_u 8 type;
}.
Context (Hllmqs : llmqs_ok).

Lemma llmqs_at_own type params : llmqs_at llmqs type = Some params -> (type, params) ∈ llmqs /\ llmq_type params = type /\ u8 type = type.
Proof using Hllmqs.
  intros E%llmqs_at_In%list_elem_of_In. destruct (types_own Hllmqs _ _ E) as [-> Hu]. split_and!; [done|done|by apply u8_id].
Qed.
Lemma llmqs_at_elem type params : (type, params) ∈ llmqs -> llmqs_at llmqs type = Some params.
Proof using Hllmqs.
  intros Hin. pose proof (types_distinct Hllmqs) as Hnd. unfold llmqs_at. revert Hin Hnd. clear. induction llmqs as [|[t q] l IH]; [by intros ?%elem_of_nil|].
  cbn. intros [[= -> ->]|Hin]%elem_of_cons [Ht Hnd]%NoDup_cons; [by rewrite Z.eqb_refl|].
  destruct (Z.eqb_spec t type) as [->|]; [|by apply IH]. destruct Ht. apply list_elem_of_fmap. by exists (type, params).
Qed.

(** *** Collecting *)

Definition tx_commitments (vtx : list CTransaction) : list CFinalCommitment :=
  omap (fun tx => if nType (tx_data tx) =? TRANSACTION_QUORUM_COMMITMENT
                  then commitment <$> GetTxPayload CFinalCommitmentTxPayload (vExtraPayload (tx_data tx)) else None) vtx.
Definition keyed (cs : list CFinalCommitment) : list (Z * CFinalCommitment) := map (fun qc => (llmqType qc, qc)) cs.

Lemma map_count_spec k qcs : map_count k qcs = true <-> k ∈ qcs.*1.
Proof.
  unfold map_count. rewrite existsb_exists, list_elem_of_fmap. split.
  - intros (x & Hx%list_elem_of_In & E%Z.eqb_eq). by exists x.
  - intros (x & -> & Hx%list_elem_of_In). exists x. split; [done|apply Z.eqb_refl].
Qed.
Lemma map_emplace_new k v qcs : map_count k qcs = false -> map_emplace k v qcs ≡ₚ (k, v) :: qcs.
Proof.
  induction qcs as [|[j w] qcs IH]; [done|]. cbn. intros [Hj Hc]%orb_false_iff. rewrite Z.eqb_sym in Hj. rewrite Hj.
  destruct (k <? j); [done|]. rewrite IH by done. apply Permutation_swap.
Qed.

Lemma commitments_loop_Ok vtx ret ret' : commitments_loop vtx ret = Ok ret' -> NoDup ret.*1 ->
  ret' ≡ₚ keyed (tx_commitments vtx) ++ ret /\ NoDup ret'.*1.
Proof.
  revert ret. induction vtx as [|tx vtx IH]; intros ret; cbn [commitments_loop tx_commitments omap list_omap].
  { by intros [= ->]. }
  destruct (nType (tx_data tx) =? _); [|apply IH]. destruct (GetTxPayload _ _) as [p|]; [|done]. cbn [fmap option_fmap option_map].
  destruct (map_count _ ret) eqn:Ec; [done|]. intros E Hnd.
  pose proof (map_emplace_new (llmqType (commitment p)) (commitment p) ret Ec) as Hp.
  destruct (IH _ E) as [Hp' Hnd'].
  - rewrite Hp. cbn. apply NoDup_cons. split; [|done]. rewrite <- map_count_spec. by rewrite Ec.
  - split; [|done]. rewrite Hp', Hp. cbn. symmetry. apply Permutation_middle.
Qed.

Lemma commitments_loop_total vtx ret :
  (forall tx, tx ∈ vtx -> nType (tx_data tx) = TRANSACTION_QUORUM_COMMITMENT -> is_Some (GetTxPayload CFinalCommitmentTxPayload (vExtraPayload (tx_data tx)))) ->
  NoDup (map llmqType (tx_commitments vtx) ++ ret.*1) -> exists ret', commitments_loop vtx ret = Ok ret'.
Proof.
  revert ret. induction vtx as [|tx vtx IH]; intros ret Hd; cbn [commitments_loop tx_commitments omap list_omap]; [by eexists|].
  destruct (Z.eqb_spec (nType (tx_data tx)) TRANSACTION_QUORUM_COMMITMENT) as [Et|]; [|apply IH; intros; apply Hd; [by right|done]].
  destruct (Hd tx ltac:(by left) Et) as [p ->]. cbn [fmap option_fmap option_map map app]. intros [Hn Hnd]%NoDup_cons.
  destruct (map_count (llmqType (commitment p)) ret) eqn:Ec.
  { destruct Hn. apply elem_of_app. right. by apply map_count_spec. }
  apply IH; [intros; apply Hd; [by right|done]|]. rewrite (map_emplace_new _ _ _ Ec). cbn [fmap list_fmap fst].
  rewrite <- Permutation_middle. apply NoDup_cons. split; [done|done].
Qed.

(** *** What a commitment has to be *)

Definition commitment_key qc : evo_key := DB_MINED_COMMITMENT (llmqType qc) (quorumHash qc).
Definition store evo qc : EvoStore := if IsNull qc then evo else EvoDB_Write evo (commitment_key qc) (VCommitment qc).

(** It is for the quorum of the session, and null or verified, in the window and new. *)
Record commitment_good chain evo (h : Z) qc : Prop := {
  good_type : is_Some (llmqs_at llmqs (llmqType qc));
  good_quorum : GetQuorumBlockHash llmqs chain (llmqType qc) h = Some (quorumHash qc) /\ uint256_IsNull (quorumHash qc) = false;
  good_null : IsNull qc = true -> VerifyNull llmqs qc = true;
  good_mined : IsNull qc = false -> EvoDB_Read evo (commitment_key qc) = None /\ IsMiningPhase llmqs (llmqType qc) h = Some true /\
    exists members, quorum_at llmqs GetListForBlock (llmqType qc) (quorumHash qc) = Some members /\ Verify llmqs qc members true = true;
}.

Lemma ProcessCommitment_spec chain evo evo' h qc :
  ProcessCommitment llmqs GetListForBlock chain evo h qc = Ok evo' <-> commitment_good chain evo h qc /\ evo' = store evo qc.
Proof using Hllmqs.
  unfold ProcessCommitment, store. destruct (llmqs_at llmqs (llmqType qc)) as [params|] eqn:Ep; cbn [asserted rbind].
  2: { split; [done|]. intros [[Ht _ _ _] _]. rewrite Ep in Ht. by destruct Ht. }
  destruct (llmqs_at_own _ _ Ep) as (_ & -> & Hu). unfold HasMinedCommitment. rewrite Hu.
  destruct (GetQuorumBlockHash llmqs chain (llmqType qc) h) as [hash|] eqn:Eq; cbn [asserted rbind].
  2: { split; [done|]. intros [[_ [Hq _] _ _] _]. congruence. }
  destruct (uint256_IsNull hash) eqn:En.
  { split; [done|]. intros [[_ [Hq Hn] _ _] _]. congruence. }
  destruct (decide (hash = quorumHash qc)) as [->|Hne].
  2: { rewrite bool_decide_false by done. split; [done|]. intros [[_ [Hq _] _ _] _]. congruence. }
  rewrite bool_decide_true, EvoDB_Exists_Read by done. cbn [negb].
  destruct (IsNull qc) eqn:Enull.
  { destruct (VerifyNull llmqs qc) eqn:Ev; cbn [negb]; [|split; [done|]; intros [[_ _ Hn _] _]; specialize (Hn Enull); congruence].
    split; [intros [= <-]; split; [|done]; split; [by rewrite Ep|done|done|congruence]|by intros [_ ->]]. }
  fold (commitment_key qc). case_bool_decide as Em.
  { split; [done|]. intros [[_ _ _ Hg] _]. destruct (Hg Enull) as [Hr _]. rewrite Hr in Em. by destruct Em. }
  destruct (IsMiningPhase llmqs (llmqType qc) h) as [[|]|] eqn:Eph; cbn [asserted rbind negb];
    [|split; [done|]; intros [[_ _ _ Hg] _]; destruct (Hg Enull) as (_ & ? & _); congruence..].
  destruct (quorum_at llmqs GetListForBlock (llmqType qc) (quorumHash qc)) as [members|] eqn:Emem; cbn [asserted rbind].
  2: { split; [done|]. intros [[_ _ _ Hg] _]. destruct (Hg Enull) as (_ & _ & m & ? & _). congruence. }
  destruct (Verify llmqs qc members true) eqn:Ev; cbn [negb].
  2: { split; [done|]. intros [[_ _ _ Hg] _]. destruct (Hg Enull) as (_ & _ & m & ? & ?). congruence. }
  split; [|by intros [_ ->]]. intros [= <-]. split; [|done]. split; [by rewrite Ep|done|by rewrite Enull|].
  intros _. split_and!; [by apply eq_None_not_Some|done|by exists members].
Qed.

Lemma read_store evo qc k : EvoDB_Read (store evo qc) k =
  if decide (IsNull qc = false /\ k = commitment_key qc) then Some (VCommitment qc) else EvoDB_Read evo k.
Proof.
  unfold store. destruct (IsNull qc) eqn:E; [by rewrite decide_False by (by intros [? _])|]. rewrite EvoDB_Read_Write.
  destruct (decide (k = commitment_key qc)); [by rewrite decide_True|by rewrite decide_False by (by intros [_ ?])].
Qed.

Lemma good_other chain evo h qc qc' : llmqType qc <> llmqType qc' ->
  commitment_good chain (store evo qc) h qc' <-> commitment_good chain evo h qc'.
Proof.
  intros Hne. assert (EvoDB_Read (store evo qc) (commitment_key qc') = EvoDB_Read evo (commitment_key qc')) as E.
  { rewrite read_store, decide_False; [done|]. intros [_ Ek]. unfold commitment_key in Ek. congruence. }
  split; intros [? ? ? Hm]; split; try done; intros Hn; destruct (Hm Hn) as [Hr ?]; split; [congruence|done|congruence|done].
Qed.

(** The loop stores what is good, and all of it. *)
Lemma process_loop_spec chain h qcs : forall evo evo', NoDup (map llmqType (map snd qcs)) ->
  process_loop llmqs GetListForBlock chain evo h qcs = (Ok tt, evo') <->
  (forall qc, qc ∈ map snd qcs -> commitment_good chain evo h qc) /\ evo' = fold_left store (map snd qcs) evo.
Proof using Hllmqs.
  induction qcs as [|[t qc] qcs IH]; intros evo evo'; cbn [process_loop map snd fold_left].
  { intros _. split; [intros [= <-]; split; [by intros qc ?%elem_of_nil|done]|by intros [_ ->]]. }
  intros [Hn Hnd]%NoDup_cons.
  assert (forall qc', qc' ∈ map snd qcs -> llmqType qc <> llmqType qc') as Hne.
  { intros qc' Hin E. apply Hn. apply list_elem_of_fmap. by exists qc'. }
  destruct (ProcessCommitment llmqs GetListForBlock chain evo h qc) as [evo1|e] eqn:E.
  - apply ProcessCommitment_spec in E as [Hg ->]. rewrite IH by done. split; intros [Hall ->]; (split; [|done]).
    + intros qc' [->|Hin]%elem_of_cons; [done|]. apply (good_other chain evo h qc qc'); [by apply Hne|by apply Hall].
    + intros qc' Hin. apply good_other; [by apply Hne|apply Hall; by right].
  - split; [done|]. intros [Hall _]. assert (ProcessCommitment llmqs GetListForBlock chain evo h qc = Ok (store evo qc)) as E'
      by (apply ProcessCommitment_spec; split; [apply Hall; by left|done]). congruence.
Qed.

Lemma required_loop_spec chain evo h qcs types : required_loop llmqs chain evo h qcs types = Ok tt <->
  forall type params, (type, params) ∈ types -> IsCommitmentRequired llmqs chain evo type h = Some (map_count type qcs).
Proof.
  induction types as [|[t q] types IH]; cbn [required_loop]; [split; [by intros _ ? ? ?%elem_of_nil|done]|].
  destruct (IsCommitmentRequired llmqs chain evo t h) as [r|] eqn:Er; cbn [asserted rbind].
  2: { split; [done|]. intros Hall. specialize (Hall t q ltac:(by left)). congruence. }
  destruct r, (map_count t qcs) eqn:Ec; cbn [andb negb].
  2-3: split; [done|]; intros Hall; specialize (Hall t q ltac:(by left)); congruence.
  all: rewrite IH; split; intros Hall type params; [intros [[= -> ->]|Hin]%elem_of_cons; [by rewrite Ec|by apply (Hall _ params)]|intros Hin; apply (Hall _ params); by right].
Qed.

#[local] Opaque SerializeHash.

(** *** Commitments offered

    [AddMinableCommitment] is offered the commitments of undone blocks, those the DKG
    makes, and those from peers that [ProcessMessage] lets through. *)

Definition quorum_of qc : Z * list Z := (llmqType qc, quorumHash qc).
(** The better of two commitments for a quorum: more signers, else the earlier. *)
Definition better (k : Z * list Z) (have : option CFinalCommitment) qc : option CFinalCommitment :=
  if decide (quorum_of qc = k) then
    match have with
    | Some b => if CountSigners b <? CountSigners qc then Some qc else have
    | None => Some qc
    end
  else have.
Definition best (offered : list CFinalCommitment) (k : Z * list Z) : option CFinalCommitment := fold_left (better k) offered None.

(** Commitments with the same hash are the same. *)
Definition no_collision (offered : list CFinalCommitment) : Prop :=
  forall a b, a ∈ offered -> b ∈ offered -> SerializeHash a = SerializeHash b -> a = b.

Record holds_best (offered : list CFinalCommitment) (proc : CQuorumBlockProcessor) : Prop := {
  hb_best : forall k, match best offered k with
                      | Some qc => minableCommitmentsByQuorum proc !! k = Some (SerializeHash qc) /\ minableCommitments proc !! SerializeHash qc = Some qc
                      | None => minableCommitmentsByQuorum proc !! k = None
                      end;
  hb_offered : forall hash qc, minableCommitments proc !! hash = Some qc -> hash = SerializeHash qc /\ qc ∈ offered;
  hb_served : forall done qc rest, offered = done ++ qc :: rest -> best (done ++ [qc]) (quorum_of qc) = Some qc ->
    minableCommitments proc !! SerializeHash qc = Some qc;
}.

Lemma best_snoc offered qc k : best (offered ++ [qc]) k = better k (best offered k) qc.
Proof. unfold best. by rewrite fold_left_app. Qed.

Lemma best_in offered k qc : best offered k = Some qc -> qc ∈ offered /\ quorum_of qc = k.
Proof.
  revert qc. induction offered as [|x offered IH] using rev_ind; intros qc; [done|]. rewrite best_snoc. unfold better. case_decide as Hk.
  - destruct (best offered k) as [b|] eqn:Eb.
    + destruct (_ <? _); intros [= <-]; [split; [apply elem_of_app; right; by left|done]|].
      destruct (IH b eq_refl) as [Hin ?]. split; [apply elem_of_app; by left|done].
    + intros [= <-]. split; [apply elem_of_app; right; by left|done].
  - intros E. destruct (IH qc E) as [Hin ?]. split; [apply elem_of_app; by left|done].
Qed.

Lemma best_most offered k qc : qc ∈ offered -> quorum_of qc = k -> exists b, best offered k = Some b /\ CountSigners qc <= CountSigners b.
Proof.
  induction offered as [|x offered IH] using rev_ind; [by intros ?%elem_of_nil|]. intros Hin Hk. rewrite best_snoc. unfold better.
  apply elem_of_app in Hin as [Hin| ->%list_elem_of_singleton].
  - destruct (IH Hin Hk) as (b & -> & Hle). case_decide; [|by exists b]. destruct (Z.ltb_spec (CountSigners b) (CountSigners x)); eexists; (split; [done|lia]).
  - rewrite decide_True by done. destruct (best offered k) as [b|]; [|by exists x]. destruct (Z.ltb_spec (CountSigners b) (CountSigners x)); eexists; (split; [done|lia]).
Qed.

Lemma holds_best_new : holds_best [] CQuorumBlockProcessor_new.
Proof. split; [done|done|]. by intros [] ? ?. Qed.

Lemma no_collision_sub (l l' : list CFinalCommitment) : no_collision l' -> (forall x, x ∈ l -> x ∈ l') -> no_collision l.
Proof. intros Hc Hs a b Ha Hb. apply Hc; by apply Hs. Qed.
Lemma no_collision_app l qc : no_collision (l ++ [qc]) -> no_collision l.
Proof. intros Hc a b Ha Hb. apply Hc; apply elem_of_app; by left. Qed.

(** A state in which [qc] has been put under its hash. *)
Lemma holds_best_put offered proc qc m : holds_best offered proc -> no_collision (offered ++ [qc]) ->
  best (offered ++ [qc]) (quorum_of qc) = Some qc ->
  m !! SerializeHash qc = Some qc -> (forall hash, hash <> SerializeHash qc -> m !! hash = minableCommitments proc !! hash) ->
  holds_best (offered ++ [qc]) {| minableCommitmentsByQuorum := <[quorum_of qc := SerializeHash qc]> (minableCommitmentsByQuorum proc); minableCommitments := m |}.
Proof.
  intros [Hb Hr Hs] Hc Hbest Hm Hother.
  assert (forall x, x ∈ offered -> minableCommitments proc !! SerializeHash x = Some x -> m !! SerializeHash x = Some x) as Hkeep.
  { intros x Hx Hin. destruct (decide (SerializeHash x = SerializeHash qc)) as [E|E]; [|by rewrite Hother].
    assert (x = qc) as -> by (apply Hc; [apply elem_of_app; by left|apply elem_of_app; right; by left|done]). done. }
  split; cbn.
  - intros k. destruct (decide (quorum_of qc = k)) as [<-|Hk]; [by rewrite Hbest, lookup_insert_eq|].
    rewrite best_snoc. unfold better. rewrite decide_False, lookup_insert_ne by done. specialize (Hb k).
    destruct (best offered k) as [b|] eqn:Eb; [|done]. destruct Hb as [? Hbm]. split; [done|]. apply Hkeep; [|done]. by apply (best_in offered k).
  - intros hash x. destruct (decide (hash = SerializeHash qc)) as [->|Hne].
    + rewrite Hm. intros [= <-]. split; [done|]. apply elem_of_app. right. by left.
    + rewrite Hother by done. intros E. destruct (Hr hash x E) as [? Hin]. split; [done|]. apply elem_of_app. by left.
  - intros l x rest El Hx. destruct rest as [|y rest _] using rev_ind.
    + apply app_inj_tail in El as [-> ->]. done.
    + rewrite app_comm_cons, app_assoc in El. apply app_inj_tail in El as [-> ->]. apply Hkeep; [apply elem_of_app; right; by left|]. by apply (Hs l x rest).
Qed.

Lemma AddMinableCommitment_ok offered proc qc : holds_best offered proc -> no_collision (offered ++ [qc]) ->
  exists proc' actions, AddMinableCommitment proc qc = Some (proc', actions) /\ holds_best (offered ++ [qc]) proc'.
Proof.
  intros Hh Hc. pose proof (hb_best _ _ Hh (quorum_of qc)) as Hb. unfold AddMinableCommitment. fold (quorum_of qc).
  assert (forall (m : gmap (list Z) CFinalCommitment), (forall x, m !! SerializeHash qc = Some x -> x = qc) ->
    emplace (SerializeHash qc) qc m !! SerializeHash qc = Some qc /\
    (forall hash, hash <> SerializeHash qc -> emplace (SerializeHash qc) qc m !! hash = m !! hash)) as Hemp.
  { intros m Hm. unfold emplace. destruct (m !! SerializeHash qc) as [x|] eqn:E; [rewrite E, (Hm x eq_refl); done|].
    split; [apply lookup_insert_eq|]. intros hash Hne. by rewrite lookup_insert_ne. }
  destruct (best offered (quorum_of qc)) as [b|] eqn:Eb.
  - destruct Hb as [-> Hbm]. rewrite Hbm. cbn [mbind option_bind]. destruct (Z.ltb_spec (CountSigners b) (CountSigners qc)) as [Hlt|Hge].
    + do 2 eexists. split; [done|]. destruct (Hemp (delete (SerializeHash qc) (minableCommitments proc))) as [He1 He2]; [by rewrite lookup_delete_eq|].
      apply holds_best_put; [done|done| |done|].
      * rewrite best_snoc, Eb. unfold better. rewrite decide_True by done. by rewrite (proj2 (Z.ltb_lt _ _)).
      * intros hash Hne. by rewrite He2, lookup_delete_ne.
    + do 2 eexists. split; [done|]. destruct Hh as [H1 H2 H3].
      assert (forall k, best (offered ++ [qc]) k = best offered k) as Hsame.
      { intros k. rewrite best_snoc. unfold better. case_decide as Hk; [|done]. rewrite <- Hk, Eb. by rewrite (proj2 (Z.ltb_ge _ _)). }
      split; [intros k; rewrite Hsame; apply H1| |].
      * intros hash x Hx. destruct (H2 hash x Hx). split; [done|]. apply elem_of_app. by left.
      * intros l x rest El Hx. destruct rest as [|y rest _] using rev_ind.
        -- apply app_inj_tail in El as [-> ->]. rewrite Hsame, Eb in Hx. injection Hx as ->. done.
        -- rewrite app_comm_cons, app_assoc in El. apply app_inj_tail in El as [-> ->]. by apply (H3 l x rest).
  - rewrite Hb. do 2 eexists. split; [done|].
    destruct (Hemp (minableCommitments proc)) as [He1 He2].
    { intros x Hx. destruct (hb_offered _ _ Hh _ _ Hx) as [E Hin]. symmetry. apply Hc; [apply elem_of_app; right; by left|apply elem_of_app; by left|done]. }
    apply holds_best_put; [done|done| |done|done]. rewrite best_snoc, Eb. unfold better. by rewrite decide_True.
Qed.

(** The commitments are offered to [AddMinableCommitment] one after the other. *)
Definition offer (proc : option CQuorumBlockProcessor) qc : option CQuorumBlockProcessor := proc ← proc; fst <$> AddMinableCommitment proc qc.

Lemma offer_all offered : no_collision offered -> exists proc, fold_left offer offered (Some CQuorumBlockProcessor_new) = Some proc /\ holds_best offered proc.
Proof.
  induction offered as [|qc offered IH] using rev_ind; intros Hc; [exists CQuorumBlockProcessor_new; split; [done|apply holds_best_new]|].
  destruct (IH (no_collision_app _ _ Hc)) as (proc & E & Hp). destruct (AddMinableCommitment_ok offered proc qc Hp Hc) as (proc' & acts & E' & Hp').
  exists proc'. split; [|done]. rewrite fold_left_app, E. cbn [fold_left offer mbind option_bind]. by rewrite E'.
Qed.

(** *** Whole blocks *)

Definition decodes (vtx : list CTransaction) : Prop := forall tx, tx ∈ vtx -> nType (tx_data tx) = TRANSACTION_QUORUM_COMMITMENT ->
  is_Some (GetTxPayload CFinalCommitmentTxPayload (vExtraPayload (tx_data tx))).

Lemma commitments_loop_decodes vtx ret ret' : commitments_loop vtx ret = Ok ret' -> decodes vtx.
Proof.
  revert ret. induction vtx as [|tx vtx IH]; intros ret E x Hx; [by apply elem_of_nil in Hx|]. cbn [commitments_loop] in E.
  destruct (Z.eqb_spec (nType (tx_data tx)) TRANSACTION_QUORUM_COMMITMENT) as [Et|Et].
  - destruct (GetTxPayload _ _) as [p|] eqn:Ep; [|done]. destruct (map_count _ _); [done|]. specialize (IH _ E).
    apply elem_of_cons in Hx as [->|Hx]; [by rewrite Ep|by apply IH].
  - specialize (IH _ E). apply elem_of_cons in Hx as [->|Hx]; [done|by apply IH].
Qed.

Lemma keyed_types cs : (keyed cs).*1 = map llmqType cs.
Proof. unfold keyed. induction cs as [|qc cs IH]; [done|]. cbn. by f_equal. Qed.
Lemma keyed_values cs : (keyed cs).*2 = cs.
Proof. unfold keyed. induction cs as [|qc cs IH]; [done|]. cbn. by f_equal. Qed.

Lemma GetCommitmentsFromBlock_Ok block active qcs (cs := tx_commitments (vtx block)) : GetCommitmentsFromBlock block active = Ok qcs ->
  decodes (vtx block) /\ NoDup (map llmqType cs) /\ qcs ≡ₚ keyed cs.
Proof.
  unfold GetCommitmentsFromBlock. destruct (commitments_loop (vtx block) []) as [ret|e] eqn:E; [|done]. cbn [rbind].
  destruct (negb active && _); [done|]. intros [= ->]. split; [by eapply commitments_loop_decodes|].
  destruct (commitments_loop_Ok _ _ _ E) as [Hp Hnd]; [constructor|]. rewrite app_nil_r in Hp. fold cs in Hp. split; [|done].
  rewrite <- keyed_types. by rewrite <- Hp.
Qed.

Lemma map_count_perm qcs cs type : qcs ≡ₚ keyed cs -> map_count type qcs = bool_decide (type ∈ map llmqType cs).
Proof.
  intros Hp. apply eq_true_iff_eq. rewrite map_count_spec, bool_decide_eq_true. by rewrite Hp, keyed_types.
Qed.

Lemma read_stores cs evo : NoDup (map llmqType cs) ->
  (forall qc, qc ∈ cs -> IsNull qc = false -> EvoDB_Read (fold_left store cs evo) (commitment_key qc) = Some (VCommitment qc)) /\
  (forall k, (forall qc, qc ∈ cs -> IsNull qc = false -> k <> commitment_key qc) -> EvoDB_Read (fold_left store cs evo) k = EvoDB_Read evo k).
Proof.
  revert evo. induction cs as [|x cs IH]; intros evo; cbn [map fold_left]; [split; [by intros ? ?%elem_of_nil|done]|].
  intros [Hx Hnd]%NoDup_cons. destruct (IH (store evo x) Hnd) as [IH1 IH2]. split.
  - intros qc [->|Hin]%elem_of_cons Hn; [|by apply IH1]. rewrite IH2; [by rewrite read_store, decide_True|].
    intros q Hq _ Ek. apply Hx. apply list_elem_of_fmap. exists q. split; [|done]. unfold commitment_key in Ek. congruence.
  - intros k Hk. rewrite IH2, read_store; [|intros q Hq; apply Hk; by right]. rewrite decide_False; [done|]. intros [Hn ->]. by apply (Hk x ltac:(by left)).
Qed.

(** What an accepted block holds, and leaves in the database. *)
Record block_good chain evo (h : Z) (vtx : list CTransaction) : Prop := {
  block_decodes : decodes vtx;
  block_once : NoDup (map llmqType (tx_commitments vtx));
  block_required : forall type params, llmqs_at llmqs type = Some params ->
    IsCommitmentRequired llmqs chain evo type h = Some (bool_decide (type ∈ map llmqType (tx_commitments vtx)));
  block_commitments_good : forall qc, qc ∈ tx_commitments vtx -> commitment_good chain evo h qc;
}.

Lemma ProcessBlock_Ok chain evo block h evo' (cs := tx_commitments (vtx block)) :
  ProcessBlock llmqs GetListForBlock chain evo block h true = (Ok tt, evo') ->
  block_good chain evo h (vtx block) /\ exists qcs, GetCommitmentsFromBlock block true = Ok qcs /\ evo' = fold_left store (map snd qcs) evo.
Proof using Hllmqs.
  unfold ProcessBlock. cbn [negb]. destruct (GetCommitmentsFromBlock block true) as [qcs|e] eqn:Eg; cbn [rbind]; [|done].
  destruct (required_loop _ _ _ _ _ _) as [[]|e] eqn:Er; cbn [rbind]; [|done]. intros E.
  destruct (GetCommitmentsFromBlock_Ok _ _ _ Eg) as (Hd & Hnd & Hp). fold cs in Hnd, Hp.
  assert (map snd qcs ≡ₚ cs) as Hps by (rewrite <- (keyed_values cs); by apply fmap_Permutation).
  apply process_loop_spec in E as [Hg ->]; [|by rewrite Hps]. split; [|by exists qcs].
  split; [done|done| |intros qc Hin; apply Hg; by rewrite Hps].
  intros type params Ht. rewrite required_loop_spec in Er. rewrite (Er type params (proj1 (llmqs_at_own _ _ Ht))). f_equal. by apply map_count_perm.
Qed.

Lemma ProcessBlock_good chain evo block h : block_good chain evo h (vtx block) ->
  exists evo', ProcessBlock llmqs GetListForBlock chain evo block h true = (Ok tt, evo').
Proof using Hllmqs.
  intros [Hd Hnd Hr Hg]. destruct (commitments_loop_total (vtx block) []) as [qcs E]; [done|by rewrite app_nil_r|].
  assert (GetCommitmentsFromBlock block true = Ok qcs) as Eg by (unfold GetCommitmentsFromBlock; by rewrite E).
  destruct (GetCommitmentsFromBlock_Ok _ _ _ Eg) as (_ & _ & Hp). exists (fold_left store (map snd qcs) evo).
  unfold ProcessBlock. cbn [negb]. rewrite Eg. cbn [rbind].
  assert (required_loop llmqs chain evo h qcs llmqs = Ok tt) as ->.
  { apply required_loop_spec. intros type params Hin%llmqs_at_elem. rewrite (Hr type params Hin). f_equal. symmetry. by apply map_count_perm. }
  cbn [rbind]. assert (map snd qcs ≡ₚ tx_commitments (vtx block)) as Hps by (rewrite <- (keyed_values (tx_commitments _)); by apply fmap_Permutation).
  apply process_loop_spec; [by rewrite Hps|]. split; [|done]. intros qc Hin. apply Hg. by rewrite <- Hps.
Qed.

(** *** Undoing *)

Definition unstore evo qc : EvoStore := if IsNull qc then evo else EvoDB_Erase evo (commitment_key qc).

Lemma undo_loop_ok offered proc qcs : forall evo, holds_best offered proc -> no_collision (offered ++ map snd qcs) ->
  exists proc' more, undo_loop evo proc qcs = Some (fold_left unstore (map snd qcs) evo, proc') /\ holds_best (offered ++ more) proc' /\
    (forall qc, qc ∈ map snd qcs -> IsNull qc = false -> qc ∈ more).
Proof.
  revert offered proc. induction qcs as [|[t qc] qcs IH]; intros offered proc evo Hh Hc; cbn [undo_loop map snd fold_left].
  { exists proc, []. rewrite app_nil_r. split_and!; [done|done|]. by intros ? ?%elem_of_nil. }
  destruct (IsNull qc) eqn:En.
  - destruct (IH offered proc evo Hh) as (proc' & more & -> & Hh' & Hm).
    + apply (no_collision_sub _ _ Hc). intros x. cbn. rewrite !elem_of_app, elem_of_cons. tauto.
    + exists proc', more. split_and!; [unfold unstore; by rewrite En|done|]. intros x [->|Hx]%elem_of_cons; [congruence|by apply Hm].
  - destruct (AddMinableCommitment_ok offered proc qc Hh) as (proc1 & acts & -> & Hh1).
    { apply (no_collision_sub _ _ Hc). intros x. cbn. rewrite !elem_of_app, elem_of_cons, elem_of_cons, elem_of_nil. tauto. }
    cbn [mbind option_bind fst]. fold (commitment_key qc). destruct (IH (offered ++ [qc]) proc1 (EvoDB_Erase evo (commitment_key qc)) Hh1) as (proc' & more & -> & Hh' & Hm).
    + by rewrite <- app_assoc.
    + exists proc', (qc :: more). rewrite <- app_assoc in Hh'. split_and!; [unfold unstore; by rewrite En|done|].
      intros x [->|Hx]%elem_of_cons Hn; [by left|right; by apply Hm].
Qed.

Lemma read_unstores cs evo k : EvoDB_Read (fold_left unstore cs evo) k =
  if decide (Exists (fun qc => IsNull qc = false /\ k = commitment_key qc) cs) then None else EvoDB_Read evo k.
Proof.
  revert evo. induction cs as [|x cs IH]; intros evo; cbn [fold_left].
  { rewrite decide_False; [done|]. by intros ?%Exists_nil. }
  rewrite IH. assert (EvoDB_Read (unstore evo x) k = if decide (IsNull x = false /\ k = commitment_key x) then None else EvoDB_Read evo k) as ->.
  { unfold unstore. destruct (IsNull x) eqn:E; [by rewrite decide_False by (by intros [? _])|]. rewrite EvoDB_Read_Erase.
    destruct (decide (k = commitment_key x)); [by rewrite decide_True|by rewrite decide_False by (by intros [_ ?])]. }
  repeat case_decide; rewrite ?Exists_cons in *; tauto.
Qed.

(** *** What is mined next *)

Lemma required_inv chain evo type h : IsCommitmentRequired llmqs chain evo type h = Some true ->
  exists hash, GetQuorumBlockHash llmqs chain type h = Some hash /\ uint256_IsNull hash = false /\
    IsMiningPhase llmqs type h = Some true /\ HasMinedCommitment evo type hash = false.
Proof.
  unfold IsCommitmentRequired. destruct (GetQuorumBlockHash llmqs chain type h) as [hash|]; [|done]. cbn [mbind option_bind].
  destruct (uint256_IsNull hash) eqn:En; cbn [negb mbind option_bind andb]; [done|].
  destruct (IsMiningPhase llmqs type h) as [[|]|]; [|done..]. cbn [mbind option_bind andb].
  destruct (HasMinedCommitment evo type hash) eqn:Em; [done|]. intros _. by exists hash.
Qed.

(** The commitment for a quorum: the best one offered, or a null one. *)
Definition next_commitment (offered : list CFinalCommitment) (type : Z) (params : LLMQParams) (hash : list Z) : CFinalCommitment :=
  default (CFinalCommitment_null params hash) (best offered (type, hash)).

Lemma GetMinableCommitment_spec offered proc chain evo type params h : holds_best offered proc -> llmqs_at llmqs type = Some params ->
  GetMinableCommitment llmqs chain evo proc type h =
    (required ← IsCommitmentRequired llmqs chain evo type h;
     if (required : bool) then hash ← GetQuorumBlockHash llmqs chain type h; Some (Some (next_commitment offered type params hash)) else Some None).
Proof.
  intros [Hb _ _] Hp. unfold GetMinableCommitment. destruct (IsCommitmentRequired llmqs chain evo type h) as [[|]|] eqn:Er; cbn [mbind option_bind negb]; [|done..].
  destruct (required_inv _ _ _ _ Er) as (hash & -> & Hn & _). cbn [mbind option_bind]. rewrite Hn. specialize (Hb (type, hash)). unfold next_commitment.
  destruct (best offered (type, hash)) as [qc|]; [|by rewrite Hb, Hp]. destruct Hb as [-> ->]. done.
Qed.

(** *** Null commitments *)

Lemma count_true_zeros n : count_true (replicate n false) = 0.
Proof. unfold count_true. induction n; [done|]. cbn. done. Qed.
Lemma null_IsNull params hash : IsNull (CFinalCommitment_null params hash) = true.
Proof. unfold IsNull, CFinalCommitment_null. cbn. by rewrite count_true_zeros. Qed.
Lemma null_VerifyNull params hash : llmqs_at llmqs (llmq_type params) = Some params -> VerifyNull llmqs (CFinalCommitment_null params hash) = true.
Proof.
  intros E. unfold VerifyNull. cbn [llmqType CFinalCommitment_null]. rewrite E, null_IsNull. unfold VerifySizes. cbn.
  by rewrite !length_replicate, Nat.eqb_refl.
Qed.
Lemma null_ok params hash : is_u 8 (llmq_type params) -> uint256_ok hash -> bits_ok (replicate (llmq_size params) false) ->
  commitment_ok (CFinalCommitment_null params hash).
Proof.
  intros Ht Hh Hb. unfold commitment_ok. cbn. split_and!; try done.
  split; [done|]. unfold uint256_null, bytes_ok. by repeat constructor.
Qed.
End Sessions.

Section Theorems.
Context `{BLSCurve}.
Context (llmqs : Llmqs) (GetListForBlock : list Z -> option CDeterministicMNList).
Implicit Types (chain : ChainState) (evo : EvoStore) (qc : CFinalCommitment).

(** C27: The commitments of a block.  Of a block after activation, the quorum handler
    accepts exactly those in which every commitment transaction can be read, no type of
    quorum occurs twice, a configured type has a commitment just when one is required, and
    every commitment is for the quorum of its session, and either null, or verified with
    its signatures, in the mining window, and not mined before.  It then stores the
    commitments that are not null, and changes nothing else. *)
Theorem accepted_commitments chain evo (block : CBlock) (h : Z) : llmqs_ok llmqs ->
  ((exists evo', ProcessBlock llmqs GetListForBlock chain evo block h true = (Ok tt, evo')) <->
   block_good llmqs GetListForBlock chain evo h (vtx block)) /\
  forall evo', ProcessBlock llmqs GetListForBlock chain evo block h true = (Ok tt, evo') ->
    (forall qc, qc ∈ tx_commitments (vtx block) -> IsNull qc = false ->
       GetMinedCommitment evo' (llmqType qc) (quorumHash qc) = Some qc) /\
    (forall k, (forall qc, qc ∈ tx_commitments (vtx block) -> IsNull qc = false -> k <> commitment_key qc) ->
       EvoDB_Read evo' k = EvoDB_Read evo k).
Proof.
  intros Hl. split; [split; [intros [evo' E]; by apply (ProcessBlock_Ok _ _ Hl) in E as [? _]|by apply ProcessBlock_good]|].
  intros evo' E. destruct (ProcessBlock_Ok _ _ Hl _ _ _ _ _ E) as (Hg & qcs & Eg & ->).
  destruct (GetCommitmentsFromBlock_Ok _ _ _ Eg) as (_ & Hnd & Hp).
  assert (map snd qcs ≡ₚ tx_commitments (vtx block)) as Hps by (rewrite <- (keyed_values (tx_commitments _)); by apply fmap_Permutation).
  destruct (read_stores (map snd qcs) evo) as [H1 H2]; [by rewrite Hps|]. split.
  - intros qc Hqc Hn. unfold GetMinedCommitment. destruct (block_commitments_good _ _ _ _ _ _ Hg qc Hqc) as [[params Hparams] _ _ _].
    destruct (llmqs_at_own llmqs Hl _ _ Hparams) as (_ & _ & ->). fold (commitment_key qc). rewrite H1; [done|by rewrite Hps|done].
  - intros k Hk. apply H2. intros qc Hin. apply Hk. by rewrite <- Hps.
Qed.

(** Undoing a block.  Undoing a block that was just processed succeeds, leaves the
    database reading as before the block, and lets the miner have the block's commitments
    again: for the quorum of each, one with at least as many signers. *)
Theorem undo_commitments chain evo evo' (block : CBlock) (h : Z) (offered : list CFinalCommitment) (proc : CQuorumBlockProcessor) :
  llmqs_ok llmqs -> ProcessBlock llmqs GetListForBlock chain evo block h true = (Ok tt, evo') ->
  fold_left offer offered (Some CQuorumBlockProcessor_new) = Some proc -> no_collision (offered ++ tx_commitments (vtx block)) ->
  exists evo'' proc', UndoBlock evo' proc block true = Ok (true, (evo'', proc')) /\
    (forall k, EvoDB_Read evo'' k = EvoDB_Read evo k) /\
    forall qc, qc ∈ tx_commitments (vtx block) -> IsNull qc = false ->
      exists known b, minableCommitmentsByQuorum proc' !! (llmqType qc, quorumHash qc) = Some known /\
        GetMinableCommitmentByHash proc' known = Some b /\ quorum_of b = quorum_of qc /\ CountSigners qc <= CountSigners b.
Proof.
  intros Hl E Er Hc. destruct (ProcessBlock_Ok _ _ Hl _ _ _ _ _ E) as (Hg & qcs & Eg & ->).
  destruct (GetCommitmentsFromBlock_Ok _ _ _ Eg) as (_ & Hnd & Hp).
  assert (map snd qcs ≡ₚ tx_commitments (vtx block)) as Hps by (rewrite <- (keyed_values (tx_commitments _)); by apply fmap_Permutation).
  assert (no_collision (offered ++ map snd qcs)) as Hc'.
  { apply (no_collision_sub _ _ Hc). intros x. by rewrite !elem_of_app, Hps. }
  destruct (offer_all offered) as (proc0 & E0 & Hh).
  { apply (no_collision_sub _ _ Hc). intros x Hx. apply elem_of_app. by left. }
  assert (proc0 = proc) as -> by congruence.
  destruct (undo_loop_ok offered proc qcs (fold_left store (map snd qcs) evo) Hh Hc') as (proc' & more & Eu & Hh' & Hmore).
  unfold UndoBlock. rewrite Eg, Eu. cbn [asserted rbind]. do 2 eexists. split; [done|]. split.
  - intros k. rewrite read_unstores. destruct (read_stores (map snd qcs) evo) as [_ H2]; [by rewrite Hps|]. case_decide as Hk.
    + apply Exists_exists in Hk as (qc & Hqc & Hn & ->). rewrite Hps in Hqc.
      by destruct (good_mined _ _ _ _ _ _ (block_commitments_good _ _ _ _ _ _ Hg qc Hqc) Hn) as [-> _].
    + apply H2. intros qc Hin Hn ->. apply Hk. apply Exists_exists. by exists qc.
  - intros qc Hqc Hn. assert (qc ∈ offered ++ more) as Hin.
    { apply elem_of_app. right. apply Hmore; [by rewrite Hps|done]. }
    destruct (best_most (offered ++ more) (quorum_of qc) qc Hin eq_refl) as (b & Eb & Hle).
    pose proof (hb_best _ _ Hh' (quorum_of qc)) as Hb. rewrite Eb in Hb. destruct Hb as [Hb1 Hb2].
    exists (SerializeHash b), b. split_and!; [done|done|by apply (best_in (offered ++ more))|done].
Qed.

(** *** What comes in *)

(** A message from a peer, with the chain it meets, or a commitment that is offered
    without one: of an undone block, or of this node's own DKG. *)
Inductive Incoming : Type := FromPeer (chain : ChainState) (vRecv : list Z) | Own (qc : CFinalCommitment).

(** [None] is a failed assertion; a stream that throws changes nothing. *)
Definition come (proc : option CQuorumBlockProcessor) (i : Incoming) : option CQuorumBlockProcessor :=
  proc ← proc;
  match i with
  | FromPeer chain vRecv =>
      match ProcessMessage llmqs GetListForBlock chain proc vRecv with
      | Ok (proc, _) => Some proc
      | Throw (Rejected _) => Some proc
      | Throw AssertFails => None
      end
  | Own qc => fst <$> AddMinableCommitment proc qc
  end.

(** The commitment a message carries, if it is a valid one: not null, of a configured
    type, for a block of the active chain that begins a session, and verified. *)
Definition valid_message (chain : ChainState) (vRecv : list Z) : option CFinalCommitment :=
  match CFinalCommitment_Unserialize vRecv with
  | Throw _ => None
  | Ok (qc, _) =>
      if IsNull qc then None
      else
        params ← llmqs_at llmqs (llmqType qc);
        p ← mapBlockIndex chain !! quorumHash qc;
        b ← entries chain !! p;
        tip ← Chain.Tip (chainActive chain);
        ancestor ← Chain.GetAncestor (entries chain) tip (Chain.nHeight b);
        members ← quorum_at llmqs GetListForBlock (llmqType qc) (quorumHash qc);
        if bool_decide (ancestor = Some p) && (Z.rem (Chain.nHeight b) (dkgInterval params) =? 0) && Verify llmqs qc members true
        then Some qc else None
  end.

(** What is taken in: every commitment of this node's own, and of the peers' valid ones
    those for a quorum nothing is known of yet. *)
Definition take_in (taken : list CFinalCommitment) (i : Incoming) : list CFinalCommitment :=
  match i with
  | FromPeer chain vRecv =>
      match valid_message chain vRecv with
      | Some qc => match best taken (quorum_of qc) with None => taken ++ [qc] | Some _ => taken end
      | None => taken
      end
  | Own qc => taken ++ [qc]
  end.
Definition taken_in (incoming : list Incoming) : list CFinalCommitment := fold_left take_in incoming [].

(** The pointers a message follows are there, and the manager has the quorum's list. *)
Definition well_met (i : Incoming) : Prop :=
  match i with
  | FromPeer chain vRecv => forall qc rest p, CFinalCommitment_Unserialize vRecv = Ok (qc, rest) ->
      mapBlockIndex chain !! quorumHash qc = Some p ->
      is_Some (quorum_at llmqs GetListForBlock (llmqType qc) (quorumHash qc)) /\
      exists b tip, entries chain !! p = Some b /\ Chain.Tip (chainActive chain) = Some tip /\
        is_Some (Chain.GetAncestor (entries chain) tip (Chain.nHeight b))
  | Own _ => True
  end.

(** One message: taken in when it is valid and nothing is known, else without effect. *)
Lemma message_taken taken proc chain vRecv : holds_best taken proc -> well_met (FromPeer chain vRecv) ->
  no_collision (take_in taken (FromPeer chain vRecv)) ->
  exists proc', come (Some proc) (FromPeer chain vRecv) = Some proc' /\ holds_best (take_in taken (FromPeer chain vRecv)) proc'.
Proof.
  intros Hh Hw. cbn [come mbind option_bind take_in]. unfold valid_message, ProcessMessage, deref.
  destruct (CFinalCommitment_Unserialize vRecv) as [[qc rest]|] eqn:Er; [|by exists proc].
  destruct (IsNull qc); [by exists proc|]. destruct (llmqs_at llmqs (llmqType qc)) as [params|]; [|by exists proc].
  cbn [mbind option_bind]. destruct (mapBlockIndex chain !! quorumHash qc) as [p|] eqn:Ep; [|by exists proc].
  destruct (Hw qc rest p Er Ep) as ([members Em] & b & tip & Eb & Et & [anc Ea]).
  cbn [mbind option_bind]. rewrite Eb. cbn [asserted rbind mbind option_bind]. rewrite Et. cbn [asserted rbind mbind option_bind].
  rewrite Ea. cbn [asserted rbind mbind option_bind]. rewrite Em.
  case_bool_decide as Hanc; cbn [negb andb]; [|by exists proc].
  assert ((Chain.nHeight b - Z.rem (Chain.nHeight b) (dkgInterval params) =? Chain.nHeight b) = (Z.rem (Chain.nHeight b) (dkgInterval params) =? 0)) as ->
    by (apply Bool.eq_iff_eq_true; rewrite !Z.eqb_eq; lia).
  destruct (Z.rem _ _ =? 0); cbn [negb andb]; [|by exists proc].
  pose proof (hb_best _ _ Hh (quorum_of qc)) as Hb. fold (quorum_of qc).
  destruct (best taken (quorum_of qc)) as [have|] eqn:Ebest.
  - destruct Hb as [Hk Hhave]. rewrite Hk. cbn [mbind option_bind]. rewrite Hhave. intros _. exists proc.
    destruct (Verify llmqs qc members true) eqn:Ev; [rewrite Ebest|]; (split; [|done]);
      (destruct (Z.leb_spec (CountSigners have) (CountSigners qc)); [done|]);
      cbn [asserted rbind]; rewrite Ev; cbn [negb]; [|done].
    unfold AddMinableCommitment. fold (quorum_of qc).
    rewrite Hk. cbn [mbind option_bind]. rewrite Hhave. cbn [mbind option_bind]. by rewrite (proj2 (Z.ltb_ge _ _)) by lia.
  - rewrite Hb. cbn [mbind option_bind asserted rbind]. destruct (Verify llmqs qc members true); cbn [negb]; [|by exists proc].
    rewrite Ebest. intros Hc. destruct (AddMinableCommitment_ok taken proc qc Hh Hc) as (proc' & acts & -> & Hh'). by exists proc'.
Qed.

Lemma taken_prefix taken i qc : qc ∈ taken -> qc ∈ take_in taken i.
Proof. intros Hq. destruct i; cbn; repeat case_match; try done; apply elem_of_app; by left. Qed.

Lemma come_all incoming : Forall well_met incoming -> no_collision (taken_in incoming) ->
  exists proc, fold_left come incoming (Some CQuorumBlockProcessor_new) = Some proc /\ holds_best (taken_in incoming) proc.
Proof.
  unfold taken_in. induction incoming as [|i incoming IH] using rev_ind; intros Hw Hc; [exists CQuorumBlockProcessor_new; split; [done|apply holds_best_new]|].
  apply Forall_app in Hw as [Hw [Hi _]%Forall_cons_iff]. rewrite fold_left_app in Hc |- *. cbn [fold_left] in Hc |- *.
  destruct (IH Hw) as (proc & E & Hh); [apply (no_collision_sub _ _ Hc); intros x; apply taken_prefix|].
  rewrite fold_left_app, E. cbn [fold_left]. destruct i as [chain vRecv|qc].
  - by apply message_taken.
  - cbn [come mbind option_bind take_in] in *. destruct (AddMinableCommitment_ok _ _ _ Hh Hc) as (proc' & acts & -> & Hh'). by exists proc'.
Qed.

(** C29: Which commitment is mined.  Let messages from peers, with any contents, and
    commitments of undone blocks or of this node's DKG come in, in any order; let the
    pointers the messages follow be there and no two different commitments taken in have
    the same hash.  Nothing throws.  Taken in are the node's own commitments, and of the
    peers' valid ones only those for a quorum nothing is known of yet: a peer's commitment
    with more signers than the known one is dropped, though the comment says the test
    looks for a better one that is known.  Afterwards the miner gets a commitment for a
    type just when one is required: the one with most signers of those taken in for the
    quorum (the first of them), or a null one.  And every commitment that was the best of
    its quorum when it was taken in is served by its hash for ever, also when a better one
    has replaced it. *)
Theorem minable_commitments (incoming : list Incoming) (taken := taken_in incoming) :
  Forall well_met incoming -> no_collision taken ->
  exists proc, fold_left come incoming (Some CQuorumBlockProcessor_new) = Some proc /\
    (forall chain evo type params h, llmqs_at llmqs type = Some params ->
       GetMinableCommitment llmqs chain evo proc type h =
         (required ← IsCommitmentRequired llmqs chain evo type h;
          if (required : bool) then hash ← GetQuorumBlockHash llmqs chain type h; Some (Some (next_commitment taken type params hash)) else Some None)) /\
    (forall k qc, best taken k = Some qc -> qc ∈ taken /\ quorum_of qc = k /\
       forall other, other ∈ taken -> quorum_of other = k -> CountSigners other <= CountSigners qc) /\
    (forall before qc after, taken = before ++ qc :: after -> best (before ++ [qc]) (quorum_of qc) = Some qc ->
       GetMinableCommitmentByHash proc (SerializeHash qc) = Some qc).
Proof.
  intros Hw Hc. destruct (come_all incoming Hw Hc) as (proc & E & Hh). exists proc. split_and!; [done| | |apply Hh].
  - intros chain evo type params h Hp. by apply GetMinableCommitment_spec.
  - intros k qc Hb. destruct (best_in _ _ _ Hb) as [Hin Hk]. split_and!; [done|done|]. intros other Ho Hko.
    destruct (best_most taken k other Ho Hko) as (b & Eb & Hle). congruence.
Qed.
End Theorems.

(** ** A miner's block *)

Section Miner.
Context `{BLSCurve}.
Context (llmqs : Llmqs) (GetListForBlock : list Z -> option CDeterministicMNList) (chain : ChainState) (evo : EvoStore).
Context (offered : list CFinalCommitment) (proc : CQuorumBlockProcessor) (h : Z).
Implicit Types (qc : CFinalCommitment).

(** What was offered was verified when it came. *)
Definition all_verified : Prop := forall qc, qc ∈ offered -> commitment_ok qc /\ IsNull qc = false /\
  exists members, quorum_at llmqs GetListForBlock (llmqType qc) (quorumHash qc) = Some members /\ Verify llmqs qc members true = true.
(** Every session has a first block, and the bits of a quorum can be read back. *)
Definition sessions_known : Prop := forall type params, (type, params) ∈ llmqs ->
  bits_ok (replicate (llmq_size params) false) /\ exists hash, GetQuorumBlockHash llmqs chain type h = Some hash /\ uint256_ok hash.

Context (Hllmqs : llmqs_ok llmqs) (Hbest : holds_best offered proc) (Hverified : all_verified) (Hknown : sessions_known).

Definition mined_for (p : Z * LLMQParams) : option CFinalCommitment :=
  match IsCommitmentRequired llmqs chain evo (fst p) h, GetQuorumBlockHash llmqs chain (fst p) h with
  | Some true, Some hash => Some (next_commitment offered (fst p) (snd p) hash)
  | _, _ => None
  end.

Lemma required_total type params : (type, params) ∈ llmqs -> is_Some (IsCommitmentRequired llmqs chain evo type h).
Proof using Hllmqs Hknown.
  intros Hin. destruct (Hknown _ _ Hin) as (_ & hash & E & _). unfold IsCommitmentRequired. rewrite E. cbn [mbind option_bind].
  unfold IsMiningPhase. rewrite (llmqs_at_elem llmqs Hllmqs _ _ Hin). by destruct (negb (uint256_IsNull hash)).
Qed.

Lemma mined_good type params qc : (type, params) ∈ llmqs -> mined_for (type, params) = Some qc ->
  llmqType qc = type /\ commitment_ok qc /\ commitment_good llmqs GetListForBlock chain evo h qc.
Proof using Hllmqs Hknown Hverified.
  intros Hin. unfold mined_for. cbn [fst snd].
  destruct (IsCommitmentRequired llmqs chain evo type h) as [[|]|] eqn:Er; [|done..].
  destruct (required_inv _ _ _ _ _ Er) as (hash & Eq & Hn & Hphase & Hmined). rewrite Eq. intros [= <-].
  pose proof (llmqs_at_elem llmqs Hllmqs _ _ Hin) as Hp. destruct (types_own _ Hllmqs _ _ Hin) as [Ht Hu].
  destruct (Hknown _ _ Hin) as (Hbits & hash' & Eq' & Hhash). assert (hash' = hash) as -> by congruence.
  unfold next_commitment. destruct (best offered (type, hash)) as [qc|] eqn:Eb; cbn [default from_option]; unfold id.
  - destruct (best_in _ _ _ Eb) as [Hqc Hquorum]. unfold quorum_of in Hquorum. injection Hquorum as <- <-.
    destruct (Hverified qc Hqc) as (Hok & Hnull & Hv). split_and!; [done|done|]. split; [by rewrite Hp|done|congruence|].
    intros _. unfold HasMinedCommitment in Hmined. rewrite u8_id, EvoDB_Exists_Read in Hmined by done. fold (commitment_key qc) in Hmined.
    split_and!; [by apply eq_None_not_Some, (bool_decide_eq_false _)|done|done].
  - assert (llmqType (CFinalCommitment_null params hash) = type) as Et by done. split_and!; [done|apply null_ok; by rewrite ?Ht|].
    split; rewrite ?Et; [by rewrite Hp|done|intros _; apply null_VerifyNull; by rewrite Ht|by rewrite null_IsNull].
Qed.

Lemma GetTx_spec type params : (type, params) ∈ llmqs ->
  exists r, GetMinableCommitmentTx llmqs chain evo proc type h = Some r /\
    match mined_for (type, params) with
    | Some qc => exists tx, r = Some tx /\ nType (tx_data tx) = TRANSACTION_QUORUM_COMMITMENT /\
                   exists p, GetTxPayload CFinalCommitmentTxPayload (vExtraPayload (tx_data tx)) = Some p /\ commitment p = qc
    | None => r = None
    end.
Proof using Hllmqs Hbest Hverified Hknown.
  intros Hin. pose proof (mined_good type params) as Hg. unfold GetMinableCommitmentTx.
  rewrite (GetMinableCommitment_spec llmqs offered proc chain evo type params h Hbest (llmqs_at_elem llmqs Hllmqs _ _ Hin)).
  unfold mined_for in *. cbn [fst snd] in *. destruct (required_total type params Hin) as [b Eb]. rewrite Eb in *. cbn [mbind option_bind].
  destruct b; [|by eexists]. destruct (Hknown _ _ Hin) as (_ & hash & Eh & _). rewrite Eh in *. cbn [mbind option_bind].
  eexists. split; [done|]. eexists. split; [done|]. split; [done|].
  exists {| qcTx_nVersion := 1; qcTx_nHeight := u32 h; commitment := next_commitment offered type params hash |}. split; [|done].
  destruct (Hg _ Hin eq_refl) as (_ & Hok & _).
  apply (GetTxPayload_SetTxPayload CFinalCommitmentTxPayload). split_and!; [by vm_compute|apply u32_range|done].
Qed.

Lemma commitment_txs_spec types : (forall p, p ∈ types -> p ∈ llmqs) ->
  exists txs, commitment_txs llmqs chain evo proc h types = Some txs /\ decodes txs /\ tx_commitments txs = omap mined_for types.
Proof using Hllmqs Hbest Hverified Hknown.
  induction types as [|[type params] types IH]; intros Hsub; cbn [commitment_txs omap list_omap]; [exists []; split_and!; [done|by intros ? ?%elem_of_nil|done]|].
  destruct (GetTx_spec type params) as (r & -> & Hr); [apply Hsub; by left|]. cbn [mbind option_bind].
  destruct IH as (txs & -> & Hd & Htxs); [intros p Hp; apply Hsub; by right|]. cbn [mbind option_bind].
  destruct (mined_for (type, params)) as [qc|]; [|subst r; by exists txs]. destruct Hr as (tx & -> & Ht & p & Ep & <-).
  exists (tx :: txs). split_and!; [done| |].
  - intros x [->|Hx]%elem_of_cons; [by rewrite Ep|by apply Hd].
  - cbn. rewrite Ht, Ep. cbn. by rewrite <- Htxs.
Qed.

Lemma mined_types types type params : NoDup (map fst types) -> (forall p, p ∈ types -> p ∈ llmqs) -> (type, params) ∈ types ->
  type ∈ map llmqType (omap mined_for types) <-> is_Some (mined_for (type, params)).
Proof using Hllmqs Hknown Hverified.
  intros Hnd Hsub Hin. rewrite list_elem_of_fmap. split.
  - intros (qc & Et & Hqc). apply list_elem_of_omap in Hqc as ([t q] & Hp & Eq).
    destruct (mined_good t q qc (Hsub _ Hp) Eq) as (Ht & _). assert ((t, q) = (type, params)) as <-; [|by rewrite Eq].
    assert (t = type) as -> by congruence. pose proof (llmqs_at_elem llmqs Hllmqs _ _ (Hsub _ Hp)). pose proof (llmqs_at_elem llmqs Hllmqs _ _ (Hsub _ Hin)). congruence.
  - intros [qc Eq]. exists qc. destruct (mined_good type params qc (Hsub _ Hin) Eq) as (Ht & _). split; [done|]. apply list_elem_of_omap. by exists (type, params).
Qed.

Lemma mined_once types : NoDup (map fst types) -> (forall p, p ∈ types -> p ∈ llmqs) -> NoDup (map llmqType (omap mined_for types)).
Proof using Hllmqs Hknown Hverified.
  induction types as [|[type params] types IH]; [constructor|]. intros [Hn Hnd]%NoDup_cons Hsub. cbn.
  assert (forall p, p ∈ types -> p ∈ llmqs) as Hsub' by (intros p Hp; apply Hsub; by right).
  destruct (mined_for (type, params)) as [qc|] eqn:Eq; [|by apply IH]. apply NoDup_cons. split; [|by apply IH].
  destruct (mined_good type params qc (Hsub _ ltac:(by left)) Eq) as (-> & _). intros Hin. apply Hn.
  apply list_elem_of_fmap in Hin as (x & Et & Hx). apply list_elem_of_omap in Hx as ([t q] & Hp & Ex).
  destruct (mined_good t q x (Hsub' _ Hp) Ex) as (Ht & _). apply list_elem_of_fmap. exists (t, q). split; [cbn; congruence|done].
Qed.
End Miner.

Lemma tx_commitments_app `{BLSCurve} l l' : tx_commitments (l ++ l') = tx_commitments l ++ tx_commitments l'.
Proof. apply omap_app. Qed.
Lemma tx_commitments_none `{BLSCurve} l : (forall tx, tx ∈ l -> nType (tx_data tx) <> TRANSACTION_QUORUM_COMMITMENT) -> tx_commitments l = [].
Proof.
  induction l as [|tx l IH]; intros Hn; [done|]. cbn. rewrite (proj2 (Z.eqb_neq _ _)) by (apply Hn; by left).
  apply IH. intros x Hx. apply Hn. by right.
Qed.

(** C28: A miner can always go on.  Let the commitments offered have been verified, no two
    different ones with the same hash, and the first block of every session be known.
    Then the commitment transactions of the next block can be built, and the quorum
    handler accepts the block: with any coinbase before and any transactions after them
    that are not commitments themselves. *)
Theorem mined_block_accepted `{BLSCurve} (llmqs : Llmqs) (GetListForBlock : list Z -> option CDeterministicMNList) (chain : ChainState) (evo : EvoStore)
    (offered : list CFinalCommitment) (proc : CQuorumBlockProcessor) (h : Z) :
  llmqs_ok llmqs -> no_collision offered -> fold_left offer offered (Some CQuorumBlockProcessor_new) = Some proc ->
  all_verified llmqs GetListForBlock offered -> sessions_known llmqs chain h ->
  exists txs, commitment_txs llmqs chain evo proc h llmqs = Some txs /\
    forall (block : CBlock) before after, vtx block = before ++ txs ++ after ->
      (forall tx, tx ∈ before ++ after -> nType (tx_data tx) <> TRANSACTION_QUORUM_COMMITMENT) ->
      exists evo', ProcessBlock llmqs GetListForBlock chain evo block h true = (Ok tt, evo').
Proof.
  intros Hl Hc Er Hv Hk. destruct (offer_all offered Hc) as (proc0 & E0 & Hh). assert (proc0 = proc) as -> by congruence.
  destruct (commitment_txs_spec llmqs GetListForBlock chain evo offered proc h Hl Hh Hv Hk llmqs ltac:(done)) as (txs & E & Hd & Htxs).
  exists txs. split; [done|]. intros block before after Hb Hother. apply ProcessBlock_good; [done|]. rewrite Hb.
  assert (tx_commitments (before ++ txs ++ after) = omap (mined_for llmqs chain evo offered h) llmqs) as Ecs.
  { rewrite !tx_commitments_app, Htxs, (tx_commitments_none before), (tx_commitments_none after), app_nil_r; [done|..];
      intros tx Htx; apply Hother; apply elem_of_app; tauto. }
  split.
  - intros tx Htx Ht. rewrite !elem_of_app in Htx. destruct Htx as [Htx|[Htx|Htx]]; [|by apply Hd|];
      destruct (Hother tx ltac:(apply elem_of_app; tauto) Ht).
  - rewrite Ecs. apply (mined_once llmqs GetListForBlock); try done. apply (types_distinct _ Hl).
  - intros type params Ht. rewrite Ecs. destruct (llmqs_at_own llmqs Hl _ _ Ht) as (Hin & _).
    pose proof (mined_types llmqs GetListForBlock chain evo offered h Hl Hv Hk llmqs type params (types_distinct _ Hl) ltac:(done) Hin) as Hm.
    destruct (required_total llmqs chain evo h Hl Hk type params Hin) as [b Eb]. rewrite Eb. f_equal. symmetry.
    destruct (Hk _ _ Hin) as (_ & hash & Eh & _). unfold mined_for in Hm. cbn [fst snd] in Hm. rewrite Eb, Eh in Hm.
    destruct b; [apply bool_decide_true|apply bool_decide_false]; rewrite Hm; [done|by intros []].
  - rewrite Ecs. intros qc Hqc. apply list_elem_of_omap in Hqc as ([type params] & Hin & Eq).
    by apply (mined_good llmqs GetListForBlock chain evo offered h Hl Hv Hk type params qc).
Qed.

(** A commitment from a peer never improves on one that is known for its quorum: one with
    as many signers or more is dropped before it is verified, and one with fewer is not
    put in. *)
Theorem known_commitment_kept `{BLSCurve} (llmqs : Llmqs) (GetListForBlock : list Z -> option CDeterministicMNList) (chain : ChainState)
    (proc proc' : CQuorumBlockProcessor) (vRecv rest known : list Z) (qc have : CFinalCommitment) (actions : list PeerAction) :
  CFinalCommitment_Unserialize vRecv = Ok (qc, rest) ->
  minableCommitmentsByQuorum proc !! (llmqType qc, quorumHash qc) = Some known -> minableCommitments proc !! known = Some have ->
  ProcessMessage llmqs GetListForBlock chain proc vRecv = Ok (proc', actions) ->
  proc' = proc.
Proof.
  intros Er Hk Hh. unfold ProcessMessage, deref. rewrite Er. destruct (IsNull qc); [by intros [= <- _]|].
  destruct (llmqs_at llmqs (llmqType qc)) as [params|]; [|by intros [= <- _]].
  destruct (mapBlockIndex chain !! quorumHash qc) as [p|]; [|by intros [= <- _]].
  destruct (entries chain !! p) as [b|]; cbn [asserted rbind]; [|done].
  destruct (Chain.Tip (chainActive chain)) as [tip|]; cbn [asserted rbind]; [|done].
  destruct (Chain.GetAncestor _ _ _) as [ancestor|]; cbn [asserted rbind]; [|done].
  destruct (negb (bool_decide _)); [by intros [= <- _]|]. destruct (negb (_ =? _)); [by intros [= <- _]|].
  rewrite Hk. cbn [mbind option_bind]. rewrite Hh. destruct (Z.leb_spec (CountSigners have) (CountSigners qc)); [by intros [= <- _]|].
  destruct (quorum_at _ _ _ _) as [members|]; cbn [asserted rbind]; [|done].
  destruct (Verify _ _ _ _); cbn [negb]; [|by intros [= <- _]].
  unfold AddMinableCommitment. rewrite Hk, Hh. cbn [mbind option_bind]. rewrite (proj2 (Z.ltb_ge _ _)) by lia. by intros [= <- _].
Qed.

(** ** Samples *)

#[local] Existing Instance any_curve.

Definition pair_llmqs : Llmqs := [(7, llmq_pair)].
Lemma pair_llmqs_ok : llmqs_ok pair_llmqs.
Proof.
  split; [apply NoDup_singleton|]. intros type params [[= -> ->]|[]%elem_of_nil]%elem_of_cons. split; [done|unfold is_u; lia].
Qed.
(** A chain of ten blocks, of which the quorum's is the first. *)
Definition chain_block (i : nat) : Chain.CBlockIndex :=
  {| Chain.entry := {| Pow.nHeight := Z.of_nat i; Pow.nVersion := 2; Pow.nTime := 1000; Pow.nBits := 0 |};
     Chain.phashBlock := replicate 32 (9 + Z.of_nat i); Chain.pprev := match i with O => None | S j => Some j end; Chain.pskip := None; Chain.nTimeMax := 1000 |}.
Definition pair_chain : ChainState :=
  {| mapBlockIndex := {[ replicate 32 9 := 0%nat ]}; entries := list_to_map (map (fun i => (i, chain_block i)) (seq 0 10)); chainActive := map Some (seq 0 10) |}.
Definition pair_manager (hash : list Z) : option CDeterministicMNList := Some confirmed_list.
Definition pair_commitment (bits : list bool) : CFinalCommitment := sample_commitment llmq_pair (replicate 32 9) bits.
Definition two_commitments : list CFinalCommitment := [pair_commitment [true; false]; pair_commitment [true; true]].
Definition empty_evo : EvoStore := CEvoDB_new ∅.

Definition pair_header : CBlockHeader :=
  {| bh_nVersion := 2; hashPrevBlock := replicate 32 1; hashMerkleRoot := replicate 32 2; Block.nTime := 1000; Block.nBits := 0; nNonce := 0 |}.
Definition commitment_tx (qc : CFinalCommitment) : CTransaction :=
  CTransaction_of {| nVersion := 3; nType := TRANSACTION_QUORUM_COMMITMENT; vin := []; vout := []; nLockTime := 0;
    vExtraPayload := SetTxPayload {| qcTx_nVersion := 1; qcTx_nHeight := 10; commitment := qc |} |}.
Definition pair_block : CBlock := {| bl_header := pair_header; vtx := [commitment_tx (pair_commitment [true; true])] |}.

Lemma accepted_at_ten : exists evo', ProcessBlock pair_llmqs pair_manager pair_chain empty_evo pair_block 10 true = (Ok tt, evo').
Proof.
  destruct (ProcessBlock pair_llmqs pair_manager pair_chain empty_evo pair_block 10 true) as [r evo'] eqn:E. exists evo'. f_equal.
  apply (f_equal fst) in E. cbn [fst] in E. rewrite <- E. vm_compute. reflexivity.
Qed.
Lemma block_payload : tx_commitments (vtx pair_block) = [pair_commitment [true; true]].
Proof. vm_compute. reflexivity. Qed.

Lemma accepted_commitments_witness : exists evo', ProcessBlock pair_llmqs pair_manager pair_chain empty_evo pair_block 10 true = (Ok tt, evo') /\
  GetMinedCommitment evo' 7 (replicate 32 9) = Some (pair_commitment [true; true]).
Proof.
  destruct accepted_at_ten as [evo' E]. exists evo'. split; [exact E|].
  destruct (accepted_commitments pair_llmqs pair_manager pair_chain empty_evo pair_block 10 pair_llmqs_ok) as [_ Hs].
  apply (proj1 (Hs evo' E) (pair_commitment [true; true])); [|reflexivity]. rewrite block_payload. apply list_elem_of_singleton. reflexivity.
Defined.

Lemma two_distinct : no_collision two_commitments.
Proof.
  assert (bool_decide (SerializeHash (pair_commitment [true; false]) = SerializeHash (pair_commitment [true; true])) = false) as Hne
    by (vm_compute; reflexivity). apply bool_decide_eq_false in Hne.
  intros a b Ha Hb E. unfold two_commitments in *. rewrite !elem_of_cons, elem_of_nil in Ha, Hb.
  destruct Ha as [->|[->|[]]], Hb as [->|[->|[]]]; try reflexivity; [destruct (Hne E)|destruct (Hne (eq_sym E))].
Qed.

Lemma undo_commitments_witness : exists evo' evo'' proc', ProcessBlock pair_llmqs pair_manager pair_chain empty_evo pair_block 10 true = (Ok tt, evo') /\
  UndoBlock evo' CQuorumBlockProcessor_new pair_block true = Ok (true, (evo'', proc')) /\
  EvoDB_Read evo'' (DB_MINED_COMMITMENT 7 (replicate 32 9)) = None.
Proof.
  destruct accepted_at_ten as [evo' E].
  destruct (undo_commitments pair_llmqs pair_manager pair_chain empty_evo evo' pair_block 10 [] CQuorumBlockProcessor_new pair_llmqs_ok E eq_refl)
    as (evo'' & proc' & Eu & Hr & _).
  - rewrite block_payload. intros a b Ha%list_elem_of_singleton Hb%list_elem_of_singleton _. congruence.
  - exists evo', evo'', proc'. split; [exact E|]. split; [exact Eu|]. rewrite Hr. vm_compute. reflexivity.
Defined.

(** A commitment of one signer from a peer, one of two signers from another, dropped, and
    the same from an undone block, which replaces the first. *)
Definition pair_message (bits : list bool) : Incoming := FromPeer pair_chain (Serialize (pair_commitment bits)).
Definition pair_incoming : list Incoming := [pair_message [true; false]; pair_message [true; true]].

Lemma pair_well_met bits : CFinalCommitment_Unserialize (Serialize (pair_commitment bits)) = Ok (pair_commitment bits, []) ->
  well_met pair_llmqs pair_manager (pair_message bits).
Proof.
  intros Er qc rest p Eq Hp. rewrite Er in Eq. injection Eq as <- _. split.
  - exists (match quorum_at pair_llmqs pair_manager 7 (replicate 32 9) with Some l => l | None => [] end). vm_compute. reflexivity.
  - assert (p = 0%nat) as ->; [|exists (chain_block 0), 9%nat; vm_compute; split; [reflexivity|split; [reflexivity|by eexists]]].
    cbn [pair_chain mapBlockIndex] in Hp. apply lookup_singleton_Some in Hp as [_ <-]. reflexivity.
Qed.

Lemma minable_commitments_witness :
  (exists proc, fold_left (come pair_llmqs pair_manager) pair_incoming (Some CQuorumBlockProcessor_new) = Some proc /\
     GetMinableCommitment pair_llmqs pair_chain empty_evo proc 7 10 = Some (Some (pair_commitment [true; false]))) /\
  exists proc, fold_left (come pair_llmqs pair_manager) (pair_incoming ++ [Own (pair_commitment [true; true])]) (Some CQuorumBlockProcessor_new) = Some proc /\
    GetMinableCommitment pair_llmqs pair_chain empty_evo proc 7 10 = Some (Some (pair_commitment [true; true])) /\
    GetMinableCommitmentByHash proc (SerializeHash (pair_commitment [true; false])) = Some (pair_commitment [true; false]).
Proof.
  assert (taken_in pair_llmqs pair_manager pair_incoming = [pair_commitment [true; false]]) as E1 by (vm_compute; reflexivity).
  assert (taken_in pair_llmqs pair_manager (pair_incoming ++ [Own (pair_commitment [true; true])]) = two_commitments) as E2
    by (vm_compute; reflexivity).
  assert (Forall (well_met pair_llmqs pair_manager) pair_incoming) as Hw.
  { constructor; [|constructor; [|constructor]]; apply pair_well_met; vm_compute; reflexivity. }
  split.
  - destruct (minable_commitments pair_llmqs pair_manager pair_incoming Hw) as (proc & E & Hm & _).
    + rewrite E1. apply (no_collision_sub _ _ two_distinct). intros x ->%list_elem_of_singleton. left.
    + exists proc. split; [exact E|]. rewrite (Hm pair_chain empty_evo 7 llmq_pair 10 eq_refl). rewrite E1. vm_compute. reflexivity.
  - destruct (minable_commitments pair_llmqs pair_manager (pair_incoming ++ [Own (pair_commitment [true; true])])) as (proc & E & Hm & _ & Hs).
    + apply Forall_app. split; [exact Hw|]. constructor; [exact I|constructor].
    + rewrite E2. exact two_distinct.
    + exists proc. split; [exact E|]. split.
      * rewrite (Hm pair_chain empty_evo 7 llmq_pair 10 eq_refl), E2. vm_compute. reflexivity.
      * apply (Hs [] (pair_commitment [true; false]) [pair_commitment [true; true]]); [exact E2|vm_compute; reflexivity].
Defined.

Lemma pair_verified bits : forallb (fun bits => match quorum_at pair_llmqs pair_manager 7 (replicate 32 9) with
    | Some members => Verify pair_llmqs (pair_commitment bits) members true | None => false end) bits = true ->
  forall b, b ∈ bits -> exists members, quorum_at pair_llmqs pair_manager 7 (replicate 32 9) = Some members /\
    Verify pair_llmqs (pair_commitment b) members true = true.
Proof.
  rewrite forallb_forall. intros Hall b Hb%list_elem_of_In. specialize (Hall b Hb). cbn beta in Hall.
  destruct (quorum_at _ _ _ _) as [members|]; [by exists members|done].
Qed.
Lemma two_verified : all_verified pair_llmqs pair_manager two_commitments.
Proof.
  assert (forall n x, 0 <= x < 256 -> bytes_ok (replicate n x)) as Hr by (intros n x Hx; apply Forall_replicate; exact Hx).
  pose proof (pair_verified [[true; false]; [true; true]] ltac:(vm_compute; reflexivity)) as Hv.
  intros qc Hqc. unfold two_commitments in Hqc. rewrite !elem_of_cons, elem_of_nil in Hqc.
  destruct Hqc as [->|[->|[]]]; (split; [|split; [reflexivity|apply Hv; rewrite !elem_of_cons; tauto]]).
  all: unfold commitment_ok, bits_ok, uint256_ok, is_u; cbn; split_and!; try lia; try reflexivity; try (apply (Hr 32%nat); lia); try (apply (Hr 48%nat); lia);
    try (apply (Hr 96%nat); lia); try (right; vm_compute; lia); try (vm_compute; congruence).
Qed.

Lemma mined_block_accepted_witness : exists proc txs, fold_left offer two_commitments (Some CQuorumBlockProcessor_new) = Some proc /\
  commitment_txs pair_llmqs pair_chain empty_evo proc 10 pair_llmqs = Some txs /\
  exists evo', ProcessBlock pair_llmqs pair_manager pair_chain empty_evo {| bl_header := pair_header; vtx := txs |} 10 true = (Ok tt, evo').
Proof.
  destruct (offer_all two_commitments two_distinct) as (proc & E & _). exists proc.
  destruct (mined_block_accepted pair_llmqs pair_manager pair_chain empty_evo two_commitments proc 10 pair_llmqs_ok two_distinct E) as (txs & Et & Hb).
  - exact two_verified.
  - intros type params [Hp|[]%elem_of_nil]%elem_of_cons. injection Hp as -> ->. split; [split; [right; vm_compute; lia|vm_compute; congruence]|].
    exists (replicate 32 9). split; [vm_compute; reflexivity|]. split; [reflexivity|]. apply Forall_replicate. unfold is_u. lia.
  - exists txs. split; [exact E|]. split; [exact Et|]. apply (Hb _ [] []); [cbn; by rewrite app_nil_r|]. intros tx Htx. destruct (not_elem_of_nil tx Htx).
Defined.
