(* ===== verification/DeterministicMNs.v ===== *)
(** * The masternode manager (src/src/evo/deterministicmns.cpp, class
    [CDeterministicMNManager])

    How a block changes the masternode list, and how the list of any block is found
    again from snapshots and differences in the evolution database and a cache.  The
    theorems: a block whose masternode transactions passed their checks turns a sound
    list into a sound list that differs from the first the way differences can express;
    and [GetListForBlock] returns, for every block of the chain and in at most 576
    reads, the very list that was built for it, through any sequence of blocks
    connected, disconnected and queries. *)

From Stdlib Require Import String.
From S2P Require Import Prelude Bytes Serialize Containers Hash Script Amount Transaction Coins Block ProviderTx MasternodeList MasternodeQueue QuorumCommitment EvoDb Standard NetAddress Base58 ProviderChecks.
From stdpp Require Import list gmap.
Local Open Scope Z_scope.
Local Open Scope cxx_scope.

Definition SNAPSHOT_LIST_PERIOD : Z := 576.
Definition LISTS_CACHE_SIZE : Z := 576.

(** The manager; the database is passed along with it. *)
Record CDeterministicMNManager : Type := {
  mnListsCache : gmap (list Z) CDeterministicMNList;
  tipHeight : Z;
  tipBlockHash : list Z;
}.
Definition CDeterministicMNManager_new : CDeterministicMNManager :=
  {| mnListsCache := ∅; tipHeight := -1; tipBlockHash := uint256_null |}.
Definition set_cache (m : CDeterministicMNManager) (c : gmap (list Z) CDeterministicMNList) : CDeterministicMNManager :=
  {| mnListsCache := c; tipHeight := tipHeight m; tipBlockHash := tipBlockHash m |}.

Section Manager.
Context `{BLSCurve}.

(** ** The list of a block *)

(** The reads, back to a list that is known; [listDiff] grows at the front. *)
Fixpoint read_back (fuel : nat) (evo : EvoStore) (cache : gmap (list Z) CDeterministicMNList) (blockHashTmp : list Z)
    (listDiff : list CDeterministicMNListDiff) : option (CDeterministicMNList * list CDeterministicMNListDiff) :=
  match fuel with
  | O => None
  | S fuel =>
      match cache !! blockHashTmp with
      | Some snapshot => Some (snapshot, listDiff)
      | None =>
          match ReadSnapshot evo blockHashTmp with
          | Some snapshot => Some (snapshot, listDiff)
          | None =>
              match ReadDiff evo blockHashTmp with
              | None => Some (CDeterministicMNList_new blockHashTmp (-1), listDiff)
              | Some diff => read_back fuel evo cache (diff_prevBlockHash diff) (diff :: listDiff)
              end
          end
      end
  end.
Definition read_fuel : nat := Z.to_nat SNAPSHOT_LIST_PERIOD.

Fixpoint apply_diffs (snapshot : CDeterministicMNList) (listDiff : list CDeterministicMNListDiff) : option CDeterministicMNList :=
  match listDiff with
  | [] => Some snapshot
  | diff :: listDiff =>
      snapshot ← (if HasChanges diff then ApplyDiff snapshot diff
                  else Some (SetHeight (SetBlockHash snapshot (diff_blockHash diff)) (diff_nHeight diff)));
      apply_diffs snapshot listDiff
  end.

Definition GetListForBlock (evo : EvoStore) (m : CDeterministicMNManager) (blockHash : list Z)
  : option (CDeterministicMNList * CDeterministicMNManager) :=
  match mnListsCache m !! blockHash with
  | Some l => Some (l, m)
  | None =>
      r ← read_back read_fuel evo (mnListsCache m) blockHash [];
      snapshot ← apply_diffs (fst r) (snd r);
      Some (snapshot, set_cache m (<[blockHash := snapshot]> (mnListsCache m)))
  end.

Definition GetListAtChainTip (evo : EvoStore) (m : CDeterministicMNManager) : option (CDeterministicMNList * CDeterministicMNManager) :=
  GetListForBlock evo m (tipBlockHash m).
Definition HasValidMNCollateralAtChainTip (evo : EvoStore) (m : CDeterministicMNManager) (outpoint : COutPoint) : option (bool * CDeterministicMNManager) :=
  r ← GetListAtChainTip evo m;
  Some (match GetMNByCollateral (fst r) outpoint with Some dmn => IsMNValid dmn | None => false end, snd r).
Definition HasMNCollateralAtChainTip (evo : EvoStore) (m : CDeterministicMNManager) (outpoint : COutPoint) : option (bool * CDeterministicMNManager) :=
  r ← GetListAtChainTip evo m;
  Some (bool_decide (is_Some (GetMNByCollateral (fst r) outpoint)), snd r).
Definition UpdatedBlockTip (m : CDeterministicMNManager) (hash : list Z) (height : Z) : CDeterministicMNManager :=
  {| mnListsCache := mnListsCache m; tipHeight := height; tipBlockHash := hash |}.
Definition CleanupCache (m : CDeterministicMNManager) (nHeight : Z) : CDeterministicMNManager :=
  set_cache m (filter (fun p => ~ MasternodeList.nHeight p.2 + LISTS_CACHE_SIZE < nHeight) (mnListsCache m)).

(** ** What a block does to the list *)

Context (llmqs : Llmqs) (node : NodeState) (nMasternodeMinimumConfirmations : Z).

(** One loop step: confirmation, on the new list, of a masternode of the old. *)
Definition confirm (prevHash : list Z) (prevHeight : Z) (newList : option CDeterministicMNList) (dmn : CDeterministicMN) : option CDeterministicMNList :=
  newList ← newList;
  if negb (uint256_IsNull (confirmedHash (pdmnState dmn))) then Some newList
  else
    let nConfirmations := i32 (prevHeight - nRegisteredHeight (pdmnState dmn)) in
    if nMasternodeMinimumConfirmations <=? nConfirmations
    then UpdateMN newList (proTxHash dmn) (UpdateConfirmedHash (pdmnState dmn) (proTxHash dmn) prevHash)
    else Some newList.

Definition ProcessRegister (nHeight : Z) (newList : CDeterministicMNList) (tx : CTransaction) : check CDeterministicMNList :=
  let! proTx := asserted (GetTxPayload CProRegTx.t (vExtraPayload (tx_data tx))) in
  let internal := uint256_IsNull (op_hash (CProRegTx.collateralOutpoint proTx)) in
  let collateral := if internal then {| op_hash := tx_hash tx; op_n := op_n (CProRegTx.collateralOutpoint proTx) |}
                    else CProRegTx.collateralOutpoint proTx in
  if (negb internal && negb (bool_decide (is_Some (GetUTXOCoin node collateral)))) || negb (validateCollateral node (CProRegTx.collateralOutpoint proTx))
  then DoS 100 REJECT_INVALID "bad-protx-collateral"
  else
    let! newList := match GetMNByCollateral newList collateral with
                    | Some replacedDmn => asserted (RemoveMN newList (proTxHash replacedDmn))
                    | None => Ok newList
                    end in
    if HasUniqueProperty newList (CProRegTx.addr proTx) then DoS 100 REJECT_CONFLICT "bad-protx-dup-addr"
    else if HasUniqueProperty newList (CProRegTx.keyIDOwner proTx) || HasUniqueProperty newList (CProRegTx.pubKeyOperator proTx)
    then DoS 100 REJECT_CONFLICT "bad-protx-dup-key"
    else
      let dmnState := set_nRegisteredHeight (CDeterministicMNState_of proTx) nHeight in
      let dmnState := if bool_decide (CProRegTx.addr proTx = CService_null) then set_nPoSeBanHeight dmnState nHeight else dmnState in
      asserted (AddMN newList {| proTxHash := tx_hash tx; collateralOutpoint := collateral;
                                 nOperatorReward := CProRegTx.nOperatorReward proTx; pdmnState := dmnState |}).

Definition ProcessUpdateService (nHeight : Z) (newList : CDeterministicMNList) (tx : CTransaction) : check CDeterministicMNList :=
  let! proTx := asserted (GetTxPayload CProUpServTx.t (vExtraPayload (tx_data tx))) in
  let! dup := if HasUniqueProperty newList (CProUpServTx.addr proTx)
              then let! d := deref (GetUniquePropertyMN newList (CProUpServTx.addr proTx)) in
                   Ok (negb (bool_decide (proTxHash d = CProUpServTx.proTxHash proTx)))
              else Ok false in
  if (dup : bool) then DoS 100 REJECT_CONFLICT "bad-protx-dup-addr"
  else
    match GetMN newList (CProUpServTx.proTxHash proTx) with
    | None => DoS 100 REJECT_INVALID "bad-protx-hash"
    | Some dmn =>
        let newState := set_service (pdmnState dmn) (CProUpServTx.addr proTx) (CProUpServTx.scriptOperatorPayout proTx) in
        let newState :=
          if negb (nPoSeBanHeight newState =? -1) &&
             (IsValid (pubKeyOperator newState) && negb (CKeyID_IsNull (keyIDVoting newState)) && negb (CKeyID_IsNull (keyIDOwner newState)))
          then revive newState nHeight else newState in
        asserted (UpdateMN newList (CProUpServTx.proTxHash proTx) newState)
    end.

Definition ProcessUpdateRegistrar (nHeight : Z) (newList : CDeterministicMNList) (tx : CTransaction) : check CDeterministicMNList :=
  let! proTx := asserted (GetTxPayload CProUpRegTx.t (vExtraPayload (tx_data tx))) in
  match GetMN newList (CProUpRegTx.proTxHash proTx) with
  | None => DoS 100 REJECT_INVALID "bad-protx-hash"
  | Some dmn =>
      let newState := pdmnState dmn in
      let newState := if negb (bool_decide (pubKeyOperator newState = CProUpRegTx.pubKeyOperator proTx))
                      then BanIfNotBanned (ResetOperatorFields newState) nHeight else newState in
      let newState := set_registrar newState (CProUpRegTx.pubKeyOperator proTx) (CProUpRegTx.keyIDVoting proTx) (CProUpRegTx.scriptPayout proTx) in
      asserted (UpdateMN newList (CProUpRegTx.proTxHash proTx) newState)
  end.

Definition ProcessRevoke (nHeight : Z) (newList : CDeterministicMNList) (tx : CTransaction) : check CDeterministicMNList :=
  let! proTx := asserted (GetTxPayload CProUpRevTx.t (vExtraPayload (tx_data tx))) in
  match GetMN newList (CProUpRevTx.proTxHash proTx) with
  | None => DoS 100 REJECT_INVALID "bad-protx-hash"
  | Some dmn =>
      let newState := BanIfNotBanned (ResetOperatorFields (pdmnState dmn)) nHeight in
      let newState := set_nRevocationReason newState (CProUpRevTx.nReason proTx) in
      asserted (UpdateMN newList (CProUpRevTx.proTxHash proTx) newState)
  end.

(** [HandleQuorumCommitment]: the loop over the members, each with its index. *)
Definition punish_member (qc : CFinalCommitment) (mnList : option CDeterministicMNList) (member : CDeterministicMN * nat) : option CDeterministicMNList :=
  mnList ← mnList;
  let '(dmn, i) := member in
  if negb (HasMN mnList (proTxHash dmn)) then Some mnList
  else
    valid ← validMembers qc !! i;
    if negb (valid : bool) then penalty ← CalcPenalty mnList 66; PoSePunish mnList (proTxHash dmn) penalty else Some mnList.
Definition HandleQuorumCommitment (allMns : CDeterministicMNList) (qc : CFinalCommitment) (mnList : CDeterministicMNList) : option CDeterministicMNList :=
  members ← GetAllQuorumMembers llmqs allMns (llmqType qc) (quorumHash qc);
  fold_left (punish_member qc) (combine members (seq 0 (length members))) (Some mnList).

(** [fetch] is [GetListForBlock]; it is called for commitments that are not null. *)
Definition ProcessCommitmentTx (fetch : list Z -> option CDeterministicMNList) (newList : CDeterministicMNList) (tx : CTransaction) : check CDeterministicMNList :=
  let! qc := asserted (GetTxPayload CFinalCommitmentTxPayload (vExtraPayload (tx_data tx))) in
  if negb (IsNull (commitment qc)) then
    let! allMns := asserted (fetch (quorumHash (commitment qc))) in
    asserted (HandleQuorumCommitment allMns (commitment qc) newList)
  else Ok newList.
Definition commitment_query (tx : CTransaction) : option (list Z) :=
  if negb (nVersion (tx_data tx) =? 3) then None
  else if nType (tx_data tx) =? TRANSACTION_QUORUM_COMMITMENT then
    qc ← GetTxPayload CFinalCommitmentTxPayload (vExtraPayload (tx_data tx));
    if negb (IsNull (commitment qc)) then Some (quorumHash (commitment qc)) else None
  else None.

Definition ProcessTx (fetch : list Z -> option CDeterministicMNList) (nHeight : Z) (newList : CDeterministicMNList) (tx : CTransaction) : check CDeterministicMNList :=
  if negb (nVersion (tx_data tx) =? 3) then Ok newList
  else if nType (tx_data tx) =? TRANSACTION_PROVIDER_REGISTER then ProcessRegister nHeight newList tx
  else if nType (tx_data tx) =? TRANSACTION_PROVIDER_UPDATE_SERVICE then ProcessUpdateService nHeight newList tx
  else if nType (tx_data tx) =? TRANSACTION_PROVIDER_UPDATE_REGISTRAR then ProcessUpdateRegistrar nHeight newList tx
  else if nType (tx_data tx) =? TRANSACTION_PROVIDER_UPDATE_REVOKE then ProcessRevoke nHeight newList tx
  else if nType (tx_data tx) =? TRANSACTION_QUORUM_COMMITMENT then ProcessCommitmentTx fetch newList tx
  else Ok newList.

(** The loop over the transactions, with the manager whose cache [GetListForBlock] fills. *)
Fixpoint ProcessTxs (evo : EvoStore) (m : CDeterministicMNManager) (nHeight : Z) (newList : CDeterministicMNList) (txs : list CTransaction)
  : check CDeterministicMNList * CDeterministicMNManager :=
  match txs with
  | [] => (Ok newList, m)
  | tx :: txs =>
      let fetch h := option_map fst (GetListForBlock evo m h) in
      let m := match commitment_query tx with
               | Some h => match GetListForBlock evo m h with Some r => snd r | None => m end
               | None => m
               end in
      match ProcessTx fetch nHeight newList tx with
      | Ok newList => ProcessTxs evo m nHeight newList txs
      | Throw e => (Throw e, m)
      end
  end.

(** A masternode whose collateral is spent is removed. *)
Definition spend_collateral (newList : option CDeterministicMNList) (i : CTxIn) : option CDeterministicMNList :=
  newList ← newList;
  match GetMNByCollateral newList (prevout i) with
  | Some dmn => if bool_decide (collateralOutpoint dmn = prevout i) then RemoveMN newList (proTxHash dmn) else Some newList
  | None => Some newList
  end.

Definition pay (nHeight : Z) (payee : option CDeterministicMN) (newList : CDeterministicMNList) : option CDeterministicMNList :=
  match payee with
  | Some payee =>
      match GetMN newList (proTxHash payee) with
      | Some dmn => UpdateMN newList (proTxHash payee) (set_nLastPaidHeight (pdmnState dmn) nHeight)
      | None => Some newList
      end
  | None => Some newList
  end.

(** Before and after the loop over the transactions. *)
Definition open_block (oldList : CDeterministicMNList) (prevHash : list Z) (prevHeight : Z) : option CDeterministicMNList :=
  let newList := SetHeight (SetBlockHash oldList uint256_null) (prevHeight + 1) in
  newList ← fold_left (confirm prevHash prevHeight) (ForEachMN oldList false) (Some newList);
  DecreasePoSePenalties newList.
Definition close_block (oldList : CDeterministicMNList) (nHeight : Z) (txs : list CTransaction) (newList : CDeterministicMNList) : option CDeterministicMNList :=
  newList ← fold_left spend_collateral (concat (map (fun tx => vin (tx_data tx)) txs)) (Some newList);
  pay nHeight (GetMNPayee oldList) newList.

Definition BuildNewListFromBlock (evo : EvoStore) (m : CDeterministicMNManager) (block : CBlock) (prevHash : list Z) (prevHeight : Z)
  : check CDeterministicMNList * CDeterministicMNManager :=
  let nHeight := prevHeight + 1 in
  match GetListForBlock evo m prevHash with
  | None => (Throw AssertFails, m)
  | Some (oldList, m) =>
      match open_block oldList prevHash prevHeight with
      | None => (Throw AssertFails, m)
      | Some newList =>
          let txs := drop 1 (vtx block) in
          let '(r, m) := ProcessTxs evo m nHeight newList txs in
          (let! newList := r in asserted (close_block oldList nHeight txs newList), m)
      end
  end.

(** ** Blocks *)

Definition ProcessBlock (evo : EvoStore) (m : CDeterministicMNManager) (block : CBlock) (nHeight : Z) (prevHash : list Z) (prevHeight : Z) (fDIP0003Active : bool)
  : check unit * (EvoStore * CDeterministicMNManager) :=
  if negb fDIP0003Active then (Ok tt, (evo, m))
  else
    let '(r, m) := BuildNewListFromBlock evo m block prevHash prevHeight in
    match r with
    | Throw e => (Throw e, (evo, m))
    | Ok newList =>
        let newList := if MasternodeList.nHeight newList =? -1 then SetHeight newList nHeight else newList in
        let newList := SetBlockHash newList (GetHash (bl_header block)) in
        match GetListForBlock evo m prevHash with
        | None => (Throw AssertFails, (evo, m))
        | Some (oldList, m) =>
            let diff := BuildDiff oldList newList in
            let evo := EvoDB_Write evo (DB_LIST_DIFF (diff_blockHash diff)) (VDiff diff) in
            let evo := if (Z.rem nHeight SNAPSHOT_LIST_PERIOD =? 0) || (MasternodeList.nHeight oldList =? -1)
                       then EvoDB_Write evo (DB_LIST_SNAPSHOT (diff_blockHash diff)) (VList newList) else evo in
            (Ok tt, (evo, CleanupCache m nHeight))
        end
    end.

Definition UndoBlock (evo : EvoStore) (m : CDeterministicMNManager) (block : CBlock) : EvoStore * CDeterministicMNManager :=
  let blockHash := GetHash (bl_header block) in
  let evo := EvoDB_Erase evo (DB_LIST_DIFF blockHash) in
  let evo := EvoDB_Erase evo (DB_LIST_SNAPSHOT blockHash) in
  (evo, set_cache m (delete blockHash (mnListsCache m))).

Definition IsProTxWithCollateral (tx : CTransaction) (n : Z) : bool :=
  if negb (nVersion (tx_data tx) =? 3) || negb (nType (tx_data tx) =? TRANSACTION_PROVIDER_REGISTER) then false
  else
    match GetTxPayload CProRegTx.t (vExtraPayload (tx_data tx)) with
    | None => false
    | Some proTx =>
        let outpoint := CProRegTx.collateralOutpoint proTx in
        if negb (uint256_IsNull (op_hash outpoint)) then false
        else if (Z.of_nat (length (vout (tx_data tx))) <=? op_n outpoint) || negb (op_n outpoint =? n) then false
        else validateCollateral node outpoint
    end.
End Manager.

(** ** How lists evolve within a block *)

Section Evolution.
Context `{BLSCurve}.
Implicit Types (from new : CDeterministicMNList).

(** What a step within a block keeps, seen from the list of the previous block. *)
Record evolves from new : Prop := {
  ev_ok : list_ok new;
  ev_header : blockHash new = uint256_null /\ MasternodeList.nHeight new = MasternodeList.nHeight from + 1;
  ev_registration : forall p d e, mnMap from !! p = Some d -> mnMap new !! p = Some e ->
    collateralOutpoint e = collateralOutpoint d /\ nOperatorReward e = nOperatorReward d;
  ev_handover : forall p q h, p <> q -> h ∈ keys_at (mnMap from) p -> h ∈ keys_at (mnMap new) q -> mnMap new !! p = None;
}.

(** No masternode of the previous list that is still there has any of these keys. *)
Definition newcomer from new (p : list Z) (ks : list (list Z)) : Prop :=
  forall q h, q <> p -> h ∈ ks -> h ∈ keys_at (mnMap from) q -> mnMap new !! q = None.

Lemma header_trans l1 l2 from : same_header l1 l2 ->
  blockHash l1 = uint256_null /\ MasternodeList.nHeight l1 = MasternodeList.nHeight from + 1 ->
  blockHash l2 = uint256_null /\ MasternodeList.nHeight l2 = MasternodeList.nHeight from + 1.
Proof. intros [-> ->]. done. Qed.

Lemma evolves_update from new new' p d st : evolves from new -> mnMap new !! p = Some d ->
  list_ok new' -> mnMap new' = <[p := set_pdmnState d st]> (mnMap new) -> same_header new new' ->
  (forall h, h ∈ state_keys st -> h ∈ property_keys d \/ newcomer from new p [h]) -> evolves from new'.
Proof.
  intros [Ho Hh Hr Hv] Hd Ho' Hm Hh' Hk. split; [done|by eapply header_trans| |].
  - intros q a b Ha Hb. rewrite Hm in Hb. destruct (decide (q = p)) as [->|Hq].
    + rewrite lookup_insert_eq in Hb. injection Hb as <-. cbn. by apply (Hr p).
    + rewrite lookup_insert_ne in Hb by done. by apply (Hr q).
  - intros q r h Hqr Hq Hrk. rewrite Hm in Hrk |- *.
    assert (mnMap new !! q = None) as Hnone.
    { rewrite keys_at_insert in Hrk. destruct (decide (r = p)) as [->|Hrp].
      - rewrite with_keys_eq in Hrk. unfold property_keys in Hrk. cbn in Hrk. apply elem_of_app in Hrk as [Hrk|Hrk].
        + apply (Hv q p h); [done..|]. rewrite (keys_at_Some _ _ _ Hd). apply elem_of_app. by left.
        + destruct (Hk h Hrk) as [Hin|Hin].
          * apply (Hv q p h); [done..|]. by rewrite (keys_at_Some _ _ _ Hd).
          * apply (Hin q h); [done|by left|done].
      - rewrite with_keys_ne in Hrk by done. by apply (Hv q r h). }
    rewrite lookup_insert_ne; [done|]. intros ->. congruence.
Qed.

Lemma evolves_keep from new new' p d st : evolves from new -> mnMap new !! p = Some d ->
  list_ok new' -> mnMap new' = <[p := set_pdmnState d st]> (mnMap new) -> same_header new new' ->
  state_keys st = state_keys (pdmnState d) -> evolves from new'.
Proof.
  intros Hev Hd Ho Hm Hh Hk. eapply evolves_update; [done..|]. intros h Hin. left. unfold property_keys. apply elem_of_app. right. by rewrite <- Hk.
Qed.

Lemma evolves_remove from new new' p : evolves from new ->
  list_ok new' -> mnMap new' = delete p (mnMap new) -> same_header new new' -> evolves from new'.
Proof.
  intros [Ho Hh Hr Hv] Ho' Hm Hh'. split; [done|by eapply header_trans| |].
  - intros q a b Ha Hb. rewrite Hm in Hb. apply lookup_delete_Some in Hb as [_ Hb]. by apply (Hr q).
  - intros q r h Hqr Hq Hrk. rewrite Hm in Hrk |- *. rewrite keys_at_delete in Hrk.
    apply lookup_delete_None. right. destruct (decide (r = p)) as [->|Hrp].
    + rewrite with_keys_eq in Hrk. by apply elem_of_nil in Hrk.
    + rewrite with_keys_ne in Hrk by done. by apply (Hv q r h).
Qed.

Lemma evolves_add from new new' d : evolves from new -> mnMap from !! proTxHash d = None ->
  list_ok new' -> mnMap new' = <[proTxHash d := d]> (mnMap new) -> same_header new new' ->
  newcomer from new (proTxHash d) (property_keys d) -> evolves from new'.
Proof.
  intros [Ho Hh Hr Hv] Hd Ho' Hm Hh' Hk. split; [done|by eapply header_trans| |].
  - intros q a b Ha Hb. rewrite Hm, lookup_insert_ne in Hb by (intros E; congruence). by apply (Hr q).
  - intros q r h Hqr Hq Hrk. rewrite Hm in Hrk |- *. rewrite keys_at_insert in Hrk.
    assert (q <> proTxHash d) as Hqd by (intros ->; unfold keys_at in Hq; rewrite Hd in Hq; by apply elem_of_nil in Hq).
    rewrite lookup_insert_ne by done. destruct (decide (r = proTxHash d)) as [->|Hrp].
    + rewrite with_keys_eq in Hrk. by apply (Hk q h).
    + rewrite with_keys_ne in Hrk by done. by apply (Hv q r h).
Qed.

Lemma evolves_successive from new : evolves from new -> successive from new.
Proof. intros [Ho [_ Hh] Hr Hv]. by split. Qed.

Lemma evolves_start from : list_ok from -> evolves from (SetHeight (SetBlockHash from uint256_null) (MasternodeList.nHeight from + 1)).
Proof.
  intros Hf. split; [by apply SetHeight_ok|done| |]; cbn.
  - intros p d e. by intros -> [= ->].
  - intros p q h Hpq Hp Hq. destruct (list_exclusive from Hf p q h Hpq Hp Hq).
Qed.

(** A property of [from] is a newcomer's only if its holder is gone or the same. *)
Lemma newcomer_unused {T} `{UniqueProperty T} from new p (v : T) : list_ok from -> HasUniqueProperty from v = false -> newcomer from new p (hash_of v).
Proof. intros Hf Hv q h Hq Hh Hin. destruct (HasUniqueProperty_free from v p Hf Hv q h Hh Hq Hin). Qed.
Lemma hash_of_elem {T} `{UniqueProperty T} (v : T) h : h ∈ hash_of v -> h = SerializeHash v.
Proof. unfold hash_of. case_bool_decide; [by intros ?%elem_of_nil|]. by intros ?%list_elem_of_singleton. Qed.
Lemma newcomer_own {T} `{UniqueProperty T} from new p (v : T) : list_ok from ->
  (HasUniqueProperty from v = true -> exists d, GetUniquePropertyMN from v = Some d /\ proTxHash d = p) -> newcomer from new p (hash_of v).
Proof.
  intros Hf Hv q h Hq Hh Hin. exfalso. apply hash_of_elem in Hh as ->.
  unfold keys_at in Hin. destruct (mnMap from !! q) as [e|] eqn:He; [|by apply elem_of_nil in Hin].
  destruct (mns_ok from Hf q e He) as (Hqe & _ & _). subst q.
  assert (GetUniquePropertyMN from v = Some e) as Ge by (by apply GetUniquePropertyMN_spec).
  destruct Hv as (d & Gd & Hp); [apply HasUniqueProperty_spec; [done|by exists e]|]. apply Hq. congruence.
Qed.
End Evolution.

(** ** The transactions of a block *)

Lemma CheckCollateral_outpoint node tx ptx outpoint dest key : CheckCollateral node tx ptx = Ok (outpoint, dest, key) ->
  outpoint = (if uint256_IsNull (op_hash (CProRegTx.collateralOutpoint ptx))
              then {| op_hash := tx_hash tx; op_n := op_n (CProRegTx.collateralOutpoint ptx) |} else CProRegTx.collateralOutpoint ptx).
Proof. unfold CheckCollateral. intros E. destruct (uint256_IsNull _); cbn [negb] in E; passes E; by injection E as <- _ _. Qed.

Section Transactions.
Context `{BLSCurve}.
Context (RecoverCompact : list Z -> list Z -> option (list Z)) (llmqs : Llmqs) (node : NodeState) (nMasternodeMinimumConfirmations : Z).
Implicit Types (from new : CDeterministicMNList) (tx : CTransaction) (A : list (list Z * list Z)).

Definition register_collateral tx (ptx : CProRegTx.t) : COutPoint :=
  if uint256_IsNull (op_hash (CProRegTx.collateralOutpoint ptx))
  then {| op_hash := tx_hash tx; op_n := op_n (CProRegTx.collateralOutpoint ptx) |} else CProRegTx.collateralOutpoint ptx.

(** The keys a transaction gives to a masternode. *)
Definition tx_keys tx : list (list Z * list Z) :=
  if negb (nVersion (tx_data tx) =? 3) then []
  else if nType (tx_data tx) =? TRANSACTION_PROVIDER_REGISTER then
    match GetTxPayload CProRegTx.t (vExtraPayload (tx_data tx)) with
    | Some ptx => map (pair (tx_hash tx)) (hash_of (register_collateral tx ptx) ++ hash_of (CProRegTx.addr ptx) ++
                                           hash_of (CProRegTx.keyIDOwner ptx) ++ hash_of (CProRegTx.pubKeyOperator ptx))
    | None => []
    end
  else if nType (tx_data tx) =? TRANSACTION_PROVIDER_UPDATE_SERVICE then
    match GetTxPayload CProUpServTx.t (vExtraPayload (tx_data tx)) with
    | Some ptx => map (pair (CProUpServTx.proTxHash ptx)) (hash_of (CProUpServTx.addr ptx))
    | None => []
    end
  else if nType (tx_data tx) =? TRANSACTION_PROVIDER_UPDATE_REGISTRAR then
    match GetTxPayload CProUpRegTx.t (vExtraPayload (tx_data tx)) with
    | Some ptx => map (pair (CProUpRegTx.proTxHash ptx)) (hash_of (CProUpRegTx.pubKeyOperator ptx))
    | None => []
    end
  else [].

Record inv from A new : Prop := {
  inv_evolves : evolves from new;
  inv_keys : forall q h, h ∈ keys_at (mnMap new) q -> h ∈ keys_at (mnMap from) q \/ (q, h) ∈ A;
  inv_known : forall q, is_Some (mnMap new !! q) -> is_Some (mnMap from !! q) \/ q ∈ A.*1;
}.
(** A step goes on, or rejects the block; it does not assert. *)
Definition proceeds from A (m : check CDeterministicMNList) : Prop :=
  match m with Ok new => inv from A new | Throw (Rejected _) => True | Throw AssertFails => False end.

Lemma inv_weaken from A A' new : inv from A new -> A ⊆ A' -> inv from A' new.
Proof.
  intros [He Hk Hd] Hs. split; [done| |].
  - intros q h Hh. destruct (Hk q h Hh) as [|Hin]; [by left|right; by apply Hs].
  - intros q Hq. destruct (Hd q Hq) as [|Hin]; [by left|right]. apply list_elem_of_fmap in Hin as (x & -> & Hx).
    apply list_elem_of_fmap. exists x. split; [done|by apply Hs].
Qed.

Lemma inv_remove from A new new' p : inv from A new -> list_ok new' -> mnMap new' = delete p (mnMap new) -> same_header new new' -> inv from A new'.
Proof.
  intros [He Hk Hd] Ho Hm Hh. split; [by eapply evolves_remove| |].
  - intros q h Hin. rewrite Hm, keys_at_delete in Hin. destruct (decide (q = p)) as [->|Hq].
    + rewrite with_keys_eq in Hin. by apply elem_of_nil in Hin.
    + rewrite with_keys_ne in Hin by done. by apply Hk.
  - intros q [d Hq]. rewrite Hm in Hq. apply lookup_delete_Some in Hq as [_ Hq]. by apply Hd.
Qed.

Lemma inv_update from A new new' p d st (ks : list (list Z)) : inv from A new -> mnMap new !! p = Some d ->
  list_ok new' -> mnMap new' = <[p := set_pdmnState d st]> (mnMap new) -> same_header new new' ->
  (forall h, h ∈ state_keys st -> h ∈ property_keys d \/ h ∈ ks) -> newcomer from new p ks -> map (pair p) ks ⊆ A -> inv from A new'.
Proof.
  intros [He Hk Hd] Hp Ho Hm Hh Hst Hn HA. split.
  - eapply evolves_update; [done..|]. intros h Hin. destruct (Hst h Hin) as [|Hks]; [by left|right].
    intros q k Hq ->%list_elem_of_singleton Hfrom. by apply (Hn q h).
  - intros q h Hin. rewrite Hm, keys_at_insert in Hin. destruct (decide (q = p)) as [->|Hq].
    + rewrite with_keys_eq in Hin. unfold property_keys in Hin. cbn in Hin. apply elem_of_app in Hin as [Hin|Hin].
      * apply Hk. rewrite (keys_at_Some _ _ _ Hp). apply elem_of_app. by left.
      * destruct (Hst h Hin) as [Hin'|Hks]; [apply Hk; by rewrite (keys_at_Some _ _ _ Hp)|]. right. apply HA. apply list_elem_of_fmap. by exists h.
    + rewrite with_keys_ne in Hin by done. by apply Hk.
  - intros q [x Hq]. rewrite Hm in Hq. destruct (decide (q = p)) as [->|Hne]; [by apply Hd|].
    rewrite lookup_insert_ne in Hq by done. by apply Hd.
Qed.

(** A state with keys that nobody else has can be put in. *)
Lemma update_proceeds from A new p d st (ks : list (list Z)) : inv from A new -> mnMap new !! p = Some d -> keyIDOwner st = keyIDOwner (pdmnState d) ->
  (forall h, h ∈ state_keys st -> h ∈ property_keys d \/ h ∈ ks) -> newcomer from new p ks -> map (pair p) ks ⊆ A ->
  free_for (mnMap new) p ks -> proceeds from A (asserted (UpdateMN new p st)).
Proof.
  intros Hi Hp Howner Hst Hn HA Hfree. pose proof (ev_ok _ _ (inv_evolves _ _ _ Hi)) as Ho.
  destruct (mns_ok new Ho p d Hp) as (Hpd & _ & Hno).
  pose proof (UpdateMN_cases new p st Ho ltac:(congruence)) as Hc. destruct (UpdateMN new p st) as [new'|].
  - destruct Hc as (d' & Hd' & Ho' & Hm & Hh). assert (d' = d) as -> by congruence. cbn. by eapply inv_update.
  - exfalso. destruct Hc as [Hc|(d' & Hd' & q & h & Hh & Hq & Hin)]; [congruence|]. assert (d' = d) as -> by congruence.
    rewrite Hpd in Hq. destruct (Hst h Hh) as [Hown|Hks]; [|by apply (Hfree q h)].
    apply (list_exclusive new Ho q p h Hq Hin). by rewrite (keys_at_Some _ _ _ Hp).
Qed.

Lemma keep_proceeds from A new p d st : inv from A new -> mnMap new !! p = Some d -> keyIDOwner st = keyIDOwner (pdmnState d) ->
  state_keys st = state_keys (pdmnState d) -> proceeds from A (asserted (UpdateMN new p st)).
Proof.
  intros Hi Hp Ho Hk. apply (update_proceeds from A new p d st []); try done.
  - intros h Hin. left. unfold property_keys. apply elem_of_app. right. by rewrite <- Hk.
  - intros q h _ Hh. by apply elem_of_nil in Hh.
  - apply list_subseteq_nil.
  - intros q h Hh. by apply elem_of_nil in Hh.
Qed.

Lemma free_unused {T} `{UniqueProperty T} new p (v : T) : list_ok new ->
  (HasUniqueProperty new v = true -> exists d, GetUniquePropertyMN new v = Some d /\ proTxHash d = p) -> free_for (mnMap new) p (hash_of v).
Proof.
  intros Ho Hv q h Hh Hq Hin. apply hash_of_elem in Hh as ->. unfold keys_at in Hin.
  destruct (mnMap new !! q) as [e|] eqn:He; [|by apply elem_of_nil in Hin].
  destruct (mns_ok new Ho q e He) as (Hqe & _ & _). subst q.
  assert (GetUniquePropertyMN new v = Some e) as Ge by (by apply GetUniquePropertyMN_spec).
  destruct Hv as (d & Gd & Hp); [apply HasUniqueProperty_spec; [done|by exists e]|]. apply Hq. congruence.
Qed.

Lemma service_step from A new tx ptx h : list_ok from -> inv from A new -> service_passed node tx from ptx ->
  map (pair (CProUpServTx.proTxHash ptx)) (hash_of (CProUpServTx.addr ptx)) ⊆ A ->
  proceeds from A (ProcessUpdateService h new tx).
Proof.
  intros Hf Hi Hp HA. pose proof (ev_ok _ _ (inv_evolves _ _ _ Hi)) as Ho. unfold ProcessUpdateService.
  rewrite (serv_payload _ _ _ _ Hp). cbn [asserted rbind].
  match goal with |- context [rbind ?m _] => destruct m as [dup|e] eqn:Ed end; cbn [rbind].
  2: { destruct (HasUniqueProperty new (CProUpServTx.addr ptx)) eqn:Eh; [|done].
       apply HasUniqueProperty_spec in Eh as [d Eh]; [|done]. rewrite Eh in Ed. done. }
  destruct dup; [done|]. pose proof (tolerated new _ _ Ed) as Hown.
  destruct (GetMN new (CProUpServTx.proTxHash ptx)) as [d|] eqn:Emn; [|done].
  apply (update_proceeds from A new _ d _ (hash_of (CProUpServTx.addr ptx)) Hi); [done|by destruct (negb _ && _)| | |done|].
  - intros k Hk. assert (k ∈ state_keys (set_service (pdmnState d) (CProUpServTx.addr ptx) (CProUpServTx.scriptOperatorPayout ptx))) as Hk'
      by (revert Hk; destruct (negb _ && _); exact id). clear Hk. unfold state_keys, property_keys, state_keys in *. cbn in Hk'.
    apply elem_of_app in Hk' as [Hk'|Hk']; [by right|left]. do 2 (apply elem_of_app; right). done.
  - apply newcomer_own; [done|]. apply (serv_addr_free _ _ _ _ Hp).
  - apply free_unused; [done|]. intros Hv. destruct (Hown Hv) as (x & Hx & Hc). exists x. split; [done|]. by apply bool_decide_eq_true in Hc.
Qed.

Lemma registrar_step from A new tx ptx h : list_ok from -> inv from A new -> registrar_passed RecoverCompact tx from ptx ->
  map (pair (CProUpRegTx.proTxHash ptx)) (hash_of (CProUpRegTx.pubKeyOperator ptx)) ⊆ A ->
  free_for (mnMap new) (CProUpRegTx.proTxHash ptx) (hash_of (CProUpRegTx.pubKeyOperator ptx)) ->
  proceeds from A (ProcessUpdateRegistrar h new tx).
Proof.
  intros Hf Hi Hp HA Hfree. unfold ProcessUpdateRegistrar. rewrite (upreg_payload _ _ _ _ Hp). cbn [asserted rbind].
  destruct (GetMN new (CProUpRegTx.proTxHash ptx)) as [d|] eqn:Emn; [|done].
  apply (update_proceeds from A new _ d _ (hash_of (CProUpRegTx.pubKeyOperator ptx)) Hi); [done| | | |done|done].
  - case_match; [|done]. unfold BanIfNotBanned. by case_match.
  - intros k Hk. unfold state_keys, property_keys, state_keys in *. cbn [set_registrar addr keyIDOwner pubKeyOperator] in Hk.
    case_bool_decide as Eop; cbn [negb] in Hk.
    + left. rewrite <- Eop in Hk. by apply elem_of_app; right.
    + assert (addr (BanIfNotBanned (ResetOperatorFields (pdmnState d)) h) = CService_null /\
        keyIDOwner (BanIfNotBanned (ResetOperatorFields (pdmnState d)) h) = keyIDOwner (pdmnState d)) as [Ea Eo] by (unfold BanIfNotBanned; by case_match).
      rewrite Ea, Eo in Hk. apply elem_of_app in Hk as [Hk|Hk]; [by apply elem_of_nil in Hk|].
      apply elem_of_app in Hk as [Hk|Hk]; [left|by right]. apply elem_of_app; right. apply elem_of_app; right. apply elem_of_app. by left.
  - apply newcomer_own; [done|]. apply (upreg_operator_free _ _ _ _ Hp).
Qed.

Lemma revoke_step from A new tx ptx h : inv from A new -> revocation_passed tx from ptx -> proceeds from A (ProcessRevoke h new tx).
Proof.
  intros Hi Hp. unfold ProcessRevoke. rewrite (rev_payload _ _ _ Hp). cbn [asserted rbind].
  destruct (GetMN new (CProUpRevTx.proTxHash ptx)) as [d|] eqn:Emn; [|done].
  apply (update_proceeds from A new _ d _ [] Hi); [done| | | | |].
  - unfold BanIfNotBanned. by case_match.
  - intros k Hk. left. unfold property_keys, state_keys in *. unfold BanIfNotBanned in Hk.
    assert (k ∈ hash_of (keyIDOwner (pdmnState d))) as Hk'.
    { assert (k ∈ [] ++ hash_of (keyIDOwner (pdmnState d)) ++ []) as Hk' by (revert Hk; case_match; exact id).
      by rewrite app_nil_r in Hk'. }
    apply elem_of_app; right. apply elem_of_app; right. apply elem_of_app. by left.
  - intros q k _ Hk. by apply elem_of_nil in Hk.
  - apply list_subseteq_nil.
  - intros q k Hk. by apply elem_of_nil in Hk.
Qed.

(** A collateral that is registered again: its old masternode is gone. *)
Lemma collateral_phase from A new (c : COutPoint) : inv from A new -> c <> COutPoint_null ->
  exists new1, match GetMNByCollateral new c with
               | Some replacedDmn => asserted (RemoveMN new (proTxHash replacedDmn))
               | None => Ok new
               end = @Ok failure _ new1 /\ inv from A new1 /\ (forall q, mnMap new !! q = None -> mnMap new1 !! q = None) /\
    (forall q, SerializeHash c ∉ keys_at (mnMap new1) q) /\
    (forall q d, mnMap from !! q = Some d -> collateralOutpoint d = c -> mnMap new1 !! q = None).
Proof.
  intros Hi Hc. pose proof (ev_ok _ _ (inv_evolves _ _ _ Hi)) as Ho.
  assert (exists new1, match GetMNByCollateral new c with Some d => asserted (RemoveMN new (proTxHash d)) | None => Ok new end = @Ok failure _ new1 /\
    inv from A new1 /\ (forall q, mnMap new !! q = None -> mnMap new1 !! q = None) /\ forall q, SerializeHash c ∉ keys_at (mnMap new1) q) as (new1 & E & Hi1 & Hn & Hfree).
  { unfold GetMNByCollateral. destruct (GetUniquePropertyMN new c) as [d|] eqn:Ed.
    - pose proof (proj1 (GetUniquePropertyMN_spec new c d Ho) Ed) as [Hd Hin].
      pose proof (RemoveMN_cases new (proTxHash d) Ho) as Hr. destruct (RemoveMN new (proTxHash d)) as [new1|]; [|congruence].
      destruct Hr as (_ & Ho1 & Hm & Hh). exists new1. split_and!; [done|by eapply inv_remove| |].
      + intros q Hq. rewrite Hm. apply lookup_delete_None. by right.
      + intros q Hq. rewrite Hm, keys_at_delete in Hq. destruct (decide (q = proTxHash d)) as [->|Hne].
        * rewrite with_keys_eq in Hq. by apply elem_of_nil in Hq.
        * rewrite with_keys_ne in Hq by done. apply (list_exclusive new Ho q (proTxHash d) _ Hne Hq). by rewrite (keys_at_Some _ _ _ Hd).
    - exists new. split_and!; [done|done|done|]. intros q Hq. unfold keys_at in Hq.
      destruct (mnMap new !! q) as [e|] eqn:He; [|by apply elem_of_nil in Hq]. destruct (mns_ok new Ho q e He) as (Hqe & _ & _). subst q.
      assert (GetUniquePropertyMN new c = Some e) as Ge by (by apply GetUniquePropertyMN_spec). congruence. }
  exists new1. split_and!; [done..|]. intros q d Hd Hcd. destruct (mnMap new1 !! q) as [e|] eqn:He; [|done]. exfalso.
  destruct (ev_registration _ _ (inv_evolves _ _ _ Hi1) q d e Hd He) as [Hce _]. apply (Hfree q).
  rewrite (keys_at_Some _ _ _ He). unfold property_keys. apply elem_of_app. left. rewrite Hce, Hcd. unfold hash_of.
  rewrite bool_decide_false by done. by left.
Qed.

Lemma add_proceeds from A new d : inv from A new -> mnMap from !! proTxHash d = None -> mnMap new !! proTxHash d = None ->
  mn_ok (proTxHash d) d -> newcomer from new (proTxHash d) (property_keys d) -> free_for (mnMap new) (proTxHash d) (property_keys d) ->
  map (pair (proTxHash d)) (property_keys d) ⊆ A -> proceeds from A (asserted (AddMN new d)).
Proof.
  intros Hi Hf Hn Hok Hnew Hfree HA. pose proof (ev_ok _ _ (inv_evolves _ _ _ Hi)) as Ho.
  pose proof (AddMN_cases new d Ho) as Hc. destruct (AddMN new d) as [new'|]; cbn.
  - destruct Hc as (_ & Ho' & Hm & Hh). destruct Hi as [He Hk Hd]. split; [by eapply evolves_add| |].
    + intros q h Hin. rewrite Hm, keys_at_insert in Hin. destruct (decide (q = proTxHash d)) as [->|Hq].
      * rewrite with_keys_eq in Hin. right. apply HA. apply list_elem_of_fmap. by exists h.
      * rewrite with_keys_ne in Hin by done. by apply Hk.
    + intros q [x Hq]. rewrite Hm in Hq. destruct (decide (q = proTxHash d)) as [->|Hne].
      * right. destruct Hok as (_ & _ & Howner). apply list_elem_of_fmap. exists (proTxHash d, SerializeHash (keyIDOwner (pdmnState d))).
        split; [done|]. apply HA. apply list_elem_of_fmap. eexists. split; [done|]. unfold property_keys, state_keys.
        apply elem_of_app; right. apply elem_of_app; right. apply elem_of_app; left. unfold hash_of. rewrite bool_decide_false by done. by left.
      * rewrite lookup_insert_ne in Hq by done. by apply Hd.
  - destruct Hc as [[x Hx]|[Hc|(q & h & Hh & Hq & Hin)]]; [congruence|done|]. by apply (Hfree q h).
Qed.

Lemma register_step from A new tx ptx outpoint h (c := register_collateral tx ptx) : list_ok from -> inv from A new ->
  registration_passed RecoverCompact node tx from ptx outpoint -> mnMap from !! tx_hash tx = None -> mnMap new !! tx_hash tx = None ->
  c <> COutPoint_null -> (forall p d, mnMap from !! p = Some d -> SerializeHash c ∈ property_keys d -> collateralOutpoint d = c) ->
  map (pair (tx_hash tx)) (hash_of c ++ hash_of (CProRegTx.addr ptx) ++ hash_of (CProRegTx.keyIDOwner ptx) ++ hash_of (CProRegTx.pubKeyOperator ptx)) ⊆ A ->
  proceeds from A (ProcessRegister node h new tx).
Proof.
  intros Hf Hi Hp Hfn Hnn Hc Hdist HA. unfold ProcessRegister. rewrite (reg_payload _ _ _ _ _ _ Hp). cbn [asserted rbind]. cbn zeta. fold (register_collateral tx ptx). fold c.
  destruct (_ || _); [done|]. destruct (collateral_phase from A new c Hi Hc) as (new1 & E & Hi1 & Hn1 & Hfree & Hgone).
  match goal with |- context [rbind ?m _] => replace m with (@Ok failure _ new1) by (symmetry; exact E) end. cbn [rbind]. clear E.
  pose proof (ev_ok _ _ (inv_evolves _ _ _ Hi1)) as Ho1.
  destruct (HasUniqueProperty new1 (CProRegTx.addr ptx)) eqn:Ea; [done|].
  destruct (HasUniqueProperty new1 (CProRegTx.keyIDOwner ptx)) eqn:Eo; [done|]. destruct (HasUniqueProperty new1 (CProRegTx.pubKeyOperator ptx)) eqn:Ek; [done|]. cbn [orb].
  set (d := Build_CDeterministicMN _ _ _ _).
  assert (property_keys d = hash_of c ++ hash_of (CProRegTx.addr ptx) ++ hash_of (CProRegTx.keyIDOwner ptx) ++ hash_of (CProRegTx.pubKeyOperator ptx)) as Hkeys
    by (unfold d, property_keys, state_keys; cbn; by case_bool_decide).
  apply add_proceeds; [done|done|by apply Hn1| | | |by rewrite Hkeys].
  - destruct (reg_keys _ _ _ _ _ _ Hp) as [Hok _]. split_and!; [done|done|]. intros Heq.
    assert (CProRegTx.keyIDOwner ptx = CKeyID_null) as E by (rewrite <- Heq; unfold d; cbn; by case_bool_decide). by rewrite E in Hok.
  - rewrite Hkeys. intros q k Hq Hk Hin. apply elem_of_app in Hk as [Hk|Hk]; [|apply elem_of_app in Hk as [Hk|Hk]].
    + apply hash_of_elem in Hk as ->. unfold keys_at in Hin. destruct (mnMap from !! q) as [e|] eqn:He; [|by apply elem_of_nil in Hin].
      apply (Hgone q e He). by apply (Hdist q e).
    + apply hash_of_elem in Hk as ->. unfold keys_at in Hin. destruct (mnMap from !! q) as [e|] eqn:He; [|by apply elem_of_nil in Hin].
      destruct (mns_ok from Hf q e He) as (Hqe & _ & _). subst q.
      assert (GetUniquePropertyMN from (CProRegTx.addr ptx) = Some e) as Ge by (by apply GetUniquePropertyMN_spec).
      destruct (reg_addr_free _ _ _ _ _ _ Hp) as (x & Hx & Hcx); [apply HasUniqueProperty_spec; [done|by exists e]|]. assert (x = e) as -> by congruence.
      apply (Hgone _ e He). destruct (reg_collateral _ _ _ _ _ _ Hp) as (dest & key & Ec & _). by rewrite Hcx, (CheckCollateral_outpoint _ _ _ _ _ _ Ec).
    + destruct (reg_keys_free _ _ _ _ _ _ Hp) as [F1 F2]. apply elem_of_app in Hk as [Hk|Hk].
      * by apply (newcomer_unused from new1 (tx_hash tx) (CProRegTx.keyIDOwner ptx) Hf F1 q k).
      * by apply (newcomer_unused from new1 (tx_hash tx) (CProRegTx.pubKeyOperator ptx) Hf F2 q k).
  - rewrite Hkeys. intros q k Hk Hq. apply elem_of_app in Hk as [Hk|Hk]; [apply hash_of_elem in Hk as ->; apply Hfree|].
    apply elem_of_app in Hk as [Hk|Hk]; [by apply (HasUniqueProperty_free new1 (CProRegTx.addr ptx) (tx_hash tx))|].
    apply elem_of_app in Hk as [Hk|Hk]; [by apply (HasUniqueProperty_free new1 (CProRegTx.keyIDOwner ptx) (tx_hash tx))|].
    by apply (HasUniqueProperty_free new1 (CProRegTx.pubKeyOperator ptx) (tx_hash tx)).
Qed.
End Transactions.

(** ** A whole block *)

Section Block.
Context `{BLSCurve}.
Context (RecoverCompact : list Z -> list Z -> option (list Z)) (llmqs : Llmqs) (node : NodeState) (nMasternodeMinimumConfirmations : Z).
Implicit Types (from new : CDeterministicMNList) (tx : CTransaction) (A : list (list Z * list Z)).

(** A transaction passed its check against the list of the previous block. *)
Definition tx_checked from tx : Prop :=
  nVersion (tx_data tx) = 3 ->
  (nType (tx_data tx) = TRANSACTION_PROVIDER_REGISTER -> exists ptx outpoint, registration_passed RecoverCompact node tx from ptx outpoint) /\
  (nType (tx_data tx) = TRANSACTION_PROVIDER_UPDATE_SERVICE -> exists ptx, service_passed node tx from ptx) /\
  (nType (tx_data tx) = TRANSACTION_PROVIDER_UPDATE_REGISTRAR -> exists ptx, registrar_passed RecoverCompact tx from ptx) /\
  (nType (tx_data tx) = TRANSACTION_PROVIDER_UPDATE_REVOKE -> exists ptx, revocation_passed tx from ptx) /\
  (nType (tx_data tx) = TRANSACTION_QUORUM_COMMITMENT -> exists qc, GetTxPayload CFinalCommitmentTxPayload (vExtraPayload (tx_data tx)) = Some qc /\
     (IsNull (commitment qc) = false -> exists params, llmqs_at llmqs (llmqType (commitment qc)) = Some params /\
        length (validMembers (commitment qc)) = llmq_size params)).

Definition keys_of (txs : list CTransaction) : list (list Z * list Z) := concat (map tx_keys txs).

(** The transactions of a block after the coinbase: each passed its check; their hashes
    are new; a collateral hashes like no other property; and an operator key that a
    registrar update sets is given to no other masternode by the block. *)
Record block_valid from (txs : list CTransaction) : Prop := {
  bv_checked : forall tx, tx ∈ txs -> tx_checked from tx;
  bv_fresh : forall tx, tx ∈ txs -> mnMap from !! tx_hash tx = None /\ uint256_IsNull (tx_hash tx) = false;
  bv_distinct : NoDup (map tx_hash txs);
  bv_collateral : forall tx ptx p d, tx ∈ txs -> GetTxPayload CProRegTx.t (vExtraPayload (tx_data tx)) = Some ptx ->
    mnMap from !! p = Some d -> SerializeHash (register_collateral tx ptx) ∈ property_keys d -> collateralOutpoint d = register_collateral tx ptx;
  bv_operators : forall tx ptx q h, tx ∈ txs -> nVersion (tx_data tx) = 3 -> nType (tx_data tx) = TRANSACTION_PROVIDER_UPDATE_REGISTRAR ->
    GetTxPayload CProUpRegTx.t (vExtraPayload (tx_data tx)) = Some ptx ->
    (q, h) ∈ keys_of txs -> h ∈ hash_of (CProUpRegTx.pubKeyOperator ptx) -> q = CProUpRegTx.proTxHash ptx;
}.

Lemma punish_step from A new qc dmn i : inv from A new -> (i < length (validMembers qc))%nat ->
  exists new', punish_member qc (Some new) (dmn, i) = Some new' /\ inv from A new'.
Proof.
  intros Hi Hlt. pose proof (ev_ok _ _ (inv_evolves _ _ _ Hi)) as Ho. unfold punish_member. cbn [mbind option_bind].
  unfold HasMN, GetMN. destruct (mnMap new !! proTxHash dmn) as [d|] eqn:Hd; [|rewrite bool_decide_false by (by intros []); by exists new].
  rewrite bool_decide_true by done. cbn [negb]. destruct (lookup_lt_is_Some_2 _ _ Hlt) as [v Hv]. rewrite Hv. cbn [mbind option_bind].
  destruct v; cbn [negb]; [by exists new|]. unfold CalcPenalty. rewrite (proj2 (Z.ltb_lt 0 66)) by lia. cbn [mbind option_bind].
  assert (0 < Z.quot (CalcMaxPoSePenalty new * 66) 100) as Hpos by (apply Z.quot_str_pos; unfold CalcMaxPoSePenalty; lia).
  destruct (PoSePunish_ok new (proTxHash dmn) d _ Ho Hd Hpos) as (new' & -> & Ho' & Hh & Hm). exists new'. split; [done|].
  eapply (inv_update from A new new' (proTxHash dmn) d _ []); [done..| | |apply list_subseteq_nil].
  - intros h Hin. left. unfold property_keys. apply elem_of_app. right. revert Hin. unfold punished. by case_match.
  - intros q h _ Hin. by apply elem_of_nil in Hin.
Qed.

Lemma length_CalculateQuorum l maxSize modifier : (length (CalculateQuorum l maxSize modifier) <= maxSize)%nat.
Proof. rewrite quorum_ranking, length_take. lia. Qed.

Lemma punish_all from A qc ms new : inv from A new -> (forall x, x ∈ ms -> (snd x < length (validMembers qc))%nat) ->
  exists new', fold_left (punish_member qc) ms (Some new) = Some new' /\ inv from A new'.
Proof.
  revert new. induction ms as [|[dmn i] ms IH]; intros new Hi Hlt; [by exists new|]. cbn [fold_left].
  destruct (punish_step from A new qc dmn i Hi) as (new1 & -> & Hi1); [apply (Hlt (dmn, i)); by left|].
  apply IH; [done|]. intros x Hx. apply Hlt. by right.
Qed.

Lemma commitment_step from A new tx qc params (fetch : list Z -> option CDeterministicMNList) : inv from A new ->
  GetTxPayload CFinalCommitmentTxPayload (vExtraPayload (tx_data tx)) = Some qc ->
  (IsNull (commitment qc) = false -> llmqs_at llmqs (llmqType (commitment qc)) = Some params /\
     length (validMembers (commitment qc)) = llmq_size params) ->
  is_Some (fetch (quorumHash (commitment qc))) -> proceeds from A (ProcessCommitmentTx llmqs fetch new tx).
Proof.
  intros Hi Ep Hv [l El]. unfold ProcessCommitmentTx. rewrite Ep. cbn [asserted rbind].
  destruct (IsNull (commitment qc)) eqn:En; cbn [negb]; [done|]. destruct (Hv eq_refl) as [Eparams Hlen].
  rewrite El. cbn [asserted rbind]. unfold HandleQuorumCommitment, GetAllQuorumMembers. rewrite Eparams. cbn [mbind option_bind].
  set (members := CalculateQuorum _ _ _).
  destruct (punish_all from A (commitment qc) (combine members (seq 0 (length members))) new Hi) as (new' & -> & Hi'); [|done].
  intros [d i] Hin%list_elem_of_In. apply in_combine_r, in_seq in Hin. cbn.
  pose proof (length_CalculateQuorum l (llmq_size params) (CHashWriter_GetHash [ser_writedata8 (llmqType (commitment qc)); uint256_Serialize (quorumHash (commitment qc))])) as Hle.
  fold members in Hle. lia.
Qed.

Lemma keys_of_snoc done tx : keys_of (done ++ [tx]) = keys_of done ++ tx_keys tx.
Proof. unfold keys_of. rewrite map_app, concat_app. cbn. by rewrite app_nil_r. Qed.
Lemma proceeds_weaken from A A' m : proceeds from A m -> A ⊆ A' -> proceeds from A' m.
Proof. destruct m as [new|e]; [|done]. intros Hi Hs. by eapply inv_weaken. Qed.

(** Unfolds the keys of a transaction of a known type. *)
Ltac known_type Hv Ht Hp := unfold tx_keys; rewrite Hv, Ht, Hp; cbn -[hash_of map].

(** A masternode the block added was registered by it. *)
Lemma added_by from txs tx : (forall tx', tx' ∈ txs -> tx_checked from tx') -> (forall tx', tx' ∈ txs -> tx_hash tx' <> tx_hash tx) ->
  mnMap from !! tx_hash tx = None -> tx_hash tx ∉ (keys_of txs).*1.
Proof.
  intros Hb Hne Hnone Hin. apply list_elem_of_fmap in Hin as ([q h] & Eq & Hin). cbn in Eq. subst q.
  unfold keys_of in Hin. apply list_elem_of_In, in_concat in Hin as (ks & Hks & Hin). apply in_map_iff in Hks as (tx' & <- & Htx').
  apply list_elem_of_In in Htx'. apply list_elem_of_In in Hin.
  unfold tx_keys in Hin. destruct (Z.eqb_spec (nVersion (tx_data tx')) 3) as [Hv|]; cbn [negb] in Hin; [|by apply elem_of_nil in Hin].
  destruct (Hb tx' Htx' Hv) as (_ & C2 & C3 & _).
  destruct (Z.eqb_spec (nType (tx_data tx')) TRANSACTION_PROVIDER_REGISTER); [|destruct (Z.eqb_spec (nType (tx_data tx')) TRANSACTION_PROVIDER_UPDATE_SERVICE) as [Ht|]; [|destruct (Z.eqb_spec (nType (tx_data tx')) TRANSACTION_PROVIDER_UPDATE_REGISTRAR) as [Ht|]; [|by apply elem_of_nil in Hin]]].
  - destruct (GetTxPayload _ _); [|by apply elem_of_nil in Hin]. apply list_elem_of_fmap in Hin as (k & Hk & _). injection Hk as Hk _. by apply (Hne tx').
  - destruct (C2 Ht) as (ptx & Hp). rewrite (serv_payload _ _ _ _ Hp) in Hin. apply list_elem_of_fmap in Hin as (k & Hk & _). injection Hk as Hk _.
    destruct (serv_sig _ _ _ _ Hp) as (mn & Hmn & _). unfold GetMN in Hmn. congruence.
  - destruct (C3 Ht) as (ptx & Hp). rewrite (upreg_payload _ _ _ _ Hp) in Hin. apply list_elem_of_fmap in Hin as (k & Hk & _). injection Hk as Hk _.
    destruct (upreg_sig _ _ _ _ Hp) as (mn & Hmn & _). unfold GetMN in Hmn. congruence.
Qed.

Lemma hash_of_null {T} `{UniqueProperty T} (v : T) : v = nullValue -> hash_of v = [].
Proof. intros E. unfold hash_of. by rewrite bool_decide_true. Qed.

Lemma tx_step from txs done tx rest new h (fetch : list Z -> option CDeterministicMNList) : list_ok from -> block_valid from txs -> txs = done ++ tx :: rest ->
  inv from (keys_of done) new -> (forall q, is_Some (fetch q)) -> proceeds from (keys_of (done ++ [tx])) (ProcessTx llmqs node fetch h new tx).
Proof.
  intros Hf Hb Htxs Hi Hfetch. assert (tx ∈ txs) as Hin by (rewrite Htxs; apply elem_of_app; right; by left).
  assert (keys_of done ⊆ keys_of (done ++ [tx])) as Hsub by (rewrite keys_of_snoc; by apply list_subseteq_app_l).
  assert (tx_keys tx ⊆ keys_of (done ++ [tx])) as Hsub' by (rewrite keys_of_snoc; by apply list_subseteq_app_r).
  pose proof (inv_weaken _ _ _ _ Hi Hsub) as Hi'. destruct (bv_fresh _ _ Hb tx Hin) as [Hfresh Hnull].
  unfold ProcessTx. destruct (Z.eqb_spec (nVersion (tx_data tx)) 3) as [Hv|]; cbn [negb]; [|done].
  destruct (bv_checked _ _ Hb tx Hin Hv) as (C1 & C2 & C3 & C4 & C5).
  destruct (Z.eqb_spec (nType (tx_data tx)) TRANSACTION_PROVIDER_REGISTER) as [Ht|_].
  { destruct (C1 Ht) as (ptx & outpoint & Hp). pose proof (reg_payload _ _ _ _ _ _ Hp) as Epay.
    apply (register_step RecoverCompact node from _ new tx ptx outpoint); try done.
    - destruct (mnMap new !! tx_hash tx) eqn:E; [|done]. exfalso.
      destruct (inv_known _ _ _ Hi (tx_hash tx)) as [[x Hx]|Hx]; [by eexists|congruence|].
      apply (added_by from done tx); try done.
      + intros tx' Htx'. apply (bv_checked _ _ Hb). rewrite Htxs. apply elem_of_app. by left.
      + intros tx' Htx' E'. pose proof (bv_distinct _ _ Hb) as Hnd. rewrite Htxs, map_app in Hnd. cbn in Hnd. apply NoDup_app in Hnd as (_ & Hnd & _).
        apply (Hnd (tx_hash tx)); [|by left]. rewrite <- E'. apply list_elem_of_fmap. by exists tx'.
    - unfold register_collateral. destruct (uint256_IsNull (op_hash _)) eqn:E; intros Heq; [apply (f_equal op_hash) in Heq; cbn in Heq; by rewrite Heq in Hnull|by rewrite Heq in E].
    - intros p d Hd Hk. by apply (bv_collateral _ _ Hb tx ptx p d).
    - revert Hsub'. known_type Hv Ht Epay. done. }
  destruct (Z.eqb_spec (nType (tx_data tx)) TRANSACTION_PROVIDER_UPDATE_SERVICE) as [Ht|_].
  { destruct (C2 Ht) as (ptx & Hp). pose proof (serv_payload _ _ _ _ Hp) as Epay.
    apply (service_step node from _ new tx ptx); try done. revert Hsub'. known_type Hv Ht Epay. done. }
  destruct (Z.eqb_spec (nType (tx_data tx)) TRANSACTION_PROVIDER_UPDATE_REGISTRAR) as [Ht|_].
  { destruct (C3 Ht) as (ptx & Hp). pose proof (upreg_payload _ _ _ _ Hp) as Epay.
    apply (registrar_step RecoverCompact from _ new tx ptx); try done; [revert Hsub'; known_type Hv Ht Epay; done|].
    intros q k Hk Hq Hnew. destruct (inv_keys _ _ _ Hi q k Hnew) as [Hfr|Hdone].
    - pose proof (newcomer_own from from (CProUpRegTx.proTxHash ptx) (CProUpRegTx.pubKeyOperator ptx) Hf (upreg_operator_free _ _ _ _ Hp) q k Hq Hk Hfr) as E.
      unfold keys_at in Hfr. rewrite E in Hfr. by apply elem_of_nil in Hfr.
    - apply Hq. apply (bv_operators _ _ Hb tx ptx q k Hin Hv Ht Epay); [|done]. rewrite Htxs. unfold keys_of in *. rewrite map_app, concat_app. apply elem_of_app. by left. }
  destruct (Z.eqb_spec (nType (tx_data tx)) TRANSACTION_PROVIDER_UPDATE_REVOKE) as [Ht|_].
  { destruct (C4 Ht) as (ptx & Hp). by apply (revoke_step from _ new tx ptx). }
  destruct (Z.eqb_spec (nType (tx_data tx)) TRANSACTION_QUORUM_COMMITMENT) as [Ht|_]; [|done].
  destruct (C5 Ht) as (qc & Epay & Hqc). destruct (IsNull (commitment qc)) eqn:En.
  - unfold ProcessCommitmentTx. rewrite Epay. cbn [asserted rbind]. by rewrite En.
  - destruct (Hqc eq_refl) as (params & Hparams & Hlen). by apply (commitment_step from _ new tx qc params).
Qed.

(** ** Opening and closing a block *)

Lemma inv_same_keys from A new new' : inv from A new -> list_ok new' -> same_header new new' ->
  (forall p, match mnMap new !! p with
             | Some d => exists s, mnMap new' !! p = Some (set_pdmnState d s) /\ state_keys s = state_keys (pdmnState d)
             | None => mnMap new' !! p = None
             end) -> inv from A new'.
Proof.
  intros [[Ho Hh Hr Hv] Hk Hd] Ho' Hh' Hm.
  assert (forall q, keys_at (mnMap new') q = keys_at (mnMap new) q) as Hkeys.
  { intros q. unfold keys_at. specialize (Hm q). destruct (mnMap new !! q) as [d|]; [|by rewrite Hm].
    destruct Hm as (s & -> & Hs). unfold property_keys. cbn. by rewrite Hs. }
  assert (forall q, mnMap new !! q = None -> mnMap new' !! q = None) as Hnone.
  { intros q Hq. specialize (Hm q). by rewrite Hq in Hm. }
  split; [split; [done|by eapply header_trans| |]| |].
  - intros p d e Hd' He. specialize (Hm p). destruct (mnMap new !! p) as [x|] eqn:Hx; [|congruence].
    destruct Hm as (s & Hs & _). rewrite Hs in He. injection He as <-. cbn. by apply (Hr p).
  - intros p q h Hpq Hp Hq. rewrite Hkeys in Hq. apply Hnone. by apply (Hv p q h).
  - intros q h Hq. rewrite Hkeys in Hq. by apply Hk.
  - intros q [x Hq]. apply Hd. destruct (mnMap new !! q) eqn:E; [by eexists|]. rewrite (Hnone q E) in Hq. done.
Qed.

Lemma confirm_all from A prevHash prevHeight dmns new : inv from A new -> NoDup (map proTxHash dmns) ->
  (forall d, d ∈ dmns -> mnMap new !! proTxHash d = Some d) ->
  exists new', fold_left (confirm nMasternodeMinimumConfirmations prevHash prevHeight) dmns (Some new) = Some new' /\ inv from A new'.
Proof.
  revert new. induction dmns as [|d dmns IH]; intros new Hi Hnd Hin; [by exists new|]. cbn [fold_left confirm mbind option_bind].
  cbn in Hnd. apply NoDup_cons in Hnd as [Hd Hnd].
  destruct (negb _); [apply IH; [done..|]; intros e He; apply Hin; by right|].
  destruct (_ <=? _); [|apply IH; [done..|]; intros e He; apply Hin; by right].
  destruct (UpdateMN_keep new (proTxHash d) d (UpdateConfirmedHash (pdmnState d) (proTxHash d) prevHash) (ev_ok _ _ (inv_evolves _ _ _ Hi)) (Hin d ltac:(by left)))
    as (new1 & -> & Ho1 & Hm1 & Hh1); [done..|].
  apply IH; [|done|].
  - apply (inv_same_keys from A new); [done..|]. intros p. rewrite Hm1. destruct (decide (p = proTxHash d)) as [->|Hp].
    + rewrite (Hin d ltac:(by left)), lookup_insert_eq. by eexists.
    + rewrite lookup_insert_ne by done. destruct (mnMap new !! p) as [x|]; [|done]. exists (pdmnState x). by destruct x.
  - intros e He. rewrite Hm1. rewrite lookup_insert_ne; [apply Hin; by right|]. intros E. apply Hd. rewrite E. apply list_elem_of_fmap. by exists e.
Qed.

Lemma open_block_ok from prevHash prevHeight : list_ok from -> MasternodeList.nHeight from = prevHeight ->
  exists new, open_block nMasternodeMinimumConfirmations from prevHash prevHeight = Some new /\ inv from [] new.
Proof.
  intros Hf Hh. unfold open_block. set (start := SetHeight _ _).
  assert (inv from [] start) as Hi.
  { split; [unfold start; rewrite <- Hh; by apply evolves_start|intros q h Hq; by left|intros q Hq; by left]. }
  destruct (confirm_all from [] prevHash prevHeight (ForEachMN from false) start Hi) as (new & -> & Hi1).
  - apply NoDup_all, Hf.
  - intros d Hd. apply elem_of_all in Hd; [done|apply Hf].
  - cbn [mbind option_bind]. destruct (DecreasePoSePenalties_ok new (ev_ok _ _ (inv_evolves _ _ _ Hi1))) as (new' & -> & Ho' & Hh' & Hm').
    exists new'. split; [done|]. apply (inv_same_keys from [] new); [done..|]. intros p. rewrite Hm', lookup_fmap.
    destruct (mnMap new !! p) as [d|]; [|done]. exists (recovered (pdmnState d)). split; [done|]. unfold recovered. by case_match.
Qed.

Lemma spend_all from A ins new : inv from A new -> exists new', fold_left spend_collateral ins (Some new) = Some new' /\ inv from A new'.
Proof.
  revert new. induction ins as [|i ins IH]; intros new Hi; [by exists new|]. cbn [fold_left spend_collateral mbind option_bind].
  unfold GetMNByCollateral. destruct (GetUniquePropertyMN new (prevout i)) as [d|] eqn:Ed; [|by apply IH]. case_bool_decide; [|by apply IH].
  pose proof (ev_ok _ _ (inv_evolves _ _ _ Hi)) as Ho. apply (GetUniquePropertyMN_spec new (prevout i) d Ho) in Ed as [Hd _].
  pose proof (RemoveMN_cases new (proTxHash d) Ho) as Hr. destruct (RemoveMN new (proTxHash d)) as [new1|]; [|congruence].
  destruct Hr as (_ & Ho1 & Hm & Hh). apply IH. by eapply inv_remove.
Qed.

Lemma close_block_ok from A old h txs new : inv from A new -> exists new', close_block old h txs new = Some new' /\ inv from A new'.
Proof.
  intros Hi. unfold close_block. destruct (spend_all from A (concat (map (fun tx => vin (tx_data tx)) txs)) new Hi) as (new1 & -> & Hi1). cbn [mbind option_bind].
  unfold pay. destruct (GetMNPayee old) as [payee|]; [|by exists new1]. destruct (GetMN new1 (proTxHash payee)) as [d|] eqn:Ed; [|by exists new1].
  pose proof (keep_proceeds from A new1 (proTxHash payee) d (set_nLastPaidHeight (pdmnState d) h) Hi1 Ed eq_refl eq_refl) as Hp.
  destruct (UpdateMN _ _ _) as [new2|]; [by exists new2|done].
Qed.

(** ** The theorem's core *)

Context (evo : EvoStore) (P : CDeterministicMNManager -> Prop).
Context (Hget : forall m h, P m -> exists l m', GetListForBlock evo m h = Some (l, m') /\ P m').

Lemma txs_proceed from txs rest : forall done new m h, list_ok from -> block_valid from txs -> txs = done ++ rest -> P m -> inv from (keys_of done) new ->
  let '(r, m') := ProcessTxs llmqs node evo m h new rest in proceeds from (keys_of txs) r /\ P m'.
Proof.
  induction rest as [|tx rest IH]; intros done new m h Hf Hb Htxs Hm Hi; cbn [ProcessTxs].
  { rewrite app_nil_r in Htxs. by subst. }
  set (fetch := fun q => option_map fst (GetListForBlock evo m q)).
  assert (forall q, is_Some (fetch q)) as Hfetch.
  { intros q. unfold fetch. destruct (Hget m q Hm) as (l & m' & -> & _). by eexists. }
  match goal with |- context [match ProcessTx _ _ fetch h new tx with Ok _ => ProcessTxs _ _ _ ?m1 _ _ _ | Throw _ => _ end] => assert (P m1) as Hm1 end.
  { destruct (commitment_query tx) as [q|]; [|done]. by destruct (Hget m q Hm) as (l & m' & -> & Hm'). }
  pose proof (tx_step from txs done tx rest new h fetch Hf Hb Htxs Hi Hfetch) as Hstep.
  destruct (ProcessTx llmqs node fetch h new tx) as [new1|e]; cbn in Hstep.
  - apply (IH (done ++ [tx])); [done..|by rewrite <- app_assoc|done|done].
  - split; [|done]. exact Hstep.
Qed.

Lemma build_proceeds old from m m1 block prevHash prevHeight : list_ok from -> from = SetHeight old prevHeight ->
  block_valid from (drop 1 (vtx block)) -> GetListForBlock evo m prevHash = Some (old, m1) -> P m1 ->
  let '(r, m') := BuildNewListFromBlock llmqs node nMasternodeMinimumConfirmations evo m block prevHash prevHeight in
  proceeds from (keys_of (drop 1 (vtx block))) r /\ P m'.
Proof.
  intros Hf -> Hb Hg Hm. unfold BuildNewListFromBlock. rewrite Hg. set (from := SetHeight old prevHeight) in *.
  change (open_block nMasternodeMinimumConfirmations old prevHash prevHeight) with (open_block nMasternodeMinimumConfirmations from prevHash prevHeight).
  destruct (open_block_ok from prevHash prevHeight Hf eq_refl) as (new & -> & Hi).
  pose proof (txs_proceed from (drop 1 (vtx block)) (drop 1 (vtx block)) [] new m1 (prevHeight + 1) Hf Hb eq_refl Hm Hi) as Hp.
  destruct (ProcessTxs _ _ _ _ _ _ _) as [r m']. destruct Hp as [Hp Hm']. split; [|done].
  destruct r as [new1|e]; [|exact Hp]. cbn [rbind].
  change (close_block old) with (close_block from).
  destruct (close_block_ok from _ from (prevHeight + 1) (drop 1 (vtx block)) new1 Hp) as (new2 & -> & Hi2). exact Hi2.
Qed.
End Block.

(** ** The lists of past blocks *)

Section History.
Context `{BLSCurve}.
Implicit Types (hist : list CDeterministicMNList) (evo : EvoStore) (m : CDeterministicMNManager).

(** The specification: the lists that were built, the newest first; of any other block
    the empty list, at no height. *)
Definition spec_list hist (h : list Z) : CDeterministicMNList :=
  default (CDeterministicMNList_new h (-1)) (List.find (fun l => bool_decide (blockHash l = h)) hist).

Record hist_ok hist : Prop := {
  ho_distinct : NoDup (map blockHash hist);
  ho_lists : forall l, l ∈ hist -> list_ok l /\ 0 <= MasternodeList.nHeight l;
  ho_next : forall newer l older rest, hist = newer ++ l :: older :: rest -> successive older l;
}.
(** What the database holds of them. *)
Record stored evo hist : Prop := {
  st_diff : forall newer l older rest, hist = newer ++ l :: older :: rest -> ReadDiff evo (blockHash l) = Some (BuildDiff older l);
  st_snapshot : forall newer l rest, hist = newer ++ l :: rest ->
    match ReadSnapshot evo (blockHash l) with Some s => s = l | None => rest <> [] /\ Z.rem (MasternodeList.nHeight l) SNAPSHOT_LIST_PERIOD <> 0 end;
  st_none : forall h, h ∉ map blockHash hist -> ReadSnapshot evo h = None /\ ReadDiff evo h = None;
}.
Definition cache_ok hist (cache : gmap (list Z) CDeterministicMNList) : Prop := forall h l, cache !! h = Some l -> l = spec_list hist h.

Lemma spec_list_in hist l : NoDup (map blockHash hist) -> l ∈ hist -> spec_list hist (blockHash l) = l.
Proof.
  unfold spec_list. induction hist as [|x hist IH]; [by intros _ ?%elem_of_nil|]. cbn. intros [Hx Hnd]%NoDup_cons Hin.
  case_bool_decide as E; cbn [default from_option]; apply elem_of_cons in Hin as [->|Hin]; try done; [|by apply IH].
  destruct Hx. rewrite E. apply list_elem_of_fmap. by exists l.
Qed.
Lemma spec_list_out hist h : h ∉ map blockHash hist -> spec_list hist h = CDeterministicMNList_new h (-1).
Proof.
  unfold spec_list. induction hist as [|x hist IH]; [done|]. cbn. intros [Hx Hh]%not_elem_of_cons. rewrite bool_decide_false by done. by apply IH.
Qed.
Lemma spec_list_cons l hist h : h <> blockHash l -> spec_list (l :: hist) h = spec_list hist h.
Proof. intros Hh. unfold spec_list. cbn. by rewrite bool_decide_false. Qed.

Lemma apply_diffs_app s ds1 ds2 : apply_diffs s (ds1 ++ ds2) = s' ← apply_diffs s ds1; apply_diffs s' ds2.
Proof.
  revert s. induction ds1 as [|d ds1 IH]; intros s; [done|]. cbn [app apply_diffs].
  destruct (if HasChanges d then _ else _) as [s'|]; [|done]. cbn [mbind option_bind]. apply IH.
Qed.

(** The step of the loop over the differences, also for one without changes. *)
Lemma apply_one older l : list_ok older -> list_ok l -> successive older l -> apply_diffs older [BuildDiff older l] = Some l.
Proof.
  intros Ho Hl Hs. cbn [apply_diffs]. pose proof (ApplyDiff_BuildDiff older l Ho Hl Hs) as Ha.
  destruct (HasChanges (BuildDiff older l)) eqn:Hc; [by rewrite Ha|]. cbn [mbind option_bind]. rewrite <- Ha.
  unfold HasChanges in Hc. apply orb_false_iff in Hc as [[Hc1 Hc2]%orb_false_iff Hc3]. rewrite negb_false_iff in Hc1, Hc2, Hc3.
  apply bool_decide_eq_true in Hc1, Hc2, Hc3. unfold ApplyDiff.
  change (diff_prevBlockHash (BuildDiff older l)) with (blockHash older). change (diff_nHeight (BuildDiff older l)) with (MasternodeList.nHeight l).
  rewrite bool_decide_true, <- (next_height older l Hs), Z.eqb_refl by done. cbn [andb]. by rewrite Hc1, Hc2, Hc3.
Qed.

Lemma split_in hist newer l rest : hist = newer ++ l :: rest -> l ∈ hist.
Proof. intros ->. apply elem_of_app. right. by left. Qed.

(** From a block back to a list that is known: as many reads as blocks since the last
    snapshot. *)
Lemma read_back_ok evo hist cache : hist_ok hist -> stored evo hist -> cache_ok hist cache ->
  forall fuel newer l rest acc, hist = newer ++ l :: rest -> (Z.to_nat (Z.rem (MasternodeList.nHeight l) SNAPSHOT_LIST_PERIOD) < fuel)%nat ->
  exists s diffs, read_back fuel evo cache (blockHash l) acc = Some (s, diffs ++ acc) /\ apply_diffs s diffs = Some l.
Proof.
  intros Hh Hs Hc. induction fuel as [|fuel IH]; intros newer l rest acc Hl Hf; [lia|]. cbn [read_back].
  destruct (cache !! blockHash l) as [s|] eqn:Ec.
  { exists s, []. split; [done|]. apply Hc in Ec. rewrite spec_list_in in Ec; [by subst|apply Hh|by eapply split_in]. }
  pose proof (st_snapshot _ _ Hs _ _ _ Hl) as Hsnap. destruct (ReadSnapshot evo (blockHash l)) as [s|].
  { exists s, []. by subst. }
  destruct Hsnap as [Hrest Hrem]. destruct rest as [|older rest]; [done|]. rewrite (st_diff _ _ Hs _ _ _ _ Hl).
  pose proof (ho_next _ Hh _ _ _ _ Hl) as Hnext. destruct (ho_lists _ Hh l ltac:(by eapply split_in)) as [Hok Hpos].
  assert (hist = (newer ++ [l]) ++ older :: rest) as Hl' by (by rewrite <- app_assoc).
  destruct (ho_lists _ Hh older ltac:(by eapply split_in)) as [Hok' Hpos'].
  change (diff_prevBlockHash (BuildDiff older l)) with (blockHash older).
  destruct (IH (newer ++ [l]) older rest (BuildDiff older l :: acc) Hl') as (s & diffs & -> & Ha).
  - pose proof (next_height _ _ Hnext) as Hn. unfold SNAPSHOT_LIST_PERIOD in *. rewrite Z.rem_mod_nonneg in * by lia. dlia.
  - exists s, (diffs ++ [BuildDiff older l]). split; [by rewrite <- app_assoc|]. rewrite apply_diffs_app, Ha. by apply apply_one.
Qed.

Lemma GetListForBlock_ok evo hist m h : hist_ok hist -> stored evo hist -> cache_ok hist (mnListsCache m) ->
  exists m', GetListForBlock evo m h = Some (spec_list hist h, m') /\ cache_ok hist (mnListsCache m').
Proof.
  intros Hh Hs Hc. unfold GetListForBlock. destruct (mnListsCache m !! h) as [l|] eqn:Ec; [apply Hc in Ec as ->; by exists m|].
  assert (exists s diffs, read_back read_fuel evo (mnListsCache m) h [] = Some (s, diffs) /\ apply_diffs s diffs = Some (spec_list hist h)) as (s & diffs & -> & Ha).
  { destruct (decide (h ∈ map blockHash hist)) as [Hin|Hout].
    - apply list_elem_of_fmap in Hin as (l & -> & Hl). rewrite spec_list_in by (done || apply Hh). apply list_elem_of_split in Hl as (newer & rest & Hl).
      destruct (read_back_ok evo hist _ Hh Hs Hc read_fuel newer l rest [] Hl) as (s & diffs & E & Ha); [|rewrite app_nil_r in E; by exists s, diffs].
      unfold read_fuel. destruct (ho_lists _ Hh l ltac:(by eapply split_in)) as [_ Hpos]. unfold SNAPSHOT_LIST_PERIOD in *. rewrite Z.rem_mod_nonneg by lia. dlia.
    - exists (CDeterministicMNList_new h (-1)), []. rewrite spec_list_out by done. split; [|done].
      change read_fuel with (S 575). cbn [read_back]. rewrite Ec. by destruct (st_none _ _ Hs h Hout) as [-> ->]. }
  cbn [mbind option_bind fst snd]. rewrite Ha. cbn [mbind option_bind]. eexists. split; [done|]. cbn.
  intros q l. destruct (decide (q = h)) as [->|Hq]; [rewrite lookup_insert_eq; congruence|rewrite lookup_insert_ne by done; apply Hc].
Qed.

(** *** Connecting and disconnecting *)

Lemma ReadSnapshot_Write evo k v h : ReadSnapshot (EvoDB_Write evo k v) h =
  if decide (DB_LIST_SNAPSHOT h = k) then match v with VList l => Some l | _ => None end else ReadSnapshot evo h.
Proof. unfold ReadSnapshot. rewrite EvoDB_Read_Write. by case_decide. Qed.
Lemma ReadDiff_Write evo k v h : ReadDiff (EvoDB_Write evo k v) h =
  if decide (DB_LIST_DIFF h = k) then match v with VDiff d => Some d | _ => None end else ReadDiff evo h.
Proof. unfold ReadDiff. rewrite EvoDB_Read_Write. by case_decide. Qed.
Lemma ReadSnapshot_Erase evo k h : ReadSnapshot (EvoDB_Erase evo k) h = if decide (DB_LIST_SNAPSHOT h = k) then None else ReadSnapshot evo h.
Proof. unfold ReadSnapshot. rewrite EvoDB_Read_Erase. by case_decide. Qed.
Lemma ReadDiff_Erase evo k h : ReadDiff (EvoDB_Erase evo k) h = if decide (DB_LIST_DIFF h = k) then None else ReadDiff evo h.
Proof. unfold ReadDiff. rewrite EvoDB_Read_Erase. by case_decide. Qed.

(** The new list fits on the history. *)
Record extends hist (l : CDeterministicMNList) : Prop := {
  ex_new : blockHash l ∉ map blockHash hist;
  ex_ok : list_ok l /\ 0 <= MasternodeList.nHeight l;
  ex_next : forall older rest, hist = older :: rest -> successive older l;
}.

Lemma hist_ok_cons hist l : hist_ok hist -> extends hist l -> hist_ok (l :: hist).
Proof.
  intros [Hd Hl Hn] [He Ho Hs]. split.
  - cbn. by apply NoDup_cons.
  - intros x [->|Hx]%elem_of_cons; [done|by apply Hl].
  - intros [|x newer] y older rest E; cbn in E; injection E as -> E; [by eapply Hs|by eapply Hn].
Qed.

Definition write_list evo (old l : CDeterministicMNList) (snapshot : bool) : EvoStore :=
  let evo := EvoDB_Write evo (DB_LIST_DIFF (blockHash l)) (VDiff (BuildDiff old l)) in
  if snapshot then EvoDB_Write evo (DB_LIST_SNAPSHOT (blockHash l)) (VList l) else evo.

Lemma write_list_reads evo old l snapshot h :
  ReadDiff (write_list evo old l snapshot) h = (if decide (h = blockHash l) then Some (BuildDiff old l) else ReadDiff evo h) /\
  ReadSnapshot (write_list evo old l snapshot) h = (if decide (h = blockHash l) then if snapshot then Some l else ReadSnapshot evo h else ReadSnapshot evo h).
Proof.
  unfold write_list. destruct snapshot; rewrite ?ReadDiff_Write, ?ReadSnapshot_Write, ?ReadDiff_Write;
    destruct (decide (h = blockHash l)) as [->|Hh]; repeat first [rewrite decide_True by done|rewrite decide_False by congruence]; done.
Qed.

Lemma stored_cons evo hist l (old : CDeterministicMNList) (snapshot : bool) : stored evo hist -> NoDup (map blockHash hist) -> extends hist l ->
  (forall older rest, hist = older :: rest -> old = older) ->
  (snapshot = false -> hist <> [] /\ Z.rem (MasternodeList.nHeight l) SNAPSHOT_LIST_PERIOD <> 0) ->
  stored (write_list evo old l snapshot) (l :: hist).
Proof.
  intros [Hd Hs Hn] Hnd [He _ _] Hold Hsnap. destruct (Hn _ He) as [Hn1 Hn2].
  assert (forall x, x ∈ hist -> blockHash x <> blockHash l) as Hne by (intros x Hx E; apply He; apply list_elem_of_fmap; by exists x).
  split.
  - intros [|x newer] y older rest E; cbn in E; injection E as -> E.
    + rewrite (proj1 (write_list_reads _ _ _ _ _)), decide_True by done. by rewrite (Hold _ _ E).
    + rewrite (proj1 (write_list_reads _ _ _ _ _)), decide_False by (apply Hne; by eapply split_in). by eapply Hd.
  - intros [|x newer] y rest E; cbn in E; injection E as -> E.
    + rewrite (proj2 (write_list_reads _ _ _ _ _)), decide_True by done. destruct snapshot; [done|]. rewrite Hn1. rewrite <- E. by apply Hsnap.
    + rewrite (proj2 (write_list_reads _ _ _ _ _)), decide_False by (apply Hne; by eapply split_in). by eapply Hs.
  - intros h Hh. cbn in Hh. apply not_elem_of_cons in Hh as [Hh1 Hh2].
    rewrite (proj1 (write_list_reads _ _ _ _ _)), (proj2 (write_list_reads _ _ _ _ _)), !decide_False by done. by apply Hn.
Qed.

Lemma cache_ok_cleanup hist m h : cache_ok hist (mnListsCache m) -> cache_ok hist (mnListsCache (CleanupCache m h)).
Proof. intros Hc q l Hq. cbn in Hq. apply map_lookup_filter_Some in Hq as [Hq _]. by apply Hc. Qed.
Lemma cache_ok_cons hist l m h : cache_ok hist (mnListsCache m) -> blockHash l ∉ map blockHash hist -> SNAPSHOT_LIST_PERIOD <= h ->
  cache_ok (l :: hist) (mnListsCache (CleanupCache m h)).
Proof.
  intros Hc Hl Hh q x Hq. cbn in Hq. apply map_lookup_filter_Some in Hq as [Hq Hkeep]. apply Hc in Hq.
  destruct (decide (q = blockHash l)) as [->|Hne]; [|by rewrite spec_list_cons].
  exfalso. apply Hkeep. cbn. rewrite Hq, spec_list_out by done. cbn. unfold SNAPSHOT_LIST_PERIOD, LISTS_CACHE_SIZE in *. lia.
Qed.

(** Erasing the newest list. *)
Lemma undo_ok evo m hist l block : hist_ok (l :: hist) -> stored evo (l :: hist) -> cache_ok (l :: hist) (mnListsCache m) ->
  GetHash (bl_header block) = blockHash l ->
  let '(evo', m') := UndoBlock evo m block in hist_ok hist /\ stored evo' hist /\ cache_ok hist (mnListsCache m').
Proof.
  intros [Hd Hl Hn] [Sd Ss Sn] Hc Eh. unfold UndoBlock. rewrite Eh. cbn in Hd. apply NoDup_cons in Hd as [Hnew Hd].
  assert (forall x, x ∈ hist -> blockHash x <> blockHash l) as Hne by (intros x Hx E; apply Hnew; apply list_elem_of_fmap; by exists x).
  assert (forall h, ReadDiff (EvoDB_Erase (EvoDB_Erase evo (DB_LIST_DIFF (blockHash l))) (DB_LIST_SNAPSHOT (blockHash l))) h =
            if decide (h = blockHash l) then None else ReadDiff evo h) as Rd.
  { intros h. rewrite !ReadDiff_Erase. rewrite decide_False by done.
    destruct (decide (h = blockHash l)) as [->|]; [by rewrite decide_True|by rewrite decide_False by congruence]. }
  assert (forall h, ReadSnapshot (EvoDB_Erase (EvoDB_Erase evo (DB_LIST_DIFF (blockHash l))) (DB_LIST_SNAPSHOT (blockHash l))) h =
            if decide (h = blockHash l) then None else ReadSnapshot evo h) as Rs.
  { intros h. rewrite !ReadSnapshot_Erase. rewrite (decide_False (P := DB_LIST_SNAPSHOT h = DB_LIST_DIFF _)) by done.
    destruct (decide (h = blockHash l)) as [->|]; [by rewrite decide_True|by rewrite decide_False by congruence]. }
  split; [split|split; [split|]].
  - done.
  - intros x Hx. apply Hl. by right.
  - intros newer x older rest E. apply (Hn (l :: newer) x older rest). by rewrite E.
  - intros newer x older rest E. rewrite Rd, decide_False by (apply Hne; by eapply split_in). apply (Sd (l :: newer) x older rest). by rewrite E.
  - intros newer x rest E. rewrite Rs, decide_False by (apply Hne; by eapply split_in). apply (Ss (l :: newer) x rest). by rewrite E.
  - intros h Hh. rewrite Rd, Rs. case_decide as E; [done|]. apply Sn. cbn. by apply not_elem_of_cons.
  - intros h x Hx. cbn in Hx. apply lookup_delete_Some in Hx as [Hh Hx]. apply Hc in Hx. by rewrite spec_list_cons in Hx.
Qed.
End History.

(** ** The manager and its history *)

Section Chain.
Context `{BLSCurve}.
Context (RecoverCompact : list Z -> list Z -> option (list Z)) (llmqs : Llmqs) (nMasternodeMinimumConfirmations : Z).
Implicit Types (hist : list CDeterministicMNList) (evo : EvoStore) (m : CDeterministicMNManager) (node : NodeState).

(** A block on the tip of the history.  Blocks below the first snapshot height are left
    out: a question about such a block before it is connected would leave an empty list
    in the cache that the clean-up keeps. *)
Record next_block hist (block : CBlock) (nHeight : Z) (prevHash : list Z) (prevHeight : Z) : Prop := {
  nb_height : nHeight = prevHeight + 1 /\ SNAPSHOT_LIST_PERIOD <= nHeight;
  nb_prev : forall l rest, hist = l :: rest -> blockHash l = prevHash /\ MasternodeList.nHeight l = prevHeight;
  nb_new : GetHash (bl_header block) ∉ map blockHash hist;
}.
(** The list a block is built on. *)
Definition parent_list hist (prevHash : list Z) (prevHeight : Z) : CDeterministicMNList := SetHeight (spec_list hist prevHash) prevHeight.

Lemma parent_ok hist prevHash prevHeight : hist_ok hist -> list_ok (parent_list hist prevHash prevHeight).
Proof.
  intros Hh. assert (list_ok (spec_list hist prevHash)) as [? ?]; [|by split].
  destruct (decide (prevHash ∈ map blockHash hist)) as [Hin|Hout]; [|rewrite spec_list_out by done; apply new_list_ok].
  apply list_elem_of_fmap in Hin as (l & -> & Hl). rewrite spec_list_in by (done || apply Hh). by apply (ho_lists _ Hh).
Qed.
Lemma parent_head hist l rest prevHash prevHeight block h : hist_ok hist -> next_block hist block h prevHash prevHeight -> hist = l :: rest ->
  spec_list hist prevHash = l /\ parent_list hist prevHash prevHeight = l.
Proof.
  intros Hh Hn E. destruct (nb_prev _ _ _ _ _ Hn l rest E) as [<- <-].
  assert (spec_list hist (blockHash l) = l) as Es by (apply spec_list_in; [apply Hh|subst; by left]).
  split; [done|]. unfold parent_list. rewrite Es. by destruct l.
Qed.

Lemma connect_ok evo m hist node block h prevHash prevHeight (from := parent_list hist prevHash prevHeight) :
  hist_ok hist -> stored evo hist -> cache_ok hist (mnListsCache m) -> next_block hist block h prevHash prevHeight ->
  block_valid RecoverCompact llmqs node from (drop 1 (vtx block)) ->
  let '(r, (evo', m')) := ProcessBlock llmqs node nMasternodeMinimumConfirmations evo m block h prevHash prevHeight true in
  cache_ok hist (mnListsCache m') /\
  match r with
  | Ok _ => exists new m1, BuildNewListFromBlock llmqs node nMasternodeMinimumConfirmations evo m block prevHash prevHeight = (Ok new, m1) /\
      let l := SetBlockHash new (GetHash (bl_header block)) in
      extends hist l /\ successive from l /\ stored evo' (l :: hist) /\ cache_ok (l :: hist) (mnListsCache m')
  | Throw (Rejected _) => evo' = evo
  | Throw AssertFails => False
  end.
Proof.
  intros Hh Hs Hc Hn Hb. pose proof (fun m q (Hm : cache_ok hist (mnListsCache m)) => GetListForBlock_ok evo hist m q Hh Hs Hm) as Hget.
  destruct (Hget m prevHash Hc) as (m0 & E0 & Hc0). unfold ProcessBlock. cbn [negb].
  pose proof (build_proceeds RecoverCompact llmqs node nMasternodeMinimumConfirmations evo (fun m => cache_ok hist (mnListsCache m))
    (fun m q Hm => ex_intro _ _ (Hget m q Hm)) (spec_list hist prevHash) from m m0 block prevHash prevHeight (parent_ok hist prevHash prevHeight Hh) eq_refl Hb E0 Hc0) as Hp.
  destruct (BuildNewListFromBlock llmqs node nMasternodeMinimumConfirmations evo m block prevHash prevHeight) as [r m1].
  destruct Hp as [Hp Hc1]. destruct r as [new|[calls|]]; [|by split|done]. cbn in Hp.
  pose proof (inv_evolves _ _ _ Hp) as Hev. pose proof (ev_header _ _ Hev) as [_ Hheight]. destruct (nb_height _ _ _ _ _ Hn) as [Hh1 Hh2].
  change (MasternodeList.nHeight from) with prevHeight in Hheight.
  rewrite (proj2 (Z.eqb_neq _ (-1))) by (unfold SNAPSHOT_LIST_PERIOD in *; lia).
  destruct (Hget m1 prevHash Hc1) as (m2 & -> & Hc2). set (l := SetBlockHash new (GetHash (bl_header block))).
  assert (list_ok l) as Hl by (destruct (ev_ok _ _ Hev); by split).
  assert (successive from l) as Hsucc by (destruct (evolves_successive _ _ Hev); by split).
  assert (extends hist l) as Hext.
  { split; [apply (nb_new _ _ _ _ _ Hn)|split; [done|]|].
    - change (MasternodeList.nHeight l) with (MasternodeList.nHeight new). unfold SNAPSHOT_LIST_PERIOD in *. lia.
    - intros older rest E. by rewrite <- (proj2 (parent_head hist older rest prevHash prevHeight block h Hh Hn E)). }
  change (diff_blockHash (BuildDiff (spec_list hist prevHash) l)) with (blockHash l).
  set (snapshot := (Z.rem h SNAPSHOT_LIST_PERIOD =? 0) || (MasternodeList.nHeight (spec_list hist prevHash) =? -1)).
  match goal with |- context [if snapshot then EvoDB_Write ?e _ _ else _] =>
    change (if snapshot then EvoDB_Write e (DB_LIST_SNAPSHOT (blockHash l)) (VList l) else e) with (write_list evo (spec_list hist prevHash) l snapshot) end.
  split; [by apply cache_ok_cleanup|]. exists new, m1. split; [done|]. split_and!; [done|done| |by apply cache_ok_cons; [|apply (nb_new _ _ _ _ _ Hn)|]].
  apply stored_cons; [done|apply Hh|done|intros older rest E; by apply (parent_head hist older rest prevHash prevHeight block h)|].
  intros [Hr Hnew]%orb_false_iff. assert (MasternodeList.nHeight (SetBlockHash new (GetHash (bl_header block))) = h) as -> by (rewrite Hh1; exact Hheight).
  split; [|by apply Z.eqb_neq]. intros ->. by cbn in Hnew.
Qed.

(** What happens to the manager and its database: blocks are connected, refused, rolled
    back after they were processed and disconnected; lists are asked for; the tip is
    announced; other keys are written and the layers of the database committed; the
    node is restarted. *)
Inductive reach : EvoStore -> CDeterministicMNManager -> list CDeterministicMNList -> Prop :=
| reach_new evo : (forall h, ReadSnapshot evo h = None /\ ReadDiff evo h = None) -> reach evo CDeterministicMNManager_new []
| reach_connect evo m hist node block h prevHash prevHeight evo' m' new m1 : reach evo m hist ->
    next_block hist block h prevHash prevHeight -> block_valid RecoverCompact llmqs node (parent_list hist prevHash prevHeight) (drop 1 (vtx block)) ->
    ProcessBlock llmqs node nMasternodeMinimumConfirmations evo m block h prevHash prevHeight true = (Ok tt, (evo', m')) ->
    BuildNewListFromBlock llmqs node nMasternodeMinimumConfirmations evo m block prevHash prevHeight = (Ok new, m1) ->
    reach evo' m' (SetBlockHash new (GetHash (bl_header block)) :: hist)
| reach_refuse evo m hist node block h prevHash prevHeight e evo' m' : reach evo m hist ->
    next_block hist block h prevHash prevHeight -> block_valid RecoverCompact llmqs node (parent_list hist prevHash prevHeight) (drop 1 (vtx block)) ->
    ProcessBlock llmqs node nMasternodeMinimumConfirmations evo m block h prevHash prevHeight true = (Throw e, (evo', m')) -> reach evo' m' hist
| reach_roll_back evo m hist node block h prevHash prevHeight evo' m' : reach evo m hist ->
    next_block hist block h prevHash prevHeight -> block_valid RecoverCompact llmqs node (parent_list hist prevHash prevHeight) (drop 1 (vtx block)) ->
    ProcessBlock llmqs node nMasternodeMinimumConfirmations evo m block h prevHash prevHeight true = (Ok tt, (evo', m')) -> reach evo m' hist
| reach_disconnect evo m hist l block evo' m' : reach evo m (l :: hist) -> GetHash (bl_header block) = blockHash l ->
    UndoBlock evo m block = (evo', m') -> reach evo' m' hist
| reach_query evo m hist q l m' : reach evo m hist -> GetListForBlock evo m q = Some (l, m') -> reach evo m' hist
| reach_tip evo m hist hash h : reach evo m hist -> reach evo (UpdatedBlockTip m hash h) hist
| reach_other evo m hist evo' : reach evo m hist -> (forall h, ReadSnapshot evo' h = ReadSnapshot evo h /\ ReadDiff evo' h = ReadDiff evo h) -> reach evo' m hist
| reach_restart evo m hist : reach evo m hist -> reach evo CDeterministicMNManager_new hist.

Lemma stored_other evo evo' hist : (forall h, ReadSnapshot evo' h = ReadSnapshot evo h /\ ReadDiff evo' h = ReadDiff evo h) -> stored evo hist -> stored evo' hist.
Proof.
  intros He [H1 H2 H3]. split.
  - intros newer l older rest E. rewrite (proj2 (He _)). by eapply H1.
  - intros newer l rest E. rewrite (proj1 (He _)). by eapply H2.
  - intros h Hh. destruct (He h) as [-> ->]. by apply H3.
Qed.

Lemma reach_ok evo m hist : reach evo m hist -> hist_ok hist /\ stored evo hist /\ cache_ok hist (mnListsCache m).
Proof.
  assert (forall hist, cache_ok hist (mnListsCache CDeterministicMNManager_new)) as Hempty by (intros hist0 q l; cbn; by rewrite lookup_empty).
  induction 1 as [evo He|evo m hist node block h prevHash prevHeight evo' m' new m1 _ (Hh & Hs & Hc) Hn Hb E Eb|
    evo m hist node block h prevHash prevHeight e evo' m' _ (Hh & Hs & Hc) Hn Hb E|evo m hist node block h prevHash prevHeight evo' m' _ (Hh & Hs & Hc) Hn Hb E|
    evo m hist l block evo' m' _ (Hh & Hs & Hc) El E|evo m hist q l m' _ (Hh & Hs & Hc) E|evo m hist hash h _ IH|evo m hist evo' _ (Hh & Hs & Hc) He|evo m hist _ (Hh & Hs & Hc)].
  - split_and!; [split; [constructor|by intros ? ?%elem_of_nil|by intros [] ? ? ?]|split; [by intros [] ? ? ?|by intros [] ? ?|by intros h _]|apply Hempty].
  - pose proof (connect_ok evo m hist node block h prevHash prevHeight Hh Hs Hc Hn Hb) as Hok. rewrite E, Eb in Hok.
    destruct Hok as (_ & new' & m1' & Eq & Hext & _ & Hs' & Hc'). injection Eq as <- <-. split_and!; [by apply hist_ok_cons|done|done].
  - pose proof (connect_ok evo m hist node block h prevHash prevHeight Hh Hs Hc Hn Hb) as Hok. rewrite E in Hok. destruct Hok as [Hc' Hok].
    destruct e; [subst evo'; done|done].
  - pose proof (connect_ok evo m hist node block h prevHash prevHeight Hh Hs Hc Hn Hb) as Hok. rewrite E in Hok. destruct Hok as [Hc' _]. done.
  - pose proof (undo_ok evo m hist l block Hh Hs Hc El) as Hu. rewrite E in Hu. exact Hu.
  - destruct (GetListForBlock_ok evo hist m q Hh Hs Hc) as (m2 & E2 & Hc2). assert (m2 = m') as <- by congruence. done.
  - exact IH.
  - split_and!; [done|by eapply stored_other|done].
  - split_and!; [done|done|apply Hempty].
Qed.

(** C2: The list of every block.  However blocks were connected, refused, rolled back and
    disconnected, lists asked for and the node restarted: the list of a block of the
    chain is found in at most 576 reads, asserts nothing, and is the list that was built
    when the block was connected; any other block has the empty list at no height. *)
Theorem lists_of_blocks evo m hist (q : list Z) : reach evo m hist ->
  exists m', GetListForBlock evo m q = Some (spec_list hist q, m') /\ reach evo m' hist.
Proof.
  intros Hr. destruct (reach_ok _ _ _ Hr) as (Hh & Hs & Hc). destruct (GetListForBlock_ok evo hist m q Hh Hs Hc) as (m' & E & _).
  exists m'. split; [done|]. by eapply reach_query.
Qed.

(** The handler of a block.  On a reachable manager, a block whose masternode
    transactions passed their checks against the list of the previous block (with new
    transaction hashes, and no registrar update that takes an operator key the block
    gives to another masternode) trips no assertion: it is rejected and leaves the
    database alone, or gives a list with a sound index at the next height, in which a
    masternode keeps its collateral and a property changes hands only when its holder
    is gone. *)
Theorem checked_block_list evo m hist node (block : CBlock) (h : Z) (prevHash : list Z) (prevHeight : Z)
    (from := parent_list hist prevHash prevHeight) : reach evo m hist ->
  next_block hist block h prevHash prevHeight -> block_valid RecoverCompact llmqs node from (drop 1 (vtx block)) ->
  match ProcessBlock llmqs node nMasternodeMinimumConfirmations evo m block h prevHash prevHeight true with
  | (Ok _, (evo', m')) => exists l, reach evo' m' (l :: hist) /\ blockHash l = GetHash (bl_header block) /\
      MasternodeList.nHeight l = h /\ list_ok l /\ successive from l
  | (Throw (Rejected _), (evo', m')) => evo' = evo /\ reach evo m' hist
  | (Throw AssertFails, _) => False
  end.
Proof.
  intros Hr Hn Hb. destruct (reach_ok _ _ _ Hr) as (Hh & Hs & Hc).
  pose proof (connect_ok evo m hist node block h prevHash prevHeight Hh Hs Hc Hn Hb) as Hok.
  destruct (ProcessBlock _ _ _ _ _ _ _ _ _ _) as [[[]|[calls|]] [evo' m']] eqn:E; [|split; [apply Hok|]|apply Hok].
  - destruct Hok as (_ & new & m1 & Eb & Hext & Hsucc & _). exists (SetBlockHash new (GetHash (bl_header block))).
    split; [by eapply reach_connect|]. split; [done|]. split; [|split; [apply (ex_ok _ _ Hext)|done]].
    rewrite (next_height _ _ Hsucc). change (MasternodeList.nHeight from) with prevHeight. by destruct (nb_height _ _ _ _ _ Hn).
  - destruct Hok as [_ ->]. by eapply reach_refuse.
Qed.
End Chain.

(** The handler has no guard against an operator key that another masternode was given
    earlier in the block, where the one for registrations and service updates has: the
    update then trips the assertion of the index, and the node stops.  The check of the
    transaction, made against the list of the previous block, cannot see it. *)
Theorem registrar_clash `{BLSCurve} (new : CDeterministicMNList) (h : Z) (tx : CTransaction) (ptx : CProUpRegTx.t) (d e : CDeterministicMN) :
  list_ok new -> GetTxPayload CProUpRegTx.t (vExtraPayload (tx_data tx)) = Some ptx ->
  mnMap new !! CProUpRegTx.proTxHash ptx = Some d -> mnMap new !! proTxHash e = Some e -> proTxHash e <> CProUpRegTx.proTxHash ptx ->
  pubKeyOperator (pdmnState e) = CProUpRegTx.pubKeyOperator ptx -> CProUpRegTx.pubKeyOperator ptx <> CBLSPublicKey_null ->
  ProcessUpdateRegistrar h new tx = Throw AssertFails.
Proof.
  intros Ho Ep Hd He Hne Hk Hnull. unfold ProcessUpdateRegistrar. rewrite Ep. cbn [asserted rbind]. unfold GetMN. rewrite Hd.
  set (base := if negb _ then _ else _). set (st := set_registrar base _ _ _).
  assert (keyIDOwner st = keyIDOwner (pdmnState d)) as Eo by (unfold st, base; cbn; case_match; [|done]; unfold BanIfNotBanned; by case_match).
  destruct (mns_ok new Ho _ d Hd) as (_ & _ & Hno). pose proof (UpdateMN_cases new (CProUpRegTx.proTxHash ptx) st Ho ltac:(congruence)) as Hc.
  destruct (UpdateMN new (CProUpRegTx.proTxHash ptx) st) as [new'|]; [|done]. exfalso. destruct Hc as (d' & Hd' & Ho' & Hm & _).
  assert (forall s, pubKeyOperator s = CProUpRegTx.pubKeyOperator ptx -> SerializeHash (CProUpRegTx.pubKeyOperator ptx) ∈ state_keys s) as Hin.
  { intros s Es. unfold state_keys. rewrite Es. apply elem_of_app; right. apply elem_of_app; right. unfold hash_of. rewrite bool_decide_false by done. by left. }
  apply (list_exclusive new' Ho' (CProUpRegTx.proTxHash ptx) (proTxHash e) (SerializeHash (CProUpRegTx.pubKeyOperator ptx))); [by intros E; apply Hne| |].
  - assert (mnMap new' !! CProUpRegTx.proTxHash ptx = Some (set_pdmnState d' st)) as E by (by rewrite Hm, lookup_insert_eq).
    rewrite (keys_at_Some _ _ _ E). unfold property_keys. apply elem_of_app. right. by apply Hin.
  - assert (mnMap new' !! proTxHash e = Some e) as E by (by rewrite Hm, lookup_insert_ne by congruence).
    rewrite (keys_at_Some _ _ _ E). unfold property_keys. apply elem_of_app. right. by apply Hin.
Qed.

(** ** A registration is mined *)

#[local] Existing Instance any_curve.

Definition empty_store : EvoStore := CEvoDB_new ∅.
Definition reg_tx : CTransaction := register (sample_ptx sample_collateral).
Definition reg_header : CBlockHeader :=
  {| bh_nVersion := 2; hashPrevBlock := replicate 32 9; hashMerkleRoot := replicate 32 2; Block.nTime := 1000; Block.nBits := 0; nNonce := 0 |}.
Definition reg_coinbase : CTransaction := CTransaction_of {| nVersion := 1; nType := 0; vin := []; vout := []; nLockTime := 0; vExtraPayload := [] |}.
Definition reg_block : CBlock := {| bl_header := reg_header; vtx := [reg_coinbase; reg_tx] |}.
Definition reg_from : CDeterministicMNList := parent_list [] (replicate 32 9) 599.

Lemma empty_reach : reach one_signer regtest_llmqs 1 empty_store CDeterministicMNManager_new [].
Proof. apply reach_new. intros h. split; reflexivity. Qed.
Lemma reg_next : next_block [] reg_block 600 (replicate 32 9) 599.
Proof. split; [split; [reflexivity|unfold SNAPSHOT_LIST_PERIOD; lia]|discriminate|apply not_elem_of_nil]. Qed.

Lemma reg_not_null : uint256_IsNull (tx_hash reg_tx) = false.
Proof. vm_compute. reflexivity. Qed.
Lemma reg_type : (nVersion (tx_data reg_tx), nType (tx_data reg_tx)) = (3, TRANSACTION_PROVIDER_REGISTER).
Proof. reflexivity. Qed.
Lemma reg_checked : CheckProRegTx one_signer sample_node (fun _ => Some reg_from) reg_tx (Some (replicate 32 9, 599)) = Ok tt.
Proof. vm_compute. reflexivity. Qed.

Lemma reg_valid : block_valid one_signer regtest_llmqs sample_node reg_from (drop 1 (vtx reg_block)).
Proof.
  change (drop 1 (vtx reg_block)) with [reg_tx].
  assert (forall p, mnMap reg_from !! p = None) as Hempty by (intros p; reflexivity).
  pose proof reg_type as Hty. pose proof reg_not_null as Hnn. pose proof (CheckProRegTx_inv _ _ _ _ _ _ reg_checked) as (ptx & l & o & El & Hp).
  injection El as <-. revert Hty Hnn Hp Hempty. generalize reg_tx reg_from. intros tx from [= Hv Ht] Hnn Hp Hempty.
  split.
  - intros tx' ->%list_elem_of_singleton _. rewrite Ht. split_and!; try done. intros _. by exists ptx, o.
  - intros tx' ->%list_elem_of_singleton. split; [apply Hempty|done].
  - apply NoDup_singleton.
  - intros tx' p q d _ _ Hd. by rewrite Hempty in Hd.
  - intros tx' p q h ->%list_elem_of_singleton _ Ht'. by rewrite Ht in Ht'.
Qed.

Lemma reg_accepted : fst (ProcessBlock regtest_llmqs sample_node 1 empty_store CDeterministicMNManager_new reg_block 600 (replicate 32 9) 599 true) = Ok tt.
Proof. vm_compute. reflexivity. Qed.

Lemma checked_block_list_witness :
  exists evo' m' l, ProcessBlock regtest_llmqs sample_node 1 empty_store CDeterministicMNManager_new reg_block 600 (replicate 32 9) 599 true = (Ok tt, (evo', m')) /\
    reach one_signer regtest_llmqs 1 evo' m' [l] /\ blockHash l = GetHash reg_header /\ MasternodeList.nHeight l = 600.
Proof.
  pose proof (checked_block_list one_signer regtest_llmqs 1 empty_store CDeterministicMNManager_new [] sample_node reg_block 600 (replicate 32 9) 599
    empty_reach reg_next reg_valid) as Hc. pose proof reg_accepted as Ha. revert Hc Ha.
  destruct (ProcessBlock _ _ _ _ _ _ _ _ _ _) as [r [evo' m']]. cbn [fst]. intros Hc Ha. rewrite Ha in Hc.
  destruct Hc as (l & Hr & Hb & Hh & _). exists evo', m', l. rewrite Ha. exact (conj eq_refl (conj Hr (conj Hb Hh))).
Defined.

Lemma connected_reach : exists evo' m' l, reach one_signer regtest_llmqs 1 evo' m' [l] /\ blockHash l = GetHash reg_header.
Proof.
  pose proof reg_accepted as Ha. pose proof reg_next as Hn. pose proof reg_valid as Hv. pose proof empty_reach as Hr.
  destruct (reach_ok _ _ _ _ _ _ Hr) as (Hh & Hs & Hc).
  pose proof (connect_ok one_signer regtest_llmqs 1 _ _ _ sample_node reg_block 600 (replicate 32 9) 599 Hh Hs Hc Hn Hv) as Hok.
  destruct (ProcessBlock _ _ _ _ _ _ _ _ _ _) as [r [evo' m']] eqn:E. cbn [fst] in Ha. subst r.
  destruct Hok as (_ & new & m1 & Eb & _). exists evo', m'. eexists. split; [by eapply reach_connect|done].
Qed.

Lemma lists_of_blocks_witness : exists evo' m' l m'', reach one_signer regtest_llmqs 1 evo' m' [l] /\
  GetListForBlock evo' m' (GetHash reg_header) = Some (l, m'').
Proof.
  destruct connected_reach as (evo' & m' & l & Hr & Hb). exists evo', m', l.
  destruct (lists_of_blocks one_signer regtest_llmqs 1 evo' m' [l] (GetHash reg_header) Hr) as (m'' & E & _). exists m''. split; [exact Hr|].
  rewrite E, <- Hb. rewrite spec_list_in; [reflexivity|apply NoDup_singleton|by apply list_elem_of_singleton].
Defined.
