(* ===== verification/SimplifiedMNs.v ===== *)
(** * Simplified masternode lists and the coinbase payload
    (src/src/evo/simplifiedmns.h/.cpp, src/src/evo/cbtx.h/.cpp,
    [BuildSimplifiedDiff] of src/src/evo/deterministicmns.cpp)

    What light clients know of the masternodes: an entry each, sorted, with a Merkle root
    that the coinbase transaction of every block commits to, and differences between the
    lists of two blocks.  The theorems: a client that applies differences has the list,
    and so the root, that the node has; and the root determines the list. *)

From Stdlib Require Import String.
From S2P Require Import Prelude Bytes Serialize Containers Hash Merkle Transaction Block MerkleBlock ProviderTx MasternodeList MasternodeQueue QuorumProcessor.
From S2P Require Chain.
From stdpp Require Import list gmap sorting.
Local Open Scope Z_scope.
Local Open Scope cxx_scope.

(** ** Entries *)

Record CSimplifiedMNListEntry : Type := {
  proRegTxHash : list Z;
  sml_confirmedHash : list Z;
  service : CService;
  sml_pubKeyOperator : CBLSPublicKey;
  sml_keyIDVoting : CKeyID;
  isValid : bool;
}.
#[global] Instance CSimplifiedMNListEntry_eq_dec : EqDecision CSimplifiedMNListEntry.
Proof. solve_decision. Defined.

Definition CSimplifiedMNListEntry_of (dmn : CDeterministicMN) : CSimplifiedMNListEntry :=
  {| proRegTxHash := proTxHash dmn; sml_confirmedHash := confirmedHash (pdmnState dmn); service := addr (pdmnState dmn);
     sml_pubKeyOperator := pubKeyOperator (pdmnState dmn); sml_keyIDVoting := keyIDVoting (pdmnState dmn);
     isValid := nPoSeBanHeight (pdmnState dmn) =? -1 |}.

(** A [bool] is a byte on the wire; any byte but zero reads as true. *)
Definition ser_bool (b : bool) : list Z := ser_writedata8 (Z.b2z b).
Definition unser_bool : reader bool := fun s => let! r := ser_readdata8 s in Ok (nz (fst r), snd r).

Section Entries.
Context `{BLSCurve}.

Definition Entry_Serialize (e : CSimplifiedMNListEntry) : list Z :=
  uint256_Serialize (proRegTxHash e) ++ uint256_Serialize (sml_confirmedHash e) ++ Serialize (service e) ++
  Serialize (sml_pubKeyOperator e) ++ Serialize (sml_keyIDVoting e) ++ ser_bool (isValid e).
Definition Entry_Unserialize : reader CSimplifiedMNListEntry := fun s =>
  let! r := uint256_Unserialize s in let '(p, s) := r in
  let! r := uint256_Unserialize s in let '(c, s) := r in
  let! r := Unserialize s in let '(a, s) := r in
  let! r := Unserialize s in let '(k, s) := r in
  let! r := Unserialize s in let '(v, s) := r in
  let! r := unser_bool s in let '(b, s) := r in
  Ok ({| proRegTxHash := p; sml_confirmedHash := c; service := a; sml_pubKeyOperator := k; sml_keyIDVoting := v; isValid := b |}, s).
#[export] Instance CSimplifiedMNListEntry_serializable : Serializable CSimplifiedMNListEntry :=
  {| Serialize := Entry_Serialize; Unserialize := Entry_Unserialize |}.

Definition Entry_CalcHash (e : CSimplifiedMNListEntry) : list Z := CHashWriter_GetHash [Serialize e].
End Entries.

(** ** Lists *)

Definition entry_le (a b : CSimplifiedMNListEntry) : Prop := memcmp (proRegTxHash a) (proRegTxHash b) <= 0.
#[export] Instance entry_le_dec a b : Decision (entry_le a b).
Proof. unfold entry_le. apply _. Defined.

(** [CSimplifiedMNList], from entries and from a masternode list; as no two entries have
    one hash, [std::sort] has one result. *)
Definition CSimplifiedMNList_entries (smlEntries : list CSimplifiedMNListEntry) : list CSimplifiedMNListEntry := merge_sort entry_le smlEntries.
Definition CSimplifiedMNList_of (dmnList : CDeterministicMNList) : list CSimplifiedMNListEntry :=
  merge_sort entry_le (map CSimplifiedMNListEntry_of (ForEachMN dmnList false)).

Definition CalcMerkleRoot `{BLSCurve} (mnList : list CSimplifiedMNListEntry) : list Z * bool :=
  ComputeMerkleRoot null256 hash_pair (map Entry_CalcHash mnList).

(** ** Differences *)

Record CSimplifiedMNListDiff : Type := {
  smldiff_baseBlockHash : list Z;
  smldiff_blockHash : list Z;
  cbTxMerkleTree : option tree256;
  cbTx : option CTransaction;
  deletedMNs : list (list Z);
  mnList : list CSimplifiedMNListEntry;
}.

Definition BuildSimplifiedDiff (from to : CDeterministicMNList) : CSimplifiedMNListDiff :=
  {| smldiff_baseBlockHash := blockHash from; smldiff_blockHash := blockHash to; cbTxMerkleTree := None; cbTx := None;
     deletedMNs := fold_left (fun deleted fromPtr =>
       match GetMN to (proTxHash fromPtr) with
       | None => deleted ++ [proTxHash fromPtr]
       | Some _ => deleted
       end) (ForEachMN from false) [];
     mnList := fold_left (fun mns toPtr =>
       match GetMN from (proTxHash toPtr) with
       | None => mns ++ [CSimplifiedMNListEntry_of toPtr]
       | Some fromPtr =>
           if bool_decide (CSimplifiedMNListEntry_of toPtr = CSimplifiedMNListEntry_of fromPtr) then mns
           else mns ++ [CSimplifiedMNListEntry_of toPtr]
       end) (ForEachMN to false) [] |}.

(** [BuildSimplifiedMNListDiff]; which message is written to [errorRet], with its
    arguments.  Blocks are read from the disk by hash. *)
Inductive diff_error : Type :=
| BlockNotFound (hash : list Z)
| NotInSameChain (base hash : list Z)
| BaseIsHigher (base hash : list Z)
| FailedToRead (hash : list Z).

Definition BuildSimplifiedMNListDiff (chain : ChainState) (GetListForBlock : list Z -> option CDeterministicMNList)
    (ReadBlockFromDisk : list Z -> option CBlock) (baseBlockHash blockHash : list Z) : option (result diff_error CSimplifiedMNListDiff) :=
  let find h := match mapBlockIndex chain !! h with Some p => Ok p | None => Throw (BlockNotFound h) end in
  base ← (if negb (uint256_IsNull baseBlockHash) then Some (find baseBlockHash)
          else p ← Chain.Genesis (chainActive chain); Some (Ok p));
  match base, find blockHash with
  | Throw e, _ => Some (Throw e)
  | _, Throw e => Some (Throw e)
  | Ok baseIndex, Ok blockIndex =>
      inBase ← Chain.Contains (entries chain) (chainActive chain) baseIndex;
      inBlock ← Chain.Contains (entries chain) (chainActive chain) blockIndex;
      if negb (inBase : bool) || negb (inBlock : bool) then Some (Throw (NotInSameChain baseBlockHash blockHash))
      else
        b ← entries chain !! baseIndex; i ← entries chain !! blockIndex;
        if Chain.nHeight i <? Chain.nHeight b then Some (Throw (BaseIsHigher baseBlockHash blockHash))
        else
          baseDmnList ← GetListForBlock baseBlockHash;
          dmnList ← GetListForBlock blockHash;
          let diff := BuildSimplifiedDiff baseDmnList dmnList in
          match ReadBlockFromDisk blockHash with
          | None => Some (Throw (FailedToRead blockHash))
          | Some block =>
              coinbase ← head (vtx block);
              let vHashes := map tx_hash (vtx block) in
              let vMatch := true :: replicate (length (vtx block) - 1) false in
              Some (Ok {| smldiff_baseBlockHash := smldiff_baseBlockHash diff; smldiff_blockHash := smldiff_blockHash diff;
                          cbTxMerkleTree := Some (CPartialMerkleTree_new null256 hash_pair vHashes vMatch); cbTx := Some coinbase;
                          deletedMNs := deletedMNs diff; mnList := mnList diff |})
          end
  end.

(** ** The coinbase payload *)

Record CCbTx : Type := { cb_nVersion : Z; cb_nHeight : Z; merkleRootMNList : list Z }.
Definition cb_CURRENT_VERSION : Z := 1.
Definition CCbTx_Serialize (t : CCbTx) : list Z :=
  ser_writedata16 (cb_nVersion t) ++ ser_int32 (cb_nHeight t) ++ uint256_Serialize (merkleRootMNList t).
Definition CCbTx_Unserialize : reader CCbTx := fun s =>
  let! r := ser_readdata16 s in let '(v, s) := r in
  let! r := unser_int32 s in let '(h, s) := r in
  let! r := uint256_Unserialize s in let '(root, s) := r in
  Ok ({| cb_nVersion := v; cb_nHeight := h; merkleRootMNList := root |}, s).
#[global] Instance CCbTx_serializable : Serializable CCbTx := {| Serialize := CCbTx_Serialize; Unserialize := CCbTx_Unserialize |}.

(** ** Messages *)

Record CGetSimplifiedMNListDiff : Type := { req_baseBlockHash : list Z; req_blockHash : list Z }.
Definition CGetSimplifiedMNListDiff_Serialize (m : CGetSimplifiedMNListDiff) : list Z :=
  uint256_Serialize (req_baseBlockHash m) ++ uint256_Serialize (req_blockHash m).
Definition CGetSimplifiedMNListDiff_Unserialize : reader CGetSimplifiedMNListDiff := fun s =>
  let! r := uint256_Unserialize s in let '(b, s) := r in
  let! r := uint256_Unserialize s in let '(h, s) := r in
  Ok ({| req_baseBlockHash := b; req_blockHash := h |}, s).

(** ** Round trips *)

Definition cbtx_ok (t : CCbTx) : Prop := is_u 16 (cb_nVersion t) /\ is_s 32 (cb_nHeight t) /\ uint256_ok (merkleRootMNList t).
#[global] Program Instance CCbTx_RoundTrip : RoundTrip CCbTx := {| serializable := cbtx_ok |}.
Next Obligation.
  intros t rest (?&?&?). cbn [Unserialize Serialize CCbTx_serializable]. unfold CCbTx_Unserialize, CCbTx_Serialize. rewrite <- !app_assoc.
  rewrite read16_write by done. cbn [rbind]. rewrite read_int32 by done. cbn [rbind]. rewrite uint256_read by done. cbn [rbind]. by destruct t.
Qed.

Section EntryRoundTrip.
Context `{BLSCurve}.

Definition entry_ok (e : CSimplifiedMNListEntry) : Prop :=
  uint256_ok (proRegTxHash e) /\ uint256_ok (sml_confirmedHash e) /\ serializable (service e) /\
  serializable (sml_pubKeyOperator e) /\ serializable (sml_keyIDVoting e).
#[export] Program Instance CSimplifiedMNListEntry_RoundTrip : RoundTrip CSimplifiedMNListEntry := {| serializable := entry_ok |}.
Next Obligation.
  intros e rest (?&?&?&?&?). cbn [Unserialize Serialize CSimplifiedMNListEntry_serializable]. unfold Entry_Unserialize, Entry_Serialize.
  rewrite <- !app_assoc.
  do 2 (rewrite uint256_read by done; cbn [rbind]). do 3 (rewrite Unserialize_Serialize by done; cbn [rbind]).
  unfold unser_bool, ser_bool. rewrite read8_write by (destruct (isValid e); unfold is_u; cbn; lia). cbn [rbind fst snd].
  destruct e as [? ? ? ? ? []]; done.
Qed.

Lemma Entry_Serialize_inj e f : entry_ok e -> entry_ok f -> Serialize e = Serialize f -> e = f.
Proof.
  intros He Hf E. pose proof (Unserialize_Serialize e [] He) as E1. pose proof (Unserialize_Serialize f [] Hf) as E2. rewrite E in E1. congruence.
Qed.
End EntryRoundTrip.

(** ** Sorting *)

#[export] Instance entry_le_total : Total entry_le.
Proof. intros a b. unfold entry_le. pose proof (memcmp_sym (proRegTxHash a) (proRegTxHash b)). destruct (Z.le_ge_cases (memcmp (proRegTxHash a) (proRegTxHash b)) 0); [by left|right; lia]. Qed.
#[export] Instance entry_le_trans : Transitive entry_le.
Proof. intros a b c. apply memcmp_trans. Qed.
Lemma entry_le_antisym a b : entry_le a b -> entry_le b a -> proRegTxHash a = proRegTxHash b.
Proof. unfold entry_le. intros H1 H2. pose proof (memcmp_sym (proRegTxHash a) (proRegTxHash b)). apply memcmp_eq. lia. Qed.

Lemma NoDup_map_inj {A B} (f : A -> B) (l : list A) x y : NoDup (map f l) -> x ∈ l -> y ∈ l -> f x = f y -> x = y.
Proof.
  induction l as [|a l IH]; [by intros _ ?%elem_of_nil|]. cbn. intros [Ha Hnd]%NoDup_cons Hx Hy E.
  apply elem_of_cons in Hx as [->|Hx]; apply elem_of_cons in Hy as [->|Hy]; try done; [| |by apply IH]; destruct Ha;
    apply list_elem_of_fmap; [exists y|exists x]; done.
Qed.

(** Entries with different hashes have one sorted order. *)
Lemma sorted_unique (l k : list CSimplifiedMNListEntry) : NoDup (map proRegTxHash l) -> l ≡ₚ k -> merge_sort entry_le l = merge_sort entry_le k.
Proof.
  intros Hnd Hp. apply (StronglySorted_unique_strong entry_le).
  - intros x y Hx Hy Hxy Hyx. rewrite merge_sort_Permutation in Hx, Hy. rewrite <- Hp in Hy.
    by apply (NoDup_map_inj proRegTxHash l); [..|apply entry_le_antisym].
  - apply (StronglySorted_merge_sort _).
  - apply (StronglySorted_merge_sort _).
  - by rewrite !merge_sort_Permutation.
Qed.

(** ** What a client knows *)

(** The entries by hash. *)
Definition sml (l : CDeterministicMNList) : gmap (list Z) CSimplifiedMNListEntry := CSimplifiedMNListEntry_of <$> mnMap l.
Definition entry_pair (e : CSimplifiedMNListEntry) : list Z * CSimplifiedMNListEntry := (proRegTxHash e, e).
(** What a client does with a difference: deletes what is deleted, puts in what is listed. *)
Definition client_update (known : gmap (list Z) CSimplifiedMNListEntry) (d : CSimplifiedMNListDiff) : gmap (list Z) CSimplifiedMNListEntry :=
  list_to_map (map entry_pair (mnList d)) ∪ foldr delete known (deletedMNs d).

Lemma fold_snoc {A B} (f : A -> option B) (step : list B -> A -> list B) (l : list A) acc :
  (forall acc x, step acc x = match f x with Some y => acc ++ [y] | None => acc end) -> fold_left step l acc = acc ++ omap f l.
Proof.
  intros Hs. revert acc. induction l as [|x l IH]; intros acc; cbn; [by rewrite app_nil_r|]. rewrite Hs, IH.
  destruct (f x); cbn; [by rewrite <- app_assoc|done].
Qed.

Section Client.
Context `{BLSCurve}.
Context (from to : CDeterministicMNList) (Hfrom : list_ok from) (Hto : list_ok to).
Local Abbreviation d := (BuildSimplifiedDiff from to).

Lemma deleted_spec p : p ∈ deletedMNs d <-> is_Some (mnMap from !! p) /\ mnMap to !! p = None.
Proof using Hfrom.
  cbn. rewrite (fold_snoc (fun fromPtr => match GetMN to (proTxHash fromPtr) with None => Some (proTxHash fromPtr) | Some _ => None end)) by (intros acc x; by case_match).
  cbn [app]. rewrite list_elem_of_omap. unfold GetMN. split.
  - intros (x & Hx & E). apply elem_of_all in Hx; [|apply Hfrom]. destruct (mnMap to !! proTxHash x) eqn:Et; [done|]. injection E as <-. by split; [eexists|].
  - intros [[x Hx] Et]. destruct (mns_ok from Hfrom p x Hx) as (<- & _). exists x. split; [by apply elem_of_all; [apply Hfrom|]|by rewrite Et].
Qed.

Lemma listed_spec e : e ∈ mnList d <-> exists x, mnMap to !! proRegTxHash e = Some x /\ e = CSimplifiedMNListEntry_of x /\ sml from !! proRegTxHash e <> Some e.
Proof using Hto.
  cbn. rewrite (fold_snoc (fun toPtr => match GetMN from (proTxHash toPtr) with None => Some (CSimplifiedMNListEntry_of toPtr) | Some fromPtr =>
      if bool_decide (CSimplifiedMNListEntry_of toPtr = CSimplifiedMNListEntry_of fromPtr) then None else Some (CSimplifiedMNListEntry_of toPtr) end))
    by (intros acc x; case_match; [by case_bool_decide|done]).
  cbn [app]. rewrite list_elem_of_omap. unfold GetMN, sml. split.
  - intros (x & Hx & E). apply elem_of_all in Hx; [|apply Hto]. exists x.
    assert (e = CSimplifiedMNListEntry_of x) as -> by (destruct (mnMap from !! proTxHash x); [case_bool_decide|]; congruence).
    split_and!; [done|done|]. cbn. rewrite lookup_fmap. destruct (mnMap from !! proTxHash x) as [y|]; [|done]. case_bool_decide; [done|]. cbn. congruence.
  - intros (x & Hx & -> & Hne). exists x. cbn in Hx, Hne. split; [by apply elem_of_all; [apply Hto|]|]. rewrite lookup_fmap in Hne.
    destruct (mnMap from !! proTxHash x) as [y|]; [|done]. cbn in Hne. rewrite bool_decide_false; [done|congruence].
Qed.

(** What a filtering loop lists has the distinct keys of what it goes through. *)
Lemma NoDup_omap_key {A B K} (f : A -> option B) (ka : A -> K) (kb : B -> K) (l : list A) :
  (forall x y, f x = Some y -> kb y = ka x) -> NoDup (map ka l) -> NoDup (map kb (omap f l)).
Proof.
  intros Hf. induction l as [|x l IH]; cbn; [done|]. intros [Hx Hnd]%NoDup_cons.
  destruct (f x) as [y|] eqn:E; cbn; [|by apply IH]. apply NoDup_cons. split; [|by apply IH].
  rewrite (Hf x y E). intros (z & Ez & (w & Hw & Ew)%list_elem_of_omap)%list_elem_of_fmap.
  apply Hx, list_elem_of_fmap. exists w. split; [|done]. by rewrite Ez, (Hf w z Ew).
Qed.

Lemma listed_distinct : NoDup (map proRegTxHash (mnList d)).
Proof using Hto.
  cbn. rewrite (fold_snoc (fun toPtr => match GetMN from (proTxHash toPtr) with None => Some (CSimplifiedMNListEntry_of toPtr) | Some fromPtr =>
      if bool_decide (CSimplifiedMNListEntry_of toPtr = CSimplifiedMNListEntry_of fromPtr) then None else Some (CSimplifiedMNListEntry_of toPtr) end))
    by (intros acc x; case_match; [by case_bool_decide|done]).
  apply (NoDup_omap_key _ proTxHash); [|exact (NoDup_all to (mns_ok to Hto))].
  intros x y E. case_match; [case_bool_decide|]; simplify_eq; done.
Qed.

Lemma deleted_distinct : NoDup (deletedMNs d).
Proof using Hfrom.
  cbn. rewrite (fold_snoc (fun fromPtr => match GetMN to (proTxHash fromPtr) with None => Some (proTxHash fromPtr) | Some _ => None end)) by (intros acc x; by case_match).
  cbn [app]. rewrite <- (map_id (omap _ _)).
  apply (NoDup_omap_key _ proTxHash); [|exact (NoDup_all from (mns_ok from Hfrom))].
  intros x y E. case_match; simplify_eq; done.
Qed.

Lemma lookup_foldr_delete {V} (m : gmap (list Z) V) ks p : foldr delete m ks !! p = if decide (p ∈ ks) then None else m !! p.
Proof.
  induction ks as [|k ks IH]; cbn; [by rewrite decide_False by apply not_elem_of_nil|]. destruct (decide (p = k)) as [->|Hne].
  - rewrite lookup_delete_eq, decide_True by (by left). done.
  - rewrite lookup_delete_ne, IH by done. case_decide; [by rewrite decide_True by (by right)|rewrite decide_False; [done|]]. intros [|]%elem_of_cons; done.
Qed.

Lemma client_has_list : client_update (sml from) d = sml to.
Proof using Hfrom Hto.
  apply map_eq. intros p. unfold client_update. rewrite lookup_union, lookup_foldr_delete.
  assert (forall e, (list_to_map (map entry_pair (mnList d)) : gmap _ _) !! p = Some e <-> e ∈ mnList d /\ proRegTxHash e = p) as Hl.
  { intros e. rewrite <- elem_of_list_to_map.
    - rewrite list_elem_of_fmap. unfold entry_pair. split; [intros (f & [= -> ->] & Hf); done|intros [Hin <-]; by exists e].
    - rewrite <- list_fmap_compose. exact listed_distinct. }
  destruct ((list_to_map (map entry_pair (mnList d)) : gmap _ _) !! p) as [e|] eqn:Ee.
  - destruct (proj1 (Hl e) eq_refl) as [Hin <-]. apply listed_spec in Hin as (x & Hx & -> & _). unfold sml at 2. rewrite lookup_fmap, Hx.
    by destruct (if decide _ then _ else _).
  - assert (forall e, e ∈ mnList d -> proRegTxHash e <> p) as Hnot by (intros e He Hp; assert (Some e = None); [by rewrite <- (proj2 (Hl e) (conj He Hp))|done]).
    rewrite (left_id None _). unfold sml at 2. rewrite lookup_fmap. destruct (mnMap to !! p) as [x|] eqn:Hx; cbn.
    + rewrite decide_False by (intros [_ Hn]%deleted_spec; congruence). destruct (mns_ok to Hto p x Hx) as (Hp & _).
      destruct (decide (sml from !! p = Some (CSimplifiedMNListEntry_of x))) as [|Hne]; [done|].
      exfalso. apply (Hnot (CSimplifiedMNListEntry_of x)); [|done]. apply listed_spec. exists x. cbn. rewrite Hp. done.
    + case_decide as Hd; [done|]. unfold sml. rewrite lookup_fmap. destruct (mnMap from !! p) as [y|] eqn:Hy; [|done].
      destruct Hd. apply deleted_spec. split; [by eexists|done].
Qed.
End Client.

Section Theorems.
Context `{BLSCurve}.

Lemma values_perm (to : CDeterministicMNList) : map snd (map_to_list (sml to)) ≡ₚ map CSimplifiedMNListEntry_of (ForEachMN to false).
Proof. unfold sml. rewrite map_to_list_fmap, ForEachMN_all, !map_map. by apply fmap_Permutation. Qed.

Lemma entry_hashes (to : CDeterministicMNList) : list_ok to -> NoDup (map proRegTxHash (map CSimplifiedMNListEntry_of (ForEachMN to false))).
Proof. intros Hto. rewrite map_map. exact (NoDup_all to (mns_ok to Hto)). Qed.

Lemma client_list (to : CDeterministicMNList) : list_ok to -> CSimplifiedMNList_entries (map snd (map_to_list (sml to))) = CSimplifiedMNList_of to.
Proof.
  intros Hto. unfold CSimplifiedMNList_entries, CSimplifiedMNList_of. apply sorted_unique; [|apply values_perm].
  rewrite (values_perm to). by apply entry_hashes.
Qed.

Lemma elem_of_simplified (to : CDeterministicMNList) e : list_ok to -> e ∈ CSimplifiedMNList_of to <-> sml to !! proRegTxHash e = Some e.
Proof.
  intros Hto. unfold CSimplifiedMNList_of. rewrite merge_sort_Permutation, list_elem_of_fmap. unfold sml. rewrite lookup_fmap. split.
  - intros (x & -> & Hx). apply elem_of_all in Hx; [|apply Hto]. cbn. by rewrite Hx.
  - intros (x & Hx & Ex)%fmap_Some. exists x. split; [done|]. destruct (mns_ok to Hto _ x Hx) as (Hp & _). apply elem_of_all; [apply Hto|]. by rewrite Hp.
Qed.

(** C4: What a light client knows.  A client that has the entries of one list and applies
    the difference to another (delete what is deleted, put in what is listed) has exactly
    the entries of the other: sorted they are the node's list, and give its Merkle root.
    The difference is as small as it can be: it lists no entry the client has, deletes
    exactly the masternodes the client has and the other list has not, and names no
    masternode twice, neither among the listed nor among the deleted. *)
Theorem light_client_list (from to : CDeterministicMNList) (d := BuildSimplifiedDiff from to) (known := client_update (sml from) d) :
  list_ok from -> list_ok to ->
  known = sml to /\ CSimplifiedMNList_entries (map snd (map_to_list known)) = CSimplifiedMNList_of to /\
  CalcMerkleRoot (CSimplifiedMNList_entries (map snd (map_to_list known))) = CalcMerkleRoot (CSimplifiedMNList_of to) /\
  (forall e, e ∈ mnList d -> sml from !! proRegTxHash e <> Some e) /\ NoDup (map proRegTxHash (mnList d)) /\
  (forall p, p ∈ deletedMNs d <-> is_Some (sml from !! p) /\ sml to !! p = None) /\ NoDup (deletedMNs d).
Proof.
  intros Hf Ht. pose proof (client_has_list from to Hf Ht) as E. fold d in E. fold known in E. rewrite E, client_list by done. split_and!; try done.
  - intros e He. by apply (listed_spec from to Ht) in He as (x & _ & _ & Hne).
  - by apply listed_distinct.
  - intros p. etransitivity; [exact (deleted_spec from to Hf p)|]. unfold sml. by rewrite !lookup_fmap, fmap_is_Some, fmap_None.
  - by apply deleted_distinct.
Qed.

Lemma map_inj_or {A B} `{EqDecision A} (f : A -> B) (l k : list A) : map f l = map f k -> l = k \/ exists x y, x ∈ l /\ y ∈ k /\ x <> y /\ f x = f y.
Proof.
  revert k. induction l as [|x l IH]; intros [|y k]; cbn; intros E; try done; [by left|]. injection E as Ex E.
  destruct (decide (x = y)) as [->|Hne]; [|right; exists x, y; split_and!; [by left|by left|done|done]].
  destruct (IH k E) as [->|(a & b & Ha & Hb & ?)]; [by left|right]. exists a, b. split_and!; [by right|by right|tauto|tauto].
Qed.

(** C5: What the root in the coinbase stands for.  Let two lists be of masternodes that can
    be serialized, with Merkle trees of one height and the same root, not flagged as
    mutated.  Then the entries are the same, masternode by masternode; or two different
    entries among them, or two different pairs of tree nodes, collide under the hash. *)
Theorem root_binds_list (l1 l2 : CDeterministicMNList) (s1 := CSimplifiedMNList_of l1) (s2 := CSimplifiedMNList_of l2) :
  list_ok l1 -> list_ok l2 -> (forall e, e ∈ s1 ++ s2 -> entry_ok e) ->
  (0 < length s1)%nat -> (0 < length s2)%nat -> Z.of_nat (length s1) <= 2 ^ 31 -> Z.of_nat (length s2) <= 2 ^ 31 ->
  tree_height (length s1) = tree_height (length s2) -> CalcMerkleRoot s1 = CalcMerkleRoot s2 -> snd (CalcMerkleRoot s1) = false ->
  sml l1 = sml l2 \/
  (exists e1 e2, e1 ∈ s1 /\ e2 ∈ s2 /\ Serialize e1 <> Serialize e2 /\ CHashWriter_GetHash [Serialize e1] = CHashWriter_GetHash [Serialize e2]) \/
  collision hash_pair (tree_pairs hash_pair (tree_height (length s1)) (map Entry_CalcHash s1) ++ tree_pairs hash_pair (tree_height (length s2)) (map Entry_CalcHash s2)).
Proof.
  intros H1 H2 Hok Hn1 Hn2 Hl1 Hl2 Hh E Ef.
  destruct (unflagged_root_binding null256 hash_pair (map Entry_CalcHash s1) (map Entry_CalcHash s2)) as [Em|Hc]; rewrite ?length_map; try done;
    [by destruct s1; [cbn in Hn1; lia|]|by destruct s2; [cbn in Hn2; lia|]| |right; right; by rewrite !length_map in Hc].
  destruct (map_inj_or Entry_CalcHash s1 s2 Em) as [Es|(e1 & e2 & He1 & He2 & Hne & Eh)].
  - left. apply map_eq. intros p. apply option_eq. intros e.
    assert (forall l, list_ok l -> sml l !! p = Some e <-> proRegTxHash e = p /\ e ∈ CSimplifiedMNList_of l) as Hiff.
    { intros l Hl. rewrite (elem_of_simplified l e Hl). split; [|by intros [<- ?]]. intros Hs. assert (proRegTxHash e = p) as ->; [|done].
      unfold sml in Hs. rewrite lookup_fmap in Hs. apply fmap_Some in Hs as (x & Hx & ->). by destruct (mns_ok l Hl p x Hx) as (<- & _). }
    rewrite (Hiff l1 H1), (Hiff l2 H2). fold s1 s2. by rewrite Es.
  - right. left. exists e1, e2. split_and!; [done|done| |done]. intros Eser. apply Hne.
    apply Entry_Serialize_inj; [..|done]; apply Hok; apply elem_of_app; tauto.
Qed.
End Theorems.

(** ** Samples *)

#[local] Existing Instance any_curve.

Lemma light_client_list_witness :
  CalcMerkleRoot (CSimplifiedMNList_entries (map snd (map_to_list (client_update (sml sample_list) (BuildSimplifiedDiff sample_list sample_next))))) =
    CalcMerkleRoot (CSimplifiedMNList_of sample_next) /\
  deletedMNs (BuildSimplifiedDiff sample_list sample_next) = [replicate 32 3].
Proof.
  split; [|vm_compute; reflexivity]. exact (proj1 (proj2 (proj2 (light_client_list sample_list sample_next sample_list_ok sample_next_ok)))).
Defined.

Definition bytes_okb (n : nat) (l : list Z) : bool := (length l =? n)%nat && forallb (fun b => (0 <=? b) && (b <? 256)) l.
Lemma bytes_okb_ok n l : bytes_okb n l = true -> length l = n /\ bytes_ok l.
Proof.
  unfold bytes_okb. rewrite andb_true_iff, forallb_forall. intros [Hl%Nat.eqb_eq Hf]. split; [done|].
  apply Forall_forall. intros b Hb%list_elem_of_In. specialize (Hf b Hb). unfold is_u. lia.
Qed.
Definition entry_okb (e : CSimplifiedMNListEntry) : bool :=
  bytes_okb 32 (proRegTxHash e) && bytes_okb 32 (sml_confirmedHash e) && bytes_okb 16 (ip (service e)) &&
  ((0 <=? port (service e)) && (port (service e) <? 2 ^ 16)) && bytes_okb 20 (keyid (sml_keyIDVoting e)) &&
  match bls_pk (sml_pubKeyOperator e) with None => true | Some buf => bytes_okb 48 buf && negb (forallb (fun b => b =? 0) buf) end.
Lemma entry_okb_ok e : entry_okb e = true -> entry_ok e.
Proof.
  unfold entry_okb. rewrite !andb_true_iff. intros [[[[[H1%bytes_okb_ok H2%bytes_okb_ok] [H3 H3']%bytes_okb_ok] [Hp Hp']] [H4 H4']%bytes_okb_ok] H5].
  unfold entry_ok. split_and!; try done; [split_and!; [done|done|unfold is_u; lia]|].
  cbn. unfold bls_ok. destruct (bls_pk _) as [buf|]; [|done]. apply andb_true_iff in H5 as [[? ?]%bytes_okb_ok ?%negb_true_iff]. done.
Qed.

(** A list and itself at another height. *)
Lemma root_binds_list_witness :
  sml sample_list = sml (SetHeight sample_list 500) \/
  (exists e1 e2, e1 ∈ CSimplifiedMNList_of sample_list /\ e2 ∈ CSimplifiedMNList_of (SetHeight sample_list 500) /\ Serialize e1 <> Serialize e2 /\
     CHashWriter_GetHash [Serialize e1] = CHashWriter_GetHash [Serialize e2]) \/
  collision hash_pair (tree_pairs hash_pair (tree_height (length (CSimplifiedMNList_of sample_list))) (map Entry_CalcHash (CSimplifiedMNList_of sample_list)) ++
    tree_pairs hash_pair (tree_height (length (CSimplifiedMNList_of (SetHeight sample_list 500)))) (map Entry_CalcHash (CSimplifiedMNList_of (SetHeight sample_list 500)))).
Proof.
  assert (forallb entry_okb (CSimplifiedMNList_of sample_list) = true) as Hok by (vm_compute; reflexivity).
  assert (length (CSimplifiedMNList_of sample_list) = 2%nat) as Hlen by (vm_compute; reflexivity).
  assert (snd (CalcMerkleRoot (CSimplifiedMNList_of sample_list)) = false) as Hm by (vm_compute; reflexivity).
  pose proof sample_list_ok as Hl. revert Hok Hlen Hm Hl. generalize sample_list. intros l Hok Hlen Hm Hl.
  apply (root_binds_list l (SetHeight l 500) Hl); change (CSimplifiedMNList_of (SetHeight l 500)) with (CSimplifiedMNList_of l); rewrite ?Hlen; try reflexivity; try lia.
  - by destruct Hl.
  - intros e He. apply entry_okb_ok. rewrite forallb_forall in Hok. apply Hok. apply list_elem_of_In. apply elem_of_app in He. tauto.
  - exact Hm.
Defined.
