(* ===== verification/SpecialTx.v ===== *)
(** * Special transactions of a block (src/src/evo/specialtx.cpp, src/src/evo/cbtx.cpp)

    Where the masternode transactions, the commitments of quorums and the coinbase's
    Merkle root of the masternode list come together: the checks of the transactions, the
    handler of the commitments (QuorumProcessor.v), the masternode manager
    (DeterministicMNs.v) and the check of the root (SimplifiedMNs.v), in the order of
    [ProcessSpecialTxsInBlock].

    The theorems: a block is accepted or rejected without an assertion, and one that is
    accepted has a coinbase that commits to the list the manager then has for the block;
    taking the block back leaves every list and every mined commitment as they were. *)

From Stdlib Require Import String.
From S2P Require Import Prelude Bytes Serialize Containers Hash Transaction Block ProviderTx MasternodeList MasternodeQueue QuorumCommitment EvoDb Standard Base58 ProviderChecks QuorumProcessor DeterministicMNs SimplifiedMNs.
From S2P Require Chain.
From stdpp Require Import list gmap.
Local Open Scope Z_scope.
Local Open Scope cxx_scope.

Definition TRANSACTION_NORMAL : Z := 0.
Definition TRANSACTION_COINBASE : Z := 5.

Section SpecialTx.
Context `{BLSCurve}.
Context (RecoverCompact : list Z -> list Z -> option (list Z)) (llmqs : Llmqs) (node : NodeState) (nMasternodeMinimumConfirmations : Z).
(** [fDIP0003Active]: the state of the deployment for a block on [pindexPrev]. *)
Context (chain : ChainState) (fDIP0003Active : bool).

(** ** One transaction *)

Definition CheckCbTx (tx : CTransaction) (pindexPrev : option (list Z * Z)) : check unit :=
  if negb (nType (tx_data tx) =? TRANSACTION_COINBASE) then DoS 100 REJECT_INVALID "bad-cbtx-type"
  else if negb (IsCoinBase (tx_data tx)) then DoS 100 REJECT_INVALID "bad-cbtx-invalid"
  else
    match GetTxPayload CCbTx (vExtraPayload (tx_data tx)) with
    | None => DoS 100 REJECT_INVALID "bad-cbtx-payload"
    | Some cbTx =>
        if (cb_nVersion cbTx =? 0) || (cb_CURRENT_VERSION <? cb_nVersion cbTx) then DoS 100 REJECT_INVALID "bad-cbtx-version"
        else if match pindexPrev with Some (_, height) => negb (height + 1 =? cb_nHeight cbTx) | None => false end
        then DoS 100 REJECT_INVALID "bad-cbtx-height"
        else Ok tt
    end.

(** Hash and height of an index entry; the pointer may be null but not invalid. *)
Definition index_entry (pindex : option nat) : check (option (list Z * Z)) :=
  match pindex with
  | None => Ok None
  | Some p => let! b := deref (entries chain !! p) in Ok (Some (Chain.phashBlock b, Chain.nHeight b))
  end.

(** [GetListForBlock]: the manager's. *)
Definition CheckSpecialTx (GetListForBlock : list Z -> option CDeterministicMNList) (tx : CTransaction) (pindexPrev : option nat) : check unit :=
  let type := nType (tx_data tx) in
  if negb (nVersion (tx_data tx) =? 3) || (type =? TRANSACTION_NORMAL) then Ok tt
  else if bool_decide (is_Some pindexPrev) && negb fDIP0003Active then DoS 10 REJECT_INVALID "bad-tx-type"
  else
    let! prev := index_entry pindexPrev in
    if type =? TRANSACTION_PROVIDER_REGISTER then CheckProRegTx RecoverCompact node GetListForBlock tx prev
    else if type =? TRANSACTION_PROVIDER_UPDATE_SERVICE then CheckProUpServTx node GetListForBlock tx prev
    else if type =? TRANSACTION_PROVIDER_UPDATE_REGISTRAR then CheckProUpRegTx RecoverCompact node GetListForBlock tx prev
    else if type =? TRANSACTION_PROVIDER_UPDATE_REVOKE then CheckProUpRevTx GetListForBlock tx prev
    else if type =? TRANSACTION_COINBASE then CheckCbTx tx prev
    else if type =? TRANSACTION_QUORUM_COMMITMENT then CheckLLMQCommitment llmqs GetListForBlock chain tx pindexPrev
    else DoS 10 REJECT_INVALID "bad-tx-type-check".

(** The types with a handler. *)
Definition known_type (type : Z) : bool :=
  (type =? TRANSACTION_PROVIDER_REGISTER) || (type =? TRANSACTION_PROVIDER_UPDATE_SERVICE) ||
  (type =? TRANSACTION_PROVIDER_UPDATE_REGISTRAR) || (type =? TRANSACTION_PROVIDER_UPDATE_REVOKE) ||
  (type =? TRANSACTION_COINBASE) || (type =? TRANSACTION_QUORUM_COMMITMENT).

Definition ProcessSpecialTx (tx : CTransaction) : check unit :=
  if negb (nVersion (tx_data tx) =? 3) || (nType (tx_data tx) =? TRANSACTION_NORMAL) then Ok tt
  else if known_type (nType (tx_data tx)) then Ok tt
  else DoS 100 REJECT_INVALID "bad-tx-type-proc".

Definition UndoSpecialTx (tx : CTransaction) : bool :=
  if negb (nVersion (tx_data tx) =? 3) || (nType (tx_data tx) =? TRANSACTION_NORMAL) then true
  else known_type (nType (tx_data tx)).

(** ** What the questions leave in the manager's cache

    A check asks for one list at most: the one of the previous block, or of the quorum's.
    It does ask just when it stops if it is refused the answer. *)

Definition asks {A} (c : (list Z -> option CDeterministicMNList) -> check A) : bool :=
  match c (fun _ => None) with Throw AssertFails => true | _ => false end.
Definition asked (evo : EvoStore) (m : CDeterministicMNManager) (h : list Z) : CDeterministicMNManager :=
  match GetListForBlock evo m h with Some r => snd r | None => m end.
Definition answers (evo : EvoStore) (m : CDeterministicMNManager) (h : list Z) : option CDeterministicMNList :=
  option_map fst (GetListForBlock evo m h).

Definition block_asked (tx : CTransaction) (pindexPrev : option nat) : option (list Z) :=
  if nType (tx_data tx) =? TRANSACTION_QUORUM_COMMITMENT
  then qcTx ← GetTxPayload CFinalCommitmentTxPayload (vExtraPayload (tx_data tx)); Some (quorumHash (commitment qcTx))
  else p ← pindexPrev; b ← entries chain !! p; Some (Chain.phashBlock b).

(** ** The coinbase's root *)

Definition CalcCbTxMerkleRootMNList (evo : EvoStore) (m : CDeterministicMNManager) (block : CBlock) (pindexPrev : option (list Z * Z))
  : check (list Z * bool) * CDeterministicMNManager :=
  match pindexPrev with
  | None => (Throw AssertFails, m)
  | Some (prevHash, prevHeight) =>
      let '(r, m) := BuildNewListFromBlock llmqs node nMasternodeMinimumConfirmations evo m block prevHash prevHeight in
      (let! tmpMNList := r in
       let '(merkleRootRet, mutated) := CalcMerkleRoot (CSimplifiedMNList_of tmpMNList) in
       Ok (merkleRootRet, negb mutated), m)
  end.

Definition CheckCbTxMerkleRootMNList (evo : EvoStore) (m : CDeterministicMNManager) (block : CBlock) (pindexPrev : option (list Z * Z))
  : check unit * CDeterministicMNManager :=
  match vtx block with
  | [] => (Throw AssertFails, m)
  | coinbase :: _ =>
      if negb (nType (tx_data coinbase) =? TRANSACTION_COINBASE) then (Ok tt, m)
      else
        match GetTxPayload CCbTx (vExtraPayload (tx_data coinbase)) with
        | None => (DoS 100 REJECT_INVALID "bad-cbtx-payload", m)
        | Some cbTx =>
            let bad := {| dos_level := 100; dos_code := REJECT_INVALID; dos_reason := "bad-cbtx-mnmerkleroot" |} in
            let '(r, m) := CalcCbTxMerkleRootMNList evo m block pindexPrev in
            (match r with
             | Throw (Rejected calls) => Throw (Rejected (calls ++ [bad]))
             | Throw AssertFails => Throw AssertFails
             | Ok (calculatedMerkleRoot, fine) =>
                 if negb fine then Throw (Rejected [bad])
                 else if negb (bool_decide (calculatedMerkleRoot = merkleRootMNList cbTx)) then Throw (Rejected [bad])
                 else Ok tt
             end, m)
        end
  end.

(** ** A block *)

(** The loop over the transactions. *)
Fixpoint special_loop (evo : EvoStore) (m : CDeterministicMNManager) (pprev : option nat) (txs : list CTransaction) : check unit * CDeterministicMNManager :=
  match txs with
  | [] => (Ok tt, m)
  | tx :: txs =>
      let r := let! _ := CheckSpecialTx (answers evo m) tx pprev in ProcessSpecialTx tx in
      let m := if asks (fun f => CheckSpecialTx f tx pprev)
               then match block_asked tx pprev with Some h => asked evo m h | None => m end else m in
      match r with
      | Ok _ => special_loop evo m pprev txs
      | Throw e => (Throw e, m)
      end
  end.

(** The questions of the loop over the commitments. *)
Fixpoint commitments_asked (evo : EvoStore) (m : CDeterministicMNManager) (nHeight : Z) (qcs : list (Z * CFinalCommitment)) : CDeterministicMNManager :=
  match qcs with
  | [] => m
  | (_, qc) :: qcs =>
      let r := ProcessCommitment llmqs (answers evo m) chain evo nHeight qc in
      let m := if asks (fun f => ProcessCommitment llmqs f chain evo nHeight qc) then asked evo m (quorumHash qc) else m in
      match r with Ok evo => commitments_asked evo m nHeight qcs | Throw _ => m end
  end.

(** [quorumBlockProcessor->ProcessBlock] *)
Definition quorum_block (evo : EvoStore) (m : CDeterministicMNManager) (block : CBlock) (nHeight : Z) : check unit * (EvoStore * CDeterministicMNManager) :=
  let '(r, evo') := QuorumProcessor.ProcessBlock llmqs (answers evo m) chain evo block nHeight fDIP0003Active in
  let m := if negb fDIP0003Active then m
           else match (let! qcs := GetCommitmentsFromBlock block fDIP0003Active in
                       let! _ := required_loop llmqs chain evo nHeight qcs llmqs in Ok qcs) with
                | Ok qcs => commitments_asked evo m nHeight qcs
                | Throw _ => m
                end in
  (r, (evo', m)).

(** [deterministicMNManager->ProcessBlock] *)
Definition manager_block (evo : EvoStore) (m : CDeterministicMNManager) (block : CBlock) (nHeight : Z) (pindexPrev : option (list Z * Z))
  : check unit * (EvoStore * CDeterministicMNManager) :=
  match pindexPrev with
  | None => (if fDIP0003Active then Throw AssertFails else Ok tt, (evo, m))
  | Some (prevHash, prevHeight) =>
      DeterministicMNs.ProcessBlock llmqs node nMasternodeMinimumConfirmations evo m block nHeight prevHash prevHeight fDIP0003Active
  end.

(** The block's own entry has the height [nHeight] and the predecessor [pprev]. *)
Definition ProcessSpecialTxsInBlock (evo : EvoStore) (m : CDeterministicMNManager) (block : CBlock) (nHeight : Z) (pprev : option nat)
  : check unit * (EvoStore * CDeterministicMNManager) :=
  let '(r, m) := special_loop evo m pprev (vtx block) in
  match (let! _ := r in index_entry pprev) with
  | Throw e => (Throw e, (evo, m))
  | Ok prev =>
      let '(r, (evo, m)) := quorum_block evo m block nHeight in
      match r with
      | Throw e => (Throw e, (evo, m))
      | Ok _ =>
          let '(r, (evo, m)) := manager_block evo m block nHeight prev in
          match r with
          | Throw e => (Throw e, (evo, m))
          | Ok _ => let '(r, m) := CheckCbTxMerkleRootMNList evo m block prev in (r, (evo, m))
          end
      end
  end.

Definition UndoSpecialTxsInBlock (evo : EvoStore) (m : CDeterministicMNManager) (proc : CQuorumBlockProcessor) (block : CBlock)
  : check (bool * (EvoStore * CDeterministicMNManager * CQuorumBlockProcessor)) :=
  if negb (forallb UndoSpecialTx (reverse (vtx block))) then Ok (false, (evo, m, proc))
  else
    let '(evo, m) := DeterministicMNs.UndoBlock evo m block in
    let! r := QuorumProcessor.UndoBlock evo proc block fDIP0003Active in
    let '(ok, (evo, proc)) := r in
    Ok (ok, (evo, m, proc)).
End SpecialTx.

(** ** What holds of a block whose transactions passed *)

(** A check ends without an assertion or an invalid pointer. *)
Definition no_assert {A} (m : check A) : Prop := m <> Throw AssertFails.
Lemma no_assert_bind {A B} (m : check A) (k : A -> check B) : no_assert m -> (forall a, m = Ok a -> no_assert (k a)) -> no_assert (rbind m k).
Proof. destruct m as [a|e]; cbn; [intros _ Hk; by apply Hk|intros He _ E; apply He; by injection E as ->]. Qed.
Lemma no_assert_reports {A} (m : check A) : reports m -> no_assert m.
Proof. intros Hr ->. exact Hr. Qed.

(** Guards and bindings of a check; leaves the calls that may assert. *)
Ltac no_asserts :=
  repeat first
    [ discriminate
    | match goal with |- no_assert (if ?b then _ else _) => destruct b eqn:? end
    | apply no_assert_bind; [|intros ? ?]
    | match goal with |- no_assert (match ?o with Some _ => _ | None => _ end) => destruct o eqn:? end ].

(** The types are told apart. *)
Ltac by_type := repeat match goal with |- context [nType ?d =? ?t] => destruct (Z.eqb_spec (nType d) t) as [?Ht|?Ht] end.

Section Checked.
Context `{BLSCurve}.
Context (RecoverCompact : list Z -> list Z -> option (list Z)) (llmqs : Llmqs) (node : NodeState) (nMasternodeMinimumConfirmations : Z).
Context (chain : ChainState).
Implicit Types (tx : CTransaction) (hist : list CDeterministicMNList) (evo : EvoStore) (m : CDeterministicMNManager).

(** The block index around a block on [pprev] with the hash [own]: a tree with sound skip
    pointers, whose map holds no invalid pointer; the block itself, if it is there already,
    is above [pprev], whose hash is another; and the sessions of the configured quorums have a first block. *)
Record view_ok (own : list Z) (h : Z) (pprev : nat) (prev : Chain.CBlockIndex) : Prop := {
  view_tree : Chain.tree_ok (entries chain);
  view_skips : Chain.skips_ok (entries chain);
  view_map : forall hash p, mapBlockIndex chain !! hash = Some p -> is_Some (entries chain !! p);
  view_prev : entries chain !! pprev = Some prev;
  view_own : forall p e, mapBlockIndex chain !! own = Some p -> entries chain !! p = Some e -> Chain.nHeight prev < Chain.nHeight e;
  view_hash : Chain.phashBlock prev <> own;
  view_sessions : forall type params, (type, params) ∈ llmqs -> is_Some (GetQuorumBlockHash llmqs chain type h);
}.

(** What came from the wire: bytes, and an extra payload only of version 3. *)
Definition from_wire tx : Prop := bytes_ok (vExtraPayload (tx_data tx)) /\ (nVersion (tx_data tx) <> 3 -> vExtraPayload (tx_data tx) = []).

Context (own : list Z) (h : Z) (pprev : nat) (prev : Chain.CBlockIndex) (Hview : view_ok own h pprev prev) (Hllmqs : llmqs_ok llmqs).
Context (Hprefixes : prefixes_ok (prefixes node)).

Lemma quorum_at_total (fetch : list Z -> option CDeterministicMNList) type hash params : is_Some (fetch hash) -> llmqs_at llmqs type = Some params ->
  is_Some (quorum_at llmqs fetch type hash).
Proof. intros [l El] Ep. unfold quorum_at, GetAllQuorumMembers. rewrite El. cbn. rewrite Ep. cbn. by eexists. Qed.

(** What the check of a commitment says. *)
Record commitment_passed tx (qcTx : CFinalCommitmentTxPayload) : Prop := {
  com_payload : GetTxPayload CFinalCommitmentTxPayload (vExtraPayload (tx_data tx)) = Some qcTx;
  com_quorum : exists p b, mapBlockIndex chain !! quorumHash (commitment qcTx) = Some p /\ entries chain !! p = Some b /\
    Chain.GetAncestor (entries chain) pprev (Chain.nHeight b) = Some (Some p);
  com_params : exists params, llmqs_at llmqs (llmqType (commitment qcTx)) = Some params /\
    (IsNull (commitment qcTx) = false -> length (validMembers (commitment qcTx)) = llmq_size params);
}.

Lemma CheckLLMQCommitment_inv (fetch : list Z -> option CDeterministicMNList) tx :
  CheckLLMQCommitment llmqs fetch chain tx (Some pprev) = Ok tt -> exists qcTx, commitment_passed tx qcTx.
Proof.
  unfold CheckLLMQCommitment, deref. intros E. passes E. cbn [asserted] in *.
  match goal with B : Ok pprev = Ok ?a |- _ => injection B as <- end.
  repeat match goal with B : asserted _ = Ok _ |- _ => apply asserted_Ok in B end. bool_to_prop. subst.
  match goal with B : bool_decide (_ = Some _) = true |- _ => apply bool_decide_eq_true in B; subst end.
  eexists. split; [done| |].
  - do 2 eexists. split_and!; done.
  - eexists. split; [done|]. intros Hn. rewrite Hn in E. passes E. bool_to_prop.
    match goal with V : Verify _ _ ?members false = true |- _ => destruct (Verify_inv llmqs _ _ _ V) as (params & Ep & _ & _ & Hs & _) end.
    assert (l = params) as -> by congruence. unfold VerifySizes in Hs. apply andb_true_iff in Hs as [Hs1%Nat.eqb_eq Hs2%Nat.eqb_eq]. done.
Qed.

Lemma CheckLLMQCommitment_total (fetch : list Z -> option CDeterministicMNList) tx : (forall q, is_Some (fetch q)) ->
  no_assert (CheckLLMQCommitment llmqs fetch chain tx (Some pprev)).
Proof using Hview Hllmqs.
  intros Hf. unfold CheckLLMQCommitment, deref. cbn [asserted rbind]. rewrite (view_prev _ _ _ _ Hview). cbn [asserted rbind]. no_asserts.
  - match goal with Hm : mapBlockIndex chain !! _ = Some _ |- _ => by destruct (view_map _ _ _ _ Hview _ _ Hm) as [e ->] end.
  - rewrite (Chain.GetAncestor_spec (entries chain) (view_tree _ _ _ _ Hview) (view_skips _ _ _ _ Hview) pprev prev) by apply (view_prev _ _ _ _ Hview). done.
  - match goal with Hp : llmqs_at llmqs _ = Some ?p |- _ => destruct (llmqs_at_own llmqs Hllmqs _ _ Hp) as (_ & -> & _);
      destruct (quorum_at_total fetch _ (quorumHash (commitment c)) p (Hf _) Hp) as [ms ->] end. done.
Qed.

Lemma CheckSpecialTx_total (fetch : list Z -> option CDeterministicMNList) tx : (forall q, exists l, fetch q = Some l /\ list_ok l) -> from_wire tx ->
  no_assert (CheckSpecialTx RecoverCompact llmqs node chain true fetch tx (Some pprev)).
Proof using Hview Hllmqs Hprefixes.
  intros Hf [Hb _]. unfold CheckSpecialTx. destruct (_ || _); [done|]. rewrite andb_false_r. unfold index_entry, deref.
  rewrite (view_prev _ _ _ _ Hview). cbn [asserted rbind]. set (p := Some _).
  by_type; [by apply no_assert_reports, CheckProRegTx_reports|by apply no_assert_reports, CheckProUpServTx_reports|
    by apply no_assert_reports, CheckProUpRegTx_reports|by apply no_assert_reports, CheckProUpRevTx_reports|..]; try done.
  - unfold CheckCbTx. no_asserts.
  - apply CheckLLMQCommitment_total. intros q. destruct (Hf q) as (l & -> & _). done.
Qed.

(** A masternode transaction that passed satisfies what the manager relies on; the list
    it was checked against has the entries of [from]. *)
Lemma CheckSpecialTx_checked (fetch : list Z -> option CDeterministicMNList) tx old (from := SetHeight old (Chain.nHeight prev)) :
  fetch (Chain.phashBlock prev) = Some old -> CheckSpecialTx RecoverCompact llmqs node chain true fetch tx (Some pprev) = Ok tt ->
  tx_checked RecoverCompact llmqs node from tx.
Proof using Hview.
  intros Ef E Hv. unfold CheckSpecialTx in E. rewrite (proj2 (Z.eqb_eq _ _) Hv) in E. cbn [negb orb] in E.
  split_and!; intros Ht; rewrite Ht in E; cbn [Z.eqb bool_decide is_Some andb negb] in E; rewrite andb_false_r in E;
    unfold index_entry, deref in E; rewrite (view_prev _ _ _ _ Hview) in E; cbn [asserted rbind] in E.
  - apply CheckProRegTx_inv in E as (ptx & l & o & El & Hp). assert (l = old) as -> by congruence. exists ptx, o. by destruct Hp.
  - apply CheckProUpServTx_inv in E as (ptx & l & El & Hp). assert (l = old) as -> by congruence. exists ptx. by destruct Hp.
  - apply CheckProUpRegTx_inv in E as (ptx & l & El & Hp). assert (l = old) as -> by congruence. exists ptx. by destruct Hp.
  - apply CheckProUpRevTx_inv in E as (ptx & l & El & Hp). assert (l = old) as -> by congruence. exists ptx. by destruct Hp.
  - apply CheckLLMQCommitment_inv in E as (qcTx & [Hpay _ (params & Hp & Hl)]). exists qcTx. split; [done|]. intros Hn. exists params. split; [done|by apply Hl].
Qed.

(** A commitment that passed is not for the block itself. *)
Lemma commitment_not_own (fetch : list Z -> option CDeterministicMNList) tx q :
  CheckSpecialTx RecoverCompact llmqs node chain true fetch tx (Some pprev) = Ok tt -> commitment_query tx = Some q -> q <> own.
Proof using Hview.
  intros E Hq ->. unfold commitment_query in Hq. destruct (Z.eqb_spec (nVersion (tx_data tx)) 3) as [Hv|]; [|done]. cbn [negb] in Hq.
  destruct (Z.eqb_spec (nType (tx_data tx)) TRANSACTION_QUORUM_COMMITMENT) as [Ht|]; [|done].
  unfold CheckSpecialTx in E. rewrite Hv, Ht in E. cbn [Z.eqb negb orb] in E. rewrite andb_false_r in E.
  unfold index_entry, deref in E. rewrite (view_prev _ _ _ _ Hview) in E. cbn in E.
  apply CheckLLMQCommitment_inv in E as (qcTx & [Hpay (p & b & Hm & Hb & Ha) _]). rewrite Hpay in Hq. cbn in Hq.
  destruct (negb (IsNull _)); [|done]. injection Hq as Hq. rewrite Hq in Hm. pose proof (view_own _ _ _ _ Hview p b Hm Hb) as Hlt.
  unfold Chain.GetAncestor in Ha. rewrite (view_prev _ _ _ _ Hview) in Ha. cbn in Ha.
  rewrite (proj2 (Z.ltb_lt _ _) Hlt) in Ha. done.
Qed.
End Checked.

Section Blocks.
Context `{BLSCurve}.
Context (RecoverCompact : list Z -> list Z -> option (list Z)) (llmqs : Llmqs) (node : NodeState) (nMasternodeMinimumConfirmations : Z).
Context (chain : ChainState).
Implicit Types (tx : CTransaction) (hist : list CDeterministicMNList) (evo : EvoStore) (m : CDeterministicMNManager).
Context (own : list Z) (h : Z) (pprev : nat) (prev : Chain.CBlockIndex) (Hview : view_ok llmqs chain own h pprev prev) (Hllmqs : llmqs_ok llmqs).
Context (Hprefixes : prefixes_ok (prefixes node)).
Local Abbreviation reach := (reach RecoverCompact llmqs nMasternodeMinimumConfirmations).

(** *** The lists the checks are answered with *)

Lemma spec_list_ok hist q : hist_ok hist -> list_ok (spec_list hist q).
Proof. intros Hh. destruct (parent_ok hist q 0 Hh). by split. Qed.
Lemma answers_reach evo m hist q : reach evo m hist -> answers evo m q = Some (spec_list hist q) /\ list_ok (spec_list hist q).
Proof.
  intros (Hh & Hs & Hc)%reach_ok. destruct (GetListForBlock_ok evo hist m q Hh Hs Hc) as (m' & E & _).
  unfold answers. rewrite E. split; [done|by apply spec_list_ok].
Qed.
Lemma asked_reach evo m hist q : reach evo m hist -> reach evo (asked evo m q) hist.
Proof. intros Hr. unfold asked. destruct (GetListForBlock evo m q) as [[l m']|] eqn:E; [|done]. by eapply reach_query. Qed.

(** A check that passed, with the answers of a manager of the history. *)
Definition passed hist tx : Prop := exists fetch, (forall q, fetch q = Some (spec_list hist q)) /\
  CheckSpecialTx RecoverCompact llmqs node chain true fetch tx (Some pprev) = Ok tt.

Lemma special_loop_ok hist txs : forall evo m, reach evo m hist -> (forall tx, tx ∈ txs -> from_wire tx) ->
  let '(r, m') := special_loop RecoverCompact llmqs node chain true evo m (Some pprev) txs in
  reach evo m' hist /\ no_assert r /\ (r = Ok tt -> forall tx, tx ∈ txs -> passed hist tx).
Proof using Hview Hllmqs Hprefixes.
  induction txs as [|tx txs IH]; intros evo m Hr Hw; cbn [special_loop]; [split_and!; [done..|by intros _ ? ?%elem_of_nil]|].
  match goal with |- context [match ?r with Ok _ => special_loop _ _ _ _ _ _ ?m1 _ _ | _ => _ end] => set (m' := m1); set (res := r) end.
  assert (reach evo m' hist) as Hr' by (unfold m'; destruct (asks _); [|done]; destruct (block_asked _ _ _); [|done]; by apply asked_reach).
  assert (no_assert res) as Hn.
  { apply no_assert_bind; [|intros _ _; unfold ProcessSpecialTx; no_asserts; done]. eapply CheckSpecialTx_total; [done..| |apply Hw; by left].
    intros q. exists (spec_list hist q). by apply answers_reach. }
  destruct res as [[]|e] eqn:E; [|by split_and!]. specialize (IH evo m' Hr' (fun x Hx => Hw x ltac:(by right))).
  destruct (special_loop _ _ _ _ _ _ _ _ _) as [r m'']. destruct IH as (H1 & H2 & H3). split_and!; [done..|].
  intros Hok x [->|Hx]%elem_of_cons; [|by apply H3]. exists (answers evo m). split; [intros q; by apply answers_reach|].
  unfold res in E. by destruct (CheckSpecialTx _ _ _ _ _ _ _ _) as [[]|].
Qed.

(** *** The commitments leave the lists alone *)

Definition lists_same evo evo' : Prop := forall q, ReadSnapshot evo' q = ReadSnapshot evo q /\ ReadDiff evo' q = ReadDiff evo q.
Lemma ProcessCommitment_lists fetch evo evo' qc : ProcessCommitment llmqs fetch chain evo h qc = Ok evo' -> lists_same evo evo'.
Proof.
  unfold ProcessCommitment. intros E.
  assert (evo' = evo \/ exists t q v, evo' = EvoDB_Write evo (DB_MINED_COMMITMENT t q) v) as [->|(t & q & v & ->)]; [|done|].
  - passes E. destruct (IsNull qc); passes E; injection E as <-; [by left|right; by do 3 eexists].
  - intros k. by rewrite ReadSnapshot_Write, ReadDiff_Write, !decide_False.
Qed.
Lemma lists_same_trans evo1 evo2 evo3 : lists_same evo1 evo2 -> lists_same evo2 evo3 -> lists_same evo1 evo3.
Proof. intros H1 H2 q. destruct (H1 q), (H2 q). by split; etransitivity. Qed.
Lemma process_loop_lists fetch qcs : forall evo, lists_same evo (snd (process_loop llmqs fetch chain evo h qcs)).
Proof.
  induction qcs as [|[t qc] qcs IH]; intros evo; cbn [process_loop]; [done|].
  destruct (ProcessCommitment llmqs fetch chain evo h qc) as [evo1|e] eqn:E; [|done].
  eapply lists_same_trans; [by eapply ProcessCommitment_lists|apply IH].
Qed.
Lemma quorum_lists fetch evo block : lists_same evo (snd (QuorumProcessor.ProcessBlock llmqs fetch chain evo block h true)).
Proof. unfold QuorumProcessor.ProcessBlock. cbn [negb]. destruct (rbind _ _); [apply process_loop_lists|done]. Qed.

Lemma commitments_asked_reach hist evo0 qcs : forall evo m, reach evo0 m hist -> lists_same evo0 evo ->
  reach evo0 (commitments_asked llmqs chain evo m h qcs) hist.
Proof.
  induction qcs as [|[t qc] qcs IH]; intros evo m Hr Hs; cbn [commitments_asked]; [done|].
  match goal with |- context [commitments_asked _ _ _ ?m1 _ _] => set (m' := m1) end.
  assert (reach evo0 m' hist) as Hr'.
  { unfold m'. destruct (asks _); [|done]. apply (reach_other _ _ _ evo); [|intros q; by destruct (Hs q)].
    apply asked_reach. by apply (reach_other _ _ _ evo0). }
  destruct (ProcessCommitment _ _ _ _ _ _) as [evo1|e] eqn:E; [|done]. apply IH; [done|].
  eapply lists_same_trans; [done|by eapply ProcessCommitment_lists].
Qed.

(** *** The handler of the commitments does not assert *)

Lemma required_known evo type params : (type, params) ∈ llmqs -> is_Some (IsCommitmentRequired llmqs chain evo type h).
Proof using Hview Hllmqs.
  intros Hin. destruct (view_sessions _ _ _ _ _ _ Hview _ _ Hin) as [hash E]. unfold IsCommitmentRequired. rewrite E. cbn [mbind option_bind].
  unfold IsMiningPhase. rewrite (llmqs_at_elem llmqs Hllmqs _ _ Hin). by destruct (negb (uint256_IsNull hash)).
Qed.

Lemma ProcessCommitment_total fetch evo qc : (forall q, is_Some (fetch q)) -> is_Some (llmqs_at llmqs (llmqType qc)) ->
  no_assert (ProcessCommitment llmqs fetch chain evo h qc).
Proof using Hview Hllmqs.
  intros Hf [params Hp]. unfold ProcessCommitment. rewrite Hp. cbn [asserted rbind]. destruct (llmqs_at_own llmqs Hllmqs _ _ Hp) as (Hin & Ht & _).
  destruct (view_sessions _ _ _ _ _ _ Hview _ _ Hin) as [hash Eh]. rewrite Eh. cbn [asserted rbind]. rewrite Ht. no_asserts.
  - unfold IsMiningPhase. by rewrite Hp.
  - by destruct (quorum_at_total llmqs fetch (llmqType qc) hash params (Hf _) Hp) as [ms ->].
Qed.

Lemma process_loop_total fetch qcs : (forall q, is_Some (fetch q)) -> (forall qc, qc ∈ map snd qcs -> is_Some (llmqs_at llmqs (llmqType qc))) ->
  forall evo, no_assert (fst (process_loop llmqs fetch chain evo h qcs)).
Proof using Hview Hllmqs.
  intros Hf. induction qcs as [|[t qc] qcs IH]; intros Hq evo; cbn [process_loop]; [done|].
  pose proof (ProcessCommitment_total fetch evo qc Hf (Hq qc ltac:(by left))) as Hn.
  destruct (ProcessCommitment llmqs fetch chain evo h qc) as [evo1|e]; [apply IH; intros x Hx; apply Hq; by right|]. cbn. intros [= ->]. by apply Hn.
Qed.

Lemma commitments_loop_asserts vtx ret : no_assert (commitments_loop vtx ret).
Proof. revert ret. induction vtx as [|tx vtx IH]; intros ret; cbn [commitments_loop]; no_asserts; [done|apply IH..]. Qed.
Lemma required_loop_total evo qcs types : (forall p, p ∈ types -> p ∈ llmqs) -> no_assert (required_loop llmqs chain evo h qcs types).
Proof using Hview Hllmqs.
  induction types as [|[type params] types IH]; intros Hs; cbn [required_loop]; [done|].
  destruct (required_known evo type params (Hs _ ltac:(by left))) as [b ->]. cbn [asserted rbind]. no_asserts. apply IH. intros p Hp. apply Hs. by right.
Qed.

Lemma quorum_total fetch evo block : (forall q, is_Some (fetch q)) ->
  (forall qc, qc ∈ tx_commitments (vtx block) -> is_Some (llmqs_at llmqs (llmqType qc))) ->
  no_assert (fst (QuorumProcessor.ProcessBlock llmqs fetch chain evo block h true)).
Proof using Hview Hllmqs.
  intros Hf Hq. unfold QuorumProcessor.ProcessBlock. cbn [negb].
  assert (no_assert (GetCommitmentsFromBlock block true)) as Hg by (unfold GetCommitmentsFromBlock; no_asserts; try done; apply commitments_loop_asserts).
  destruct (GetCommitmentsFromBlock block true) as [qcs|e] eqn:Eg; cbn [rbind]; [|intros [= ->]; by apply Hg].
  pose proof (required_loop_total evo qcs llmqs ltac:(done)) as Hr.
  destruct (required_loop llmqs chain evo h qcs llmqs) as [[]|e] eqn:Er; cbn [rbind]; [|intros [= ->]; by apply Hr].
  apply process_loop_total; [done|]. destruct (GetCommitmentsFromBlock_Ok block true qcs Eg) as (_ & _ & Hp).
  intros qc Hqc. apply Hq. rewrite <- (keyed_values (tx_commitments (vtx block))). by rewrite <- Hp.
Qed.

(** *** The list built twice *)

Definition knows evo m hist : Prop := hist_ok hist /\ stored evo hist /\ cache_ok hist (mnListsCache m).

Lemma ProcessTx_ext (fetch fetch' : list Z -> option CDeterministicMNList) nHeight new tx : (forall q, commitment_query tx = Some q -> fetch q = fetch' q) ->
  ProcessTx llmqs node fetch nHeight new tx = ProcessTx llmqs node fetch' nHeight new tx.
Proof.
  intros Hq. unfold ProcessTx, commitment_query in *. destruct (nVersion (tx_data tx) =? 3); cbn [negb] in *; [|done].
  by_type; try congruence; try done.
  all: unfold ProcessCommitmentTx; destruct (GetTxPayload CFinalCommitmentTxPayload _) as [qc|]; [|done]; cbn [asserted rbind mbind option_bind] in *.
  all: destruct (negb (IsNull (commitment qc))); [|done]; by rewrite (Hq _ eq_refl).
Qed.

Lemma ProcessTxs_same hist1 hist2 txs : (forall tx q, tx ∈ txs -> commitment_query tx = Some q -> spec_list hist1 q = spec_list hist2 q) ->
  forall evo1 m1 evo2 m2 nHeight new, knows evo1 m1 hist1 -> knows evo2 m2 hist2 ->
  fst (ProcessTxs llmqs node evo1 m1 nHeight new txs) = fst (ProcessTxs llmqs node evo2 m2 nHeight new txs).
Proof.
  induction txs as [|tx txs IH]; intros Hq evo1 m1 evo2 m2 nHeight new (Hh1 & Hs1 & Hc1) (Hh2 & Hs2 & Hc2); cbn [ProcessTxs]; [done|].
  rewrite (ProcessTx_ext (fun q => option_map fst (GetListForBlock evo1 m1 q)) (fun q => option_map fst (GetListForBlock evo2 m2 q))).
  2: { intros q Eq. destruct (GetListForBlock_ok evo1 hist1 m1 q Hh1 Hs1 Hc1) as (? & -> & _), (GetListForBlock_ok evo2 hist2 m2 q Hh2 Hs2 Hc2) as (? & -> & _).
       cbn. f_equal. by apply (Hq tx q ltac:(by left)). }
  destruct (ProcessTx _ _ _ _ _ _) as [new'|e]; [|by cbn]. apply IH; [intros x q Hx; apply Hq; by right| |].
  - destruct (commitment_query tx) as [q|]; [|done]. by destruct (GetListForBlock_ok evo1 hist1 m1 q Hh1 Hs1 Hc1) as (m' & -> & ?).
  - destruct (commitment_query tx) as [q|]; [|done]. by destruct (GetListForBlock_ok evo2 hist2 m2 q Hh2 Hs2 Hc2) as (m' & -> & ?).
Qed.

Lemma build_same hist1 hist2 evo1 m1 evo2 m2 block prevHash prevHeight : knows evo1 m1 hist1 -> knows evo2 m2 hist2 ->
  spec_list hist1 prevHash = spec_list hist2 prevHash ->
  (forall tx q, tx ∈ drop 1 (vtx block) -> commitment_query tx = Some q -> spec_list hist1 q = spec_list hist2 q) ->
  fst (BuildNewListFromBlock llmqs node nMasternodeMinimumConfirmations evo1 m1 block prevHash prevHeight) =
  fst (BuildNewListFromBlock llmqs node nMasternodeMinimumConfirmations evo2 m2 block prevHash prevHeight).
Proof.
  intros (Hh1 & Hs1 & Hc1) (Hh2 & Hs2 & Hc2) Hp Hq. unfold BuildNewListFromBlock.
  destruct (GetListForBlock_ok evo1 hist1 m1 prevHash Hh1 Hs1 Hc1) as (m1' & -> & Hc1'), (GetListForBlock_ok evo2 hist2 m2 prevHash Hh2 Hs2 Hc2) as (m2' & -> & Hc2').
  rewrite <- Hp. destruct (open_block _ _ _ _) as [new|]; [|done].
  pose proof (ProcessTxs_same hist1 hist2 (drop 1 (vtx block)) Hq evo1 m1' evo2 m2' (prevHeight + 1) new (conj Hh1 (conj Hs1 Hc1')) (conj Hh2 (conj Hs2 Hc2'))) as E.
  destruct (ProcessTxs _ _ evo1 _ _ _ _), (ProcessTxs _ _ evo2 _ _ _ _). cbn in E. subst. done.
Qed.

(** *** The whole block *)

Context (hist : list CDeterministicMNList).
Local Abbreviation from := (parent_list hist (Chain.phashBlock prev) (Chain.nHeight prev)).

(** What no check establishes: new transaction hashes, a collateral that hashes like no
    other property, and no operator key taken by a registrar update from another
    masternode of the block. *)
Record block_fits (txs : list CTransaction) : Prop := {
  fit_fresh : forall tx, tx ∈ txs -> mnMap from !! tx_hash tx = None /\ uint256_IsNull (tx_hash tx) = false;
  fit_distinct : NoDup (map tx_hash txs);
  fit_collateral : forall tx ptx p d, tx ∈ txs -> GetTxPayload CProRegTx.t (vExtraPayload (tx_data tx)) = Some ptx ->
    mnMap from !! p = Some d -> SerializeHash (register_collateral tx ptx) ∈ property_keys d -> collateralOutpoint d = register_collateral tx ptx;
  fit_operators : forall tx ptx q k, tx ∈ txs -> nVersion (tx_data tx) = 3 -> nType (tx_data tx) = TRANSACTION_PROVIDER_UPDATE_REGISTRAR ->
    GetTxPayload CProUpRegTx.t (vExtraPayload (tx_data tx)) = Some ptx ->
    (q, k) ∈ keys_of txs -> k ∈ hash_of (CProUpRegTx.pubKeyOperator ptx) -> q = CProUpRegTx.proTxHash ptx;
}.

Lemma passed_valid (block : CBlock) : (forall tx, tx ∈ vtx block -> passed hist tx) -> block_fits (drop 1 (vtx block)) ->
  block_valid RecoverCompact llmqs node from (drop 1 (vtx block)).
Proof using Hview.
  intros Hp [? ? ? ?]. split; try done. intros tx Htx. assert (tx ∈ vtx block) as Hin by (rewrite <- (take_drop 1 (vtx block)); apply elem_of_app; by right).
  destruct (Hp tx Hin) as (fetch & Hf & E). eapply CheckSpecialTx_checked; [done| |done]. apply Hf.
Qed.

Lemma passed_types (block : CBlock) : (forall tx, tx ∈ vtx block -> from_wire tx) -> (forall tx, tx ∈ vtx block -> passed hist tx) ->
  forall qc, qc ∈ tx_commitments (vtx block) -> is_Some (llmqs_at llmqs (llmqType qc)).
Proof using Hview.
  intros Hw Hp qc Hqc. apply list_elem_of_omap in Hqc as (tx & Htx & E). destruct (Z.eqb_spec (nType (tx_data tx)) TRANSACTION_QUORUM_COMMITMENT) as [Ht|]; [|done].
  destruct (decide (nVersion (tx_data tx) = 3)) as [Hv|Hv].
  - destruct (Hp tx Htx) as (fetch & Hf & Ec).
    destruct (CheckSpecialTx_checked RecoverCompact llmqs node chain own h pprev prev Hview fetch tx _ (Hf _) Ec Hv) as (_ & _ & _ & _ & C).
    destruct (C Ht) as (q & Eq & _). unfold CheckSpecialTx in Ec. rewrite Hv, Ht in Ec. cbn [Z.eqb negb orb] in Ec. rewrite andb_false_r in Ec.
    unfold index_entry, deref in Ec. rewrite (view_prev _ _ _ _ _ _ Hview) in Ec. cbn in Ec.
    apply CheckLLMQCommitment_inv in Ec as (q' & [Eq' _ (params & Ep & _)]). assert (q' = q) as -> by congruence.
    rewrite Eq in E. cbn in E. injection E as <-. by rewrite Ep.
  - rewrite (proj2 (Hw tx Htx) Hv) in E. done.
Qed.

Lemma ProcessTxs_reach evo hist' txs : forall m nHeight new, reach evo m hist' -> reach evo (snd (ProcessTxs llmqs node evo m nHeight new txs)) hist'.
Proof.
  induction txs as [|tx txs IH]; intros m nHeight new Hr; cbn [ProcessTxs]; [done|].
  match goal with |- context [ProcessTxs _ _ _ ?m1 _ _ _] => set (m' := m1) end.
  assert (reach evo m' hist') as Hr' by (unfold m'; destruct (commitment_query tx); [by apply asked_reach|done]).
  destruct (ProcessTx _ _ _ _ _ _); [by apply IH|done].
Qed.
Lemma build_reach evo m hist' block prevHash prevHeight : reach evo m hist' ->
  reach evo (snd (BuildNewListFromBlock llmqs node nMasternodeMinimumConfirmations evo m block prevHash prevHeight)) hist'.
Proof.
  intros Hr. unfold BuildNewListFromBlock. destruct (GetListForBlock evo m prevHash) as [[old m1]|] eqn:E; [|done].
  assert (reach evo m1 hist') as Hr1 by (by eapply reach_query). destruct (open_block _ _ _ _) as [new|]; [|done].
  pose proof (ProcessTxs_reach evo hist' (drop 1 (vtx block)) m1 (prevHeight + 1) new Hr1) as H1. by destruct (ProcessTxs _ _ _ _ _ _ _).
Qed.

(** The root of the coinbase is the list's. *)
Definition commits_to (block : CBlock) (l : CDeterministicMNList) : Prop :=
  forall coinbase rest, vtx block = coinbase :: rest -> nType (tx_data coinbase) = TRANSACTION_COINBASE ->
    exists cbTx, GetTxPayload CCbTx (vExtraPayload (tx_data coinbase)) = Some cbTx /\
      CalcMerkleRoot (CSimplifiedMNList_of l) = (merkleRootMNList cbTx, false).

Lemma root_checked evo m hist' new block : reach evo m hist' -> vtx block <> [] ->
  fst (BuildNewListFromBlock llmqs node nMasternodeMinimumConfirmations evo m block (Chain.phashBlock prev) (Chain.nHeight prev)) = Ok new ->
  let '(r, m') := CheckCbTxMerkleRootMNList llmqs node nMasternodeMinimumConfirmations evo m block (Some (Chain.phashBlock prev, Chain.nHeight prev)) in
  reach evo m' hist' /\ no_assert r /\ (r = Ok tt -> commits_to block new).
Proof.
  intros Hr Hne Hb. unfold CheckCbTxMerkleRootMNList, commits_to. destruct (vtx block) as [|coinbase rest]; [done|].
  destruct (Z.eqb_spec (nType (tx_data coinbase)) TRANSACTION_COINBASE) as [Ht|Ht]; cbn [negb]; [|split_and!; [done..|intros _ c r' [= <- <-] E; congruence]].
  destruct (GetTxPayload CCbTx _) as [cbTx|] eqn:Ep; [|by split_and!]. unfold CalcCbTxMerkleRootMNList.
  pose proof (build_reach evo m hist' block (Chain.phashBlock prev) (Chain.nHeight prev) Hr) as Hr'.
  destruct (BuildNewListFromBlock _ _ _ _ _ _ _ _) as [r m']. cbn in Hb, Hr'. subst r. cbn [rbind].
  destruct (CalcMerkleRoot (CSimplifiedMNList_of new)) as [root mutated] eqn:Er. destruct mutated; cbn [negb]; [by split_and!|].
  case_bool_decide as Eroot; cbn [negb]; [|by split_and!]. split_and!; [done..|]. intros _ c r' [= <- <-] _. exists cbTx. by subst.
Qed.

(** What is mined once the block's commitments are stored. *)
Lemma mined_stored fetch evo (block : CBlock) qcs : block_good llmqs fetch chain evo h (vtx block) -> GetCommitmentsFromBlock block true = Ok qcs ->
  forall qc, qc ∈ tx_commitments (vtx block) -> IsNull qc = false ->
    GetMinedCommitment (fold_left store (map snd qcs) evo) (llmqType qc) (quorumHash qc) = Some qc.
Proof using Hllmqs.
  intros Hg Eg qc Hqc Hnull. destruct (GetCommitmentsFromBlock_Ok _ _ _ Eg) as (_ & Hnd & Hp).
  assert (map snd qcs ≡ₚ tx_commitments (vtx block)) as Hps by (rewrite <- (keyed_values (tx_commitments _)); by apply fmap_Permutation).
  destruct (read_stores (map snd qcs) evo) as [H1 _]; [by rewrite Hps|]. destruct (block_commitments_good _ _ _ _ _ _ Hg qc Hqc) as [[params Hparams] _ _ _].
  destruct (llmqs_at_own llmqs Hllmqs _ _ Hparams) as (_ & _ & Hu). unfold GetMinedCommitment. rewrite Hu. fold (commitment_key qc). rewrite H1; [done|by rewrite Hps|done].
Qed.

Lemma quorum_block_ok evo m (block : CBlock) : reach evo m hist -> (forall qc, qc ∈ tx_commitments (vtx block) -> is_Some (llmqs_at llmqs (llmqType qc))) ->
  let '(r, (evo', m')) := quorum_block llmqs chain true evo m block h in
  reach evo' m' hist /\ no_assert r /\ (r = Ok tt -> block_good llmqs (answers evo m) chain evo h (vtx block) /\
    exists qcs, GetCommitmentsFromBlock block true = Ok qcs /\ evo' = fold_left store (map snd qcs) evo).
Proof using Hview Hllmqs.
  intros Hr Hq. unfold quorum_block. cbn [negb]. pose proof (quorum_lists (answers evo m) evo block) as Hl.
  assert (forall q, is_Some (answers evo m q)) as Hf by (intros q; by destruct (answers_reach evo m hist q Hr) as [-> _]).
  pose proof (quorum_total (answers evo m) evo block Hf Hq) as Hn. pose proof (ProcessBlock_Ok llmqs (answers evo m) Hllmqs chain evo block h) as Hok.
  destruct (QuorumProcessor.ProcessBlock llmqs (answers evo m) chain evo block h true) as [r evo1]. cbn in Hl, Hn. split_and!; [|done|].
  - apply (reach_other _ _ _ evo); [|exact Hl]. destruct (rbind _ _); [|done]. by apply commitments_asked_reach.
  - intros ->. by apply Hok.
Qed.

(** The manager writes lists only. *)
Lemma manager_mined evo m block prevHash prevHeight type hash :
  GetMinedCommitment (fst (snd (DeterministicMNs.ProcessBlock llmqs node nMasternodeMinimumConfirmations evo m block h prevHash prevHeight true))) type hash =
  GetMinedCommitment evo type hash.
Proof.
  unfold DeterministicMNs.ProcessBlock. cbn [negb]. destruct (BuildNewListFromBlock _ _ _ _ _ _ _ _) as [[new|e] m1]; [|done].
  destruct (GetListForBlock evo m1 prevHash) as [[old m2]|]; [|done]. cbn [fst snd]. unfold GetMinedCommitment.
  destruct (_ || _); by rewrite !EvoDB_Read_Write, ?decide_False.
Qed.

Lemma special_block_ok evo m (block : CBlock) : reach evo m hist ->
  next_block hist block h (Chain.phashBlock prev) (Chain.nHeight prev) -> own = GetHash (bl_header block) ->
  vtx block <> [] -> (forall tx, tx ∈ vtx block -> from_wire tx) -> block_fits (drop 1 (vtx block)) ->
  match ProcessSpecialTxsInBlock RecoverCompact llmqs node nMasternodeMinimumConfirmations chain true evo m block h (Some pprev) with
  | (Ok _, (evo', m')) => exists l m'', reach evo' m' (l :: hist) /\ GetListForBlock evo' m' own = Some (l, m'') /\ blockHash l = own /\
      MasternodeList.nHeight l = h /\ list_ok l /\ successive from l /\ commits_to block l /\
      (forall tx, tx ∈ vtx block -> passed hist tx) /\
      exists fetch qcs, block_good llmqs fetch chain evo h (vtx block) /\ GetCommitmentsFromBlock block true = Ok qcs /\
        forall type hash, GetMinedCommitment evo' type hash = GetMinedCommitment (fold_left store (map snd qcs) evo) type hash
  | (Throw e, _) => e <> AssertFails
  end.
Proof using Hview Hllmqs Hprefixes.
  intros Hr Hnext Hown Hne Hw Hfit. unfold ProcessSpecialTxsInBlock.
  pose proof (special_loop_ok hist (vtx block) evo m Hr Hw) as Hl. destruct (special_loop _ _ _ _ _ _ _ _ _) as [r m1].
  destruct Hl as (Hr1 & Hn1 & Hp). destruct r as [[]|e]; cbn [rbind]; [|by intros ->]. specialize (Hp eq_refl).
  unfold index_entry, deref. rewrite (view_prev _ _ _ _ _ _ Hview). cbn [asserted rbind].
  pose proof (quorum_block_ok evo m1 block Hr1 (passed_types block Hw Hp)) as Hq. destruct (quorum_block _ _ _ _ _ _ _) as [r [evo2 m2]].
  destruct Hq as (Hr2 & Hn2 & Hmined). destruct r as [[]|e]; [|by intros ->]. destruct (Hmined eq_refl) as (Hg & qcs & Eg & ->).
  unfold manager_block. pose proof (passed_valid block Hp Hfit) as Hv. destruct (reach_ok _ _ _ _ _ _ Hr2) as (Hh2 & Hs2 & Hc2).
  set (evo2 := fold_left store (map snd qcs) evo) in *.
  pose proof (connect_ok RecoverCompact llmqs nMasternodeMinimumConfirmations evo2 m2 hist node block h _ _ Hh2 Hs2 Hc2 Hnext Hv) as Hc.
  pose proof (manager_mined evo2 m2 block (Chain.phashBlock prev) (Chain.nHeight prev)) as Hkeep.
  destruct (DeterministicMNs.ProcessBlock _ _ _ _ _ _ _ _ _ _) as [r [evo3 m3]] eqn:E. cbn [fst snd] in Hkeep. destruct Hc as [_ Hc].
  destruct r as [[]|[calls|]]; [|done|done]. destruct Hc as (new & mb & Eb & Hext & Hsucc & Hs3 & Hc3).
  set (l := SetBlockHash new (GetHash (bl_header block))) in *.
  assert (reach evo3 m3 (l :: hist)) as Hr3 by (by eapply reach_connect).
  assert (fst (BuildNewListFromBlock llmqs node nMasternodeMinimumConfirmations evo3 m3 block (Chain.phashBlock prev) (Chain.nHeight prev)) = Ok new) as Eb'.
  { rewrite <- (f_equal fst Eb : _ = Ok new). symmetry. apply (build_same hist (l :: hist)); [done|by apply reach_ok in Hr3| |].
    - symmetry. apply spec_list_cons. change (blockHash l) with (GetHash (bl_header block)). rewrite <- Hown. apply (view_hash _ _ _ _ _ _ Hview).
    - intros tx q Htx Eq. symmetry. apply spec_list_cons. change (blockHash l) with (GetHash (bl_header block)). rewrite <- Hown.
      destruct (Hp tx) as (fetch & _ & Ec); [rewrite <- (take_drop 1 (vtx block)); apply elem_of_app; by right|].
      by apply (commitment_not_own RecoverCompact llmqs node chain own h pprev prev Hview fetch tx q). }
  pose proof (root_checked evo3 m3 (l :: hist) new block Hr3 Hne Eb') as Hroot.
  destruct (CheckCbTxMerkleRootMNList _ _ _ _ _ _ _) as [r m4]. destruct Hroot as (Hr4 & Hn4 & Hroot).
  destruct r as [[]|e]; [|by intros ->]. specialize (Hroot eq_refl). exists l.
  destruct (reach_ok _ _ _ _ _ _ Hr4) as (Hh4 & Hs4 & Hc4). destruct (GetListForBlock_ok evo3 (l :: hist) m4 own Hh4 Hs4 Hc4) as (m5 & E5 & _).
  exists m5. split_and!; [done| |by rewrite Hown| |apply Hext|done|exact Hroot|exact Hp|by exists (answers evo m1), qcs].
  - rewrite E5, Hown. change (GetHash (bl_header block)) with (blockHash l). rewrite spec_list_in; [done|apply Hh4|by left].
  - rewrite (next_height _ _ Hsucc). change (MasternodeList.nHeight from) with (Chain.nHeight prev). by destruct (nb_height _ _ _ _ _ Hnext).
Qed.

(** C1: A block with its special transactions.  Over a sound block index, on a reachable
    manager, any block from the wire (with new transaction hashes and no registrar update
    that takes an operator key the block gives to another masternode) is accepted or
    rejected, never an assertion.  If it is accepted, the manager has a new list for the
    block and keeps those of the chain; its coinbase, where it is a special transaction,
    commits to the Merkle root of that list; and every commitment of the block that is
    not null is stored as mined. *)
Theorem special_block evo m (block : CBlock) : reach evo m hist ->
  next_block hist block h (Chain.phashBlock prev) (Chain.nHeight prev) -> own = GetHash (bl_header block) ->
  vtx block <> [] -> (forall tx, tx ∈ vtx block -> from_wire tx) -> block_fits (drop 1 (vtx block)) ->
  match ProcessSpecialTxsInBlock RecoverCompact llmqs node nMasternodeMinimumConfirmations chain true evo m block h (Some pprev) with
  | (Ok _, (evo', m')) => exists l m'', reach evo' m' (l :: hist) /\ GetListForBlock evo' m' own = Some (l, m'') /\ blockHash l = own /\
      MasternodeList.nHeight l = h /\ list_ok l /\ successive from l /\ commits_to block l /\
      forall qc, qc ∈ tx_commitments (vtx block) -> IsNull qc = false -> GetMinedCommitment evo' (llmqType qc) (quorumHash qc) = Some qc
  | (Throw e, _) => e <> AssertFails
  end.
Proof using Hview Hllmqs Hprefixes.
  intros Hr Hnext Hown Hne Hw Hfit. pose proof (special_block_ok evo m block Hr Hnext Hown Hne Hw Hfit) as Hok.
  destruct (ProcessSpecialTxsInBlock _ _ _ _ _ _ _ _ _ _ _) as [[[]|e] [evo' m']]; [|done].
  destruct Hok as (l & m'' & H1 & H2 & H3 & H4 & H5 & H6 & H7 & _ & fetch & qcs & Hg & Eg & Hmined). exists l, m''. split_and!; [done..|].
  intros qc Hqc Hn. rewrite Hmined. by apply (mined_stored fetch evo block).
Qed.
End Blocks.

(** *** The block taken back *)

Section Undone.
Context `{BLSCurve}.
Context (RecoverCompact : list Z -> list Z -> option (list Z)) (llmqs : Llmqs) (node : NodeState) (nMasternodeMinimumConfirmations : Z).
Context (chain : ChainState).
Implicit Types (hist : list CDeterministicMNList) (evo : EvoStore) (m : CDeterministicMNManager).
Context (own : list Z) (h : Z) (pprev : nat) (prev : Chain.CBlockIndex) (Hview : view_ok llmqs chain own h pprev prev) (Hllmqs : llmqs_ok llmqs).
Context (Hprefixes : prefixes_ok (prefixes node)).
Local Abbreviation reach := (reach RecoverCompact llmqs nMasternodeMinimumConfirmations).

Lemma passed_undone hist tx : passed RecoverCompact llmqs node chain pprev hist tx -> UndoSpecialTx tx = true.
Proof using Hview.
  intros (fetch & _ & E). unfold CheckSpecialTx in E. unfold UndoSpecialTx, known_type.
  destruct (negb _ || _); [done|]. rewrite andb_false_r in E. unfold index_entry, deref in E. rewrite (view_prev _ _ _ _ _ _ Hview) in E. cbn [asserted rbind] in E.
  revert E. by_type; cbn [orb]; done.
Qed.

Lemma undo_list_mined evo m (block : CBlock) type hash :
  GetMinedCommitment (fst (DeterministicMNs.UndoBlock evo m block)) type hash = GetMinedCommitment evo type hash.
Proof. unfold DeterministicMNs.UndoBlock, GetMinedCommitment. cbn [fst]. by rewrite !EvoDB_Read_Erase, !decide_False. Qed.

Lemma unstore_lists cs : forall evo, lists_same evo (fold_left unstore cs evo).
Proof.
  induction cs as [|qc cs IH]; intros evo; cbn [fold_left]; [done|]. eapply lists_same_trans; [|apply IH].
  intros q. unfold unstore. destruct (IsNull qc); [done|]. by rewrite ReadSnapshot_Erase, ReadDiff_Erase, !decide_False.
Qed.

(** C3: A block taken back.  Undoing the special transactions of a block that was just
    accepted succeeds: every list and every mined commitment is again what it was, the
    manager is as after the block before, and a miner can have the commitments again. *)
Theorem special_block_undone evo m hist (block : CBlock) evo' m' (offered : list CFinalCommitment) (proc : CQuorumBlockProcessor) :
  reach evo m hist -> next_block hist block h (Chain.phashBlock prev) (Chain.nHeight prev) -> own = GetHash (bl_header block) ->
  vtx block <> [] -> (forall tx, tx ∈ vtx block -> from_wire tx) -> block_fits prev hist (drop 1 (vtx block)) ->
  ProcessSpecialTxsInBlock RecoverCompact llmqs node nMasternodeMinimumConfirmations chain true evo m block h (Some pprev) = (Ok tt, (evo', m')) ->
  fold_left offer offered (Some CQuorumBlockProcessor_new) = Some proc -> no_collision (offered ++ tx_commitments (vtx block)) ->
  exists evo'' m'' proc', UndoSpecialTxsInBlock true evo' m' proc block = Ok (true, (evo'', m'', proc')) /\ reach evo'' m'' hist /\
    (forall q, exists m1 m2, GetListForBlock evo m q = Some (spec_list hist q, m1) /\ GetListForBlock evo'' m'' q = Some (spec_list hist q, m2)) /\
    (forall type hash, GetMinedCommitment evo'' type hash = GetMinedCommitment evo type hash) /\
    forall qc, qc ∈ tx_commitments (vtx block) -> IsNull qc = false ->
      exists known b, minableCommitmentsByQuorum proc' !! (llmqType qc, quorumHash qc) = Some known /\
        GetMinableCommitmentByHash proc' known = Some b /\ CountSigners qc <= CountSigners b.
Proof using Hview Hllmqs Hprefixes.
  intros Hr Hnext Hown Hne Hw Hfit E Er Hc.
  pose proof (special_block_ok RecoverCompact llmqs node nMasternodeMinimumConfirmations chain own h pprev prev Hview Hllmqs Hprefixes hist evo m block Hr Hnext Hown Hne Hw Hfit) as Hok.
  rewrite E in Hok. destruct Hok as (l & _ & Hr' & _ & Hb & _ & _ & _ & _ & Hp & fetch & qcs & Hg & Eg & Hmined).
  unfold UndoSpecialTxsInBlock. assert (forallb UndoSpecialTx (reverse (vtx block)) = true) as ->.
  { apply forallb_forall. intros tx Htx%list_elem_of_In. rewrite elem_of_reverse in Htx. by eapply passed_undone, Hp. }
  cbn [negb]. pose proof (undo_list_mined evo' m' block) as Hkeep. destruct (DeterministicMNs.UndoBlock evo' m' block) as [evo1 m1] eqn:Eu. cbn [fst] in Hkeep.
  assert (reach evo1 m1 hist) as Hr1 by (eapply reach_disconnect; [exact Hr'|by rewrite Hb|exact Eu]).
  destruct (GetCommitmentsFromBlock_Ok _ _ _ Eg) as (_ & Hnd & Hperm).
  assert (map snd qcs ≡ₚ tx_commitments (vtx block)) as Hps by (rewrite <- (keyed_values (tx_commitments _)); by apply fmap_Permutation).
  destruct (offer_all offered) as (proc0 & E0 & Hh); [apply (no_collision_sub _ _ Hc); intros x Hx; apply elem_of_app; by left|].
  assert (proc0 = proc) as -> by congruence.
  destruct (undo_loop_ok offered proc qcs evo1 Hh) as (proc' & more & El & Hh' & Hmore); [apply (no_collision_sub _ _ Hc); intros x; by rewrite !elem_of_app, Hps|].
  unfold QuorumProcessor.UndoBlock. rewrite Eg, El. cbn [asserted rbind].
  assert (reach (fold_left unstore (map snd qcs) evo1) m1 hist) as Hr2 by (apply (reach_other _ _ _ evo1); [done|apply unstore_lists]).
  do 3 eexists. split_and!; [done|done| | |].
  - intros q. destruct (reach_ok _ _ _ _ _ _ Hr) as (A1 & A2 & A3), (reach_ok _ _ _ _ _ _ Hr2) as (B1 & B2 & B3).
    destruct (GetListForBlock_ok _ _ _ q A1 A2 A3) as (x & -> & _), (GetListForBlock_ok _ _ _ q B1 B2 B3) as (y & -> & _). by do 2 eexists.
  - intros type hash. destruct (read_stores (map snd qcs) evo) as [_ H2]; [by rewrite Hps|]. unfold GetMinedCommitment at 1. rewrite read_unstores. case_decide as Hk.
    + apply Exists_exists in Hk as (qc & Hqc & Hn & Ek). rewrite Hps in Hqc. unfold GetMinedCommitment. rewrite Ek.
      by destruct (good_mined _ _ _ _ _ _ (block_commitments_good _ _ _ _ _ _ Hg qc Hqc) Hn) as [-> _].
    + fold (GetMinedCommitment evo1 type hash). rewrite Hkeep, Hmined. unfold GetMinedCommitment. rewrite H2; [done|].
      intros qc Hin Hn Ek. apply Hk. apply Exists_exists. by exists qc.
  - intros qc Hqc Hn. assert (qc ∈ offered ++ more) as Hin by (apply elem_of_app; right; apply Hmore; [by rewrite Hps|done]).
    destruct (best_most (offered ++ more) (quorum_of qc) qc Hin eq_refl) as (b & Eb & Hle).
    pose proof (hb_best _ _ Hh' (quorum_of qc)) as Hbest. rewrite Eb in Hbest. destruct Hbest as [Hb1 Hb2]. by exists (SerializeHash b), b.
Qed.
End Undone.

(** ** A registration and a coinbase that commits to it *)

#[local] Existing Instance any_curve.

Definition chain_entry (i : nat) : Chain.CBlockIndex :=
  {| Chain.entry := {| Pow.nHeight := Z.of_nat i; Pow.nVersion := 2; Pow.nTime := 1000; Pow.nBits := 0 |};
     Chain.phashBlock := replicate 32 (if Nat.eqb i 599 then 9 else Z.of_nat i mod 9);
     Chain.pprev := match i with O => None | S j => Some j end; Chain.pskip := None; Chain.nTimeMax := 1000 |}.
Definition chain_600 : ChainState :=
  {| mapBlockIndex := {[replicate 32 9 := 599%nat]}; entries := list_to_map (map (fun i => (i, chain_entry i)) (seq 0 600));
     chainActive := map Some (seq 0 600) |}.
Definition root_600 : list Z := Eval vm_compute in
  match fst (BuildNewListFromBlock regtest_llmqs sample_node 1 empty_store CDeterministicMNManager_new reg_block (replicate 32 9) 599) with
  | Ok l => fst (CalcMerkleRoot (CSimplifiedMNList_of l))
  | Throw _ => []
  end.
Definition coinbase_600 : CTransaction := CTransaction_of
  {| nVersion := 3; nType := TRANSACTION_COINBASE; vin := [{| prevout := COutPoint_null; scriptSig := [1]; nSequence := 0 |}]; vout := []; nLockTime := 0;
     vExtraPayload := SetTxPayload {| cb_nVersion := 1; cb_nHeight := 600; merkleRootMNList := root_600 |} |}.
Definition block_600 : CBlock := {| bl_header := reg_header; vtx := [coinbase_600; reg_tx] |}.

Lemma accepted_600 : fst (ProcessSpecialTxsInBlock one_signer regtest_llmqs sample_node 1 chain_600 true empty_store CDeterministicMNManager_new block_600 600 (Some 599%nat)) = Ok tt.
Proof. vm_compute. reflexivity. Qed.

Lemma regtest_ok : llmqs_ok regtest_llmqs.
Proof.
  split; [apply NoDup_cons; split; [by intros ?%list_elem_of_singleton|apply NoDup_singleton]|].
  intros type params [[= -> ->]|[[= -> ->]|[]%elem_of_nil]%elem_of_cons]%elem_of_cons; (split; [done|unfold is_u, LLMQ_50_60, LLMQ_10_60; lia]).
Qed.
Lemma sample_prefixes : prefixes_ok (prefixes sample_node).
Proof. split_and!; [done|done|by repeat constructor|by repeat constructor|done]. Qed.
Lemma index_600 : Chain.tree_ok (entries chain_600) /\ Chain.skips_ok (entries chain_600).
Proof. apply Chain.index_okb_ok. vm_compute. reflexivity. Qed.
Lemma entry_599 : entries chain_600 !! 599%nat = Some (chain_entry 599).
Proof. vm_compute. reflexivity. Qed.
Lemma another_hash : bool_decide (replicate 32 9 = GetHash reg_header) = false.
Proof. vm_compute. reflexivity. Qed.
Lemma sessions_600 : GetQuorumBlockHash regtest_llmqs chain_600 LLMQ_50_60 600 = Some uint256_null /\ GetQuorumBlockHash regtest_llmqs chain_600 LLMQ_10_60 600 = Some uint256_null.
Proof. split; vm_compute; reflexivity. Qed.

Lemma view_600 : view_ok regtest_llmqs chain_600 (GetHash reg_header) 600 599 (chain_entry 599).
Proof.
  destruct index_600 as [Ht Hs]. pose proof another_hash as Hne%bool_decide_eq_false. pose proof entry_599 as E599. split; [exact Ht|exact Hs| |exact E599| |exact Hne|].
  - intros hash p. unfold chain_600 at 1. cbn [mapBlockIndex]. intros [_ <-]%lookup_singleton_Some. by rewrite E599.
  - intros p e. unfold chain_600 at 1. cbn [mapBlockIndex]. intros [E _]%lookup_singleton_Some. destruct (Hne E).
  - destruct sessions_600 as [E1 E2]. intros type params [[= -> ->]|[[= -> ->]|[]%elem_of_nil]%elem_of_cons]%elem_of_cons; [by rewrite E1|by rewrite E2].
Qed.

Lemma payloads_600 : forallb (fun tx => forallb (fun b => (0 <=? b) && (b <? 256)) (vExtraPayload (tx_data tx)) && (nVersion (tx_data tx) =? 3)) (vtx block_600) = true.
Proof. vm_compute. reflexivity. Qed.
Lemma wire_600 tx : tx ∈ vtx block_600 -> from_wire tx.
Proof.
  pose proof payloads_600 as Hall. rewrite forallb_forall in Hall. intros Htx%list_elem_of_In.
  apply Hall, andb_true_iff in Htx as [Hb%forallb_bytes_ok Hv%Z.eqb_eq]. by split.
Qed.
Lemma fits_600 : block_fits (chain_entry 599) [] (drop 1 (vtx block_600)).
Proof.
  change (drop 1 (vtx block_600)) with [reg_tx]. pose proof reg_type as Hty. pose proof reg_not_null as Hnn.
  assert (forall p, mnMap (parent_list [] (Chain.phashBlock (chain_entry 599)) (Chain.nHeight (chain_entry 599))) !! p = None) as Hempty by (intros p; reflexivity).
  revert Hty Hnn Hempty. generalize reg_tx. intros tx [= Hv Ht] Hnn Hempty. split.
  - intros tx' ->%list_elem_of_singleton. split; [apply Hempty|done].
  - apply NoDup_singleton.
  - intros tx' p q d _ _ Hd. by rewrite Hempty in Hd.
  - intros tx' p q k ->%list_elem_of_singleton _ Ht'. by rewrite Ht in Ht'.
Qed.
Lemma next_600 : next_block [] block_600 600 (Chain.phashBlock (chain_entry 599)) (Chain.nHeight (chain_entry 599)).
Proof. split; [split; [reflexivity|unfold SNAPSHOT_LIST_PERIOD; lia]|discriminate|apply not_elem_of_nil]. Qed.
Lemma no_commitments_600 : tx_commitments (vtx block_600) = [].
Proof. vm_compute. reflexivity. Qed.

(** The result of [accepted_600] by name. *)
Lemma processed_600 : exists evo' m',
  ProcessSpecialTxsInBlock one_signer regtest_llmqs sample_node 1 chain_600 true empty_store CDeterministicMNManager_new block_600 600 (Some 599%nat) = (Ok tt, (evo', m')).
Proof.
  pose proof accepted_600 as E. revert E. destruct (ProcessSpecialTxsInBlock _ _ _ _ _ _ _ _ _ _ _) as [r [evo' m']]. cbn [fst]. intros ->. by exists evo', m'.
Qed.

Lemma special_block_witness : exists evo' m' l m'',
  ProcessSpecialTxsInBlock one_signer regtest_llmqs sample_node 1 chain_600 true empty_store CDeterministicMNManager_new block_600 600 (Some 599%nat) = (Ok tt, (evo', m')) /\
  GetListForBlock evo' m' (GetHash reg_header) = Some (l, m'') /\ CalcMerkleRoot (CSimplifiedMNList_of l) = (root_600, false).
Proof.
  pose proof (special_block one_signer regtest_llmqs sample_node 1 chain_600 (GetHash reg_header) 600 599 (chain_entry 599) view_600 regtest_ok sample_prefixes []
    empty_store CDeterministicMNManager_new block_600 empty_reach next_600 eq_refl ltac:(discriminate) wire_600 fits_600) as Hb.
  destruct processed_600 as (evo' & m' & E). rewrite E in Hb. destruct Hb as (l & m'' & _ & El & _ & _ & _ & _ & Hroot & _).
  exists evo', m', l, m''. split; [exact E|]. split; [exact El|]. destruct (Hroot coinbase_600 [reg_tx] eq_refl eq_refl) as (cbTx & Ep & Hr).
  assert (GetTxPayload CCbTx (vExtraPayload (tx_data coinbase_600)) = Some {| cb_nVersion := 1; cb_nHeight := 600; merkleRootMNList := root_600 |}) as Ep' by (vm_compute; reflexivity).
  rewrite Ep' in Ep. injection Ep as <-. exact Hr.
Defined.

Lemma special_block_undone_witness : exists evo' m' evo'' m'' proc',
  ProcessSpecialTxsInBlock one_signer regtest_llmqs sample_node 1 chain_600 true empty_store CDeterministicMNManager_new block_600 600 (Some 599%nat) = (Ok tt, (evo', m')) /\
  UndoSpecialTxsInBlock true evo' m' CQuorumBlockProcessor_new block_600 = Ok (true, (evo'', m'', proc')) /\ reach one_signer regtest_llmqs 1 evo'' m'' [].
Proof.
  destruct processed_600 as (evo' & m' & E).
  destruct (special_block_undone one_signer regtest_llmqs sample_node 1 chain_600 (GetHash reg_header) 600 599 (chain_entry 599) view_600 regtest_ok sample_prefixes
    empty_store CDeterministicMNManager_new [] block_600 evo' m' [] CQuorumBlockProcessor_new empty_reach next_600 eq_refl ltac:(discriminate) wire_600 fits_600 E eq_refl)
    as (evo'' & m'' & proc' & Eu & Hr & _).
  - rewrite no_commitments_600. intros a b Ha. destruct (not_elem_of_nil a Ha).
  - exists evo', m', evo'', m'', proc'. split; [exact E|]. split; [exact Eu|exact Hr].
Defined.
