(* ===== verification/Caches.v ===== *)
(** * Bounded containers (src/src/cachemap.h, src/src/cachemultimap.h, src/src/limitedmap.h)

    A list of items and an index of iterators into it.  An iterator is the number of a node
    of the list; nodes are never renumbered, as in [std::list].

    The theorems: the index and the list always agree, so a [CacheMap] is the plain list of
    its specification, the newest items first; and a [CacheMultiMap] is one as well, except
    when [Insert] uses a reference that it has just freed. *)

From S2P Require Import Prelude.
From stdpp Require Import list gmap.
Local Open Scope Z_scope.
Local Open Scope cxx_scope.

(** ** Linked lists with iterators *)

Lemma sublist_fmap {A B} (f : A -> B) (l l' : list A) : l `sublist_of` l' -> f <$> l `sublist_of` f <$> l'.
Proof. induction 1; cbn; by constructor. Qed.
Lemma sublist_filter {A} (P : A -> Prop) `{!forall x, Decision (P x)} (l : list A) : filter P l `sublist_of` l.
Proof. induction l as [|x l IH]; [constructor|]. rewrite filter_cons. destruct (decide (P x)); by constructor. Qed.
Lemma list_filter_all {A} (P : A -> Prop) `{!forall x, Decision (P x)} (l : list A) : (forall x, x ∈ l -> P x) -> filter P l = l.
Proof.
  induction l as [|x l IH]; [done|]. intros Hall. rewrite filter_cons_True by (apply Hall; left).
  f_equal. apply IH. intros y Hy. apply Hall. by right.
Qed.
Lemma sublist_Forall {A} (P : A -> Prop) (l l' : list A) : l `sublist_of` l' -> Forall P l' -> Forall P l.
Proof. rewrite !Forall_forall. intros Hs Hf x Hx. apply Hf. by eapply elem_of_sublist. Qed.

Section Nodes.
Context {I A : Type} `{EqDecision I}.
Implicit Types (l : list (I * A)) (n : I) (a : A).

Definition erase_node (n : I) (l : list (I * A)) : list (I * A) := filter (fun x => x.1 ≠ n) l.
(** Dereferencing; [None] dangles. *)
Fixpoint deref (n : I) (l : list (I * A)) : option A :=
  match l with
  | [] => None
  | (m, a) :: l => if decide (m = n) then Some a else deref n l
  end.

Lemma erase_node_in n l x : x ∈ erase_node n l <-> x.1 ≠ n /\ x ∈ l.
Proof. unfold erase_node. by rewrite list_elem_of_filter. Qed.
Lemma deref_in n a l : NoDup l.*1 -> (n, a) ∈ l -> deref n l = Some a.
Proof.
  induction l as [|[m b] l IH]; cbn; [by intros _ ?%elem_of_nil|]. intros [Hm Hl]%NoDup_cons [E|Hin]%elem_of_cons.
  - injection E as -> ->. by rewrite decide_True.
  - rewrite decide_False; [by apply IH|]. intros ->. apply Hm, list_elem_of_fmap. by exists (n, a).
Qed.
Lemma erase_nodup n l : NoDup l.*1 -> NoDup (erase_node n l).*1.
Proof. intros H. eapply sublist_NoDup; [exact H|]. unfold erase_node. apply sublist_fmap, sublist_filter. Qed.
Lemma erase_none n l : n ∉ l.*1 -> erase_node n l = l.
Proof.
  intros Hn. unfold erase_node. apply list_filter_all. intros [m a] Hin E. cbn in E. subst m. apply Hn, list_elem_of_fmap. by exists (n, a).
Qed.
Lemma erase_length n a l : NoDup l.*1 -> (n, a) ∈ l -> length l = S (length (erase_node n l)).
Proof.
  induction l as [|[m b] l IH]; [by intros _ ?%elem_of_nil|]. rewrite fmap_cons. cbn [fst]. intros [Hm Hl]%NoDup_cons [E|Hin]%elem_of_cons.
  - injection E as -> ->. unfold erase_node. rewrite filter_cons_False by (cbn; tauto). fold (erase_node m l). by rewrite erase_none.
  - unfold erase_node. rewrite filter_cons_True; [cbn; f_equal; by apply IH|]. cbn. intros ->. apply Hm, list_elem_of_fmap. by exists (n, a).
Qed.
Lemma erase_sublist n l l' : l' `sublist_of` l -> n ∉ l'.*1 -> l' `sublist_of` erase_node n l.
Proof.
  intros Hs. induction Hs as [|x l l' Hs IH|x l l' Hs IH]; intros Hn; [constructor| |]; unfold erase_node; rewrite filter_cons.
  - rewrite fmap_cons, elem_of_cons in Hn. destruct (decide (x.1 ≠ n)) as [|E]; [constructor; apply IH; tauto|]. apply dec_stable in E. destruct Hn. by left.
  - destruct (decide _); [constructor|]; by apply IH.
Qed.
(** Erasing a node is erasing its item, where the items differ. *)
Lemma erase_item {B} `{EqDecision B} (f : A -> B) n a l : NoDup l.*1 -> NoDup (f <$> l.*2) -> (n, a) ∈ l ->
  (erase_node n l).*2 = filter (fun x => f x ≠ f a) l.*2.
Proof.
  induction l as [|[m b] l IH]; [by intros _ _ ?%elem_of_nil|]. rewrite !fmap_cons. cbn [fst snd]. intros [Hm Hl]%NoDup_cons [Hf Hi]%NoDup_cons [E|Hin]%elem_of_cons.
  - injection E as -> ->. unfold erase_node. rewrite filter_cons_False by (cbn; tauto). rewrite filter_cons_False by tauto.
    fold (erase_node m l). rewrite erase_none by done. symmetry. apply list_filter_all. intros x Hx E. apply Hf. rewrite <- E. by apply list_elem_of_fmap_2.
  - unfold erase_node. assert (m ≠ n) by (intros ->; apply Hm, list_elem_of_fmap; by exists (n, a)).
    assert (f b ≠ f a) by (intros E; apply Hf; rewrite E; apply list_elem_of_fmap_2, list_elem_of_fmap; by exists (n, a)).
    rewrite (filter_cons_True _ (m, b)) by done. rewrite (filter_cons_True _ b) by done. rewrite fmap_cons. cbn [snd]. f_equal. by apply IH.
Qed.
End Nodes.

(** [PruneLast] on the specification's side, and the insertion of an item in front. *)
Definition without_last {A} (l : list A) : list A := take (pred (length l)) l.
Definition keep_newest {A} (max : nat) (a : A) (l : list A) : list A := a :: (if (length l =? max)%nat then without_last l else l).
Lemma without_last_app {A} (l : list A) a : without_last (l ++ [a]) = l.
Proof. unfold without_last. rewrite length_app. cbn. replace (pred (length l + 1)) with (length l) by lia. apply take_app_length. Qed.
Lemma without_last_fmap {A B} (f : A -> B) (l : list A) : f <$> without_last l = without_last (f <$> l).
Proof. unfold without_last. by rewrite fmap_take, length_fmap. Qed.

(** ** One value for a key *)
Module CacheMap.
Section CacheMap.
Context `{Countable K} {V : Type}.
Implicit Types (k : K) (v : V).

Record CacheMap : Type := { nMaxSize : nat; listItems : list (nat * (K * V)); mapIndex : gmap K nat; fresh_node : nat }.
Definition empty (nMaxSizeIn : nat) : CacheMap := {| nMaxSize := nMaxSizeIn; listItems := []; mapIndex := ∅; fresh_node := 0 |}.

Definition HasKey (c : CacheMap) (key : K) : bool := match mapIndex c !! key with Some _ => true | None => false end.
(** The outer option is a dangling iterator. *)
Definition Get (c : CacheMap) (key : K) : option (option V) :=
  match mapIndex c !! key with
  | None => Some None
  | Some it => item ← deref it (listItems c); Some (Some item.2)
  end.
Definition PruneLast (c : CacheMap) : CacheMap :=
  match last (listItems c) with
  | None => c
  | Some item => {| nMaxSize := nMaxSize c; listItems := without_last (listItems c); mapIndex := delete item.2.1 (mapIndex c); fresh_node := fresh_node c |}
  end.
Definition push_front (key : K) (value : V) (c : CacheMap) : CacheMap :=
  {| nMaxSize := nMaxSize c; listItems := (fresh_node c, (key, value)) :: listItems c;
     mapIndex := <[key := fresh_node c]> (mapIndex c); fresh_node := S (fresh_node c) |}.
Definition Insert (c : CacheMap) (key : K) (value : V) : CacheMap * bool :=
  if HasKey c key then (c, false)
  else
    let c := if (length (listItems c) =? nMaxSize c)%nat then PruneLast c else c in
    (push_front key value c, true).
Definition Erase (c : CacheMap) (key : K) : CacheMap :=
  match mapIndex c !! key with
  | None => c
  | Some it => {| nMaxSize := nMaxSize c; listItems := erase_node it (listItems c); mapIndex := delete key (mapIndex c); fresh_node := fresh_node c |}
  end.
Definition SetMaxSize (c : CacheMap) (nMaxSizeIn : nat) : CacheMap :=
  {| nMaxSize := nMaxSizeIn; listItems := listItems c; mapIndex := mapIndex c; fresh_node := fresh_node c |}.
(** [emplace] keeps an entry that is there. *)
Definition RebuildIndex (c : CacheMap) : CacheMap :=
  {| nMaxSize := nMaxSize c; listItems := listItems c;
     mapIndex := fold_left (fun index item => match index !! item.2.1 with Some _ => index | None => <[item.2.1 := item.1]> index end) (listItems c) ∅;
     fresh_node := fresh_node c |}.

(** *** The list of items and the index agree *)

Record wf (c : CacheMap) : Prop := {
  wf_nodes : NoDup (listItems c).*1;
  wf_fresh : Forall (fun n => (n < fresh_node c)%nat) (listItems c).*1;
  wf_keys : NoDup (listItems c).*2.*1;
  wf_index : forall k n, mapIndex c !! k = Some n <-> exists v, (n, (k, v)) ∈ listItems c;
}.
Definition items (c : CacheMap) : list (K * V) := (listItems c).*2.

Lemma empty_wf n : wf (empty n).
Proof. split; cbn; try constructor. intros E. by rewrite lookup_empty in E. intros (v & []%elem_of_nil). Qed.
Lemma HasKey_spec c k : wf c -> HasKey c k = true <-> k ∈ (items c).*1.
Proof.
  intros [_ _ _ Hi]. unfold HasKey, items. split.
  - destruct (mapIndex c !! k) as [n|] eqn:E; [|done]. intros _. apply Hi in E as (v & Hin). apply list_elem_of_fmap. exists (k, v). split; [done|].
    apply list_elem_of_fmap. by exists (n, (k, v)).
  - intros ([k' v] & -> & ([n p] & E & Hin)%list_elem_of_fmap)%list_elem_of_fmap. cbn in E. subst p. cbn. by rewrite (proj2 (Hi k' n) (ex_intro _ v Hin)).
Qed.
Lemma wf_push k v c : wf c -> k ∉ (items c).*1 -> wf (push_front k v c).
Proof.
  intros [Hn Hf Hk Hi] Hnew. split; cbn.
  - apply NoDup_cons. split; [|done]. intros Hin. rewrite Forall_forall in Hf. specialize (Hf _ Hin). lia.
  - constructor; [lia|]. eapply Forall_impl; [exact Hf|]. cbn. lia.
  - apply NoDup_cons. by split.
  - intros k' n. destruct (decide (k = k')) as [->|Hne].
    + rewrite lookup_insert_eq. split; [intros [= <-]; exists v; left|]. intros (v' & [E|Hin]%elem_of_cons); [congruence|].
      exfalso. apply Hnew, list_elem_of_fmap. exists (k', v'). split; [done|]. apply list_elem_of_fmap. by exists (n, (k', v')).
    + rewrite lookup_insert_ne by done. rewrite Hi. split; intros (v' & Hin); exists v'; [by right|]. apply elem_of_cons in Hin as [E|Hin]; [congruence|done].
Qed.
Lemma wf_cut c c' : wf c -> fresh_node c' = fresh_node c -> listItems c' `sublist_of` listItems c ->
  (forall k n, mapIndex c' !! k = Some n <-> mapIndex c !! k = Some n /\ n ∈ (listItems c').*1) -> wf c'.
Proof.
  intros [Hn Hf Hk Hi] Ef Hs Hm. split.
  - eapply sublist_NoDup; [exact Hn|by apply sublist_fmap].
  - rewrite Ef. eapply sublist_Forall; [by apply sublist_fmap|exact Hf].
  - eapply sublist_NoDup; [exact Hk|by repeat apply sublist_fmap].
  - intros k n. rewrite Hm, Hi. split.
    + intros [[v Hin] ([n' [k' v']] & -> & Hin')%list_elem_of_fmap]. exists v. cbn.
      assert (k' = k /\ v' = v) as [-> ->]; [|done]. pose proof (elem_of_sublist _ _ _ Hin' Hs) as Hs'.
      pose proof (deref_in _ _ _ Hn Hin) as E1. pose proof (deref_in _ _ _ Hn Hs') as E2. cbn in E1. split; congruence.
    + intros (v & Hin). split; [exists v; by eapply elem_of_sublist|]. apply list_elem_of_fmap. by exists (n, (k, v)).
Qed.

Lemma last_split (l : list (nat * (K * V))) x : last l = Some x -> l = without_last l ++ [x].
Proof. destruct l as [|y l _] using rev_ind; [done|]. rewrite last_snoc. intros [= ->]. by rewrite without_last_app. Qed.
Lemma PruneLast_items c : items (PruneLast c) = without_last (items c).
Proof.
  unfold PruneLast, items. destruct (last (listItems c)) as [x|] eqn:E; cbn; [apply without_last_fmap|].
  apply last_None in E. by rewrite E.
Qed.
Lemma nodup_snoc {A} (l : list A) x : NoDup (l ++ [x]) -> NoDup l /\ x ∉ l.
Proof. intros (Hl & Hd & _)%NoDup_app. split; [done|]. intros Hx. apply (Hd x Hx). left. Qed.
Lemma PruneLast_wf c : wf c -> wf (PruneLast c).
Proof.
  intros Hwf. pose proof Hwf as [Hn Hf Hk Hi]. unfold PruneLast. destruct (last (listItems c)) as [[m [k v]]|] eqn:E; [|done].
  pose proof (last_split _ _ E) as El. set (l := without_last (listItems c)) in *. rewrite El, !fmap_app in *. cbn in Hn, Hk.
  apply nodup_snoc in Hn as [Hn Hm], Hk as [Hk Hnk]. apply (wf_cut c); [done|done|cbn; rewrite El; by apply sublist_inserts_r|]. cbn.
  intros k' n. destruct (decide (k = k')) as [<-|Hne].
  - rewrite lookup_delete_eq. split; [done|]. intros [(w & [Hin|Hin]%elem_of_app)%Hi Hn'].
    + destruct Hnk. apply list_elem_of_fmap. exists (k, w). split; [done|]. apply list_elem_of_fmap. by exists (n, (k, w)).
    + apply list_elem_of_singleton in Hin as [= -> _]. done.
  - rewrite lookup_delete_ne by done. split; [|tauto]. intros Hl. split; [done|]. apply Hi in Hl as (w & [Hin|Hin]%elem_of_app).
    + apply list_elem_of_fmap. by exists (n, (k', w)).
    + apply list_elem_of_singleton in Hin. congruence.
Qed.
Lemma without_last_sub {A} (l : list A) : without_last l `sublist_of` l.
Proof. apply sublist_take. Qed.

(** The plain list: the newest items first. *)
Definition list_insert (max : nat) (k : K) (v : V) (l : list (K * V)) : list (K * V) * bool :=
  if bool_decide (k ∈ l.*1) then (l, false) else (keep_newest max (k, v) l, true).
Definition list_get (k : K) (l : list (K * V)) : option V := deref k l.
Definition list_erase (k : K) (l : list (K * V)) : list (K * V) := filter (fun x => x.1 ≠ k) l.

Lemma Insert_spec c k v : wf c -> wf (Insert c k v).1 /\ (items (Insert c k v).1, (Insert c k v).2) = list_insert (nMaxSize c) k v (items c).
Proof.
  intros Hwf. pose proof (HasKey_spec c k Hwf) as Hk. unfold Insert, list_insert. destruct (HasKey c k).
  - rewrite bool_decide_true by (by apply Hk). done.
  - rewrite bool_decide_false by (rewrite <- Hk; done). unfold keep_newest. assert (length (items c) = length (listItems c)) as -> by apply length_fmap.
    assert (k ∉ (items c).*1) as Hn by (rewrite <- Hk; done). destruct (_ =? _)%nat; cbn [fst snd].
    + split; [apply wf_push; [by apply PruneLast_wf|]|by rewrite <- PruneLast_items]. rewrite PruneLast_items.
      intros Hin. apply Hn. eapply elem_of_sublist; [exact Hin|]. apply sublist_fmap, without_last_sub.
    + split; [by apply wf_push|done].
Qed.
Lemma list_get_in k v l : NoDup l.*1 -> (k, v) ∈ l -> list_get k l = Some v.
Proof. apply deref_in. Qed.
Lemma list_get_notin k l : k ∉ l.*1 -> list_get k l = None.
Proof.
  unfold list_get. induction l as [|[k' v] l IH]; cbn; [done|]. intros Hn. rewrite decide_False by (intros ->; apply Hn; left). apply IH. intros Hin. apply Hn. by right.
Qed.
Lemma Get_spec c k : wf c -> Get c k = Some (list_get k (items c)).
Proof.
  intros [Hn Hf Hk Hi]. unfold Get. destruct (mapIndex c !! k) as [n|] eqn:E.
  - apply Hi in E as (v & Hin). rewrite (deref_in _ _ _ Hn Hin). cbn. f_equal. symmetry. apply list_get_in; [done|].
    apply list_elem_of_fmap. by exists (n, (k, v)).
  - rewrite list_get_notin; [done|]. intros ([k' v] & -> & ([n p] & Ep & Hin)%list_elem_of_fmap)%list_elem_of_fmap. cbn in Ep, E. subst p.
    rewrite (proj2 (Hi k' n) (ex_intro _ v Hin)) in E. done.
Qed.
Lemma Erase_spec c k : wf c -> wf (Erase c k) /\ items (Erase c k) = list_erase k (items c).
Proof.
  intros Hwf. pose proof Hwf as [Hn Hf Hk Hi]. unfold Erase. destruct (mapIndex c !! k) as [n|] eqn:E.
  - pose proof E as (v & Hin)%Hi. split; [|unfold items; cbn; by apply (erase_item fst n (k, v))].
    apply (wf_cut c); [done|done|apply sublist_filter|]. cbn. intros k' n'. destruct (decide (k = k')) as [<-|Hne].
    + rewrite lookup_delete_eq. split; [done|]. intros [E' ([n0 q] & -> & (Hne & _)%erase_node_in)%list_elem_of_fmap]. cbn in Hne, E'. congruence.
    + rewrite lookup_delete_ne by done. split; [|tauto]. intros E'. split; [done|]. apply Hi in E' as (w & Hin').
      apply list_elem_of_fmap. exists (n', (k', w)). split; [done|]. apply erase_node_in. split; [|done]. cbn. intros ->.
      pose proof (deref_in _ _ _ Hn Hin). pose proof (deref_in _ _ _ Hn Hin'). congruence.
  - split; [done|]. unfold list_erase. symmetry. apply list_filter_all. intros [k' v] ([n p] & Ep & Hin)%list_elem_of_fmap Ek. cbn in Ep, Ek. subst p k'.
    rewrite (proj2 (Hi k n) (ex_intro _ v Hin)) in E. done.
Qed.
Lemma RebuildIndex_aux l (index : gmap K nat) : NoDup l.*2.*1 -> (forall k, k ∈ l.*2.*1 -> index !! k = None) -> forall k n,
  fold_left (fun index item => match index !! item.2.1 with Some _ => index | None => <[item.2.1 := item.1]> index end) l index !! k = Some n <->
  index !! k = Some n \/ exists v : V, (n, (k, v)) ∈ l.
Proof.
  revert index. induction l as [|[m [q w]] l IH]; intros index Hk Hi k n; cbn [fold_left fst snd].
  - split; [by left|]. intros [|(v & []%elem_of_nil)]; done.
  - cbn in Hk, Hi. apply NoDup_cons in Hk as [Hq Hk]. rewrite (Hi q) by left. rewrite IH; [|done|].
    + destruct (decide (q = k)) as [->|Hne].
      * rewrite lookup_insert_eq. rewrite (Hi k) by left. split; [intros [[= <-]|(v & Hin)]; right; eexists; [left|by right]|].
        intros [|(v & [E|Hin]%elem_of_cons)]; [done|left; congruence|right; by exists v].
      * rewrite lookup_insert_ne by done. split; [intros [|(v & Hin)]; [by left|right; exists v; by right]|].
        intros [|(v & [E|Hin]%elem_of_cons)]; [by left|congruence|right; by exists v].
    + intros k' Hk'. rewrite lookup_insert_ne by congruence. apply Hi. by right.
Qed.
Lemma RebuildIndex_same c : wf c -> RebuildIndex c = c.
Proof.
  destruct c as [max l m f]. intros [Hn Hf Hk Hi]. unfold RebuildIndex. cbn in *. f_equal. apply map_eq. intros k. apply option_eq. intros n.
  rewrite (RebuildIndex_aux l ∅ Hk (fun k _ => lookup_empty k)), lookup_empty, Hi. split; [by intros [|]|by right].
Qed.
(** The number of items stays within the maximum, unless that is 0. *)
Lemma Insert_size c k v : (length (items c) <= nMaxSize c)%nat -> (0 < nMaxSize c)%nat -> wf c -> (length (items (Insert c k v).1) <= nMaxSize c)%nat.
Proof.
  intros Hl H0 Hwf. destruct (Insert_spec c k v Hwf) as [_ E]. apply (f_equal fst) in E. cbn in E. rewrite E. unfold list_insert. destruct (bool_decide _); cbn; [done|].
  unfold without_last. destruct (Nat.eqb_spec (length (items c)) (nMaxSize c)); [rewrite length_take|]; lia.
Qed.

(** A history of operations, on the container and on the plain list with its maximum. *)
Inductive op : Type := op_Insert (k : K) (v : V) | op_Erase (k : K) | op_SetMaxSize (n : nat).
Definition step (c : CacheMap) (o : op) : CacheMap :=
  match o with op_Insert k v => (Insert c k v).1 | op_Erase k => Erase c k | op_SetMaxSize n => SetMaxSize c n end.
Definition list_step (s : nat * list (K * V)) (o : op) : nat * list (K * V) :=
  match o with op_Insert k v => (s.1, (list_insert s.1 k v s.2).1) | op_Erase k => (s.1, list_erase k s.2) | op_SetMaxSize n => (n, s.2) end.
Lemma step_max c o : nMaxSize (step c o) = match o with op_SetMaxSize n => n | _ => nMaxSize c end.
Proof.
  destruct o as [k v|k|n]; cbn; [| |done].
  - unfold Insert. destruct (HasKey c k); [done|]. unfold PruneLast. destruct (_ =? _)%nat; [|done]. by destruct (last _).
  - unfold Erase. by destruct (mapIndex c !! k).
Qed.
Lemma cache_step_spec c o : wf c -> wf (step c o) /\ (nMaxSize (step c o), items (step c o)) = list_step (nMaxSize c, items c) o.
Proof.
  intros Hwf. rewrite step_max. destruct o as [k v|k|n]; cbn [step list_step fst snd].
  - destruct (Insert_spec c k v Hwf) as [Hwf' E]. split; [done|]. by rewrite <- E.
  - destruct (Erase_spec c k Hwf) as [Hwf' E]. split; [done|]. by rewrite E.
  - split; [|done]. by destruct Hwf.
Qed.
Lemma run_spec ops : forall c, wf c -> wf (fold_left step ops c) /\ (nMaxSize (fold_left step ops c), items (fold_left step ops c)) = fold_left list_step ops (nMaxSize c, items c).
Proof.
  induction ops as [|o ops IH]; intros c Hwf; [done|]. cbn [fold_left]. destruct (cache_step_spec c o Hwf) as [Hwf' E]. rewrite <- E. by apply IH.
Qed.

(** A [CacheMap] is the list of its items, the newest first: after any history of
    insertions, erasures and changes of the maximum, its items are those of the plain
    list, no iterator of the index dangles, and every lookup is that of the list. *)
Theorem cache_map_refines n ops : let c := fold_left step ops (empty n) in
  let l := (fold_left list_step ops (n, [])).2 in
  items c = l /\ (forall k, Get c k = Some (list_get k l)) /\ (forall k, HasKey c k = bool_decide (k ∈ l.*1)) /\ RebuildIndex c = c.
Proof.
  cbv zeta. destruct (run_spec ops (empty n) (empty_wf n)) as [Hwf E]. change (n, []) with (nMaxSize (empty n), items (empty n)). rewrite <- E. cbn [snd].
  split_and!; [done|intros k; by apply Get_spec|intros k; apply eq_true_iff_eq; rewrite (HasKey_spec _ _ Hwf), bool_decide_eq_true; done|by apply RebuildIndex_same].
Qed.
End CacheMap.
#[global] Arguments CacheMap K {_ _} V.
End CacheMap.

(** ** Several values for a key *)
Module CacheMultiMap.
Section CacheMultiMap.
(** [operator<] of the values, by which [std::map] tells them apart. *)
Context `{Countable K} {V : Type} (lt : V -> V -> bool).
Implicit Types (k : K) (v : V).

(** [it_map_t], in the order of the values *)
Local Abbreviation it_map := (list (V * nat)).
Record CacheMultiMap : Type := { nMaxSize : nat; listItems : list (nat * (K * V)); mapIndex : gmap K it_map; fresh_node : nat }.
Definition empty (nMaxSizeIn : nat) : CacheMultiMap := {| nMaxSize := nMaxSizeIn; listItems := []; mapIndex := ∅; fresh_node := 0 |}.

Definition equivalent (v w : V) : bool := negb (lt v w) && negb (lt w v).
Definition find (v : V) (m : it_map) : option (V * nat) := List.find (fun e => equivalent v e.1) m.
Definition erase (v : V) (m : it_map) : it_map := List.filter (fun e => negb (equivalent v e.1)) m.
Fixpoint emplace (v : V) (n : nat) (m : it_map) : it_map :=
  match m with
  | [] => [(v, n)]
  | e :: m' => if lt v e.1 then (v, n) :: m else e :: emplace v n m'
  end.

Definition with_index (f : gmap K it_map -> gmap K it_map) (c : CacheMultiMap) : CacheMultiMap :=
  {| nMaxSize := nMaxSize c; listItems := listItems c; mapIndex := f (mapIndex c); fresh_node := fresh_node c |}.
(** What erasing a value, and the key with its last value, does to the index. *)
Definition drop_value (k : K) (v : V) (index : gmap K it_map) : gmap K it_map :=
  match index !! k with
  | None => index
  | Some mapIt => match erase v mapIt with [] => delete k index | m => <[k := m]> index end
  end.
Definition PruneLast (c : CacheMultiMap) : CacheMultiMap :=
  match last (listItems c) with
  | None => c
  | Some item => {| nMaxSize := nMaxSize c; listItems := without_last (listItems c);
                    mapIndex := drop_value item.2.1 item.2.2 (mapIndex c); fresh_node := fresh_node c |}
  end.
(** [None]: the reference [mapIt] is used after its key was erased. *)
Definition Insert (c : CacheMultiMap) (key : K) (value : V) : option (CacheMultiMap * bool) :=
  let c := match mapIndex c !! key with None => with_index <[key := []]> c | Some _ => c end in
  match find value (default [] (mapIndex c !! key)) with
  | Some _ => Some (c, false)
  | None =>
      let c := if (length (listItems c) =? nMaxSize c)%nat then PruneLast c else c in
      mapIt ← mapIndex c !! key;
      Some ({| nMaxSize := nMaxSize c; listItems := (fresh_node c, (key, value)) :: listItems c;
               mapIndex := <[key := emplace value (fresh_node c) mapIt]> (mapIndex c); fresh_node := S (fresh_node c) |}, true)
  end.
Definition HasKey (c : CacheMultiMap) (key : K) : bool := match mapIndex c !! key with Some _ => true | None => false end.
Definition GetAll (c : CacheMultiMap) (key : K) : option (list V) :=
  match mapIndex c !! key with
  | None => Some []
  | Some mapIt => mapM (fun e => item ← deref e.2 (listItems c); Some item.2) mapIt
  end.
Definition Erase (c : CacheMultiMap) (key : K) : CacheMultiMap :=
  match mapIndex c !! key with
  | None => c
  | Some mapIt => {| nMaxSize := nMaxSize c; listItems := fold_left (fun l e => erase_node e.2 l) mapIt (listItems c);
                     mapIndex := delete key (mapIndex c); fresh_node := fresh_node c |}
  end.
Definition SetMaxSize (c : CacheMultiMap) (nMaxSizeIn : nat) : CacheMultiMap :=
  {| nMaxSize := nMaxSizeIn; listItems := listItems c; mapIndex := mapIndex c; fresh_node := fresh_node c |}.
Definition Erase_value (c : CacheMultiMap) (key : K) (value : V) : CacheMultiMap :=
  match mapIndex c !! key with
  | None => c
  | Some mapIt =>
      match find value mapIt with
      | None => c
      | Some it => {| nMaxSize := nMaxSize c; listItems := erase_node it.2 (listItems c);
                      mapIndex := drop_value key value (mapIndex c); fresh_node := fresh_node c |}
      end
  end.

(** *** The list of items and the index agree *)

(** [P]: the keys that may be left without a value, for a while. *)
Record wf (P : K -> Prop) (c : CacheMultiMap) : Prop := {
  wf_nodes : NoDup (listItems c).*1;
  wf_fresh : Forall (fun n => (n < fresh_node c)%nat) (listItems c).*1;
  wf_index : forall k n v, (exists m, mapIndex c !! k = Some m /\ (v, n) ∈ m) <-> (n, (k, v)) ∈ listItems c;
  wf_full : forall k, mapIndex c !! k = Some [] -> P k;
  wf_different : forall k n v n' v', (n, (k, v)) ∈ listItems c -> (n', (k, v')) ∈ listItems c -> equivalent v v' = true -> n = n';
}.
Definition items (c : CacheMultiMap) : list (K * V) := (listItems c).*2.

Hypothesis lt_irreflexive : forall v, lt v v = false.
Lemma equivalent_refl v : equivalent v v = true.
Proof. unfold equivalent. by rewrite lt_irreflexive. Qed.
Lemma equivalent_sym v w : equivalent v w = equivalent w v.
Proof. unfold equivalent. apply andb_comm. Qed.

Lemma emplace_in v n m e : e ∈ emplace v n m <-> e = (v, n) \/ e ∈ m.
Proof.
  induction m as [|x m IH]; cbn; [by rewrite list_elem_of_singleton, elem_of_nil; tauto|].
  destruct (lt v x.1); rewrite !elem_of_cons; [tauto|]. rewrite IH. tauto.
Qed.
Lemma emplace_nil v n m : emplace v n m ≠ [].
Proof. destruct m as [|x m]; cbn; [done|]. by destruct (lt v x.1). Qed.
Lemma erase_in v m e : e ∈ erase v m <-> equivalent v e.1 = false /\ e ∈ m.
Proof. unfold erase. rewrite !list_elem_of_In, filter_In. destruct (equivalent v e.1); cbn; intuition congruence. Qed.
Lemma find_none v m : find v m = None <-> forall e, e ∈ m -> equivalent v e.1 = false.
Proof.
  unfold find. split.
  - intros Hf e He%list_elem_of_In. by apply (find_none _ _ Hf).
  - intros Hf. destruct (List.find _ m) as [e|] eqn:E; [|done]. apply find_some in E as [Hin E].
    rewrite Hf in E; [done|by apply list_elem_of_In].
Qed.
Lemma drop_value_in k v index k' e : (exists m, drop_value k v index !! k' = Some m /\ e ∈ m) <->
  (exists m, index !! k' = Some m /\ e ∈ m) /\ (k = k' -> equivalent v e.1 = false).
Proof.
  unfold drop_value. destruct (decide (k = k')) as [<-|Hne].
  - destruct (index !! k) as [m|] eqn:E.
    + pose proof (erase_in v m e) as He. destruct (erase v m) as [|x m'] eqn:Em.
      * rewrite lookup_delete_eq. rewrite elem_of_nil in He. split; [by intros (? & ? & _)|]. intros [(m' & [= <-] & Hin) Hv]. exfalso. apply He. auto.
      * rewrite lookup_insert_eq. split; [intros (m1 & [= <-] & [H1 H2]%He)|intros [(m1 & [= <-] & H1) H2]]; [split; [by exists m|auto]|].
        eexists. split; [done|]. apply He. auto.
    + rewrite E. split; [by intros (? & ? & _)|]. by intros [(? & ? & _) _].
  - assert (forall P : Prop, P <-> P /\ (k = k' -> equivalent v e.1 = false)) as Hp by tauto.
    destruct (index !! k) as [m|]; [destruct (erase v m); [rewrite lookup_delete_ne by done|rewrite lookup_insert_ne by done]|]; apply Hp.
Qed.
Lemma drop_value_full k v index k' : drop_value k v index !! k' = Some [] -> index !! k' = Some [].
Proof.
  unfold drop_value. destruct (decide (k = k')) as [<-|Hne].
  - destruct (index !! k) as [m|] eqn:E; [|by rewrite E]. destruct (erase v m); by rewrite ?lookup_delete_eq, ?lookup_insert_eq.
  - destruct (index !! k) as [m|]; [destruct (erase v m); rewrite ?lookup_delete_ne, ?lookup_insert_ne by done|]; done.
Qed.

(** A part of the list, with the index for it. *)
Lemma multi_wf_cut P c c' : wf P c -> fresh_node c' = fresh_node c -> listItems c' `sublist_of` listItems c ->
  (forall k n v, (exists m, mapIndex c' !! k = Some m /\ (v, n) ∈ m) <-> (exists m, mapIndex c !! k = Some m /\ (v, n) ∈ m) /\ n ∈ (listItems c').*1) ->
  (forall k, mapIndex c' !! k = Some [] -> P k) -> wf P c'.
Proof.
  intros [Hn Hf Hi He Hd] Ef Hs Hm Hfull. pose proof (fun x Hx => elem_of_sublist _ _ x Hx Hs) as Hin. split.
  - eapply sublist_NoDup; [exact Hn|by apply sublist_fmap].
  - rewrite Ef. eapply sublist_Forall; [by apply sublist_fmap|exact Hf].
  - intros k n v. rewrite Hm, Hi. split.
    + intros [Hl ([n' p] & -> & Hl')%list_elem_of_fmap]. cbn in Hl. pose proof (deref_in _ _ _ Hn Hl) as E1. pose proof (deref_in _ _ _ Hn (Hin _ Hl')) as E2. rewrite E1 in E2. injection E2 as <-. exact Hl'.
    + intros Hl. split; [by apply Hin|]. apply list_elem_of_fmap. by exists (n, (k, v)).
  - exact Hfull.
  - intros k n v n' v' H1 H2. apply (Hd k); by apply Hin.
Qed.
Lemma multi_PruneLast_wf P c : wf P c -> wf P (PruneLast c).
Proof.
  intros Hwf. pose proof Hwf as [Hn Hf Hi He Hd]. unfold PruneLast. destruct (last (listItems c)) as [[m [k v]]|] eqn:E; [|done].
  pose proof (CacheMap.last_split _ _ E) as El. set (l := without_last (listItems c)) in *.
  assert ((m, (k, v)) ∈ listItems c) as Hlast by (rewrite El; apply elem_of_app; right; by left).
  apply (multi_wf_cut P c); [done|done|cbn; rewrite El; by apply sublist_inserts_r| |cbn; intros k' ?%drop_value_full; by apply He]. cbn.
  intros k' n w. rewrite drop_value_in, Hi. cbn. assert ((n, (k', w)) ∈ listItems c -> (k = k' -> equivalent v w = false) <-> n ∈ l.*1) as Hiff; [|tauto].
  rewrite El, fmap_app in Hn. cbn in Hn. apply CacheMap.nodup_snoc in Hn as [_ Hm]. intros Hin. split.
  - intros Hv. rewrite El in Hin. apply elem_of_app in Hin as [Hin|Hin%list_elem_of_singleton]; [apply list_elem_of_fmap; by exists (n, (k', w))|].
    injection Hin as -> -> ->. rewrite equivalent_refl in Hv. by discriminate Hv.
  - intros Hl <-. destruct (equivalent v w) eqn:Ev; [|done]. exfalso. apply Hm. by rewrite (Hd _ _ _ _ _ Hlast Hin Ev).
Qed.

(** The plain list, and when the key's only value is the one that makes room. *)
Definition known (k : K) (v : V) (l : list (K * V)) : bool := existsb (fun x => bool_decide (x.1 = k) && equivalent v x.2) l.
Definition only_last (max : nat) (k : K) (l : list (K * V)) : bool :=
  (length l =? max)%nat && match last l with Some x => bool_decide (x.1 = k) && negb (bool_decide (k ∈ (without_last l).*1)) | None => false end.

Lemma items_in c k v : (k, v) ∈ items c <-> exists n, (n, (k, v)) ∈ listItems c.
Proof.
  unfold items. rewrite list_elem_of_fmap. split.
  - intros ([n p] & E & Hin). exists n. cbn in E. by subst p.
  - intros (n & Hin). by exists (n, (k, v)).
Qed.
Lemma keys_in c k : k ∈ (items c).*1 <-> exists n v, (n, (k, v)) ∈ listItems c.
Proof.
  rewrite list_elem_of_fmap. split.
  - intros ([k' v] & -> & (n & Hin)%items_in). by exists n, v.
  - intros (n & v & Hin). exists (k, v). split; [done|]. apply items_in. by exists n.
Qed.
Lemma known_spec P c k v : wf P c -> find v (default [] (mapIndex c !! k)) = None <-> known k v (items c) = false.
Proof.
  intros [Hn Hf Hi He Hd]. rewrite find_none, <- not_true_iff_false. unfold known. rewrite existsb_exists. split.
  - intros Hnone ([k' w] & Hin%list_elem_of_In & [Ek%bool_decide_eq_true Ew]%andb_true_iff). cbn in Ek, Ew. subst k'. apply items_in in Hin as (n & (m & E & Hm)%Hi).
    rewrite E in Hnone. cbn in Hnone. specialize (Hnone _ Hm). cbn in Hnone. congruence.
  - intros Hnone [w n] Hin. destruct (mapIndex c !! k) as [m|] eqn:E; cbn in *; [|by apply elem_of_nil in Hin].
    destruct (equivalent v w) eqn:Ew; [|done]. destruct Hnone. exists (k, w). cbn. rewrite bool_decide_true, Ew by done. split; [|done].
    apply list_elem_of_In, items_in. exists n. apply Hi. by exists m.
Qed.
(** The entry of the key that [Insert] starts from. *)
Definition with_key (k : K) (c : CacheMultiMap) : CacheMultiMap := match mapIndex c !! k with None => with_index <[k := []]> c | Some _ => c end.
Lemma with_key_wf k c : wf (fun _ => False) c -> wf (eq k) (with_key k c) /\ items (with_key k c) = items c /\ nMaxSize (with_key k c) = nMaxSize c /\
  default [] (mapIndex (with_key k c) !! k) = default [] (mapIndex c !! k) /\ mapIndex (with_key k c) !! k ≠ None.
Proof.
  intros Hwf. pose proof Hwf as [Hn Hf Hi He Hd]. unfold with_key. destruct (mapIndex c !! k) as [m|] eqn:E.
  - split_and!; [|done|done|by rewrite E|by rewrite E]. split; [done|done|done|by intros k' []%He|done].
  - split_and!; [|done|done|cbn; by rewrite lookup_insert_eq|cbn; by rewrite lookup_insert_eq]. split; [done|done| | |done]; cbn.
    + intros k' n v. rewrite <- Hi. destruct (decide (k = k')) as [<-|Hne]; [|by rewrite lookup_insert_ne by done].
      rewrite lookup_insert_eq, E. split; [|by intros (? & ? & _)]. intros (m & [= <-] & []%elem_of_nil).
    + intros k'. destruct (decide (k = k')) as [<-|Hne]; [done|]. rewrite lookup_insert_ne by done. by intros []%He.
Qed.
Lemma multi_PruneLast_items c : items (PruneLast c) = without_last (items c).
Proof.
  unfold PruneLast, items. destruct (last (listItems c)) as [x|] eqn:E; cbn; [apply without_last_fmap|].
  apply last_None in E. by rewrite E.
Qed.
Definition make_room (c : CacheMultiMap) : CacheMultiMap := if (length (listItems c) =? nMaxSize c)%nat then PruneLast c else c.
Lemma make_room_wf P c : wf P c -> wf P (make_room c).
Proof. intros Hwf. unfold make_room. destruct (_ =? _)%nat; [by apply multi_PruneLast_wf|done]. Qed.
Lemma make_room_items c : items (make_room c) = (if (length (items c) =? nMaxSize c)%nat then without_last (items c) else items c).
Proof. unfold make_room. assert (length (items c) = length (listItems c)) as -> by apply length_fmap. destruct (_ =? _)%nat; [apply multi_PruneLast_items|done]. Qed.
Lemma make_room_empty c k : mapIndex (make_room c) !! k = Some [] -> mapIndex c !! k = Some [].
Proof. unfold make_room, PruneLast. destruct (_ =? _)%nat; [|done]. destruct (last _); [|done]. cbn. apply drop_value_full. Qed.

(** The reference dangles just when the key had one value, the last of a full container. *)
Lemma make_room_key k c : wf (eq k) c -> mapIndex c !! k ≠ None ->
  mapIndex (make_room c) !! k = None <-> only_last (nMaxSize c) k (items c) = true.
Proof.
  intros Hwf Hk. pose proof (make_room_wf _ _ Hwf) as Hwf'. destruct Hwf as [Hn Hf Hi He Hd], Hwf' as [_ _ Hi' _ _].
  pose proof (make_room_items c) as Ei. pose proof (make_room_empty c k) as Hempty. unfold only_last. split.
  - intros Hnone. assert (k ∉ (items (make_room c)).*1) as Hno.
    { intros (n & v & (m & E & _)%Hi')%keys_in. congruence. }
    rewrite Ei in Hno. unfold make_room, PruneLast in Hnone. assert (length (items c) = length (listItems c)) as El by apply length_fmap. rewrite El in *.
    destruct (_ =? _)%nat; [|done]. assert (last (items c) = snd <$> last (listItems c)) as -> by apply fmap_last.
    destruct (last (listItems c)) as [[m [k' v]]|]; [|done]. cbn in *. unfold drop_value in Hnone.
    destruct (decide (k' = k)) as [->|Hne]; [by rewrite bool_decide_true, bool_decide_false|].
    destruct (mapIndex c !! k') as [m'|]; [|done]. destruct (erase v m'); [rewrite lookup_delete_ne in Hnone by done|rewrite lookup_insert_ne in Hnone by done]; done.
  - intros [Hlen Hlast]%andb_true_iff. rewrite Hlen in Ei. destruct (last (items c)) as [[k' v]|] eqn:El; [|done]. cbn in Hlast.
    apply andb_true_iff in Hlast as [<-%bool_decide_eq_true Hno%negb_true_iff%bool_decide_eq_false]. destruct (mapIndex (make_room c) !! k') as [m|] eqn:E; [|done]. exfalso. destruct m as [|[w n] m].
    + specialize (Hempty eq_refl). apply last_Some in El as (l & El). assert ((k', v) ∈ items c) as Hin by (rewrite El; apply elem_of_app; right; by left).
      apply items_in in Hin as (n & (m & Em & Hm)%Hi). rewrite Hempty in Em. injection Em as <-. by apply elem_of_nil in Hm.
    + apply Hno. rewrite <- Ei. apply keys_in. exists n, w. apply Hi'. eexists. split; [exact E|left].
Qed.

Lemma multi_wf_push k v c m : wf (eq k) c -> mapIndex c !! k = Some m -> known k v (items c) = false ->
  wf (fun _ => False) {| nMaxSize := nMaxSize c; listItems := (fresh_node c, (k, v)) :: listItems c;
                         mapIndex := <[k := emplace v (fresh_node c) m]> (mapIndex c); fresh_node := S (fresh_node c) |}.
Proof.
  intros Hwf Em Hknown. pose proof (proj2 (known_spec _ _ k v Hwf) Hknown) as Hnone. rewrite Em in Hnone. pose proof (proj1 (find_none v m) Hnone) as Hnone'. clear Hnone. rename Hnone' into Hnone.
  destruct Hwf as [Hn Hf Hi He Hd]. rewrite Forall_forall in Hf.
  assert (forall n w, (n, (k, w)) ∈ listItems c -> equivalent v w = false) as Hnew.
  { intros n w (m' & Em' & Hin)%Hi. rewrite Em in Em'. injection Em' as <-. by apply (Hnone (w, n)). }
  split; cbn.
  - apply NoDup_cons. split; [|done]. intros Hin%Hf. lia.
  - rewrite Forall_cons, Forall_forall. split; [lia|]. intros n Hin%Hf. lia.
  - intros k' n w. rewrite elem_of_cons, <- Hi. destruct (decide (k = k')) as [<-|Hne].
    + rewrite lookup_insert_eq, Em. split.
      * intros (m' & [= <-] & [[= -> ->]|Hin]%emplace_in); [by left|right; by exists m].
      * intros [[= -> ->]|(m' & [= <-] & Hin)]; (eexists; split; [done|]); apply emplace_in; auto.
    + rewrite lookup_insert_ne by done. split; [by right|]. intros [[=]|]; [congruence|done].
  - intros k'. destruct (decide (k = k')) as [<-|Hne]; [rewrite lookup_insert_eq; intros [= E]; by apply emplace_nil in E|].
    rewrite lookup_insert_ne by done. intros E%He. by apply Hne.
  - intros k' n w n' w' [[= -> -> ->]|H1]%elem_of_cons [[= E1 E2]|H2]%elem_of_cons Ew; subst.
    + done.
    + rewrite (Hnew _ _ H2) in Ew. by discriminate Ew.
    + rewrite equivalent_sym, (Hnew _ _ H1) in Ew. by discriminate Ew.
    + by apply (Hd k' n w n' w').
Qed.
Lemma Insert_unfold c k v : Insert c k v =
  (let c := with_key k c in
   match find v (default [] (mapIndex c !! k)) with
   | Some _ => Some (c, false)
   | None => let c := make_room c in m ← mapIndex c !! k;
       Some ({| nMaxSize := nMaxSize c; listItems := (fresh_node c, (k, v)) :: listItems c;
                mapIndex := <[k := emplace v (fresh_node c) m]> (mapIndex c); fresh_node := S (fresh_node c) |}, true)
   end).
Proof. reflexivity. Qed.
Lemma with_key_known c k v : known k v (items c) = true -> wf (fun _ => False) c -> with_key k c = c.
Proof.
  intros Hk Hwf. unfold with_key. destruct (mapIndex c !! k) eqn:E; [done|]. pose proof (known_spec _ c k v Hwf) as [Hs _].
  rewrite E, Hk in Hs. specialize (Hs eq_refl). by discriminate Hs.
Qed.
Lemma known_sub k v l l' : l `sublist_of` l' -> known k v l' = false -> known k v l = false.
Proof.
  rewrite <- !not_true_iff_false. unfold known. rewrite !existsb_exists. intros Hs Hn (x & Hin & E). apply Hn. exists x. split; [|done].
  apply list_elem_of_In. eapply elem_of_sublist; [|exact Hs]. by apply list_elem_of_In.
Qed.
Lemma make_room_max c : nMaxSize (make_room c) = nMaxSize c.
Proof. unfold make_room, PruneLast. destruct (_ =? _)%nat; [|done]. by destruct (last _). Qed.
Lemma multi_Insert_spec c k v : wf (fun _ => False) c ->
  match Insert c k v with
  | Some (c', fresh) => wf (fun _ => False) c' /\ nMaxSize c' = nMaxSize c /\ fresh = negb (known k v (items c)) /\
      items c' = if known k v (items c) then items c else keep_newest (nMaxSize c) (k, v) (items c)
  | None => known k v (items c) = false /\ only_last (nMaxSize c) k (items c) = true
  end.
Proof.
  intros Hwf. rewrite Insert_unfold. cbv zeta. destruct (with_key_wf k c Hwf) as (Hwf1 & Ei & Emax & Ed & Hk). pose proof (known_spec _ _ k v Hwf) as Hknown. rewrite Ed.
  destruct (find v (default [] (mapIndex c !! k))) as [e|] eqn:Ef.
  - assert (known k v (items c) = true) as E by (destruct (known k v (items c)); [done|]; exfalso; by assert (Some e = None) by tauto).
    rewrite E, (with_key_known c k v) by done. done.
  - assert (known k v (items c) = false) as E by tauto. pose proof (make_room_key k _ Hwf1 Hk) as Hroom. rewrite Emax, Ei in Hroom.
    pose proof (make_room_wf _ _ Hwf1) as Hwf2. pose proof (make_room_items (with_key k c)) as Ei2. rewrite Ei, Emax in Ei2.
    assert (nMaxSize (make_room (with_key k c)) = nMaxSize c) as Emax2 by (rewrite <- Emax; apply make_room_max).
    destruct (mapIndex (make_room (with_key k c)) !! k) as [m|] eqn:Em; cbn [mbind option_bind]; [|tauto]. split_and!.
    + apply multi_wf_push; [done|done|]. rewrite Ei2. eapply known_sub; [|exact E]. destruct (_ =? _)%nat; [apply CacheMap.without_last_sub|done].
    + exact Emax2.
    + by rewrite E.
    + rewrite E. unfold keep_newest. rewrite <- Ei2. reflexivity.
Qed.
Lemma Insert_dangles c k v : wf (fun _ => False) c -> known k v (items c) = false -> only_last (nMaxSize c) k (items c) = true -> Insert c k v = None.
Proof.
  intros Hwf E Hlast. rewrite Insert_unfold. cbv zeta. destruct (with_key_wf k c Hwf) as (Hwf1 & Ei & Emax & Ed & Hk). rewrite Ed.
  rewrite (proj2 (known_spec _ _ k v Hwf) E). assert (mapIndex (make_room (with_key k c)) !! k = None) as -> by (apply (make_room_key k _ Hwf1 Hk); by rewrite Emax, Ei). done.
Qed.

Lemma deref_all P c k m : wf P c -> mapIndex c !! k = Some m -> mapM (fun e => item ← deref e.2 (listItems c); Some item.2) m = Some m.*1.
Proof.
  intros [Hn Hf Hi He Hd] Em. assert (forall e, e ∈ m -> deref e.2 (listItems c) = Some (k, e.1)) as Hall.
  { intros [v n] Hin. apply deref_in; [done|]. apply Hi. by exists m. }
  clear Em. induction m as [|e m IH]; [done|]. cbn [mapM]. rewrite Hall by left. cbn [mbind option_bind snd]. rewrite IH; [done|]. intros e' He'. apply Hall. by right.
Qed.
(** The values of a key are those of its items. *)
Lemma GetAll_spec P c k : wf P c -> exists vs, GetAll c k = Some vs /\ forall v, v ∈ vs <-> (k, v) ∈ items c.
Proof.
  intros Hwf. pose proof Hwf as [Hn Hf Hi He Hd]. unfold GetAll. destruct (mapIndex c !! k) as [m|] eqn:E.
  - rewrite (deref_all P c k m) by done. exists m.*1. split; [done|]. intros v. rewrite items_in, list_elem_of_fmap. split.
    + intros ([w n] & -> & Hin). exists n. apply Hi. by exists m.
    + intros (n & (m' & E' & Hin)%Hi). exists (v, n). split; [done|]. congruence.
  - exists []. split; [done|]. intros v. rewrite elem_of_nil, items_in. split; [done|]. intros (n & (m & E' & _)%Hi). congruence.
Qed.
(** The item that a value erases. *)
Definition list_erase_value (k : K) (v : V) (l : list (K * V)) : list (K * V) := List.filter (fun x => negb (bool_decide (x.1 = k) && equivalent v x.2)) l.
Hypothesis equivalent_trans : forall u v w, equivalent u v = true -> equivalent v w = true -> equivalent u w = true.
Lemma erase_nodes (f : K * V -> bool) (ns : list nat) (l : list (nat * (K * V))) : (forall n p, (n, p) ∈ l -> (f p = false) <-> (n ∈ ns)) ->
  (fold_left (fun l n => erase_node n l) ns l).*2 = List.filter f l.*2.
Proof.
  revert l. induction ns as [|n ns IH]; intros l Hl; cbn [fold_left].
  - assert (forall p, p ∈ l.*2 -> f p = true) as Hall.
    { intros p ([n q] & E & Hin)%list_elem_of_fmap. cbn in E. subst q. apply not_false_iff_true. intros []%(Hl n p Hin)%elem_of_nil. }
    clear Hl. induction l.*2 as [|p l' IHl]; [done|]. cbn. rewrite Hall by left. f_equal. apply IHl. intros q Hq. apply Hall. by right.
  - rewrite IH.
    + clear IH. induction l as [|[m p] l IHl]; [done|]. unfold erase_node in *. rewrite filter_cons. cbn [fst snd]. pose proof (Hl m p ltac:(left)) as Hm.
      assert (forall n' p', (n', p') ∈ l -> (f p' = false) <-> (n' ∈ n :: ns)) as Hl' by (intros n' p' Hin; apply Hl; by right).
      destruct (decide (m ≠ n)) as [Hne|E]; rewrite !fmap_cons; cbn [List.filter snd]; rewrite (IHl Hl'); [done|].
      apply dec_stable in E. subst m. by rewrite (proj2 Hm) by left.
    + intros m p [Hne Hin]%erase_node_in. cbn in Hne. rewrite (Hl m p Hin). rewrite elem_of_cons. tauto.
Qed.
Lemma Erase_value_spec c k v : wf (fun _ => False) c ->
  wf (fun _ => False) (Erase_value c k v) /\ items (Erase_value c k v) = list_erase_value k v (items c).
Proof.
  intros Hwf. pose proof Hwf as [Hn Hf Hi He Hd]. unfold Erase_value.
  destruct (find v (default [] (mapIndex c !! k))) as [[w n]|] eqn:Ef.
  - destruct (mapIndex c !! k) as [m|] eqn:Em; [|done]. change (find v m = Some (w, n)) in Ef. rewrite Ef.
    apply find_some in Ef as [Hin%list_elem_of_In Ew]. cbn in Ew. assert ((n, (k, w)) ∈ listItems c) as Hitem by (apply Hi; by exists m).
    assert (forall n' k' v', (n', (k', v')) ∈ listItems c -> (bool_decide (k' = k) && equivalent v v') = true <-> n' = n) as Hone.
    { intros n' k' v' Hin'. rewrite andb_true_iff, bool_decide_eq_true. split.
      - intros [-> Ev]. apply (Hd k n' v' n w Hin' Hitem). apply (equivalent_trans v' v w); [by rewrite equivalent_sym|done].
      - intros ->. pose proof (deref_in _ _ _ Hn Hitem) as E1. pose proof (deref_in _ _ _ Hn Hin') as E2. rewrite E1 in E2. by injection E2 as -> ->. }
    split.
    + apply (multi_wf_cut _ c); [done|done|apply sublist_filter| |cbn; intros k' E%drop_value_full; by apply (He k')]. cbn [mapIndex listItems]. intros k' n' v'.
      rewrite drop_value_in, Hi. assert ((n', (k', v')) ∈ listItems c -> (k = k' -> equivalent v v' = false) <-> n' ∈ (erase_node n (listItems c)).*1) as Hiff; [|cbn; tauto].
      intros Hin'. pose proof (Hone n' k' v' Hin') as Hb. split.
      * intros Hv. apply list_elem_of_fmap. exists (n', (k', v')). split; [done|]. apply erase_node_in. split; [|done]. cbn. intros E%Hb.
        apply andb_true_iff in E as [->%bool_decide_eq_true E]. rewrite Hv in E; done.
      * intros ([m' p] & E & [Hne _]%erase_node_in)%list_elem_of_fmap <-. cbn in E, Hne. subst m'. destruct (equivalent v v') eqn:Ev; [|done].
        destruct Hne. apply Hb. by rewrite bool_decide_true.
    + unfold items, list_erase_value. apply (erase_nodes _ [n]). intros n' [k' v'] Hin'. rewrite negb_false_iff. cbn [fst snd]. rewrite (Hone _ _ _ Hin').
      by rewrite list_elem_of_singleton.
  - assert (known k v (items c) = false) as Hno by (by apply (known_spec _ _ _ _ Hwf)).
    assert (list_erase_value k v (items c) = items c) as Ei.
    { unfold list_erase_value. apply not_true_iff_false in Hno. unfold known in Hno. rewrite existsb_exists in Hno. clear Hwf Hi He Hd. induction (items c) as [|x l IH]; [done|].
      cbn. destruct (bool_decide (x.1 = k) && equivalent v x.2) eqn:E; cbn; [destruct Hno; exists x; split; [by left|done]|].
      f_equal. apply IH. intros (y & Hy & Ey). apply Hno. exists y. split; [by right|done]. }
    rewrite Ei. destruct (mapIndex c !! k) as [m|]; [|done]. change (find v m = None) in Ef. by rewrite Ef.
Qed.
Lemma erase_fold (m : list (V * nat)) (l : list (nat * (K * V))) : fold_left (fun l e => erase_node e.2 l) m l = fold_left (fun l n => erase_node n l) m.*2 l.
Proof. revert l. induction m as [|e m IH]; intros l; [done|]. cbn. apply IH. Qed.
Lemma erase_fold_in ns (l : list (nat * (K * V))) x : x ∈ fold_left (fun l n => erase_node n l) ns l <-> x.1 ∉ ns /\ x ∈ l.
Proof.
  revert l. induction ns as [|n ns IH]; intros l; cbn [fold_left]; [rewrite elem_of_nil; tauto|].
  rewrite IH, erase_node_in, elem_of_cons. tauto.
Qed.
Lemma erase_fold_sub ns (l : list (nat * (K * V))) : fold_left (fun l n => erase_node n l) ns l `sublist_of` l.
Proof. revert l. induction ns as [|n ns IH]; intros l; cbn [fold_left]; [done|]. etrans; [apply IH|apply sublist_filter]. Qed.
Definition list_erase (k : K) (l : list (K * V)) : list (K * V) := List.filter (fun x => negb (bool_decide (x.1 = k))) l.
Lemma multi_Erase_spec c k : wf (fun _ => False) c -> wf (fun _ => False) (Erase c k) /\ items (Erase c k) = list_erase k (items c).
Proof.
  intros Hwf. pose proof Hwf as [Hn Hf Hi He Hd]. unfold Erase. destruct (mapIndex c !! k) as [m|] eqn:Em.
  - rewrite erase_fold. assert (forall n k' v, (n, (k', v)) ∈ listItems c -> (k' = k) <-> (n ∈ m.*2)) as Hkey.
    { intros n k' v Hin. rewrite list_elem_of_fmap. split.
      - intros ->. apply Hi in Hin as (m' & E & Hin). exists (v, n). split; [done|]. congruence.
      - intros ([w n'] & -> & Hin'). assert ((n', (k, w)) ∈ listItems c) as Hw by (apply Hi; by exists m).
        pose proof (deref_in _ _ _ Hn Hin) as E1. pose proof (deref_in _ _ _ Hn Hw) as E2. cbn in E1. rewrite E1 in E2. by injection E2. }
    split.
    + apply (multi_wf_cut _ c); [done|done|apply erase_fold_sub| |]; cbn [mapIndex listItems].
      * intros k' n v. rewrite Hi. destruct (decide (k = k')) as [<-|Hne].
        -- rewrite lookup_delete_eq. split; [by intros (? & ? & _)|]. intros [Hin ([n' p] & E & [Hno _]%erase_fold_in)%list_elem_of_fmap]. cbn in E, Hno. subst n'.
           destruct Hno. by apply (Hkey n k v).
        -- rewrite lookup_delete_ne by done. rewrite Hi. split; [|tauto]. intros Hin. split; [done|]. apply list_elem_of_fmap. exists (n, (k', v)). split; [done|].
           apply erase_fold_in. split; [|done]. cbn. rewrite <- (Hkey n k' v Hin). congruence.
      * intros k'. destruct (decide (k = k')) as [<-|Hne]; [by rewrite lookup_delete_eq|]. rewrite lookup_delete_ne by done. apply He.
    + unfold items, list_erase. apply erase_nodes. intros n [k' v] Hin. rewrite negb_false_iff, bool_decide_eq_true. by apply (Hkey n k' v).
  - split; [done|]. unfold list_erase, items. symmetry. rewrite <- (erase_nodes _ [] (listItems c)); [done|]. intros n [k' v] Hin.
    rewrite negb_false_iff, bool_decide_eq_true, elem_of_nil. split; [|done]. cbn. intros ->. apply Hi in Hin as (m & E & _). congruence.
Qed.

(** A history; [None] once a freed reference was used. *)
Inductive op : Type := op_Insert (k : K) (v : V) | op_Erase (k : K) | op_Erase_value (k : K) (v : V) | op_SetMaxSize (n : nat).
Definition step (c : option CacheMultiMap) (o : op) : option CacheMultiMap :=
  c ← c;
  match o with
  | op_Insert k v => fst <$> Insert c k v
  | op_Erase k => Some (Erase c k)
  | op_Erase_value k v => Some (Erase_value c k v)
  | op_SetMaxSize n => Some (SetMaxSize c n)
  end.
Definition list_step (s : option (nat * list (K * V))) (o : op) : option (nat * list (K * V)) :=
  '(max, l) ← s;
  match o with
  | op_Insert k v => if known k v l then Some (max, l) else if only_last max k l then None else Some (max, keep_newest max (k, v) l)
  | op_Erase k => Some (max, list_erase k l)
  | op_Erase_value k v => Some (max, list_erase_value k v l)
  | op_SetMaxSize n => Some (n, l)
  end.
Definition plain (c : CacheMultiMap) : nat * list (K * V) := (nMaxSize c, items c).
Definition ok (c : option CacheMultiMap) : Prop := match c with Some c => wf (fun _ => False) c | None => True end.

Lemma multi_step_spec c o : ok c -> ok (step c o) /\ plain <$> step c o = list_step (plain <$> c) o.
Proof.
  intros Hok. destruct c as [c|]; [|done]. cbn [ok] in Hok. unfold step, list_step. cbn [mbind option_bind fmap option_fmap option_map plain]. destruct o as [k v|k|k v|n].
  - pose proof (multi_Insert_spec c k v Hok) as Hs. pose proof (Insert_dangles c k v Hok) as Hd. destruct (Insert c k v) as [[c' b]|]; cbn [ok fmap option_fmap option_map fst].
    + destruct Hs as (Hwf & Hmax & _ & Hitems). split; [done|]. unfold plain. rewrite Hmax, Hitems. destruct (known k v (items c)); [done|].
      destruct (only_last (nMaxSize c) k (items c)); [|done]. by discriminate (Hd eq_refl eq_refl).
    + destruct Hs as [-> ->]. done.
  - destruct (multi_Erase_spec c k Hok) as [Hwf E]. split; [done|]. cbn. unfold plain. rewrite E. unfold Erase. by destruct (mapIndex c !! k).
  - destruct (Erase_value_spec c k v Hok) as [Hwf E]. split; [done|]. cbn. unfold plain. rewrite E. unfold Erase_value. destruct (mapIndex c !! k) as [m|]; [|done]. by destruct (find v m).
  - split; [|done]. by destruct Hok.
Qed.
Lemma multi_run_spec ops : forall c, ok c -> ok (fold_left step ops c) /\ plain <$> fold_left step ops c = fold_left list_step ops (plain <$> c).
Proof. induction ops as [|o ops IH]; intros c Hok; [done|]. cbn [fold_left]. destruct (multi_step_spec c o Hok) as [Hok' E]. rewrite <- E. by apply IH. Qed.
Lemma multi_empty_wf n : wf (fun _ => False) (empty n).
Proof.
  clear lt_irreflexive equivalent_trans. split; cbn; try constructor.
  - intros (m & E & _). by rewrite lookup_empty in E.
  - by intros Hin%elem_of_nil.
  - intros k. by rewrite lookup_empty.
  - by intros k n' v n'' v' Hin%elem_of_nil.
Qed.
End CacheMultiMap.
#[global] Arguments CacheMultiMap K {_ _} V.

(** A [CacheMultiMap] is the list of its items, the newest first, without equivalent
    values for one key: any history of insertions, erasures and changes of the maximum
    leaves the items of the plain list, and the values of a key are those of its items.
    The exception: an insertion into a full container for a key whose only value is the
    oldest item uses a reference into the index that making room has freed. *)
Theorem cache_multimap_refines `{Countable K} {V : Type} (lt : V -> V -> bool) n (ops : list (op (K := K) (V := V))) :
  (forall v, lt v v = false) -> (forall u v w, equivalent lt u v = true -> equivalent lt v w = true -> equivalent lt u w = true) ->
  match fold_left (list_step lt) ops (Some (n, [])), fold_left (step lt) ops (Some (empty n)) with
  | Some (max, l), Some c => nMaxSize c = max /\ items c = l /\ forall k, exists vs, GetAll c k = Some vs /\ forall v, v ∈ vs <-> (k, v) ∈ l
  | None, None => True
  | _, _ => False
  end.
Proof.
  intros Hirr Htrans. pose proof (multi_run_spec lt Hirr Htrans ops (Some (empty n)) (multi_empty_wf lt n)) as [Hok E].
  change (plain <$> Some (empty n)) with (Some (n, @nil (K * V))) in E. destruct (fold_left (step lt) ops _) as [c|]; cbn [fmap option_fmap option_map plain] in E; rewrite <- E; [|done].
  split_and!; [done|done|]. intros k. by apply (GetAll_spec lt _ c k Hok).
Qed.
Lemma cache_multimap_refines_witness :
  let ops := [op_Insert 1 5; op_Insert 1 6; op_Insert 2 5; op_Insert 2 5] in
  (items <$> fold_left (step Z.ltb) ops (Some (empty 3)) = Some [(2, 5); (1, 6); (1, 5)]) /\
  fold_left (step Z.ltb) [op_Insert 1 5; op_Insert 2 5; op_Insert 1 6] (Some (empty 2)) = None /\
  match fold_left (list_step Z.ltb) ops (Some (3%nat, [])), fold_left (step Z.ltb) ops (Some (empty 3)) with
  | Some (max, l), Some c => nMaxSize c = max /\ items c = l /\ forall k, exists vs, GetAll c k = Some vs /\ forall v, v ∈ vs <-> (k, v) ∈ l
  | None, None => True
  | _, _ => False
  end.
Proof.
  split; [vm_compute; reflexivity|]. split; [vm_compute; reflexivity|]. apply (cache_multimap_refines Z.ltb 3).
  - intros v. apply Z.ltb_irrefl.
  - unfold equivalent. intros u v w. rewrite !andb_true_iff, !negb_true_iff, !Z.ltb_ge. lia.
Defined.
End CacheMultiMap.
