(* ===== verification/Governance.v ===== *)
(** * Governance votes (src/src/governance-object.cpp, src/src/governance-vote.cpp,
    src/src/governance-votedb.cpp)

    What masternodes vote on: an object with the current vote of every masternode for every
    signal, the file of the votes behind them, and the votes whose masternode is unknown.

    The theorems: the order in which votes arrive does not matter for what is counted; every
    counted vote is one vote of one masternode and is kept in the file; and [operator<] of
    votes is never true, so that an object remembers one orphan vote for a masternode. *)

From S2P Require Import Prelude Bytes Serialize Containers Hash Script Transaction ProviderTx MasternodeList MasternodeQueue Standard ProviderChecks Caches.
From stdpp Require Import list gmap.
Local Open Scope Z_scope.
Local Open Scope cxx_scope.
Import CacheMultiMap.

(** ** Votes *)

Definition VOTE_OUTCOME_NONE : Z := 0.
Definition VOTE_OUTCOME_YES : Z := 1.
Definition VOTE_OUTCOME_NO : Z := 2.
Definition VOTE_OUTCOME_ABSTAIN : Z := 3.
Definition VOTE_SIGNAL_NONE : Z := 0.
Definition VOTE_SIGNAL_FUNDING : Z := 1.
Definition VOTE_SIGNAL_VALID : Z := 2.
Definition VOTE_SIGNAL_DELETE : Z := 3.
Definition VOTE_SIGNAL_ENDORSED : Z := 4.
Definition MAX_SUPPORTED_VOTE_SIGNAL : Z := VOTE_SIGNAL_ENDORSED.
Definition GOVERNANCE_OBJECT_PROPOSAL : Z := 1.
Definition GOVERNANCE_OBJECT_TRIGGER : Z := 2.
Definition GOVERNANCE_UPDATE_MIN : Z := 60 * 60.
Definition GOVERNANCE_ORPHAN_EXPIRATION_TIME : Z := 10 * 60.

Module CGovernanceVote.
Record t : Type := {
  nVoteSignal : Z;
  masternodeOutpoint : COutPoint;
  nParentHash : list Z;
  nVoteOutcome : Z;
  nTime : Z;
  vchSig : list Z;
}.
#[global] Instance t_eq_dec : EqDecision t.
Proof. solve_decision. Defined.

(** The enumerations have no negative values, and no sign. *)
Definition GetSignal (v : t) : Z := u32 (nVoteSignal v).
Definition GetOutcome (v : t) : Z := u32 (nVoteOutcome v).

(** The hash is computed when a field changes; it leaves the signature out. *)
Definition GetHash (v : t) : list Z :=
  CHashWriter_GetHash [COutPoint_Serialize (masternodeOutpoint v); ser_writedata8 0; ser_writedata32 0xffffffff; nParentHash v;
    ser_writedata32 (u32 (nVoteSignal v)); ser_writedata32 (u32 (nVoteOutcome v)); ser_writedata64 (u64 (nTime v))].
Definition GetSignatureHash (v : t) : list Z :=
  CHashWriter_GetHash [COutPoint_Serialize (masternodeOutpoint v); nParentHash v;
    ser_writedata32 (u32 (nVoteOutcome v)); ser_writedata32 (u32 (nVoteSignal v)); ser_writedata64 (u64 (nTime v))].

(** [operator<] *)
Definition lt (vote1 vote2 : t) : bool :=
  let fResult := COutPoint_lt (masternodeOutpoint vote1) (masternodeOutpoint vote2) in
  if negb fResult then false
  else
    let fResult := bool_decide (masternodeOutpoint vote1 = masternodeOutpoint vote2) in
    let fResult := fResult && uint256_lt (nParentHash vote1) (nParentHash vote2) in
    if negb fResult then false
    else
      let fResult := fResult && bool_decide (nParentHash vote1 = nParentHash vote2) in
      let fResult := fResult && (nVoteOutcome vote1 <? nVoteOutcome vote2) in
      if negb fResult then false
      else
        let fResult := fResult && (nVoteOutcome vote1 =? nVoteOutcome vote2) in
        let fResult := fResult && (nVoteSignal vote1 =? nVoteSignal vote2) in
        if negb fResult then false
        else
          let fResult := fResult && (nVoteSignal vote1 =? nVoteSignal vote2) in
          fResult && (nTime vote1 <? nTime vote2).
End CGovernanceVote.
Abbreviation CGovernanceVote := CGovernanceVote.t.

(** ** The file of votes: a list with an index by hash *)

Module VoteFile.
Record t : Type := { nMemoryVotes : Z; listVotes : list (nat * CGovernanceVote); mapVoteIndex : gmap (list Z) nat; fresh_node : nat }.
Definition new : t := {| nMemoryVotes := 0; listVotes := []; mapVoteIndex := ∅; fresh_node := 0 |}.
Definition HasVote (f : t) (nHash : list Z) : bool := match mapVoteIndex f !! nHash with Some _ => true | None => false end.
Definition AddVote (f : t) (vote : CGovernanceVote) : t :=
  let nHash := CGovernanceVote.GetHash vote in
  if HasVote f nHash then f
  else {| nMemoryVotes := nMemoryVotes f + 1; listVotes := (fresh_node f, vote) :: listVotes f;
          mapVoteIndex := match mapVoteIndex f !! nHash with Some _ => mapVoteIndex f | None => <[nHash := fresh_node f]> (mapVoteIndex f) end;
          fresh_node := S (fresh_node f) |}.
Definition GetVotes (f : t) : list CGovernanceVote := (listVotes f).*2.

(** The loop of the three removals, over the nodes from the first on. *)
Fixpoint remove_loop (p : CGovernanceVote -> bool) (nodes : list (nat * CGovernanceVote)) (f : t) (removed : list (list Z)) : t * list (list Z) :=
  match nodes with
  | [] => (f, removed)
  | (it, vote) :: nodes =>
      if p vote then
        remove_loop p nodes {| nMemoryVotes := nMemoryVotes f - 1; listVotes := erase_node it (listVotes f);
                               mapVoteIndex := delete (CGovernanceVote.GetHash vote) (mapVoteIndex f); fresh_node := fresh_node f |}
          (removed ++ [CGovernanceVote.GetHash vote])
      else remove_loop p nodes f removed
  end.
Definition remove_votes (p : CGovernanceVote -> bool) (f : t) : t * list (list Z) := remove_loop p (listVotes f) f [].
Definition RemoveVotesFromMasternode (f : t) (outpointMasternode : COutPoint) : t :=
  (remove_votes (fun v => bool_decide (CGovernanceVote.masternodeOutpoint v = outpointMasternode)) f).1.
Definition RemoveInvalidProposalVotes (IsValid : CGovernanceVote -> bool -> bool) (f : t) (outpointMasternode : COutPoint) : t * list (list Z) :=
  remove_votes (fun v => (CGovernanceVote.GetSignal v =? VOTE_SIGNAL_FUNDING) && bool_decide (CGovernanceVote.masternodeOutpoint v = outpointMasternode) &&
                         negb (IsValid v true)) f.
Definition RemoveOldVotes (f : t) (nMinTime : Z) : t * list (list Z) := remove_votes (fun v => CGovernanceVote.nTime v <? nMinTime) f.
End VoteFile.

(** ** Objects *)

Record vote_instance_t : Type := { eOutcome : Z; inst_nTime : Z; nCreationTime : Z }.
Definition vote_instance_new : vote_instance_t := {| eOutcome := VOTE_OUTCOME_NONE; inst_nTime := 0; nCreationTime := 0 |}.
(** [vote_rec_t]: the instances by signal *)
Abbreviation vote_rec_t := (gmap Z vote_instance_t).
Definition vote_time_pair_t : Type := CGovernanceVote * Z.
Definition vote_time_lt (p1 p2 : vote_time_pair_t) : bool := CGovernanceVote.lt p1.1 p2.1.

(** What the hash of an object covers, and its type. *)
Record GovernanceData : Type := {
  nObjectType : Z;
  nHashParent : list Z;
  nRevision : Z;
  obj_nTime : Z;
  vchData : list Z;
  obj_masternodeOutpoint : COutPoint;
  obj_vchSig : list Z;
}.
Record CGovernanceObject : Type := {
  data : GovernanceData;
  nDeletionTime : Z;
  fCachedFunding : bool;
  fCachedValid : bool;
  fCachedDelete : bool;
  fCachedEndorsed : bool;
  fDirtyCache : bool;
  mapCurrentMNVotes : gmap COutPoint vote_rec_t;
  cmmapOrphanVotes : CacheMultiMap COutPoint vote_time_pair_t;
  fileVotes : VoteFile.t;
}.
Definition CGovernanceObject_new (d : GovernanceData) : CGovernanceObject :=
  {| data := d; nDeletionTime := 0; fCachedFunding := false; fCachedValid := true; fCachedDelete := false; fCachedEndorsed := false;
     fDirtyCache := true; mapCurrentMNVotes := ∅; cmmapOrphanVotes := empty 0; fileVotes := VoteFile.new |}.
Definition Object_GetHash (d : GovernanceData) : list Z :=
  CHashWriter_GetHash [nHashParent d; ser_writedata32 (u32 (nRevision d)); ser_writedata64 (u64 (obj_nTime d)); blob_Serialize (HexStr (vchData d));
    COutPoint_Serialize (obj_masternodeOutpoint d); ser_writedata8 0; ser_writedata32 0xffffffff; blob_Serialize (obj_vchSig d)].

Definition with_votes (o : CGovernanceObject) (votes : gmap COutPoint vote_rec_t) (file : VoteFile.t) (dirty : bool) : CGovernanceObject :=
  {| data := data o; nDeletionTime := nDeletionTime o; fCachedFunding := fCachedFunding o; fCachedValid := fCachedValid o; fCachedDelete := fCachedDelete o;
     fCachedEndorsed := fCachedEndorsed o; fDirtyCache := dirty; mapCurrentMNVotes := votes; cmmapOrphanVotes := cmmapOrphanVotes o; fileVotes := file |}.
Definition with_orphans (o : CGovernanceObject) (orphans : CacheMultiMap COutPoint vote_time_pair_t) : CGovernanceObject :=
  {| data := data o; nDeletionTime := nDeletionTime o; fCachedFunding := fCachedFunding o; fCachedValid := fCachedValid o; fCachedDelete := fCachedDelete o;
     fCachedEndorsed := fCachedEndorsed o; fDirtyCache := fDirtyCache o; mapCurrentMNVotes := mapCurrentMNVotes o; cmmapOrphanVotes := orphans; fileVotes := fileVotes o |}.

(** The node around an object: its masternodes, its clock and its settings. *)
Record masternode_info_t : Type := { keyIDVoting : CKeyID; blsPubKeyOperator : CBLSPublicKey; legacyKeyIDOperator : CKeyID }.
Record GovernanceNode : Type := {
  mnodeman_Has : COutPoint -> bool;
  GetMasternodeInfo : COutPoint -> option masternode_info_t;   (** [CMasternodeMan::Find] *)
  GetAdjustedTime : Z;
  AreRateChecksEnabled : bool;
  SPORK_6_NEW_SIGS : bool;
  IsDeterministicMNsSporkActive : bool;
  CountEnabled : Z;
  nGovernanceMinQuorum : Z;
}.
(** Calls of other managers. *)
Inductive call : Type :=
| call_AskForMN (o : COutPoint) | call_AddInvalidVote (v : CGovernanceVote) | call_AddGovernanceVote (o : COutPoint) (hash : list Z) | call_Relay (v : CGovernanceVote).
Inductive outcome : Type :=
| Accepted | EXCEPTION_NONE | EXCEPTION_WARNING | EXCEPTION_PERMANENT_ERROR (nNodePenalty : Z) | EXCEPTION_TEMPORARY_ERROR.

Section Governance.
Context `{BLSCurve} (RecoverCompact : list Z -> list Z -> option (list Z)) (node : GovernanceNode).

(** [std::to_string] of a signed number, and [COutPoint::ToStringShort] *)
Definition to_string (n : Z) : list Z := if n <? 0 then 45 :: decimal (- n) else decimal n.
Definition ToStringShort (o : COutPoint) : list Z := take 64 (uint256_ToString (op_hash o)) ++ [45] ++ decimal (op_n o).
Definition old_message (v : CGovernanceVote) : list Z :=
  ToStringShort (CGovernanceVote.masternodeOutpoint v) ++ [124] ++ uint256_ToString (CGovernanceVote.nParentHash v) ++ [124] ++
  to_string (CGovernanceVote.nVoteSignal v) ++ [124] ++ to_string (CGovernanceVote.nVoteOutcome v) ++ [124] ++ to_string (CGovernanceVote.nTime v).
Definition CheckSignature (v : CGovernanceVote) (keyID : CKeyID) : bool :=
  if SPORK_6_NEW_SIGS node then
    VerifyHash RecoverCompact (CGovernanceVote.GetSignatureHash v) keyID (CGovernanceVote.vchSig v) ||
    VerifyMessage RecoverCompact keyID (CGovernanceVote.vchSig v) (old_message v)
  else VerifyMessage RecoverCompact keyID (CGovernanceVote.vchSig v) (old_message v).
(** [CBLSWrapper::SetBuf] *)
Definition sig_SetBuf (buf : list Z) : CBLSSignature :=
  {| bls_sig := if (length buf =? SerSize_sig)%nat && negb (forallb (fun b => b =? 0) buf) && signature_ok buf then Some buf else None |}.
Definition CheckSignature_BLS (v : CGovernanceVote) (pubKey : CBLSPublicKey) : bool :=
  VerifyInsecure (sig_SetBuf (CGovernanceVote.vchSig v)) pubKey (CGovernanceVote.GetSignatureHash v).
Definition IsValid (v : CGovernanceVote) (useVotingKey : bool) : bool :=
  if GetAdjustedTime node + 60 * 60 <? CGovernanceVote.nTime v then false
  else if MAX_SUPPORTED_VOTE_SIGNAL <? CGovernanceVote.nVoteSignal v then false
  else if 3 <? CGovernanceVote.nVoteOutcome v then false
  else
    match GetMasternodeInfo node (CGovernanceVote.masternodeOutpoint v) with
    | None => false
    | Some infoMn =>
        if useVotingKey then CheckSignature v (keyIDVoting infoMn)
        else if IsDeterministicMNsSporkActive node then CheckSignature_BLS v (blsPubKeyOperator infoMn)
        else CheckSignature v (legacyKeyIDOperator infoMn)
    end.

(** *** A vote *)

Definition record_of (o : CGovernanceObject) (mn : COutPoint) : vote_rec_t := default ∅ (mapCurrentMNVotes o !! mn).
Definition instance_of (r : vote_rec_t) (eSignal : Z) : vote_instance_t := default vote_instance_new (r !! eSignal).
(** [emplace] leaves what is there, and an empty record or instance behind. *)
Definition with_record (o : CGovernanceObject) (mn : COutPoint) (r : vote_rec_t) : CGovernanceObject :=
  with_votes o (<[mn := r]> (mapCurrentMNVotes o)) (fileVotes o) (fDirtyCache o).

(** [None]: the orphan cache used a freed reference. *)
Definition ProcessVote (pfrom : bool) (o : CGovernanceObject) (vote : CGovernanceVote) : option (CGovernanceObject * list call * outcome) :=
  let mn := CGovernanceVote.masternodeOutpoint vote in
  if VoteFile.HasVote (fileVotes o) (CGovernanceVote.GetHash vote) then Some (o, [], EXCEPTION_NONE)
  else if negb (mnodeman_Has node mn) then
    r ← Insert vote_time_lt (cmmapOrphanVotes o) mn (vote, GetAdjustedTime node + GOVERNANCE_ORPHAN_EXPIRATION_TIME);
    let '(orphans, inserted) := r in
    Some (with_orphans o orphans, if inserted && pfrom then [call_AskForMN mn] else [], EXCEPTION_WARNING)
  else
    let voteRecordRef := record_of o mn in
    let eSignal := CGovernanceVote.GetSignal vote in
    if eSignal =? VOTE_SIGNAL_NONE then Some (with_record o mn voteRecordRef, [], EXCEPTION_WARNING)
    else if MAX_SUPPORTED_VOTE_SIGNAL <? eSignal then Some (with_record o mn voteRecordRef, [], EXCEPTION_PERMANENT_ERROR 20)
    else
      let voteInstanceRef := instance_of voteRecordRef eSignal in
      let o := with_record o mn (<[eSignal := voteInstanceRef]> voteRecordRef) in
      if CGovernanceVote.nTime vote <? nCreationTime voteInstanceRef then Some (o, [], EXCEPTION_NONE)
      else if (CGovernanceVote.nTime vote =? nCreationTime voteInstanceRef) && (CGovernanceVote.GetOutcome vote <? eOutcome voteInstanceRef)
      then Some (o, [], EXCEPTION_NONE)
      else
        let nNow := GetAdjustedTime node in
        if AreRateChecksEnabled node && (nNow - inst_nTime voteInstanceRef <? GOVERNANCE_UPDATE_MIN) then Some (o, [], EXCEPTION_TEMPORARY_ERROR)
        else
          let nVoteTimeUpdate := if AreRateChecksEnabled node then nNow else inst_nTime voteInstanceRef in
          let onlyVotingKeyAllowed := (nObjectType (data o) =? GOVERNANCE_OBJECT_PROPOSAL) && (eSignal =? VOTE_SIGNAL_FUNDING) in
          if negb (IsValid vote onlyVotingKeyAllowed) then Some (o, [call_AddInvalidVote vote], EXCEPTION_PERMANENT_ERROR 20)
          else
            match GetMasternodeInfo node mn with
            | None => Some (o, [], EXCEPTION_PERMANENT_ERROR 0)
            | Some _ =>
                let voteInstance := {| eOutcome := CGovernanceVote.GetOutcome vote; inst_nTime := nVoteTimeUpdate; nCreationTime := CGovernanceVote.nTime vote |} in
                Some (with_votes o (<[mn := <[eSignal := voteInstance]> voteRecordRef]> (mapCurrentMNVotes o)) (VoteFile.AddVote (fileVotes o) vote) true,
                      [call_AddGovernanceVote mn (CGovernanceVote.nParentHash vote)], Accepted)
            end.

(** *** Votes removed *)

Definition ClearMasternodeVotes (o : CGovernanceObject) : CGovernanceObject :=
  fold_left (fun o (x : COutPoint * vote_rec_t) =>
    if negb (mnodeman_Has node x.1)
    then with_votes o (delete x.1 (mapCurrentMNVotes o)) (VoteFile.RemoveVotesFromMasternode (fileVotes o) x.1) (fDirtyCache o)
    else o) (map_to_list (mapCurrentMNVotes o)) o.

Definition tmpVote (mnOutpoint : COutPoint) (nParentHash : list Z) (jt : Z * vote_instance_t) : CGovernanceVote :=
  {| CGovernanceVote.nVoteSignal := jt.1; CGovernanceVote.masternodeOutpoint := mnOutpoint; CGovernanceVote.nParentHash := nParentHash;
     CGovernanceVote.nVoteOutcome := i32 (eOutcome jt.2); CGovernanceVote.nTime := nCreationTime jt.2; CGovernanceVote.vchSig := [] |}.
Definition RemoveInvalidProposalVotes (o : CGovernanceObject) (mnOutpoint : COutPoint) : CGovernanceObject * list (list Z) :=
  if negb (nObjectType (data o) =? GOVERNANCE_OBJECT_PROPOSAL) then (o, [])
  else
    match mapCurrentMNVotes o !! mnOutpoint with
    | None => (o, [])
    | Some mapInstances =>
        let '(file, removedVotes) := VoteFile.RemoveInvalidProposalVotes IsValid (fileVotes o) mnOutpoint in
        if bool_decide (removedVotes = []) then (with_votes o (mapCurrentMNVotes o) file (fDirtyCache o), [])
        else
          let nParentHash := Object_GetHash (data o) in
          let mapInstances := filter (fun jt => CGovernanceVote.GetHash (tmpVote mnOutpoint nParentHash jt) ∉ removedVotes) mapInstances in
          let votes := if bool_decide (mapInstances = ∅) then delete mnOutpoint (mapCurrentMNVotes o) else <[mnOutpoint := mapInstances]> (mapCurrentMNVotes o) in
          (with_votes o votes file true, removedVotes)
    end.

Definition RemoveOldVotes (o : CGovernanceObject) (nMinTime : Z) : CGovernanceObject * list (list Z) :=
  let '(file, removed) := VoteFile.RemoveOldVotes (fileVotes o) nMinTime in
  let votes := omap (fun miRef : vote_rec_t =>
    let miRef := filter (fun x : Z * vote_instance_t => ¬ nCreationTime x.2 < nMinTime) miRef in
    if bool_decide (miRef = ∅) then None else Some miRef) (mapCurrentMNVotes o) in
  (with_votes o votes file (if bool_decide (removed = []) then fDirtyCache o else true), removed).

(** *** Counts *)

Definition CountMatchingVotes (o : CGovernanceObject) (eVoteSignalIn eVoteOutcomeIn : Z) : Z :=
  Z.of_nat (length (List.filter (fun votepair : COutPoint * vote_rec_t =>
    match votepair.2 !! eVoteSignalIn with Some it2 => eOutcome it2 =? eVoteOutcomeIn | None => false end) (map_to_list (mapCurrentMNVotes o)))).
Definition GetYesCount (o : CGovernanceObject) (s : Z) : Z := CountMatchingVotes o s VOTE_OUTCOME_YES.
Definition GetNoCount (o : CGovernanceObject) (s : Z) : Z := CountMatchingVotes o s VOTE_OUTCOME_NO.
Definition GetAbstainCount (o : CGovernanceObject) (s : Z) : Z := CountMatchingVotes o s VOTE_OUTCOME_ABSTAIN.
Definition GetAbsoluteYesCount (o : CGovernanceObject) (s : Z) : Z := GetYesCount o s - GetNoCount o s.
Definition GetAbsoluteNoCount (o : CGovernanceObject) (s : Z) : Z := GetNoCount o s - GetYesCount o s.

Definition UpdateSentinelVariables (o : CGovernanceObject) : CGovernanceObject :=
  let nMnCount := CountEnabled node in
  if nMnCount =? 0 then o
  else
    let nAbsVoteReq := Z.max (nGovernanceMinQuorum node) (Z.quot nMnCount 10) in
    let nAbsDeleteReq := Z.max (nGovernanceMinQuorum node) (Z.quot (2 * nMnCount) 3) in
    let deletes := (nAbsDeleteReq <=? GetAbsoluteYesCount o VOTE_SIGNAL_DELETE) && negb (fCachedDelete o) in
    {| data := data o; nDeletionTime := if deletes && (nDeletionTime o =? 0) then GetAdjustedTime node else nDeletionTime o;
       fCachedFunding := nAbsVoteReq <=? GetAbsoluteYesCount o VOTE_SIGNAL_FUNDING;
       fCachedValid := negb (nAbsVoteReq <=? GetAbsoluteNoCount o VOTE_SIGNAL_VALID);
       fCachedDelete := if deletes then true else fCachedDelete o;
       fCachedEndorsed := nAbsVoteReq <=? GetAbsoluteYesCount o VOTE_SIGNAL_ENDORSED;
       fDirtyCache := false; mapCurrentMNVotes := mapCurrentMNVotes o; cmmapOrphanVotes := cmmapOrphanVotes o; fileVotes := fileVotes o |}.

(** *** Orphans: the items of the cache as it was, from the newest on *)

Definition check_orphan (x : CGovernanceObject * list call) (item : COutPoint * vote_time_pair_t) : option (CGovernanceObject * list call) :=
  let '(o, calls) := x in
  let '(key, pairVote) := item in
  let expired := pairVote.2 <? GetAdjustedTime node in
  if negb expired && negb (mnodeman_Has node (CGovernanceVote.masternodeOutpoint pairVote.1)) then Some (o, calls)
  else
    r ← ProcessVote false o pairVote.1;
    let '(o, more, result) := r in
    let accepted := match result with Accepted => true | _ => false end in
    let calls := calls ++ more ++ (if accepted then [call_Relay pairVote.1] else []) in
    Some (if expired || accepted then with_orphans o (Erase_value vote_time_lt (cmmapOrphanVotes o) key pairVote) else o, calls).
Definition CheckOrphanVotes (o : CGovernanceObject) : option (CGovernanceObject * list call) :=
  fold_left (fun x item => x ← x; check_orphan x item) (items (cmmapOrphanVotes o)) (Some (o, [])).
End Governance.

(** ** [operator<] of votes *)

Lemma memcmp_same a : memcmp a a = 0.
Proof. induction a as [|x a IH]; [done|]. cbn. by rewrite Z.ltb_irrefl. Qed.
Lemma COutPoint_lt_irrefl o : COutPoint_lt o o = false.
Proof. unfold COutPoint_lt. rewrite memcmp_same. cbn. apply Z.ltb_irrefl. Qed.
(** An outpoint that is smaller is not equal. *)
Lemma vote_lt_never v w : CGovernanceVote.lt v w = false.
Proof.
  unfold CGovernanceVote.lt. destruct (COutPoint_lt _ _) eqn:E; [|done]. rewrite bool_decide_false; [done|]. intros Ho. rewrite Ho, COutPoint_lt_irrefl in E. done.
Qed.
Lemma vote_time_lt_never p q : vote_time_lt p q = false.
Proof. apply vote_lt_never. Qed.
Lemma vote_equivalent p q : equivalent vote_time_lt p q = true.
Proof. unfold equivalent. by rewrite !vote_time_lt_never. Qed.

(** ** The file *)

#[local] Opaque CGovernanceVote.GetHash Object_GetHash.

Lemma nodup_map_eq {A B} (f : A -> B) (l : list A) x y : NoDup (f <$> l) -> x ∈ l -> y ∈ l -> f x = f y -> x = y.
Proof.
  induction l as [|z l IH]; [by intros _ ?%elem_of_nil|]. rewrite fmap_cons, !elem_of_cons. intros [Hz Hl]%NoDup_cons [->|Hx] [->|Hy] E.
  - done.
  - destruct Hz. rewrite E. by apply list_elem_of_fmap_2.
  - destruct Hz. rewrite <- E. by apply list_elem_of_fmap_2.
  - by apply IH.
Qed.

Module VoteFileProps.
Import VoteFile.
Record wf (f : t) : Prop := {
  wf_nodes : NoDup (listVotes f).*1;
  wf_fresh : Forall (fun n => (n < fresh_node f)%nat) (listVotes f).*1;
  wf_hashes : NoDup (CGovernanceVote.GetHash <$> GetVotes f);
  wf_index : forall h n, mapVoteIndex f !! h = Some n <-> exists v, (n, v) ∈ listVotes f /\ CGovernanceVote.GetHash v = h;
  wf_count : nMemoryVotes f = Z.of_nat (length (listVotes f));
}.
Lemma new_wf : wf new.
Proof.
  split; [constructor|constructor|constructor| |done]. intros h n. cbn. rewrite lookup_empty. split; [done|]. by intros (v & Hin%elem_of_nil & _).
Qed.
Lemma HasVote_spec f h : wf f -> HasVote f h = true <-> exists v, v ∈ GetVotes f /\ CGovernanceVote.GetHash v = h.
Proof.
  intros [_ _ _ Hi _]. unfold HasVote, GetVotes. split.
  - destruct (mapVoteIndex f !! h) as [n|] eqn:E; [|done]. intros _. apply Hi in E as (v & Hin & Hh). exists v. split; [|done].
    apply list_elem_of_fmap. by exists (n, v).
  - intros (v & ([n w] & E & Hin)%list_elem_of_fmap & Hh). cbn in E. subst w. by rewrite (proj2 (Hi h n) (ex_intro _ v (conj Hin Hh))).
Qed.
Lemma AddVote_wf f v : wf f -> wf (AddVote f v) /\ (forall w, w ∈ GetVotes (AddVote f v) <-> w ∈ GetVotes f \/ (w = v /\ HasVote f (CGovernanceVote.GetHash v) = false)).
Proof.
  intros Hwf. pose proof (HasVote_spec f (CGovernanceVote.GetHash v) Hwf) as Hh. unfold AddVote. destruct (HasVote f _) eqn:E; [split; [done|]; intros w; split; [by left|by intros [|[_ ?]]]|].
  pose proof Hwf as [Hn Hf Hd Hi Hc]. rewrite Forall_forall in Hf. unfold HasVote in E. destruct (mapVoteIndex f !! CGovernanceVote.GetHash v) eqn:Ei; [done|].
  split; [split; cbn|].
  - apply NoDup_cons. split; [|done]. intros Hin%Hf. lia.
  - rewrite Forall_cons, Forall_forall. split; [lia|]. intros n Hin%Hf. lia.
  - apply NoDup_cons. split; [|done]. intros (w & E' & Hin)%list_elem_of_fmap. assert (false = true); [|done]. apply Hh. exists w. split; [exact Hin|exact (eq_sym E')].
  - intros h n. destruct (decide (h = CGovernanceVote.GetHash v)) as [->|Hne].
    + rewrite lookup_insert_eq. split; [intros [= <-]; exists v; apply conj; [left|reflexivity]|]. intros (w & [[= -> ->]|Hin]%elem_of_cons & E'); [done|].
      rewrite (proj2 (Hi _ n) (ex_intro _ w (conj Hin E'))) in Ei. discriminate Ei.
    + rewrite lookup_insert_ne, Hi by done. split; intros (w & Hin & E'); exists w; (apply conj; [|exact E']); [by right|]. apply elem_of_cons in Hin as [[= -> ->]|Hin]; [|exact Hin]. by destruct (Hne (eq_sym E')).
  - rewrite Hc. lia.
  - intros w. unfold GetVotes. cbn. rewrite elem_of_cons. tauto.
Qed.
Definition erase_vote (it : nat) (v : CGovernanceVote) (f : t) : t :=
  {| nMemoryVotes := nMemoryVotes f - 1; listVotes := erase_node it (listVotes f); mapVoteIndex := delete (CGovernanceVote.GetHash v) (mapVoteIndex f); fresh_node := fresh_node f |}.
Lemma erase_vote_wf it v f : wf f -> (it, v) ∈ listVotes f -> wf (erase_vote it v f) /\
  GetVotes (erase_vote it v f) = filter (fun x => CGovernanceVote.GetHash x ≠ CGovernanceVote.GetHash v) (GetVotes f).
Proof.
  intros [Hn Hf Hd Hi Hc] Hin. assert (GetVotes (erase_vote it v f) = filter (fun x => CGovernanceVote.GetHash x ≠ CGovernanceVote.GetHash v) (GetVotes f)) as Ev.
  { unfold GetVotes. cbn. by apply (erase_item CGovernanceVote.GetHash). }
  split; [|done]. split.
  - by apply erase_nodup.
  - eapply sublist_Forall; [apply sublist_fmap, sublist_filter|exact Hf].
  - rewrite Ev. eapply sublist_NoDup; [exact Hd|]. apply sublist_fmap, sublist_filter.
  - intros h n. cbn. destruct (decide (CGovernanceVote.GetHash v = h)) as [<-|Hne].
    + rewrite lookup_delete_eq. split; [done|]. intros (w & [Hne Hw]%erase_node_in & E). cbn in Hne. destruct Hne.
      pose proof (proj2 (Hi _ n) (ex_intro _ w (conj Hw E))) as E1. rewrite (proj2 (Hi _ it) (ex_intro _ v (conj Hin eq_refl))) in E1. by injection E1.
    + rewrite lookup_delete_ne, Hi by done. split; intros (w & Hw & E); exists w; (split; [|done]); [|by apply erase_node_in in Hw as [_ Hw]].
      apply erase_node_in. split; [|done]. cbn. intros ->. pose proof (deref_in _ _ _ Hn Hw) as E1. rewrite (deref_in _ _ _ Hn Hin) in E1. congruence.
  - cbn. rewrite Hc, (erase_length it v (listVotes f)) by done. lia.
Qed.
(** The loop removes the votes of its list that satisfy the test. *)
Lemma remove_loop_spec p nodes : forall f removed, wf f -> nodes `sublist_of` listVotes f ->
  let r := remove_loop p nodes f removed in
  wf r.1 /\ (forall w, w ∈ GetVotes r.1 <-> w ∈ GetVotes f /\ (w ∈ nodes.*2 -> p w = false)) /\ 
  (forall h, h ∈ r.2 <-> h ∈ removed \/ exists w, w ∈ nodes.*2 /\ p w = true /\ CGovernanceVote.GetHash w = h).
Proof.
  induction nodes as [|[it v] nodes IH]; intros f removed Hwf Hs; cbn [remove_loop].
  { cbn. split_and!; [done|intros w; rewrite elem_of_nil; tauto|]. intros h. split; [by left|]. by intros [|(w & Hin%elem_of_nil & _)]. }
  assert ((it, v) ∈ listVotes f) as Hin by (eapply elem_of_sublist; [left|exact Hs]). assert (v ∈ GetVotes f) as Hv by (apply list_elem_of_fmap; by exists (it, v)).
  pose proof (sublist_NoDup _ _ (wf_nodes _ Hwf) (sublist_fmap fst _ _ Hs)) as Hit. cbn in Hit. apply NoDup_cons in Hit as [Hit _].
  assert (nodes `sublist_of` listVotes f) as Hs' by (etrans; [|exact Hs]; by constructor).
  assert (forall w, w ∈ GetVotes f -> CGovernanceVote.GetHash w = CGovernanceVote.GetHash v -> w = v) as Hone.
  { intros w Hw E. pose proof (wf_hashes _ Hwf) as Hd. by apply (nodup_map_eq CGovernanceVote.GetHash (GetVotes f)). }
  destruct (p v) eqn:Ep.
  - destruct (erase_vote_wf it v f Hwf Hin) as [Hwf' Ev]. fold (erase_vote it v f).
    destruct (IH (erase_vote it v f) (removed ++ [CGovernanceVote.GetHash v]) Hwf' ltac:(by apply erase_sublist)) as (H1 & H2 & H3). split_and!; [done| |].
    + intros w. rewrite H2, Ev, list_elem_of_filter, fmap_cons, elem_of_cons. cbn [snd]. split.
      * intros ((Hne & Hw) & Hp). split; [done|]. intros [->|Hw']; [done|by apply Hp].
      * intros [Hw Hp]. split; [|auto]. split; [|done]. intros E%Hone; [|done]. subst w. rewrite Hp in Ep by (by left). done.
    + intros h. rewrite H3, elem_of_app, list_elem_of_singleton, fmap_cons. cbn [snd]. split.
      * intros [[Hr|E]|(w & Hw & Hp & E)]; [by left|right; exists v; split_and!; [left|exact Ep|exact (eq_sym E)]|right; exists w; split_and!; [by right|exact Hp|exact E]].
      * intros [|(w & [->|Hw]%elem_of_cons & Hp & E)]; [by left; left|left; right; exact (eq_sym E)|right; exists w; split_and!; [exact Hw|exact Hp|exact E]].
  - destruct (IH f removed Hwf Hs') as (H1 & H2 & H3). split_and!; [done| |].
    + intros w. rewrite H2, fmap_cons, elem_of_cons. cbn [snd]. split; [intros [Hw Hp]; split; [done|]; intros [->|]; auto|intros [Hw Hp]; auto].
    + intros h. rewrite H3, fmap_cons. cbn [snd]. split; (intros [|(w & Hw & Hp & E)]; [by left|right; exists w]).
      * split; [by right|done].
      * apply elem_of_cons in Hw as [->|Hw]; [congruence|done].
Qed.
Lemma remove_votes_spec p f : wf f -> let r := remove_votes p f in
  wf r.1 /\ (forall w, w ∈ GetVotes r.1 <-> w ∈ GetVotes f /\ p w = false) /\
  (forall h, h ∈ r.2 <-> exists w, w ∈ GetVotes f /\ p w = true /\ CGovernanceVote.GetHash w = h).
Proof.
  intros Hwf. destruct (remove_loop_spec p (listVotes f) f [] Hwf ltac:(done)) as (H1 & H2 & H3). unfold remove_votes. cbv zeta. split_and!; [done| |].
  - intros w. rewrite H2. change (listVotes f).*2 with (GetVotes f). tauto.
  - intros h. rewrite H3, elem_of_nil. change (listVotes f).*2 with (GetVotes f). split; [by intros [|]|by right].
Qed.
End VoteFileProps.

(** ** The order of arrival *)

(** What a vote does to the current votes, without the reasons to refuse it. *)
Definition better (v : CGovernanceVote) (i : vote_instance_t) : bool :=
  negb (CGovernanceVote.nTime v <? nCreationTime i) && negb ((CGovernanceVote.nTime v =? nCreationTime i) && (CGovernanceVote.GetOutcome v <? eOutcome i)).
Definition upd (v : CGovernanceVote) (i : vote_instance_t) : vote_instance_t :=
  if better v i then {| eOutcome := CGovernanceVote.GetOutcome v; inst_nTime := inst_nTime i; nCreationTime := CGovernanceVote.nTime v |} else i.
Definition supported (s : Z) : bool := negb (s =? VOTE_SIGNAL_NONE) && negb (MAX_SUPPORTED_VOTE_SIGNAL <? s).
Definition apply_rec (v : CGovernanceVote) (r : vote_rec_t) : vote_rec_t :=
  let s := CGovernanceVote.GetSignal v in if supported s then <[s := upd v (instance_of r s)]> r else r.
Definition apply_vote (v : CGovernanceVote) (M : gmap COutPoint vote_rec_t) : gmap COutPoint vote_rec_t :=
  let mn := CGovernanceVote.masternodeOutpoint v in <[mn := apply_rec v (default ∅ (M !! mn))]> M.
Definition vote_eq (v w : CGovernanceVote) : Prop :=
  CGovernanceVote.masternodeOutpoint v = CGovernanceVote.masternodeOutpoint w /\ CGovernanceVote.GetSignal v = CGovernanceVote.GetSignal w /\
  CGovernanceVote.GetOutcome v = CGovernanceVote.GetOutcome w /\ CGovernanceVote.nTime v = CGovernanceVote.nTime w.

Lemma upd_comm v w i : upd v (upd w i) = upd w (upd v i).
Proof.
  unfold upd, better. destruct i as [e n t]. cbn [eOutcome inst_nTime nCreationTime].
  generalize (CGovernanceVote.nTime v) (CGovernanceVote.nTime w) (CGovernanceVote.GetOutcome v) (CGovernanceVote.GetOutcome w). intros tv tw ov ow.
  destruct (Z.ltb_spec tw t), (Z.eqb_spec tw t), (Z.ltb_spec ow e), (Z.ltb_spec tv t), (Z.eqb_spec tv t), (Z.ltb_spec ov e); cbn [negb andb eOutcome inst_nTime nCreationTime]; try lia;
  destruct (Z.ltb_spec tv tw), (Z.eqb_spec tv tw), (Z.ltb_spec ov ow), (Z.ltb_spec tw tv), (Z.eqb_spec tw tv), (Z.ltb_spec ow ov); cbn [negb andb eOutcome inst_nTime nCreationTime];
  repeat match goal with |- context [?a <? ?b] => destruct (Z.ltb_spec a b) | |- context [?a =? ?b] => destruct (Z.eqb_spec a b) end; cbn [negb andb]; try lia; try reflexivity; f_equal; lia.
Qed.
Lemma apply_rec_comm v w r : apply_rec v (apply_rec w r) = apply_rec w (apply_rec v r).
Proof.
  unfold apply_rec, instance_of. generalize (CGovernanceVote.GetSignal v) (CGovernanceVote.GetSignal w). intros s s'.
  destruct (supported s), (supported s'); try reflexivity. destruct (decide (s = s')) as [->|Hne].
  - rewrite !lookup_insert_eq, !insert_insert_eq. cbn [default from_option]. unfold id. by rewrite upd_comm.
  - rewrite !lookup_insert_ne by congruence. by apply insert_insert_ne.
Qed.
Lemma apply_vote_comm v w M : apply_vote v (apply_vote w M) = apply_vote w (apply_vote v M).
Proof.
  unfold apply_vote. generalize (CGovernanceVote.masternodeOutpoint v) (CGovernanceVote.masternodeOutpoint w). intros m m'.
  destruct (decide (m = m')) as [->|Hne].
  - rewrite !lookup_insert_eq, !insert_insert_eq. cbn [default from_option]. unfold id. by rewrite apply_rec_comm.
  - rewrite !lookup_insert_ne by congruence. by apply insert_insert_ne.
Qed.
Lemma upd_idem v i : upd v (upd v i) = upd v i.
Proof.
  unfold upd. destruct (better v i) eqn:E; [|by rewrite E]. unfold better. cbn [eOutcome inst_nTime nCreationTime]. rewrite !Z.ltb_irrefl, andb_false_r. done.
Qed.
Lemma apply_vote_idem v M : apply_vote v (apply_vote v M) = apply_vote v M.
Proof.
  unfold apply_vote. rewrite lookup_insert_eq, insert_insert_eq. cbn [default from_option]. unfold id. f_equal. unfold apply_rec, instance_of.
  generalize (CGovernanceVote.GetSignal v). intros s. destruct (supported s); [|done]. rewrite lookup_insert_eq, insert_insert_eq. cbn [default from_option]. unfold id. by rewrite upd_idem.
Qed.
Lemma apply_vote_eq v w M : vote_eq v w -> apply_vote v M = apply_vote w M.
Proof. intros (Em & Es & Eo & Et). unfold apply_vote, apply_rec, upd, better. by rewrite Em, Es, Eo, Et. Qed.

Section Order.
Context `{BLSCurve} (RecoverCompact : list Z -> list Z -> option (list Z)) (node : GovernanceNode).

(** A vote that the node can accept: its masternode is known, and its signature is good. *)
Definition acceptable (d : GovernanceData) (v : CGovernanceVote) : Prop :=
  mnodeman_Has node (CGovernanceVote.masternodeOutpoint v) = true /\
  IsValid RecoverCompact node v ((nObjectType d =? GOVERNANCE_OBJECT_PROPOSAL) && (CGovernanceVote.GetSignal v =? VOTE_SIGNAL_FUNDING)) = true.
Lemma valid_info v b : IsValid RecoverCompact node v b = true -> GetMasternodeInfo node (CGovernanceVote.masternodeOutpoint v) ≠ None.
Proof. unfold IsValid. destruct (_ <? _); [done|]. destruct (_ <? _); [done|]. destruct (_ <? _); [done|]. by destruct (GetMasternodeInfo _ _). Qed.

Lemma ProcessVote_apply b o v : AreRateChecksEnabled node = false -> acceptable (data o) v ->
  VoteFile.HasVote (fileVotes o) (CGovernanceVote.GetHash v) = false ->
  exists o' calls out, ProcessVote RecoverCompact node b o v = Some (o', calls, out) /\ data o' = data o /\
    mapCurrentMNVotes o' = apply_vote v (mapCurrentMNVotes o) /\ (fileVotes o' = fileVotes o \/ fileVotes o' = VoteFile.AddVote (fileVotes o) v).
Proof.
  intros Hrate [Hhas Hvalid] Hnew. unfold ProcessVote, apply_vote, apply_rec, upd, better, supported, record_of. rewrite Hnew, Hhas, Hrate. cbn [negb andb].
  set (mn := CGovernanceVote.masternodeOutpoint v) in *. set (r := default ∅ (mapCurrentMNVotes o !! mn)). set (s := CGovernanceVote.GetSignal v) in *.
  destruct (s =? VOTE_SIGNAL_NONE); cbn [negb andb]; [do 3 eexists; split; [reflexivity|]; cbn; auto|].
  destruct (MAX_SUPPORTED_VOTE_SIGNAL <? s); cbn [negb andb]; [do 3 eexists; split; [reflexivity|]; cbn; auto|].
  destruct (CGovernanceVote.nTime v <? _); cbn [negb andb]; [do 3 eexists; split; [reflexivity|]; cbn; auto|].
  destruct ((CGovernanceVote.nTime v =? _) && _); cbn [negb andb]; [do 3 eexists; split; [reflexivity|]; cbn; auto|].
  change (data (with_record o mn (<[s:=instance_of r s]> r))) with (data o). rewrite Hvalid. cbn [negb].
  destruct (GetMasternodeInfo node mn) as [info|] eqn:Ei; [|by destruct (valid_info v _ Hvalid)].
  do 3 eexists. split; [reflexivity|]. cbn. rewrite insert_insert_eq. auto.
Qed.

Definition process (b : bool) (o : option CGovernanceObject) (v : CGovernanceVote) : option CGovernanceObject :=
  o ← o; r ← ProcessVote RecoverCompact node b o v; Some r.1.1.
(** No two of the votes are different with one hash. *)
Definition no_collisions (vs : list CGovernanceVote) : Prop :=
  forall v w, v ∈ vs -> w ∈ vs -> CGovernanceVote.GetHash v = CGovernanceVote.GetHash w -> vote_eq v w.
Lemma process_all b vs : AreRateChecksEnabled node = false -> forall o (all : list CGovernanceVote), no_collisions all -> (forall v, v ∈ vs -> v ∈ all /\ acceptable (data o) v) ->
  VoteFileProps.wf (fileVotes o) -> (forall w, w ∈ VoteFile.GetVotes (fileVotes o) -> w ∈ all /\ apply_vote w (mapCurrentMNVotes o) = mapCurrentMNVotes o) ->
  exists o', fold_left (process b) vs (Some o) = Some o' /\ mapCurrentMNVotes o' = fold_left (fun M v => apply_vote v M) vs (mapCurrentMNVotes o).
Proof.
  intros Hrate. induction vs as [|v vs IH]; intros o all Hcol Hvs Hwf Hseen; cbn [fold_left]; [by exists o|].
  destruct (Hvs v ltac:(left)) as [Hall Hacc]. destruct (VoteFile.HasVote (fileVotes o) (CGovernanceVote.GetHash v)) eqn:Ehas.
  - assert (process b (Some o) v = Some o) as -> by (unfold process, ProcessVote; cbn [mbind option_bind]; by rewrite Ehas).
    pose proof (proj1 (VoteFileProps.HasVote_spec _ _ Hwf) Ehas) as (w & Hw & Eh). destruct (Hseen w Hw) as [Hw' Ew].
    rewrite (apply_vote_eq v w), Ew by (apply Hcol; [exact Hall|exact Hw'|exact (eq_sym Eh)]). apply (IH o all); [exact Hcol| |exact Hwf|exact Hseen]. intros x Hx. apply Hvs. by right.
  - destruct (ProcessVote_apply b o v Hrate Hacc Ehas) as (o' & calls & out & Ep & Ed & Em & Ef).
    assert (process b (Some o) v = Some o') as -> by (unfold process; cbn [mbind option_bind]; by rewrite Ep).
    rewrite <- Em. apply (IH o' all); [done| | |].
    + intros w Hw. rewrite Ed. apply Hvs. by right.
    + destruct Ef as [-> | ->]; [done|by apply VoteFileProps.AddVote_wf].
    + intros w Hw. assert (w ∈ VoteFile.GetVotes (fileVotes o) \/ w = v) as [Hw'| ->].
      { destruct Ef as [E|E]; rewrite E in Hw; [by left|]. apply VoteFileProps.AddVote_wf in Hw as [|[]]; auto. }
      * destruct (Hseen w Hw') as [Hw'' Ew]. split; [done|]. by rewrite Em, apply_vote_comm, Ew.
      * split; [done|]. by rewrite Em, apply_vote_idem.
Qed.
Lemma fold_perm vs vs' M : vs ≡ₚ vs' -> fold_left (fun M v => apply_vote v M) vs M = fold_left (fun M v => apply_vote v M) vs' M.
Proof.
  intros Hp. revert M. induction Hp as [|v vs vs' Hp IH|v w vs|vs vs' vs'' H1 IH1 H2 IH2]; intros M; cbn [fold_left]; [done|apply IH|by rewrite apply_vote_comm|].
  by rewrite IH1.
Qed.
End Order.

(** The order in which votes arrive does not matter.  If a node accepts each of some
    votes on its own (their masternodes are known and they are signed), does not limit
    their rate, and no two of them collide, then whatever the order it processes them in,
    it ends with the same current vote of every masternode for every signal, and so with
    the same counts. *)
Theorem vote_order `{BLSCurve} RecoverCompact node b d vs vs' :
  AreRateChecksEnabled node = false -> (forall v, v ∈ vs -> acceptable RecoverCompact node d v) -> no_collisions vs -> vs ≡ₚ vs' ->
  exists o o', fold_left (process RecoverCompact node b) vs (Some (CGovernanceObject_new d)) = Some o /\
    fold_left (process RecoverCompact node b) vs' (Some (CGovernanceObject_new d)) = Some o' /\
    mapCurrentMNVotes o = mapCurrentMNVotes o' /\ forall s, GetAbsoluteYesCount o s = GetAbsoluteYesCount o' s.
Proof.
  intros Hrate Hacc Hcol Hp.
  destruct (process_all RecoverCompact node b vs Hrate (CGovernanceObject_new d) vs Hcol ltac:(auto) VoteFileProps.new_wf ltac:(by intros w ?%elem_of_nil)) as (o & E & Em).
  destruct (process_all RecoverCompact node b vs' Hrate (CGovernanceObject_new d) vs Hcol) as (o' & E' & Em').
  { intros v Hv. assert (v ∈ vs) by (by rewrite Hp). auto. }
  { apply VoteFileProps.new_wf. }
  { by intros w ?%elem_of_nil. }
  rewrite (fold_perm vs vs' _ Hp), <- Em' in Em. exists o, o'. split_and!; [exact E|exact E'|exact Em|]. intros s.
  unfold GetAbsoluteYesCount, GetYesCount, GetNoCount, CountMatchingVotes. by rewrite Em.
Qed.

Definition no_curve : BLSCurve :=
  {| public_key_ok := fun _ => true; signature_ok := fun _ => true; curve_Verify := fun _ _ _ => true; curve_VerifySecure := fun _ _ _ => true |}.
Definition sample_outpoint (n : Z) : COutPoint := {| op_hash := replicate 32 7; op_n := n |}.
Definition sample_data : GovernanceData :=
  {| nObjectType := GOVERNANCE_OBJECT_TRIGGER; nHashParent := replicate 32 0; nRevision := 1; obj_nTime := 1000; vchData := [1; 2];
     obj_masternodeOutpoint := sample_outpoint 0; obj_vchSig := [] |}.
Definition sample_vote (n signal outcome time : Z) : CGovernanceVote :=
  {| CGovernanceVote.nVoteSignal := signal; CGovernanceVote.masternodeOutpoint := sample_outpoint n; CGovernanceVote.nParentHash := replicate 32 9;
     CGovernanceVote.nVoteOutcome := outcome; CGovernanceVote.nTime := time; CGovernanceVote.vchSig := repeat 1 96 |}.
Definition sample_gov_node (has : Z -> bool) : GovernanceNode :=
  {| mnodeman_Has := fun o => has (op_n o);
     GetMasternodeInfo := fun _ => Some {| keyIDVoting := {| keyid := replicate 20 1 |}; blsPubKeyOperator := {| bls_pk := Some [1] |}; legacyKeyIDOperator := {| keyid := replicate 20 1 |} |};
     GetAdjustedTime := 2000; AreRateChecksEnabled := false; SPORK_6_NEW_SIGS := true; IsDeterministicMNsSporkActive := true; CountEnabled := 20; nGovernanceMinQuorum := 1 |}.
Definition sample_votes : list CGovernanceVote := [sample_vote 1 1 1 1500; sample_vote 1 1 2 1600; sample_vote 2 1 1 1500].

#[local] Transparent CGovernanceVote.GetHash.
Lemma tmpVote_hash mn h s i v : CGovernanceVote.masternodeOutpoint v = mn -> CGovernanceVote.GetSignal v = s -> CGovernanceVote.GetOutcome v = eOutcome i ->
  CGovernanceVote.nTime v = nCreationTime i -> CGovernanceVote.nParentHash v = h -> CGovernanceVote.GetHash (tmpVote mn h (s, i)) = CGovernanceVote.GetHash v.
Proof.
  intros <- <- Eo Et <-. unfold CGovernanceVote.GetHash, tmpVote. cbn [CGovernanceVote.nVoteSignal CGovernanceVote.masternodeOutpoint CGovernanceVote.nParentHash
    CGovernanceVote.nVoteOutcome CGovernanceVote.nTime fst snd]. rewrite <- Eo, <- Et. unfold CGovernanceVote.GetSignal, CGovernanceVote.GetOutcome.
  rewrite u32_i32, !(u32_id (u32 _)) by apply u32_range. reflexivity.
Qed.
Lemma sample_no_collisions : no_collisions sample_votes.
Proof.
  assert (NoDup (CGovernanceVote.GetHash <$> sample_votes)) as Hd by (apply (bool_decide_eq_true_1 (NoDup _)); vm_compute; reflexivity).
  intros v w Hv Hw E. assert (v = w) as -> by (by apply (nodup_map_eq CGovernanceVote.GetHash sample_votes)). by repeat split.
Qed.
#[local] Opaque CGovernanceVote.GetHash.
Lemma vote_order_witness : exists o o',
  fold_left (process (H := no_curve) (fun _ _ => None) (sample_gov_node (fun _ => true)) true) sample_votes (Some (CGovernanceObject_new sample_data)) = Some o /\
  fold_left (process (H := no_curve) (fun _ _ => None) (sample_gov_node (fun _ => true)) true) (rev sample_votes) (Some (CGovernanceObject_new sample_data)) = Some o' /\
  mapCurrentMNVotes o = mapCurrentMNVotes o' /\ forall s, GetAbsoluteYesCount o s = GetAbsoluteYesCount o' s.
Proof.
  apply (vote_order (H := no_curve)).
  - reflexivity.
  - intros v Hv. unfold sample_votes in Hv. rewrite !elem_of_cons, elem_of_nil in Hv. destruct Hv as [->|[->|[->|[]]]]; split; vm_compute; reflexivity.
  - exact sample_no_collisions.
  - apply Permutation_rev.
Defined.

(** ** What an object keeps *)

Definition counts_nothing (i : vote_instance_t) : Prop := eOutcome i = VOTE_OUTCOME_NONE /\ nCreationTime i = 0.
(** A vote of the file for an instance. *)
Definition supports (h : list Z) (mn : COutPoint) (s : Z) (i : vote_instance_t) (v : CGovernanceVote) : Prop :=
  CGovernanceVote.masternodeOutpoint v = mn /\ CGovernanceVote.GetSignal v = s /\ CGovernanceVote.GetOutcome v = eOutcome i /\
  CGovernanceVote.nTime v = nCreationTime i /\ CGovernanceVote.nParentHash v = h.
Definition counted (h : list Z) (M : gmap COutPoint vote_rec_t) (votes : list CGovernanceVote) : Prop :=
  forall mn r s i, M !! mn = Some r -> r !! s = Some i -> counts_nothing i \/ exists v, v ∈ votes /\ supports h mn s i v.
Record obj_inv (o : CGovernanceObject) : Prop := {
  inv_file : VoteFileProps.wf (fileVotes o);
  inv_counted : counted (Object_GetHash (data o)) (mapCurrentMNVotes o) (VoteFile.GetVotes (fileVotes o));
  inv_orphans : CacheMultiMap.wf vote_time_lt (fun _ => False) (cmmapOrphanVotes o);
  inv_max : nMaxSize (cmmapOrphanVotes o) = 0%nat;
  inv_orphan : forall k p, (k, p) ∈ items (cmmapOrphanVotes o) ->
    CGovernanceVote.masternodeOutpoint p.1 = k /\ CGovernanceVote.nParentHash p.1 = Object_GetHash (data o);
}.
(** Values are all equivalent, so a key has one. *)
Lemma one_orphan (c : CacheMultiMap COutPoint vote_time_pair_t) : CacheMultiMap.wf vote_time_lt (fun _ => False) c -> NoDup (items c).*1.
Proof.
  intros [Hn _ _ _ Hd]. unfold items. rewrite <- list_fmap_compose. apply NoDup_fmap_2_strong; [|by apply NoDup_fmap_1 in Hn].
  intros [n [k p]] [n' [k' p']] H1 H2 E. cbn in E. subst k'. assert (n = n') as <- by (eapply Hd; [exact H1|exact H2|apply vote_equivalent]).
  pose proof (deref_in _ _ _ Hn H1) as E1. rewrite (deref_in _ _ _ Hn H2) in E1. by injection E1 as ->.
Qed.

Lemma new_inv d : obj_inv (CGovernanceObject_new d).
Proof.
  split.
  - apply VoteFileProps.new_wf.
  - intros mn r s i E. cbn in E. by rewrite lookup_empty in E.
  - apply multi_empty_wf.
  - done.
  - by intros k p Hin%elem_of_nil.
Qed.
(** A change of the votes and the file that leaves the orphans. *)
Lemma with_votes_inv o M f b : obj_inv o -> VoteFileProps.wf f -> counted (Object_GetHash (data o)) M (VoteFile.GetVotes f) -> obj_inv (with_votes o M f b).
Proof. intros [H1 H2 H3 H4 H5] Hf Hc. by split. Qed.
Lemma counted_sub h M M' votes : counted h M votes -> (forall mn r s i, M' !! mn = Some r -> r !! s = Some i -> counts_nothing i \/ exists r', M !! mn = Some r' /\ r' !! s = Some i) ->
  counted h M' votes.
Proof. intros Hc Hm mn r s i E Es. destruct (Hm mn r s i E Es) as [|(r' & E' & Es')]; [by left|]. by apply (Hc mn r'). Qed.
Lemma counted_more h M votes votes' : counted h M votes -> (forall v, v ∈ votes -> v ∈ votes') -> counted h M votes'.
Proof. intros Hc Hv mn r s i E Es. destruct (Hc mn r s i E Es) as [|(v & Hin & Hs)]; [by left|]. right. exists v. auto. Qed.

(** Room for a vote is made with records and instances that count nothing. *)
Lemma counted_record h o mn r : counted h (mapCurrentMNVotes o) (VoteFile.GetVotes (fileVotes o)) ->
  (forall s i, r !! s = Some i -> counts_nothing i \/ record_of o mn !! s = Some i) ->
  counted h (<[mn := r]> (mapCurrentMNVotes o)) (VoteFile.GetVotes (fileVotes o)).
Proof.
  intros Hc Hr. apply (counted_sub _ _ _ _ Hc). intros mn' r' s i E Es. destruct (decide (mn = mn')) as [<-|Hne].
  - rewrite lookup_insert_eq in E. injection E as <-. destruct (Hr s i Es) as [|Er]; [by left|]. right. unfold record_of in Er.
    destruct (mapCurrentMNVotes o !! mn) as [r'|]; [by exists r'|]. cbn in Er. unfold id in Er. by rewrite lookup_empty in Er.
  - rewrite lookup_insert_ne in E by done. right. by exists r'.
Qed.
Lemma record_instance o mn s s' i : <[s := instance_of (record_of o mn) s]> (record_of o mn) !! s' = Some i -> counts_nothing i \/ record_of o mn !! s' = Some i.
Proof.
  destruct (decide (s = s')) as [<-|Hne]; [|rewrite lookup_insert_ne by done; by right]. rewrite lookup_insert_eq. intros [= <-]. unfold instance_of.
  destruct (record_of o mn !! s) as [i|]; [by right|left]. done.
Qed.

Section Kept.
Context `{BLSCurve} (RecoverCompact : list Z -> list Z -> option (list Z)) (node : GovernanceNode).

Lemma insert_orphan (o : CGovernanceObject) v t : obj_inv o -> CGovernanceVote.nParentHash v = Object_GetHash (data o) ->
  exists c b, Insert vote_time_lt (cmmapOrphanVotes o) (CGovernanceVote.masternodeOutpoint v) (v, t) = Some (c, b) /\ obj_inv (with_orphans o c).
Proof.
  intros [H1 H2 H3 H4 H5] Hp. pose proof (multi_Insert_spec vote_time_lt (fun p => vote_time_lt_never p p) _ (CGovernanceVote.masternodeOutpoint v) (v, t) H3) as Hs.
  destruct (Insert _ _ _ _) as [[c b]|].
  - exists c, b. split; [reflexivity|]. destruct Hs as (Hwf & Hm & _ & Ei). split; cbn; [exact H1|exact H2|exact Hwf|by rewrite Hm|].
    intros k p. rewrite Ei. destruct (known _ _ _ _); [apply H5|]. rewrite H4. unfold keep_newest. rewrite elem_of_cons. intros [[= -> ->]|Hin]; [done|].
    apply H5. destruct (_ =? _)%nat; [|done]. eapply elem_of_sublist; [exact Hin|apply CacheMap.without_last_sub].
  - exfalso. destruct Hs as [_ Hs]. unfold only_last in Hs. rewrite H4 in Hs. destruct (items (cmmapOrphanVotes o)) as [|x l]; [by cbn in Hs|]. by cbn in Hs.
Qed.

Lemma ProcessVote_inv b o v : obj_inv o -> CGovernanceVote.nParentHash v = Object_GetHash (data o) ->
  exists o' calls out, ProcessVote RecoverCompact node b o v = Some (o', calls, out) /\ obj_inv o' /\ data o' = data o.
Proof.
  intros Hinv Hp. pose proof Hinv as [Hf Hc _ _ _]. unfold ProcessVote.
  destruct (VoteFile.HasVote _ _) eqn:Ehas; [by do 3 eexists|]. destruct (mnodeman_Has node _); cbn [negb].
  2: { destruct (insert_orphan o v (GetAdjustedTime node + GOVERNANCE_ORPHAN_EXPIRATION_TIME) Hinv Hp) as (c & b' & -> & Hc'). cbn [mbind option_bind]. by do 3 eexists. }
  set (mn := CGovernanceVote.masternodeOutpoint v). set (s := CGovernanceVote.GetSignal v).
  assert (obj_inv (with_record o mn (record_of o mn))) as Hr by (apply with_votes_inv; [done|done|apply counted_record; [exact Hc|auto]]).
  assert (obj_inv (with_record o mn (<[s := instance_of (record_of o mn) s]> (record_of o mn)))) as Hi
    by (apply with_votes_inv; [done|done|apply counted_record; [exact Hc|apply record_instance]]).
  destruct (s =? _); [by do 3 eexists|]. destruct (_ <? s); [by do 3 eexists|]. destruct (_ <? _); [by do 3 eexists|].
  destruct (_ && _); [by do 3 eexists|]. destruct (_ && _); [by do 3 eexists|]. destruct (negb _); [by do 3 eexists|].
  destruct (GetMasternodeInfo node _); [|by do 3 eexists]. do 3 eexists. split; [reflexivity|]. split; [|done].
  set (i := {| eOutcome := _ |}). cbn [mapCurrentMNVotes fileVotes with_record with_votes]. rewrite insert_insert_eq.
  destruct (VoteFileProps.AddVote_wf _ v Hf) as [Hf' Hin]. apply with_votes_inv; [exact Hi|exact Hf'|]. cbn [data].
  intros mn' r' s' i' E Es. destruct (decide (mn = mn')) as [<-|Hne]; [rewrite lookup_insert_eq in E; injection E as <-; destruct (decide (s = s')) as [<-|Hne]|].
  - rewrite lookup_insert_eq in Es. injection Es as <-. right.
    assert (exists w, w ∈ VoteFile.GetVotes (VoteFile.AddVote (fileVotes o) v) /\ w = v) as (w & Hw & ->).
    { exists v. split; [|reflexivity]. apply Hin. right. split; [reflexivity|]. exact Ehas. }
    exists v. split; [exact Hw|]. by repeat split.
  - rewrite lookup_insert_ne in Es by done.
    apply (counted_more _ _ _ (VoteFile.GetVotes (VoteFile.AddVote (fileVotes o) v)) (inv_counted _ Hr) ltac:(intros w Hw; apply Hin; by left) mn (record_of o mn)); [|exact Es].
    cbn. by rewrite lookup_insert_eq.
  - rewrite lookup_insert_ne in E by done.
    apply (counted_more _ _ _ (VoteFile.GetVotes (VoteFile.AddVote (fileVotes o) v)) Hc ltac:(intros w Hw; apply Hin; by left) mn' r'); [exact E|exact Es].
Qed.

Lemma ClearMasternodeVotes_inv o : obj_inv o -> obj_inv (ClearMasternodeVotes node o) /\ data (ClearMasternodeVotes node o) = data o.
Proof.
  unfold ClearMasternodeVotes. generalize (map_to_list (mapCurrentMNVotes o)). intros l. revert o. induction l as [|[mn r] l IH]; intros o Hinv; cbn [fold_left]; [done|].
  destruct (negb (mnodeman_Has node (mn, r).1)); [|by apply IH]. cbn [fst].
  destruct (VoteFileProps.remove_votes_spec (fun v => bool_decide (CGovernanceVote.masternodeOutpoint v = mn)) _ (inv_file _ Hinv)) as (Hwf & Hin & _).
  match goal with |- obj_inv (fold_left _ l ?o') /\ _ => destruct (IH o') as [H1 H2] end; [|by rewrite H2].
  apply with_votes_inv; [done|exact Hwf|]. intros mn' r' s i E Es. destruct (decide (mn = mn')) as [<-|Hne]; [by rewrite lookup_delete_eq in E|].
  rewrite lookup_delete_ne in E by done. destruct (inv_counted _ Hinv mn' r' s i E Es) as [|(v & Hv & Hs)]; [by left|]. right. exists v. split; [|exact Hs].
  apply Hin. split; [exact Hv|]. apply bool_decide_eq_false. destruct Hs as [-> _]. congruence.
Qed.
Lemma RemoveOldVotes_inv o t : obj_inv o -> obj_inv (RemoveOldVotes o t).1.
Proof.
  intros Hinv. unfold RemoveOldVotes, VoteFile.RemoveOldVotes.
  destruct (VoteFileProps.remove_votes_spec (fun v => CGovernanceVote.nTime v <? t) _ (inv_file _ Hinv)) as (Hwf & Hin & _).
  destruct (VoteFile.remove_votes _ _) as [f removed]. cbn [fst snd] in *. apply with_votes_inv; [done|exact Hwf|].
  intros mn r s i E Es. rewrite lookup_omap in E. destruct (mapCurrentMNVotes o !! mn) as [r0|] eqn:Em; [|done]. cbn [mbind option_bind] in E.
  destruct (bool_decide _); [done|]. injection E as <-. apply map_lookup_filter_Some in Es as [Es Ht]. cbn in Ht.
  destruct (inv_counted _ Hinv mn r0 s i Em Es) as [|(v & Hv & Hs)]; [by left|]. right. exists v. split; [|exact Hs].
  apply Hin. split; [exact Hv|]. destruct Hs as (_ & _ & _ & -> & _). by apply Z.ltb_ge, Z.nlt_ge.
Qed.
Lemma RemoveInvalidProposalVotes_inv o mn : obj_inv o -> obj_inv (RemoveInvalidProposalVotes RecoverCompact node o mn).1.
Proof.
  intros Hinv. unfold RemoveInvalidProposalVotes. destruct (negb _); [done|]. destruct (mapCurrentMNVotes o !! mn) as [r|] eqn:Em; [|done].
  unfold VoteFile.RemoveInvalidProposalVotes. set (p := fun v => _ && _ && _).
  destruct (VoteFileProps.remove_votes_spec p _ (inv_file _ Hinv)) as (Hwf & Hin & Hrem).
  destruct (VoteFile.remove_votes p _) as [f removed]. cbn [fst snd] in *.
  assert (forall v s i, supports (Object_GetHash (data o)) mn s i v -> v ∈ VoteFile.GetVotes (fileVotes o) ->
    CGovernanceVote.GetHash (tmpVote mn (Object_GetHash (data o)) (s, i)) ∉ removed -> v ∈ VoteFile.GetVotes f) as Hkeep.
  { intros v s i (H1 & H2 & H3 & H4 & H5) Hv Hno. apply Hin. split; [exact Hv|]. destruct (p v) eqn:Ep; [|reflexivity]. destruct Hno. apply Hrem. exists v.
    split_and!; [exact Hv|exact Ep|]. symmetry. by apply tmpVote_hash. }
  assert (forall mn' s i, mn' ≠ mn -> forall v, supports (Object_GetHash (data o)) mn' s i v -> v ∈ VoteFile.GetVotes (fileVotes o) -> v ∈ VoteFile.GetVotes f) as Hother.
  { intros mn' s i Hne v (H1 & _) Hv. apply Hin. split; [exact Hv|]. unfold p. rewrite (bool_decide_false (_ = mn)) by congruence. by rewrite andb_false_r. }
  destruct (bool_decide (removed = [])) eqn:Er; cbn [fst].
  - apply bool_decide_eq_true in Er. subst removed. apply with_votes_inv; [done|exact Hwf|]. intros mn' r' s i E Es.
    destruct (inv_counted _ Hinv mn' r' s i E Es) as [|(v & Hv & Hs)]; [by left|]. right. exists v. split; [|exact Hs].
    apply Hin. split; [exact Hv|]. destruct (p v) eqn:Ep; [|reflexivity]. assert (CGovernanceVote.GetHash v ∈ ([] : list (list Z))) as Hnil; [|by apply elem_of_nil in Hnil].
    apply Hrem. exists v. split_and!; [exact Hv|exact Ep|reflexivity].
  - apply with_votes_inv; [done|exact Hwf|]. set (r1 := filter _ r). intros mn' r' s i E Es.
    assert ((mn' = mn /\ r' = r1) \/ (mn' ≠ mn /\ mapCurrentMNVotes o !! mn' = Some r')) as [[-> ->]|[Hne E']].
    { destruct (decide (mn = mn')) as [<-|Hne].
      - left. split; [done|]. destruct (bool_decide (r1 = ∅)); [by rewrite lookup_delete_eq in E|]. rewrite lookup_insert_eq in E. by injection E.
      - right. split; [congruence|]. destruct (bool_decide (r1 = ∅)); [rewrite lookup_delete_ne in E by done|rewrite lookup_insert_ne in E by done]; exact E. }
    + apply map_lookup_filter_Some in Es as [Es Hno]. destruct (inv_counted _ Hinv mn r s i Em Es) as [|(v & Hv & Hs)]; [by left|].
      right. exists v. split; [|exact Hs]. by apply (Hkeep v s i).
    + destruct (inv_counted _ Hinv mn' r' s i E' Es) as [|(v & Hv & Hs)]; [by left|]. right. exists v. split; [|exact Hs]. by apply (Hother mn' s i Hne).
Qed.
Lemma UpdateSentinelVariables_inv o : obj_inv o -> obj_inv (UpdateSentinelVariables node o).
Proof. intros [H1 H2 H3 H4 H5]. unfold UpdateSentinelVariables. destruct (_ =? 0); by split. Qed.
Lemma erase_orphan_inv o k p : obj_inv o -> obj_inv (with_orphans o (Erase_value vote_time_lt (cmmapOrphanVotes o) k p)).
Proof.
  intros [H1 H2 H3 H4 H5]. destruct (Erase_value_spec vote_time_lt (fun u v w _ _ => vote_equivalent u w) _ k p H3) as [Hwf Ei].
  split; cbn; [exact H1|exact H2|exact Hwf| |].
  - unfold Erase_value. destruct (mapIndex _ !! k) as [m|]; [|exact H4]. destruct (find _ _ m); exact H4.
  - intros k' q. rewrite Ei. unfold list_erase_value. rewrite list_elem_of_In, filter_In. intros [Hin%list_elem_of_In _]. by apply H5.
Qed.
Lemma CheckOrphanVotes_inv o : obj_inv o -> exists o' calls, CheckOrphanVotes RecoverCompact node o = Some (o', calls) /\ obj_inv o' /\ data o' = data o.
Proof.
  intros Hinv. unfold CheckOrphanVotes.
  assert (forall l calls o', (forall k p, (k, p) ∈ l -> CGovernanceVote.nParentHash p.1 = Object_GetHash (data o)) -> obj_inv o' -> data o' = data o ->
    exists o'' calls', fold_left (fun x item => x ← x; check_orphan RecoverCompact node x item) l (Some (o', calls)) = Some (o'', calls') /\ obj_inv o'' /\ data o'' = data o) as Hl.
  { clear Hinv. induction l as [|[k p] l IH]; intros calls o' Hp Hinv Hd; cbn [fold_left]; [by do 2 eexists|]. cbn [mbind option_bind].
    assert (forall k p, (k, p) ∈ l -> CGovernanceVote.nParentHash p.1 = Object_GetHash (data o)) as Hp' by (intros k' p' Hin; apply (Hp k'); by right).
    unfold check_orphan at 2. destruct (negb _ && negb _); [by apply IH|].
    destruct (ProcessVote_inv false o' p.1 Hinv) as (o1 & c1 & out & -> & Hinv1 & Hd1); [rewrite Hd; apply (Hp k); left|]. cbn [mbind option_bind].
    destruct (_ || _); (apply IH; [exact Hp'| |]); [by apply erase_orphan_inv|cbn; congruence|done|congruence]. }
  destruct (Hl (items (cmmapOrphanVotes o)) [] o) as (o' & calls & E & H1 & H2); [|done|done|by exists o', calls].
  intros k p Hin. by apply (inv_orphan _ Hinv k).
Qed.
End Kept.

(** A history of an object, with the node as it is at every step. *)
Inductive gop : Type :=
| op_ProcessVote (pfrom : bool) (v : CGovernanceVote) | op_ClearMasternodeVotes | op_RemoveInvalidProposalVotes (mn : COutPoint)
| op_RemoveOldVotes (t : Z) | op_UpdateSentinelVariables | op_CheckOrphanVotes.
Section History.
Context `{BLSCurve} (RecoverCompact : list Z -> list Z -> option (list Z)).
Definition gstep (o : option CGovernanceObject) (x : GovernanceNode * gop) : option CGovernanceObject :=
  o ← o;
  match x.2 with
  | op_ProcessVote b v => r ← ProcessVote RecoverCompact x.1 b o v; Some r.1.1
  | op_ClearMasternodeVotes => Some (ClearMasternodeVotes x.1 o)
  | op_RemoveInvalidProposalVotes mn => Some (RemoveInvalidProposalVotes RecoverCompact x.1 o mn).1
  | op_RemoveOldVotes t => Some (RemoveOldVotes o t).1
  | op_UpdateSentinelVariables => Some (UpdateSentinelVariables x.1 o)
  | op_CheckOrphanVotes => r ← CheckOrphanVotes RecoverCompact x.1 o; Some r.1
  end.
Definition for_object (d : GovernanceData) (x : GovernanceNode * gop) : Prop :=
  match x.2 with op_ProcessVote _ v => CGovernanceVote.nParentHash v = Object_GetHash d | _ => True end.
Lemma RemoveInvalid_data node o mn : data (RemoveInvalidProposalVotes RecoverCompact node o mn).1 = data o.
Proof.
  unfold RemoveInvalidProposalVotes. destruct (negb _); [done|]. destruct (mapCurrentMNVotes o !! mn); [|done].
  destruct (VoteFile.RemoveInvalidProposalVotes _ _ _) as [f removed]. by destruct (bool_decide _).
Qed.
Lemma RemoveOld_data o t : data (RemoveOldVotes o t).1 = data o.
Proof. unfold RemoveOldVotes. by destruct (VoteFile.RemoveOldVotes _ _). Qed.
Lemma Update_data node o : data (UpdateSentinelVariables node o) = data o.
Proof. unfold UpdateSentinelVariables. by destruct (_ =? 0). Qed.
Lemma gstep_inv o x : obj_inv o -> for_object (data o) x -> exists o', gstep (Some o) x = Some o' /\ obj_inv o' /\ data o' = data o.
Proof.
  intros Hinv Hx. destruct x as [node [b v| |mn|t| |]]; unfold gstep; cbn [mbind option_bind snd fst].
  - destruct (ProcessVote_inv RecoverCompact node b o v Hinv Hx) as (o' & calls & out & -> & H1 & H2). by exists o'.
  - destruct (ClearMasternodeVotes_inv node o Hinv) as [H1 H2]. by eexists.
  - eexists. split; [reflexivity|]. split; [by apply RemoveInvalidProposalVotes_inv|apply RemoveInvalid_data].
  - eexists. split; [reflexivity|]. split; [by apply RemoveOldVotes_inv|apply RemoveOld_data].
  - eexists. split; [reflexivity|]. split; [by apply UpdateSentinelVariables_inv|apply Update_data].
  - destruct (CheckOrphanVotes_inv RecoverCompact node o Hinv) as (o' & calls & -> & H1 & H2). by exists o'.
Qed.
Lemma history_inv ops : forall o, obj_inv o -> Forall (for_object (data o)) ops -> exists o', fold_left gstep ops (Some o) = Some o' /\ obj_inv o' /\ data o' = data o.
Proof.
  induction ops as [|x ops IH]; intros o Hinv Hops; cbn [fold_left]; [by exists o|]. apply Forall_cons in Hops as [Hx Hops].
  destruct (gstep_inv o x Hinv Hx) as (o1 & -> & H1 & H2). rewrite <- H2 in Hops. destruct (IH o1 H1 Hops) as (o2 & E & H3 & H4). exists o2. split_and!; [exact E|done|congruence].
Qed.
End History.

(** The masternodes with a vote of one outcome. *)
Lemma counts_disjoint (o : CGovernanceObject) s :
  0 <= GetYesCount o s /\ 0 <= GetNoCount o s /\ 0 <= GetAbstainCount o s /\ GetYesCount o s + GetNoCount o s + GetAbstainCount o s <= Z.of_nat (size (mapCurrentMNVotes o)).
Proof.
  rewrite <- length_map_to_list. unfold GetYesCount, GetNoCount, GetAbstainCount, CountMatchingVotes. induction (map_to_list (mapCurrentMNVotes o)) as [|[mn r] l IH]; [by cbn|].
  cbn [List.filter length snd]. destruct (r !! s) as [i|]; [|lia].
  destruct (Z.eqb_spec (eOutcome i) VOTE_OUTCOME_YES) as [E1|], (Z.eqb_spec (eOutcome i) VOTE_OUTCOME_NO) as [E2|], (Z.eqb_spec (eOutcome i) VOTE_OUTCOME_ABSTAIN) as [E3|];
    cbn [length]; unfold VOTE_OUTCOME_YES, VOTE_OUTCOME_NO, VOTE_OUTCOME_ABSTAIN in *; lia.
Qed.

(** What is counted was voted.  Whatever happens to an object (votes, votes of unknown
    masternodes that are tried again, removed masternodes, removed old or invalid votes),
    nothing fails; every counted outcome is that of a vote in the object's file, from that
    masternode, for that signal and this object; no masternode is counted twice; the file
    has an index entry for each of its votes, and the orphan votes one for a masternode. *)
Theorem votes_kept `{BLSCurve} RecoverCompact d ops : Forall (for_object d) ops ->
  exists o, fold_left (gstep RecoverCompact) ops (Some (CGovernanceObject_new d)) = Some o /\
    (forall mn r s i, mapCurrentMNVotes o !! mn = Some r -> r !! s = Some i -> eOutcome i ≠ VOTE_OUTCOME_NONE ->
       exists v, v ∈ VoteFile.GetVotes (fileVotes o) /\ supports (Object_GetHash d) mn s i v /\ VoteFile.HasVote (fileVotes o) (CGovernanceVote.GetHash v) = true) /\
    (forall s, GetYesCount o s + GetNoCount o s + GetAbstainCount o s <= Z.of_nat (size (mapCurrentMNVotes o))) /\
    VoteFile.nMemoryVotes (fileVotes o) = Z.of_nat (length (VoteFile.GetVotes (fileVotes o))) /\ NoDup (items (cmmapOrphanVotes o)).*1.
Proof.
  intros Hops. destruct (history_inv RecoverCompact ops (CGovernanceObject_new d) (new_inv d) Hops) as (o & E & Hinv & Hd). exists o. split; [exact E|]. split_and!.
  - intros mn r s i Em Es Hi. destruct (inv_counted _ Hinv mn r s i Em Es) as [[Hn _]|(v & Hv & Hs)]; [done|]. exists v. rewrite Hd in Hs. split_and!; [exact Hv|exact Hs|].
    apply (VoteFileProps.HasVote_spec _ _ (inv_file _ Hinv)). exists v. split; [exact Hv|reflexivity].
  - intros s. apply counts_disjoint.
  - rewrite (VoteFileProps.wf_count _ (inv_file _ Hinv)). unfold VoteFile.GetVotes. by rewrite length_fmap.
  - apply one_orphan, (inv_orphans _ Hinv).
Qed.
(** Two votes of a masternode that is not known yet, for two signals: the second one is
    forgotten, and only the first is counted once the masternode is known. *)
Definition object_votes : list CGovernanceVote :=
  map (fun x => {| CGovernanceVote.nVoteSignal := x.1; CGovernanceVote.masternodeOutpoint := sample_outpoint 1; CGovernanceVote.nParentHash := Object_GetHash sample_data;
                   CGovernanceVote.nVoteOutcome := 1; CGovernanceVote.nTime := x.2; CGovernanceVote.vchSig := repeat 1 96 |}) [(VOTE_SIGNAL_DELETE, 1500); (VOTE_SIGNAL_FUNDING, 1600)].
Definition orphan_history : list (GovernanceNode * gop) :=
  map (fun v => (sample_gov_node (fun _ => false), op_ProcessVote true v)) object_votes ++ [(sample_gov_node (fun _ => true), op_CheckOrphanVotes)].
Lemma votes_kept_witness :
  (exists o, fold_left (gstep (H := no_curve) (fun _ _ => None)) orphan_history (Some (CGovernanceObject_new sample_data)) = Some o /\
    GetYesCount o VOTE_SIGNAL_DELETE = 1 /\ GetYesCount o VOTE_SIGNAL_FUNDING = 0) /\
  exists o, fold_left (gstep (H := no_curve) (fun _ _ => None)) orphan_history (Some (CGovernanceObject_new sample_data)) = Some o /\
    (forall mn r s i, mapCurrentMNVotes o !! mn = Some r -> r !! s = Some i -> eOutcome i ≠ VOTE_OUTCOME_NONE ->
       exists v, v ∈ VoteFile.GetVotes (fileVotes o) /\ supports (Object_GetHash sample_data) mn s i v /\ VoteFile.HasVote (fileVotes o) (CGovernanceVote.GetHash v) = true) /\
    (forall s, GetYesCount o s + GetNoCount o s + GetAbstainCount o s <= Z.of_nat (size (mapCurrentMNVotes o))) /\
    VoteFile.nMemoryVotes (fileVotes o) = Z.of_nat (length (VoteFile.GetVotes (fileVotes o))) /\ NoDup (items (cmmapOrphanVotes o)).*1.
Proof.
  split; [eexists; split; [vm_compute; reflexivity|split; vm_compute; reflexivity]|]. apply (votes_kept (H := no_curve)).
  unfold orphan_history, object_votes. repeat (apply Forall_cons; split); try apply Forall_nil; try exact I; reflexivity.
Defined.
