(* ===== verification/Payments.v ===== *)
(** * Block rewards and payments
    (src/src/validation.cpp, src/src/masternode-payments.cpp, src/src/governance-classes.cpp)

    What a block creates: the subsidy, computed with doubles, its split between miner,
    masternode and superblocks, the value a coinbase may have and whom it has to pay, and
    the coinbase a miner builds.

    The theorems: how much is issued in all, and that it stays below [MAX_MONEY] as long as
    no superblock is paid; what an accepted coinbase is worth at most and pays; and that a
    miner's coinbase passes both checks. *)

From Stdlib Require Import SpecFloat Sorted.
From S2P Require Import Prelude Bytes Amount Script Transaction MasternodeList MasternodeQueue Standard ProviderChecks Governance.
From stdpp Require Import list gmap.
Local Open Scope Z_scope.
Local Open Scope cxx_scope.

(** ** Doubles: IEEE 754 binary64, rounding to nearest even *)

Definition double : Type := spec_float.
Definition double_of (n : Z) : double := binary_normalize 53 1024 n 0 false.
(** A decimal literal [n / 10 ^ k] is the double nearest to it. *)
Definition literal (n d : Z) : double := SFdiv 53 1024 (double_of n) (double_of d).
Definition dmul (x y : double) : double := SFmul 53 1024 x y.
Definition dsub (x y : double) : double := SFsub 53 1024 x y.
(** The conversion to [int64_t], towards zero; undefined outside its range. *)
Definition int64_of (x : double) : option Z :=
  match x with
  | S754_zero _ => Some 0
  | S754_finite s m e =>
      let a := if 0 <=? e then Zpos m * 2 ^ e else Zpos m / 2 ^ (- e) in
      let v := if s then - a else a in
      if (- 2 ^ 63 <=? v) && (v <? 2 ^ 63) then Some v else None
  | _ => None
  end.

(** ** The subsidy *)

Record MoneyParams : Type := {
  nSubsidyHalvingInterval : Z;
  nMasternodePaymentsStartBlock : Z;
  nSuperblockStartBlock : Z;
  nSuperblockCycle : Z;
}.
Definition main_money : MoneyParams :=
  {| nSubsidyHalvingInterval := 100000; nMasternodePaymentsStartBlock := 10100; nSuperblockStartBlock := 25000; nSuperblockCycle := 29200 |}.
Definition test_money : MoneyParams :=
  {| nSubsidyHalvingInterval := 100000; nMasternodePaymentsStartBlock := 4010; nSuperblockStartBlock := 4010; nSuperblockCycle := 40 |}.
Definition dev_money : MoneyParams :=
  {| nSubsidyHalvingInterval := 100000; nMasternodePaymentsStartBlock := 4010; nSuperblockStartBlock := 4010; nSuperblockCycle := 40 |}.
Definition regtest_money : MoneyParams :=
  {| nSubsidyHalvingInterval := 2000; nMasternodePaymentsStartBlock := 240; nSuperblockStartBlock := 340; nSuperblockCycle := 40 |}.

(** One turn of the loop. *)
Definition reduce (reductionPercent : double) : double :=
  let reductionPercent := dmul reductionPercent (literal 5 10) in
  if SFltb reductionPercent (literal 375 10000) then literal 375 10000 else reductionPercent.
Fixpoint subsidy_loop (halvings : nat) (reductionPercent : double) (nSubsidy : Z) : option Z :=
  match halvings with
  | O => Some nSubsidy
  | S halvings =>
      let reductionPercent := reduce reductionPercent in
      let multiplyValue := dsub (double_of 1) reductionPercent in
      nSubsidy ← int64_of (dmul (double_of nSubsidy) multiplyValue);
      subsidy_loop halvings reductionPercent nSubsidy
  end.

Section Money.
Context (params : MoneyParams).

Definition GetBlockSubsidy (nHeight : Z) (fSuperblockPartOnly : bool) : option Z :=
  let halvings := Z.quot nHeight (nSubsidyHalvingInterval params) in
  nSubsidy ← subsidy_loop (Z.to_nat halvings) (double_of 1) (100 * COIN);
  let nSuperblockPart := if nSuperblockStartBlock params <=? nHeight then Z.quot nSubsidy 10 else 0 in
  Some (if fSuperblockPartOnly then nSuperblockPart else nSubsidy - nSuperblockPart).

Definition GetMasternodePayment (nHeight blockValue : Z) : Z :=
  if (nMasternodePaymentsStartBlock params <=? nHeight) && (nHeight <? nSuperblockStartBlock params) then Z.quot blockValue 5
  else if (nSuperblockStartBlock params <=? nHeight) && (nHeight <? 100000) then Z.quot blockValue 9 * 2
  else if 100000 <=? nHeight then Z.quot blockValue 9 * 3
  else 0.

(** ** Superblocks *)

Definition IsValidBlockHeight (nBlockHeight : Z) : bool :=
  (nSuperblockStartBlock params <=? nBlockHeight) && (Z.rem nBlockHeight (nSuperblockCycle params) =? 0).

Definition GetNearestSuperblocksHeights (nBlockHeight : Z) : Z * Z :=
  let cycle := nSuperblockCycle params in
  let nFirstSuperblockOffset := Z.rem (cycle - Z.rem (nSuperblockStartBlock params) cycle) cycle in
  let nFirstSuperblock := nSuperblockStartBlock params + nFirstSuperblockOffset in
  if nBlockHeight <? nFirstSuperblock then (0, nFirstSuperblock)
  else let nLastSuperblock := nBlockHeight - Z.rem nBlockHeight cycle in (nLastSuperblock, nLastSuperblock + cycle).

Definition GetPaymentsLimit (nBlockHeight : Z) : option Z :=
  if negb (IsValidBlockHeight nBlockHeight) then Some 0
  else nSuperblockPartOfSubsidy ← GetBlockSubsidy nBlockHeight true; Some (i64 (nSuperblockPartOfSubsidy * nSuperblockCycle params)).

(** [CGovernancePayment]; a superblock is its [vecPayments]. *)
Record CGovernancePayment : Type := { script : list Z; nAmount : Z }.
Definition CSuperblock : Type := list CGovernancePayment.
Definition GetPaymentsTotalAmount (s : CSuperblock) : Z := fold_left (fun n p => i64 (n + nAmount p)) s 0.

(** The search for a payment from the output [nVoutIndex] on. *)
Fixpoint find_payment (payment : CGovernancePayment) (vout : list CTxOut) (j : nat) : option nat :=
  match vout with
  | [] => None
  | out :: vout =>
      if bool_decide (script payment = scriptPubKey out) && (nAmount payment =? nValue out) then Some j
      else find_payment payment vout (S j)
  end.
Fixpoint match_payments (payments : CSuperblock) (vout : list CTxOut) (nVoutIndex : nat) : bool :=
  match payments with
  | [] => true
  | payment :: payments =>
      match find_payment payment (drop nVoutIndex vout) nVoutIndex with
      | Some j => match_payments payments vout j
      | None => false
      end
  end.

(** [None]: an exception of [GetValueOut]. *)
Definition CSuperblock_IsValid (s : CSuperblock) (txNew : CMutableTransaction) (nBlockHeight blockReward : Z) : option bool :=
  if negb (IsValidBlockHeight nBlockHeight) then Some false
  else if (length (vout txNew) <? length s)%nat then Some false
  else
    nPaymentsLimit ← GetPaymentsLimit nBlockHeight;
    if nPaymentsLimit <? GetPaymentsTotalAmount s then Some false
    else
      nBlockValue ← GetValueOut txNew;
      if i64 (blockReward + GetPaymentsTotalAmount s) <? nBlockValue then Some false
      else Some (match_payments s (vout txNew) 0).

(** *** Triggers: the superblocks that were proposed, by the hash of their objects

    The list is in the order of the map.  A trigger is active as long as its object is
    known. *)

Record Trigger : Type := { trigger_nBlockHeight : Z; vecPayments : CSuperblock }.
Record Governance : Type := { mapTrigger : list (list Z * Trigger); mapObjects : gmap (list Z) CGovernanceObject; voters : GovernanceNode }.
Definition GetActiveTriggers (gov : Governance) : list (list Z * Trigger) :=
  List.filter (fun x => match mapObjects gov !! x.1 with Some _ => true | None => false end) (mapTrigger gov).
(** [UpdateSentinelVariables] refreshes the flags of the objects that are looked at. *)
Fixpoint triggered_loop (node : GovernanceNode) (nBlockHeight : Z) (vecTriggers : list (list Z * Trigger)) (objects : gmap (list Z) CGovernanceObject) :
    gmap (list Z) CGovernanceObject * bool :=
  match vecTriggers with
  | [] => (objects, false)
  | (hash, pSuperblock) :: vecTriggers =>
      match objects !! hash with
      | None => triggered_loop node nBlockHeight vecTriggers objects
      | Some pObj =>
          if negb (nBlockHeight =? trigger_nBlockHeight pSuperblock) then triggered_loop node nBlockHeight vecTriggers objects
          else
            let pObj := UpdateSentinelVariables node pObj in
            let objects := <[hash := pObj]> objects in
            if fCachedFunding pObj then (objects, true) else triggered_loop node nBlockHeight vecTriggers objects
      end
  end.
Definition IsSuperblockTriggered_step (gov : Governance) (nBlockHeight : Z) : Governance * bool :=
  if negb (IsValidBlockHeight nBlockHeight) then (gov, false)
  else
    let '(objects, r) := triggered_loop (voters gov) nBlockHeight (GetActiveTriggers gov) (mapObjects gov) in
    ({| mapTrigger := mapTrigger gov; mapObjects := objects; voters := voters gov |}, r).
(** The answer; the refreshed flags change no later answer ([triggered_again]). *)
Definition IsSuperblockTriggered (gov : Governance) (nBlockHeight : Z) : bool := (IsSuperblockTriggered_step gov nBlockHeight).2.

Definition better_trigger (gov : Governance) (nBlockHeight : Z) (best : Z * option CSuperblock) (x : list Z * Trigger) : Z * option CSuperblock :=
  match mapObjects gov !! x.1 with
  | None => best
  | Some pObj =>
      if negb (nBlockHeight =? trigger_nBlockHeight x.2) then best
      else
        let nTempYesCount := GetAbsoluteYesCount pObj VOTE_SIGNAL_FUNDING in
        if best.1 <? nTempYesCount then (nTempYesCount, Some (vecPayments x.2)) else best
  end.
Definition GetBestSuperblock (gov : Governance) (nBlockHeight : Z) : option CSuperblock :=
  if negb (IsValidBlockHeight nBlockHeight) then None
  else
    let '(nYesCount, pSuperblockRet) := fold_left (better_trigger gov nBlockHeight) (GetActiveTriggers gov) (0, None) in
    if 0 <? nYesCount then pSuperblockRet else None.

Definition SuperblockManager_IsValid (gov : Governance) (txNew : CMutableTransaction) (nBlockHeight blockReward : Z) : option bool :=
  match GetBestSuperblock gov nBlockHeight with
  | Some pSuperblock => CSuperblock_IsValid pSuperblock txNew nBlockHeight blockReward
  | None => Some false
  end.

(** ** The votes for payees before the deterministic lists *)

Definition MNPAYMENTS_SIGNATURES_REQUIRED : Z := 6.
Record CMasternodePayee : Type := { payee_scriptPubKey : list Z; vecVoteHashes : list (list Z) }.
Definition GetVoteCount (p : CMasternodePayee) : Z := Z.of_nat (length (vecVoteHashes p)).
(** [CMasternodeBlockPayees] *)
Fixpoint AddPayee (vecPayees : list CMasternodePayee) (payee nVoteHash : list Z) : list CMasternodePayee :=
  match vecPayees with
  | [] => [{| payee_scriptPubKey := payee; vecVoteHashes := [nVoteHash] |}]
  | p :: ps =>
      if bool_decide (payee_scriptPubKey p = payee) then {| payee_scriptPubKey := payee_scriptPubKey p; vecVoteHashes := vecVoteHashes p ++ [nVoteHash] |} :: ps
      else p :: AddPayee ps payee nVoteHash
  end.
Definition GetBestPayee (vecPayees : list CMasternodePayee) : option (list Z) :=
  let '(nVotes, payeeRet) := fold_left (fun best payee => if best.1 <? GetVoteCount payee then (GetVoteCount payee, payee_scriptPubKey payee) else best) vecPayees (-1, []) in
  if -1 <? nVotes then Some payeeRet else None.
Definition HasPayeeWithVotes (vecPayees : list CMasternodePayee) (payeeIn : list Z) (nVotesReq : Z) : bool :=
  existsb (fun payee => (nVotesReq <=? GetVoteCount payee) && bool_decide (payee_scriptPubKey payee = payeeIn)) vecPayees.
Definition BlockPayees_IsTransactionValid (vecPayees : list CMasternodePayee) (nBlockHeight : Z) (txNew : CMutableTransaction) : option bool :=
  value ← GetValueOut txNew;
  let nMasternodePayment := GetMasternodePayment nBlockHeight value in
  let nMaxSignatures := fold_left (fun n payee => if n <=? GetVoteCount payee then GetVoteCount payee else n) vecPayees 0 in
  if nMaxSignatures <? MNPAYMENTS_SIGNATURES_REQUIRED then Some true
  else Some (existsb (fun payee => (MNPAYMENTS_SIGNATURES_REQUIRED <=? GetVoteCount payee) &&
    existsb (fun txout => bool_decide (payee_scriptPubKey payee = scriptPubKey txout) && (nMasternodePayment =? nValue txout)) (vout txNew)) vecPayees).

(** ** What a coinbase may and must pay *)

(** The node around the checks. *)
Record PayState : Type := {
  IsSynced : bool;
  fLiteMode : bool;
  SPORK_8_MASTERNODE_PAYMENT_ENFORCEMENT : bool;
  SPORK_9_SUPERBLOCKS_ENABLED : bool;
  IsDeterministicMNsSporkActive : Z -> bool;
  governance : Governance;
  (** [mapMasternodeBlocks]: the voted payees by height *)
  mapMasternodeBlocks : gmap Z (list CMasternodePayee);
  chain_Height : Z;
  (** [GetListForBlock] of the block at a height of the active chain; [None]: there is no
      block, which the code dereferences *)
  list_at : Z -> option CDeterministicMNList;
}.

Context (node : PayState).

Definition IsBlockValueValid (coinbase : CMutableTransaction) (nBlockHeight blockReward : Z) : option bool :=
  value ← GetValueOut coinbase;
  let isBlockRewardValueMet := value <=? blockReward in
  if nBlockHeight <? nSuperblockStartBlock params then Some isBlockRewardValueMet
  else
    limit ← GetPaymentsLimit nBlockHeight;
    let nSuperblockMaxValue := i64 (blockReward + limit) in
    let isSuperblockMaxValueMet := value <=? nSuperblockMaxValue in
    if negb (IsValidBlockHeight nBlockHeight) then Some isBlockRewardValueMet
    else if negb isSuperblockMaxValueMet then Some false
    else if negb (IsSynced node) || fLiteMode node then Some true
    else if negb (SPORK_9_SUPERBLOCKS_ENABLED node) then Some isBlockRewardValueMet
    else if negb (IsSuperblockTriggered (governance node) nBlockHeight) then Some isBlockRewardValueMet
    else SuperblockManager_IsValid (governance node) coinbase nBlockHeight blockReward.

(** [CMasternodePayments::GetBlockTxOuts]; the inner option is [false]. *)
Definition CTxOut_of (nValueIn : Z) (script : list Z) : CTxOut := {| nValue := nValueIn; scriptPubKey := script; nRounds := -10 |}.
Definition payee_outs (masternodeReward : Z) (dmnPayee : CDeterministicMN) : list CTxOut :=
  let operatorReward :=
    if negb (nOperatorReward dmnPayee =? 0) && negb (bool_decide (scriptOperatorPayout (pdmnState dmnPayee) = []))
    then Z.quot (i64 (masternodeReward * nOperatorReward dmnPayee)) 10000 else 0 in
  let masternodeReward := masternodeReward - operatorReward in
  (if 0 <? masternodeReward then [CTxOut_of masternodeReward (scriptPayout (pdmnState dmnPayee))] else []) ++
  (if 0 <? operatorReward then [CTxOut_of operatorReward (scriptOperatorPayout (pdmnState dmnPayee))] else []).
Definition GetBlockTxOuts (nBlockHeight blockReward : Z) : option (option (list CTxOut)) :=
  let masternodeReward := GetMasternodePayment nBlockHeight blockReward in
  if IsDeterministicMNsSporkActive node nBlockHeight then
    if chain_Height node <? nBlockHeight - 1 then Some None
    else
      mnList ← list_at node (nBlockHeight - 1);
      Some (option_map (payee_outs masternodeReward) (GetMNPayee mnList))
  else Some (payees ← mapMasternodeBlocks node !! nBlockHeight; payee ← GetBestPayee payees; Some [CTxOut_of masternodeReward payee]).

(** The outputs one after the other; one that is missing is printed, which asserts a
    destination. *)
Fixpoint outs_paid (voutMasternodePayments paid : list CTxOut) : option bool :=
  match voutMasternodePayments with
  | [] => Some true
  | txout :: outs =>
      if existsb (fun txout2 => bool_decide (txout = txout2)) paid then outs_paid outs paid
      else match ExtractDestination (scriptPubKey txout) with None => None | Some _ => Some false end
  end.
Definition IsTransactionValid (txNew : CMutableTransaction) (nBlockHeight blockReward : Z) : option bool :=
  if IsDeterministicMNsSporkActive node nBlockHeight then
    outs ← GetBlockTxOuts nBlockHeight blockReward;
    match outs with
    | None => Some true
    | Some voutMasternodePayments => outs_paid voutMasternodePayments (vout txNew)
    end
  else
    match mapMasternodeBlocks node !! nBlockHeight with
    | None => Some true
    | Some payees => BlockPayees_IsTransactionValid payees nBlockHeight txNew
    end.

Definition IsBlockPayeeValid (txNew : CMutableTransaction) (nBlockHeight blockReward : Z) : option bool :=
  if negb (IsSynced node) || fLiteMode node then Some true
  else if nBlockHeight <? nSuperblockStartBlock params then Some true
  else
    let masternode_paid :=
      valid ← IsTransactionValid txNew nBlockHeight blockReward;
      if (valid : bool) then Some true
      else if IsDeterministicMNsSporkActive node nBlockHeight then Some false
      else Some (negb (SPORK_8_MASTERNODE_PAYMENT_ENFORCEMENT node)) in
    if SPORK_9_SUPERBLOCKS_ENABLED node && IsSuperblockTriggered (governance node) nBlockHeight then
      valid ← SuperblockManager_IsValid (governance node) txNew nBlockHeight blockReward;
      if (valid : bool) then (if negb (IsDeterministicMNsSporkActive node nBlockHeight) then Some true else masternode_paid)
      else Some false
    else masternode_paid.

(** ** The coinbase of a miner *)

(** [GetMasternodeTxOuts]: none is a failure, which leaves no outputs. *)
Definition GetMasternodeTxOuts (nBlockHeight blockReward : Z) (queued : option (list Z)) : option (list CTxOut) :=
  outs ← GetBlockTxOuts nBlockHeight blockReward;
  match outs with
  | Some outs => Some outs
  | None =>
      if IsDeterministicMNsSporkActive node nBlockHeight then Some []
      else
        match queued with
        | None => Some []
        | Some payee =>
            let masternodePayment := GetMasternodePayment nBlockHeight blockReward in
            if masternodePayment =? 0 then Some [] else Some [CTxOut_of masternodePayment payee]
        end
  end.

Definition superblock_outs (s : CSuperblock) : list CTxOut := map (fun p => CTxOut_of (nAmount p) (script p)) s.
Definition with_vout (tx : CMutableTransaction) (outs : list CTxOut) : CMutableTransaction :=
  {| nVersion := nVersion tx; nType := nType tx; vin := vin tx; vout := outs; nLockTime := nLockTime tx; vExtraPayload := vExtraPayload tx |}.

(** [txNew.vout[0].nValue -= txout.nValue] for the masternode's outputs. *)
Definition take_from_miner (outs : list CTxOut) (paid : list CTxOut) : option (list CTxOut) :=
  match outs with
  | [] => None
  | o :: outs => Some ({| nValue := fold_left (fun v p => i64 (v - nValue p)) paid (nValue o); scriptPubKey := scriptPubKey o; nRounds := nRounds o |} :: outs)
  end.

Definition FillBlockPayments (txNew : CMutableTransaction) (nBlockHeight blockReward : Z) (queued : option (list Z)) : option CMutableTransaction :=
  let voutSuperblockPayments :=
    if SPORK_9_SUPERBLOCKS_ENABLED node && IsSuperblockTriggered (governance node) nBlockHeight
    then match GetBestSuperblock (governance node) nBlockHeight with Some s => superblock_outs s | None => [] end else [] in
  let allowSuperblockAndMNReward := IsDeterministicMNsSporkActive node nBlockHeight in
  if negb (bool_decide (voutSuperblockPayments = [])) && negb allowSuperblockAndMNReward
  then Some (with_vout txNew (vout txNew ++ voutSuperblockPayments))
  else
    voutMasternodePayments ← GetMasternodeTxOuts nBlockHeight blockReward queued;
    let outs := (vout txNew ++ voutMasternodePayments) ++ voutSuperblockPayments in
    outs ← (if bool_decide (voutMasternodePayments = []) then Some outs else take_from_miner outs voutMasternodePayments);
    Some (with_vout txNew outs).
End Money.

(** ** The schedule of the main network *)

(** The state of the loop after [n] turns. *)
Fixpoint loop_state (n : nat) (r : double) (s : Z) : option (double * Z) :=
  match n with
  | O => Some (r, s)
  | S n => s ← int64_of (dmul (double_of s) (dsub (double_of 1) (reduce r))); loop_state n (reduce r) s
  end.
Lemma subsidy_loop_add a b : forall r s, subsidy_loop (a + b) r s = x ← loop_state a r s; subsidy_loop b x.1 x.2.
Proof. induction a as [|a IH]; intros r s; [done|]. cbn. destruct (int64_of _); cbn; [apply IH|done]. Qed.
Lemma subsidy_loop_state n r s : subsidy_loop n r s = snd <$> loop_state n r s.
Proof. rewrite <- (Nat.add_0_r n) at 1. rewrite subsidy_loop_add. by destruct (loop_state n r s) as [[]|]. Qed.

(** The rewards in turn. *)
Fixpoint rewards (n : nat) (r : double) (s : Z) : option (list Z) :=
  match n with
  | O => Some []
  | S n => s' ← int64_of (dmul (double_of s) (dsub (double_of 1) (reduce r))); l ← rewards n (reduce r) s'; Some (s :: l)
  end.
Lemma rewards_spec n : forall r s l i, rewards n r s = Some l -> (i < n)%nat -> subsidy_loop i r s = l !! i.
Proof.
  induction n as [|n IH]; intros r s l i; cbn; [lia|]. destruct (int64_of _) as [s'|] eqn:E; cbn; [|done].
  destruct (rewards n (reduce r) s') as [l'|] eqn:El; cbn; [|done]. intros [= <-] Hi. destruct i as [|i]; [done|].
  cbn. rewrite E. cbn. apply (IH _ _ _ _ El). lia.
Qed.

Definition reward_table : list Z := default [] (rewards 600 (double_of 1) (100 * COIN)).
(** What the 600 rewards are: amounts that do not grow, worth so much. *)
Fixpoint non_increasing (l : list Z) : bool :=
  match l with
  | x :: ((y :: _) as l') => (y <=? x) && non_increasing l'
  | _ => true
  end.
Lemma non_increasing_nth l : non_increasing l = true -> forall i, (S i < length l)%nat -> nth (S i) l 0 <= nth i l 0.
Proof.
  induction l as [|x [|y l] IH]; [by cbn; lia|by cbn; lia|]. cbn [non_increasing tl]. intros [Hx Hl]%andb_true_iff [|i] Hi.
  - apply Z.leb_le in Hx. exact Hx.
  - apply (IH Hl i). cbn in *. lia.
Qed.
Lemma table_length : length reward_table = 600%nat.
Proof. vm_compute. reflexivity. Qed.
Lemma table_range : forallb (fun x => (0 <=? x) && (x <=? 100 * COIN)) reward_table && non_increasing reward_table = true.
Proof. vm_compute. reflexivity. Qed.
Lemma table_sum : foldr Z.add 0 (map id reward_table) = 104062493379.
Proof. vm_compute. reflexivity. Qed.
Lemma table_sum_without_tenth : foldr Z.add 0 (map (fun x => x - Z.quot x 10) reward_table) = 93656244262.
Proof. vm_compute. reflexivity. Qed.
Lemma table_end : loop_state 600 (double_of 1) (100 * COIN) = Some (literal 375 10000, 0).
Proof. vm_compute. reflexivity. Qed.

(** The reward of an era; sealed, since unfolding it computes the table. *)
Lemma reward_sealed : { f : nat -> Z | forall i, f i = nth i reward_table 0 }.
Proof. by eexists. Qed.
Definition reward (i : nat) : Z := proj1_sig reward_sealed i.
Lemma reward_eq i : reward i = nth i reward_table 0.
Proof. apply (proj2_sig reward_sealed). Qed.

Lemma default_Some {A} (o : option A) (a : A) : match o with Some _ => true | None => false end = true -> o = Some (default a o).
Proof. by destruct o. Qed.
Lemma table_rewards : rewards 600 (double_of 1) (100 * COIN) = Some reward_table.
Proof. apply default_Some. vm_compute. reflexivity. Qed.
#[local] Opaque reward_table.
Lemma no_reward_left k : subsidy_loop k (literal 375 10000) 0 = Some 0.
Proof.
  induction k as [|k IH]; [done|]. cbn [subsidy_loop].
  assert (reduce (literal 375 10000) = literal 375 10000) as -> by (vm_compute; reflexivity).
  assert (int64_of (dmul (double_of 0) (dsub (double_of 1) (literal 375 10000))) = Some 0) as -> by (vm_compute; reflexivity). exact IH.
Qed.
Lemma loop_reward i : subsidy_loop i (double_of 1) (100 * COIN) = Some (reward i).
Proof.
  pose proof table_length as Hlen. rewrite reward_eq. destruct (decide (i < 600)%nat) as [Hi|Hi].
  - rewrite (rewards_spec 600 _ _ _ i table_rewards Hi).
    destruct (lookup_lt_is_Some_2 reward_table i) as [x E]; [lia|]. rewrite E. rewrite (nth_lookup_Some _ _ 0 _ E). exact eq_refl.
  - rewrite nth_overflow by lia. replace i with (600 + (i - 600))%nat by lia. rewrite subsidy_loop_add, table_end. cbn [mbind option_bind fst snd]. apply no_reward_left.
Qed.
Lemma reward_range i : 0 <= reward i <= 100 * COIN.
Proof.
  pose proof table_range as [Ht _]%andb_true_iff. rewrite forallb_forall in Ht. rewrite reward_eq. destruct (nth_in_or_default i reward_table 0) as [Hin| ->]; [|unfold COIN; lia].
  specialize (Ht _ Hin). bool_to_prop. lia.
Qed.

(** The part of a reward that superblocks get, and the subsidy of a height. *)
Definition interval : nat := Z.to_nat 100000.
Definition era (h : nat) : nat := (h / interval)%nat.
Lemma main_subsidy h part : GetBlockSubsidy main_money (Z.of_nat h) part =
  Some (let tenth := if 25000 <=? Z.of_nat h then Z.quot (reward (era h)) 10 else 0 in if part then tenth else reward (era h) - tenth).
Proof.
  unfold GetBlockSubsidy. cbn [nSubsidyHalvingInterval main_money nSuperblockStartBlock].
  assert (Z.to_nat (Z.quot (Z.of_nat h) 100000) = era h) as ->.
  { unfold era, interval. rewrite Z.quot_div_nonneg by lia. rewrite Z2Nat.inj_div by lia. by rewrite Nat2Z.id. }
  rewrite loop_reward. exact eq_refl.
Qed.

Fixpoint total (f : nat -> Z) (n : nat) : Z := match n with O => 0 | S n => total f n + f n end.
(** What the blocks below a height create. *)
Definition subsidy (part : bool) (h : nat) : Z := default 0 (GetBlockSubsidy main_money (Z.of_nat h) part).
Definition issued (part : bool) (n : nat) : Z := total (subsidy part) n.

Lemma total_le f g n : (forall h, (h < n)%nat -> f h <= g h) -> total f n <= total g n.
Proof. induction n as [|n IH]; intros Hfg; cbn; [lia|]. pose proof (Hfg n ltac:(lia)). specialize (IH (fun h Hh => Hfg h ltac:(lia))). lia. Qed.
Lemma total_mono f n m : (forall h, 0 <= f h) -> (n <= m)%nat -> total f n <= total f m.
Proof. intros Hf Hnm. induction Hnm as [|m Hnm IH]; [lia|]. cbn. pose proof (Hf m). lia. Qed.
Lemma total_add f g n : total (fun h => f h + g h) n = total f n + total g n.
Proof. induction n as [|n IH]; cbn; [done|]. rewrite IH. lia. Qed.
Lemma total_app f n m : total f (n + m) = total f n + total (fun h => f (n + h)%nat) m.
Proof. induction m as [|m IH]; [rewrite Nat.add_0_r; cbn; lia|]. rewrite Nat.add_succ_r. cbn. rewrite IH. lia. Qed.
Lemma total_ext f g n : (forall h, (h < n)%nat -> f h = g h) -> total f n = total g n.
Proof. intros Hfg. apply Z.le_antisymm; apply total_le; intros h Hh; rewrite Hfg by done; lia. Qed.
Lemma total_const c n : total (fun _ => c) n = Z.of_nat n * c.
Proof. induction n as [|n IH]; cbn [total]; [lia|]. rewrite IH. lia. Qed.
Lemma total_eras (g : nat -> Z) I k : (0 < I)%nat -> total (fun h => g (h / I)%nat) (k * I) = Z.of_nat I * total g k.
Proof.
  intros HI. induction k as [|k IH]; [cbn; lia|]. rewrite Nat.mul_succ_l, total_app, IH. cbn [total].
  rewrite (total_ext (fun h => g ((k * I + h) / I)%nat) (fun _ => g k)).
  - rewrite total_const. lia.
  - intros h Hh. f_equal. rewrite Nat.add_comm, Nat.div_add by lia. rewrite Nat.div_small by lia. lia.
Qed.
Lemma total_table (g : Z -> Z) (l : list Z) n : g 0 = 0 -> (length l <= n)%nat -> total (fun i => g (nth i l 0)) n = foldr Z.add 0 (map g l).
Proof.
  intros Hg. revert n. induction l as [|x l IH]; intros n Hn; cbn [map foldr].
  - rewrite (total_ext _ (fun _ => 0)), total_const; [lia|]. intros [|h] _; exact Hg.
  - destruct n as [|n]; [cbn in Hn; lia|]. change (S n) with (1 + n)%nat. rewrite total_app. cbn [total]. cbn in Hn.
    rewrite <- (IH n) by lia. cbn. lia.
Qed.

(** *** What is issued *)

Lemma subsidy_parts h : subsidy true h + subsidy false h = reward (era h).
Proof. unfold subsidy. rewrite !main_subsidy. cbn [default from_option]. unfold id. generalize (reward (era h)). intros r. destruct (25000 <=? Z.of_nat h); lia. Qed.
Lemma tenth r : 0 <= r -> 0 <= Z.quot r 10 /\ 10 * Z.quot r 10 <= r.
Proof. intros Hr. split; [by apply Z.quot_pos|by apply Z.mul_quot_le]. Qed.
Lemma tenth_range i : 0 <= Z.quot (reward i) 10 <= 10 * COIN.
Proof. pose proof (reward_range i) as Hr. revert Hr. generalize (reward i). unfold COIN. intros r Hr. pose proof (tenth r ltac:(lia)). lia. Qed.
Lemma subsidy_range part h : 0 <= subsidy part h <= 100 * COIN.
Proof.
  unfold subsidy. rewrite main_subsidy. cbn [default from_option]. unfold id. pose proof (reward_range (era h)) as Hr. revert Hr.
  generalize (reward (era h)). unfold COIN. intros r Hr. pose proof (tenth r ltac:(lia)). destruct part, (25000 <=? Z.of_nat h); lia.
Qed.

Lemma interval_pos : (0 < interval)%nat.
Proof. unfold interval. lia. Qed.
Lemma interval_Z : Z.of_nat interval = 100000.
Proof. unfold interval. lia. Qed.
#[local] Opaque interval.

(** The sums over whole eras, for the eras that have a reward and any more. *)
Lemma eras_total (g : Z -> Z) k : g 0 = 0 -> (600 <= k)%nat ->
  total (fun h => g (reward (era h))) (k * interval) = 100000 * foldr Z.add 0 (map g reward_table).
Proof.
  intros Hg Hk. unfold era. rewrite (total_eras (fun i => g (reward i)) interval k interval_pos), interval_Z. apply (f_equal (Z.mul 100000)).
  rewrite (total_ext _ (fun i => g (nth i reward_table 0))) by (intros i _; by rewrite reward_eq).
  apply total_table; [exact Hg|]. rewrite table_length. exact Hk.
Qed.
Lemma eras_bound (g : Z -> Z) n : g 0 = 0 -> (forall i, 0 <= g (reward i)) ->
  total (fun h => g (reward (era h))) n <= 100000 * foldr Z.add 0 (map g reward_table).
Proof.
  intros Hg Hpos. rewrite <- (eras_total g (600 + n) Hg ltac:(lia)). apply total_mono; [intros h; apply Hpos|]. pose proof interval_pos. nia.
Qed.

Lemma issued_all n : issued true n + issued false n = total (fun h => reward (era h)) n.
Proof. unfold issued. rewrite <- total_add. apply total_ext. intros h _. apply subsidy_parts. Qed.

Lemma early_total n : total (fun h => if Z.of_nat h <? 25000 then 10 * COIN else 0) n <= 25000 * (10 * COIN).
Proof.
  assert (forall n, total (fun h => if Z.of_nat h <? 25000 then 10 * COIN else 0) n <= Z.min (Z.of_nat n) 25000 * (10 * COIN)) as H.
  { clear. induction n as [|n IH]; [done|]. cbn [total]. rewrite Nat2Z.inj_succ. unfold COIN in *. destruct (Z.ltb_spec (Z.of_nat n) 25000); lia. }
  specialize (H n). unfold COIN in *. lia.
Qed.

Lemma without_tenth_nonneg i : 0 <= reward i - Z.quot (reward i) 10.
Proof. pose proof (reward_range i) as Hr. revert Hr. generalize (reward i). intros r Hr. pose proof (tenth r ltac:(lia)). lia. Qed.
Lemma reward_step i : reward (S i) <= reward i.
Proof.
  pose proof table_range as [_ Ht]%andb_true_iff. destruct (decide (S i < 600)%nat) as [Hi|Hi].
  - pose proof (non_increasing_nth _ Ht i) as Hn. rewrite table_length, <- !reward_eq in Hn. exact (Hn Hi).
  - rewrite (reward_eq (S i)). rewrite nth_overflow by (rewrite table_length; lia). apply reward_range.
Qed.
Lemma reward_mono i j : (i <= j)%nat -> reward j <= reward i.
Proof. intros Hij. induction Hij as [|j Hij IH]; [lia|]. pose proof (reward_step j). lia. Qed.


(** ** What a coinbase is worth and pays *)

Section Coinbase.
Context (params : MoneyParams) (node : PayState).
Implicit Types (tx : CMutableTransaction) (h reward : Z).

(** A superblock's payments, in order, among the outputs. *)
Lemma find_payment_le p outs k i : outs !! i = Some (CTxOut_of (nAmount p) (script p)) -> exists j, find_payment p outs k = Some j /\ (j <= k + i)%nat.
Proof.
  revert k i. induction outs as [|o outs IH]; intros k i Hi; cbn [find_payment]; [done|].
  destruct (bool_decide _ && _) eqn:E; [exists k; split; [done|lia]|]. destruct i as [|i].
  - injection Hi as ->. cbn in E. by rewrite bool_decide_true, Z.eqb_refl in E.
  - destruct (IH (S k) i Hi) as (j & -> & Hj). exists j. split; [done|lia].
Qed.

Lemma match_in_order s : forall vout k, superblock_outs s `sublist_of` drop k vout -> match_payments s vout k = true.
Proof.
  induction s as [|p s IH]; intros vout k Hs; cbn [match_payments]; [done|]. cbn in Hs.
  apply sublist_cons_l in Hs as (l1 & l2 & E & Hs).
  destruct (find_payment_le p (drop k vout) k (length l1)) as (j & -> & Hj); [rewrite E; by apply list_lookup_middle|].
  apply IH. assert (l2 `sublist_of` drop j vout) as Hl.
  { assert (l2 = drop (k + S (length l1)) vout) as ->.
    { rewrite <- drop_drop, E. rewrite drop_app_ge by lia. replace (S (length l1) - length l1)%nat with 1%nat by lia. done. }
    replace (k + S (length l1))%nat with (j + (k + S (length l1) - j))%nat by lia. rewrite <- drop_drop. apply sublist_drop. }
  by etrans.
Qed.

(** Where the payments of a superblock are among the outputs: in order, but equal payments
    one after the other may share an output. *)
Definition paid_at (vout : list CTxOut) (p : CGovernancePayment) (j : nat) : Prop :=
  exists out, vout !! j = Some out /\ nValue out = nAmount p /\ scriptPubKey out = script p.
Definition superblock_paid (s : CSuperblock) (vout : list CTxOut) : Prop :=
  exists js, StronglySorted le js /\ Forall2 (paid_at vout) s js.

Lemma find_payment_at p outs k j : find_payment p outs k = Some j -> (k <= j)%nat /\ paid_at outs p (j - k).
Proof.
  revert k. induction outs as [|o outs IH]; intros k; cbn [find_payment]; [done|]. destruct (_ && _) eqn:E.
  - intros [= ->]. apply andb_true_iff in E as [E1%bool_decide_eq_true E2%Z.eqb_eq]. split; [lia|]. rewrite Nat.sub_diag. by exists o.
  - intros (Hk & out & Hout & He)%IH. split; [lia|]. exists out. split; [|done]. by replace (j - k)%nat with (S (j - S k)) by lia.
Qed.
Lemma match_payments_at s outs : forall k, match_payments s outs k = true ->
  exists js, Forall (le k) js /\ StronglySorted le js /\ Forall2 (paid_at outs) s js.
Proof.
  induction s as [|p s IH]; intros k; cbn [match_payments]; [intros _; exists []; split_and!; constructor|].
  destruct (find_payment p (drop k outs) k) as [j|] eqn:E; [|done]. apply find_payment_at in E as (Hk & out & Hout & He).
  intros (js & Hle & Hs & H2)%IH. exists (j :: js). split_and!.
  - constructor; [done|]. eapply Forall_impl; [exact Hle|]. cbn. lia.
  - by constructor.
  - constructor; [|done]. exists out. split; [|done]. rewrite lookup_drop in Hout. by replace (k + (j - k))%nat with j in Hout by lia.
Qed.
Lemma total_range s : is_s 64 (GetPaymentsTotalAmount s).
Proof.
  unfold GetPaymentsTotalAmount. destruct s as [|p s _] using rev_ind; [by vm_compute|]. rewrite fold_left_app. apply wraps_range. lia.
Qed.

(** C33: The value of an accepted coinbase.  Let the block's reward and the payments' limit
    of the height not be negative and together fit in 63 bits.  A coinbase whose value a
    node accepts is worth the reward and the limit at most, and more than the reward only
    at a superblock's height.  A synchronized node that is not in lite mode accepts more
    than the reward only where superblocks are enabled and one is triggered: the best
    superblock's payments, whose total as the code adds them up is within the limit, are
    then all among the outputs, with their scripts and amounts, in order (equal payments
    one after the other may share an output), and the coinbase is worth at most the reward
    and this total. *)
Theorem coinbase_value tx h reward limit : 0 <= reward -> 0 <= limit -> reward + limit < 2 ^ 63 -> GetPaymentsLimit params h = Some limit ->
  IsBlockValueValid params node tx h reward = Some true ->
  exists value, GetValueOut tx = Some value /\ value <= reward + limit /\ (reward < value -> IsValidBlockHeight params h = true /\
    (IsSynced node = true -> fLiteMode node = false ->
       SPORK_9_SUPERBLOCKS_ENABLED node = true /\ IsSuperblockTriggered params (governance node) h = true /\
       exists s, GetBestSuperblock params (governance node) h = Some s /\ GetPaymentsTotalAmount s <= limit /\ value <= reward + GetPaymentsTotalAmount s /\
         superblock_paid s (vout tx))).
Proof.
  intros Hr Hl Hmax El E. unfold IsBlockValueValid in E. destruct (GetValueOut tx) as [value|] eqn:Eval; [|done]. cbn [mbind option_bind] in E. exists value. split; [done|].
  destruct (Z.ltb_spec h (nSuperblockStartBlock params)) as [Hh|Hh]; [injection E as E%Z.leb_le; split; [lia|lia]|].
  rewrite El in E. cbn [mbind option_bind] in E. destruct (IsValidBlockHeight params h) eqn:Ev; cbn [negb] in E; [|injection E as E%Z.leb_le; split; lia].
  destruct (Z.leb_spec value (i64 (reward + limit))) as [Hv|]; cbn [negb] in E; [|done]. rewrite i64_id in Hv by (unfold is_s; lia). split; [done|].
  intros Hmore. split; [done|]. intros Hsync Hlite. rewrite Hsync, Hlite in E. cbn [negb orb] in E.
  destruct (SPORK_9_SUPERBLOCKS_ENABLED node); cbn [negb] in E; [|injection E as E%Z.leb_le; lia].
  destruct (IsSuperblockTriggered params (governance node) h); cbn [negb] in E; [|injection E as E%Z.leb_le; lia]. split; [done|]. split; [done|].
  unfold SuperblockManager_IsValid in E. destruct (GetBestSuperblock params (governance node) h) as [s|]; [|done]. exists s. split; [done|].
  unfold CSuperblock_IsValid in E. rewrite Ev, El in E. cbn [negb mbind option_bind] in E. destruct (_ <? _)%nat; [done|].
  destruct (Z.ltb_spec limit (GetPaymentsTotalAmount s)) as [|Hs]; [done|]. rewrite Eval in E. cbn [mbind option_bind] in E.
  pose proof (total_range s) as Htotal. rewrite i64_id in E by (unfold is_s in *; lia).
  destruct (Z.ltb_spec (reward + GetPaymentsTotalAmount s) value) as [|Hs']; [done|]. injection E as E.
  apply match_payments_at in E as (js & _ & Hsorted & Hpaid). split_and!; [done|done|by exists js].
Qed.

(** ** A miner's coinbase *)

(** The outputs for the masternode are amounts of its share. *)
Lemma payee_outs_sum share d : 0 <= share < 2 ^ 48 -> 0 <= nOperatorReward d <= 10000 ->
  foldr (fun o n => nValue o + n) 0 (payee_outs share d) = share /\ Forall (fun o => 0 < nValue o <= share) (payee_outs share d).
Proof.
  intros Hs Ho. unfold payee_outs.
  set (op := if negb _ && _ then _ else 0). assert (0 <= op <= share) as Hop.
  { unfold op. destruct (negb _ && _); [|lia]. rewrite i64_id by (unfold is_s; nia). split; [apply Z.quot_pos; nia|].
    apply Z.quot_le_upper_bound; [lia|nia]. }
  destruct (Z.ltb_spec 0 (share - op)), (Z.ltb_spec 0 op); cbn; split; try lia; repeat constructor; cbn; lia.
Qed.

Lemma value_out_loop_sum outs : forall n, 0 <= n -> Forall (fun o => 0 <= nValue o) outs -> n + foldr (fun o n => nValue o + n) 0 outs <= MAX_MONEY ->
  value_out_loop n outs = Some (n + foldr (fun o n => nValue o + n) 0 outs).
Proof.
  induction outs as [|o outs IH]; intros n Hn Hf Hmax; cbn [value_out_loop foldr]; [f_equal; lia|]. apply Forall_cons in Hf as [Ho Hf]. cbn [foldr] in Hmax.
  assert (0 <= foldr (fun o n => nValue o + n) 0 outs) as Hpos by (clear -Hf; induction outs as [|x l IH]; cbn; [lia|]; apply Forall_cons in Hf as [? ?]; specialize (IH ltac:(done)); lia).
  assert (i64 (n + nValue o) = n + nValue o) as -> by (apply i64_id; unfold is_s, MAX_MONEY, COIN in *; lia).
  assert (MoneyRange (nValue o) = true) as -> by (unfold MoneyRange; lia). assert (MoneyRange (n + nValue o) = true) as -> by (unfold MoneyRange; lia).
  cbn [negb orb]. rewrite IH by (done || lia). f_equal. lia.
Qed.


(** *** Triggers *)

Implicit Types (gov : Governance).
Definition refreshed (n : GovernanceNode) (a b : CGovernanceObject) : Prop := b = a \/ b = UpdateSentinelVariables n a.
Definition all_refreshed (n : GovernanceNode) (m m' : gmap (list Z) CGovernanceObject) : Prop := forall k, option_Forall2 (refreshed n) (m !! k) (m' !! k).
Lemma Update_votes n o : mapCurrentMNVotes (UpdateSentinelVariables n o) = mapCurrentMNVotes o.
Proof. unfold UpdateSentinelVariables. by destruct (_ =? 0). Qed.
Lemma refreshed_yes n a b s : refreshed n a b -> GetAbsoluteYesCount b s = GetAbsoluteYesCount a s.
Proof. unfold GetAbsoluteYesCount, GetYesCount, GetNoCount, CountMatchingVotes. intros [-> | ->]; [done|]. by rewrite Update_votes. Qed.
Lemma refreshed_funding n a b : refreshed n a b -> fCachedFunding (UpdateSentinelVariables n b) = fCachedFunding (UpdateSentinelVariables n a).
Proof.
  intros [-> | ->]; [done|]. pose proof (refreshed_yes n a _ VOTE_SIGNAL_FUNDING (or_intror eq_refl)) as Hyes. unfold UpdateSentinelVariables at 1.
  destruct (CountEnabled n =? 0) eqn:E; [done|]. cbn [fCachedFunding]. rewrite Hyes. unfold UpdateSentinelVariables. by rewrite E.
Qed.
Lemma all_refreshed_refl n m : all_refreshed n m m.
Proof. intros k. destruct (m !! k); constructor. by left. Qed.
Lemma refreshed_insert n m m' k a b : all_refreshed n m m' -> m !! k = Some a -> m' !! k = Some b -> refreshed n a b -> all_refreshed n m (<[k := UpdateSentinelVariables n b]> m').
Proof.
  intros Hm Ea Eb Hab k'. destruct (decide (k = k')) as [<-|Hne]; [|by rewrite lookup_insert_ne by done]. rewrite lookup_insert_eq, Ea. constructor.
  right. destruct Hab as [-> | ->]; [done|]. unfold UpdateSentinelVariables at 1. destruct (CountEnabled n =? 0) eqn:E; [done|].
  unfold UpdateSentinelVariables. rewrite E. cbn [fCachedDelete nDeletionTime data cmmapOrphanVotes mapCurrentMNVotes fileVotes].
  unfold GetAbsoluteYesCount, GetAbsoluteNoCount, GetYesCount, GetNoCount, CountMatchingVotes. cbn [mapCurrentMNVotes]. f_equal.
  all: destruct (_ <=? _), (fCachedDelete a); try done; cbn [andb negb]; try done.
Qed.
(** The loop on refreshed objects. *)
Lemma triggered_loop_same n h l : forall m m1 m2, all_refreshed n m m1 -> all_refreshed n m m2 ->
  (triggered_loop n h l m1).2 = (triggered_loop n h l m2).2 /\ all_refreshed n m (triggered_loop n h l m1).1.
Proof.
  induction l as [|[k t] l IH]; intros m m1 m2 H1 H2; cbn [triggered_loop]; [done|].
  pose proof (H1 k) as Hk1. pose proof (H2 k) as Hk2. destruct (m !! k) as [a|] eqn:Ea; inversion Hk1 as [? b1 Hb1 E1 E1'|]; inversion Hk2 as [? b2 Hb2 E2 E2'|]; subst; [|by apply IH].
  destruct (negb _); [by apply IH|]. pose proof (refreshed_insert n m m1 k a b1 H1 Ea (eq_sym E1') Hb1) as H1'.
  pose proof (refreshed_insert n m m2 k a b2 H2 Ea (eq_sym E2') Hb2) as H2'.
  rewrite (refreshed_funding n a b1 Hb1), (refreshed_funding n a b2 Hb2). destruct (fCachedFunding _); [done|]. by apply IH.
Qed.
Lemma active_same gov m : all_refreshed (voters gov) (mapObjects gov) m ->
  GetActiveTriggers {| mapTrigger := mapTrigger gov; mapObjects := m; voters := voters gov |} = GetActiveTriggers gov.
Proof.
  intros Hm. unfold GetActiveTriggers. cbn [mapTrigger mapObjects]. induction (mapTrigger gov) as [|x l IH]; [done|]. cbn [List.filter]. rewrite IH.
  by destruct (Hm x.1).
Qed.
(** Asking whether a superblock is triggered changes no later answer. *)
Lemma triggered_again gov h h' : let gov' := (IsSuperblockTriggered_step params gov h).1 in
  IsSuperblockTriggered params gov' h' = IsSuperblockTriggered params gov h' /\ GetBestSuperblock params gov' h' = GetBestSuperblock params gov h'.
Proof.
  cbv zeta. unfold IsSuperblockTriggered_step at 1 2. destruct (negb (IsValidBlockHeight params h)); [done|].
  destruct (triggered_loop_same (voters gov) h (GetActiveTriggers gov) (mapObjects gov) _ _ (all_refreshed_refl _ _) (all_refreshed_refl _ _)) as [_ Hm].
  destruct (triggered_loop (voters gov) h _ _) as [m r]. cbn [fst] in *. pose proof (active_same gov m Hm) as Ea. split.
  - unfold IsSuperblockTriggered, IsSuperblockTriggered_step. destruct (negb _); [done|]. rewrite Ea. cbn [voters mapObjects].
    pose proof (proj1 (triggered_loop_same (voters gov) h' (GetActiveTriggers gov) (mapObjects gov) m _ Hm (all_refreshed_refl _ _))) as E.
    destruct (triggered_loop (voters gov) h' (GetActiveTriggers gov) m), (triggered_loop (voters gov) h' (GetActiveTriggers gov) (mapObjects gov)). exact E.
  - unfold GetBestSuperblock. destruct (negb _); [done|]. rewrite Ea.
    assert (forall l b, fold_left (better_trigger {| mapTrigger := mapTrigger gov; mapObjects := m; voters := voters gov |} h') l b = fold_left (better_trigger gov h') l b) as Hf.
    { induction l as [|x l IH]; intros b; [done|]. cbn [fold_left]. rewrite IH. f_equal. unfold better_trigger. cbn [mapObjects].
      destruct (Hm x.1) as [a a' Ha|]; [|done]. by rewrite (refreshed_yes _ _ _ _ Ha). }
    by rewrite Hf.
Qed.

(** With a quorum, a triggered superblock is a best one. *)
Lemma triggered_voted n h l : forall m m', all_refreshed n m m' -> CountEnabled n ≠ 0 -> (triggered_loop n h l m').2 = true ->
  exists x o, x ∈ l /\ m !! x.1 = Some o /\ trigger_nBlockHeight x.2 = h /\ nGovernanceMinQuorum n <= GetAbsoluteYesCount o VOTE_SIGNAL_FUNDING.
Proof.
  induction l as [|[k t] l IH]; intros m m' Hm Hn; cbn [triggered_loop]; [done|]. intros E.
  assert (forall m', all_refreshed n m m' -> (triggered_loop n h l m').2 = true ->
    exists x o, x ∈ (k, t) :: l /\ m !! x.1 = Some o /\ trigger_nBlockHeight x.2 = h /\ nGovernanceMinQuorum n <= GetAbsoluteYesCount o VOTE_SIGNAL_FUNDING) as IH'.
  { intros m1 H1 E1. destruct (IH m m1 H1 Hn E1) as (x & o & Hx & Ho). exists x, o. split; [by right|done]. }
  pose proof (Hm k) as Hk. destruct (m !! k) as [a|] eqn:Ea; inversion Hk as [? b Hb Eb Eb'|Eb Eb']; subst; rewrite <- Eb' in E; [|by apply (IH' m')].
  destruct (Z.eqb_spec h (trigger_nBlockHeight t)) as [Eh|]; cbn [negb] in E; [|by apply (IH' m')]. pose proof (refreshed_insert n m m' k a b Hm Ea (eq_sym Eb') Hb) as Hm'.
  rewrite (refreshed_funding n a b Hb) in E. destruct (fCachedFunding (UpdateSentinelVariables n a)) eqn:Ef; [|by apply (IH' _ Hm')].
  exists (k, t), a. split_and!; [left|done|done|]. unfold UpdateSentinelVariables in Ef. destruct (Z.eqb_spec (CountEnabled n) 0); [done|]. cbn [fCachedFunding] in Ef. lia.
Qed.
Lemma best_loop gov h l : forall b, let x := fold_left (better_trigger gov h) l b in
  (x = b \/ (b.1 < x.1 /\ exists y, y ∈ l /\ x.2 = Some (vecPayments y.2))) /\
  (forall y o, y ∈ l -> mapObjects gov !! y.1 = Some o -> trigger_nBlockHeight y.2 = h -> GetAbsoluteYesCount o VOTE_SIGNAL_FUNDING <= x.1).
Proof.
  induction l as [|y l IH]; intros b; cbn [fold_left]; [split; [by left|by intros y o ?%elem_of_nil]|].
  assert (better_trigger gov h b y = b \/ (b.1 < (better_trigger gov h b y).1 /\ (better_trigger gov h b y).2 = Some (vecPayments y.2))) as Hb.
  { unfold better_trigger. destruct (mapObjects gov !! y.1) as [a|]; [|by left]. destruct (negb _); [by left|]. destruct (Z.ltb_spec b.1 (GetAbsoluteYesCount a VOTE_SIGNAL_FUNDING)); [by right|by left]. }
  assert (forall o, mapObjects gov !! y.1 = Some o -> trigger_nBlockHeight y.2 = h -> GetAbsoluteYesCount o VOTE_SIGNAL_FUNDING <= (better_trigger gov h b y).1) as Hy.
  { intros o Eo <-. unfold better_trigger. rewrite Eo, Z.eqb_refl. cbn [negb]. destruct (Z.ltb_spec b.1 (GetAbsoluteYesCount o VOTE_SIGNAL_FUNDING)); cbn [fst]; lia. }
  destruct (IH (better_trigger gov h b y)) as [H1 H2]. revert H1 H2 Hb Hy. generalize (better_trigger gov h b y). intros b' H1 H2 Hb Hy. cbv zeta in H1, H2.
  assert (b'.1 <= (fold_left (better_trigger gov h) l b').1) as Hle by (destruct H1 as [->|[]]; lia). split.
  - destruct H1 as [E|(Hlt & z & Hz & Ez)].
    + rewrite E. destruct Hb as [->|[Hb1 Hb2]]; [by left|right]. split; [done|]. exists y. split; [left|done].
    + right. split; [destruct Hb as [->|[]]; lia|]. exists z. split; [by right|done].
  - intros z o [->|Hz]%elem_of_cons Eo Ez; [|by apply (H2 z)]. specialize (Hy o Eo Ez). lia.
Qed.
Lemma triggered_best gov h : CountEnabled (voters gov) ≠ 0 -> 0 < nGovernanceMinQuorum (voters gov) -> IsSuperblockTriggered params gov h = true ->
  exists s, GetBestSuperblock params gov h = Some s /\ exists x, x ∈ mapTrigger gov /\ vecPayments x.2 = s.
Proof.
  intros Hn Hq. unfold IsSuperblockTriggered, IsSuperblockTriggered_step, GetBestSuperblock. destruct (negb (IsValidBlockHeight params h)); [done|].
  pose proof (triggered_voted (voters gov) h (GetActiveTriggers gov) (mapObjects gov) (mapObjects gov) (all_refreshed_refl _ _) Hn) as Hv.
  destruct (triggered_loop _ _ _ _) as [m r]. cbn [snd] in *. intros ->. destruct (Hv eq_refl) as (x & o & Hx & Eo & Eh & Hyes).
  destruct (best_loop gov h (GetActiveTriggers gov) (0, None)) as [H1 H2]. specialize (H2 x o Hx Eo Eh). destruct (fold_left _ _ _) as [n best]. cbn [fst snd] in *.
  destruct H1 as [E|(_ & y & Hy & ->)]; [injection E as -> _; lia|]. destruct (Z.ltb_spec 0 n); [|lia]. eexists. split; [reflexivity|]. exists y. split; [|done].
  unfold GetActiveTriggers in Hy. apply list_elem_of_In, filter_In in Hy as [Hy _]. by apply list_elem_of_In.
Qed.

(** *** The coinbase *)

Definition outs_sum (outs : list CTxOut) : Z := foldr (fun o n => nValue o + n) 0 outs.
Definition amounts_sum (s : CSuperblock) : Z := foldr (fun p n => nAmount p + n) 0 s.
Lemma outs_sum_app l l' : outs_sum (l ++ l') = outs_sum l + outs_sum l'.
Proof. unfold outs_sum. induction l as [|o l IH]; cbn; [done|]. rewrite IH. lia. Qed.
Lemma superblock_outs_sum s : outs_sum (superblock_outs s) = amounts_sum s.
Proof. induction s as [|p s IH]; [done|]. change (nAmount p + outs_sum (superblock_outs s) = nAmount p + amounts_sum s). by rewrite IH. Qed.
Lemma amounts_sum_nonneg s : Forall (fun p => 0 <= nAmount p) s -> 0 <= amounts_sum s.
Proof. unfold amounts_sum. induction 1; cbn; lia. Qed.
Lemma total_amount s : Forall (fun p => 0 <= nAmount p) s -> amounts_sum s < 2 ^ 63 -> GetPaymentsTotalAmount s = amounts_sum s.
Proof.
  intros Hs Hmax. unfold GetPaymentsTotalAmount.
  assert (forall n, 0 <= n -> n + amounts_sum s < 2 ^ 63 -> fold_left (fun n p => i64 (n + nAmount p)) s n = n + amounts_sum s) as H; [|by rewrite H].
  clear Hmax. induction Hs as [|p s Hp Hs IH]; intros n Hn Hmax; unfold amounts_sum in *; cbn [fold_left foldr] in *; [lia|].
  pose proof (amounts_sum_nonneg s Hs) as Hpos. unfold amounts_sum in Hpos. rewrite i64_id by (unfold is_s; lia). rewrite IH; lia.
Qed.
Lemma taken paid : forall v, Forall (fun o => 0 <= nValue o) paid -> 0 <= v < 2 ^ 62 -> outs_sum paid <= v -> fold_left (fun v p => i64 (v - nValue p)) paid v = v - outs_sum paid.
Proof.
  unfold outs_sum. induction paid as [|o paid IH]; intros v Hp Hv Hs; cbn [fold_left foldr] in *; [lia|]. apply Forall_cons in Hp as [Ho Hp].
  assert (0 <= foldr (fun o n => nValue o + n) 0 paid) by (clear -Hp; induction Hp; cbn; lia). rewrite i64_id by (unfold is_s; lia). rewrite IH; [lia|done|lia|lia].
Qed.
Lemma ninth r k : 0 <= r -> 0 <= k <= 9 -> 0 <= Z.quot r 9 * k <= r.
Proof. intros Hr Hk. pose proof (Z.quot_pos r 9 Hr ltac:(lia)). pose proof (Z.mul_quot_le r 9 Hr ltac:(lia)). nia. Qed.
Lemma share_range h reward : 0 <= reward -> 0 <= GetMasternodePayment params h reward <= reward.
Proof.
  intros Hr. unfold GetMasternodePayment. pose proof (ninth reward 2 Hr ltac:(lia)). pose proof (ninth reward 3 Hr ltac:(lia)).
  pose proof (Z.quot_pos reward 5 Hr ltac:(lia)). pose proof (Z.mul_quot_le reward 5 Hr ltac:(lia)).
  destruct (_ && _); [lia|]. destruct (_ && _); [lia|]. destruct (_ <=? _); lia.
Qed.
Lemma outs_paid_all l paid : (forall o, o ∈ l -> o ∈ paid) -> outs_paid l paid = Some true.
Proof.
  induction l as [|o l IH]; intros Hl; cbn [outs_paid]; [done|].
  assert (existsb (fun txout2 => bool_decide (o = txout2)) paid = true) as ->; [|apply IH; intros x Hx; apply Hl; by right].
  apply existsb_exists. exists o. split; [apply list_elem_of_In, Hl; left|by apply bool_decide_eq_true].
Qed.

(** The superblock that is to be paid at a height. *)
Definition superblock_at h : CSuperblock :=
  if SPORK_9_SUPERBLOCKS_ENABLED node && IsSuperblockTriggered params (governance node) h then default [] (GetBestSuperblock params (governance node) h) else [].
(** When a miner can build a coinbase: masternode lists are enforced and there is a
    masternode to pay; and what is asked of a triggered superblock. *)
Record payable (h reward limit : Z) (d : CDeterministicMN) : Prop := {
  pay_reward : 0 <= reward < 2 ^ 48;
  pay_limit : GetPaymentsLimit params h = Some limit /\ 0 <= limit /\ reward + limit <= MAX_MONEY;
  pay_enforced : IsDeterministicMNsSporkActive node h = true;
  pay_list : h - 1 <= chain_Height node /\ exists l, list_at node (h - 1) = Some l /\ GetMNPayee l = Some d;
  pay_operator : 0 <= nOperatorReward d <= 10000;
  pay_quorum : CountEnabled (voters (governance node)) ≠ 0 /\ 0 < nGovernanceMinQuorum (voters (governance node));
  pay_superblock : Forall (fun p => 0 <= nAmount p) (superblock_at h) /\ amounts_sum (superblock_at h) <= limit;
}.

Lemma filled tx o h reward limit d queued : payable h reward limit d -> vout tx = [o] -> nValue o = reward ->
  exists o', nValue o' = reward - GetMasternodePayment params h reward /\
    FillBlockPayments params node tx h reward queued =
      Some (with_vout tx (o' :: payee_outs (GetMasternodePayment params h reward) d ++ superblock_outs (superblock_at h))).
Proof.
  intros [Hr _ Henf [Hh (l & El & Ed)] Hop _ _] Ev Eo. pose proof (share_range h reward (proj1 Hr)) as Hshare.
  destruct (payee_outs_sum (GetMasternodePayment params h reward) d ltac:(lia) Hop) as [Hsum Hpos].
  unfold FillBlockPayments, GetMasternodeTxOuts, GetBlockTxOuts. rewrite Henf. cbn [negb]. rewrite andb_false_r.
  assert ((chain_Height node <? h - 1) = false) as -> by lia. rewrite El. cbn [mbind option_bind option_map]. rewrite Ed. cbn [mbind option_bind option_map].
  set (sb := if SPORK_9_SUPERBLOCKS_ENABLED node && _ then _ else _). assert (sb = superblock_outs (superblock_at h)) as ->.
  { unfold sb, superblock_at. destruct (_ && _); [|done]. by destruct (GetBestSuperblock _ _ _). }
  rewrite Ev. set (pay := payee_outs _ d) in *. destruct (bool_decide (pay = [])) eqn:Ep.
  - apply bool_decide_eq_true in Ep. rewrite Ep in *. exists o. cbn in Hsum. split; [lia|]. cbn [mbind option_bind]. done.
  - cbn [take_from_miner app mbind option_bind]. eexists. split; [|reflexivity]. cbn [nValue]. rewrite Eo. rewrite taken; [unfold outs_sum; by rewrite Hsum| | |unfold outs_sum; lia].
    + eapply Forall_impl; [exact Hpos|]. cbn. lia.
    + lia.
Qed.

Lemma filled_value o' h reward limit d : payable h reward limit d -> nValue o' = reward - GetMasternodePayment params h reward ->
  value_out_loop 0 (o' :: payee_outs (GetMasternodePayment params h reward) d ++ superblock_outs (superblock_at h)) = Some (reward + amounts_sum (superblock_at h)).
Proof.
  intros [Hr (_ & Hl & Hmax) _ _ Hop _ [Hs Htotal]] Eo. pose proof (share_range h reward (proj1 Hr)) as Hshare.
  destruct (payee_outs_sum (GetMasternodePayment params h reward) d ltac:(lia) Hop) as [Hsum Hpos]. change (outs_sum (payee_outs (GetMasternodePayment params h reward) d) = GetMasternodePayment params h reward) in Hsum.
  assert (outs_sum (o' :: payee_outs (GetMasternodePayment params h reward) d ++ superblock_outs (superblock_at h)) = reward + amounts_sum (superblock_at h)) as E.
  { change (nValue o' + outs_sum (payee_outs (GetMasternodePayment params h reward) d ++ superblock_outs (superblock_at h)) = reward + amounts_sum (superblock_at h)).
    rewrite outs_sum_app, Hsum, superblock_outs_sum, Eo. lia. }
  unfold outs_sum in E. rewrite value_out_loop_sum; [by rewrite E|lia| |rewrite E; lia].
  apply Forall_cons. split; [lia|]. apply Forall_app. split; [eapply Forall_impl; [exact Hpos|]; cbn; lia|].
  unfold superblock_outs. apply Forall_map. eapply Forall_impl; [exact Hs|]. done.
Qed.
Lemma not_valid_height h : IsValidBlockHeight params h = false -> IsSuperblockTriggered params (governance node) h = false.
Proof. intros E. unfold IsSuperblockTriggered, IsSuperblockTriggered_step. by rewrite E. Qed.
Lemma before_start h : (h <? nSuperblockStartBlock params) = true -> IsSuperblockTriggered params (governance node) h = false.
Proof. intros E. apply not_valid_height. unfold IsValidBlockHeight. assert ((nSuperblockStartBlock params <=? h) = false) as -> by lia. done. Qed.

(** C37: A miner's coinbase is accepted.  Let masternode lists be enforced at the height, the
    list of the block before have a payee, whose operator's reward is at most all; let the
    reward be below [2^48], and it and the payments' limit at most [MAX_MONEY]; let there be
    masternodes to vote and a positive quorum of votes; and let the superblock that is to
    be paid, if any, have no negative amounts and stay within the limit.  Then the coinbase
    that [FillBlockPayments] makes of one output worth the reward is worth the reward and
    the superblock's payments, and passes both checks, of its value and of its payees,
    whether the node is synchronized or not and a superblock is triggered or not. *)
Theorem miner_coinbase_accepted tx o h reward limit d queued : payable h reward limit d -> vout tx = [o] -> nValue o = reward ->
  exists tx', FillBlockPayments params node tx h reward queued = Some tx' /\
    GetValueOut tx' = Some (reward + amounts_sum (superblock_at h)) /\
    IsBlockValueValid params node tx' h reward = Some true /\ IsBlockPayeeValid params node tx' h reward = Some true.
Proof.
  intros Hpay Ev Eo. destruct (filled tx o h reward limit d queued Hpay Ev Eo) as (o' & Eo' & Efill). eexists. split; [exact Efill|].
  set (outs := o' :: _). assert (GetValueOut (with_vout tx outs) = Some (reward + amounts_sum (superblock_at h))) as Eval by (by apply (filled_value o' h reward limit d)).
  split; [exact Eval|]. pose proof Hpay as [Hr (Elimit & Hl & Hmax) Henf [Hh (l & El & Ed)] Hop [Hcount Hquorum] [Hs Htotal]].
  pose proof (amounts_sum_nonneg _ Hs) as Hsb. assert (forall x, 0 <= x <= reward + limit -> i64 x = x) as Hi by (intros x Hx; apply i64_id; unfold is_s, MAX_MONEY, COIN in *; lia).
  assert (SPORK_9_SUPERBLOCKS_ENABLED node = true -> IsSuperblockTriggered params (governance node) h = true ->
    SuperblockManager_IsValid params (governance node) (with_vout tx outs) h reward = Some true) as Hsuper.
  { intros H9 Ht. destruct (triggered_best (governance node) h Hcount Hquorum Ht) as (s & Es & _). assert (superblock_at h = s) as Esb by (unfold superblock_at; by rewrite H9, Ht, Es).
    unfold SuperblockManager_IsValid. rewrite Es. unfold CSuperblock_IsValid. assert (IsValidBlockHeight params h = true) as ->.
    { unfold IsSuperblockTriggered, IsSuperblockTriggered_step in Ht. by destruct (IsValidBlockHeight params h). }
    rewrite Esb in Hs, Htotal, Hsb, Eval. cbn [negb]. rewrite Elimit, total_amount by (done || (unfold MAX_MONEY, COIN in Hmax; lia)). cbn [mbind option_bind vout with_vout].
    assert ((length outs <? length s)%nat = false) as ->.
    { apply Nat.ltb_ge. unfold outs, superblock_outs. rewrite Esb. cbn [length]. rewrite length_app, length_map. lia. }
    assert ((limit <? amounts_sum s) = false) as -> by lia. rewrite Eval. cbn [mbind option_bind]. rewrite Hi, Z.ltb_irrefl by lia.
    f_equal. apply match_in_order. cbn [drop]. unfold outs. rewrite Esb. apply sublist_inserts_l with (k := [o']). by apply sublist_inserts_l. }
  assert (IsTransactionValid params node (with_vout tx outs) h reward = Some true) as Htx.
  { unfold IsTransactionValid, GetBlockTxOuts. rewrite Henf. assert ((chain_Height node <? h - 1) = false) as -> by lia. rewrite El. cbn [mbind option_bind]. rewrite Ed. cbn [mbind option_bind option_map vout with_vout].
    apply outs_paid_all. intros x Hx. unfold outs. right. apply elem_of_app. by left. }
  split.
  - unfold IsBlockValueValid. rewrite Eval. cbn [mbind option_bind].
    assert (superblock_at h = [] -> (reward + amounts_sum (superblock_at h) <=? reward) = true) as Hno by (intros ->; cbn; lia).
    assert (SPORK_9_SUPERBLOCKS_ENABLED node && IsSuperblockTriggered params (governance node) h = false -> superblock_at h = []) as Hempty by (unfold superblock_at; by intros ->).
    destruct (_ <? _) eqn:Eh; [f_equal; apply Hno, Hempty; by rewrite (before_start h Eh), andb_false_r|]. rewrite Elimit. cbn [mbind option_bind]. rewrite Hi by lia.
    assert ((reward + amounts_sum (superblock_at h) <=? reward + limit) = true) as -> by lia. cbn [negb].
    destruct (IsValidBlockHeight params h) eqn:Evh; cbn [negb]; [|f_equal; apply Hno, Hempty; by rewrite (not_valid_height h Evh), andb_false_r].
    destruct (_ || _); [done|]. destruct (SPORK_9_SUPERBLOCKS_ENABLED node) eqn:E9; cbn [negb andb] in Hempty |- *; [|f_equal; by apply Hno, Hempty].
    destruct (IsSuperblockTriggered params (governance node) h) eqn:Et; cbn [negb]; [by apply Hsuper|f_equal; by apply Hno, Hempty].
  - unfold IsBlockPayeeValid. destruct (_ || _); [done|]. destruct (_ <? _); [done|]. rewrite Htx, Henf. cbn [mbind option_bind negb].
    destruct (SPORK_9_SUPERBLOCKS_ENABLED node) eqn:E9; cbn [andb]; [|done]. destruct (IsSuperblockTriggered params (governance node) h) eqn:Et; [|done].
    rewrite Hsuper by done. done.
Qed.
End Coinbase.

(** *** Examples *)

Definition voted_yes : gmap Z vote_instance_t := {[ VOTE_SIGNAL_FUNDING := {| eOutcome := VOTE_OUTCOME_YES; inst_nTime := 0; nCreationTime := 1500 |} ]}.
Definition voted_object : CGovernanceObject :=
  with_votes (CGovernanceObject_new sample_data)
    (<[sample_outpoint 1 := voted_yes]> {[ sample_outpoint 2 := voted_yes ]}) VoteFile.new true.
Definition P2PKH (n : Z) : list Z := [0x76; 0xa9; 20] ++ replicate 20 n ++ [0x88; 0xac].
Definition sample_payments : CSuperblock := [{| script := P2PKH 1; nAmount := 50 * COIN |}; {| script := P2PKH 2; nAmount := 60 * COIN |}].
Definition sample_pay_node (payments : CSuperblock) : PayState :=
  {| IsSynced := true; fLiteMode := false; SPORK_8_MASTERNODE_PAYMENT_ENFORCEMENT := true; SPORK_9_SUPERBLOCKS_ENABLED := true; IsDeterministicMNsSporkActive := fun _ => true;
     governance := {| mapTrigger := [([1], {| trigger_nBlockHeight := 4040; vecPayments := payments |})]; mapObjects := {[ [1] := voted_object ]}; voters := sample_gov_node (fun _ => true) |};
     mapMasternodeBlocks := ∅; chain_Height := 4039; list_at := fun _ => Some sample_list |}.
Definition sample_coinbase (outs : list CTxOut) : CMutableTransaction :=
  {| nVersion := 2; nType := 0; vin := []; vout := outs; nLockTime := 0; vExtraPayload := [] |}.
(** A block of the test network with a superblock: the reward is 90 coins, the limit 400. *)
Lemma miner_coinbase_accepted_witness :
  let node := sample_pay_node sample_payments in let tx := sample_coinbase [CTxOut_of (90 * COIN) (P2PKH 9)] in
  superblock_at test_money node 4040 = sample_payments /\ GetPaymentsLimit test_money 4040 = Some (400 * COIN) /\
  exists tx', FillBlockPayments test_money node tx 4040 (90 * COIN) None = Some tx' /\
    GetValueOut tx' = Some (90 * COIN + amounts_sum (superblock_at test_money node 4040)) /\
    IsBlockValueValid test_money node tx' 4040 (90 * COIN) = Some true /\ IsBlockPayeeValid test_money node tx' 4040 (90 * COIN) = Some true.
Proof.
  cbv zeta. split; [vm_compute; reflexivity|]. split; [vm_compute; reflexivity|].
  apply (miner_coinbase_accepted test_money (sample_pay_node sample_payments) _ (CTxOut_of (90 * COIN) (P2PKH 9)) 4040 (90 * COIN) (400 * COIN) (MasternodeList.sample_mn 3)); [|reflexivity|reflexivity].
  split.
  - unfold COIN. lia.
  - split; [vm_compute; reflexivity|]. unfold MAX_MONEY, COIN. lia.
  - reflexivity.
  - split; [vm_compute; discriminate|]. exists sample_list. split; vm_compute; reflexivity.
  - vm_compute. split; discriminate.
  - split; [vm_compute; discriminate|vm_compute; reflexivity].
  - split; [|vm_compute; discriminate]. vm_compute. repeat constructor; discriminate.
Defined.

Lemma coinbase_value_witness :
  let node := sample_pay_node sample_payments in let tx := sample_coinbase [CTxOut_of (90 * COIN) (P2PKH 9); CTxOut_of (50 * COIN) (P2PKH 1); CTxOut_of (60 * COIN) (P2PKH 2)] in
  IsBlockValueValid test_money node tx 4040 (90 * COIN) = Some true /\ IsBlockValueValid test_money node (sample_coinbase [CTxOut_of (91 * COIN) []]) 4040 (90 * COIN) = Some false /\
  exists value, GetValueOut tx = Some value /\ value <= 90 * COIN + 400 * COIN /\ (90 * COIN < value -> IsValidBlockHeight test_money 4040 = true /\
    (IsSynced node = true -> fLiteMode node = false ->
       SPORK_9_SUPERBLOCKS_ENABLED node = true /\ IsSuperblockTriggered test_money (governance node) 4040 = true /\
       exists s, GetBestSuperblock test_money (governance node) 4040 = Some s /\ GetPaymentsTotalAmount s <= 400 * COIN /\ value <= 90 * COIN + GetPaymentsTotalAmount s /\
         superblock_paid s (vout tx))).
Proof.
  cbv zeta. split; [vm_compute; reflexivity|]. split; [vm_compute; reflexivity|]. apply (coinbase_value test_money (sample_pay_node sample_payments)).
  - unfold COIN. lia.
  - unfold COIN. lia.
  - unfold COIN. lia.
  - vm_compute. reflexivity.
  - vm_compute. reflexivity.
Defined.
(** Two equal payments of a superblock are satisfied by one output: the search for a payment
    starts at the output that matched the one before. *)
Example one_output_for_two_payments :
  let p := {| script := P2PKH 1; nAmount := 50 * COIN |} in
  IsBlockValueValid test_money (sample_pay_node [p; p]) (sample_coinbase [CTxOut_of (140 * COIN) (P2PKH 9); CTxOut_of (50 * COIN) (P2PKH 1)]) 4040 (90 * COIN) = Some true.
Proof. vm_compute. reflexivity. Qed.
(** The first superblock of the main network, at height 29200, may pay the tenth of all the
    blocks of a cycle; but the rewards are cut since height 25000 only. *)
Example first_superblock_limit :
  GetNearestSuperblocksHeights main_money 100 = (0, 29200) /\ GetPaymentsLimit main_money 29200 = Some (292000 * COIN).
Proof. split; vm_compute; reflexivity. Qed.
